(* ===== verification/_CoqProject ===== *)
-Q . S2P
Prelude.v
Chain.v
Alloc.v
Holewf.v
Sigset.v
Proc.v
Sched.v
Ipc.v
Receive.v
Kernel.v
Boot.v
Running.v
Userq.v
Ksys.v
Ksysp.v
Ksafe.v
Clock.v
Clockp.v
Kmem.v
Tty.v
Ttycall.v
Ring.v
Ttyout.v
Ttyq.v
Ttystream.v
Ttyecho.v
Ttyedit.v
Ttyread.v
Ttytimer.v
Ttysafe.v
Ttyprops.v
Mproc.v
Signal.v
Mcalls.v
Exec.v
Mmain.v
Minv.v
Mexit.v
Mfork.v
Mexec.v
Mrun.v
Mm.v
Mprops.v
Fstate.v
Fdev.v
Cache.v
Super.v
Inode.v
Filedes.v
Rdwr.v
Path.v
Fcalls.v
Fopen.v
Fmisc.v
Fmain.v
Fwp.v
Sortp.v
Cachewf.v
Cachep.v
Cachesem.v
Fworld.v
Fprops.v
Lockp.v
Fdp.v
Icopyp.v
Pipep.v
Fblock.v
Bitmapp.v
Fprops2.v
Driver.v
Memdrv.v
Memp.v
Partp.v
Ramdisk.v
Buf.v
Bufinv.v
Bufops.v
Bufpart.v
Bufapp.v
Bufprops.v
