(* ===== verification/Prelude.v ===== *)
(** * MINIX-ST 2.0.2: a verified model of the kernel's message core and tasks, the
      memory manager, the file system and the buffers of the network server

    MINIX runs as a kernel and two server processes that exchange fixed-size
    messages.  The kernel (src/src/kernel) keeps the process table, the ready
    queues and the rendezvous; the memory manager MM (src/src/mm) keeps the
    hole list and the process table of the system calls on processes; the file
    system FS (src/src/fs) keeps the block cache, the inodes, the descriptors
    and the locks.  A process sends a request to MM or FS and waits; MM asks FS
    to follow a fork, an exit or an exec ([tell_fs]); both ask the kernel's
    tasks to copy memory and to drive devices; the kernel tells MM of signals.
    The clock task keeps the alarms and the time; the system task creates,
    destroys, maps and signals processes and copies memory for the servers.
    The network server (src/src/inet) keeps its packets in shared buffers.
    Each is modelled here as the sequential C program it is, with its tables as
    the state, and each handler is a function of the model.

    ** How the code is modelled

    A C function is a function of the monad [M S] of this file: from a state to
    a result and a state, or a [panic] (which stops the system), a [fault] (an
    access out of a table, through a null pointer or through a dangling one) or
    [NoFuel] (a loop that did not end within its bound).  Integers are [Z], kept
    in their widths by [u8], [u16], [u32], [s8], [s16] and [s32] where the code
    stores or computes them: [int] has 16 bits and [long] 32, and memory is
    big-endian.  A table is a function from indices, a pointer into it an index, and
    every access checks the index.  Statements about programs use [wp m Q s]:
    from [s], [m] returns a result and a state that satisfy [Q]; it excludes
    panics, faults and endless loops.  Theorems say the same as
    [∃ r s', m s = Ret r s' ∧ ...].

    What a server asks of another process or of a device is a parameter of the
    model: [Servers] for MM and [World] for FS, functions from the calls made
    so far and the call to the answer.  Nothing is assumed of them but what a
    theorem names: [ServersOk] (a core dump ends: tracing beyond the process
    table entry is refused, and FS writes all bytes or fails), [ExecOk] (a program
    is read to its end: FS reads no more than it is asked for, and files end),
    [DiskLaw] (a disk task answers the request made, and does not suspend FS) and
    [DiskStore] (a disk returns what was last written to it).  Fworld.v has an
    environment for which the laws are proved; every witness runs in it.

    ** Bounds on loops

    A loop over a table runs over the list of its indices.  A loop that follows
    links has a bound: [proc_fuel] (80, the process table has fewer entries),
    [hole_fuel] (129, for 128 holes), [buf_fuel] (one more than the number of
    buffers), [pid_fuel] (200, for at most 128 ids in use), [exit_fuel] (66, for
    the depth of the exits that signal process groups), [in_fuel] (257, for 256
    characters in a queue), [time_fuel] (13, for 12 lines), and those of execve:
    [patch_fuel] (1026, for 1023 pointers), [skip_fuel] (4100, for 4096 bytes),
    [word_fuel] (257, for 255 characters), [rw_fuel] (140000, for 2^32 bytes in
    pieces of 31 blocks) and [reloc_fuel] (70000, for the buffers of the largest
    file); the theorems prove that they suffice.  Loops over strings and numbers have the size they
    count to.  Loops that the code itself does not bound ([call_task],
    [slink_traverse], the climb of [do_rename]) have the bound [patience] of
    the environment, so that a theorem for all environments holds for all bounds.
    [handle_events] repeats while a line has events: its bound [patience] of
    [TtyWorld] is enough above 2^16 + 2, since each round that leaves an event
    uses up input, output or the stop of the line.  Chains of buffers have the bound
    [acc_fuel] (49, for 48 accessors), requests twice their size (each wait gives a
    buffer), and [pack_fuel] (the bytes to copy and both chains).  The chain of extended
    partitions may be a cycle: it has the bound [patience] of [Place], and no
    theorem says that it ends.

    ** The files

    - Theory: Prelude.v (monad, weakest preconditions, record update, widths,
      flags), Chain.v (singly and doubly linked lists through a table), Sigset.v (lib/posix/_sigset.c).
    - Kernel: Proc.v is kernel/proc.c, with [inform] and [cause_sig] of
      system.c and stshadow.c; Sched.v (the ready queues refine lists), Ipc.v
      (the invariant of caller queues and of the graph of senders), Receive.v,
      Kernel.v (the transition relation [kstep] and its reachable states), Boot.v
      (kernel/stmain.c's process table, and the properties), Running.v (what the
      kernel's calls do to the running process).
    - The kernel's tasks: Ksys.v is the rest of kernel/system.c, Clock.v is
      kernel/clock.c; both run on the state [sysst], the kernel of Proc.v with
      the other fields of the process table and the variables of the clock.
      Userq.v (processes taken off their queues while a task runs), Ksysp.v
      (rules for [sysst], the caller queues without a killed sender), Ksafe.v
      (safety of the requests), Kmem.v (memory as bytes, copies, signal frames),
      Clockp.v (the alarms).
    - The terminal task: Tty.v (lines, input, echo, output processing, timers and
      pseudo terminals of kernel/tty.c and pty.c) and Ttycall.v (attributes,
      events, requests, main loop), on the state [ttyst], which contains [sysst].
      Ring.v (circular buffers as lists), Ttyout.v (output processing), Ttyq.v
      (the invariant), Ttystream.v (the output of a pseudo terminal), Ttyecho.v
      (echo and erasing), Ttyedit.v (the line editor), Ttyread.v (readers),
      Ttytimer.v (timers), Ttysafe.v and Ttyprops.v (the properties).
    - The block devices: Driver.v is the part of the disk tasks that does not
      depend on the disk (kernel/driver.c and drvlib.c), over the classes [Device]
      and [Entry], which are the pointers of struct driver; Memdrv.v is
      kernel/memory.c, their instance for the RAM disk and the other memory
      devices.  Memp.v (transfers, single and scattered, the device of zeros),
      Partp.v (partitions, over the class [DeviceLaws]), Ramdisk.v (the RAM disk
      as the disk of FS: the models of FS and of the kernel meet here).
    - The network server's buffers: Buf.v is inet/buf.c, over the class [Clients]
      (the functions that free buffers).  Bufinv.v (link counts are the numbers of
      references, and steps that keep them so), Bufops.v (freeing, duplicates and
      requests; the class [ClientLaws]: what is relied on of the clients), Bufpart.v
      (contents, pack and cut), Bufapp.v (delhead and the parts of append), Bufprops.v
      (append and align, packets as byte strings, bf_init and bf_logon, a client
      that satisfies the laws, and the properties).
    - MM: Alloc.v and Holewf.v (alloc.c), Mproc.v (mproc.h, break.c, getset.c,
      tell_fs), Signal.v (exit, signals, core dumps), Mcalls.v (fork, wait,
      kill, ptrace, ...), Exec.v (exec.c), Mmain.v (main.c, table.c); Minv.v (the
      invariant), Mexit.v, Mfork.v, Mexec.v, Mrun.v (exit and signals, fork, execve and
      every call keep it), Mm.v and Mprops.v (its properties).
    - FS, the program: Fstate.v (tables, constants, messages, environment),
      Fdev.v (device requests, suspend, revive, release), Cache.v (cache.c and
      cache2.c), Super.v (super.c, zones), Inode.v (inode.c, read_map,
      truncate), Filedes.v (filedes.c, pipe_check, lock.c), Rdwr.v (read.c,
      write.c), Path.v (path.c, forbidden), Fcalls.v (protect.c, time.c,
      stadir.c, link.c), Fopen.v (open.c, pipes, devices), Fmisc.v (mount.c,
      misc.c, do_unpause, do_ioctl), Fmain.v (main.c, table.c).
    - FS, the proofs: Fwp.v (rules and automation), Sortp.v (Shell sort),
      Cachewf.v, Cachep.v, Cachesem.v (the cache: structure, I/O, contents),
      Fworld.v (an environment), Fprops.v (the cache's contract), Fblock.v (the
      contract as the class [BlockCache], with the cache as its instance),
      Bitmapp.v (bit maps, proved against the class), Lockp.v, Fdp.v, Icopyp.v,
      Pipep.v, Fprops2.v (the contracts of these tables).

    A definition has the name of the C function; the parts of a long function
    are definitions of their own, composed in the order of the code.

    ** What is shown

    - The kernel: from start-up on, whatever the arguments of the calls, every entry
      point returns and keeps the ready queues, the caller queues and the acyclic
      graph of senders consistent, but for the two sends of tasks and servers that
      the code does not refuse: to ANY, which faults, and to oneself, which leaves
      a cycle of one ([Boot.kernel_safe], [Boot.kernel_reachable]); [sys_call] is
      rendezvous message passing with first-in first-out queues; a send to another
      process is refused exactly when it would close a cycle; held interrupts are
      all delivered; the scheduler refines queues.
    - The system task: a request made as the servers make it ends without a fault
      and keeps the kernel's invariant ([Ksafe.sys_requests_safe]; [good_request]
      is the protocol); a caught signal and the return from it
      restore the registers; SYS_COPY copies what it is asked for; the entries
      of parent and child after a fork, the reply of SYS_TIMES and the ranges
      [umap] accepts are exact.
    - The clock task: a tick sets off exactly the alarms that are due, in table
      order - a signal, the watchdog of a driver or a synchronous alarm - and the
      next alarm is exact ([Clockp.clocktick_fires]); the watchdogs are parameters
      that keep the kernel's invariant.
    - The terminal task: requests on pseudo terminals and their events end without
      a fault and keep the invariant ([Ttyprops.tty_requests_safe]); typing is
      line editing on a list, reading takes lines off it, and a typed line is what
      is read; output processing is [expand], and what a pseudo terminal's writer
      writes reaches its reader as that stream; timers fire when they are due.
    - The block devices: the memory task does for the RAM disk what the block
      cache of FS relies on of a disk, for single and for scattered requests
      ([Ramdisk.ram_disk_serves], [Ramdisk.ram_disk_scattered]); the RAM disk is
      taken from free memory, exactly if it has fewer than 16384 blocks; partitions
      are within their device, but for those in an extended partition; the
      null device and the device of zeros are what they are called.
    - The network server's buffers: any sequence of operations on packets does what
      it does on immutable byte strings, although accessors and buffers are shared
      ([Bufprops.buffers_refine]); nothing is lost when all packets are given back;
      a request for what is free is granted.  Elsewhere the server may stop for
      want of buffers or accessors ([out] of Bufops.v names the two messages).
    - MM: the hole list refines first-fit allocation on sorted, coalesced holes;
      every request of a user process, execve included, and every signal of the
      kernel is handled to its end in a well-formed state, within the laws
      [ServersOk] and [ExecOk] ([Mm.mm_main_safe]; it states the panic of ptrace and
      the condition on the stack image of execve); wait, kill, fork, brk, the
      signal mask and alarms do what they promise on every branch.
    - FS: the block cache keeps its chains well-formed whatever the disks do, and
      with perfect disks it is transparent and what is written is read back; the
      sort before scattered I/O sorts; bit maps allocate the first clear bit
      and change nothing else; record locks of different processes never
      conflict; descriptors and filp counts agree across fork; inodes survive
      the disk in both formats and byte orders; a pipe is never overfilled.
    - Behaviours that a reader may not expect are theorems too:
      [Boot.self_send_cycle], [Boot.send_any_faults],
      [Mprops.do_trace_exited_panics], [Bufprops.align_stays], the other processes' locks in
      [Fprops2.unlock_releases], the suspended non-blocking writer in
      [Fprops2.pipe_write_bounds] and [Fprops2.slink_search_hangs].

    ** Not modelled

    The assembly code (mpx, klib) and the device drivers of the kernel (disks,
    screen, keyboard, serial lines, network, printer): their behaviour is their
    hardware registers', and the part of the disk drivers that is common to them
    is modelled with the device as a class; the DMA buffer is an address [tmp_buf],
    the names that drivers print are not modelled, and the sending of
    [clock_mess] is not (the message is); the functions of the screen and of the serial lines that
    the terminal task calls are the classes [Lines] and [Events]; the routines of klib that copy, exchange and clear memory are
    modelled by their effect (a copy, for ranges that do not overlap).  In the
    system and clock tasks: the layout of [struct proc], read by T_GETUSER only,
    the watchdogs and the wake-up routines of the drivers are parameters; the
    buffers of messages are apart from the memory of the bytes; that a task is
    interrupted between two operations is not modelled.  The
    protocols, message queues and Ethernet task of the network server (of inet only
    buf.c is modelled, without its consistency checks), the library apart from
    _sigset.c, the commands, the boot monitor and the tools: separate programs that
    only use the calls modelled here.  Within the parts modelled: console output, and the contents
    of memory not initialised, which are parameters ([junk], [no_value],
    [path_guard]).  The system calls of FS are modelled completely, but their
    safety as a whole (an invariant of every table kept by [serve]) is not
    proved, nor the contents of files and directories through [read_write],
    [search_dir] and [write_map]. *)

From Stdlib Require Export ZArith Lia.
From stdpp Require Export base tactics numbers list list_numbers functions gmap strings.

#[global] Open Scope Z_scope.

(** The lemmas [auto] uses: those of the memory manager, and those of FS. *)
Create HintDb mm.
Create HintDb fs.

(** ** The state and error monad of the model

    The servers and the kernel are sequential C code over global tables.  A
    C function is modelled as a function from the state to a [res]: it
    returns a value and a new state, it panics (the C [panic()] routines do
    not return), it faults (an access outside a table, through a null pointer
    or through an uninitialised pointer), or it exceeds the iteration bound
    of one of its loops. *)

Inductive res (S A : Type) : Type :=
  | Ret (a : A) (s : S)
  | Panic (why : string) (num : Z)
  | Fault
  | NoFuel.
Arguments Ret {S A} a s.
Arguments Panic {S A} why num.
Arguments Fault {S A}.
Arguments NoFuel {S A}.

Definition M (S A : Type) : Type := S → res S A.

#[global] Instance M_ret {S} : MRet (M S) := λ A a s, Ret a s.
#[global] Instance M_bind {S} : MBind (M S) := λ A B f m s,
  match m s with
  | Ret a s' => f a s'
  | Panic w n => Panic w n
  | Fault => Fault
  | NoFuel => NoFuel
  end.

Definition gets {S A} (f : S → A) : M S A := λ s, Ret (f s) s.
Definition modify {S} (f : S → S) : M S unit := λ s, Ret tt (f s).
Definition panic {S A} (why : string) (num : Z) : M S A := λ _, Panic why num.
Definition fault {S A} : M S A := λ _, Fault.
Definition no_fuel {S A} : M S A := λ _, NoFuel.

(** Dereference: a missing value is a fault. *)
Definition deref {S A} (o : option A) : M S A :=
  match o with Some a => mret a | None => fault end.

(** [when b m]: the C statement [if (b) m;]. *)
Definition when {S} (b : bool) (m : M S unit) : M S unit :=
  if b then m else mret tt.

(** A loop with an iteration bound.  The body maps the loop variables either
    to their next values ([inl]) or to the result with which the loop is
    left ([inr]). *)
Fixpoint loop {S A R} (fuel : nat) (body : A → M S (A + R)) (a : A) : M S R :=
  match fuel with
  | O => no_fuel
  | Datatypes.S n =>
      x ← body a;
      match x with inl a' => loop n body a' | inr r => mret r end
  end.

(** [for (i in l) { r = f(i); if (r) return r; }] *)
Fixpoint for_each {S R} (l : list Z) (f : Z → M S (option R)) : M S (option R) :=
  match l with
  | [] => mret None
  | i :: l' =>
      r ← f i;
      match r with Some r => mret (Some r) | None => for_each l' f end
  end.

(** [for (i in l) a = f(a, i);] *)
Fixpoint fold_m {S A} (f : A → Z → M S A) (a : A) (l : list Z) : M S A :=
  match l with
  | [] => mret a
  | i :: l' => a ← f a i; fold_m f a l'
  end.

(** The same loop, left early with [inr]. *)
Fixpoint fold_until {S A R} (f : A → Z → M S (A + R)) (a : A) (l : list Z) : M S (A + R) :=
  match l with
  | [] => mret (inl a)
  | i :: l' =>
      x ← f a i;
      match x with inl a' => fold_until f a' l' | inr r => mret (inr r) end
  end.

(** ** Weakest preconditions

    [wp m Q s]: from [s], [m] returns normally with a result satisfying [Q]:
    no panic, no fault and no exhausted loop bound.  [wpx E] also allows the
    panics for the reasons in [E]. *)
Definition wp {S A} (m : M S A) (Q : A → S → Prop) (s : S) : Prop :=
  match m s with Ret a s' => Q a s' | _ => False end.
Definition wpx {S A} (E : string → Prop) (m : M S A) (Q : A → S → Prop) (s : S) : Prop :=
  match m s with Ret a s' => Q a s' | Panic w _ => E w | _ => False end.

Section wp.
Context {S : Type}.

Lemma wp_eq {A} (m : M S A) Q s a s' : m s = Ret a s' → Q a s' → wp m Q s.
Proof. unfold wp. by intros ->. Qed.

Lemma wp_ret {A} (a : A) (Q : A → S → Prop) s : Q a s → wp (mret a) Q s.
Proof. done. Qed.

Lemma wp_bind {A B} (m : M S A) (k : A → M S B) Q s :
  wp m (λ a, wp (k a) Q) s → wp (m ≫= k) Q s.
Proof. unfold wp, mbind, M_bind. by destruct (m s). Qed.

Lemma wp_mono {A} (m : M S A) (Q Q' : A → S → Prop) s :
  wp m Q s → (∀ a s', Q a s' → Q' a s') → wp m Q' s.
Proof. unfold wp. destruct (m s); naive_solver. Qed.

Lemma wp_inv {A} (m : M S A) Q s : wp m Q s → ∃ a s', m s = Ret a s' ∧ Q a s'.
Proof. unfold wp. destruct (m s); naive_solver. Qed.

Lemma wp_gets {A} (f : S → A) Q s : Q (f s) s → wp (gets f) Q s.
Proof. done. Qed.

Lemma wp_modify (f : S → S) Q s : Q tt (f s) → wp (modify f) Q s.
Proof. done. Qed.

Lemma wp_deref {A} (o : option A) a (Q : A → S → Prop) s : o = Some a → Q a s → wp (deref o) Q s.
Proof. by intros ->. Qed.

Lemma wp_when b (m : M S unit) Q s :
  (b = true → wp m Q s) → (b = false → Q tt s) → wp (when b m) Q s.
Proof. destruct b; naive_solver. Qed.

Lemma loop_unfold {A R} n (body : A → M S (A + R)) a :
  loop (Datatypes.S n) body a =
    (x ← body a; match x with inl a' => loop n body a' | inr r => mret r end).
Proof. done. Qed.

(** Total correctness of a bounded loop: an invariant and a measure that
    starts below the bound and decreases at every iteration. *)
Lemma wp_loop {A R} (I : A → S → Prop) (μ : A → S → nat) fuel
    (body : A → M S (A + R)) Q a s :
  (∀ a s, I a s →
     wp (body a) (λ x s', match x with
                          | inl a' => I a' s' ∧ (μ a' s' < μ a s)%nat
                          | inr r => Q r s'
                          end) s) →
  I a s → (μ a s < fuel)%nat → wp (loop fuel body a) Q s.
Proof.
  intros Hbody. revert a s. induction fuel as [|fuel IH]; intros a s HI Hμ; [lia|].
  rewrite loop_unfold. apply wp_bind. eapply wp_mono; [by apply Hbody|].
  intros [a'|r] s'; cbn; [|done]. intros [HI' Hdec]. apply IH; [done|lia].
Qed.

(** A search by [for_each] stops at the first element that satisfies [p]. *)
Lemma wp_for_each_first {R} (l : list Z) (f : Z → M S (option R)) (p : Z → bool) Q s :
  (∀ x, x ∈ l → p x = false → f x s = Ret None s) →
  (∀ l1 x l2, l = l1 ++ x :: l2 → (∀ y, y ∈ l1 → p y = false) → p x = true →
     wp (f x) (λ r s', is_Some r ∧ Q r s') s) →
  ((∀ x, x ∈ l → p x = false) → Q None s) → wp (for_each l f) Q s.
Proof.
  intros Hf Hfound Hnone. change l with ([] ++ l) in Hfound, Hnone.
  assert (Hpre : ∀ y, y ∈ [] → p y = false) by (intros y Hy; by apply elem_of_nil in Hy).
  revert Hfound Hnone Hpre. generalize (@nil Z) as pre.
  induction l as [|x l IH]; intros pre Hfound Hnone Hpre; cbn [for_each].
  { apply wp_ret, Hnone. rewrite app_nil_r. exact Hpre. }
  apply wp_bind. destruct (p x) eqn:Ex.
  - eapply wp_mono; [by apply (Hfound pre x l)|]. cbn beta. intros [r|] s' [[r' [=]] HQ]. by apply wp_ret.
  - eapply wp_eq; [apply Hf; [left|done]|]. apply (IH (λ y Hy, Hf y ltac:(by right)) (pre ++ [x])).
    + intros l1 y l2 E. apply (Hfound l1 y l2). by rewrite <- E, <- app_assoc.
    + rewrite <- app_assoc. exact Hnone.
    + intros y [?| ->%list_elem_of_singleton]%elem_of_app; [by apply Hpre|done].
Qed.

Lemma wp_wpx {A} (E : string → Prop) (m : M S A) Q s : wp m Q s → wpx E m Q s.
Proof. unfold wp, wpx. by destruct (m s). Qed.

Lemma bind_eq {A B} (m : M S A) (k : A → M S B) s a s' :
  m s = Ret a s' → (m ≫= k) s = k a s'.
Proof. unfold mbind, M_bind. by intros ->. Qed.

End wp.

(** The same rules for [wpx]. *)
Section wpx.
Context {S : Type} (E : string → Prop).

Lemma wpx_ret {A} (a : A) (Q : A → S → Prop) s : Q a s → wpx E (mret a) Q s.
Proof. done. Qed.

Lemma wpx_bind {A B} (m : M S A) (k : A → M S B) Q s :
  wpx E m (λ a, wpx E (k a) Q) s → wpx E (m ≫= k) Q s.
Proof. unfold wpx, mbind, M_bind. by destruct (m s). Qed.

Lemma wpx_mono {A} (m : M S A) (Q Q' : A → S → Prop) s :
  wpx E m Q s → (∀ a s', Q a s' → Q' a s') → wpx E m Q' s.
Proof. unfold wpx. destruct (m s); naive_solver. Qed.

Lemma wpx_eq {A} (m m' : M S A) Q s : m s = m' s → wpx E m' Q s → wpx E m Q s.
Proof. unfold wpx. by intros ->. Qed.

Lemma wpx_weaken {A} (E' : string → Prop) (m : M S A) Q s : (∀ w, E' w → E w) → wpx E' m Q s → wpx E m Q s.
Proof. unfold wpx. destruct (m s); naive_solver. Qed.

Lemma wpx_gets {A} (f : S → A) Q s : Q (f s) s → wpx E (gets f) Q s.
Proof. done. Qed.

Lemma wpx_modify (f : S → S) Q s : Q tt (f s) → wpx E (modify f) Q s.
Proof. done. Qed.

Lemma wpx_panic {A} w n (Q : A → S → Prop) s : E w → wpx E (panic w n) Q s.
Proof. done. Qed.

Lemma wpx_when b (m : M S unit) Q s :
  (b = true → wpx E m Q s) → (b = false → Q tt s) → wpx E (when b m) Q s.
Proof. destruct b; naive_solver. Qed.

(** Total correctness of a bounded loop, panics apart. *)
Lemma wpx_loop {A R} (I : A → S → Prop) (μ : A → S → nat) fuel
    (body : A → M S (A + R)) Q a s :
  (∀ a s, I a s →
     wpx E (body a) (λ x s', match x with
                          | inl a' => I a' s' ∧ (μ a' s' < μ a s)%nat
                          | inr r => Q r s'
                          end) s) →
  I a s → (μ a s < fuel)%nat → wpx E (loop fuel body a) Q s.
Proof.
  intros Hbody. revert a s. induction fuel as [|fuel IH]; intros a s HI Hμ; [lia|].
  rewrite loop_unfold. apply wpx_bind. eapply wpx_mono; [by apply Hbody|].
  intros [a'|r] s'; cbn; [|done]. intros [HI' Hdec]. apply IH; [done|lia].
Qed.

(** A search by [for_each] whose body keeps [I]. *)
Lemma wpx_for_each {R} (I : S → Prop) (l : list Z) (f : Z → M S (option R)) Q s :
  (∀ x s, x ∈ l → I s → wpx E (f x) (λ r s', match r with Some _ => Q r s' | None => I s' end) s) →
  I s → (∀ s, I s → Q None s) → wpx E (for_each l f) Q s.
Proof.
  intros Hf HI Hn. revert s HI. induction l as [|x l IH]; intros s HI; cbn [for_each]; [by apply wpx_ret, Hn|].
  apply wpx_bind. eapply wpx_mono; [apply Hf; [left|done]|]. intros [r|] s' H'; [by apply wpx_ret|].
  apply IH; [|done]. intros y s2 Hy. apply Hf. by right.
Qed.

(** A loop over a list whose body keeps [I]. *)
Lemma wpx_fold {A} (I : list Z → A → S → Prop) (f : A → Z → M S A) (l : list Z) a s :
  (∀ a x l s, I (x :: l) a s → wpx E (f a x) (λ a' s', I l a' s') s) →
  I l a s → wpx E (fold_m f a l) (λ a' s', I [] a' s') s.
Proof.
  intros Hf. revert a s. induction l as [|x l IH]; intros a s HI; cbn [fold_m]; [by apply wpx_ret|].
  apply wpx_bind. eapply wpx_mono; [by apply Hf|]. intros a' s' H'. by apply IH.
Qed.
End wpx.

#[global] Typeclasses Opaque M.
Arguments loop : simpl never.
Arguments for_each : simpl never.
Arguments wp {S A} m Q s : simpl never.
Arguments wpx {S A} E m Q s : simpl never.

(** One step of symbolic execution of a model function under [wp]. *)
Ltac wp_step :=
  lazymatch goal with
  | |- wp (mbind _ _) _ _ => apply wp_bind
  | |- wp (mret _) _ _ => apply wp_ret
  | |- wp (gets _) _ _ => apply wp_gets
  | |- wp (modify _) _ _ => apply wp_modify
  | |- wp (deref _) _ _ => eapply wp_deref; [first [eassumption | reflexivity | idtac]|]
  | |- wp (when _ _) _ _ => apply wp_when
  | |- wp (if ?b then _ else _) _ _ => let E := fresh "E" in destruct b eqn:E
  end; cbv beta.
Ltac wp_steps := repeat wp_step.

(** ** Record update

    [r <| f := v |>] is [r] with field [f] set to [v].  A record type gives
    its eta expansion once ([Eta]); the update of a field is derived from it. *)
Class Eta (R : Type) := eta : R → R.
Class Upd {R T : Type} (proj : R → T) := upd : T → R → R.
Arguments upd {R T} proj {_} v r.
#[global] Typeclasses Opaque Eta Upd.
Declare Scope record_scope.
Notation "r <| f := v |>" := (upd f v r)
  (at level 1, f at next level, left associativity,
   format "r  <| f  :=  v |>") : record_scope.
#[global] Open Scope record_scope.

Ltac derive_upd :=
  lazymatch goal with
  | |- Upd ?proj =>
      let v := fresh "v" in let r := fresh "r" in intros v r;
      let e := eval hnf in (eta r) in
      let e := eval pattern (proj r) in e in
      lazymatch e with
      | ?g _ => let t := eval cbv beta in (g v) in exact t
      end
  end.

(** ** Flag words

    The C code keeps sets of conditions in the bits of an integer. *)
Definition has (f m : Z) : bool := negb (Z.land f m =? 0).
Definition setf (f m : Z) : Z := Z.lor f m.
Definition clrf (f m : Z) : Z := Z.land f (Z.lnot m).

Section flags.
Implicit Types f m : Z.

Lemma has_0 m : has 0 m = false.
Proof. unfold has. by rewrite Z.land_0_l. Qed.

Lemma clrf_0 m : clrf 0 m = 0.
Proof. unfold clrf. by rewrite Z.land_0_l. Qed.

Lemma has_clrf_same f m : has (clrf f m) m = false.
Proof.
  unfold has, clrf. rewrite <- Z.land_assoc, (Z.land_comm (Z.lnot m)).
  by rewrite Z.land_lnot_diag, Z.land_0_r.
Qed.

Lemma has_clrf_other f m m' : Z.land m m' = 0 → has (clrf f m) m' = has f m'.
Proof.
  intros H. unfold has, clrf. do 2 f_equal.
  apply Z.bits_inj'. intros i Hi. rewrite !Z.land_spec, Z.lnot_spec by done.
  assert (Hb : Z.testbit (Z.land m m') i = false) by (by rewrite H, Z.bits_0).
  rewrite Z.land_spec in Hb.
  destruct (Z.testbit f i), (Z.testbit m i), (Z.testbit m' i); naive_solver.
Qed.

Lemma has_setf_other f m m' : Z.land m m' = 0 → has (setf f m) m' = has f m'.
Proof.
  intros H. unfold has, setf. rewrite Z.land_lor_distr_l, H. by rewrite Z.lor_0_r.
Qed.

Lemma has_setf_same f m : m ≠ 0 → has (setf f m) m = true.
Proof.
  intros H. unfold has, setf. rewrite Z.land_lor_distr_l, Z.land_diag.
  apply negb_true_iff, Z.eqb_neq. intros E. by apply Z.lor_eq_0_iff in E as [_ ?].
Qed.

Lemma setf_nonzero f m : m ≠ 0 → setf f m ≠ 0.
Proof. unfold setf. intros H E. by apply Z.lor_eq_0_iff in E as [_ ?]. Qed.

Lemma clrf_setf_0 m : m ≠ 0 → clrf (setf 0 m) m = 0.
Proof. intros H. unfold clrf, setf. by rewrite Z.lor_0_l, Z.land_lnot_diag. Qed.

Lemma land_single f i : 0 ≤ i → Z.land f (2 ^ i) = if Z.testbit f i then 2 ^ i else 0.
Proof.
  intros Hi. apply Z.bits_inj'. intros j Hj. rewrite Z.land_spec.
  destruct (decide (i = j)) as [<-|].
  - rewrite Z.pow2_bits_true, andb_true_r by done.
    destruct (Z.testbit f i); by rewrite ?Z.pow2_bits_true, ?Z.bits_0.
  - rewrite Z.pow2_bits_false, andb_false_r by done.
    destruct (Z.testbit f i); by rewrite ?Z.pow2_bits_false, ?Z.bits_0.
Qed.

Lemma has_nonzero f m : has f m = true → f ≠ 0.
Proof. intros H ->. by rewrite has_0 in H. Qed.

Lemma has_land_single f a b :
  Z.land a b = 0 → (Z.land f (Z.lor a b) =? a) = true →
  (Z.land f a =? a) = true ∧ has f b = false.
Proof.
  intros H E%Z.eqb_eq. split.
  - apply Z.eqb_eq. rewrite Z.land_lor_distr_r in E.
    apply (f_equal (Z.land a)) in E. rewrite Z.land_diag, Z.land_lor_distr_r in E.
    rewrite (Z.land_comm f b), (Z.land_assoc a b f), H, Z.land_0_l, Z.lor_0_r in E.
    by rewrite (Z.land_comm f a), Z.land_assoc, Z.land_diag, Z.land_comm in E.
  - unfold has. apply negb_false_iff, Z.eqb_eq.
    rewrite Z.land_lor_distr_r in E. apply (f_equal (Z.land b)) in E.
    rewrite (Z.land_comm b a), H, Z.land_lor_distr_r in E.
    apply Z.lor_eq_0_iff in E as [_ E].
    by rewrite (Z.land_comm f b), Z.land_assoc, Z.land_diag, Z.land_comm in E.
Qed.
End flags.

(** ** Machine integers *)
Definition u8 (x : Z) : Z := x mod 2 ^ 8.
Definition u16 (x : Z) : Z := x mod 2 ^ 16.
Definition u32 (x : Z) : Z := x mod 2 ^ 32.
(** Conversion to a signed 8-, 16- or 32-bit integer. *)
Definition s8 (x : Z) : Z := (x + 2 ^ 7) mod 2 ^ 8 - 2 ^ 7.
Definition s16 (x : Z) : Z := (x + 2 ^ 15) mod 2 ^ 16 - 2 ^ 15.
Definition s32 (x : Z) : Z := (x + 2 ^ 31) mod 2 ^ 32 - 2 ^ 31.

Lemma u16_id x : 0 ≤ x < 2 ^ 16 → u16 x = x.
Proof. apply Z.mod_small. Qed.
Lemma u32_id x : 0 ≤ x < 2 ^ 32 → u32 x = x.
Proof. apply Z.mod_small. Qed.
Lemma u16_range x : 0 ≤ u16 x < 2 ^ 16.
Proof. by apply Z.mod_pos_bound. Qed.
Lemma u32_range x : 0 ≤ u32 x < 2 ^ 32.
Proof. by apply Z.mod_pos_bound. Qed.
Lemma s16_id x : - 2 ^ 15 ≤ x < 2 ^ 15 → s16 x = x.
Proof. intros. unfold s16. rewrite Z.mod_small; lia. Qed.
Lemma s32_id x : - 2 ^ 31 ≤ x < 2 ^ 31 → s32 x = x.
Proof. intros. unfold s32. rewrite Z.mod_small; lia. Qed.
Lemma u16_s16 x : u16 (s16 x) = u16 x.
Proof. unfold u16, s16. rewrite Zminus_mod, Zmod_mod, <- Zminus_mod. f_equal. lia. Qed.

(** [bool_decide] with the C reading of equality tests on pointers. *)
Definition ptr_eq (p q : option Z) : bool := bool_decide (p = q).

(** Decide the comparisons of a boolean goal. *)
Ltac zcmp := repeat match goal with
  | |- context [?a <=? ?b] => destruct (Z.leb_spec a b)
  | |- context [?a <? ?b] => destruct (Z.ltb_spec a b)
  | |- context [?a =? ?b] => destruct (Z.eqb_spec a b)
  end; cbn [andb orb negb]; try done; try lia.

(** ** Generic lemmas *)
Lemma Forall_both {A} (P Q R : A → Prop) l :
  Forall P l → Forall Q l → (∀ x, P x → Q x → R x) → Forall R l.
Proof.
  rewrite !Forall_forall. intros HP HQ HR x Hx. by apply HR; [apply HP|apply HQ].
Qed.
