(* ===== verification/Chain.v ===== *)
(** * Chains: singly linked lists threaded through a table

    The kernel and the servers keep almost all their queues the same way: a
    table of structures, a head pointer and a link field in each structure
    (the hole list and free-slot list of mm/alloc.c, the ready queues, caller
    queues and held-interrupt queue of kernel/proc.c, the LRU and hash chains
    of fs/cache.c).  This file is the theory of such lists: [nx] gives the link
    stored in each table entry and [lseg nx h l e] says that following links
    from [h] visits exactly the entries [l] and then arrives at [e]. *)

From S2P Require Import Prelude.

Fixpoint lseg (nx : Z → option Z) (h : option Z) (l : list Z) (e : option Z) : Prop :=
  match l with
  | [] => h = e
  | k :: l' => h = Some k ∧ lseg nx (nx k) l' e
  end.

Abbreviation chain nx h l := (lseg nx h l None).

(** The link function after the link of [k] has been set to [v]. *)
Definition relink (nx : Z → option Z) (k : Z) (v : option Z) : Z → option Z :=
  λ i, if decide (i = k) then v else nx i.

Section chain.
Implicit Types nx : Z → option Z.

Lemma lseg_ext nx nx' h l e :
  (∀ k, k ∈ l → nx' k = nx k) → lseg nx h l e → lseg nx' h l e.
Proof.
  revert h. induction l as [|k l IH]; intros h Hnx; [done|].
  intros [-> Hl]. split; [done|]. rewrite Hnx by set_solver.
  apply IH; [|done]. intros. apply Hnx. set_solver.
Qed.

Lemma lseg_app nx h l1 l2 e :
  lseg nx h (l1 ++ l2) e ↔ ∃ m, lseg nx h l1 m ∧ lseg nx m l2 e.
Proof.
  revert h. induction l1 as [|k l1 IH]; intros h; cbn; [naive_solver|].
  rewrite IH. naive_solver.
Qed.

(** The list visited from a given head is unique. *)
Lemma chain_det nx h l1 l2 : chain nx h l1 → chain nx h l2 → l1 = l2.
Proof.
  revert h l2. induction l1 as [|k l1 IH]; intros h [|k2 l2]; cbn; naive_solver.
Qed.

Lemma lseg_suffix nx h l1 k l2 : chain nx h (l1 ++ k :: l2) → chain nx (Some k) (k :: l2).
Proof. rewrite lseg_app. intros (m & _ & -> & H2). done. Qed.

(** A chain that ends in the null pointer visits no entry twice. *)
Lemma chain_NoDup nx h l : chain nx h l → NoDup l.
Proof.
  revert h. induction l as [|k l IH]; intros h; cbn; [constructor|].
  intros [-> Hl]. constructor; [|by eapply IH].
  intros (l1 & l2 & ->)%list_elem_of_split.
  pose proof (lseg_suffix _ _ _ _ _ Hl) as Hk. cbn in Hk. destruct Hk as [_ Hk].
  pose proof (chain_det _ _ _ _ Hk Hl) as E. apply (f_equal length) in E.
  rewrite length_app in E. cbn in E. lia.
Qed.

Lemma chain_None nx l : chain nx None l → l = [].
Proof. destruct l; cbn; naive_solver. Qed.

Lemma chain_Some nx k l : chain nx (Some k) l → ∃ l', l = k :: l' ∧ chain nx (nx k) l'.
Proof. destruct l as [|k' l']; cbn; [done|]. intros [[= <-] ?]. eauto. Qed.

Lemma relink_same nx k v : relink nx k v k = v.
Proof. unfold relink. by rewrite decide_True. Qed.
Lemma relink_ne nx k v i : i ≠ k → relink nx k v i = nx i.
Proof. unfold relink. intros. by rewrite decide_False. Qed.

Lemma lseg_relink nx k v h l e : k ∉ l → lseg nx h l e → lseg (relink nx k v) h l e.
Proof.
  intros Hk. apply lseg_ext. intros i Hi. apply relink_ne. by intros ->.
Qed.

(** Push in front: set the link of [k] to the old head. *)
Lemma chain_push nx h l k : k ∉ l → chain nx h l → chain (relink nx k h) (Some k) (k :: l).
Proof.
  intros Hk Hl. split; [done|]. rewrite relink_same. by apply lseg_relink.
Qed.

(** Splice [k] in after [p]. *)
Lemma chain_insert_after nx h l1 p l2 k :
  k ∉ l1 ++ p :: l2 → chain nx h (l1 ++ p :: l2) →
  chain (relink (relink nx k (nx p)) p (Some k)) h (l1 ++ p :: k :: l2).
Proof.
  intros Hk Hc. pose proof (chain_NoDup _ _ _ Hc) as Hnd.
  apply NoDup_app in Hnd as (_ & Hd1 & Hnd2). apply NoDup_cons in Hnd2 as [Hp2 _].
  apply lseg_app in Hc as (m & H1 & -> & H2).
  apply lseg_app. exists (Some p). split.
  - apply lseg_relink; [intros ?; apply (Hd1 p); set_solver|].
    apply lseg_relink; [set_solver|done].
  - cbn. split; [done|]. rewrite relink_same. split; [done|].
    rewrite relink_ne, relink_same by set_solver.
    apply lseg_relink; [done|]. apply lseg_relink; [set_solver|done].
Qed.

(** Unlink the successor [k] of [p]. *)
Lemma chain_delete_after nx h l1 p k l2 :
  chain nx h (l1 ++ p :: k :: l2) → chain (relink nx p (nx k)) h (l1 ++ p :: l2).
Proof.
  intros Hc. pose proof (chain_NoDup _ _ _ Hc) as Hnd.
  apply NoDup_app in Hnd as (_ & Hd1 & Hnd2). apply NoDup_cons in Hnd2 as [Hp2 _].
  apply lseg_app in Hc as (m & H1 & -> & Hpk & H2).
  apply lseg_app. exists (Some p). split.
  - apply lseg_relink; [intros ?; apply (Hd1 p); set_solver|done].
  - cbn. split; [done|]. rewrite relink_same. apply lseg_relink; [set_solver|done].
Qed.

(** Append [k] after the last entry [p]. *)
Lemma chain_snoc nx h l p k :
  k ∉ l ++ [p] → chain nx h (l ++ [p]) →
  chain (relink (relink nx p (Some k)) k None) h (l ++ [p; k]).
Proof.
  intros Hk Hc. pose proof (chain_NoDup _ _ _ Hc) as Hnd.
  apply NoDup_app in Hnd as (_ & Hd1 & _).
  apply lseg_app in Hc as (m & H1 & -> & H2).
  apply lseg_app. exists (Some p). split.
  - apply lseg_relink; [set_solver|].
    apply lseg_relink; [intros ?; apply (Hd1 p); set_solver|done].
  - cbn. split; [done|]. rewrite relink_ne, relink_same by set_solver.
    split; [done|]. by rewrite relink_same.
Qed.

(** Following the last entry of a chain gives the null pointer. *)
Lemma chain_last nx h l k : chain nx h l → last l = Some k → nx k = None.
Proof.
  intros Hc Hl. apply last_Some in Hl as [l' ->].
  apply lseg_app in Hc as (m & _ & -> & E). done.
Qed.

Lemma chain_lookup_next nx h l i k :
  chain nx h l → l !! i = Some k → nx k = l !! S i.
Proof.
  revert h i. induction l as [|a l IH]; intros h [|i]; cbn; [done..| |].
  - intros [-> Hl] [= ->]. destruct l; cbn in *; [done|]. naive_solver.
  - intros [-> Hl] Hi. by eapply IH.
Qed.

Lemma chain_head nx h l : chain nx h l → h = head l.
Proof. destruct l; cbn; naive_solver. Qed.
End chain.

(** ** Doubly linked chains

    A list threaded through a table in both directions, with pointers to its
    two ends: the LRU chain of the block cache (fs/cache.c). *)
Definition dchain (nx pv : Z → option Z) (f r : option Z) (l : list Z) : Prop :=
  chain nx f l ∧ chain pv r (reverse l).

(** Unlink [k]: its neighbours, or the pointers to the ends, are set to each other. *)
Definition unlink (nx pv : Z → option Z) (k : Z) : Z → option Z :=
  match pv k with Some p => relink nx p (nx k) | None => nx end.
Definition unlink_end (e : option Z) (nx pv : Z → option Z) (k : Z) : option Z :=
  match pv k with Some _ => e | None => nx k end.

Section dchain.
Implicit Types nx pv : Z → option Z.

Lemma dchain_sym nx pv f r l : dchain nx pv f r l → dchain pv nx r f (reverse l).
Proof. unfold dchain. rewrite reverse_involutive. tauto. Qed.

Lemma dchain_ext nx pv nx' pv' f r l :
  (∀ k, k ∈ l → nx' k = nx k) → (∀ k, k ∈ l → pv' k = pv k) → dchain nx pv f r l → dchain nx' pv' f r l.
Proof.
  intros Hn Hp [Hf Hr]. split; [by eapply lseg_ext|]. eapply lseg_ext; [|exact Hr].
  intros k Hk. apply Hp. by apply elem_of_reverse.
Qed.

Lemma dchain_NoDup nx pv f r l : dchain nx pv f r l → NoDup l.
Proof. intros [H _]. by eapply chain_NoDup. Qed.

Lemma dchain_ends nx pv f r l : dchain nx pv f r l → f = head l ∧ r = last l.
Proof.
  intros [Hf%chain_head Hr%chain_head]. split; [done|]. by rewrite Hr, head_reverse.
Qed.

(** The neighbours of [k]. *)
Lemma dchain_next nx pv f r l1 k l2 : dchain nx pv f r (l1 ++ k :: l2) → nx k = head l2.
Proof. intros [Hf _]. apply lseg_app in Hf as (m & _ & _ & H). by apply chain_head in H. Qed.
Lemma dchain_prev nx pv f r l1 k l2 : dchain nx pv f r (l1 ++ k :: l2) → pv k = last l1.
Proof.
  intros H%dchain_sym. rewrite reverse_app, reverse_cons, <- app_assoc in H.
  apply dchain_next in H. by rewrite H, head_reverse.
Qed.

Lemma chain_unlink nx pv f r l1 k l2 : dchain nx pv f r (l1 ++ k :: l2) →
  chain (unlink nx pv k) (unlink_end f nx pv k) (l1 ++ l2).
Proof.
  intros H. pose proof (dchain_prev _ _ _ _ _ _ _ H) as Hp. destruct H as [Hf _].
  unfold unlink, unlink_end. rewrite Hp. destruct l1 as [|p l1 _] using rev_ind.
  - cbn in *. destruct Hf as [-> Hf]. done.
  - rewrite last_snoc. rewrite <- app_assoc in *. by apply chain_delete_after.
Qed.

Lemma dchain_unlink nx pv f r l1 k l2 : dchain nx pv f r (l1 ++ k :: l2) →
  dchain (unlink nx pv k) (unlink pv nx k) (unlink_end f nx pv k) (unlink_end r pv nx k) (l1 ++ l2).
Proof.
  intros H. split; [by eapply chain_unlink|].
  apply dchain_sym in H. rewrite reverse_app, reverse_cons, <- app_assoc in H.
  apply chain_unlink in H. by rewrite reverse_app.
Qed.

(** Link [k] in at the front. *)
Lemma dchain_push nx pv f r l k : k ∉ l → dchain nx pv f r l →
  dchain (relink nx k f) (relink (match f with Some x => relink pv x (Some k) | None => pv end) k None)
    (Some k) (match f with Some _ => r | None => Some k end) (k :: l).
Proof.
  intros Hk [Hf Hr]. split; [by apply chain_push|]. rewrite reverse_cons.
  destruct l as [|x l].
  - cbn in Hf. subst f. split; [done|]. by rewrite relink_same.
  - destruct Hf as [-> Hf]. rewrite reverse_cons, <- app_assoc in *.
    apply chain_snoc; [|done]. rewrite elem_of_app, elem_of_reverse, list_elem_of_singleton. set_solver.
Qed.
End dchain.
