(* ===== verification/Alloc.v ===== *)
(** * mm/alloc.c: allocation of physical memory from the hole list

    [hole], [holes] and the operations [alloc_mem], [free_mem], [del_slot],
    [merge], [max_hole] and [mem_init] follow src/src/mm/alloc.c, [do_mem] the
    SYS_MEM handler of src/src/kernel/system.c that [mem_init] asks for memory
    chunks.  A [struct hole *] is an index of the table, [NIL_HOLE] is [None].

    [rep] relates a table to the list of holes it represents; the operations
    are proved to refine [spec_alloc] and [spec_free] on sorted lists of
    disjoint, non-adjacent holes. *)

From S2P Require Import Prelude Chain.

Definition NR_HOLES : Z := 128.
Definition NO_MEM : Z := 0.

Record hole := Hole { h_base : Z; h_len : Z; h_next : option Z }.
#[export] Instance eta_hole : Eta hole := λ r, Hole r.(h_base) r.(h_len) r.(h_next).
#[export] Instance upd_h_base : Upd h_base := ltac:(derive_upd).
#[export] Instance upd_h_len : Upd h_len := ltac:(derive_upd).
#[export] Instance upd_h_next : Upd h_next := ltac:(derive_upd).

(** The hole table with its two list heads. *)
Record holes := Holes {
  hole_tbl : gmap Z hole;
  hole_head : option Z;
  free_slots : option Z
}.
#[export] Instance eta_holes : Eta holes :=
  λ r, Holes r.(hole_tbl) r.(hole_head) r.(free_slots).
#[export] Instance upd_hole_tbl : Upd hole_tbl := ltac:(derive_upd).
#[export] Instance upd_hole_head : Upd hole_head := ltac:(derive_upd).
#[export] Instance upd_free_slots : Upd free_slots := ltac:(derive_upd).

Notation MM := (M holes).

Definition hole_at (i : Z) : MM hole := t ← gets hole_tbl; deref (t !! i).
Definition set_hole (i : Z) (h : hole) : MM unit :=
  modify (λ s, s <| hole_tbl := <[i := h]> (hole_tbl s) |>).

(** More iterations than there are table slots. *)
Definition hole_fuel : nat := 129.

Definition del_slot (prev_ptr : option Z) (hp : Z) : MM unit :=
  head ← gets hole_head;
  h ← hole_at hp;
  (if ptr_eq (Some hp) head then
     modify (λ s, s <| hole_head := h_next h |>)
   else
     p ← deref prev_ptr;
     ph ← hole_at p;
     set_hole p (ph <| h_next := h_next h |>));;
  h ← hole_at hp;
  fs ← gets free_slots;
  set_hole hp (h <| h_next := fs |>);;
  modify (λ s, s <| free_slots := Some hp |>).

(** The body of the search loop of [alloc_mem], on [(prev_ptr, hp)]. *)
Definition alloc_step (clicks : Z) :
    option Z * option Z → MM ((option Z * option Z) + Z) := λ '(prev_ptr, hp),
  match hp with
  | None => mret (inr NO_MEM)
  | Some i =>
      h ← hole_at i;
      if clicks <=? h_len h then
        let old_base := h_base h in
        let h' := h <| h_base := u16 (h_base h + clicks) |>
                    <| h_len := u16 (h_len h - clicks) |> in
        set_hole i h';;
        if negb (h_len h' =? 0) then mret (inr old_base)
        else del_slot prev_ptr i;; mret (inr old_base)
      else mret (inl (Some i, h_next h))
  end.

Definition alloc_mem (clicks : Z) : MM Z :=
  hd ← gets hole_head; loop hole_fuel (alloc_step clicks) (None, hd).

(** One half of [merge]: if [hp] is the last hole, return ([None]); otherwise
    absorb its successor if the two are contiguous and stay at [hp], or move
    on to the successor. *)
Definition absorb (hp : Z) : MM (option Z) :=
  h ← hole_at hp;
  match h_next h with
  | None => mret None
  | Some next_ptr =>
      nh ← hole_at next_ptr;
      if u16 (h_base h + h_len h) =? h_base nh then
        set_hole hp (h <| h_len := u16 (h_len h + h_len nh) |>);;
        del_slot (Some hp) next_ptr;;
        mret (Some hp)
      else mret (Some next_ptr)
  end.

Definition merge (hp : Z) : MM unit :=
  r ← absorb hp;
  match r with
  | None => mret tt
  | Some hp => absorb hp;; mret tt
  end.

(** The body of the loop of [free_mem] that looks for the insertion point. *)
Definition free_step (base : Z) :
    option Z * option Z → MM ((option Z * option Z) + option Z) := λ '(prev_ptr, hp),
  match hp with
  | None => mret (inr prev_ptr)
  | Some i =>
      h ← hole_at i;
      if h_base h <? base then mret (inl (Some i, h_next h))
      else mret (inr prev_ptr)
  end.

Definition free_mem (base clicks : Z) : MM unit :=
  if clicks =? 0 then mret tt else
  fs ← gets free_slots;
  match fs with
  | None => panic "Hole table full" 0x8000
  | Some new_ptr =>
      nh ← hole_at new_ptr;
      set_hole new_ptr (nh <| h_base := base |> <| h_len := clicks |>);;
      modify (λ s, s <| free_slots := h_next nh |>);;
      hd ← gets hole_head;
      front ← match hd with
              | None => mret true
              | Some i => h ← hole_at i; mret (base <=? h_base h)
              end;
      if (front : bool) then
        nh ← hole_at new_ptr;
        set_hole new_ptr (nh <| h_next := hd |>);;
        modify (λ s, s <| hole_head := Some new_ptr |>);;
        merge new_ptr
      else
        prev_ptr ← loop hole_fuel (free_step base) (None, hd);
        p ← deref prev_ptr;
        ph ← hole_at p;
        nh ← hole_at new_ptr;
        set_hole new_ptr (nh <| h_next := h_next ph |>);;
        ph ← hole_at p;
        set_hole p (ph <| h_next := Some new_ptr |>);;
        merge p
  end.

Definition max_step : Z * option Z → MM ((Z * option Z) + Z) := λ '(max, hp),
  match hp with
  | None => mret (inr max)
  | Some i =>
      h ← hole_at i;
      mret (inl (if max <? h_len h then h_len h else max, h_next h))
  end.

Definition max_hole : MM Z := hd ← gets hole_head; loop hole_fuel max_step (0, hd).

(** ** mem_init

    The kernel's SYS_MEM handler hands out the memory chunks one at a time:
    it returns the first chunk of nonzero size and zeroes its size. *)
Record memory := Memory { mem_base : Z; mem_size : Z }.

(** Result: the reply fields m1_i1 and m1_i2 and the updated array.  When no
    chunk is left the reply carries the last array element, of size 0. *)
Fixpoint do_mem (mem : list memory) : (Z * Z) * list memory :=
  match mem with
  | [] => ((0, 0), [])
  | mp :: mem' =>
      let mp0 := Memory (mem_base mp) 0 in
      if negb (mem_size mp =? 0) then ((mem_base mp, mem_size mp), mp0 :: mem')
      else match mem' with
           | [] => ((mem_base mp, mem_size mp), [mp0])
           | _ => let '(r, rest) := do_mem mem' in (r, mp0 :: rest)
           end
  end.

(** Put every slot on the free list; [h_base] and [h_len] are left alone. *)
Definition link_slots (t : gmap Z hole) : gmap Z hole :=
  map_imap (λ i h, Some (h <| h_next := if i =? NR_HOLES - 1 then None else Some (i + 1) |>)) t.

(** The static table before the first call. *)
Definition zero_holes : holes :=
  Holes (list_to_map ((λ i, (i, Hole 0 0 None)) <$> seqZ 0 NR_HOLES)) None None.

(** [mem_init(&total, &free)]: put all slots on the free list, then free one
    chunk after the other until the kernel reports size 0.  The loop runs at
    most once per chunk and once more.  [tot_mem_size] and [mem] are the
    kernel's variables; [*total] is set only when a chunk was received.
    Result: [*total], [*free] and the kernel's chunk array. *)
Definition mem_init_step (tot_mem_size : Z) :
    Z * Z * list memory → MM ((Z * Z * list memory) + (Z * Z * list memory)) :=
  λ '(total, free, mem),
  let '((base, size), mem') := do_mem mem in
  if size =? 0 then mret (inr (total, free, mem'))
  else free_mem base size;; mret (inl (tot_mem_size, u16 (free + size), mem')).

Definition mem_init (tot_mem_size total : Z) (mem : list memory) :
    MM (Z * Z * list memory) :=
  modify (λ s, s <| hole_tbl := link_slots (hole_tbl s) |>
                 <| hole_head := None |> <| free_slots := Some 0 |>);;
  loop (S (length mem)) (mem_init_step tot_mem_size) (total, 0, mem).

(** ** The abstract hole list *)

(** First fit. *)
Fixpoint spec_alloc (c : Z) (hs : list (Z * Z)) : option (Z * list (Z * Z)) :=
  match hs with
  | [] => None
  | (b, l) :: r =>
      if c <=? l then Some (b, if c =? l then r else (b + c, l - c) :: r)
      else '(x, r') ← spec_alloc c r; Some (x, (b, l) :: r')
  end.

(** Give back [[b, b+c)], joining it with the hole that ends at [b] and with
    the hole that starts at [b+c]. *)
Fixpoint spec_free (b c : Z) (hs : list (Z * Z)) : list (Z * Z) :=
  match hs with
  | [] => [(b, c)]
  | (b1, l1) :: r =>
      if b + c <? b1 then (b, c) :: hs
      else if b + c =? b1 then (b, c + l1) :: r
      else if b1 + l1 =? b then spec_free b1 (l1 + c) r
      else (b1, l1) :: spec_free b c r
  end.

(** Click [x] lies in one of the holes. *)
Definition free_click (hs : list (Z * Z)) (x : Z) : Prop :=
  ∃ b l, (b, l) ∈ hs ∧ b ≤ x < b + l.

(** Sorted, non-empty, inside the 16-bit click space and separated by at
    least [gap] clicks ([gap] is 1 between operations, 0 inside [free_mem]). *)
Fixpoint holes_ok (gap lo : Z) (hs : list (Z * Z)) : Prop :=
  match hs with
  | [] => True
  | (b, l) :: r => lo ≤ b ∧ 0 < l ∧ b + l ≤ 2 ^ 16 ∧ holes_ok gap (b + l + gap) r
  end.

Definition total_free (hs : list (Z * Z)) : Z := foldr (λ h n, h.2 + n) 0 hs.

(** The block [[b, b+c)] is inside the click space and overlaps no hole. *)
Definition block_apart (b c : Z) (hs : list (Z * Z)) : Prop :=
  1 ≤ b ∧ 0 < c ∧ b + c ≤ 2 ^ 16 ∧ Forall (λ h, b + c ≤ h.1 ∨ h.1 + h.2 ≤ b) hs.

(** [absorb] and [merge] on the list of holes. *)
Definition absorb1 (h : Z * Z) (hs : list (Z * Z)) : list (Z * Z) :=
  match hs with
  | h2 :: r => if h.1 + h.2 =? h2.1 then (h.1, h.2 + h2.2) :: r else h :: hs
  | [] => [h]
  end.
Definition merge_abs (h : Z * Z) (hs : list (Z * Z)) : list (Z * Z) :=
  match hs with
  | h2 :: r => if h.1 + h.2 =? h2.1 then absorb1 (h.1, h.2 + h2.2) r else h :: absorb1 h2 r
  | [] => [h]
  end.

(** Where [free_mem] puts the block: after the holes with a smaller base. *)
Fixpoint free_abs (b c : Z) (hs : list (Z * Z)) : list (Z * Z) :=
  match hs with
  | [] => [(b, c)]
  | h :: r =>
      if b <=? h.1 then merge_abs (b, c) hs
      else if match r with h2 :: _ => b <=? h2.1 | [] => true end
           then merge_abs h ((b, c) :: r)
           else h :: free_abs b c r
  end.

(** ** The representation relation *)
Definition hnext (t : gmap Z hole) (i : Z) : option Z := t !! i ≫= h_next.
Definition slot_is (t : gmap Z hole) (i : Z) (h : Z * Z) : Prop :=
  ∃ n, t !! i = Some (Hole h.1 h.2 n).

(** Following the links from [hole_head] visits the slots [L], which hold [hs]. *)
Definition hole_list (s : holes) (L : list Z) (hs : list (Z * Z)) : Prop :=
  chain (hnext (hole_tbl s)) (hole_head s) L ∧ Forall2 (slot_is (hole_tbl s)) L hs.

(** [L] is the hole list, [F] the free-slot list, [hs] the holes. *)
Record rep (s : holes) (L F : list Z) (hs : list (Z * Z)) : Prop := Rep {
  rep_chain : chain (hnext (hole_tbl s)) (hole_head s) L;
  rep_free : chain (hnext (hole_tbl s)) (free_slots s) F;
  rep_perm : L ++ F ≡ₚ seqZ 0 NR_HOLES;
  rep_slots : ∀ i, i ∈ F → is_Some (hole_tbl s !! i);
  rep_view : Forall2 (slot_is (hole_tbl s)) L hs
}.

(** A reachable hole table: a coalesced sorted list of holes above click 0. *)
Definition holes_inv (s : holes) (hs : list (Z * Z)) : Prop :=
  holes_ok 1 1 hs ∧ ∃ L F, rep s L F hs.

(** ** Table updates *)
Section table.
Implicit Types (s : holes) (L F : list Z) (hs : list (Z * Z)).

Lemma hnext_set t i h k :
  hnext (<[i := h]> t) k = relink (hnext t) i (h_next h) k.
Proof.
  unfold hnext, relink. destruct (decide (k = i)) as [->|].
  - by rewrite lookup_insert_eq.
  - by rewrite lookup_insert_ne by done.
Qed.

Lemma slot_set_ne t i h j x :
  j ≠ i → slot_is t j x → slot_is (<[i := h]> t) j x.
Proof. intros Hj [n Hn]. exists n. by rewrite lookup_insert_ne. Qed.

Lemma slots_set_ne t i h L hs :
  i ∉ L → Forall2 (slot_is t) L hs → Forall2 (slot_is (<[i := h]> t)) L hs.
Proof.
  intros Hi Hv. induction Hv as [|j x L hs Hj Hv IH]; constructor.
  - apply slot_set_ne; [set_solver|done].
  - apply IH. set_solver.
Qed.

Lemma rep_NoDup s L F hs : rep s L F hs → NoDup (L ++ F).
Proof. intros []. rewrite rep_perm0. apply NoDup_seqZ. Qed.

Lemma hole_list_at s L1 i L2 hs1 h hs2 :
  hole_list s (L1 ++ i :: L2) (hs1 ++ h :: hs2) → length L1 = length hs1 →
  ∃ n, hole_tbl s !! i = Some (Hole h.1 h.2 n) ∧ n = head L2.
Proof.
  intros [Hc Hv] Hlen. apply Forall2_app_inv in Hv as [_ Hv]; [|done].
  inversion_clear Hv as [|? ? ? ? Hi Hv']. destruct Hi as [n Hn].
  exists n. split; [done|]. pose proof (lseg_suffix _ _ _ _ _ Hc) as [_ Hc'].
  apply chain_head in Hc'. unfold hnext in Hc'. rewrite Hn in Hc'. done.
Qed.

Lemma rep_at s L1 i L2 F hs1 h hs2 :
  rep s (L1 ++ i :: L2) F (hs1 ++ h :: hs2) → length L1 = length hs1 →
  ∃ n, hole_tbl s !! i = Some (Hole h.1 h.2 n) ∧ n = head L2.
Proof. intros [] ?. by eapply hole_list_at. Qed.

Lemma rep_length s L F hs : rep s L F hs → length L = length hs.
Proof. intros []. by eapply Forall2_length. Qed.

(** Changing base and length of a hole in place. *)
Lemma rep_resize s L1 i L2 F hs1 h hs2 x n :
  rep s (L1 ++ i :: L2) F (hs1 ++ h :: hs2) → length L1 = length hs1 →
  hole_tbl s !! i = Some (Hole h.1 h.2 n) →
  rep (s <| hole_tbl := <[i := Hole x.1 x.2 n]> (hole_tbl s) |>)
      (L1 ++ i :: L2) F (hs1 ++ x :: hs2).
Proof.
  intros Hr Hlen Hn. pose proof (rep_NoDup _ _ _ _ Hr) as Hnd.
  destruct Hr as [Hc Hf Hp Hs Hv].
  assert (Hnext : ∀ k, hnext (<[i := Hole x.1 x.2 n]> (hole_tbl s)) k
                       = hnext (hole_tbl s) k).
  { intros k. rewrite hnext_set. unfold relink. case_decide; [|done].
    subst. unfold hnext. by rewrite Hn. }
  split; cbn.
  - eapply lseg_ext; [|done]. auto.
  - eapply lseg_ext; [|done]. auto.
  - done.
  - intros j Hj. destruct (decide (j = i)) as [->|]; simplify_map_eq; eauto.
  - apply NoDup_app in Hnd as (Hnd & _ & _).
    apply NoDup_app in Hnd as (_ & Hd & [Hi _]%NoDup_cons).
    apply Forall2_app_inv in Hv as [Hv1 Hv2]; [|done].
    inversion_clear Hv2. apply Forall2_app.
    + apply slots_set_ne; [|done]. intros ?. by eapply Hd; [|left].
    + constructor; [|by apply slots_set_ne].
      exists n. cbn. by rewrite lookup_insert_eq.
Qed.

(** The two ways a slot leaves the hole list. *)
Lemma rep_delete_head s i L F h hs hi :
  rep s (i :: L) F (h :: hs) → hole_tbl s !! i = Some hi →
  rep (Holes (<[i := hi <| h_next := free_slots s |>]> (hole_tbl s)) (h_next hi) (Some i))
      L (i :: F) hs.
Proof.
  intros Hr Hi. pose proof (rep_NoDup _ _ _ _ Hr) as Hnd.
  destruct Hr as [Hc Hf Hp Hs Hv].
  cbn in Hnd. apply NoDup_cons in Hnd as [HiL Hnd].
  destruct Hc as [_ Hc]. unfold hnext at 2 in Hc. rewrite Hi in Hc. cbn in Hc.
  split; cbn.
  - eapply lseg_ext, Hc. intros k Hk.
    rewrite hnext_set, relink_ne; set_solver.
  - split; [done|]. unfold hnext at 2; cbn. rewrite lookup_insert_eq. cbn.
    eapply lseg_ext, Hf. intros k Hk.
    rewrite hnext_set, relink_ne; set_solver.
  - rewrite <- Hp. by rewrite <- Permutation_middle.
  - intros j [->|Hj]%elem_of_cons; simplify_map_eq; [done|].
    destruct (decide (i = j)) as [->|]; simplify_map_eq; [done|]. by apply Hs.
  - inversion_clear Hv. apply slots_set_ne; [set_solver|done].
Qed.

Lemma rep_delete_after s L1 p i L2 F hs1 hp hi hs2 pe ie :
  rep s (L1 ++ p :: i :: L2) F (hs1 ++ hp :: hi :: hs2) → length L1 = length hs1 →
  hole_tbl s !! p = Some pe → hole_tbl s !! i = Some ie →
  rep (Holes (<[i := ie <| h_next := free_slots s |>]>
               (<[p := pe <| h_next := h_next ie |>]> (hole_tbl s)))
             (hole_head s) (Some i))
      (L1 ++ p :: L2) (i :: F) (hs1 ++ hp :: hs2).
Proof.
  intros Hr Hlen Hpe Hie. pose proof (rep_NoDup _ _ _ _ Hr) as Hnd.
  destruct Hr as [Hc Hf Hp Hs Hv].
  pose proof (chain_delete_after _ _ _ _ _ _ Hc) as Hc'.
  unfold hnext at 2 in Hc'. rewrite Hie in Hc'. cbn in Hc'.
  rewrite <- app_assoc in Hnd. cbn in Hnd. apply NoDup_app in Hnd as (_ & Hd & Hnd).
  apply NoDup_cons in Hnd as [Hnp Hnd]. apply NoDup_cons in Hnd as [Hni Hnd].
  assert (HiL : i ∉ L1 ++ p :: L2).
  { intros [?|[->|?]%elem_of_cons]%elem_of_app; [eapply Hd; set_solver|set_solver|set_solver]. }
  split; cbn.
  - eapply lseg_ext, Hc'. intros k Hk.
    rewrite hnext_set, relink_ne by set_solver. by rewrite hnext_set.
  - split; [done|]. unfold hnext at 2; cbn. rewrite lookup_insert_eq. cbn.
    eapply lseg_ext, Hf. intros k Hk.
    rewrite hnext_set, relink_ne, hnext_set, relink_ne; [done|set_solver..].
  - rewrite <- Hp. rewrite <- !app_assoc. cbn. f_equiv. f_equiv.
    by rewrite <- Permutation_middle.
  - intros j [->|Hj]%elem_of_cons; simplify_map_eq; [done|].
    destruct (decide (i = j)) as [->|], (decide (p = j)) as [->|]; simplify_map_eq; eauto.
  - apply Forall2_app_inv in Hv as [Hv1 Hv2]; [|done].
    inversion_clear Hv2 as [|? ? ? ? Hvp Hv3]. inversion_clear Hv3 as [|? ? ? ? Hvi Hv4].
    apply Forall2_app; [|constructor].
    + apply slots_set_ne; [set_solver|]. apply slots_set_ne; [|done].
      intros ?. eapply Hd; set_solver.
    + destruct Hvp as [n Hn]. simplify_map_eq. exists (h_next ie); cbn.
      rewrite lookup_insert_ne by (intros ->; set_solver). by rewrite lookup_insert_eq.
    + apply slots_set_ne; [set_solver|]. apply slots_set_ne; [set_solver|done].
Qed.

Lemma wp_hole_at i h s (Q : hole → holes → Prop) :
  hole_tbl s !! i = Some h → Q h s → wp (hole_at i) Q s.
Proof. intros Hi HQ. unfold hole_at. by wp_steps. Qed.

Lemma wp_set_hole i h s (Q : unit → holes → Prop) :
  Q tt (s <| hole_tbl := <[i := h]> (hole_tbl s) |>) → wp (set_hole i h) Q s.
Proof. done. Qed.

Lemma del_slot_head prev s i L F h hs :
  rep s (i :: L) F (h :: hs) → wp (del_slot prev i) (λ _ s', rep s' L (i :: F) hs) s.
Proof.
  intros Hr. destruct (rep_at s [] i L F [] h hs Hr eq_refl) as (n & Hn & _).
  unfold del_slot. wp_steps. eapply wp_hole_at; [done|].
  assert (hole_head s = Some i) as -> by apply Hr.
  unfold ptr_eq. rewrite bool_decide_true by done. wp_steps.
  eapply wp_hole_at; [done|]. wp_steps. apply wp_set_hole. wp_steps.
  by apply (rep_delete_head s i L F h hs _ Hr Hn).
Qed.

Lemma del_slot_after s L1 p i L2 F hs1 hp hi hs2 :
  rep s (L1 ++ p :: i :: L2) F (hs1 ++ hp :: hi :: hs2) → length L1 = length hs1 →
  wp (del_slot (Some p) i) (λ _ s', rep s' (L1 ++ p :: L2) (i :: F) (hs1 ++ hp :: hs2)) s.
Proof.
  intros Hr Hlen. pose proof (rep_NoDup _ _ _ _ Hr) as Hnd.
  destruct (rep_at s L1 p (i :: L2) F hs1 hp (hi :: hs2) Hr Hlen) as (n & Hn & _).
  destruct (rep_at s (L1 ++ [p]) i L2 F (hs1 ++ [hp]) hi hs2) as (m & Hm & _).
  { by rewrite <- !app_assoc. } { rewrite !length_app; cbn; lia. }
  assert (Hpi : p ≠ i).
  { intros ->. apply NoDup_app in Hnd as (Hnd & _ & _).
    apply NoDup_app in Hnd as (_ & _ & Hnd). apply NoDup_cons in Hnd as [? _]. set_solver. }
  unfold del_slot. wp_steps. eapply wp_hole_at; [done|].
  assert (Hh : Some i ≠ hole_head s).
  { rewrite (chain_head _ _ _ (rep_chain _ _ _ _ Hr)).
    destruct L1 as [|a L1]; cbn; [congruence|]. intros [= ->].
    apply NoDup_app in Hnd as (Hnd & _ & _). cbn in Hnd.
    apply NoDup_cons in Hnd as [? _]. set_solver. }
  unfold ptr_eq. rewrite bool_decide_false by done. wp_steps.
  eapply wp_hole_at; [done|]. apply wp_set_hole. wp_steps.
  eapply wp_hole_at; [cbn; by rewrite lookup_insert_ne|]. wp_steps.
  apply wp_set_hole. wp_steps.
  by apply (rep_delete_after s L1 p i L2 F hs1 hp hi hs2 _ _ Hr Hlen Hn Hm).
Qed.
End table.

(** ** alloc_mem *)
Section alloc.
Implicit Types (s : holes) (L F : list Z) (hs : list (Z * Z)).

Lemma holes_ok_app gap lo hs1 b l hs2 :
  holes_ok gap lo (hs1 ++ (b, l) :: hs2) → 0 ≤ gap →
  lo ≤ b ∧ 0 < l ∧ b + l ≤ 2 ^ 16 ∧ holes_ok gap (b + l + gap) hs2 ∧
  Forall (λ h, 0 < h.2 ∧ h.1 + h.2 + gap ≤ b) hs1.
Proof.
  revert lo. induction hs1 as [|[b1 l1] hs1 IH]; intros lo; cbn [app holes_ok].
  - intros (? & ? & ? & ?) ?. split_and!; try done; lia.
  - intros (? & ? & ? & Hok) Hg. destruct (IH _ Hok Hg) as (? & ? & ? & ? & HF).
    split_and!; try done; [lia|]. constructor; [cbn; lia|done].
Qed.

Lemma holes_ok_gap lo hs : holes_ok 1 (lo + 1) hs → holes_ok 0 (lo + 0) hs.
Proof.
  revert lo. induction hs as [|[b l] hs IH]; intros lo; cbn; [done|].
  intros (? & ? & ? & Hok). split_and!; try lia. by apply IH.
Qed.

Lemma holes_ok_mono gap lo lo' hs : lo' ≤ lo → holes_ok gap lo hs → holes_ok gap lo' hs.
Proof. destruct hs as [|[b l] hs]; cbn; [done|]. intros ? (? & ? & ? & ?). split_and!; try done; lia. Qed.

Lemma rep_tail_length s L F hs : rep s L F hs → (length L ≤ 128)%nat.
Proof.
  intros Hr. pose proof (Permutation_length (rep_perm _ _ _ _ Hr)) as E.
  rewrite length_app, length_seqZ in E. unfold NR_HOLES in E. lia.
Qed.

Lemma alloc_loop c fuel prev s L1 L2 F hs1 hs2 lo :
  rep s (L1 ++ L2) F (hs1 ++ hs2) → length L1 = length hs1 →
  prev = last L1 → 0 ≤ c → 1 ≤ lo → holes_ok 1 lo hs2 → (length L2 < fuel)%nat →
  wp (loop fuel (alloc_step c) (prev, head L2))
     (λ r s', match spec_alloc c hs2 with
              | Some (b, hs') => r = b ∧ ∃ L' F', rep s' L' F' (hs1 ++ hs')
              | None => r = NO_MEM ∧ s' = s
              end) s.
Proof.
  revert prev L1 L2 hs1 hs2 lo.
  induction fuel as [|fuel IH]; intros prev L1 L2 hs1 hs2 lo Hr Hlen Hprev Hc Hlo Hok Hfuel; [lia|].
  pose proof (rep_length _ _ _ _ Hr) as Hl. rewrite !length_app in Hl.
  destruct L2 as [|i L2], hs2 as [|[b l] hs2]; cbn in Hl; try lia; rewrite loop_unfold; cbn [head alloc_step].
  { by wp_steps. }
  destruct (rep_at s L1 i L2 F hs1 (b, l) hs2 Hr Hlen) as (n & Hn & ->).
  destruct Hok as (Hb & Hl0 & Hbl & Hok). cbn [spec_alloc].
  do 2 wp_step. eapply wp_hole_at; [done|]. cbn [h_len h_base h_next fst snd].
  destruct (Z.leb_spec c l) as [Hcl|Hcl].
  - wp_step. apply wp_set_hole. cbn -[loop u16].
    rewrite (u16_id (l - c)) by lia.
    assert (Hr' : rep (s <| hole_tbl := <[i := Hole (u16 (b + c)) (l - c) (head L2)]> (hole_tbl s) |>)
              (L1 ++ i :: L2) F (hs1 ++ (u16 (b + c), l - c) :: hs2)).
    { by apply (rep_resize s L1 i L2 F hs1 (b, l) hs2 (u16 (b + c), l - c) (head L2)). }
    destruct (Z.eqb_spec (l - c) 0) as [E0|E0]; cbn [negb].
    + destruct (Z.eqb_spec c l) as [->|]; [|lia].
      wp_step. destruct L1 as [|a L1 _] using rev_ind.
      * destruct hs1; [|done]. eapply wp_mono; [exact (del_slot_head prev _ _ _ _ _ _ Hr')|].
        intros [] s' ?. wp_steps. cbn. eauto.
      * destruct hs1 as [|h1 hs1 _] using rev_ind; [rewrite length_app in Hlen; cbn in Hlen; lia|].
        rewrite !length_app in Hlen; cbn in Hlen.
        rewrite last_snoc in Hprev. subst prev.
        rewrite <- !app_assoc in Hr'. cbn in Hr'.
        eapply wp_mono; [apply (del_slot_after _ _ _ _ _ _ _ _ _ _ Hr'); lia|].
        intros [] s' ?. wp_steps. split; [done|]. rewrite <- app_assoc. eauto.
    + destruct (Z.eqb_spec c l) as [->|]; [lia|]. wp_steps.
      rewrite u16_id in Hr' |- * by lia. split; [done|]. eauto.
  - wp_steps.
    replace (L1 ++ i :: L2) with ((L1 ++ [i]) ++ L2) in Hr by by rewrite <- app_assoc.
    replace (hs1 ++ (b, l) :: hs2) with ((hs1 ++ [(b, l)]) ++ hs2) in Hr by by rewrite <- app_assoc.
    cbn in Hfuel. eapply wp_mono.
    { apply (IH (Some i) (L1 ++ [i]) L2 (hs1 ++ [(b, l)]) hs2 (b + l + 1));
        try done; try lia; rewrite ?length_app, ?last_snoc; cbn; [lia|done]. }
    intros r s'. cbn beta. destruct (spec_alloc c hs2) as [[b' hs']|]; [|done].
    cbn. intros [-> (L' & F' & Hr')]. rewrite <- app_assoc in Hr'. eauto.
Qed.
End alloc.

(** ** merge and free_mem *)

Section free.
Implicit Types (s : holes) (L F : list Z) (hs : list (Z * Z)).

Lemma absorb_spec s L1 p L2 F hs1 h hs2 :
  rep s (L1 ++ p :: L2) F (hs1 ++ h :: hs2) → length L1 = length hs1 →
  holes_ok 0 1 (h :: hs2) →
  wp (absorb p) (λ r s',
    match hs2 with
    | [] => r = None ∧ s' = s
    | h2 :: hs3 =>
        if h.1 + h.2 =? h2.1 then
          r = Some p ∧ ∃ L2' F', rep s' (L1 ++ p :: L2') F' (hs1 ++ (h.1, h.2 + h2.2) :: hs3)
        else ∃ i L2', L2 = i :: L2' ∧ r = Some i ∧ s' = s
    end) s.
Proof.
  intros Hr Hlen Hok. pose proof (rep_length _ _ _ _ Hr) as Hl.
  rewrite !length_app in Hl. destruct h as [b l].
  destruct (rep_at s L1 p L2 F hs1 (b, l) hs2 Hr Hlen) as (n & Hn & ->).
  unfold absorb. wp_step. eapply wp_hole_at; [done|]. cbn [h_next].
  destruct L2 as [|i L2], hs2 as [|[b2 l2] hs3]; cbn in Hl; try lia; cbn [head].
  { by wp_steps. }
  destruct (rep_at s (L1 ++ [p]) i L2 F (hs1 ++ [(b, l)]) (b2, l2) hs3) as (m & Hm & ->).
  { by rewrite <- !app_assoc. } { rewrite !length_app; cbn; lia. }
  wp_step. eapply wp_hole_at; [done|]. cbn [h_base h_len fst snd].
  destruct Hok as (? & ? & ? & (? & ? & ? & Hok)).
  rewrite u16_id by lia. destruct (Z.eqb_spec (b + l) b2) as [E|E].
  - wp_step. apply wp_set_hole. cbn -[u16]. rewrite u16_id by lia. wp_steps.
    pose proof (rep_resize s L1 p (i :: L2) F hs1 (b, l) ((b2, l2) :: hs3) (b, l + l2) _
                  Hr Hlen Hn) as Hr'.
    eapply wp_mono; [exact (del_slot_after _ _ _ _ _ _ _ _ _ _ Hr' Hlen)|].
    intros [] s' ?. wp_steps. eauto.
  - wp_steps. eauto.
Qed.

Lemma merge_spec s L1 p L2 F hs1 h hs2 :
  rep s (L1 ++ p :: L2) F (hs1 ++ h :: hs2) → length L1 = length hs1 →
  holes_ok 0 1 (h :: hs2) →
  wp (merge p) (λ _ s', ∃ L' F', rep s' L' F' (hs1 ++ merge_abs h hs2)) s.
Proof.
  intros Hr Hlen Hok. unfold merge. wp_step.
  eapply wp_mono; [by eapply absorb_spec|]. intros r s' Hp. cbn beta in Hp.
  destruct hs2 as [|h2 hs3]; cbn [merge_abs].
  { destruct Hp as [-> ->]. wp_steps. eauto. }
  destruct h as [b l], h2 as [b2 l2]. cbn in Hok, Hp. cbn [fst snd].
  destruct Hok as (? & ? & ? & (? & ? & ? & Hok)).
  destruct (Z.eqb_spec (b + l) b2) as [E|E].
  - destruct Hp as [-> (L2' & F' & Hr')]. wp_step.
    eapply wp_mono; [eapply absorb_spec; [done|done|]|].
    { cbn. split_and!; [lia..|]. by replace (b + (l + l2) + 0) with (b2 + l2 + 0) by lia. }
    intros r s'' Hp. wp_steps. destruct hs3 as [|[b3 l3] hs4]; cbn in Hp |- *.
    { destruct Hp as [-> ->]. eauto. }
    destruct (b + (l + l2) =? b3); naive_solver.
  - destruct Hp as (i & L2' & -> & -> & ->). wp_step.
    eapply wp_mono.
    { apply (absorb_spec s (L1 ++ [p]) i L2' F (hs1 ++ [(b, l)]) (b2, l2) hs3);
        [by rewrite <- !app_assoc|rewrite !length_app; cbn; lia|].
      cbn. split_and!; [lia..|done]. }
    intros r s'' Hp. wp_steps. destruct hs3 as [|[b3 l3] hs4]; cbn in Hp |- *.
    { destruct Hp as [-> ->]. eauto. }
    destruct (b2 + l2 =? b3).
    + destruct Hp as [-> (L3 & F' & Hr')]. rewrite <- !app_assoc in Hr'. eauto.
    + destruct Hp as (? & ? & -> & -> & ->). eauto.
Qed.

Lemma merge_abs_front b c lo hs :
  holes_ok 1 lo hs → 0 < c → Forall (λ h, b + c ≤ h.1) hs →
  merge_abs (b, c) hs = spec_free b c hs.
Proof.
  intros Hok Hc Hb. destruct hs as [|[b1 l1] r]; [done|].
  destruct Hok as (? & ? & ? & Hok). apply Forall_cons in Hb as [Hb1 Hb]. cbn in *.
  destruct (Z.eqb_spec (b + c) b1) as [E|E].
  - destruct (Z.ltb_spec (b + c) b1); [lia|].
    destruct r as [|[b2 l2] r]; cbn; [done|]. destruct Hok as [? _].
    destruct (Z.eqb_spec (b + (c + l1)) b2); [lia|done].
  - destruct (Z.ltb_spec (b + c) b1); [|lia].
    destruct r as [|[b2 l2] r]; cbn; [done|]. destruct Hok as [? _].
    destruct (Z.eqb_spec (b1 + l1) b2); [lia|done].
Qed.

Lemma spec_free_absorb b c lo hs :
  holes_ok 1 lo hs → 0 < c → Forall (λ h, b + c ≤ h.1) hs →
  spec_free b c hs = absorb1 (b, c) hs.
Proof.
  intros Hok Hc Hb. destruct hs as [|[b1 l1] r]; [done|].
  apply Forall_cons in Hb as [Hb1 _]. cbn in *.
  destruct (Z.ltb_spec (b + c) b1), (Z.eqb_spec (b + c) b1); try lia; done.
Qed.

Lemma holes_ok_lb lo hs : holes_ok 1 lo hs → Forall (λ h, lo ≤ h.1 ∧ 0 < h.2) hs.
Proof.
  revert lo. induction hs as [|[b l] r IH]; intros lo; cbn; [done|].
  intros (? & ? & ? & Hok). constructor; [done|].
  eapply Forall_impl; [by apply IH|]. cbn. lia.
Qed.

Lemma apart_front b c lo hs :
  holes_ok 1 lo hs → block_apart b c hs → b ≤ lo → Forall (λ h, b + c ≤ h.1) hs.
Proof.
  intros Hlb%holes_ok_lb (_ & _ & _ & Hap) Hb.
  eapply Forall_both; [exact Hlb|exact Hap|]. cbn. lia.
Qed.

Lemma free_abs_spec b c lo hs :
  holes_ok 1 lo hs → block_apart b c hs → free_abs b c hs = spec_free b c hs.
Proof.
  intros Hok Hap. revert lo Hok Hap.
  induction hs as [|[b1 l1] r IH]; intros lo Hok Hap; [done|].
  pose proof Hap as (Hb & Hc & Hbc & [Hap1 Hap']%Forall_cons). cbn in Hap1.
  pose proof Hok as (? & ? & ? & Hok').
  cbn [free_abs fst]. destruct (Z.leb_spec b b1) as [Hbb|Hbb].
  { eapply merge_abs_front; [done..|].
    apply (apart_front b c b1); [|done..]. cbn. split_and!; try done; lia. }
  assert (Hr : block_apart b c r) by (by split_and!).
  cbn [spec_free merge_abs fst snd].
  destruct (Z.ltb_spec (b + c) b1); [lia|]. destruct (Z.eqb_spec (b + c) b1); [lia|].
  assert (Hafter : b ≤ b1 + l1 + 1 ∨ match r with h2 :: _ => b ≤ h2.1 | [] => True end →
                   Forall (λ h, b + c ≤ h.1) r).
  { intros Hcase. destruct r as [|[b2 l2] r]; [done|].
    destruct Hok' as (? & ? & ? & Hok2).
    apply (apart_front b c b2); [by split_and!|done|]. cbn in Hcase. lia. }
  destruct (match r with h2 :: _ => b <=? h2.1 | [] => true end) eqn:E.
  - assert (Hall : Forall (λ h, b + c ≤ h.1) r).
    { apply Hafter. right. destruct r; [done|]. by apply Z.leb_le. }
    destruct (Z.eqb_spec (b1 + l1) b) as [E1|E1].
    + symmetry. eapply spec_free_absorb; [done|lia|].
      eapply Forall_impl; [done|]. cbn. lia.
    + f_equal. symmetry. by eapply spec_free_absorb.
  - destruct r as [|[b2 l2] r]; [done|]. apply Z.leb_gt in E. cbn in E.
    destruct (Z.eqb_spec (b1 + l1) b) as [E1|E1]; [destruct Hok' as [? _]; lia|].
    f_equal. by eapply IH.
Qed.

(** The abstract operations keep the list sorted and coalesced. *)
Lemma spec_free_ok b c lo hs :
  1 ≤ lo → holes_ok 1 lo hs → lo ≤ b → block_apart b c hs →
  holes_ok 1 lo (spec_free b c hs).
Proof.
  revert lo b c. induction hs as [|[b1 l1] r IH]; intros lo b c Hlo1 Hok Hlo Hap;
    pose proof Hap as (Hb & Hc & Hbc & Hap'); cbn [spec_free].
  { cbn. lia. }
  pose proof Hok as (? & ? & ? & Hok'). apply Forall_cons in Hap' as [Hap1 Hap']. cbn in Hap1.
  destruct (Z.ltb_spec (b + c) b1). { cbn. split_and!; try done; lia. }
  destruct (Z.eqb_spec (b + c) b1) as [E|E].
  { cbn. split_and!; try lia. by replace (b + (c + l1) + 1) with (b1 + l1 + 1) by lia. }
  assert (b1 + l1 ≤ b) by lia.
  destruct (Z.eqb_spec (b1 + l1) b) as [E1|E1].
  - apply IH; [done| |done|].
    + eapply holes_ok_mono, Hok'. lia.
    + split_and!; try lia. pose proof (holes_ok_lb _ _ Hok') as Hlb.
      eapply Forall_both; [exact Hlb|exact Hap'|]. cbn. lia.
  - cbn. split_and!; try done; try lia. apply IH; [lia|done|lia|by split_and!].
Qed.

Lemma spec_alloc_ok c lo hs b hs' :
  holes_ok 1 lo hs → 0 ≤ c → spec_alloc c hs = Some (b, hs') →
  lo ≤ b ∧ b + c ≤ 2 ^ 16 ∧ holes_ok 1 lo hs'.
Proof.
  revert lo b hs'. induction hs as [|[b1 l1] r IH]; intros lo b hs' Hok Hc; [done|].
  destruct Hok as (? & ? & ? & Hok). cbn.
  destruct (Z.leb_spec c l1) as [Hcl|Hcl].
  - intros [= <- <-]. split_and!; [lia..|]. destruct (Z.eqb_spec c l1).
    + eapply holes_ok_mono, Hok. lia.
    + cbn. split_and!; [lia..|]. by replace (b1 + c + (l1 - c) + 1) with (b1 + l1 + 1) by lia.
  - destruct (spec_alloc c r) as [[x r']|] eqn:E; cbn; [|done].
    intros [= <- <-]. destruct (IH _ _ _ Hok Hc eq_refl) as (? & ? & ?).
    cbn. split_and!; try done; lia.
Qed.

Lemma free_abs_mid b c hs1 hp hs2 :
  Forall (λ h, h.1 < b) (hs1 ++ [hp]) →
  match hs2 with h :: _ => b ≤ h.1 | [] => True end →
  free_abs b c (hs1 ++ hp :: hs2) = hs1 ++ merge_abs hp ((b, c) :: hs2).
Proof.
  intros Hlt Hge. induction hs1 as [|h hs1 IH]; cbn [app free_abs].
  - apply Forall_cons in Hlt as [Hlt _]. destruct (Z.leb_spec b hp.1); [lia|].
    destruct hs2 as [|h2 hs2]; [done|]. by destruct (Z.leb_spec b h2.1); [|lia].
  - apply Forall_cons in Hlt as [Hlt Hlt']. destruct (Z.leb_spec b h.1); [lia|].
    rewrite IH by done. destruct hs1 as [|h' hs1]; cbn [app].
    + apply Forall_cons in Hlt' as [? _]. by destruct (Z.leb_spec b hp.1); [lia|].
    + apply Forall_cons in Hlt' as [? _]. by destruct (Z.leb_spec b h'.1); [lia|].
Qed.

Lemma mid_ok b c lo hs1 hp hs2 :
  holes_ok 1 lo (hs1 ++ hp :: hs2) → 1 ≤ lo → block_apart b c (hs1 ++ hp :: hs2) →
  hp.1 < b → match hs2 with h :: _ => b ≤ h.1 | [] => True end →
  holes_ok 0 1 (hp :: (b, c) :: hs2).
Proof.
  intros Hok Hlo (Hb & Hc & Hbc & Hap) Hlt Hge. destruct hp as [b1 l1].
  destruct (holes_ok_app _ _ _ _ _ _ Hok) as (? & ? & ? & Hok' & _); [done|].
  apply Forall_app in Hap as [_ [Hap1 Hap]%Forall_cons]. cbn in Hlt, Hap1 |- *.
  split_and!; try lia. destruct hs2 as [|[b2 l2] hs2]; [done|].
  destruct Hok' as (? & ? & ? & Hok'). apply Forall_cons in Hap as [Hap2 _].
  cbn in Hge, Hap2 |- *. split_and!; try lia. by apply holes_ok_gap.
Qed.

(** ** The search for the insertion point *)
Lemma free_loop b fuel prev s L1 L2 hs1 hs2 :
  hole_list s (L1 ++ L2) (hs1 ++ hs2) → length L1 = length hs1 →
  prev = last L1 → (length L2 < fuel)%nat →
  wp (loop fuel (free_step b) (prev, head L2))
     (λ r s', s' = s ∧ ∃ L3 L4 hs3 hs4, L2 = L3 ++ L4 ∧ hs2 = hs3 ++ hs4 ∧
        length L3 = length hs3 ∧ r = last (L1 ++ L3) ∧ Forall (λ h, h.1 < b) hs3 ∧
        match hs4 with h :: _ => b ≤ h.1 | [] => True end) s.
Proof.
  revert prev L1 L2 hs1 hs2.
  induction fuel as [|fuel IH]; intros prev L1 L2 hs1 hs2 Hr Hlen Hprev Hfuel; [lia|].
  pose proof (Forall2_length _ _ _ (proj2 Hr)) as Hl. rewrite !length_app in Hl.
  destruct L2 as [|i L2], hs2 as [|[b1 l1] hs2]; cbn in Hl; try lia; rewrite loop_unfold; cbn [head free_step].
  { wp_steps. split; [done|]. exists [], [], [], []. cbn. rewrite app_nil_r. by split_and!. }
  destruct (hole_list_at s L1 i L2 hs1 (b1, l1) hs2 Hr Hlen) as (n & Hn & ->).
  do 2 wp_step. eapply wp_hole_at; [done|]. cbn [h_len h_base h_next fst snd].
  destruct (Z.ltb_spec b1 b) as [Hb|Hb]; wp_steps.
  - replace (L1 ++ i :: L2) with ((L1 ++ [i]) ++ L2) in Hr by by rewrite <- app_assoc.
    replace (hs1 ++ (b1, l1) :: hs2) with ((hs1 ++ [(b1, l1)]) ++ hs2) in Hr by by rewrite <- app_assoc.
    cbn in Hfuel. eapply wp_mono.
    { apply (IH (Some i) (L1 ++ [i]) L2 (hs1 ++ [(b1, l1)]) hs2);
        try done; try lia; rewrite ?length_app, ?last_snoc; cbn; [lia|done]. }
    intros r s'. cbn beta. intros (-> & L3 & L4 & hs3 & hs4 & -> & -> & ? & -> & ? & ?).
    split; [done|]. exists (i :: L3), L4, ((b1, l1) :: hs3), hs4.
    rewrite <- app_assoc. split_and!; try done; [cbn; lia|by constructor].
  - split; [done|]. exists [], (i :: L2), [], ((b1, l1) :: hs2).
    cbn. rewrite app_nil_r. by split_and!.
Qed.

(** Taking a slot off the free list and linking it in at the front or after
    the entry [p]. *)
Lemma rep_insert_front s L i F hs b c e :
  rep s L (i :: F) hs → hole_tbl s !! i = Some e →
  rep (Holes (<[i := Hole b c (hole_head s)]> (hole_tbl s)) (Some i) (h_next e))
      (i :: L) F ((b, c) :: hs).
Proof.
  intros Hr He. pose proof (rep_NoDup _ _ _ _ Hr) as Hnd.
  destruct Hr as [Hc Hf Hp Hs Hv]. destruct Hf as [_ Hf].
  unfold hnext at 2 in Hf. rewrite He in Hf. cbn in Hf.
  apply NoDup_app in Hnd as (_ & Hd & [HiF HF]%NoDup_cons).
  assert (HiL : i ∉ L) by (intros ?; eapply Hd; set_solver).
  split; cbn.
  - split; [done|]. unfold hnext at 2. rewrite lookup_insert_eq. cbn.
    eapply lseg_ext, Hc. intros k Hk. rewrite hnext_set, relink_ne; set_solver.
  - eapply lseg_ext, Hf. intros k Hk. rewrite hnext_set, relink_ne; set_solver.
  - rewrite <- Hp. by rewrite <- Permutation_middle.
  - intros j Hj. rewrite lookup_insert_ne by set_solver. apply Hs. set_solver.
  - constructor; [|by apply slots_set_ne]. eexists. by rewrite lookup_insert_eq.
Qed.

Lemma rep_insert_after s L1 p L2 i F hs1 hp hs2 b c e pe :
  rep s (L1 ++ p :: L2) (i :: F) (hs1 ++ hp :: hs2) → length L1 = length hs1 →
  hole_tbl s !! i = Some e → hole_tbl s !! p = Some pe →
  rep (Holes (<[p := pe <| h_next := Some i |>]> (<[i := Hole b c (h_next pe)]> (hole_tbl s)))
             (hole_head s) (h_next e))
      (L1 ++ p :: i :: L2) F (hs1 ++ hp :: (b, c) :: hs2).
Proof.
  intros Hr Hlen He Hpe. pose proof (rep_NoDup _ _ _ _ Hr) as Hnd.
  destruct Hr as [Hc Hf Hp Hs Hv]. destruct Hf as [_ Hf].
  unfold hnext at 2 in Hf. rewrite He in Hf. cbn in Hf.
  apply NoDup_app in Hnd as (HL & Hd & [HiF HF]%NoDup_cons).
  assert (HiL : i ∉ L1 ++ p :: L2) by (intros ?; eapply Hd; set_solver).
  assert (HpF : p ∉ F) by (intros ?; eapply (Hd p); set_solver).
  apply NoDup_app in HL as (_ & Hd1 & [HpL HL2]%NoDup_cons).
  assert (HpL1 : p ∉ L1) by (intros ?; eapply (Hd1 p); set_solver).
  pose proof (chain_insert_after _ _ _ _ _ i HiL Hc) as Hc'.
  unfold hnext at 2 in Hc'. rewrite Hpe in Hc'. cbn in Hc'.
  split; cbn.
  - eapply lseg_ext, Hc'. intros k Hk. rewrite hnext_set. unfold relink.
    case_decide; [done|]. by rewrite hnext_set.
  - eapply lseg_ext, Hf. intros k Hk.
    rewrite hnext_set, relink_ne, hnext_set, relink_ne; [done|set_solver..].
  - rewrite <- Hp, <- !app_assoc. cbn. f_equiv. f_equiv. by rewrite <- Permutation_middle.
  - intros j Hj. rewrite !lookup_insert_ne by set_solver. apply Hs. set_solver.
  - apply Forall2_app_inv in Hv as [Hv1 Hv2]; [|done].
    inversion_clear Hv2 as [|? ? ? ? Hvp Hv3]. apply Forall2_app; [|constructor; [|constructor]].
    + apply slots_set_ne; [done|]. apply slots_set_ne; [set_solver|done].
    + destruct Hvp as [n Hn]. simplify_map_eq. eexists. by rewrite lookup_insert_eq.
    + exists (h_next pe). rewrite lookup_insert_ne by set_solver. by rewrite lookup_insert_eq.
    + apply slots_set_ne; [done|]. apply slots_set_ne; [set_solver|done].
Qed.
End free.

(** ** The operations on a reachable table *)
Section operations.
Implicit Types (s : holes) (hs : list (Z * Z)).

Lemma alloc_mem_run s hs c :
  holes_inv s hs → 0 ≤ c →
  wp (alloc_mem c) (λ r s', match spec_alloc c hs with
                            | Some (b, hs') => r = b ∧ holes_inv s' hs'
                            | None => r = NO_MEM ∧ s' = s
                            end) s.
Proof.
  intros (Hok & L & F & Hr) Hc. unfold alloc_mem. wp_steps.
  rewrite (chain_head _ _ _ (rep_chain _ _ _ _ Hr)).
  eapply wp_mono.
  { apply (alloc_loop c hole_fuel None s [] L F [] hs 1); try done.
    pose proof (rep_tail_length _ _ _ _ Hr). unfold hole_fuel. lia. }
  intros r s'. cbn beta. destruct (spec_alloc c hs) as [[b hs']|] eqn:E; [|done].
  intros [-> (L' & F' & Hr')]. split; [done|]. split; [|eauto].
  by eapply spec_alloc_ok.
Qed.

Lemma free_mem_run s hs b c :
  holes_inv s hs → block_apart b c hs → (length hs < 128)%nat →
  wp (free_mem b c) (λ _ s', holes_inv s' (spec_free b c hs)) s.
Proof.
  intros (Hok & L & F & Hr) Hap Hlen.
  pose proof Hap as (Hb1 & Hc & Hbc & _).
  assert (HF : ∃ i F', F = i :: F').
  { pose proof (Permutation_length (rep_perm _ _ _ _ Hr)) as E.
    rewrite length_app, length_seqZ, (rep_length _ _ _ _ Hr) in E. unfold NR_HOLES in E.
    destruct F; [cbn in E; lia|eauto]. }
  destruct HF as (i & F' & ->).
  destruct (rep_slots _ _ _ _ Hr i) as [e He]; [set_solver|].
  assert (free_slots s = Some i) as Hfs by apply Hr.
  assert (holes_ok 1 1 (spec_free b c hs)) as Hok' by by apply spec_free_ok.
  unfold free_mem. destruct (Z.eqb_spec c 0); [lia|].
  wp_step. wp_step. rewrite Hfs. wp_step. eapply wp_hole_at; [done|].
  wp_step. apply wp_set_hole. cbn. wp_step. wp_step. wp_step. wp_step. cbn.
  rewrite (chain_head _ _ _ (rep_chain _ _ _ _ Hr)).
  pose proof (rep_NoDup _ _ _ _ Hr) as Hnd.
  apply NoDup_app in Hnd as (HndL & Hd & _).
  assert (HiL : i ∉ L) by (intros ?; eapply Hd; set_solver).
  set (tbl1 := <[i := Hole b c (h_next e)]> (hole_tbl s)).
  set (s1 := Holes tbl1 (hole_head s) (h_next e)).
  assert (Hl1 : hole_list s1 L hs).
  { split; cbn; [|apply slots_set_ne; [done|apply Hr]].
    eapply lseg_ext, Hr. intros k Hk. unfold tbl1. rewrite hnext_set, relink_ne; set_solver. }
  assert (Hi1 : hole_tbl s1 !! i = Some (Hole b c (h_next e))).
  { cbn. apply lookup_insert_eq. }
  pose proof (free_abs_spec b c 1 hs Hok Hap) as Habs.
  assert (Hfront : wp (match head L with
                       | None => mret true
                       | Some i => h ← hole_at i; mret (b <=? h_base h)
                       end) (λ r s', s' = s1 ∧ r = match hs with h :: _ => b <=? h.1 | [] => true end) s1).
  { pose proof (rep_length _ _ _ _ Hr) as E. destruct L as [|j L], hs as [|[bj lj] hs]; try done.
    cbn [head]. destruct (hole_list_at s1 [] j L [] (bj, lj) hs Hl1 eq_refl) as (n0 & Hn & _).
    wp_step. eapply wp_hole_at; [done|]. by wp_steps. }
  wp_step. eapply wp_mono; [exact Hfront|]. cbn beta. intros r s' [-> ->]. clear Hfront.
  destruct (match hs with h :: _ => b <=? h.1 | [] => true end) eqn:Ef.
  - wp_step. eapply wp_hole_at; [done|]. wp_step. apply wp_set_hole. wp_step. wp_step. cbn.
    unfold tbl1. rewrite insert_insert_eq.
    pose proof (rep_insert_front s L i F' hs b c e Hr He) as Hr'.
    rewrite (chain_head _ _ _ (rep_chain _ _ _ _ Hr)) in Hr'.
    eapply wp_mono; [apply (merge_spec _ [] i L F' [] (b, c) hs Hr' eq_refl)|].
    + cbn. split_and!; try lia.
      assert (Hfr : Forall (λ h, b + c ≤ h.1) hs).
      { destruct hs as [|[b1 l1] r]; [done|]. apply Z.leb_le in Ef. cbn in Ef.
        destruct Hok as (? & ? & ? & Hok).
        apply (apart_front b c b1); [by split_and!|done|done]. }
      destruct hs as [|[b1 l1] r]; [done|]. apply Forall_cons in Hfr as [? _].
      destruct Hok as (? & ? & ? & Hok). cbn in *. split_and!; try lia.
      clear -Hok. eapply holes_ok_gap, Hok.
    + intros [] s' (L' & F2 & Hr2). split; [done|]. exists L', F2.
      replace (spec_free b c hs) with (merge_abs (b, c) hs); [done|].
      rewrite <- Habs. destruct hs as [|h hs]; [done|]. cbn. by rewrite Ef.
  - wp_step. eapply wp_mono.
    { apply (free_loop b hole_fuel None s1 [] L [] hs); try done.
      pose proof (rep_tail_length _ _ _ _ Hr). unfold hole_fuel. lia. }
    intros r s' (-> & L3 & L4 & hs3 & hs4 & -> & -> & Hl3 & -> & Hlt & Hge). cbn [app].
    destruct hs3 as [|hp hs3 _] using rev_ind.
    { exfalso. cbn in Ef. destruct hs4 as [|h hs4]; [done|]. apply Z.leb_gt in Ef. lia. }
    rewrite length_app in Hl3. cbn in Hl3.
    destruct L3 as [|p L3 _] using rev_ind; [cbn in Hl3; lia|].
    rewrite length_app in Hl3. cbn in Hl3. rewrite last_snoc. rewrite <- !app_assoc in *.
    destruct (rep_at s L3 p L4 (i :: F') hs3 hp hs4 Hr) as (m & Hm & _); [lia|].
    assert (Hpi : p ≠ i) by set_solver.
    wp_step. wp_step. wp_step. eapply wp_hole_at; [by apply lookup_insert_Some; right|].
    wp_step. eapply wp_hole_at; [done|]. wp_step. apply wp_set_hole. cbn.
    wp_step. eapply wp_hole_at.
    { cbn. unfold tbl1. by rewrite !lookup_insert_ne. }
    wp_step. apply wp_set_hole. cbn. unfold tbl1. rewrite insert_insert_eq.
    pose proof (rep_insert_after s L3 p L4 i F' hs3 hp hs4 b c e _ Hr ltac:(lia) He Hm) as Hr'.
    eapply wp_mono; [apply (merge_spec _ _ _ _ _ _ _ _ Hr'); [lia|]|].
    + apply Forall_app in Hlt as [_ [Hlt _]%Forall_cons]. by eapply mid_ok.
    + intros [] s' (L' & F2 & Hr2). split; [done|]. exists L', F2.
      cbn [app] in Habs. rewrite <- Habs. by rewrite free_abs_mid.
Qed.

Lemma free_mem_full s hs b c :
  holes_inv s hs → c ≠ 0 → length hs = 128%nat → free_mem b c s = Panic "Hole table full" 0x8000.
Proof.
  intros (_ & L & F & Hr) Hc Hlen. unfold free_mem. destruct (Z.eqb_spec c 0); [done|].
  assert (free_slots s = None) as E; [|unfold mbind, M_bind, gets; by rewrite E].
  pose proof (Permutation_length (rep_perm _ _ _ _ Hr)) as E.
  rewrite length_app, length_seqZ, (rep_length _ _ _ _ Hr) in E. unfold NR_HOLES in E.
  destruct F; [apply Hr|cbn in E; lia].
Qed.

(** *** Facts about the abstract operations *)
Lemma free_click_nil x : ¬ free_click [] x.
Proof. intros (b & l & H & _). by apply elem_of_nil in H. Qed.

Lemma free_click_cons b l hs x : free_click ((b, l) :: hs) x ↔ b ≤ x < b + l ∨ free_click hs x.
Proof.
  unfold free_click. split.
  - intros (b' & l' & [[= -> ->]|?]%elem_of_cons & ?); eauto.
  - intros [?|(b' & l' & ? & ?)]; [exists b, l|exists b', l']; split; set_solver.
Qed.

Lemma free_click_lb lo hs x : holes_ok 1 lo hs → free_click hs x → lo ≤ x.
Proof.
  revert lo. induction hs as [|[b l] hs IH]; intros lo; [by intros _ ?%free_click_nil|].
  intros (? & ? & ? & Hok) [?|Hx]%free_click_cons; [lia|]. pose proof (IH _ Hok Hx). lia.
Qed.

Lemma spec_free_click b c lo hs x :
  holes_ok 1 lo hs → 0 < c →
  free_click (spec_free b c hs) x ↔ b ≤ x < b + c ∨ free_click hs x.
Proof.
  revert b c lo. induction hs as [|[b1 l1] hs IH]; intros b c lo Hok Hc; cbn [spec_free].
  { by rewrite free_click_cons. }
  destruct Hok as (? & ? & ? & Hok).
  destruct (Z.ltb_spec (b + c) b1); [by rewrite !free_click_cons|].
  destruct (Z.eqb_spec (b + c) b1).
  { rewrite !free_click_cons. naive_solver lia. }
  destruct (Z.eqb_spec (b1 + l1) b).
  - rewrite (IH _ _ _ Hok) by lia. rewrite !free_click_cons. naive_solver lia.
  - rewrite !free_click_cons, (IH _ _ _ Hok) by lia. naive_solver.
Qed.

Lemma spec_alloc_click c lo hs b hs' x :
  holes_ok 1 lo hs → 0 ≤ c → spec_alloc c hs = Some (b, hs') →
  (free_click hs' x ↔ free_click hs x ∧ ¬ b ≤ x < b + c) ∧
  (b ≤ x < b + c → free_click hs x) ∧ lo ≤ b.
Proof.
  revert lo b hs'. induction hs as [|[b1 l1] hs IH]; intros lo b hs' Hok Hc; [done|].
  destruct Hok as (? & ? & ? & Hok). cbn.
  destruct (Z.leb_spec c l1) as [Hcl|Hcl].
  - intros [= <- <-].
    assert (Hlb : free_click hs x → b1 + l1 + 1 ≤ x) by by apply free_click_lb.
    destruct (Z.eqb_spec c l1) as [->|]; rewrite !free_click_cons;
      (split_and!; [split; [intros; split; [|intros ?]|]| |]); naive_solver lia.
  - destruct (spec_alloc c hs) as [[y r']|] eqn:E; cbn; [|done]. intros [= <- <-].
    destruct (IH _ _ _ Hok Hc eq_refl) as (IH1 & IH2 & ?). rewrite !free_click_cons, IH1.
    split_and!; [|naive_solver|lia]. split; [|naive_solver].
    intros [?|[? ?]]; (split; [naive_solver|]); [lia|done].
Qed.

Lemma spec_alloc_None c hs : spec_alloc c hs = None ↔ Forall (λ h, h.2 < c) hs.
Proof.
  induction hs as [|[b l] hs IH]; cbn; [done|].
  rewrite Forall_cons, <- IH. cbn. destruct (Z.leb_spec c l); [naive_solver lia|].
  destruct (spec_alloc c hs) as [[??]|]; cbn; naive_solver lia.
Qed.

Lemma spec_free_alloc c lo hs b hs' :
  holes_ok 1 lo hs → 0 < c → spec_alloc c hs = Some (b, hs') → spec_free b c hs' = hs.
Proof.
  revert lo b hs'. induction hs as [|[b1 l1] hs IH]; intros lo b hs' Hok Hc; [done|].
  destruct Hok as (? & ? & ? & Hok). cbn.
  destruct (Z.leb_spec c l1) as [Hcl|Hcl].
  - intros [= <- <-]. destruct (Z.eqb_spec c l1) as [->|].
    + destruct hs as [|[b2 l2] hs]; cbn; [done|]. destruct Hok as [? _].
      by destruct (Z.ltb_spec (b1 + l1) b2); [|lia].
    + cbn. destruct (Z.ltb_spec (b1 + c) (b1 + c)); [lia|].
      rewrite Z.eqb_refl. do 2 f_equal. lia.
  - destruct (spec_alloc c hs) as [[y r']|] eqn:E; cbn; [|done]. intros [= <- <-].
    cbn. destruct (spec_alloc_click c _ _ _ _ 0 Hok (Z.lt_le_incl _ _ Hc) E) as (_ & _ & Hy).
    destruct (Z.ltb_spec (y + c) b1); [lia|]. destruct (Z.eqb_spec (y + c) b1); [lia|].
    destruct (Z.eqb_spec (b1 + l1) y); [lia|]. f_equal. by eapply IH.
Qed.

Lemma spec_alloc_apart c hs b hs' :
  holes_ok 1 1 hs → 0 < c → spec_alloc c hs = Some (b, hs') → block_apart b c hs'.
Proof.
  intros Hok Hc E. destruct (spec_alloc_ok _ _ _ _ _ Hok (Z.lt_le_incl _ _ Hc) E) as (? & ? & Hok').
  split_and!; try done. apply Forall_forall. intros [b1 l1] Hin. cbn.
  assert (Hl1 : 0 < l1).
  { pose proof (holes_ok_lb _ _ Hok') as Hlb. rewrite Forall_forall in Hlb.
    by apply (Hlb (b1, l1)). }
  destruct (spec_alloc_click c 1 hs b hs' (Z.max b b1) Hok ltac:(lia) E) as (Hx & _ & _).
  assert (Hn : ¬ (free_click hs' (Z.max b b1) ∧ b ≤ Z.max b b1 < b + c)) by (rewrite Hx; tauto).
  destruct (decide (b1 + l1 ≤ b)); [by right|]. destruct (decide (b + c ≤ b1)); [by left|].
  exfalso. apply Hn. split; [|lia]. exists b1, l1. split; [done|lia].
Qed.

Lemma spec_alloc_length c hs b hs' : spec_alloc c hs = Some (b, hs') → (length hs' ≤ length hs)%nat.
Proof.
  revert b hs'. induction hs as [|[b1 l1] hs IH]; intros b hs'; cbn; [done|].
  destruct (c <=? l1). { intros [= <- <-]. destruct (c =? l1); cbn; lia. }
  destruct (spec_alloc c hs) as [[y r']|]; cbn; [|done]. intros [= <- <-].
  cbn. by apply le_n_S, (IH y).
Qed.

Lemma holes_inv_length s hs : holes_inv s hs → (length hs ≤ 128)%nat.
Proof.
  intros (_ & L & F & Hr). rewrite <- (rep_length _ _ _ _ Hr). by eapply rep_tail_length.
Qed.

Lemma max_loop fuel s max L1 L2 hs1 hs2 :
  hole_list s (L1 ++ L2) (hs1 ++ hs2) → length L1 = length hs1 → (length L2 < fuel)%nat →
  wp (loop fuel max_step (max, head L2))
     (λ r s', s' = s ∧ r = foldl (λ m h, Z.max m h.2) max hs2) s.
Proof.
  revert max L1 L2 hs1 hs2. induction fuel as [|fuel IH]; intros max L1 L2 hs1 hs2 Hr Hlen Hf; [lia|].
  pose proof (Forall2_length _ _ _ (proj2 Hr)) as Hl. rewrite !length_app in Hl.
  destruct L2 as [|i L2], hs2 as [|[b1 l1] hs2]; cbn in Hl; try lia; rewrite loop_unfold; cbn [head max_step].
  { by wp_steps. }
  destruct (hole_list_at s L1 i L2 hs1 (b1, l1) hs2 Hr Hlen) as (n & Hn & ->).
  do 2 wp_step. eapply wp_hole_at; [done|]. cbn [h_len h_next fst snd]. wp_step.
  cbn [foldl snd]. cbn in Hf.
  replace (if max <? l1 then l1 else max) with (Z.max max l1)
    by (destruct (Z.ltb_spec max l1); lia).
  apply (IH _ (L1 ++ [i]) _ (hs1 ++ [(b1, l1)])); [by rewrite <- !app_assoc|..|lia].
  rewrite !length_app. cbn. lia.
Qed.

Lemma max_hole_run s hs :
  holes_inv s hs → wp max_hole (λ r s', s' = s ∧ r = foldl (λ m h, Z.max m h.2) 0 hs) s.
Proof.
  intros (Hok & L & F & Hr). unfold max_hole. wp_steps.
  rewrite (chain_head _ _ _ (rep_chain _ _ _ _ Hr)).
  apply (max_loop hole_fuel s 0 [] L [] hs); [split; apply Hr|done|].
  pose proof (rep_tail_length _ _ _ _ Hr). unfold hole_fuel. lia.
Qed.

Lemma foldl_max_le m (hs : list (Z * Z)) c :
  foldl (λ m h, Z.max m h.2) m hs < c ↔ m < c ∧ Forall (λ h, h.2 < c) hs.
Proof.
  revert m. induction hs as [|h hs IH]; intros m; cbn; [naive_solver|].
  rewrite IH, Forall_cons. naive_solver lia.
Qed.
End operations.

(** ** mem_init *)
Definition nz (mem : list memory) : list memory := filter (λ m, mem_size m ≠ 0) mem.
Definition chunk_in (m : memory) : Prop :=
  1 ≤ mem_base m ∧ 0 ≤ mem_size m ∧ mem_base m + mem_size m ≤ 2 ^ 16.
Definition chunks_apart (m m' : memory) : Prop :=
  mem_base m + mem_size m ≤ mem_base m' ∨ mem_base m' + mem_size m' ≤ mem_base m.
(** Usable memory chunks: inside the click space and pairwise disjoint. *)
Fixpoint chunks_ok (mem : list memory) : Prop :=
  match mem with
  | [] => True
  | m :: r => chunk_in m ∧ Forall (chunks_apart m) r ∧ chunks_ok r
  end.
(** Click [x] lies in one of the chunks. *)
Definition chunk_click (mem : list memory) (x : Z) : Prop :=
  ∃ m, m ∈ mem ∧ mem_base m ≤ x < mem_base m + mem_size m.
Definition chunk_sum (mem : list memory) : Z := foldr (λ m n, mem_size m + n) 0 mem.
(** The hole table before [mem_init]: one structure per slot. *)
Definition table_ok (s : holes) : Prop := ∀ i, 0 ≤ i < NR_HOLES → is_Some (hole_tbl s !! i).

Section init.
Implicit Types (mem : list memory) (m : memory).

Lemma nz_cons m mem : nz (m :: mem) = if decide (mem_size m ≠ 0) then m :: nz mem else nz mem.
Proof. unfold nz. rewrite filter_cons. by repeat case_decide. Qed.

Lemma nz_zero b mem : nz (Memory b 0 :: mem) = nz mem.
Proof. rewrite nz_cons, decide_False; [done|cbn; tauto]. Qed.

Lemma do_mem_spec mem :
  match nz mem with
  | [] => (do_mem mem).1.2 = 0 ∧ nz (do_mem mem).2 = []
  | mp :: r => (do_mem mem).1 = (mem_base mp, mem_size mp) ∧ nz (do_mem mem).2 = r
  end.
Proof.
  induction mem as [|m mem IH]; [done|]. rewrite nz_cons.
  destruct (decide (mem_size m ≠ 0)) as [Hm|Hm].
  - cbn [do_mem]. destruct (Z.eqb_spec (mem_size m) 0); [done|]. cbn [negb fst snd].
    by rewrite nz_zero.
  - apply dec_stable in Hm. cbn [do_mem]. rewrite Hm. cbn [Z.eqb negb].
    destruct mem as [|m' mem]; [done|].
    destruct (do_mem (m' :: mem)) as [r mem'] eqn:E. cbn [fst snd] in *. by rewrite nz_zero.
Qed.

Lemma chunks_ok_filter mem : chunks_ok mem → chunks_ok (nz mem).
Proof.
  induction mem as [|m mem IH]; [done|]. intros (Hin & Hap & Hok). rewrite nz_cons.
  case_decide; [|by apply IH]. split_and!; [done| |by apply IH].
  rewrite Forall_forall in Hap |- *. intros x [_ ?]%list_elem_of_filter. by apply Hap.
Qed.

Lemma chunk_click_nz mem x : chunk_click (nz mem) x ↔ chunk_click mem x.
Proof.
  unfold chunk_click, nz. setoid_rewrite list_elem_of_filter. split.
  - intros (m & [_ ?] & ?). eauto.
  - intros (m & ? & ?). exists m. split; [split|]; [lia|done..].
Qed.

Lemma chunk_sum_nz mem : chunk_sum (nz mem) = chunk_sum mem.
Proof.
  induction mem as [|m mem IH]; [done|]. rewrite nz_cons. cbn.
  case_decide; cbn; [unfold chunk_sum in *; lia|]. rewrite IH. unfold chunk_sum in *. lia.
Qed.

Lemma spec_free_total b c hs : total_free (spec_free b c hs) = c + total_free hs.
Proof.
  revert b c. induction hs as [|[b1 l1] hs IH]; intros b c; cbn; [done|].
  destruct (b + c <? b1); [done|]. destruct (b + c =? b1); [cbn; unfold total_free; lia|].
  destruct (b1 + l1 =? b); [rewrite IH|cbn; rewrite IH]; unfold total_free; lia.
Qed.

Lemma spec_free_length b c hs : (length (spec_free b c hs) ≤ S (length hs))%nat.
Proof.
  revert b c. induction hs as [|[b1 l1] hs IH]; intros b c; cbn; [lia|].
  destruct (b + c <? b1); [cbn; lia|]. destruct (b + c =? b1); [cbn; lia|].
  destruct (b1 + l1 =? b); [etrans; [apply IH|lia]|cbn; pose proof (IH b c); lia].
Qed.

(** A block is apart from the holes when none of its clicks is free. *)
Lemma block_apart_clicks b c hs :
  holes_ok 1 1 hs → 1 ≤ b → 0 < c → b + c ≤ 2 ^ 16 →
  (∀ x, b ≤ x < b + c → ¬ free_click hs x) → block_apart b c hs.
Proof.
  intros Hok Hb Hc Hbc Hx. split_and!; try done. apply Forall_forall. intros [b1 l1] Hin. cbn.
  assert (Hl1 : 0 < l1).
  { pose proof (holes_ok_lb _ _ Hok) as Hlb. rewrite Forall_forall in Hlb. by apply (Hlb (b1, l1)). }
  destruct (decide (b1 + l1 ≤ b)); [by right|]. destruct (decide (b + c ≤ b1)); [by left|].
  exfalso. apply (Hx (Z.max b b1)); [lia|]. exists b1, l1. split; [done|lia].
Qed.

Lemma seq_chain nx n i : 0 ≤ n →
  (∀ k, i ≤ k < i + n → nx k = if k =? i + n - 1 then None else Some (k + 1)) →
  chain nx (if n =? 0 then None else Some i) (seqZ i n).
Proof.
  intros Hn. revert i. pattern n. apply natlike_ind; [done| |done].
  intros m Hm IH i Hnx. destruct (Z.eqb_spec (Z.succ m) 0); [lia|].
  rewrite seqZ_cons by lia. cbn. split; [done|].
  rewrite Hnx by lia. replace (Z.pred (Z.succ m)) with m by lia.
  specialize (IH (Z.succ i)). destruct (Z.eqb_spec m 0).
  - destruct (Z.eqb_spec i (i + Z.succ m - 1)); [|lia]. apply IH. lia.
  - destruct (Z.eqb_spec i (i + Z.succ m - 1)); [lia|]. apply IH.
    intros k Hk. rewrite Hnx by lia. replace (Z.succ i + m - 1) with (i + Z.succ m - 1) by lia. done.
Qed.

Lemma init_empty s :
  table_ok s →
  holes_inv (s <| hole_tbl := link_slots (hole_tbl s) |>
               <| hole_head := None |> <| free_slots := Some 0 |>) [].
Proof.
  intros Ht. split; [done|]. exists [], (seqZ 0 NR_HOLES). split; cbn; [done| |done| |constructor].
  - apply (seq_chain _ NR_HOLES 0); [done|]. intros k Hk. unfold hnext, link_slots.
    rewrite map_lookup_imap. destruct (Ht k) as [h ->]; [lia|]. cbn. done.
  - intros i Hi%elem_of_seqZ. unfold link_slots. rewrite map_lookup_imap.
    destruct (Ht i) as [h ->]; [lia|]. cbn. eauto.
Qed.

(** Each round frees the next chunk. *)
Lemma mem_init_loop tot fuel total fr mem s hs :
  holes_inv s hs → (length (nz mem) < fuel)%nat → (length hs + length (nz mem) ≤ 128)%nat →
  chunks_ok (nz mem) → (∀ m x, m ∈ nz mem → mem_base m ≤ x < mem_base m + mem_size m → ¬ free_click hs x) →
  wp (loop fuel (mem_init_step tot) (total, fr, mem))
     (λ r s', ∃ hs', holes_inv s' hs' ∧ nz r.2 = [] ∧
        r.1.1 = (match nz mem with [] => total | _ => tot end) ∧
        r.1.2 = foldl (λ f m, u16 (f + mem_size m)) fr (nz mem) ∧
        total_free hs' = chunk_sum (nz mem) + total_free hs ∧
        ∀ x, free_click hs' x ↔ chunk_click (nz mem) x ∨ free_click hs x) s.
Proof.
  revert total fr mem s hs. induction fuel as [|fuel IH]; intros total fr mem s hs Hinv Hfuel Hlen Hok Hap; [lia|].
  rewrite loop_unfold. wp_step. cbn [mem_init_step]. pose proof (do_mem_spec mem) as Hdo.
  destruct (do_mem mem) as [[b sz] mem'] eqn:Edo. cbn [fst snd] in Hdo. destruct (nz mem) as [|m r] eqn:Enz.
  { destruct Hdo as [-> Hnz]. cbn [Z.eqb]. wp_steps. exists hs. cbn. split_and!; try done.
    intros x. split; [by right|]. intros [(m & ?%elem_of_nil & _)|?]; done. }
  destruct Hdo as [[= -> ->] Hnz]. destruct Hok as ((Hb & Hs & Hbs) & Hmr & Hok).
  assert (Hsz : mem_size m ≠ 0).
  { assert (m ∈ nz mem) as Hin by (rewrite Enz; left). by apply list_elem_of_filter in Hin as [? _]. }
  destruct (Z.eqb_spec (mem_size m) 0) as [|_]; [done|]. cbn in Hlen, Hfuel.
  assert (Hba : block_apart (mem_base m) (mem_size m) hs).
  { apply block_apart_clicks; [apply Hinv|lia..|]. intros x Hx. apply (Hap m); [left|done]. }
  wp_step. eapply wp_mono; [apply (free_mem_run _ hs); [done|done|lia]|].
  intros [] s' Hinv'. wp_step. cbn beta iota.
  assert (Hclick : ∀ x, free_click (spec_free (mem_base m) (mem_size m) hs) x ↔
    mem_base m ≤ x < mem_base m + mem_size m ∨ free_click hs x).
  { intros x. eapply spec_free_click; [apply Hinv|lia]. }
  eapply wp_mono; [apply (IH _ _ _ _ _ Hinv')|]; rewrite ?Hnz; try done; try lia.
  - pose proof (spec_free_length (mem_base m) (mem_size m) hs). lia.
  - intros m' x Hm' Hx. rewrite Hclick. intros [?|?]; [|by eapply (Hap m'); [right|..]].
    rewrite Forall_forall in Hmr. destruct (Hmr _ Hm'); lia.
  - cbn beta. intros [[t f] mm] s'' (hs' & ? & ? & Ht & Hf & Htf & Hc). exists hs'. cbn in *.
    split_and!; try done.
    + rewrite Ht. by destruct r.
    + rewrite Htf, spec_free_total. unfold chunk_sum. lia.
    + intros x. rewrite Hc, Hclick. unfold chunk_click. split.
      * intros [(m' & ? & ?)|[?|?]]; [left; exists m'; split; [by right|done]|left; exists m; split; [left|done]|by right].
      * intros [(m' & [->|?]%elem_of_cons & ?)|?]; [by right; left|left; eauto|by right; right].
Qed.

Lemma foldl_u16_sum fr mem :
  foldl (λ f m, u16 (f + mem_size m)) (u16 fr) mem = u16 (fr + chunk_sum mem).
Proof.
  revert fr. induction mem as [|m mem IH]; intros fr; cbn; [by rewrite Z.add_0_r|].
  replace (u16 (u16 fr + mem_size m)) with (u16 (fr + mem_size m)).
  - rewrite IH. unfold chunk_sum. f_equal. lia.
  - unfold u16. by rewrite Zplus_mod_idemp_l.
Qed.
End init.

(** ** Properties *)

(** The table after [mem_init] on a kernel that reports the given chunks. *)
Definition init_with (mem : list memory) : res holes (Z * Z * list memory) :=
  mem_init 0 0 mem zero_holes.
(** A table with two holes, clicks 10-29 and 100-199. *)
Definition two_holes : holes :=
  match init_with [Memory 10 20; Memory 100 100] with Ret _ s => s | _ => zero_holes end.

Section examples.
Lemma zero_holes_ok : table_ok zero_holes.
Proof.
  intros i Hi. exists (Hole 0 0 None). cbn [hole_tbl zero_holes]. apply elem_of_list_to_map_1.
  - rewrite <- list_fmap_compose. cbn. rewrite list_fmap_id. apply NoDup_seqZ.
  - apply list_elem_of_fmap. exists i. split; [done|]. by apply elem_of_seqZ.
Qed.

Lemma two_holes_inv : holes_inv two_holes [(10, 20); (100, 100)].
Proof.
  unfold two_holes.
  assert (wp (mem_init 0 0 [Memory 10 20; Memory 100 100])
     (λ _ s, holes_inv s [(10, 20); (100, 100)]) zero_holes) as (r & s & E & H)%wp_inv.
  { unfold mem_init. do 2 wp_step.
    pose proof (init_empty zero_holes zero_holes_ok) as Hi.
    change (S (length _)) with 3%nat.
    rewrite loop_unfold. wp_step. cbn [mem_init_step do_mem mem_size mem_base Z.eqb negb]. wp_step.
    eapply wp_mono; [apply (free_mem_run _ [] 10 20 Hi); [split_and!; try done; constructor|cbn; lia]|].
    intros [] s Hs. wp_step. cbn beta iota.
    rewrite loop_unfold. wp_step. cbn [mem_init_step do_mem mem_size mem_base Z.eqb negb]. wp_step.
    eapply wp_mono; [apply (free_mem_run _ [(10, 20)] 100 100 Hs); [split_and!; try done|cbn; lia]|].
    { apply Forall_cons. split; [cbn; lia|constructor]. }
    intros [] s' Hs'. wp_step. cbn beta iota.
    rewrite loop_unfold. wp_step. cbn [mem_init_step do_mem mem_size mem_base Z.eqb negb]. wp_step. by wp_step. }
  unfold init_with. by rewrite E.
Qed.
End examples.

(** C30: [alloc_mem] implements first fit.  On every reachable hole table it
    terminates without a fault; it returns [NO_MEM] and changes nothing exactly
    when no hole is large enough, and otherwise returns the base of the first
    hole that fits, all of whose [c] clicks were free, after which exactly
    those clicks have left the free memory and the table is again sorted,
    disjoint and coalesced. *)
Theorem alloc_mem_first_fit (s : holes) (hs : list (Z * Z)) (c : Z)
    (Hinv : holes_inv s hs) (Hc : 0 < c) :
  ∃ r s', alloc_mem c s = Ret r s' ∧
  match spec_alloc c hs with
  | None => r = NO_MEM ∧ s' = s ∧ Forall (λ h, h.2 < c) hs
  | Some (b, hs') =>
      r = b ∧ r ≠ NO_MEM ∧ holes_inv s' hs' ∧
      (∀ x, b ≤ x < b + c → free_click hs x) ∧
      (∀ x, free_click hs' x ↔ free_click hs x ∧ ¬ b ≤ x < b + c)
  end.
Proof.
  destruct (wp_inv _ _ _ (alloc_mem_run s hs c Hinv ltac:(lia))) as (r & s' & E & H).
  exists r, s'. split; [done|]. destruct (spec_alloc c hs) as [[b hs']|] eqn:Es.
  - destruct H as [-> H]. pose proof (proj1 Hinv) as Hok.
    destruct (spec_alloc_ok _ _ _ _ _ Hok (Z.lt_le_incl _ _ Hc) Es) as (? & _).
    split_and!; [done|unfold NO_MEM; lia|done|intros x|intros x];
      by destruct (spec_alloc_click c 1 hs b hs' x Hok (Z.lt_le_incl _ _ Hc) Es) as (? & ? & _).
  - destruct H as [-> ->]. split_and!; [done..|]. by apply spec_alloc_None.
Qed.
Lemma alloc_mem_first_fit_witness :
  ∃ r s', alloc_mem 30 two_holes = Ret r s' ∧ r = 100 ∧ holes_inv s' [(10, 20); (130, 70)].
Proof.
  destruct (alloc_mem_first_fit two_holes _ 30 two_holes_inv ltac:(lia)) as (r & s' & E & -> & _ & H & _).
  exists 100, s'. exact (conj E (conj eq_refl H)).
Defined.

(** [free_mem] gives a block back.  A block that overlaps no hole is
    merged into the list: the result is the sorted coalesced list with exactly
    the block's clicks added.  When all table slots are in use the call panics
    and does nothing else. *)
Theorem free_mem_coalesces (s : holes) (hs : list (Z * Z)) (b c : Z)
    (Hinv : holes_inv s hs) (Hb : block_apart b c hs) :
  if (length hs =? 128)%nat then free_mem b c s = Panic "Hole table full" 0x8000
  else ∃ s', free_mem b c s = Ret tt s' ∧ holes_inv s' (spec_free b c hs) ∧
       ∀ x, free_click (spec_free b c hs) x ↔ b ≤ x < b + c ∨ free_click hs x.
Proof.
  pose proof (proj1 (proj2 Hb)) as Hc. pose proof (holes_inv_length _ _ Hinv).
  destruct (Nat.eqb_spec (length hs) 128).
  - eapply free_mem_full; [done|lia|done].
  - destruct (wp_inv _ _ _ (free_mem_run s hs b c Hinv Hb ltac:(lia))) as ([] & s' & E & H').
    exists s'. split_and!; [done..|]. intros x. eapply spec_free_click; [apply Hinv|done].
Qed.
Lemma free_mem_coalesces_witness :
  ∃ s', free_mem 30 70 two_holes = Ret tt s' ∧ holes_inv s' [(10, 190)].
Proof.
  assert (Hap : block_apart 30 70 [(10, 20); (100, 100)]).
  { split_and!; try lia. apply Forall_cons; split; [cbn; lia|]. apply Forall_cons; split; [cbn; lia|constructor]. }
  destruct (free_mem_coalesces two_holes _ 30 70 two_holes_inv Hap) as (s' & E & H & _).
  exists s'. exact (conj E H).
Defined.

(** Allocation and release are inverse: releasing the block just
    allocated succeeds and restores the hole list that was there before. *)
Theorem alloc_free_roundtrip (s s' : holes) (hs : list (Z * Z)) (c b : Z)
    (Hinv : holes_inv s hs) (Hc : 0 < c) (Hfull : (length hs < 128)%nat)
    (Ha : alloc_mem c s = Ret b s') (Hb : b ≠ NO_MEM) :
  ∃ s'', free_mem b c s' = Ret tt s'' ∧ holes_inv s'' hs.
Proof.
  pose proof (alloc_mem_run s hs c Hinv ltac:(lia)) as H. unfold wp in H. rewrite Ha in H.
  destruct (spec_alloc c hs) as [[b' hs']|] eqn:Es; [|by destruct H].
  destruct H as [-> H]. pose proof (proj1 Hinv) as Hok.
  pose proof (spec_alloc_apart _ _ _ _ Hok Hc Es). pose proof (spec_alloc_length _ _ _ _ Es).
  destruct (wp_inv _ _ _ (free_mem_run s' hs' b' c H ltac:(done) ltac:(lia))) as ([] & s'' & E & H').
  exists s''. split; [done|]. by rewrite (spec_free_alloc _ _ _ _ _ Hok Hc Es) in H'.
Qed.
Lemma alloc_free_roundtrip_witness :
  ∃ b s' s'', alloc_mem 20 two_holes = Ret b s' ∧ free_mem b 20 s' = Ret tt s'' ∧
              holes_inv s'' [(10, 20); (100, 100)].
Proof.
  destruct (alloc_mem 20 two_holes) as [b s'| | |] eqn:E; [|vm_compute in E; discriminate..].
  destruct (alloc_free_roundtrip two_holes s' _ 20 b two_holes_inv ltac:(lia) ltac:(cbn; lia) E) as (s'' & E' & H).
  { intros ->. vm_compute in E. discriminate. }
  exists b, s', s''. exact (conj eq_refl (conj E' H)).
Defined.

(** [max_hole] decides whether an allocation will succeed: it returns the
    size of the largest hole and changes nothing, and [alloc_mem] of a positive
    number of clicks returns memory exactly when that number does not exceed it. *)
Theorem max_hole_sound (s : holes) (hs : list (Z * Z)) (c : Z) (Hinv : holes_inv s hs) (Hc : 0 < c) :
  ∃ m r s', max_hole s = Ret m s ∧ alloc_mem c s = Ret r s' ∧ (r ≠ NO_MEM ↔ c ≤ m).
Proof.
  destruct (wp_inv _ _ _ (max_hole_run s hs Hinv)) as (m & s1 & Em & -> & Hm).
  destruct (wp_inv _ _ _ (alloc_mem_run s hs c Hinv ltac:(lia))) as (r & s' & Er & H).
  exists m, r, s'. split_and!; [done..|]. pose proof (foldl_max_le 0 hs c) as Hmax. rewrite <- Hm in Hmax.
  pose proof (spec_alloc_None c hs) as HN. destruct (spec_alloc c hs) as [[b hs']|] eqn:Es.
  - destruct H as [-> _]. destruct (spec_alloc_ok _ _ _ _ _ (proj1 Hinv) (Z.lt_le_incl _ _ Hc) Es) as (? & _).
    split; [intros _|unfold NO_MEM; lia]. apply Z.nlt_ge. rewrite Hmax. rewrite <- HN. by intros [_ ?].
  - destruct H as [-> _]. split; [done|]. apply proj1 in HN. specialize (HN eq_refl).
    assert (m < c) by (rewrite Hmax; done). lia.
Qed.
Lemma max_hole_sound_witness :
  ∃ m r s', max_hole two_holes = Ret m two_holes ∧ alloc_mem 101 two_holes = Ret r s' ∧ (r ≠ NO_MEM ↔ 101 ≤ m).
Proof. apply (max_hole_sound two_holes _ 101 two_holes_inv). lia. Defined.

(** [mem_init] builds the hole list from the memory chunks of the kernel:
    for at most 128 disjoint chunks it terminates, the free memory is exactly
    the union of the chunks, coalesced, [*free] is their total size (modulo the
    width of a click count), [*total] is the kernel's total if any chunk was
    received, and the kernel is left with no chunk to hand out. *)
Theorem mem_init_builds (s : holes) (tot total : Z) (mem : list memory)
    (Hs : table_ok s) (Hmem : chunks_ok mem) (Hlen : (length mem ≤ 128)%nat) :
  ∃ total' free mem' s' hs, mem_init tot total mem s = Ret (total', free, mem') s' ∧
    holes_inv s' hs ∧ (∀ x, free_click hs x ↔ chunk_click mem x) ∧
    total_free hs = chunk_sum mem ∧ free = u16 (chunk_sum mem) ∧
    total' = (if decide (nz mem = []) then total else tot) ∧ nz mem' = [].
Proof.
  assert (Hl : (length (nz mem) ≤ length mem)%nat) by apply length_filter.
  assert (wp (mem_init tot total mem) (λ r s', ∃ hs, holes_inv s' hs ∧
    (∀ x, free_click hs x ↔ chunk_click mem x) ∧ total_free hs = chunk_sum mem ∧
    r.1.2 = u16 (chunk_sum mem) ∧ r.1.1 = (if decide (nz mem = []) then total else tot) ∧ nz r.2 = []) s)
    as ([[t f] m'] & s' & E & hs & ? & ? & ? & ? & ? & ?)%wp_inv; [|by exists t, f, m', s', hs].
  unfold mem_init. do 2 wp_step. eapply wp_mono.
  { apply (mem_init_loop tot _ total 0 mem _ []); [by apply init_empty|lia|cbn; lia|by apply chunks_ok_filter|].
    intros m x _ _. apply free_click_nil. }
  intros r s' (hs & Hinv & Hnz & Ht & Hf & Htf & Hc). exists hs. split_and!; try done.
  - intros x. rewrite Hc, chunk_click_nz. split; [|by left]. by intros [?|?%free_click_nil].
  - rewrite Htf, chunk_sum_nz. cbn. lia.
  - rewrite Hf, <- (chunk_sum_nz mem). by apply (foldl_u16_sum 0).
  - rewrite Ht. by destruct (nz mem).
Qed.
Lemma mem_init_builds_witness :
  ∃ total' free mem' s' hs,
    mem_init 500 0 [Memory 10 20; Memory 100 0; Memory 30 70] zero_holes = Ret (total', free, mem') s' ∧
    holes_inv s' hs ∧ total_free hs = 90 ∧ total' = 500.
Proof.
  destruct (mem_init_builds zero_holes 500 0 [Memory 10 20; Memory 100 0; Memory 30 70] zero_holes_ok)
    as (t & f & m' & s' & hs & E & Hinv & _ & Htf & _ & Ht & _).
  - unfold chunks_ok, chunk_in, chunks_apart. cbn.
    repeat first [lia | split | apply Forall_cons | apply Forall_nil | progress cbn].
  - cbn. lia.
  - exists t, f, m', s', hs. exact (conj E (conj Hinv (conj Htf Ht))).
Defined.
