(* ===== verification/Holewf.v ===== *)
(** * The hole table under arbitrary requests

    Whatever blocks are freed, the hole list and the free-slot list of
    mm/alloc.c stay two disjoint chains through the table ([holes_wf]):
    [alloc_mem], [free_mem] and [max_hole] return, or [free_mem] panics because
    the table is full.  The theorems of Alloc.v add that for blocks that do not
    overlap the holes the list is sorted and coalesced. *)

From S2P Require Import Prelude Chain Alloc.

#[local] Arguments lseg : simpl never.

Definition holes_wf (s : holes) : Prop := ∃ L F hs, rep s L F hs.

Section wf.
Implicit Types (s : holes) (L F : list Z) (hs : list (Z * Z)).

Lemma del_slot_wf s L1 i L2 F hs1 h hs2 prev :
  rep s (L1 ++ i :: L2) F (hs1 ++ h :: hs2) → length L1 = length hs1 → (L1 ≠ [] → prev = last L1) →
  wp (del_slot prev i) (λ _ s', rep s' (L1 ++ L2) (i :: F) (hs1 ++ hs2)) s.
Proof.
  intros Hr Hlen Hprev. destruct L1 as [|p L1 _] using rev_ind.
  { destruct hs1; [|done]. exact (del_slot_head prev _ _ _ _ _ _ Hr). }
  destruct hs1 as [|hp hs1 _] using rev_ind; [rewrite length_app in Hlen; cbn in Hlen; lia|].
  rewrite !length_app in Hlen. cbn in Hlen. rewrite Hprev, last_snoc by by destruct L1.
  rewrite <- !app_assoc in Hr |- *. apply (del_slot_after _ _ _ _ _ _ _ _ _ _ Hr). lia.
Qed.

Lemma split_slot s L F hs p : rep s L F hs → p ∈ L →
  ∃ L1 L2 hs1 h hs2, L = L1 ++ p :: L2 ∧ hs = hs1 ++ h :: hs2 ∧ length L1 = length hs1.
Proof.
  intros Hr (L1 & L2 & ->)%list_elem_of_split. pose proof (rep_length _ _ _ _ Hr) as E.
  rewrite length_app in E. cbn in E. destruct (lookup_lt_is_Some_2 hs (length L1)) as [h Hh]; [lia|].
  apply list_elem_of_split_length in Hh as (hs1 & hs2 & -> & Hl). eauto 10.
Qed.

Lemma absorb_wf s L F hs p : rep s L F hs → p ∈ L →
  wp (absorb p) (λ r s', ∃ L' F' hs', rep s' L' F' hs' ∧ match r with Some q => q ∈ L' | None => True end) s.
Proof.
  intros Hr Hp. destruct (split_slot _ _ _ _ _ Hr Hp) as (L1 & L2 & hs1 & [b l] & hs2 & -> & -> & Hlen).
  pose proof (rep_length _ _ _ _ Hr) as Hl. rewrite !length_app in Hl. cbn in Hl.
  destruct (rep_at s L1 p L2 F hs1 (b, l) hs2 Hr Hlen) as (n & Hn & ->).
  unfold absorb. wp_step. eapply wp_hole_at; [done|]. cbn [h_next].
  destruct L2 as [|i L2], hs2 as [|[b2 l2] hs3]; cbn in Hl; try lia; cbn [head].
  { wp_steps. eauto. }
  destruct (rep_at s (L1 ++ [p]) i L2 F (hs1 ++ [(b, l)]) (b2, l2) hs3) as (m & Hm & ->).
  { by rewrite <- !app_assoc. } { rewrite !length_app; cbn; lia. }
  wp_step. eapply wp_hole_at; [done|]. cbn [h_base h_len fst snd].
  destruct (_ =? _) eqn:E.
  - wp_step. apply wp_set_hole. cbn -[u16]. wp_steps.
    pose proof (rep_resize s L1 p (i :: L2) F hs1 (b, l) ((b2, l2) :: hs3) (b, u16 (l + l2)) _ Hr Hlen Hn) as Hr'.
    eapply wp_mono; [exact (del_slot_after _ _ _ _ _ _ _ _ _ _ Hr' Hlen)|].
    intros [] s' ?. wp_steps. do 3 eexists. split; [done|]. apply elem_of_app. right. left.
  - wp_steps. do 3 eexists. split; [done|]. apply elem_of_app. right. right. left.
Qed.

Lemma merge_wf s L F hs p : rep s L F hs → p ∈ L → wp (merge p) (λ _ s', holes_wf s') s.
Proof.
  intros Hr Hp. unfold merge. wp_step. eapply wp_mono; [by eapply absorb_wf|].
  intros [q|] s' (L' & F' & hs' & Hr' & Hq); cbn beta; [|wp_steps; by exists L', F', hs'].
  wp_step. eapply wp_mono; [by eapply absorb_wf|]. intros r s2 (L2 & F2 & hs2 & Hr2 & _).
  wp_steps. by exists L2, F2, hs2.
Qed.

Lemma free_mem_wf s b c : holes_wf s → wpx (λ w, w = "Hole table full"%string) (free_mem b c) (λ _ s', holes_wf s') s.
Proof.
  intros (L & F & hs & Hr). unfold free_mem. destruct (c =? 0); [apply wpx_ret; by exists L, F, hs|].
  apply wpx_bind, wpx_gets. rewrite (chain_head _ _ _ (rep_free _ _ _ _ Hr)).
  destruct F as [|i F]; cbn [head]; [by apply wpx_panic|]. apply wp_wpx.
  destruct (rep_slots _ _ _ _ Hr i) as [e He]; [left|].
  wp_step. eapply wp_hole_at; [done|]. wp_step. apply wp_set_hole. cbn. do 4 wp_step. cbn.
  rewrite (chain_head _ _ _ (rep_chain _ _ _ _ Hr)).
  pose proof (rep_NoDup _ _ _ _ Hr) as Hnd. apply NoDup_app in Hnd as (HndL & Hd & _).
  assert (HiL : i ∉ L) by (intros ?; eapply Hd; [done|left]).
  set (tbl1 := <[i := Hole b c (h_next e)]> (hole_tbl s)).
  set (s1 := Holes tbl1 (hole_head s) (h_next e)).
  assert (Hl1 : hole_list s1 L hs).
  { split; cbn; [|apply slots_set_ne; [done|apply Hr]].
    eapply lseg_ext, Hr. intros k Hk. unfold tbl1. rewrite hnext_set, relink_ne; [done|]. by intros ->. }
  assert (Hfront : wp (match head L with
                       | None => mret true
                       | Some i => h ← hole_at i; mret (b <=? h_base h)
                       end) (λ r s', s' = s1 ∧ r = match hs with h :: _ => b <=? h.1 | [] => true end) s1).
  { pose proof (rep_length _ _ _ _ Hr) as E. destruct L as [|j L], hs as [|[bj lj] hs]; try done.
    cbn [head]. destruct (hole_list_at s1 [] j L [] (bj, lj) hs Hl1 eq_refl) as (n0 & Hn & _).
    wp_step. eapply wp_hole_at; [done|]. by wp_steps. }
  wp_step. eapply wp_mono; [exact Hfront|]. cbn beta. intros r s' [-> ->]. clear Hfront.
  destruct (match hs with h :: _ => b <=? h.1 | [] => true end) eqn:Ef.
  - wp_step. eapply wp_hole_at; [apply lookup_insert_eq|]. wp_step. apply wp_set_hole. wp_step. wp_step. cbn.
    unfold tbl1. rewrite insert_insert_eq.
    pose proof (rep_insert_front s L i F hs b c e Hr He) as Hr'.
    rewrite (chain_head _ _ _ (rep_chain _ _ _ _ Hr)) in Hr'.
    apply (merge_wf _ _ _ _ i Hr'). left.
  - wp_step. eapply wp_mono.
    { apply (free_loop b hole_fuel None s1 [] L [] hs); try done.
      pose proof (rep_tail_length _ _ _ _ Hr). unfold hole_fuel. lia. }
    intros r s' (-> & L3 & L4 & hs3 & hs4 & -> & -> & Hl3 & -> & Hlt & Hge). cbn [app].
    destruct hs3 as [|hp hs3 _] using rev_ind.
    { exfalso. cbn in Ef. destruct hs4 as [|h hs4]; [done|]. apply Z.leb_gt in Ef. lia. }
    rewrite length_app in Hl3. cbn in Hl3.
    destruct L3 as [|p L3 _] using rev_ind; [cbn in Hl3; lia|].
    rewrite length_app in Hl3. cbn in Hl3. rewrite last_snoc. rewrite <- !app_assoc in *.
    destruct (rep_at s L3 p L4 (i :: F) hs3 hp hs4 Hr) as (m & Hm & _); [lia|].
    assert (Hpi : p ≠ i) by (intros ->; apply HiL, elem_of_app; right; left).
    do 3 wp_step. eapply wp_hole_at; [by apply lookup_insert_Some; right|].
    wp_step. eapply wp_hole_at; [apply lookup_insert_eq|]. wp_step. apply wp_set_hole. cbn.
    wp_step. eapply wp_hole_at; [cbn; unfold tbl1; by rewrite !lookup_insert_ne|].
    wp_step. apply wp_set_hole. cbn. unfold tbl1. rewrite insert_insert_eq.
    pose proof (rep_insert_after s L3 p L4 i F hs3 hp hs4 b c e _ Hr ltac:(lia) He Hm) as Hr'.
    apply (merge_wf _ _ _ _ p Hr'). apply elem_of_app. right. left.
Qed.

Lemma alloc_loop_wf c fuel prev s L1 L2 F hs1 hs2 :
  rep s (L1 ++ L2) F (hs1 ++ hs2) → length L1 = length hs1 → prev = last L1 → (length L2 < fuel)%nat →
  wp (loop fuel (alloc_step c) (prev, head L2)) (λ _ s', holes_wf s') s.
Proof.
  revert prev L1 L2 hs1 hs2.
  induction fuel as [|fuel IH]; intros prev L1 L2 hs1 hs2 Hr Hlen Hprev Hfuel; [lia|].
  pose proof (rep_length _ _ _ _ Hr) as Hl. rewrite !length_app in Hl.
  destruct L2 as [|i L2], hs2 as [|[b l] hs2]; cbn in Hl; try lia; rewrite loop_unfold; cbn [head alloc_step].
  { wp_steps. by exists (L1 ++ []), F, (hs1 ++ []). }
  destruct (rep_at s L1 i L2 F hs1 (b, l) hs2 Hr Hlen) as (n & Hn & ->).
  do 2 wp_step. eapply wp_hole_at; [done|]. cbn [h_len h_base h_next fst snd].
  destruct (c <=? l).
  - wp_step. apply wp_set_hole. cbn -[loop u16].
    pose proof (rep_resize s L1 i L2 F hs1 (b, l) hs2 (u16 (b + c), u16 (l - c)) (head L2) Hr Hlen Hn) as Hr'.
    cbn [fst snd] in Hr'. destruct (u16 (l - c) =? 0); cbn [negb]; [|wp_steps; by do 3 eexists].
    wp_step. eapply wp_mono; [apply (del_slot_wf _ _ _ _ _ _ _ _ prev Hr' Hlen); by intros|].
    intros [] s' ?. wp_steps. by do 3 eexists.
  - wp_steps.
    replace (L1 ++ i :: L2) with ((L1 ++ [i]) ++ L2) in Hr by by rewrite <- app_assoc.
    replace (hs1 ++ (b, l) :: hs2) with ((hs1 ++ [(b, l)]) ++ hs2) in Hr by by rewrite <- app_assoc.
    cbn in Hfuel. apply (IH (Some i) (L1 ++ [i]) L2 (hs1 ++ [(b, l)]) hs2);
      try done; try lia; rewrite ?length_app, ?last_snoc; cbn; [lia|done].
Qed.

Lemma alloc_mem_wf s c : holes_wf s → wp (alloc_mem c) (λ _ s', holes_wf s') s.
Proof.
  intros (L & F & hs & Hr). unfold alloc_mem. wp_steps.
  rewrite (chain_head _ _ _ (rep_chain _ _ _ _ Hr)).
  apply (alloc_loop_wf c hole_fuel None s [] L F [] hs); try done.
  pose proof (rep_tail_length _ _ _ _ Hr). unfold hole_fuel. lia.
Qed.

Lemma max_hole_wf s : holes_wf s → wp max_hole (λ _ s', s' = s) s.
Proof.
  intros (L & F & hs & Hr). unfold max_hole. wp_steps.
  rewrite (chain_head _ _ _ (rep_chain _ _ _ _ Hr)).
  pose proof (rep_tail_length _ _ _ _ Hr) as Hlen.
  eapply wp_mono; [apply (max_loop hole_fuel s 0 [] L [] hs); [split; apply Hr|done|unfold hole_fuel; lia]|].
  by intros r s' [-> _].
Qed.
End wf.
