(* ===== verification/Sigset.v ===== *)
(** * lib/posix/_sigset.c: signal sets

    A [sigset_t] is a 32-bit word in which bit [n] stands for signal [n]; the
    kernel and MM use these routines on [p_pending], [mp_sigmask] and the other
    signal sets.  A routine that takes a signal number returns -1 when it is
    not valid. *)

From S2P Require Import Prelude.

Definition NSIG : Z := 16.
Definition SIGMASK : Z := Z.shiftl 1 (NSIG + 1) - 1.

(** [(unsigned) signo <= _NSIG] *)
Definition sigisvalid (signo : Z) : bool := (0 <=? signo) && (signo <=? NSIG).

(** Each routine returns its result and the updated set. *)
Definition sigaddset (set signo : Z) : Z * Z :=
  if negb (sigisvalid signo) then (-1, set) else (0, Z.lor set (Z.shiftl 1 signo)).
Definition sigdelset (set signo : Z) : Z * Z :=
  if negb (sigisvalid signo) then (-1, set)
  else (0, Z.land set (Z.lnot (Z.shiftl 1 signo))).
Definition sigemptyset (set : Z) : Z * Z := (0, 0).
Definition sigfillset (set : Z) : Z * Z := (0, SIGMASK).
Definition sigismember (set signo : Z) : Z :=
  if negb (sigisvalid signo) then -1
  else if negb (Z.land set (Z.shiftl 1 signo) =? 0) then 1 else 0.

Section sigset.
Implicit Types set signo : Z.

Lemma sigisvalid_spec signo : sigisvalid signo = true ↔ 0 ≤ signo ≤ NSIG.
Proof. unfold sigisvalid. rewrite andb_true_iff, !Z.leb_le. done. Qed.

Lemma land_bit set i : 0 ≤ i →
  negb (Z.land set (Z.shiftl 1 i) =? 0) = Z.testbit set i.
Proof.
  intros Hi. rewrite Z.shiftl_1_l. destruct (Z.testbit set i) eqn:E.
  - apply negb_true_iff, Z.eqb_neq. intros H.
    assert (Hb : Z.testbit (Z.land set (2 ^ i)) i = true).
    { rewrite Z.land_spec, E, Z.pow2_bits_true by done. done. }
    by rewrite H, Z.bits_0 in Hb.
  - apply negb_false_iff, Z.eqb_eq. apply Z.bits_inj'. intros j Hj.
    rewrite Z.land_spec, Z.bits_0. destruct (decide (i = j)) as [->|].
    + by rewrite E.
    + rewrite Z.pow2_bits_false by done. by rewrite andb_false_r.
Qed.

Lemma sigismember_testbit set signo : 0 ≤ signo ≤ NSIG →
  sigismember set signo = if Z.testbit set signo then 1 else 0.
Proof.
  intros H. unfold sigismember. rewrite (proj2 (sigisvalid_spec _) H). cbn [negb].
  rewrite land_bit by lia. done.
Qed.

Lemma sigaddset_testbit set signo i : 0 ≤ signo ≤ NSIG → 0 ≤ i →
  Z.testbit (sigaddset set signo).2 i = (i =? signo) || Z.testbit set i.
Proof.
  intros H Hi. unfold sigaddset. rewrite (proj2 (sigisvalid_spec _) H). cbn [negb snd].
  rewrite Z.lor_spec, Z.shiftl_1_l. destruct (Z.eqb_spec i signo) as [->|].
  - rewrite Z.pow2_bits_true by lia. by rewrite orb_true_r.
  - rewrite Z.pow2_bits_false by lia. by rewrite orb_false_r.
Qed.

Lemma sigdelset_testbit set signo i : 0 ≤ signo ≤ NSIG → 0 ≤ i →
  Z.testbit (sigdelset set signo).2 i = negb (i =? signo) && Z.testbit set i.
Proof.
  intros H Hi. unfold sigdelset. rewrite (proj2 (sigisvalid_spec _) H). cbn [negb snd].
  rewrite Z.land_spec, Z.lnot_spec, Z.shiftl_1_l by done. destruct (Z.eqb_spec i signo) as [->|].
  - rewrite Z.pow2_bits_true by lia. by rewrite andb_false_r.
  - rewrite Z.pow2_bits_false by lia. by rewrite andb_true_r.
Qed.
End sigset.
