(* ===== verification/Proc.v ===== *)
(** * kernel/proc.c, kernel/proc.h: processes, scheduling and messages

    The process table, the scheduler's queues and the message primitives, with
    [inform] and [cause_sig] of kernel/system.c, which [mini_rec] calls, and
    the shadow-process routines of kernel/stshadow.c.  A [struct proc *] that
    is not [NIL_PROC] is the number of its process, [NIL_PROC] is [None];
    [proc_addr n] faults when [n] is not a process number. *)

From S2P Require Import Prelude Sigset.

(** ** Constants (include/minix/config.h, com.h, const.h, errno.h) *)
Definition NR_PROCS : Z := 64.
Definition NR_TASKS : Z := 11.
Definition LOW_USER : Z := 3.
Definition MM_PROC_NR : Z := 0.
Definition FS_PROC_NR : Z := 1.
Definition IDLE : Z := -7.
Definition CLOCK : Z := -3.
Definition HARDWARE : Z := -1.
Definition ANY : Z := NR_PROCS + 100.
Definition SEND : Z := 1.
Definition RECEIVE : Z := 2.
Definition BOTH : Z := 3.
Definition HARD_INT : Z := 2.
Definition KSIG : Z := 64.
Definition SIGSTKFLT : Z := 16.
Definition CLICK_SHIFT : Z := 8.
Definition MESS_SIZE : Z := 26.
Definition STACK_GUARD : Z := 0xDEADBEEF.

Definition OK : Z := 0.
Definition EFAULT : Z := -14.
Definition ELOCKED : Z := -101.
Definition E_BAD_DEST : Z := -1001.
Definition E_BAD_SRC : Z := -1002.
Definition E_NO_PERM : Z := -1008.

(** p_flags *)
Definition P_SLOT_FREE : Z := 1.
Definition NO_MAP : Z := 2.
Definition SENDING : Z := 4.
Definition RECEIVING : Z := 8.
Definition PENDING : Z := 16.
Definition SIG_PENDING : Z := 32.
Definition P_STOP : Z := 64.

(** Scheduling queues *)
Definition TASK_Q : Z := 0.
Definition SERVER_Q : Z := 1.
Definition USER_Q : Z := 2.
Definition SHADOW_Q : Z := 3.

(** ** Data *)

(** The union of a message is kept in its second view, the one this code uses;
    [m_rest] is its last four bytes, which that view does not have. *)
Record message := Message {
  m_source : Z; m_type : Z;
  m2_i1 : Z; m2_i2 : Z; m2_i3 : Z; m2_l1 : Z; m2_l2 : Z; m2_p1 : Z; m_rest : Z
}.
#[export] Instance eta_message : Eta message := λ r,
  Message r.(m_source) r.(m_type) r.(m2_i1) r.(m2_i2) r.(m2_i3) r.(m2_l1) r.(m2_l2) r.(m2_p1) r.(m_rest).
#[export] Instance upd_m_source : Upd m_source := ltac:(derive_upd).
#[export] Instance upd_m_type : Upd m_type := ltac:(derive_upd).
#[export] Instance upd_m2_i1 : Upd m2_i1 := ltac:(derive_upd).
#[export] Instance upd_m2_i2 : Upd m2_i2 := ltac:(derive_upd).
#[export] Instance upd_m2_i3 : Upd m2_i3 := ltac:(derive_upd).
#[export] Instance upd_m2_l2 : Upd m2_l2 := ltac:(derive_upd).
#[export] Instance upd_m2_p1 : Upd m2_p1 := ltac:(derive_upd).
#[export] Instance upd_m_rest : Upd m_rest := ltac:(derive_upd).
#[export] Instance upd_m2_l1 : Upd m2_l1 := ltac:(derive_upd).

Record mem_map := MemMap { mem_vir : Z; mem_phys : Z; mem_len : Z }.
#[export] Instance eta_mem_map : Eta mem_map := λ r, MemMap r.(mem_vir) r.(mem_phys) r.(mem_len).
#[export] Instance upd_mem_vir : Upd mem_vir := ltac:(derive_upd).
#[export] Instance upd_mem_phys : Upd mem_phys := ltac:(derive_upd).
#[export] Instance upd_mem_len : Upd mem_len := ltac:(derive_upd).

Record proc := Proc {
  p_shadow : Z;               (* set if shadowed process image *)
  p_nflips : Z;
  p_physio : bool;
  p_stguard : Z;              (* the word at the stack guard address *)
  p_int_blocked : bool;
  p_int_held : bool;
  p_nextheld : option Z;
  p_flags : Z;
  p_map_T : mem_map;          (* p_map[T], p_map[D], p_map[S] *)
  p_map_D : mem_map;
  p_map_S : mem_map;
  p_callerq : option Z;
  p_sendlink : option Z;
  p_messbuf : Z;              (* virtual address of the message buffer *)
  p_getfrom : Z;
  p_sendto : Z;
  p_nextready : option Z;
  p_pending : Z;
  p_pendcount : Z
}.
#[export] Instance eta_proc : Eta proc := λ r,
  Proc r.(p_shadow) r.(p_nflips) r.(p_physio) r.(p_stguard) r.(p_int_blocked)
       r.(p_int_held) r.(p_nextheld) r.(p_flags) r.(p_map_T) r.(p_map_D) r.(p_map_S)
       r.(p_callerq) r.(p_sendlink) r.(p_messbuf) r.(p_getfrom) r.(p_sendto)
       r.(p_nextready) r.(p_pending) r.(p_pendcount).
#[export] Instance upd_p_shadow : Upd p_shadow := ltac:(derive_upd).
#[export] Instance upd_p_nflips : Upd p_nflips := ltac:(derive_upd).
#[export] Instance upd_p_stguard : Upd p_stguard := ltac:(derive_upd).
#[export] Instance upd_p_map_T : Upd p_map_T := ltac:(derive_upd).
#[export] Instance upd_p_map_D : Upd p_map_D := ltac:(derive_upd).
#[export] Instance upd_p_map_S : Upd p_map_S := ltac:(derive_upd).
#[export] Instance upd_p_int_blocked : Upd p_int_blocked := ltac:(derive_upd).
#[export] Instance upd_p_int_held : Upd p_int_held := ltac:(derive_upd).
#[export] Instance upd_p_nextheld : Upd p_nextheld := ltac:(derive_upd).
#[export] Instance upd_p_flags : Upd p_flags := ltac:(derive_upd).
#[export] Instance upd_p_callerq : Upd p_callerq := ltac:(derive_upd).
#[export] Instance upd_p_sendlink : Upd p_sendlink := ltac:(derive_upd).
#[export] Instance upd_p_messbuf : Upd p_messbuf := ltac:(derive_upd).
#[export] Instance upd_p_getfrom : Upd p_getfrom := ltac:(derive_upd).
#[export] Instance upd_p_sendto : Upd p_sendto := ltac:(derive_upd).
#[export] Instance upd_p_nextready : Upd p_nextready := ltac:(derive_upd).
#[export] Instance upd_p_pending : Upd p_pending := ltac:(derive_upd).
#[export] Instance upd_p_pendcount : Upd p_pendcount := ltac:(derive_upd).

(** The kernel's variables.  [mess] is memory seen as message buffers, by
    physical address; [sys_m] is the address of the variable [m] of system.c;
    [clicks] is the content of physical memory, by click, which only the
    shadow routines copy. *)
Record kernel := Kernel {
  procs : Z → proc;
  proc_ptr : Z;
  bill_ptr : Z;
  rdy_head : Z → option Z;
  rdy_tail : Z → option Z;
  held_head : option Z;
  held_tail : option Z;
  k_reenter : Z;
  switching : bool;
  sig_procs : Z;
  mess : Z → message;
  sys_m : Z;
  flipwait : Z;
  clicks : Z → Z
}.
#[export] Instance eta_kernel : Eta kernel := λ r,
  Kernel r.(procs) r.(proc_ptr) r.(bill_ptr) r.(rdy_head) r.(rdy_tail) r.(held_head)
         r.(held_tail) r.(k_reenter) r.(switching) r.(sig_procs) r.(mess) r.(sys_m)
         r.(flipwait) r.(clicks).
#[export] Instance upd_procs : Upd procs := ltac:(derive_upd).
#[export] Instance upd_proc_ptr : Upd proc_ptr := ltac:(derive_upd).
#[export] Instance upd_bill_ptr : Upd bill_ptr := ltac:(derive_upd).
#[export] Instance upd_rdy_head : Upd rdy_head := ltac:(derive_upd).
#[export] Instance upd_rdy_tail : Upd rdy_tail := ltac:(derive_upd).
#[export] Instance upd_held_head : Upd held_head := ltac:(derive_upd).
#[export] Instance upd_held_tail : Upd held_tail := ltac:(derive_upd).
#[export] Instance upd_k_reenter : Upd k_reenter := ltac:(derive_upd).
#[export] Instance upd_switching : Upd switching := ltac:(derive_upd).
#[export] Instance upd_sig_procs : Upd sig_procs := ltac:(derive_upd).
#[export] Instance upd_mess : Upd mess := ltac:(derive_upd).
#[export] Instance upd_flipwait : Upd flipwait := ltac:(derive_upd).
#[export] Instance upd_clicks : Upd clicks := ltac:(derive_upd).

Notation KM := (M kernel).

(** ** Macros of proc.h *)
Definition isidlehardware (n : Z) : bool := (n =? IDLE) || (n =? HARDWARE).
Definition isokprocn (n : Z) : bool := (0 <=? n + NR_TASKS) && (n + NR_TASKS <? NR_PROCS + NR_TASKS).
Definition isoksrc_dest (n : Z) : bool := isokprocn n || (n =? ANY).
Definition isrxhardware (n : Z) : bool := (n =? ANY) || (n =? HARDWARE).
Definition issysentn (n : Z) : bool := (n =? FS_PROC_NR) || (n =? MM_PROC_NR).
Definition istaskp (p : Z) : bool := (p <? 0) && negb (p =? IDLE).
Definition isuserp (p : Z) : bool := LOW_USER <=? p.
Definition isshadowp (r : proc) : bool := negb (p_shadow r =? 0).

Definition proc_addr (n : Z) : KM Z := if isokprocn n then mret n else fault.
(** [p->f] and [p->f = v] *)
Definition fld {A} (f : proc → A) (p : Z) : KM A := gets (λ s, f (procs s p)).
Definition setp (p : Z) (g : proc → proc) : KM unit :=
  modify (λ s, s <| procs := <[p := g (procs s p)]> (procs s) |>).
Definition set_head (q : Z) (v : option Z) : KM unit :=
  modify (λ s, s <| rdy_head := <[q := v]> (rdy_head s) |>).
Definition set_tail (q : Z) (v : option Z) : KM unit :=
  modify (λ s, s <| rdy_tail := <[q := v]> (rdy_tail s) |>).

(** More iterations than there are processes. *)
Definition proc_fuel : nat := 80.

(** ** Scheduling *)

Definition pick_proc : KM unit :=
  t ← gets (λ s, rdy_head s TASK_Q);
  match t with
  | Some rp => modify (λ s, s <| proc_ptr := rp |>)
  | None =>
      v ← gets (λ s, rdy_head s SERVER_Q);
      match v with
      | Some rp => modify (λ s, s <| proc_ptr := rp |>)
      | None =>
          u ← gets (λ s, rdy_head s USER_Q);
          match u with
          | Some rp => modify (λ s, s <| proc_ptr := rp |> <| bill_ptr := rp |>)
          | None =>
              i ← proc_addr IDLE;
              modify (λ s, s <| proc_ptr := i |> <| bill_ptr := i |>)
          end
      end
  end.

(** Append [rp] to queue [q]; with [fresh], [rp] is run next when the queue was
    empty. *)
Definition enqueue (q rp : Z) (fresh : bool) : KM unit :=
  h ← gets (λ s, rdy_head s q);
  (match h with
   | Some _ =>
       t ← gets (λ s, rdy_tail s q);
       t ← deref t;
       setp t (λ r, r <| p_nextready := Some rp |>)
   | None => set_head q (Some rp);; when fresh (modify (λ s, s <| proc_ptr := rp |>))
   end);;
  set_tail q (Some rp);;
  setp rp (λ r, r <| p_nextready := None |>).

Definition ready (rp : Z) : KM unit :=
  if istaskp rp then enqueue TASK_Q rp true
  else if negb (isuserp rp) then enqueue SERVER_Q rp false
  else
    r ← gets (λ s, procs s rp);
    if isshadowp r then enqueue SHADOW_Q rp false
    else
      h ← gets (λ s, rdy_head s USER_Q);
      when (ptr_eq h None) (set_tail USER_Q (Some rp));;
      h ← gets (λ s, rdy_head s USER_Q);
      setp rp (λ r, r <| p_nextready := h |>);;
      set_head USER_Q (Some rp).

(** The search of the body of a queue by [unready]. *)
Definition unready_step (q rp : Z) : Z → KM (Z + unit) := λ xp,
  n ← fld p_nextready xp;
  if ptr_eq n (Some rp) then
    n ← deref n;
    nn ← fld p_nextready n;
    setp xp (λ r, r <| p_nextready := nn |>);;
    t ← gets (λ s, rdy_tail s q);
    when (ptr_eq t (Some rp)) (set_tail q (Some xp));;
    mret (inr tt)
  else
    match n with
    | None => mret (inr tt)
    | Some n => mret (inl n)
    end.

(** [unready] on the queue [q] of [rp]. *)
Definition dequeue (q rp : Z) : KM unit :=
  h ← gets (λ s, rdy_head s q);
  match h with
  | None => mret tt
  | Some xp =>
      if xp =? rp then
        n ← fld p_nextready xp;
        set_head q n;;
        cur ← gets proc_ptr;
        when (rp =? cur) pick_proc
      else loop proc_fuel (unready_step q rp) xp
  end.

Definition unready (rp : Z) : KM unit :=
  if istaskp rp then
    g ← fld p_stguard rp;
    if negb (g =? STACK_GUARD) then panic "stack overrun by task" rp
    else dequeue TASK_Q rp
  else if negb (isuserp rp) then dequeue SERVER_Q rp
  else
    r ← gets (λ s, procs s rp);
    if isshadowp r then dequeue SHADOW_Q rp else dequeue USER_Q rp.

Definition sched : KM unit :=
  h ← gets (λ s, rdy_head s USER_Q);
  match h with
  | None => mret tt
  | Some _ =>
      t ← gets (λ s, rdy_tail s USER_Q); t ← deref t;
      h ← gets (λ s, rdy_head s USER_Q);
      setp t (λ r, r <| p_nextready := h |>);;
      set_tail USER_Q h;;
      h ← deref h;
      n ← fld p_nextready h;
      set_head USER_Q n;;
      t ← gets (λ s, rdy_tail s USER_Q); t ← deref t;
      setp t (λ r, r <| p_nextready := None |>);;
      pick_proc
  end.

(** The gateways for tasks: [switching] is set while [m] runs. *)
Definition set_switching (b : bool) : KM unit := modify (λ s, s <| switching := b |>).
Definition lock_pick_proc : KM unit := set_switching true;; pick_proc;; set_switching false.
Definition lock_ready (rp : Z) : KM unit := set_switching true;; ready rp;; set_switching false.
Definition lock_unready (rp : Z) : KM unit := set_switching true;; unready rp;; set_switching false.
Definition lock_sched : KM unit := set_switching true;; sched;; set_switching false.

(** ** Messages *)

(** [correction] of [cp_mess]: the displacement of a shadowed process. *)
Definition mess_addr (r : proc) (m : Z) : Z :=
  if isshadowp r then u32 (m + u32 (Z.shiftl (u32 (p_shadow r - mem_phys (p_map_D r))) CLICK_SHIFT))
  else m.

Definition cp_mess (src src_p src_m dst_p dst_m : Z) : KM unit :=
  sp ← gets (λ s, procs s src_p);
  dp ← gets (λ s, procs s dst_p);
  let src_m := mess_addr sp src_m in
  let dst_m := mess_addr dp dst_m in
  modify (λ s, s <| mess := <[dst_m := (mess s src_m) <| m_source := src |>]> (mess s) |>).

(** One iteration of the search for a cycle of senders. *)
Definition deadlock_step (caller_ptr : Z) : Z → KM (Z + bool) := λ next_ptr,
  if next_ptr =? caller_ptr then mret (inr true)
  else
    r ← gets (λ s, procs s next_ptr);
    if has (p_flags r) SENDING then n ← proc_addr (p_sendto r); mret (inl n)
    else mret (inr false).

(** The search for the last caller on a queue. *)
Definition last_caller_step : Z → KM (Z + Z) := λ next_ptr,
  l ← fld p_sendlink next_ptr;
  match l with
  | Some n => mret (inl n)
  | None => mret (inr next_ptr)
  end.

(** The caller's segments contain the message (holes between them too). *)
Definition mess_ok (r : proc) (m_ptr : Z) : bool :=
  let vlo := u16 (Z.shiftr m_ptr CLICK_SHIFT) in
  let vhi := u16 (Z.shiftr (u32 (m_ptr + MESS_SIZE - 1)) CLICK_SHIFT) in
  negb ((vlo <? mem_vir (p_map_D r)) || (vhi <? vlo) ||
        (u16 (mem_vir (p_map_S r) + mem_len (p_map_S r)) <=? vhi)).

(** [dest] is blocked waiting for a message of [caller]. *)
Definition waiting_for (d : proc) (caller : Z) : bool :=
  (Z.land (p_flags d) (Z.lor RECEIVING SENDING) =? RECEIVING) &&
  ((p_getfrom d =? ANY) || (p_getfrom d =? caller)).

(** Block [caller_ptr] and put it on the queue of [dest]. *)
Definition block_caller (caller_ptr dest dest_ptr m_ptr : Z) : KM unit :=
  setp caller_ptr (λ r, r <| p_messbuf := m_ptr |>);;
  f ← fld p_flags caller_ptr;
  when (f =? 0) (unready caller_ptr);;
  setp caller_ptr (λ r, r <| p_flags := setf (p_flags r) SENDING |> <| p_sendto := dest |>);;
  q ← fld p_callerq dest_ptr;
  (match q with
   | None => setp dest_ptr (λ r, r <| p_callerq := Some caller_ptr |>)
   | Some n =>
       l ← loop proc_fuel last_caller_step n;
       setp l (λ r, r <| p_sendlink := Some caller_ptr |>)
   end);;
  setp caller_ptr (λ r, r <| p_sendlink := None |>).

Definition mini_send (caller_ptr dest m_ptr : Z) : KM Z :=
  if isuserp caller_ptr && negb (issysentn dest) then mret E_BAD_DEST else
  dest_ptr ← proc_addr dest;
  df ← fld p_flags dest_ptr;
  if has df P_SLOT_FREE then mret E_BAD_DEST else
  c ← gets (λ s, procs s caller_ptr);
  if negb (mess_ok c m_ptr) then mret EFAULT else
  locked ← (if has df SENDING then
              t ← fld p_sendto dest_ptr; n ← proc_addr t;
              loop proc_fuel (deadlock_step caller_ptr) n
            else mret false);
  if (locked : bool) then mret ELOCKED else
  d ← gets (λ s, procs s dest_ptr);
  if waiting_for d caller_ptr then
    cp_mess caller_ptr caller_ptr m_ptr dest_ptr (p_messbuf d);;
    setp dest_ptr (λ r, r <| p_flags := clrf (p_flags r) RECEIVING |>);;
    f ← fld p_flags dest_ptr;
    when (f =? 0) (ready dest_ptr);;
    mret OK
  else
    block_caller caller_ptr dest dest_ptr m_ptr;;
    mret OK.

Definition lock_mini_send (caller_ptr dest m_ptr : Z) : KM Z :=
  set_switching true;; r ← mini_send caller_ptr dest m_ptr; set_switching false;; mret r.

(** ** Signals from the kernel (kernel/system.c) *)

(** The body of [inform] for the process found. *)
Definition inform_proc (rp : Z) : KM unit :=
  r ← gets (λ s, procs s rp);
  m ← gets sys_m;
  modify (λ s, s <| mess := <[m := (mess s m) <| m_type := KSIG |> <| m2_i1 := rp |>
                                            <| m2_l1 := p_pending r |>]> (mess s) |>
                 <| sig_procs := sig_procs s - 1 |>);;
  h ← proc_addr HARDWARE;
  res ← lock_mini_send h MM_PROC_NR m;
  if negb (res =? OK) then panic "can't inform MM" 0x8000 else
  setp rp (λ r, r <| p_pending := (sigemptyset (p_pending r)).2 |>
                  <| p_flags := clrf (p_flags r) PENDING |>);;
  mm ← gets (λ s, mess s m);
  when (negb (sigismember (m2_l1 mm) SIGSTKFLT =? 0))
    (c ← fld p_pendcount rp;
     when (negb (c =? 0))
       (setp rp (λ r, r <| p_pendcount := u16 (p_pendcount r - 1) |>);;
        c ← fld p_pendcount rp;
        when (c =? 0)
          (setp rp (λ r, r <| p_flags := clrf (p_flags r) SIG_PENDING |>);;
           f ← fld p_flags rp;
           when (f =? 0) (lock_ready rp))));;
  lock_pick_proc.

Definition inform : KM unit :=
  for_each (seqZ 0 NR_PROCS) (λ rp,
    f ← fld p_flags rp;
    if has f PENDING then inform_proc rp;; mret (Some tt) else mret None);;
  mret tt.

Definition cause_sig (proc_nr sig_nr : Z) : KM unit :=
  rp ← proc_addr proc_nr;
  r ← gets (λ s, procs s rp);
  if negb (sigismember (p_pending r) sig_nr =? 0) then mret tt else
  setp rp (λ r, r <| p_pending := (sigaddset (p_pending r) sig_nr).2 |>
                  <| p_pendcount := u16 (p_pendcount r + 1) |>);;
  f ← fld p_flags rp;
  if has f PENDING then mret tt else
  when (f =? 0) (lock_unready rp);;
  setp rp (λ r, r <| p_flags := setf (p_flags r) (Z.lor PENDING SIG_PENDING) |>);;
  modify (λ s, s <| sig_procs := sig_procs s + 1 |>);;
  mmp ← proc_addr MM_PROC_NR;
  mm ← gets (λ s, procs s mmp);
  if negb (has (p_flags mm) RECEIVING) || negb (p_getfrom mm =? ANY) then mret tt
  else inform.

(** ** Receiving *)

(** The search of the caller queue; the result is [true] when a message was
    received. *)
Definition mini_rec_step (caller_ptr src m_ptr : Z) :
    option Z * option Z → KM ((option Z * option Z) + bool) := λ '(previous_ptr, sender),
  match sender with
  | None => mret (inr false)
  | Some sender_ptr =>
      sd ← gets (λ s, procs s sender_ptr);
      if (src =? ANY) || (src =? sender_ptr) then
        cp_mess sender_ptr sender_ptr (p_messbuf sd) caller_ptr m_ptr;;
        q ← fld p_callerq caller_ptr;
        (if ptr_eq (Some sender_ptr) q then
           setp caller_ptr (λ r, r <| p_callerq := p_sendlink sd |>)
         else
           p ← deref previous_ptr;
           setp p (λ r, r <| p_sendlink := p_sendlink sd |>));;
        setp sender_ptr (λ r, r <| p_flags := clrf (p_flags r) SENDING |>);;
        f ← fld p_flags sender_ptr;
        when (f =? 0) (ready sender_ptr);;
        mret (inr true)
      else
        mret (inl (Some sender_ptr, p_sendlink sd))
  end.

Definition mini_rec (caller_ptr src m_ptr : Z) : KM Z :=
  c ← gets (λ s, procs s caller_ptr);
  received ←
    (if negb (has (p_flags c) SENDING) then
       got ← loop proc_fuel (mini_rec_step caller_ptr src m_ptr) (None, p_callerq c);
       if (got : bool) then mret true
       else if p_int_blocked c && isrxhardware src then
         modify (λ s, s <| mess := <[m_ptr := (mess s m_ptr) <| m_source := HARDWARE |>
                                                           <| m_type := HARD_INT |>]> (mess s) |>);;
         setp caller_ptr (λ r, r <| p_int_blocked := false |>);;
         mret true
       else mret false
     else mret false);
  if (received : bool) then mret OK else
  setp caller_ptr (λ r, r <| p_getfrom := src |> <| p_messbuf := m_ptr |>);;
  f ← fld p_flags caller_ptr;
  when (f =? 0) (unready caller_ptr);;
  setp caller_ptr (λ r, r <| p_flags := setf (p_flags r) RECEIVING |>);;
  n ← gets sig_procs;
  when ((0 <? n) && (caller_ptr =? MM_PROC_NR) && (src =? ANY)) inform;;
  mret OK.

Definition sys_call (function src_dest m_ptr : Z) : KM Z :=
  if negb (isoksrc_dest src_dest) then mret E_BAD_SRC else
  rp ← gets proc_ptr;
  if isuserp rp && negb (function =? BOTH) then mret E_NO_PERM else
  if has function SEND then
    n ← mini_send rp src_dest m_ptr;
    if (function =? SEND) || negb (n =? OK) then mret n else mini_rec rp src_dest m_ptr
  else mini_rec rp src_dest m_ptr.

(** ** Interrupts *)

Definition interrupt (task : Z) : KM unit :=
  rp ← proc_addr task;
  k ← gets k_reenter;
  sw ← gets switching;
  if negb (k =? 0) || (sw : bool) then
    r ← gets (λ s, procs s rp);
    when (negb (p_int_held r))
      (setp rp (λ r, r <| p_int_held := true |>);;
       h ← gets held_head;
       (match h with
        | Some _ =>
            t ← gets held_tail; t ← deref t;
            setp t (λ r, r <| p_nextheld := Some rp |>)
        | None => modify (λ s, s <| held_head := Some rp |>)
        end);;
       modify (λ s, s <| held_tail := Some rp |>);;
       setp rp (λ r, r <| p_nextheld := None |>))
  else
    r ← gets (λ s, procs s rp);
    if negb (Z.land (p_flags r) (Z.lor RECEIVING SENDING) =? RECEIVING) ||
       negb (isrxhardware (p_getfrom r)) then
      setp rp (λ r, r <| p_int_blocked := true |>)
    else
      modify (λ s, s <| mess := <[p_messbuf r := (mess s (p_messbuf r)) <| m_source := HARDWARE |>
                                                 <| m_type := HARD_INT |>]> (mess s) |>);;
      setp rp (λ r, r <| p_flags := clrf (p_flags r) RECEIVING |> <| p_int_blocked := false |>);;
      (* ready(rp) in-line for speed *)
      enqueue TASK_Q rp true.

Definition unhold_step : Z → KM (Z + unit) := λ rp,
  n ← fld p_nextheld rp;
  modify (λ s, s <| held_head := n |>);;
  when (ptr_eq n None) (modify (λ s, s <| held_tail := None |>));;
  setp rp (λ r, r <| p_int_held := false |>);;
  interrupt rp;;
  h ← gets held_head;
  match h with
  | Some rp => mret (inl rp)
  | None => mret (inr tt)
  end.

Definition unhold : KM unit :=
  sw ← gets switching;
  if (sw : bool) then mret tt else
  h ← gets held_head; rp ← deref h;
  loop proc_fuel unhold_step rp.

(** ** Shadow processes (kernel/stshadow.c)

    A process whose memory image lies elsewhere than where it must run has
    [p_shadow] set to the click where its image is.  [clicks] is the content of
    physical memory, [copyclicks] and [flipclicks] are assembly routines. *)
Definition FLIPWAIT : Z := 5.

Definition copyclicks (src dst nc : Z) : KM unit :=
  modify (λ s, s <| clicks := λ c, if (dst <=? c) && (c <? dst + nc)
                                   then clicks s (src + (c - dst)) else clicks s c |>).
Definition flipclicks (a b nc : Z) : KM unit :=
  modify (λ s, s <| clicks := λ c,
    if (a <=? c) && (c <? a + nc) then clicks s (b + (c - a))
    else if (b <=? c) && (c <? b + nc) then clicks s (a + (c - b)) else clicks s c |>).

(** The size in clicks of the image of [r]: data, gap and stack. *)
Definition image_clicks (r : proc) : Z :=
  u16 (u16 (mem_phys (p_map_S r) - mem_phys (p_map_D r)) + mem_len (p_map_S r)).

Definition mkshadow (p c2 : Z) : KM unit :=
  r ← gets (λ s, procs s p);
  let c1 := if isshadowp r then p_shadow r else mem_phys (p_map_D r) in
  setp p (λ r, r <| p_shadow := c2 |>);;
  copyclicks c1 c2 (image_clicks r);;
  modify (λ s, s <| flipwait := FLIPWAIT |>).

(** The user processes, in table order. *)
Definition user_slots : list Z := seqZ LOW_USER (NR_PROCS - LOW_USER).

(** Free the image of [p]; the result is the base and size of the memory that
    becomes free. *)
Definition rmshadow (p : Z) : KM (Z * Z) :=
  r ← gets (λ s, procs s p);
  let nc := image_clicks r in
  if isshadowp r then
    setp p (λ r, r <| p_shadow := 0 |>);; mret (p_shadow r, nc)
  else
    res ← for_each user_slots (λ q,
      rq ← gets (λ s, procs s q);
      if has (p_flags rq) P_SLOT_FREE then mret None
      else if q =? p then mret None
      else if negb (mem_phys (p_map_D rq) =? mem_phys (p_map_D r)) then mret None
      else if p_shadow rq =? 0 then panic "no shadow?" 0x8000
      else if p_physio rq then panic "rmshadow: cannot handle physio shadows" 0x8000
      else
        copyclicks (p_shadow rq) (mem_phys (p_map_D r)) nc;;
        when (p_flags rq =? 0) (lock_unready q);;
        setp q (λ r, r <| p_shadow := 0 |>);;
        f ← fld p_flags q;
        when (f =? 0) (lock_ready q);;
        mret (Some (p_shadow rq, nc)));
    match res with
    | Some x => mret x
    | None => mret (mem_phys (p_map_T r), u16 (nc + mem_len (p_map_T r)))
    end.

(** Let [p] change places with the process that owns its memory. *)
Definition unshadow (p : Z) : KM unit :=
  w ← gets flipwait;
  if negb (w =? 0) then modify (λ s, s <| flipwait := flipwait s - 1 |>) else
  r ← gets (λ s, procs s p);
  if p_physio r then mret tt else
  res ← for_each user_slots (λ q,
    rq ← gets (λ s, procs s q);
    if has (p_flags rq) P_SLOT_FREE then mret None
    else if q =? p then mret None
    else if negb (mem_phys (p_map_D rq) =? mem_phys (p_map_D r)) then mret None
    else if p_shadow rq =? 0 then mret (Some q) else mret None);
  match res with
  | None => panic "only shadow(s)" 0x8000
  | Some q =>
      rq ← gets (λ s, procs s q);
      if p_physio rq then mret tt else
      flipclicks (p_shadow r) (mem_phys (p_map_D rq)) (image_clicks rq);;
      modify (λ s, s <| flipwait := FLIPWAIT |>);;
      lock_unready p;;
      f ← fld p_flags q;
      when (f =? 0) (lock_unready q);;
      rp ← gets (λ s, procs s p);
      setp q (λ r, r <| p_shadow := p_shadow rp |>);;
      setp p (λ r, r <| p_shadow := 0 |>);;
      lock_ready p;;
      f ← fld p_flags q;
      when (f =? 0) (lock_ready q);;
      setp p (λ r, r <| p_nflips := p_nflips r + 1 |>);;
      setp q (λ r, r <| p_nflips := p_nflips r + 1 |>)
  end.

(** ** Start-up (kernel/stmain.c) *)

(** The process entry of [t]; [size] and [base] are the variables of [main],
    [sizes] the table filled in by the build, [guarded] the tasks with a stack. *)
Definition boot_proc (sizes : Z → Z) : Z * Z → Z → KM (Z * Z) := λ '(size, base) t,
  rp ← proc_addr t;
  sb ← (if t <? 0 then
     when (negb (t =? HARDWARE)) (setp rp (λ r, r <| p_stguard := STACK_GUARD |>));;
     when (negb (isidlehardware t)) (lock_ready rp);;
     setp rp (λ r, r <| p_map_T := (p_map_T r) <| mem_len := sizes 0 |> |>
                     <| p_map_D := MemMap (sizes 0) (sizes 0) (sizes 1) |>
                     <| p_map_S := MemMap size size (mem_len (p_map_S r)) |>);;
     mret (size, base)
   else
     lock_ready rp;;
     let size := sizes (2 * t + 2) in
     let base1 := u16 (base + size) in
     let size' := sizes (2 * t + 3) in
     let base2 := u16 (base1 + size') in
     setp rp (λ r, r <| p_map_T := MemMap base base size |>
                     <| p_map_D := MemMap base1 base1 size' |>
                     <| p_map_S := MemMap base2 base2 0 |>);;
     mret (size', base2));
  setp rp (λ r, r <| p_flags := 0 |>);;
  mret sb.

Definition boot (sizes : Z → Z) : KM Z :=
  modify (λ s, s <| procs := λ p, if isokprocn p then (procs s p) <| p_flags := P_SLOT_FREE |>
                                  else procs s p |>);;
  let size := u16 (sizes 0 + sizes 1) in
  sb ← fold_m (boot_proc sizes) (size, size) (seqZ (- NR_TASKS) (NR_TASKS + LOW_USER + 1));
  rp ← proc_addr HARDWARE;
  setp rp (λ r, r <| p_map_D := MemMap 0 0 0xFFFF |>);;
  h ← proc_addr HARDWARE;
  modify (λ s, s <| bill_ptr := h |>);;
  lock_pick_proc;;
  mret sb.2.

(** The kernel's variables before [main]: all zero. *)
Definition zero_proc : proc :=
  Proc 0 0 false 0 false false None 0 (MemMap 0 0 0) (MemMap 0 0 0) (MemMap 0 0 0)
       None None 0 0 0 None 0 0.
Definition zero_kernel (m : Z) : kernel :=
  Kernel (λ _, zero_proc) 0 0 (λ _, None) (λ _, None) None None 0 false 0
         (λ _, Message 0 0 0 0 0 0 0 0 0) m 0 (λ _, 0).
