(* ===== verification/Sched.v ===== *)
(** * The scheduler's queues

    [queues_rep s Q]: the four ready queues of the kernel state [s], with their
    head and tail pointers and the [p_nextready] links, represent the lists
    [Q].  [ready], [unready], [sched] and [pick_proc] of Proc.v are proved to
    implement the list operations [spec_ready], [spec_unready], [spec_sched]
    and [spec_pick]. *)

From S2P Require Import Prelude Chain Sigset Proc.

#[local] Arguments lseg : simpl never.

(** ** Abstract queues *)
Notation queues := (Z → list Z).

(** The queue of process [p]. *)
Definition qof (r : proc) (p : Z) : Z :=
  if istaskp p then TASK_Q else if negb (isuserp p) then SERVER_Q
  else if isshadowp r then SHADOW_Q else USER_Q.

(** A user process enters its queue in front, every other process at the end. *)
Definition spec_ready (q p : Z) (Q : queues) : queues :=
  <[q := if q =? USER_Q then p :: Q q else Q q ++ [p]]> Q.
Definition spec_unready (q p : Z) (Q : queues) : queues :=
  <[q := filter (λ x, x ≠ p) (Q q)]> Q.
Definition rotate (l : list Z) : list Z := match l with [] => [] | p :: r => r ++ [p] end.
Definition spec_sched (Q : queues) : queues := <[USER_Q := rotate (Q USER_Q)]> Q.
(** The highest-priority process, and whether it is billed. *)
Definition spec_pick (Q : queues) : Z :=
  match Q TASK_Q, Q SERVER_Q, Q USER_Q with
  | p :: _, _, _ => p
  | _, p :: _, _ => p
  | _, _, p :: _ => p
  | _, _, _ => IDLE
  end.
Definition spec_bill (Q : queues) (b : Z) : Z :=
  match Q TASK_Q, Q SERVER_Q with [], [] => spec_pick Q | _, _ => b end.

(** ** Representation *)
Definition nextready (s : kernel) (i : Z) : option Z := p_nextready (procs s i).
Definition queue_rep (s : kernel) (q : Z) (L : list Z) : Prop :=
  chain (nextready s) (rdy_head s q) L ∧ (L ≠ [] → rdy_tail s q = last L).
Definition queues_rep (s : kernel) (Q : queues) : Prop :=
  ∀ q, 0 ≤ q < 4 → queue_rep s q (Q q) ∧ ∀ p, p ∈ Q q → isokprocn p = true ∧ qof (procs s p) p = q.

(** What the scheduling operations leave alone: every field of every process
    but the link, and every variable but the queue pointers, [proc_ptr],
    [bill_ptr] and [switching]. *)
Definition erase (r : proc) : proc := r <| p_nextready := None |>.
Definition others (s : kernel) :=
  (held_head s, held_tail s, k_reenter s, sig_procs s, mess s, sys_m s, flipwait s, clicks s).
Definition sched_frame (s s' : kernel) : Prop :=
  (∀ i, erase (procs s' i) = erase (procs s i)) ∧ others s' = others s.

(** One symbolic step over the accessors of the kernel state. *)
Ltac k_step :=
  lazymatch goal with
  | |- wp (fld _ _) _ _ => apply wp_gets
  | |- wp (setp _ _) _ _ => apply wp_modify
  | |- wp (set_head _ _) _ _ => apply wp_modify
  | |- wp (set_tail _ _) _ _ => apply wp_modify
  | |- wp (set_switching _) _ _ => apply wp_modify
  | _ => wp_step
  end; cbv beta.

Section frame.
Implicit Types (s : kernel) (Q : queues).

Lemma sched_frame_refl s : sched_frame s s.
Proof. done. Qed.

Lemma sched_frame_trans s1 s2 s3 : sched_frame s1 s2 → sched_frame s2 s3 → sched_frame s1 s3.
Proof. intros [H1 E1] [H2 E2]. split; [intros i; by rewrite H2|by rewrite E2]. Qed.

Lemma erase_next (f : Z → proc) p v i : erase ((<[p := (f p) <| p_nextready := v |>]> f) i) = erase (f i).
Proof.
  destruct (decide (p = i)) as [->|]; [by rewrite fn_lookup_insert|by rewrite fn_lookup_insert_ne].
Qed.

Lemma next_relink (f : Z → proc) p v i :
  p_nextready ((<[p := (f p) <| p_nextready := v |>]> f) i) = relink (λ i, p_nextready (f i)) p v i.
Proof.
  unfold relink. destruct (decide (i = p)) as [->|]; [by rewrite fn_lookup_insert|].
  by rewrite fn_lookup_insert_ne.
Qed.

Lemma erase_qof r r' p : erase r' = erase r → qof r' p = qof r p.
Proof.
  intros E. unfold qof, isshadowp.
  replace (p_shadow r') with (p_shadow r); [done|by apply (f_equal p_shadow) in E].
Qed.

Lemma qof_range r p : 0 ≤ qof r p < 4.
Proof. unfold qof. by repeat case_match. Qed.

Lemma queues_notin s Q q p : queues_rep s Q → 0 ≤ q < 4 → q ≠ qof (procs s p) p → p ∉ Q q.
Proof. intros HQ Hq Hne Hp. destruct (HQ q Hq) as [_ H]. destruct (H _ Hp) as [_ <-]. done. Qed.

Lemma queues_NoDup s Q q : queues_rep s Q → 0 ≤ q < 4 → NoDup (Q q).
Proof. intros HQ Hq. destruct (HQ q Hq) as [[Hc _] _]. by eapply chain_NoDup. Qed.

Lemma queues_rep_ext s Q Q' : (∀ q, 0 ≤ q < 4 → Q' q = Q q) → queues_rep s Q → queues_rep s Q'.
Proof. intros E HQ q Hq. rewrite E by done. by apply HQ. Qed.

Lemma insert_id_at Q q l q' : l = Q q → (<[q := l]> Q) q' = Q q'.
Proof.
  intros ->. destruct (decide (q = q')) as [->|]; [by rewrite fn_lookup_insert|].
  by rewrite fn_lookup_insert_ne.
Qed.

Lemma queues_rep_id s Q q l : l = Q q → queues_rep s Q → queues_rep s (<[q := l]> Q).
Proof. intros El. apply queues_rep_ext. intros. by apply insert_id_at. Qed.

(** Replacing one queue. *)
Lemma queues_rep_change s s' Q q L :
  queues_rep s Q → sched_frame s s' → 0 ≤ q < 4 →
  (∀ q', 0 ≤ q' < 4 → q' ≠ q → rdy_head s' q' = rdy_head s q' ∧ rdy_tail s' q' = rdy_tail s q' ∧
     ∀ i, i ∈ Q q' → nextready s' i = nextready s i) →
  queue_rep s' q L → (∀ p, p ∈ L → isokprocn p = true ∧ qof (procs s p) p = q) →
  queues_rep s' (<[q := L]> Q).
Proof.
  intros HQ [He _] Hq Hother HL Hof q' Hq'. destruct (decide (q = q')) as [<-|Hne].
  - rewrite fn_lookup_insert. split; [done|]. intros p Hp. rewrite (erase_qof _ _ p (He p)). by apply Hof.
  - rewrite fn_lookup_insert_ne by done. destruct (HQ q' Hq') as [[Hc Ht] Hm].
    destruct (Hother q' Hq') as (Eh & Et & En); [done|]. split; [split|].
    + rewrite Eh. eapply lseg_ext, Hc. intros; auto.
    + by rewrite Et.
    + intros p Hp. rewrite (erase_qof _ _ p (He p)). by apply Hm.
Qed.

Lemma queues_rep_same s s' Q :
  queues_rep s Q → sched_frame s s' → rdy_head s' = rdy_head s → rdy_tail s' = rdy_tail s →
  (∀ i, nextready s' i = nextready s i) → queues_rep s' Q.
Proof.
  intros HQ [He _] Eh Et En q Hq. destruct (HQ q Hq) as [[Hc Ht] Hm]. split; [split|].
  - rewrite Eh. eapply lseg_ext, Hc. intros; auto.
  - by rewrite Et.
  - intros p Hp. rewrite (erase_qof _ _ p (He p)). by apply Hm.
Qed.
End frame.

(** ** pick_proc *)
Section pick.
Implicit Types (s : kernel) (Q : queues).

Lemma pick_run s Q :
  queues_rep s Q →
  wp pick_proc (λ _ s', s' = s <| proc_ptr := spec_pick Q |> <| bill_ptr := spec_bill Q (bill_ptr s) |>) s.
Proof.
  intros HQ. unfold pick_proc, spec_bill, spec_pick.
  destruct (HQ TASK_Q ltac:(done)) as [[H0%chain_head _] _].
  destruct (HQ SERVER_Q ltac:(done)) as [[H1%chain_head _] _].
  destruct (HQ USER_Q ltac:(done)) as [[H2%chain_head _] _].
  k_step. k_step. rewrite H0. destruct (Q TASK_Q) as [|p0 l0]; cbn [head]; [|by k_step; destruct s].
  k_step. k_step. rewrite H1. destruct (Q SERVER_Q) as [|p1 l1]; cbn [head]; [|by k_step; destruct s].
  k_step. k_step. rewrite H2.
  destruct (Q USER_Q) as [|p2 l2]; cbn [head]; [|by k_step].
  k_step. change (proc_addr IDLE) with (mret IDLE : KM Z). k_step. by k_step.
Qed.
End pick.

(** ** ready *)
Section ready.
Implicit Types (s : kernel) (Q : queues).

Lemma enqueue_run s Q q p fresh :
  queues_rep s Q → 0 ≤ q < 4 → qof (procs s p) p = q → isokprocn p = true → p ∉ Q q →
  wp (enqueue q p fresh) (λ _ s', sched_frame s s' ∧ queues_rep s' (<[q := Q q ++ [p]]> Q) ∧
       proc_ptr s' = (if fresh && bool_decide (Q q = []) then p else proc_ptr s) ∧
       bill_ptr s' = bill_ptr s ∧ switching s' = switching s) s.
Proof.
  intros HQ Hq Hof Hok Hp. destruct (HQ q Hq) as [[Hch Ht] Hm].
  assert (Hother : ∀ q', 0 ≤ q' < 4 → q' ≠ q → p ∉ Q q').
  { intros q' ? ?. apply (queues_notin s Q); [done..|congruence]. }
  unfold enqueue. k_step. k_step. rewrite (chain_head _ _ _ Hch).
  destruct (last (Q q)) as [t|] eqn:El.
  - apply last_Some in El as [l El]. assert (Hne : Q q ≠ []) by (rewrite El; by destruct l).
    destruct (head (Q q)) as [h|] eqn:Eh; [|by destruct (Q q)].
    assert (Htq : ∀ q', 0 ≤ q' < 4 → q' ≠ q → t ∉ Q q').
    { intros q' ? ? Ht'. destruct (HQ q' ltac:(done)) as [_ Hm']. destruct (Hm' _ Ht') as [_ E1].
      destruct (Hm t) as [_ E2]; [rewrite El; set_solver|congruence]. }
    do 3 k_step. rewrite (Ht Hne). repeat k_step. cbn.
    set (f1 := <[t := (procs s t) <| p_nextready := Some p |>]> (procs s)).
    assert (Herase : ∀ i, erase ((<[p := (f1 p) <| p_nextready := None |>]> f1) i) = erase (procs s i)).
    { intros i. rewrite erase_next. apply erase_next. }
    assert (Hfr : sched_frame s (Kernel (<[p := (f1 p) <| p_nextready := None |>]> f1) (proc_ptr s)
              (bill_ptr s) (rdy_head s) (<[q := Some p]> (rdy_tail s)) (held_head s) (held_tail s) (k_reenter s)
              (switching s) (sig_procs s) (mess s) (sys_m s) (flipwait s) (clicks s))) by done.
    split_and!; [exact Hfr| |by rewrite bool_decide_false, andb_false_r|done..].
    apply (queues_rep_change s); try done; cbn.
    + intros q' Hq' Hne'. split; [done|]. split; [by rewrite fn_lookup_insert_ne|].
      intros i Hi. unfold nextready; cbn. rewrite next_relink, relink_ne.
      * unfold f1. rewrite next_relink, relink_ne; [done|]. intros ->. by eapply Htq.
      * intros ->. by eapply Hother.
    + split; cbn; [|intros _; rewrite fn_lookup_insert; by rewrite last_snoc].
      rewrite El, <- app_assoc. cbn. rewrite El in Hch.
      eapply lseg_ext, (chain_snoc _ _ l t p); [|by rewrite <- El|exact Hch].
      intros k Hk. unfold nextready; cbn. rewrite next_relink. unfold relink at 1 2.
      case_decide; [done|]. unfold f1. by rewrite next_relink.
    + intros x [Hx| ->%list_elem_of_singleton]%elem_of_app; [by apply Hm|done].
  - apply last_None in El. rewrite El. cbn [head app]. k_step. k_step.
    k_step.
    eapply (wp_mono _ (λ _ s', s' = s <| rdy_head := <[q := Some p]> (rdy_head s) |>
                               <| proc_ptr := if fresh then p else proc_ptr s |>)).
    { apply wp_when; intros ->; [by k_step|by destruct s]. }
    intros [] s1 ->. repeat k_step. cbn. rewrite ?andb_true_r.
    set (f1 := <[p := (procs s p) <| p_nextready := None |>]> (procs s)).
    assert (Herase : ∀ i, erase (f1 i) = erase (procs s i)) by (intros i; apply erase_next).
    split_and!; [done| |done..].
    apply (queues_rep_change s); try done; cbn.
    + intros q' Hq' Hne'. split; [by rewrite fn_lookup_insert_ne|]. split; [by rewrite fn_lookup_insert_ne|].
      intros i Hi. unfold nextready; cbn. unfold f1. rewrite next_relink, relink_ne; [done|].
      intros ->. by eapply Hother.
    + split; cbn; [|intros _; by rewrite fn_lookup_insert].
      rewrite fn_lookup_insert. split; [done|]. unfold nextready; cbn. unfold f1.
      by rewrite fn_lookup_insert.
    + intros x ->%list_elem_of_singleton. done.
Qed.

(** [ready] puts a process that is not queued on its queue. *)
Lemma ready_run s Q p q :
  queues_rep s Q → q = qof (procs s p) p → isokprocn p = true → p ∉ Q q →
  wp (ready p) (λ _ s', sched_frame s s' ∧ queues_rep s' (spec_ready q p Q) ∧
       proc_ptr s' = (if (q =? TASK_Q) && bool_decide (Q TASK_Q = []) then p else proc_ptr s) ∧
       bill_ptr s' = bill_ptr s ∧ switching s' = switching s) s.
Proof.
  intros HQ Eq Hok Hp. pose proof (qof_range (procs s p) p) as Hq. rewrite <- Eq in Hq.
  unfold ready, spec_ready. symmetry in Eq. pose proof Eq as Eq'. unfold qof in Eq.
  destruct (istaskp p).
  { subst q. cbn [Z.eqb]. by apply enqueue_run. }
  destruct (isuserp p); cbn [negb] in *.
  2:{ subst q. change (SERVER_Q =? TASK_Q) with false. cbn [andb]. by apply (enqueue_run _ _ _ _ false). }
  k_step. k_step. destruct (isshadowp (procs s p)).
  { subst q. change (SHADOW_Q =? TASK_Q) with false. cbn [andb]. by apply (enqueue_run _ _ _ _ false). }
  subst q. rewrite Z.eqb_refl. change (USER_Q =? TASK_Q) with false. cbn [andb].
  destruct (HQ USER_Q ltac:(done)) as [[Hch Ht] Hm].
  set (tl := if decide (Q USER_Q = []) then <[USER_Q := Some p]> (rdy_tail s) else rdy_tail s).
  k_step. k_step. k_step. eapply (wp_mono _ (λ _ s', s' = s <| rdy_tail := tl |>)).
  { rewrite (chain_head _ _ _ Hch). apply wp_when; unfold ptr_eq, tl; intros E.
    - k_step. apply bool_decide_eq_true in E. by rewrite decide_True by (by destruct (Q USER_Q)).
    - apply bool_decide_eq_false in E. rewrite decide_False; [by destruct s|]. intros Hx; by rewrite Hx in E. }
  intros [] s1 ->. do 5 k_step. cbn.
  set (f1 := <[p := (procs s p) <| p_nextready := rdy_head s USER_Q |>]> (procs s)).
  assert (Herase : ∀ i, erase (f1 i) = erase (procs s i)) by (intros i; apply erase_next).
  split_and!; [done| |done..].
  apply (queues_rep_change s); try done; cbn.
  - intros q' Hq' Hne'. split; [by rewrite fn_lookup_insert_ne|]. split.
    { unfold tl. case_decide; [by rewrite fn_lookup_insert_ne|done]. }
    intros i Hi. unfold nextready; cbn. unfold f1. rewrite next_relink, relink_ne; [done|].
    intros ->. apply (queues_notin s Q q' p); [done..|congruence|done].
  - split; cbn.
    + rewrite fn_lookup_insert. eapply lseg_ext, (chain_push _ _ _ p Hp Hch).
      intros k Hk. unfold nextready; cbn. unfold f1. by rewrite next_relink.
    + intros _. unfold tl. case_decide as Ed; [rewrite Ed; by rewrite fn_lookup_insert|].
      rewrite Ht by done. destruct (Q USER_Q) as [|x l]; [done|]. symmetry. apply last_cons_cons.
  - intros x [->|Hx]%elem_of_cons; [done|by apply Hm].
Qed.
End ready.

(** ** unready *)

(** The state after [rp] has been unlinked from behind [y]. *)
Definition unlinked (s : kernel) (q y rp : Z) : kernel :=
  s <| procs := <[y := (procs s y) <| p_nextready := nextready s rp |>]> (procs s) |>
    <| rdy_tail := if ptr_eq (rdy_tail s q) (Some rp) then <[q := Some y]> (rdy_tail s) else rdy_tail s |>.

Section unready.
Implicit Types (s : kernel) (Q : queues).

Lemma filter_notin (p : Z) (l : list Z) : p ∉ l → filter (λ x, x ≠ p) l = l.
Proof.
  induction l as [|x l IH]; [done|]. intros [? ?]%not_elem_of_cons.
  rewrite filter_cons_True by done. by rewrite IH.
Qed.

Lemma filter_middle (p : Z) (l1 l2 : list Z) :
  NoDup (l1 ++ p :: l2) → filter (λ x, x ≠ p) (l1 ++ p :: l2) = l1 ++ l2.
Proof.
  intros (_ & Hd & [? _]%NoDup_cons)%NoDup_app.
  rewrite filter_app, filter_cons_False, !filter_notin; [done|done| |tauto].
  intros ?. eapply Hd; set_solver.
Qed.

(** The search visits the queue up to the predecessor of [rp]. *)
Lemma unready_loop s q rp h fuel L1 x R :
  chain (nextready s) h (L1 ++ x :: R) → (length R < fuel)%nat → x ≠ rp →
  wp (loop fuel (unready_step q rp) x) (λ _ s',
    (rp ∉ R ∧ s' = s) ∨
    (∃ A y B, L1 ++ x :: R = A ++ y :: rp :: B ∧ s' = unlinked s q y rp)) s.
Proof.
  revert L1 x R. induction fuel as [|fuel IH]; intros L1 x R Hch Hlen Hx; [lia|].
  pose proof (lseg_suffix _ _ _ _ _ Hch) as [_ Hn%chain_head].
  rewrite loop_unfold. k_step. unfold unready_step at 1. do 2 k_step.
  unfold nextready in Hn. rewrite Hn. destruct R as [|x' R]; cbn [head].
  { unfold ptr_eq. rewrite bool_decide_false by done. do 2 k_step. left. split; [apply not_elem_of_nil|done]. }
  unfold ptr_eq at 1. destruct (decide (x' = rp)) as [->|Hne].
  - rewrite bool_decide_true by done. repeat k_step; intros E; repeat k_step; right; exists L1, x, R; (split; [done|]);
      unfold unlinked; cbn in *; rewrite E; destruct s; done.
  - rewrite bool_decide_false by congruence. cbv iota. k_step. cbv iota.
    replace (L1 ++ x :: x' :: R) with ((L1 ++ [x]) ++ x' :: R) in * by by rewrite <- app_assoc.
    eapply wp_mono; [apply (IH (L1 ++ [x])); [done|cbn in Hlen; lia|done]|].
    intros [] s' [[? ?]|?]; [left; split; [set_solver|done]|by right].
Qed.

Lemma unlinked_rep s Q q A y p B :
  queues_rep s Q → 0 ≤ q < 4 → Q q = A ++ y :: p :: B →
  sched_frame s (unlinked s q y p) ∧ queues_rep (unlinked s q y p) (<[q := A ++ y :: B]> Q).
Proof.
  intros HQ Hq EQ. destruct (HQ q Hq) as [[Hch Ht] Hm]. rewrite EQ in Hch, Hm.
  pose proof (chain_NoDup _ _ _ Hch) as Hnd.
  assert (Hfr : sched_frame s (unlinked s q y p)) by (split; [intros i; apply erase_next|done]).
  split; [done|]. apply (queues_rep_change s); try done.
  - intros q' Hq' Hne. split; [done|]. split.
    { cbn. case_match; [by rewrite fn_lookup_insert_ne|done]. }
    intros i Hi. unfold nextready, unlinked; cbn. rewrite next_relink, relink_ne; [done|].
    intros ->. destruct (HQ q' Hq') as [_ Hm']. destruct (Hm' _ Hi) as [_ E1].
    destruct (Hm y) as [_ E2]; [set_solver|congruence].
  - split.
    + eapply lseg_ext, (chain_delete_after _ _ A y p B Hch). intros k Hk.
      unfold nextready at 1, unlinked; cbn. by rewrite next_relink.
    + intros _. cbn. rewrite Ht by (rewrite EQ; by destruct A). rewrite EQ. unfold ptr_eq.
      destruct B as [|b B].
      * rewrite bool_decide_true; [rewrite fn_lookup_insert|];
          [by rewrite last_snoc|].
        change (A ++ [y; p]) with (A ++ [y] ++ [p]). by rewrite app_assoc, last_snoc.
      * rewrite bool_decide_false.
        { by rewrite Ht, EQ, !last_app_cons, !last_cons_cons by (rewrite EQ; by destruct A). }
        rewrite last_app_cons, !last_cons_cons. intros [l' E]%last_Some.
        assert (p ∈ b :: B) by (rewrite E; set_solver).
        apply NoDup_app in Hnd as (_ & _ & Hnd). apply NoDup_cons in Hnd as [_ Hnd].
        by apply NoDup_cons in Hnd as [? _].
  - intros x Hx. apply Hm. set_solver.
Qed.

(** Removal of the head. *)
Lemma behead_rep s Q q p B :
  queues_rep s Q → 0 ≤ q < 4 → Q q = p :: B →
  queues_rep (s <| rdy_head := <[q := nextready s p]> (rdy_head s) |>) (<[q := B]> Q).
Proof.
  intros HQ Hq EQ. destruct (HQ q Hq) as [[Hch Ht] Hm]. rewrite EQ in Hch, Hm, Ht.
  destruct Hch as [_ Hch]. apply (queues_rep_change s); try done.
  - intros q' _ Hne. cbn. by rewrite fn_lookup_insert_ne.
  - split; cbn; [by rewrite fn_lookup_insert|]. intros Hne. rewrite Ht by done.
    destruct B; [done|]. apply last_cons_cons.
  - intros x Hx. apply Hm. set_solver.
Qed.

Lemma queue_length s Q q : queues_rep s Q → 0 ≤ q < 4 → (length (Q q) ≤ 75)%nat.
Proof.
  intros HQ Hq. pose proof (queues_NoDup s Q q HQ Hq) as Hnd. destruct (HQ q Hq) as [_ Hm].
  assert (Hsub : Q q ⊆+ seqZ (-11) 75).
  { apply NoDup_submseteq; [done|]. intros x Hx. destruct (Hm x Hx) as [Hok _].
    apply elem_of_seqZ. unfold isokprocn, NR_TASKS, NR_PROCS in Hok. lia. }
  apply submseteq_length in Hsub. by rewrite length_seqZ in Hsub.
Qed.

(** The process chosen to run after [p] has been taken off queue [q]: a new
    one is picked only when [p] headed its queue and was running. *)
Definition next_cur s Q q p : Z :=
  if bool_decide (head (Q q) = Some p) && (p =? proc_ptr s) then spec_pick (spec_unready q p Q)
  else proc_ptr s.

Lemma dequeue_run s Q p q :
  queues_rep s Q → 0 ≤ q < 4 →
  wp (dequeue q p) (λ _ s', sched_frame s s' ∧ queues_rep s' (spec_unready q p Q) ∧
        proc_ptr s' = next_cur s Q q p ∧ switching s' = switching s) s.
Proof.
  intros HQ Hq. destruct (HQ q Hq) as [[Hch Ht] Hm]. pose proof (queues_NoDup s Q q HQ Hq) as Hnd.
  unfold dequeue, next_cur, spec_unready. k_step. k_step. rewrite (chain_head _ _ _ Hch).
  destruct (Q q) as [|x R] eqn:EQ; cbn [head].
  { k_step. split_and!; try done. by apply queues_rep_id. }
  destruct (Z.eqb_spec x p) as [->|Hx].
  - rewrite bool_decide_true by done. cbn [andb]. pose proof (filter_middle p [] R Hnd) as EF. cbn [app] in EF.
    rewrite EF. pose proof (behead_rep s Q q p R HQ Hq EQ) as HQ'.
    do 7 k_step; intros E; cbn in E; rewrite E.
    + eapply wp_mono; [by apply (pick_run _ _ HQ')|]. cbn beta. intros [] s' ->. split_and!; try done.
    + done.
  - rewrite bool_decide_false by congruence. cbn [andb].
    eapply wp_mono; [apply (unready_loop s q p (rdy_head s q) _ [] x R); [done| |done]|].
    { pose proof (queue_length s Q q HQ Hq) as Hl. rewrite EQ in Hl. cbn in Hl. unfold proc_fuel. lia. }
    cbn beta. intros [] s' [[Hn ->]|(A & y & B & E & ->)].
    + rewrite filter_notin by set_solver. split_and!; try done. by apply queues_rep_id.
    + cbn [app] in E. rewrite E in EQ, Hnd |- *.
      destruct (unlinked_rep s Q q A y p B HQ Hq EQ) as [Hfr HQ'].
      replace (filter _ _) with (A ++ y :: B); [done|].
      change (A ++ y :: p :: B) with (A ++ [y] ++ p :: B) in *. rewrite (app_assoc A [y]) in *.
      by rewrite filter_middle, <- app_assoc.
Qed.

(** [unready] takes a process off its queue, if it is there. *)
Lemma unready_run s Q p q :
  queues_rep s Q → q = qof (procs s p) p →
  (istaskp p = true → p_stguard (procs s p) = STACK_GUARD) →
  wp (unready p) (λ _ s', sched_frame s s' ∧ queues_rep s' (spec_unready q p Q) ∧
        proc_ptr s' = next_cur s Q q p ∧ switching s' = switching s) s.
Proof.
  intros HQ Eq Hg. pose proof (qof_range (procs s p) p) as Hq. rewrite <- Eq in Hq.
  unfold unready. unfold qof in Eq. destruct (istaskp p).
  { k_step. k_step. rewrite Hg by done. cbn. subst q. by apply dequeue_run. }
  destruct (isuserp p); cbn [negb] in *; [|subst q; by apply dequeue_run].
  k_step. k_step. destruct (isshadowp (procs s p)); subst q; by apply dequeue_run.
Qed.

Lemma unready_panic s p :
  istaskp p = true → p_stguard (procs s p) ≠ STACK_GUARD →
  unready p s = Panic "stack overrun by task" p.
Proof.
  intros Ht Hg. unfold unready. rewrite Ht. unfold fld, mbind, M_bind, gets.
  by destruct (Z.eqb_spec (p_stguard (procs s p)) STACK_GUARD).
Qed.
End unready.

(** ** sched *)
Section sched.
Implicit Types (s : kernel) (Q : queues).

Lemma sched_run s Q :
  queues_rep s Q →
  wp sched (λ _ s', sched_frame s s' ∧ queues_rep s' (spec_sched Q) ∧ switching s' = switching s ∧
     proc_ptr s' = if decide (Q USER_Q = []) then proc_ptr s else spec_pick (spec_sched Q)) s.
Proof.
  intros HQ. destruct (HQ USER_Q ltac:(done)) as [[Hch Ht] Hm].
  pose proof (queues_NoDup s Q USER_Q HQ ltac:(done)) as Hnd.
  unfold sched, spec_sched. k_step. k_step. rewrite (chain_head _ _ _ Hch).
  destruct (Q USER_Q) as [|p R] eqn:EQ; cbn [head rotate].
  { k_step. split_and!; try done. by apply queues_rep_id. }
  rewrite decide_False by done. destruct Hch as [Eh Hch].
  destruct (last (p :: R)) as [t|] eqn:El; [|by apply last_None in El].
  assert (Htm : t ∈ p :: R) by (apply last_Some in El as [l ->]; set_solver).
  do 2 k_step. rewrite (Ht ltac:(done)). do 4 k_step. rewrite Eh.
  do 12 k_step. cbn. rewrite fn_lookup_insert. do 4 k_step. cbn.
  set (f1 := <[t := (procs s t) <| p_nextready := Some p |>]> (procs s)).
  set (s1 := Kernel (<[p := (f1 p) <| p_nextready := None |>]> f1) (proc_ptr s) (bill_ptr s)
       (<[USER_Q := p_nextready (f1 p)]> (rdy_head s)) (<[USER_Q := Some p]> (rdy_tail s)) (held_head s)
       (held_tail s) (k_reenter s) (switching s) (sig_procs s) (mess s) (sys_m s) (flipwait s) (clicks s)).
  assert (Hfr : sched_frame s s1).
  { split; [intros i; cbn; rewrite erase_next; apply erase_next|done]. }
  assert (HQ' : queues_rep s1 (<[USER_Q := R ++ [p]]> Q)).
  { apply (queues_rep_change s); try done.
    - intros q' Hq' Hne. cbn. do 2 (split; [by rewrite fn_lookup_insert_ne|]).
      intros i Hi. destruct (HQ q' Hq') as [_ Hm']. destruct (Hm' _ Hi) as [_ E1].
      unfold nextready; cbn. rewrite next_relink, relink_ne; [unfold f1; rewrite next_relink, relink_ne; [done|]|];
        intros ->; [destruct (Hm t Htm) as [_ ?]|destruct (Hm p ltac:(set_solver)) as [_ ?]]; congruence.
    - split; [|intros _; cbn; rewrite fn_lookup_insert; by rewrite last_snoc].
      cbn [rdy_head s1]. rewrite fn_lookup_insert. destruct R as [|b R] using rev_ind.
      + cbn in El. injection El as <-. unfold f1. rewrite fn_lookup_insert. split; [done|].
        unfold nextready; cbn. by rewrite fn_lookup_insert.
      + clear IHR. rewrite app_comm_cons, last_snoc in El. injection El as <-.
        apply NoDup_cons in Hnd as [Hp _].
        rewrite <- app_assoc. cbn [app]. unfold f1 at 1. rewrite fn_lookup_insert_ne by set_solver.
        eapply lseg_ext, (chain_snoc _ _ _ b p Hp Hch). intros k Hk.
        unfold nextready at 1; cbn. rewrite next_relink. unfold relink at 1 2.
        case_decide; [done|]. unfold f1. by rewrite next_relink.
    - intros x Hx. apply Hm. set_solver. }
  eapply wp_mono; [apply (pick_run s1 _ HQ')|]. cbn beta. intros [] s' ->. split_and!; try done.
Qed.
End sched.
