(* ===== verification/Ipc.v ===== *)
(** * Messages: the caller queues and the send graph

    The invariant of the message primitives.  Every process has a caller queue,
    a chain through [p_sendlink] that holds exactly the processes blocked
    sending to it; the graph of blocked senders has no cycle, so that the search
    of [mini_send] for a deadlock ends.  [kcore] joins this invariant to the
    ready queues: a process is queued exactly when no flag blocks it. *)

From S2P Require Import Prelude Chain Sigset Proc Sched.

#[local] Arguments lseg : simpl never.

(** ** The invariant *)
Notation ptable := (Z → proc).

Definition sending (r : proc) : bool := has (p_flags r) SENDING.
Definition sendlink (t : ptable) (i : Z) : option Z := p_sendlink (t i).
(** Whom [i] is blocked sending to. *)
Definition sendnext (t : ptable) (i : Z) : option Z :=
  if sending (t i) then Some (p_sendto (t i)) else None.
Definition callers_of (t : ptable) (d : Z) (L : list Z) : Prop :=
  chain (sendlink t) (p_callerq (t d)) L ∧
  ∀ p, p ∈ L ↔ isokprocn p = true ∧ sendnext t p = Some d.
(** The flags a task can have; who sends and receives at once (BOTH) receives
    from the process it sends to, never from ANY. *)
Definition task_flags (f : Z) : Prop := clrf f (Z.lor SENDING RECEIVING) = 0.

Record ipc_ok (t : ptable) : Prop := IpcOk {
  ipc_callers : ∀ d, isokprocn d = true → ∃ L, callers_of t d L;
  ipc_dest : ∀ p d, isokprocn p = true → sendnext t p = Some d →
    isokprocn d = true ∧ (isuserp p = true → issysentn d = true);
  ipc_acyclic : ∀ p, isokprocn p = true → ∃ L, chain (sendnext t) (Some p) L;
  ipc_tasks : ∀ p, istaskp p = true → isokprocn p = true → task_flags (p_flags (t p));
  ipc_pending : ∀ p, isokprocn p = true → has (p_flags (t p)) PENDING = true →
    has (p_flags (t p)) SIG_PENDING = true;
  ipc_both : ∀ p, isokprocn p = true → sending (t p) = true → has (p_flags (t p)) RECEIVING = true →
    p_getfrom (t p) ≠ ANY
}.

(** Queued and runnable are the same. *)
Definition mem_ok (s : kernel) (Q : queues) : Prop :=
  ∀ p, isokprocn p = true →
    p ∈ Q (qof (procs s p) p) ↔ p_flags (procs s p) = 0 ∧ isidlehardware p = false.

(** Facts no operation changes: intact task stacks, the kernel's own buffer
    inside the map of HARDWARE, MM alive, and IDLE and HARDWARE never blocked. *)
Record static_ok (s : kernel) : Prop := StaticOk {
  st_guard : ∀ p, istaskp p = true → isokprocn p = true → isidlehardware p = false →
    p_stguard (procs s p) = STACK_GUARD;
  st_hw : mess_ok (procs s HARDWARE) (sys_m s) = true;
  st_hwsh : isshadowp (procs s HARDWARE) = false;
  st_mm : has (p_flags (procs s MM_PROC_NR)) P_SLOT_FREE = false;
  st_idle : ∀ p, isidlehardware p = true → p_flags (procs s p) = 0
}.

(** The queue of held interrupts. *)
Definition nextheld (s : kernel) (i : Z) : option Z := p_nextheld (procs s i).
Definition held_ok (s : kernel) (H : list Z) : Prop :=
  chain (nextheld s) (held_head s) H ∧ (H ≠ [] → held_tail s = last H) ∧
  ∀ p, isokprocn p = true → p ∈ H ↔ p_int_held (procs s p) = true.

Record kcore (s : kernel) (Q : queues) : Prop := KCore {
  k_queues : queues_rep s Q;
  k_mem : mem_ok s Q;
  k_ipc : ipc_ok (procs s);
  k_static : static_ok s
}.

(** The running process is IDLE or heads a queue of runnable processes. *)
Definition cur_ok (s : kernel) (Q : queues) : Prop :=
  proc_ptr s = IDLE ∨
  (isokprocn (proc_ptr s) = true ∧ head (Q (qof (procs s (proc_ptr s)) (proc_ptr s))) = Some (proc_ptr s) ∧
   qof (procs s (proc_ptr s)) (proc_ptr s) ≠ SHADOW_Q).

(** Equal up to the ready links. *)
Definition peq (t t' : ptable) : Prop := ∀ i, erase (t' i) = erase (t i).

(** ** Facts about flags and process numbers *)
Section flags.
Lemma task_flags_clrf f m : task_flags f → task_flags (clrf f m).
Proof.
  unfold task_flags, clrf. intros H.
  by rewrite <- Z.land_assoc, (Z.land_comm (Z.lnot m)), Z.land_assoc, H, Z.land_0_l.
Qed.

Lemma task_flags_setf f m : m = SENDING ∨ m = RECEIVING → task_flags f → task_flags (setf f m).
Proof.
  unfold task_flags, clrf, setf. intros Hm H. rewrite Z.land_lor_distr_l, H. by destruct Hm as [-> | ->].
Qed.

Lemma task_flags_0 f : task_flags f → has f SENDING = false → has f RECEIVING = false → f = 0.
Proof.
  unfold task_flags, has, clrf. rewrite !negb_false_iff, !Z.eqb_eq. intros H H1 H2.
  rewrite <- (Z.lor_ldiff_and f (Z.lor SENDING RECEIVING)), Z.ldiff_land.
  by rewrite H, Z.land_lor_distr_r, H1, H2.
Qed.

Lemma task_not_pending f : task_flags f → has f PENDING = false.
Proof.
  unfold task_flags, has, clrf. rewrite negb_false_iff, Z.eqb_eq. intros H.
  apply (f_equal (λ x, Z.land x PENDING)) in H. rewrite <- Z.land_assoc in H. exact H.
Qed.

Lemma waiting_flags f : (Z.land f (Z.lor RECEIVING SENDING) =? RECEIVING) = true →
  has f RECEIVING = true ∧ has f SENDING = false.
Proof.
  intros H. apply has_land_single in H as [H1 H2]; [|done]. split; [|done].
  apply Z.eqb_eq in H1. unfold has. by rewrite H1.
Qed.

Lemma ok_length (L : list Z) : NoDup L → (∀ p, p ∈ L → isokprocn p = true) → (length L ≤ 75)%nat.
Proof.
  intros Hnd Hm. assert (Hsub : L ⊆+ seqZ (-11) 75).
  { apply NoDup_submseteq; [done|]. intros x Hx. specialize (Hm x Hx).
    apply elem_of_seqZ. unfold isokprocn, NR_TASKS, NR_PROCS in Hm. lia. }
  apply submseteq_length in Hsub. by rewrite length_seqZ in Hsub.
Qed.

Lemma user_not_task p : isuserp p = true → istaskp p = false.
Proof. unfold isuserp, istaskp, LOW_USER. lia. Qed.

Lemma qof_user r p : qof r p = USER_Q → isuserp p = true.
Proof. unfold qof. by destruct (istaskp p), (isuserp p). Qed.

Lemma proc_addr_ok n : isokprocn n = true → proc_addr n = mret n.
Proof. unfold proc_addr. by intros ->. Qed.
End flags.

(** ** Insensitivity to the other fields *)
Section ext.
Implicit Types (t : ptable) (s : kernel) (Q : queues).

(** [ipc_ok] looks only at the SENDING bit, the send links and the caller queues. *)
Lemma ipc_ok_ext t t' :
  ipc_ok t →
  (∀ i, sendnext t' i = sendnext t i ∧ p_callerq (t' i) = p_callerq (t i) ∧ p_sendlink (t' i) = p_sendlink (t i)) →
  (∀ i, istaskp i = true → isokprocn i = true → task_flags (p_flags (t' i))) →
  (∀ i, isokprocn i = true → has (p_flags (t' i)) PENDING = true → has (p_flags (t' i)) SIG_PENDING = true) →
  (∀ i, isokprocn i = true → sending (t' i) = true → has (p_flags (t' i)) RECEIVING = true → p_getfrom (t' i) ≠ ANY) →
  ipc_ok t'.
Proof.
  intros [Hc Hd Ha _ _ _] He Ht Hp Hb. split; try done.
  - intros d Hd'. destruct (Hc d Hd') as (L & Hch & Hm). exists L. split.
    + destruct (He d) as (_ & -> & _). eapply lseg_ext, Hch. intros k _. apply (He k).
    + intros p. rewrite Hm. by destruct (He p) as (-> & _).
  - intros p d Hok. destruct (He p) as (-> & _). by apply Hd.
  - intros p Hok. destruct (Ha p Hok) as [L HL]. exists L. eapply lseg_ext, HL. intros k _. apply (He k).
Qed.

Lemma peq_fields t t' : peq t t' → ∀ i,
  p_flags (t' i) = p_flags (t i) ∧ p_callerq (t' i) = p_callerq (t i) ∧
  p_sendlink (t' i) = p_sendlink (t i) ∧ p_sendto (t' i) = p_sendto (t i) ∧
  p_getfrom (t' i) = p_getfrom (t i) ∧ p_messbuf (t' i) = p_messbuf (t i) ∧
  p_shadow (t' i) = p_shadow (t i) ∧ p_stguard (t' i) = p_stguard (t i) ∧
  p_map_D (t' i) = p_map_D (t i) ∧ p_map_S (t' i) = p_map_S (t i) ∧
  p_nextheld (t' i) = p_nextheld (t i) ∧ p_int_held (t' i) = p_int_held (t i) ∧
  p_pending (t' i) = p_pending (t i) ∧ p_pendcount (t' i) = p_pendcount (t i) ∧
  p_int_blocked (t' i) = p_int_blocked (t i).
Proof.
  intros He i. specialize (He i). destruct (t' i), (t i). unfold erase in He; cbn in *. by injection He.
Qed.

Lemma ipc_ok_peq t t' : peq t t' → ipc_ok t → ipc_ok t'.
Proof.
  intros He Hok. pose proof (peq_fields _ _ He) as Hf. apply (ipc_ok_ext t); [done|..].
  - intros i. unfold sendnext, sending. destruct (Hf i) as (-> & -> & -> & -> & _). done.
  - intros i. destruct (Hf i) as (-> & _). apply Hok.
  - intros i. destruct (Hf i) as (-> & _). apply Hok.
  - intros i. unfold sending. destruct (Hf i) as (-> & _ & _ & _ & -> & _). apply Hok.
Qed.

Lemma mess_ok_map r r' m : p_map_D r' = p_map_D r → p_map_S r' = p_map_S r → mess_ok r' m = mess_ok r m.
Proof. unfold mess_ok. by intros -> ->. Qed.

Lemma static_ok_ext s s' :
  static_ok s → sys_m s' = sys_m s →
  (∀ i, p_stguard (procs s' i) = p_stguard (procs s i) ∧ p_map_D (procs s' i) = p_map_D (procs s i) ∧
        p_map_S (procs s' i) = p_map_S (procs s i) ∧ p_shadow (procs s' i) = p_shadow (procs s i) ∧
        (isidlehardware i = true → p_flags (procs s i) = 0 → p_flags (procs s' i) = 0)) →
  has (p_flags (procs s' MM_PROC_NR)) P_SLOT_FREE = has (p_flags (procs s MM_PROC_NR)) P_SLOT_FREE →
  static_ok s'.
Proof.
  intros [] Em Hf Hmm. split.
  - intros p Ht Hok Hid. destruct (Hf p) as (-> & _). by apply st_guard0.
  - rewrite Em. destruct (Hf HARDWARE) as (_ & ED & ES & _). by rewrite (mess_ok_map _ _ _ ED ES).
  - unfold isshadowp. destruct (Hf HARDWARE) as (_ & _ & _ & -> & _). done.
  - by rewrite Hmm.
  - intros p Hp. destruct (Hf p) as (_ & _ & _ & _ & H). by apply H, st_idle0.
Qed.

Lemma static_ok_frame s s' : sched_frame s s' → static_ok s → static_ok s'.
Proof.
  intros [He Eo] Hs. pose proof (peq_fields _ _ He) as Hf. apply (static_ok_ext s); [done| | |].
  - unfold others in Eo. congruence.
  - intros i. destruct (Hf i) as (-> & _ & _ & _ & _ & _ & -> & -> & -> & -> & _). done.
  - by destruct (Hf MM_PROC_NR) as (-> & _).
Qed.

Lemma mem_ok_peq s s' Q : peq (procs s) (procs s') → mem_ok s Q → mem_ok s' Q.
Proof.
  intros He Hm p Hok. destruct (peq_fields _ _ He p) as (-> & _).
  rewrite (erase_qof _ _ p (He p)). by apply Hm.
Qed.
End ext.

(** ** Blocking and deblocking one process *)
Section block.
Implicit Types (s : kernel) (Q : queues).

(** Every process but [p] is queued exactly when it can run. *)
Definition mem_ok_but p s Q : Prop :=
  ∀ x, isokprocn x = true → x ≠ p →
    x ∈ Q (qof (procs s x) x) ↔ p_flags (procs s x) = 0 ∧ isidlehardware x = false.

Lemma qof_shadow r r' p : p_shadow r' = p_shadow r → qof r' p = qof r p.
Proof. intros E. unfold qof, isshadowp. by rewrite E. Qed.

Lemma cur_ok_ext s s' Q : proc_ptr s' = proc_ptr s → (∀ i, p_shadow (procs s' i) = p_shadow (procs s i)) →
  cur_ok s Q → cur_ok s' Q.
Proof. intros Ep Es [H|H]; [left|right]; rewrite Ep, ?(qof_shadow _ _ _ (Es _)); done. Qed.

Lemma pick_cur s Q : queues_rep s Q → proc_ptr s = spec_pick Q → cur_ok s Q.
Proof.
  intros HQ Ep. unfold cur_ok. rewrite Ep. unfold spec_pick.
  assert (Hq : ∀ q p l, 0 ≤ q < 4 → q ≠ SHADOW_Q → Q q = p :: l →
    isokprocn p = true ∧ head (Q (qof (procs s p) p)) = Some p ∧ qof (procs s p) p ≠ SHADOW_Q).
  { intros q p l Hq Hne E. destruct (HQ q Hq) as [_ Hm]. destruct (Hm p) as [? Eq]; [rewrite E; set_solver|].
    by rewrite Eq, E. }
  destruct (Q TASK_Q) as [|p0 l0] eqn:E0; [|right; by apply (Hq TASK_Q p0 l0)].
  destruct (Q SERVER_Q) as [|p1 l1] eqn:E1; [|right; by apply (Hq SERVER_Q p1 l1)].
  destruct (Q USER_Q) as [|p2 l2] eqn:E2; [by left|right; by apply (Hq USER_Q p2 l2)].
Qed.

Lemma spec_ready_in q p Q q' x :
  x ∈ spec_ready q p Q q' ↔ x ∈ Q q' ∨ (q' = q ∧ x = p).
Proof.
  unfold spec_ready. destruct (decide (q = q')) as [<-|Hne].
  - rewrite fn_lookup_insert. case_match; set_solver.
  - rewrite fn_lookup_insert_ne by done. naive_solver.
Qed.

Lemma spec_unready_in q p Q q' x :
  x ∈ spec_unready q p Q q' ↔ x ∈ Q q' ∧ ¬ (q' = q ∧ x = p).
Proof.
  unfold spec_unready. destruct (decide (q = q')) as [<-|Hne].
  - rewrite fn_lookup_insert, list_elem_of_filter.
    split; [intros [? ?]; split; [done|by intros [_ ?]]|intros [? Hn]; split; [|done]; intros ->; by apply Hn].
  - rewrite fn_lookup_insert_ne by done. naive_solver.
Qed.

(** [if (p->p_flags == 0) ready(p);] after a flag of [p] has been cleared. *)
Lemma ready_when s Q p :
  queues_rep s Q → mem_ok_but p s Q → p ∉ Q (qof (procs s p) p) →
  isokprocn p = true → isidlehardware p = false →
  wp (when (p_flags (procs s p) =? 0) (ready p)) (λ _ s', sched_frame s s' ∧ switching s' = switching s ∧
    ∃ Q', queues_rep s' Q' ∧ mem_ok s' Q' ∧
      (isuserp (proc_ptr s') = true → proc_ptr s' = proc_ptr s) ∧
      (proc_ptr s = IDLE ∨ isuserp p = false ∨ isuserp (proc_ptr s) = false → cur_ok s Q → cur_ok s' Q')) s.
Proof.
  intros HQ Hm Hp Hok Hid. apply wp_when.
  - intros Ef%Z.eqb_eq. eapply wp_mono; [by apply (ready_run s Q p _ HQ eq_refl)|].
    cbn beta. intros [] s' (Hfr & HQ' & Ep & _ & Esw). split; [done|]. split; [done|].
    set (q := qof (procs s p) p) in *. exists (spec_ready q p Q). split; [done|].
    destruct Hfr as [He Eo]. split_and!.
    + intros x Hx. destruct (peq_fields _ _ He x) as (-> & _). rewrite (erase_qof _ _ x (He x)), spec_ready_in.
      destruct (decide (x = p)) as [->|Hne]; [naive_solver|]. rewrite <- (Hm x Hx Hne). naive_solver.
    + rewrite Ep. destruct (Z.eqb_spec q TASK_Q) as [Eq|]; cbn [andb]; [|done]. destruct (bool_decide (Q TASK_Q = [])); [|done].
      intros Hu. exfalso. unfold q, qof in Eq. rewrite Hu, (user_not_task _ Hu) in Eq. cbn in Eq. by case_match.
    + intros Hcond Hcur. destruct (decide (q = TASK_Q ∧ Q TASK_Q = [])) as [[Eq E]|Hn].
      * rewrite Eq, bool_decide_true in Ep by done. cbn in Ep. right.
        rewrite Ep, (erase_qof _ _ p (He p)). change (qof (procs s p) p) with q. rewrite Eq. split_and!; try done.
        unfold spec_ready. rewrite fn_lookup_insert. cbn. by rewrite E.
      * assert (Ep' : proc_ptr s' = proc_ptr s).
        { rewrite Ep. destruct (Z.eqb_spec q TASK_Q); [rewrite bool_decide_false by tauto|]; done. }
        destruct Hcur as [Hcur|(Hcok & Hh & Hsh)]; [left; congruence|].
        right. rewrite Ep', (erase_qof _ _ _ (He _)). split_and!; try done.
        unfold spec_ready. destruct (decide (q = qof (procs s (proc_ptr s)) (proc_ptr s))) as [Eq|Hne];
          [|by rewrite fn_lookup_insert_ne].
        rewrite <- Eq, fn_lookup_insert. rewrite <- Eq in Hh. destruct (Z.eqb_spec q USER_Q) as [EU|_].
        -- exfalso. assert (isuserp p = true) by (by eapply qof_user).
           assert (isuserp (proc_ptr s) = true) by (eapply qof_user; by rewrite <- Eq).
           destruct Hcond as [Hi|[?|?]]; [by rewrite Hi in *|congruence..].
        -- destruct (Q q); done.
  - intros Ef%Z.eqb_neq. split; [done|]. split; [done|]. exists Q. split_and!; try done.
    intros x Hx. destruct (decide (x = p)) as [->|]; [naive_solver|by apply Hm].
Qed.

(** [if (p->p_flags == 0) unready(p);] before a flag of [p] is set. *)
Lemma unready_when s Q p :
  queues_rep s Q → mem_ok s Q → isokprocn p = true →
  (istaskp p = true → p_stguard (procs s p) = STACK_GUARD) →
  wp (when (p_flags (procs s p) =? 0) (unready p)) (λ _ s', sched_frame s s' ∧ switching s' = switching s ∧
    ∃ Q', queues_rep s' Q' ∧ mem_ok_but p s' Q' ∧ p ∉ Q' (qof (procs s' p) p) ∧
      (cur_ok s Q → cur_ok s' Q') ∧
      (p_flags (procs s p) = 0 → cur_ok s Q → isidlehardware p = false → proc_ptr s' ≠ p) ∧
      (proc_ptr s ≠ p → proc_ptr s' = proc_ptr s)) s.
Proof.
  intros HQ Hm Hok Hg. apply wp_when.
  - intros Ef%Z.eqb_eq. eapply wp_mono; [by apply (unready_run s Q p _ HQ eq_refl)|].
    cbn beta. intros [] s' (Hfr & HQ' & Ep & Esw). split; [done|]. split; [done|].
    set (q := qof (procs s p) p) in *. exists (spec_unready q p Q). split; [done|].
    pose proof Hfr as [He Eo]. split_and!.
    + intros x Hx Hne. destruct (peq_fields _ _ He x) as (-> & _). rewrite (erase_qof _ _ x (He x)), spec_unready_in.
      rewrite <- (Hm x Hx). naive_solver.
    + rewrite (erase_qof _ _ p (He p)), spec_unready_in. naive_solver.
    + intros Hcur. unfold next_cur in Ep. destruct (decide (p = proc_ptr s)) as [Epp|Hne].
      * destruct Hcur as [Hi|(Hcok & Hh & Hsh)].
        { rewrite Hi in Epp. rewrite bool_decide_false in Ep; [left; cbn in Ep; congruence|].
          intros Hh. assert (Hin : p ∈ Q q) by (destruct (Q q); [done|injection Hh as ->; left]).
          apply (Hm p Hok) in Hin as [_ Hin]. by rewrite Epp in Hin. }
        rewrite bool_decide_true, (proj2 (Z.eqb_eq _ _) Epp) in Ep by (unfold q; by rewrite Epp).
        by apply pick_cur.
      * rewrite (proj2 (Z.eqb_neq _ _) Hne), andb_false_r in Ep.
        destruct Hcur as [Hi|(Hcok & Hh & Hsh)]; [left; congruence|]. right.
        rewrite Ep, (erase_qof _ _ _ (He _)). split_and!; try done. unfold spec_unready.
        destruct (decide (q = qof (procs s (proc_ptr s)) (proc_ptr s))) as [Eq|Hne'];
          [|by rewrite fn_lookup_insert_ne].
        rewrite <- Eq, fn_lookup_insert. rewrite <- Eq in Hh.
        destruct (Q q) as [|c l]; [done|]. injection Hh as ->. by rewrite filter_cons_True.
    + intros _ Hcur Hid. unfold next_cur in Ep. destruct (decide (p = proc_ptr s)) as [Epp|Hne].
      * destruct Hcur as [Hi|(Hcok & Hh & Hsh)]; [by rewrite Epp, Hi in Hid|].
        rewrite bool_decide_true, (proj2 (Z.eqb_eq _ _) Epp) in Ep by (unfold q; by rewrite Epp).
        intros Hpp. destruct (pick_cur s' _ HQ' Ep) as [Hi|(_ & Hh' & _)]; [by rewrite <- Hpp, Hi in Hid|].
        rewrite Hpp in Hh'. assert (Hin : p ∈ spec_unready q p Q (qof (procs s' p) p)).
        { destruct (spec_unready q p Q (qof (procs s' p) p)); [done|]. injection Hh' as ->. left. }
        rewrite (erase_qof _ _ p (He p)), spec_unready_in in Hin. naive_solver.
      * rewrite (proj2 (Z.eqb_neq _ _) Hne), andb_false_r in Ep. congruence.
    + intros Hne. unfold next_cur in Ep. by rewrite (proj2 (Z.eqb_neq _ _) (not_eq_sym Hne)), andb_false_r in Ep.
  - intros Ef%Z.eqb_neq. split; [done|]. split; [done|]. exists Q. split_and!; try done.
    + intros x Hx _. by apply Hm.
    + rewrite (Hm p Hok). naive_solver.
Qed.

(** Setting fields of [p] other than its shadow and link, after which it is not runnable. *)
Lemma mem_ok_set s Q p r :
  queues_rep s Q → mem_ok_but p s Q → p ∉ Q (qof (procs s p) p) →
  p_shadow r = p_shadow (procs s p) → p_nextready r = p_nextready (procs s p) →
  queues_rep (s <| procs := <[p := r]> (procs s) |>) Q ∧
  (p_flags r ≠ 0 → mem_ok (s <| procs := <[p := r]> (procs s) |>) Q) ∧
  mem_ok_but p (s <| procs := <[p := r]> (procs s) |>) Q ∧
  (cur_ok s Q → cur_ok (s <| procs := <[p := r]> (procs s) |>) Q).
Proof.
  intros HQ Hm Hp Es En.
  assert (Hqof : ∀ x, qof ((<[p := r]> (procs s)) x) x = qof (procs s x) x).
  { intros x. destruct (decide (p = x)) as [<-|]; [|by rewrite fn_lookup_insert_ne].
    rewrite fn_lookup_insert. by apply qof_shadow. }
  split_and!.
  - intros q Hq. destruct (HQ q Hq) as [[Hch Ht] Hmm]. split; [split|].
    + eapply lseg_ext, Hch. intros k _. unfold nextready; cbn.
      destruct (decide (p = k)) as [<-|]; [by rewrite fn_lookup_insert|by rewrite fn_lookup_insert_ne].
    + done.
    + intros x Hx. cbn. rewrite Hqof. by apply Hmm.
  - intros Hf x Hx. cbn. rewrite Hqof. destruct (decide (p = x)) as [<-|].
    + rewrite fn_lookup_insert. naive_solver.
    + rewrite fn_lookup_insert_ne by done. by apply Hm.
  - intros x Hx Hne. cbn. rewrite Hqof. rewrite fn_lookup_insert_ne by done. by apply Hm.
  - apply cur_ok_ext; [done|]. intros i. cbn. destruct (decide (p = i)) as [<-|]; [by rewrite fn_lookup_insert|by rewrite fn_lookup_insert_ne].
Qed.
End block.

(** ** The send graph *)
Section graph.
Implicit Types (t : ptable).

Lemma callers_notin t d L p : callers_of t d L → sendnext t p = None → p ∉ L.
Proof. intros [_ Hm] Hn Hp. apply Hm in Hp as [_ Hp]. congruence. Qed.

Lemma callers_NoDup t d L : callers_of t d L → NoDup L.
Proof. intros [Hc _]. by eapply chain_NoDup. Qed.

Lemma callers_length t d L : callers_of t d L → (length L ≤ 75)%nat.
Proof.
  intros HL. apply ok_length; [by eapply callers_NoDup|]. intros p Hp. by apply HL in Hp as [? _].
Qed.

Lemma callers_disjoint t d d' L L' p : callers_of t d L → callers_of t d' L' → p ∈ L → p ∈ L' → d = d'.
Proof. intros [_ H1] [_ H2] [_ ?]%H1 [_ ?]%H2. congruence. Qed.

Lemma path_ok t x P : ipc_ok t → isokprocn x = true → chain (sendnext t) (Some x) P →
  ∀ y, y ∈ P → isokprocn y = true.
Proof.
  intros Ht. revert x. induction P as [|z P IH]; intros x Hx Hch y Hy; [by apply elem_of_nil in Hy|].
  destruct Hch as [[= <-] Hch]. apply elem_of_cons in Hy as [->|Hy]; [done|].
  destruct (sendnext t x) as [w|] eqn:E; [|apply chain_None in Hch as ->; by apply elem_of_nil in Hy].
  eapply (IH w); [|done..]. by destruct (ipc_dest _ Ht x w Hx E).
Qed.

Lemma path_length t x P : ipc_ok t → isokprocn x = true → chain (sendnext t) (Some x) P → (length P ≤ 75)%nat.
Proof. intros Ht Hx Hch. apply ok_length; [by eapply chain_NoDup|by eapply path_ok]. Qed.

(** A new edge from [c], which was not sending, to [d], from which it is not reached. *)
Lemma path_add_edge nx c d P x L :
  nx c = None → chain nx (Some d) P → c ∉ P → chain nx (Some x) L →
  ∃ L', chain (relink nx c (Some d)) (Some x) L'.
Proof.
  intros Hc HP HcP HL. destruct (decide (c ∈ L)) as [Hin|]; [|exists L; by apply lseg_relink].
  apply list_elem_of_split in Hin as (l1 & l2 & ->).
  pose proof (chain_NoDup _ _ _ HL) as (_ & Hd & _)%NoDup_app.
  apply lseg_app in HL as (m & H1 & -> & H2). rewrite Hc in H2. apply chain_None in H2 as ->.
  exists (l1 ++ c :: P). apply lseg_app. exists (Some c). split.
  - apply lseg_relink; [|done]. intros ?. eapply Hd; set_solver.
  - split; [done|]. rewrite relink_same. by apply lseg_relink.
Qed.

(** Removing an edge. *)
Lemma path_del_edge nx c x L :
  chain nx (Some x) L → ∃ L', chain (relink nx c None) (Some x) L'.
Proof.
  intros HL. destruct (decide (c ∈ L)) as [Hin|]; [|exists L; by apply lseg_relink].
  apply list_elem_of_split in Hin as (l1 & l2 & ->).
  pose proof (chain_NoDup _ _ _ HL) as (_ & Hd & _)%NoDup_app.
  apply lseg_app in HL as (m & H1 & -> & H2).
  exists (l1 ++ [c]). apply lseg_app. exists (Some c). split.
  - apply lseg_relink; [|done]. intros ?. eapply Hd; set_solver.
  - split; [done|]. by rewrite relink_same.
Qed.

(** [c] blocks sending to [d] and is queued behind the callers [L]. *)
Lemma ipc_block t t' c d L P :
  ipc_ok t → isokprocn c = true → isokprocn d = true → sendnext t c = None →
  callers_of t d L → chain (sendnext t) (Some d) P → c ∉ P →
  (isuserp c = true → issysentn d = true) →
  (∀ i, sendnext t' i = relink (sendnext t) c (Some d) i) →
  (∀ i, p_callerq (t' i) = if decide (i = d) then head (L ++ [c]) else p_callerq (t i)) →
  (∀ i, sendlink t' i = match last L with
                        | Some y => relink (relink (sendlink t) y (Some c)) c None i
                        | None => relink (sendlink t) c None i
                        end) →
  (∀ i, istaskp i = true → isokprocn i = true → task_flags (p_flags (t' i))) →
  (∀ i, isokprocn i = true → has (p_flags (t' i)) PENDING = true → has (p_flags (t' i)) SIG_PENDING = true) →
  (∀ i, isokprocn i = true → sending (t' i) = true → has (p_flags (t' i)) RECEIVING = true → p_getfrom (t' i) ≠ ANY) →
  ipc_ok t' ∧ callers_of t' d (L ++ [c]) ∧
  (∀ d' L', d' ≠ d → callers_of t d' L' → callers_of t' d' L').
Proof.
  intros Ht Hc Hd Hnc HL HP HcP Hus Hsn Hcq Hsl Htask Hpend Hboth.
  pose proof (callers_notin _ _ _ _ HL Hnc) as HcL.
  assert (Hcall : callers_of t' d (L ++ [c])).
  { split.
    - rewrite Hcq, decide_True by done. destruct HL as [HL _].
      destruct L as [|y L _] using rev_ind; cbn [app].
      + split; [done|]. rewrite Hsl. cbn. by rewrite relink_same.
      + pose proof (chain_head _ _ _ HL) as Eh. replace (head ((L ++ [y]) ++ [c])) with (p_callerq (t d)).
        2:{ rewrite Eh. by destruct L. }
        rewrite <- app_assoc. cbn [app]. eapply lseg_ext, (chain_snoc _ _ L y c HcL HL).
        intros k _. by rewrite Hsl, last_snoc.
    - intros p. rewrite elem_of_app, list_elem_of_singleton, Hsn. destruct (proj2 HL p) as [H1 H2].
      destruct (decide (p = c)) as [->|Hne]; [rewrite relink_same; tauto|rewrite relink_ne by done; tauto]. }
  assert (Hother : ∀ d' L', d' ≠ d → callers_of t d' L' → callers_of t' d' L').
  { intros d' L' Hne [HL' Hm']. split.
    - rewrite Hcq, decide_False by done. eapply lseg_ext, HL'. intros k Hk. rewrite Hsl.
      assert (k ≠ c) by (intros ->; apply Hm' in Hk as [_ ?]; congruence).
      destruct (last L) as [y|] eqn:El; [|by rewrite relink_ne].
      rewrite !relink_ne; [done| |done]. intros ->. apply last_Some in El as [l ->].
      apply Hne. eapply (callers_disjoint t _ _ _ _ y); [by split|exact HL|done|set_solver].
    - intros p. rewrite Hm', Hsn. destruct (decide (p = c)) as [->|]; [|by rewrite relink_ne].
      rewrite relink_same. naive_solver. }
  split; [|done]. split; try done.
  - intros d' Hd'. destruct (decide (d' = d)) as [->|Hne]; [eauto|].
    destruct (ipc_callers _ Ht d' Hd') as [L' HL']. eauto.
  - intros p x Hp. rewrite Hsn. destruct (decide (p = c)) as [->|]; [rewrite relink_same; by intros [= <-]|].
    rewrite relink_ne by done. by apply Ht.
  - intros p Hp. destruct (ipc_acyclic _ Ht p Hp) as [Lp HLp].
    destruct (path_add_edge _ c d P p Lp Hnc HP HcP HLp) as [L' HL']. exists L'.
    eapply lseg_ext, HL'. intros k _. apply Hsn.
Qed.

(** The caller [y] of [d] is taken off the queue and no longer blocked. *)
Lemma ipc_unblock t t' d A y B :
  ipc_ok t → callers_of t d (A ++ y :: B) →
  (∀ i, sendnext t' i = relink (sendnext t) y None i) →
  (∀ i, p_callerq (t' i) = if decide (i = d) then head (A ++ B) else p_callerq (t i)) →
  (∀ i, sendlink t' i = match last A with
                        | Some x => relink (sendlink t) x (sendlink t y) i
                        | None => sendlink t i
                        end) →
  (∀ i, istaskp i = true → isokprocn i = true → task_flags (p_flags (t' i))) →
  (∀ i, isokprocn i = true → has (p_flags (t' i)) PENDING = true → has (p_flags (t' i)) SIG_PENDING = true) →
  (∀ i, isokprocn i = true → sending (t' i) = true → has (p_flags (t' i)) RECEIVING = true → p_getfrom (t' i) ≠ ANY) →
  ipc_ok t' ∧ callers_of t' d (A ++ B) ∧
  (∀ d' L', d' ≠ d → callers_of t d' L' → callers_of t' d' L').
Proof.
  intros Ht HL Hsn Hcq Hsl Htask Hpend Hboth. pose proof (callers_NoDup _ _ _ HL) as Hnd.
  assert (Hcall : callers_of t' d (A ++ B)).
  { destruct HL as [HL Hm]. split.
    - rewrite Hcq, decide_True by done. destruct A as [|x A _] using rev_ind; cbn [app].
      + destruct HL as [_ HL]. rewrite <- (chain_head _ _ _ HL). eapply lseg_ext, HL. intros k _. by rewrite Hsl.
      + rewrite <- app_assoc in HL |- *. cbn [app] in HL |- *.
        replace (head (A ++ x :: B)) with (p_callerq (t d)).
        2:{ rewrite (chain_head _ _ _ HL). by destruct A. }
        eapply lseg_ext, (chain_delete_after _ _ A x y B HL). intros k _. by rewrite Hsl, last_snoc.
    - intros p. rewrite Hsn. assert (Hyn : y ∉ A ++ B).
      { apply NoDup_app in Hnd as (_ & Hd1 & [? _]%NoDup_cons). intros [?|?]%elem_of_app; [|done].
        eapply Hd1; set_solver. }
      destruct (decide (p = y)) as [->|Hne]; [rewrite relink_same; naive_solver|].
      rewrite relink_ne by done. rewrite <- Hm. set_solver. }
  assert (Hother : ∀ d' L', d' ≠ d → callers_of t d' L' → callers_of t' d' L').
  { intros d' L' Hne [HL' Hm']. split.
    - rewrite Hcq, decide_False by done. eapply lseg_ext, HL'. intros k Hk. rewrite Hsl.
      destruct (last A) as [x|] eqn:El; [|done]. rewrite relink_ne; [done|].
      intros ->. apply last_Some in El as [l ->].
      apply Hne. eapply (callers_disjoint t _ _ _ _ x); [by split|exact HL|done|set_solver].
    - intros p. rewrite Hm', Hsn. destruct (decide (p = y)) as [->|]; [|by rewrite relink_ne].
      rewrite relink_same. assert (sendnext t y = Some d) by (apply HL; set_solver). naive_solver. }
  split; [|done]. split; try done.
  - intros d' Hd'. destruct (decide (d' = d)) as [->|Hne]; [eauto|].
    destruct (ipc_callers _ Ht d' Hd') as [L' HL']. eauto.
  - intros p x Hp. rewrite Hsn. destruct (decide (p = y)) as [->|]; [by rewrite relink_same|].
    rewrite relink_ne by done. by apply Ht.
  - intros p Hp. destruct (ipc_acyclic _ Ht p Hp) as [Lp HLp].
    destruct (path_del_edge _ y p Lp HLp) as [L' HL']. exists L'.
    eapply lseg_ext, HL'. intros k _. apply Hsn.
Qed.
End graph.

(** ** The searches *)
Section searches.
Implicit Types (s : kernel) (Q : queues).

Lemma deadlock_loop s caller fuel x P :
  ipc_ok (procs s) → isokprocn x = true → chain (sendnext (procs s)) (Some x) P → (length P ≤ fuel)%nat →
  wp (loop fuel (deadlock_step caller) x) (λ r s', s' = s ∧ r = bool_decide (caller ∈ P)) s.
Proof.
  intros Ht. revert x P. induction fuel as [|fuel IH]; intros x P Hx Hch Hlen.
  { destruct P; [done|cbn in Hlen; lia]. }
  destruct P as [|z P]; [done|]. destruct Hch as [[= <-] Hch].
  rewrite loop_unfold. k_step. unfold deadlock_step. destruct (Z.eqb_spec x caller) as [->|Hne].
  { k_step. k_step. split; [done|]. rewrite bool_decide_true by left. done. }
  do 2 k_step. change (has (p_flags (procs s x)) SENDING) with (sending (procs s x)).
  destruct (sending (procs s x)) eqn:Es.
  - assert (En : sendnext (procs s) x = Some (p_sendto (procs s x))) by (unfold sendnext; by rewrite Es).
    destruct (ipc_dest _ Ht x _ Hx En) as [Hok _]. rewrite (proc_addr_ok _ Hok). k_step. k_step. k_step. cbv iota.
    rewrite En in Hch. eapply wp_mono; [by apply (IH _ P); [..|cbn in Hlen; lia]|].
    cbn beta. intros r s' [-> ->]. split; [done|]. apply bool_decide_ext. set_solver.
  - assert (En : sendnext (procs s) x = None) by (unfold sendnext; by rewrite Es).
    rewrite En in Hch. apply chain_None in Hch as ->. do 2 k_step. split; [done|].
    symmetry. apply bool_decide_false. set_solver.
Qed.

Lemma last_caller_loop s fuel x R :
  chain (sendlink (procs s)) (Some x) (x :: R) → (length R < fuel)%nat →
  wp (loop fuel last_caller_step x) (λ r s', s' = s ∧ last (x :: R) = Some r) s.
Proof.
  revert x R. induction fuel as [|fuel IH]; intros x R Hch Hlen; [lia|].
  destruct Hch as [_ Hch]. rewrite loop_unfold. k_step. unfold last_caller_step. k_step. k_step.
  unfold sendlink in Hch at 2. rewrite (chain_head _ _ _ Hch) in Hch |- *.
  destruct R as [|y R]; cbn [head] in *; cbv iota; k_step; cbv iota; [by k_step|].
  eapply wp_mono; [apply (IH y R); [done|cbn in Hlen; lia]|].
  cbn beta. intros r s' [-> El]. split; [done|]. by rewrite last_cons_cons.
Qed.

(** Changes of other fields. *)
Lemma sched_ext s s' Q :
  (∀ i, p_shadow (procs s' i) = p_shadow (procs s i) ∧ p_nextready (procs s' i) = p_nextready (procs s i) ∧
        p_flags (procs s' i) = p_flags (procs s i)) →
  rdy_head s' = rdy_head s → rdy_tail s' = rdy_tail s → proc_ptr s' = proc_ptr s →
  (queues_rep s Q → queues_rep s' Q) ∧ (mem_ok s Q → mem_ok s' Q) ∧ (cur_ok s Q → cur_ok s' Q).
Proof.
  intros Hf Eh Et Ep. split_and!.
  - intros HQ q Hq. destruct (HQ q Hq) as [[Hch Ht] Hm]. split; [split|].
    + rewrite Eh. eapply lseg_ext, Hch. intros k _. apply (Hf k).
    + by rewrite Et.
    + intros p Hp. destruct (Hf p) as (Es & _). rewrite (qof_shadow _ _ _ Es). by apply Hm.
  - intros Hm p Hp. destruct (Hf p) as (Es & _ & ->). rewrite (qof_shadow _ _ _ Es). by apply Hm.
  - apply cur_ok_ext; [done|]. intros i. apply (Hf i).
Qed.
End searches.

(** Reading back one updated entry of the process table. *)
Ltac fn_cases i p :=
  destruct (decide (p = i)) as [<-|];
  [rewrite ?fn_lookup_insert|rewrite ?fn_lookup_insert_ne by done].

(** ** mini_send *)

(** What sending leaves alone. *)
Definition send_frame (s s' : kernel) : Prop :=
  (∀ i, p_pending (procs s' i) = p_pending (procs s i) ∧ p_pendcount (procs s' i) = p_pendcount (procs s i) ∧
        p_getfrom (procs s' i) = p_getfrom (procs s i) ∧ p_int_held (procs s' i) = p_int_held (procs s i) ∧
        p_nextheld (procs s' i) = p_nextheld (procs s i) ∧ p_shadow (procs s' i) = p_shadow (procs s i) ∧
        p_map_D (procs s' i) = p_map_D (procs s i) ∧
        ∀ m, Z.land SENDING m = 0 → Z.land RECEIVING m = 0 →
          has (p_flags (procs s' i)) m = has (p_flags (procs s i)) m) ∧
  held_head s' = held_head s ∧ held_tail s' = held_tail s ∧ k_reenter s' = k_reenter s ∧
  switching s' = switching s ∧ sig_procs s' = sig_procs s ∧ sys_m s' = sys_m s.

(** The queue of held interrupts is untouched. *)
Definition held_frame (s s' : kernel) : Prop :=
  (∀ i, p_int_held (procs s' i) = p_int_held (procs s i) ∧ p_nextheld (procs s' i) = p_nextheld (procs s i)) ∧
  held_head s' = held_head s ∧ held_tail s' = held_tail s.

(** The message of [src] at [m] is copied into the buffer [to] of [d]. *)
Definition delivered (s s' : kernel) (src m d to : Z) : Prop :=
  mess s' = <[mess_addr (procs s d) to :=
                (mess s (mess_addr (procs s src) m)) <| m_source := src |>]> (mess s).

(** The possible outcomes of [mini_send]. *)
Inductive send_spec (s : kernel) (c d m : Z) : Z → kernel → Prop :=
| send_bad_dest :
    (isuserp c && negb (issysentn d)) || has (p_flags (procs s d)) P_SLOT_FREE = true →
    send_spec s c d m E_BAD_DEST s
| send_fault :
    (isuserp c && negb (issysentn d)) || has (p_flags (procs s d)) P_SLOT_FREE = false →
    mess_ok (procs s c) m = false → send_spec s c d m EFAULT s
| send_locked P :
    (isuserp c && negb (issysentn d)) || has (p_flags (procs s d)) P_SLOT_FREE = false →
    mess_ok (procs s c) m = true →
    chain (sendnext (procs s)) (Some d) P → c ∈ P → send_spec s c d m ELOCKED s
| send_deliver P s' :
    (isuserp c && negb (issysentn d)) || has (p_flags (procs s d)) P_SLOT_FREE = false →
    mess_ok (procs s c) m = true →
    chain (sendnext (procs s)) (Some d) P → c ∉ P → waiting_for (procs s d) c = true →
    delivered s s' c m d (p_messbuf (procs s d)) →
    peq (<[d := (procs s d) <| p_flags := clrf (p_flags (procs s d)) RECEIVING |>]> (procs s)) (procs s') →
    send_spec s c d m OK s'
| send_block P L s' :
    (isuserp c && negb (issysentn d)) || has (p_flags (procs s d)) P_SLOT_FREE = false →
    mess_ok (procs s c) m = true →
    chain (sendnext (procs s)) (Some d) P → c ∉ P → waiting_for (procs s d) c = false →
    mess s' = mess s →
    p_messbuf (procs s' c) = m → sendnext (procs s') c = Some d →
    callers_of (procs s) d L → callers_of (procs s') d (L ++ [c]) →
    (∀ d' L', d' ≠ d → callers_of (procs s) d' L' → callers_of (procs s') d' L') →
    send_spec s c d m OK s'.

Section send.
Implicit Types (s : kernel) (Q : queues).

Lemma send_held s s' : send_frame s s' → held_frame s s'.
Proof.
  intros [H (Eh & Et & _)]. split; [|done]. intros i. destruct (H i) as (_ & _ & _ & -> & -> & _). done.
Qed.

Lemma held_frame_refl s : held_frame s s.
Proof. done. Qed.

Lemma held_frame_trans s1 s2 s3 : held_frame s1 s2 → held_frame s2 s3 → held_frame s1 s3.
Proof.
  intros (H1 & ? & ?) (H2 & ? & ?). split_and!; [|congruence..].
  intros i. destruct (H1 i), (H2 i). split; congruence.
Qed.

Lemma held_ok_frame s s' H : held_frame s s' → held_ok s H → held_ok s' H.
Proof.
  intros (Hf & Eh & Et) (Hc & Ht & Hm). split_and!.
  - rewrite Eh. eapply lseg_ext, Hc. intros k _. apply (Hf k).
  - by rewrite Et.
  - intros p Hp. destruct (Hf p) as [-> _]. by apply Hm.
Qed.

Lemma send_frame_refl s : send_frame s s.
Proof. done. Qed.

Lemma sched_send_frame s s' : sched_frame s s' → switching s' = switching s → send_frame s s'.
Proof.
  intros [He Eo] Esw. unfold others in Eo. injection Eo as ????????. split; [|done].
  intros i. destruct (peq_fields _ _ He i) as (Ef & _ & _ & _ & Eg & _ & Es & _ & ED & _ & En & Eh & Ep & Ec & _).
  rewrite Ef. done.
Qed.

Lemma send_frame_trans s1 s2 s3 : send_frame s1 s2 → send_frame s2 s3 → send_frame s1 s3.
Proof.
  intros [H1 E1] [H2 E2]. split.
  - intros i. destruct (H1 i) as (?&?&?&?&?&?&?&F1), (H2 i) as (?&?&?&?&?&?&?&F2).
    split_and!; try congruence. intros m ??. rewrite F2 by done. by apply F1.
  - destruct E1 as (?&?&?&?&?&?), E2 as (?&?&?&?&?&?). split_and!; congruence.
Qed.

Lemma wp_cp_mess a b c d e s (Φ : unit → kernel → Prop) :
  Φ tt (s <| mess := <[mess_addr (procs s d) e := (mess s (mess_addr (procs s b) c)) <| m_source := a |>]> (mess s) |>) →
  wp (cp_mess a b c d e) Φ s.
Proof. done. Qed.

(** Clear a flag of [p], whose flags are not all clear, and ready it if no other is left. *)
Lemma wp_unblock s Q p m {A} (k : KM A) Φ :
  queues_rep s Q → mem_ok s Q → isokprocn p = true → p_flags (procs s p) ≠ 0 → isidlehardware p = false →
  (∀ s' Q', peq (<[p := (procs s p) <| p_flags := clrf (p_flags (procs s p)) m |>]> (procs s)) (procs s') →
     others s' = others s → switching s' = switching s → queues_rep s' Q' → mem_ok s' Q' →
     (isuserp (proc_ptr s') = true → proc_ptr s' = proc_ptr s) →
     (proc_ptr s = IDLE ∨ isuserp p = false ∨ isuserp (proc_ptr s) = false → cur_ok s Q → cur_ok s' Q') →
     wp k Φ s') →
  wp (setp p (λ r, r <| p_flags := clrf (p_flags r) m |>);;
      f ← fld p_flags p; when (f =? 0) (ready p);; k) Φ s.
Proof.
  intros HQ Hm Hok Hf Hid Hk.
  assert (Hp : p ∉ Q (qof (procs s p) p)) by (rewrite (Hm p Hok); naive_solver).
  set (r := (procs s p) <| p_flags := clrf (p_flags (procs s p)) m |>).
  destruct (mem_ok_set s Q p r HQ (λ x Hx _, Hm x Hx) Hp eq_refl eq_refl) as (HQ2 & _ & Hm2 & Hcur2).
  do 5 k_step. eapply wp_mono.
  { apply (ready_when _ Q p HQ2 Hm2); [|done..]. cbn. by rewrite fn_lookup_insert. }
  cbn beta. intros [] s' ([He Eo] & Esw & Q' & HQ' & Hm' & Hpp & Hcur'). apply (Hk s' Q'); try done. tauto.
Qed.

(** Take [p] off its queue if it can run, then set fields that block it. *)
Lemma wp_block s Q p (g1 g2 : proc → proc) {A} (k : KM A) Φ :
  queues_rep s Q → mem_ok s Q → isokprocn p = true →
  (istaskp p = true → p_stguard (procs s p) = STACK_GUARD) →
  (∀ r, p_shadow (g1 r) = p_shadow r ∧ p_nextready (g1 r) = p_nextready r ∧
        p_flags (g1 r) = p_flags r ∧ p_stguard (g1 r) = p_stguard r) →
  (∀ r, p_shadow (g2 r) = p_shadow r ∧ p_nextready (g2 r) = p_nextready r ∧ p_flags (g2 r) ≠ 0) →
  (∀ r r', erase r' = erase r → erase (g2 r') = erase (g2 r)) →
  (∀ s' Q', peq (<[p := g2 (g1 (procs s p))]> (procs s)) (procs s') →
     others s' = others s → switching s' = switching s → queues_rep s' Q' → mem_ok s' Q' →
     (cur_ok s Q → cur_ok s' Q') → 
     (p_flags (procs s p) = 0 → cur_ok s Q → isidlehardware p = false → proc_ptr s' ≠ p) → wp k Φ s') →
  wp (setp p g1;; f ← fld p_flags p; when (f =? 0) (unready p);; setp p g2;; k) Φ s.
Proof.
  intros HQ Hm Hok Hg H1 H2 H3 Hk. destruct (H1 (procs s p)) as (Es1 & En1 & Ef1 & Eg1).
  set (s1 := s <| procs := <[p := g1 (procs s p)]> (procs s) |>).
  assert (Hlk : procs s1 p = g1 (procs s p)) by (cbn; by rewrite fn_lookup_insert).
  destruct (sched_ext s s1 Q) as (HQ1 & Hm1 & Hc1); [|done..|].
  { intros i. cbn. fn_cases i p; auto. }
  do 5 k_step. fold s1. eapply wp_mono.
  { apply (unready_when s1 Q p (HQ1 HQ) (Hm1 Hm) Hok). rewrite Hlk, Eg1. done. }
  cbn beta. intros [] s2 ([He Eo] & Esw & Q2 & HQ2 & Hm2 & Hp2 & Hc2 & Hpp & _).
  do 2 k_step. destruct (H2 (procs s2 p)) as (Es2 & En2 & Ef2).
  destruct (mem_ok_set s2 Q2 p (g2 (procs s2 p)) HQ2 Hm2 Hp2 Es2 En2) as (HQ3 & Hm3 & _ & Hc3).
  apply (Hk _ Q2); [|exact Eo|exact Esw|exact HQ3|by apply Hm3|by auto|].
  - intros i. cbn. specialize (He i). fn_cases i p.
    + apply H3. rewrite He, Hlk. done.
    + rewrite He. cbn. by rewrite fn_lookup_insert_ne.
  - rewrite Hlk, Ef1 in Hpp. cbn. auto.
Qed.

(** Clearing RECEIVING does not touch the send graph. *)
Lemma ipc_ok_receiving t d f :
  ipc_ok t → has f SENDING = has (p_flags (t d)) SENDING →
  (istaskp d = true → isokprocn d = true → task_flags f) →
  (has f PENDING = has (p_flags (t d)) PENDING ∧ has f SIG_PENDING = has (p_flags (t d)) SIG_PENDING) →
  has f RECEIVING = false →
  ipc_ok (<[d := (t d) <| p_flags := f |>]> t).
Proof.
  intros Ht Hs Htask [Hp Hsp] Hrec. apply (ipc_ok_ext t); [done|..].
  - intros i. unfold sendnext, sending. fn_cases i d; [|done]. cbn. by rewrite Hs.
  - intros i. fn_cases i d; [by cbn; auto|apply Ht].
  - intros i. fn_cases i d; [|apply Ht]. cbn. rewrite Hp, Hsp. apply Ht.
  - intros i. fn_cases i d; [|apply Ht]. cbn. by rewrite Hrec.
Qed.

Lemma waiting_facts s d c : static_ok s → waiting_for (procs s d) c = true →
  has (p_flags (procs s d)) RECEIVING = true ∧ has (p_flags (procs s d)) SENDING = false ∧
  isidlehardware d = false.
Proof.
  intros Hst Hw. unfold waiting_for in Hw. apply andb_true_iff in Hw as [Hw _].
  apply waiting_flags in Hw as [Hr Hs]. split_and!; try done.
  destruct (isidlehardware d) eqn:E; [|done]. by rewrite (st_idle _ Hst _ E), has_0 in Hr.
Qed.

Lemma others_fields s s' : others s' = others s →
  held_head s' = held_head s ∧ held_tail s' = held_tail s ∧ k_reenter s' = k_reenter s ∧
  sig_procs s' = sig_procs s ∧ mess s' = mess s ∧ sys_m s' = sys_m s.
Proof. unfold others. intros Eo. by injection Eo as -> -> -> -> -> -> _ _. Qed.

(** The rendezvous: [dest] was waiting for the message. *)
Lemma deliver_run s Q c d m :
  kcore s Q → isokprocn d = true → waiting_for (procs s d) c = true →
  wp (cp_mess c c m d (p_messbuf (procs s d));;
      setp d (λ r, r <| p_flags := clrf (p_flags r) RECEIVING |>);;
      f ← fld p_flags d;
      when (f =? 0) (ready d);;
      mret OK) (λ r s', r = OK ∧
        delivered s s' c m d (p_messbuf (procs s d)) ∧
        peq (<[d := (procs s d) <| p_flags := clrf (p_flags (procs s d)) RECEIVING |>]> (procs s)) (procs s') ∧
        send_frame s s' ∧
        (isuserp (proc_ptr s') = true → proc_ptr s' = proc_ptr s) ∧
        ∃ Q', kcore s' Q' ∧
          (proc_ptr s = IDLE ∨ isuserp d = false ∨ isuserp (proc_ptr s) = false → cur_ok s Q → cur_ok s' Q')) s.
Proof.
  intros [HQ Hm Hi Hst] Hd Hw. destruct (waiting_facts s d c Hst Hw) as (Hr & Hs & Hid).
  k_step. apply wp_cp_mess. set (s1 := s <| mess := _ |>).
  apply (wp_unblock s1 Q d RECEIVING); [done|done|done|by apply (has_nonzero _ RECEIVING)|done|].
  intros s' Q' He Eo Esw HQ' Hm' Hpp Hcur. k_step. change (procs s1) with (procs s) in He.
  apply others_fields in Eo as (Eh & Et & Ek & Esp & Em & Esm).
  set (t1 := <[d := _]> (procs s)) in He. pose proof (peq_fields _ _ He) as Hf.
  assert (Hfr : send_frame s s').
  { split; [|done]. intros i.
    destruct (Hf i) as (-> & _ & _ & _ & -> & _ & -> & _ & -> & _ & -> & -> & -> & -> & _).
    unfold t1. fn_cases i d; [|done]. split_and!; try done. intros m' _ Hm2. cbn. by apply has_clrf_other. }
  split_and!; try done. exists Q'. split; [|done]. split; [done|done| |].
  - eapply ipc_ok_peq; [exact He|]. apply ipc_ok_receiving; [done|by apply has_clrf_other| | |].
    + intros ??. apply task_flags_clrf. by apply Hi.
    + split; by apply has_clrf_other.
    + apply has_clrf_same.
  - apply (static_ok_ext s); [done|done| |by apply Hfr].
    intros i. destruct (Hf i) as (-> & _ & _ & _ & _ & _ & -> & -> & -> & -> & _). unfold t1.
    fn_cases i d; [|done]. split_and!; try done. intros _ Hz. cbn. by rewrite Hz, clrf_0.
Qed.
End send.

(** Equal up to the caller queue and its links. *)
Definition erase_links (r : proc) : proc := r <| p_callerq := None |> <| p_sendlink := None |>.

Section send2.
Implicit Types (s : kernel) (Q : queues).

Lemma erase_links_fields r r' : erase_links r' = erase_links r →
  p_flags r' = p_flags r ∧ p_sendto r' = p_sendto r ∧ p_getfrom r' = p_getfrom r ∧
  p_messbuf r' = p_messbuf r ∧ p_shadow r' = p_shadow r ∧ p_stguard r' = p_stguard r ∧
  p_map_D r' = p_map_D r ∧ p_map_S r' = p_map_S r ∧ p_nextheld r' = p_nextheld r ∧
  p_int_held r' = p_int_held r ∧ p_pending r' = p_pending r ∧ p_pendcount r' = p_pendcount r ∧
  p_nextready r' = p_nextready r.
Proof. destruct r, r'. unfold erase_links. cbn. intros E. by injection E. Qed.

(** The caller blocks and joins the queue of [d]. *)
Lemma block_caller_run s Q c d m P :
  kcore s Q → isokprocn c = true → isokprocn d = true → c ≠ d → p_flags (procs s c) = 0 →
  isidlehardware c = false → chain (sendnext (procs s)) (Some d) P → c ∉ P →
  (isuserp c = true → issysentn d = true) →
  wp (block_caller c d d m) (λ _ s', mess s' = mess s ∧ p_messbuf (procs s' c) = m ∧
     sendnext (procs s') c = Some d ∧ has (p_flags (procs s' c)) RECEIVING = false ∧
     (∃ L, callers_of (procs s) d L ∧ callers_of (procs s') d (L ++ [c])) ∧
     (∀ d' L', d' ≠ d → callers_of (procs s) d' L' → callers_of (procs s') d' L') ∧ send_frame s s' ∧
     ∃ Q', kcore s' Q' ∧ (cur_ok s Q → cur_ok s' Q') ∧ (cur_ok s Q → proc_ptr s' ≠ c)) s.
Proof.
  intros [HQ Hm Hi Hst] Hc Hd Hne Hf Hid HP HcP Hus.
  assert (Hnc : sendnext (procs s) c = None) by (unfold sendnext, sending; by rewrite Hf, has_0).
  destruct (ipc_callers _ Hi d Hd) as [L HL].
  unfold block_caller.
  apply (wp_block s Q c); try done.
  { intros Ht. by apply Hst. }
  { intros r. split_and!; try done. cbn. by apply setf_nonzero. }
  { intros r r' E. destruct r, r'. unfold erase in *. cbn in *. by injection E as -> -> -> -> -> -> -> -> -> -> -> -> -> -> -> -> -> ->. }
  intros s1 Q1 He Eo Esw HQ1 Hm1 Hcur Hpp. apply others_fields in Eo as (Eh & Et & Ek & Esp & Em & Esm).
  cbv beta in He. pose proof (peq_fields _ _ He) as Hf1.
  do 2 k_step.
  assert (Ecq : p_callerq (procs s1 d) = head L).
  { destruct (Hf1 d) as (_ & -> & _). rewrite fn_lookup_insert_ne by done. by apply (chain_head _ _ _ (proj1 HL)). }
  assert (Esl : ∀ i, sendlink (procs s1) i = sendlink (procs s) i).
  { intros i. unfold sendlink. destruct (Hf1 i) as (_ & _ & -> & _). by fn_cases i c. }
  rewrite Ecq. set (t1 := procs s1) in *.
  set (upq := match last L with
              | Some y => <[y := (t1 y) <| p_sendlink := Some c |>]> t1
              | None => <[d := (t1 d) <| p_callerq := Some c |>]> t1 end).
  k_step. eapply (wp_mono _ (λ _ s', s' = s1 <| procs := upq |>)).
  { unfold upq. destruct L as [|x R]; cbn [head]; [by k_step|].
    k_step. eapply wp_mono.
    { apply (last_caller_loop s1 proc_fuel x R).
      - destruct HL as [HL0 _]. pose proof (chain_head _ _ _ HL0) as E0. cbn [head] in E0. rewrite E0 in HL0.
        eapply lseg_ext, HL0. intros; apply Esl.
      - pose proof (callers_length _ _ _ HL) as Hlen. cbn in Hlen. unfold proc_fuel. lia. }
    cbn beta. intros y s' [-> El]. rewrite El. by k_step. }
  intros [] s2 ->. k_step. set (t5 := <[c := (upq c) <| p_sendlink := None |>]> upq).
  set (s5 := s1 <| procs := upq |> <| procs := _ |>).
  assert (HLc : c ∉ L) by (by eapply callers_notin).
  assert (HG : ∀ i, erase_links (t5 i) = erase_links (t1 i)).
  { intros i. unfold t5. fn_cases i c; unfold upq; destruct (last L) as [y|].
    - by fn_cases c y.
    - by fn_cases c d.
    - by fn_cases i y.
    - by fn_cases i d. }
  assert (Hsn : ∀ i, sendnext t5 i = relink (sendnext (procs s)) c (Some d) i).
  { intros i. unfold sendnext, sending. destruct (erase_links_fields _ _ (HG i)) as (-> & -> & _).
    destruct (Hf1 i) as (-> & _ & _ & -> & _). unfold relink. destruct (decide (i = c)) as [->|].
    - rewrite fn_lookup_insert. cbn. by rewrite has_setf_same.
    - by rewrite fn_lookup_insert_ne. }
  assert (Hcq : ∀ i, p_callerq (t5 i) = if decide (i = d) then head (L ++ [c]) else p_callerq (procs s i)).
  { intros i. transitivity (p_callerq (upq i)).
    { unfold t5. by fn_cases i c. }
    assert (E1 : ∀ i, p_callerq (t1 i) = p_callerq (procs s i)).
    { intros j. destruct (Hf1 j) as (_ & -> & _). by fn_cases j c. }
    unfold upq. destruct (last L) as [y|] eqn:El.
    - transitivity (p_callerq (t1 i)); [by fn_cases i y|]. rewrite E1. case_decide as Ed; [|done].
      subst i. rewrite <- E1. rewrite Ecq. by destruct L.
    - apply last_None in El as ->. case_decide as Ed; [subst i; by rewrite fn_lookup_insert|].
      rewrite fn_lookup_insert_ne by done. apply E1. }
  assert (Hsl : ∀ i, sendlink t5 i = match last L with
                        | Some y => relink (relink (sendlink (procs s)) y (Some c)) c None i
                        | None => relink (sendlink (procs s)) c None i
                        end).
  { intros i. unfold sendlink at 1, t5. destruct (decide (c = i)) as [<-|Hci].
    - rewrite fn_lookup_insert. destruct (last L); by rewrite relink_same.
    - rewrite fn_lookup_insert_ne by done. unfold upq. destruct (last L) as [y|]; rewrite relink_ne by done.
      + unfold relink. case_decide as Ey; [subst i; by rewrite fn_lookup_insert|].
        rewrite fn_lookup_insert_ne by done. apply Esl.
      + fn_cases i d; apply Esl. }
  assert (Hfl : ∀ i, p_flags (t5 i) = if decide (i = c) then setf 0 SENDING else p_flags (procs s i)).
  { intros i. destruct (erase_links_fields _ _ (HG i)) as (-> & _). destruct (Hf1 i) as (-> & _).
    case_decide as Ei; [subst i; rewrite fn_lookup_insert; cbn; by rewrite Hf|by rewrite fn_lookup_insert_ne]. }
  assert (Hfr : send_frame s s5).
  { split; [|done]. intros i. change (procs s5 i) with (t5 i). rewrite Hfl.
    destruct (erase_links_fields _ _ (HG i)) as (_ & _ & -> & _ & -> & _ & -> & _ & -> & -> & -> & -> & _).
    destruct (Hf1 i) as (_ & _ & _ & _ & -> & _ & -> & _ & -> & _ & -> & -> & -> & -> & _).
    fn_cases i c; [|by rewrite decide_False]. split_and!; try done.
    intros m' Hs _. rewrite decide_True, Hf by done. by rewrite has_setf_other. }
  destruct (ipc_block (procs s) t5 c d L P) as (Hi5 & HL5 & Ho5); try done.
  { intros i ??. rewrite Hfl. case_decide; [by apply task_flags_setf; [left|]|by apply Hi]. }
  { intros i ?. rewrite Hfl. case_decide; [done|by apply Hi]. }
  { intros i ?. unfold sending. rewrite Hfl. case_decide; [done|].
    destruct (erase_links_fields _ _ (HG i)) as (_ & _ & -> & _). destruct (Hf1 i) as (_ & _ & _ & _ & -> & _).
    rewrite fn_lookup_insert_ne by done. by apply Hi. }
  split_and!; try done.
  - change (procs s5 c) with (t5 c). destruct (erase_links_fields _ _ (HG c)) as (_ & _ & _ & -> & _).
    destruct (Hf1 c) as (_ & _ & _ & _ & _ & -> & _). by rewrite fn_lookup_insert.
  - change (procs s5) with t5. by rewrite Hsn, relink_same.
  - change (procs s5) with t5. rewrite Hfl. by rewrite decide_True.
  - by exists L.
  - exists Q1. destruct (sched_ext s1 s5 Q1) as (HQ5 & Hm5 & Hc5); [|done..|].
    { intros i. destruct (erase_links_fields _ _ (HG i)) as (Ef & _ & _ & _ & Es & _ & _ & _ & _ & _ & _ & _ & En).
      done. }
    split_and!; [split; [by auto|by auto|done|]|by auto|by auto].
    apply (static_ok_ext s); [done|done| |by apply Hfr]. intros i. change (procs s5 i) with (t5 i). rewrite Hfl.
    destruct (erase_links_fields _ _ (HG i)) as (_ & _ & _ & _ & -> & -> & -> & -> & _).
    destruct (Hf1 i) as (_ & _ & _ & _ & _ & _ & -> & -> & -> & -> & _).
    fn_cases i c; [|by rewrite decide_False]. split_and!; try done. intros Hx. congruence.
Qed.
End send2.

Section send3.
Implicit Types (s : kernel) (Q : queues).

(** [mini_send] from a process that can run (or from HARDWARE when the
    destination waits for it) to another process has one of the outcomes of
    [send_spec], keeps the invariant, and leaves the caller running exactly
    when it was not blocked. *)
Lemma mini_send_run s Q c d m :
  kcore s Q → isokprocn c = true → isokprocn d = true → c ≠ d → p_flags (procs s c) = 0 →
  (isidlehardware c = true → waiting_for (procs s d) c = true) →
  (proc_ptr s = c ∨ isuserp d = false) →
  wp (mini_send c d m) (λ r s', send_spec s c d m r s' ∧ send_frame s s' ∧ (r ≠ OK → s' = s) ∧
     (sending (procs s' c) = false → isuserp (proc_ptr s') = true → proc_ptr s' = proc_ptr s) ∧
     has (p_flags (procs s' c)) RECEIVING = false ∧
     ∃ Q', kcore s' Q' ∧ (cur_ok s Q → cur_ok s' Q')) s.
Proof.
  intros Hk Hc Hd Hne Hf Hid Hcond. pose proof Hk as [HQ Hm Hi Hst].
  destruct (ipc_acyclic _ Hi d Hd) as [P HP]. unfold mini_send.
  assert (Hr0 : has (p_flags (procs s c)) RECEIVING = false) by by rewrite Hf, has_0.
  destruct (isuserp c && negb (issysentn d)) eqn:Eu.
  { k_step. split_and!; [apply send_bad_dest; by rewrite Eu|done..|by exists Q]. }
  rewrite (proc_addr_ok _ Hd). do 4 k_step. destruct (has (p_flags (procs s d)) P_SLOT_FREE) eqn:Ef.
  { k_step. split_and!; [apply send_bad_dest; by rewrite Eu, Ef|done..|by exists Q]. }
  assert (Eb : (isuserp c && negb (issysentn d)) || has (p_flags (procs s d)) P_SLOT_FREE = false)
    by by rewrite Eu, Ef.
  do 2 k_step. destruct (mess_ok (procs s c) m) eqn:Em; cbn [negb].
  2:{ k_step. split_and!; [by apply send_fault|done..|by exists Q]. }
  k_step. eapply (wp_mono _ (λ r s', s' = s ∧ r = bool_decide (c ∈ P))).
  { change (has (p_flags (procs s d)) SENDING) with (sending (procs s d)).
    destruct P as [|d' P]; [done|]. destruct HP as [[= <-] HP]. unfold sendnext at 2 in HP.
    destruct (sending (procs s d)) eqn:Es.
    - do 2 k_step. destruct (ipc_dest _ Hi d (p_sendto (procs s d)) Hd) as [Hok _];
        [unfold sendnext; by rewrite Es|].
      rewrite (proc_addr_ok _ Hok). do 2 k_step. eapply wp_mono.
      { apply (deadlock_loop s c proc_fuel _ P Hi Hok HP). pose proof (path_length _ _ _ Hi Hok HP).
        unfold proc_fuel. lia. }
      cbn beta. intros r s' [-> ->]. split; [done|]. apply bool_decide_ext. set_solver.
    - apply chain_None in HP as ->. k_step. split; [done|]. symmetry. apply bool_decide_false. set_solver. }
  cbn beta. intros locked s' [-> ->]. destruct (decide (c ∈ P)) as [Hin|Hin].
  { rewrite bool_decide_true by done. k_step. split_and!; [by eapply send_locked|done..|by exists Q]. }
  rewrite bool_decide_false by done. do 2 k_step. destruct (waiting_for (procs s d) c) eqn:Ew.
  - eapply wp_mono; [by apply (deliver_run s Q c d m)|].
    cbn beta. intros r s' (-> & Hdel & Hpe & Hfr & Hpp & Q' & Hk' & Hcur). split_and!; [by eapply send_deliver|done|done|done| |].
    { destruct (peq_fields _ _ Hpe c) as (-> & _). by rewrite fn_lookup_insert_ne. }
    exists Q'. split; [done|]. apply Hcur. destruct Hcond as [->|Hud]; [|by right; left].
    right. destruct (isuserp d) eqn:Hud; [|by left]. right.
    destruct (isuserp c) eqn:Huc; [|done]. exfalso. cbn in Eu.
    unfold issysentn, isuserp, LOW_USER, FS_PROC_NR, MM_PROC_NR in *. lia.
  - k_step. eapply wp_mono; [apply (block_caller_run s Q c d m P Hk Hc Hd Hne Hf); try done|].
    { destruct (isidlehardware c) eqn:E; [|done]. by discriminate (Hid eq_refl). }
    { intros Hu. rewrite Hu in Eu. cbn in Eu. by apply negb_false_iff in Eu. }
    cbn beta. intros [] s' (Hmess & Hmb & Hsn & Hrc & (L & HL & HL') & Ho & Hfr & Q' & Hk' & Hcur & _).
    k_step. split_and!; [by eapply send_block|done|done| |done|by exists Q'].
    unfold sendnext in Hsn. by destruct (sending (procs s' c)).
Qed.

Lemma kcore_switching s Q b : kcore s Q → kcore (s <| switching := b |>) Q.
Proof.
  intros [HQ Hm Hi Hst]. split; [exact HQ|exact Hm|exact Hi|]. by apply (static_ok_ext s).
Qed.

(** A message to a process that waits for it is always delivered. *)
Lemma lock_send_waiting s Q c d m :
  kcore s Q → isokprocn c = true → isokprocn d = true → isuserp c && negb (issysentn d) = false →
  has (p_flags (procs s d)) P_SLOT_FREE = false → mess_ok (procs s c) m = true → c ≠ d →
  waiting_for (procs s d) c = true →
  wp (lock_mini_send c d m) (λ r s', r = OK ∧ 
     delivered s s' c m d (p_messbuf (procs s d)) ∧
     peq (<[d := (procs s d) <| p_flags := clrf (p_flags (procs s d)) RECEIVING |>]> (procs s)) (procs s') ∧
     send_frame (s <| switching := false |>) s' ∧ ∃ Q', kcore s' Q') s.
Proof.
  intros Hk Hc Hd Eu Ef Em Hne Hw. unfold lock_mini_send. do 3 k_step.
  set (s1 := s <| switching := true |>).
  assert (Hk1 : kcore s1 Q) by by apply kcore_switching.
  assert (Hw1 : waiting_for (procs s1 d) c = true) by done.
  destruct (waiting_facts s d c (k_static _ _ Hk) Hw) as (_ & Hs & _).
  unfold mini_send. rewrite Eu, (proc_addr_ok _ Hd). do 4 k_step.
  change (procs s1) with (procs s). rewrite Ef. do 2 k_step. change (procs s1) with (procs s). rewrite Em.
  cbn [negb]. rewrite Hs. do 4 k_step. rewrite Hw1.
  eapply wp_mono; [by apply (deliver_run s1 Q c d m)|].
  cbn beta. intros r s' (-> & Hdel & Hpe & Hfr & _ & Q' & Hk' & _). do 3 k_step.
  split_and!; [done|done|done| |exists Q'; by apply kcore_switching].
  destruct Hfr as [H1 H2]. split; [exact H1|]. cbn. by destruct H2 as (?&?&?&?&?&?).
Qed.
End send3.
