(* ===== verification/Receive.v ===== *)
(** * Receiving, kernel signals and interrupts

    [mini_rec], [inform], [cause_sig], [interrupt], [unhold] and [sys_call] of
    Proc.v keep the invariant [kcore] of Ipc.v, end without a fault, and behave
    as the relations [rec_spec] and [inform_spec] say. *)

From S2P Require Import Prelude Chain Sigset Proc Sched Ipc.

#[local] Arguments lseg : simpl never.

(** ** Outcomes *)

(** [x] is a sender that [receive(src)] accepts. *)
Definition accepts (src x : Z) : bool := (src =? ANY) || (src =? x).

(** [mini_rec] found a message: the first acceptable process [y] of the caller
    queue is served and unblocked. *)
Record rec_message (s s' : kernel) (c src m : Z) (A : list Z) (y : Z) (B : list Z) : Prop := RecMessage {
  rm_callers : callers_of (procs s) c (A ++ y :: B);
  rm_first : accepts src y = true ∧ ∀ x, x ∈ A → accepts src x = false;
  rm_copy : delivered s s' y (p_messbuf (procs s y)) c m;
  rm_callers' : callers_of (procs s') c (A ++ B);
  rm_flags : ∀ i, p_flags (procs s' i) =
    if decide (i = y) then clrf (p_flags (procs s y)) SENDING else p_flags (procs s i)
}.

(** [c] waits for a message from [src] in [m]. *)
Definition blocked (s s' : kernel) (c src m : Z) : Prop :=
  (∀ i, p_flags (procs s' i) = if decide (i = c) then setf (p_flags (procs s c)) RECEIVING
                               else p_flags (procs s i)) ∧
  p_getfrom (procs s' c) = src ∧ p_messbuf (procs s' c) = m ∧ mess s' = mess s.

(** The outcomes of [mini_rec]. *)
Inductive rec_spec (s : kernel) (c src m : Z) : kernel → Prop :=
| rec_got A y B s' :
    sending (procs s c) = false → rec_message s s' c src m A y B → rec_spec s c src m s'
| rec_interrupt L :
    sending (procs s c) = false → callers_of (procs s) c L → (∀ x, x ∈ L → accepts src x = false) →
    p_int_blocked (procs s c) = true → isrxhardware src = true →
    rec_spec s c src m
      (s <| mess := <[m := (mess s m) <| m_source := HARDWARE |> <| m_type := HARD_INT |>]> (mess s) |>
         <| procs := <[c := (procs s c) <| p_int_blocked := false |>]> (procs s) |>)
| rec_wait s1 s' :
    (sending (procs s c) = false → ∃ L, callers_of (procs s) c L ∧ (∀ x, x ∈ L → accepts src x = false) ∧
       p_int_blocked (procs s c) && isrxhardware src = false) →
    blocked s s1 c src m →
    (if (0 <? sig_procs s) && (c =? MM_PROC_NR) && (src =? ANY) then inform s1 = Ret tt s' else s' = s1) →
    rec_spec s c src m s'.

(** The first process with a signal the kernel has not told MM about. *)
Definition first_pending (s : kernel) (rp : Z) : Prop :=
  0 ≤ rp < NR_PROCS ∧ has (p_flags (procs s rp)) PENDING = true ∧
  ∀ x, 0 ≤ x < rp → has (p_flags (procs s x)) PENDING = false.

(** [inform] told MM about [rp]: MM's buffer holds a KSIG message from HARDWARE
    with the pending set, which is then empty. *)
Record informed (s s' : kernel) (rp : Z) : Prop := Informed {
  in_mess : ∃ b, mess s' (mess_addr (procs s MM_PROC_NR) (p_messbuf (procs s MM_PROC_NR))) =
              b <| m_source := HARDWARE |> <| m_type := KSIG |> <| m2_i1 := rp |>
                <| m2_l1 := p_pending (procs s rp) |>;
  in_pending : p_pending (procs s' rp) = 0;
  in_flag : has (p_flags (procs s' rp)) PENDING = false;
  in_count : sig_procs s' = sig_procs s - 1;
  in_mm : has (p_flags (procs s' MM_PROC_NR)) RECEIVING = false
}.

(** A task that can run still can, and a task keeps the processor. *)
Definition task_kept (s s' : kernel) : Prop :=
  ∀ c, istaskp c = true → isokprocn c = true → isidlehardware c = false → p_flags (procs s c) = 0 →
    p_flags (procs s' c) = 0 ∧ (istaskp (proc_ptr s) = true → istaskp (proc_ptr s') = true).

(** ** Changing one process *)
Section change.
Implicit Types (s : kernel) (Q : queues).

(** Setting fields of [p] outside the queues; its flags may change as long as
    [p] stays on the same side of runnable. *)
Lemma kcore_setp s Q p r :
  kcore s Q → isokprocn p = true →
  p_shadow r = p_shadow (procs s p) → p_nextready r = p_nextready (procs s p) →
  p_callerq r = p_callerq (procs s p) → p_sendlink r = p_sendlink (procs s p) →
  p_sendto r = p_sendto (procs s p) → p_stguard r = p_stguard (procs s p) →
  p_map_D r = p_map_D (procs s p) → p_map_S r = p_map_S (procs s p) →
  has (p_flags r) SENDING = has (p_flags (procs s p)) SENDING →
  has (p_flags r) P_SLOT_FREE = has (p_flags (procs s p)) P_SLOT_FREE →
  (p_flags r = 0 ↔ p_flags (procs s p) = 0) →
  (istaskp p = true → task_flags (p_flags r)) →
  (has (p_flags r) PENDING = true → has (p_flags r) SIG_PENDING = true) →
  (has (p_flags r) SENDING = true → has (p_flags r) RECEIVING = true → p_getfrom r ≠ ANY) →
  kcore (s <| procs := <[p := r]> (procs s) |>) Q ∧
  (cur_ok s Q → cur_ok (s <| procs := <[p := r]> (procs s) |>) Q).
Proof.
  intros [HQ Hm Hi Hst] Hok Es En Ec El Et Eg ED ES Ef1 Ef2 Ef0 Htask Hpend Hboth.
  set (s' := s <| procs := _ |>). split; [split|].
  - intros q Hq. destruct (HQ q Hq) as [[Hch Ht] Hmm]. split; [split|].
    + eapply lseg_ext, Hch. intros k _. unfold nextready; cbn. by fn_cases k p.
    + done.
    + intros x Hx. destruct (Hmm x Hx) as [? <-]. split; [done|]. apply qof_shadow. cbn. by fn_cases x p.
  - intros x Hx. replace (qof (procs s' x) x) with (qof (procs s x) x).
    2:{ symmetry. apply qof_shadow. cbn. by fn_cases x p. }
    rewrite (Hm x Hx). cbn. fn_cases x p; [by rewrite Ef0|done].
  - apply (ipc_ok_ext (procs s)); [done|..].
    + intros i. unfold sendnext, sending; cbn. fn_cases i p; [by rewrite Ef1, Et|done].
    + intros i ??. cbn. fn_cases i p; [by apply Htask|by apply Hi].
    + intros i ?. cbn. fn_cases i p; [done|by apply Hi].
    + intros i ?. cbn. fn_cases i p; [done|by apply Hi].
  - apply (static_ok_ext s); [done|done| |].
    + intros i. cbn. fn_cases i p; [|done]. split_and!; try done. intros _ Hz. by apply Ef0.
    + cbn. by fn_cases MM_PROC_NR p.
  - apply cur_ok_ext; [done|]. intros i. cbn. by fn_cases i p.
Qed.

(** Changes of messages and counters. *)
Lemma kcore_vars s s' Q : kcore s Q → procs s' = procs s → rdy_head s' = rdy_head s → rdy_tail s' = rdy_tail s →
  proc_ptr s' = proc_ptr s → sys_m s' = sys_m s → kcore s' Q ∧ (cur_ok s Q → cur_ok s' Q).
Proof.
  intros [HQ Hm Hi Hst] Ep Eh Et Epp Esm. destruct (sched_ext s s' Q) as (H1 & H2 & H3); [by rewrite Ep|done..|].
  split; [|done]. split; [by auto|by auto|by rewrite Ep|]. apply (static_ok_ext s); [done|done|by rewrite Ep|by rewrite Ep].
Qed.

Lemma wp_switching s Q {A} (k : KM A) Φ b :
  (kcore (s <| switching := b |>) Q → wp k Φ (s <| switching := b |>)) → kcore s Q →
  wp (set_switching b;; k) Φ s.
Proof. intros H Hk. do 2 k_step. by apply H, kcore_switching. Qed.

(** [lock_ready] under the same conditions as [ready]. *)
Lemma lock_ready_when s Q p :
  queues_rep s Q → mem_ok_but p s Q → p ∉ Q (qof (procs s p) p) →
  isokprocn p = true → isidlehardware p = false →
  wp (when (p_flags (procs s p) =? 0) (lock_ready p)) (λ _ s', sched_frame s s' ∧
    ∃ Q', queues_rep s' Q' ∧ mem_ok s' Q' ) s.
Proof.
  intros HQ Hm Hp Hok Hid. set (s1 := s <| switching := true |>).
  pose proof (ready_when s1 Q p HQ Hm Hp Hok Hid) as Hw.
  destruct (p_flags (procs s p) =? 0) eqn:Ef; cbn [when].
  - unfold lock_ready. do 3 k_step. fold s1. change (procs s1) with (procs s) in Hw. rewrite Ef in Hw. cbn [when] in Hw.
    eapply wp_mono; [exact Hw|]. cbn beta. intros [] s' (Hfr & _ & Q' & HQ' & Hm' & _). k_step.
    split; [done|]. by exists Q'.
  - change (procs s1) with (procs s) in Hw. rewrite Ef in Hw. cbn [when] in Hw. unfold wp, mret, M_ret in Hw.
    destruct Hw as (_ & _ & Q' & HQ' & Hm' & _). k_step. split; [done|]. by exists Q'.
Qed.

Lemma lock_pick_run s Q : kcore s Q →
  wp lock_pick_proc (λ _ s', kcore s' Q ∧ cur_ok s' Q ∧ procs s' = procs s ∧ mess s' = mess s ∧
     sig_procs s' = sig_procs s ∧ held_head s' = held_head s ∧ held_tail s' = held_tail s ∧ proc_ptr s' = spec_pick Q) s.
Proof.
  intros Hk. unfold lock_pick_proc. do 3 k_step.
  eapply wp_mono; [apply (pick_run _ Q); apply Hk|]. cbn beta. intros [] s' ->. k_step.
  set (s2 := _ <| switching := false |>). assert (HQ2 : queues_rep s2 Q) by apply Hk.
  split_and!; try done; [|by apply pick_cur].
  destruct Hk as [HQ Hm Hi Hst]. split; [done|exact Hm|exact Hi|]. by apply (static_ok_ext s).
Qed.

(** With a runnable task the process picked is a task. *)
Lemma pick_task s Q c : kcore s Q → istaskp c = true → isokprocn c = true → isidlehardware c = false →
  p_flags (procs s c) = 0 → istaskp (spec_pick Q) = true.
Proof.
  intros [HQ Hm _ _] Ht Hok Hid Hf. assert (Hin : c ∈ Q TASK_Q).
  { assert (Eq : qof (procs s c) c = TASK_Q) by (unfold qof; by rewrite Ht). rewrite <- Eq. by apply Hm. }
  unfold spec_pick. destruct (Q TASK_Q) as [|x l] eqn:E; [by apply elem_of_nil in Hin|].
  destruct (HQ TASK_Q ltac:(done)) as [_ HH]. destruct (HH x) as [_ Hx]; [rewrite E; left|].
  unfold qof in Hx. destruct (istaskp x); [done|]. by repeat case_match.
Qed.
End change.

(** ** inform *)
Section inform.
Implicit Types (s : kernel) (Q : queues).

(** [rp] loses a signal flag that kept it blocked. *)
Lemma clear_sig_pending s Q rp :
  kcore s Q → isokprocn rp = true → istaskp rp = false → isidlehardware rp = false →
  has (p_flags (procs s rp)) PENDING = false → has (p_flags (procs s rp)) SIG_PENDING = true →
  wp (setp rp (λ r, r <| p_flags := clrf (p_flags r) SIG_PENDING |>);;
      f ← fld p_flags rp; when (f =? 0) (lock_ready rp))
     (λ _ s', (∃ Q', kcore s' Q') ∧ mess s' = mess s ∧ sig_procs s' = sig_procs s ∧
        (∀ i, p_flags (procs s' i) = if decide (i = rp) then clrf (p_flags (procs s rp)) SIG_PENDING
                                     else p_flags (procs s i)) ∧
        (∀ i, p_pending (procs s' i) = p_pending (procs s i)) ∧ held_frame s s') s.
Proof.
  intros [HQ Hm Hi Hst] Hok Ht Hid Hp Hsp.
  assert (Hn : rp ∉ Q (qof (procs s rp) rp)).
  { rewrite (Hm rp Hok). intros [H _]. by rewrite H, has_0 in Hsp. }
  set (r := (procs s rp) <| p_flags := clrf (p_flags (procs s rp)) SIG_PENDING |>).
  destruct (mem_ok_set s Q rp r HQ (λ x Hx _, Hm x Hx) Hn eq_refl eq_refl) as (HQ2 & _ & Hm2 & _).
  do 4 k_step. set (s1 := s <| procs := _ |>). eapply wp_mono.
  { apply (lock_ready_when s1 Q rp HQ2 Hm2); [|done..]. cbn. by rewrite fn_lookup_insert. }
  cbn beta. intros [] s' ([He Eo] & Q' & HQ' & Hm').
  pose proof (peq_fields _ _ He) as Hf. apply others_fields in Eo as (Eh & Et & _ & Esp & Em & Esm).
  assert (Efl : ∀ i, p_flags (procs s' i) = if decide (i = rp) then clrf (p_flags (procs s rp)) SIG_PENDING
                                     else p_flags (procs s i)).
  { intros i. destruct (Hf i) as (-> & _). cbn. fn_cases i rp; [by rewrite decide_True|by rewrite decide_False]. }
  split_and!; try done.
  - exists Q'. split; [done|done| |].
    + apply (ipc_ok_peq _ _ He). apply (ipc_ok_ext (procs s)); [done|..].
      * intros i. unfold sendnext, sending; cbn. fn_cases i rp; [|done]. cbn. by rewrite has_clrf_other.
      * intros i ? ?. cbn. fn_cases i rp; [congruence|by apply Hi].
      * intros i ?. cbn. fn_cases i rp; [|by apply Hi]. cbn. by rewrite has_clrf_other, Hp.
      * intros i ?. unfold sending; cbn. fn_cases i rp; [|by apply Hi]. cbn. rewrite !has_clrf_other by done. by apply Hi.
    + apply (static_ok_ext s); [done|by rewrite Esm| |].
      * intros i. rewrite Efl. destruct (Hf i) as (_ & _ & _ & _ & _ & _ & -> & -> & -> & -> & _). cbn.
        fn_cases i rp; [|by rewrite decide_False]. split_and!; try done. congruence.
      * rewrite Efl. case_decide as E; [|done]. rewrite has_clrf_other by done. by rewrite E.
  - intros i. destruct (Hf i) as (_ & _ & _ & _ & _ & _ & _ & _ & _ & _ & _ & _ & -> & _). cbn. by fn_cases i rp.
  - split; [|done]. intros i. destruct (Hf i) as (_ & _ & _ & _ & _ & _ & _ & _ & _ & _ & -> & -> & _). cbn.
    by fn_cases i rp.
Qed.

Lemma waiting_intro d c : has (p_flags d) RECEIVING = true → has (p_flags d) SENDING = false →
  p_getfrom d = ANY → waiting_for d c = true.
Proof.
  intros Hr Hs Hg. unfold waiting_for. rewrite Hg, Z.eqb_refl. rewrite andb_true_r. apply Z.eqb_eq.
  unfold has in *. apply negb_false_iff, Z.eqb_eq in Hs. rewrite Z.land_lor_distr_r, Hs, Z.lor_0_r.
  change RECEIVING with (2 ^ 3) in *. rewrite land_single in * by done. by destruct (Z.testbit _ 3).
Qed.

(** The delivery of the signals of [rp] to MM, which waits for a message. *)
Lemma inform_proc_run s Q rp :
  kcore s Q → 0 ≤ rp < NR_PROCS → has (p_flags (procs s rp)) PENDING = true →
  waiting_for (procs s MM_PROC_NR) HARDWARE = true →
  wp (inform_proc rp) (λ _ s', (∃ Q', kcore s' Q' ∧ cur_ok s' Q') ∧ informed s s' rp ∧ held_frame s s' ∧ task_kept s s') s.
Proof.
  intros Hk Hrp Hpend Hw.
  assert (Hok : isokprocn rp = true) by (unfold isokprocn, NR_TASKS, NR_PROCS in *; lia).
  assert (Htask : istaskp rp = false) by (unfold istaskp; lia).
  assert (Hid : isidlehardware rp = false) by (unfold isidlehardware, IDLE, HARDWARE; lia).
  unfold inform_proc. do 6 k_step. set (s1 := s <| mess := _ |> <| sig_procs := _ |>).
  assert (Hk1 : kcore s1 Q) by by apply (kcore_vars s s1 Q).
  change (proc_addr HARDWARE) with (mret HARDWARE : KM Z). do 3 k_step.
  eapply wp_mono.
  { apply (lock_send_waiting s1 Q HARDWARE MM_PROC_NR (sys_m s)); try done; apply Hk. }
  cbn beta. intros res s2 (-> & Hdel & Hpe & [Hf2 Hv2] & Q2 & Hk2). cbn [Z.eqb negb OK].
  change (negb (OK =? OK)) with false. cbv iota. do 2 k_step.
  destruct (Hf2 rp) as (Ep2 & _ & _ & _ & _ & _ & _ & Efl2). cbn in Ep2.
  assert (Hpend2 : has (p_flags (procs s2 rp)) PENDING = true) by by rewrite Efl2.
  pose proof (ipc_pending _ (k_ipc _ _ Hk2) rp Hok Hpend2) as Hsp2.
  set (r := (procs s2 rp) <| p_pending := (sigemptyset (p_pending (procs s2 rp))).2 |>
             <| p_flags := clrf (p_flags (procs s2 rp)) PENDING |>).
  assert (Hspr : has (p_flags r) SIG_PENDING = true) by (cbn; by rewrite has_clrf_other).
  destruct (kcore_setp s2 Q2 rp r) as [Hk3 _]; try done; try (cbn; by rewrite has_clrf_other).
  { split; intros H; [by rewrite H, has_0 in Hspr|by rewrite H, has_0 in Hpend2]. }
  { by rewrite Htask. }
  { cbn. rewrite !has_clrf_other by done. apply Hk2, Hok. }
  set (s3 := s2 <| procs := _ |>) in *. do 2 k_step.
  assert (Hmm : has (p_flags (procs s2 MM_PROC_NR)) RECEIVING = false).
  { destruct (peq_fields _ _ Hpe MM_PROC_NR) as (-> & _). rewrite fn_lookup_insert. cbn. apply has_clrf_same. }
  assert (Hmm3 : has (p_flags (procs s3 MM_PROC_NR)) RECEIVING = false).
  { cbn. destruct (decide (rp = MM_PROC_NR)) as [Erp|]; [|by rewrite fn_lookup_insert_ne].
    rewrite <- Erp, fn_lookup_insert. cbn. rewrite has_clrf_other by done. by rewrite Erp. }
  (* the state before lock_pick_proc *)
  set (J := λ s', (∃ Q', kcore s' Q') ∧ mess s' = mess s2 ∧ sig_procs s' = sig_procs s2 ∧
              p_pending (procs s' rp) = 0 ∧ has (p_flags (procs s' rp)) PENDING = false ∧
              has (p_flags (procs s' MM_PROC_NR)) RECEIVING = false ∧ held_frame s s' ∧
              ∀ c, istaskp c = true → p_flags (procs s' c) = p_flags (procs s c)).
  assert (Hh2 : held_frame s s2) by exact (send_held (s1 <| switching := false |>) s2 (conj Hf2 Hv2)).
  assert (Hh3 : held_frame s s3).
  { apply (held_frame_trans _ s2); [done|]. split; [|done]. intros i. cbn. by fn_cases i rp. }
  assert (Ht3 : ∀ c, istaskp c = true → p_flags (procs s3 c) = p_flags (procs s c)).
  { intros c Hc. cbn. fn_cases c rp; [congruence|]. destruct (peq_fields _ _ Hpe c) as (-> & _).
    fn_cases c MM_PROC_NR; done. }
  k_step. eapply (wp_mono _ (λ _ s', J s')).
  - assert (HJ3 : J s3).
    { split_and!; [by exists Q2|done|done| | |done|done|done]; cbn; rewrite fn_lookup_insert; [done|by apply has_clrf_same]. }
    apply wp_when; [|done]. intros _. do 2 k_step. apply wp_when; [|done]. intros _.
    do 2 k_step. set (r4 := (procs s3 rp) <| p_pendcount := _ |>). 
    assert (Er3 : procs s3 rp = r) by (cbn; by rewrite fn_lookup_insert).
    assert (Hk4 : kcore (s3 <| procs := <[rp := r4]> (procs s3) |>) Q2).
    { apply kcore_setp; try done; unfold r4; rewrite Er3; try done; [by rewrite Htask|].
      cbn. rewrite !has_clrf_other by done. apply Hk2, Hok. }
    set (s4 := s3 <| procs := _ |>) in *. do 2 k_step.
    assert (Er4 : procs s4 rp = r4) by (cbn [procs upd upd_procs s4]; by rewrite fn_lookup_insert).
    assert (HJ4 : J s4).
    { split_and!; [by exists Q2|done|done| | | | |].
      - rewrite Er4. unfold r4. rewrite Er3. done.
      - rewrite Er4. unfold r4. rewrite Er3. apply has_clrf_same.
      - cbn [procs upd upd_procs s4]. destruct (decide (rp = MM_PROC_NR)) as [Erp|];
          [rewrite <- Erp, fn_lookup_insert; by rewrite <- Erp in Hmm3|by rewrite fn_lookup_insert_ne].
      - apply (held_frame_trans _ s3); [done|]. split; [|done]. intros i. cbn [procs upd upd_procs s4].
        fn_cases i rp; [|done]. unfold r4. by rewrite Er3.
      - intros c Hc. rewrite <- Ht3 by done. cbn [procs upd upd_procs s4]. fn_cases c rp; [congruence|done]. }
    apply wp_when; [|done]. intros _. destruct HJ4 as (_ & Em4 & Es4 & Ep4 & Ef4 & Emm4 & Hh4 & Ht4).
    eapply wp_mono; [apply (clear_sig_pending s4 Q2 rp); try done|].
    { rewrite Er4. unfold r4. by rewrite Er3. }
    cbn beta. intros [] s5 (Hk5 & Em5 & Es5 & Ef5 & Ep5 & Hh5). split_and!; try congruence.
    + rewrite Ef5, decide_True by done. rewrite has_clrf_other by done. done.
    + rewrite Ef5. case_decide as E; [|done]. rewrite has_clrf_other by done. by rewrite E in Emm4.
    + by apply (held_frame_trans _ s4).
    + intros c Hc. rewrite Ef5, <- Ht4 by done. case_decide; [congruence|done].
  - cbn beta. intros [] s4 ((Q4 & Hk4) & Em4 & Es4 & Ep4 & Ef4 & Emm4 & Hh4 & Ht4).
    eapply wp_mono; [by apply (lock_pick_run s4 Q4)|].
    cbn beta. intros [] s5 (Hk5 & Hc5 & Epr & Em5 & Es5 & Eh5 & Et5 & Epk). split; [by exists Q4|].
    split; [|split; [apply (held_frame_trans _ s4); [done|]; split; [|done]; intros i; by rewrite Epr|]].
    2:{ intros c Hc Hco Hci Hcf. assert (Hc5' : p_flags (procs s5 c) = 0) by (rewrite Epr; by rewrite Ht4).
        split; [done|]. intros _. rewrite Epk. by eapply (pick_task s5). }
    destruct Hv2 as (_ & _ & _ & _ & Esp2 & _). split.
    + rewrite Em5, Em4. unfold delivered in Hdel. rewrite Hdel.
      exists (mess s (sys_m s)). cbn [procs upd upd_procs upd_mess upd_sig_procs s1 mess].
      rewrite fn_lookup_insert. unfold mess_addr at 1. rewrite (st_hwsh _ (k_static _ _ Hk)).
      by rewrite fn_lookup_insert.
    + by rewrite Epr.
    + by rewrite Epr.
    + by rewrite Es5, Es4, Esp2.
    + by rewrite Epr.
Qed.

(** [inform] serves the first process with pending signals, if there is one. *)
Lemma inform_run s Q :
  kcore s Q → waiting_for (procs s MM_PROC_NR) HARDWARE = true →
  wp inform (λ _ s',
    (s' = s ∧ ∀ x, 0 ≤ x < NR_PROCS → has (p_flags (procs s x)) PENDING = false) ∨
    (∃ rp Q', first_pending s rp ∧ informed s s' rp ∧ held_frame s s' ∧ kcore s' Q' ∧ cur_ok s' Q' ∧ task_kept s s')) s.
Proof.
  intros Hk Hw. unfold inform. k_step.
  apply (wp_for_each_first _ _ (λ rp, has (p_flags (procs s rp)) PENDING)).
  - intros x _ Hx. unfold fld, mbind, M_bind, gets. by rewrite Hx.
  - intros l1 x l2 E Hl1 Hx. 
    assert (Hr : x ∈ seqZ 0 NR_PROCS) by (rewrite E; set_solver). apply elem_of_seqZ in Hr.
    do 2 k_step. rewrite Hx. k_step. eapply wp_mono; [by apply (inform_proc_run s Q x)|].
    cbn beta. intros [] s' ((Q' & Hk' & Hc') & Hinf & Hh & Htk). k_step. split; [done|]. k_step. right.
    exists x, Q'. split_and!; [split_and!; [lia..|done|]|done..].
    intros y Hy. apply Hl1. assert (Ex : seqZ 0 NR_PROCS !! length l1 = Some x).
    { rewrite E. by apply list_lookup_middle. }
    apply lookup_seqZ in Ex as [Ex _]. apply (list_elem_of_lookup_2 _ (Z.to_nat y)).
    transitivity (seqZ 0 NR_PROCS !! Z.to_nat y); [rewrite E; symmetry; apply lookup_app_l; lia|].
    apply lookup_seqZ. lia.
  - intros Hnone. k_step. left. split; [done|]. intros x Hx. apply Hnone, elem_of_seqZ. lia.
Qed.
End inform.

(** ** mini_rec *)
Section receive.
Implicit Types (s : kernel) (Q : queues).

(** Serving the caller [y]. *)
Lemma rec_found s Q c src m A y B :
  kcore s Q → isokprocn c = true → callers_of (procs s) c (A ++ y :: B) → accepts src y = true →
  (∀ x, x ∈ A → accepts src x = false) →
  (isuserp (proc_ptr s) = true → proc_ptr s = c) →
  wp (mini_rec_step c src m (last A, Some y)) (λ x s', x = inr true ∧
     rec_message s s' c src m A y B ∧ send_frame s s' ∧
     (∃ Q', kcore s' Q' ∧ (cur_ok s Q → cur_ok s' Q'))) s.
Proof.
  intros [HQ Hm Hi Hst] Hc HL Hacc Hfirst Hcur0. unfold mini_rec_step. do 2 k_step.
  change ((src =? ANY) || (src =? y)) with (accepts src y). rewrite Hacc.
  assert (Hy : isokprocn y = true ∧ sendnext (procs s) y = Some c) by (apply HL; set_solver).
  destruct Hy as [Hyok Hyn].
  assert (Hys : sending (procs s y) = true) by (unfold sendnext in Hyn; by destruct (sending (procs s y))).
  assert (Hyid : isidlehardware y = false).
  { destruct (isidlehardware y) eqn:E; [|done]. unfold sending in Hys. by rewrite (st_idle _ Hst _ E), has_0 in Hys. }
  pose proof (callers_NoDup _ _ _ HL) as Hnd.
  k_step. apply wp_cp_mess. set (s1 := s <| mess := _ |>). do 2 k_step.
  change (procs s1) with (procs s). rewrite (chain_head _ _ _ (proj1 HL)).
  (* the queue without y *)
  set (t2 := match last A with
             | Some x => <[x := (procs s x) <| p_sendlink := p_sendlink (procs s y) |>]> (procs s)
             | None => <[c := (procs s c) <| p_callerq := p_sendlink (procs s y) |>]> (procs s) end).
  k_step. eapply (wp_mono _ (λ _ s', s' = s1 <| procs := t2 |>)).
  { unfold t2, ptr_eq. destruct A as [|x A _] using rev_ind; cbn [app head last].
    - rewrite bool_decide_true by done. by k_step.
    - rewrite last_snoc. rewrite bool_decide_false.
      + k_step. k_step. by k_step.
      + rewrite <- app_assoc in Hnd. destruct A as [|a A]; cbn in *; intros [= ->];
          apply NoDup_cons in Hnd as [Hn _]; set_solver. }
  intros [] s2 ->. set (s2 := s1 <| procs := t2 |>).
  assert (HG : ∀ i, erase_links (t2 i) = erase_links (procs s i)).
  { intros i. unfold t2. destruct (last A) as [x|]; [by fn_cases i x|by fn_cases i c]. }
  destruct (sched_ext s s2 Q) as (HQ2 & Hm2 & Hc2); [|done..|].
  { intros i. destruct (erase_links_fields _ _ (HG i)) as (Ef & _ & _ & _ & Es & _ & _ & _ & _ & _ & _ & _ & En). done. }
  destruct (erase_links_fields _ _ (HG y)) as (Efy & _).
  apply (wp_unblock s2 Q y SENDING); [by auto|by auto|done| |done|].
  { cbn. rewrite Efy. by apply (has_nonzero _ SENDING). }
  intros s5 Q' He Eo Esw HQ' Hm' Hpp Hcur. k_step. change (procs s2) with t2 in He.
  apply others_fields in Eo as (Eh & Et & Ek & Esp & Em & Esm).
  set (t4 := <[y := _]> t2) in He. pose proof (peq_fields _ _ He) as Hf.
  assert (Hfl : ∀ i, p_flags (procs s5 i) =
    if decide (i = y) then clrf (p_flags (procs s y)) SENDING else p_flags (procs s i)).
  { intros i. destruct (Hf i) as (-> & _). unfold t4. fn_cases i y.
    - rewrite decide_True by done. cbn. by rewrite Efy.
    - rewrite decide_False by done. by destruct (erase_links_fields _ _ (HG i)) as (-> & _). }
  assert (Hsn : ∀ i, sendnext (procs s5) i = relink (sendnext (procs s)) y None i).
  { intros i. unfold sendnext, sending, relink. rewrite Hfl. case_decide.
    - by rewrite has_clrf_same.
    - destruct (Hf i) as (_ & _ & _ & -> & _). unfold t4. rewrite fn_lookup_insert_ne by done.
      by destruct (erase_links_fields _ _ (HG i)) as (_ & -> & _). }
  assert (Hcq : ∀ i, p_callerq (procs s5 i) = if decide (i = c) then head (A ++ B) else p_callerq (procs s i)).
  { intros i. destruct (Hf i) as (_ & -> & _). transitivity (p_callerq (t2 i)).
    { unfold t4. by fn_cases i y. }
    unfold t2. destruct (last A) as [x|] eqn:El.
    - transitivity (p_callerq (procs s i)); [by fn_cases i x|]. case_decide as Ei; [|done]. subst i.
      rewrite (chain_head _ _ _ (proj1 HL)). by destruct A.
    - apply last_None in El as ->. case_decide as Ei; [|by rewrite fn_lookup_insert_ne].
      subst i. rewrite fn_lookup_insert. cbn. by destruct HL as [[_ Hh%chain_head] _]. }
  assert (Hsl : ∀ i, sendlink (procs s5) i = match last A with
                        | Some x => relink (sendlink (procs s)) x (sendlink (procs s) y) i
                        | None => sendlink (procs s) i end).
  { intros i. unfold sendlink at 1. destruct (Hf i) as (_ & _ & -> & _). transitivity (p_sendlink (t2 i)).
    { unfold t4. by fn_cases i y. }
    unfold t2. destruct (last A) as [x|]; [|by fn_cases i c]. unfold relink. case_decide as Ei.
    - subst i. by rewrite fn_lookup_insert.
    - by rewrite fn_lookup_insert_ne. }
  assert (Hfr : send_frame s s5).
  { split; [|done]. intros i. rewrite Hfl.
    destruct (Hf i) as (_ & _ & _ & _ & -> & _ & -> & _ & -> & _ & -> & -> & -> & -> & _).
    destruct (erase_links_fields _ _ (HG i)) as (_ & _ & Eg & _ & Es & _ & ED & _ & En & Eih & Ep & Epc & _).
    unfold t4. fn_cases i y.
    - rewrite decide_True by done. cbn. rewrite Eg, Es, ED, En, Eih, Ep, Epc. split_and!; try done.
      intros m' Hs _. by apply has_clrf_other.
    - rewrite decide_False by done. rewrite Eg, Es, ED, En, Eih, Ep, Epc. done. }
  destruct (ipc_unblock (procs s) (procs s5) c A y B) as (Hi5 & HL5 & _); try done.
  { intros i ??. rewrite Hfl. case_decide as Ei; [subst i; apply task_flags_clrf|]; by apply Hi. }
  { intros i ?. rewrite Hfl. case_decide as Ei; [subst i; rewrite !has_clrf_other by done|]; by apply Hi. }
  { intros i ?. unfold sending. rewrite Hfl. case_decide as Ei; [by rewrite has_clrf_same|].
    destruct (Hf i) as (_ & _ & _ & _ & -> & _). unfold t4. rewrite fn_lookup_insert_ne by done.
    destruct (erase_links_fields _ _ (HG i)) as (_ & _ & -> & _). by apply Hi. }
  split_and!; [done| |done|].
  - split; try done.
  - exists Q'. split; [split; [done|done|done|]|].
    + apply (static_ok_ext s); [done|done| |by apply Hfr]. intros i. rewrite Hfl.
      destruct (Hf i) as (_ & _ & _ & _ & _ & _ & -> & -> & -> & -> & _).
      destruct (erase_links_fields _ _ (HG i)) as (_ & _ & _ & _ & Es & Eg & ED & ES & _). unfold t4.
      fn_cases i y; cbn; rewrite Es, Eg, ED, ES; [|by rewrite decide_False].
      split_and!; try done. congruence.
    + intros Hcu. apply Hcur; [|by auto]. change (proc_ptr s2) with (proc_ptr s). right.
      destruct (isuserp (proc_ptr s)) eqn:Eu; [|by right]. left. rewrite (Hcur0 eq_refl) in Eu.
      destruct (isuserp y) eqn:Euy; [|done]. exfalso.
      destruct (ipc_dest _ Hi y c Hyok Hyn) as [_ Hsy]. specialize (Hsy Euy).
      unfold issysentn, isuserp, LOW_USER, FS_PROC_NR, MM_PROC_NR in *. lia.
Qed.

(** The search of the caller queue. *)
Lemma rec_loop s Q c src m fuel A R :
  kcore s Q → isokprocn c = true → callers_of (procs s) c (A ++ R) →
  (∀ x, x ∈ A → accepts src x = false) → (length R < fuel)%nat →
  (isuserp (proc_ptr s) = true → proc_ptr s = c) →
  wp (loop fuel (mini_rec_step c src m) (last A, head R)) (λ r s',
    (r = false ∧ s' = s ∧ ∀ x, x ∈ A ++ R → accepts src x = false) ∨
    (r = true ∧ ∃ A' y B, A ++ R = A' ++ y :: B ∧ rec_message s s' c src m A' y B ∧ send_frame s s' ∧
       ∃ Q', kcore s' Q' ∧ (cur_ok s Q → cur_ok s' Q'))) s.
Proof.
  intros Hk Hc HL HA Hlen Hcur. revert A R HL HA Hlen. induction fuel as [|fuel IH]; intros A R HL HA Hlen; [lia|].
  rewrite loop_unfold. k_step. destruct R as [|y R]; cbn [head].
  { unfold mini_rec_step. do 2 k_step. left. rewrite app_nil_r. done. }
  destruct (accepts src y) eqn:Ey.
  - eapply wp_mono; [by apply (rec_found s Q c src m A y R)|].
    cbn beta. intros x s' (-> & Hr & Hf & HQ'). k_step. right. split; [done|]. by exists A, y, R.
  - unfold mini_rec_step at 1. do 2 k_step. change ((src =? ANY) || (src =? y)) with (accepts src y). rewrite Ey.
    k_step. cbv iota.
    assert (Hn : p_sendlink (procs s y) = head R).
    { pose proof (lseg_suffix _ _ _ _ _ (proj1 HL)) as [_ Hh]. by apply chain_head in Hh. }
    rewrite Hn, <- (last_snoc y A).
    replace (A ++ y :: R) with ((A ++ [y]) ++ R) in HL |- * by by rewrite <- app_assoc.
    apply (IH (A ++ [y]) R); [done| |cbn in Hlen; lia].
    intros x [?| ->%list_elem_of_singleton]%elem_of_app; [by apply HA|done].
Qed.
End receive.

Section receive2.
Implicit Types (s : kernel) (Q : queues).

(** Blocking the receiver. *)
Lemma rec_block_run s Q c src m {A} (k : KM A) Φ :
  kcore s Q → isokprocn c = true → isidlehardware c = false → has (p_flags (procs s c)) RECEIVING = false →
  (sending (procs s c) = true → src ≠ ANY) →
  (∀ s1 Q1, blocked s s1 c src m → sig_procs s1 = sig_procs s → kcore s1 Q1 → (cur_ok s Q → cur_ok s1 Q1) →
     held_frame s s1 → wp k Φ s1) →
  wp (setp c (λ r, r <| p_getfrom := src |> <| p_messbuf := m |>);;
      f ← fld p_flags c; when (f =? 0) (unready c);;
      setp c (λ r, r <| p_flags := setf (p_flags r) RECEIVING |>);; k) Φ s.
Proof.
  intros [HQ Hm Hi Hst] Hc Hid Hr Hany Hk.
  apply (wp_block s Q c); try done.
  { intros Ht. by apply Hst. }
  { intros r. split_and!; try done. cbn. by apply setf_nonzero. }
  { intros r r' E. destruct r, r'. unfold erase in *. cbn in *.
    by injection E as -> -> -> -> -> -> -> -> -> -> -> -> -> -> -> -> -> ->. }
  intros s1 Q1 He Eo Esw HQ1 Hm1 Hcur _. apply others_fields in Eo as (Eh & Et & Ek & Esp & Em & Esm).
  cbv beta in He. pose proof (peq_fields _ _ He) as Hf.
  set (r1 := upd p_flags _ _) in *.
  assert (Hfl : ∀ i, p_flags (procs s1 i) =
    if decide (i = c) then setf (p_flags (procs s c)) RECEIVING else p_flags (procs s i)).
  { intros i. destruct (Hf i) as (-> & _). fn_cases i c; [by rewrite decide_True|by rewrite decide_False]. }
  assert (Hblk : blocked s s1 c src m).
  { split_and!; [done| | |done]; destruct (Hf c) as (_ & _ & _ & _ & Eg & Emb & _);
      rewrite ?Eg, ?Emb; by rewrite fn_lookup_insert. }
  apply (Hk s1 Q1); try done.
  2:{ split; [|done]. intros i. destruct (Hf i) as (_ & _ & _ & _ & _ & _ & _ & _ & _ & _ & -> & -> & _). by fn_cases i c. }
  split; [done|done| |].
  - apply (ipc_ok_peq _ _ He). apply (ipc_ok_ext (procs s)); [done|..].
    + intros i. unfold sendnext, sending. fn_cases i c; [|done]. cbn. by rewrite has_setf_other.
    + intros i ??. fn_cases i c; [|by apply Hi]. cbn. apply task_flags_setf; [by right|by apply Hi].
    + intros i ?. fn_cases i c; [|by apply Hi]. cbn. rewrite !has_setf_other by done. by apply Hi.
    + intros i ?. fn_cases i c; [|by apply Hi]. unfold sending. cbn. rewrite has_setf_other by done.
      intros Hs _. by apply Hany.
  - apply (static_ok_ext s); [done|by rewrite Esm| |].
    + intros i. rewrite Hfl. destruct (Hf i) as (_ & _ & _ & _ & _ & _ & -> & -> & -> & -> & _).
      fn_cases i c; [|by rewrite decide_False]. split_and!; try done. congruence.
    + rewrite Hfl. case_decide as E; [|done]. rewrite has_setf_other by done. by rewrite E.
Qed.

Lemma mini_rec_run s Q c src m :
  kcore s Q → isokprocn c = true → isidlehardware c = false → has (p_flags (procs s c)) RECEIVING = false →
  (sending (procs s c) = true → src ≠ ANY) →
  (sending (procs s c) = false → isuserp (proc_ptr s) = true → proc_ptr s = c) →
  wp (mini_rec c src m) (λ r s', r = OK ∧ rec_spec s c src m s' ∧ held_frame s s' ∧
     ∃ Q', kcore s' Q' ∧ (cur_ok s Q → cur_ok s' Q')) s.
Proof.
  intros Hk Hc Hid Hr Hany Hcur. destruct (ipc_callers _ (k_ipc _ _ Hk) c Hc) as [L HL].
  unfold mini_rec. do 2 k_step. change (has (p_flags (procs s c)) SENDING) with (sending (procs s c)).
  (* the search *)
  k_step. eapply (wp_mono _ (λ (got : bool) s',
    (got = true ∧ rec_spec s c src m s' ∧ held_frame s s' ∧ ∃ Q', kcore s' Q' ∧ (cur_ok s Q → cur_ok s' Q')) ∨
    (got = false ∧ s' = s ∧ (sending (procs s c) = false → ∃ L, callers_of (procs s) c L ∧
       (∀ x, x ∈ L → accepts src x = false) ∧ p_int_blocked (procs s c) && isrxhardware src = false)))).
  { destruct (sending (procs s c)) eqn:Es; cbn [negb]; [k_step; by right|].
    k_step. rewrite (chain_head _ _ _ (proj1 HL)). eapply wp_mono.
    { apply (rec_loop s Q c src m proc_fuel [] L Hk Hc HL); [|unfold proc_fuel; pose proof (callers_length _ _ _ HL); lia|by auto].
      intros x Hx. by apply elem_of_nil in Hx. }
    cbn beta. intros got s' [(-> & -> & Hn)|(-> & A & y & B & _ & Hrm & Hfr & HQ')].
    - cbn [app] in Hn. destruct (p_int_blocked (procs s c)) eqn:Eb; cbn [andb].
      2:{ k_step. right. split_and!; try done. intros _. exists L. by split_and!. }
      destruct (isrxhardware src) eqn:Erx.
      2:{ k_step. right. split_and!; try done. intros _. exists L. by split_and!. }
      do 5 k_step. left. split; [done|]. split; [exact (rec_interrupt s c src m L Es HL Hn Eb Erx)|].
      split; [split; [|done]; intros i; cbn; by fn_cases i c|].
      set (s1 := s <| mess := _ |>). destruct (kcore_vars s s1 Q Hk) as [Hk1 Hc1]; [done..|].
      exists Q. destruct (kcore_setp s1 Q c ((procs s c) <| p_int_blocked := false |>)) as [Hk2 Hc2]; try done.
      + intros ?. by apply Hk.
      + by apply Hk.
      + by apply Hk.
    - k_step. left. split; [done|]. split; [by eapply rec_got|].
      split; [by apply send_held|done]. }
  cbn beta. intros got s' [(-> & Hsp & Hh & HQ')|(-> & -> & Hnone)]; [by k_step|].
  apply (rec_block_run s Q c src m); try done.
  intros s1 Q1 Hblk Esp Hk1 Hcur1 Hh1. do 3 k_step. rewrite Esp.
  eapply (wp_mono _ (λ _ s2, (if (0 <? sig_procs s) && (c =? MM_PROC_NR) && (src =? ANY)
                              then inform s1 = Ret tt s2 else s2 = s1) ∧ held_frame s s2 ∧
                     ∃ Q2, kcore s2 Q2 ∧ (cur_ok s Q → cur_ok s2 Q2))).
  2:{ cbn beta. intros [] s2 (Hinf & Hh2 & HQ2). k_step. split_and!; [done|by eapply rec_wait|done..]. }
  apply wp_when; intros E; rewrite E; [|split_and!; [done..|by exists Q1]].
  apply andb_true_iff in E as [[_ Ec%Z.eqb_eq]%andb_true_iff Ea%Z.eqb_eq]. subst c src.
  destruct Hblk as (Hfl & Hg & _).
  assert (Hw : waiting_for (procs s1 MM_PROC_NR) HARDWARE = true).
  { apply waiting_intro; rewrite ?Hfl, ?decide_True by done; [by apply has_setf_same| |done].
    rewrite has_setf_other by done. destruct (has (p_flags (procs s MM_PROC_NR)) SENDING) eqn:Es; [|done].
    by destruct (Hany Es). }
  destruct (wp_inv _ _ _ (inform_run s1 Q1 Hk1 Hw)) as ([] & s2 & E2 & H2).
  eapply wp_eq; [exact E2|]. split; [done|].
  destruct H2 as [[-> _]|(rp & Q2 & _ & _ & Hh2 & Hk2 & Hc2 & _)]; (split; [by eapply held_frame_trans|]);
    [by exists Q1|by exists Q2].
Qed.
End receive2.
