(* ===== verification/Kernel.v ===== *)
(** * The kernel's entry points

    [sys_call], [cause_sig], [interrupt] and [unhold] keep the invariant of
    Ipc.v; [kstep] is the transition relation of the message and scheduling
    part of the kernel, whose reachable states all satisfy it. *)

From S2P Require Import Prelude Chain Sigset Proc Sched Ipc Receive.

#[local] Arguments lseg : simpl never.

(** ** Specifications *)

(** [cause_sig p sig]: a signal already pending is ignored; otherwise it is added
    to the pending set, and the first one blocks the process and is passed to MM
    if MM waits for a message. *)
Definition sig_added (s s' : kernel) (p sig : Z) : Prop :=
  p_pending (procs s' p) = (sigaddset (p_pending (procs s p)) sig).2 ∧
  p_pendcount (procs s' p) = u16 (p_pendcount (procs s p) + 1).
Inductive cause_spec (s : kernel) (p sig : Z) : kernel → Prop :=
| cause_known : sigismember (p_pending (procs s p)) sig ≠ 0 → cause_spec s p sig s
| cause_more s' : sigismember (p_pending (procs s p)) sig = 0 →
    has (p_flags (procs s p)) PENDING = true → sig_added s s' p sig →
    p_flags (procs s' p) = p_flags (procs s p) → sig_procs s' = sig_procs s → cause_spec s p sig s'
| cause_first s1 s' : sigismember (p_pending (procs s p)) sig = 0 →
    has (p_flags (procs s p)) PENDING = false → sig_added s s1 p sig →
    p_flags (procs s1 p) = setf (p_flags (procs s p)) (Z.lor PENDING SIG_PENDING) →
    sig_procs s1 = sig_procs s + 1 →
    (if waiting_for (procs s1 MM_PROC_NR) HARDWARE && (p_getfrom (procs s1 MM_PROC_NR) =? ANY)
     then inform s1 = Ret tt s' else s' = s1) →
    cause_spec s p sig s'.

(** [interrupt p]: held while the kernel is busy; remembered when the task is
    not waiting; otherwise delivered. *)
Definition int_ready (r : proc) : bool :=
  (Z.land (p_flags r) (Z.lor RECEIVING SENDING) =? RECEIVING) && isrxhardware (p_getfrom r).

(** [m] is an interrupt message. *)
Definition is_hard_int (m : message) : Prop := m_source m = HARDWARE ∧ m_type m = HARD_INT.

(** A device task: a task that runs. *)
Definition device_task (p : Z) : Prop := istaskp p = true ∧ isokprocn p = true ∧ p ≠ HARDWARE.

(** The interrupt of [p] has reached it: as a message, if it waited for one,
    or as a pending interrupt. *)
Definition int_served (s s' : kernel) (p : Z) : Prop :=
  if int_ready (procs s p)
  then p_flags (procs s' p) = 0 ∧ is_hard_int (mess s' (p_messbuf (procs s p)))
  else p_int_blocked (procs s' p) = true.

(** What one interrupt leaves alone. *)
Definition int_frame (s s' : kernel) (p : Z) : Prop :=
  (∀ i, i ≠ p → p_flags (procs s' i) = p_flags (procs s i) ∧ p_int_blocked (procs s' i) = p_int_blocked (procs s i)) ∧
  (∀ i, p_getfrom (procs s' i) = p_getfrom (procs s i) ∧ p_messbuf (procs s' i) = p_messbuf (procs s i)) ∧
  (∀ b, is_hard_int (mess s b) → is_hard_int (mess s' b)) ∧ k_reenter s' = k_reenter s ∧ switching s' = switching s.

(** [sys_call] by the running process [c]. *)
Inductive call_spec (s : kernel) (fn d m : Z) : Z → kernel → Prop :=
| call_bad_src : isoksrc_dest d = false → call_spec s fn d m E_BAD_SRC s
| call_no_perm : isoksrc_dest d = true → isuserp (proc_ptr s) && negb (fn =? BOTH) = true →
    call_spec s fn d m E_NO_PERM s
| call_send r s' : isoksrc_dest d = true → isuserp (proc_ptr s) && negb (fn =? BOTH) = false →
    fn = SEND → send_spec s (proc_ptr s) d m r s' → call_spec s fn d m r s'
| call_receive s' : isoksrc_dest d = true → isuserp (proc_ptr s) && negb (fn =? BOTH) = false →
    fn = RECEIVE → rec_spec s (proc_ptr s) d m s' → call_spec s fn d m OK s'
| call_both_fail r : isoksrc_dest d = true → fn = BOTH → send_spec s (proc_ptr s) d m r s → r ≠ OK →
    call_spec s fn d m r s
| call_both s1 s' : isoksrc_dest d = true → fn = BOTH → send_spec s (proc_ptr s) d m OK s1 →
    rec_spec s1 (proc_ptr s) d m s' → call_spec s fn d m OK s'.

(** A well-formed call: one of the three functions, and a message is not sent
    to ANY nor to the caller itself. *)
Definition good_call (s : kernel) (fn d : Z) : Prop :=
  (fn = SEND ∨ fn = RECEIVE ∨ fn = BOTH) ∧ (fn ≠ RECEIVE → d ≠ ANY ∧ d ≠ proc_ptr s).

(** [sys_call] tests [function] for the SEND bit, then for SEND itself: every
    other number acts as RECEIVE or BOTH. *)
Definition norm_fn (fn : Z) : Z := if has fn SEND then (if fn =? SEND then SEND else BOTH) else RECEIVE.
(** A task or server sends. *)
Definition system_send (s : kernel) (fn : Z) : bool := negb (isuserp (proc_ptr s)) && has fn SEND.
(** A task or server sends to itself, from a buffer it has. *)
Definition self_send (s : kernel) (fn d m : Z) : bool :=
  system_send s fn && (d =? proc_ptr s) && mess_ok (procs s (proc_ptr s)) m.

(** ** The transition relation *)

(** The invariant of the kernel between operations. *)
Definition kinv (s : kernel) : Prop :=
  ∃ Q H, kcore s Q ∧ cur_ok s Q ∧ held_ok s H ∧ ∀ p, p ∈ H → device_task p.

(** The kernel's entry points; [step_enter] is the change of [k_reenter] by the
    assembly code at kernel entry and exit. *)
Inductive kstep (s : kernel) : kernel → Prop :=
| step_call fn d m r s' :
    proc_ptr s ≠ IDLE → sys_call fn d m s = Ret r s' → kstep s s'
| step_interrupt p s' : device_task p → interrupt p s = Ret tt s' → kstep s s'
| step_unhold s' : held_head s ≠ None → k_reenter s = 0 → unhold s = Ret tt s' → kstep s s'
| step_signal p sig s' : 0 ≤ p < NR_PROCS → cause_sig p sig s = Ret tt s' → kstep s s'
| step_sched s' : lock_sched s = Ret tt s' → kstep s s'
| step_enter k : kstep s (s <| k_reenter := k |>).

(** Equal up to the held-interrupt fields. *)
Definition erase_held (r : proc) : proc := r <| p_nextheld := None |> <| p_int_held := false |>.

Section kernel.
Implicit Types (s : kernel) (Q : queues).

(** ** cause_sig *)
Lemma lock_unready_when s Q p :
  kcore s Q → isokprocn p = true → isidlehardware p = false →
  wp (when (p_flags (procs s p) =? 0) (lock_unready p)) (λ _ s', sched_frame s s' ∧
    ∃ Q', queues_rep s' Q' ∧ mem_ok_but p s' Q' ∧ p ∉ Q' (qof (procs s' p) p) ∧
      (cur_ok s Q → cur_ok s' Q') ∧ (proc_ptr s ≠ p → proc_ptr s' = proc_ptr s)) s.
Proof.
  intros [HQ Hm Hi Hst] Hok Hid. set (s1 := s <| switching := true |>).
  pose proof (unready_when s1 Q p HQ Hm Hok (λ Ht, st_guard _ Hst p Ht Hok Hid)) as Hw.
  change (procs s1) with (procs s) in Hw.
  destruct (p_flags (procs s p) =? 0) eqn:Ef; cbn [when] in Hw |- *.
  - unfold lock_unready. do 3 k_step. fold s1.
    eapply wp_mono; [exact Hw|]. cbn beta. intros [] s' (Hfr & _ & Q' & HQ' & Hm' & Hn & Hc & _ & Hpp). k_step.
    split; [done|]. exists Q'. by split_and!.
  - unfold wp, mret, M_ret in Hw. destruct Hw as (_ & _ & Q' & HQ' & Hm' & Hn & Hc & _ & Hpp). k_step.
    split; [done|]. exists Q'. by split_and!.
Qed.

Lemma waiting_any d : has (p_flags d) RECEIVING = true → p_getfrom d = ANY →
  (has (p_flags d) SENDING = true → has (p_flags d) RECEIVING = true → p_getfrom d ≠ ANY) →
  waiting_for d HARDWARE = true.
Proof.
  intros Hr Hg Hb. apply waiting_intro; try done. destruct (has (p_flags d) SENDING); [|done].
  by destruct (Hb eq_refl Hr).
Qed.

Lemma cause_sig_run s Q p sig :
  kcore s Q → 0 ≤ p < NR_PROCS →
  wp (cause_sig p sig) (λ _ s', cause_spec s p sig s' ∧ held_frame s s' ∧ task_kept s s' ∧
     ∃ Q', kcore s' Q' ∧ (cur_ok s Q → cur_ok s' Q')) s.
Proof.
  intros Hk Hp.
  assert (Hok : isokprocn p = true) by (unfold isokprocn, NR_TASKS, NR_PROCS in *; lia).
  assert (Htask : istaskp p = false) by (unfold istaskp; lia).
  assert (Hid : isidlehardware p = false) by (unfold isidlehardware, IDLE, HARDWARE; lia).
  unfold cause_sig. rewrite (proc_addr_ok _ Hok). do 4 k_step.
  destruct (Z.eqb_spec (sigismember (p_pending (procs s p)) sig) 0) as [Es|Es]; cbn [negb].
  2:{ k_step. split_and!; [by apply cause_known|done|by intros c|by exists Q]. }
  do 2 k_step. set (r1 := upd p_pendcount _ _).
  assert (Hk1 : kcore (s <| procs := <[p := r1]> (procs s) |>) Q ∧
                (cur_ok s Q → cur_ok (s <| procs := <[p := r1]> (procs s) |>) Q)).
  { apply kcore_setp; try done; [by rewrite Htask| |]; intros; by eapply (k_ipc _ _ Hk). }
  destruct Hk1 as [Hk1 Hc1]. set (s1 := s <| procs := _ |>) in *.
  assert (Er1 : procs s1 p = r1) by (cbn; by rewrite fn_lookup_insert).
  assert (Hh1 : held_frame s s1) by (split; [|done]; intros i; cbn; by fn_cases i p).
  assert (Esp1 : sig_procs s1 = sig_procs s) by done.
  assert (Hpp1 : proc_ptr s1 = proc_ptr s) by done.
  assert (Hnt : ∀ c, istaskp c = true → p_flags (procs s1 c) = p_flags (procs s c)).
  { intros c Hc. cbn. fn_cases c p; [congruence|done]. }
  do 2 k_step. clearbody s1.
  assert (Ef1 : p_flags (procs s1 p) = p_flags (procs s p)) by by rewrite Er1.
  destruct (has (p_flags (procs s1 p)) PENDING) eqn:Epd.
  { k_step. rewrite Ef1 in Epd. split_and!; [|done| |by exists Q].
    - apply cause_more; try done. by split; rewrite Er1.
    - intros c Hc Hco Hci Hcf. split; [by rewrite Hnt|by rewrite Hpp1]. }
  k_step. eapply wp_mono; [by apply (lock_unready_when s1 Q p)|].
  cbn beta. intros [] s2 ([He Eo] & Q2 & HQ2 & Hm2 & Hn2 & Hc2 & Hpp2).
  pose proof (peq_fields _ _ He) as Hf. apply others_fields in Eo as (Eh & Et & Ek & Esp & Em & Esm).
  set (r3 := (procs s2 p) <| p_flags := setf (p_flags (procs s2 p)) (Z.lor PENDING SIG_PENDING) |>).
  destruct (mem_ok_set s2 Q2 p r3 HQ2 Hm2 Hn2 eq_refl eq_refl) as (HQ3 & Hm3 & _ & Hc3).
  do 2 k_step. set (s3 := s2 <| procs := _ |>). do 2 k_step.
  set (s4 := s3 <| sig_procs := _ |>).
  assert (Ef2 : p_flags (procs s2 p) = p_flags (procs s p)) by (destruct (Hf p) as (-> & _); done).
  assert (Er4 : procs s4 p = r3) by (cbn; by rewrite fn_lookup_insert).
  assert (Hh4 : held_frame s s4).
  { apply (held_frame_trans _ s1); [done|]. split; [|done]. intros i.
    destruct (Hf i) as (_ & _ & _ & _ & _ & _ & _ & _ & _ & _ & En & Eih & _). cbn.
    destruct (decide (p = i)) as [<-|]; [rewrite fn_lookup_insert|rewrite fn_lookup_insert_ne by done; done].
    unfold r3; cbn. done. }
  assert (Hk4 : kcore s4 Q2).
  { split; [exact HQ3| | |].
    - apply Hm3. cbn. by apply setf_nonzero.
    - apply (ipc_ok_ext (procs s1)); [apply Hk1|..].
      + intros i. destruct (Hf i) as (Efi & Eci & Eli & Esi & _). unfold sendnext, sending. cbn.
        fn_cases i p; [|by rewrite Efi, Esi]. unfold r3; cbn. rewrite Efi, Esi, Eci, Eli, has_setf_other; done.
      + intros i ??. cbn. fn_cases i p; [congruence|]. destruct (Hf i) as (-> & _). by apply Hk1.
      + intros i ?. cbn. fn_cases i p.
        * intros _. unfold r3; cbn. unfold has, setf. rewrite Z.land_lor_distr_l.
          apply negb_true_iff, Z.eqb_neq. intros [_ ?]%Z.lor_eq_0_iff. done.
        * destruct (Hf i) as (-> & _). by apply Hk1.
      + intros i ?. unfold sending. cbn. destruct (Hf i) as (Efi & _ & _ & _ & Eg & _).
        fn_cases i p; [unfold r3; cbn; rewrite !has_setf_other by done|]; rewrite Efi, Eg; by apply Hk1.
    - apply (static_ok_ext s1); [apply Hk1|done| |].
      + intros i. destruct (Hf i) as (Efi & _ & _ & _ & _ & _ & Esi & Egi & EDi & ESi & _). cbn.
        fn_cases i p; [|by rewrite Efi]. unfold r3; cbn. split_and!; try done. congruence.
      + cbn. destruct (Hf MM_PROC_NR) as (Efi & _).
        destruct (decide (p = MM_PROC_NR)) as [Emp|]; [|by rewrite fn_lookup_insert_ne, Efi].
        rewrite <- Emp, fn_lookup_insert. unfold r3; cbn. rewrite has_setf_other by done. by rewrite Emp, Efi. }
  assert (Hc4 : cur_ok s Q → cur_ok s4 Q2) by auto.
  assert (Hadd : sig_added s s4 p sig).
  { destruct (Hf p) as (_ & _ & _ & _ & _ & _ & _ & _ & _ & _ & _ & _ & Epp & Epc & _).
    split; rewrite Er4; unfold r3; cbn; [rewrite Epp|rewrite Epc]; by rewrite Er1. }
  assert (Hnt4 : ∀ c, istaskp c = true → p_flags (procs s4 c) = p_flags (procs s c)).
  { intros c Hc. rewrite <- Hnt by done. cbn. fn_cases c p; [congruence|]. by destruct (Hf c) as (-> & _). }
  assert (Hpp4 : istaskp (proc_ptr s) = true → proc_ptr s4 = proc_ptr s).
  { intros Hu. transitivity (proc_ptr s1); [|done]. apply Hpp2. rewrite Hpp1. intros E. congruence. }
  assert (Hspec : ∀ s', (if waiting_for (procs s4 MM_PROC_NR) HARDWARE && (p_getfrom (procs s4 MM_PROC_NR) =? ANY)
     then inform s4 = Ret tt s' else s' = s4) → cause_spec s p sig s').
  { intros s' Hs'. eapply (cause_first s p sig s4); try done.
    - by rewrite <- Ef1.
    - rewrite Er4. unfold r3; cbn. by rewrite Ef2.
    - cbn. by rewrite Esp, Esp1. }
  change (proc_addr MM_PROC_NR) with (mret MM_PROC_NR : KM Z). do 4 k_step.
  pose proof (ipc_both _ (k_ipc _ _ Hk4) MM_PROC_NR eq_refl) as Hboth.
  destruct (negb (has (p_flags (procs s4 MM_PROC_NR)) RECEIVING) || negb (p_getfrom (procs s4 MM_PROC_NR) =? ANY)) eqn:Eb.
  { k_step. split_and!; [|done|by intros c Hc ? ? ?; split; [rewrite Hnt4|intros Hu; by rewrite (Hpp4 Hu)]|by exists Q2]. apply Hspec.
    destruct (waiting_for (procs s4 MM_PROC_NR) HARDWARE && (p_getfrom (procs s4 MM_PROC_NR) =? ANY)) eqn:Ew; [|done].
    apply andb_true_iff in Ew as [Ew Eg]. rewrite Eg, orb_false_r in Eb.
    destruct (waiting_facts s4 _ _ (k_static _ _ Hk4) Ew) as (Hr & _). by rewrite Hr in Eb. }
  apply orb_false_iff in Eb as [Er%negb_false_iff Eg%negb_false_iff].
  assert (Hw : waiting_for (procs s4 MM_PROC_NR) HARDWARE = true).
  { apply waiting_any; [done|by apply Z.eqb_eq|done]. }
  destruct (wp_inv _ _ _ (inform_run s4 Q2 Hk4 Hw)) as ([] & s5 & E5 & H5).
  eapply wp_eq; [exact E5|]. split; [apply Hspec; by rewrite Hw, Eg|].
  destruct H5 as [[-> _]|(rp & Q5 & _ & _ & Hh5 & Hk5 & Hc5 & Ht5)]; (split; [by eapply held_frame_trans|]).
  - split; [|by exists Q2]. intros c Hc ? ? ?. split; [by rewrite Hnt4|intros Hu; by rewrite (Hpp4 Hu)].
  - split; [|by exists Q5]. intros c Hc Ho Hi Hz. destruct (Ht5 c Hc Ho Hi) as [? Hu5]; [by rewrite Hnt4|].
    split; [done|]. intros Hu. apply Hu5. by rewrite (Hpp4 Hu).
Qed.

(** ** interrupt *)

Lemma interrupt_now s Q p :
  kcore s Q → device_task p → k_reenter s = 0 → switching s = false →
  wp (interrupt p) (λ _ s', int_served s s' p ∧ int_frame s s' p ∧ held_frame s s' ∧
     ∃ Q', kcore s' Q' ∧ (cur_ok s Q → cur_ok s' Q')) s.
Proof.
  intros Hk (Ht & Hok & Hhw) Hre Hsw. unfold interrupt. rewrite (proc_addr_ok _ Hok). do 6 k_step.
  rewrite Hre, Hsw. cbn [Z.eqb negb orb]. do 2 k_step.
  assert (Hid : isidlehardware p = false).
  { unfold isidlehardware, istaskp in *. lia. }
  pose proof (ipc_tasks _ (k_ipc _ _ Hk) p Ht Hok) as Htf. unfold int_served.
  destruct (int_ready (procs s p)) eqn:Ei; unfold int_ready in Ei.
  2:{ rewrite <- negb_andb, Ei. cbn [negb]. k_step.
      destruct (kcore_setp s Q p ((procs s p) <| p_int_blocked := true |>)) as [Hk1 Hc1]; try done;
        [intros; by apply Hk..|].
      split_and!; try done; [cbn; by rewrite fn_lookup_insert| | |by exists Q].
      - split_and!; try done; intros i; cbn; [intros ?; by fn_cases i p|by fn_cases i p].
      - split; [|done]. intros i. cbn. by fn_cases i p. }
  rewrite <- negb_andb, Ei. cbn [negb]. apply andb_true_iff in Ei as [Ef Ex].
  apply waiting_flags in Ef as [Hr Hs].
  do 2 k_step. set (s1 := s <| mess := _ |>). do 2 k_step.
  set (r := upd p_int_blocked _ _). set (s2 := s1 <| procs := _ |>).
  assert (Efr : p_flags r = 0).
  { apply task_flags_0; [apply task_flags_clrf, Htf| |apply has_clrf_same].
    cbn. rewrite has_clrf_other; done. }
  destruct Hk as [HQ Hm Hi Hst].
  assert (Hn : p ∉ Q (qof (procs s p) p)).
  { rewrite (Hm p Hok). intros [H _]. by rewrite H, has_0 in Hr. }
  destruct (mem_ok_set s Q p r HQ (λ x Hx _, Hm x Hx) Hn eq_refl eq_refl) as (HQ2 & _ & Hm2 & Hc2).
  assert (Er : enqueue TASK_Q p true = ready p) by (unfold ready; by rewrite Ht). rewrite Er.
  pose proof (ready_when s2 Q p HQ2 Hm2) as Hw. cbn in Hw. rewrite fn_lookup_insert in Hw.
  specialize (Hw Hn Hok Hid). rewrite Efr in Hw. cbn in Hw.
  eapply wp_mono; [exact Hw|]. cbn beta. intros [] s3 ([He Eo] & Esw & Q' & HQ' & Hm' & _ & Hcur).
  change (procs s2) with (<[p := r]> (procs s)) in He. pose proof (peq_fields _ _ He) as Hf.
  apply others_fields in Eo as (Eh & Et & Ek & Esp & Em & Esm). unfold int_frame, is_hard_int. rewrite Em.
  split_and!; try done.
  - destruct (Hf p) as (-> & _). by rewrite fn_lookup_insert.
  - cbn. by rewrite fn_lookup_insert.
  - cbn. by rewrite fn_lookup_insert.
  - intros i Hne. destruct (Hf i) as (-> & _ & _ & _ & _ & _ & _ & _ & _ & _ & _ & _ & _ & _ & ->).
    by rewrite fn_lookup_insert_ne.
  - intros i. destruct (Hf i) as (_ & _ & _ & _ & -> & -> & _). by fn_cases i p.
  - intros b Hb. cbn. by fn_cases b (p_messbuf (procs s p)).
  - split; [|done]. intros i. destruct (Hf i) as (_ & _ & _ & _ & _ & _ & _ & _ & _ & _ & -> & -> & _).
    by fn_cases i p.
  - exists Q'. split; [split; [done|done| |]|].
    + apply (ipc_ok_peq _ _ He). apply (ipc_ok_ext (procs s)); [done|..].
      * intros i. unfold sendnext, sending. fn_cases i p; [|done]. rewrite Efr, has_0. by rewrite Hs.
      * intros i ??. fn_cases i p; [by rewrite Efr|by apply Hi].
      * intros i ?. fn_cases i p; [by rewrite Efr, has_0|by apply Hi].
      * intros i ?. unfold sending. fn_cases i p; [by rewrite Efr, has_0|by apply Hi].
    + apply (static_ok_ext s); [done|by rewrite Esm| |].
      * intros i. destruct (Hf i) as (-> & _ & _ & _ & _ & _ & -> & -> & -> & -> & _).
        by fn_cases i p.
      * destruct (Hf MM_PROC_NR) as (-> & _). rewrite fn_lookup_insert_ne; [done|]. intros ->. done.
    + intros Hcu. apply Hcur; [|by apply Hc2]. right. left. destruct (isuserp p) eqn:Eu; [|done].
      by rewrite (user_not_task _ Eu) in Ht.
Qed.

Lemma erase_held_fields r r' : erase_held r' = erase_held r →
  p_flags r' = p_flags r ∧ p_sendto r' = p_sendto r ∧ p_getfrom r' = p_getfrom r ∧
  p_messbuf r' = p_messbuf r ∧ p_shadow r' = p_shadow r ∧ p_stguard r' = p_stguard r ∧
  p_map_D r' = p_map_D r ∧ p_map_S r' = p_map_S r ∧ p_callerq r' = p_callerq r ∧
  p_sendlink r' = p_sendlink r ∧ p_nextready r' = p_nextready r ∧ p_int_blocked r' = p_int_blocked r.
Proof. destruct r, r'. unfold erase_held. cbn. intros E. by injection E. Qed.

Lemma kcore_erase_held s s' Q : kcore s Q → (∀ i, erase_held (procs s' i) = erase_held (procs s i)) →
  rdy_head s' = rdy_head s → rdy_tail s' = rdy_tail s → proc_ptr s' = proc_ptr s → sys_m s' = sys_m s →
  kcore s' Q ∧ (cur_ok s Q → cur_ok s' Q).
Proof.
  intros [HQ Hm Hi Hst] He Eh Et Ep Esm.
  assert (Hf : ∀ i, _) by exact (λ i, erase_held_fields _ _ (He i)).
  destruct (sched_ext s s' Q) as (H1 & H2 & H3); [|done..|].
  { intros i. destruct (Hf i) as (-> & _ & _ & _ & -> & _ & _ & _ & _ & _ & -> & _). done. }
  split; [|done]. split; [by auto|by auto| |].
  - apply (ipc_ok_ext (procs s)); [done|..]; intros i; unfold sendnext, sending;
      destruct (Hf i) as (E1 & E2 & E3 & _ & _ & _ & _ & _ & E4 & E5 & _);
      rewrite ?E1, ?E2, ?E3, ?E4, ?E5; [done|apply Hi..].
  - apply (static_ok_ext s); [done|done| |by destruct (Hf MM_PROC_NR) as (-> & _)].
    intros i. destruct (Hf i) as (-> & _ & _ & _ & -> & -> & -> & -> & _). done.
Qed.

(** Appending to the queue of held interrupts. *)
Lemma interrupt_held s Q H p :
  kcore s Q → held_ok s H → isokprocn p = true → (∀ x, x ∈ H → isokprocn x = true) →
  k_reenter s ≠ 0 ∨ switching s = true →
  wp (interrupt p) (λ _ s', held_ok s' (if decide (p ∈ H) then H else H ++ [p]) ∧
     kcore s' Q ∧ (cur_ok s Q → cur_ok s' Q) ∧ (∀ i, p_flags (procs s' i) = p_flags (procs s i)) ∧
     mess s' = mess s) s.
Proof.
  intros Hk (Hch & Htl & Hmem) Hok Hall Hbusy. unfold interrupt. rewrite (proc_addr_ok _ Hok). do 6 k_step.
  assert (E : negb (k_reenter s =? 0) || switching s = true).
  { destruct Hbusy as [Hb| ->]; [|by rewrite orb_true_r]. by destruct (Z.eqb_spec (k_reenter s) 0). }
  rewrite E. do 2 k_step. apply wp_when.
  2:{ intros Eh%negb_false_iff. rewrite decide_True by by apply Hmem. split_and!; done. }
  intros Eh%negb_true_iff. assert (Hn : p ∉ H) by (rewrite (Hmem p Hok); by rewrite Eh).
  rewrite decide_False by done.
  do 4 k_step. cbn [held_head upd upd_procs]. rewrite (chain_head _ _ _ Hch).
  set (f1 := <[p := (procs s p) <| p_int_held := true |>]> (procs s)).
  set (f2 := match last H with Some t => <[t := (f1 t) <| p_nextheld := Some p |>]> f1 | None => f1 end).
  k_step. eapply (wp_mono _ (λ _ s', s' = s <| procs := f2 |> <| held_head := head (H ++ [p]) |>)).
  { unfold f2. destruct H as [|h H _] using rev_ind; cbn [head last app]; [by k_step|].
    rewrite last_snoc. destruct (head (H ++ [h])) as [h0|] eqn:E0; [|by destruct H].
    k_step. k_step. cbn [held_tail upd upd_procs]. rewrite (Htl ltac:(by destruct H)), last_snoc.
    k_step. k_step. k_step.
    replace (head ((H ++ [h]) ++ [p])) with (held_head s); [by destruct s|].
    rewrite (chain_head _ _ _ Hch). by destruct H. }
  intros [] s1 ->. repeat k_step. cbn. set (f3 := <[p := (f2 p) <| p_nextheld := None |>]> f2).
  assert (Hnx : ∀ i, p_nextheld (f3 i) = match last H with
      | Some t => relink (relink (nextheld s) t (Some p)) p None i
      | None => relink (nextheld s) p None i end).
  { intros i. unfold f3. destruct (decide (p = i)) as [<-|Hi].
    - rewrite fn_lookup_insert. destruct (last H); by rewrite relink_same.
    - rewrite fn_lookup_insert_ne by done. unfold f2. destruct (last H) as [t|]; rewrite relink_ne by done.
      + unfold relink. case_decide as Et; [subst i; by rewrite fn_lookup_insert|].
        rewrite fn_lookup_insert_ne by done. unfold f1. by rewrite fn_lookup_insert_ne.
      + unfold f1. by rewrite fn_lookup_insert_ne. }
  assert (Hih : ∀ i, p_int_held (f3 i) = if decide (i = p) then true else p_int_held (procs s i)).
  { intros i. transitivity (p_int_held (f2 i)). { unfold f3. by fn_cases i p. }
    transitivity (p_int_held (f1 i)). { unfold f2. destruct (last H) as [t|]; [by fn_cases i t|done]. }
    unfold f1. fn_cases i p; [by rewrite decide_True|by rewrite decide_False]. }
  assert (Hfld : ∀ i, erase_held (f3 i) = erase_held (procs s i)).
  { intros i. transitivity (erase_held (f2 i)). { unfold f3. by fn_cases i p. }
    transitivity (erase_held (f1 i)). { unfold f2. destruct (last H) as [t|]; [by fn_cases i t|done]. }
    unfold f1. by fn_cases i p. }
  set (s5 := s <| procs := f2 |> <| held_head := _ |> <| held_tail := _ |> <| procs := _ |>).
  destruct (kcore_erase_held s s5 Q Hk) as [Hk5 Hc5]; [done..|].
  split_and!; [split_and!|done|done| |done].
  - destruct H as [|t H _] using rev_ind; cbn [app].
    + split; [done|]. change (nextheld s5 p) with (p_nextheld (f3 p)). rewrite Hnx. cbn. by rewrite relink_same.
    + rewrite last_snoc in Hnx. rewrite <- app_assoc. cbn [app].
      replace (held_head s5) with (held_head s).
      2:{ rewrite (chain_head _ _ _ Hch). cbn. by destruct H. }
      eapply lseg_ext, (chain_snoc _ _ H t p Hn Hch). intros k _. exact (Hnx k).
  - intros _. by rewrite last_snoc.
  - intros x Hx. change (procs s5 x) with (f3 x). rewrite Hih. rewrite elem_of_app, list_elem_of_singleton, (Hmem x Hx).
    case_decide; naive_solver.
  - intros i. by destruct (erase_held_fields _ _ (Hfld i)) as (-> & _).
Qed.


(** ** unhold *)
Lemma unhold_loop s Q p R fuel :
  kcore s Q → held_ok s (p :: R) → (∀ x, x ∈ p :: R → device_task x) → NoDup (p :: R) →
  k_reenter s = 0 → switching s = false → (length R < fuel)%nat →
  wp (loop fuel unhold_step p) (λ _ s', held_ok s' [] ∧ (∀ x, x ∈ p :: R → int_served s s' x) ∧
     (∀ i, i ∉ p :: R → p_flags (procs s' i) = p_flags (procs s i) ∧
                        p_int_blocked (procs s' i) = p_int_blocked (procs s i)) ∧
     (∀ b, is_hard_int (mess s b) → is_hard_int (mess s' b)) ∧
     ∃ Q', kcore s' Q' ∧ (cur_ok s Q → cur_ok s' Q')) s.
Proof.
  revert s Q p R. induction fuel as [|fuel IH]; intros s Q p R Hk (Hch & Htl & Hmem) Hdev Hnd Hre Hsw Hlen; [lia|].
  rewrite loop_unfold. k_step. unfold unhold_step at 1. do 4 k_step.
  destruct Hch as [Ehd Hch]. pose proof (chain_head _ _ _ Hch) as Ehn. unfold nextheld in Ehn at 1.
  apply NoDup_cons in Hnd as [HpR Hnd].
  k_step. set (tl := if decide (R = []) then None else held_tail s).
  eapply (wp_mono _ (λ _ s', s' = s <| held_head := head R |> <| held_tail := tl |>)).
  { rewrite Ehn. unfold tl. apply wp_when; intros E; unfold ptr_eq in E.
    - apply bool_decide_eq_true in E. rewrite decide_True by (by destruct R). by k_step.
    - apply bool_decide_eq_false in E. rewrite decide_False; [by destruct s|]. by intros ->. }
  intros [] s0 ->. do 2 k_step. set (s1 := _ <| procs := _ |>).
  destruct (kcore_erase_held s s1 Q Hk) as [Hk1 Hc1]; [|done..|].
  { intros i. cbn. by fn_cases i p. }
  assert (Hh1 : held_ok s1 R).
  { split_and!.
    - change (held_head s1) with (head R). rewrite <- Ehn. eapply lseg_ext, Hch. intros k _.
      unfold nextheld; cbn. by fn_cases k p.
    - intros Hne. cbn. unfold tl. rewrite decide_False by done. rewrite Htl by done.
      destruct R; [done|]. by rewrite last_cons_cons.
    - intros x Hx. cbn. fn_cases x p; [split; [by intros ?|done]|].
      rewrite <- (Hmem x Hx). split; [by right|]. by intros [->|?]%elem_of_cons. }
  assert (Hdp : device_task p) by (apply Hdev; left).
  k_step. eapply wp_mono; [by apply (interrupt_now s1 Q p)|].
  cbn beta. intros [] s2 (Hserved & (Hfr1 & Hfr2 & Hfr3 & Hre2 & Hsw2) & Hhf & Q2 & Hk2 & Hc2).
  pose proof (held_ok_frame _ _ _ Hhf Hh1) as Hh2. do 2 k_step. rewrite (chain_head _ _ _ (proj1 Hh2)).
  assert (Hs1 : ∀ i, p_flags (procs s1 i) = p_flags (procs s i) ∧ p_getfrom (procs s1 i) = p_getfrom (procs s i) ∧
     p_messbuf (procs s1 i) = p_messbuf (procs s i) ∧ p_int_blocked (procs s1 i) = p_int_blocked (procs s i)).
  { intros i. cbn. by fn_cases i p. }
  assert (Hready : ∀ i, int_ready (procs s1 i) = int_ready (procs s i)).
  { intros i. unfold int_ready. by destruct (Hs1 i) as (-> & -> & _). }
  destruct R as [|p' R]; cbn [head]; cbv iota; k_step; cbv iota.
  { k_step. split_and!; [done| | |done|].
    - intros x ->%list_elem_of_singleton. unfold int_served in *. rewrite <- Hready.
      by destruct (Hs1 p) as (_ & _ & <- & _).
    - intros i Hi. destruct (Hfr1 i) as [-> ->]; [intros ->; apply Hi; left|]. by destruct (Hs1 i) as (-> & _ & _ & ->).
    - exists Q2. auto. }
  eapply wp_mono.
  { apply (IH s2 Q2 p' R Hk2 Hh2); [intros; apply Hdev; by right|exact Hnd|by rewrite Hre2|by rewrite Hsw2|cbn in Hlen; lia]. }
  cbn beta. intros [] s3 (Hh3 & Hall & Hrest & Hmess & Q3 & Hk3 & Hc3).
  assert (Hsame : ∀ i, i ≠ p → int_ready (procs s2 i) = int_ready (procs s i) ∧ p_messbuf (procs s2 i) = p_messbuf (procs s i)).
  { intros i Hi. destruct (Hfr1 i Hi) as [E1 _]. destruct (Hfr2 i) as [E2 E3]. unfold int_ready.
    rewrite E1, E2, E3. by destruct (Hs1 i) as (-> & -> & -> & _). }
  split_and!; [done| | |auto|exists Q3; auto].
  - intros x [->|Hx]%elem_of_cons.
    + unfold int_served in *. destruct (Hrest p HpR) as [E1 E2]. rewrite Hready in Hserved.
      rewrite E1, E2. destruct (Hs1 p) as (_ & _ & Emb & _). rewrite Emb in Hserved.
      destruct (int_ready (procs s p)); [|done]. destruct Hserved. split; [done|]. by apply Hmess.
    + specialize (Hall x Hx). unfold int_served in *.
      destruct (Hsame x) as [E1 E2]; [by intros ->|].
      by rewrite E1, E2 in Hall.
  - intros i Hi. destruct (Hrest i) as [-> ->]; [intros ?; apply Hi; by right|].
    destruct (Hfr1 i) as [-> ->]; [intros ->; apply Hi; left|]. by destruct (Hs1 i) as (-> & _ & _ & ->).
Qed.

Lemma held_length s H : held_ok s H → (∀ p, p ∈ H → device_task p) → (length H ≤ 75)%nat ∧ NoDup H.
Proof.
  intros (Hch & _) Hdev. pose proof (chain_NoDup _ _ _ Hch). split; [|done].
  apply ok_length; [done|]. intros p Hp. by destruct (Hdev p Hp) as (_ & ? & _).
Qed.

Lemma unhold_run s Q H :
  kcore s Q → held_ok s H → (∀ p, p ∈ H → device_task p) → H ≠ [] → k_reenter s = 0 → switching s = false →
  wp unhold (λ _ s', held_ok s' [] ∧ (∀ p, p ∈ H → int_served s s' p) ∧
     ∃ Q', kcore s' Q' ∧ (cur_ok s Q → cur_ok s' Q')) s.
Proof.
  intros Hk Hh Hdev Hne Hre Hsw. destruct (held_length s H Hh Hdev) as [Hlen Hnd].
  unfold unhold. do 2 k_step. rewrite Hsw. do 2 k_step. rewrite (chain_head _ _ _ (proj1 Hh)).
  destruct H as [|p R]; [done|]. cbn [head]. do 2 k_step.
  eapply wp_mono; [apply (unhold_loop s Q p R); try done; cbn in Hlen; unfold proc_fuel; lia|].
  cbn beta. intros [] s' (? & ? & _ & _ & ?). done.
Qed.

(** ** sys_call *)
Lemma cur_facts s Q : kcore s Q → cur_ok s Q → proc_ptr s ≠ IDLE →
  isokprocn (proc_ptr s) = true ∧ p_flags (procs s (proc_ptr s)) = 0 ∧ isidlehardware (proc_ptr s) = false.
Proof.
  intros Hk [?|(Hok & Hh & _)] Hne; [done|]. split; [done|]. apply (k_mem _ _ Hk); [done|].
  destruct (Q _); [done|]. injection Hh as ->. left.
Qed.

Lemma sys_call_run s Q fn d m :
  kcore s Q → cur_ok s Q → proc_ptr s ≠ IDLE → good_call s fn d →
  wp (sys_call fn d m) (λ r s', call_spec s fn d m r s' ∧ held_frame s s' ∧ ∃ Q', kcore s' Q' ∧ cur_ok s' Q') s.
Proof.
  intros Hk Hc Hne [Hfn Hgood]. destruct (cur_facts s Q Hk Hc Hne) as (Hok & Hf & Hid).
  unfold sys_call. destruct (isoksrc_dest d) eqn:Ed; cbn [negb].
  2:{ k_step. split_and!; [by apply call_bad_src|done|by exists Q]. }
  do 2 k_step. destruct (isuserp (proc_ptr s) && negb (fn =? BOTH)) eqn:Eu.
  { k_step. split_and!; [by apply call_no_perm|done|by exists Q]. }
  assert (Hd : fn ≠ RECEIVE → isokprocn d = true ∧ proc_ptr s ≠ d).
  { intros H. destruct (Hgood H) as [Ha Hs]. unfold isoksrc_dest in Ed.
    apply orb_true_iff in Ed as [?|?%Z.eqb_eq]; [|done]. split; [done|congruence]. }
  destruct (has fn SEND) eqn:Es.
  - assert (Hnr : fn ≠ RECEIVE) by (by intros ->). destruct (Hd Hnr) as [Hdok Hdne].
    k_step. eapply wp_mono.
    { apply (mini_send_run s Q (proc_ptr s) d m Hk Hok Hdok Hdne Hf); [by rewrite Hid|by left]. }
    cbn beta. intros r s1 (Hspec & Hfr & Hsame & Hpp & Hrc & Q1 & Hk1 & Hc1).
    pose proof (send_held _ _ Hfr) as Hh.
    destruct (Z.eqb_spec fn SEND) as [->|Hns]; cbn [orb].
    { k_step. split_and!; [by eapply call_send|done|exists Q1; auto]. }
    assert (fn = BOTH) as -> by naive_solver.
    destruct (Z.eqb_spec r OK) as [->|Hr]; cbn [negb].
    2:{ k_step. rewrite (Hsame Hr) in *. split_and!; [by apply call_both_fail|done|by exists Q]. }
    eapply wp_mono.
    { apply (mini_rec_run s1 Q1 (proc_ptr s) d m Hk1 Hok Hid Hrc); [|by auto].
      intros _. by destruct (Hgood Hnr). }
    cbn beta. intros r s2 (-> & Hspec2 & Hh2 & Q2 & Hk2 & Hc2).
    split_and!; [by eapply call_both|by eapply held_frame_trans|exists Q2; auto].
  - assert (fn = RECEIVE) as -> by (destruct Hfn as [->|[->| ->]]; done).
    eapply wp_mono.
    { apply (mini_rec_run s Q (proc_ptr s) d m Hk Hok Hid); [by rewrite Hf, has_0| |done].
      unfold sending. by rewrite Hf, has_0. }
    cbn beta. intros r s2 (-> & Hspec2 & Hh2 & Q2 & Hk2 & Hc2).
    split_and!; [by apply call_receive|done|exists Q2; auto].
Qed.

(** Any function number. *)
Lemma sys_call_norm s fn d m : isuserp (proc_ptr s) = false → sys_call fn d m s = sys_call (norm_fn fn) d m s.
Proof.
  intros Hu. unfold sys_call. destruct (isoksrc_dest d); cbn [negb]; [|done].
  unfold mbind, M_bind, gets. rewrite Hu. cbn [andb]. unfold norm_fn. destruct (has fn SEND) eqn:Es; [|done].
  by destruct (Z.eqb_spec fn SEND) as [->|Hn].
Qed.

(** A user process that does not send to a server is refused. *)
Lemma user_call_refused s fn d m : isuserp (proc_ptr s) = true → fn ≠ BOTH ∨ issysentn d = false →
  wp (sys_call fn d m) (λ _ s', s' = s) s.
Proof.
  intros Hu Hb. unfold sys_call. destruct (isoksrc_dest d); cbn [negb]; [|by k_step].
  do 2 k_step. rewrite Hu. cbn [andb]. destruct (Z.eqb_spec fn BOTH) as [->|Hn]; cbn [negb]; [|by k_step].
  destruct Hb as [?|Hd]; [done|]. change (has BOTH SEND) with true. cbv iota. k_step.
  unfold mini_send. rewrite Hu, Hd. cbn [andb negb]. k_step. by k_step.
Qed.

(** A process that can run and sends to itself blocks on its own queue. *)
Lemma self_block_run s Q c m :
  kcore s Q → isokprocn c = true → p_flags (procs s c) = 0 → isidlehardware c = false →
  wp (block_caller c c c m) (λ _ s', sending (procs s' c) = true ∧ p_sendto (procs s' c) = c) s.
Proof.
  intros [HQ Hm Hi Hst] Hc Hf Hid. destruct (ipc_callers _ Hi c Hc) as [L HL]. unfold block_caller.
  apply (wp_block s Q c); try done.
  { intros Ht. by apply Hst. }
  { intros r. split_and!; try done. cbn. by apply setf_nonzero. }
  { intros r r' E. destruct r, r'. unfold erase in *. cbn in *. by injection E as -> -> -> -> -> -> -> -> -> -> -> -> -> -> -> -> -> ->. }
  intros s1 Q1 He _ _ _ _ _ _. cbv beta in He. pose proof (peq_fields _ _ He) as Hf1.
  destruct (Hf1 c) as (Efl & Ecq & _ & Est & _). rewrite fn_lookup_insert in Efl, Ecq, Est. cbn in Efl, Ecq, Est.
  assert (Hsl : ∀ i, sendlink (procs s1) i = sendlink (procs s) i).
  { intros i. unfold sendlink. destruct (Hf1 i) as (_ & _ & -> & _). by fn_cases i c. }
  assert (Hs : sending (procs s1 c) = true) by (unfold sending; rewrite Efl; by apply has_setf_same).
  do 2 k_step. rewrite Ecq, (chain_head _ _ _ (proj1 HL)). k_step.
  eapply (wp_mono _ (λ _ s', sending (procs s' c) = true ∧ p_sendto (procs s' c) = c)).
  { destruct L as [|x R]; cbn [head].
    - k_step. cbn. by rewrite fn_lookup_insert.
    - k_step. eapply wp_mono.
      { apply (last_caller_loop s1 proc_fuel x R).
        - destruct HL as [HL0 _]. pose proof (chain_head _ _ _ HL0) as E0. cbn [head] in E0. rewrite E0 in HL0.
          eapply lseg_ext, HL0. intros; apply Hsl.
        - pose proof (callers_length _ _ _ HL) as Hlen. cbn in Hlen. unfold proc_fuel. lia. }
      cbn beta. intros y s' [-> _]. k_step. cbn. by fn_cases c y. }
  cbn beta. intros [] s2 [H1 H2]. k_step. cbn. by rewrite fn_lookup_insert.
Qed.

(** A task or server that sends to itself. *)
Lemma self_send_run s Q fn m :
  kcore s Q → cur_ok s Q → proc_ptr s ≠ IDLE → system_send s fn = true →
  wp (sys_call fn (proc_ptr s) m) (λ r s',
    if mess_ok (procs s (proc_ptr s)) m then r = OK ∧ sendnext (procs s') (proc_ptr s) = Some (proc_ptr s)
    else r = EFAULT ∧ s' = s) s.
Proof.
  intros Hk Hc Hne [Hu%negb_true_iff Hs]%andb_true_iff. destruct (cur_facts s Q Hk Hc Hne) as (Hok & Hf & Hid).
  set (c := proc_ptr s) in *. assert (Hany : c ≠ ANY) by (intros E; by rewrite E in Hok).
  unfold sys_call. unfold isoksrc_dest. rewrite Hok. cbn [orb negb]. do 2 k_step.
  fold c. rewrite Hu, Hs. cbn [andb]. k_step. eapply (wp_mono _ (λ r s',
    if mess_ok (procs s c) m then r = OK ∧ sending (procs s' c) = true ∧ p_sendto (procs s' c) = c else r = EFAULT ∧ s' = s)).
  { unfold mini_send. rewrite Hu, (proc_addr_ok _ Hok). cbn [andb]. do 4 k_step. rewrite Hf, !has_0. do 2 k_step.
    destruct (mess_ok (procs s c) m); cbn [negb]; [|by k_step].
    assert (Hw : waiting_for (procs s c) c = false) by (unfold waiting_for; by rewrite Hf).
    do 4 k_step. rewrite Hw. k_step.
    eapply wp_mono; [by apply (self_block_run s Q c m)|]. cbn beta. intros [] s' H. by k_step. }
  cbn beta. intros r s1 H. destruct (mess_ok (procs s c) m).
  2:{ destruct H as [-> ->]. rewrite orb_true_r. by k_step. }
  destruct H as (-> & Hs1 & Ht). assert (Hnx : sendnext (procs s1) c = Some c) by (unfold sendnext; by rewrite Hs1, Ht).
  destruct (fn =? SEND); cbn [orb negb Z.eqb]; [by k_step|]. rewrite Z.eqb_refl. cbn [negb].
  unfold mini_rec. do 2 k_step. change (has (p_flags (procs s1 c)) SENDING) with (sending (procs s1 c)). rewrite Hs1. cbn [negb].
  do 6 k_step. cbn [procs upd upd_procs]. rewrite fn_lookup_insert.
  assert (Hf1 : (p_flags (procs s1 c) =? 0) = false).
  { apply Z.eqb_neq. intros E. unfold sending in Hs1. by rewrite E in Hs1. }
  change (p_flags (_ <| p_messbuf := m |>)) with (p_flags (procs s1 c)). rewrite Hf1. cbn [when].
  do 6 k_step. rewrite (proj2 (Z.eqb_neq c ANY) Hany), andb_false_r. cbn [when]. do 2 k_step. split; [done|].
  unfold sendnext, sending. cbn. rewrite !fn_lookup_insert. cbn. rewrite has_setf_other by done.
  fold (sending (procs s1 c)). by rewrite Hs1, Ht.
Qed.

(** ** lock_sched *)
Lemma lock_sched_run s Q : kcore s Q → 
  wp lock_sched (λ _ s', kcore s' (spec_sched Q) ∧ (cur_ok s Q → cur_ok s' (spec_sched Q)) ∧ held_frame s s' ∧
     peq (procs s) (procs s') ∧ proc_ptr s' = if decide (Q USER_Q = []) then proc_ptr s else spec_pick (spec_sched Q)) s.
Proof.
  intros [HQ Hm Hi Hst]. unfold lock_sched. do 3 k_step.
  eapply wp_mono; [by apply (sched_run _ Q)|]. cbn beta. intros [] s1 (Hfr & HQ1 & _ & Epp). k_step.
  set (s2 := s1 <| switching := false |>). pose proof Hfr as [He Eo]. change (procs (s <| switching := true |>)) with (procs s) in He.
  assert (Hin : ∀ q x, x ∈ spec_sched Q q ↔ x ∈ Q q).
  { intros q x. unfold spec_sched. destruct (decide (USER_Q = q)) as [<-|]; [|by rewrite fn_lookup_insert_ne].
    rewrite fn_lookup_insert. unfold rotate. destruct (Q USER_Q); [done|]. set_solver. }
  assert (HQ2 : queues_rep s2 (spec_sched Q)) by done.
  split_and!; [split; [done| | |]| | |done|done].
  - intros p Hp. change (procs s2) with (procs s1). destruct (peq_fields _ _ He p) as (-> & _).
    rewrite (erase_qof _ _ p (He p)), Hin. by apply Hm.
  - by apply (ipc_ok_peq _ _ He).
  - apply (static_ok_frame s); [|done]. done.
  - intros Hcur. destruct (decide (Q USER_Q = [])) as [E|E]; [|by apply pick_cur].
    destruct Hcur as [Hcu|(Hok & Hh & Hsh)]; [left; by rewrite <- Hcu|]. right.
    change (proc_ptr s2) with (proc_ptr s1). rewrite Epp. cbn [proc_ptr upd upd_switching]. change (procs s2) with (procs s1).
    rewrite (erase_qof _ _ _ (He _)). split_and!; [done| |done]. rewrite <- Hh.
    unfold spec_sched. rewrite E. f_equal. by apply insert_id_at.
  - apply others_fields in Eo as (Eh & Et & _). split; [|done]. intros i.
    destruct (peq_fields _ _ He i) as (_ & _ & _ & _ & _ & _ & _ & _ & _ & _ & En & Eih & _). done.
Qed.
End kernel.
