(* ===== verification/Boot.v ===== *)
(** * The kernel's initial state and its properties *)

From S2P Require Import Prelude Chain Sigset Proc Sched Ipc Receive Kernel.

Definition boot_state (sizes : Z → Z) (m : Z) : kernel :=
  match boot sizes (zero_kernel m) with Ret _ s => s | _ => zero_kernel m end.
Definition boot_queues : queues := λ q,
  if q =? 0 then [-11; -10; -9; -8; -6; -5; -4; -3; -2] else if q =? 1 then [0; 1; 2]
  else if q =? 2 then [3] else [].

Section boot.
Context (sizes : Z → Z) (m : Z).

Lemma boot_ret : ∃ b, boot sizes (zero_kernel m) = Ret b (boot_state sizes m).
Proof.
  unfold boot_state. 
  assert (H : match boot sizes (zero_kernel m) with Ret _ _ => true | _ => false end = true) by (vm_compute; reflexivity).
  destruct (boot sizes (zero_kernel m)); try discriminate. by eexists.
Qed.
#[local] Opaque boot_state.

(** A property of every table entry, checked by computation. *)
Definition all_procs (f : Z → bool) : bool := forallb f (seqZ (-11) 75).

Lemma all_procs_spec f p : all_procs f = true → isokprocn p = true → f p = true.
Proof.
  intros H Hok. unfold all_procs in H. rewrite forallb_forall in H. apply H.
  apply list_elem_of_In, elem_of_seqZ. unfold isokprocn, NR_TASKS, NR_PROCS in Hok. lia.
Qed.

Lemma boot_queue_cases (P : Z → Prop) : P 0 → P 1 → P 2 → P 3 → ∀ q, 0 ≤ q < 4 → P q.
Proof. intros ???? q Hq. assert (q = 0 ∨ q = 1 ∨ q = 2 ∨ q = 3) as [->|[->|[->| ->]]] by lia; done. Qed.

Lemma boot_chain : ∀ q, 0 ≤ q < 4 → queue_rep (boot_state sizes m) q (boot_queues q).
Proof.
  apply boot_queue_cases; (split; [repeat (split; [vm_compute; reflexivity|]); vm_compute; reflexivity|]);
    intros _; vm_compute; reflexivity.
Qed.

(** Every flag, caller queue and shadow of the initial table. *)
Lemma boot_fields p : isokprocn p = true →
  let r := procs (boot_state sizes m) p in
  p_flags r = (if p <=? LOW_USER then 0 else P_SLOT_FREE) ∧ p_callerq r = None ∧ p_shadow r = 0 ∧
  p_int_held r = false ∧ (isidlehardware p = false → istaskp p = true → p_stguard r = STACK_GUARD).
Proof.
  intros Hok r.
  pose proof (all_procs_spec (λ p, let r := procs (boot_state sizes m) p in
    (p_flags r =? (if p <=? LOW_USER then 0 else P_SLOT_FREE)) && ptr_eq (p_callerq r) None && (p_shadow r =? 0) &&
    negb (p_int_held r) && (isidlehardware p || negb (istaskp p) || (p_stguard r =? STACK_GUARD))) p) as H.
  cbv zeta in H. specialize (H ltac:(vm_compute; reflexivity) Hok). subst r.
  rewrite !andb_true_iff in H. destruct H as ((((H1 & H2) & H3) & H4) & H5).
  apply Z.eqb_eq in H1, H3. unfold ptr_eq in H2. apply bool_decide_eq_true in H2. apply negb_true_iff in H4.
  split_and!; try done. intros Hid Ht. rewrite Hid, Ht in H5. by apply Z.eqb_eq.
Qed.

Lemma existsb_elem p l : existsb (Z.eqb p) l = true ↔ p ∈ l.
Proof.
  rewrite existsb_exists. split.
  - intros (x & ?%list_elem_of_In & ->%Z.eqb_eq). done.
  - intros ?%list_elem_of_In. exists p. by rewrite Z.eqb_refl.
Qed.

Lemma boot_member p : isokprocn p = true →
  p ∈ boot_queues (if istaskp p then 0 else if isuserp p then 2 else 1) ↔
  (p <=? LOW_USER) = true ∧ isidlehardware p = false.
Proof.
  intros Hok. pose proof (all_procs_spec (λ p, eqb
    (existsb (Z.eqb p) (boot_queues (if istaskp p then 0 else if isuserp p then 2 else 1)))
    ((p <=? LOW_USER) && negb (isidlehardware p))) p ltac:(vm_compute; reflexivity) Hok) as H.
  apply eqb_prop in H. rewrite <- existsb_elem, H, andb_true_iff, negb_true_iff. done.
Qed.

Lemma boot_qof p : isokprocn p = true →
  qof (procs (boot_state sizes m) p) p = if istaskp p then 0 else if isuserp p then 2 else 1.
Proof.
  intros Hok. destruct (boot_fields p Hok) as (_ & _ & Hs & _). unfold qof, isshadowp. rewrite Hs.
  by destruct (istaskp p), (isuserp p).
Qed.

(** [&m] lies inside the kernel's data. *)
Lemma boot_inv :
  mess_ok (procs (boot_state sizes m) HARDWARE) (sys_m (boot_state sizes m)) = true → kinv (boot_state sizes m).
Proof.
  intros Hmess. pose proof boot_fields as Hfl. pose proof boot_qof as Hqo. cbv zeta in Hfl.
  set (s := boot_state sizes m) in *. exists boot_queues, [].
  assert (HQ : queues_rep s boot_queues).
  { intros q Hq. split; [by apply boot_chain|]. revert q Hq.
    apply (boot_queue_cases (λ q, ∀ p, p ∈ boot_queues q → isokprocn p = true ∧ qof (procs s p) p = q)); intros p Hp; [| | |by apply elem_of_nil in Hp];
      (assert (Hok : isokprocn p = true) by (repeat (apply elem_of_cons in Hp as [->|Hp]; [done|]); by apply elem_of_nil in Hp));
      (split; [done|]); rewrite Hqo by done;
      repeat (apply elem_of_cons in Hp as [->|Hp]; [done|]); by apply elem_of_nil in Hp. }
  assert (Hs : ∀ p, isokprocn p = true → sendnext (procs s) p = None).
  { intros p Hok. unfold sendnext, sending. destruct (Hfl p Hok) as (-> & _). by destruct (p <=? LOW_USER). }
  split_and!.
  - split; [done| | |].
    + intros p Hok. rewrite Hqo, boot_member by done.
      destruct (Hfl p Hok) as (-> & _). destruct (p <=? LOW_USER); naive_solver.
    + split.
      * intros d Hd. exists []. split; [by destruct (Hfl d Hd) as (_ & -> & _)|].
        intros p. split; [by intros ?%elem_of_nil|]. intros [Hok E]. by rewrite Hs in E.
      * intros p d Hok E. by rewrite Hs in E.
      * intros p Hok. exists [p]. split; [done|]. by rewrite Hs.
      * intros p Ht Hok. destruct (Hfl p Hok) as (-> & _).
        replace (p <=? LOW_USER) with true; [done|]. unfold istaskp, LOW_USER in *. lia.
      * intros p Hok. destruct (Hfl p Hok) as (-> & _). by destruct (p <=? LOW_USER).
      * intros p Hok. unfold sending. destruct (Hfl p Hok) as (-> & _). by destruct (p <=? LOW_USER).
    + split; [|done| | |].
      * intros p Ht Hok Hid. by apply (Hfl p Hok).
      * vm_compute; reflexivity.
      * vm_compute; reflexivity.
      * intros p [->%Z.eqb_eq| ->%Z.eqb_eq]%orb_true_iff; vm_compute; reflexivity.
  - right. split_and!; vm_compute; (reflexivity || discriminate).
  - split_and!; [vm_compute; reflexivity|done|]. intros p Hok.
    destruct (Hfl p Hok) as (_ & _ & _ & -> & _). split; [by intros ?%elem_of_nil|done].
  - intros p Hp. by apply elem_of_nil in Hp.
Qed.
End boot.

(** ** Steps from a state that satisfies the invariant *)
Section steps.
Implicit Types (s : kernel).

Lemma kinv_call s fn d m : kinv s → proc_ptr s ≠ IDLE → good_call s fn d →
  wp (sys_call fn d m) (λ r s', call_spec s fn d m r s' ∧ kinv s') s.
Proof.
  intros (Q & H & Hk & Hc & Hh & Hd) Hne Hg. eapply wp_mono; [by apply (sys_call_run s Q)|].
  cbn beta. intros r s' (Hspec & Hhf & Q' & Hk' & Hc'). split; [done|]. exists Q', H.
  split_and!; try done. by eapply held_ok_frame.
Qed.

(** Every call: refused, made as one of the three functions, or a send of a
    task or server to ANY or to itself. *)
Lemma kinv_call_any s fn d m : kinv s → proc_ptr s ≠ IDLE → system_send s fn && (d =? ANY) = false →
  self_send s fn d m = false → wp (sys_call fn d m) (λ _ s', kinv s') s.
Proof.
  intros Hs Hne Ha Hself. destruct (isuserp (proc_ptr s)) eqn:Hu.
  - destruct (decide (fn = BOTH ∧ issysentn d = true)) as [[-> Hd]|Hn].
    + eapply wp_mono; [apply (kinv_call s BOTH d m Hs Hne)|naive_solver]. split; [by right; right|]. intros _.
      unfold issysentn, isuserp, FS_PROC_NR, MM_PROC_NR, LOW_USER, ANY, NR_PROCS in *. lia.
    + eapply wp_mono; [apply user_call_refused; [done|]|by intros _ ? ->].
      destruct (issysentn d); [left; naive_solver|by right].
  - unfold system_send in Ha. rewrite Hu in Ha. cbn [negb andb] in Ha.
    destruct (decide (has fn SEND = true ∧ d = proc_ptr s)) as [[Hf ->]|Hn].
    + destruct Hs as (Q & H & Hk & Hc & Hh & Hd). unfold self_send, system_send in Hself.
      rewrite Hu, Hf, Z.eqb_refl in Hself. cbn [negb andb] in Hself.
      eapply wp_mono; [apply (self_send_run s Q fn m Hk Hc Hne)|]; [unfold system_send; by rewrite Hu, Hf|].
      cbn beta. rewrite Hself. intros r s' [_ ->]. by exists Q, H.
    + unfold wp. rewrite (sys_call_norm s fn d m Hu). eapply wp_mono; [apply (kinv_call s (norm_fn fn) d m Hs Hne)|naive_solver].
      unfold norm_fn. destruct (has fn SEND); [|split; [by right; left|done]].
      split; [destruct (fn =? SEND); [by left|by right; right]|]. intros _. cbn [andb] in Ha. apply Z.eqb_neq in Ha. naive_solver.
Qed.

Lemma kinv_self_send s fn d m : kinv s → proc_ptr s ≠ IDLE → self_send s fn d m = true →
  wp (sys_call fn d m) (λ r s', r = OK ∧ sendnext (procs s') d = Some d) s.
Proof.
  intros (Q & H & Hk & Hc & _) Hne Hself. unfold self_send in Hself.
  apply andb_true_iff in Hself as [[Hsys ->%Z.eqb_eq]%andb_true_iff Hm].
  eapply wp_mono; [by apply (self_send_run s Q fn m Hk Hc Hne)|]. cbn beta. by rewrite Hm.
Qed.

Lemma kinv_interrupt s p : kinv s → device_task p → wp (interrupt p) (λ _ s', kinv s') s.
Proof.
  intros (Q & H & Hk & Hc & Hh & Hd) Hp.
  destruct (decide (k_reenter s = 0 ∧ switching s = false)) as [[Hre Hsw]|Hbusy].
  - eapply wp_mono; [by apply (interrupt_now s Q p)|]. cbn beta. intros _ s' (_ & _ & Hhf & Q' & Hk' & Hc').
    exists Q', H. split_and!; [done|by auto|by eapply held_ok_frame|done].
  - eapply wp_mono; [apply (interrupt_held s Q H p); try done|].
    + apply Hp.
    + intros x Hx. by destruct (Hd x Hx) as (_ & ? & _).
    + destruct (decide (k_reenter s = 0)); [right|by left]. destruct (switching s); [done|tauto].
    + cbn beta. intros _ s' (Hh' & Hk' & Hc' & _). exists Q, (if decide (p ∈ H) then H else H ++ [p]).
      split_and!; [done|by auto|done|]. intros x Hx. case_decide; [by apply Hd|].
      apply elem_of_app in Hx as [?| ->%list_elem_of_singleton]; [by apply Hd|done].
Qed.

Lemma kinv_unhold s : kinv s → held_head s ≠ None → k_reenter s = 0 → wp unhold (λ _ s', kinv s') s.
Proof.
  intros (Q & H & Hk & Hc & Hh & Hd) Hne Hre. destruct (switching s) eqn:Hsw.
  { unfold unhold. do 2 k_step. rewrite Hsw. k_step. by exists Q, H. }
  eapply wp_mono; [apply (unhold_run s Q H); try done|].
  { intros ->. destruct Hh as [Hh _]. by apply chain_head in Hh. }
  cbn beta. intros _ s' (Hh' & _ & Q' & Hk' & Hc'). exists Q', []. split_and!; [done|by auto|done|].
  intros p Hp. by apply elem_of_nil in Hp.
Qed.

Lemma kinv_signal s p sig : kinv s → 0 ≤ p < NR_PROCS → wp (cause_sig p sig) (λ _ s', cause_spec s p sig s' ∧ kinv s') s.
Proof.
  intros (Q & H & Hk & Hc & Hh & Hd) Hp. eapply wp_mono; [by apply (cause_sig_run s Q)|].
  cbn beta. intros _ s' (Hspec & Hhf & _ & Q' & Hk' & Hc'). split; [done|]. exists Q', H.
  split_and!; [done|by auto|by eapply held_ok_frame|done].
Qed.

Lemma kinv_sched s : kinv s → wp lock_sched (λ _ s', kinv s') s.
Proof.
  intros (Q & H & Hk & Hc & Hh & Hd). eapply wp_mono; [by apply (lock_sched_run s Q)|].
  cbn beta. intros _ s' (Hk' & Hc' & Hhf & _). exists (spec_sched Q), H.
  split_and!; [done|by auto|by eapply held_ok_frame|done].
Qed.

(** A task's or server's SEND to ANY takes the process table entry of number
    ANY, which lies outside the table. *)
Lemma send_any_faults s fn m : system_send s fn = true → sys_call fn ANY m s = Fault.
Proof.
  intros [Hu%negb_true_iff Hf]%andb_true_iff. unfold sys_call. change (isoksrc_dest ANY) with true. cbn [negb].
  unfold mbind, M_bind, gets at 1. rewrite Hu, Hf. cbn [andb]. unfold mini_send. by rewrite Hu.
Qed.

(** The step [s] to [s'] is a send of a task or server to itself. *)
Definition self_sent s s' : Prop :=
  ∃ fn m, proc_ptr s ≠ IDLE ∧ self_send s fn (proc_ptr s) m = true ∧ sys_call fn (proc_ptr s) m s = Ret OK s' ∧
    sendnext (procs s') (proc_ptr s) = Some (proc_ptr s).

Lemma kinv_enter s k : kinv s → kinv (s <| k_reenter := k |>).
Proof.
  intros (Q & H & [HQ Hm Hi Hst] & Hc & Hh & Hd). exists Q, H. split_and!; try done.
  split; [done|exact Hm|exact Hi|]. by apply (static_ok_ext s).
Qed.

Lemma kinv_step s s' : kinv s → kstep s s' → kinv s' ∨ self_sent s s'.
Proof.
  intros Hs Hstep. destruct Hstep as [fn d m r s' Hne E|p s' Hp E|s' Hne Hre E|p sig s' Hp E|s' E|k].
  - destruct (self_send s fn d m) eqn:Hself.
    + right. pose proof (kinv_self_send s fn d m Hs Hne Hself) as H. unfold wp in H. rewrite E in H. destruct H as [-> H].
      pose proof Hself as Hd. unfold self_send in Hd. apply andb_true_iff in Hd as [[_ ->%Z.eqb_eq]%andb_true_iff _].
      by exists fn, m.
    + left. destruct (system_send s fn && (d =? ANY)) eqn:Ha.
      * apply andb_true_iff in Ha as [Ha ->%Z.eqb_eq]. by rewrite send_any_faults in E.
      * pose proof (kinv_call_any s fn d m Hs Hne Ha Hself) as H. unfold wp in H. by rewrite E in H.
  - left. pose proof (kinv_interrupt s p Hs Hp) as H. unfold wp in H. by rewrite E in H.
  - left. pose proof (kinv_unhold s Hs Hne Hre) as H. unfold wp in H. by rewrite E in H.
  - left. pose proof (kinv_signal s p sig Hs Hp) as H. unfold wp in H. rewrite E in H. apply H.
  - left. pose proof (kinv_sched s Hs) as H. unfold wp in H. by rewrite E in H.
  - left. by apply kinv_enter.
Qed.

Lemma kinv_running s : kinv s → proc_ptr s = IDLE ∨ p_flags (procs s (proc_ptr s)) = 0.
Proof.
  intros (Q & H & Hk & Hc & _). destruct (decide (proc_ptr s = IDLE)); [by left|right].
  by apply (cur_facts s Q).
Qed.

(** What a call that sends to another process returns: the outcome of its send. *)
Lemma call_outcome s fn d m : kinv s → proc_ptr s ≠ IDLE → has fn SEND = true → isokprocn d = true → d ≠ proc_ptr s →
  (isuserp (proc_ptr s) = true → fn = BOTH ∧ issysentn d = true) →
  ∃ r s', sys_call fn d m s = Ret r s' ∧ ∃ r' s1, send_spec s (proc_ptr s) d m r' s1 ∧ r = r'.
Proof.
  intros Hs Hne Hfn Hd Hdne Hu. set (fn' := if isuserp (proc_ptr s) then fn else norm_fn fn).
  assert (E' : sys_call fn d m s = sys_call fn' d m s).
  { unfold fn'. destruct (isuserp (proc_ptr s)) eqn:E; [done|by apply sys_call_norm]. }
  assert (Hf : (fn' = SEND ∧ isuserp (proc_ptr s) = false) ∨ fn' = BOTH).
  { unfold fn', norm_fn. rewrite Hfn. destruct (isuserp (proc_ptr s)); [by right; apply Hu|]. destruct (fn =? SEND); tauto. }
  assert (Hg : good_call s fn' d).
  { split; [naive_solver|]. intros _. split; [|done]. intros ->. done. }
  rewrite E'. destruct (wp_inv _ _ _ (kinv_call s fn' d m Hs Hne Hg)) as (r & s' & E & H & _). exists r, s'. split; [done|].
  destruct H as [Hsrc|_ Hp|r s' _ _ _ H|s' _ _ Hf' _|r _ Hf' H _|s1 s' _ Hf' H _].
  - unfold isoksrc_dest in Hsrc. by rewrite Hd in Hsrc.
  - apply andb_true_iff in Hp as [Hp1 Hp2]. destruct Hf as [[_ ?]| ->]; [congruence|done].
  - eauto.
  - rewrite Hf' in Hf. by destruct Hf as [[? _]|?].
  - eauto.
  - eauto.
Qed.

(** A process that sends to itself is its own successor in the send graph. *)
Lemma self_loop s p q fuel : isokprocn p = true → sending (procs s p) = true → p_sendto (procs s p) = p →
  q ≠ p → loop fuel (deadlock_step q) p s = NoFuel.
Proof.
  intros Hok Hs Ht Hne. induction fuel as [|fuel IH]; [done|]. rewrite loop_unfold.
  unfold mbind at 1, M_bind at 1. unfold deadlock_step at 1. destruct (Z.eqb_spec p q); [congruence|].
  unfold mbind, M_bind, gets at 1. change (has (p_flags (procs s p)) SENDING) with (sending (procs s p)).
  rewrite Hs, Ht, (proc_addr_ok _ Hok). exact IH.
Qed.
End steps.

(** ** Properties *)

(** A sizes table and an address of [m] for the concrete runs. *)
Definition sizes0 : Z → Z := λ _, 200.
Definition m0 : Z := 0x5000.
(** A message buffer of the tasks. *)
Definition buf0 : Z := 0xD000.

(** The initial state with the interrupt of the clock task held. *)
Definition busy_state : kernel := (boot_state sizes0 m0) <| k_reenter := 1 |>.
Definition held_state : kernel :=
  match interrupt CLOCK busy_state with Ret _ s => s <| k_reenter := 0 |> | _ => busy_state end.

Section concrete.
Lemma boot0_inv : kinv (boot_state sizes0 m0).
Proof. apply boot_inv. vm_compute. reflexivity. Qed.
Lemma boot0_good : proc_ptr (boot_state sizes0 m0) ≠ IDLE ∧ good_call (boot_state sizes0 m0) RECEIVE ANY ∧
  good_call (boot_state sizes0 m0) SEND (-2) ∧ proc_ptr (boot_state sizes0 m0) = -11.
Proof.
  assert (E : proc_ptr (boot_state sizes0 m0) = -11) by (vm_compute; reflexivity).
  rewrite E. split; [done|]. split; [split; [by right; left|done]|]. split; [|done].
  split; [by left|]. intros _. by rewrite E.
Qed.
Lemma busy_state_inv : kinv busy_state.
Proof. apply kinv_enter, boot0_inv. Qed.
Lemma held_state_ok : kinv held_state ∧ held_ok held_state [CLOCK] ∧
  k_reenter held_state = 0 ∧ switching held_state = false.
Proof.
  split_and!; [| |vm_compute; reflexivity..].
  - unfold held_state. assert (Hd : device_task CLOCK) by done.
    pose proof (kinv_interrupt busy_state CLOCK busy_state_inv Hd) as H. unfold wp in H.
    destruct (interrupt CLOCK busy_state) as [? s| | |]; try done.
    by apply kinv_enter.
  - split_and!; [vm_compute; repeat split|intros _; vm_compute; reflexivity|]. intros p Hok.
    rewrite <- existsb_elem.
    pose proof (all_procs_spec (λ p, eqb (existsb (Z.eqb p) [CLOCK]) (p_int_held (procs held_state p))) p
      ltac:(vm_compute; reflexivity) Hok) as H. apply eqb_prop in H. by rewrite H.
Qed.
Lemma boot0_queues : queues_rep (boot_state sizes0 m0) boot_queues.
Proof.
  destruct boot0_inv as (Q & H & [HQ _ _ _] & _). intros q Hq. destruct (HQ q Hq) as [[H1 H2] H3].
  pose proof (boot_chain sizes0 m0 q Hq) as Hb. split; [done|].
  rewrite (chain_det _ _ _ _ (proj1 Hb) H1). done.
Qed.
Lemma boot0_notin : 10 ∉ boot_queues (qof (procs (boot_state sizes0 m0) 10) 10).
Proof. rewrite <- existsb_elem. vm_compute. discriminate. Qed.
Lemma boot0_sends : system_send (boot_state sizes0 m0) RECEIVE = false ∧
  system_send (boot_state sizes0 m0) SEND && (ANY =? ANY) = true ∧
  self_send (boot_state sizes0 m0) BOTH (-11) buf0 = true.
Proof. split_and!; vm_compute; reflexivity. Qed.
Lemma boot0_system : isuserp (proc_ptr (boot_state sizes0 m0)) = false.
Proof. vm_compute. reflexivity. Qed.
End concrete.

(** C1: safety of the kernel's entry points.  In every state that satisfies the
    kernel invariant the running process is IDLE or can run.  A system call by
    it, with any function number, any process number and any buffer, returns in a
    state that satisfies the invariant again, but for two calls of tasks and
    servers, whose outcome is stated: a send to ANY takes an entry outside the
    process table, and a send to itself returns OK with the caller its own
    successor among the blocked senders.  The interrupt of a device task, the
    flush of held interrupts (when some are held and the kernel was not
    reentered), a signal to a process with a number from 0 and a rescheduling
    always return in a state that satisfies the invariant.  The invariant: the
    ready queues hold exactly the runnable processes, every caller queue holds
    exactly the processes blocked on its owner, and the blocked senders form no
    cycle. *)
Theorem kernel_safe (s : kernel) (Hs : kinv s) :
  (proc_ptr s = IDLE ∨ p_flags (procs s (proc_ptr s)) = 0) ∧
  (∀ fn d m, proc_ptr s ≠ IDLE →
     if system_send s fn && (d =? ANY) then sys_call fn d m s = Fault
     else if self_send s fn d m then ∃ s', sys_call fn d m s = Ret OK s' ∧ sendnext (procs s') d = Some d
     else ∃ r s', sys_call fn d m s = Ret r s' ∧ kinv s') ∧
  (∀ p, device_task p → ∃ s', interrupt p s = Ret tt s' ∧ kinv s') ∧
  (held_head s ≠ None → k_reenter s = 0 → ∃ s', unhold s = Ret tt s' ∧ kinv s') ∧
  (∀ p sig, 0 ≤ p < NR_PROCS → ∃ s', cause_sig p sig s = Ret tt s' ∧ kinv s') ∧
  (∃ s', lock_sched s = Ret tt s' ∧ kinv s').
Proof.
  split_and!; [by apply kinv_running| | | | |].
  - intros fn d m Hne. destruct (system_send s fn && (d =? ANY)) eqn:Ha.
    { apply andb_true_iff in Ha as [Ha ->%Z.eqb_eq]. by apply send_any_faults. }
    destruct (self_send s fn d m) eqn:Hself.
    + destruct (wp_inv _ _ _ (kinv_self_send s fn d m Hs Hne Hself)) as (r & s' & E & -> & H). eauto.
    + destruct (wp_inv _ _ _ (kinv_call_any s fn d m Hs Hne Ha Hself)) as (r & s' & E & H). eauto.
  - intros p Hp. destruct (wp_inv _ _ _ (kinv_interrupt s p Hs Hp)) as ([] & s' & E & H). eauto.
  - intros Hne Hre. destruct (wp_inv _ _ _ (kinv_unhold s Hs Hne Hre)) as ([] & s' & E & H). eauto.
  - intros p sig Hp. destruct (wp_inv _ _ _ (kinv_signal s p sig Hs Hp)) as ([] & s' & E & _ & H). eauto.
  - destruct (wp_inv _ _ _ (kinv_sched s Hs)) as ([] & s' & E & H). eauto.
Qed.
Lemma kernel_safe_witness :
  (∃ r s', sys_call RECEIVE ANY buf0 (boot_state sizes0 m0) = Ret r s' ∧ kinv s') ∧
  sys_call SEND ANY buf0 (boot_state sizes0 m0) = Fault ∧
  ∃ s', sys_call BOTH (-11) buf0 (boot_state sizes0 m0) = Ret OK s' ∧ sendnext (procs s') (-11) = Some (-11).
Proof.
  destruct (kernel_safe (boot_state sizes0 m0) boot0_inv) as (_ & H & _).
  destruct boot0_good as (Hne & _). destruct boot0_sends as (E1 & E2 & E3). split_and!.
  - pose proof (H RECEIVE ANY buf0 Hne) as H1. unfold self_send in H1. rewrite E1 in H1. exact H1.
  - pose proof (H SEND ANY buf0 Hne) as H1. rewrite E2 in H1. exact H1.
  - pose proof (H BOTH (-11) buf0 Hne) as H1. rewrite andb_false_r, E3 in H1. exact H1.
Defined.

(** C24: the states the kernel reaches from start-up by system calls with any
    arguments, interrupts, signals and rescheduling.  Either a task or server
    sent to itself on the way, and so became its own successor among the blocked
    senders, or the state has consistent queues: a process is in its
    ready queue exactly when none of its flags is set (and it is not IDLE or
    HARDWARE), the callers blocked on a process are exactly those on its queue,
    no cycle of senders exists, and the running process can run. *)
Theorem kernel_reachable (sizes : Z → Z) (m : Z) (s : kernel)
    (Hm : mess_ok (procs (boot_state sizes m) HARDWARE) (sys_m (boot_state sizes m)) = true)
    (Hr : rtc kstep (boot_state sizes m) s) :
  (∃ s1 s2, rtc kstep (boot_state sizes m) s1 ∧ self_sent s1 s2 ∧ rtc kstep s2 s) ∨
  (∃ Q, queues_rep s Q ∧ mem_ok s Q) ∧
  (∀ d, isokprocn d = true → ∃ L, callers_of (procs s) d L) ∧
  (∀ p, isokprocn p = true → ∃ L, chain (sendnext (procs s)) (Some p) L) ∧
  (proc_ptr s = IDLE ∨ p_flags (procs s (proc_ptr s)) = 0).
Proof.
  assert (Hk : kinv s ∨ ∃ s1 s2, rtc kstep (boot_state sizes m) s1 ∧ self_sent s1 s2 ∧ rtc kstep s2 s).
  { pose proof (boot_inv sizes m Hm) as H0. clear Hm. induction Hr as [s0|s1 s2 s3 Hstep Hrest IH]; [by left|].
    destruct (kinv_step s1 s2 H0 Hstep) as [Hk|Hself].
    - destruct (IH Hk) as [?|(t1 & t2 & H1 & H2 & H3)]; [by left|right]. exists t1, t2. split_and!; [by eapply rtc_l|done..].
    - right. by exists s1, s2. }
  destruct Hk as [Hk|Hself]; [right|by left].
  pose proof (kinv_running s Hk) as Hrun. destruct Hk as (Q & H & [HQ Hmem Hi _] & _).
  split_and!; [by exists Q|apply Hi|apply Hi|done].
Qed.
Lemma kernel_reachable_witness :
  ∃ s, rtc kstep (boot_state sizes0 m0) s ∧ k_reenter s = 1 ∧
    ((∃ s1 s2, rtc kstep (boot_state sizes0 m0) s1 ∧ self_sent s1 s2 ∧ rtc kstep s2 s) ∨
     (∃ Q, queues_rep s Q ∧ mem_ok s Q) ∧ (∀ d, isokprocn d = true → ∃ L, callers_of (procs s) d L) ∧
     (∀ p, isokprocn p = true → ∃ L, chain (sendnext (procs s)) (Some p) L) ∧
     (proc_ptr s = IDLE ∨ p_flags (procs s (proc_ptr s)) = 0)).
Proof.
  pose proof (rtc_once _ _ (step_enter (boot_state sizes0 m0) 1)) as Hr.
  eexists. split; [exact Hr|]. split; [reflexivity|].
  exact (kernel_reachable sizes0 m0 _ ltac:(vm_compute; reflexivity) Hr).
Defined.

(** C5: the functional behaviour of the system call on every branch: a bad
    source or destination and a user call other than BOTH are refused without
    any change; SEND, RECEIVE and BOTH behave as [send_spec] and [rec_spec] say
    (errors leave the state alone, a rendezvous copies the message with the
    sender's number and unblocks the receiver, otherwise the caller is queued
    last; a receiver takes the first acceptable caller, then a pending
    interrupt, and otherwise waits). *)
Theorem sys_call_refines (s : kernel) (fn d m : Z) (Hs : kinv s) (Hne : proc_ptr s ≠ IDLE) (Hg : good_call s fn d) :
  ∃ r s', sys_call fn d m s = Ret r s' ∧ call_spec s fn d m r s'.
Proof.
  destruct (wp_inv _ _ _ (kinv_call s fn d m Hs Hne Hg)) as (r & s' & E & H & _). eauto.
Qed.
Lemma sys_call_refines_witness :
  ∃ r s', sys_call SEND (-2) buf0 (boot_state sizes0 m0) = Ret r s' ∧ call_spec (boot_state sizes0 m0) SEND (-2) buf0 r s'.
Proof.
  destruct boot0_good as (Hne & _ & Hg & _). exact (sys_call_refines (boot_state sizes0 m0) SEND (-2) buf0 boot0_inv Hne Hg).
Defined.

(** C32: deadlock detection.  A call that sends, SEND or BOTH (or any function
    number with the SEND bit), and passes the parameter checks: to another
    process it returns ELOCKED exactly when the caller can be reached from the
    destination by following blocked senders, that is, when blocking it would
    close a cycle.  To the caller itself, which only a task or server can try,
    the test is not made: the call returns OK and leaves the caller blocked in a
    cycle of its own. *)
Theorem send_deadlock_exact (s : kernel) (fn d m : Z) (Hs : kinv s) (Hne : proc_ptr s ≠ IDLE)
    (Hfn : has fn SEND = true) (Hd : isokprocn d = true)
    (Hu : isuserp (proc_ptr s) = true → fn = BOTH ∧ issysentn d = true)
    (Hfree : has (p_flags (procs s d)) P_SLOT_FREE = false)
    (Hm : mess_ok (procs s (proc_ptr s)) m = true) :
  ∃ r s', sys_call fn d m s = Ret r s' ∧
    if decide (d = proc_ptr s) then r = OK ∧ sendnext (procs s') d = Some d
    else r = ELOCKED ↔ ∃ P, chain (sendnext (procs s)) (Some d) P ∧ proc_ptr s ∈ P.
Proof.
  destruct (decide (d = proc_ptr s)) as [->|Hdne].
  { assert (Hself : self_send s fn (proc_ptr s) m = true).
    { unfold self_send, system_send. rewrite Hfn, Hm, Z.eqb_refl. destruct (isuserp (proc_ptr s)) eqn:E; [|done].
      destruct (Hu eq_refl) as [_ Hd2]. unfold issysentn, isuserp, FS_PROC_NR, MM_PROC_NR, LOW_USER in *. lia. }
    destruct (wp_inv _ _ _ (kinv_self_send s fn _ m Hs Hne Hself)) as (r & s' & E & H). eauto. }
  destruct (call_outcome s fn d m Hs Hne Hfn Hd Hdne Hu) as (r & s' & E & r' & s1 & Hspec & Hr).
  exists r, s'. split; [done|]. rewrite Hr.
  destruct Hspec as [Hb|_ Hb|P _ _ HP Hin|P s1 _ _ HP Hin _ _ _|P L s1 _ _ HP Hin _ _ _ _ _ _ _].
  - rewrite Hfree, orb_false_r in Hb. apply andb_true_iff in Hb as [Hb1 Hb2%negb_true_iff].
    destruct (Hu Hb1). congruence.
  - congruence.
  - split; [eauto|done].
  - split; [done|]. intros (P' & HP' & Hin'). by rewrite (chain_det _ _ _ _ HP' HP) in Hin'.
  - split; [done|]. intros (P' & HP' & Hin'). by rewrite (chain_det _ _ _ _ HP' HP) in Hin'.
Qed.
Lemma send_deadlock_exact_witness :
  ∃ r s', sys_call SEND (-2) buf0 (boot_state sizes0 m0) = Ret r s' ∧
    if decide (-2 = proc_ptr (boot_state sizes0 m0)) then r = OK ∧ sendnext (procs s') (-2) = Some (-2)
    else r = ELOCKED ↔ ∃ P, chain (sendnext (procs (boot_state sizes0 m0))) (Some (-2)) P ∧ proc_ptr (boot_state sizes0 m0) ∈ P.
Proof.
  destruct boot0_good as (Hne & _ & _ & Ep).
  exact (send_deadlock_exact (boot_state sizes0 m0) SEND (-2) buf0 boot0_inv Hne eq_refl eq_refl
    ltac:(rewrite Ep; discriminate) ltac:(vm_compute; reflexivity) ltac:(vm_compute; reflexivity)).
Defined.

(** C33: no interrupt is lost.  Flushing the held interrupts, outside the
    kernel and with no process switch going on, ends; it empties the queue, and
    each task on it has received its interrupt: a task that waited for one got
    the message and can run, any other has it pending. *)
Theorem unhold_serves_all (s : kernel) (H : list Z) (Hs : kinv s) (Hh : held_ok s H)
    (Hd : ∀ p, p ∈ H → device_task p) (Hne : H ≠ []) (Hre : k_reenter s = 0) (Hsw : switching s = false) :
  ∃ s', unhold s = Ret tt s' ∧ held_ok s' [] ∧ ∀ p, p ∈ H → int_served s s' p.
Proof.
  destruct Hs as (Q & _ & Hk & _). destruct (wp_inv _ _ _ (unhold_run s Q H Hk Hh Hd Hne Hre Hsw)) as ([] & s' & E & H1 & H2 & _).
  by exists s'.
Qed.
Lemma unhold_serves_all_witness :
  ∃ s', unhold held_state = Ret tt s' ∧ held_ok s' [] ∧ ∀ p, p ∈ [CLOCK] → int_served held_state s' p.
Proof.
  destruct held_state_ok as (Hk & Hh & Hre & Hsw).
  exact (unhold_serves_all held_state [CLOCK] Hk Hh
    ltac:(intros p ->%list_elem_of_singleton; done) ltac:(discriminate) Hre Hsw).
Defined.

(** Interrupts that arrive while the kernel is busy (reentered or switching)
    are queued in arrival order, each task at most once, and nothing else
    changes: no flag, no message and no pending interrupt. *)
Theorem interrupt_queues_fifo (s : kernel) (H : list Z) (p : Z) (Hs : kinv s) (Hh : held_ok s H)
    (Hd : ∀ x, x ∈ H → device_task x) (Hp : device_task p) (Hbusy : k_reenter s ≠ 0 ∨ switching s = true) :
  ∃ s', interrupt p s = Ret tt s' ∧ held_ok s' (if decide (p ∈ H) then H else H ++ [p]) ∧
    (∀ i, p_flags (procs s' i) = p_flags (procs s i)) ∧ mess s' = mess s ∧ kinv s'.
Proof.
  pose proof (kinv_interrupt s p Hs Hp) as Hk. destruct Hs as (Q & _ & Hc & _).
  destruct (wp_inv _ _ _ (interrupt_held s Q H p Hc Hh (proj1 (proj2 Hp))
    (λ x Hx, proj1 (proj2 (Hd x Hx))) Hbusy)) as ([] & s' & E & H1 & _ & _ & H2 & H3).
  exists s'. unfold wp in Hk. rewrite E in Hk. done.
Qed.
Lemma interrupt_queues_fifo_witness :
  ∃ s', interrupt (-2) (held_state <| k_reenter := 1 |>) = Ret tt s' ∧
    held_ok s' (if decide (-2 ∈ [CLOCK]) then [CLOCK] else [CLOCK] ++ [-2]) ∧
    (∀ i, p_flags (procs s' i) = p_flags (procs (held_state <| k_reenter := 1 |>) i)) ∧
    mess s' = mess (held_state <| k_reenter := 1 |>) ∧ kinv s'.
Proof.
  destruct held_state_ok as (Hk & Hh & _).
  revert Hk Hh. generalize held_state as s. intros s Hk Hh.
  assert (E : k_reenter (s <| k_reenter := 1 |>) ≠ 0) by (cbn; discriminate).
  exact (interrupt_queues_fifo (s <| k_reenter := 1 |>) [CLOCK] (-2)
    (kinv_enter _ 1 Hk) Hh
    ltac:(intros p ->%list_elem_of_singleton; done) ltac:(done) (or_introl E)).
Defined.

(** Signals from the kernel.  [cause_sig] ignores a signal that is already
    pending, otherwise it enters it in the pending set and counts it; the first
    one stops the process (PENDING and SIG_PENDING), and is passed on at once
    exactly when MM waits for a message from anybody. *)
Theorem cause_sig_refines (s : kernel) (p sig : Z) (Hs : kinv s) (Hp : 0 ≤ p < NR_PROCS) :
  ∃ s', cause_sig p sig s = Ret tt s' ∧ cause_spec s p sig s' ∧ kinv s'.
Proof.
  destruct (wp_inv _ _ _ (kinv_signal s p sig Hs Hp)) as ([] & s' & E & H). eauto.
Qed.
Lemma cause_sig_refines_witness :
  ∃ s', cause_sig 2 1 (boot_state sizes0 m0) = Ret tt s' ∧ cause_spec (boot_state sizes0 m0) 2 1 s' ∧ kinv s'.
Proof. exact (cause_sig_refines (boot_state sizes0 m0) 2 1 boot0_inv ltac:(done)). Defined.


(** A process may send to itself.  [mini_send] looks for a cycle of senders
    only when the destination is already sending, so a task's SEND to itself is
    not refused with ELOCKED: it returns OK and blocks the task on its own
    queue, and afterwards the search for a cycle made by any process that
    sends to that task does not end, whatever its bound. *)
Theorem self_send_cycle :
  ∃ s', sys_call SEND (-11) buf0 (boot_state sizes0 m0) = Ret OK s' ∧
    sendnext (procs s') (-11) = Some (-11) ∧
    ∀ q fuel, q ≠ -11 → loop fuel (deadlock_step q) (-11) s' = NoFuel.
Proof.
  eexists. split; [vm_compute; reflexivity|]. split; [vm_compute; reflexivity|].
  intros q fuel Hq. apply self_loop; [reflexivity|vm_compute; reflexivity..|done].
Qed.
