(* ===== verification/Running.v ===== *)
(** * A task keeps the processor

    What the clock task relies on while it works: it stays the running process
    and at the head of the queue of tasks, and a task that waits for its message
    goes on waiting, through signals, interrupts of other tasks and rescheduling.
    The facts are proved for results only: [wlp] says nothing of runs that end
    otherwise. *)

From S2P Require Import Prelude Chain Sigset Proc Sched Ipc Receive Kernel Boot.

(** [wlp m Q s]: if [m] returns from [s], it does so with a result satisfying [Q]. *)
Definition wlp {S A} (m : M S A) (Q : A → S → Prop) (s : S) : Prop :=
  match m s with Ret a s' => Q a s' | _ => True end.

(** The task [c] runs and heads its queue, and has the message buffer [b]; the
    task [w], if any, waits for it. *)
Definition runs (c b : Z) (w : option Z) (k : kernel) : Prop :=
  proc_ptr k = c ∧ rdy_head k TASK_Q = Some c ∧ mess_ok (procs k c) b = true ∧
  match w with Some w => waiting_for (procs k w) c = true | None => True end.

Section running.
Context (c b : Z) (w : option Z).
Implicit Types (k : kernel).

(** [m] keeps it so. *)
Definition stays {A} (m : KM A) : Prop := ∀ k, runs c b w k → wlp m (λ _, runs c b w) k.
(** An update of the row of [p] that moves no segment and does not concern the
    waiting task. *)
Definition harmless (p : Z) (g : proc → proc) : Prop :=
  (∀ r, p_map_D (g r) = p_map_D r ∧ p_map_S (g r) = p_map_S r) ∧
  (w = Some p → ∀ r, waiting_for (g r) c = waiting_for r c).

Lemma wlp_wp {A} (m : KM A) (Q Q' : A → kernel → Prop) k : wp m Q k → wlp m Q' k → wp m (λ a k', Q a k' ∧ Q' a k') k.
Proof. unfold wp, wlp. by destruct (m k). Qed.

Lemma wlp_bind {A B} (m : KM A) (f : A → KM B) Q k : wlp m (λ a, wlp (f a) Q) k → wlp (m ≫= f) Q k.
Proof. unfold wlp, mbind, M_bind. by destruct (m k). Qed.
Lemma wlp_mono {A} (m : KM A) (Q Q' : A → kernel → Prop) k : wlp m Q k → (∀ a k', Q a k' → Q' a k') → wlp m Q' k.
Proof. unfold wlp. destruct (m k); auto. Qed.

Lemma stays_bind {A B} (m : KM A) (f : A → KM B) : stays m → (∀ a, stays (f a)) → stays (m ≫= f).
Proof. intros Hm Hf k Hk. apply wlp_bind. eapply wlp_mono; [by apply Hm|]. intros a k' Hk'. by apply Hf. Qed.
Lemma stays_gets {A B} (f : kernel → A) (g : A → KM B) :
  (∀ k, runs c b w k → wlp (g (f k)) (λ _, runs c b w) k) → stays (gets f ≫= g).
Proof. intros H k Hk. by apply H. Qed.
Lemma stays_ret {A} (a : A) : stays (mret a).
Proof. by intros k Hk. Qed.
Lemma stays_fault {A} : stays (@fault _ A).
Proof. done. Qed.
Lemma stays_panic {A} why n : stays (@panic _ A why n).
Proof. done. Qed.
Lemma stays_read {A} (f : kernel → A) : stays (gets f).
Proof. by intros k Hk. Qed.
Lemma stays_vars (f : kernel → kernel) :
  (∀ k, procs (f k) = procs k ∧ rdy_head (f k) = rdy_head k ∧ proc_ptr (f k) = proc_ptr k) → stays (modify f).
Proof. intros H k (H1 & H2 & H3 & H4). destruct (H k) as (E1 & E2 & E3). unfold wlp, modify, runs. by rewrite E1, E2, E3. Qed.
Lemma stays_setp p g : harmless p g → stays (setp p g).
Proof.
  intros [Hm Hg] k (H1 & H2 & H3 & H4). unfold wlp, setp, modify, runs; cbn. split_and!; [done..| |].
  - destruct (decide (p = c)) as [->|]; [rewrite fn_lookup_insert|by rewrite fn_lookup_insert_ne]. destruct (Hm (procs k c)) as [ED ES]. by rewrite (mess_ok_map _ _ _ ED ES).
  - destruct w as [x|]; [|done]. fn_cases x p; [by rewrite Hg|done].
Qed.
Lemma stays_set_head q v : q ≠ TASK_Q → stays (set_head q v).
Proof. intros Hq k (H1 & H2 & H3 & H4). unfold wlp, set_head, modify, runs; cbn. by rewrite fn_lookup_insert_ne. Qed.
Lemma stays_when t (m : KM unit) : stays m → stays (when t m).
Proof. intros Hm. destruct t; [done|apply stays_ret]. Qed.
Lemma stays_addr n : stays (proc_addr n).
Proof. unfold proc_addr. destruct (isokprocn n); [apply stays_ret|apply stays_fault]. Qed.
Lemma stays_addr_bind {A} n (f : Z → KM A) : stays (f n) → stays (proc_addr n ≫= f).
Proof. intros Hf. unfold proc_addr. destruct (isokprocn n); [exact Hf|done]. Qed.
Lemma stays_deref {A} (o : option A) : stays (deref o).
Proof. destruct o; [apply stays_ret|apply stays_fault]. Qed.
Lemma stays_loop {A R} fuel (body : A → KM (A + R)) a : (∀ a, stays (body a)) → stays (loop fuel body a).
Proof.
  intros Hb. revert a. induction fuel as [|fuel IH]; intros a; [done|]. cbn [loop].
  apply stays_bind; [apply Hb|]. intros [a'|r]; [apply IH|apply stays_ret].
Qed.
Lemma stays_for_each {R} (l : list Z) (f : Z → KM (option R)) : (∀ x, x ∈ l → stays (f x)) → stays (for_each l f).
Proof.
  induction l as [|x l IH]; intros Hf; [apply stays_ret|]. cbn [for_each]. apply stays_bind; [apply Hf; left|].
  intros [r|]; [apply stays_ret|]. apply IH. intros y Hy. apply Hf. by right.
Qed.

Lemma harmless_ne p (g : proc → proc) : w ≠ Some p → (∀ r, p_map_D (g r) = p_map_D r ∧ p_map_S (g r) = p_map_S r) → harmless p g.
Proof. by intros ??. Qed.
Lemma harmless_same p (g : proc → proc) : (∀ r, p_flags (g r) = p_flags r ∧ p_getfrom (g r) = p_getfrom r ∧
  p_map_D (g r) = p_map_D r ∧ p_map_S (g r) = p_map_S r) → harmless p g.
Proof. intros H. split; [intros r; by destruct (H r) as (_ & _ & ?)|]. intros _ r. unfold waiting_for. by destruct (H r) as (-> & -> & _). Qed.
End running.

Ltac stays_step :=
  lazymatch goal with
  | |- stays _ _ _ (mret _) => apply stays_ret
  | |- stays _ _ _ fault => apply stays_fault
  | |- stays _ _ _ (panic _ _) => apply stays_panic
  | |- stays _ _ _ (proc_addr _) => apply stays_addr
  | |- stays _ _ _ (deref _) => apply stays_deref
  | |- stays _ _ _ (gets _) => apply stays_read
  | |- stays _ _ _ (fld _ _) => apply stays_read
  | |- stays _ _ _ (set_tail _ _) => by apply stays_vars
  | |- stays _ _ _ (set_switching _) => by apply stays_vars
  | |- stays _ _ _ (cp_mess _ _ _ _ _) => unfold cp_mess
  | |- stays _ _ _ (modify _) => by apply stays_vars
  | |- stays _ _ _ (setp _ _) => apply stays_setp; first [by apply harmless_same|idtac]
  | |- stays _ _ _ (set_head _ _) => by apply stays_set_head
  | |- stays _ _ _ (when _ _) => apply stays_when
  | |- stays _ _ _ (loop _ _ _) => apply stays_loop; intros ?
  | |- stays _ _ _ (mbind _ (proc_addr _)) => apply stays_addr_bind
  | |- stays _ _ _ (mbind _ _) => apply stays_bind; [|intros ?]
  | |- stays _ _ _ (if ?b then _ else _) => destruct b
  | |- stays _ _ _ (match ?o with Some _ => _ | None => _ end) => destruct o
  end; cbv beta.
Ltac stays_steps := repeat stays_step.

Section operations.
Context (c b : Z) (w : option Z).

(** ** Scheduling *)
Lemma stays_pick : stays c b w pick_proc.
Proof. intros k (H1 & H2 & H3 & H4). unfold wlp, pick_proc, mbind, M_bind, gets. rewrite H2. by split_and!. Qed.
Lemma stays_enqueue q p fresh : q = TASK_Q ∨ fresh = false → stays c b w (enqueue q p fresh).
Proof.
  intros Hq. unfold enqueue. apply stays_gets. intros k Hk. destruct (decide (q = TASK_Q)) as [->|Hne].
  - pose proof Hk as (_ & H2 & _). rewrite H2. revert Hk.
    match goal with |- runs _ _ _ _ → wlp ?m _ _ => assert (H : stays c b w m); [stays_steps|exact (H k)] end.
  - destruct Hq as [?| ->]; [done|]. cbn [when]. revert Hk.
    match goal with |- runs _ _ _ _ → wlp ?m _ _ => assert (H : stays c b w m); [stays_steps|exact (H k)] end.
Qed.
Lemma stays_ready p : stays c b w (ready p).
Proof.
  unfold ready. destruct (istaskp p); [apply stays_enqueue; by left|]. destruct (negb _); [apply stays_enqueue; by right|].
  apply stays_bind; [stays_step|]. intros r. destruct (isshadowp r); [apply stays_enqueue; by right|]. stays_steps.
Qed.
Lemma stays_lock (m : KM unit) : stays c b w m → stays c b w (set_switching true;; m;; set_switching false).
Proof. intros Hm. stays_step; [stays_step|]. apply stays_bind; [done|]. intros _. stays_steps. Qed.
Lemma stays_dequeue q p : p ≠ c → stays c b w (dequeue q p).
Proof.
  intros Hp. unfold dequeue. apply stays_gets. intros k Hk. destruct (rdy_head k q) as [x|] eqn:Eh; [|done].
  revert Hk. destruct (Z.eqb_spec x p) as [->|Hx].
  - assert (Hq : runs c b w k → q ≠ TASK_Q) by (intros (_ & H2 & _) ->; congruence). intros Hk. specialize (Hq Hk). revert Hk.
    match goal with |- runs _ _ _ _ → wlp ?m _ _ => assert (H : stays c b w m); [|exact (H k)] end.
    stays_step; [stays_step|]. stays_step; [stays_step|]. stays_step; [stays_step|]. apply stays_when, stays_pick.
  - match goal with |- runs _ _ _ _ → wlp ?m _ _ => assert (H : stays c b w m); [|exact (H k)] end.
    stays_step. unfold unready_step. stays_steps.
Qed.
Lemma stays_unready p : p ≠ c → stays c b w (unready p).
Proof. intros Hp. unfold unready. stays_steps; by apply stays_dequeue. Qed.
Lemma stays_sched : stays c b w sched.
Proof. unfold sched. stays_steps. apply stays_pick. Qed.

Lemma stays_lock_sched : stays c b w lock_sched.
Proof. apply stays_lock, stays_sched. Qed.

(** ** Messages *)

Lemma stays_send p d m : p ≠ c → w ≠ Some p → w ≠ Some d → stays c b w (mini_send p d m).
Proof.
  intros Hp Hpw Hdw. unfold mini_send, deadlock_step, cp_mess, block_caller, last_caller_step.
  repeat first [stays_step|apply stays_ready|by apply stays_unready|by apply harmless_ne].
Qed.
Lemma stays_inform_proc p : isuserp c = false → w ≠ Some p → w ≠ Some HARDWARE → w ≠ Some MM_PROC_NR → c ≠ HARDWARE →
  stays c b w (inform_proc p).
Proof.
  intros Hc Hp Hh Hm Hch. unfold inform_proc, lock_mini_send, lock_ready, lock_pick_proc.
  repeat first [stays_step|by apply stays_send|apply stays_ready|apply stays_pick|by apply harmless_ne].
Qed.
End operations.

Section task.
Context (c b : Z) (w : option Z) (Hc : istaskp c = true) (Hch : c ≠ HARDWARE)
        (Hw : ∀ x, w = Some x → istaskp x = true ∧ x ≠ HARDWARE).

Lemma not_task p : istaskp p = false → p ≠ c ∧ w ≠ Some p.
Proof. intros Hp. split; [intros ->; congruence|]. intros E. destruct (Hw p E). congruence. Qed.

Lemma stays_cause_sig p sig : istaskp p = false → stays c b w (cause_sig p sig).
Proof.
  intros Hp. destruct (not_task p Hp) as [Hpc Hpw].
  assert (Hh : w ≠ Some HARDWARE) by (intros E; by destruct (Hw _ E)).
  assert (Hm : w ≠ Some MM_PROC_NR) by (intros E; by destruct (Hw _ E)).
  assert (Hi : stays c b w inform).
  { unfold inform. stays_step; [|stays_step]. apply stays_for_each. intros x Hx%elem_of_seqZ.
    assert (Hxt : istaskp x = false) by (unfold istaskp; lia). stays_steps. apply stays_inform_proc; try done.
    - unfold istaskp, isuserp, LOW_USER in *. lia.
    - by apply not_task. }
  unfold cause_sig, lock_unready. repeat first [stays_step|exact Hi|by apply stays_unready|by apply harmless_ne].
Qed.

Lemma stays_interrupt t : w ≠ Some t → stays c b w (interrupt t).
Proof.
  intros Ht. unfold interrupt. repeat first [stays_step|by apply harmless_ne|apply stays_enqueue; by left].
Qed.
End task.

(** ** A message for the task that waits for it *)
Section send.
Context (c b x : Z).
Definition leaves {A} (m : KM A) : Prop := ∀ k, runs c b (Some x) k → wlp m (λ _, runs c b None) k.

Lemma leaves_bind {A B} (m : KM A) (f : A → KM B) : stays c b (Some x) m → (∀ a, leaves (f a)) → leaves (m ≫= f).
Proof. intros Hm Hf k Hk. apply wlp_bind. eapply wlp_mono; [by apply Hm|]. intros a k' Hk'. by apply Hf. Qed.
Lemma leaves_gets {A B} (f : kernel → A) (g : A → KM B) :
  (∀ k, runs c b (Some x) k → leaves (g (f k))) → leaves (gets f ≫= g).
Proof. intros H k Hk. by apply (H k Hk). Qed.
Lemma leaves_stays {A} (m : KM A) : stays c b None m → leaves m.
Proof. intros Hm k (H1 & H2 & H3 & _). apply Hm; by split_and!. Qed.

Lemma send_waiting m : leaves (mini_send c x m).
Proof.
  unfold mini_send. destruct (isuserp c && _); [apply leaves_stays, stays_ret|].
  assert (Ha : ∀ {A} n (f : Z → KM A), leaves (f n) → leaves (proc_addr n ≫= f)).
  { intros A n f Hf. unfold proc_addr. destruct (isokprocn n); [exact Hf|by intros k _]. }
  apply Ha. apply leaves_bind; [stays_step|]. intros df. destruct (has df _); [apply leaves_stays, stays_ret|].
  apply leaves_bind; [stays_step|]. intros r. destruct (negb _); [apply leaves_stays, stays_ret|].
  apply leaves_bind; [unfold deadlock_step; stays_steps|]. intros [|]; [apply leaves_stays, stays_ret|].
  apply leaves_gets. intros k (_ & _ & _ & Hwait). rewrite Hwait. apply leaves_stays. unfold cp_mess.
  repeat first [stays_step|by apply harmless_ne|apply stays_ready].
Qed.
Lemma call_waiting m : leaves (sys_call SEND x m).
Proof.
  unfold sys_call. destruct (negb _); [apply leaves_stays, stays_ret|].
  apply leaves_gets. intros k (Ep & _). rewrite Ep. destruct (isuserp c && _); [apply leaves_stays, stays_ret|].
  change (has SEND SEND) with true. cbv iota. intros k' Hk'. apply wlp_bind. eapply wlp_mono; [by apply send_waiting|].
  intros r k2 H2. exact H2.
Qed.
End send.
