(* ===== verification/Userq.v ===== *)
(** * User processes taken off their queues while a task runs

    The system task and the clock task change the table entries of user
    processes.  [offs l s Q]: the queues represent [Q], the processes of [l] are
    on no queue, and every other process is queued exactly when it can run. *)

From S2P Require Import Prelude Chain Sigset Proc Sched Ipc Receive Kernel.

#[local] Arguments lseg : simpl never.

Definition memq (s : kernel) (Q : queues) (x : Z) : Prop :=
  x ∈ Q (qof (procs s x) x) ↔ p_flags (procs s x) = 0 ∧ isidlehardware x = false.
Definition offs (l : list Z) (s : kernel) (Q : queues) : Prop :=
  queues_rep s Q ∧ (∀ x, isokprocn x = true → x ∉ l → memq s Q x) ∧ ∀ x q, x ∈ l → 0 ≤ q < 4 → x ∉ Q q.
(** The running process is a task or a server. *)
Definition task_runs (s : kernel) (Q : queues) : Prop := isuserp (proc_ptr s) = false ∧ cur_ok s Q.
Definition userp (p : Z) : Prop := LOW_USER <= p < NR_PROCS.
Definition set_proc (p : Z) (r : proc) (s : kernel) : kernel := s <| procs := <[p := r]> (procs s) |>.

Section userq.
Implicit Types (s : kernel) (Q : queues).

Lemma userp_facts p : userp p → isokprocn p = true ∧ istaskp p = false ∧ isuserp p = true ∧ isidlehardware p = false.
Proof. unfold userp, isokprocn, istaskp, isuserp, isidlehardware, LOW_USER, NR_PROCS, NR_TASKS, IDLE, HARDWARE. lia. Qed.

Lemma qof_userp r p : userp p → qof r p = if isshadowp r then SHADOW_Q else USER_Q.
Proof. intros H. destruct (userp_facts p H) as (_ & E1 & E2 & _). unfold qof. by rewrite E1, E2. Qed.

Lemma qof_nonuser r r' p : isuserp p = false → qof r p = qof r' p.
Proof. intros E. unfold qof. rewrite E. by destruct (istaskp p). Qed.

Lemma offs_nil s Q : offs [] s Q ↔ queues_rep s Q ∧ mem_ok s Q.
Proof.
  split.
  - intros (HQ & Hm & _). split; [done|]. intros x Hx. apply Hm; [done|apply not_elem_of_nil].
  - intros [HQ Hm]. split_and!; [done|by intros; apply Hm|]. by intros x q ?%elem_of_nil.
Qed.

(** A blocked process is off its queue. *)
Lemma offs_blocked s Q p l : offs l s Q → isokprocn p = true → p_flags (procs s p) ≠ 0 → offs (p :: l) s Q.
Proof.
  intros (HQ & Hm & Ho) Hok Hf. split_and!; [done| |].
  - intros x Hx [? ?]%not_elem_of_cons. by apply Hm.
  - intros x q [->|Hx]%elem_of_cons Hq; [|by apply Ho]. destruct (decide (p ∈ l)) as [|Hn]; [by apply Ho|].
    intros Hin. destruct (HQ q Hq) as [_ HH]. destruct (HH p Hin) as [_ E]. rewrite <- E in Hin.
    by apply (Hm p Hok Hn) in Hin as [? _].
Qed.

Lemma offs_unblocked s Q p l : offs (p :: l) s Q → p_flags (procs s p) ≠ 0 → offs l s Q.
Proof.
  intros (HQ & Hm & Ho) Hf. split_and!; [done| |].
  - intros x Hx Hn. destruct (decide (x = p)) as [->|]; [|by apply Hm; set_solver].
    unfold memq. split; [|naive_solver]. intros Hin. exfalso. eapply (Ho p); [left| |exact Hin]. apply qof_range.
  - intros x q Hx. apply Ho. by right.
Qed.

(** Any change of the entry of a process that is off the queues. *)
Lemma offs_set s Q p l r : offs l s Q → p ∈ l → offs l (set_proc p r s) Q.
Proof.
  intros (HQ & Hm & Ho) Hp. split_and!; [| |done].
  - intros q Hq. destruct (HQ q Hq) as [[Hch Ht] Hmm]. specialize (Ho p q Hp Hq). split; [split|].
    + eapply lseg_ext, Hch. intros k Hk. unfold nextready; cbn. fn_cases k p; done.
    + done.
    + intros x Hx. destruct (Hmm x Hx) as [? <-]. split; [done|]. cbn. fn_cases x p; done.
  - intros x Hx Hn. specialize (Hm x Hx Hn). unfold memq in *. cbn. fn_cases x p; done.
Qed.

Lemma task_runs_set s Q p r : task_runs s Q → userp p → task_runs (set_proc p r s) Q.
Proof.
  intros [Hu Hc] Hp. split; [done|]. destruct Hc as [H|(Hok & Hh & Hs)]; [by left|]. right.
  change (proc_ptr (set_proc p r s)) with (proc_ptr s).
  rewrite (qof_nonuser _ (procs s (proc_ptr s)) _ Hu). done.
Qed.

Lemma task_runs_frame s s' Q Q' : task_runs s Q → proc_ptr s' = proc_ptr s →
  (∀ q, q ≠ USER_Q → q ≠ SHADOW_Q → Q' q = Q q) → task_runs s' Q'.
Proof.
  intros [Hu Hc] Ep HQ. split; [by rewrite Ep|]. destruct Hc as [H|(Hok & Hh & Hs)]; [left; congruence|]. right.
  rewrite Ep, (qof_nonuser _ (procs s (proc_ptr s)) _ Hu). split_and!; try done.
  rewrite HQ; [done| |done]. intros E%qof_user. by rewrite Hu in E.
Qed.

Lemma offs_frame s s' l Q : sched_frame s s' → rdy_head s' = rdy_head s → rdy_tail s' = rdy_tail s →
  (∀ i, nextready s' i = nextready s i) → offs l s Q → offs l s' Q.
Proof.
  intros Hfr Eh Et En (HQ & Hm & Ho). split_and!; [by eapply queues_rep_same| |done].
  intros x Hx Hn. unfold memq. destruct Hfr as [He _]. destruct (peq_fields _ _ He x) as (-> & _).
  rewrite (erase_qof _ _ x (He x)). by apply Hm.
Qed.

Lemma offs_ext s s' l Q :
  (∀ i, p_shadow (procs s' i) = p_shadow (procs s i) ∧ p_nextready (procs s' i) = p_nextready (procs s i) ∧
        p_flags (procs s' i) = p_flags (procs s i)) →
  rdy_head s' = rdy_head s → rdy_tail s' = rdy_tail s → proc_ptr s' = proc_ptr s → offs l s Q → offs l s' Q.
Proof.
  intros Hf Eh Et Ep (HQ & Hm & Ho). destruct (sched_ext s s' Q Hf Eh Et Ep) as (H1 & _ & _). split_and!; [by apply H1| |done].
  intros x Hx Hn. unfold memq. destruct (Hf x) as (Es & _ & ->). rewrite (qof_shadow _ _ _ Es). by apply Hm.
Qed.

(** [lock_ready] and [lock_unready] of a user process. *)
Lemma lock_ready_userp s Q p l :
  offs (p :: l) s Q → userp p → p ∉ l →
  wp (when (p_flags (procs s p) =? 0) (lock_ready p)) (λ _ s', sched_frame s s' ∧ proc_ptr s' = proc_ptr s ∧
    ∃ Q', offs l s' Q' ∧ (task_runs s Q → task_runs s' Q')) s.
Proof.
  intros Hoff Hp Hpl. destruct (userp_facts p Hp) as (Hok & Ht & Hu & Hid). pose proof Hoff as (HQ & Hm & Ho).
  apply wp_when; intros Ef.
  - apply Z.eqb_eq in Ef. unfold lock_ready. do 3 k_step. set (s1 := s <| switching := true |>).
    eapply wp_mono; [apply (ready_run s1 Q p _ HQ eq_refl Hok)|]. { apply Ho; [left|apply qof_range]. }
    cbn beta. intros [] s' ([He Eo] & HQ' & Ep & _). k_step. split; [done|].
    assert (Hne : (qof (procs s1 p) p =? TASK_Q) = false) by (rewrite (qof_userp _ _ Hp); by destruct (isshadowp _)).
    rewrite Hne in Ep. split; [done|]. set (q := qof (procs s1 p) p) in *. set (s2 := s' <| switching := false |>).
    exists (spec_ready q p Q). split.
    + split_and!; [done| |].
      * intros x Hx Hn. unfold memq. change (procs s2) with (procs s'). destruct (peq_fields _ _ He x) as (-> & _).
        rewrite (erase_qof _ _ x (He x)), spec_ready_in. change (procs s1) with (procs s).
        destruct (decide (x = p)) as [->|Hxp]; [naive_solver|].
        pose proof (Hm x Hx ltac:(by apply not_elem_of_cons)) as Hmx. unfold memq in Hmx. naive_solver.
      * intros x q' Hx Hq'. rewrite spec_ready_in. intros [Hin|[-> ->]]; [|done].
        eapply (Ho x q'); [by right|done|done].
    + intros Hr. eapply task_runs_frame; [exact Hr|exact Ep|]. intros q' H1 H2. unfold spec_ready.
      rewrite fn_lookup_insert_ne; [done|]. unfold q. rewrite (qof_userp _ _ Hp). intros <-. by destruct (isshadowp _).
  - apply Z.eqb_neq in Ef. split_and!; [done|done|]. exists Q. split; [by eapply offs_unblocked|done].
Qed.

Lemma lock_unready_userp s Q p l :
  offs l s Q → userp p → p ∉ l → proc_ptr s ≠ p →
  wp (when (p_flags (procs s p) =? 0) (lock_unready p)) (λ _ s', sched_frame s s' ∧ proc_ptr s' = proc_ptr s ∧
    ∃ Q', offs (p :: l) s' Q' ∧ (task_runs s Q → task_runs s' Q')) s.
Proof.
  intros Hoff Hp Hpl Hne. destruct (userp_facts p Hp) as (Hok & Ht & Hu & Hid). pose proof Hoff as (HQ & Hm & Ho).
  apply wp_when; intros Ef.
  - apply Z.eqb_eq in Ef. unfold lock_unready. do 3 k_step. set (s1 := s <| switching := true |>).
    eapply wp_mono; [apply (unready_run s1 Q p _ HQ eq_refl); by rewrite Ht|].
    cbn beta. intros [] s' ([He Eo] & HQ' & Ep & _). k_step. split; [done|].
    assert (Ep' : proc_ptr s' = proc_ptr s).
    { rewrite Ep. unfold next_cur. destruct (Z.eqb_spec p (proc_ptr s1)); [by subst p|]. by rewrite andb_false_r. }
    split; [done|]. set (q := qof (procs s1 p) p) in *. set (s2 := s' <| switching := false |>).
    assert (Hq : ∀ q', 0 ≤ q' < 4 → p ∉ spec_unready q p Q q').
    { intros q' Hq' [Hin Hn]%spec_unready_in. apply Hn. split; [|done]. destruct (HQ q' Hq') as [_ HH].
      by destruct (HH p Hin) as [_ <-]. }
    exists (spec_unready q p Q). split.
    + split_and!; [done| |].
      * intros x Hx [Hxp Hn]%not_elem_of_cons. unfold memq. change (procs s2) with (procs s'). destruct (peq_fields _ _ He x) as (-> & _).
        rewrite (erase_qof _ _ x (He x)), spec_unready_in. change (procs s1) with (procs s).
        pose proof (Hm x Hx Hn) as Hmx. unfold memq in Hmx. naive_solver.
      * intros x q' [->|Hx]%elem_of_cons Hq'; [by apply Hq|]. rewrite spec_unready_in. intros [Hin _]. by eapply (Ho x q').
    + intros Hr. eapply task_runs_frame; [exact Hr|exact Ep'|]. intros q' H1 H2. unfold spec_unready.
      rewrite fn_lookup_insert_ne; [done|]. unfold q. rewrite (qof_userp _ _ Hp). intros <-. by destruct (isshadowp _).
  - apply Z.eqb_neq in Ef. split_and!; [done|done|]. exists Q. split; [by apply offs_blocked|done].
Qed.
End userq.

(** ** The kernel's invariant without the processes of [l] *)
Definition kst (l : list Z) (s : kernel) : Prop :=
  ∃ Q H, offs l s Q ∧ task_runs s Q ∧ ipc_ok (procs s) ∧ static_ok s ∧ held_ok s H ∧ ∀ p, p ∈ H → device_task p.

(** A row that can be put in the place of the row [r0] of a user process that
    is not sending. *)
Record row_ok (r0 r : proc) : Prop := RowOk {
  row_sending : sending r = false;
  row_callerq : p_callerq r = p_callerq r0;
  row_held : p_int_held r = false;
  row_pending : has (p_flags r) PENDING = true → has (p_flags r) SIG_PENDING = true
}.

(** Rows that agree on what the message primitives use. *)
Record same_links (r0 r : proc) : Prop := SameLinks {
  sl_callerq : p_callerq r = p_callerq r0;
  sl_sendlink : p_sendlink r = p_sendlink r0;
  sl_sendto : p_sendto r = p_sendto r0;
  sl_getfrom : p_getfrom r = p_getfrom r0;
  sl_held : p_int_held r = p_int_held r0;
  sl_nextheld : p_nextheld r = p_nextheld r0;
  sl_sending : has (p_flags r) SENDING = has (p_flags r0) SENDING;
  sl_receiving : has (p_flags r) RECEIVING = has (p_flags r0) RECEIVING;
  sl_pending : has (p_flags r) PENDING = true → has (p_flags r) SIG_PENDING = true
}.

Section kst.
Implicit Types (s : kernel) (t : ptable).

Lemma kst_kinv s : kst [] s ↔ kinv s ∧ isuserp (proc_ptr s) = false.
Proof.
  split.
  - intros (Q & H & Ho & [Hu Hc] & Hi & Hs & Hh & Hd). apply offs_nil in Ho as [HQ Hm].
    split; [|done]. by exists Q, H.
  - intros [(Q & H & [HQ Hm Hi Hs] & Hc & Hh & Hd) Hu]. exists Q, H. split_and!; try done. by apply offs_nil.
Qed.

Lemma kst_blocked s p l : kst l s → isokprocn p = true → p_flags (procs s p) ≠ 0 → kst (p :: l) s.
Proof. intros (Q & H & Ho & ?) Hok Hf. exists Q, H. split; [by apply offs_blocked|done]. Qed.

Lemma kst_unblocked s p l : kst (p :: l) s → p_flags (procs s p) ≠ 0 → kst l s.
Proof. intros (Q & H & Ho & ?) Hf. exists Q, H. split; [by eapply offs_unblocked|done]. Qed.

Lemma kst_not_held s l p : kst l s → userp p → p_int_held (procs s p) = false.
Proof.
  intros (Q & H & _ & _ & _ & _ & (_ & _ & Hm) & Hd) Hp. destruct (userp_facts p Hp) as (Hok & Ht & _).
  destruct (p_int_held (procs s p)) eqn:E; [|done]. apply (Hm p Hok) in E. apply Hd in E as [E _]. congruence.
Qed.

Lemma kst_pending s l p : kst l s → userp p → has (p_flags (procs s p)) PENDING = true → has (p_flags (procs s p)) SIG_PENDING = true.
Proof. intros (Q & H & _ & _ & Hi & _) Hp. by apply Hi, userp_facts. Qed.

Lemma ipc_ok_out t p r : ipc_ok t → userp p → sending (t p) = false → sending r = false →
  p_callerq r = p_callerq (t p) → (has (p_flags r) PENDING = true → has (p_flags r) SIG_PENDING = true) →
  ipc_ok (<[p := r]> t).
Proof.
  intros Hi Hp Hs Hr Hc Hpend. destruct (userp_facts p Hp) as (Hok & Ht & _).
  assert (Hsn : ∀ i, sendnext (<[p := r]> t) i = sendnext t i).
  { intros i. unfold sendnext. fn_cases i p; [by rewrite Hr, Hs|done]. }
  split.
  - intros d Hd. destruct (ipc_callers _ Hi d Hd) as (L & Hch & Hm). exists L. split.
    + replace (p_callerq ((<[p := r]> t) d)) with (p_callerq (t d)) by (fn_cases d p; done).
      eapply lseg_ext, Hch. intros k Hk. unfold sendlink. fn_cases k p; [|done].
      apply Hm in Hk as [_ Hk]. unfold sendnext in Hk. by rewrite Hs in Hk.
    + intros x. by rewrite Hsn.
  - intros x d Hx. rewrite Hsn. by apply Hi.
  - intros x Hx. destruct (ipc_acyclic _ Hi x Hx) as [L HL]. exists L. eapply lseg_ext, HL. intros. apply Hsn.
  - intros x Hx Hxo. fn_cases x p; [congruence|by apply Hi].
  - intros x Hx. fn_cases x p; [done|by apply Hi].
  - intros x Hx. fn_cases x p; [by rewrite Hr|by apply Hi].
Qed.

Lemma static_ok_out s p r : static_ok s → userp p → static_ok (set_proc p r s).
Proof.
  intros Hst Hp. unfold userp, LOW_USER in Hp.
  assert (E : ∀ x, x < 3 → procs (set_proc p r s) x = procs s x) by (intros; cbn; rewrite fn_lookup_insert_ne by lia; done).
  split.
  - intros x Hx. rewrite E; [by apply Hst|unfold istaskp in Hx; lia].
  - rewrite E by done. apply Hst.
  - rewrite E by done. apply Hst.
  - rewrite E by done. apply Hst.
  - intros x Hx. rewrite E; [by apply Hst|unfold isidlehardware, IDLE, HARDWARE in Hx; lia].
Qed.

Lemma held_ok_out s H p r : held_ok s H → (∀ x, x ∈ H → device_task x) → userp p → p_int_held r = false →
  held_ok (set_proc p r s) H.
Proof.
  intros (Hch & Ht & Hm) Hd Hp Hr. destruct (userp_facts p Hp) as (Hok & Htk & _).
  assert (Hn : p ∉ H) by (intros Hin; destruct (Hd p Hin) as [? _]; congruence). split_and!; [|done|].
  - eapply lseg_ext, Hch. intros k Hk. unfold nextheld; cbn. fn_cases k p; done.
  - intros x Hx. cbn. fn_cases x p; [by rewrite Hr|by apply Hm].
Qed.

Lemma kst_set s l p r : kst l s → p ∈ l → userp p → sending (procs s p) = false → row_ok (procs s p) r →
  kst l (set_proc p r s).
Proof.
  intros (Q & H & Ho & Hr & Hi & Hs & Hh & Hd) Hin Hp Hsn []. exists Q, H.
  split_and!; [by apply offs_set|by apply task_runs_set|by apply ipc_ok_out|by apply static_ok_out|by apply held_ok_out|done].
Qed.

(** Changes that leave the links and the state of its messages alone, of a
    process off the queues or without touching what the queues depend on. *)
Lemma kst_links s l p r : kst l s → userp p → same_links (procs s p) r →
  p ∈ l ∨ (p_flags r = p_flags (procs s p) ∧ p_shadow r = p_shadow (procs s p) ∧ p_nextready r = p_nextready (procs s p)) →
  kst l (set_proc p r s).
Proof.
  intros (Q & H & Ho & Hr & Hi & Hs & Hh & Hd) Hp Hl Hcase. destruct (userp_facts p Hp) as (Hok & Ht & _).
  destruct Hl as [L1 L2 L3 L4 L5 L6 L7 L8 L9]. exists Q, H.
  split_and!; [|by apply task_runs_set| |by apply static_ok_out| |done].
  - destruct Hcase as [Hin|(Ef & Es & En)]; [by apply offs_set|]. apply (offs_ext s); [|done..].
    intros i. cbn. by fn_cases i p.
  - apply (ipc_ok_ext (procs s)); [done|..]; intros i; unfold sendnext, sending; cbn; fn_cases i p; try done; try by apply Hi.
    + by rewrite L7, L3.
    + congruence.
    + rewrite L7, L8, L4. by apply Hi.
  - apply (held_ok_frame s); [|done]. split; [|done]. intros i. cbn. by fn_cases i p.
Qed.

(** The same for a blocked process that stays blocked. *)
Lemma kst_set_blocked s l p r : kst l s → userp p → sending (procs s p) = false → row_ok (procs s p) r →
  p_flags (procs s p) ≠ 0 → p_flags r ≠ 0 → kst l (set_proc p r s).
Proof.
  intros Hk Hp Hs Hr H0 H1. apply (kst_unblocked _ p); [|cbn; by rewrite fn_lookup_insert].
  apply kst_set; [|left|done..]. apply kst_blocked; [done|by apply userp_facts|done].
Qed.

Lemma kst_vars s s' l : kst l s → procs s' = procs s → rdy_head s' = rdy_head s → rdy_tail s' = rdy_tail s →
  proc_ptr s' = proc_ptr s → sys_m s' = sys_m s → held_head s' = held_head s → held_tail s' = held_tail s → kst l s'.
Proof.
  intros (Q & H & (HQ & Hm & Ho) & [Hu Hc] & Hi & Hs & Hh & Hd) Ep Eh Et Epp Esm Ehh Eht.
  destruct (sched_ext s s' Q) as (H1 & _ & H3); [by rewrite Ep|done..|]. exists Q, H. split_and!.
  - split_and!; [by apply H1|intros x; unfold memq; rewrite Ep; apply Hm|done].
  - split; [by rewrite Epp|by apply H3].
  - by rewrite Ep.
  - apply (static_ok_ext s); [done|done|by rewrite Ep|by rewrite Ep].
  - eapply held_ok_frame; [|done]. split; [intros i; by rewrite Ep|done].
  - done.
Qed.

Lemma sched_held s s' : sched_frame s s' → held_frame s s'.
Proof.
  intros [He Eo]. apply others_fields in Eo as (Eh & Et & _). split; [|done]. intros i.
  destruct (peq_fields _ _ He i) as (_ & _ & _ & _ & _ & _ & _ & _ & _ & _ & -> & -> & _). done.
Qed.

(** The two scheduling steps. *)
Lemma kst_ready s p l : kst (p :: l) s → userp p → p ∉ l →
  wp (when (p_flags (procs s p) =? 0) (lock_ready p)) (λ _ s', kst l s' ∧ sched_frame s s' ∧ proc_ptr s' = proc_ptr s) s.
Proof.
  intros (Q & H & Ho & Hr & Hi & Hs & Hh & Hd) Hp Hn.
  eapply wp_mono; [by apply (lock_ready_userp s Q p l)|]. cbn beta. intros _ s' (Hfr & Ep & Q' & Ho' & Hr').
  split; [|done]. exists Q', H. split_and!; [done|by apply Hr'|apply (ipc_ok_peq (procs s)); [exact (proj1 Hfr)|done]|by eapply static_ok_frame| |done].
  eapply held_ok_frame; [by apply sched_held|done].
Qed.

Lemma kst_unready s p l : kst l s → userp p → p ∉ l →
  wp (when (p_flags (procs s p) =? 0) (lock_unready p)) (λ _ s', kst (p :: l) s' ∧ sched_frame s s' ∧ proc_ptr s' = proc_ptr s) s.
Proof.
  intros (Q & H & Ho & Hr & Hi & Hs & Hh & Hd) Hp Hn.
  assert (Hne : proc_ptr s ≠ p). { destruct Hr as [Hu _]. destruct (userp_facts p Hp) as (_ & _ & ? & _). congruence. }
  eapply wp_mono; [by apply (lock_unready_userp s Q p l)|]. cbn beta. intros _ s' (Hfr & Ep & Q' & Ho' & Hr').
  split; [|done]. exists Q', H. split_and!; [done|by apply Hr'|apply (ipc_ok_peq (procs s)); [exact (proj1 Hfr)|done]|by eapply static_ok_frame| |done].
  eapply held_ok_frame; [by apply sched_held|done].
Qed.

(** Clear the flag [f] of a blocked process and let it run if no other is left.
    It may be sending. *)
Lemma kst_release s p f : kst [] s → userp p → has (p_flags (procs s p)) f = true →
  Z.land f SENDING = 0 → (f = SIG_PENDING → has (p_flags (procs s p)) PENDING = false) →
  f = RECEIVING ∨ f = SIG_PENDING ∨ f = P_STOP →
  wp (setp p (λ r, r <| p_flags := clrf (p_flags r) f |>);;
      g ← fld p_flags p; when (g =? 0) (lock_ready p)) (λ _ s', kst [] s' ∧ proc_ptr s' = proc_ptr s ∧
      peq (<[p := (procs s p) <| p_flags := clrf (p_flags (procs s p)) f |>]> (procs s)) (procs s') ∧ others s' = others s) s.
Proof.
  intros Hk Hp Hf Hfs Hpend Hcases. destruct (userp_facts p Hp) as (Hok & Ht & Hu & Hid).
  set (r := (procs s p) <| p_flags := clrf (p_flags (procs s p)) f |>).
  assert (Hk1 : kst [p] (set_proc p r s)).
  { pose proof (kst_not_held s [] p Hk Hp) as Hnh.
    apply (kst_blocked _ p []) in Hk as (Q & H & Ho & Hr & Hi & Hs & Hh & Hd); [|done|by eapply has_nonzero].
    exists Q, H. split_and!; [apply offs_set; [done|left]|by apply task_runs_set| |by apply static_ok_out| |done].
    - assert (Hsend : has (p_flags r) SENDING = has (p_flags (procs s p)) SENDING) by (unfold r; cbn; by apply has_clrf_other).
      apply (ipc_ok_ext (procs s)); [done|..].
      + intros i. unfold sendnext, sending. cbn. fn_cases i p; [|done]. by rewrite Hsend.
      + intros i ? ?. cbn. fn_cases i p; [congruence|by apply Hi].
      + intros i ?. cbn. fn_cases i p; [|by apply Hi]. pose proof (ipc_pending _ Hi p Hok) as HP. unfold r; cbn.
        destruct Hcases as [->|[->| ->]]; rewrite ?(has_clrf_other _ _ PENDING) by done; intros HPp;
          [by rewrite has_clrf_other by done; auto|by rewrite Hpend in HPp|by rewrite has_clrf_other by done; auto].
      + intros i ?. unfold sending. cbn. fn_cases i p; [|by apply Hi]. rewrite Hsend. intros Hse Hre.
        apply (ipc_both _ Hi p Hok Hse). unfold r in Hre; cbn in Hre.
        destruct Hcases as [->|[->| ->]]; [by rewrite has_clrf_same in Hre|by rewrite has_clrf_other in Hre..].
    - by apply held_ok_out. }
  do 4 k_step. fold r. fold (set_proc p r s). eapply wp_mono.
  { apply (kst_ready (set_proc p r s) p []); [done|done|apply not_elem_of_nil]. }
  cbn beta. intros _ s' (Hk' & [He Eo] & Ep). done.
Qed.
End kst.
