(* ===== verification/Ksys.v ===== *)
(** * The system task

    kernel/system.c without [cause_sig] and [inform] (Proc.v): the requests by
    which MM and FS create, destroy, stop, map and signal processes, and copy
    memory between them (68000, SHADOWING, OLDSIGNAL_COMPAT and
    SIGFRAME_COMPAT_16).  The fields of [struct proc] that the scheduler and the
    messages do not use are in a record of their own, [pinfo]; the variables of
    the clock task (Clock.v) are in the state too, because the clock and the
    system task call each other's routines. *)

From S2P Require Import Prelude Sigset Proc Alloc.

(** ** Constants *)
Definition SYSTASK : Z := -2.
Definition E_BAD_FCN : Z := -1009.
Definition E_BAD_PROC : Z := -1011.
Definition EIO : Z := -5.
Definition EINVAL : Z := -22.
Definition EDOM : Z := -33.
Definition SIGTRAP : Z := 5.
Definition TRACEBIT : Z := 0x8000.
Definition CPVEC_NR : Z := 16.
Definition CPVEC_SIZE : Z := 12.
Definition MAP_SIZE : Z := 18.
Definition NLEN : Z := 15.
Definition SIGMSG_SIZE : Z := 18.
Definition SIGCONTEXT_SIZE : Z := 78.
Definition SIGFRAME_SIZE : Z := 22.
Definition SIG_PUSH_BYTES : Z := 8.
Definition SC_SIGCONTEXT : Z := 2.
Definition SC_NOREGLOCALS : Z := 4.
Definition BPARAM_SIZE : Z := 8.
Definition T_SEG : Z := 0.
Definition D_SEG : Z := 1.
Definition S_SEG : Z := 2.
Definition T_STOP : Z := -1.
Definition T_GETINS : Z := 1.
Definition T_GETDATA : Z := 2.
Definition T_GETUSER : Z := 3.
Definition T_SETINS : Z := 4.
Definition T_SETDATA : Z := 5.
Definition T_SETUSER : Z := 6.
Definition T_RESUME : Z := 7.
Definition T_STEP : Z := 9.

(** The types of requests. *)
Definition SYS_XIT : Z := 1.
Definition SYS_GETSP : Z := 2.
Definition SYS_OLDSIG : Z := 3.
Definition SYS_FORK : Z := 4.
Definition SYS_NEWMAP : Z := 5.
Definition SYS_COPY : Z := 6.
Definition SYS_EXEC : Z := 7.
Definition SYS_TIMES : Z := 8.
Definition SYS_ABORT : Z := 9.
Definition SYS_FRESH : Z := 10.
Definition SYS_KILL : Z := 11.
Definition SYS_GBOOT : Z := 12.
Definition SYS_UMAP : Z := 13.
Definition SYS_MEM : Z := 14.
Definition SYS_TRACE : Z := 15.
Definition SYS_VCOPY : Z := 16.
Definition SYS_SENDSIG : Z := 17.
Definition SYS_SIGRETURN : Z := 18.
Definition SYS_ENDSIG : Z := 19.
Definition SYS_GETMAP : Z := 20.

(** ** Data *)

(** [struct stackframe_s]: the registers d0-d7, a0-a5, fp, sp and pc have the
    numbers 0 to 16. *)
Record frame := Frame { regs : Z → Z; psw : Z; dummy : Z }.
#[export] Instance eta_frame : Eta frame := λ r, Frame r.(regs) r.(psw) r.(dummy).
#[export] Instance upd_regs : Upd regs := ltac:(derive_upd).
#[export] Instance upd_psw : Upd psw := ltac:(derive_upd).
Definition RETREG : Z := 0.
Definition FP : Z := 14.
Definition SP : Z := 15.
Definition PC : Z := 16.
Definition set_reg (n v : Z) (f : frame) : frame := f <| regs := <[n := v]> (regs f) |>.

(** The rest of [struct proc]. *)
Record pinfo := Pinfo {
  p_reg : frame;
  p_splow : Z;
  p_pid : Z;
  user_time : Z;
  sys_time : Z;
  child_utime : Z;
  child_stime : Z;
  p_alarm : Z;
  p_name : list Z
}.
#[export] Instance eta_pinfo : Eta pinfo := λ r,
  Pinfo r.(p_reg) r.(p_splow) r.(p_pid) r.(user_time) r.(sys_time) r.(child_utime) r.(child_stime) r.(p_alarm) r.(p_name).
#[export] Instance upd_p_reg : Upd p_reg := ltac:(derive_upd).
#[export] Instance upd_p_splow : Upd p_splow := ltac:(derive_upd).
#[export] Instance upd_p_pid : Upd p_pid := ltac:(derive_upd).
#[export] Instance upd_user_time : Upd user_time := ltac:(derive_upd).
#[export] Instance upd_sys_time : Upd sys_time := ltac:(derive_upd).
#[export] Instance upd_child_utime : Upd child_utime := ltac:(derive_upd).
#[export] Instance upd_child_stime : Upd child_stime := ltac:(derive_upd).
#[export] Instance upd_p_alarm : Upd p_alarm := ltac:(derive_upd).
#[export] Instance upd_p_name : Upd p_name := ltac:(derive_upd).

(** The function the clock calls when an alarm of a task goes off. *)
Inductive watchdog := No_dog | Cause_alarm | Driver_dog (f : Z).

(** The state of the kernel with its tasks: [mem] and [tot_mem_size] are the
    free memory at start-up, the last twelve fields belong to the clock. *)
Record sysst := Sysst {
  kern : kernel;
  pinfo_of : Z → pinfo;
  mem_chunks : list memory;
  tot_mem_size : Z;
  boot_parameters : list Z;
  realtime : Z;
  boot_time : Z;
  next_alarm : Z;
  watch_dog : Z → watchdog;
  watchdog_proc : Z;
  syn_al_alive : bool;
  syn_table : Z → bool;
  pending_ticks : Z;
  sched_ticks : Z;
  prev_ptr : option Z;
  lost_ticks : Z;
  tty_timeout : Z
}.
#[export] Instance eta_sysst : Eta sysst := λ r,
  Sysst r.(kern) r.(pinfo_of) r.(mem_chunks) r.(tot_mem_size) r.(boot_parameters) r.(realtime) r.(boot_time) r.(next_alarm)
    r.(watch_dog) r.(watchdog_proc) r.(syn_al_alive) r.(syn_table) r.(pending_ticks) r.(sched_ticks) r.(prev_ptr)
    r.(lost_ticks) r.(tty_timeout).
#[export] Instance upd_kern : Upd kern := ltac:(derive_upd).
#[export] Instance upd_pinfo_of : Upd pinfo_of := ltac:(derive_upd).
#[export] Instance upd_mem_chunks : Upd mem_chunks := ltac:(derive_upd).
#[export] Instance upd_realtime : Upd realtime := ltac:(derive_upd).
#[export] Instance upd_boot_time : Upd boot_time := ltac:(derive_upd).
#[export] Instance upd_next_alarm : Upd next_alarm := ltac:(derive_upd).
#[export] Instance upd_watch_dog : Upd watch_dog := ltac:(derive_upd).
#[export] Instance upd_watchdog_proc : Upd watchdog_proc := ltac:(derive_upd).
#[export] Instance upd_syn_al_alive : Upd syn_al_alive := ltac:(derive_upd).
#[export] Instance upd_syn_table : Upd syn_table := ltac:(derive_upd).
#[export] Instance upd_pending_ticks : Upd pending_ticks := ltac:(derive_upd).
#[export] Instance upd_sched_ticks : Upd sched_ticks := ltac:(derive_upd).
#[export] Instance upd_prev_ptr : Upd prev_ptr := ltac:(derive_upd).
#[export] Instance upd_lost_ticks : Upd lost_ticks := ltac:(derive_upd).

Notation SM := (M sysst).

(** An operation on the kernel's own tables. *)
Definition lift {A} (m : KM A) : SM A := λ s,
  match m (kern s) with
  | Ret a k => Ret a (s <| kern := k |>)
  | Panic w n => Panic w n
  | Fault => Fault
  | NoFuel => NoFuel
  end.
Definition row (p : Z) : SM proc := gets (λ s, procs (kern s) p).
Definition info (p : Z) : SM pinfo := gets (λ s, pinfo_of s p).
Definition set_info (p : Z) (g : pinfo → pinfo) : SM unit :=
  modify (λ s, s <| pinfo_of := <[p := g (pinfo_of s p)]> (pinfo_of s) |>).

(** *** The message [m] of the task, and the views of its union *)
Definition the_m : SM message := gets (λ s, mess (kern s) (sys_m (kern s))).
Definition set_m (g : message → message) : SM unit :=
  lift (modify (λ k, k <| mess := <[sys_m k := g (mess k (sys_m k))]> (mess k) |>)).
Definition m1_i1 := m2_i1.
Definition m1_i2 := m2_i2.
Definition m1_i3 := m2_i3.
Definition m1_p1 (m : message) : Z := u32 (m2_l1 m).
Definition m1_p2 (m : message) : Z := u32 (m2_l2 m).
Definition m1_p3 (m : message) : Z := u32 (m2_p1 m).
Definition m5_c1 (m : message) : Z := Z.shiftr (u16 (m2_i1 m)) 8.
Definition m5_c2 (m : message) : Z := u8 (m2_i1 m).
Definition m5_i1 := m2_i2.
Definition m5_i2 := m2_i3.
Definition m5_l1 (m : message) : Z := u32 (m2_l1 m).
Definition m5_l2 (m : message) : Z := u32 (m2_l2 m).
Definition m5_l3 (m : message) : Z := u32 (m2_p1 m).
Definition m6_i1 := m2_i1.
Definition m6_i2 := m2_i2.
Definition m6_l1 := m2_l1.
Definition m6_f1 (m : message) : Z := u32 (m2_l2 m).
Definition hi (l : Z) : Z := u16 (Z.shiftr l 16).
Definition pair_l (h l : Z) : Z := s32 (h * 2 ^ 16 + l).
(** The five longs of the fourth view. *)
Definition set_m4 (l1 l2 l3 l4 l5 : Z) (m : message) : message :=
  Message (m_source m) (m_type m) (s16 (hi l1)) (s16 l1) (s16 (hi l2)) (pair_l (u16 l2) (hi l3)) (pair_l (u16 l3) (hi l4))
    (pair_l (u16 l4) (hi l5)) (pair_l (u16 l5) (u16 (m_rest m))).
Definition m4 (m : message) : list Z :=
  [pair_l (u16 (m2_i1 m)) (u16 (m2_i2 m)); pair_l (u16 (m2_i3 m)) (hi (m2_l1 m)); pair_l (u16 (m2_l1 m)) (hi (m2_l2 m));
   pair_l (u16 (m2_l2 m)) (hi (m2_p1 m)); pair_l (u16 (m2_p1 m)) (hi (m_rest m))].

(** *** Physical memory as bytes *)
Definition mem_byte (c : Z → Z) (a : Z) : Z := Z.shiftr (c (a / 256)) (8 * (255 - a mod 256)) mod 256.
Definition pack_click (f : Z → Z) (k : Z) : Z := foldl (λ v i, v * 256 + f (k * 256 + i) mod 256) 0 (seqZ 0 256).
(** The [n] bytes from [a] on become those of [g]. *)
Definition patch (a n : Z) (g : Z → Z) (c : Z → Z) : Z → Z := λ k,
  if (a <? (k + 1) * 256) && (k * 256 <? a + n)
  then pack_click (λ b, if (a <=? b) && (b <? a + n) then g b else mem_byte c b) k else c k.
(** For regions that do not overlap. *)
Definition phys_copy (src dst n : Z) : SM unit :=
  lift (modify (λ k, k <| clicks := patch dst n (λ b, mem_byte (clicks k) (src + (b - dst))) (clicks k) |>)).
(** [phys_copy] from and to variables of the kernel. *)
Definition copy_in (src n : Z) : SM (list Z) := gets (λ s, map (mem_byte (clicks (kern s))) (seqZ src n)).
Definition copy_out (l : list Z) (dst : Z) : SM unit :=
  lift (modify (λ k, k <| clicks := patch dst (Z.of_nat (length l)) (λ b, nth (Z.to_nat (b - dst)) l 0) (clicks k) |>)).
Definition zeroclicks (dst nc : Z) : SM unit :=
  lift (modify (λ k, k <| clicks := λ c, if (dst <=? c) && (c <? dst + nc) then 0 else clicks k c |>)).

(** Big-endian words and longs of a structure. *)
Definition w16 (v : Z) : list Z := [u16 v / 256; u16 v mod 256].
Definition w32 (v : Z) : list Z := w16 (u32 v / 2 ^ 16) ++ w16 (u32 v mod 2 ^ 16).
Definition r16 (l : list Z) (o : Z) : Z := nth (Z.to_nat o) l 0 * 256 + nth (Z.to_nat (o + 1)) l 0.
Definition r32 (l : list Z) (o : Z) : Z := r16 l o * 2 ^ 16 + r16 l (o + 2).
Definition frame_bytes (f : frame) : list Z := concat (map (λ n, w32 (regs f n)) (seqZ 0 17)) ++ w16 (psw f) ++ w16 (dummy f).
Definition frame_of (l : list Z) (o : Z) : frame :=
  Frame (λ n, r32 l (o + 4 * n)) (r16 l (o + 68)) (r16 l (o + 70)).
Definition map_bytes (m : mem_map) : list Z := w16 (mem_vir m) ++ w16 (mem_phys m) ++ w16 (mem_len m).
Definition map_of (l : list Z) (o : Z) : mem_map := MemMap (r16 l o) (r16 l (o + 2)) (r16 l (o + 4)).

(** ** Addresses *)
Definition isoksusern (n : Z) : bool := (0 <=? n) && (n <? NR_PROCS).
Definition isokusern (n : Z) : bool := (LOW_USER <=? n) && (n <? NR_PROCS).

(** The physical address of [bytes] bytes at [vir_addr] of the process [r], 0
    if there is none. *)
Definition umap (r : proc) (seg vir_addr bytes : Z) : Z :=
  if bytes <=? 0 then 0 else
  let vc := u16 (Z.shiftr (u32 (vir_addr + bytes - 1)) CLICK_SHIFT) in
  let segm := if negb (seg =? T_SEG)
              then if vc <? u16 (mem_vir (p_map_D r) + mem_len (p_map_D r)) then p_map_D r else p_map_S r
              else p_map_T r in
  if u16 (mem_vir segm + mem_len segm) <=? Z.shiftr vir_addr CLICK_SHIFT then 0
  else if isshadowp r && negb (seg =? T_SEG)
  then u32 (vir_addr - u32 (Z.shiftl (mem_phys (p_map_D r)) CLICK_SHIFT) + u32 (Z.shiftl (p_shadow r) CLICK_SHIFT))
  else vir_addr.
(** [umap(proc_addr(n), ...)] *)
Definition umap_at (proc_nr seg vir_addr bytes : Z) : SM Z :=
  p ← lift (proc_addr proc_nr); r ← row p; mret (umap r seg vir_addr bytes).
Definition numap (proc_nr vir_addr bytes : Z) : SM Z := umap_at proc_nr D_SEG vir_addr bytes.

(** ** Processes *)

(** The process table entry of [p], and its registers. *)
Definition setrow (p : Z) (g : proc → proc) : SM unit := lift (setp p g).
Definition set_frame (p : Z) (g : frame → frame) : SM unit := set_info p (λ i, i <| p_reg := g (p_reg i) |>).
(** [rp->p_flags &= ~f; if (rp->p_flags == 0) lock_ready(rp);] *)
Definition release (p f : Z) : SM unit :=
  setrow p (λ r, r <| p_flags := clrf (p_flags r) f |>);;
  r ← row p;
  when (p_flags r =? 0) (lift (lock_ready p)).

Definition do_fork : SM Z :=
  m ← the_m;
  if negb (isoksusern (m1_i1 m)) || negb (isoksusern (m1_i2 m)) then mret E_BAD_PROC else
  rpp ← lift (proc_addr (m1_i1 m));
  rpc ← lift (proc_addr (m1_i2 m));
  r ← row rpp;
  i ← info rpp;
  setrow rpc (λ _, r);;
  set_info rpc (λ _, i);;
  setrow rpc (λ r, r <| p_flags := clrf (p_flags r) (Z.lor PENDING (Z.lor SIG_PENDING P_STOP)) |>
                     <| p_pending := (sigemptyset (p_pending r)).2 |> <| p_pendcount := 0 |>);;
  set_info rpc (λ i, i <| p_pid := m1_i3 m |> <| p_reg := set_reg RETREG 0 (p_reg i) |>
                       <| user_time := 0 |> <| sys_time := 0 |> <| child_utime := 0 |> <| child_stime := 0 |>);;
  setrow rpc (λ r, r <| p_nflips := 0 |>);;
  lift (mkshadow rpp (u16 (m1_p1 m)));;
  mret OK.

Definition set_maps (l : list Z) (r : proc) : proc :=
  r <| p_map_T := map_of l 0 |> <| p_map_D := map_of l 6 |> <| p_map_S := map_of l 12 |>.
Definition get_maps (r : proc) : list Z := map_bytes (p_map_T r) ++ map_bytes (p_map_D r) ++ map_bytes (p_map_S r).

Definition do_newmap : SM Z :=
  m ← the_m;
  if negb (isokprocn (m1_i1 m)) then mret E_BAD_PROC else
  rp ← lift (proc_addr (m1_i1 m));
  src_phys ← umap_at (m_source m) D_SEG (m1_p1 m) MAP_SIZE;
  if src_phys =? 0 then panic "bad call to sys_newmap" 0x8000 else
  l ← copy_in src_phys MAP_SIZE;
  setrow rp (set_maps l);;
  mret OK.

Definition do_getmap : SM Z :=
  m ← the_m;
  if negb (isokprocn (m1_i1 m)) then panic "do_getmap got bad proc: " (m1_i1 m) else
  rp ← lift (proc_addr (m1_i1 m));
  dst_phys ← umap_at (m_source m) D_SEG (m1_p1 m) MAP_SIZE;
  if dst_phys =? 0 then panic "bad call to sys_getmap" 0x8000 else
  r ← row rp;
  copy_out (get_maps r) dst_phys;;
  mret OK.

(** Put the end of the name at its first byte below a space; [None] when the
    search runs past the end of the array. *)
Fixpoint end_name (l : list Z) : option (list Z) :=
  match l with
  | [] => None
  | c :: l' => if 32 <=? u8 c then option_map (cons c) (end_name l') else Some (0 :: l')
  end.

Definition do_exec : SM Z :=
  m ← the_m;
  if negb (isoksusern (m1_i1 m)) then mret E_BAD_PROC else
  when (negb (m1_i2 m =? 0)) (lift (cause_sig (m1_i1 m) SIGTRAP));;
  m ← the_m;
  let sp := m1_p1 m in
  rp ← lift (proc_addr (m1_i1 m));
  set_frame rp (set_reg SP sp);;
  set_info rp (λ i, i <| p_splow := sp |>);;
  set_frame rp (set_reg PC (m1_p3 m));;
  set_info rp (λ i, i <| p_alarm := 0 |>);;
  release rp RECEIVING;;
  phys_name ← numap (m_source m) (m1_p2 m) NLEN;
  when (negb (phys_name =? 0))
    (l ← copy_in phys_name NLEN;
     i ← info rp;
     l ← deref (end_name (l ++ drop (Z.to_nat NLEN) (p_name i)));
     set_info rp (λ i, i <| p_name := l |>));;
  mret OK.

(** Unlink [rc] from the rest of the queue that [np] is on. *)
Definition unlink_step (rc : Z) : Z → SM (Z + unit) := λ np,
  n ← row np;
  match p_sendlink n with
  | None => mret (inr tt)
  | Some xp =>
      if xp =? rc then
        x ← row xp;
        setrow np (λ r, r <| p_sendlink := p_sendlink x |>);;
        mret (inr tt)
      else mret (inl xp)
  end.
Definition all_slots : list Z := seqZ (- NR_TASKS) (NR_TASKS + NR_PROCS).
Definition unlink_sender (rc : Z) : SM unit :=
  for_each all_slots (λ rp,
    r ← row rp;
    match p_callerq r with
    | None => mret None
    | Some np =>
        if np =? rc then
          c ← row rc;
          setrow rp (λ r, r <| p_callerq := p_sendlink c |>);;
          mret (Some tt)
        else loop proc_fuel (unlink_step rc) np;; mret None
    end);;
  mret tt.

(** "<noname>" *)
Definition noname : list Z := [60; 110; 111; 110; 97; 109; 101; 62; 0].

Definition do_xit : SM Z :=
  m ← the_m;
  let parent := m1_i1 m in
  let proc_nr := m1_i2 m in
  if negb (isoksusern parent) || negb (isoksusern proc_nr) then mret E_BAD_PROC else
  rp ← lift (proc_addr parent);
  rc ← lift (proc_addr proc_nr);
  i ← info rc;
  set_info rp (λ p, p <| child_utime := s32 (child_utime p + (user_time i + child_utime i)) |>);;
  i ← info rc;
  set_info rp (λ p, p <| child_stime := s32 (child_stime p + (sys_time i + child_stime i)) |>);;
  set_info rc (λ i, i <| p_alarm := 0 |>);;
  r ← row rc;
  when (p_flags r =? 0) (lift (lock_unready rc));;
  '(base, size) ← lift (rmshadow rc);
  set_m (λ m, m <| m2_i1 := s16 base |> <| m2_i2 := s16 size |>);;
  set_info rc (λ i, i <| p_name := noname ++ drop 9 (p_name i) |>);;
  r ← row rc;
  when (has (p_flags r) SENDING) (unlink_sender rc);;
  r ← row rc;
  when (has (p_flags r) PENDING) (lift (modify (λ k, k <| sig_procs := sig_procs k - 1 |>)));;
  setrow rc (λ r, r <| p_pending := (sigemptyset (p_pending r)).2 |> <| p_pendcount := 0 |>
                    <| p_flags := P_SLOT_FREE |>);;
  mret OK.

Definition do_getsp : SM Z :=
  m ← the_m;
  if negb (isoksusern (m1_i1 m)) then mret E_BAD_PROC else
  rp ← lift (proc_addr (m1_i1 m));
  i ← info rp;
  set_m (λ m, m <| m2_l1 := s32 (regs (p_reg i) SP) |>);;
  mret OK.

Definition get_uptime : SM Z := gets (λ s, s32 (realtime s + pending_ticks s)).

Definition do_times : SM Z :=
  m ← the_m;
  if negb (isoksusern (m1_i1 m)) then mret E_BAD_PROC else
  rp ← lift (proc_addr (m1_i1 m));
  i ← info rp;
  t ← get_uptime;
  set_m (set_m4 (user_time i) (sys_time i) (child_utime i) (child_stime i) t);;
  mret OK.

(** [wreboot] does not return: it halts, reboots or panics. *)
Definition do_abort : SM Z := m ← the_m; panic "" (m1_i1 m).

Definition do_fresh : SM Z :=
  m ← the_m;
  if negb (isokprocn (m1_i1 m)) then mret E_BAD_PROC else
  p ← lift (proc_addr (m1_i1 m));
  '(base, size) ← lift (rmshadow p);
  do_newmap;;
  r ← row p;
  m ← the_m;
  let c1 := mem_phys (p_map_D r) in
  let nc := u16 (mem_phys (p_map_S r) - mem_phys (p_map_D r) + mem_len (p_map_S r)) in
  zeroclicks (u16 (c1 + m1_i2 m)) (u16 (nc - m1_i2 m));;
  set_m (λ m, m <| m2_i1 := s16 base |> <| m2_i2 := s16 size |>);;
  mret OK.

(** ** Signals *)

(** The structures of [do_sendsig], as bytes. *)
Definition sigcontext_bytes (mask : Z) (f : frame) : list Z := w16 SC_SIGCONTEXT ++ w32 mask ++ frame_bytes f.
Definition sigframe_bytes (retadr signo scp fp retadr2 : Z) : list Z :=
  w32 retadr ++ w16 signo ++ w16 0 ++ w32 scp ++ w32 scp ++ w16 fp ++ w32 retadr2.

Definition do_sendsig : SM Z :=
  m ← the_m;
  if negb (isokusern (m1_i1 m)) then mret E_BAD_PROC else
  rp ← lift (proc_addr (m1_i1 m));
  src_phys ← umap_at MM_PROC_NR D_SEG (m1_p1 m) SIGMSG_SIZE;
  if src_phys =? 0 then panic "do_sendsig can't signal: bad sigmsg address from MM" 0x8000 else
  smsg ← copy_in src_phys SIGMSG_SIZE;
  let sm_signo := r16 smsg 0 in
  let sm_mask := r32 smsg 2 in
  let sm_sighandler := r32 smsg 6 in
  let sm_sigreturn := r32 smsg 10 in
  let sm_stkptr := r32 smsg 14 in
  let scp := u32 (sm_stkptr - SIGCONTEXT_SIZE) in
  i ← info rp;
  let sc := sigcontext_bytes sm_mask (p_reg i) in
  r ← row rp;
  let dst_phys := umap r D_SEG scp SIGCONTEXT_SIZE in
  if dst_phys =? 0 then mret EFAULT else
  copy_out sc dst_phys;;
  let frp := u32 (scp - SIGFRAME_SIZE) in
  let fr := sigframe_bytes sm_sigreturn sm_signo scp (regs (p_reg i) FP) (regs (p_reg i) PC) in
  set_frame rp (set_reg FP (u32 (frp + 16)));;
  r ← row rp;
  let dst_phys := umap r D_SEG frp SIGFRAME_SIZE in
  if dst_phys =? 0 then mret EFAULT else
  copy_out fr dst_phys;;
  set_frame rp (set_reg SP frp);;
  set_frame rp (set_reg PC sm_sighandler);;
  mret OK.

Definition do_sigreturn : SM Z :=
  m ← the_m;
  if negb (isokusern (m1_i1 m)) then mret E_BAD_PROC else
  rp ← lift (proc_addr (m1_i1 m));
  r ← row rp;
  let src_phys := umap r D_SEG (m1_p1 m) SIGCONTEXT_SIZE in
  if src_phys =? 0 then mret EFAULT else
  sc ← copy_in src_phys SIGCONTEXT_SIZE;
  let sc_flags := r16 sc 0 in
  let sc_regs := frame_of sc 6 in
  if Z.land sc_flags SC_SIGCONTEXT =? 0 then mret EINVAL else
  if negb (Z.land sc_flags SC_NOREGLOCALS =? 0) then
    set_frame rp (set_reg RETREG (regs sc_regs RETREG));;
    set_frame rp (set_reg FP (regs sc_regs FP));;
    set_frame rp (set_reg PC (regs sc_regs PC));;
    set_frame rp (set_reg SP (regs sc_regs SP));;
    mret OK
  else
    i ← info rp;
    set_frame rp (λ _, sc_regs <| psw := psw (p_reg i) |>);;
    mret OK.

(** The 8 bytes pushed for a 1.5 binary: the signal, the psw and the pc. *)
Definition build_sig (f : frame) (sig : Z) : list Z := w16 sig ++ w16 (psw f) ++ w32 (regs f PC).

(** The copy is from [sig_stuff] of the kernel. *)
Definition do_oldsig : SM Z :=
  m ← the_m;
  if negb (isokusern (m6_i1 m)) then mret E_BAD_PROC else
  rp ← lift (proc_addr (m6_i1 m));
  i ← info rp;
  let sig_stuff := build_sig (p_reg i) (m6_i2 m) in
  let new_sp := u32 (regs (p_reg i) SP - SIG_PUSH_BYTES) in
  r ← row rp;
  let dst_phys := umap r S_SEG new_sp SIG_PUSH_BYTES in
  if dst_phys =? 0 then panic "do_oldsig can't signal; SP bad" 0x8000 else
  copy_out sig_stuff dst_phys;;
  set_frame rp (set_reg SP new_sp);;
  set_frame rp (set_reg PC (m6_f1 m));;
  mret OK.

Definition do_kill : SM Z :=
  m ← the_m;
  if negb (isokusern (m6_i1 m)) then mret E_BAD_PROC else
  lift (cause_sig (m6_i1 m) (m6_i2 m));;
  mret OK.

Definition do_endsig : SM Z :=
  m ← the_m;
  if negb (isokusern (m1_i1 m)) then mret E_BAD_PROC else
  rp ← lift (proc_addr (m1_i1 m));
  r ← row rp;
  when (negb (p_pendcount r =? 0))
    (setrow rp (λ r, r <| p_pendcount := u16 (p_pendcount r - 1) |>);;
     r ← row rp;
     when (p_pendcount r =? 0) (release rp SIG_PENDING));;
  mret OK.

(** ** Copying *)

Definition do_copy : SM Z :=
  m ← the_m;
  src_phys ← umap_at (m5_i1 m) (m5_c1 m) (m5_l1 m) (m5_l3 m);
  dst_phys ← umap_at (m5_i2 m) (m5_c2 m) (m5_l2 m) (m5_l3 m);
  if (src_phys =? 0) || (dst_phys =? 0) then mret EFAULT else
  phys_copy src_phys dst_phys (m5_l3 m);;
  mret OK.

(** Element [i] of the table of [do_vcopy]. *)
Definition vcopy_step (src_proc dst_proc : Z) (table : list Z) (i : Z) : SM (option Z) :=
  let src_vir := r32 table (CPVEC_SIZE * i) in
  let dst_vir := r32 table (CPVEC_SIZE * i + 4) in
  let bytes := r32 table (CPVEC_SIZE * i + 8) in
  src_phys ← numap src_proc src_vir bytes;
  dst_phys ← numap dst_proc dst_vir bytes;
  if (src_phys =? 0) || (dst_phys =? 0) then mret (Some EFAULT) else
  phys_copy src_phys dst_phys bytes;; mret None.

(** The size of the table is computed in 16 bits; a table that does not fit in
    [cpvec_table] is a fault. *)
Definition do_vcopy : SM Z :=
  m ← the_m;
  let vect_s := m1_i3 m in
  if CPVEC_NR <? vect_s then mret EDOM else
  let size := u16 (vect_s * CPVEC_SIZE) in
  src_phys ← numap (m_source m) (m1_p1 m) size;
  if src_phys =? 0 then mret EFAULT else
  if CPVEC_NR * CPVEC_SIZE <? size then fault else
  table ← copy_in src_phys size;
  r ← for_each (seqZ 0 vect_s) (vcopy_step (m1_i1 m) (m1_i2 m) table);
  mret (default OK r).

Definition do_gboot : SM Z :=
  m ← the_m;
  dst_phys ← umap_at (m1_i1 m) D_SEG (m1_p1 m) BPARAM_SIZE;
  if dst_phys =? 0 then panic "bad call to SYS_GBOOT" 0x8000 else
  l ← gets boot_parameters;
  copy_out l dst_phys;;
  mret OK.

(** The chunk is chosen by [Alloc.do_mem]. *)
Definition do_mem : SM Z :=
  mem ← gets mem_chunks;
  tot ← gets tot_mem_size;
  let '((base, size), mem') := Alloc.do_mem mem in
  set_m (λ m, m <| m2_i1 := s16 base |> <| m2_i2 := s16 size |> <| m2_i3 := s16 tot |>);;
  modify (λ s, s <| mem_chunks := mem' |>);;
  mret OK.

Definition do_umap : SM Z :=
  m ← the_m;
  a ← umap_at (m5_i1 m) (m5_c1 m) (m5_l1 m) (m5_l3 m);
  set_m (λ m, m <| m2_l1 := s32 a |>);;
  mret OK.

(** ** Tracing and the main loop

    [proc_bytes] is the layout of [struct proc] in memory, which the compiler
    chooses; only T_GETUSER reads it. *)
Section systask.
Context (proc_bytes : proc → pinfo → list Z).

(** [phys_copy] between [TR_DATA] and the memory of the process. *)
Definition get_data (p seg : Z) : SM Z :=
  m ← the_m;
  r ← row p;
  let src := umap r seg (u32 (m2_l1 m)) 4 in
  if src =? 0 then mret EIO else
  l ← copy_in src 4;
  set_m (λ m, m <| m2_l2 := s32 (r32 l 0) |>);;
  mret OK.
Definition set_data (p seg : Z) : SM Z :=
  m ← the_m;
  r ← row p;
  let dst := umap r seg (u32 (m2_l1 m)) 4 in
  if dst =? 0 then mret EIO else
  copy_out (w32 (m2_l2 m)) dst;;
  set_m (λ m, m <| m2_l2 := 0 |>);;
  mret OK.

(** Register [n] of the stack frame; the status word has the number 17. *)
Definition set_user (n v : Z) (f : frame) : frame :=
  if n =? 17 then f <| psw := Z.lor (Z.land (psw f) (Z.lnot 0xFF)) (Z.land v 0xFF) |> else set_reg n (u32 v) f.

Definition do_trace : SM Z :=
  m ← the_m;
  rp ← lift (proc_addr (m2_i1 m));
  r ← row rp;
  let addr := u32 (m2_l1 m) in
  if has (p_flags r) P_SLOT_FREE then mret EIO else
  if m2_i2 m =? T_STOP then
    when (p_flags r =? 0) (lift (lock_unready rp));;
    setrow rp (λ r, r <| p_flags := setf (p_flags r) P_STOP |>);;
    set_frame rp (λ f, f <| psw := clrf (psw f) TRACEBIT |>);;
    mret OK
  else if m2_i2 m =? T_GETINS then get_data rp (if negb (mem_len (p_map_T r) =? 0) then T_SEG else D_SEG)
  else if m2_i2 m =? T_GETDATA then get_data rp D_SEG
  else if m2_i2 m =? T_GETUSER then
    i ← info rp;
    let l := proc_bytes r i in
    if negb (Z.land addr 3 =? 0) || (Z.of_nat (length l) - 4 <? addr) then mret EIO else
    set_m (λ m, m <| m2_l2 := s32 (r32 l addr) |>);;
    mret OK
  else if m2_i2 m =? T_SETINS then set_data rp (if negb (mem_len (p_map_T r) =? 0) then T_SEG else D_SEG)
  else if m2_i2 m =? T_SETDATA then set_data rp D_SEG
  else if m2_i2 m =? T_SETUSER then
    if negb (Z.land addr 3 =? 0) || (68 <? addr) then mret EIO else
    set_frame rp (set_user (addr / 4) (m2_l2 m));;
    set_m (λ m, m <| m2_l2 := 0 |>);;
    mret OK
  else if m2_i2 m =? T_RESUME then
    release rp P_STOP;;
    set_m (λ m, m <| m2_l2 := 0 |>);;
    mret OK
  else if m2_i2 m =? T_STEP then
    set_frame rp (λ f, f <| psw := setf (psw f) TRACEBIT |>);;
    release rp P_STOP;;
    set_m (λ m, m <| m2_l2 := 0 |>);;
    mret OK
  else mret EIO.

(** The switch of [sys_task]. *)
Definition sys_call_table (m_type : Z) : SM Z :=
  if m_type =? SYS_FORK then do_fork
  else if m_type =? SYS_NEWMAP then do_newmap
  else if m_type =? SYS_GETMAP then do_getmap
  else if m_type =? SYS_EXEC then do_exec
  else if m_type =? SYS_XIT then do_xit
  else if m_type =? SYS_GETSP then do_getsp
  else if m_type =? SYS_TIMES then do_times
  else if m_type =? SYS_ABORT then do_abort
  else if m_type =? SYS_FRESH then do_fresh
  else if m_type =? SYS_SENDSIG then do_sendsig
  else if m_type =? SYS_SIGRETURN then do_sigreturn
  else if m_type =? SYS_OLDSIG then do_oldsig
  else if m_type =? SYS_KILL then do_kill
  else if m_type =? SYS_ENDSIG then do_endsig
  else if m_type =? SYS_COPY then do_copy
  else if m_type =? SYS_VCOPY then do_vcopy
  else if m_type =? SYS_GBOOT then do_gboot
  else if m_type =? SYS_MEM then do_mem
  else if m_type =? SYS_UMAP then do_umap
  else if m_type =? SYS_TRACE then do_trace
  else mret E_BAD_FCN.

(** One request of the task, the running process, from its reception in [m] to
    the reply. *)
Definition sys_task : SM unit :=
  m ← the_m;
  r ← sys_call_table (m_type m);
  set_m (λ m, m <| m_type := r |>);;
  m ← the_m;
  a ← gets (λ s, sys_m (kern s));
  lift (sys_call SEND (m_source m) a);;
  mret tt.
End systask.
