(* ===== verification/Ksysp.v ===== *)
(** * The system task keeps the kernel's invariant

    Each request of kernel/system.c, made by a server in the situation in which
    the servers make it, is carried out without a fault and leaves the queues
    and the caller queues as the scheduler and the message primitives need
    them. *)

From S2P Require Import Prelude Chain Sigset Proc Sched Ipc Receive Kernel Userq Alloc Ksys.

#[local] Arguments lseg : simpl never.

(** ** Images of processes *)

(** Equal up to the ready link, the shadow and the count of flips. *)
Definition erase_sh (r : proc) : proc := r <| p_nextready := None |> <| p_shadow := 0 |> <| p_nflips := 0 |>.
Definition sheq (t t' : ptable) : Prop := ∀ i, erase_sh (t' i) = erase_sh (t i).
Definition shadow_panics (w : string) : Prop := w = "no shadow?" ∨ w = "rmshadow: cannot handle physio shadows".

Section shadow.
Implicit Types (s : kernel).

Lemma erase_sh_fields r r' : erase_sh r' = erase_sh r →
  p_flags r' = p_flags r ∧ p_callerq r' = p_callerq r ∧ p_sendlink r' = p_sendlink r ∧ p_sendto r' = p_sendto r ∧
  p_getfrom r' = p_getfrom r ∧ p_int_held r' = p_int_held r ∧ p_map_D r' = p_map_D r ∧ p_map_S r' = p_map_S r.
Proof. destruct r, r'. unfold erase_sh. cbn. intros E. by injection E. Qed.

Lemma sheq_refl t : sheq t t.
Proof. done. Qed.
Lemma sheq_trans t1 t2 t3 : sheq t1 t2 → sheq t2 t3 → sheq t1 t3.
Proof. intros H1 H2 i. by rewrite H2. Qed.
Lemma peq_sheq t t' : peq t t' → sheq t t'.
Proof. intros H i. specialize (H i). unfold erase_sh. by apply (f_equal (λ r, r <| p_shadow := 0 |> <| p_nflips := 0 |>)) in H. Qed.
Lemma sheq_set t p v : sheq t (<[p := (t p) <| p_shadow := v |>]> t).
Proof. intros i. by fn_cases i p. Qed.

(** The shadow of a process that is off the queues. *)
Lemma kst_shadow s l p v : kst l s → p ∈ l → userp p → kst l (set_proc p ((procs s p) <| p_shadow := v |>) s).
Proof.
  intros Hk Hin Hp. apply kst_links; [done|done| |by left]. split; try done. by apply (kst_pending s l).
Qed.

Lemma kst_rmshadow s p : kst [p] s → userp p →
  wpx shadow_panics (rmshadow p) (λ _ s', kst [p] s' ∧ sheq (procs s) (procs s') ∧ proc_ptr s' = proc_ptr s ∧
    mess s' = mess s ∧ sys_m s' = sys_m s ∧ sig_procs s' = sig_procs s) s.
Proof.
  intros Hk Hp. unfold rmshadow. apply wpx_bind, wpx_gets. destruct (isshadowp (procs s p)).
  { apply wpx_bind, wpx_modify, wpx_ret. split_and!; try done; [by apply kst_shadow; [|left|]|by apply sheq_set]. }
  apply wpx_bind. apply (wpx_for_each _ (λ s', s' = s)); [|done|].
  2:{ intros ? ->. by apply wpx_ret. }
  intros q ? Hq ->. assert (Hqu : userp q) by (apply elem_of_seqZ in Hq; unfold userp, NR_PROCS, LOW_USER in *; lia).
  apply wpx_bind, wpx_gets. destruct (has (p_flags (procs s q)) P_SLOT_FREE); [by apply wpx_ret|].
  destruct (Z.eqb_spec q p) as [|Hqp]; [by apply wpx_ret|].
  destruct (negb _); [by apply wpx_ret|]. destruct (p_shadow (procs s q) =? 0); [apply wpx_panic; by left|].
  destruct (p_physio (procs s q)); [apply wpx_panic; by right|].
  apply wpx_bind, wpx_modify. set (s1 := s <| clicks := _ |>).
  assert (Hk1 : kst [p] s1) by by apply (kst_vars s).
  assert (Hqn : q ∉ [p]) by (intros ?%list_elem_of_singleton; done).
  apply wp_wpx, wp_bind. eapply wp_mono; [by apply (kst_unready s1 q [p])|].
  cbn beta. intros _ s2 (Hk2 & [He2 Eo2] & Ep2). do 2 k_step.
  assert (Hk3 : kst [q; p] (set_proc q ((procs s2 q) <| p_shadow := 0 |>) s2)) by (apply kst_shadow; [done|left|done]).
  fold (set_proc q ((procs s2 q) <| p_shadow := 0 |>) s2). set (s3 := set_proc _ _ s2) in *. do 3 k_step.
  eapply wp_mono; [by apply (kst_ready s3 q [p])|]. cbn beta. intros _ s4 (Hk4 & [He4 Eo4] & Ep4). repeat k_step.
  apply wp_wpx. k_step. apply others_fields in Eo2 as (_ & _ & _ & E1 & E2 & E3). apply others_fields in Eo4 as (_ & _ & _ & E4 & E5 & E6).
  split_and!; [done| |by rewrite Ep4|by rewrite E5|by rewrite E6|by rewrite E4].
  apply (sheq_trans _ (procs s2)); [by apply peq_sheq|]. apply (sheq_trans _ (procs s3)); [by apply sheq_set|by apply peq_sheq].
Qed.
End shadow.

(** ** The state of the tasks *)
Section sm.
Context {A : Type}.
Implicit Types (s : sysst).

Lemma wp_same (m m' : SM A) (Q : A → sysst → Prop) s : m s = m' s → wp m' Q s → wp m Q s.
Proof. unfold wp. by intros ->. Qed.
Lemma wp_lift (m : KM A) (Q : A → sysst → Prop) s : wp m (λ a k, Q a (s <| kern := k |>)) (kern s) → wp (lift m) Q s.
Proof. unfold wp, lift. by destruct (m (kern s)). Qed.
Lemma wpx_lift (E : string → Prop) (m : KM A) (Q : A → sysst → Prop) s :
  wpx E m (λ a k, Q a (s <| kern := k |>)) (kern s) → wpx E (lift m) Q s.
Proof. unfold wpx, lift. by destruct (m (kern s)). Qed.
End sm.

(** One symbolic step over the accessors of the tasks' state. *)
Ltac s_step :=
  lazymatch goal with
  | |- wp (row _) _ _ => apply wp_gets
  | |- wp (info _) _ _ => apply wp_gets
  | |- wp the_m _ _ => apply wp_gets
  | |- wp (setrow _ _) _ _ => apply wp_lift, wp_modify
  | |- wp (set_info _ _) _ _ => apply wp_modify
  | |- wp (set_frame _ _) _ _ => apply wp_modify
  | |- wp (set_m _) _ _ => apply wp_lift, wp_modify
  | |- wpx _ (row _) _ _ => apply wpx_gets
  | |- wpx _ (info _) _ _ => apply wpx_gets
  | |- wpx _ the_m _ _ => apply wpx_gets
  | |- wpx _ (setrow _ _) _ _ => apply wpx_lift, wpx_modify
  | |- wpx _ (set_info _ _) _ _ => apply wpx_modify
  | |- wpx _ (set_frame _ _) _ _ => apply wpx_modify
  | |- wpx _ (set_m _) _ _ => apply wpx_lift, wpx_modify
  | |- wpx _ (gets _) _ _ => apply wpx_gets
  | |- wpx _ (fld _ _) _ _ => apply wpx_gets
  | |- wpx _ (setp _ _) _ _ => apply wpx_modify
  | |- wpx _ (copyclicks _ _ _) _ _ => apply wpx_modify
  | |- wpx _ (modify _) _ _ => apply wpx_modify
  | |- wpx _ (mbind _ _) _ _ => apply wpx_bind
  | |- wpx _ (mret _) _ _ => apply wpx_ret
  | _ => k_step
  end; cbv beta.

(** ** Removal from a caller queue *)

(** The sender [rc] is unlinked from behind [y]. *)
Definition unl (y rc : Z) (s : sysst) : sysst :=
  s <| kern := set_proc y ((procs (kern s) y) <| p_sendlink := p_sendlink (procs (kern s) rc) |>) (kern s) |>.

Section unlink.
Implicit Types (s : sysst).

Lemma unlink_loop s rc fuel L1 x R h :
  chain (sendlink (procs (kern s))) h (L1 ++ x :: R) → (length R < fuel)%nat → x ≠ rc →
  wp (loop fuel (unlink_step rc) x) (λ _ s',
    (rc ∉ R ∧ s' = s) ∨ (∃ A y B, L1 ++ x :: R = A ++ y :: rc :: B ∧ s' = unl y rc s)) s.
Proof.
  revert L1 x R. induction fuel as [|fuel IH]; intros L1 x R Hch Hlen Hx; [lia|].
  pose proof (lseg_suffix _ _ _ _ _ Hch) as [_ Hn%chain_head]. unfold sendlink in Hn.
  rewrite loop_unfold. s_step. unfold unlink_step at 1. s_step. s_step. rewrite Hn.
  destruct R as [|x' R]; cbn [head]. { s_step. s_step. left. split; [apply not_elem_of_nil|done]. }
  destruct (Z.eqb_spec x' rc) as [->|Hne].
  - repeat s_step. right. by exists L1, x, R.
  - s_step. replace (L1 ++ x :: x' :: R) with ((L1 ++ [x]) ++ x' :: R) in * by by rewrite <- app_assoc.
    eapply wp_mono; [apply (IH (L1 ++ [x])); [done|cbn in Hlen; lia|done]|].
    intros [] s' [[? ?]|?]; [left; split; [set_solver|done]|by right].
Qed.

(** A list without duplicates is split at an element in one way. *)
Lemma split_unique (l l' B B' : list Z) (x : Z) : NoDup (l ++ x :: B) → l ++ x :: B = l' ++ x :: B' → l = l'.
Proof.
  revert l'. induction l as [|a l IH]; intros [|b l'] Hnd E; cbn in *; [done| | |].
  - injection E as <- ->. apply NoDup_cons in Hnd as [Hn _]. exfalso. apply Hn. set_solver.
  - injection E as -> E. apply NoDup_cons in Hnd as [Hn _]. exfalso. apply Hn. set_solver.
  - injection E as -> E. f_equal. apply IH; [|done]. by apply NoDup_cons in Hnd as [_ ?].
Qed.

(** The visit of one process by the search of [do_xit]. *)
Definition unlink_visit (rc rp : Z) : SM (option unit) :=
  r ← row rp;
  match p_callerq r with
  | None => mret None
  | Some np =>
      if np =? rc then
        c ← row rc;
        setrow rp (λ r, r <| p_callerq := p_sendlink c |>);;
        mret (Some tt)
      else loop proc_fuel (unlink_step rc) np;; mret None
  end.

Lemma unlink_visit_other s rc rp L :
  callers_of (procs (kern s)) rp L → rc ∉ L → wp (unlink_visit rc rp) (λ r s', r = None ∧ s' = s) s.
Proof.
  intros HL Hn. pose proof (callers_length _ _ _ HL) as Hlen. destruct HL as [HL _].
  unfold unlink_visit. s_step. s_step. rewrite (chain_head _ _ _ HL). destruct L as [|x R]; cbn [head]; [by s_step|].
  destruct (Z.eqb_spec x rc) as [->|Hx]; [set_solver|]. s_step.
  eapply wp_mono; [apply (unlink_loop s rc _ [] x R (p_callerq (procs (kern s) rp))); [done| |done]|].
  { cbn in Hlen. unfold proc_fuel. lia. }
  cbn beta. intros _ s' [[_ ->]|(A & y & B & E & _)]; [by s_step|]. cbn [app] in E. rewrite E in Hn. set_solver.
Qed.

Lemma unlink_visit_head s rc rp B :
  callers_of (procs (kern s)) rp (rc :: B) →
  wp (unlink_visit rc rp) (λ r s', r = Some tt ∧
    s' = s <| kern := set_proc rp ((procs (kern s) rp) <| p_callerq := p_sendlink (procs (kern s) rc) |>) (kern s) |>) s.
Proof.
  intros [HL _]. unfold unlink_visit. s_step. s_step. rewrite (chain_head _ _ _ HL). cbn [head]. rewrite Z.eqb_refl.
  by repeat s_step.
Qed.

Lemma unlink_visit_mid s rc rp A y B :
  callers_of (procs (kern s)) rp (A ++ y :: rc :: B) →
  wp (unlink_visit rc rp) (λ r s', r = None ∧ s' = unl y rc s) s.
Proof.
  intros HL. pose proof (callers_length _ _ _ HL) as Hlen. pose proof (callers_NoDup _ _ _ HL) as Hnd. destruct HL as [HL _].
  unfold unlink_visit. s_step. s_step. rewrite (chain_head _ _ _ HL). destruct (A ++ y :: rc :: B) as [|x R] eqn:E; [by destruct A|].
  cbn [head]. assert (Hx : x ≠ rc).
  { destruct A as [|a A]; cbn in E; injection E as -> <-; intros ->; apply NoDup_cons in Hnd as [Hn _]; apply Hn; set_solver. }
  rewrite (proj2 (Z.eqb_neq _ _) Hx). s_step.
  eapply wp_mono; [apply (unlink_loop s rc _ [] x R (p_callerq (procs (kern s) rp))); [done| |done]|].
  { cbn in Hlen. unfold proc_fuel. lia. }
  cbn beta. intros _ s' [[Hn _]|(A' & y' & B' & E' & ->)].
  { exfalso. destruct A as [|a A]; cbn in E; injection E as -> <-; apply Hn; set_solver. }
  s_step. split; [done|]. f_equal. cbn [app] in E'. rewrite <- E in Hnd, E'.
  change (A ++ y :: rc :: B) with (A ++ [y] ++ rc :: B) in *. change (A' ++ y' :: rc :: B') with (A' ++ [y'] ++ rc :: B') in E'.
  rewrite !app_assoc in *. by apply split_unique, app_inj_tail in E' as [_ ->].
Qed.

Lemma for_each_step {R} x (l : list Z) (f : Z → SM (option R)) :
  for_each (x :: l) f = (r ← f x; match r with Some r => mret (Some r) | None => for_each l f end).
Proof. done. Qed.

Lemma for_each_skip {R} (l l' : list Z) (f : Z → SM (option R)) s :
  (∀ x, x ∈ l → wp (f x) (λ r s', r = None ∧ s' = s) s) → for_each (l ++ l') f s = for_each l' f s.
Proof.
  induction l as [|x l IH]; intros Hf; [done|].
  destruct (wp_inv _ _ _ (Hf x ltac:(left))) as (r & s' & E & -> & ->). cbn [app]. rewrite for_each_step, (bind_eq _ _ _ _ _ E).
  apply IH. intros y Hy. apply Hf. by right.
Qed.

(** The predecessor of [rc] on the queue [A ++ rc :: B] of [d] gets its link. *)
Definition unlinked_from (d rc : Z) (A : list Z) (k : kernel) : kernel :=
  match last A with
  | None => set_proc d ((procs k d) <| p_callerq := p_sendlink (procs k rc) |>) k
  | Some y => set_proc y ((procs k y) <| p_sendlink := p_sendlink (procs k rc) |>) k
  end.

Lemma unlink_sender_run s rc d :
  ipc_ok (procs (kern s)) → isokprocn rc = true → sendnext (procs (kern s)) rc = Some d →
  wp (unlink_sender rc) (λ _ s', ∃ A B, callers_of (procs (kern s)) d (A ++ rc :: B) ∧
    s' = s <| kern := unlinked_from d rc A (kern s) |>) s.
Proof.
  intros Hi Hok Hsn. destruct (ipc_dest _ Hi rc d Hok Hsn) as [Hd _].
  destruct (ipc_callers _ Hi d Hd) as [L HL].
  assert (Hin : rc ∈ L) by (by apply HL). apply list_elem_of_split in Hin as (A & B & ->).
  assert (Hother : ∀ rp, isokprocn rp = true → rp ≠ d → ∃ L, callers_of (procs (kern s)) rp L ∧ rc ∉ L).
  { intros rp Hrp Hne. destruct (ipc_callers _ Hi rp Hrp) as [L HL']. exists L. split; [done|].
    intros Hin. apply HL' in Hin as [_ ?]. congruence. }
  assert (Hsl : ∃ l1 l2, all_slots = l1 ++ d :: l2).
  { apply list_elem_of_split, elem_of_seqZ. unfold isokprocn, NR_TASKS, NR_PROCS in *. lia. }
  destruct Hsl as (l1 & l2 & Esl). assert (Hnd : NoDup all_slots) by apply NoDup_seqZ.
  assert (Hslot : ∀ x, x ∈ l1 ++ l2 → isokprocn x = true ∧ x ≠ d).
  { intros x Hx. rewrite Esl in Hnd. split.
    - assert (x ∈ all_slots) as Hxs by (rewrite Esl; set_solver). apply elem_of_seqZ in Hxs. unfold isokprocn, NR_TASKS, NR_PROCS in *. lia.
    - intros ->. apply NoDup_app in Hnd as (_ & Hd1 & [Hd2 _]%NoDup_cons). apply elem_of_app in Hx as [Hx|Hx]; [|done].
      apply (Hd1 d Hx). left. }
  unfold unlink_sender. fold (unlink_visit rc). rewrite Esl. s_step. eapply wp_same; [apply for_each_skip|].
  { intros x Hx. destruct (Hslot x) as [Hxo Hxd]; [set_solver|]. destruct (Hother x Hxo Hxd) as (L & HL' & Hn). by eapply unlink_visit_other. }
  rewrite for_each_step. s_step.
  destruct (last A) as [y|] eqn:El.
  - apply last_Some in El as [A' EA]. pose proof HL as HL2. rewrite EA, <- app_assoc in HL2. cbn [app] in HL2.
    eapply wp_mono; [by apply (unlink_visit_mid s rc d A' y B)|]. cbn beta. intros r s' [-> ->].
    rewrite <- (app_nil_r l2). eapply wp_same; [apply for_each_skip|].
    2:{ repeat s_step. exists A, B. split; [done|]. unfold unlinked_from. by rewrite EA, last_snoc. }
    + intros x Hx. destruct (Hslot x) as [Hxo Hxd]; [set_solver|]. destruct (Hother x Hxo Hxd) as (L & HL' & Hn).
      apply (unlink_visit_other _ rc x L); [|done]. destruct HL' as [Hch Hm].
      assert (Hyl : y ∉ L). { intros Hy. apply Hm in Hy as [_ Hy]. assert (y ∈ A' ++ y :: rc :: B) as Hyd by set_solver.
        apply HL2 in Hyd as [_ Hyd]. congruence. }
      split.
      * unfold unl, set_proc; cbn. replace (p_callerq _) with (p_callerq (procs (kern s) x)) by (fn_cases x y; done).
        eapply lseg_ext, Hch. intros k Hk. unfold sendlink. fn_cases k y; done.
      * intros p. rewrite Hm. unfold unl, set_proc, sendnext, sending; cbn. fn_cases p y; done.
  - apply last_None in El as ->. eapply wp_mono; [by apply (unlink_visit_head s rc d B)|].
    cbn beta. intros r s' [-> ->]. repeat s_step. by exists [], B.
Qed.
End unlink.

(** ** The end of a process *)
Section exit.
Implicit Types (k : kernel).

(** What [unlinked_from] leaves of each row. *)
Lemma unlinked_links d rc A k i : erase_links (procs (unlinked_from d rc A k) i) = erase_links (procs k i).
Proof. unfold unlinked_from. destruct (last A) as [y|]; cbn; [by fn_cases i y|by fn_cases i d]. Qed.

Lemma unlinked_vars d rc A k :
  rdy_head (unlinked_from d rc A k) = rdy_head k ∧ rdy_tail (unlinked_from d rc A k) = rdy_tail k ∧
  proc_ptr (unlinked_from d rc A k) = proc_ptr k ∧ sys_m (unlinked_from d rc A k) = sys_m k ∧
  held_head (unlinked_from d rc A k) = held_head k ∧ held_tail (unlinked_from d rc A k) = held_tail k ∧
  mess (unlinked_from d rc A k) = mess k ∧ sig_procs (unlinked_from d rc A k) = sig_procs k.
Proof. unfold unlinked_from. by destruct (last A). Qed.

Lemma erase_links_held r r' : erase_links r' = erase_links r →
  p_int_held r' = p_int_held r ∧ p_nextheld r' = p_nextheld r ∧ p_nextready r' = p_nextready r ∧ p_stguard r' = p_stguard r ∧
  p_shadow r' = p_shadow r ∧ p_flags r' = p_flags r ∧ p_sendto r' = p_sendto r ∧ p_getfrom r' = p_getfrom r ∧
  p_map_D r' = p_map_D r ∧ p_map_S r' = p_map_S r.
Proof. destruct r, r'. unfold erase_links. cbn. intros E. by injection E. Qed.

(** The queues of senders after the unlinking, whatever becomes of [p] itself. *)
Lemma kst_unlinked k p d A B r :
  kst [p] k → userp p → sendnext (procs k) p = Some d → callers_of (procs k) d (A ++ p :: B) →
  r = (procs (unlinked_from d p A k) p) <| p_pending := p_pending r |> <| p_pendcount := p_pendcount r |> <| p_flags := P_SLOT_FREE |> →
  kst [] (set_proc p r (unlinked_from d p A k)).
Proof.
  intros (Q & H & Ho & [Hu Hc] & Hi & Hs & Hh & Hd) Hp Hsn HL Er.
  set (k1 := unlinked_from d p A k) in *. pose proof (unlinked_links d p A k) as Hl. fold k1 in Hl.
  destruct (unlinked_vars d p A k) as (V1 & V2 & V3 & V4 & V5 & V6 & _). fold k1 in V1, V2, V3, V4, V5, V6.
  assert (Hf : ∀ i, _) by exact (λ i, erase_links_held _ _ (Hl i)). destruct (userp_facts p Hp) as (Hok & Ht & Hus & Hid).
  assert (Ho1 : offs [p] k1 Q).
  { apply (offs_ext k); try done. intros i. by destruct (Hf i) as (_ & _ & -> & _ & -> & -> & _). }
  assert (Hr1 : task_runs k1 Q).
  { apply (task_runs_frame k _ Q); [by split|done|done]. }
  assert (Hst1 : static_ok k1).
  { apply (static_ok_ext k); [done|done| |by destruct (Hf MM_PROC_NR) as (_ & _ & _ & _ & _ & -> & _)].
    intros i. by destruct (Hf i) as (_ & _ & _ & -> & -> & -> & _ & _ & -> & ->). }
  assert (Hh1 : held_ok k1 H).
  { apply (held_ok_frame k); [|done]. split; [|done]. intros i. by destruct (Hf i) as (-> & -> & _). }
  assert (Efl : p_flags r = P_SLOT_FREE) by by rewrite Er.
  exists Q, H. split_and!; [|by apply task_runs_set| |by apply static_ok_out| |done].
  - apply (offs_unblocked _ _ p); [apply offs_set; [done|left]|]. cbn. rewrite fn_lookup_insert. by rewrite Efl.
  - assert (Hlk : ∀ i, p_callerq ((<[p := r]> (procs k1)) i) = p_callerq (procs k1 i) ∧
                       p_sendlink ((<[p := r]> (procs k1)) i) = p_sendlink (procs k1 i)).
    { intros i. fn_cases i p; [|done]. by rewrite Er. }
    destruct (ipc_unblock (procs k) (procs (set_proc p r k1)) d A p B Hi HL) as (HH & _); [..|done].
    + intros i. unfold sendnext, sending; cbn. destruct (decide (i = p)) as [->|Hn].
      * rewrite fn_lookup_insert, relink_same. by rewrite Efl.
      * rewrite fn_lookup_insert_ne, relink_ne by done. by destruct (Hf i) as (_ & _ & _ & _ & _ & -> & -> & _).
    + intros i. cbn. destruct (Hlk i) as [-> _]. unfold k1, unlinked_from. destruct A as [|y A _] using rev_ind.
      * cbn [last app head]. unfold set_proc; cbn. destruct HL as [[_ Hch%chain_head] _]. unfold sendlink in Hch.
        fn_cases i d; [by rewrite decide_True|by rewrite decide_False].
      * rewrite last_snoc. unfold set_proc; cbn. case_decide as E; [|by fn_cases i y]. subst i.
        destruct HL as [Hch%chain_head _]. rewrite <- app_assoc in *. replace (head _) with (p_callerq (procs k d)) by (rewrite Hch; by destruct A).
        by fn_cases d y.
    + intros i. unfold sendlink. cbn. destruct (Hlk i) as [_ ->]. unfold k1, unlinked_from.
      destruct (last A) as [y|]; unfold set_proc; cbn; [|by fn_cases i d].
      fn_cases i y; [by rewrite relink_same|by rewrite relink_ne].
    + intros i Hti Hoi. cbn. fn_cases i p; [congruence|]. destruct (Hf i) as (_ & _ & _ & _ & _ & -> & _). by apply Hi.
    + intros i Hoi. cbn. fn_cases i p; [by rewrite Efl|]. destruct (Hf i) as (_ & _ & _ & _ & _ & -> & _). by apply Hi.
    + intros i Hoi. unfold sending; cbn. fn_cases i p; [by rewrite Efl|].
      destruct (Hf i) as (_ & _ & _ & _ & _ & -> & _ & -> & _). by apply Hi.
  - apply held_ok_out; [done|done|done|]. rewrite Er. cbn. destruct (Hf p) as (-> & _).
    apply (kst_not_held k [p]); [|done]. by exists Q, H.
Qed.
End exit.
