(* ===== verification/Ksafe.v ===== *)
(** * The requests of the system task are safe

    [good_request] is the situation in which a server makes a request;
    [sys_requests_safe] shows that the request is then carried out without a
    fault and that the kernel's invariant holds afterwards. *)

From S2P Require Import Prelude Chain Sigset Proc Sched Ipc Receive Kernel Boot Userq Alloc Ksys Ksysp.

#[local] Arguments lseg : simpl never.

(** The name of a process ends inside its array. *)
Definition name_ok (l : list Z) : Prop := ∃ l', length l' = 15%nat ∧ l = l' ++ [0].
(** The kernel and the names while a task runs. *)
Definition sysok (s : sysst) : Prop := kst [] (kern s) ∧ ∀ p, name_ok (p_name (pinfo_of s p)).

(** The panics of the system task. *)
Definition sys_panics (w : string) : Prop :=
  w ∈ ["bad call to sys_newmap"; "do_getmap got bad proc: "; "bad call to sys_getmap"; "";
       "do_sendsig can't signal: bad sigmsg address from MM"; "do_oldsig can't signal; SP bad"; "bad call to SYS_GBOOT";
       "no shadow?"; "rmshadow: cannot handle physio shadows"]%string.

(** A process that is blocked, but not in sending. *)
Definition waits (r : proc) : Prop := p_flags r ≠ 0 ∧ sending r = false.

(** The situation in which a request with message [m] is made: who forks or
    executes waits for MM, the slot of a child is free, an alarm or a trace
    concerns a user process, and the process numbers of a copy are valid. *)
Definition good_request (s : sysst) (m : message) : Prop :=
  let r p := procs (kern s) p in
  let t := m_type m in
  isokprocn (m_source m) = true ∧
  (t = SYS_FORK → isoksusern (m1_i1 m) = true → isoksusern (m1_i2 m) = true →
     userp (m1_i1 m) ∧ userp (m1_i2 m) ∧ m1_i1 m ≠ m1_i2 m ∧ waits (r (m1_i1 m)) ∧
     has (p_flags (r (m1_i1 m))) RECEIVING = true ∧ p_callerq (r (m1_i1 m)) = None ∧ waits (r (m1_i2 m)) ∧ p_callerq (r (m1_i2 m)) = None) ∧
  (t = SYS_NEWMAP → isokprocn (m1_i1 m) = true → userp (m1_i1 m)) ∧
  (t = SYS_FRESH → isokprocn (m1_i1 m) = true → userp (m1_i1 m) ∧ waits (r (m1_i1 m))) ∧
  (t = SYS_EXEC → isoksusern (m1_i1 m) = true → userp (m1_i1 m) ∧ waits (r (m1_i1 m)) ∧
     has (p_flags (r (m1_i1 m))) RECEIVING = true ∧ p_getfrom (r MM_PROC_NR) ≠ ANY) ∧
  (t = SYS_XIT → isoksusern (m1_i2 m) = true → userp (m1_i2 m)) ∧
  (t = SYS_ENDSIG → isokusern (m1_i1 m) = true → u16 (p_pendcount (r (m1_i1 m)) - 1) = 0 →
     p_pendcount (r (m1_i1 m)) ≠ 0 →
     has (p_flags (r (m1_i1 m))) SIG_PENDING = true ∧ has (p_flags (r (m1_i1 m))) PENDING = false) ∧
  (t = SYS_COPY → isokprocn (m5_i1 m) = true ∧ isokprocn (m5_i2 m) = true) ∧
  (t = SYS_VCOPY → isokprocn (m1_i1 m) = true ∧ isokprocn (m1_i2 m) = true ∧ 0 ≤ m1_i3 m) ∧
  (t = SYS_GBOOT → isokprocn (m1_i1 m) = true) ∧
  (t = SYS_UMAP → isokprocn (m5_i1 m) = true) ∧
  (t = SYS_TRACE → userp (m2_i1 m) ∧
     (m2_i2 m = T_RESUME ∨ m2_i2 m = T_STEP → has (p_flags (r (m2_i1 m))) P_SLOT_FREE = false →
      has (p_flags (r (m2_i1 m))) P_STOP = true)).

Ltac sys_panic := unfold sys_panics; set_solver.

Section handlers.
Implicit Types (s : sysst).

Notation safe m s := (wpx sys_panics m (λ _ s', sysok s') s).

Lemma isoksusern_ok p : isoksusern p = true → isokprocn p = true.
Proof. unfold isoksusern, isokprocn, NR_PROCS, NR_TASKS. lia. Qed.
Lemma isokusern_user p : isokusern p = true → userp p.
Proof. unfold isokusern, userp, NR_PROCS, LOW_USER. lia. Qed.

(** *** Changes outside the process table *)
Lemma sysok_kern s k : sysok s → procs k = procs (kern s) → rdy_head k = rdy_head (kern s) → rdy_tail k = rdy_tail (kern s) →
  proc_ptr k = proc_ptr (kern s) → sys_m k = sys_m (kern s) → held_head k = held_head (kern s) →
  held_tail k = held_tail (kern s) → sysok (s <| kern := k |>).
Proof. intros [Hk Hn] ???????. split; [|done]. by apply (kst_vars (kern s)). Qed.

Lemma sysok_info s p g : sysok s → (name_ok (p_name (pinfo_of s p)) → name_ok (p_name (g (pinfo_of s p)))) →
  sysok (s <| pinfo_of := <[p := g (pinfo_of s p)]> (pinfo_of s) |>).
Proof. intros [Hk Hn] Hg. split; [done|]. intros x. cbn. fn_cases x p; [by apply Hg, Hn|apply Hn]. Qed.

Lemma sysok_row s p r : sysok s → kst [] (set_proc p r (kern s)) → sysok (s <| kern := set_proc p r (kern s) |>).
Proof. by intros [_ Hn] Hk. Qed.

Lemma proc_addr_run (E : string → Prop) p (Q : Z → sysst → Prop) s :
  isokprocn p = true → Q p s → wpx E (lift (proc_addr p)) Q s.
Proof. intros Hok HQ. apply wpx_lift. rewrite (proc_addr_ok _ Hok). apply wpx_ret. by destruct s. Qed.

Lemma umap_run E p seg vir n (Q : Z → sysst → Prop) s :
  isokprocn p = true → Q (umap (procs (kern s) p) seg vir n) s → wpx E (umap_at p seg vir n) Q s.
Proof. intros Hok HQ. unfold umap_at. s_step. apply proc_addr_run; [done|]. by repeat s_step. Qed.

Lemma set_m_ok s g : sysok s → sysok (s <| kern := (kern s) <| mess := <[sys_m (kern s) := g (mess (kern s) (sys_m (kern s)))]> (mess (kern s)) |> |>).
Proof. intros H. by apply sysok_kern. Qed.

Lemma copy_out_run E l a (Q : unit → sysst → Prop) s : (∀ s', sysok s' → Q tt s') → sysok s → wpx E (copy_out l a) Q s.
Proof. intros HQ H. unfold copy_out. apply wpx_lift, wpx_modify. by apply HQ, sysok_kern. Qed.
Lemma phys_copy_run E a b n (Q : unit → sysst → Prop) s : (∀ s', sysok s' → procs (kern s') = procs (kern s) → Q tt s') → sysok s → wpx E (phys_copy a b n) Q s.
Proof. intros HQ H. unfold phys_copy. apply wpx_lift, wpx_modify. apply HQ; [by apply sysok_kern|done]. Qed.

(** *** Copies *)
Lemma do_copy_safe s : sysok s → isokprocn (m5_i1 (mess (kern s) (sys_m (kern s)))) = true →
  isokprocn (m5_i2 (mess (kern s) (sys_m (kern s)))) = true → safe do_copy s.
Proof.
  intros H H1 H2. unfold do_copy. s_step. s_step. s_step. apply umap_run; [done|]. s_step. apply umap_run; [done|].
  destruct (_ || _); s_step; [done|]. apply phys_copy_run; [|done]. intros s' H' _. by s_step.
Qed.

Lemma vcopy_size n : 0 ≤ n → n ≤ CPVEC_NR → (CPVEC_NR * CPVEC_SIZE <? u16 (n * CPVEC_SIZE)) = false.
Proof. unfold CPVEC_NR, CPVEC_SIZE. intros. rewrite u16_id; lia. Qed.

Lemma do_vcopy_safe s : sysok s → (let m := mess (kern s) (sys_m (kern s)) in
  isokprocn (m_source m) = true ∧ isokprocn (m1_i1 m) = true ∧ isokprocn (m1_i2 m) = true ∧ 0 ≤ m1_i3 m) → safe do_vcopy s.
Proof.
  cbv zeta. intros H (H0 & H1 & H2 & H3). unfold do_vcopy. s_step. s_step. set (m := mess _ _) in *.
  destruct (Z.ltb_spec CPVEC_NR (m1_i3 m)) as [|Hle]; [by s_step|]. s_step. apply umap_run; [done|].
  destruct (_ =? 0); [by s_step|]. rewrite vcopy_size by done. s_step. unfold copy_in. s_step. s_step.
  apply (wpx_for_each _ sysok); [|done|intros ??; by s_step].
  intros i s' _ Hs'. unfold vcopy_step. s_step. apply umap_run; [done|]. s_step. apply umap_run; [done|].
  destruct (_ || _); s_step; [by s_step|]. apply phys_copy_run; [|done]. intros s2 H' _. by s_step.
Qed.

(** *** Maps, times and memory *)
Lemma kst_maps k l p mt md ms : kst l k → userp p →
  kst l (set_proc p ((procs k p) <| p_map_T := mt |> <| p_map_D := md |> <| p_map_S := ms |>) k).
Proof. intros Hk Hp. apply kst_links; [done|done| |by right]. split; try done. by apply (kst_pending k l). Qed.

Lemma do_newmap_run s (l : list Z) : kst l (kern s) → (∀ p, name_ok (p_name (pinfo_of s p))) →
  isokprocn (m_source (mess (kern s) (sys_m (kern s)))) = true →
  (isokprocn (m1_i1 (mess (kern s) (sys_m (kern s)))) = true → userp (m1_i1 (mess (kern s) (sys_m (kern s))))) →
  wpx sys_panics do_newmap (λ _ s', kst l (kern s') ∧ (∀ p, name_ok (p_name (pinfo_of s' p))) ∧
    (∀ i, p_flags (procs (kern s') i) = p_flags (procs (kern s) i)) ∧ sys_m (kern s') = sys_m (kern s)) s.
Proof.
  intros Hk Hn H0 H1. unfold do_newmap. s_step. s_step. set (m := mess _ _) in *.
  destruct (isokprocn (m1_i1 m)) eqn:E; cbn [negb]; [|by s_step]. s_step. apply proc_addr_run; [done|].
  s_step. apply umap_run; [done|]. destruct (_ =? 0); [apply wpx_panic; sys_panic|].
  s_step. unfold copy_in. s_step. s_step. s_step. s_step. split_and!; [by apply kst_maps; [|apply H1]|done| |done].
  intros i. cbn. by fn_cases i (m1_i1 m).
Qed.

Lemma do_newmap_safe s : sysok s → isokprocn (m_source (mess (kern s) (sys_m (kern s)))) = true →
  (isokprocn (m1_i1 (mess (kern s) (sys_m (kern s)))) = true → userp (m1_i1 (mess (kern s) (sys_m (kern s))))) → safe do_newmap s.
Proof. intros [Hk Hn] H0 H1. eapply wpx_mono; [by apply (do_newmap_run s [])|]. by intros _ s' (? & ? & _). Qed.

Lemma do_getmap_safe s : sysok s → isokprocn (m_source (mess (kern s) (sys_m (kern s)))) = true → safe do_getmap s.
Proof.
  intros H H0. unfold do_getmap. s_step. s_step. set (m := mess _ _) in *.
  destruct (isokprocn (m1_i1 m)) eqn:E; cbn [negb]; [|apply wpx_panic; sys_panic]. s_step. apply proc_addr_run; [done|].
  s_step. apply umap_run; [done|]. destruct (_ =? 0); [apply wpx_panic; sys_panic|].
  s_step. s_step. s_step. apply copy_out_run; [|done]. intros s' H'. by s_step.
Qed.

Lemma do_gboot_safe s : sysok s → isokprocn (m1_i1 (mess (kern s) (sys_m (kern s)))) = true → safe do_gboot s.
Proof.
  intros H H0. unfold do_gboot. s_step. s_step. s_step. apply umap_run; [done|]. destruct (_ =? 0); [apply wpx_panic; sys_panic|].
  s_step. s_step. s_step. apply copy_out_run; [|done]. intros s' H'. by s_step.
Qed.

Lemma do_umap_safe s : sysok s → isokprocn (m5_i1 (mess (kern s) (sys_m (kern s)))) = true → safe do_umap s.
Proof.
  intros H H0. unfold do_umap. s_step. s_step. s_step. apply umap_run; [done|]. s_step. s_step. s_step. by apply set_m_ok.
Qed.

Lemma do_mem_safe s : sysok s → safe do_mem s.
Proof.
  intros H. unfold do_mem. s_step. s_step. s_step. s_step. destruct (Alloc.do_mem _) as [[base size] mem'].
  s_step. s_step. s_step. s_step. s_step. destruct H as [Hk Hn]. split; [|done]. by apply (kst_vars (kern s)).
Qed.

Lemma do_getsp_safe s : sysok s → safe do_getsp s.
Proof.
  intros H. unfold do_getsp. s_step. s_step. destruct (isoksusern _) eqn:E; cbn [negb]; [|by s_step].
  s_step. apply proc_addr_run; [by apply isoksusern_ok|]. repeat s_step. by apply set_m_ok.
Qed.

Lemma do_times_safe s : sysok s → safe do_times s.
Proof.
  intros H. unfold do_times. s_step. s_step. destruct (isoksusern _) eqn:E; cbn [negb]; [|by s_step].
  s_step. apply proc_addr_run; [by apply isoksusern_ok|]. s_step. s_step. s_step. unfold get_uptime. repeat s_step. by apply set_m_ok.
Qed.

(** *** Signals *)
Lemma do_sendsig_safe s : sysok s → safe do_sendsig s.
Proof.
  intros H. unfold do_sendsig. s_step. s_step. destruct (isokusern _) eqn:E; cbn [negb]; [|by s_step].
  s_step. apply proc_addr_run; [by apply userp_facts, isokusern_user|]. s_step. apply umap_run; [done|].
  destruct (_ =? 0); [apply wpx_panic; sys_panic|]. s_step. unfold copy_in. s_step. cbv zeta. s_step. s_step. s_step. s_step.
  destruct (_ =? 0); s_step; [done|]. apply copy_out_run; [|done]. intros s2 H2. s_step. s_step.
  assert (H3 : sysok s2) by done. s_step. s_step. destruct (_ =? 0); s_step; [by apply sysok_info|].
  apply copy_out_run; [|by apply sysok_info]. intros s4 H4. repeat s_step. apply sysok_info; [|done]. by apply sysok_info.
Qed.

Lemma do_sigreturn_safe s : sysok s → safe do_sigreturn s.
Proof.
  intros H. unfold do_sigreturn. s_step. s_step. destruct (isokusern _) eqn:E; cbn [negb]; [|by s_step].
  s_step. apply proc_addr_run; [by apply userp_facts, isokusern_user|]. s_step. s_step. destruct (_ =? 0); [by s_step|].
  s_step. unfold copy_in. s_step. cbv zeta. destruct (_ =? 0); [by s_step|]. destruct (negb _); repeat s_step; repeat (apply sysok_info; [|done]); done.
Qed.

Lemma do_oldsig_safe s : sysok s → safe do_oldsig s.
Proof.
  intros H. unfold do_oldsig. s_step. s_step. destruct (isokusern _) eqn:E; cbn [negb]; [|by s_step].
  s_step. apply proc_addr_run; [by apply userp_facts, isokusern_user|]. s_step. s_step. cbv zeta. s_step. s_step.
  destruct (_ =? 0); [apply wpx_panic; sys_panic|]. s_step. apply copy_out_run; [|done]. intros s2 H2. repeat s_step.
  repeat (apply sysok_info; [|done]); done.
Qed.

(** *** Processes *)
Lemma release_run s p f (Q : unit → sysst → Prop) :
  wp (setp p (λ r, r <| p_flags := clrf (p_flags r) f |>);; g ← fld p_flags p; when (g =? 0) (lock_ready p))
     (λ _ k, Q tt (s <| kern := k |>)) (kern s) → wp (release p f) Q s.
Proof.
  unfold release. intros Hw. do 4 s_step.
  set (k := (kern s) <| procs := _ |>). change (kern (s <| kern := k |>)) with k.
  change (wp (when (p_flags (procs k p) =? 0) (lock_ready p)) (λ _ k, Q tt (s <| kern := k |>)) k) in Hw.
  destruct (_ =? 0); [|exact Hw]. apply wp_lift. eapply wp_mono; [exact Hw|]. by intros [] k'.
Qed.

Lemma release_safe s p f : sysok s → userp p → has (p_flags (procs (kern s) p)) f = true → Z.land f SENDING = 0 →
  (f = SIG_PENDING → has (p_flags (procs (kern s) p)) PENDING = false) → f = RECEIVING ∨ f = SIG_PENDING ∨ f = P_STOP →
  wp (release p f) (λ _ s', sysok s' ∧ mess (kern s') = mess (kern s) ∧ sys_m (kern s') = sys_m (kern s)) s.
Proof.
  intros [Hk Hn] Hp Hf Hs Hpend Hc. apply release_run. eapply wp_mono; [by apply (kst_release (kern s) p f)|].
  cbn beta. intros _ k' (Hk' & _ & _ & Eo). apply others_fields in Eo as (_ & _ & _ & _ & Em & Esm). done.
Qed.

Lemma do_fork_safe s : sysok s → good_request s (mess (kern s) (sys_m (kern s))) →
  m_type (mess (kern s) (sys_m (kern s))) = SYS_FORK → safe do_fork s.
Proof.
  intros [Hk Hn] (_ & Hg & _) Ht. specialize (Hg Ht). unfold do_fork. s_step. s_step. set (m := mess _ _) in *.
  destruct (isoksusern (m1_i1 m)) eqn:E1; cbn [negb orb]; [|by s_step].
  destruct (isoksusern (m1_i2 m)) eqn:E2; cbn [negb]; [|by s_step].
  destruct (Hg eq_refl eq_refl) as (Hp & Hc & Hne & [Hpf Hps] & Hrec & Hpq & [Hcf Hcs] & Hcq). clear Hg.
  set (p := m1_i1 m) in *. set (c := m1_i2 m) in *. destruct (userp_facts c Hc) as (Hcok & _). destruct (userp_facts p Hp) as (Hpok & _).
  s_step. apply proc_addr_run; [done|]. s_step. apply proc_addr_run; [done|]. do 6 s_step. set (s1 := s <| kern := _ |>).
  assert (Hk1 : kst [c] (kern s1)).
  { apply (kst_set (kern s)); [by apply kst_blocked|left|done|done|]. split; [done|by rewrite Hpq|by apply (kst_not_held (kern s) [])|].
    by apply (kst_pending (kern s) []). }
  assert (E1p : procs (kern s1) c = procs (kern s) p) by (unfold s1; cbn; by rewrite fn_lookup_insert).
  do 4 s_step. set (s2 := _ <| kern := _ |>). set (f := clrf (p_flags (procs (kern s) p)) (Z.lor PENDING (Z.lor SIG_PENDING P_STOP))).
  assert (Hf : has f RECEIVING = true) by (unfold f; by rewrite has_clrf_other).
  assert (E2p : p_flags (procs (kern s2) c) = f) by (unfold s2; cbn; rewrite !fn_lookup_insert; done).
  assert (Hsf : has f SENDING = false) by (unfold f; rewrite has_clrf_other by done; done).
  assert (Hk2 : kst [c] (kern s2)).
  { apply (kst_set (kern s1)); [done|left|done|by rewrite E1p|]. rewrite E1p.
    change (procs (kern (s1 <| pinfo_of := _ |>)) c) with (procs (kern s1) c). rewrite E1p. split; [exact Hsf|done|by apply (kst_not_held (kern s) [])|].
    cbn. unfold f. intros Hpd. exfalso. cbn in Hpd. assert (Z.land f PENDING = 0) as E.
    { unfold f, clrf. rewrite <- Z.land_assoc. replace (Z.land (Z.lnot _) PENDING) with 0 by reflexivity. apply Z.land_0_r. }
    unfold has in Hpd. unfold f in E. by rewrite E in Hpd. }
  do 5 s_step. set (s3 := _ <| kern := _ |>).
  assert (E3 : procs (kern s3) c = (procs (kern s2) c) <| p_nflips := 0 |>) by (unfold s3; cbn; by rewrite fn_lookup_insert).
  assert (Hk3 : kst [c] (kern s3)).
  { apply (kst_links (kern s2)); [done|done| |right; done]. split; try done. by apply (kst_pending (kern s2) [c]). }
  apply wpx_lift. unfold mkshadow. do 4 s_step. fold (set_proc p ((procs (kern s3) p) <| p_shadow := u16 (m1_p1 m) |>) (kern s3)).
  set (k4 := set_proc p _ _). do 4 s_step.
  assert (Epk : p_flags (procs (kern s3) p) = p_flags (procs (kern s) p)).
  { unfold s3, s2, s1; cbn. by rewrite !fn_lookup_insert_ne by done. }
  assert (Hk4 : kst [p; c] k4).
  { apply kst_shadow; [|left|done]. apply kst_blocked; [done|done|congruence]. }
  assert (Ek4 : procs k4 p = (procs (kern s3) p) <| p_shadow := u16 (m1_p1 m) |>) by apply fn_lookup_insert.
  apply kst_unblocked in Hk4; [|rewrite Ek4; by rewrite <- Epk in Hpf].
  apply kst_unblocked in Hk4.
  2:{ replace (procs k4 c) with (procs (kern s3) c) by (symmetry; by apply fn_lookup_insert_ne).
      rewrite E3. apply (has_nonzero _ RECEIVING). cbn [p_flags upd upd_p_nflips]. by rewrite E2p. }
  split; [by apply (kst_vars k4)|]. intros x. unfold s3, s2, s1. cbn. fn_cases x c; [|done]. cbn. apply Hn.
Qed.

(** *** The end of an execve *)
Lemma end_name_ok (l : list Z) : ∃ l', length l' = length l ∧ end_name (l ++ [0]) = Some (l' ++ [0]).
Proof.
  induction l as [|c l (l' & El & IH)]; [by exists []|]. cbn. destruct (32 <=? u8 c).
  - rewrite IH. exists (c :: l'). cbn. by rewrite El.
  - by exists (0 :: l).
Qed.

Lemma copied_name (l old : list Z) : length l = 15%nat → name_ok old →
  ∃ l', end_name (l ++ drop (Z.to_nat NLEN) old) = Some l' ∧ name_ok l'.
Proof.
  intros Hl (old' & Ho & ->). change (Z.to_nat NLEN) with 15%nat. rewrite <- Ho, drop_app_length.
  destruct (end_name_ok l) as (l' & El & E). exists (l' ++ [0]). split; [done|]. exists l'. split; [by rewrite El|done].
Qed.

(** A signal for a process that waits for MM while MM waits for the task: it is
    only noted. *)
Lemma cause_sig_quiet k p sig : kst [] k → userp p → waits (procs k p) → p_getfrom (procs k MM_PROC_NR) ≠ ANY →
  wp (cause_sig p sig) (λ _ k', kst [] k' ∧ mess k' = mess k ∧ sys_m k' = sys_m k ∧ waits (procs k' p) ∧
    has (p_flags (procs k' p)) RECEIVING = has (p_flags (procs k p)) RECEIVING) k.
Proof.
  intros Hk Hp [Hf Hs] Hmm. destruct (userp_facts p Hp) as (Hok & _). unfold cause_sig. rewrite (proc_addr_ok _ Hok). do 4 k_step.
  destruct (negb _); [by k_step|]. do 2 k_step. set (r1 := upd p_pendcount _ _). fold (set_proc p r1 k). set (k1 := set_proc p r1 k).
  assert (E1 : procs k1 p = r1) by apply fn_lookup_insert.
  assert (Hk1 : kst [] k1).
  { apply kst_links; [done|done| |by right]. split; try done. by apply (kst_pending k []). }
  do 2 k_step. rewrite E1. destruct (has (p_flags r1) PENDING) eqn:Epd; [k_step; rewrite E1; done|].
  k_step. unfold when at 1. change (p_flags r1) with (p_flags (procs k p)). rewrite (proj2 (Z.eqb_neq _ _) Hf). k_step.
  do 2 k_step. rewrite E1. set (r2 := upd p_flags _ r1). fold (set_proc p r2 k1). set (k2 := set_proc p r2 k1).
  assert (E2 : procs k2 p = r2) by apply fn_lookup_insert.
  assert (Hs2 : has (p_flags r2) SENDING = false) by (unfold r2; cbn; rewrite has_setf_other by done; exact Hs).
  assert (Hk2 : kst [] k2).
  { assert (Hsp : has (p_flags r2) SIG_PENDING = true).
    { unfold r2; cbn. unfold has, setf. rewrite Z.land_lor_distr_l. apply negb_true_iff, Z.eqb_neq. intros [_ ?]%Z.lor_eq_0_iff. done. }
    apply (kst_unblocked _ p []); [|rewrite E2; by apply (has_nonzero _ SIG_PENDING)].
    apply kst_links; [by apply kst_blocked; [done|done|rewrite E1]|done| |left; left]. rewrite E1.
    split; try done; unfold r2; cbn; by rewrite has_setf_other. }
  do 2 k_step. change (proc_addr MM_PROC_NR) with (mret MM_PROC_NR : KM Z). do 4 k_step.
  set (k3 := k2 <| sig_procs := _ |>). change (procs k3) with (procs k2).
  assert (Eg : (p_getfrom (procs k2 MM_PROC_NR) =? ANY) = false).
  { apply Z.eqb_neq. unfold k2, k1, set_proc. cbn. unfold userp, LOW_USER, MM_PROC_NR in *. by rewrite !fn_lookup_insert_ne by lia. }
  rewrite Eg, orb_true_r. k_step. change (procs k3) with (procs k2). rewrite E2. split_and!; try done.
  - by apply (kst_vars k2).
  - split; [|exact Hs2]. apply setf_nonzero. done.
  - unfold r2; cbn. by rewrite has_setf_other.
Qed.

Lemma do_exec_safe s : sysok s → good_request s (mess (kern s) (sys_m (kern s))) →
  m_type (mess (kern s) (sys_m (kern s))) = SYS_EXEC → safe do_exec s.
Proof.
  intros [Hk Hn] Hg Ht. destruct Hg as (Hsrc & _ & _ & _ & Hg & _). specialize (Hg Ht). unfold do_exec. s_step. s_step. set (m := mess _ _) in *.
  destruct (isoksusern (m1_i1 m)) eqn:E1; cbn [negb]; [|by s_step].
  destruct (Hg eq_refl) as (Hp & Hw & Hrec & Hmm). clear Hg. set (p := m1_i1 m) in *. destruct (userp_facts p Hp) as (Hok & _).
  s_step. eapply (wpx_mono _ _ (λ _ s', sysok s' ∧ mess (kern s') (sys_m (kern s')) = m ∧ waits (procs (kern s') p) ∧
     has (p_flags (procs (kern s') p)) RECEIVING = true)).
  { destruct (negb (m1_i2 m =? 0)); cbn [when]; [|by apply wpx_ret]. apply wp_wpx, wp_lift.
    eapply wp_mono; [by apply cause_sig_quiet|]. cbn beta. intros _ k' (Hk' & Em & Esm & Hw' & Hr').
    split_and!; [done| |done|exact (eq_trans Hr' Hrec)]. cbn. by rewrite Em, Esm. }
  cbn beta. intros _ s1 (Hs1 & Em1 & Hw1 & Hr1). s_step. s_step. rewrite Em1. cbv zeta. fold p.
  s_step. apply proc_addr_run; [done|]. do 8 s_step. set (s2 := s1 <| pinfo_of := _ |> <| pinfo_of := _ |> <| pinfo_of := _ |> <| pinfo_of := _ |>).
  assert (Hs2 : sysok s2) by (repeat (apply sysok_info; [|done]); done).
  s_step. apply wp_wpx. eapply wp_mono; [by apply release_safe; [..|by left]|]. cbn beta. intros _ s3 (Hs3 & Em3 & Esm3).
  s_step. apply umap_run; [done|]. s_step. destruct (negb _); cbn [when]; [|repeat s_step; done].
  s_step. unfold copy_in. s_step. s_step. s_step.
  destruct (copied_name (map (mem_byte (clicks (kern s3))) (seqZ (umap (procs (kern s3) (m_source m)) D_SEG (m1_p2 m) NLEN) NLEN))
    (p_name (pinfo_of s3 p))) as (l' & E' & Hl'); [by rewrite length_map, length_seqZ|apply Hs3|].
  rewrite E'. cbn [deref]. repeat s_step. by apply sysok_info.
Qed.

(** *** Exit and fresh images *)
Lemma do_fresh_safe s : sysok s → good_request s (mess (kern s) (sys_m (kern s))) →
  m_type (mess (kern s) (sys_m (kern s))) = SYS_FRESH → safe do_fresh s.
Proof.
  intros [Hk Hn] Hg Ht. destruct Hg as (Hsrc & _ & _ & Hg & _). specialize (Hg Ht). unfold do_fresh. s_step. s_step. set (m := mess _ _) in *.
  destruct (isokprocn (m1_i1 m)) eqn:E1; cbn [negb]; [|by s_step]. destruct (Hg eq_refl) as (Hp & Hf & Hs). clear Hg.
  set (p := m1_i1 m) in *. s_step. apply proc_addr_run; [done|]. s_step. apply wpx_lift.
  eapply wpx_mono; [apply (wpx_weaken _ shadow_panics); [|apply (kst_rmshadow (kern s) p); [by apply kst_blocked|done]]|].
  { intros w [->| ->]; sys_panic. }
  cbn beta. intros [base size] k1 (Hk1 & Hsh & Ep & Em & Esm & _). s_step.
  set (s1 := s <| kern := k1 |>). assert (Em1 : mess (kern s1) (sys_m (kern s1)) = m) by (cbn; by rewrite Em, Esm).
  eapply wpx_mono; [apply (do_newmap_run s1 [p]); [done|done|by rewrite Em1|by rewrite Em1]|].
  cbn beta. intros r s2 (Hk2 & Hn2 & Hf2 & _). do 4 s_step. cbv zeta. s_step. unfold zeroclicks. apply wpx_lift. s_step.
  do 3 s_step. split; [|done]. apply (kst_vars (kern s2)); try done. eapply kst_unblocked; [exact Hk2|]. rewrite Hf2.
  destruct (erase_sh_fields _ _ (Hsh p)) as (E & _). change (kern s1) with k1. by rewrite E.
Qed.

Lemma noname_ok l : name_ok l → name_ok (noname ++ drop 9 l).
Proof.
  intros (l' & Hl & ->). exists (noname ++ drop 9 l'). split; [rewrite length_app, length_drop, Hl; done|].
  rewrite drop_app_le by lia. by rewrite app_assoc.
Qed.

(** The last step: the entry becomes free. *)
Definition freed (r : proc) : proc :=
  r <| p_pending := (sigemptyset (p_pending r)).2 |> <| p_pendcount := 0 |> <| p_flags := P_SLOT_FREE |>.
Definition xit_tail (rc : Z) : SM Z :=
  r ← row rc;
  when (has (p_flags r) SENDING) (unlink_sender rc);;
  r ← row rc;
  when (has (p_flags r) PENDING) (lift (modify (λ k, k <| sig_procs := sig_procs k - 1 |>)));;
  setrow rc freed;;
  mret OK.

Lemma xit_free k p k' : kst [p] k → userp p → has (p_flags (procs k p)) SENDING = false → k' = k ∨ k' = k <| sig_procs := sig_procs k - 1 |> →
  kst [] (set_proc p (freed (procs k' p)) k').
Proof.
  intros Hk Hp Hs Hk'. assert (Hk2 : kst [p] k') by (destruct Hk' as [->| ->]; [done|by apply (kst_vars k)]).
  assert (Epr : procs k' = procs k) by (destruct Hk' as [->| ->]; done).
  apply (kst_unblocked _ p); [|cbn; by rewrite fn_lookup_insert].
  apply kst_set; [done|left|done|unfold sending; by rewrite Epr|]. split; [done|done| |done].
  by apply (kst_not_held k' [p]).
Qed.

Lemma xit_tail_safe s p : kst [p] (kern s) → (∀ p, name_ok (p_name (pinfo_of s p))) → userp p → safe (xit_tail p) s.
Proof.
  intros Hk Hn Hp. destruct (userp_facts p Hp) as (Hok & _). unfold xit_tail. s_step. s_step. s_step.
  destruct (has (p_flags (procs (kern s) p)) SENDING) eqn:Es; cbn [when].
  - pose proof Hk as (_ & _ & _ & _ & Hi & _).
    apply wp_wpx. eapply wp_mono; [apply (unlink_sender_run s p (p_sendto (procs (kern s) p))); [done|done|]|].
    { unfold sendnext, sending. by rewrite Es. }
    cbn beta. intros _ s1 (A & B & HL & ->). set (k1 := unlinked_from _ p A (kern s)) in *. s_step. s_step.
    assert (Hk2 : kst [] (set_proc p (freed (procs k1 p)) k1)).
    { eapply kst_unlinked; [exact Hk|done|unfold sendnext, sending; by rewrite Es|exact HL|done]. }
    destruct (has _ PENDING); cbn [when]; s_step; [apply wpx_lift, wpx_modify|apply wpx_ret]; do 3 s_step; (split; [|done]); by apply (kst_vars (set_proc p (freed (procs k1 p)) k1)).
  - apply wpx_ret. s_step. s_step. 
    destruct (has _ PENDING); cbn [when]; s_step; [apply wpx_lift, wpx_modify|apply wpx_ret]; do 3 s_step; (split; [|done]); apply (xit_free (kern s)); auto.
Qed.

Lemma do_xit_safe s : sysok s → good_request s (mess (kern s) (sys_m (kern s))) →
  m_type (mess (kern s) (sys_m (kern s))) = SYS_XIT → safe do_xit s.
Proof.
  intros [Hk Hn] Hg Ht. destruct Hg as (_ & _ & _ & _ & _ & Hg & _). specialize (Hg Ht). unfold do_xit. s_step. s_step. set (m := mess _ _) in *.
  cbv zeta. destruct (isoksusern (m1_i1 m)) eqn:E1; cbn [negb orb]; [|by s_step].
  destruct (isoksusern (m1_i2 m)) eqn:E2; cbn [negb]; [|by s_step]. specialize (Hg eq_refl).
  set (p := m1_i1 m) in *. set (c := m1_i2 m) in *. destruct (userp_facts c Hg) as (Hcok & _).
  s_step. apply proc_addr_run; [by apply isoksusern_ok|]. s_step. apply proc_addr_run; [done|]. do 10 s_step.
  set (s1 := s <| pinfo_of := _ |> <| pinfo_of := _ |> <| pinfo_of := _ |>).
  assert (Hs1 : sysok s1) by (repeat (apply sysok_info; [|done]); done). clearbody s1. destruct Hs1 as [Hk1 Hn1].
  s_step. s_step. s_step. eapply (wpx_mono _ _ (λ _ s2, kst [c] (kern s2) ∧ ∀ p, name_ok (p_name (pinfo_of s2 p)))).
  { apply wp_wpx. pose proof (kst_unready (kern s1) c [] Hk1 Hg (not_elem_of_nil _)) as Hu.
    destruct (p_flags (procs (kern s1) c) =? 0); cbn [when] in *; [|by destruct Hu].
    apply wp_lift. eapply wp_mono; [exact Hu|]. cbn beta. by intros [] k2 (Hk2 & _). }
  cbn beta. intros _ s2 [Hk2 Hn2]. s_step. apply wpx_lift.
  eapply wpx_mono; [apply (wpx_weaken _ shadow_panics); [|by apply (kst_rmshadow (kern s2) c)]|].
  { intros w [->| ->]; sys_panic. }
  cbn beta. intros [base size] k3 (Hk3 & _). do 4 s_step. apply (xit_tail_safe _ c); [by apply (kst_vars k3)| |done].
  intros x. cbn. fn_cases x c; [|apply Hn2]. apply noname_ok, Hn2.
Qed.

(** *** Signals of tasks, and tracing *)
Lemma do_endsig_safe s : sysok s → good_request s (mess (kern s) (sys_m (kern s))) →
  m_type (mess (kern s) (sys_m (kern s))) = SYS_ENDSIG → safe do_endsig s.
Proof.
  intros [Hk Hn] Hg Ht. destruct Hg as (_ & _ & _ & _ & _ & _ & Hg & _). specialize (Hg Ht). unfold do_endsig. s_step. s_step. set (m := mess _ _) in *.
  destruct (isokusern (m1_i1 m)) eqn:E1; cbn [negb]; [|by s_step]. specialize (Hg eq_refl).
  set (p := m1_i1 m) in *. pose proof (isokusern_user p E1) as Hp. destruct (userp_facts p Hp) as (Hok & _).
  s_step. apply proc_addr_run; [done|]. s_step. s_step. s_step.
  eapply (wpx_mono _ _ (λ _ s', sysok s')); [|by intros _ s' Hs'; s_step].
  destruct (Z.eqb_spec (p_pendcount (procs (kern s) p)) 0) as [|Hne]; cbn [negb when]; [by apply wpx_ret|].
  s_step. s_step. set (r1 := upd p_pendcount _ _). fold (set_proc p r1 (kern s)). set (s1 := s <| kern := _ |>).
  assert (E2 : procs (kern s1) p = r1) by apply fn_lookup_insert.
  assert (Hk1 : kst [] (kern s1)).
  { apply kst_links; [done|done| |by right]. split; try done. by apply (kst_pending (kern s) []). }
  s_step. s_step. rewrite E2. change (p_pendcount r1) with (u16 (p_pendcount (procs (kern s) p) - 1)).
  destruct (Z.eqb_spec (u16 (p_pendcount (procs (kern s) p) - 1)) 0) as [E0|]; cbn [when]; [|by apply wpx_ret].
  destruct (Hg E0 Hne) as [Hsp Hpd]. apply wp_wpx. eapply wp_mono.
  { apply (release_safe s1 p SIG_PENDING); [done|done|by rewrite E2|done|by rewrite E2|by right; left]. }
  by intros _ s' (? & _).
Qed.

Lemma get_data_safe s p seg : sysok s → safe (get_data p seg) s.
Proof.
  intros H. unfold get_data. s_step. s_step. s_step. s_step. cbv zeta. destruct (_ =? 0); [by s_step|].
  s_step. unfold copy_in. s_step. repeat s_step. by apply set_m_ok.
Qed.
Lemma set_data_safe s p seg : sysok s → safe (set_data p seg) s.
Proof.
  intros H. unfold set_data. s_step. s_step. s_step. s_step. cbv zeta. destruct (_ =? 0); [by s_step|].
  s_step. apply copy_out_run; [|done]. intros s' H'. repeat s_step. by apply set_m_ok.
Qed.

(** T_STOP *)
Lemma stop_safe s p : sysok s → userp p →
  safe (when (p_flags (procs (kern s) p) =? 0) (lift (lock_unready p));;
        setrow p (λ r, r <| p_flags := setf (p_flags r) P_STOP |>);;
        set_frame p (λ f, f <| psw := clrf (psw f) TRACEBIT |>);; mret OK) s.
Proof.
  intros [Hk Hn] Hp. s_step. eapply (wpx_mono _ _ (λ _ s2, kst [p] (kern s2) ∧ ∀ p, name_ok (p_name (pinfo_of s2 p)))).
  { apply wp_wpx. pose proof (kst_unready (kern s) p [] Hk Hp (not_elem_of_nil _)) as Hu.
    destruct (p_flags (procs (kern s) p) =? 0); cbn [when] in *; [|by destruct Hu].
    apply wp_lift. eapply wp_mono; [exact Hu|]. cbn beta. by intros [] k2 (Hk2 & _). }
  cbn beta. intros _ s2 [Hk2 Hn2]. do 5 s_step. apply (sysok_info (s2 <| kern := set_proc p _ (kern s2) |>)); [|done].
  split; [|done]. apply (kst_unblocked _ p []); [|cbn; rewrite fn_lookup_insert; by apply setf_nonzero].
  apply kst_links; [done|done| |left; left]. split; try done; cbn; rewrite ?has_setf_other by done; try done.
  by apply (kst_pending (kern s2) [p]).
Qed.

(** T_RESUME and T_STEP *)
Lemma resume_safe s p g : sysok s → userp p → has (p_flags (procs (kern s) p)) P_STOP = true →
  safe (release p P_STOP;; set_m g;; mret OK) s.
Proof.
  intros H Hp Hf. s_step. apply wp_wpx. eapply wp_mono; [by apply release_safe; [..|by right; right]|].
  cbn beta. intros _ s' (H' & _). do 3 s_step. by apply set_m_ok.
Qed.

Lemma do_trace_safe pb s : sysok s → good_request s (mess (kern s) (sys_m (kern s))) →
  m_type (mess (kern s) (sys_m (kern s))) = SYS_TRACE → safe (do_trace pb) s.
Proof.
  intros H Hg Ht. destruct Hg as (_ & _ & _ & _ & _ & _ & _ & _ & _ & _ & _ & Hg). destruct (Hg Ht) as [Hp Hstop]. clear Hg.
  unfold do_trace. s_step. s_step. set (m := mess _ _) in *. set (p := m2_i1 m) in *.
  destruct (userp_facts p Hp) as (Hok & _). s_step. apply proc_addr_run; [done|]. s_step. s_step. cbv zeta.
  destruct (has (p_flags (procs (kern s) p)) P_SLOT_FREE) eqn:Ef; [by s_step|]. specialize (λ h, Hstop h eq_refl) as Hst.
  destruct (m2_i2 m =? T_STOP); [by apply stop_safe|]. destruct (m2_i2 m =? T_GETINS); [by apply get_data_safe|].
  destruct (m2_i2 m =? T_GETDATA); [by apply get_data_safe|]. destruct (m2_i2 m =? T_GETUSER).
  { s_step. s_step. destruct (_ || _); [by s_step|]. do 3 s_step. by apply set_m_ok. }
  destruct (m2_i2 m =? T_SETINS); [by apply set_data_safe|]. destruct (m2_i2 m =? T_SETDATA); [by apply set_data_safe|].
  destruct (m2_i2 m =? T_SETUSER).
  { destruct (_ || _); [by s_step|]. do 5 s_step. apply (set_m_ok (s <| pinfo_of := _ |>)). by apply sysok_info. }
  destruct (Z.eqb_spec (m2_i2 m) T_RESUME) as [E|]; [by apply resume_safe; [..|apply Hst; left]|].
  destruct (Z.eqb_spec (m2_i2 m) T_STEP) as [E|]; [|by s_step].
  s_step. s_step. apply resume_safe; [by apply sysok_info|done|by apply Hst; right].
Qed.
End handlers.

(** ** Every request *)

(** The invariant between the requests. *)
Definition sysinv (s : sysst) : Prop := kinv (kern s) ∧ ∀ p, name_ok (p_name (pinfo_of s p)).

(** C4: a request of a server to the system task, made in a situation in which
    the servers make it, is carried out without a fault and without looping;
    afterwards the ready queues, the caller queues of the senders and the
    held interrupts are consistent again.  It panics only for the reasons the
    code gives. *)
Theorem sys_requests_safe (proc_bytes : proc → pinfo → list Z) (s : sysst) (Hs : sysinv s)
    (Hrun : isuserp (proc_ptr (kern s)) = false) (Hg : good_request s (mess (kern s) (sys_m (kern s)))) :
  match sys_call_table proc_bytes (m_type (mess (kern s) (sys_m (kern s)))) s with
  | Ret _ s' => sysinv s'
  | Panic why _ => sys_panics why
  | Fault => False
  | NoFuel => False
  end.
Proof.
  destruct Hs as [Hk Hn]. assert (H : sysok s) by (split; [by apply kst_kinv|done]).
  change (wpx sys_panics (sys_call_table proc_bytes (m_type (mess (kern s) (sys_m (kern s))))) (λ _ s', sysinv s') s).
  assert (Hw : ∀ m : SM Z, wpx sys_panics m (λ _ s', sysok s') s → wpx sys_panics m (λ _ s', sysinv s') s).
  { intros m Hm. eapply wpx_mono; [exact Hm|]. cbn beta. intros _ s' [Hk' Hn']. split; [by apply kst_kinv|done]. }
  pose proof Hg as (Hsrc & _ & Hmap & _ & _ & _ & _ & Hcp & Hvc & Hgb & Hum & _).
  unfold sys_call_table. set (t := m_type _) in *.
  destruct (Z.eqb_spec t SYS_FORK); [by apply Hw, do_fork_safe|].
  destruct (Z.eqb_spec t SYS_NEWMAP); [apply Hw, do_newmap_safe; auto|].
  destruct (Z.eqb_spec t SYS_GETMAP); [by apply Hw, do_getmap_safe|].
  destruct (Z.eqb_spec t SYS_EXEC); [by apply Hw, do_exec_safe|].
  destruct (Z.eqb_spec t SYS_XIT); [by apply Hw, do_xit_safe|].
  destruct (Z.eqb_spec t SYS_GETSP); [by apply Hw, do_getsp_safe|].
  destruct (Z.eqb_spec t SYS_TIMES); [by apply Hw, do_times_safe|].
  destruct (Z.eqb_spec t SYS_ABORT); [unfold do_abort; s_step; s_step; apply wpx_panic; sys_panic|].
  destruct (Z.eqb_spec t SYS_FRESH); [by apply Hw, do_fresh_safe|].
  destruct (Z.eqb_spec t SYS_SENDSIG); [by apply Hw, do_sendsig_safe|].
  destruct (Z.eqb_spec t SYS_SIGRETURN); [by apply Hw, do_sigreturn_safe|].
  destruct (Z.eqb_spec t SYS_OLDSIG); [by apply Hw, do_oldsig_safe|].
  destruct (Z.eqb_spec t SYS_KILL).
  { unfold do_kill. s_step. s_step. destruct (isokusern _) eqn:E; cbn [negb]; [|by s_step]. s_step. apply wp_wpx, wp_lift.
    eapply wp_mono; [apply kinv_signal; [done|]|]. { unfold isokusern, LOW_USER in E. lia. }
    cbn beta. intros _ k (_ & Hk'). by apply wp_ret. }
  destruct (Z.eqb_spec t SYS_ENDSIG); [by apply Hw, do_endsig_safe|].
  destruct (Z.eqb_spec t SYS_COPY); [apply Hw; destruct Hcp; [done|]; by apply do_copy_safe|].
  destruct (Z.eqb_spec t SYS_VCOPY); [apply Hw; destruct Hvc as (?&?&?); [done|]; by apply do_vcopy_safe|].
  destruct (Z.eqb_spec t SYS_GBOOT); [apply Hw, do_gboot_safe; auto|].
  destruct (Z.eqb_spec t SYS_MEM); [by apply Hw, do_mem_safe|].
  destruct (Z.eqb_spec t SYS_UMAP); [apply Hw, do_umap_safe; auto|].
  destruct (Z.eqb_spec t SYS_TRACE); [by apply Hw, do_trace_safe|].
  by apply Hw; s_step.
Qed.

(** The variables of the tasks at start-up around a kernel [k]: all zero. *)
Definition zero_info : pinfo := Pinfo (Frame (λ _, 0) 0 0) 0 0 0 0 0 0 0 (replicate 16 0).
Definition sys_of (k : kernel) : sysst :=
  Sysst k (λ _, zero_info) [] 0 [] 0 0 0 (λ _, No_dog) 0 true (λ _, false) 0 1 None 0 0.
Lemma zero_name_ok : name_ok (replicate 16 0).
Proof. by exists (replicate 15 0). Qed.

(** A parent 0 waits and its child 3 is released, in the kernel [k]. *)
Definition xit_state (k : kernel) : sysst := sys_of (k <| mess := λ _, Message 0 SYS_XIT 0 3 0 0 0 0 0 |>).
Lemma xit_state_ok k : kinv k → isuserp (proc_ptr k) = false →
  sysinv (xit_state k) ∧ isuserp (proc_ptr (kern (xit_state k))) = false ∧
  good_request (xit_state k) (mess (kern (xit_state k)) (sys_m (kern (xit_state k)))).
Proof.
  intros Hk Hu. assert (H : kst [] k) by by apply kst_kinv. split_and!; [|done|].
  - split; [|intros p; exact zero_name_ok]. apply (kst_kinv (k <| mess := _ |>)). by apply (kst_vars k).
  - unfold good_request. split; [reflexivity|]. cbn. split_and!; intros; try done.
Qed.
#[local] Opaque boot_state.
Lemma sys_requests_safe_witness :
  match sys_call_table (λ _ _, []) SYS_XIT (xit_state (boot_state sizes0 m0)) with
  | Ret _ s' => sysinv s'
  | Panic why _ => sys_panics why
  | Fault => False
  | NoFuel => False
  end.
Proof.
  destruct (xit_state_ok _ boot0_inv boot0_system) as (H1 & H2 & H3).
  exact (sys_requests_safe (λ _ _, []) _ H1 H2 H3).
Defined.
