(* ===== verification/Clock.v ===== *)
(** * The clock task

    kernel/clock.c: the alarms, the time of day, the quantum of the scheduler,
    the clock interrupt and the task that delivers synchronous alarms.  The
    watchdog functions of the drivers, [tty_wakeup], [kb_timer] and [fd_timer]
    are device code and parameters here. *)

From S2P Require Import Prelude Sigset Proc Alloc Ksys.

(** ** Constants *)
Definition HZ : Z := 60.
Definition SCHED_RATE : Z := 6.
Definition LONG_MAX : Z := 2 ^ 31 - 1.
Definition CLOCK_INT : Z := 2.
Definition SYN_ALRM_TASK : Z := -8.
Definition SET_ALARM : Z := 1.
Definition GET_TIME : Z := 3.
Definition SET_TIME : Z := 4.
Definition GET_UPTIME : Z := 5.
Definition SET_SYNC_AL : Z := 6.
Definition SIGALRM : Z := 14.

Section clock.
Context (mc al_mess syn_mess : Z) (driver_dog : Z → SM unit).

(** The message [mc] of the task. *)
Definition the_mc : SM message := gets (λ s, mess (kern s) mc).
Definition set_mc (g : message → message) : SM unit :=
  lift (modify (λ k, k <| mess := <[mc := g (mess k mc)]> (mess k) |>)).

(** ** Alarms *)

(** [send(SYN_ALRM_TASK, &mess)] if the task sleeps; [mess] is at [al_mess]. *)
Definition cause_alarm : SM unit :=
  p ← gets watchdog_proc;
  modify (λ s, s <| syn_table := <[p := true]> (syn_table s) |>);;
  alive ← gets syn_al_alive;
  when (negb alive) (lift (sys_call SEND SYN_ALRM_TASK al_mess);; mret tt).

Definition call_dog (w : watchdog) : SM unit :=
  match w with
  | No_dog => mret tt
  | Cause_alarm => cause_alarm
  | Driver_dog f => driver_dog f
  end.

(** [if (rp->p_alarm != 0 && rp->p_alarm < next_alarm) next_alarm = rp->p_alarm;] *)
Definition earlier (rp : Z) : SM unit :=
  i ← info rp;
  n ← gets next_alarm;
  when (negb (p_alarm i =? 0) && (p_alarm i <? n)) (modify (λ s, s <| next_alarm := p_alarm i |>)).

(** The body of the loop of [do_clocktick]. *)
Definition alarm_step (_ : unit) (rp : Z) : SM unit :=
  i ← info rp;
  when (negb (p_alarm i =? 0))
    (now ← gets realtime;
     when (p_alarm i <=? now)
       (w ← gets (λ s, watch_dog s rp);
        match w with
        | No_dog => lift (cause_sig rp SIGALRM)
        | _ => modify (λ s, s <| watchdog_proc := rp |>);; call_dog w
        end;;
        set_info rp (λ i, i <| p_alarm := 0 |>));;
     earlier rp).

Definition do_clocktick : SM unit :=
  n ← gets next_alarm;
  now ← gets realtime;
  when (n <=? now)
    (modify (λ s, s <| next_alarm := LONG_MAX |>);;
     fold_m alarm_step tt all_slots);;
  modify (λ s, s <| sched_ticks := s16 (sched_ticks s - 1) |>);;
  t ← gets sched_ticks;
  when (t =? 0)
    (b ← gets (λ s, bill_ptr (kern s));
     p ← gets prev_ptr;
     when (ptr_eq (Some b) p) (lift lock_sched);;
     modify (λ s, s <| sched_ticks := SCHED_RATE |> <| prev_ptr := Some (bill_ptr (kern s)) |>));;
  h ← gets (λ s, rdy_head (kern s) SHADOW_Q);
  match h with
  | Some p => lift (unshadow p)
  | None => mret tt
  end.

(** ** Requests *)
Definition do_getuptime : SM unit := t ← gets realtime; set_mc (λ m, m <| m2_l1 := t |>).

Definition do_get_time : SM unit :=
  b ← gets boot_time;
  t ← gets realtime;
  set_mc (λ m, m <| m2_l1 := s32 (b + t ÷ HZ) |>).

Definition do_set_time : SM unit :=
  m ← the_mc;
  modify (λ s, s <| boot_time := s32 (m6_l1 m - realtime s ÷ HZ) |>).

Definition common_setalarm (proc_nr delta_ticks : Z) (function : watchdog) : SM unit :=
  rp ← lift (proc_addr proc_nr);
  now ← gets realtime;
  set_info rp (λ i, i <| p_alarm := if delta_ticks =? 0 then 0 else s32 (now + delta_ticks) |>);;
  modify (λ s, s <| watch_dog := <[rp := function]> (watch_dog s) |> <| next_alarm := LONG_MAX |>);;
  fold_m (λ _ rp, earlier rp) tt all_slots.

Definition do_setalarm : SM unit :=
  m ← the_mc;
  rp ← lift (proc_addr (m6_i1 m));
  i ← info rp;
  now ← gets realtime;
  set_mc (λ m, m <| m2_l1 := if p_alarm i =? 0 then 0 else s32 (p_alarm i - now) ÷ HZ |>);;
  let function := if negb (istaskp rp) || (m6_f1 m =? 0) then No_dog else Driver_dog (m6_f1 m) in
  common_setalarm (m6_i1 m) (m6_l1 m) function.

Definition do_setsyn_alrm : SM unit :=
  m ← the_mc;
  rp ← lift (proc_addr (m6_i1 m));
  i ← info rp;
  now ← gets realtime;
  set_mc (λ m, m <| m2_l1 := if p_alarm i =? 0 then 0 else s32 (p_alarm i - now + HZ - 1) ÷ HZ |>);;
  common_setalarm (m6_i1 m) (m6_l1 m) Cause_alarm.

(** One round of the main loop, from the reception of [mc] to the reply. *)
Definition clock_task : SM unit :=
  m ← the_mc;
  let opcode := m_type m in
  modify (λ s, s <| realtime := s32 (realtime s + pending_ticks s) |> <| pending_ticks := 0 |>);;
  (if opcode =? HARD_INT then do_clocktick
   else if opcode =? GET_UPTIME then do_getuptime
   else if opcode =? GET_TIME then do_get_time
   else if opcode =? SET_TIME then do_set_time
   else if opcode =? SET_ALARM then do_setalarm
   else if opcode =? SET_SYNC_AL then do_setsyn_alrm
   else panic "clock task got bad message" opcode);;
  set_mc (λ m, m <| m_type := OK |>);;
  m ← the_mc;
  when (negb (opcode =? HARD_INT)) (lift (sys_call SEND (m_source m) mc);; mret tt).

(** ** The synchronous alarm task

    It gives up the processor at each [send] and [receive]; a step runs to the
    next of these or to the next iteration of the loop. *)
Inductive syn_pc := Syn_scan (i : Z) (work_done : bool) | Syn_woken.

Definition syn_init : SM syn_pc :=
  modify (λ s, s <| syn_al_alive := true |> <| syn_table := λ _, false |>);; mret (Syn_scan 0 true).

Definition syn_alrm_step (pc : syn_pc) : SM syn_pc :=
  match pc with
  | Syn_scan i work_done =>
      if i <? NR_TASKS + NR_PROCS then
        b ← gets (λ s, syn_table s (i - NR_TASKS));
        if (b : bool) then
          modify (λ s, s <| syn_table := <[i - NR_TASKS := false]> (syn_table s) |>);;
          lift (modify (λ k, k <| mess := <[syn_mess := (mess k syn_mess) <| m_type := CLOCK_INT |>]> (mess k) |>));;
          lift (sys_call SEND (i - NR_TASKS) syn_mess);;
          mret (Syn_scan (i + 1) false)
        else mret (Syn_scan (i + 1) work_done)
      else if work_done then
        modify (λ s, s <| syn_al_alive := false |>);;
        lift (sys_call RECEIVE CLOCK syn_mess);;
        mret Syn_woken
      else mret (Syn_scan 0 true)
  | Syn_woken => modify (λ s, s <| syn_al_alive := true |>);; mret (Syn_scan 0 true)
  end.
End clock.

(** ** The clock interrupt *)
Section handler.
Context (tty_wakeup : Z → SM unit) (kb_timer fd_timer : SM unit).

Definition clock_handler : SM unit :=
  k ← gets (λ s, k_reenter (kern s));
  hw ← lift (proc_addr HARDWARE);
  cur ← gets (λ s, proc_ptr (kern s));
  idle ← lift (proc_addr IDLE);
  bill ← gets (λ s, bill_ptr (kern s));
  let rp := if negb (k =? 0) then hw else cur in
  ticks ← gets (λ s, u16 (lost_ticks s + 1));
  modify (λ s, s <| lost_ticks := 0 |>);;
  set_info rp (λ i, i <| user_time := s32 (user_time i + ticks) |>);;
  when (negb (rp =? bill) && negb (rp =? idle))
    (set_info bill (λ i, i <| sys_time := s32 (sys_time i + ticks) |>));;
  modify (λ s, s <| pending_ticks := s32 (pending_ticks s + ticks) |>);;
  now ← get_uptime;
  t ← gets tty_timeout;
  when (t <=? now) (tty_wakeup now);;
  kb_timer;;
  n ← gets sched_ticks;
  when (n =? 1) fd_timer;;
  s ← gets id;
  if (next_alarm s <=? now) ||
     (sched_ticks s =? 1) && ptr_eq (Some (bill_ptr (kern s))) (prev_ptr s) &&
     (negb (ptr_eq (rdy_head (kern s) USER_Q) None) || negb (ptr_eq (rdy_head (kern s) SHADOW_Q) None))
  then lift (interrupt CLOCK)
  else
    modify (λ s, s <| sched_ticks := s16 (sched_ticks s - 1) |>);;
    t ← gets sched_ticks;
    when (t =? 0) (modify (λ s, s <| sched_ticks := SCHED_RATE |> <| prev_ptr := Some (bill_ptr (kern s)) |>)).
End handler.
