(* ===== verification/Clockp.v ===== *)
(** * Properties of the clock task

    While the clock task runs the kernel keeps its invariant; the alarms that
    are due fire, in table order, and [next_alarm] is exact afterwards. *)

From S2P Require Import Prelude Chain Sigset Proc Sched Ipc Receive Kernel Boot Running Userq Alloc Ksys Ksysp Ksafe Clock.

#[local] Arguments lseg : simpl never.

(** The clock task runs, with the message buffer [b], and [w] waits for it. *)
Definition ckst (b : Z) (w : option Z) (k : kernel) : Prop := kinv k ∧ runs CLOCK b w k.

(** The alarms that are due at [now], and the earliest of the others. *)
Definition due (now a : Z) : bool := negb (a =? 0) && (a <=? now).
Definition left_alarm (now a : Z) : Z := if due now a then 0 else a.
Definition min_alarm (n a : Z) : Z := if negb (a =? 0) && (a <? n) then a else n.
Definition earliest (f : Z → Z) : Z := foldl (λ n p, min_alarm n (f p)) LONG_MAX all_slots.

(** The alarms of the processes of a list go off, one after the other: a process
    without a watchdog gets SIGALRM, the watchdog of a task is called, and a
    synchronous alarm is entered in the table [t] of the synchronous alarm task,
    which is woken with a message if it is [asleep]. *)
Inductive rings (dog : Z → KM unit) (b : Z) (wd : Z → watchdog) (asleep : bool) :
    list Z → kernel → (Z → bool) → kernel → (Z → bool) → Prop :=
| rings_nil k t : rings dog b wd asleep [] k t k t
| rings_signal p l k1 t1 k2 k3 t3 :
    wd p = No_dog → cause_sig p SIGALRM k1 = Ret tt k2 →
    rings dog b wd asleep l k2 t1 k3 t3 → rings dog b wd asleep (p :: l) k1 t1 k3 t3
| rings_watchdog p f l k1 t1 k2 k3 t3 :
    wd p = Driver_dog f → dog f k1 = Ret tt k2 →
    rings dog b wd asleep l k2 t1 k3 t3 → rings dog b wd asleep (p :: l) k1 t1 k3 t3
| rings_wake p l k1 t1 k2 k3 t3 :
    wd p = Cause_alarm → asleep = true → sys_call SEND SYN_ALRM_TASK b k1 = Ret OK k2 →
    delivered k1 k2 CLOCK b SYN_ALRM_TASK (p_messbuf (procs k1 SYN_ALRM_TASK)) →
    p_flags (procs k2 SYN_ALRM_TASK) = 0 →
    rings dog b wd asleep l k2 (<[p := true]> t1) k3 t3 → rings dog b wd asleep (p :: l) k1 t1 k3 t3
| rings_mark p l k1 t1 k3 t3 :
    wd p = Cause_alarm → asleep = false →
    rings dog b wd asleep l k1 (<[p := true]> t1) k3 t3 → rings dog b wd asleep (p :: l) k1 t1 k3 t3.

Definition clock_panics (w : string) : Prop := w = "only shadow(s)".

Section clockp.
Implicit Types (s : sysst) (k : kernel).

Lemma rings_app dog b wd asleep l1 l2 k1 t1 k2 t2 k3 t3 :
  rings dog b wd asleep l1 k1 t1 k2 t2 → rings dog b wd asleep l2 k2 t2 k3 t3 → rings dog b wd asleep (l1 ++ l2) k1 t1 k3 t3.
Proof.
  induction 1; intros Hr; cbn; [done|eapply rings_signal|eapply rings_watchdog|eapply rings_wake|eapply rings_mark]; eauto.
Qed.

Lemma task_user p : istaskp p = true → isuserp p = false.
Proof. unfold istaskp, isuserp, LOW_USER. lia. Qed.

(** *** The kernel under the clock task *)
Implicit Types (w : option Z).
Definition sleeper w : Prop := w = None ∨ w = Some SYN_ALRM_TASK.
Lemma ckst_kst b w k : ckst b w k → kst [] k.
Proof. intros [Hk (Ep & _)]. apply kst_kinv. split; [done|by rewrite Ep]. Qed.
Lemma ckst_signal b w k p : sleeper w → ckst b w k → 0 ≤ p < NR_PROCS → wp (cause_sig p SIGALRM) (λ _ k', ckst b w k') k.
Proof.
  intros Hw [Hk Hr] Hp. eapply wp_mono; [eapply wlp_wp; [by apply (kinv_signal k p SIGALRM)|]|].
  - apply (stays_cause_sig CLOCK b w eq_refl ltac:(done)); [|unfold istaskp; lia|done].
    intros x ->. by destruct Hw as [?|[= ->]].
  - cbn beta. by intros _ k' [[_ H1] H2].
Qed.
Lemma ckst_sched b w k : ckst b w k → wp lock_sched (λ _ k', ckst b w k') k.
Proof.
  intros [Hk Hr]. eapply wp_mono; [eapply wlp_wp; [by apply kinv_sched|by apply stays_lock_sched]|].
  cbn beta. by intros _ k' [H1 H2].
Qed.
Lemma ckst_interrupt b w k t : w ≠ Some t → device_task t → ckst b w k → wp (interrupt t) (λ _ k', ckst b w k') k.
Proof.
  intros Hw Ht [Hk Hr]. eapply wp_mono; [eapply wlp_wp; [by apply kinv_interrupt|by apply stays_interrupt]|].
  cbn beta. by intros _ k' [H1 H2].
Qed.

(** The message that wakes the synchronous alarm task. *)
Lemma ckst_wake b k : ckst b (Some SYN_ALRM_TASK) k →
  wp (sys_call SEND SYN_ALRM_TASK b) (λ r k', r = OK ∧ ckst b None k' ∧
    delivered k k' CLOCK b SYN_ALRM_TASK (p_messbuf (procs k SYN_ALRM_TASK)) ∧ p_flags (procs k' SYN_ALRM_TASK) = 0) k.
Proof.
  intros [Hk Hr]. pose proof Hr as (Ep & _ & Hm & Hwait).
  assert (Hne : proc_ptr k ≠ IDLE) by by rewrite Ep. assert (Hg : good_call k SEND SYN_ALRM_TASK) by (split; [by left|]; intros _; by rewrite Ep).
  eapply wp_mono; [eapply wlp_wp; [by apply (kinv_call k SEND SYN_ALRM_TASK b)|by apply (call_waiting CLOCK b SYN_ALRM_TASK)]|].
  cbn beta. intros r k' [[Hspec Hk'] Hr']. 
  assert (Hf : task_flags (p_flags (procs k SYN_ALRM_TASK))) by (destruct Hk as (Q & H & [_ _ Hi _] & _); by apply Hi).
  assert (Hs : send_spec k CLOCK SYN_ALRM_TASK b r k').
  { destruct Hspec as [Hsrc|_ Hp|r k' _ _ _ H|k' _ _ Hf' _|r _ Hf' _ _|s1 k' _ Hf' _ _]; try done; rewrite ?Ep in *; done. }
  clear Hspec. destruct Hs as [Hb|_ Hb|P _ _ HP Hin|P k' _ _ _ _ _ Hdel He|P L k' _ _ _ _ Hb _ _ _ _ _ _]; try congruence.
  - exfalso. apply orb_true_iff in Hb as [Hb|Hb]; [done|]. unfold task_flags, clrf in Hf. unfold has in Hb.
    apply negb_true_iff, Z.eqb_neq in Hb. apply Hb. apply (f_equal (λ x, Z.land x P_SLOT_FREE)) in Hf. by rewrite <- Z.land_assoc in Hf.
  - exfalso. apply waiting_facts in Hwait as (_ & Hs & _); [|destruct Hk as (Q & H & [_ _ _ ?] & _); done].
    assert (P = [SYN_ALRM_TASK]) as ->; [|by apply list_elem_of_singleton in Hin].
    destruct P as [|z P]; [by apply elem_of_nil in Hin|]. destruct HP as [[= <-] HP]. unfold sendnext at 2, sending in HP. rewrite Hs in HP.
    by apply chain_None in HP as ->.
  - split_and!; try done. destruct (peq_fields _ _ He SYN_ALRM_TASK) as (-> & _). rewrite fn_lookup_insert. cbn.
    unfold waiting_for in Hwait. apply andb_true_iff in Hwait as [Hwait _]. apply waiting_flags in Hwait as [_ Hs].
    apply task_flags_0; [by apply task_flags_clrf| |by apply has_clrf_same]. by rewrite has_clrf_other.
Qed.

Lemma shadow_head k p : kst [] k → rdy_head k SHADOW_Q = Some p → userp p ∧ p_flags (procs k p) = 0.
Proof.
  intros (Q & H & Ho & _) Eh. apply offs_nil in Ho as [HQ Hm]. destruct (HQ SHADOW_Q ltac:(done)) as [[Hch%chain_head _] HH].
  rewrite Eh in Hch. assert (Hin : p ∈ Q SHADOW_Q) by (destruct (Q SHADOW_Q); [done|]; injection Hch as ->; left).
  destruct (HH p Hin) as [Hok Eq]. assert (Hu : userp p).
  { unfold qof in Eq. destruct (istaskp p); [discriminate|]. destruct (isuserp p) eqn:Eu; [|discriminate].
    unfold isuserp in Eu. unfold isokprocn, NR_TASKS, NR_PROCS in Hok. unfold userp, NR_PROCS. lia. }
  split; [done|]. rewrite <- Eq in Hin. by apply (Hm p Hok) in Hin as [? _].
Qed.

Lemma kst_unshadow k p : kst [] k → rdy_head k SHADOW_Q = Some p →
  wpx clock_panics (unshadow p) (λ _ k', kst [] k' ∧ sheq (procs k) (procs k') ∧ proc_ptr k' = proc_ptr k) k.
Proof.
  intros Hk Eh. destruct (shadow_head k p Hk Eh) as [Hp Hpf]. unfold unshadow. s_step. s_step.
  destruct (negb _). { s_step. split_and!; [by apply (kst_vars k)|done|done]. }
  s_step. s_step. destruct (p_physio (procs k p)); [by s_step|]. s_step.
  apply (wpx_for_each _ (λ k', k' = k)); [|done|intros ? ->; by apply wpx_panic].
  intros q ? Hq ->. assert (Hqu : userp q) by (apply elem_of_seqZ in Hq; unfold userp, NR_PROCS, LOW_USER in *; lia).
  s_step. s_step. destruct (has _ _); [by s_step|]. destruct (Z.eqb_spec q p) as [|Hqp]; [by s_step|].
  destruct (negb _); [by s_step|]. destruct (p_shadow (procs k q) =? 0); [|by s_step].
  do 3 s_step. destruct (p_physio (procs k q)); [by s_step|]. unfold flipclicks. do 4 s_step.
  set (k1 := k <| clicks := _ |> <| flipwait := _ |>). assert (Hk1 : kst [] k1) by by apply (kst_vars k).
  s_step. apply wp_wpx. pose proof (kst_unready k1 p [] Hk1 Hp (not_elem_of_nil _)) as Hw.
  change (p_flags (procs k1 p)) with (p_flags (procs k p)) in Hw. rewrite Hpf in Hw. cbn [when Z.eqb] in Hw.
  eapply wp_mono; [exact Hw|]. cbn beta. intros [] k2 (Hk2 & [He2 _] & Ep2). do 3 s_step.
  assert (Hqn : q ∉ [p]) by (intros ?%list_elem_of_singleton; done).
  apply wp_wpx. eapply wp_mono; [by apply (kst_unready k2 q [p])|]. cbn beta. intros _ k3 (Hk3 & [He3 _] & Ep3).
  do 4 s_step. fold (set_proc q ((procs k3 q) <| p_shadow := p_shadow (procs k3 p) |>) k3). set (k4 := set_proc q _ k3).
  assert (Hk4 : kst [q; p] k4) by (apply kst_shadow; [done|left|done]).
  do 2 s_step. fold (set_proc p ((procs k4 p) <| p_shadow := 0 |>) k4). set (k5 := set_proc p _ k4).
  assert (Hk5 : kst [p; q] k5).
  { assert (Hkk : kst [q; p] k5) by (apply kst_shadow; [done|by right; left|done]).
    destruct Hkk as (Q & H & (HQ & Hm & Ho) & Hrest). exists Q, H. split; [|done]. split_and!; [done|intros x Hx Hn; apply Hm; set_solver|intros x q' Hx; apply Ho; set_solver]. }
  assert (H45 : sheq (procs k3) (procs k5)) by (apply (sheq_trans _ (procs k4)); apply sheq_set).
  assert (Hf5 : p_flags (procs k5 p) = 0).
  { destruct (erase_sh_fields _ _ (H45 p)) as (-> & _). destruct (peq_fields _ _ He3 p) as (-> & _).
    destruct (peq_fields _ _ He2 p) as (-> & _). done. }
  s_step. apply wp_wpx. assert (Hpn : p ∉ [q]) by (intros ?%list_elem_of_singleton; congruence).
  pose proof (kst_ready k5 p [q] Hk5 Hp Hpn) as Hw5. rewrite Hf5 in Hw5. cbn [when Z.eqb] in Hw5.
  eapply wp_mono; [exact Hw5|]. cbn beta. intros [] k6 (Hk6 & [He6 _] & Ep6). do 3 s_step.
  apply wp_wpx. eapply wp_mono; [by apply (kst_ready k6 q []); [| |apply not_elem_of_nil]|]. cbn beta. intros _ k7 (Hk7 & [He7 _] & Ep7).
  do 3 s_step. set (k8 := k7 <| procs := <[p := _]> _ |>).
  assert (Hk8 : kst [] k8) by (apply kst_links; [done|done|split; try done; by apply (kst_pending k7 [])|by right]).
  split_and!.
  - apply kst_links; [done|done|split; try done; by apply (kst_pending k8 [])|by right].
  - intros i. cbn. transitivity (erase_sh (procs k7 i)).
    { destruct (decide (i = q)) as [->|]; [rewrite fn_lookup_insert|rewrite fn_lookup_insert_ne by done; by fn_cases p i].
      rewrite fn_lookup_insert_ne by congruence. done. }
    rewrite (peq_sheq _ _ He7 i), (peq_sheq _ _ He6 i), (H45 i), (peq_sheq _ _ He3 i). exact (peq_sheq _ _ He2 i).
  - cbn. rewrite Ep7, Ep6. cbn. by rewrite Ep3, Ep2.
Qed.
End clockp.

(** ** Alarms *)
Definition alarm_of (s : sysst) (p : Z) : Z := p_alarm (pinfo_of s p).
(** No alarm goes off before [next_alarm]. *)
Definition alarms_ok (s : sysst) : Prop := ∀ p, p ∈ all_slots → alarm_of s p ≠ 0 → next_alarm s ≤ alarm_of s p.
(** The due alarms that are synchronous. *)
Definition is_syn (w : watchdog) : bool := match w with Cause_alarm => true | _ => false end.
Definition syn_due (s : sysst) (l : list Z) : list Z :=
  filter (λ p, due (realtime s) (alarm_of s p) && is_syn (watch_dog s p) = true) l.
(** The task that must wait for the clock task when the alarms of [l] go off. *)
Definition wanted (s : sysst) (l : list Z) : option Z :=
  if syn_al_alive s then None else match syn_due s l with [] => None | _ => Some SYN_ALRM_TASK end.
(** A due alarm without a watchdog is not that of a task. *)
Definition signals_ok (s : sysst) (l : list Z) : Prop :=
  ∀ p, p ∈ l → due (realtime s) (alarm_of s p) = true → watch_dog s p = No_dog → 0 ≤ p.
(** The watchdogs of the drivers act on the kernel, and leave the clock task
    running and the synchronous alarm task waiting. *)
Definition dogs_ok (b : Z) (dog : Z → KM unit) : Prop :=
  ∀ f w k, sleeper w → ckst b w k → wp (dog f) (λ _ k', ckst b w k') k.

Section alarms.
Context (al_mess : Z) (dog : Z → KM unit) (Hdog : dogs_ok al_mess dog).
Implicit Types (s : sysst) (k : kernel).

Lemma alarm_set s p a q : alarm_of (s <| pinfo_of := <[p := (pinfo_of s p) <| p_alarm := a |>]> (pinfo_of s) |>) q =
  if decide (q = p) then a else alarm_of s q.
Proof. unfold alarm_of; cbn. fn_cases q p; [by rewrite decide_True|by rewrite decide_False]. Qed.

Lemma min_fold_le (f : Z → Z) (l : list Z) n : foldl (λ n p, min_alarm n (f p)) n l ≤ n.
Proof.
  revert n. induction l as [|x l IH]; intros n; cbn; [lia|]. etrans; [apply IH|]. unfold min_alarm. zcmp.
Qed.
Lemma min_fold_lower (f : Z → Z) (l : list Z) n p : p ∈ l → f p ≠ 0 → foldl (λ n p, min_alarm n (f p)) n l ≤ f p.
Proof.
  revert n. induction l as [|x l IH]; intros n Hp Hf; [by apply elem_of_nil in Hp|]. cbn.
  apply elem_of_cons in Hp as [->|Hp]; [|by apply IH]. etrans; [apply min_fold_le|]. unfold min_alarm.
  destruct (Z.eqb_spec (f x) 0); [done|]. cbn [negb andb]. destruct (Z.ltb_spec (f x) n); lia.
Qed.
Lemma earliest_ok s : next_alarm s = earliest (alarm_of s) → alarms_ok s.
Proof. intros E p Hp Hf. rewrite E. by apply min_fold_lower. Qed.

Lemma filter_eq_in (f g : Z → bool) (l : list Z) : (∀ x, x ∈ l → f x = g x) →
  filter (λ x, f x = true) l = filter (λ x, g x = true) l.
Proof.
  induction l as [|x l IH]; intros Hfg; [done|]. rewrite !filter_cons, (Hfg x) by left.
  rewrite IH; [done|]. intros y Hy. apply Hfg. by right.
Qed.

Lemma slot_range p : p ∈ all_slots → -11 ≤ p < 64.
Proof. intros H%elem_of_seqZ. unfold NR_TASKS, NR_PROCS in H. lia. Qed.

(** The due alarm of [p]. *)
Lemma alarm_rings s p w : (wanted s [p] ≠ None → w = Some SYN_ALRM_TASK) → sleeper w → ckst al_mess w (kern s) → p ∈ all_slots →
  due (realtime s) (alarm_of s p) = true → signals_ok s [p] →
  wp (match watch_dog s p with
      | No_dog => lift (cause_sig p SIGALRM)
      | _ => modify (λ s, s <| watchdog_proc := p |>);; call_dog al_mess (λ f, lift (dog f)) (watch_dog s p)
      end) (λ _ s', ckst al_mess (if decide (wanted s [p] = None) then w else None) (kern s') ∧
    (∃ k' t' q, s' = s <| kern := k' |> <| syn_table := t' |> <| watchdog_proc := q |>) ∧
    rings dog al_mess (watch_dog s) (negb (syn_al_alive s)) [p] (kern s) (syn_table s) (kern s') (syn_table s')) s.
Proof.
  intros Hw Hsl Hc Hp Hd Hsig. pose proof (slot_range p Hp) as Hr.
  unfold wanted, syn_due in *. rewrite filter_cons, filter_nil, Hd in *. cbn [andb] in *.
  destruct (watch_dog s p) as [| |f] eqn:Ew; cbn [is_syn] in *.
  - apply wp_lift. rewrite (decide_True (P := _ = None)) by by destruct (syn_al_alive s).
    assert (Hp0 : 0 ≤ p) by (apply (Hsig p); [left|done..]).
    destruct (wp_inv _ _ _ (ckst_signal al_mess w (kern s) p Hsl Hc ltac:(unfold NR_PROCS; lia))) as ([] & k' & Ek & Hk').
    eapply wp_eq; [exact Ek|]. split_and!; [done| |by eapply rings_signal; [..|constructor]].
    exists k', (syn_table s), (watchdog_proc s). by destruct s.
  - s_step. s_step. unfold call_dog, cause_alarm. do 6 s_step. cbn [syn_al_alive upd upd_syn_table upd_watchdog_proc].
    destruct (syn_al_alive s) eqn:Ea; cbn [negb when] in *.
    + s_step. split_and!; [done| |by eapply rings_mark; [..|constructor]]. eexists (kern s), _, p. by destruct s.
    + rewrite (Hw ltac:(discriminate)) in Hc. s_step. apply wp_lift.
      destruct (wp_inv _ _ _ (ckst_wake al_mess (kern s) Hc)) as (r & k' & Ek & -> & Hk' & Hdel & Hf).
      eapply wp_eq; [exact Ek|]. s_step. split_and!; [done| |by eapply rings_wake; [..|constructor]]. eexists k', _, p. by destruct s.
  - s_step. s_step. unfold call_dog. apply wp_lift. rewrite (decide_True (P := _ = None)) by by destruct (syn_al_alive s).
    destruct (wp_inv _ _ _ (Hdog f w (kern s) Hsl Hc)) as ([] & k' & Ek & Hk').
    eapply wp_eq; [exact Ek|]. split_and!; [done| |by eapply rings_watchdog; [..|constructor]].
    exists k', (syn_table s), p. by destruct s.
Qed.

(** The body of the loop. *)
Lemma alarm_step_run s p w : (wanted s [p] ≠ None → w = Some SYN_ALRM_TASK) → sleeper w → ckst al_mess w (kern s) → p ∈ all_slots →
  signals_ok s [p] →
  wp (alarm_step al_mess (λ f, lift (dog f)) tt p) (λ _ s',
    ckst al_mess (if decide (wanted s [p] = None) then w else None) (kern s') ∧
    realtime s' = realtime s ∧ watch_dog s' = watch_dog s ∧ syn_al_alive s' = syn_al_alive s ∧
    (∀ q, alarm_of s' q = if decide (q = p) then left_alarm (realtime s) (alarm_of s p) else alarm_of s q) ∧
    next_alarm s' = min_alarm (next_alarm s) (left_alarm (realtime s) (alarm_of s p)) ∧
    rings dog al_mess (watch_dog s) (negb (syn_al_alive s))
      (filter (λ p, due (realtime s) (alarm_of s p) = true) [p]) (kern s) (syn_table s) (kern s') (syn_table s')) s.
Proof.
  intros Hw Hsl Hc Hp Hsig. rewrite filter_cons, filter_nil.
  assert (Hq : due (realtime s) (alarm_of s p) = false → wanted s [p] = None).
  { intros E. unfold wanted, syn_due. rewrite filter_cons, filter_nil, E. by destruct (syn_al_alive s). }
  assert (Hsame : ∀ a, alarm_of s p = a → ∀ q, alarm_of s q = if decide (q = p) then a else alarm_of s q).
  { intros a E q. case_decide as Eq; [by rewrite Eq|done]. }
  pose proof (alarm_rings s p w Hw Hsl Hc Hp) as Hring. unfold alarm_step. s_step. s_step.
  change (p_alarm (pinfo_of s p)) with (alarm_of s p). set (a := alarm_of s p) in *. unfold left_alarm, due in *.
  destruct (Z.eqb_spec a 0) as [Ea|Ea]; cbn [negb andb when] in *.
  { s_step. rewrite decide_True by auto. split_and!; try done; [by apply Hsame|by unfold min_alarm; rewrite (proj2 (Z.eqb_eq _ _) Ea)|constructor]. }
  s_step. s_step. s_step. destruct (a <=? realtime s) eqn:El; cbn [when].
  - s_step. s_step. s_step. eapply wp_mono; [by apply Hring|]. cbn beta. intros _ s0 (Hc0 & (k' & t' & q' & ->) & Hrg). s_step.
    set (s1 := _ <| pinfo_of := _ |>).
    assert (E1 : ∀ q, alarm_of s1 q = if decide (q = p) then 0 else alarm_of s q).
    { intros q. exact (alarm_set (s <| kern := k' |> <| syn_table := t' |> <| watchdog_proc := q' |>) p 0 q). }
    unfold earlier. s_step. s_step. change (p_alarm (pinfo_of s1 p)) with (alarm_of s1 p). rewrite E1, decide_True by done.
    s_step. s_step. cbn [Z.eqb negb andb when]. s_step. by split_and!.
  - s_step. unfold earlier. s_step. s_step. s_step. s_step. change (p_alarm (pinfo_of s p)) with a. rewrite decide_True by auto.
    unfold min_alarm. rewrite (proj2 (Z.eqb_neq _ _) Ea). cbn [negb andb].
    destruct (a <? next_alarm s); cbn [when]; s_step; (split_and!; [done..|by apply Hsame|done|constructor]).
Qed.

Lemma syn_due_cons s p l : syn_due s (p :: l) = syn_due s [p] ++ syn_due s l.
Proof. unfold syn_due. by rewrite <- filter_app. Qed.

Lemma alarms_run s l : ckst al_mess (wanted s l) (kern s) → NoDup l → (∀ p, p ∈ l → p ∈ all_slots) → signals_ok s l →
  syn_al_alive s = true ∨ (length (syn_due s l) ≤ 1)%nat →
  wp (fold_m (alarm_step al_mess (λ f, lift (dog f))) tt l) (λ _ s', ckst al_mess None (kern s') ∧
    (∀ q, alarm_of s' q = if decide (q ∈ l) then left_alarm (realtime s) (alarm_of s q) else alarm_of s q) ∧
    next_alarm s' = foldl (λ n p, min_alarm n (left_alarm (realtime s) (alarm_of s p))) (next_alarm s) l ∧
    rings dog al_mess (watch_dog s) (negb (syn_al_alive s))
      (filter (λ p, due (realtime s) (alarm_of s p) = true) l) (kern s) (syn_table s) (kern s') (syn_table s')) s.
Proof.
  revert s. induction l as [|p l IH]; intros s Hc Hnd Hall Hsig H1.
  { apply wp_ret. split_and!; [|intros q; by rewrite decide_False by apply not_elem_of_nil|done|constructor].
    unfold wanted in Hc. by destruct (syn_al_alive s). }
  apply NoDup_cons in Hnd as [Hpl Hnd]. cbn [fold_m]. s_step.
  assert (Hsl : sleeper (wanted s (p :: l))).
  { unfold wanted. destruct (syn_al_alive s); [by left|]. destruct (syn_due s (p :: l)); [by left|by right]. }
  assert (Hw : wanted s [p] ≠ None → wanted s (p :: l) = Some SYN_ALRM_TASK).
  { unfold wanted. rewrite (syn_due_cons s p l). destruct (syn_al_alive s); [done|]. destruct (syn_due s [p]); [by intros []|done]. }
  eapply wp_mono; [apply (alarm_step_run s p _ Hw Hsl Hc); [apply Hall; left|]|].
  { intros x ->%list_elem_of_singleton. apply Hsig. left. }
  cbn beta. intros [] s1 (Hc1 & Er & Ew & Ealive & Ea & En & Ek).
  assert (Eal : ∀ q, q ∈ l → alarm_of s1 q = alarm_of s q).
  { intros q Hq. rewrite Ea, decide_False; [done|]. by intros ->. }
  assert (Esy : syn_due s1 l = syn_due s l).
  { apply filter_eq_in. intros q Hq. by rewrite Eal, Er, Ew. }
  assert (Hwl : wanted s1 l = if decide (wanted s [p] = None) then wanted s (p :: l) else None).
  { unfold wanted. rewrite Esy, Ealive, (syn_due_cons s p l). unfold wanted in *. rewrite (syn_due_cons s p l), length_app in H1.
    destruct (syn_al_alive s); [by rewrite decide_True|]. destruct H1 as [?|H1]; [done|].
    destruct (syn_due s [p]); [by rewrite decide_True|]. rewrite decide_False by done.
    destruct (syn_due s l); [done|cbn in H1; lia]. }
  eapply wp_mono; [apply (IH s1)|].
  - by rewrite Hwl.
  - done.
  - intros q Hq. apply Hall. by right.
  - intros q Hq. rewrite Er, Ew, (Eal q Hq). apply Hsig. by right.
  - rewrite Ealive, Esy. destruct H1 as [?|H1]; [by left|right]. rewrite (syn_due_cons s p l), length_app in H1. lia.
  - cbn beta. intros [] s' (Hc' & Ea' & En' & Es'). rewrite Er in Ea', En', Es'. rewrite Ew, Ealive in Es'. split_and!; [done| | |].
    + intros q. rewrite Ea'. destruct (decide (q ∈ l)) as [Hq|Hq].
      * rewrite (decide_True (P := q ∈ p :: l)) by by right. by rewrite Eal.
      * rewrite Ea. destruct (decide (q = p)) as [->|Hqp]; [by rewrite decide_True by left|].
        rewrite decide_False; [done|]. by intros [?|?]%elem_of_cons.
    + rewrite En', En. cbn. clear -Eal. revert Eal. generalize (min_alarm (next_alarm s) (left_alarm (realtime s) (alarm_of s p))).
      induction l as [|x l IH]; intros n Eal; [done|]. cbn. rewrite (Eal x) by left. apply IH. intros q Hq. apply Eal. by right.
    + rewrite (filter_eq_in (λ q, due (realtime s) (alarm_of s1 q)) (λ q, due (realtime s) (alarm_of s q)) l) in Es'
        by (intros q Hq; by rewrite Eal).
      change (p :: l) with ([p] ++ l). rewrite filter_app. by eapply rings_app.
Qed.
End alarms.

(** ** Setting an alarm *)
Section setalarm.
Implicit Types (s : sysst).

Lemma earlier_run s (l : list Z) :
  wp (fold_m (λ _ rp, earlier rp) tt l) (λ _ s', s' = s <| next_alarm := foldl (λ n p, min_alarm n (alarm_of s p)) (next_alarm s) l |>) s.
Proof.
  revert s. induction l as [|p l IH]; intros s; [apply wp_ret; by destruct s|]. cbn [fold_m]. s_step.
  unfold earlier. s_step. s_step. change (p_alarm (pinfo_of s p)) with (alarm_of s p). s_step. s_step.
  apply (wp_mono _ (λ _ s1, s1 = s <| next_alarm := min_alarm (next_alarm s) (alarm_of s p) |>)).
  - unfold min_alarm. destruct (_ && _); cbn [when]; s_step; [done|by destruct s].
  - intros [] s1 ->. eapply wp_mono; [apply IH|]. by intros _ s' ->.
Qed.

(** [common_setalarm] on a valid process. *)
Lemma common_setalarm_run s p delta f : isokprocn p = true →
  wp (common_setalarm p delta f) (λ _ s', kern s' = kern s ∧ realtime s' = realtime s ∧
    (∀ q, alarm_of s' q = if decide (q = p) then (if delta =? 0 then 0 else s32 (realtime s + delta)) else alarm_of s q) ∧
    (∀ q, watch_dog s' q = if decide (q = p) then f else watch_dog s q) ∧ next_alarm s' = earliest (alarm_of s')) s.
Proof.
  intros Hok. unfold common_setalarm. s_step. apply wp_lift. rewrite (proc_addr_ok _ Hok). apply wp_ret. do 6 s_step.
  set (s1 := _ <| next_alarm := LONG_MAX |>). eapply wp_mono; [apply earlier_run|]. cbn beta. intros _ s' ->.
  split_and!; [done|done| | |done].
  - intros q. exact (alarm_set s p (if delta =? 0 then 0 else s32 (realtime s + delta)) q).
  - intros q. cbn. fn_cases q p; [by rewrite decide_True|by rewrite decide_False].
Qed.
End setalarm.

(** The conditions of a tick: [next_alarm] is not late, a due alarm without a
    watchdog is not that of a task, and, if the synchronous alarm task sleeps, it
    waits for the clock task and at most one synchronous alarm is due (at a second
    one the clock task would block until the other task has run). *)
Definition tick_ok (al_mess : Z) (s : sysst) : Prop :=
  alarms_ok s ∧ signals_ok s all_slots ∧
  ckst al_mess (if syn_al_alive s then None else Some SYN_ALRM_TASK) (kern s) ∧
  (syn_al_alive s = true ∨ (length (syn_due s all_slots) ≤ 1)%nat).


(** ** Example *)

(** The tasks before the clock task wait for messages, the synchronous alarm
    task for one of the clock task, so that the clock task runs. *)
Fixpoint receive_all (l : list Z) (k : kernel) : kernel :=
  match l with
  | [] => k
  | d :: l => if proc_ptr k =? IDLE then k else
              match sys_call RECEIVE d buf0 k with Ret _ k' => receive_all l k' | _ => k end
  end.
Lemma receive_all_inv l k : kinv k → kinv (receive_all l k).
Proof.
  revert k. induction l as [|d l IH]; intros k Hk; [done|]. cbn [receive_all]. destruct (Z.eqb_spec (proc_ptr k) IDLE) as [|Hne]; [done|].
  assert (Hf : system_send k RECEIVE = false) by (unfold system_send; change (has RECEIVE SEND) with false; apply andb_false_r).
  assert (Hw : wp (sys_call RECEIVE d buf0) (λ _ k', kinv k') k).
  { apply kinv_call_any; try done; [by rewrite Hf|unfold self_send; by rewrite Hf]. }
  unfold wp in Hw. destruct (sys_call RECEIVE d buf0 k); try done. by apply IH.
Qed.
Definition clock_kernel : kernel := receive_all [ANY; ANY; ANY; CLOCK; ANY; ANY; ANY] (boot_state sizes0 m0).
Lemma clock_kernel_ok : ckst buf0 (Some SYN_ALRM_TASK) clock_kernel.
Proof. split; [apply receive_all_inv, boot0_inv|]. split_and!; vm_compute; reflexivity. Qed.

(** At time 100 the alarms of task -5, which has a watchdog, of process 3, which
    gets a signal, and of process 4, a synchronous one, go off; that of process
    5 does not. *)
Definition alarm_state (k : kernel) : sysst :=
  (sys_of k) <| realtime := 100 |> <| next_alarm := 100 |> <| syn_al_alive := false |>
    <| watch_dog := <[-5 := Driver_dog 7]> (<[4 := Cause_alarm]> (λ _, No_dog)) |>
    <| pinfo_of := λ p, zero_info <| p_alarm := if (p =? -5) || (p =? 3) || (p =? 4) then 100 else if p =? 5 then 200 else 0 |> |>.
(** The watchdog of the floppy disk driver: an interrupt. *)
Definition floppy_dog (f : Z) : KM unit := if f =? 7 then interrupt (-5) else mret tt.
Lemma floppy_dog_ok b : dogs_ok b floppy_dog.
Proof.
  intros f w k Hw Hk. unfold floppy_dog. destruct (f =? 7); [|by apply wp_ret].
  apply ckst_interrupt; [by destruct Hw as [-> | ->]|done|done].
Qed.
Lemma alarm_state_ok k : ckst buf0 (Some SYN_ALRM_TASK) k → tick_ok buf0 (alarm_state k).
Proof.
  assert (E : ∀ p, alarm_of (alarm_state k) p = if (p =? -5) || (p =? 3) || (p =? 4) then 100 else if p =? 5 then 200 else 0) by done.
  intros Hk. split_and!; [| |exact Hk|right; vm_compute; lia].
  - intros p _. rewrite E. destruct (_ || _); [done|]. by destruct (p =? 5).
  - intros p _. rewrite E. unfold due. change (realtime (alarm_state k)) with 100. intros Hd Hn.
    destruct (decide (p = -5)) as [->|Hp]; [by vm_compute in Hn|]. destruct (Z.eqb_spec p 3), (Z.eqb_spec p 4), (Z.eqb_spec p (-5)), (Z.eqb_spec p 5); cbn in Hd; try lia; try done.
Qed.
#[local] Opaque boot_state.
