(* ===== verification/Kmem.v ===== *)
(** * What the system task copies

    The byte view of physical memory; the copies of SYS_COPY; the stack frame
    of a caught signal and the return from it; the reply of SYS_TIMES. *)

From S2P Require Import Prelude Chain Sigset Proc Sched Ipc Receive Kernel Boot Userq Alloc Ksys Ksysp Ksafe.

(** ** Bytes *)
Section bytes.
Implicit Types (c f g : Z → Z).

(** The clicks as numbers in base 256. *)
Definition digits (f : Z → Z) (n : nat) : Z := foldl (λ v i, v * 256 + f i mod 256) 0 (seqZ 0 (Z.of_nat n)).

Lemma digits_S f n : digits f (S n) = digits f n * 256 + f (Z.of_nat n) mod 256.
Proof.
  unfold digits. rewrite seqZ_S, foldl_app. cbn. by rewrite Z.add_0_l.
Qed.

Lemma digits_byte f n i : 0 ≤ i < Z.of_nat n → Z.shiftr (digits f n) (8 * (Z.of_nat n - 1 - i)) mod 256 = f i mod 256.
Proof.
  induction n as [|n IH]; intros Hi; [lia|]. rewrite digits_S.
  assert (Hm : 0 ≤ f (Z.of_nat n) mod 256 < 256) by (apply Z.mod_pos_bound; lia).
  destruct (decide (i = Z.of_nat n)) as [->|Hne].
  - replace (8 * (Z.of_nat (S n) - 1 - Z.of_nat n)) with 0 by lia. rewrite Z.shiftr_0_r.
    rewrite Z.add_comm, Z_mod_plus_full. by rewrite Z.mod_mod by lia.
  - rewrite <- IH by lia. replace (8 * (Z.of_nat (S n) - 1 - i)) with (8 + 8 * (Z.of_nat n - 1 - i)) by lia.
    rewrite <- Z.shiftr_shiftr by lia. do 2 f_equal. rewrite Z.shiftr_div_pow2 by lia. change (2 ^ 8) with 256.
    rewrite Z.add_comm, Z.div_add by lia. rewrite Z.div_small; lia.
Qed.

Lemma digits_byte_Z f n i : 0 ≤ i < n →
  Z.shiftr (foldl (λ v i, v * 256 + f i mod 256) 0 (seqZ 0 n)) (8 * (n - 1 - i)) mod 256 = f i mod 256.
Proof.
  intros Hi. pose proof (digits_byte f (Z.to_nat n) i) as H. unfold digits in H. rewrite Z2Nat.id in H by lia. by apply H.
Qed.

Lemma pack_click_byte g k i : 0 ≤ i < 256 → Z.shiftr (pack_click g k) (8 * (255 - i)) mod 256 = g (k * 256 + i) mod 256.
Proof.
  intros Hi. unfold pack_click. replace (255 - i) with (256 - 1 - i) by lia.
  by rewrite (digits_byte_Z (λ i, g (k * 256 + i)) 256 i).
Qed.

(** A patch changes the bytes of its range and no other. *)
Lemma mem_byte_patch a n g c b :
  mem_byte (patch a n g c) b = if (a <=? b) && (b <? a + n) then g b mod 256 else mem_byte c b.
Proof.
  pose proof (Z.mod_pos_bound b 256 ltac:(lia)) as Hr. pose proof (Z.div_mod b 256 ltac:(lia)) as Hb.
  unfold mem_byte at 1. unfold patch. set (k := b / 256) in *.
  destruct ((a <? (k + 1) * 256) && (k * 256 <? a + n)) eqn:E.
  - rewrite pack_click_byte by lia. replace (k * 256 + b mod 256) with b by lia.
    destruct ((a <=? b) && (b <? a + n)); [done|]. unfold mem_byte. by rewrite Z.mod_mod by lia.
  - replace ((a <=? b) && (b <? a + n)) with false by lia. done.
Qed.

Lemma mem_byte_range c b : 0 ≤ mem_byte c b < 256.
Proof. unfold mem_byte. apply Z.mod_pos_bound. lia. Qed.

Definition is_byte (x : Z) : Prop := 0 ≤ x < 256.

(** Bytes written are read back. *)
Lemma copy_back c l a : Forall is_byte l →
  map (mem_byte (patch a (Z.of_nat (length l)) (λ b, nth (Z.to_nat (b - a)) l 0) c)) (seqZ a (Z.of_nat (length l))) = l.
Proof.
  intros Hl. apply list_eq. intros i. change (map ?f ?l) with (f <$> l). rewrite list_lookup_fmap.
  destruct (decide (i < length l)%nat) as [Hi|Hi].
  - rewrite lookup_seqZ_lt by lia. cbn. rewrite mem_byte_patch.
    replace ((a <=? a + Z.of_nat i) && (a + Z.of_nat i <? a + Z.of_nat (length l))) with true by lia.
    replace (Z.to_nat (a + Z.of_nat i - a)) with i by lia.
    destruct (lookup_lt_is_Some_2 l i Hi) as [x Hx]. rewrite Hx, (nth_lookup_Some _ _ _ _ Hx).
    rewrite Forall_lookup in Hl. rewrite Z.mod_small; [done|by eapply Hl].
  - rewrite lookup_seqZ_ge by lia. cbn. symmetry. apply lookup_ge_None. lia.
Qed.
End bytes.

(** ** Big-endian words *)
Lemma w16_bytes v : Forall is_byte (w16 v).
Proof.
  pose proof (u16_range v). unfold w16. apply Forall_cons. split; [|apply Forall_singleton]; unfold is_byte;
    [split; [apply Z.div_pos; lia|apply Z.div_lt_upper_bound; lia]|apply Z.mod_pos_bound; lia].
Qed.
Lemma w32_bytes v : Forall is_byte (w32 v).
Proof. unfold w32. apply Forall_app. split; apply w16_bytes. Qed.

Lemma w32_value v : 0 ≤ v < 2 ^ 32 →
  (u16 (u32 v / 2 ^ 16) / 256 * 256 + u16 (u32 v / 2 ^ 16) mod 256) * 2 ^ 16 + (u16 (u32 v mod 2 ^ 16) / 256 * 256 + u16 (u32 v mod 2 ^ 16) mod 256) = v.
Proof.
  intros Hv. rewrite (u32_id v) by done. change (2 ^ 32) with (2 ^ 16 * 2 ^ 16) in Hv.
  assert (H1 : 0 ≤ v / 2 ^ 16 < 2 ^ 16) by (split; [apply Z.div_pos; lia|apply Z.div_lt_upper_bound; lia]).
  assert (H2 : 0 ≤ v mod 2 ^ 16 < 2 ^ 16) by (apply Z.mod_pos_bound; lia).
  rewrite (u16_id (v / 2 ^ 16)), (u16_id (v mod 2 ^ 16)) by done.
  pose proof (Z.div_mod (v / 2 ^ 16) 256 ltac:(lia)). pose proof (Z.div_mod (v mod 2 ^ 16) 256 ltac:(lia)).
  pose proof (Z.div_mod v (2 ^ 16) ltac:(lia)). lia.
Qed.

(** ** The context of a signal *)

(** The registers are 32 bits wide, the status word 16. *)
Definition frame_wf (f : frame) : Prop := (∀ n, 0 ≤ n < 17 → 0 ≤ regs f n < 2 ^ 32) ∧ 0 ≤ psw f < 2 ^ 16.

Lemma sigcontext_bytes_ok mask f : Forall is_byte (sigcontext_bytes mask f) ∧ length (sigcontext_bytes mask f) = 78%nat.
Proof.
  split; [|reflexivity]. unfold sigcontext_bytes, frame_bytes. rewrite !Forall_app. split_and!; try apply w16_bytes; try apply w32_bytes.
  apply Forall_concat, Forall_map, Forall_forall. intros n _. apply w32_bytes.
Qed.
Lemma sigframe_bytes_ok a b c d e : Forall is_byte (sigframe_bytes a b c d e) ∧ length (sigframe_bytes a b c d e) = 22%nat.
Proof. split; [|reflexivity]. unfold sigframe_bytes. rewrite !Forall_app. split_and!; first [apply w16_bytes|apply w32_bytes]. Qed.

(** The context is read back as it was written. *)
Lemma sigcontext_read mask f : frame_wf f →
  r16 (sigcontext_bytes mask f) 0 = SC_SIGCONTEXT ∧
  ∀ n, 0 ≤ n < 17 → regs (frame_of (sigcontext_bytes mask f) 6) n = regs f n.
Proof.
  intros [Hf _]. split; [reflexivity|]. intros n Hn. specialize (Hf n Hn). unfold frame_of; cbn [regs].
  assert (n = 0 ∨ n = 1 ∨ n = 2 ∨ n = 3 ∨ n = 4 ∨ n = 5 ∨ n = 6 ∨ n = 7 ∨ n = 8 ∨ n = 9 ∨ n = 10 ∨ n = 11 ∨ n = 12 ∨ n = 13 ∨
          n = 14 ∨ n = 15 ∨ n = 16) as Hc by lia.
  destruct_or! Hc; subst n; (etrans; [|by apply w32_value]; reflexivity).
Qed.

(** The message of MM: [struct sigmsg]. *)
Definition sigmsg_of (s : sysst) : list Z :=
  map (mem_byte (clicks (kern s)))
      (seqZ (umap (procs (kern s) MM_PROC_NR) D_SEG (m1_p1 (mess (kern s) (sys_m (kern s)))) SIGMSG_SIZE) SIGMSG_SIZE).
(** Where [do_sendsig] puts the context. *)
Definition scp_of (s : sysst) : Z := u32 (r32 (sigmsg_of s) 14 - SIGCONTEXT_SIZE).

Lemma sigmsg_eq s : map (mem_byte (clicks (kern s))) (seqZ (umap (procs (kern s) MM_PROC_NR) D_SEG
  (m1_p1 (mess (kern s) (sys_m (kern s)))) SIGMSG_SIZE) SIGMSG_SIZE) = sigmsg_of s.
Proof. exact eq_refl. Qed.
Lemma scp_eq s : u32 (r32 (sigmsg_of s) 14 - SIGCONTEXT_SIZE) = scp_of s.
Proof. exact eq_refl. Qed.
#[local] Opaque sigmsg_of scp_of.

Section signals.
Implicit Types (s : sysst).

Lemma u32_shift x d : 0 ≤ d → d ≤ u32 x → u32 (x - d) = u32 x - d.
Proof.
  intros Hd Hx. unfold u32 in *. pose proof (Z.mod_pos_bound x (2 ^ 32) ltac:(lia)). 
  rewrite <- Zminus_mod_idemp_l. apply Z.mod_small. lia.
Qed.

(** Two ranges of the same segment keep their distance. *)
Lemma umap_shift r v n d n' : 0 ≤ d ≤ v → 0 ≤ v < 2 ^ 32 → d ≤ umap r D_SEG v n → umap r D_SEG v n ≠ 0 → umap r D_SEG (v - d) n' ≠ 0 →
  umap r D_SEG (v - d) n' = umap r D_SEG v n - d.
Proof.
  intros Hd Hv. unfold umap. change (negb (D_SEG =? T_SEG)) with true. cbv iota.
  destruct (n <=? 0); [done|]. destruct (n' <=? 0); [done|].
  destruct (_ <=? Z.shiftr v CLICK_SHIFT); [done|]. destruct (_ <=? Z.shiftr (v - d) CLICK_SHIFT); [done|].
  destruct (isshadowp r); cbn [andb]; [|lia]. intros Hle _ _.
  rewrite <- (u32_shift (v - _ + _) d) by lia. f_equal. lia.
Qed.

(** What a successful [do_sendsig] leaves: the context on the stack of the
    process, its entry in the process table unchanged. *)
Lemma sendsig_spec s :
  userp (m1_i1 (mess (kern s) (sys_m (kern s)))) → SIGFRAME_SIZE ≤ scp_of s →
  let p := m1_i1 (mess (kern s) (sys_m (kern s))) in
  let ctx := umap (procs (kern s) p) D_SEG (scp_of s) SIGCONTEXT_SIZE in
  SIGFRAME_SIZE ≤ ctx →
  wpx (λ _, True) do_sendsig (λ r s1, r = OK → ctx ≠ 0 ∧ procs (kern s1) = procs (kern s) ∧
    map (mem_byte (clicks (kern s1))) (seqZ ctx SIGCONTEXT_SIZE) = sigcontext_bytes (r32 (sigmsg_of s) 2) (p_reg (pinfo_of s p))) s.
Proof.
  intros Hp Hscp. cbv zeta. intros Hctx. unfold do_sendsig. s_step. s_step. set (m := mess _ _) in *.
  assert (Eu : isokusern (m1_i1 m) = true) by (unfold isokusern, userp in *; lia). rewrite Eu. cbn [negb].
  destruct (userp_facts _ Hp) as (Hok & _). set (p := m1_i1 m) in *. s_step. apply proc_addr_run; [done|].
  s_step. apply umap_run; [done|]. destruct (_ =? 0); [by apply wpx_panic|]. s_step. unfold copy_in. s_step.
  pose proof (sigmsg_eq s) as Em. fold m in Em. rewrite Em. clear Em. cbv zeta. pose proof (scp_eq s) as Es.
  rewrite Es. s_step. s_step. s_step. s_step. set (ctx := umap _ D_SEG (scp_of s) _) in *.
  destruct (Z.eqb_spec ctx 0) as [|Hne]; [by s_step|]. s_step. unfold copy_out at 1. apply wpx_lift. s_step.
  set (sc := sigcontext_bytes _ _). destruct (sigcontext_bytes_ok (r32 (sigmsg_of s) 2) (p_reg (pinfo_of s p))) as [Hby Hlen].
  fold sc in Hby, Hlen. do 4 s_step.
  assert (Efrp : u32 (scp_of s - SIGFRAME_SIZE) = scp_of s - SIGFRAME_SIZE).
  { apply u32_id. pose proof (u32_range (r32 (sigmsg_of s) 14 - SIGCONTEXT_SIZE)) as Hr. rewrite Es in Hr. unfold SIGFRAME_SIZE in *. lia. }
  rewrite Efrp. cbn [procs kern upd upd_kern upd_clicks upd_pinfo_of].
  set (fr := umap _ D_SEG (scp_of s - SIGFRAME_SIZE) _).
  destruct (Z.eqb_spec fr 0) as [|Hfr]; [by s_step|].
  assert (Ef : fr = ctx - SIGFRAME_SIZE).
  { apply umap_shift; [unfold SIGFRAME_SIZE in *; lia|rewrite <- Es; apply u32_range|done|done|done]. }
  s_step. unfold copy_out at 1. apply wpx_lift. do 6 s_step. intros _. split; [done|]. split; [done|].
  set (f2 := sigframe_bytes _ _ _ _ _). destruct (sigframe_bytes_ok (r32 (sigmsg_of s) 10) (r16 (sigmsg_of s) 0) (scp_of s) (regs (p_reg (pinfo_of s p)) FP) (regs (p_reg (pinfo_of s p)) PC)) as [_ Hl2].
  fold f2 in Hl2. transitivity (map (mem_byte (patch ctx (Z.of_nat (length sc)) (λ b, nth (Z.to_nat (b - ctx)) sc 0) (clicks (kern s)))) (seqZ ctx (Z.of_nat (length sc)))); [|by apply copy_back].
  rewrite Hlen. change (Z.of_nat 78) with SIGCONTEXT_SIZE. apply map_ext_in. intros b Hb%list_elem_of_In%elem_of_seqZ.
  cbn [clicks kern upd upd_kern upd_clicks upd_pinfo_of]. rewrite mem_byte_patch, Hl2, Ef.
  change (Z.of_nat 22) with SIGFRAME_SIZE. clearbody ctx.
  destruct (Z.ltb_spec b (ctx - SIGFRAME_SIZE + SIGFRAME_SIZE)); [lia|]. by rewrite andb_false_r.
Qed.

(** [do_sigreturn] with that context. *)
Lemma sigreturn_spec s f mask :
  let m := mess (kern s) (sys_m (kern s)) in
  let ctx := umap (procs (kern s) (m1_i1 m)) D_SEG (m1_p1 m) SIGCONTEXT_SIZE in
  userp (m1_i1 m) → ctx ≠ 0 → frame_wf f →
  map (mem_byte (clicks (kern s))) (seqZ ctx SIGCONTEXT_SIZE) = sigcontext_bytes mask f →
  wp do_sigreturn (λ r s3, r = OK ∧ kern s3 = kern s ∧
    (∀ n, 0 ≤ n < 17 → regs (p_reg (pinfo_of s3 (m1_i1 m))) n = regs f n) ∧
    psw (p_reg (pinfo_of s3 (m1_i1 m))) = psw (p_reg (pinfo_of s (m1_i1 m))) ∧
    ∀ q, q ≠ m1_i1 m → pinfo_of s3 q = pinfo_of s q) s.
Proof.
  cbv zeta. set (m := mess _ _) in *. set (p := m1_i1 m) in *. intros Hp Hne Hf Hb. set (ctx := umap _ _ _ _) in *.
  destruct (sigcontext_read mask f Hf) as [Hfl Hr]. unfold do_sigreturn. s_step. s_step. fold m. fold p.
  assert (Eu : isokusern p = true) by (unfold isokusern, userp in *; lia). rewrite Eu. cbn [negb].
  destruct (userp_facts _ Hp) as (Hok & _). s_step. apply wp_lift. rewrite (proc_addr_ok _ Hok). apply wp_ret.
  s_step. s_step. cbn [procs kern upd upd_kern]. fold ctx. rewrite (proj2 (Z.eqb_neq _ _) Hne). s_step. unfold copy_in. s_step.
  cbn [clicks kern upd upd_kern]. rewrite Hb. cbv zeta. rewrite Hfl.
  change (Z.land SC_SIGCONTEXT SC_SIGCONTEXT =? 0) with false. change (negb (Z.land SC_SIGCONTEXT SC_NOREGLOCALS =? 0)) with false. cbv iota.
  repeat s_step. split; [done|]. split; [done|]. cbn [pinfo_of upd upd_pinfo_of upd_kern]. split_and!.
  - intros n Hn. rewrite fn_lookup_insert. cbn. by apply Hr.
  - by rewrite fn_lookup_insert.
  - intros q Hq. by rewrite fn_lookup_insert_ne.
Qed.
End signals.

(** ** The copy of SYS_COPY *)
Section copies.
Implicit Types (s : sysst).

Lemma patch_same a n c b : ¬ (a ≤ b < a + n) → ∀ g, mem_byte (patch a n g c) b = mem_byte c b.
Proof. intros Hb g. rewrite mem_byte_patch. replace ((a <=? b) && (b <? a + n)) with false by lia. done. Qed.

Lemma umap_at_ok p seg vir n s : isokprocn p = true → umap_at p seg vir n s = Ret (umap (procs (kern s) p) seg vir n) s.
Proof. intros Hok. unfold umap_at. rewrite (proc_addr_ok _ Hok). by destruct s. Qed.
End copies.

(** The fields of a SYS_COPY request. *)
Definition copy_src (s : sysst) (m : message) : Z := umap (procs (kern s) (m5_i1 m)) (m5_c1 m) (m5_l1 m) (m5_l3 m).
Definition copy_dst (s : sysst) (m : message) : Z := umap (procs (kern s) (m5_i2 m)) (m5_c2 m) (m5_l2 m) (m5_l3 m).

(** C23: SYS_COPY copies exactly the bytes asked for: when both addresses map
    and the ranges are apart, every destination byte becomes the source byte and
    no other byte of memory, and no process, changes; when one of them does not
    map, the request fails with EFAULT and changes nothing. *)
Theorem do_copy_exact (s : sysst) (m : message) (Hm : mess (kern s) (sys_m (kern s)) = m)
    (Hsrc : isokprocn (m5_i1 m) = true) (Hdst : isokprocn (m5_i2 m) = true)
    (Hapart : copy_src s m + m5_l3 m <= copy_dst s m ∨ copy_dst s m + m5_l3 m <= copy_src s m) :
  if (copy_src s m =? 0) || (copy_dst s m =? 0) then do_copy s = Ret EFAULT s
  else ∃ s', do_copy s = Ret OK s' ∧ procs (kern s') = procs (kern s) ∧ pinfo_of s' = pinfo_of s ∧
    ∀ b, mem_byte (clicks (kern s')) b =
      if (copy_dst s m <=? b) && (b <? copy_dst s m + m5_l3 m)
      then mem_byte (clicks (kern s)) (copy_src s m + (b - copy_dst s m)) else mem_byte (clicks (kern s)) b.
Proof.
  clear Hapart. unfold do_copy. unfold the_m. erewrite bind_eq by reflexivity. rewrite Hm.
  erewrite bind_eq by by apply umap_at_ok. erewrite bind_eq by by apply umap_at_ok. fold (copy_src s m) (copy_dst s m).
  destruct (_ || _); [done|]. eexists. split; [reflexivity|]. split; [done|]. split; [done|]. intros b. cbn [clicks kern upd upd_kern upd_clicks].
  rewrite mem_byte_patch. destruct (_ && _); [|done]. unfold mem_byte. by rewrite Z.mod_mod by lia.
Qed.

(** ** Times *)
Lemma hi_lo l : - 2 ^ 31 <= l < 2 ^ 31 → pair_l (hi l) (u16 l) = l.
Proof.
  intros Hl. unfold pair_l, hi. rewrite Z.shiftr_div_pow2 by lia. unfold u16, s32.
  pose proof (Z.div_mod l (2 ^ 16) ltac:(lia)). pose proof (Z.mod_pos_bound l (2 ^ 16) ltac:(lia)).
  pose proof (Z.div_mod (l / 2 ^ 16) (2 ^ 16) ltac:(lia)) as Hq.
  replace ((l / 2 ^ 16) mod 2 ^ 16 * 2 ^ 16 + l mod 2 ^ 16 + 2 ^ 31) with ((l + 2 ^ 31) + - (l / 2 ^ 16 / 2 ^ 16) * 2 ^ 32) by lia.
  rewrite Z_mod_plus_full. rewrite Z.mod_small; lia.
Qed.

Lemma s32_parts h l : 0 <= h < 2 ^ 16 → 0 <= l < 2 ^ 16 → hi (pair_l h l) = h ∧ u16 (pair_l h l) = l.
Proof.
  intros Hh Hl. unfold hi, pair_l, s32, u16. rewrite Z.shiftr_div_pow2 by lia.
  pose proof (Z.div_mod (h * 2 ^ 16 + l + 2 ^ 31) (2 ^ 32) ltac:(lia)) as H. set (q := (h * 2 ^ 16 + l + 2 ^ 31) / 2 ^ 32) in *.
  replace ((h * 2 ^ 16 + l + 2 ^ 31) mod 2 ^ 32 - 2 ^ 31) with (l + (h - q * 2 ^ 16) * 2 ^ 16) by lia. split.
  - rewrite Z.div_add by lia. rewrite (Z.div_small l), Z.add_0_l by lia. replace (h - q * 2 ^ 16) with (h + - q * 2 ^ 16) by lia.
    rewrite Z_mod_plus_full. by apply Z.mod_small.
  - rewrite Z_mod_plus_full. by apply Z.mod_small.
Qed.

Definition is_long (l : Z) : Prop := - 2 ^ 31 <= l < 2 ^ 31.

(** SYS_TIMES reports the four accounting times of the process and the
    uptime: the five longs of the reply, read back by the caller, are those of
    the process table and the clock. *)
Theorem do_times_reply (s : sysst) (Hp : isoksusern (m1_i1 (mess (kern s) (sys_m (kern s)))) = true)
    (Hl : let i := pinfo_of s (m1_i1 (mess (kern s) (sys_m (kern s)))) in
          is_long (user_time i) ∧ is_long (sys_time i) ∧ is_long (child_utime i) ∧ is_long (child_stime i)) :
  let i := pinfo_of s (m1_i1 (mess (kern s) (sys_m (kern s)))) in
  ∃ s', do_times s = Ret OK s' ∧ procs (kern s') = procs (kern s) ∧ pinfo_of s' = pinfo_of s ∧
    m4 (mess (kern s') (sys_m (kern s'))) =
      [user_time i; sys_time i; child_utime i; child_stime i; s32 (realtime s + pending_ticks s)].
Proof.
  cbv zeta in *. destruct Hl as (H1 & H2 & H3 & H4). set (m := mess _ _) in *. set (i := pinfo_of s _) in *.
  assert (H5 : is_long (s32 (realtime s + pending_ticks s))).
  { unfold is_long, s32. pose proof (Z.mod_pos_bound (realtime s + pending_ticks s + 2 ^ 31) (2 ^ 32) ltac:(lia)). lia. }
  eexists. split; [|split; [|split]].
  - unfold do_times, the_m. erewrite bind_eq by reflexivity. fold m. rewrite Hp. cbn [negb].
    unfold lift. rewrite (proc_addr_ok _ (isoksusern_ok _ Hp)). reflexivity.
  - done.
  - done.
  - cbn [mess kern sys_m upd upd_kern upd_mess]. rewrite fn_lookup_insert. fold m. change (pinfo_of (s <| kern := kern s |>) (m1_i1 m)) with i.
    set (t := s32 (realtime (s <| kern := kern s |>) + pending_ticks (s <| kern := kern s |>))). change (is_long t) in H5.
    unfold m4, set_m4. cbn [m2_i1 m2_i2 m2_i3 m2_l1 m2_l2 m2_p1 m_rest]. rewrite !u16_s16.
    assert (Hhi : ∀ l, 0 ≤ hi l < 2 ^ 16) by (intros l; apply u16_range). assert (Hlo : ∀ l, 0 ≤ u16 l < 2 ^ 16) by (intros l; apply u16_range).
    assert (Hidem : ∀ l, u16 (hi l) = hi l) by (intros l; apply u16_id, Hhi).
    repeat match goal with |- context [hi (pair_l ?a ?b)] => rewrite (proj1 (s32_parts a b (Hlo _) (Hhi _))) end.
    repeat match goal with |- context [u16 (pair_l ?a ?b)] => rewrite (proj2 (s32_parts a b (Hlo _) (Hhi _))) end.
    rewrite (proj1 (s32_parts _ _ (Hlo _) (Hlo _))), !Hidem, !hi_lo by done. done.
Qed.

(** C9: a signal handler is transparent for the process it interrupts: when
    SYS_SENDSIG has pushed the context of a process and the process returns
    with SYS_SIGRETURN while the context is still in its memory, all seventeen
    registers are those of the moment of the signal; the status word is not
    taken from the user's memory but stays the kernel's. *)
Theorem sigreturn_restores (s s1 s2 : sysst) (p : Z)
    (Hm : m1_i1 (mess (kern s) (sys_m (kern s))) = p) (Hp : userp p) (Hf : frame_wf (p_reg (pinfo_of s p)))
    (Hstack : SIGFRAME_SIZE <= scp_of s ∧ SIGFRAME_SIZE <= umap (procs (kern s) p) D_SEG (scp_of s) SIGCONTEXT_SIZE)
    (Hsend : do_sendsig s = Ret OK s1)
    (Hrow : procs (kern s2) p = procs (kern s1) p)
    (Hctx : ∀ b, umap (procs (kern s) p) D_SEG (scp_of s) SIGCONTEXT_SIZE <= b <
                 umap (procs (kern s) p) D_SEG (scp_of s) SIGCONTEXT_SIZE + SIGCONTEXT_SIZE →
       mem_byte (clicks (kern s2)) b = mem_byte (clicks (kern s1)) b)
    (Hret : m1_i1 (mess (kern s2) (sys_m (kern s2))) = p ∧ m1_p1 (mess (kern s2) (sys_m (kern s2))) = scp_of s) :
  ∃ s3, do_sigreturn s2 = Ret OK s3 ∧ kern s3 = kern s2 ∧
    (∀ n, 0 <= n < 17 → regs (p_reg (pinfo_of s3 p)) n = regs (p_reg (pinfo_of s p)) n) ∧
    psw (p_reg (pinfo_of s3 p)) = psw (p_reg (pinfo_of s2 p)) ∧ ∀ q, q ≠ p → pinfo_of s3 q = pinfo_of s2 q.
Proof.
  destruct Hstack as [Hscp Hlow]. destruct Hret as [Em2 Ep2]. subst p.
  pose proof (sendsig_spec s Hp Hscp Hlow) as Hs. unfold wpx in Hs. rewrite Hsend in Hs. destruct (Hs eq_refl) as (Hne & Epr & Hb).
  set (p := m1_i1 (mess (kern s) (sys_m (kern s)))) in *.
  assert (Er : procs (kern s2) p = procs (kern s) p) by (rewrite Hrow, Epr; done).
  destruct (wp_inv _ _ _ (sigreturn_spec s2 (p_reg (pinfo_of s p)) (r32 (sigmsg_of s) 2)
    ltac:(by rewrite Em2) ltac:(by rewrite Em2, Ep2, Er) Hf ltac:(rewrite Em2, Ep2, Er; rewrite <- Hb; apply map_ext_in; intros b Hin%list_elem_of_In%elem_of_seqZ; by apply Hctx)))
    as (r & s3 & E3 & -> & Ek & Hreg & Hpsw & Hoth).
  rewrite Em2 in *. by exists s3.
Qed.

(** The child of a fork: SYS_FORK gives it the parent's entry with another
    process id, no pending signal, zero times and result, and, unlike the
    parent's, not stopped; but also the parent's alarm. *)
Theorem do_fork_child (s : sysst) (p c : Z)
    (Hp : m1_i1 (mess (kern s) (sys_m (kern s))) = p) (Hc : m1_i2 (mess (kern s) (sys_m (kern s))) = c)
    (Hok : isoksusern p = true ∧ isoksusern c = true ∧ p ≠ c) :
  ∃ s', do_fork s = Ret OK s' ∧
    procs (kern s') c = (procs (kern s) p)
      <| p_flags := clrf (p_flags (procs (kern s) p)) (Z.lor PENDING (Z.lor SIG_PENDING P_STOP)) |>
      <| p_pending := 0 |> <| p_pendcount := 0 |> <| p_nflips := 0 |> ∧
    (let i := pinfo_of s' c in p_pid i = m1_i3 (mess (kern s) (sys_m (kern s))) ∧
       p_reg i = set_reg RETREG 0 (p_reg (pinfo_of s p)) ∧ user_time i = 0 ∧ sys_time i = 0 ∧ child_utime i = 0 ∧
       child_stime i = 0 ∧ p_alarm i = p_alarm (pinfo_of s p)) ∧
    procs (kern s') p = (procs (kern s) p) <| p_shadow := u16 (m1_p1 (mess (kern s) (sys_m (kern s)))) |> ∧
    pinfo_of s' p = pinfo_of s p ∧ ∀ q, q ≠ p → q ≠ c → procs (kern s') q = procs (kern s) q ∧ pinfo_of s' q = pinfo_of s q.
Proof.
  destruct Hok as (Ep & Ec & Hne). set (m := mess (kern s) (sys_m (kern s))) in *.
  assert (H1 : ∀ s, lift (proc_addr p) s = Ret p s) by (intros s0; unfold lift; rewrite (proc_addr_ok _ (isoksusern_ok _ Ep)); by destruct s0).
  assert (H2 : ∀ s, lift (proc_addr c) s = Ret c s) by (intros s0; unfold lift; rewrite (proc_addr_ok _ (isoksusern_ok _ Ec)); by destruct s0).
  eexists. split; [|split; [|split; [|split; [|split]]]].
  - unfold do_fork, the_m. erewrite bind_eq by reflexivity. fold m. rewrite Hp, Hc, Ep, Ec. cbn [negb orb].
    erewrite bind_eq by apply H1. erewrite bind_eq by apply H2. reflexivity.
  - cbn. by rewrite fn_lookup_insert_ne, !fn_lookup_insert by done.
  - cbn. by rewrite !fn_lookup_insert.
  - cbn. by rewrite fn_lookup_insert, !fn_lookup_insert_ne by done.
  - cbn. by rewrite !fn_lookup_insert_ne by done.
  - intros q Hqp Hqc. cbn. by rewrite !fn_lookup_insert_ne by done.
Qed.

(** ** The checks of umap *)

(** The first byte after a segment. *)
Definition seg_end (m : mem_map) : Z := (mem_vir m + mem_len m) * 256.
Definition map_wf (m : mem_map) : Prop := 0 <= mem_vir m ∧ 0 <= mem_len m ∧ mem_vir m + mem_len m < 2 ^ 16.

Lemma click_below a e : (Z.shiftr a CLICK_SHIFT <? e) = (a <? e * 256).
Proof.
  rewrite Z.shiftr_div_pow2 by done. change (2 ^ CLICK_SHIFT) with 256.
  destruct (Z.ltb_spec (a / 256) e), (Z.ltb_spec a (e * 256)); try done; exfalso.
  - pose proof (Z.mul_div_le a 256 ltac:(lia)). pose proof (Z.mod_pos_bound a 256 ltac:(lia)). pose proof (Z.div_mod a 256 ltac:(lia)). nia.
  - assert (a / 256 < e) by (apply Z.div_lt_upper_bound; lia). lia.
Qed.

(** The range check of [umap] for a process that is not shadowed: a range
    that ends before the end of the data segment is accepted, and so is any
    range that starts before the end of the stack segment.  The start of the
    range is not compared with the start of the data segment, and its end not
    with the end of the stack segment: addresses below the process and ranges
    that run past it are mapped to themselves. *)
Theorem umap_checks_exact (r : proc) (vir n : Z) (Hr : isshadowp r = false) (Hn : 0 < n) (Hv : 0 <= vir) (He : vir + n <= 2 ^ 24)
    (HD : map_wf (p_map_D r)) (HS : map_wf (p_map_S r)) :
  umap r D_SEG vir n = if (vir + n <=? seg_end (p_map_D r)) || (vir <? seg_end (p_map_S r)) && (seg_end (p_map_D r) <? vir + n) then vir else 0.
Proof.
  destruct HD as (D1 & D2 & D3), HS as (S1 & S2 & S3). unfold umap. rewrite Hr. change (negb (D_SEG =? T_SEG)) with true. cbn [andb]. cbv iota.
  destruct (Z.leb_spec n 0); [lia|]. rewrite (u32_id (vir + n - 1)) by lia.
  rewrite (u16_id (Z.shiftr _ _)), (u16_id (mem_vir (p_map_D r) + _)) by
    (first [lia|rewrite Z.shiftr_div_pow2 by done; change (2 ^ CLICK_SHIFT) with 256; split; [apply Z.div_pos; lia|apply Z.div_lt_upper_bound; lia]]).
  rewrite click_below. fold (seg_end (p_map_D r)).
  assert (Hc : ∀ m, map_wf m → (u16 (mem_vir m + mem_len m) <=? Z.shiftr vir CLICK_SHIFT) = negb (vir <? seg_end m)).
  { intros m (M1 & M2 & M3). rewrite u16_id by lia. rewrite Z.leb_antisym, click_below. done. }
  destruct (Z.ltb_spec (vir + n - 1) (seg_end (p_map_D r))) as [Hlt|Hge]; rewrite Hc by done.
  - replace (vir <? seg_end (p_map_D r)) with true by lia. cbn [negb]. by replace (vir + n <=? seg_end (p_map_D r)) with true by lia.
  - replace (vir + n <=? seg_end (p_map_D r)) with false by lia. replace (seg_end (p_map_D r) <? vir + n) with true by lia.
    rewrite andb_true_r. cbn [orb]. by destruct (vir <? seg_end (p_map_S r)).
Qed.
Definition low_row : proc := zero_proc <| p_map_D := MemMap 200 200 50 |> <| p_map_S := MemMap 250 250 20 |>.
Lemma umap_checks_exact_witness : umap low_row D_SEG 1280 100 = 1280 ∧ umap low_row D_SEG 69000 100000 = 69000.
Proof.
  split.
  - refine (eq_trans (umap_checks_exact low_row 1280 100 eq_refl _ _ _ _ _) eq_refl); try lia; unfold map_wf, low_row; cbn; lia.
  - refine (eq_trans (umap_checks_exact low_row 69000 100000 eq_refl _ _ _ _ _) eq_refl); try lia; unfold map_wf, low_row; cbn; lia.
Defined.

(** ** Concrete states

    MM has the clicks 100 to 149; process 5 the data 200 to 249 and the stack
    250 to 269; the message of the system task is [m]. *)
Definition mem_state (m : message) (c : Z → Z) : sysst :=
  sys_of ((zero_kernel 0) <| mess := λ _, m |> <| clicks := c |>
    <| procs := <[5 := low_row]> (<[0 := zero_proc <| p_map_D := MemMap 100 100 50 |> <| p_map_S := MemMap 150 150 0 |>]> (λ _, zero_proc)) |>).

Definition copy_mess : message := Message 0 SYS_COPY 257 0 5 25700 51300 10 0.
Lemma do_copy_exact_witness :
  ∃ s', do_copy (mem_state copy_mess (λ k, k)) = Ret OK s' ∧
    ∀ b, mem_byte (clicks (kern s')) b =
      if (51300 <=? b) && (b <? 51300 + 10) then mem_byte (λ k, k) (25700 + (b - 51300)) else mem_byte (λ k, k) b.
Proof.
  destruct (do_copy_exact (mem_state copy_mess (λ k, k)) copy_mess eq_refl eq_refl eq_refl ltac:(left; vm_compute; discriminate))
    as (s' & E & _ & _ & Hb).
  exists s'. split; [exact E|exact Hb].
Defined.

Definition times_state : sysst :=
  (mem_state (Message 0 SYS_TIMES 5 0 0 0 0 0 0) (λ _, 0)) <| realtime := 70000 |> <| pending_ticks := 3 |>
    <| pinfo_of := λ _, zero_info <| user_time := 100000 |> <| sys_time := -1 |> |>.
Lemma do_times_reply_witness :
  ∃ s', do_times times_state = Ret OK s' ∧ m4 (mess (kern s') (sys_m (kern s'))) = [100000; -1; 0; 0; 70003].
Proof.
  destruct (do_times_reply times_state eq_refl ltac:(unfold is_long; cbn; lia)) as (s' & E & _ & _ & H).
  exists s'. split; [exact E|exact H].
Defined.

Definition fork_mess : message := Message 0 SYS_FORK 5 7 1234 0 0 0 0.
Lemma do_fork_child_witness :
  ∃ s', do_fork (mem_state fork_mess (λ _, 0)) = Ret OK s' ∧ p_pid (pinfo_of s' 7) = 1234 ∧ p_map_S (procs (kern s') 7) = MemMap 250 250 20.
Proof.
  destruct (do_fork_child (mem_state fork_mess (λ _, 0)) 5 7 eq_refl eq_refl ltac:(done)) as (s' & E & Er & (Hpid & _) & _).
  exists s'. rewrite Er. split; [exact E|]. split; [exact Hpid|reflexivity].
Defined.

(** MM asks for signal 14 of process 5 with the stack pointer 69000; then the
    process asks to return from it. *)
Definition sig_state : sysst :=
  mem_state (Message 0 SYS_SENDSIG 5 0 0 25600 0 0 0)
    (patch 25600 18 (λ b, nth (Z.to_nat (b - 25600)) (w16 14 ++ w32 0 ++ w32 51200 ++ w32 51264 ++ w32 69000) 0) (λ _, 0)).
Definition sig_sent : sysst := match do_sendsig sig_state with Ret _ s => s | _ => sig_state end.
Definition sig_back (s : sysst) : sysst :=
  s <| kern := (kern s) <| mess := λ _, Message 0 SYS_SIGRETURN 5 0 0 68922 0 0 0 |> |>.
Lemma sig_back_ok s : procs (kern (sig_back s)) = procs (kern s) ∧ clicks (kern (sig_back s)) = clicks (kern s) ∧
  m1_i1 (mess (kern (sig_back s)) (sys_m (kern (sig_back s)))) = 5 ∧ m1_p1 (mess (kern (sig_back s)) (sys_m (kern (sig_back s)))) = 68922.
Proof. by split_and!. Qed.
Lemma sig_sent_ok : do_sendsig sig_state = Ret OK sig_sent.
Proof.
  assert (H : match do_sendsig sig_state with Ret r _ => r =? OK | _ => false end = true) by (vm_compute; reflexivity).
  unfold sig_sent. destruct (do_sendsig sig_state) as [r s'| | |]; try discriminate. apply Z.eqb_eq in H. by rewrite H.
Qed.
Lemma sig_state_ok : scp_of sig_state = 68922 ∧ umap (procs (kern sig_state) 5) D_SEG 68922 SIGCONTEXT_SIZE = 68922.
Proof. split; vm_compute; reflexivity. Qed.
Lemma sigreturn_restores_witness :
  ∃ s3, do_sigreturn (sig_back sig_sent) = Ret OK s3 ∧
    ∀ n, 0 <= n < 17 → regs (p_reg (pinfo_of s3 5)) n = regs (p_reg (pinfo_of sig_state 5)) n.
Proof.
  pose proof sig_sent_ok as Hs. destruct sig_state_ok as [H1 H2]. destruct (sig_back_ok sig_sent) as (B1 & B2 & B3 & B4).
  revert Hs B1 B2 B3 B4. generalize sig_sent. intros s1 Hs B1 B2 B3 B4.
  assert (G1 : m1_i1 (mess (kern sig_state) (sys_m (kern sig_state))) = 5) by exact eq_refl.
  assert (G2 : userp 5) by (unfold userp, LOW_USER, NR_PROCS; lia).
  assert (G3 : frame_wf (p_reg (pinfo_of sig_state 5))) by (split; [intros n _; cbn; lia|cbn; lia]).
  assert (G4 : SIGFRAME_SIZE <= scp_of sig_state ∧ SIGFRAME_SIZE <= umap (procs (kern sig_state) 5) D_SEG (scp_of sig_state) SIGCONTEXT_SIZE).
  { rewrite H1, H2. unfold SIGFRAME_SIZE; lia. }
  assert (G5 : procs (kern (sig_back s1)) 5 = procs (kern s1) 5) by (rewrite B1; exact eq_refl).
  destruct (sigreturn_restores sig_state s1 (sig_back s1) 5 G1 G2 G3 G4 Hs G5) as (s3 & E & _ & Hr & _).
  { intros b _. rewrite B2. exact eq_refl. }
  { rewrite H1. exact (conj B3 B4). }
  exists s3. split; [exact E|exact Hr].
Defined.
