(* ===== verification/Tty.v ===== *)
(** * The terminal task: lines, input and pseudo terminals

    The first part of kernel/tty.c, and kernel/pty.c: the input queue with its
    erase, kill, signal and flow control characters, the echo, the output
    processing, the timers, and the pseudo terminals that pass bytes between a
    terminal line and the process on its other side.  The functions of the
    screen and of the serial lines are called through pointers in the code; they
    are the class [Lines] here.  The requests on terminals are in Ttycall.v. *)

From S2P Require Import Prelude Sigset Proc Alloc Ksys.

(** ** Constants *)
Definition TTY : Z := -11.
Definition NR_CONS : Z := 3.
Definition NR_RS_LINES : Z := 1.
Definition NR_PTYS : Z := 8.
Definition NR_TTYS : Z := NR_CONS + NR_RS_LINES + NR_PTYS.
Definition TTY_IN_BYTES : Z := 256.
Definition TAB_SIZE : Z := 8.
Definition TAB_MASK : Z := 7.
Definition OBUF_SIZE : Z := 128.
Definition HZ10 : Z := 6.
Definition TIME_NEVER : Z := 2 ^ 31 - 1.
Definition REVIVE : Z := 67.
Definition TASK_REPLY : Z := 68.
Definition SUSPEND : Z := -998.
Definition EINTR : Z := -4.
Definition ENXIO : Z := -6.
Definition EAGAIN : Z := -11.
Definition EACCES : Z := -13.
Definition ENOTTY : Z := -25.
Definition SIGHUP : Z := 1.
Definition SIGINT : Z := 2.
Definition SIGQUIT : Z := 3.
(** Characters of the input queue. *)
Definition IN_CHAR : Z := 0x00FF.
Definition IN_LEN : Z := 0x0F00.
Definition IN_LSHIFT : Z := 8.
Definition IN_EOT : Z := 0x1000.
Definition IN_EOF : Z := 0x2000.
Definition IN_ESC : Z := 0x4000.
Definition POSIX_VDISABLE : Z := 0xFF.
(** c_iflag *)
Definition ICRNL : Z := 0x0002.
Definition IGNCR : Z := 0x0008.
Definition INLCR : Z := 0x0020.
Definition ISTRIP : Z := 0x0080.
Definition IXON : Z := 0x0200.
Definition IXANY : Z := 0x0800.
(** c_oflag *)
Definition OPOST : Z := 0x0001.
Definition ONLCR : Z := 0x0002.
Definition XTABS : Z := 0x0004.
(** c_lflag *)
Definition ECHO : Z := 0x0001.
Definition ECHOE : Z := 0x0002.
Definition ECHOK : Z := 0x0004.
Definition ECHONL : Z := 0x0008.
Definition ICANON : Z := 0x0010.
Definition IEXTEN : Z := 0x0020.
Definition ISIG : Z := 0x0040.
Definition NOFLSH : Z := 0x0080.
(** Indices of c_cc. *)
Definition VEOF : Z := 0.
Definition VEOL : Z := 1.
Definition VERASE : Z := 2.
Definition VINTR : Z := 3.
Definition VKILL : Z := 4.
Definition VMIN : Z := 5.
Definition VQUIT : Z := 6.
Definition VTIME : Z := 7.
Definition VSUSP : Z := 8.
Definition VSTART : Z := 9.
Definition VSTOP : Z := 10.
Definition VREPRINT : Z := 11.
Definition VLNEXT : Z := 12.
Definition VDISCARD : Z := 13.
(** Characters. *)
Definition BEL : Z := 7.
Definition BS : Z := 8.
Definition TAB : Z := 9.
Definition LF : Z := 10.
Definition CR : Z := 13.
Definition SPACE : Z := 32.
Definition DEL : Z := 127.
Definition CARET : Z := 94.
Definition QUESTION : Z := 63.
Definition AT : Z := 64.

(** ** Data *)
Record termios := Termios {
  c_iflag : Z; c_oflag : Z; c_cflag : Z; c_lflag : Z; c_ispeed : Z; c_ospeed : Z; c_cc : Z → Z }.
#[export] Instance eta_termios : Eta termios := λ r,
  Termios r.(c_iflag) r.(c_oflag) r.(c_cflag) r.(c_lflag) r.(c_ispeed) r.(c_ospeed) r.(c_cc).
#[export] Instance upd_c_iflag : Upd c_iflag := ltac:(derive_upd).
#[export] Instance upd_c_oflag : Upd c_oflag := ltac:(derive_upd).
#[export] Instance upd_c_cflag : Upd c_cflag := ltac:(derive_upd).
#[export] Instance upd_c_lflag : Upd c_lflag := ltac:(derive_upd).
#[export] Instance upd_c_ispeed : Upd c_ispeed := ltac:(derive_upd).
#[export] Instance upd_c_ospeed : Upd c_ospeed := ltac:(derive_upd).
#[export] Instance upd_c_cc : Upd c_cc := ltac:(derive_upd).

Record winsize := Winsize { ws_row : Z; ws_col : Z; ws_xpixel : Z; ws_ypixel : Z }.

(** The pointers into [tty_inbuf] are indices. *)
Record tty := Tty {
  tty_events : bool;
  tty_inhead : Z;
  tty_intail : Z;
  tty_incount : Z;
  tty_eotct : Z;
  tty_active : bool;
  tty_min : Z;
  tty_time : Z;
  tty_timenext : option Z;
  tty_position : Z;
  tty_reprint : bool;
  tty_escaped : bool;
  tty_inhibited : bool;
  tty_pgrp : Z;
  tty_openct : Z;
  tty_inrepcode : Z;
  tty_incaller : Z;
  tty_inproc : Z;
  tty_in_vir : Z;
  tty_inleft : Z;
  tty_incum : Z;
  tty_outrepcode : Z;
  tty_outcaller : Z;
  tty_outproc : Z;
  tty_out_vir : Z;
  tty_outleft : Z;
  tty_outcum : Z;
  tty_iocaller : Z;
  tty_ioproc : Z;
  tty_ioreq : Z;
  tty_iovir : Z;
  tty_termios : termios;
  tty_winsize : winsize;
  tty_inbuf : Z → Z
}.
#[export] Instance eta_tty : Eta tty := λ r,
  Tty r.(tty_events) r.(tty_inhead) r.(tty_intail) r.(tty_incount) r.(tty_eotct) r.(tty_active) r.(tty_min) r.(tty_time)
    r.(tty_timenext) r.(tty_position) r.(tty_reprint) r.(tty_escaped) r.(tty_inhibited) r.(tty_pgrp) r.(tty_openct)
    r.(tty_inrepcode) r.(tty_incaller) r.(tty_inproc) r.(tty_in_vir) r.(tty_inleft) r.(tty_incum) r.(tty_outrepcode)
    r.(tty_outcaller) r.(tty_outproc) r.(tty_out_vir) r.(tty_outleft) r.(tty_outcum) r.(tty_iocaller) r.(tty_ioproc)
    r.(tty_ioreq) r.(tty_iovir) r.(tty_termios) r.(tty_winsize) r.(tty_inbuf).
#[export] Instance upd_tty_events : Upd tty_events := ltac:(derive_upd).
#[export] Instance upd_tty_inhead : Upd tty_inhead := ltac:(derive_upd).
#[export] Instance upd_tty_intail : Upd tty_intail := ltac:(derive_upd).
#[export] Instance upd_tty_incount : Upd tty_incount := ltac:(derive_upd).
#[export] Instance upd_tty_eotct : Upd tty_eotct := ltac:(derive_upd).
#[export] Instance upd_tty_active : Upd tty_active := ltac:(derive_upd).
#[export] Instance upd_tty_min : Upd tty_min := ltac:(derive_upd).
#[export] Instance upd_tty_time : Upd tty_time := ltac:(derive_upd).
#[export] Instance upd_tty_timenext : Upd tty_timenext := ltac:(derive_upd).
#[export] Instance upd_tty_position : Upd tty_position := ltac:(derive_upd).
#[export] Instance upd_tty_reprint : Upd tty_reprint := ltac:(derive_upd).
#[export] Instance upd_tty_escaped : Upd tty_escaped := ltac:(derive_upd).
#[export] Instance upd_tty_inhibited : Upd tty_inhibited := ltac:(derive_upd).
#[export] Instance upd_tty_pgrp : Upd tty_pgrp := ltac:(derive_upd).
#[export] Instance upd_tty_openct : Upd tty_openct := ltac:(derive_upd).
#[export] Instance upd_tty_inrepcode : Upd tty_inrepcode := ltac:(derive_upd).
#[export] Instance upd_tty_incaller : Upd tty_incaller := ltac:(derive_upd).
#[export] Instance upd_tty_inproc : Upd tty_inproc := ltac:(derive_upd).
#[export] Instance upd_tty_in_vir : Upd tty_in_vir := ltac:(derive_upd).
#[export] Instance upd_tty_inleft : Upd tty_inleft := ltac:(derive_upd).
#[export] Instance upd_tty_incum : Upd tty_incum := ltac:(derive_upd).
#[export] Instance upd_tty_outrepcode : Upd tty_outrepcode := ltac:(derive_upd).
#[export] Instance upd_tty_outcaller : Upd tty_outcaller := ltac:(derive_upd).
#[export] Instance upd_tty_outproc : Upd tty_outproc := ltac:(derive_upd).
#[export] Instance upd_tty_out_vir : Upd tty_out_vir := ltac:(derive_upd).
#[export] Instance upd_tty_outleft : Upd tty_outleft := ltac:(derive_upd).
#[export] Instance upd_tty_outcum : Upd tty_outcum := ltac:(derive_upd).
#[export] Instance upd_tty_iocaller : Upd tty_iocaller := ltac:(derive_upd).
#[export] Instance upd_tty_ioproc : Upd tty_ioproc := ltac:(derive_upd).
#[export] Instance upd_tty_ioreq : Upd tty_ioreq := ltac:(derive_upd).
#[export] Instance upd_tty_iovir : Upd tty_iovir := ltac:(derive_upd).
#[export] Instance upd_tty_termios : Upd tty_termios := ltac:(derive_upd).
#[export] Instance upd_tty_winsize : Upd tty_winsize := ltac:(derive_upd).
#[export] Instance upd_tty_inbuf : Upd tty_inbuf := ltac:(derive_upd).

(** One pseudo terminal; the pointers into [obuf] are indices. *)
Record pty := Pty {
  state : Z;
  rdrepcode : Z; rdcaller : Z; rdproc : Z; rdvir : Z; rdleft : Z; rdcum : Z;
  wrrepcode : Z; wrcaller : Z; wrproc : Z; wrvir : Z; wrleft : Z; wrcum : Z;
  ocount : Z; ohead : Z; otail : Z; obuf : Z → Z }.
#[export] Instance eta_pty : Eta pty := λ r,
  Pty r.(state) r.(rdrepcode) r.(rdcaller) r.(rdproc) r.(rdvir) r.(rdleft) r.(rdcum) r.(wrrepcode) r.(wrcaller) r.(wrproc)
    r.(wrvir) r.(wrleft) r.(wrcum) r.(ocount) r.(ohead) r.(otail) r.(obuf).
#[export] Instance upd_state : Upd state := ltac:(derive_upd).
#[export] Instance upd_rdrepcode : Upd rdrepcode := ltac:(derive_upd).
#[export] Instance upd_rdcaller : Upd rdcaller := ltac:(derive_upd).
#[export] Instance upd_rdproc : Upd rdproc := ltac:(derive_upd).
#[export] Instance upd_rdvir : Upd rdvir := ltac:(derive_upd).
#[export] Instance upd_rdleft : Upd rdleft := ltac:(derive_upd).
#[export] Instance upd_rdcum : Upd rdcum := ltac:(derive_upd).
#[export] Instance upd_wrrepcode : Upd wrrepcode := ltac:(derive_upd).
#[export] Instance upd_wrcaller : Upd wrcaller := ltac:(derive_upd).
#[export] Instance upd_wrproc : Upd wrproc := ltac:(derive_upd).
#[export] Instance upd_wrvir : Upd wrvir := ltac:(derive_upd).
#[export] Instance upd_wrleft : Upd wrleft := ltac:(derive_upd).
#[export] Instance upd_wrcum : Upd wrcum := ltac:(derive_upd).
#[export] Instance upd_ocount : Upd ocount := ltac:(derive_upd).
#[export] Instance upd_ohead : Upd ohead := ltac:(derive_upd).
#[export] Instance upd_otail : Upd otail := ltac:(derive_upd).
#[export] Instance upd_obuf : Upd obuf := ltac:(derive_upd).
Definition PTY_ACTIVE : Z := 1.
Definition TTY_CLOSED : Z := 2.
Definition PTY_CLOSED : Z := 4.

(** A reply to a request: to the process it is for, or the old form of ioctl. *)
Inductive reply :=
| Reply (code proc_nr status : Z)
| Compat_reply (proc_nr status erki flags : Z).

(** The state of the task: the kernel (memory, processes, time), the lines, and
    the replies sent, the last one first. *)
Record ttyst := Ttyst {
  sys : sysst;
  tty_table : Z → tty;
  tty_timelist : option Z;
  pty_table : Z → pty;
  sent : list (Z * reply)
}.
#[export] Instance eta_ttyst : Eta ttyst := λ r,
  Ttyst r.(sys) r.(tty_table) r.(tty_timelist) r.(pty_table) r.(sent).
#[export] Instance upd_sys : Upd sys := ltac:(derive_upd).
#[export] Instance upd_tty_table : Upd tty_table := ltac:(derive_upd).
#[export] Instance upd_tty_timelist : Upd tty_timelist := ltac:(derive_upd).
#[export] Instance upd_pty_table : Upd pty_table := ltac:(derive_upd).
#[export] Instance upd_sent : Upd sent := ltac:(derive_upd).
#[export] Instance upd_tty_timeout : Upd tty_timeout := ltac:(derive_upd).

Notation TM := (M ttyst).

(** The status of [send] for each message, by the messages sent so far; the
    bytes of the old ioctl replies that are not initialised; a bound for the
    events of a line. *)
Class TtyWorld := { send_status : list (Z * reply) → Z; junk : Z; patience : nat }.
(** The functions of the screen and of the serial lines. *)
Class Lines := {
  dev_init : Z → TM unit;
  dev_echo : Z → Z → TM unit;
  dev_icancel : Z → TM unit;
  dev_ocancel : Z → TM unit;
  dev_ioctl_fn : Z → TM unit;
  dev_close : Z → TM unit;
  dev_break : Z → option (TM unit);
  vdu_loadfont : message → TM Z
}.

(** An operation on the kernel. *)
Definition kcall {A} (m : SM A) : TM A := λ s,
  match m (sys s) with
  | Ret a k => Ret a (s <| sys := k |>)
  | Panic w n => Panic w n
  | Fault => Fault
  | NoFuel => NoFuel
  end.
Definition line (tp : Z) : TM tty := gets (λ s, tty_table s tp).
Definition tset (tp : Z) (g : tty → tty) : TM unit :=
  modify (λ s, s <| tty_table := <[tp := g (tty_table s tp)]> (tty_table s) |>).
(** The pseudo terminal of a line, [tp->tty_priv]. *)
Definition is_pty (tp : Z) : bool := NR_CONS + NR_RS_LINES <=? tp.
Definition pty_nr (tp : Z) : Z := tp - (NR_CONS + NR_RS_LINES).
Definition the_pty (tp : Z) : TM pty := gets (λ s, pty_table s (pty_nr tp)).
Definition pset (tp : Z) (g : pty → pty) : TM unit :=
  modify (λ s, s <| pty_table := <[pty_nr tp := g (pty_table s (pty_nr tp))]> (pty_table s) |>).

Definition iflag (t : tty) : Z → bool := has (c_iflag (tty_termios t)).
Definition oflag (t : tty) : Z → bool := has (c_oflag (tty_termios t)).
Definition lflag (t : tty) : Z → bool := has (c_lflag (tty_termios t)).
Definition cc (t : tty) (n : Z) : Z := c_cc (tty_termios t) n.

(** [*p] for a pointer into the input queue. *)
Definition inq_get (tp i : Z) : TM Z :=
  if (0 <=? i) && (i <? TTY_IN_BYTES) then gets (λ s, tty_inbuf (tty_table s tp) i) else fault.
Definition inq_set (tp i v : Z) : TM unit :=
  if (0 <=? i) && (i <? TTY_IN_BYTES) then tset tp (λ t, t <| tty_inbuf := <[i := u16 v]> (tty_inbuf t) |>) else fault.
(** [if (++p == bufend) p = buf;] and its reverse. *)
Definition next_in (i : Z) : Z := if i + 1 =? TTY_IN_BYTES then 0 else i + 1.
Definition prev_in (i : Z) : Z := (if i =? 0 then TTY_IN_BYTES else i) - 1.

(** [proc_vir2phys(proc_addr(p), vir)] *)
Definition proc_vir2phys (r : proc) (vir : Z) : Z :=
  u32 (vir + if isshadowp r then u32 (Z.shiftl (p_shadow r) CLICK_SHIFT) - u32 (Z.shiftl (mem_phys (p_map_D r)) CLICK_SHIFT) else 0).
Definition user_addr (p vir : Z) : TM Z := kcall (rp ← lift (proc_addr p); r ← row rp; mret (proc_vir2phys r vir)).

Section tty.
Context `{TtyWorld} `{Lines}.

(** ** Replies and signals *)
Definition tty_send (dst : Z) (r : reply) : TM Z :=
  modify (λ s, s <| sent := (dst, r) :: sent s |>);;
  gets (λ s, send_status (sent s)).
Definition tty_reply (code replyee proc_nr status : Z) : TM unit :=
  st ← tty_send replyee (Reply code proc_nr status);
  if st =? OK then mret tt else panic "tty_reply failed, status" st.
(** The replies to the reader and to the writer of a line. *)
Definition reply_in (tp status : Z) : TM unit :=
  t ← line tp; tty_reply (tty_inrepcode t) (tty_incaller t) (tty_inproc t) status.
Definition reply_out (tp status : Z) : TM unit :=
  t ← line tp; tty_reply (tty_outrepcode t) (tty_outcaller t) (tty_outproc t) status.

(** ** Output processing *)

(** The loop variables of [out_process]: the buffer, [bpos], [ict], [oct] and
    [pos]. *)
Definition ostate : Type := (Z → Z) * Z * Z * Z * Z.
Definition next_out (bend p : Z) : Z := if p + 1 =? bend then 0 else p + 1.
Definition out_get (bend p : Z) (buf : Z → Z) : TM Z :=
  if (0 <=? p) && (p <? bend) then mret (buf p) else fault.
Definition out_put (bend p c : Z) (buf : Z → Z) : TM (Z → Z) :=
  if (0 <=? p) && (p <? bend) then mret (<[p := c]> buf) else fault.

Definition has_both (x f g : Z) : bool := has x f && has x g.

Definition out_step (flags bend : Z) (x : ostate) : TM (ostate + ostate) :=
  let '(buf, bpos, ict, oct, pos) := x in
  if ict <=? 0 then mret (inr x) else
  c ← out_get bend bpos buf;
  let direct pos := mret (inl (buf, next_out bend bpos, ict - 1, oct - 1, pos)) in
  if c =? BEL then direct pos
  else if c =? BS then direct (pos - 1)
  else if c =? CR then direct 0
  else if c =? LF then
    if has_both flags OPOST ONLCR then
      if 2 <=? oct then
        buf ← out_put bend bpos CR buf;
        let bpos := next_out bend bpos in
        buf ← out_put bend bpos LF buf;
        mret (inr (buf, bpos, ict - 1, oct - 2, 0))
      else mret (inr x)
    else direct pos
  else if c =? TAB then
    let tablen := TAB_SIZE - Z.land pos TAB_MASK in
    if has_both flags OPOST XTABS then
      if tablen <=? oct then
        '(buf, bpos) ← fold_m (λ '(buf, bpos) _, buf ← out_put bend bpos SPACE buf; mret (buf, next_out bend bpos))
                              (buf, bpos) (seqZ 0 tablen);
        mret (inr (buf, bpos, ict - 1, oct - tablen, pos + tablen))
      else mret (inr x)
    else direct (pos + tablen)
  else direct (pos + 1).

(** The new buffer, and the numbers of characters used and made. *)
Definition out_process (tp : Z) (buf : Z → Z) (bend bpos icount ocount : Z) : TM ((Z → Z) * Z * Z) :=
  t ← line tp;
  '(buf, _, ict, oct, pos) ← loop (S (Z.to_nat icount)) (out_step (c_oflag (tty_termios t)) bend)
                               (buf, bpos, icount, ocount, tty_position t);
  tset tp (λ t, t <| tty_position := Z.land pos TAB_MASK |>);;
  mret (buf, icount - ict, ocount - oct).

(** ** Pseudo terminals: the output side *)

(** One copy from the output buffer to the reader. *)
Definition pty_start_step (tp : Z) (_ : unit) : TM (unit + unit) :=
  p ← the_pty tp;
  let count := OBUF_SIZE - otail p in
  let count := if ocount p <? count then ocount p else count in
  let count := if rdleft p <? count then rdleft p else count in
  if count =? 0 then mret (inr tt) else
  user_phys ← user_addr (rdproc p) (rdvir p);
  (if (0 <=? otail p) && (otail p + count <=? OBUF_SIZE)
   then kcall (copy_out (map (obuf p) (seqZ (otail p) count)) user_phys) else fault);;
  pset tp (λ p, p <| ocount := ocount p - count |>
                  <| otail := if otail p + count =? OBUF_SIZE then 0 else otail p + count |>
                  <| rdvir := u32 (rdvir p + count) |> <| rdcum := s16 (rdcum p + count) |> <| rdleft := rdleft p - count |>);;
  mret (inl tt).
Definition pty_start (tp : Z) : TM unit := p ← the_pty tp; loop (S (Z.to_nat (ocount p))) (pty_start_step tp) tt.

Definition pty_finish (tp : Z) : TM unit :=
  p ← the_pty tp;
  when (0 <? rdcum p)
    (tty_reply (rdrepcode p) (rdcaller p) (rdproc p) (rdcum p);;
     pset tp (λ p, p <| rdleft := 0 |> <| rdcum := 0 |>)).

(** [if ((pp->ohead += n) >= bufend(pp->obuf)) pp->ohead -= buflen(pp->obuf);] *)
Definition advance (head n : Z) : Z := if OBUF_SIZE <=? head + n then head + n - OBUF_SIZE else head + n.

Definition pty_echo (tp c : Z) : TM unit :=
  p ← the_pty tp;
  let room := OBUF_SIZE - ocount p in
  if room =? 0 then mret tt else
  buf ← out_put OBUF_SIZE (ohead p) (u8 c) (obuf p);
  '(buf, count, made) ← out_process tp buf OBUF_SIZE (ohead p) 1 room;
  pset tp (λ p, p <| obuf := buf |>);;
  if count =? 0 then mret tt else
  pset tp (λ p, p <| ocount := ocount p + made |> <| ohead := advance (ohead p) made |>);;
  pty_start tp.

(** The body of the loop of [pty_write]. *)
Definition pty_write_step (tp : Z) (_ : unit) : TM (unit + unit) :=
  p ← the_pty tp;
  t ← line tp;
  let room := OBUF_SIZE - ocount p in
  let count := OBUF_SIZE - ohead p in
  let count := if room <? count then room else count in
  let count := if tty_outleft t <? count then tty_outleft t else count in
  if (count =? 0) || tty_inhibited t then mret (inr tt) else
  user_phys ← user_addr (tty_outproc t) (tty_out_vir t);
  l ← kcall (copy_in user_phys count);
  buf ← (if (0 <=? ohead p) && (ohead p + count <=? OBUF_SIZE)
         then mret (λ i, if (ohead p <=? i) && (i <? ohead p + count) then nth (Z.to_nat (i - ohead p)) l 0 else obuf p i)
         else fault);
  '(buf, count, made) ← out_process tp buf OBUF_SIZE (ohead p) count room;
  pset tp (λ p, p <| obuf := buf |>);;
  if count =? 0 then mret (inr tt) else
  tset tp (λ t, t <| tty_reprint := true |>);;
  pset tp (λ p, p <| ocount := ocount p + made |> <| ohead := advance (ohead p) made |>);;
  pty_start tp;;
  tset tp (λ t, t <| tty_out_vir := u32 (tty_out_vir t + count) |> <| tty_outcum := s16 (tty_outcum t + count) |>
                  <| tty_outleft := tty_outleft t - count |>);;
  t ← line tp;
  when (tty_outleft t =? 0)
    (reply_out tp (tty_outcum t);; tset tp (λ t, t <| tty_outcum := 0 |>));;
  mret (inl tt).
Definition pty_write (tp : Z) : TM unit :=
  p ← the_pty tp;
  t ← line tp;
  if has (state p) PTY_CLOSED then
    when (0 <? tty_outleft t)
      (reply_out tp EIO;; tset tp (λ t, t <| tty_outleft := 0 |> <| tty_outcum := 0 |>))
  else
    loop (S (Z.to_nat (tty_outleft t))) (pty_write_step tp) tt;;
    pty_finish tp.

Definition pty_icancel (tp : Z) : TM unit :=
  p ← the_pty tp;
  when (0 <? wrleft p)
    (tty_reply (wrrepcode p) (wrcaller p) (wrproc p) (s16 (wrcum p + wrleft p));;
     pset tp (λ p, p <| wrleft := 0 |> <| wrcum := 0 |>)).
Definition pty_ocancel (tp : Z) : TM unit := pset tp (λ p, p <| ocount := 0 |> <| otail := ohead p |>).
Definition pty_close (tp : Z) : TM unit :=
  p ← the_pty tp;
  if negb (has (state p) PTY_ACTIVE) then mret tt else
  when (0 <? rdleft p)
    (tty_reply (rdrepcode p) (rdcaller p) (rdproc p) 0;; pset tp (λ p, p <| rdleft := 0 |> <| rdcum := 0 |>));;
  p ← the_pty tp;
  when (0 <? wrleft p)
    (tty_reply (wrrepcode p) (wrcaller p) (wrproc p) EIO;; pset tp (λ p, p <| wrleft := 0 |> <| wrcum := 0 |>));;
  pset tp (λ p, p <| state := if has (state p) PTY_CLOSED then 0 else setf (state p) TTY_CLOSED |>).

(** ** The functions of a line *)
Definition tty_echo (tp c : Z) : TM unit := if is_pty tp then pty_echo tp c else dev_echo tp c.
Definition tty_ocancel (tp : Z) : TM unit := if is_pty tp then pty_ocancel tp else dev_ocancel tp.
Definition tty_devicancel (tp : Z) : TM unit := if is_pty tp then pty_icancel tp else dev_icancel tp.
Definition tty_ioctl (tp : Z) : TM unit := if is_pty tp then mret tt else dev_ioctl_fn tp.
Definition tty_close (tp : Z) : TM unit := if is_pty tp then pty_close tp else dev_close tp.
Definition tty_break (tp : Z) : option (TM unit) := if is_pty tp then None else dev_break tp.

Definition sigchar (tp sig : Z) : TM unit :=
  t ← line tp;
  when (negb (tty_pgrp t =? 0)) (kcall (lift (cause_sig (tty_pgrp t) sig)));;
  when (negb (lflag t NOFLSH))
    (tset tp (λ t, t <| tty_incount := 0 |> <| tty_eotct := 0 |> <| tty_intail := tty_inhead t |>);;
     tty_ocancel tp;;
     tset tp (λ t, t <| tty_inhibited := false |> <| tty_events := true |>)).

(** ** Echoing *)
Definition rawecho (tp ch : Z) : TM unit :=
  t ← line tp;
  when (lflag t ECHO) (tty_echo tp ch);;
  tset tp (λ t', t' <| tty_reprint := tty_reprint t |>).

(** [do { echo ' '; len++; } while (len < TAB_SIZE && (tty_position & TAB_MASK) != 0)] *)
Definition echo_tab (tp : Z) : TM Z :=
  r ← for_each (seqZ 0 TAB_SIZE) (λ i,
    tty_echo tp SPACE;;
    t ← line tp;
    mret (if negb (Z.land (tty_position t) TAB_MASK =? 0) then None else Some (i + 1)));
  mret (default TAB_SIZE r).

(** The characters shown for [ch], and how many there are. *)
Definition echo_shown (tp ch : Z) : TM Z :=
  let c := Z.land ch IN_CHAR in
  if c <? SPACE then
    let x := Z.land ch (Z.lor IN_ESC (Z.lor IN_EOF (Z.lor IN_EOT IN_CHAR))) in
    if x =? TAB then echo_tab tp
    else if (x =? Z.lor CR IN_EOT) || (x =? Z.lor LF IN_EOT) then tty_echo tp c;; mret 0
    else tty_echo tp CARET;; tty_echo tp (AT + c);; mret 2
  else if c =? DEL then tty_echo tp CARET;; tty_echo tp QUESTION;; mret 2
  else tty_echo tp c;; mret 1.

Definition echo (tp ch : Z) : TM Z :=
  t ← line tp;
  let ch := clrf ch IN_LEN in
  if negb (lflag t ECHO) then
    when ((ch =? Z.lor LF IN_EOT) && has_both (c_lflag (tty_termios t)) ICANON ECHONL) (tty_echo tp LF);;
    mret ch
  else
    let rp := if tty_incount t =? 0 then false else tty_reprint t in
    len ← echo_shown tp ch;
    len ← (if has ch IN_EOF then fold_m (λ _ _, tty_echo tp BS) tt (seqZ 0 len);; mret 0 else mret len);
    tset tp (λ t, t <| tty_reprint := rp |>);;
    mret (Z.lor ch (Z.shiftl len IN_LSHIFT)).

(** The search of [reprint] for the last line break: [head] and [count]. *)
Definition break_step (tp : Z) (x : Z * Z) : TM (Z * Z + Z * Z) :=
  let '(head, count) := x in
  if count <=? 0 then mret (inr (head, count)) else
  let head := if head =? 0 then TTY_IN_BYTES else head in
  ch ← inq_get tp (head - 1);
  if has ch IN_EOT then mret (inr (head, count)) else mret (inl (head - 1, count - 1)).
Definition reprint_step (tp : Z) (x : Z * Z) : TM (Z * Z + unit) :=
  let '(head, count) := x in
  let head := if head =? TTY_IN_BYTES then 0 else head in
  ch ← inq_get tp head;
  ch ← echo tp ch;
  inq_set tp head ch;;
  t ← line tp;
  if count + 1 <? tty_incount t then mret (inl (head + 1, count + 1)) else mret (inr tt).
Definition in_fuel : nat := S (Z.to_nat TTY_IN_BYTES).
Definition reprint (tp : Z) : TM unit :=
  tset tp (λ t, t <| tty_reprint := false |>);;
  t ← line tp;
  '(head, count) ← loop in_fuel (break_step tp) (tty_inhead t, tty_incount t);
  if count =? tty_incount t then mret tt else
  echo tp (Z.lor (cc t VREPRINT) IN_ESC);;
  rawecho tp CR;;
  rawecho tp LF;;
  loop in_fuel (reprint_step tp) (head, count).

Definition back_over (tp : Z) : TM bool :=
  t ← line tp;
  if tty_incount t =? 0 then mret false else
  let head := prev_in (tty_inhead t) in
  ch ← inq_get tp head;
  if has ch IN_EOT then mret false else
  when (tty_reprint t) (reprint tp);;
  tset tp (λ t, t <| tty_inhead := head |> <| tty_incount := tty_incount t - 1 |>);;
  when (lflag t ECHOE)
    (ch ← inq_get tp head;
     fold_m (λ _ _, rawecho tp BS;; rawecho tp SPACE;; rawecho tp BS) tt
            (seqZ 0 (Z.shiftr (Z.land ch IN_LEN) IN_LSHIFT)));;
  mret true.

(** ** Timers: the list of the lines by the time of their timers *)

(** [*ptp = x], for the head of the list or the link of the line [prev]. *)
Definition set_link (prev : option Z) (x : option Z) : TM unit :=
  match prev with
  | None => modify (λ s, s <| tty_timelist := x |>)
  | Some q => tset q (λ t, t <| tty_timenext := x |>)
  end.
(** The two loops over the list: [ptp] is given by the line before and [*ptp]. *)
Definition unlink_timer (tp : Z) (x : option Z * option Z) : TM (option Z * option Z + unit) :=
  let '(prev, cur) := x in
  match cur with
  | None => mret (inr tt)
  | Some q =>
      t ← line q;
      if tp =? q then set_link prev (tty_timenext t);; mret (inr tt) else mret (inl (Some q, tty_timenext t))
  end.
Definition find_timer (time : Z) (x : option Z * option Z) : TM (option Z * option Z + option Z * option Z) :=
  let '(prev, cur) := x in
  match cur with
  | None => mret (inr x)
  | Some q => t ← line q; if time <=? tty_time t then mret (inr x) else mret (inl (Some q, tty_timenext t))
  end.
Definition time_fuel : nat := S (Z.to_nat NR_TTYS).
Definition settimer (tp : Z) (on : bool) : TM unit :=
  head ← gets tty_timelist;
  loop time_fuel (unlink_timer tp) (None, head);;
  if negb on then mret tt else
  now ← kcall get_uptime;
  t ← line tp;
  let time := s32 (now + cc t VTIME * HZ10) in
  tset tp (λ t, t <| tty_time := time |>);;
  head ← gets tty_timelist;
  '(prev, cur) ← loop time_fuel (find_timer time) (None, head);
  tset tp (λ t, t <| tty_timenext := cur |>);;
  set_link prev (Some tp);;
  timeout ← gets (λ s, tty_timeout (sys s));
  when (time <? timeout) (modify (λ s, s <| sys := (sys s) <| tty_timeout := time |> |>)).

(** ** From the queue to the reader *)

(** The bytes of [buf] go to the reader. *)
Definition give (tp base : Z) (buf : list Z) : TM unit :=
  t ← line tp;
  kcall (copy_out buf (u32 (base + tty_in_vir t)));;
  tset tp (λ t, t <| tty_in_vir := u32 (tty_in_vir t + Z.of_nat (length buf)) |>
                  <| tty_incum := s16 (tty_incum t + Z.of_nat (length buf)) |>).

Definition transfer_step (tp base : Z) (buf : list Z) : TM (list Z + list Z) :=
  t ← line tp;
  if negb ((0 <? tty_inleft t) && (0 <? tty_eotct t)) then mret (inr buf) else
  ch ← inq_get tp (tty_intail t);
  buf ← (if has ch IN_EOF then mret buf else
           tset tp (λ t, t <| tty_inleft := tty_inleft t - 1 |>);;
           let buf := buf ++ [Z.land ch IN_CHAR] in
           if Z.of_nat (length buf) =? 64 then give tp base buf;; mret [] else mret buf);
  tset tp (λ t, t <| tty_intail := next_in (tty_intail t) |> <| tty_incount := tty_incount t - 1 |>);;
  when (has ch IN_EOT)
    (tset tp (λ t, t <| tty_eotct := tty_eotct t - 1 |>);;
     when (lflag t ICANON) (tset tp (λ t, t <| tty_inleft := 0 |>)));;
  mret (inl buf).
Definition in_transfer (tp : Z) : TM unit :=
  t ← line tp;
  if (tty_inleft t =? 0) || (tty_eotct t <? tty_min t) then mret tt else
  base ← user_addr (tty_inproc t) 0;
  buf ← loop in_fuel (transfer_step tp base) [];
  when (negb (bool_decide (buf = []))) (give tp base buf);;
  t ← line tp;
  when (tty_inleft t =? 0)
    (reply_in tp (tty_incum t);; tset tp (λ t, t <| tty_inleft := 0 |> <| tty_incum := 0 |>)).

(** ** Input processing

    One character of [in_process]; its blocks give the changed character, or
    [None] when the character is used up. *)
Definition in_extended (tp ch : Z) : TM (option Z) :=
  t ← line tp;
  if negb (lflag t IEXTEN) then mret (Some ch) else
  ch ← (if tty_escaped t then tset tp (λ t, t <| tty_escaped := false |>);; mret (Z.lor ch IN_ESC) else mret ch);
  if ch =? cc t VLNEXT then
    tset tp (λ t, t <| tty_escaped := true |>);;
    rawecho tp CARET;;
    rawecho tp BS;;
    mret None
  else if ch =? cc t VREPRINT then reprint tp;; mret None
  else mret (Some ch).

Definition in_mapped (t : tty) (ch : Z) : option Z :=
  let ch := if ch =? POSIX_VDISABLE then Z.lor ch IN_ESC else ch in
  if ch =? CR then
    if iflag t IGNCR then None else Some (if iflag t ICRNL then LF else ch)
  else if ch =? LF then Some (if iflag t INLCR then CR else ch)
  else Some ch.

(** [while (back_over(tp)) {}] *)
Definition kill_line (tp : Z) : TM unit :=
  loop in_fuel (λ _, b ← back_over tp; mret (if b : bool then inl tt else inr tt)) tt.

Definition in_canonical (tp ch : Z) : TM (option Z) :=
  t ← line tp;
  if negb (lflag t ICANON) then mret (Some ch) else
  if ch =? cc t VERASE then
    back_over tp;;
    when (negb (lflag t ECHOE)) (echo tp ch;; mret tt);;
    mret None
  else if ch =? cc t VKILL then
    kill_line tp;;
    when (negb (lflag t ECHOE))
      (echo tp ch;; when (lflag t ECHOK) (rawecho tp LF));;
    mret None
  else
    let ch := if ch =? cc t VEOF then Z.lor ch (Z.lor IN_EOT IN_EOF) else ch in
    let ch := if ch =? LF then Z.lor ch IN_EOT else ch in
    mret (Some (if ch =? cc t VEOL then Z.lor ch IN_EOT else ch)).

Definition in_flow (tp ch : Z) : TM (option Z) :=
  t ← line tp;
  if negb (iflag t IXON) then mret (Some ch) else
  if ch =? cc t VSTOP then
    tset tp (λ t, t <| tty_inhibited := true |> <| tty_events := true |>);; mret None
  else if tty_inhibited t && ((ch =? cc t VSTART) || iflag t IXANY) then
    tset tp (λ t, t <| tty_inhibited := false |> <| tty_events := true |>);;
    mret (if ch =? cc t VSTART then None else Some ch)
  else mret (Some ch).

Definition in_signal (tp ch : Z) : TM (option Z) :=
  t ← line tp;
  if lflag t ISIG && ((ch =? cc t VINTR) || (ch =? cc t VQUIT)) then
    sigchar tp (if ch =? cc t VQUIT then SIGQUIT else SIGINT);;
    echo tp ch;;
    mret None
  else mret (Some ch).

(** The character goes into the queue, which has room for it. *)
Definition in_queue (tp ch : Z) : TM unit :=
  t ← line tp;
  inq_set tp (tty_inhead t) ch;;
  tset tp (λ t, t <| tty_inhead := next_in (tty_inhead t) |> <| tty_incount := tty_incount t + 1 |>);;
  when (has ch IN_EOT) (tset tp (λ t, t <| tty_eotct := tty_eotct t + 1 |>));;
  t ← line tp;
  when (tty_incount t =? TTY_IN_BYTES) (in_transfer tp).

(** The rest of the body; [None] leaves the loop.  [timeset] tells if the
    inter-byte timer has been set. *)
Definition in_store (tp ch : Z) (timeset : bool) : TM (option bool) :=
  t ← line tp;
  if tty_incount t =? TTY_IN_BYTES then mret (if lflag t ICANON then Some timeset else None) else
  '(ch, timeset) ← (if lflag t ICANON then mret (ch, timeset) else
    if negb timeset && (0 <? cc t VMIN) && (0 <? cc t VTIME) then settimer tp true;; mret (Z.lor ch IN_EOT, true)
    else mret (Z.lor ch IN_EOT, timeset));
  ch ← (if has (c_lflag (tty_termios t)) (Z.lor ECHO ECHONL) then echo tp ch else mret ch);
  in_queue tp ch;;
  mret (Some timeset).

Definition in_char (tp c : Z) (timeset : bool) : TM (option bool) :=
  t ← line tp;
  let ch := if iflag t ISTRIP then Z.land (u8 c) 0x7F else u8 c in
  r ← in_extended tp ch;
  match r with None => mret (Some timeset) | Some ch =>
  t ← line tp;
  match in_mapped t ch with None => mret (Some timeset) | Some ch =>
  r ← in_canonical tp ch;
  match r with None => mret (Some timeset) | Some ch =>
  r ← in_flow tp ch;
  match r with None => mret (Some timeset) | Some ch =>
  r ← in_signal tp ch;
  match r with None => mret (Some timeset) | Some ch => in_store tp ch timeset
  end end end end end.

Fixpoint in_chars (tp : Z) (l : list Z) (ct : Z) (timeset : bool) : TM Z :=
  match l with
  | [] => mret ct
  | c :: l =>
      r ← in_char tp c timeset;
      match r with Some ts => in_chars tp l (ct + 1) ts | None => mret ct end
  end.
(** The number of the characters of [buf] that were processed. *)
Definition in_process (tp : Z) (buf : list Z) : TM Z := in_chars tp buf 0 false.

(** ** Pseudo terminals: the input side *)
Definition pty_read_step (tp : Z) (_ : unit) : TM (unit + unit) :=
  p ← the_pty tp;
  if wrleft p <=? 0 then mret (inr tt) else
  user_phys ← user_addr (wrproc p) (wrvir p);
  c ← kcall (copy_in user_phys 1);
  n ← in_process tp c;
  if n =? 0 then mret (inr tt) else
  pset tp (λ p, p <| wrvir := u32 (wrvir p + 1) |> <| wrcum := s16 (wrcum p + 1) |> <| wrleft := wrleft p - 1 |>);;
  p ← the_pty tp;
  when (wrleft p =? 0)
    (tty_reply (wrrepcode p) (wrcaller p) (wrproc p) (wrcum p);; pset tp (λ p, p <| wrcum := 0 |>));;
  mret (inl tt).
Definition pty_read (tp : Z) : TM unit :=
  p ← the_pty tp;
  t ← line tp;
  if has (state p) PTY_CLOSED then
    when (0 <? tty_inleft t)
      (reply_in tp (tty_incum t);; tset tp (λ t, t <| tty_inleft := 0 |> <| tty_incum := 0 |>))
  else loop (S (Z.to_nat (wrleft p))) (pty_read_step tp) tt.
End tty.
