(* ===== verification/Ttycall.v ===== *)
(** * The terminal task: requests

    The rest of kernel/tty.c: the attributes of a line, the handling of events,
    the requests of the file system on terminals and pseudo terminals, and the
    main loop.  The input and output routines of the screen and of the serial
    lines are the class [Events]. *)

From S2P Require Import Prelude Sigset Proc Alloc Ksys Tty.

(** ** Constants *)
Definition CANCEL : Z := 0.
Definition DEV_READ : Z := 3.
Definition DEV_WRITE : Z := 4.
Definition DEV_IOCTL : Z := 5.
Definition DEV_OPEN : Z := 6.
Definition DEV_CLOSE : Z := 7.
Definition R_BIT : Z := 4.
Definition W_BIT : Z := 2.
Definition O_NOCTTY : Z := 0x100.
Definition O_NONBLOCK : Z := 0x800.
Definition CONS_MINOR : Z := 0.
Definition LOG_MINOR : Z := 15.
Definition RS232_MINOR : Z := 16.
Definition TTYPX_MINOR : Z := 128.
Definition PTYPX_MINOR : Z := 192.
(** Requests of [do_ioctl]: a letter and a number. *)
Definition ioc (x y : Z) : Z := x * 256 + y.
Definition TCGETS : Z := ioc 84 8.
Definition TCSETS : Z := ioc 84 9.
Definition TCSETSW : Z := ioc 84 10.
Definition TCSETSF : Z := ioc 84 11.
Definition TCSBRK : Z := ioc 84 12.
Definition TCDRAIN : Z := ioc 84 13.
Definition TCFLOW : Z := ioc 84 14.
Definition TCFLSH : Z := ioc 84 15.
Definition TIOCGWINSZ : Z := ioc 84 16.
Definition TIOCSWINSZ : Z := ioc 84 17.
Definition TIOCGPGRP : Z := ioc 84 18.
Definition TIOCSPGRP : Z := ioc 84 19.
Definition TIOCGETP : Z := ioc 116 1.
Definition TIOCSETP : Z := ioc 116 2.
Definition TIOCGETC : Z := ioc 116 3.
Definition TIOCSETC : Z := ioc 116 4.
Definition VDU_LOADFONT : Z := ioc 70 0.
Definition TCOOFF : Z := 1.
Definition TCOON : Z := 2.
Definition TCIOFF : Z := 3.
Definition TCION : Z := 4.
Definition TCIFLUSH : Z := 1.
Definition TCOFLUSH : Z := 2.
Definition TCIOFLUSH : Z := 3.
(** c_cflag *)
Definition CREAD : Z := 0x0002.
Definition CSIZE : Z := 0x000C.
Definition CS8 : Z := 0x000C.
Definition HUPCL : Z := 0x0020.
Definition PARENB : Z := 0x0040.
Definition PARODD : Z := 0x0080.
Definition BRKINT : Z := 0x0001.
(** Speeds. *)
Definition B0 : Z := 0x0000.
Definition B150 : Z := 0x5000.
Definition B9600 : Z := 0xD000.

Definition termios_defaults : termios :=
  Termios (Z.lor BRKINT (Z.lor ICRNL (Z.lor IXON IXANY))) (Z.lor OPOST ONLCR) (Z.lor CREAD (Z.lor CS8 HUPCL))
    (Z.lor ISIG (Z.lor IEXTEN (Z.lor ICANON (Z.lor ECHO ECHOE)))) B9600 B9600
    (λ n, nth (Z.to_nat n) [4; POSIX_VDISABLE; 8; 127; 21; 1; 28; 0; 26; 17; 19; 18; 22; 15] 0).
Definition winsize_defaults : winsize := Winsize 0 0 0 0.

(** ** Structures as bytes *)
Definition TERMIOS_SIZE : Z := 32.
Definition WINSIZE_SIZE : Z := 8.
Definition SG_SIZE : Z := 6.
Definition termios_bytes (t : termios) : list Z :=
  w16 (c_iflag t) ++ w16 (c_oflag t) ++ w16 (c_cflag t) ++ w16 (c_lflag t) ++ w16 (c_ispeed t) ++ w16 (c_ospeed t) ++
  map (λ n, u8 (c_cc t n)) (seqZ 0 20).
Definition termios_of (l : list Z) : termios :=
  Termios (r16 l 0) (r16 l 2) (r16 l 4) (r16 l 6) (r16 l 8) (r16 l 10) (λ n, nth (Z.to_nat (12 + n)) l 0).
Definition winsize_bytes (w : winsize) : list Z := w16 (ws_row w) ++ w16 (ws_col w) ++ w16 (ws_xpixel w) ++ w16 (ws_ypixel w).
Definition winsize_of (l : list Z) : winsize := Winsize (r16 l 0) (r16 l 2) (r16 l 4) (r16 l 6).
(** [struct sgttyb] and [struct tchars]. *)
Record sgttyb := Sgttyb { sg_ispeed : Z; sg_ospeed : Z; sg_erase : Z; sg_kill : Z; sg_flags : Z }.
Record tchars := Tchars { t_intrc : Z; t_quitc : Z; t_startc : Z; t_stopc : Z; t_eofc : Z; t_brkc : Z }.
Definition sgttyb_bytes (g : sgttyb) : list Z := [sg_ispeed g; sg_ospeed g; sg_erase g; sg_kill g] ++ w16 (sg_flags g).
Definition sgttyb_of (l : list Z) : sgttyb := Sgttyb (nth 0 l 0) (nth 1 l 0) (nth 2 l 0) (nth 3 l 0) (r16 l 4).
Definition tchars_bytes (c : tchars) : list Z := [t_intrc c; t_quitc c; t_startc c; t_stopc c; t_eofc c; t_brkc c].
Definition tchars_of (l : list Z) : tchars := Tchars (nth 0 l 0) (nth 1 l 0) (nth 2 l 0) (nth 3 l 0) (nth 4 l 0) (nth 5 l 0).

(** ** Speeds: [ts2sgs] *)
Definition ts2sgs : list (Z * Z) :=
  [(B0, 0); (0x1000, 50); (0x2000, 75); (0x3000, 1); (0x4000, 134); (0x6000, 2); (0x7000, 3); (0x8000, 6); (0x9000, 12);
   (0xA000, 18); (0xB000, 24); (0xC000, 48); (B9600, 96); (0xE000, 192); (0xF000, 195); (0x0100, 194); (0x0200, 193)].
Fixpoint tspd_search (tspd : Z) (l : list (Z * Z)) : Z :=
  match l with [] => 96 | (t, g) :: l => if t =? tspd then g else tspd_search tspd l end.
Definition tspd2sgspd (tspd : Z) : Z := tspd_search tspd ts2sgs.
Fixpoint sgspd_search (sgspd : Z) (l : list (Z * Z)) : Z :=
  match l with [] => B9600 | (t, g) :: l => if g =? sgspd then t else sgspd_search sgspd l end.
Definition sgspd2tspd (sgspd : Z) : Z := sgspd_search sgspd ts2sgs.

(** ** Old attributes from new ones, and back *)
Definition compat_getp (t : termios) : sgttyb :=
  let flgs := 0 in
  let flgs := if has_both (c_oflag t) OPOST XTABS then Z.lor flgs 0xC00 else flgs in
  let flgs := Z.lor flgs (Z.shiftl (Z.land (c_cflag t) CSIZE) 6) in
  let flgs := if Z.land (c_cflag t) (Z.lor PARENB PARODD) =? PARENB then Z.lor flgs 0x80 else flgs in
  let flgs := if Z.land (c_cflag t) (Z.lor PARENB PARODD) =? Z.lor PARENB PARODD then Z.lor flgs 0x40 else flgs in
  let flgs := if negb (has (c_lflag t) (Z.lor ICANON ISIG)) then Z.lor flgs 0x20 else flgs in
  let flgs := if has (c_iflag t) ICRNL then Z.lor flgs 0x10 else flgs in
  let flgs := if has (c_lflag t) ECHO then Z.lor flgs 0x8 else flgs in
  let flgs := if Z.land (c_lflag t) (Z.lor ICANON ISIG) =? ISIG then Z.lor flgs 0x2 else flgs in
  Sgttyb (tspd2sgspd (c_ispeed t)) (tspd2sgspd (c_ospeed t)) (u8 (c_cc t VERASE)) (u8 (c_cc t VKILL)) flgs.
Definition compat_getc (t : termios) : tchars :=
  Tchars (c_cc t VINTR) (c_cc t VQUIT) (c_cc t VSTART) (c_cc t VSTOP) (c_cc t VEOF) (c_cc t VEOL).
(** [if (b) f |= m; else f &= ~m;] *)
Definition put_flag (b : bool) (f m : Z) : Z := if b then setf (clrf f m) m else clrf f m.
Definition compat_termios (t : termios) (g : sgttyb) : termios :=
  let flags := sg_flags g in
  let raw := has flags 0x20 in
  let i := put_flag (has flags 0x10 && negb raw) (c_iflag t) ICRNL in
  let i := put_flag (negb raw) (clrf (clrf i IGNCR) INLCR) IXON in
  let o := put_flag (negb raw) (c_oflag t) OPOST in
  let o := put_flag (has flags 0x10) o ONLCR in
  let o := put_flag (has flags 0xC00) o XTABS in
  let c := setf (c_cflag t) CREAD in
  let c := Z.lor (clrf c CSIZE) (Z.shiftr (Z.land flags 0x300) 6) in
  let c := put_flag (has flags 0xC0) c PARENB in
  let c := put_flag (has flags 0x40) c PARODD in
  let l := put_flag (has flags 0x8) (c_lflag t) ECHO in
  let l := put_flag (negb (has flags 0x22)) l ICANON in
  let l := put_flag (negb raw) l (Z.lor IEXTEN ISIG) in
  Termios i o c l (sgspd2tspd (u8 (sg_ispeed g))) (sgspd2tspd (u8 (sg_ospeed g)))
    (<[VKILL := u8 (sg_kill g)]> (<[VERASE := u8 (sg_erase g)]> (c_cc t))).
Definition compat_tchars (t : termios) (c : tchars) : termios :=
  t <| c_cc := <[VEOF := u8 (t_eofc c)]> (<[VEOL := u8 (t_brkc c)]> (<[VSTOP := u8 (t_stopc c)]> (<[VSTART := u8 (t_startc c)]>
    (<[VQUIT := u8 (t_quitc c)]> (<[VINTR := u8 (t_intrc c)]> (c_cc t)))))) |>.

(** The input and output routines of the screen and of the serial lines. *)
Class Events := { dev_read : Z → TM unit; dev_write : Z → TM unit }.

Section ttycall.
Context `{TtyWorld} `{Lines} `{Events}.

Definition tty_devread (tp : Z) : TM unit := if is_pty tp then pty_read tp else dev_read tp.
Definition tty_devwrite (tp : Z) : TM unit := if is_pty tp then pty_write tp else dev_write tp.

(** ** Attributes *)
Definition flush_in (t : tty) : tty :=
  t <| tty_incount := 0 |> <| tty_eotct := 0 |> <| tty_intail := tty_inhead t |>.
Definition tty_icancel (tp : Z) : TM unit := tset tp flush_in;; tty_devicancel tp.

(** The loop of [setattr]: [inp] and [count]. *)
Definition raw_step (tp : Z) (x : Z * Z) : TM (Z * Z + unit) :=
  let '(inp, count) := x in
  if count <=? 0 then mret (inr tt) else
  ch ← inq_get tp inp;
  inq_set tp inp (Z.lor ch IN_EOT);;
  mret (inl (next_in inp, count - 1)).
Definition setattr (tp : Z) : TM unit :=
  t ← line tp;
  when (negb (lflag t ICANON))
    (tset tp (λ t, t <| tty_eotct := tty_incount t |>);;
     loop in_fuel (raw_step tp) (tty_intail t, tty_incount t));;
  settimer tp false;;
  (if lflag t ICANON then tset tp (λ t, t <| tty_min := 1 |>)
   else tset tp (λ t, t <| tty_min := if (cc t VMIN =? 0) && (0 <? cc t VTIME) then 1 else cc t VMIN |>));;
  when (negb (iflag t IXON)) (tset tp (λ t, t <| tty_inhibited := false |> <| tty_events := true |>));;
  when (c_ospeed (tty_termios t) =? B0) (sigchar tp SIGHUP);;
  tty_ioctl tp.

Definition compat_setp (tp : Z) (g : sgttyb) : TM unit :=
  tset tp (λ t, t <| tty_termios := compat_termios (tty_termios t) g |>);; setattr tp.
Definition compat_setc (tp : Z) (c : tchars) : TM unit :=
  tset tp (λ t, t <| tty_termios := compat_tchars (tty_termios t) c |>);; setattr tp.

(** The attributes are those at [user_phys]. *)
Definition get_termios (tp user_phys : Z) : TM unit :=
  l ← kcall (copy_in user_phys TERMIOS_SIZE);
  tset tp (λ t, t <| tty_termios := termios_of l |>).

(** ** Events *)
Definition dev_ioctl (tp : Z) : TM unit :=
  t ← line tp;
  if 0 <? tty_outleft t then mret tt else
  when (negb (tty_ioreq t =? TCDRAIN))
    (when (tty_ioreq t =? TCSETSF) (tty_icancel tp);;
     user_phys ← user_addr (tty_ioproc t) (tty_iovir t);
     get_termios tp user_phys;;
     setattr tp);;
  tset tp (λ t, t <| tty_ioreq := 0 |>);;
  tty_reply REVIVE (tty_iocaller t) (tty_ioproc t) OK.

Definition event_step (tp : Z) (_ : unit) : TM (unit + unit) :=
  tset tp (λ t, t <| tty_events := false |>);;
  tty_devread tp;;
  tty_devwrite tp;;
  t ← line tp;
  when (negb (tty_ioreq t =? 0)) (dev_ioctl tp);;
  t ← line tp;
  mret (if tty_events t then inl tt else inr tt).
Definition handle_events (tp : Z) : TM unit :=
  loop patience (event_step tp) tt;;
  in_transfer tp;;
  t ← line tp;
  when ((tty_min t <=? tty_incum t) && (0 <? tty_inleft t))
    (reply_in tp (tty_incum t);; tset tp (λ t, t <| tty_inleft := 0 |> <| tty_incum := 0 |>)).

(** ** Requests; [m] is the message *)
Definition m_proc (m : message) : Z := m2_i2 m.
Definition m_count (m : message) : Z := m2_i3 m.
Definition m_address (m : message) : Z := u32 (m2_p1 m).
Definition m_flags (m : message) : Z := m2_l2 m.
Definition task_reply (m : message) (r : Z) : TM unit := tty_reply TASK_REPLY (m_source m) (m_proc m) r.

Definition do_read (tp : Z) (m : message) : TM unit :=
  t ← line tp;
  if 0 <? tty_inleft t then task_reply m EIO else
  if m_count m <=? 0 then task_reply m EINVAL else
  a ← kcall (numap (m_proc m) (m_address m) (u32 (m_count m)));
  if a =? 0 then task_reply m EFAULT else
  tset tp (λ t, t <| tty_inrepcode := TASK_REPLY |> <| tty_incaller := s8 (m_source m) |> <| tty_inproc := s8 (m_proc m) |>
                  <| tty_in_vir := m_address m |> <| tty_inleft := m_count m |>);;
  when (negb (lflag t ICANON) && (0 <? cc t VTIME))
    (if cc t VMIN =? 0 then settimer tp true;; tset tp (λ t, t <| tty_min := 1 |>)
     else when (tty_eotct t =? 0) (settimer tp false;; tset tp (λ t, t <| tty_min := cc t VMIN |>)));;
  in_transfer tp;;
  handle_events tp;;
  t ← line tp;
  if tty_inleft t =? 0 then mret tt else
  if has (m_flags m) O_NONBLOCK then
    tset tp (λ t, t <| tty_inleft := 0 |> <| tty_incum := 0 |>);; task_reply m EAGAIN
  else tset tp (λ t, t <| tty_inrepcode := REVIVE |>);; task_reply m SUSPEND.

Definition do_write (tp : Z) (m : message) : TM unit :=
  t ← line tp;
  if 0 <? tty_outleft t then task_reply m EIO else
  if m_count m <=? 0 then task_reply m EINVAL else
  a ← kcall (numap (m_proc m) (m_address m) (u32 (m_count m)));
  if a =? 0 then task_reply m EFAULT else
  tset tp (λ t, t <| tty_outrepcode := TASK_REPLY |> <| tty_outcaller := s8 (m_source m) |> <| tty_outproc := s8 (m_proc m) |>
                  <| tty_out_vir := m_address m |> <| tty_outleft := m_count m |>);;
  handle_events tp;;
  t ← line tp;
  if tty_outleft t =? 0 then mret tt else
  if has (m_flags m) O_NONBLOCK then
    let r := if 0 <? tty_outcum t then tty_outcum t else EAGAIN in
    tset tp (λ t, t <| tty_outleft := 0 |> <| tty_outcum := 0 |>);; task_reply m r
  else tset tp (λ t, t <| tty_outrepcode := REVIVE |>);; task_reply m SUSPEND.

Definition do_open (tp : Z) (m : message) : TM unit :=
  if m2_i1 m =? LOG_MINOR then task_reply m (if has (m_count m) R_BIT then EACCES else OK)
  else
    when (negb (has (m_count m) O_NOCTTY)) (tset tp (λ t, t <| tty_pgrp := s8 (m_proc m) |>));;
    tset tp (λ t, t <| tty_openct := s8 (tty_openct t + 1) |>);;
    task_reply m (if has (m_count m) O_NOCTTY then OK else 1).

Definition do_close (tp : Z) (m : message) : TM unit :=
  when (negb (m2_i1 m =? LOG_MINOR))
    (tset tp (λ t, t <| tty_openct := s8 (tty_openct t - 1) |>);;
     t ← line tp;
     when (tty_openct t =? 0)
       (tset tp (λ t, t <| tty_pgrp := 0 |>);;
        tty_icancel tp;;
        tty_ocancel tp;;
        tty_close tp;;
        tset tp (λ t, t <| tty_termios := termios_defaults |> <| tty_winsize := winsize_defaults |>);;
        setattr tp));;
  task_reply m OK.

Definition do_cancel (tp : Z) (m : message) : TM unit :=
  t ← line tp;
  when (has (m_count m) R_BIT && negb (tty_inleft t =? 0) && (m_proc m =? tty_inproc t))
    (tty_icancel tp;; tset tp (λ t, t <| tty_inleft := 0 |> <| tty_incum := 0 |>));;
  t ← line tp;
  when (has (m_count m) W_BIT && negb (tty_outleft t =? 0) && (m_proc m =? tty_outproc t))
    (tty_ocancel tp;; tset tp (λ t, t <| tty_outleft := 0 |> <| tty_outcum := 0 |>));;
  t ← line tp;
  when (negb (tty_ioreq t =? 0) && (m_proc m =? tty_ioproc t)) (tset tp (λ t, t <| tty_ioreq := 0 |>));;
  tset tp (λ t, t <| tty_events := true |>);;
  task_reply m EINTR.

(** The size of the parameter of an ioctl. *)
Definition ioctl_size (req : Z) : Z :=
  if (req =? TCGETS) || (req =? TCSETS) || (req =? TCSETSW) || (req =? TCSETSF) then TERMIOS_SIZE
  else if (req =? TCSBRK) || (req =? TCFLOW) || (req =? TCFLSH) || (req =? TIOCGPGRP) || (req =? TIOCSPGRP) then 2
  else if (req =? TIOCGWINSZ) || (req =? TIOCSWINSZ) then WINSIZE_SIZE
  else if (req =? TIOCGETP) || (req =? TIOCSETP) || (req =? TIOCGETC) || (req =? TIOCSETC) then SG_SIZE
  else 0.

(** [do_ioctl_compat]: the parameters are packed in the message. *)
Definition compat_reply (m : message) (r erki flags : Z) : TM unit :=
  tty_send (m_source m) (Compat_reply (m_proc m) r erki flags);; mret tt.
Definition byte_of (l n : Z) : Z := Z.land (Z.shiftr l n) 0xFF.
Definition pack4 (a b c d : Z) : Z := s32 (Z.lor (Z.shiftl a 24) (Z.lor (Z.shiftl b 16) (Z.lor (Z.shiftl c 8) d))).
Definition do_ioctl_compat (tp : Z) (m : message) : TM unit :=
  t ← line tp;
  let func := m_count m in
  let spek := m2_l1 m in
  let flags := m2_l2 m in
  if func =? ioc 116 8 then
    let g := compat_getp (tty_termios t) in
    compat_reply m OK (pack4 (u8 (sg_ospeed g)) (u8 (sg_ispeed g)) (u8 (sg_erase g)) (u8 (sg_kill g))) (sg_flags g)
  else if func =? ioc 116 18 then
    let c := compat_getc (tty_termios t) in
    compat_reply m OK (pack4 (u8 (t_intrc c)) (u8 (t_quitc c)) (u8 (t_startc c)) (u8 (t_stopc c)))
                 (Z.lor (Z.shiftl (u8 (t_eofc c)) 8) (u8 (t_brkc c)))
  else if func =? ioc 116 17 then
    compat_setc tp (Tchars (byte_of spek 24) (byte_of spek 16) (byte_of spek 8) (byte_of spek 0) (byte_of flags 8) (byte_of flags 0));;
    compat_reply m OK junk flags
  else if func =? ioc 116 9 then
    compat_setp tp (Sgttyb (byte_of spek 16) (byte_of spek 24) (byte_of spek 8) (byte_of spek 0) (s16 flags));;
    compat_reply m OK junk flags
  else compat_reply m ENOTTY junk flags.

(** The cases of [do_ioctl] that take an int at [user_phys]. *)
Definition ioctl_flush (tp user_phys : Z) : TM Z :=
  l ← kcall (copy_in user_phys 2);
  let i := s16 (r16 l 0) in
  if i =? TCIFLUSH then tty_icancel tp;; mret OK
  else if i =? TCOFLUSH then tty_ocancel tp;; mret OK
  else if i =? TCIOFLUSH then tty_icancel tp;; tty_ocancel tp;; mret OK
  else mret EINVAL.
Definition ioctl_flow (tp user_phys : Z) : TM Z :=
  l ← kcall (copy_in user_phys 2);
  t ← line tp;
  let i := s16 (r16 l 0) in
  if (i =? TCOOFF) || (i =? TCOON) then
    tset tp (λ t, t <| tty_inhibited := i =? TCOOFF |> <| tty_events := true |>);; mret OK
  else if i =? TCIOFF then tty_echo tp (cc t VSTOP);; mret OK
  else if i =? TCION then tty_echo tp (cc t VSTART);; mret OK
  else mret EINVAL.
(** TCSETSW, TCSETSF, TCDRAIN and TCSETS. *)
Definition ioctl_set (tp : Z) (m : message) (user_phys : Z) : TM Z :=
  t ← line tp;
  let req := m_count m in
  if negb (req =? TCSETS) && (0 <? tty_outleft t) then
    tset tp (λ t, t <| tty_iocaller := s8 (m_source m) |> <| tty_ioproc := s8 (m_proc m) |> <| tty_ioreq := req |>
                    <| tty_iovir := m_address m |>);;
    mret SUSPEND
  else if req =? TCDRAIN then mret OK
  else
    when (req =? TCSETSF) (tty_icancel tp);;
    get_termios tp user_phys;;
    setattr tp;;
    mret OK.

Definition do_ioctl (tp : Z) (m : message) : TM unit :=
  let req := m_count m in
  let size := ioctl_size req in
  user_phys ← (if size =? 0 then mret 0 else kcall (numap (m_proc m) (m_address m) size));
  if negb (size =? 0) && (user_phys =? 0) then task_reply m EFAULT else
  t ← line tp;
  if req =? TCGETS then kcall (copy_out (termios_bytes (tty_termios t)) user_phys);; task_reply m OK
  else if (req =? TCSETSW) || (req =? TCSETSF) || (req =? TCDRAIN) || (req =? TCSETS) then
    r ← ioctl_set tp m user_phys; task_reply m r
  else if req =? TCFLSH then r ← ioctl_flush tp user_phys; task_reply m r
  else if req =? TCFLOW then r ← ioctl_flow tp user_phys; task_reply m r
  else if req =? TCSBRK then match tty_break tp with Some b => b | None => mret tt end;; task_reply m OK
  else if req =? TIOCGWINSZ then kcall (copy_out (winsize_bytes (tty_winsize t)) user_phys);; task_reply m OK
  else if req =? TIOCSWINSZ then
    l ← kcall (copy_in user_phys WINSIZE_SIZE);
    tset tp (λ t, t <| tty_winsize := winsize_of l |>);; task_reply m OK
  else if req =? TIOCGETP then kcall (copy_out (sgttyb_bytes (compat_getp (tty_termios t))) user_phys);; task_reply m OK
  else if req =? TIOCSETP then l ← kcall (copy_in user_phys SG_SIZE); compat_setp tp (sgttyb_of l);; task_reply m OK
  else if req =? TIOCGETC then kcall (copy_out (tchars_bytes (compat_getc (tty_termios t))) user_phys);; task_reply m OK
  else if req =? TIOCSETC then l ← kcall (copy_in user_phys SG_SIZE); compat_setc tp (tchars_of l);; task_reply m OK
  else if req =? VDU_LOADFONT then r ← vdu_loadfont m; task_reply m r
  else do_ioctl_compat tp m.

(** ** Pseudo terminals: the calls on the other side *)
Definition do_pty (tp : Z) (m : message) : TM unit :=
  p ← the_pty tp;
  if m_type m =? DEV_READ then
    if has (state p) TTY_CLOSED then task_reply m 0 else
    if negb (rdleft p =? 0) then task_reply m EIO else
    if m_count m <=? 0 then task_reply m EINVAL else
    a ← kcall (numap (m_proc m) (m_address m) (u32 (m_count m)));
    if a =? 0 then task_reply m EFAULT else
    pset tp (λ p, p <| rdrepcode := TASK_REPLY |> <| rdcaller := s8 (m_source m) |> <| rdproc := s8 (m_proc m) |>
                    <| rdvir := m_address m |> <| rdleft := m_count m |>);;
    pty_start tp;;
    handle_events tp;;
    p ← the_pty tp;
    if rdleft p =? 0 then mret tt else
    if has (m_flags m) O_NONBLOCK then pset tp (λ p, p <| rdleft := 0 |> <| rdcum := 0 |>);; task_reply m EAGAIN
    else pset tp (λ p, p <| rdrepcode := REVIVE |>);; task_reply m SUSPEND
  else if m_type m =? DEV_WRITE then
    if has (state p) TTY_CLOSED then task_reply m EIO else
    if negb (wrleft p =? 0) then task_reply m EIO else
    if m_count m <=? 0 then task_reply m EINVAL else
    a ← kcall (numap (m_proc m) (m_address m) (u32 (m_count m)));
    if a =? 0 then task_reply m EFAULT else
    pset tp (λ p, p <| wrrepcode := TASK_REPLY |> <| wrcaller := s8 (m_source m) |> <| wrproc := s8 (m_proc m) |>
                    <| wrvir := m_address m |> <| wrleft := m_count m |>);;
    handle_events tp;;
    p ← the_pty tp;
    if wrleft p =? 0 then mret tt else
    if has (m_flags m) O_NONBLOCK then
      let r := if 0 <? wrcum p then wrcum p else EAGAIN in
      pset tp (λ p, p <| wrleft := 0 |> <| wrcum := 0 |>);; task_reply m r
    else pset tp (λ p, p <| wrrepcode := REVIVE |>);; task_reply m SUSPEND
  else if m_type m =? DEV_IOCTL then task_reply m ENOTTY
  else if m_type m =? DEV_OPEN then
    pset tp (λ p, p <| state := setf (state p) PTY_ACTIVE |>);;
    task_reply m (if negb (state p =? 0) then EIO else OK)
  else if m_type m =? DEV_CLOSE then
    (if has (state p) TTY_CLOSED then pset tp (λ p, p <| state := 0 |>)
     else pset tp (λ p, p <| state := setf (state p) PTY_CLOSED |>);; sigchar tp SIGHUP);;
    task_reply m OK
  else if m_type m =? CANCEL then
    when (m_proc m =? rdproc p) (pset tp (λ p, p <| rdleft := 0 |> <| rdcum := 0 |>));;
    when (m_proc m =? wrproc p) (pset tp (λ p, p <| wrleft := 0 |> <| wrcum := 0 |>));;
    task_reply m EINTR
  else task_reply m EINVAL.

(** ** Initialisation, timers and the main loop *)
Definition pty_init (tp : Z) : TM unit :=
  pset tp (λ p, p <| ohead := 0 |> <| otail := 0 |>);;
  tset tp (λ t, t <| tty_active := true |>).
Definition tty_init (tp : Z) : TM unit :=
  tset tp (λ t, t <| tty_intail := 0 |> <| tty_inhead := 0 |> <| tty_min := 1 |> <| tty_termios := termios_defaults |>);;
  if is_pty tp then pty_init tp else dev_init tp.

(** Called by the clock interrupt handler. *)
Definition wakeup_step (now : Z) (_ : unit) : TM (unit + unit) :=
  head ← gets tty_timelist;
  match head with
  | None => mret (inr tt)
  | Some tp =>
      t ← line tp;
      if now <? tty_time t then
        modify (λ s, s <| sys := (sys s) <| tty_timeout := tty_time t |> |>);; mret (inr tt)
      else
        tset tp (λ t, t <| tty_min := 0 |> <| tty_events := true |>);;
        modify (λ s, s <| tty_timelist := tty_timenext t |>);;
        mret (inl tt)
  end.
Definition tty_wakeup (now : Z) : TM unit :=
  modify (λ s, s <| sys := (sys s) <| tty_timeout := TIME_NEVER |> |>);;
  loop time_fuel (wakeup_step now) tt;;
  kcall (lift (interrupt TTY)).

(** The line of a minor device: an ordinary line, the other side of a pseudo
    terminal, or none. *)
Inductive minor := Line (tp : Z) | Other_side (tp : Z) | No_line.
Definition minor_line (dev : Z) : minor :=
  let line := u16 dev in
  if u16 (line - CONS_MINOR) <? NR_CONS then Line (line - CONS_MINOR)
  else if line =? LOG_MINOR then Line 0
  else if u16 (line - RS232_MINOR) <? NR_RS_LINES then Line (line - RS232_MINOR + NR_CONS)
  else if u16 (line - TTYPX_MINOR) <? NR_PTYS then Line (line - TTYPX_MINOR + NR_CONS + NR_RS_LINES)
  else if u16 (line - PTYPX_MINOR) <? NR_PTYS then Other_side (line - PTYPX_MINOR + NR_CONS + NR_RS_LINES)
  else No_line.

Definition tty_request (tp : Z) (m : message) : TM unit :=
  if m_type m =? DEV_READ then do_read tp m
  else if m_type m =? DEV_WRITE then do_write tp m
  else if m_type m =? DEV_IOCTL then do_ioctl tp m
  else if m_type m =? DEV_OPEN then do_open tp m
  else if m_type m =? DEV_CLOSE then do_close tp m
  else if m_type m =? CANCEL then do_cancel tp m
  else task_reply m EINVAL.
Definition tty_mess (m : message) : TM unit :=
  if m_type m =? HARD_INT then mret tt else
  match minor_line (m2_i1 m) with
  | Other_side tp => do_pty tp m
  | Line tp => t ← line tp; if tty_active t then tty_request tp m else task_reply m ENXIO
  | No_line => task_reply m ENXIO
  end.
Definition all_lines : list Z := seqZ 0 NR_TTYS.
Definition tty_poll : TM unit :=
  fold_m (λ _ tp, t ← line tp; when (tty_events t) (handle_events tp)) tt all_lines.
(** One round of the main loop, from the reception of [m] to the next one. *)
Definition tty_task (m : message) : TM unit := tty_mess m;; tty_poll.
Definition tty_start : TM unit := fold_m (λ _ tp, tty_init tp) tt all_lines;; tty_poll.
End ttycall.
