(* ===== verification/Ring.v ===== *)
(** * Circular buffers

    The contents of a circular buffer of [n] cells: [count] cells from [tail]
    on, as the list of their values. *)

From S2P Require Import Prelude.

Definition cell (n tail i : Z) : Z := (tail + i) mod n.
Definition ring {A} (n : Z) (buf : Z → A) (tail count : Z) : list A := map (λ i, buf (cell n tail i)) (seqZ 0 count).

Section ring.
Context {A : Type} (n : Z) (Hn : 0 < n).
Implicit Types (buf : Z → A).

Lemma cell_range t i : 0 ≤ cell n t i < n.
Proof. by apply Z.mod_pos_bound. Qed.
Lemma cell_0 t : 0 ≤ t < n → cell n t 0 = t.
Proof. intros. unfold cell. rewrite Z.add_0_r. by apply Z.mod_small. Qed.
Lemma cell_inj t i j : 0 ≤ i < n → 0 ≤ j < n → cell n t i = cell n t j → i = j.
Proof.
  intros Hi Hj E. unfold cell in E.
  pose proof (Z.div_mod (t + i) n ltac:(lia)) as H1. pose proof (Z.div_mod (t + j) n ltac:(lia)) as H2. rewrite E in H1.
  assert ((t + i) / n = (t + j) / n) by nia. nia.
Qed.
Lemma cell_cell t i j : cell n (cell n t i) j = cell n t (i + j).
Proof. unfold cell. rewrite Zplus_mod_idemp_l. f_equal. lia. Qed.
(** The C code's steps to the next and to the previous cell. *)
Lemma cell_next t : 0 ≤ t < n → (if t + 1 =? n then 0 else t + 1) = cell n t 1.
Proof.
  intros Ht. unfold cell. destruct (Z.eqb_spec (t + 1) n) as [->|]; [by rewrite Z.mod_same by lia|]. rewrite Z.mod_small; lia.
Qed.
Lemma cell_prev t : 0 ≤ t < n → (if t =? 0 then n else t) - 1 = cell n t (-1).
Proof.
  intros Ht. unfold cell. destruct (Z.eqb_spec t 0) as [->|]; [|rewrite Z.mod_small; lia].
  rewrite <- (Z.mod_add (0 + -1) 1 n) by lia. rewrite Z.mod_small; lia.
Qed.

Lemma ring_length buf t c : 0 ≤ c → Z.of_nat (length (ring n buf t c)) = c.
Proof. intros. unfold ring. rewrite length_map, length_seqZ. lia. Qed.
Lemma ring_nil buf t c : c ≤ 0 → ring n buf t c = [].
Proof. intros. unfold ring. by rewrite seqZ_nil by lia. Qed.

Lemma ring_lookup buf t c i : 0 ≤ i < c → ring n buf t c !! Z.to_nat i = Some (buf (cell n t i)).
Proof.
  intros Hi. unfold ring. change (map ?f ?l) with (f <$> l). rewrite list_lookup_fmap, lookup_seqZ_lt by lia. cbn.
  do 3 f_equal. lia.
Qed.

Lemma ring_eq buf t c l : 0 ≤ c → Z.of_nat (length l) = c →
  (∀ i, 0 ≤ i < c → l !! Z.to_nat i = Some (buf (cell n t i))) → ring n buf t c = l.
Proof.
  intros Hc Hl Hi. apply list_eq. intros i. destruct (decide (Z.of_nat i < c)) as [Hlt|Hge].
  - replace i with (Z.to_nat (Z.of_nat i)) by lia. rewrite ring_lookup by lia. symmetry. apply Hi. lia.
  - rewrite !lookup_ge_None_2; [done|lia|]. pose proof (ring_length buf t c Hc). lia.
Qed.

Lemma ring_ext buf buf' t c : (∀ i, 0 ≤ i < c → buf' (cell n t i) = buf (cell n t i)) → ring n buf' t c = ring n buf t c.
Proof. intros H. unfold ring. apply map_ext_in. intros i Hi%list_elem_of_In%elem_of_seqZ. apply H. lia. Qed.

Lemma ring_app buf t c1 c2 : 0 ≤ c1 → 0 ≤ c2 → ring n buf t (c1 + c2) = ring n buf t c1 ++ ring n buf (cell n t c1) c2.
Proof.
  intros H1 H2. apply ring_eq; [lia| |].
  - rewrite length_app, Nat2Z.inj_add, !ring_length; lia.
  - intros i Hi. pose proof (ring_length buf t c1 H1) as Hl. destruct (decide (i < c1)).
    + rewrite lookup_app_l by lia. apply ring_lookup. lia.
    + rewrite lookup_app_r by lia. replace (Z.to_nat i - length (ring n buf t c1))%nat with (Z.to_nat (i - c1)) by lia.
      rewrite ring_lookup, cell_cell by lia. do 3 f_equal. lia.
Qed.
Lemma ring_one buf t : ring n buf t 1 = [buf (cell n t 0)].
Proof. done. Qed.

Lemma ring_cons buf t c : 0 ≤ t < n → 0 < c → ring n buf t c = buf t :: ring n buf (cell n t 1) (c - 1).
Proof. intros Ht Hc. replace c with (1 + (c - 1)) at 1 by lia. rewrite ring_app, ring_one, cell_0 by lia. done. Qed.
Lemma ring_last buf t c : 0 < c → ring n buf t c = ring n buf t (c - 1) ++ [buf (cell n t (c - 1))].
Proof. intros Hc. replace c with ((c - 1) + 1) at 1 by lia. rewrite ring_app, ring_one, cell_cell by lia. do 4 f_equal. lia. Qed.

Lemma ring_insert_out buf t c i v : 0 ≤ c → c ≤ i → i < n → ring n (<[cell n t i := v]> buf) t c = ring n buf t c.
Proof.
  intros Hc Hi Hin. apply ring_ext. intros j Hj. apply fn_lookup_insert_ne. intros E. apply cell_inj in E; lia.
Qed.
Lemma ring_snoc buf t c v : 0 ≤ c → c < n → ring n (<[cell n t c := v]> buf) t (c + 1) = ring n buf t c ++ [v].
Proof. intros Hc Hlt. rewrite ring_app, ring_insert_out, ring_one, cell_cell, Z.add_0_r by lia. by rewrite fn_lookup_insert. Qed.
Lemma ring_insert buf t c i v : 0 ≤ i < c → c ≤ n → ring n (<[cell n t i := v]> buf) t c = <[Z.to_nat i := v]> (ring n buf t c).
Proof.
  intros Hi Hc. pose proof (ring_length buf t c ltac:(lia)) as Hl. apply ring_eq; [lia|rewrite length_insert; lia|].
  intros j Hj. destruct (decide (j = i)) as [->|Hne].
  - rewrite list_lookup_insert_eq by lia. by rewrite fn_lookup_insert.
  - rewrite list_lookup_insert_ne by lia. rewrite ring_lookup by lia. f_equal. rewrite fn_lookup_insert_ne; [done|].
    intros E. apply cell_inj in E; lia.
Qed.

(** Without the last cell, and without the first ones. *)
Lemma ring_drop buf t c k : 0 ≤ k ≤ c → ring n buf (cell n t k) (c - k) = drop (Z.to_nat k) (ring n buf t c).
Proof.
  intros Hk. replace c with (k + (c - k)) at 2 by lia. rewrite ring_app by lia.
  pose proof (ring_length buf t k ltac:(lia)). rewrite drop_app_length'; [done|lia].
Qed.
Lemma ring_take buf t c k : 0 ≤ k ≤ c → ring n buf t k = take (Z.to_nat k) (ring n buf t c).
Proof.
  intros Hk. replace c with (k + (c - k)) by lia. rewrite ring_app by lia.
  pose proof (ring_length buf t k ltac:(lia)). rewrite take_app_length'; [done|lia].
Qed.
End ring.
