(* ===== verification/Ttyout.v ===== *)
(** * The output side of the terminal task

    [expand] is the reference for output processing: what a string looks like on
    a terminal whose cursor is at a column.  [out_process] makes exactly that in
    a circular buffer, as far as it fits, and the output buffer of a pseudo
    terminal is a first-in first-out queue. *)

From S2P Require Import Prelude Chain Sigset Proc Sched Ipc Receive Kernel Boot Userq Alloc Ksys Ksysp Ksafe Kmem Tty Ring.

(** ** Rules *)
Section rules.
Context {A : Type}.
Implicit Types (s : ttyst).
Lemma wp_kcall (m : SM A) (Q : A → ttyst → Prop) s : wp m (λ a k, Q a (s <| sys := k |>)) (sys s) → wp (kcall m) Q s.
Proof. unfold wp, kcall. by destruct (m (sys s)). Qed.
End rules.
Lemma sys_same s : s <| sys := sys s |> = s.
Proof. by destruct s. Qed.

(** One symbolic step over the accessors of the state of the task. *)
Ltac t_step :=
  lazymatch goal with
  | |- wp (line _) _ _ => apply wp_gets
  | |- wp (the_pty _) _ _ => apply wp_gets
  | |- wp (tset _ _) _ _ => apply wp_modify
  | |- wp (pset _ _) _ _ => apply wp_modify
  | |- wp (when true _) _ _ => cbn [when]
  | |- wp (when false _) _ _ => cbn [when]
  | |- wp (mret _) _ _ => apply wp_ret
  | |- wp (gets _) _ _ => apply wp_gets
  | |- wp (modify _) _ _ => apply wp_modify
  | |- wp (mbind _ _) _ _ => apply wp_bind
  end; cbv beta.

(** ** The reference *)

(** What the character [c] at the column [pos] becomes, and the next column. *)
Definition out_char (flags pos c : Z) : list Z :=
  if (c =? LF) && has_both flags OPOST ONLCR then [CR; LF]
  else if (c =? TAB) && has_both flags OPOST XTABS then replicate (Z.to_nat (TAB_SIZE - Z.land pos TAB_MASK)) SPACE
  else [c].
Definition next_pos (flags pos c : Z) : Z :=
  if c =? BEL then pos
  else if c =? BS then pos - 1
  else if c =? CR then 0
  else if c =? LF then if has_both flags OPOST ONLCR then 0 else pos
  else if c =? TAB then pos + (TAB_SIZE - Z.land pos TAB_MASK)
  else pos + 1.
Fixpoint expand (flags pos : Z) (l : list Z) : list Z :=
  match l with [] => [] | c :: l => out_char flags pos c ++ expand flags (next_pos flags pos c) l end.
Definition column (flags pos : Z) (l : list Z) : Z := foldl (next_pos flags) pos l.

Section output.
Context (flags bend : Z) (Hbend : 0 < bend).
Implicit Types (s : ttyst) (buf : Z → Z).
Notation ring := (ring bend).
Notation cell := (cell bend).

Lemma next_out_cell p : 0 ≤ p < bend → next_out bend p = cell p 1.
Proof. apply cell_next. lia. Qed.

Lemma cell_full p : 0 ≤ p < bend → cell p bend = p.
Proof. intros. unfold Ring.cell. rewrite <- (Z.mul_1_l bend) at 1. rewrite Z_mod_plus_full. by apply Z.mod_small. Qed.
(** The cell before the rest of the buffer. *)
Lemma cell_before (buf buf' : Z → Z) p : 0 ≤ p < bend → buf' (cell (cell p 1) (bend - 1)) = buf (cell (cell p 1) (bend - 1)) → buf' p = buf p.
Proof. intros Hp. rewrite !cell_cell. replace (1 + (bend - 1)) with bend by lia. by rewrite cell_full. Qed.

(** [out_step] wrote [j] characters for [k] of the [ict]. *)
Definition wrote (buf buf' : Z → Z) (bpos ict k j pos pos' : Z) : Prop :=
  ring buf' bpos j = expand flags pos (take (Z.to_nat k) (ring buf bpos ict)) ∧
  pos' = column flags pos (take (Z.to_nat k) (ring buf bpos ict)) ∧
  ∀ i, ict ≤ i → j ≤ i → i < bend → buf' (cell bpos i) = buf (cell bpos i).

Lemma out_put_run (p c : Z) buf (Q : (Z → Z) → ttyst → Prop) s : 0 ≤ p < bend → Q (<[p := c]> buf) s → wp (out_put bend p c buf) Q s.
Proof. intros Hp HQ. unfold out_put. replace ((0 <=? p) && (p <? bend)) with true by lia. by apply wp_ret. Qed.

(** The spaces of a tab. *)
Lemma spaces_run n : ∀ buf bpos k (Q : (Z → Z) * Z → ttyst → Prop) s, 0 ≤ bpos < bend → Z.of_nat n ≤ bend →
  (∀ buf', ring buf' bpos (Z.of_nat n) = replicate n SPACE →
     (∀ i, Z.of_nat n ≤ i < bend → buf' (cell bpos i) = buf (cell bpos i)) → Q (buf', cell bpos (Z.of_nat n)) s) →
  wp (fold_m (λ '(buf, bpos) _, buf ← out_put bend bpos SPACE buf; mret (buf, next_out bend bpos)) (buf, bpos) (seqZ k (Z.of_nat n))) Q s.
Proof.
  induction n as [|n IH]; intros buf bpos k Q s Hp Hn HQ.
  { apply wp_ret. specialize (HQ buf). change (Z.of_nat 0) with 0 in HQ. rewrite cell_0 in HQ by lia. by apply HQ. }
  rewrite seqZ_cons by lia. cbn [fold_m]. t_step. t_step. apply out_put_run; [done|]. t_step.
  rewrite next_out_cell by done. replace (Z.pred (Z.of_nat (S n))) with (Z.of_nat n) by lia.
  apply IH; [by apply cell_range|lia|]. intros buf' E Hf. rewrite cell_cell. replace (1 + Z.of_nat n) with (Z.of_nat (S n)) by lia.
  assert (Hfst : buf' bpos = SPACE).
  { specialize (Hf (bend - 1) ltac:(lia)). apply cell_before in Hf; [|done]. by rewrite Hf, fn_lookup_insert. }
  apply HQ.
  - rewrite ring_cons by lia. replace (Z.of_nat (S n) - 1) with (Z.of_nat n) by lia. by rewrite E, Hfst.
  - intros i Hi. specialize (Hf (i - 1) ltac:(lia)). rewrite !cell_cell in Hf. replace (1 + (i - 1)) with i in Hf by lia.
    rewrite Hf, fn_lookup_insert_ne; [done|]. intros Ec. rewrite <- (cell_0 bend bpos) in Ec at 1 by lia. apply cell_inj in Ec; lia.
Qed.

(** A character that is passed on as it is. *)
Lemma wrote_direct buf buf' bpos ict k j pos pos' : 0 ≤ bpos < bend → 0 < ict → 0 ≤ k → 0 ≤ j → ict ≤ bend → j < bend →
  out_char flags pos (buf bpos) = [buf bpos] →
  wrote buf buf' (cell bpos 1) (ict - 1) k j (next_pos flags pos (buf bpos)) pos' →
  wrote buf buf' bpos ict (k + 1) (j + 1) pos pos'.
Proof.
  intros Hp Hi Hk Hj Hib Hjb Ec (Er & Epos & Hf).
  assert (Hfst : buf' bpos = buf bpos).
  { apply cell_before; [done|]. apply Hf; lia. }
  unfold wrote. rewrite (ring_cons bend) with (c := ict) by lia. replace (Z.to_nat (k + 1)) with (S (Z.to_nat k)) by lia. cbn [take expand].
  split_and!.
  - rewrite (ring_cons bend) by lia. replace (j + 1 - 1) with j by lia. rewrite Er, Hfst, Ec. done.
  - rewrite Epos. done.
  - intros i Hii Hij Hin. specialize (Hf (i - 1) ltac:(lia) ltac:(lia) ltac:(lia)). rewrite !cell_cell in Hf.
    by replace (1 + (i - 1)) with i in Hf by lia.
Qed.

Lemma wrote_none buf bpos ict pos : 0 ≤ ict → wrote buf buf bpos ict 0 0 pos pos.
Proof. intros. split_and!; [done|done|by intros]. Qed.

(** The LF that becomes CR LF, and the tab that becomes spaces, end the loop. *)
Lemma wrote_special buf buf' bpos ict m pos pos' : 0 ≤ bpos < bend → 0 < ict → 1 ≤ m → m ≤ bend →
  out_char flags pos (buf bpos) = ring buf' bpos m → next_pos flags pos (buf bpos) = pos' →
  (∀ i, m ≤ i < bend → buf' (cell bpos i) = buf (cell bpos i)) → wrote buf buf' bpos ict 1 m pos pos'.
Proof.
  intros Hp Hi Hm Hmb Ec Ep Hf. unfold wrote. rewrite (ring_cons bend) with (c := ict) by lia. change (Z.to_nat 1) with 1%nat. cbn [take expand].
  rewrite take_0. cbn [expand column foldl]. rewrite app_nil_r. split_and!; [by rewrite Ec|done|]. intros i _ ??. apply Hf. lia.
Qed.

Lemma land7 x : 0 ≤ Z.land x TAB_MASK < 8.
Proof. unfold TAB_MASK. change 7 with (Z.ones 3). rewrite Z.land_ones by lia. by apply Z.mod_pos_bound. Qed.

(** What a step does to the loop variables. *)
Definition stepped (buf : Z → Z) (bpos ict oct pos : Z) (r : ostate + ostate) : Prop :=
  match r with
  | inl (buf1, bpos1, ict1, oct1, pos1) =>
      buf1 = buf ∧ bpos1 = cell bpos 1 ∧ ict1 = ict - 1 ∧ oct1 = oct - 1 ∧ pos1 = next_pos flags pos (buf bpos) ∧
      out_char flags pos (buf bpos) = [buf bpos]
  | inr (buf1, _, ict1, oct1, pos1) =>
      (buf1 = buf ∧ ict1 = ict ∧ oct1 = oct ∧ pos1 = pos ∧ oct < Z.of_nat (length (out_char flags pos (buf bpos)))) ∨
      (ict1 = ict - 1 ∧ oct1 ≤ oct - 1 ∧ 0 ≤ oct1 ∧ wrote buf buf1 bpos ict 1 (oct - oct1) pos pos1)
  end.

Lemma direct_run buf bpos ict oct pos pos1 s : 0 ≤ bpos < bend →
  out_char flags pos (buf bpos) = [buf bpos] → next_pos flags pos (buf bpos) = pos1 →
  wp (mret (inl (buf, next_out bend bpos, ict - 1, oct - 1, pos1)) : TM (ostate + ostate))
     (λ r s', s' = s ∧ stepped buf bpos ict oct pos r) s.
Proof. intros Hp Ec <-. apply wp_ret. split; [done|]. split_and!; try done. by apply next_out_cell. Qed.

Lemma out_step_run buf bpos ict oct pos s : 0 ≤ bpos < bend → 0 < ict → ict ≤ oct → oct ≤ bend →
  wp (out_step flags bend (buf, bpos, ict, oct, pos)) (λ r s', s' = s ∧ stepped buf bpos ict oct pos r) s.
Proof.
  intros Hp Hi Hio Ho. unfold out_step. replace (ict <=? 0) with false by lia. t_step. unfold out_get.
  replace ((0 <=? bpos) && (bpos <? bend)) with true by lia. t_step. set (c := buf bpos).
  destruct (Z.eqb_spec c BEL) as [E|NB]; [apply direct_run; [done|unfold out_char, next_pos; fold c; by rewrite E..]|].
  destruct (Z.eqb_spec c BS) as [E|NS]; [apply direct_run; [done|unfold out_char, next_pos; fold c; by rewrite E..]|].
  destruct (Z.eqb_spec c CR) as [E|NC]; [apply direct_run; [done|unfold out_char, next_pos; fold c; by rewrite E..]|].
  destruct (Z.eqb_spec c LF) as [E|NL].
  { destruct (has_both flags OPOST ONLCR) eqn:Ef; [|apply direct_run; [done|unfold out_char, next_pos; fold c; rewrite E, Ef; done..]].
    destruct (Z.leb_spec 2 oct) as [H2|H2].
    2:{ t_step. split; [done|]. left. split_and!; try done. fold c. unfold out_char. rewrite E, Ef. cbn. lia. }
    t_step. apply out_put_run; [done|]. t_step. rewrite next_out_cell by done. apply out_put_run; [by apply cell_range|]. t_step.
    split; [done|]. right. split_and!; [done|lia|lia|]. replace (oct - (oct - 2)) with 2 by lia.
    assert (Hne : cell bpos 1 ≠ bpos) by (rewrite <- (cell_0 bend bpos) at 2 by lia; intros Ec; apply cell_inj in Ec; lia).
    apply wrote_special; [done|done|lia|lia|..].
    - fold c. unfold out_char. rewrite E, Ef. cbn [andb Z.eqb]. rewrite (ring_cons bend), ring_one, cell_0 by (try apply cell_range; lia).
      by rewrite fn_lookup_insert_ne, !fn_lookup_insert.
    - fold c. unfold next_pos. by rewrite E, Ef.
    - intros i Hib. rewrite !fn_lookup_insert_ne; [done| |]; [rewrite <- (cell_0 bend bpos) at 1 by lia|]; intros Ec; apply cell_inj in Ec; lia. }
  destruct (Z.eqb_spec c TAB) as [E|NT].
  - set (n := TAB_SIZE - Z.land pos TAB_MASK). assert (Hn : 1 ≤ n ≤ 8) by (pose proof (land7 pos); unfold n, TAB_SIZE; lia).
    destruct (has_both flags OPOST XTABS) eqn:Ef; [|apply direct_run; [done|unfold out_char, next_pos; fold c; rewrite E, ?Ef; done..]].
    assert (Eo : out_char flags pos c = replicate (Z.to_nat n) SPACE) by (unfold out_char; rewrite E, Ef; done).
    destruct (Z.leb_spec n oct) as [H2|H2].
    2:{ t_step. split; [done|]. left. split_and!; try done. fold c. rewrite Eo, length_replicate. lia. }
    t_step. replace n with (Z.of_nat (Z.to_nat n)) at 1 by lia. apply spaces_run; [done|lia|]. intros buf' Er Hf. t_step. split; [done|].
    right. split_and!; [done|lia|lia|]. replace (oct - (oct - n)) with n by lia. rewrite Z2Nat.id in Er, Hf by lia.
    apply wrote_special; [done|done|lia|lia| | |exact Hf]; fold c; [by rewrite Eo, Er|unfold next_pos; by rewrite E].
  - assert (Eo : out_char flags pos c = [c]).
    { unfold out_char. rewrite (proj2 (Z.eqb_neq _ _) NL), (proj2 (Z.eqb_neq _ _) NT). done. }
    apply direct_run; [done|exact Eo|]. fold c. unfold next_pos.
    by rewrite (proj2 (Z.eqb_neq _ _) NB), (proj2 (Z.eqb_neq _ _) NS), (proj2 (Z.eqb_neq _ _) NC), (proj2 (Z.eqb_neq _ _) NL), (proj2 (Z.eqb_neq _ _) NT).
Qed.

(** The result of the loop. *)
Definition outcome (buf : Z → Z) (bpos ict oct pos : Z) (x : ostate) : Prop :=
  let '(buf', _, ict', oct', pos') := x in
  0 ≤ ict' ≤ ict ∧ 0 ≤ oct' ≤ oct ∧ wrote buf buf' bpos ict (ict - ict') (oct - oct') pos pos' ∧
  (ict' < ict → oct' < oct) ∧ (ict' = ict → 0 < ict → oct < Z.of_nat (length (out_char flags pos (buf bpos)))).

Lemma out_loop fuel : ∀ buf bpos ict oct pos s, 0 ≤ bpos < bend → 0 ≤ ict → ict ≤ oct → oct ≤ bend → (Z.to_nat ict < fuel)%nat →
  wp (loop fuel (out_step flags bend) (buf, bpos, ict, oct, pos)) (λ x s', s' = s ∧ outcome buf bpos ict oct pos x) s.
Proof.
  induction fuel as [|fuel IH]; intros buf bpos ict oct pos s Hp Hi Hio Ho Hf; [lia|]. rewrite loop_unfold. t_step.
  destruct (decide (ict = 0)) as [->|Hne].
  { unfold out_step. cbn [Z.leb Z.compare]. t_step. t_step. split; [done|]. unfold outcome. rewrite !Z.sub_diag. split_and!; try lia. by apply wrote_none. }
  eapply wp_mono; [apply out_step_run; lia|]. cbn beta. intros [x|x] ? [-> Hx]; destruct x as [[[[buf1 bpos1] ict1] oct1] pos1]; cbn [stepped] in Hx.
  - destruct Hx as (-> & -> & -> & -> & -> & Ec).
    eapply wp_mono; [apply IH; [by apply cell_range|lia..]|]. cbn beta. intros [[[[buf2 b2] ict2] oct2] pos2] ? [-> (Hi2 & Ho2 & Hw & Hj & _)].
    split; [done|]. split_and!; try lia.
    + replace (ict - ict2) with (ict - 1 - ict2 + 1) by lia. replace (oct - oct2) with (oct - 1 - oct2 + 1) by lia.
      by apply wrote_direct; [lia..|exact Ec|exact Hw].
  - t_step. split; [done|]. destruct Hx as [(-> & -> & -> & -> & Hlt)|(-> & H1 & H2 & Hw)]; unfold outcome.
    + rewrite !Z.sub_diag. split_and!; try lia. by apply wrote_none.
    + replace (ict - (ict - 1)) with 1 by lia. split_and!; try lia. done.
Qed.
End output.

(** A line whose column has changed. *)
Definition moved (tp pos : Z) (s : ttyst) : ttyst :=
  s <| tty_table := <[tp := (tty_table s tp) <| tty_position := pos |>]> (tty_table s) |>.

(** [out_process] on the [icount] characters from [bpos] on. *)
Lemma out_process_run tp buf bend bpos icount ocount s (Q : (Z → Z) * Z * Z → ttyst → Prop) :
  0 ≤ bpos < bend → 0 ≤ icount → icount ≤ ocount → ocount ≤ bend →
  (let flags := c_oflag (tty_termios (tty_table s tp)) in
   let pos := tty_position (tty_table s tp) in
   ∀ buf' k j pos', 0 ≤ k ≤ icount → 0 ≤ j ≤ ocount → wrote flags bend buf buf' bpos icount k j pos pos' → (0 < k → 0 < j) →
     (k = 0 → 0 < icount → ocount < Z.of_nat (length (out_char flags pos (buf bpos)))) →
     Q (buf', k, j) (moved tp (Z.land pos' TAB_MASK) s)) →
  wp (out_process tp buf bend bpos icount ocount) Q s.
Proof.
  cbv zeta. intros Hp Hi Hio Ho HQ. unfold out_process. t_step. t_step. t_step.
  eapply wp_mono; [apply (out_loop _ bend); lia|]. cbn beta. intros [[[[buf' b'] ict'] oct'] pos'] ? [-> (H1 & H2 & Hw & H3 & H4)].
  t_step. t_step. t_step. refine (HQ _ _ _ _ _ _ Hw _ _); [lia..|]. intros. apply H4; lia.
Qed.
