(* ===== verification/Ttyq.v ===== *)
(** * The invariant of the terminal task

    The input queue of a line and the output buffer of a pseudo terminal are
    circular buffers ([queue], [pq]); [line_ok] and [pty_ok] are their
    invariants, [timers_ok] that of the list of timers, [tinv] that of the task.
    [quiet] says what echoing may change. *)

From Stdlib Require Import Sorting.Sorted.
From S2P Require Import Prelude Chain Sigset Proc Sched Ipc Receive Kernel Boot Userq Alloc Ksys Ksysp Ksafe Kmem Tty Ring Ttyout.

Definition queue (t : tty) : list Z := ring TTY_IN_BYTES (tty_inbuf t) (tty_intail t) (tty_incount t).
Definition pq (p : pty) : list Z := ring OBUF_SIZE (obuf p) (otail p) (ocount p).
Definition eots (l : list Z) : Z := Z.of_nat (length (filter (λ c, has c IN_EOT = true) l)).
Definition is_word (c : Z) : Prop := 0 ≤ c < 2 ^ 15.

Record line_ok (t : tty) : Prop := LineOk {
  l_tail : 0 ≤ tty_intail t < TTY_IN_BYTES;
  l_count : 0 ≤ tty_incount t ≤ TTY_IN_BYTES;
  l_head : tty_inhead t = cell TTY_IN_BYTES (tty_intail t) (tty_incount t);
  l_eots : tty_eotct t = eots (queue t);
  l_words : Forall is_word (queue t);
  l_position : 0 ≤ tty_position t < 8;
  l_inleft : 0 ≤ tty_inleft t < 2 ^ 15;
  l_invir : 0 ≤ tty_in_vir t < 2 ^ 32;
  l_incum : - 2 ^ 15 ≤ tty_incum t < 2 ^ 15;
  l_outleft : 0 ≤ tty_outleft t < 2 ^ 15;
  l_outvir : 0 ≤ tty_out_vir t < 2 ^ 32;
  l_outcum : - 2 ^ 15 ≤ tty_outcum t < 2 ^ 15;
  l_inproc : 0 < tty_inleft t → isokprocn (tty_inproc t) = true;
  l_outproc : 0 < tty_outleft t → isokprocn (tty_outproc t) = true;
  l_ioproc : tty_ioreq t ≠ 0 → isokprocn (tty_ioproc t) = true;
  l_pgrp : 0 ≤ tty_pgrp t < NR_PROCS;
  l_cc : ∀ n, 0 ≤ cc t n < 256
}.
Record pty_ok (p : pty) : Prop := PtyOk {
  p_count : 0 ≤ ocount p ≤ OBUF_SIZE;
  p_tail : 0 ≤ otail p < OBUF_SIZE;
  p_head : ohead p = cell OBUF_SIZE (otail p) (ocount p);
  p_rdleft : 0 ≤ rdleft p < 2 ^ 15;
  p_rdvir : 0 ≤ rdvir p < 2 ^ 32;
  p_rdcum : - 2 ^ 15 ≤ rdcum p < 2 ^ 15;
  p_wrleft : 0 ≤ wrleft p < 2 ^ 15;
  p_rdproc : 0 < rdleft p → isokprocn (rdproc p) = true;
  p_wrproc : 0 < wrleft p → isokprocn (wrproc p) = true
}.
Definition a_line (tp : Z) : Prop := 0 ≤ tp < NR_TTYS.
(** The list of timers: lines, in the order of their times. *)
Definition timer_le (s : ttyst) (a b : Z) : Prop := tty_time (tty_table s a) ≤ tty_time (tty_table s b).
Definition timers (s : ttyst) (l : list Z) : Prop :=
  chain (λ q, tty_timenext (tty_table s q)) (tty_timelist s) l ∧ Forall a_line l ∧ StronglySorted (timer_le s) l.
Record tinv (s : ttyst) : Prop := Tinv {
  t_lines : ∀ q, a_line q → line_ok (tty_table s q);
  t_ptys : ∀ q, 0 ≤ q < NR_PTYS → pty_ok (pty_table s q);
  t_timers : ∃ l, timers s l;
  t_kern : kinv (kern (sys s))
}.

(** A line that is a pseudo terminal. *)
Definition pty_line (tp : Z) : Prop := NR_CONS + NR_RS_LINES ≤ tp < NR_TTYS.
Lemma pty_line_ok tp : pty_line tp → a_line tp ∧ is_pty tp = true ∧ 0 ≤ pty_nr tp < NR_PTYS.
Proof. unfold pty_line, a_line, is_pty, pty_nr, NR_TTYS, NR_CONS, NR_RS_LINES, NR_PTYS. lia. Qed.

(** ** What echoing changes *)
Definition mem_set (c : Z → Z) (y : sysst) : sysst := y <| kern := (kern y) <| clicks := c |> |>.
Definition erase_in (t : tty) : tty :=
  t <| tty_position := 0 |> <| tty_reprint := false |> <| tty_inbuf := λ _, 0 |> <| tty_inhead := 0 |> <| tty_incount := 0 |>.
Definition erase_out (p : pty) : pty :=
  p <| ocount := 0 |> <| ohead := 0 |> <| otail := 0 |> <| obuf := λ _, 0 |> <| rdvir := 0 |> <| rdleft := 0 |> <| rdcum := 0 |>.
Record quiet (tp : Z) (s s' : ttyst) : Prop := Quiet {
  q_other : ∀ q, q ≠ tp → tty_table s' q = tty_table s q;
  q_line : erase_in (tty_table s' tp) = erase_in (tty_table s tp);
  q_list : tty_timelist s' = tty_timelist s;
  q_sent : sent s' = sent s;
  q_pty : ∀ q, erase_out (pty_table s' q) = erase_out (pty_table s q);
  q_mem : ∃ c, sys s' = mem_set c (sys s)
}.
(** The input queue of the line is the same. *)
Definition same_in (t t' : tty) : Prop :=
  tty_inbuf t' = tty_inbuf t ∧ tty_inhead t' = tty_inhead t ∧ tty_incount t' = tty_incount t.
Definition echoed (tp : Z) (s s' : ttyst) : Prop :=
  quiet tp s s' ∧ same_in (tty_table s tp) (tty_table s' tp) ∧ tinv s'.

Section quiet.
Implicit Types (s : ttyst) (t : tty).

Lemma mem_same y : mem_set (clicks (kern y)) y = y.
Proof. unfold mem_set. destruct y as [k]. cbn. by destruct k. Qed.
Lemma line_quiet_refl tp s : quiet tp s s.
Proof. split; try done. exists (clicks (kern (sys s))). by rewrite mem_same. Qed.
Lemma line_quiet_trans tp s1 s2 s3 : quiet tp s1 s2 → quiet tp s2 s3 → quiet tp s1 s3.
Proof.
  intros [H1 H2 H3 H4 H5 [c1 H6]] [G1 G2 G3 G4 G5 [c2 G6]]. split.
  - intros q Hq. by rewrite G1, H1.
  - by rewrite G2.
  - by rewrite G3.
  - by rewrite G4.
  - intros q. by rewrite G5.
  - exists c2. by rewrite G6, H6.
Qed.
Lemma echoed_trans tp s1 s2 s3 : echoed tp s1 s2 → echoed tp s2 s3 → echoed tp s1 s3.
Proof.
  intros (H1 & (H2 & H3 & H4) & _) (G1 & (G2 & G3 & G4) & G5). split; [by eapply line_quiet_trans|]. split; [|done].
  split_and!; congruence.
Qed.
Lemma echoed_refl tp s : tinv s → echoed tp s s.
Proof. intros H. split; [apply line_quiet_refl|]. by split_and!. Qed.

(** The fields that echoing leaves alone. *)
Lemma erase_in_fields t t' : erase_in t' = erase_in t →
  tty_termios t' = tty_termios t ∧ tty_inleft t' = tty_inleft t ∧ tty_intail t' = tty_intail t ∧ tty_eotct t' = tty_eotct t ∧
  tty_escaped t' = tty_escaped t ∧ tty_inhibited t' = tty_inhibited t ∧ tty_min t' = tty_min t ∧ tty_pgrp t' = tty_pgrp t ∧
  tty_timenext t' = tty_timenext t ∧ tty_time t' = tty_time t ∧ tty_outleft t' = tty_outleft t ∧ tty_inproc t' = tty_inproc t ∧
  tty_outproc t' = tty_outproc t ∧ tty_ioproc t' = tty_ioproc t ∧ tty_ioreq t' = tty_ioreq t ∧ tty_incum t' = tty_incum t ∧ tty_in_vir t' = tty_in_vir t.
Proof. destruct t, t'. unfold erase_in. cbn. intros E. by injection E. Qed.
Lemma quiet_fields tp s s' : quiet tp s s' → let t := tty_table s tp in let t' := tty_table s' tp in
  tty_termios t' = tty_termios t ∧ tty_inleft t' = tty_inleft t ∧ tty_intail t' = tty_intail t ∧ tty_eotct t' = tty_eotct t ∧
  tty_escaped t' = tty_escaped t ∧ tty_inhibited t' = tty_inhibited t ∧ tty_min t' = tty_min t ∧ tty_pgrp t' = tty_pgrp t ∧
  tty_timenext t' = tty_timenext t ∧ tty_time t' = tty_time t ∧ tty_outleft t' = tty_outleft t ∧ tty_inproc t' = tty_inproc t ∧
  tty_outproc t' = tty_outproc t ∧ tty_ioproc t' = tty_ioproc t ∧ tty_ioreq t' = tty_ioreq t ∧ tty_incum t' = tty_incum t ∧ tty_in_vir t' = tty_in_vir t.
Proof. intros H. cbv zeta. apply erase_in_fields, H. Qed.

(** The list of timers and the kernel are not concerned. *)
Lemma kinv_clicks k c : kinv k → kinv (k <| clicks := c |>).
Proof.
  intros (Q & H & [H1 H2 H3 H4] & Hcu & Hh & Hd). exists Q, H. split; [|done]. split; [done|done|done|]. by apply (static_ok_ext k).
Qed.
Lemma timers_ext s s' l : (∀ q, tty_timenext (tty_table s' q) = tty_timenext (tty_table s q) ∧ tty_time (tty_table s' q) = tty_time (tty_table s q)) →
  tty_timelist s' = tty_timelist s → timers s l → timers s' l.
Proof.
  intros Hf El (Hc & Ha & Hs). split_and!; [rewrite El; eapply lseg_ext, Hc; intros k _; by destruct (Hf k)|done|].
  clear -Hf Hs. induction Hs as [|a l Hs IH Hall]; constructor; [done|]. eapply Forall_impl; [exact Hall|]. intros b Hb.
  unfold timer_le. by rewrite (proj2 (Hf a)), (proj2 (Hf b)).
Qed.
Lemma quiet_timers tp s s' : quiet tp s s' → ∀ q, tty_timenext (tty_table s' q) = tty_timenext (tty_table s q) ∧ tty_time (tty_table s' q) = tty_time (tty_table s q).
Proof.
  intros H q. destruct (decide (q = tp)) as [->|]; [|by rewrite (q_other _ _ _ H)].
  pose proof (quiet_fields _ _ _ H) as Hf. cbv zeta in Hf. naive_solver.
Qed.
(** Every quiet change that keeps the line and the pseudo terminals well formed
    keeps the invariant. *)
Lemma quiet_tinv tp s s' : tinv s → quiet tp s s' → line_ok (tty_table s' tp) → (∀ q, 0 ≤ q < NR_PTYS → pty_ok (pty_table s' q)) → tinv s'.
Proof.
  intros [H1 H2 [l H3] H4] Hq Hl Hp. split; [|done| |].
  - intros q Hq'. destruct (decide (q = tp)) as [->|]; [done|]. rewrite (q_other _ _ _ Hq) by done. by apply H1.
  - exists l. eapply timers_ext, H3; [by eapply quiet_timers|apply Hq].
  - destruct (q_mem _ _ _ Hq) as [c ->]. by apply kinv_clicks.
Qed.
End quiet.

(** ** The output buffer of a pseudo terminal *)
Section ptyout.
Context `{TtyWorld} `{Lines}.
Implicit Types (s : ttyst).

Lemma user_addr_run p vir (Q : Z → ttyst → Prop) s : isokprocn p = true →
  Q (proc_vir2phys (procs (kern (sys s)) p) vir) s → wp (user_addr p vir) Q s.
Proof.
  intros Hok HQ. unfold user_addr. apply wp_kcall. s_step. apply wp_lift. rewrite (proc_addr_ok _ Hok). apply wp_ret. do 3 s_step.
  destruct s as [y]. by destruct y.
Qed.

(** Addresses that follow each other are mapped to such addresses. *)
Definition linear (s : ttyst) (p vir n : Z) : Prop :=
  ∀ i, 0 ≤ i < n → proc_vir2phys (procs (kern (sys s)) p) (u32 (vir + i)) = proc_vir2phys (procs (kern (sys s)) p) vir + i.

(** [k] characters of the output buffer are with the reader. *)
Definition passed (k : Z) (p : pty) : pty :=
  p <| ocount := ocount p - k |> <| otail := cell OBUF_SIZE (otail p) k |> <| rdvir := u32 (rdvir p + k) |>
    <| rdcum := s16 (rdcum p + k) |> <| rdleft := rdleft p - k |>.
(** Only the pseudo terminal of [tp] and the memory have changed. *)
Record only_pty (tp : Z) (p : pty) (c : Z → Z) (s s' : ttyst) : Prop := OnlyPty {
  o_lines : tty_table s' = tty_table s;
  o_list : tty_timelist s' = tty_timelist s;
  o_sent : sent s' = sent s;
  o_pty : pty_table s' (pty_nr tp) = p;
  o_other : ∀ q, q ≠ pty_nr tp → pty_table s' q = pty_table s q;
  o_mem : sys s' = mem_set c (sys s)
}.

Lemma s16_s16 x y : s16 (s16 x + y) = s16 (x + y).
Proof.
  unfold s16. f_equal. replace ((x + 2 ^ 15) mod 2 ^ 16 - 2 ^ 15 + y + 2 ^ 15) with ((x + 2 ^ 15) mod 2 ^ 16 + y) by lia.
  rewrite Zplus_mod_idemp_l. f_equal. lia.
Qed.
Lemma s16_range x : - 2 ^ 15 ≤ s16 x < 2 ^ 15.
Proof. unfold s16. pose proof (Z.mod_pos_bound (x + 2 ^ 15) (2 ^ 16) ltac:(lia)). lia. Qed.
Lemma u32_plus_l x y : u32 (u32 x + y) = u32 (x + y).
Proof. unfold u32. apply Zplus_mod_idemp_l. Qed.
Lemma passed_passed k j p : passed j (passed k p) = passed (k + j) p.
Proof.
  unfold passed. destruct p; cbn. rewrite cell_cell, u32_plus_l, s16_s16, !Z.sub_add_distr, !Z.add_assoc. reflexivity.
Qed.
Lemma passed_0 p : pty_ok p → passed 0 p = p.
Proof.
  intros []. unfold passed. destruct p; cbn in *. rewrite cell_0, !Z.add_0_r, !Z.sub_0_r, u32_id, s16_id by (unfold OBUF_SIZE in *; lia). done.
Qed.
Lemma passed_ok k p : pty_ok p → 0 ≤ k ≤ ocount p → k ≤ rdleft p → pty_ok (passed k p).
Proof.
  intros [] Hk Hr. split; cbn; try done; try lia.
  - by apply cell_range.
  - rewrite cell_cell. replace (k + (ocount p - k)) with (ocount p) by lia. done.
  - apply u32_range.
  - apply s16_range.
  - intros. apply p_rdproc0. lia.
Qed.
Lemma passed_pq k p : pty_ok p → 0 ≤ k ≤ ocount p → pq (passed k p) = drop (Z.to_nat k) (pq p).
Proof. intros [] Hk. unfold pq, passed; cbn. by apply ring_drop. Qed.
Lemma pq_length p : pty_ok p → Z.of_nat (length (pq p)) = ocount p.
Proof. intros []. apply ring_length. lia. Qed.

(** The first [k] bytes of [l] have been copied to [a]. *)
Definition delivered (a k : Z) (l : list Z) (c c' : Z → Z) : Prop :=
  ∀ b, mem_byte c' b = if (a <=? b) && (b <? a + k) then nth (Z.to_nat (b - a)) l 0 mod 256 else mem_byte c b.

(** The pseudo terminal of [tp] as a stream: [l] has been put into it, and the
    first [r] characters of it are with the reader. *)
Definition rd_addr (s : ttyst) (p : pty) : Z := proc_vir2phys (procs (kern (sys s)) (rdproc p)) (rdvir p).
Record flow (tp r : Z) (l : list Z) (s s' : ttyst) : Prop := Flow {
  f_range : 0 ≤ r ∧ r ≤ rdleft (pty_table s (pty_nr tp)) ∧ r ≤ Z.of_nat (length (pq (pty_table s (pty_nr tp)) ++ l));
  f_left : rdleft (pty_table s' (pty_nr tp)) = rdleft (pty_table s (pty_nr tp)) - r;
  f_vir : rdvir (pty_table s' (pty_nr tp)) = u32 (rdvir (pty_table s (pty_nr tp)) + r);
  f_cum : rdcum (pty_table s' (pty_nr tp)) = s16 (rdcum (pty_table s (pty_nr tp)) + r);
  f_proc : rdproc (pty_table s' (pty_nr tp)) = rdproc (pty_table s (pty_nr tp));
  f_queue : pq (pty_table s' (pty_nr tp)) = drop (Z.to_nat r) (pq (pty_table s (pty_nr tp)) ++ l);
  f_mem : ∃ c, sys s' = mem_set c (sys s) ∧
    (linear s (rdproc (pty_table s (pty_nr tp))) (rdvir (pty_table s (pty_nr tp))) (rdleft (pty_table s (pty_nr tp))) →
     delivered (rd_addr s (pty_table s (pty_nr tp))) r (pq (pty_table s (pty_nr tp)) ++ l) (clicks (kern (sys s))) c)
}.

Lemma linear_pass s s' p vir r n : 0 ≤ r → procs (kern (sys s')) = procs (kern (sys s)) → linear s p vir n →
  linear s' p (u32 (vir + r)) (n - r) ∧ (r < n → proc_vir2phys (procs (kern (sys s')) p) (u32 (vir + r)) = proc_vir2phys (procs (kern (sys s)) p) vir + r).
Proof.
  intros Hr Ep Hl. split; [|intros; rewrite Ep; apply Hl; lia]. intros i Hi. rewrite Ep, u32_plus_l, <- Z.add_assoc, !Hl by lia. lia.
Qed.

Lemma delivered_none a l c : delivered a 0 l c c.
Proof. intros b. by replace ((a <=? b) && (b <? a + 0)) with false by lia. Qed.
Lemma delivered_app a r1 r2 l1 l2 c c1 c2 : 0 ≤ r1 → 0 ≤ r2 → r1 ≤ Z.of_nat (length l1) →
  delivered a r1 l1 c c1 → delivered (a + r1) r2 (drop (Z.to_nat r1) l1 ++ l2) c1 c2 → delivered a (r1 + r2) (l1 ++ l2) c c2.
Proof.
  intros H1 H2 Hl D1 D2 b. rewrite D2. destruct ((a + r1 <=? b) && (b <? a + r1 + r2)) eqn:E.
  - replace ((a <=? b) && (b <? a + (r1 + r2))) with true by lia. f_equal. rewrite <- drop_app_le by lia.
    rewrite !nth_lookup, lookup_drop. do 2 f_equal. lia.
  - rewrite D1. destruct ((a <=? b) && (b <? a + r1)) eqn:E2.
    + replace ((a <=? b) && (b <? a + (r1 + r2))) with true by lia. rewrite app_nth1 by lia. done.
    + by replace ((a <=? b) && (b <? a + (r1 + r2))) with false by lia.
Qed.

Lemma flow_refl tp s : pty_ok (pty_table s (pty_nr tp)) → flow tp 0 [] s s.
Proof.
  intros []. split; rewrite ?Z.add_0_r, ?Z.sub_0_r, ?app_nil_r; try done; try lia; [by rewrite u32_id|by rewrite s16_id|].
  exists (clicks (kern (sys s))). rewrite mem_same. split; [done|]. intros _. apply delivered_none.
Qed.
Lemma flow_trans tp r1 r2 l1 l2 s1 s2 s3 : flow tp r1 l1 s1 s2 → flow tp r2 l2 s2 s3 → flow tp (r1 + r2) (l1 ++ l2) s1 s3.
Proof.
  intros [(R1 & R2 & R3) Fl Fv Fc Fp Fq (c & Fm & Fd)] [(G1 & G2 & G3) Gl Gv Gc Gp Gq (c' & Gm & Gd)].
  set (p := pty_table s1 (pty_nr tp)) in *. set (p2 := pty_table s2 (pty_nr tp)) in *.
  rewrite Fq, length_app, length_drop in G3. split; fold p.
  - rewrite app_assoc, length_app. lia.
  - lia.
  - rewrite Gv, Fv, u32_plus_l. f_equal. lia.
  - rewrite Gc, Fc, s16_s16. f_equal. lia.
  - congruence.
  - rewrite Gq, Fq, app_assoc, <- drop_app_le by lia. rewrite drop_drop. f_equal. lia.
  - exists c'. split; [by rewrite Gm, Fm|]. intros Hl.
    destruct (linear_pass s1 s2 _ _ r1 _ R1 ltac:(by rewrite Fm) Hl) as [Hl2 Ha]. specialize (Fd Hl).
    rewrite Fp, Fv, Fl, Fq, Fm in Gd. rewrite <- Fm in Gd. specialize (Gd Hl2). rewrite app_assoc. eapply delivered_app; [done..|].
    destruct (decide (r1 < rdleft p)) as [Hlt|Hge].
    + unfold rd_addr in Gd. rewrite Fp, Fv, Ha in Gd by done. rewrite Fm in Gd. exact Gd.
    + replace r2 with 0 in * by lia. intros b. rewrite Gd. rewrite Fm.
      repeat match goal with |- context [(?x <=? b) && (b <? ?x + 0)] => replace ((x <=? b) && (b <? x + 0)) with false by lia end. done.
Qed.

Lemma copy_out_t l a (Q : unit → ttyst → Prop) s :
  Q tt (s <| sys := mem_set (patch a (Z.of_nat (length l)) (λ b, nth (Z.to_nat (b - a)) l 0) (clicks (kern (sys s)))) (sys s) |>) →
  wp (kcall (copy_out l a)) Q s.
Proof. intros HQ. apply wp_kcall. unfold copy_out. by apply wp_lift, wp_modify. Qed.

Lemma tail_step t c : 0 ≤ t < OBUF_SIZE → 0 ≤ c → t + c ≤ OBUF_SIZE → (if t + c =? OBUF_SIZE then 0 else t + c) = cell OBUF_SIZE t c.
Proof.
  intros. unfold cell. destruct (Z.eqb_spec (t + c) OBUF_SIZE) as [->|]; [by rewrite Z.mod_same|]. rewrite Z.mod_small; [done|lia].
Qed.

(** The characters up to the end of the buffer lie next to each other. *)
Lemma ring_straight (buf : Z → Z) t c n : 0 ≤ t → 0 ≤ c → t + c ≤ n → map buf (seqZ t c) = ring n buf t c.
Proof.
  intros Ht Hc Hn. apply list_eq. intros i. unfold ring. change (map ?f ?l) with (f <$> l). rewrite !list_lookup_fmap.
  destruct (decide (Z.of_nat i < c)).
  - rewrite !lookup_seqZ_lt by lia. cbn. unfold cell. rewrite Z.mod_small by lia. done.
  - by rewrite !lookup_seqZ_ge by lia.
Qed.

(** One copy to the reader. *)
Definition start_len (p : pty) : Z := Z.min (ocount p) (rdleft p).
Definition passed_on (tp k : Z) (s s' : ttyst) : Prop :=
  0 ≤ k ≤ start_len (pty_table s (pty_nr tp)) ∧ (∃ c, only_pty tp (passed k (pty_table s (pty_nr tp))) c s s') ∧ flow tp k [] s s'.

Lemma start_step_run tp s : pty_ok (pty_table s (pty_nr tp)) →
  wp (pty_start_step tp tt) (λ r s', match r with
    | inl _ => ∃ k, 0 < k ∧ passed_on tp k s s'
    | inr _ => s' = s ∧ start_len (pty_table s (pty_nr tp)) = 0 end) s.
Proof.
  intros Hp. pose proof Hp as []. unfold pty_start_step. t_step. t_step. set (p := pty_table s (pty_nr tp)) in *.
  set (n := if rdleft p <? _ then _ else _). assert (En : n = Z.min (OBUF_SIZE - otail p) (start_len p)).
  { unfold n, start_len. destruct (Z.ltb_spec (ocount p) (OBUF_SIZE - otail p)); [destruct (Z.ltb_spec (rdleft p) (ocount p))|destruct (Z.ltb_spec (rdleft p) (OBUF_SIZE - otail p))]; lia. }
  clearbody n. assert (Hsl : 0 ≤ start_len p) by (unfold start_len; lia). destruct (Z.eqb_spec n 0) as [E0|Hn]; [t_step; split; [done|lia]|].
  assert (Hle : start_len p ≤ ocount p ∧ start_len p ≤ rdleft p) by (unfold start_len; lia).
  t_step. apply user_addr_run; [apply p_rdproc0; lia|]. t_step.
  replace ((0 <=? otail p) && (otail p + n <=? OBUF_SIZE)) with true by lia. apply copy_out_t.
  t_step. t_step. t_step. exists n. split; [lia|]. rewrite (ring_straight _ _ _ OBUF_SIZE), ring_length by lia.
  rewrite (ring_take OBUF_SIZE (obuf p) (otail p) (ocount p) n) by lia. fold (pq p).
  set (c := patch _ _ _ _).
  set (s2 := (s <| sys := mem_set c (sys s) |>) <| pty_table := <[pty_nr tp := passed n p]> (pty_table s) |>).
  assert (Ho : only_pty tp (passed n p) c s s2).
  { split; cbn; try done; [by rewrite fn_lookup_insert|]. intros q Hq. by rewrite fn_lookup_insert_ne. }
  match goal with |- passed_on _ _ _ ?x => replace x with s2 by (unfold s2, passed; rewrite <- tail_step by lia; reflexivity) end.
  split; [fold p; lia|]. split; [by exists c|].
  pose proof (passed_pq n p Hp ltac:(lia)). pose proof (pq_length p Hp).
  destruct Ho as [_ _ _ Ep _ Em]. split; fold p; rewrite ?Ep, ?app_nil_r; try done; try lia.
  exists c. split; [done|]. intros _ b. unfold c. rewrite mem_byte_patch. destruct (_ && _) eqn:E; [|done]. f_equal.
  rewrite !nth_lookup, lookup_take_lt by lia. done.
Qed.

Lemma passed_on_trans tp k j s1 s2 s3 : pty_ok (pty_table s1 (pty_nr tp)) → passed_on tp k s1 s2 → passed_on tp j s2 s3 → passed_on tp (k + j) s1 s3.
Proof.
  intros Hp ((K1 & K2) & (c & []) & F1) ((J1 & J2) & (c' & []) & F2). unfold start_len in *. rewrite o_pty0 in *. cbn in J2.
  split; [unfold start_len; lia|]. split; [|by apply (flow_trans tp k j [] [] s1 s2 s3)]. exists c'. split; try congruence.
  - by rewrite o_pty1, passed_passed.
  - intros q Hq. rewrite o_other1, o_other0; done.
  - by rewrite o_mem1, o_mem0.
Qed.

Lemma pty_start_run tp s : pty_ok (pty_table s (pty_nr tp)) →
  wp (pty_start tp) (λ _ s', passed_on tp (start_len (pty_table s (pty_nr tp))) s s') s.
Proof.
  intros Hp. unfold pty_start. t_step. t_step. set (p := pty_table s (pty_nr tp)) in *.
  apply (wp_loop (λ _ s1, ∃ k, passed_on tp k s s1) (λ _ s1, Z.to_nat (ocount (pty_table s1 (pty_nr tp))))); [| |fold p; lia].
  - intros [] s1 [k Hk]. pose proof Hk as ((K1 & K2) & (c & []) & F1). fold p in K2, o_pty0. pose proof Hp as [Hc].
    assert (Hle : k ≤ ocount p ∧ k ≤ rdleft p) by (unfold start_len in K2; lia).
    assert (Hp1 : pty_ok (pty_table s1 (pty_nr tp))) by (rewrite o_pty0; apply passed_ok; [done|lia..]).
    eapply wp_mono; [by apply start_step_run|]. cbn beta. intros [[]|[]] s2.
    + intros (j & Hj & Hpj). split; [exists (k + j); by apply (passed_on_trans tp k j s s1 s2)|].
      destruct Hpj as (Hj2 & (c' & []) & _). rewrite o_pty1, o_pty0 in *. unfold start_len in Hj2. cbn in *. lia.
    + intros [-> E0]. rewrite o_pty0 in E0. unfold start_len in *. cbn in E0. replace (ocount p `min` rdleft p) with k by lia. done.
  - exists 0. split; [unfold start_len; pose proof Hp as []; fold p; lia|]. split; [|by apply flow_refl].
    exists (clicks (kern (sys s))). fold p. rewrite passed_0 by done. split; try done. by rewrite mem_same.
Qed.
End ptyout.
