(* ===== verification/Ttystream.v ===== *)
(** * Pseudo terminals as streams

    What is written to or echoed on a pseudo terminal, and what its reader gets:
    the characters of the writers after output processing, in their order, none
    lost and none twice. *)

From S2P Require Import Prelude Chain Sigset Proc Sched Ipc Receive Kernel Boot Userq Alloc Ksys Ksysp Ksafe Kmem Tty Ring Ttyout Ttyq.

(** ** The reference depends on the column modulo eight *)
Section columns.
Implicit Types (flags pos : Z) (l : list Z).

Lemma land7_mod x : Z.land x TAB_MASK = x mod 8.
Proof. unfold TAB_MASK. change 7 with (Z.ones 3). by rewrite Z.land_ones. Qed.

Lemma next_pos_mod flags pos pos' c : pos mod 8 = pos' mod 8 → next_pos flags pos c mod 8 = next_pos flags pos' c mod 8.
Proof.
  intros E. unfold next_pos. rewrite !land7_mod, <- E.
  repeat match goal with |- context [if ?b then _ else _] => destruct b end; try done.
  - by rewrite <- Zminus_mod_idemp_l, E, Zminus_mod_idemp_l.
  - by rewrite <- Zplus_mod_idemp_l, E, Zplus_mod_idemp_l.
  - by rewrite <- Zplus_mod_idemp_l, E, Zplus_mod_idemp_l.
Qed.
Lemma expand_mod flags l : ∀ pos pos', pos mod 8 = pos' mod 8 →
  expand flags pos l = expand flags pos' l ∧ column flags pos l mod 8 = column flags pos' l mod 8.
Proof.
  induction l as [|c l IH]; intros pos pos' E; [done|]. cbn [expand column foldl].
  destruct (IH _ _ (next_pos_mod flags pos pos' c E)) as [-> Ec]. split; [|exact Ec].
  f_equal. unfold out_char. by rewrite !land7_mod, E.
Qed.
Lemma expand_land flags pos l : expand flags (Z.land pos TAB_MASK) l = expand flags pos l.
Proof. apply expand_mod. by rewrite land7_mod, Z.mod_mod. Qed.
Lemma column_land flags pos l : Z.land (column flags (Z.land pos TAB_MASK) l) TAB_MASK = Z.land (column flags pos l) TAB_MASK.
Proof. rewrite !(land7_mod (column _ _ _)). apply expand_mod. by rewrite land7_mod, Z.mod_mod. Qed.
Lemma expand_app flags l1 l2 : ∀ pos, expand flags pos (l1 ++ l2) = expand flags pos l1 ++ expand flags (column flags pos l1) l2.
Proof. induction l1 as [|c l1 IH]; intros pos; [done|]. cbn [app expand column foldl]. by rewrite IH, app_assoc. Qed.
Lemma column_app flags l1 l2 pos : column flags pos (l1 ++ l2) = column flags (column flags pos l1) l2.
Proof. unfold column. by rewrite foldl_app. Qed.
Lemma out_char_length flags pos c : 1 ≤ Z.of_nat (length (out_char flags pos c)).
Proof.
  unfold out_char. destruct (_ && _); [done|]. destruct (_ && _); [|done]. rewrite length_replicate.
  pose proof (land7 pos). unfold TAB_SIZE. lia.
Qed.
End columns.

(** ** The output buffer *)
Section streams.
Context `{TtyWorld} `{Lines}.
Implicit Types (s : ttyst) (p : pty).

(** [buf], with [j] more characters, in the place of the output buffer. *)
Definition filled (buf : Z → Z) (j : Z) (p : pty) : pty :=
  p <| obuf := buf |> <| ocount := ocount p + j |> <| ohead := advance (ohead p) j |>.

Lemma advance_cell h j : 0 ≤ h < OBUF_SIZE → 0 ≤ j ≤ OBUF_SIZE → advance h j = cell OBUF_SIZE h j.
Proof.
  intros Hh Hj. unfold advance, cell. destruct (Z.leb_spec OBUF_SIZE (h + j)); [|by rewrite Z.mod_small by lia].
  rewrite <- (Z.mod_add (h + j) (-1) OBUF_SIZE) by done. rewrite Z.mod_small; lia.
Qed.
Lemma pty_head p : pty_ok p → 0 ≤ ohead p < OBUF_SIZE.
Proof. intros Hp. rewrite (p_head _ Hp). by apply cell_range. Qed.

(** The cells in use, seen from the head. *)
Lemma used_cells p i : pty_ok p → 0 ≤ i < ocount p → cell OBUF_SIZE (otail p) i = cell OBUF_SIZE (ohead p) (OBUF_SIZE - ocount p + i).
Proof.
  intros Hp Hi. rewrite (p_head _ Hp), cell_cell. replace (ocount p + (OBUF_SIZE - ocount p + i)) with (i + 1 * OBUF_SIZE) by lia.
  unfold cell. by rewrite Z.add_assoc, Z.mod_add.
Qed.
Lemma filled_spec p buf j : pty_ok p → 0 ≤ j ≤ OBUF_SIZE - ocount p →
  (∀ i, OBUF_SIZE - ocount p ≤ i < OBUF_SIZE → buf (cell OBUF_SIZE (ohead p) i) = obuf p (cell OBUF_SIZE (ohead p) i)) →
  pty_ok (filled buf j p) ∧ pq (filled buf j p) = pq p ++ ring OBUF_SIZE buf (ohead p) j.
Proof.
  intros Hp Hj Hb. pose proof (pty_head p Hp). pose proof Hp as []. split.
  - split; cbn; try done; try lia. rewrite advance_cell by lia. rewrite p_head. apply cell_cell.
  - unfold pq. cbn. rewrite ring_app, <- p_head by lia. f_equal. apply ring_ext. intros i Hi.
    rewrite used_cells by done. apply Hb. lia.
Qed.

(** Characters that only go into the buffer. *)
Lemma flow_put tp l s s' : pty_ok (pty_table s (pty_nr tp)) → pty_ok (pty_table s' (pty_nr tp)) →
  rdleft (pty_table s' (pty_nr tp)) = rdleft (pty_table s (pty_nr tp)) → rdvir (pty_table s' (pty_nr tp)) = rdvir (pty_table s (pty_nr tp)) →
  rdcum (pty_table s' (pty_nr tp)) = rdcum (pty_table s (pty_nr tp)) → rdproc (pty_table s' (pty_nr tp)) = rdproc (pty_table s (pty_nr tp)) →
  pq (pty_table s' (pty_nr tp)) = pq (pty_table s (pty_nr tp)) ++ l → sys s' = sys s → flow tp 0 l s s'.
Proof.
  intros [] _ El Ev Ec Ep Eq Es. split; rewrite ?Z.add_0_r, ?Z.sub_0_r; try done; try lia; [by rewrite u32_id|by rewrite s16_id|].
  exists (clicks (kern (sys s))). rewrite mem_same. split; [done|]. intros _. apply delivered_none.
Qed.

(** A quiet change of a pseudo terminal keeps the invariant. *)
Lemma tinv_pty tp s : tinv s → pty_line tp → pty_ok (pty_table s (pty_nr tp)) ∧ line_ok (tty_table s tp).
Proof. intros [] Hp. apply pty_line_ok in Hp as (? & _ & ?). auto. Qed.
Lemma echoed_pty tp s s' : tinv s → quiet tp s s' → same_in (tty_table s tp) (tty_table s' tp) →
  line_ok (tty_table s' tp) → pty_ok (pty_table s' (pty_nr tp)) → (∀ q, q ≠ pty_nr tp → pty_table s' q = pty_table s q) → echoed tp s s'.
Proof.
  intros Hi Hq Hs Hl Hp Ho. split; [done|]. split; [done|]. apply (quiet_tinv tp s); [done..|]. intros q Hq'.
  destruct (decide (q = pty_nr tp)) as [->|]; [done|]. rewrite Ho by done. by apply Hi.
Qed.

Lemma moved_line_ok t pos : line_ok t → 0 ≤ pos < 8 → line_ok (t <| tty_position := pos |>).
Proof. intros [] Hp. by split. Qed.

(** What the reader side leaves alone. *)
Lemma passed_on_line tp k s s' : passed_on tp k s s' → tty_table s' = tty_table s.
Proof. by intros (_ & (c & []) & _). Qed.

(** ** Echoing *)

(** Only the line [tp] and its pseudo terminal have changed. *)
Record put (tp : Z) (t1 : tty) (p1 : pty) (s s1 : ttyst) : Prop := Put {
  u_line : tty_table s1 tp = t1;
  u_lines : ∀ q, q ≠ tp → tty_table s1 q = tty_table s q;
  u_pty : pty_table s1 (pty_nr tp) = p1;
  u_ptys : ∀ q, q ≠ pty_nr tp → pty_table s1 q = pty_table s q;
  u_list : tty_timelist s1 = tty_timelist s;
  u_sys : sys s1 = sys s;
  u_sent : sent s1 = sent s
}.

Lemma put_echoed tp t1 p1 s s1 : tinv s → pty_line tp → put tp t1 p1 s s1 →
  erase_in t1 = erase_in (tty_table s tp) → same_in (tty_table s tp) t1 → line_ok t1 →
  erase_out p1 = erase_out (pty_table s (pty_nr tp)) → pty_ok p1 → echoed tp s s1.
Proof.
  intros Hi Hp [] Ee Es Hl Eo Hpo. apply echoed_pty; rewrite ?u_line0, ?u_pty0; try done. split; rewrite ?u_line0; try done.
  - intros q. by destruct (decide (q = pty_nr tp)) as [->|]; [rewrite u_pty0|rewrite u_ptys0].
  - exists (clicks (kern (sys s))). by rewrite mem_same.
Qed.
Ltac put_tac := split; cbn; rewrite ?fn_lookup_insert; try done; intros q Hq; by rewrite ?fn_lookup_insert_ne.

(** The reader side after that. *)
Lemma passed_on_echoed tp k s s' : tinv s → pty_line tp → passed_on tp k s s' → echoed tp s s'.
Proof.
  intros Hi Hp (Hk & (c & []) & Hf). destruct (tinv_pty tp s Hi Hp) as [Hpo Hl]. apply echoed_pty; rewrite ?o_lines, ?o_pty; try done.
  - split; rewrite ?o_lines; try done; [|by exists c]. intros q. destruct (decide (q = pty_nr tp)) as [->|]; [|by rewrite o_other].
    rewrite o_pty. by destruct (pty_table s (pty_nr tp)).
  - unfold start_len in Hk. apply passed_ok; [done|lia..].
Qed.

(** What the echo of [c] puts into the buffer: nothing when it does not fit. *)
Definition echo_chars (t : tty) (p : pty) (c : Z) : list Z :=
  let l := out_char (c_oflag (tty_termios t)) (tty_position t) (u8 c) in
  if OBUF_SIZE - ocount p <? Z.of_nat (length l) then [] else l.

Lemma ring_first bend (buf : Z → Z) h : 0 ≤ h < bend → ring bend buf h 1 = [buf h].
Proof. intros. by rewrite ring_one, cell_0. Qed.

Lemma pty_echo_run tp c s : tinv s → pty_line tp →
  wp (pty_echo tp c) (λ _ s', echoed tp s s' ∧ ∃ r, flow tp r (echo_chars (tty_table s tp) (pty_table s (pty_nr tp)) c) s s') s.
Proof.
  intros Hi Hpl. destruct (tinv_pty tp s Hi Hpl) as [Hp Hl]. pose proof (l_position _ Hl) as Hpos. pose proof (pty_head _ Hp) as Hh.
  pose proof (p_count _ Hp) as Hc. unfold pty_echo, echo_chars. t_step. t_step. set (p := pty_table s (pty_nr tp)) in *. set (t := tty_table s tp) in *.
  pose proof (out_char_length (c_oflag (tty_termios t)) (tty_position t) (u8 c)) as Hlen. set (room := OBUF_SIZE - ocount p).
  destruct (Z.eqb_spec room 0) as [E0|Hroom].
  { replace (room <? _) with true by lia. t_step. split; [by apply echoed_refl|]. exists 0. by apply flow_refl. }
  t_step. apply out_put_run; [done|]. t_step. set (b0 := <[ohead p := u8 c]> (obuf p)).
  assert (Eb : b0 (ohead p) = u8 c) by apply fn_lookup_insert.
  apply out_process_run; [done|lia..|]. cbv zeta. fold t. intros buf' k j pos' Hk Hj (Er & Epos & Hfr) Hkj Hk0.
  rewrite ring_first, Eb in Er, Epos by done. rewrite Eb in Hk0.
  assert (Hfr' : ∀ i, OBUF_SIZE - ocount p ≤ i < OBUF_SIZE → buf' (cell OBUF_SIZE (ohead p) i) = obuf p (cell OBUF_SIZE (ohead p) i)).
  { intros i Hii. rewrite Hfr by lia. apply fn_lookup_insert_ne. intros Ec. rewrite <- (cell_0 OBUF_SIZE (ohead p)) in Ec at 1 by done.
    apply cell_inj in Ec; lia. }
  destruct (filled_spec p buf' j Hp ltac:(lia) Hfr') as [Hpf Eq]. destruct (decide (k = 0)) as [->|Hk1].
  - replace (room <? _) with true by lia. change (take (Z.to_nat 0) [u8 c]) with (@nil Z) in *. cbn [expand] in Er. assert (j = 0) as -> .
    { pose proof (ring_length OBUF_SIZE buf' (ohead p) j ltac:(lia)) as Hrl. rewrite Er in Hrl. cbn in Hrl. lia. }
    cbn [column foldl] in Epos. subst pos'.
    destruct (filled_spec p buf' 0 Hp ltac:(lia) Hfr') as [Hpf0 Eq0].
    assert (Ef : filled buf' 0 p = p <| obuf := buf' |>).
    { unfold filled. rewrite Z.add_0_r, advance_cell, cell_0 by lia. by destruct p. }
    t_step. t_step. change (0 =? 0) with true. cbv iota. t_step. match goal with |- echoed _ _ ?x ∧ _ => set (s1 := x) end.
    assert (Hput : put tp (t <| tty_position := Z.land (tty_position t) TAB_MASK |>) (filled buf' 0 p) s s1) by (rewrite Ef; put_tac).
    split; [apply (put_echoed _ _ _ _ _ Hi Hpl Hput); try done; by apply moved_line_ok; [|apply land7]|].
    exists 0. destruct Hput. apply flow_put; rewrite ?u_pty0; try done.
  - assert (k = 1) as -> by lia. change (take (Z.to_nat 1) [u8 c]) with [u8 c] in *. cbn [expand column foldl] in Er, Epos. rewrite app_nil_r in Er.
    assert (Ej : Z.of_nat (length (out_char (c_oflag (tty_termios t)) (tty_position t) (u8 c))) = j).
    { rewrite <- Er. apply ring_length. lia. }
    replace (room <? _) with false by lia. rewrite <- Er. t_step. t_step. change (1 =? 0) with false. cbv iota. do 2 t_step.
    match goal with |- wp _ _ ?x => set (s1 := x) end.
    assert (Hput : put tp (t <| tty_position := Z.land pos' TAB_MASK |>) (filled buf' j p) s s1) by put_tac.
    assert (He1 : echoed tp s s1) by (apply (put_echoed _ _ _ _ _ Hi Hpl Hput); try done; by apply moved_line_ok; [|apply land7]).
    assert (Hf1 : flow tp 0 (ring OBUF_SIZE buf' (ohead p) j) s s1) by (destruct Hput; apply flow_put; rewrite ?u_pty0; done).
    clearbody s1. eapply wp_mono; [apply pty_start_run; by rewrite (u_pty _ _ _ _ _ Hput)|]. cbn beta. intros _ s2 Hs2. split.
    + eapply echoed_trans; [exact He1|]. eapply passed_on_echoed; [apply He1|done|exact Hs2].
    + destruct Hs2 as (_ & _ & Hf2). pose proof (flow_trans _ _ _ _ _ _ _ _ Hf1 Hf2) as Hf. rewrite app_nil_r in Hf. eauto.
Qed.

(** ** Writing *)

(** What the writer of a line still has to write. *)
Definition src (tp : Z) (s : ttyst) : list Z :=
  let t := tty_table s tp in
  map (mem_byte (clicks (kern (sys s)))) (seqZ (proc_vir2phys (procs (kern (sys s)) (tty_outproc t)) (tty_out_vir t)) (tty_outleft t)).
(** The buffers of the reader and of the writer lie in one piece each, and
    apart from each other. *)
Definition apart (tp : Z) (s : ttyst) : Prop :=
  let t := tty_table s tp in let p := pty_table s (pty_nr tp) in
  let w := proc_vir2phys (procs (kern (sys s)) (tty_outproc t)) (tty_out_vir t) in
  linear s (tty_outproc t) (tty_out_vir t) (tty_outleft t) ∧ linear s (rdproc p) (rdvir p) (rdleft p) ∧
  ∀ i j, 0 ≤ i < tty_outleft t → 0 ≤ j < rdleft p → w + i ≠ rd_addr s p + j.

(** [k] characters have been written, which put [X] into the stream, of which
    the reader has got the first [r] characters. *)
Record wrote_on (tp k r : Z) (X : list Z) (s s' : ttyst) : Prop := WroteOn {
  w_tinv : tinv s';
  w_flow : flow tp r X s s';
  w_range : 0 ≤ k ≤ tty_outleft (tty_table s tp);
  w_line : ∃ pos rep cum, tty_table s' tp = (tty_table s tp) <| tty_position := pos |> <| tty_reprint := rep |>
     <| tty_out_vir := u32 (tty_out_vir (tty_table s tp) + k) |> <| tty_outleft := tty_outleft (tty_table s tp) - k |> <| tty_outcum := cum |> ∧
     (k < tty_outleft (tty_table s tp) → cum = s16 (tty_outcum (tty_table s tp) + k));
  w_pty : erase_out (pty_table s' (pty_nr tp)) = erase_out (pty_table s (pty_nr tp));
  w_sent : sent s' = (if (0 <? k) && (k =? tty_outleft (tty_table s tp)) then
     [(tty_outcaller (tty_table s tp), Reply (tty_outrepcode (tty_table s tp)) (tty_outproc (tty_table s tp)) (s16 (tty_outcum (tty_table s tp) + k)))]
     else []) ++ sent s;
  w_all : 0 < k → r = Z.min (rdleft (pty_table s (pty_nr tp))) (Z.of_nat (length (pq (pty_table s (pty_nr tp)) ++ X)));
  w_none : k = 0 → r = 0 ∧ X = [];
  w_text : apart tp s →
     let flags := c_oflag (tty_termios (tty_table s tp)) in let pos := tty_position (tty_table s tp) in
     X = expand flags pos (take (Z.to_nat k) (src tp s)) ∧
     tty_position (tty_table s' tp) = Z.land (column flags pos (take (Z.to_nat k) (src tp s))) TAB_MASK ∧
     src tp s' = drop (Z.to_nat k) (src tp s) ∧ apart tp s'
}.

Lemma src_length tp s : 0 ≤ tty_outleft (tty_table s tp) → Z.of_nat (length (src tp s)) = tty_outleft (tty_table s tp).
Proof. intros. unfold src. rewrite length_map, length_seqZ. lia. Qed.

Lemma wrote_on_trans tp k1 k2 r1 r2 X1 X2 s1 s2 s3 : tinv s1 → pty_line tp → wrote_on tp k1 r1 X1 s1 s2 → wrote_on tp k2 r2 X2 s2 s3 →
  wrote_on tp (k1 + k2) (r1 + r2) (X1 ++ X2) s1 s3.
Proof.
  intros Hi Hpl [I1 F1 R1 (pos1 & rep1 & cum1 & L1 & C1) P1 S1 A1 N1 T1] [I2 F2 R2 (pos2 & rep2 & cum2 & L2 & C2) P2 S2 A2 N2 T2].
  rewrite L1 in R2, L2, C2, S2, T2. cbn in R2, C2, S2. pose proof (src_length tp s1 ltac:(lia)) as Hsl.
  split; [done|by eapply flow_trans|lia| |congruence| | |intros; destruct (N1 ltac:(lia)) as [-> ->], (N2 ltac:(lia)) as [-> ->]; done|].
  - exists pos2, rep2, cum2. split.
    + rewrite L2. destruct (tty_table s1 tp). cbn. rewrite u32_plus_l, Z.sub_add_distr, Z.add_assoc. done.
    + intros Hlt. rewrite C2, C1, s16_s16 by lia. f_equal. lia.
  - rewrite S2, S1. destruct (decide (k2 = 0)) as [->|].
    + change ((0 <? 0) && (0 =? tty_outleft (tty_table s1 tp) - k1)) with false. cbn [app]. by rewrite Z.add_0_r.
    + replace ((0 <? k2) && (k2 =? tty_outleft (tty_table s1 tp) - k1)) with (k1 + k2 =? tty_outleft (tty_table s1 tp)) by lia.
      replace (0 <? k1 + k2) with true by lia. replace ((0 <? k1) && (k1 =? tty_outleft (tty_table s1 tp))) with false by lia.
      cbn [andb app]. by rewrite C1, s16_s16, Z.add_assoc by lia.
  - intros Hk. destruct F1 as [(Fa & Fb & Fc) Fl _ _ _ Fq _], F2 as [(Ga & Gb & Gc) _ _ _ _ _ _].
    assert (E1 : k1 = 0 ∧ r1 = 0 ∧ X1 = [] ∨ r1 = Z.min (rdleft (pty_table s1 (pty_nr tp))) (Z.of_nat (length (pq (pty_table s1 (pty_nr tp)) ++ X1)))).
    { destruct (decide (k1 = 0)) as [E|]; [left; by destruct (N1 E)|right; apply A1; lia]. }
    assert (E2 : k2 = 0 ∧ r2 = 0 ∧ X2 = [] ∨ 0 < k2) by (destruct (decide (k2 = 0)) as [E|]; [left; by destruct (N2 E)|right; lia]).
    assert (E2' : 0 < k2 → r2 = Z.min (rdleft (pty_table s1 (pty_nr tp)) - r1) (Z.of_nat (length (pq (pty_table s1 (pty_nr tp)) ++ X1)) - r1 + Z.of_nat (length X2))).
    { intros H2. rewrite A2 by done. rewrite Fl, Fq, length_app, length_drop. f_equal. lia. }
    rewrite app_assoc, (length_app (_ ++ X1)).
    destruct E1 as [(-> & -> & ->)|E1], E2 as [(-> & -> & ->)|E2]; [lia| |cbn; lia|]; specialize (E2' E2); lia.
  - intros Ha. destruct (T1 Ha) as (-> & Ep & Es & Ha2). destruct (T2 Ha2) as (-> & Ep2 & Es2 & Ha3).
    assert (Epos : pos1 = Z.land (column (c_oflag (tty_termios (tty_table s1 tp))) (tty_position (tty_table s1 tp)) (take (Z.to_nat k1) (src tp s1))) TAB_MASK).
    { rewrite L1 in Ep. exact Ep. }
    cbn [tty_termios tty_position upd upd_tty_position upd_tty_reprint upd_tty_out_vir upd_tty_outleft upd_tty_outcum] in *.
    assert (Et : take (Z.to_nat (k1 + k2)) (src tp s1) = take (Z.to_nat k1) (src tp s1) ++ take (Z.to_nat k2) (src tp s2)).
    { rewrite Es, take_take_drop. f_equal. lia. }
    cbv zeta. rewrite Et, expand_app, column_app. split_and!; try done.
    + f_equal. by rewrite Epos, expand_land.
    + rewrite Ep2, Epos. apply column_land.
    + rewrite Es2, Es, drop_drop. f_equal. lia.
Qed.

Lemma flow_same tp r l s s2 s3 : flow tp r l s s2 → pty_table s3 = pty_table s2 → sys s3 = sys s2 → flow tp r l s s3.
Proof. intros [] Ep Es. split; rewrite ?Ep, ?Es; done. Qed.

Lemma seqZ_split k a n : 0 ≤ k ≤ n → seqZ a n = seqZ a k ++ seqZ (a + k) (n - k).
Proof. intros. rewrite <- seqZ_app by lia. f_equal. lia. Qed.
Lemma take_mapZ (f : Z → Z) a n k : 0 ≤ k ≤ n → take (Z.to_nat k) (map f (seqZ a n)) = map f (seqZ a k).
Proof.
  intros Hk. rewrite (seqZ_split k a n), map_app by lia. rewrite take_app_length'; [done|]. rewrite length_map, length_seqZ. lia.
Qed.
Lemma drop_mapZ (f : Z → Z) a n k : 0 ≤ k ≤ n → drop (Z.to_nat k) (map f (seqZ a n)) = map f (seqZ (a + k) (n - k)).
Proof.
  intros Hk. rewrite (seqZ_split k a n), map_app by lia. rewrite drop_app_length'; [done|]. rewrite length_map, length_seqZ. lia.
Qed.

(** What the writer still has to write, after [k] characters and what the
    reader has got of them. *)
Lemma src_after tp k r X s s' : 0 ≤ k ≤ tty_outleft (tty_table s tp) → flow tp r X s s' → apart tp s →
  tty_outproc (tty_table s' tp) = tty_outproc (tty_table s tp) → tty_out_vir (tty_table s' tp) = u32 (tty_out_vir (tty_table s tp) + k) →
  tty_outleft (tty_table s' tp) = tty_outleft (tty_table s tp) - k → src tp s' = drop (Z.to_nat k) (src tp s) ∧ apart tp s'.
Proof.
  intros Hk [(R1 & R2 & R3) Fl Fv Fc Fp Fq (c & Fm & Fd)] (Hw & Hr & Hd) Ep Ev El. specialize (Fd Hr).
  set (t := tty_table s tp) in *. set (p := pty_table s (pty_nr tp)) in *.
  assert (Epr : procs (kern (sys s')) = procs (kern (sys s))) by by rewrite Fm.
  destruct (linear_pass s s' _ _ k _ (proj1 Hk) Epr Hw) as [Hw2 Hwa]. destruct (linear_pass s s' _ _ r _ R1 Epr Hr) as [Hr2 Hra].
  set (w := proc_vir2phys (procs (kern (sys s)) (tty_outproc t)) (tty_out_vir t)) in *. split.
  - unfold src. fold t w. rewrite Ep, Ev, El, drop_mapZ by done. destruct (decide (k = tty_outleft t)) as [->|]; [by rewrite Z.sub_diag|].
    rewrite Hwa by lia. rewrite Fm. cbn. apply map_ext_in. intros b Hb%list_elem_of_In%elem_of_seqZ. rewrite Fd.
    replace ((rd_addr s p <=? b) && (b <? rd_addr s p + r)) with false; [done|]. symmetry. apply not_true_iff_false. intros E.
    apply (Hd (b - w) (b - rd_addr s p)); lia.
  - unfold apart. rewrite Ep, Ev, El, Fp, Fv, Fl. split; [done|]. split; [done|]. intros i j Hi Hj. unfold rd_addr.
    rewrite Fp, Fv, Hwa, Hra by lia. intros E. apply (Hd (k + i) (r + j)); [lia|lia|]. unfold rd_addr. fold w. lia.
Qed.

Lemma wp_tty_reply (Hok : ∀ l, send_status l = OK) code dst pr st (Q : unit → ttyst → Prop) s :
  Q tt (s <| sent := (dst, Reply code pr st) :: sent s |>) → wp (tty_reply code dst pr st) Q s.
Proof. intros HQ. unfold tty_reply, tty_send. t_step. t_step. t_step. t_step. rewrite Hok. apply wp_ret. exact HQ. Qed.

(** Changes of the line and of the pseudo terminal. *)
Lemma tinv_put tp s s1 c : tinv s → pty_line tp → (∀ q, q ≠ tp → tty_table s1 q = tty_table s q) →
  (∀ q, q ≠ pty_nr tp → pty_table s1 q = pty_table s q) → tty_timelist s1 = tty_timelist s → sys s1 = mem_set c (sys s) →
  tty_timenext (tty_table s1 tp) = tty_timenext (tty_table s tp) → tty_time (tty_table s1 tp) = tty_time (tty_table s tp) →
  line_ok (tty_table s1 tp) → pty_ok (pty_table s1 (pty_nr tp)) → tinv s1.
Proof.
  intros [H1 H2 [l H3] H4] Hp Hl Hpt Et Es E1 E2 Hlo Hpo. split.
  - intros q Hq. destruct (decide (q = tp)) as [->|]; [done|]. rewrite Hl by done. by apply H1.
  - intros q Hq. destruct (decide (q = pty_nr tp)) as [->|]; [done|]. rewrite Hpt by done. by apply H2.
  - exists l. eapply timers_ext, H3; [|done]. intros q. destruct (decide (q = tp)) as [->|]; [done|]. by rewrite Hl.
  - rewrite Es. by apply kinv_clicks.
Qed.
Lemma written_line_ok t pos rep vir cum left : line_ok t → 0 ≤ pos < 8 → 0 ≤ left ≤ tty_outleft t → 0 ≤ vir < 2 ^ 32 → - 2 ^ 15 ≤ cum < 2 ^ 15 →
  line_ok (t <| tty_position := pos |> <| tty_reprint := rep |> <| tty_out_vir := vir |> <| tty_outleft := left |> <| tty_outcum := cum |>).
Proof. intros [] Hp Hl Hv Hc. split; cbn; try done; try lia. intros. apply l_outproc. lia. Qed.

(** Why a writer waits. *)
Definition stopped (tp : Z) (s : ttyst) : Prop :=
  let t := tty_table s tp in let p := pty_table s (pty_nr tp) in
  tty_outleft t = 0 ∨ tty_inhibited t = true ∨
  ∃ c l, src tp s = c :: l ∧ OBUF_SIZE - ocount p < Z.of_nat (length (out_char (c_oflag (tty_termios t)) (tty_position t) c)).

Lemma wrote_on_refl tp s : tinv s → pty_line tp → wrote_on tp 0 0 [] s s.
Proof.
  intros Hi Hp. destruct (tinv_pty tp s Hi Hp) as [Hpo []].
  split; try done; try lia; [by apply flow_refl| |].
  - exists (tty_position (tty_table s tp)), (tty_reprint (tty_table s tp)), (tty_outcum (tty_table s tp)). split.
    + destruct (tty_table s tp). cbn in *. by rewrite Z.add_0_r, Z.sub_0_r, u32_id.
    + intros _. by rewrite Z.add_0_r, s16_id.
  - intros Ha. split_and!; try done. symmetry. etrans; [apply land7_mod|]. by apply Z.mod_small.
Qed.

(** A round that could not process a character only touches free cells. *)
Lemma wrote_on_none tp buf pos s s1 : tinv s → pty_line tp → pos = tty_position (tty_table s tp) →
  pty_ok (filled buf 0 (pty_table s (pty_nr tp))) → pq (filled buf 0 (pty_table s (pty_nr tp))) = pq (pty_table s (pty_nr tp)) →
  put tp ((tty_table s tp) <| tty_position := pos |>) (filled buf 0 (pty_table s (pty_nr tp))) s s1 → 
  wrote_on tp 0 0 [] s s1.
Proof.
  intros Hi Hp -> Hf Eq Hput. pose proof (wrote_on_refl tp s Hi Hp) as [].
  destruct (tinv_pty tp s Hi Hp) as [Hpo Hl]. pose proof Hput as [U1 U2 U3 U4 U5 U6 U7].
  assert (Et : tty_table s1 tp = tty_table s tp) by (rewrite U1; by destruct (tty_table s tp)).
  split; try done.
  - apply (tinv_put tp s s1 (clicks (kern (sys s)))); try done; rewrite ?U3, ?Et; try done. by rewrite mem_same.
  - apply flow_put; rewrite ?U3; try done. by rewrite app_nil_r.
  - rewrite Et. exact w_line0.
  - rewrite U3. by destruct (pty_table s (pty_nr tp)).
  - intros Ha. specialize (w_text0 Ha). rewrite Et. split_and!; try apply w_text0.
    + unfold src. rewrite Et, U6. done.
    + destruct w_text0 as (_ & _ & _ & Ha'). unfold apart in *. rewrite Et, U3. unfold rd_addr, linear in *. rewrite U6. exact Ha'.
Qed.

Lemma copy_in_run a n (Q : list Z → ttyst → Prop) s :
  Q (map (mem_byte (clicks (kern (sys s)))) (seqZ a n)) s → wp (kcall (copy_in a n)) Q s.
Proof. intros HQ. apply wp_kcall. unfold copy_in. apply wp_gets. by rewrite sys_same. Qed.

(** The buffer with the characters [l] of the writer in it. *)
Definition loaded (p : pty) (l : list Z) (i : Z) : Z :=
  if (ohead p <=? i) && (i <? ohead p + Z.of_nat (length l)) then nth (Z.to_nat (i - ohead p)) l 0 else obuf p i.
Lemma loaded_ring p l : 0 ≤ ohead p → ohead p + Z.of_nat (length l) ≤ OBUF_SIZE → ring OBUF_SIZE (loaded p l) (ohead p) (Z.of_nat (length l)) = l.
Proof.
  intros Hh Hl. apply ring_eq; [lia|done|]. intros i Hi. unfold loaded, cell. rewrite Z.mod_small by lia.
  replace ((ohead p <=? ohead p + i) && (ohead p + i <? ohead p + Z.of_nat (length l))) with true by lia.
  replace (ohead p + i - ohead p) with i by lia. symmetry. rewrite nth_lookup.
  destruct (lookup_lt_is_Some_2 l (Z.to_nat i) ltac:(lia)) as [x Ex]. by rewrite Ex.
Qed.
Lemma loaded_free p l i : 0 ≤ ohead p < OBUF_SIZE → ohead p + Z.of_nat (length l) ≤ OBUF_SIZE → Z.of_nat (length l) ≤ i < OBUF_SIZE →
  loaded p l (cell OBUF_SIZE (ohead p) i) = obuf p (cell OBUF_SIZE (ohead p) i).
Proof.
  intros Hh Hl Hi. unfold loaded. destruct (_ && _) eqn:E; [|done]. exfalso.
  set (x := cell OBUF_SIZE (ohead p) i) in *. assert (Ex : cell OBUF_SIZE (ohead p) (x - ohead p) = x).
  { unfold cell. replace (ohead p + (x - ohead p)) with x by lia. apply Z.mod_small. lia. }
  unfold x in Ex at 2. apply cell_inj in Ex; lia.
Qed.

(** The rest of a round, after output processing: the copy to the reader, the
    counters, and the reply. *)
Lemma write_tail tp k j buf pos s s1 : (∀ l, send_status l = OK) → tinv s → pty_line tp →
  let t := tty_table s tp in let p := pty_table s (pty_nr tp) in
  0 < k ≤ tty_outleft t → pos = Z.land (column (c_oflag (tty_termios t)) (tty_position t) (take (Z.to_nat k) (src tp s))) TAB_MASK →
  pty_ok (filled buf j p) → pq (filled buf j p) = pq p ++ expand (c_oflag (tty_termios t)) (tty_position t) (take (Z.to_nat k) (src tp s)) →
  put tp (t <| tty_position := pos |> <| tty_reprint := true |>) (filled buf j p) s s1 →
  wp (pty_start tp;;
      tset tp (λ t, t <| tty_out_vir := u32 (tty_out_vir t + k) |> <| tty_outcum := s16 (tty_outcum t + k) |>
                  <| tty_outleft := tty_outleft t - k |>);;
      t ← line tp;
      when (tty_outleft t =? 0)
        (reply_out tp (tty_outcum t);; tset tp (λ t, t <| tty_outcum := 0 |>));;
      mret (inl tt : unit + unit))
    (λ x s', x = inl tt ∧ ∃ r X, wrote_on tp k r X s s') s1.
Proof.
  cbv zeta. intros Hok Hi Hp Hk Epos Hf Eq Hput. destruct (tinv_pty tp s Hi Hp) as [Hpo Hl]. pose proof Hput as [U1 U2 U3 U4 U5 U6 U7].
  set (t := tty_table s tp) in *. set (p := pty_table s (pty_nr tp)) in *. set (X := expand _ _ _) in *.
  t_step. eapply wp_mono; [apply pty_start_run; by rewrite U3|]. cbn beta. intros _ s2 Hs2. pose proof (passed_on_line _ _ _ _ Hs2) as Et2.
  destruct Hs2 as (Hr & (c & Ho) & Hfl). set (r := start_len _) in *. rewrite U3 in Ho.
  assert (Er0 : r = start_len (filled buf j p)) by (unfold r; by rewrite U3).
  assert (Hfl2 : flow tp r X s s2).
  { assert (Hf1 : flow tp 0 X s s1) by (apply flow_put; rewrite ?U3; done).
    pose proof (flow_trans _ _ _ _ _ _ _ _ Hf1 Hfl) as Hx. by rewrite app_nil_r in Hx. }
  assert (Er : r = Z.min (rdleft p) (Z.of_nat (length (pq p ++ X)))).
  { rewrite Er0. unfold start_len. rewrite <- Eq, pq_length by done. cbn. lia. }
  destruct Ho as [_ Ol Os Op Oq Om].
  t_step. t_step. t_step. t_step. t_step. cbn [tty_table upd upd_tty_table]. rewrite fn_lookup_insert, Et2, U1.
  cbn [tty_outleft upd upd_tty_outleft upd_tty_outcum upd_tty_out_vir upd_tty_position upd_tty_reprint].
  set (t3 := _ <| tty_outleft := tty_outleft t - k |>). match goal with |- wp _ _ ?x => set (s3 := x) end.
  assert (H3 : ∀ s' t', t' = (t <| tty_position := pos |> <| tty_reprint := true |> <| tty_out_vir := u32 (tty_out_vir t + k) |>
       <| tty_outleft := tty_outleft t - k |> <| tty_outcum := tty_outcum t' |>) → - 2 ^ 15 ≤ tty_outcum t' < 2 ^ 15 →
     (k < tty_outleft t → tty_outcum t' = s16 (tty_outcum t + k)) →
     tty_table s' tp = t' → (∀ q, q ≠ tp → tty_table s' q = tty_table s2 q) → pty_table s' = pty_table s2 → sys s' = sys s2 → tty_timelist s' = tty_timelist s2 →
     sent s' = (if k =? tty_outleft t then [(tty_outcaller t, Reply (tty_outrepcode t) (tty_outproc t) (s16 (tty_outcum t + k)))] else []) ++ sent s →
     wrote_on tp k r X s s').
  { intros s' t' E' Hcr Hcum Et' Eo' Ep' Es' El' Esent.
    assert (Hfl' : flow tp r X s s') by by apply (flow_same tp r X s s2).
    split; fold t p; rewrite ?Ep'; try done; try lia.
    - apply (tinv_put tp s s' c); try done; rewrite ?Et', ?Ep', ?Op, ?Es', ?El'; try (by rewrite E'); try congruence.
      + intros q Hq. rewrite Eo', Et2, U2; done.
      + intros q Hq. rewrite Oq, U4; done.
      + rewrite E'. apply written_line_ok; [done|rewrite Epos; apply land7|lia|apply u32_range|done].
      + clear Hr. unfold start_len in Er0. pose proof (p_count _ Hf). pose proof (p_rdleft _ Hf). apply passed_ok; [done|lia..].
    - exists pos, true, (tty_outcum t'). split; [rewrite Et', E' at 1; done|done].
    - rewrite Op. by destruct p.
    - rewrite Esent. by replace (0 <? k) with true by lia.
    - intros Ha. split_and!; [done|by rewrite Et', E'|..]; (apply (src_after tp k r X s s'); fold t; rewrite ?Et'; try done; try lia; by rewrite E'). }
  assert (Es3 : ∀ q, q ≠ tp → tty_table s3 q = tty_table s2 q) by (intros q Hq; cbn; by rewrite Et2, fn_lookup_insert_ne).
  destruct (Z.eqb_spec (tty_outleft t - k) 0) as [E0|Hne].
  - t_step. t_step. unfold reply_out. t_step. t_step. apply wp_tty_reply; [done|]. t_step. t_step. split; [done|].
    exists r, X. eapply H3; cbn; try reflexivity; try done; rewrite ?fn_lookup_insert; cbn.
    all: try lia. 
    + reflexivity.
    + intros q Hq. rewrite !fn_lookup_insert_ne by congruence. by rewrite Et2.
    + replace (k =? tty_outleft t) with true by lia. cbn. by rewrite Os, U7.
  - t_step. t_step. split; [done|]. exists r, X. apply (H3 s3 t3); try done.
    + cbn. apply s16_range.
    + unfold s3. cbn. by rewrite fn_lookup_insert.
    + replace (k =? tty_outleft t) with false by lia. cbn. by rewrite Os, U7.
Qed.

Lemma write_step_run tp s : (∀ l, send_status l = OK) → tinv s → pty_line tp →
  wp (pty_write_step tp tt) (λ x s', ∃ k r X, wrote_on tp k r X s s' ∧
    match x with inl _ => 0 < k | inr _ => k = 0 ∧ stopped tp s end) s.
Proof.
  intros Hok Hi Hp. destruct (tinv_pty tp s Hi Hp) as [Hpo Hl]. pose proof (pty_head _ Hpo) as Hh. pose proof (l_position _ Hl) as Hpos.
  pose proof (l_outleft _ Hl) as Hol. pose proof (p_count _ Hpo) as Hc.
  unfold pty_write_step. do 4 t_step. set (p := pty_table s (pty_nr tp)) in *. set (t := tty_table s tp) in *.
  set (room := OBUF_SIZE - ocount p). set (count := if tty_outleft t <? _ then _ else _).
  assert (Ec : count = Z.min (tty_outleft t) (Z.min room (OBUF_SIZE - ohead p))).
  { unfold count. destruct (Z.ltb_spec room (OBUF_SIZE - ohead p)); [destruct (Z.ltb_spec (tty_outleft t) room)|destruct (Z.ltb_spec (tty_outleft t) (OBUF_SIZE - ohead p))]; lia. }
  clearbody count. pose proof (src_length tp s ltac:(fold t; lia)) as Hsl. fold t in Hsl.
  destruct ((count =? 0) || tty_inhibited t) eqn:Estop.
  { t_step. exists 0, 0, []. split; [by apply wrote_on_refl|]. split; [done|]. unfold stopped. fold t p.
    destruct (tty_inhibited t); [by right; left|]. destruct (decide (tty_outleft t = 0)); [by left|right; right].
    destruct (src tp s) as [|c l]; [cbn in Hsl; lia|]. exists c, l. split; [done|].
    pose proof (out_char_length (c_oflag (tty_termios t)) (tty_position t) c). lia. }
  assert (Hcnt : 0 < count) by lia. t_step. apply user_addr_run; [apply (l_outproc _ Hl); fold t; lia|]. t_step. apply copy_in_run.
  set (w := proc_vir2phys _ _). set (l := map _ (seqZ w count)).
  assert (Hll : Z.of_nat (length l) = count) by (unfold l; rewrite length_map, length_seqZ; lia).
  assert (Esrc : ∀ k, 0 ≤ k ≤ count → take (Z.to_nat k) l = take (Z.to_nat k) (src tp s)).
  { intros k Hk. unfold l, src. fold t w. rewrite !take_mapZ by lia. done. }
  t_step. replace ((0 <=? ohead p) && (ohead p + count <=? OBUF_SIZE)) with true by lia. t_step. t_step.
  assert (Hring : ring OBUF_SIZE (loaded p l) (ohead p) count = l) by (rewrite <- Hll; apply loaded_ring; lia).
  assert (Hfree : ∀ i, count ≤ i < OBUF_SIZE → loaded p l (cell OBUF_SIZE (ohead p) i) = obuf p (cell OBUF_SIZE (ohead p) i)).
  { intros i Hii. apply loaded_free; lia. }
  unfold loaded in Hring, Hfree. rewrite Hll in Hring, Hfree. set (b0 := λ i, if (ohead p <=? i) && _ then _ else _) in *.
  apply out_process_run; [done|lia..|]. cbv zeta. fold t. intros buf' k j pos' Hk Hj (Er & Epos & Hfr) Hkj Hk0.
  rewrite Hring in Er, Epos. rewrite Esrc in Er, Epos by done.
  assert (Hfr' : ∀ i, OBUF_SIZE - ocount p ≤ i < OBUF_SIZE → buf' (cell OBUF_SIZE (ohead p) i) = obuf p (cell OBUF_SIZE (ohead p) i)).
  { intros i Hii. rewrite Hfr by lia. apply Hfree. lia. }
  destruct (filled_spec p buf' j Hpo ltac:(lia) Hfr') as [Hpf Eq]. rewrite Er in Eq.
  t_step. t_step. destruct (Z.eqb_spec k 0) as [->|Hkn].
  - t_step. change (take (Z.to_nat 0) (src tp s)) with (@nil Z) in *. cbn [expand column foldl] in Er, Epos, Eq. subst pos'. rewrite app_nil_r in Eq.
    assert (j = 0) as ->. { pose proof (ring_length OBUF_SIZE buf' (ohead p) j ltac:(lia)) as Hrl. rewrite Er in Hrl. done. }
    exists 0, 0, []. split.
    + apply (wrote_on_none tp buf' (Z.land (tty_position t) TAB_MASK)); [done|done|fold t; rewrite land7_mod; by apply Z.mod_small|done|exact Eq|]. fold t p.
      assert (Ef : filled buf' 0 p = p <| obuf := buf' |>).
      { unfold filled. rewrite Z.add_0_r, advance_cell, (cell_0 OBUF_SIZE (ohead p)) by (try done; lia). by destruct p. }
      rewrite Ef. put_tac.
    + split; [done|]. right; right. fold t p. specialize (Hk0 eq_refl Hcnt).
      destruct (src tp s) as [|c l'] eqn:Es; [cbn in Hsl; lia|]. exists c, l'. split; [done|].
      assert (Eb : b0 (ohead p) = c); [|by rewrite Eb in Hk0].
      specialize (Esrc 1 ltac:(lia)). rewrite (ring_cons OBUF_SIZE) in Hring by lia. rewrite <- Hring in Esrc. by injection Esrc.
  - t_step. t_step. t_step. t_step. match goal with |- wp _ _ ?x => set (s1 := x) end.
    assert (Hput : put tp (t <| tty_position := Z.land pos' TAB_MASK |> <| tty_reprint := true |>) (filled buf' j p) s s1).
    { put_tac. }
    eapply wp_mono; [apply (write_tail tp k j buf' (Z.land pos' TAB_MASK) s s1); try done; [fold t; lia|by rewrite Epos]|].
    cbn beta. intros ? s' [-> (r & X & Hw)]. exists k, r, X. split; [done|lia].
Qed.

Lemma stopped_kept tp r X s s' : tinv s → pty_line tp → apart tp s → wrote_on tp 0 r X s s' → stopped tp s → stopped tp s'.
Proof.
  intros Hi Hp Ha [I F R (pos & rep & cum & L & C) P S A N T] Hs. destruct (tinv_pty tp s Hi Hp) as [Hpo Hl]. destruct (tinv_pty tp s' I Hp) as [Hpo' _].
  destruct (T Ha) as (_ & Ep & Es & _). destruct (N eq_refl) as [-> ->]. clear T A N.
  assert (Eo : ocount (pty_table s' (pty_nr tp)) = ocount (pty_table s (pty_nr tp))).
  { rewrite <- !pq_length by done. rewrite (f_queue _ _ _ _ _ F), app_nil_r. done. }
  assert (Epp : tty_position (tty_table s' tp) = tty_position (tty_table s tp)).
  { rewrite Ep. change (take (Z.to_nat 0) (src tp s)) with (@nil Z). etrans; [apply land7_mod|]. apply Z.mod_small, l_position, Hl. }
  unfold stopped in *. rewrite Eo, Epp, Es. change (drop (Z.to_nat 0) (src tp s)) with (src tp s). rewrite L. cbn. rewrite Z.sub_0_r.
  destruct Hs as [E|[E|E]]; [left; exact E|right; left; exact E|right; right; exact E].
Qed.

Lemma write_loop_run tp s : (∀ l, send_status l = OK) → tinv s → pty_line tp →
  wp (loop (S (Z.to_nat (tty_outleft (tty_table s tp)))) (pty_write_step tp) tt)
    (λ _ s', ∃ k r X, wrote_on tp k r X s s' ∧ (apart tp s → stopped tp s')) s.
Proof.
  intros Hok Hi Hp.
  apply (wp_loop (λ _ s1, ∃ k r X, wrote_on tp k r X s s1) (λ _ s1, Z.to_nat (tty_outleft (tty_table s1 tp)))); [| |lia].
  - intros [] s1 (k & r & X & Hw). eapply wp_mono; [apply write_step_run; [done|apply Hw|done]|]. cbn beta.
    intros x s2 (k2 & r2 & X2 & Hw2 & Hx). pose proof (wrote_on_trans _ _ _ _ _ _ _ _ _ _ Hi Hp Hw Hw2) as Hw3.
    destruct x as [[]|[]].
    + split; [eauto|]. destruct (w_line _ _ _ _ _ _ Hw2) as (? & ? & ? & E & _). rewrite E.
      pose proof (w_range _ _ _ _ _ _ Hw2). cbn. lia.
    + destruct Hx as [-> Hst]. exists (k + 0), (r + r2), (X ++ X2). split; [done|]. intros Ha.
      apply (stopped_kept tp r2 X2 s1 s2); try done; [apply Hw|]. by apply (w_text _ _ _ _ _ _ Hw).
  - exists 0, 0, []. by apply wrote_on_refl.
Qed.

(** The reply to the reader, when he has got something. *)
Definition finished (p : pty) : pty := if 0 <? rdcum p then p <| rdleft := 0 |> <| rdcum := 0 |> else p.
Lemma pty_finish_run tp (Q : unit → ttyst → Prop) s : (∀ l, send_status l = OK) →
  let p := pty_table s (pty_nr tp) in
  (∀ s', tty_table s' = tty_table s → tty_timelist s' = tty_timelist s → sys s' = sys s →
     sent s' = (if 0 <? rdcum p then [(rdcaller p, Reply (rdrepcode p) (rdproc p) (rdcum p))] else []) ++ sent s →
     pty_table s' (pty_nr tp) = finished p → (∀ q, q ≠ pty_nr tp → pty_table s' q = pty_table s q) → Q tt s') →
  wp (pty_finish tp) Q s.
Proof.
  cbv zeta. intros Hok HQ. unfold pty_finish, finished in *. t_step. t_step. destruct (0 <? _) eqn:E.
  - t_step. t_step. apply wp_tty_reply; [done|]. t_step. apply HQ; cbn; rewrite ?fn_lookup_insert; try done.
    intros q Hq. by rewrite fn_lookup_insert_ne.
  - t_step. by apply HQ.
Qed.
Lemma finished_ok p : pty_ok p → pty_ok (finished p) ∧ pq (finished p) = pq p.
Proof. intros Hp. unfold finished. destruct (0 <? _); [|done]. split; [|done]. destruct Hp. split; cbn; try done; try lia. Qed.
End streams.
