(* ===== verification/Ttyecho.v ===== *)
(** * Echoing and erasing

    What the user sees does not matter for what is read: [echo], [reprint] and
    the like leave the characters of the input queue as they are ([clean]), but
    for the numbers of cells they take on the screen; [back_over] removes the
    last character of the current line. *)

From S2P Require Import Prelude Chain Sigset Proc Sched Ipc Receive Kernel Boot Userq Alloc Ksys Ksysp Ksafe Kmem Tty Ring Ttyout Ttyq Ttystream.

(** ** Loops *)
Section loops.
Context {S : Type}.
Lemma wp_for_each {R} (I : S → Prop) (l : list Z) (f : Z → M S (option R)) Q s :
  (∀ x s, x ∈ l → I s → wp (f x) (λ r s', match r with Some _ => Q r s' | None => I s' end) s) →
  I s → (∀ s, I s → Q None s) → wp (for_each l f) Q s.
Proof.
  intros Hf HI Hn. revert s HI. induction l as [|x l IH]; intros s HI; cbn [for_each]; [by apply wp_ret, Hn|].
  apply wp_bind. eapply wp_mono; [apply Hf; [left|done]|]. intros [r|] s' H'; [by apply wp_ret|].
  apply IH; [|done]. intros y s2 Hy. apply Hf. by right.
Qed.
Lemma wp_fold_inv {A} (I : A → S → Prop) (f : A → Z → M S A) (l : list Z) a s :
  (∀ a x s, I a s → wp (f a x) I s) → I a s → wp (fold_m f a l) I s.
Proof.
  intros Hf. revert a s. induction l as [|x l IH]; intros a s HI; cbn [fold_m]; [by apply wp_ret|].
  apply wp_bind. eapply wp_mono; [by apply Hf|]. intros a' s' H'. by apply IH.
Qed.
End loops.

(** ** Characters with flags *)
Section words.
Implicit Types (c x y : Z) (l : list Z).

Lemma word_lor x y : is_word x → is_word y → is_word (Z.lor x y).
Proof.
  unfold is_word. intros Hx Hy. split; [apply Z.lor_nonneg; lia|].
  assert (E : Z.shiftr (Z.lor x y) 15 = 0).
  { rewrite Z.shiftr_lor, !Z.shiftr_div_pow2, !Z.div_small by lia. done. }
  rewrite Z.shiftr_div_pow2 in E by lia. assert (0 ≤ Z.lor x y) by (apply Z.lor_nonneg; lia). apply Z.div_small_iff in E; lia.
Qed.
Lemma word_land x m : is_word x → is_word (Z.land x m).
Proof.
  unfold is_word. intros Hx. split; [apply Z.land_nonneg; lia|].
  assert (E : Z.shiftr (Z.land x m) 15 = 0).
  { rewrite Z.shiftr_land. rewrite (Z.shiftr_div_pow2 x), Z.div_small by lia. apply Z.land_0_l. }
  rewrite Z.shiftr_div_pow2 in E by lia. assert (0 ≤ Z.land x m) by (apply Z.land_nonneg; lia). apply Z.div_small_iff in E; lia.
Qed.
Lemma word_u16 x : is_word x → u16 x = x.
Proof. unfold is_word. intros. apply u16_id. lia. Qed.

(** The flags of a character, and how many cells it takes. *)
Definition clean_char c : Z := clrf c IN_LEN.
Lemma clean_idem c : clean_char (clean_char c) = clean_char c.
Proof. unfold clean_char, clrf. by rewrite <- Z.land_assoc, Z.land_diag. Qed.
Lemma clean_has c m : Z.land IN_LEN m = 0 → has (clean_char c) m = has c m.
Proof. intros Hm. unfold clean_char. apply has_clrf_other. by rewrite Z.land_comm in Hm; rewrite Z.land_comm. Qed.
Lemma shown_len n : 0 ≤ n ≤ 8 → is_word (Z.shiftl n IN_LSHIFT) ∧ clean_char (Z.shiftl n IN_LSHIFT) = 0.
Proof.
  intros Hn. assert (n = 0 ∨ n = 1 ∨ n = 2 ∨ n = 3 ∨ n = 4 ∨ n = 5 ∨ n = 6 ∨ n = 7 ∨ n = 8) as Hc by lia.
  unfold is_word. destruct Hc as [->|[->|[->|[->|[->|[->|[->|[->| ->]]]]]]]]; done.
Qed.
Lemma clean_len c n : 0 ≤ n ≤ 8 → clean_char (Z.lor (clean_char c) (Z.shiftl n IN_LSHIFT)) = clean_char c.
Proof.
  intros Hn. destruct (shown_len n Hn) as [_ E]. unfold clean_char in *. unfold clrf at 1. rewrite Z.land_lor_distr_l.
  change (Z.land (Z.shiftl n IN_LSHIFT) (Z.lnot IN_LEN)) with (clrf (Z.shiftl n IN_LSHIFT) IN_LEN). rewrite E, Z.lor_0_r. apply clean_idem.
Qed.
Lemma eots_clean l : eots (map clean_char l) = eots l.
Proof.
  unfold eots. induction l as [|c l IH]; [done|]. cbn [map]. rewrite !filter_cons. rewrite clean_has by done.
  case_decide; cbn [length]; lia.
Qed.
End words.

Definition clean (t : tty) : list Z := map clean_char (queue t).
(** The characters of the queue are the same; the screen may not be. *)
Record shown (tp : Z) (s s' : ttyst) : Prop := Shown {
  sh_quiet : quiet tp s s';
  sh_tinv : tinv s';
  sh_clean : clean (tty_table s' tp) = clean (tty_table s tp);
  sh_head : tty_inhead (tty_table s' tp) = tty_inhead (tty_table s tp);
  sh_count : tty_incount (tty_table s' tp) = tty_incount (tty_table s tp)
}.

Section echoes.
Context `{TtyWorld} `{Lines}.
Implicit Types (s : ttyst) (t : tty).

Lemma queue_same t t' : same_in t t' → tty_intail t' = tty_intail t → queue t' = queue t.
Proof. intros (E1 & _ & E3) E. unfold queue. by rewrite E1, E3, E. Qed.
Lemma echoed_queue tp s s' : echoed tp s s' → queue (tty_table s' tp) = queue (tty_table s tp).
Proof. intros (Hq & Hs & _). apply queue_same; [done|]. by apply (quiet_fields tp s s' Hq). Qed.
Lemma echoed_shown tp s s' : echoed tp s s' → shown tp s s'.
Proof. intros He. pose proof He as (Hq & (_ & E2 & E3) & Hi). split; try done. unfold clean. by rewrite (echoed_queue tp s s' He). Qed.
Lemma shown_trans tp s1 s2 s3 : shown tp s1 s2 → shown tp s2 s3 → shown tp s1 s3.
Proof. intros [] []. split; try congruence. by eapply line_quiet_trans. Qed.
Lemma shown_refl tp s : tinv s → shown tp s s.
Proof. intros. split; try done. apply line_quiet_refl. Qed.

(** Only the mark that the line must be reprinted. *)
Lemma reprint_echoed tp b s : tinv s → a_line tp → echoed tp s (s <| tty_table := <[tp := (tty_table s tp) <| tty_reprint := b |>]> (tty_table s) |>).
Proof.
  intros Hi Hp. pose proof (t_lines _ Hi tp Hp) as Hl. split; [|split].
  - split; cbn; rewrite ?fn_lookup_insert; try done.
    + intros q Hq. by rewrite fn_lookup_insert_ne.
    + exists (clicks (kern (sys s))). by rewrite mem_same.
  - by split_and!; cbn; rewrite fn_lookup_insert.
  - apply (quiet_tinv tp s); [done| | |apply Hi].
    + split; cbn; rewrite ?fn_lookup_insert; try done.
      * intros q Hq. by rewrite fn_lookup_insert_ne.
      * exists (clicks (kern (sys s))). by rewrite mem_same.
    + cbn. rewrite fn_lookup_insert. by destruct Hl.
Qed.

Lemma tty_echo_run tp c s : tinv s → pty_line tp → wp (tty_echo tp c) (λ _ s', echoed tp s s') s.
Proof.
  intros Hi Hp. unfold tty_echo. destruct (pty_line_ok tp Hp) as (_ & -> & _).
  eapply wp_mono; [by apply pty_echo_run|]. by intros _ s' [He _].
Qed.
(** Echoing on what has been echoed. *)
Lemma echo_more tp c s s1 : echoed tp s s1 → pty_line tp → wp (tty_echo tp c) (λ _ s', echoed tp s s') s1.
Proof.
  intros He Hp. eapply wp_mono; [apply tty_echo_run; [apply He|done]|]. cbn beta. intros _ s' He'. by eapply echoed_trans.
Qed.

Lemma rawecho_run tp ch s : tinv s → pty_line tp → wp (rawecho tp ch) (λ _ s', echoed tp s s') s.
Proof.
  intros Hi Hp. unfold rawecho. t_step. t_step. t_step. destruct (pty_line_ok tp Hp) as (Ha & _).
  assert (Hend : ∀ s1, echoed tp s s1 → wp (tset tp (λ t', t' <| tty_reprint := tty_reprint (tty_table s tp) |>)) (λ _ s', echoed tp s s') s1).
  { intros s1 He. t_step. eapply echoed_trans; [exact He|]. apply reprint_echoed; [apply He|done]. }
  destruct (lflag _ _); [t_step; eapply wp_mono; [by apply tty_echo_run|]; cbn beta; intros _ s1 He; by apply Hend|].
  t_step. apply Hend. by apply echoed_refl.
Qed.
Lemma rawecho_more tp ch s s1 : shown tp s s1 → pty_line tp → wp (rawecho tp ch) (λ _ s', shown tp s s') s1.
Proof.
  intros Hs Hp. eapply wp_mono; [apply rawecho_run; [apply Hs|done]|]. cbn beta. intros _ s' He. eapply shown_trans; [exact Hs|]. by apply echoed_shown.
Qed.

Lemma echo_tab_run tp s s0 : echoed tp s0 s → pty_line tp → wp (echo_tab tp) (λ n s', 0 ≤ n ≤ 8 ∧ echoed tp s0 s') s.
Proof.
  intros He Hp. unfold echo_tab. t_step.
  eapply (wp_mono _ (λ r s', echoed tp s0 s' ∧ match r with Some n => 0 ≤ n ≤ 8 | None => True end)).
  - apply (wp_for_each (echoed tp s0)); [|done|done]. intros x s1 Hx%elem_of_seqZ He1. t_step.
    eapply wp_mono; [by apply (echo_more tp SPACE s0 s1)|]. cbn beta. intros _ s2 He2. t_step. t_step. t_step.
    destruct (negb _); [done|]. split; [done|]. unfold TAB_SIZE in Hx. lia.
  - cbn beta. intros [n|] s' [He' Hn]; t_step; (split; [|done]); [exact Hn|cbn; unfold TAB_SIZE; lia].
Qed.

Ltac e_step tp := t_step; eapply wp_mono; [eapply echo_more; [eassumption|assumption]|]; cbn beta; intros [] ?s ?He.
Lemma echo_shown_run tp ch s : tinv s → pty_line tp → wp (echo_shown tp ch) (λ n s', 0 ≤ n ≤ 8 ∧ echoed tp s s') s.
Proof.
  intros Hi Hp. pose proof (echoed_refl tp s Hi) as He. unfold echo_shown. cbv zeta. destruct (_ <? SPACE).
  - destruct (_ =? TAB); [by apply echo_tab_run|]. destruct (_ || _); [e_step tp; t_step; done|]. e_step tp. e_step tp. t_step. done.
  - destruct (_ =? DEL); [e_step tp; e_step tp; t_step; done|]. e_step tp. t_step. done.
Qed.

Lemma echo_run tp ch s : tinv s → pty_line tp → is_word ch →
  wp (echo tp ch) (λ r s', echoed tp s s' ∧ is_word r ∧ clean_char r = clean_char ch) s.
Proof.
  intros Hi Hp Hw. destruct (pty_line_ok tp Hp) as (Ha & _). unfold echo. t_step. t_step. fold (clean_char ch).
  assert (Hcw : is_word (clean_char ch)) by by apply word_land.
  destruct (negb _).
  { t_step. destruct (_ && _); [t_step; eapply wp_mono; [by apply tty_echo_run|]; cbn beta; intros _ s1 He; t_step|t_step; t_step].
    - split; [done|]. split; [done|]. apply clean_idem.
    - split; [by apply echoed_refl|]. split; [done|]. apply clean_idem. }
  t_step. eapply wp_mono; [by apply echo_shown_run|]. cbn beta. intros n s1 [Hn He1]. t_step.
  eapply (wp_mono _ (λ n s', 0 ≤ n ≤ 8 ∧ echoed tp s s')).
  - destruct (has _ _); [|by t_step]. t_step. eapply wp_mono; [apply (wp_fold_inv (λ _ s', echoed tp s s')); [|exact He1]|].
    + intros [] x s2 He2. by apply (echo_more tp BS s s2).
    + cbn beta. intros _ s2 He2. by t_step.
  - cbn beta. intros n2 s2 [Hn2 He2]. t_step. t_step. t_step. split; [|split].
    + eapply echoed_trans; [exact He2|]. apply reprint_echoed; [apply He2|done].
    + apply word_lor; [done|]. by apply shown_len.
    + by apply clean_len.
Qed.
End echoes.

(** ** The queue as a list *)
Section lists.
Implicit Types (l : list Z) (t : tty).

(** Erasing and killing, on the list. *)
Definition eot_last (l : list Z) : bool := match last l with Some c => has c IN_EOT | None => true end.
Definition erase (l : list Z) : list Z := if eot_last l then l else removelast l.
Fixpoint kill_rev (l : list Z) : list Z := match l with c :: l' => if has c IN_EOT then l else kill_rev l' | [] => [] end.
Definition kill (l : list Z) : list Z := reverse (kill_rev (reverse l)).

Lemma eot_last_snoc l c : eot_last (l ++ [c]) = has c IN_EOT.
Proof. unfold eot_last. by rewrite last_snoc. Qed.
Lemma erase_snoc l c : erase (l ++ [c]) = if has c IN_EOT then l ++ [c] else l.
Proof. unfold erase. rewrite eot_last_snoc, removelast_last. done. Qed.
Lemma kill_erase l : kill l = if eot_last l then l else kill (removelast l).
Proof.
  induction l as [|c l _] using rev_ind; [done|]. rewrite eot_last_snoc, removelast_last. unfold kill at 1.
  rewrite reverse_snoc. cbn [kill_rev]. destruct (has c IN_EOT); [|done]. by rewrite reverse_cons, reverse_involutive.
Qed.
Lemma eots_app l1 l2 : eots (l1 ++ l2) = eots l1 + eots l2.
Proof. unfold eots. rewrite filter_app, length_app. lia. Qed.
Lemma eots_one c : eots [c] = if has c IN_EOT then 1 else 0.
Proof. unfold eots. rewrite filter_cons, filter_nil. destruct (has c IN_EOT); case_decide; done. Qed.
Lemma eots_erase l : eots (erase l) = eots l.
Proof.
  induction l as [|c l _] using rev_ind; [done|]. rewrite erase_snoc. destruct (has c IN_EOT) eqn:E; [done|].
  rewrite eots_app, eots_one, E. lia.
Qed.

Lemma inq_length t : line_ok t → Z.of_nat (length (queue t)) = tty_incount t.
Proof. intros []. apply ring_length. lia. Qed.
Lemma clean_length t : line_ok t → Z.of_nat (length (clean t)) = tty_incount t.
Proof. intros. unfold clean. rewrite length_map. by apply inq_length. Qed.
Lemma queue_lookup t i : line_ok t → 0 ≤ i < tty_incount t → queue t !! Z.to_nat i = Some (tty_inbuf t (cell TTY_IN_BYTES (tty_intail t) i)).
Proof. intros _ Hi. by apply ring_lookup. Qed.
Lemma cell_word t i : line_ok t → 0 ≤ i < tty_incount t → is_word (tty_inbuf t (cell TTY_IN_BYTES (tty_intail t) i)).
Proof. intros Hl Hi. pose proof (l_words _ Hl) as Hw. rewrite Forall_lookup in Hw. by eapply Hw, queue_lookup. Qed.

(** The line stays well formed when only the cells, the head and the count of
    its queue change. *)
Lemma line_ok_queue t t' : line_ok t → erase_in t' = erase_in t → 0 ≤ tty_position t' < 8 → 0 ≤ tty_incount t' ≤ TTY_IN_BYTES →
  tty_inhead t' = cell TTY_IN_BYTES (tty_intail t) (tty_incount t') → eots (queue t') = eots (queue t) → Forall is_word (queue t') → line_ok t'.
Proof.
  intros Hl E Hpos Hc Hh He Hw. destruct t, t'. unfold erase_in in E. cbn in *. injection E. intros. subst. destruct Hl. cbn in *.
  split; cbn; try done. by rewrite He.
Qed.
End lists.

Section editing.
Context `{TtyWorld} `{Lines}.
Implicit Types (s : ttyst) (t : tty).

Lemma inq_get_run tp i (Q : Z → ttyst → Prop) s : 0 ≤ i < TTY_IN_BYTES → Q (tty_inbuf (tty_table s tp) i) s → wp (inq_get tp i) Q s.
Proof. intros Hi HQ. unfold inq_get. replace ((0 <=? i) && (i <? TTY_IN_BYTES)) with true by lia. by apply wp_gets. Qed.

Definition set_cell (i v : Z) (t : tty) : tty := t <| tty_inbuf := <[i := v]> (tty_inbuf t) |>.
Lemma inq_set_run tp i v (Q : unit → ttyst → Prop) s : 0 ≤ i < TTY_IN_BYTES → is_word v →
  Q tt (s <| tty_table := <[tp := set_cell i v (tty_table s tp)]> (tty_table s) |>) → wp (inq_set tp i v) Q s.
Proof.
  intros Hi Hv HQ. unfold inq_set. replace ((0 <=? i) && (i <? TTY_IN_BYTES)) with true by lia. apply wp_modify. by rewrite word_u16.
Qed.

(** A cell gets the same character, shown differently. *)
Lemma set_cell_shown tp i v s : tinv s → a_line tp → let t := tty_table s tp in
  0 ≤ i < tty_incount t → is_word v → clean_char v = clean_char (tty_inbuf t (cell TTY_IN_BYTES (tty_intail t) i)) →
  shown tp s (s <| tty_table := <[tp := set_cell (cell TTY_IN_BYTES (tty_intail t) i) v t]> (tty_table s) |>).
Proof.
  cbv zeta. intros Hi Hp Hr Hv Ev. pose proof (t_lines _ Hi tp Hp) as Hl. set (t := tty_table s tp) in *. set (x := cell _ _ i) in *.
  assert (Eq : queue (set_cell x v t) = <[Z.to_nat i := v]> (queue t)).
  { unfold queue, set_cell. cbn. apply ring_insert; [done|done|apply Hl]. }
  assert (Ec : clean (set_cell x v t) = clean t).
  { unfold clean. rewrite Eq. change (map clean_char) with (fmap (M:=list) clean_char). rewrite list_fmap_insert. apply list_insert_id.
    rewrite list_lookup_fmap, queue_lookup by done. cbn. by rewrite Ev. }
  assert (Hq : quiet tp s (s <| tty_table := <[tp := set_cell x v t]> (tty_table s) |>)).
  { split; cbn; rewrite ?fn_lookup_insert; try done.
    - intros q Hq. by rewrite fn_lookup_insert_ne.
    - exists (clicks (kern (sys s))). by rewrite mem_same. }
  split; cbn; rewrite ?fn_lookup_insert; try done. apply (quiet_tinv tp s); [done|done| |apply Hi].
  cbn. rewrite fn_lookup_insert. apply (line_ok_queue t); try done; try apply Hl.
  - rewrite <- eots_clean. fold (clean (set_cell x v t)). rewrite Ec. apply eots_clean.
  - rewrite Eq. apply Forall_insert; [apply Hl|done].
Qed.

(** The characters that are seen do not depend on how they are shown. *)
Lemma shown_has tp s s' i m : shown tp s s' → tinv s → a_line tp → Z.land IN_LEN m = 0 →
  0 ≤ i < tty_incount (tty_table s tp) →
  has (tty_inbuf (tty_table s' tp) (cell TTY_IN_BYTES (tty_intail (tty_table s tp)) i)) m =
  has (tty_inbuf (tty_table s tp) (cell TTY_IN_BYTES (tty_intail (tty_table s tp)) i)) m.
Proof.
  intros [Hq Hi' Ec _ En] Hi Hp Hm Hr. assert (Et : tty_intail (tty_table s' tp) = tty_intail (tty_table s tp)) by apply (quiet_fields tp s s' Hq).
  pose proof (queue_lookup _ i (t_lines _ Hi tp Hp) Hr) as L1. pose proof (queue_lookup _ i (t_lines _ Hi' tp Hp) ltac:(lia)) as L2.
  rewrite Et in L2. rewrite <- (clean_has _ m Hm), <- (clean_has (tty_inbuf (tty_table s tp) _) m Hm). f_equal.
  assert (E : clean (tty_table s' tp) !! Z.to_nat i = clean (tty_table s tp) !! Z.to_nat i) by by rewrite Ec.
  unfold clean in E. change (map clean_char) with (fmap (M:=list) clean_char) in E. rewrite !list_lookup_fmap, L1, L2 in E. by injection E.
Qed.

(** ** reprint *)

(** A pointer into the queue, which may still have to wrap around. *)
Definition points (t : tty) (head count : Z) : Prop :=
  0 ≤ count ≤ tty_incount t ∧ 0 ≤ head ≤ TTY_IN_BYTES ∧ (if head =? TTY_IN_BYTES then 0 else head) = cell TTY_IN_BYTES (tty_intail t) count.

Lemma break_run tp s x : tinv s → a_line tp → points (tty_table s tp) x.1 x.2 →
  wp (loop in_fuel (break_step tp) x) (λ y s', s' = s ∧ points (tty_table s tp) y.1 y.2) s.
Proof.
  intros Hi Hp Hx. pose proof (t_lines _ Hi tp Hp) as Hl. pose proof (l_count _ Hl) as Hc.
  apply (wp_loop (λ x s', s' = s ∧ points (tty_table s tp) x.1 x.2) (λ x _, Z.to_nat x.2)).
  - intros [head count] ? [-> Hpt]. unfold break_step. destruct (Z.leb_spec count 0); [by t_step|]. destruct Hpt as (B1 & B2 & B3). cbn in *.
    set (h := if head =? 0 then _ else _). 
    assert (Eh : 1 ≤ h ≤ TTY_IN_BYTES ∧ h - 1 = cell TTY_IN_BYTES (tty_intail (tty_table s tp)) (count - 1)).
    { assert (E1 : cell TTY_IN_BYTES (tty_intail (tty_table s tp)) (count - 1) = cell TTY_IN_BYTES (if head =? TTY_IN_BYTES then 0 else head) (-1)).
      { rewrite B3, cell_cell. f_equal. }
      rewrite E1. destruct (Z.eqb_spec head TTY_IN_BYTES) as [->|].
      - rewrite <- cell_prev by done. done.
      - rewrite <- cell_prev by lia. unfold h. destruct (Z.eqb_spec head 0); [by subst|]. split; [lia|done]. }
    t_step. apply inq_get_run; [lia|]. destruct (has _ _).
    + t_step. split; [done|]. unfold points. cbn. split; [lia|]. split; [lia|]. rewrite <- B3. unfold h.
      destruct (Z.eqb_spec head 0) as [->|]; done.
    + t_step. split; [split; [done|]|cbn; lia]. cbn. split; [lia|]. split; [lia|]. rewrite <- (proj2 Eh).
      destruct (Z.eqb_spec (h - 1) TTY_IN_BYTES); lia.
  - done.
  - unfold in_fuel. destruct Hx. lia.
Qed.

Lemma reprint_loop_run tp s head count : tinv s → pty_line tp → points (tty_table s tp) head count → count < tty_incount (tty_table s tp) →
  wp (loop in_fuel (reprint_step tp) (head, count)) (λ _ s', shown tp s s') s.
Proof.
  intros Hi Hp Hpt Hlt. destruct (pty_line_ok tp Hp) as (Ha & _). pose proof (l_count _ (t_lines _ Hi tp Ha)) as Hc.
  apply (wp_loop (λ x s1, shown tp s s1 ∧ points (tty_table s1 tp) x.1 x.2 ∧ x.2 < tty_incount (tty_table s tp))
                 (λ x _, Z.to_nat (tty_incount (tty_table s tp) - x.2))).
  - clear head count Hpt Hlt. intros [head count] s1 (Hs1 & (B1 & B2 & B3) & Hlt). cbn in *. pose proof (sh_tinv _ _ _ Hs1) as Hi1.
    pose proof (t_lines _ Hi1 tp Ha) as Hl1. unfold reprint_step. t_step. apply inq_get_run; [rewrite B3; by apply cell_range|].
    rewrite B3. set (i := cell _ _ count) in *. assert (Hw : is_word (tty_inbuf (tty_table s1 tp) i)) by (apply cell_word; [done|rewrite (sh_count _ _ _ Hs1) in *; lia]).
    t_step. eapply wp_mono; [by apply echo_run|]. cbn beta. intros ch s2 (He2 & Hwc & Ec). t_step.
    assert (Et2 : tty_intail (tty_table s2 tp) = tty_intail (tty_table s1 tp)) by apply (quiet_fields tp s1 s2 (proj1 He2)).
    assert (Ei : i = cell TTY_IN_BYTES (tty_intail (tty_table s2 tp)) count) by (unfold i; by rewrite Et2).
    destruct He2 as (Hq2 & (Eb & Eh & En) & Hi2). assert (Hs2 : shown tp s1 s2) by by apply echoed_shown.
    rewrite Ei. apply inq_set_run; [by apply cell_range|done|]. set (s3 := s2 <| tty_table := _ |>).
    assert (Hs3 : shown tp s2 s3).
    { apply set_cell_shown; [done|done|rewrite (sh_count _ _ _ Hs1) in *; lia|done|]. rewrite <- Ei, Eb. exact Ec. }
    assert (Hs : shown tp s s3) by (eapply shown_trans; [exact Hs1|]; by eapply shown_trans).
    clearbody s3. t_step. t_step. rewrite (sh_count _ _ _ Hs). destruct (Z.ltb_spec (count + 1) (tty_incount (tty_table s tp))); t_step; [|done].
    split; [|cbn; lia]. split; [done|]. split; [|cbn; lia]. cbn.
    assert (Et3 : tty_intail (tty_table s3 tp) = tty_intail (tty_table s1 tp)).
    { rewrite <- Et2. apply (quiet_fields tp s2 s3 (sh_quiet _ _ _ Hs3)). }
    unfold points. rewrite (sh_count _ _ _ Hs), Et3. split; [lia|].
    pose proof (cell_range TTY_IN_BYTES ltac:(done) (tty_intail (tty_table s1 tp)) count) as Hcr. fold i in Hcr. split; [lia|].
    rewrite cell_next by lia. unfold i. by rewrite cell_cell, Et2.
  - split; [by apply shown_refl|]. done.
  - unfold in_fuel, points in *. cbn. unfold TTY_IN_BYTES in *. lia.
Qed.
End editing.

Section erasing.
Context `{TtyWorld} `{Lines}.
Implicit Types (s : ttyst) (t : tty).

Lemma reprint_run tp s : tinv s → pty_line tp → is_word (Z.lor (cc (tty_table s tp) VREPRINT) IN_ESC) →
  wp (reprint tp) (λ _ s', shown tp s s') s.
Proof.
  intros Hi Hp Hw. destruct (pty_line_ok tp Hp) as (Ha & _). unfold reprint. t_step. t_step. t_step. t_step.
  set (s1 := s <| tty_table := _ |>). assert (He1 : echoed tp s s1) by by apply reprint_echoed.
  pose proof (echoed_shown tp s s1 He1) as Hs1. assert (Hi1 : tinv s1) by apply He1. pose proof (t_lines _ Hi1 tp Ha) as Hl1.
  assert (Ecc : cc (tty_table s1 tp) VREPRINT = cc (tty_table s tp) VREPRINT).
  { unfold cc. by rewrite (proj1 (quiet_fields tp s s1 (proj1 He1))). }
  clearbody s1. t_step. eapply wp_mono; [apply (break_run tp s1); [done|done|]|].
  - unfold points. cbn. pose proof (l_count _ Hl1) as Hc. pose proof (l_head _ Hl1) as Hh.
    pose proof (cell_range TTY_IN_BYTES ltac:(done) (tty_intail (tty_table s1 tp)) (tty_incount (tty_table s1 tp))) as Hr.
    split; [lia|]. split; [lia|]. rewrite <- Hh. destruct (Z.eqb_spec (tty_inhead (tty_table s1 tp)) TTY_IN_BYTES); lia.
  - cbn beta. intros [head count] s2 [-> Hpt]. cbn in Hpt. destruct (Z.eqb_spec count (tty_incount (tty_table s1 tp))) as [|Hne]; [by t_step|].
    t_step. eapply wp_mono; [apply echo_run; [done|done|by rewrite Ecc]|]. cbn beta. intros _ s2 (He2 & _). t_step.
    assert (Hs2 : shown tp s1 s2) by by apply echoed_shown.
    eapply wp_mono; [by apply (rawecho_more tp CR s1 s2)|]. cbn beta. intros _ s3 Hs3. t_step.
    eapply wp_mono; [by apply (rawecho_more tp LF s1 s3)|]. cbn beta. intros _ s4 Hs4.
    assert (Et : tty_intail (tty_table s4 tp) = tty_intail (tty_table s1 tp)) by apply (quiet_fields tp s1 s4 (sh_quiet _ _ _ Hs4)).
    destruct Hpt as (P1 & P2 & P3). pose proof (sh_count _ _ _ Hs4) as En.
    eapply wp_mono; [apply reprint_loop_run; [apply Hs4|done| |lia]|].
    + split; [lia|]. split; [done|]. by rewrite Et.
    + cbn beta. intros _ s5 Hs5. eapply shown_trans; [exact Hs1|]. by eapply shown_trans.
Qed.

(** One character less. *)
Lemma drop_last t : line_ok t → 0 < tty_incount t →
  queue t = queue (t <| tty_inhead := prev_in (tty_inhead t) |> <| tty_incount := tty_incount t - 1 |>) ++ [tty_inbuf t (prev_in (tty_inhead t))] ∧
  prev_in (tty_inhead t) = cell TTY_IN_BYTES (tty_intail t) (tty_incount t - 1).
Proof.
  intros Hl Hc. assert (E : prev_in (tty_inhead t) = cell TTY_IN_BYTES (tty_intail t) (tty_incount t - 1)).
  { unfold prev_in. rewrite (l_head _ Hl), cell_prev by (try apply cell_range; done). rewrite cell_cell. f_equal. }
  split; [|done]. rewrite E. unfold queue. cbn. rewrite (ring_last TTY_IN_BYTES) by done. done.
Qed.

(** [back_over] removes the last character of the current line, if there is
    one. *)
Record erased (tp : Z) (s s' : ttyst) (l : list Z) : Prop := Erased {
  er_quiet : quiet tp s s';
  er_tinv : tinv s';
  er_clean : clean (tty_table s' tp) = l
}.
Lemma erased_trans tp s1 s2 s3 l1 l2 : erased tp s1 s2 l1 → erased tp s2 s3 l2 → erased tp s1 s3 l2.
Proof. intros [] []. split; try done. by eapply line_quiet_trans. Qed.
Lemma shown_erased tp s s' : shown tp s s' → erased tp s s' (clean (tty_table s tp)).
Proof. by intros []. Qed.
Lemma erased_shown tp s s' s'' l : erased tp s s' l → shown tp s' s'' → erased tp s s'' l.
Proof. intros [E1 E2 E3] []. split; [by eapply line_quiet_trans|done|congruence]. Qed.

Lemma clean_snoc_inv t l c : clean t = l ++ [c] → ∀ q x, queue t = q ++ [x] → l = map clean_char q ∧ c = clean_char x.
Proof. unfold clean. intros E q x Eq. rewrite Eq, map_app in E. apply app_inj_2 in E as [-> [= <-]]; done. Qed.

Lemma back_over_run tp s : tinv s → pty_line tp → is_word (Z.lor (cc (tty_table s tp) VREPRINT) IN_ESC) →
  wp (back_over tp) (λ b s', erased tp s s' (erase (clean (tty_table s tp))) ∧ b = negb (eot_last (clean (tty_table s tp)))) s.
Proof.
  intros Hi Hp Hw. destruct (pty_line_ok tp Hp) as (Ha & _). pose proof (t_lines _ Hi tp Ha) as Hl. unfold back_over. t_step. t_step.
  set (t := tty_table s tp) in *. pose proof (l_count _ Hl) as Hc. pose proof (clean_length t Hl) as Hcl.
  destruct (Z.eqb_spec (tty_incount t) 0) as [E0|Hne].
  { t_step. destruct (clean t) eqn:Ecl; [|cbn in Hcl; lia]. split; [|done]. change (erase []) with (@nil Z). rewrite <- Ecl. apply shown_erased. by apply shown_refl. }
  destruct (drop_last t Hl ltac:(lia)) as [Eq Eh]. set (h := prev_in (tty_inhead t)) in *.
  assert (Hhr : 0 ≤ h < TTY_IN_BYTES) by (rewrite Eh; by apply cell_range). t_step. apply inq_get_run; [done|]. fold t.
  set (q := queue (t <| tty_inhead := _ |> <| tty_incount := _ |>)) in *.
  assert (Ecl : clean t = map clean_char q ++ [clean_char (tty_inbuf t h)]) by (unfold clean; by rewrite Eq, map_app).
  rewrite Ecl, erase_snoc, eot_last_snoc, clean_has by done.
  destruct (has (tty_inbuf t h) IN_EOT) eqn:Eeot.
  { t_step. split; [|done]. rewrite <- Ecl. apply shown_erased. by apply shown_refl. }
  assert (Hrest : ∀ s1, shown tp s s1 → wp (tset tp (λ t, t <| tty_inhead := h |> <| tty_incount := tty_incount t - 1 |>);;
    when (lflag t ECHOE)
    (ch ← inq_get tp h;
     fold_m (λ _ _, rawecho tp BS;; rawecho tp SPACE;; rawecho tp BS) tt (seqZ 0 (Z.shiftr (Z.land ch IN_LEN) IN_LSHIFT)));;
    mret true) (λ b s', erased tp s s' (map clean_char q) ∧ b = negb false) s1).
  { intros s1 Hs1. pose proof Hs1 as [Hq1 Hi1 Ec1 Eh1 En1]. fold t in Ec1, Eh1, En1. pose proof (t_lines _ Hi1 tp Ha) as Hl1. set (t1 := tty_table s1 tp) in *.
    destruct (drop_last t1 Hl1 ltac:(lia)) as [Eq1 Ehh]. rewrite Eh1 in Eq1, Ehh. fold h in Eq1, Ehh.
    destruct (clean_snoc_inv t1 (map clean_char q) (clean_char (tty_inbuf t h)) ltac:(by rewrite Ec1) _ _ Eq1) as [Emq Ex].
    set (t2 := t1 <| tty_inhead := h |> <| tty_incount := tty_incount t1 - 1 |>) in *.
    t_step. t_step. set (s2 := s1 <| tty_table := _ |>).
    assert (Hcl2 : clean t2 = map clean_char q) by by rewrite Emq.
    assert (Hwd : Forall is_word (queue t2)). { pose proof (l_words _ Hl1) as Hw1. rewrite Eq1 in Hw1. by apply Forall_app in Hw1 as [? _]. }
    assert (Heo : eots (queue t2) = eots (queue t1)).
    { rewrite Eq1, eots_app, eots_one. rewrite <- (clean_has _ IN_EOT), <- Ex, clean_has, Eeot by done. lia. }
    assert (Hq2 : quiet tp s1 s2).
    { split; cbn; rewrite ?fn_lookup_insert; try done.
      - intros q' Hq'. by rewrite fn_lookup_insert_ne.
      - exists (clicks (kern (sys s1))). by rewrite mem_same. }
    assert (He2 : erased tp s s2 (map clean_char q)).
    { split; [by eapply line_quiet_trans| |].
      - apply (quiet_tinv tp s1); [done|done| |apply Hi1]. cbn. rewrite fn_lookup_insert. apply (line_ok_queue t1); try done; cbn.
        + apply Hl1.
        + fold t1. lia.
      - cbn. rewrite fn_lookup_insert. exact Hcl2. }
    t_step. apply wp_when; intros _; [|t_step; by split]. t_step. apply inq_get_run; [done|].
    eapply wp_mono; [apply (wp_fold_inv (λ _ s', erased tp s s' (map clean_char q))); [|exact He2]|].
    - intros [] x s3 He3. pose proof (shown_refl tp s3 (er_tinv _ _ _ _ He3)) as Hsh.
      t_step. eapply wp_mono; [by apply (rawecho_more tp BS s3 s3)|]. cbn beta. intros _ s4 Hs4.
      t_step. eapply wp_mono; [by apply (rawecho_more tp SPACE s3 s4)|]. cbn beta. intros _ s5 Hs5.
      eapply wp_mono; [by apply (rawecho_more tp BS s3 s5)|]. cbn beta. intros _ s6 Hs6. by eapply erased_shown.
    - cbn beta. intros _ s3 He3. t_step. by split. }
  t_step. apply wp_when.
  - intros _. eapply wp_mono; [by apply reprint_run|]. cbn beta. intros _ s1 Hs1. by apply Hrest.
  - intros _. apply Hrest. by apply shown_refl.
Qed.

Lemma kill_line_run tp s : tinv s → pty_line tp → is_word (Z.lor (cc (tty_table s tp) VREPRINT) IN_ESC) →
  wp (kill_line tp) (λ _ s', erased tp s s' (kill (clean (tty_table s tp)))) s.
Proof.
  intros Hi Hp Hw. destruct (pty_line_ok tp Hp) as (Ha & _). unfold kill_line.
  apply (wp_loop (λ _ s1, ∃ l, erased tp s s1 l ∧ kill l = kill (clean (tty_table s tp))) (λ _ s1, length (clean (tty_table s1 tp)))).
  - intros [] s1 (l & [Hq1 Hi1 El] & Ek). t_step. eapply wp_mono; [apply back_over_run; [done|done|]|].
    { unfold cc. by rewrite (proj1 (quiet_fields tp s s1 Hq1)). }
    cbn beta. intros b s2 ([Hq2 Hi2 El2] & ->). rewrite El in *. unfold erase in El2. pose proof (kill_erase l) as Hk. 
    destruct (eot_last l) eqn:Ee; cbn [negb]; t_step.
    + split; [by eapply line_quiet_trans|done|]. congruence.
    + split. { exists (removelast l). split; [split; [by eapply line_quiet_trans|done|done]|congruence]. }
      rewrite El2. destruct l as [|x l] using rev_ind; [done|]. rewrite removelast_last, length_app. cbn. lia.
  - exists (clean (tty_table s tp)). split; [|done]. apply shown_erased. by apply shown_refl.
  - pose proof (t_lines _ Hi tp Ha) as Hl. pose proof (clean_length _ Hl). pose proof (l_count _ Hl). unfold in_fuel. lia.
Qed.
End erasing.
