(* ===== verification/Ttyedit.v ===== *)
(** * Line editing

    The reference is an editor on lists: [edit] says what a typed character does
    to the text that waits to be read, newest character last.  [in_process]
    implements it in the circular queue, whatever is shown on the screen. *)

From S2P Require Import Prelude Chain Sigset Proc Sched Ipc Receive Kernel Boot Userq Alloc Ksys Ksysp Ksafe Kmem Tty Ring Ttyout Ttyq Ttystream Ttyecho.

(** ** The reference *)
Record ed := Ed { text : list Z; esc : bool; inh : bool }.

Section editor.
Context (T : termios).
Notation i := (has (c_iflag T)).
Notation l := (has (c_lflag T)).
Notation cc := (c_cc T).

(** Escapes, and the line on the screen. *)
Definition edit_ext (e : ed) (ch : Z) : ed * option Z :=
  if negb (l IEXTEN) then (e, Some ch) else
  let ch := if esc e then Z.lor ch IN_ESC else ch in
  if ch =? cc VLNEXT then (Ed (text e) true (inh e), None)
  else (Ed (text e) false (inh e), if ch =? cc VREPRINT then None else Some ch).
(** Carriage returns and line feeds. *)
Definition edit_map (ch : Z) : option Z :=
  let ch := if ch =? POSIX_VDISABLE then Z.lor ch IN_ESC else ch in
  if ch =? CR then if i IGNCR then None else Some (if i ICRNL then LF else ch)
  else Some (if (ch =? LF) && i INLCR then CR else ch).
(** Erasing, and the ends of lines. *)
Definition edit_canon (e : ed) (ch : Z) : ed * option Z :=
  if ch =? cc VERASE then (Ed (erase (text e)) (esc e) (inh e), None)
  else if ch =? cc VKILL then (Ed (kill (text e)) (esc e) (inh e), None)
  else
    let ch := if ch =? cc VEOF then Z.lor ch (Z.lor IN_EOT IN_EOF) else ch in
    let ch := if ch =? LF then Z.lor ch IN_EOT else ch in
    (e, Some (if ch =? cc VEOL then Z.lor ch IN_EOT else ch)).
(** Stopped and started output. *)
Definition edit_flow (e : ed) (ch : Z) : ed * option Z :=
  if negb (i IXON) then (e, Some ch)
  else if ch =? cc VSTOP then (Ed (text e) (esc e) true, None)
  else if inh e && ((ch =? cc VSTART) || i IXANY) then (Ed (text e) (esc e) false, if ch =? cc VSTART then None else Some ch)
  else (e, Some ch).
(** Signals, which flush what has been typed. *)
Definition edit_sig (e : ed) (ch : Z) : option (ed * Z) :=
  if l ISIG && ((ch =? cc VINTR) || (ch =? cc VQUIT))
  then Some (if l NOFLSH then e else Ed [] (esc e) false, if ch =? cc VQUIT then SIGQUIT else SIGINT)
  else None.
(** The text, which holds no more than the queue. *)
Definition edit_store (e : ed) (ch : Z) : ed :=
  if Z.of_nat (length (text e)) =? TTY_IN_BYTES then e else Ed (text e ++ [clean_char ch]) (esc e) (inh e).

(** One character: the editor and the signals it raises. *)
Definition edit (e : ed) (c : Z) : ed * list Z :=
  let ch := if i ISTRIP then Z.land (u8 c) 0x7F else u8 c in
  match edit_ext e ch with (e, None) => (e, []) | (e, Some ch) =>
  match edit_map ch with None => (e, []) | Some ch =>
  match edit_canon e ch with (e, None) => (e, []) | (e, Some ch) =>
  match edit_flow e ch with (e, None) => (e, []) | (e, Some ch) =>
  match edit_sig e ch with Some (e, sg) => (e, [sg]) | None => (edit_store e ch, []) end end end end end.
Fixpoint edits (e : ed) (cs : list Z) : ed * list Z :=
  match cs with
  | [] => (e, [])
  | c :: cs => let '(e1, sg1) := edit e c in let '(e2, sg2) := edits e1 cs in (e2, sg1 ++ sg2)
  end.
End editor.

(** ** Signals *)
Inductive posted (pgrp : Z) : list Z → kernel → kernel → Prop :=
| posted_nil k : posted pgrp [] k k
| posted_mem sg k c k' : posted pgrp sg (k <| clicks := c |>) k' → posted pgrp sg k k'
| posted_sig sg sig k k1 k' : cause_sig pgrp sig k = Ret tt k1 → posted pgrp sg k1 k' → posted pgrp (sig :: sg) k k'.
Lemma posted_app pgrp sg1 sg2 k1 k2 k3 : posted pgrp sg1 k1 k2 → posted pgrp sg2 k2 k3 → posted pgrp (sg1 ++ sg2) k1 k3.
Proof. intros P Q. induction P; cbn; [done|by eapply posted_mem, IHP|]. eapply posted_sig; [done|by apply IHP]. Qed.
Lemma posted_inv pgrp sg k k' : 0 ≤ pgrp < NR_PROCS → posted pgrp sg k k' → kinv k → kinv k'.
Proof.
  intros Hp P. induction P; intros Hk; [done|by apply IHP, kinv_clicks|]. apply IHP.
  destruct (wp_inv _ _ _ (kinv_signal k pgrp sig Hk Hp)) as ([] & k2 & E & _ & Hk2). congruence.
Qed.

(** ** What typing may change *)
Definition erase_ed (t : tty) : tty :=
  (erase_in t) <| tty_escaped := false |> <| tty_inhibited := false |> <| tty_events := false |> <| tty_intail := 0 |> <| tty_eotct := 0 |>.
Definition view (tp : Z) (s : ttyst) : ed := let t := tty_table s tp in Ed (clean t) (tty_escaped t) (tty_inhibited t).
Record typed (tp : Z) (sg : list Z) (s s' : ttyst) : Prop := Typed {
  y_other : ∀ q, q ≠ tp → tty_table s' q = tty_table s q;
  y_line : erase_ed (tty_table s' tp) = erase_ed (tty_table s tp);
  y_list : tty_timelist s' = tty_timelist s;
  y_sent : sent s' = sent s;
  y_pty : ∀ q, erase_out (pty_table s' q) = erase_out (pty_table s q);
  y_sys : sys s' = (sys s) <| kern := kern (sys s') |>;
  y_kern : posted (tty_pgrp (tty_table s tp)) (if tty_pgrp (tty_table s tp) =? 0 then [] else sg) (kern (sys s)) (kern (sys s'));
  y_tinv : tinv s'
}.

Section typing.
Context `{TtyWorld} `{Lines}.
Implicit Types (s : ttyst) (t : tty).

Lemma typed_fields t t' : erase_ed t' = erase_ed t → tty_termios t' = tty_termios t ∧ tty_pgrp t' = tty_pgrp t ∧ tty_inleft t' = tty_inleft t ∧
  tty_timenext t' = tty_timenext t ∧ tty_time t' = tty_time t ∧ tty_min t' = tty_min t ∧ tty_outleft t' = tty_outleft t ∧ tty_ioreq t' = tty_ioreq t.
Proof. destruct t, t'. unfold erase_ed, erase_in. cbn. intros E. by injection E. Qed.
Lemma kern_same (y : sysst) : y = y <| kern := kern y |>.
Proof. by destruct y. Qed.

Lemma typed_refl tp s : tinv s → typed tp [] s s.
Proof. intros. split; try done; [apply kern_same|]. case_match; constructor. Qed.
Lemma typed_trans tp sg1 sg2 s1 s2 s3 : typed tp sg1 s1 s2 → typed tp sg2 s2 s3 → typed tp (sg1 ++ sg2) s1 s3.
Proof.
  intros [A1 A2 A3 A4 A5 A6 A7 A8] [B1 B2 B3 B4 B5 B6 B7 B8]. destruct (typed_fields _ _ A2) as (_ & Epg & _). split; try congruence.
  - intros q Hq. by rewrite B1, A1.
  - rewrite B6, A6 at 1. by destruct (sys s1).
  - rewrite Epg in B7. pose proof (posted_app _ _ _ _ _ _ A7 B7) as P. by case_match.
Qed.
Lemma typed_nil_trans tp sg s1 s2 s3 : typed tp [] s1 s2 → typed tp sg s2 s3 → typed tp sg s1 s3.
Proof. apply (typed_trans tp [] sg). Qed.
Lemma typed_trans_nil tp sg s1 s2 s3 : typed tp sg s1 s2 → typed tp [] s2 s3 → typed tp sg s1 s3.
Proof. intros A B. pose proof (typed_trans _ _ _ _ _ _ A B) as P. by rewrite app_nil_r in P. Qed.

Lemma quiet_typed tp s s' : quiet tp s s' → tinv s' → typed tp [] s s'.
Proof.
  intros [Q1 Q2 Q3 Q4 Q5 [c Q6]] Hi. split; try done.
  - unfold erase_ed. by rewrite Q2.
  - rewrite Q6. by destruct (sys s).
  - rewrite Q6. cbn. case_match; eapply posted_mem; constructor.
Qed.
Lemma shown_typed tp s s' : shown tp s s' → typed tp [] s s' ∧ view tp s' = view tp s.
Proof.
  intros [Hq Hi Ec _ _]. split; [by apply quiet_typed|]. unfold view.
  assert (E : tty_escaped (tty_table s' tp) = tty_escaped (tty_table s tp) ∧ tty_inhibited (tty_table s' tp) = tty_inhibited (tty_table s tp)) by (split; apply (quiet_fields tp s s' Hq)).
  destruct E as [-> ->]. by rewrite Ec.
Qed.
Lemma erased_typed tp s s' x : erased tp s s' x → typed tp [] s s' ∧ view tp s' = Ed x (esc (view tp s)) (inh (view tp s)).
Proof.
  intros [Hq Hi Ec]. split; [by apply quiet_typed|]. unfold view.
  assert (E : tty_escaped (tty_table s' tp) = tty_escaped (tty_table s tp) ∧ tty_inhibited (tty_table s' tp) = tty_inhibited (tty_table s tp)) by (split; apply (quiet_fields tp s s' Hq)).
  destruct E as [-> ->]. by rewrite Ec.
Qed.

(** A change of the line that leaves the queue alone. *)
Lemma set_typed tp t1 s : tinv s → a_line tp → erase_ed t1 = erase_ed (tty_table s tp) → line_ok t1 →
  typed tp [] s (s <| tty_table := <[tp := t1]> (tty_table s) |>).
Proof.
  intros Hi Hp Ee Hl. destruct (typed_fields _ _ Ee) as (_ & _ & _ & E4 & E5 & _). split; cbn; rewrite ?fn_lookup_insert; try done.
  - intros q Hq. by rewrite fn_lookup_insert_ne.
  - apply kern_same.
  - case_match; constructor.
  - destruct Hi as [H1 H2 [x H3] H4]. split; cbn; try done.
    + intros q Hq. fn_cases q tp; [done|by apply H1].
    + exists x. eapply timers_ext, H3; [|done]. intros q. cbn. by fn_cases q tp.
Qed.
Definition flags_set (t : tty) (e i : bool) (ev : bool) : tty := t <| tty_escaped := e |> <| tty_inhibited := i |> <| tty_events := ev |>.
Lemma flags_typed tp t1 s : tinv s → a_line tp → let t := tty_table s tp in t1 = flags_set t (tty_escaped t1) (tty_inhibited t1) (tty_events t1) →
  typed tp [] s (s <| tty_table := <[tp := t1]> (tty_table s) |>) ∧
  view tp (s <| tty_table := <[tp := t1]> (tty_table s) |>) = Ed (text (view tp s)) (tty_escaped t1) (tty_inhibited t1).
Proof.
  cbv zeta. intros Hi Hp E. pose proof (t_lines _ Hi tp Hp) as Hl. split.
  - apply set_typed; [done|done|by rewrite E|]. rewrite E. by destruct Hl.
  - unfold view. cbn. rewrite fn_lookup_insert. f_equal. by rewrite E.
Qed.
End typing.

(** ** The blocks of [in_process] *)
Section blocks.
Context `{TtyWorld} `{Lines}.
Implicit Types (s : ttyst) (t : tty).
Context (tp : Z) (Hp : pty_line tp).
Notation T s := (tty_termios (tty_table s tp)).

Lemma a_tp : a_line tp.
Proof. by apply pty_line_ok. Qed.
Lemma cc_word s n : tinv s → is_word (Z.lor (cc (tty_table s tp) n) IN_ESC).
Proof.
  intros Hi. pose proof (l_cc _ (t_lines _ Hi tp a_tp) n) as Hc. apply word_lor; [unfold is_word; lia|done].
Qed.
Lemma view_flags s t1 : tinv s → t1 = flags_set (tty_table s tp) (tty_escaped t1) (tty_inhibited t1) (tty_events t1) → 
  typed tp [] s (s <| tty_table := <[tp := t1]> (tty_table s) |>) ∧
  view tp (s <| tty_table := <[tp := t1]> (tty_table s) |>) = Ed (text (view tp s)) (tty_escaped t1) (tty_inhibited t1).
Proof. intros Hi E. by apply flags_typed; [|apply a_tp|]. Qed.

Lemma in_extended_run ch s : tinv s →
  wp (in_extended tp ch) (λ r s', typed tp [] s s' ∧ (view tp s', r) = edit_ext (T s) (view tp s) ch) s.
Proof.
  intros Hi. unfold in_extended, edit_ext. t_step. t_step. set (t := tty_table s tp). unfold lflag. destruct (negb (has (c_lflag (tty_termios t)) IEXTEN)).
  { t_step. split; [by apply typed_refl|done]. }
  t_step. set (ch' := if esc (view tp s) then _ else _).
  eapply (wp_mono _ (λ r s', r = ch' ∧ typed tp [] s s' ∧ view tp s' = Ed (text (view tp s)) false (inh (view tp s)))).
  { unfold ch'. change (esc (view tp s)) with (tty_escaped t). destruct (tty_escaped t) eqn:Ee.
    - t_step. t_step. t_step. split; [done|]. fold t. apply view_flags; done.
    - t_step. split; [done|]. split; [by apply typed_refl|]. unfold view. cbn. fold t. by rewrite Ee. }
  cbn beta. intros ? s1 (-> & Hty & Ev). clearbody ch'.
  unfold cc. destruct (_ =? c_cc _ VLNEXT).
  - t_step. t_step. t_step.
    match goal with |- wp _ _ ?x => set (s2 := x) end. assert (H2 : typed tp [] s1 s2 ∧ view tp s2 = Ed (text (view tp s1)) true (inh (view tp s1))).
    { apply view_flags; [apply Hty|done]. }
    clearbody s2. destruct H2 as [Hty2 Ev2]. eapply wp_mono; [by apply rawecho_run; [apply Hty2|]|]. cbn beta. intros _ s3 He3. t_step.
    eapply wp_mono; [by apply rawecho_run; [apply He3|]|]. cbn beta. intros _ s4 He4. t_step.
    assert (Hsh : shown tp s2 s4) by (apply echoed_shown; by eapply echoed_trans). destruct (shown_typed _ _ _ Hsh) as [Hty4 Ev4].
    split; [eapply typed_nil_trans; [exact Hty|]; by eapply typed_nil_trans|]. by rewrite Ev4, Ev2, Ev.
  - destruct (_ =? c_cc _ VREPRINT); [|t_step; split; [done|by rewrite Ev]]. t_step.
    eapply wp_mono; [apply reprint_run; [apply Hty|done|apply cc_word, Hty]|]. cbn beta. intros _ s2 Hsh. t_step.
    destruct (shown_typed _ _ _ Hsh) as [Hty2 Ev2]. split; [by eapply typed_nil_trans|]. by rewrite Ev2, Ev.
Qed.

Lemma in_mapped_run ch s : in_mapped (tty_table s tp) ch = edit_map (T s) ch.
Proof.
  unfold in_mapped, edit_map, iflag. destruct (_ =? CR); [done|]. by destruct (_ =? LF).
Qed.

Lemma in_canonical_run ch s : tinv s → has (c_lflag (T s)) ICANON = true → is_word ch →
  wp (in_canonical tp ch) (λ r s', typed tp [] s s' ∧ (view tp s', r) = edit_canon (T s) (view tp s) ch) s.
Proof.
  intros Hi Hcan Hw. unfold in_canonical, edit_canon. t_step. t_step. unfold lflag, cc. rewrite Hcan. cbn [negb].
  destruct (_ =? c_cc _ VERASE).
  { t_step. eapply wp_mono; [by apply back_over_run; [| |apply cc_word]|]. cbn beta. intros b s1 [He _].
    destruct (erased_typed _ _ _ _ He) as [Hty Ev]. t_step. destruct (negb _).
    - t_step. t_step. eapply wp_mono; [by apply echo_run; [apply He| |]|]. cbn beta. intros _ s2 [He2 _]. t_step. t_step.
      destruct (shown_typed _ _ _ (echoed_shown _ _ _ He2)) as [Hty2 Ev2]. split; [by eapply typed_nil_trans|]. by rewrite Ev2, Ev.
    - t_step. t_step. split; [done|]. by rewrite Ev. }
  destruct (_ =? c_cc _ VKILL).
  { t_step. eapply wp_mono; [by apply kill_line_run; [| |apply cc_word]|]. cbn beta. intros _ s1 He.
    destruct (erased_typed _ _ _ _ He) as [Hty Ev]. t_step. destruct (negb _).
    - t_step. t_step. eapply wp_mono; [by apply echo_run; [apply He| |]|]. cbn beta. intros _ s2 [He2 _].
      destruct (shown_typed _ _ _ (echoed_shown _ _ _ He2)) as [Hty2 Ev2].
      assert (Hend : ∀ s3, shown tp s2 s3 → typed tp [] s s3 ∧ (view tp s3, None : option Z) = (Ed (kill (text (view tp s))) (esc (view tp s)) (inh (view tp s)), None)).
      { intros s3 Hsh. destruct (shown_typed _ _ _ Hsh) as [Hty3 Ev3]. split; [eapply typed_nil_trans; [exact Hty|]; by eapply typed_nil_trans|]. by rewrite Ev3, Ev2, Ev. }
      apply wp_when; intros _.
      + eapply wp_mono; [by apply rawecho_run; [apply He2|]|]. cbn beta. intros _ s3 He3. t_step. by apply Hend, echoed_shown.
      + t_step. apply Hend. apply shown_refl, He2.
    - t_step. t_step. split; [done|]. by rewrite Ev. }
  t_step. split; [by apply typed_refl|done].
Qed.

Lemma in_flow_run ch s : tinv s →
  wp (in_flow tp ch) (λ r s', typed tp [] s s' ∧ (view tp s', r) = edit_flow (T s) (view tp s) ch) s.
Proof.
  intros Hi. unfold in_flow, edit_flow. t_step. t_step. unfold iflag, cc. set (t := tty_table s tp).
  destruct (negb _); [t_step; split; [by apply typed_refl|done]|]. destruct (_ =? c_cc _ VSTOP).
  - t_step. t_step. t_step. destruct (view_flags s (t <| tty_inhibited := true |> <| tty_events := true |>) Hi eq_refl) as [Hty Ev].
    split; [exact Hty|]. f_equal. exact Ev.
  - change (inh (view tp s)) with (tty_inhibited t). destruct (_ && _).
    + t_step. t_step. t_step. destruct (view_flags s (t <| tty_inhibited := false |> <| tty_events := true |>) Hi eq_refl) as [Hty Ev].
      split; [exact Hty|]. f_equal. exact Ev.
    + t_step. split; [by apply typed_refl|done].
Qed.

Lemma kill_signal_run sig s : tinv s →
  wp (when (negb (tty_pgrp (tty_table s tp) =? 0)) (kcall (lift (cause_sig (tty_pgrp (tty_table s tp)) sig))))
     (λ _ s', typed tp [sig] s s' ∧ tty_table s' = tty_table s ∧ pty_table s' = pty_table s) s.
Proof.
  intros Hi. set (t := tty_table s tp). pose proof (t_lines _ Hi tp a_tp) as Hl. fold t in Hl.
  apply wp_when; intros E.
  - apply wp_kcall, wp_lift. destruct (wp_inv _ _ _ (kinv_signal (kern (sys s)) (tty_pgrp t) sig (t_kern _ Hi) (l_pgrp _ Hl))) as ([] & k & Ek & _ & Hk).
    eapply wp_eq; [exact Ek|]. split; [|done]. split; cbn; try done.
    + fold t. replace (tty_pgrp t =? 0) with false by lia. eapply posted_sig; [exact Ek|constructor].
    + destruct Hi as [H1 H2 [x H3] H4]. split; cbn; try done. exists x. by apply (timers_ext s).
  - split; [|done]. pose proof (typed_refl tp s Hi) as []. split; try done. fold t in y_kern0 |- *. by replace (tty_pgrp t =? 0) with true in * by lia.
Qed.

(** What a signal flushes. *)
Definition flushed (t : tty) : tty :=
  t <| tty_incount := 0 |> <| tty_eotct := 0 |> <| tty_intail := tty_inhead t |>.
Lemma flushed_ok t : line_ok t → line_ok (flushed t) ∧ queue (flushed t) = [].
Proof.
  intros Hl. assert (Hh : 0 ≤ tty_inhead t < TTY_IN_BYTES) by (rewrite (l_head _ Hl); by apply cell_range).
  assert (Eq : queue (flushed t) = []) by done. split; [|done]. destruct Hl. split; cbn; try done.
  - by rewrite cell_0.
Qed.
Definition emptied (p : pty) : pty := p <| ocount := 0 |> <| otail := ohead p |>.
Lemma emptied_ok p : pty_ok p → pty_ok (emptied p).
Proof.
  intros Hpo. pose proof (pty_head _ Hpo). destruct Hpo. split; cbn; try done. by rewrite cell_0.
Qed.

Lemma sigchar_run sig s : tinv s →
  wp (sigchar tp sig) (λ _ s', typed tp [sig] s s' ∧
    view tp s' = if has (c_lflag (T s)) NOFLSH then view tp s else Ed [] (esc (view tp s)) false) s.
Proof.
  intros Hi. unfold sigchar. t_step. t_step. t_step. eapply wp_mono; [by apply kill_signal_run|]. cbn beta. intros _ s1 (Hty & Et & Ep).
  unfold lflag. destruct (has _ NOFLSH); cbn [negb]; [t_step; split; [done|]; unfold view; by rewrite Et|].
  pose proof (t_lines _ (y_tinv _ _ _ _ Hty) tp a_tp) as Hl1. destruct (flushed_ok _ Hl1) as [Hfl Hfq].
  destruct (pty_line_ok tp Hp) as (_ & Eis & Hnr). pose proof (t_ptys _ (y_tinv _ _ _ _ Hty) _ Hnr) as Hpo.
  unfold tty_ocancel, pty_ocancel. rewrite Eis. t_step. t_step. t_step. t_step. t_step. t_step.
  match goal with |- typed _ _ _ ?x ∧ _ => set (s2 := x) end.
  set (t2 := (flushed (tty_table s1 tp)) <| tty_inhibited := false |> <| tty_events := true |>).
  assert (E2 : tty_table s2 tp = t2) by (cbn; by rewrite !fn_lookup_insert).
  assert (E2' : ∀ q, q ≠ tp → tty_table s2 q = tty_table s1 q) by (intros q Hq; cbn; by rewrite !fn_lookup_insert_ne).
  assert (P2 : pty_table s2 (pty_nr tp) = emptied (pty_table s1 (pty_nr tp))) by (cbn; by rewrite fn_lookup_insert).
  assert (P2' : ∀ q, q ≠ pty_nr tp → pty_table s2 q = pty_table s1 q) by (intros q Hq; cbn; by rewrite fn_lookup_insert_ne).
  split; [eapply typed_trans_nil; [exact Hty|]|].
  - split; try done.
    + by rewrite E2.
    + intros q. destruct (decide (q = pty_nr tp)) as [->|]; [by rewrite P2|by rewrite P2'].
    + apply kern_same.
    + case_match; constructor.
    + apply (tinv_put tp s1 s2 (clicks (kern (sys s1)))); rewrite ?E2, ?P2; try done.
      * apply Hty.
      * by rewrite mem_same.
      * by destruct Hfl.
      * by apply emptied_ok.
  - assert (Ec : clean t2 = []) by (unfold clean; change (queue t2) with (queue (flushed (tty_table s1 tp))); by rewrite Hfq).
    unfold view. rewrite E2, Ec. cbn. by rewrite Et.
Qed.

Lemma in_signal_run ch s : tinv s → is_word ch →
  wp (in_signal tp ch) (λ r s', match edit_sig (T s) (view tp s) ch with
    | Some (e, sg) => r = None ∧ typed tp [sg] s s' ∧ view tp s' = e
    | None => r = Some ch ∧ s' = s end) s.
Proof.
  intros Hi Hw. unfold in_signal, edit_sig. t_step. t_step. unfold lflag, cc. destruct (_ && _); [|by t_step].
  t_step. eapply wp_mono; [by apply sigchar_run|]. cbn beta. intros _ s1 [Hty Ev]. t_step.
  eapply wp_mono; [by apply echo_run; [apply Hty| |]|]. cbn beta. intros _ s2 [He _]. t_step. split; [done|].
  destruct (shown_typed _ _ _ (echoed_shown _ _ _ He)) as [Hty2 Ev2]. split; [by eapply typed_trans_nil|]. by rewrite Ev2, Ev.
Qed.

(** One more character. *)
Definition appended (ch : Z) (t : tty) : tty :=
  t <| tty_inbuf := <[tty_inhead t := ch]> (tty_inbuf t) |> <| tty_inhead := next_in (tty_inhead t) |> <| tty_incount := tty_incount t + 1 |>
    <| tty_eotct := tty_eotct t + (if has ch IN_EOT then 1 else 0) |>.
Lemma appended_ok ch t : line_ok t → tty_incount t < TTY_IN_BYTES → is_word ch → line_ok (appended ch t) ∧ queue (appended ch t) = queue t ++ [ch].
Proof.
  intros Hl Hc Hw. pose proof (l_count _ Hl) as Hcc. pose proof (l_head _ Hl) as Hh.
  assert (Eq : queue (appended ch t) = queue t ++ [ch]).
  { unfold queue, appended. cbn. rewrite Hh. apply ring_snoc; [done|lia|lia]. }
  split; [|done]. pose proof Hl as []. split; cbn; try done; try lia.
  - unfold next_in. rewrite cell_next by (try done; rewrite Hh; by apply cell_range). rewrite Hh. apply cell_cell.
  - rewrite Eq, eots_app, eots_one. lia.
  - rewrite Eq. apply Forall_app. split; [done|]. by constructor.
Qed.

Lemma in_transfer_none s (Q : unit → ttyst → Prop) : tty_inleft (tty_table s tp) = 0 → Q tt s → wp (in_transfer tp) Q s.
Proof. intros E HQ. unfold in_transfer. t_step. t_step. rewrite E. cbn [Z.eqb orb]. by t_step. Qed.

Lemma in_store_run ch b s : tinv s → has (c_lflag (T s)) ICANON = true → tty_inleft (tty_table s tp) = 0 → is_word ch →
  wp (in_store tp ch b) (λ r s', r = Some b ∧ typed tp [] s s' ∧ view tp s' = edit_store (view tp s) ch) s.
Proof.
  intros Hi Hcan Hleft Hw. pose proof (t_lines _ Hi tp a_tp) as Hl. unfold in_store, edit_store. t_step. t_step.
  set (t := tty_table s tp) in *. pose proof (clean_length t Hl) as Hcl. unfold lflag. rewrite Hcan. change (text (view tp s)) with (clean t). rewrite Hcl.
  destruct (Z.eqb_spec (tty_incount t) TTY_IN_BYTES) as [|Hroom]; [t_step; split; [done|]; split; [by apply typed_refl|done]|].
  t_step. t_step. t_step.
  eapply (wp_mono _ (λ r s', echoed tp s s' ∧ is_word r ∧ clean_char r = clean_char ch)).
  { destruct (has _ (Z.lor ECHO ECHONL)); [by apply echo_run|]. t_step. split; [by apply echoed_refl|done]. }
  cbn beta. intros ch1 s1 (He & Hw1 & Ec). destruct (shown_typed _ _ _ (echoed_shown _ _ _ He)) as [Hty Ev].
  pose proof He as (Hq & (Eb & Eh & En) & Hi1). pose proof (t_lines _ Hi1 tp a_tp) as Hl1. pose proof (l_count _ Hl1) as Hc1.
  assert (Hleft1 : tty_inleft (tty_table s1 tp) = 0) by (rewrite (proj1 (proj2 (quiet_fields tp s s1 Hq))); done).
  set (t1 := tty_table s1 tp) in *. destruct (appended_ok ch1 t1 Hl1 ltac:(fold t in En; lia) Hw1) as [Hla Eq].
  t_step. unfold in_queue. do 2 t_step. t_step. fold t1. apply inq_set_run; [rewrite (l_head _ Hl1); by apply cell_range|done|].
  t_step. t_step. t_step.
  eapply (wp_mono _ (λ _ s2, tty_table s2 tp = appended ch1 t1 ∧ (∀ q, q ≠ tp → tty_table s2 q = tty_table s1 q) ∧
     s2 = s1 <| tty_table := tty_table s2 |>)).
  { apply wp_when; intros E; [t_step|]; cbn; rewrite !fn_lookup_insert; (split; [unfold appended; rewrite E|split; [intros q Hq'; by rewrite !fn_lookup_insert_ne|by destruct s1]]).
    - reflexivity.
    - cbn. rewrite Z.add_0_r. reflexivity. }
  cbn beta. intros _ s2 (E2 & E2' & Es2). t_step. t_step. rewrite E2.
  assert (Hty2 : typed tp [] s1 s2).
  { rewrite Es2. split; cbn; rewrite ?E2; try done; [apply kern_same|case_match; constructor|].
    rewrite <- Es2. apply (tinv_put tp s1 s2 (clicks (kern (sys s1)))); rewrite ?E2; try done; rewrite Es2; cbn; try done; [by rewrite mem_same|].
    apply Hi1. by apply pty_line_ok. }
  assert (Hend : ∀ r : option bool, r = Some b → r = Some b ∧ typed tp [] s s2 ∧ view tp s2 = Ed (clean t ++ [clean_char ch]) (esc (view tp s)) (inh (view tp s))).
  { intros r ->. split; [done|]. split; [by eapply typed_nil_trans|]. rewrite <- Ev. unfold view. rewrite E2. fold t1. unfold clean. rewrite Eq, map_app. cbn. rewrite Ec.
    fold (clean t1). unfold view in Ev. fold t1 t in Ev. injection Ev as Ev1 _ _. by rewrite Ev1. }
  apply wp_when; intros _; [apply in_transfer_none; [by rewrite E2|]|]; t_step; by apply Hend.
Qed.
End blocks.

(** ** The whole *)
Section whole.
Context `{TtyWorld} `{Lines}.
Implicit Types (s : ttyst).

(** The characters that the blocks pass on fit the queue. *)
Section passed_words.
Context (T : termios) (e e' : ed) (ch ch' : Z) (Hw : is_word ch).
Lemma ext_word : edit_ext T e ch = (e', Some ch') → is_word ch'.
Proof.
  unfold edit_ext. destruct (negb _); [by intros [= _ <-]|]. destruct (_ =? c_cc T VLNEXT); [done|].
  destruct (_ =? c_cc T VREPRINT); [done|]. intros [= _ <-]. destruct (esc e); [by apply word_lor|done].
Qed.
Lemma map_word : edit_map T ch = Some ch' → is_word ch'.
Proof.
  unfold edit_map. assert (Hx : is_word (if ch =? POSIX_VDISABLE then Z.lor ch IN_ESC else ch)) by (destruct (_ =? POSIX_VDISABLE); [by apply word_lor|done]).
  destruct (_ =? CR); [destruct (has _ IGNCR); [done|]; intros [= <-]; by destruct (has _ ICRNL)|]. intros [= <-]. by destruct (_ && _).
Qed.
Lemma canon_word : edit_canon T e ch = (e', Some ch') → is_word ch'.
Proof.
  unfold edit_canon. destruct (_ =? c_cc T VERASE); [done|]. destruct (_ =? c_cc T VKILL); [done|]. intros [= _ <-].
  assert (H1 : is_word (if ch =? c_cc T VEOF then Z.lor ch (Z.lor IN_EOT IN_EOF) else ch)) by (destruct (_ =? c_cc T VEOF); [by apply word_lor|done]).
  set (x := if ch =? c_cc T VEOF then _ else _) in *. assert (H2 : is_word (if x =? LF then Z.lor x IN_EOT else x)) by (destruct (_ =? LF); [by apply word_lor|done]).
  destruct (_ =? c_cc T VEOL); [by apply word_lor|done].
Qed.
Lemma flow_word : edit_flow T e ch = (e', Some ch') → is_word ch'.
Proof.
  unfold edit_flow. destruct (negb _); [by intros [= _ <-]|]. destruct (_ =? c_cc T VSTOP); [done|].
  destruct (_ && _); [destruct (_ =? c_cc T VSTART); [done|]|]; by intros [= _ <-].
Qed.
End passed_words.

Definition canonical (tp : Z) (s : ttyst) : Prop :=
  tinv s ∧ pty_line tp ∧ has (c_lflag (tty_termios (tty_table s tp))) ICANON = true ∧ tty_inleft (tty_table s tp) = 0.

Lemma canonical_typed tp sg s s' : canonical tp s → typed tp sg s s' → canonical tp s' ∧ tty_termios (tty_table s' tp) = tty_termios (tty_table s tp).
Proof.
  intros (Hi & Hp & Hc & Hl) Hty. destruct (typed_fields _ _ (y_line _ _ _ _ Hty)) as (E1 & _ & E3 & _).
  split; [|done]. split_and!; [apply Hty|done|by rewrite E1|by rewrite E3].
Qed.

Lemma in_char_run tp c b s : canonical tp s →
  wp (in_char tp c b) (λ r s', r = Some b ∧ let '(e, sg) := edit (tty_termios (tty_table s tp)) (view tp s) c in view tp s' = e ∧ typed tp sg s s') s.
Proof.
  intros Hcan. pose proof Hcan as (Hi & Hp & Hc & Hl). unfold in_char, edit. t_step. t_step. set (T := tty_termios (tty_table s tp)). unfold iflag. fold T.
  set (ch0 := if has (c_iflag T) ISTRIP then _ else _).
  assert (Hw0 : is_word ch0).
  { assert (Hu : is_word (u8 c)) by (unfold is_word, u8; pose proof (Z.mod_pos_bound c (2 ^ 8) ltac:(lia)); lia).
    unfold ch0. destruct (has _ ISTRIP); [by apply word_land|done]. }
  clearbody ch0. t_step. eapply wp_mono; [by apply in_extended_run|]. cbn beta. intros r1 s1 [Hty1 E1]. fold T in E1. rewrite <- E1.
  destruct (canonical_typed _ _ _ _ Hcan Hty1) as [Hcan1 ET1]. pose proof Hcan1 as (Hi1 & _ & Hc1 & Hl1).
  destruct r1 as [ch1|]; [|by t_step]. pose proof (ext_word T _ _ _ _ Hw0 (eq_sym E1)) as Hw1. t_step. t_step.
  rewrite in_mapped_run, ET1. fold T. destruct (edit_map T ch1) as [ch2|] eqn:E2; [|by t_step]. pose proof (map_word T _ _ Hw1 E2) as Hw2.
  t_step. eapply wp_mono; [by apply in_canonical_run|]. cbn beta. intros r3 s3 [Hty3 E3]. rewrite ET1 in E3. fold T in E3. rewrite <- E3.
  pose proof (typed_nil_trans _ _ _ _ _ Hty1 Hty3) as Hty13. destruct (canonical_typed _ _ _ _ Hcan Hty13) as [Hcan3 ET3]. pose proof Hcan3 as (Hi3 & _ & Hc3 & Hl3).
  destruct r3 as [ch3|]; [|by t_step]. pose proof (canon_word T _ _ _ _ Hw2 (eq_sym E3)) as Hw3.
  t_step. eapply wp_mono; [by apply in_flow_run|]. cbn beta. intros r4 s4 [Hty4 E4]. rewrite ET3 in E4. fold T in E4. rewrite <- E4.
  pose proof (typed_nil_trans _ _ _ _ _ Hty13 Hty4) as Hty14. destruct (canonical_typed _ _ _ _ Hcan Hty14) as [Hcan4 ET4]. pose proof Hcan4 as (Hi4 & _ & Hc4 & Hl4).
  destruct r4 as [ch4|]; [|by t_step]. pose proof (flow_word T _ _ _ _ Hw3 (eq_sym E4)) as Hw4.
  t_step. eapply wp_mono; [by apply in_signal_run|]. cbn beta. intros r5 s5. rewrite ET4. fold T.
  destruct (edit_sig T (view tp s4) ch4) as [[e sg]|].
  - intros (-> & Hty5 & Ev5). t_step. split; [done|]. split; [done|]. by eapply typed_nil_trans.
  - intros [-> ->]. eapply wp_mono; [by apply in_store_run|]. cbn beta. intros r6 s6 (-> & Hty6 & Ev6). split; [done|]. split; [done|]. by eapply typed_nil_trans.
Qed.

Lemma in_chars_run tp cs : ∀ n b s, canonical tp s →
  wp (in_chars tp cs n b) (λ r s', r = n + Z.of_nat (length cs) ∧
    let '(e, sg) := edits (tty_termios (tty_table s tp)) (view tp s) cs in view tp s' = e ∧ typed tp sg s s') s.
Proof.
  induction cs as [|c cs IH]; intros n b s Hcan; cbn [in_chars edits].
  { t_step. split; [cbn; lia|]. split; [done|]. apply typed_refl, Hcan. }
  t_step. eapply wp_mono; [by apply in_char_run|]. cbn beta. intros r s1 [-> Hr]. destruct (edit _ (view tp s) c) as [e1 sg1]. destruct Hr as [Ev1 Hty1].
  destruct (canonical_typed _ _ _ _ Hcan Hty1) as [Hcan1 ET1]. eapply wp_mono; [by apply IH|]. cbn beta. intros r s2 [-> Hr].
  rewrite ET1, Ev1 in Hr. destruct (edits _ e1 cs) as [e2 sg2]. destruct Hr as [Ev2 Hty2]. split; [cbn [length]; lia|]. split; [done|]. by eapply typed_trans.
Qed.
End whole.
