(* ===== verification/Ttyread.v ===== *)
(** * Reading from the input queue

    [reads] says what a reader who waits for [n] bytes gets of a text: in
    canonical mode the first line at most, without the end-of-file character.
    [in_transfer] implements it, with a buffer of 64 bytes for the copies. *)

From S2P Require Import Prelude Chain Sigset Proc Sched Ipc Receive Kernel Boot Userq Alloc Ksys Ksysp Ksafe Kmem Tty Ring Ttyout Ttyq Ttystream Ttyecho.

(** The bytes, the rest of the text, and how many bytes the reader still wants. *)
Fixpoint reads (canon : bool) (n : Z) (l : list Z) : list Z * list Z * Z :=
  match l with
  | [] => ([], [], n)
  | c :: l' =>
      if (n <=? 0) || (eots l =? 0) then ([], l, n) else
      let n := if has c IN_EOF then n else n - 1 in
      let n := if has c IN_EOT && canon then 0 else n in
      let '(b, r, n') := reads canon n l' in
      (if has c IN_EOF then b else Z.land c IN_CHAR :: b, r, n')
  end.

Section readsp.
Implicit Types (l : list Z) (n : Z).

Lemma reads_done canon n l : n ≤ 0 ∨ eots l = 0 → reads canon n l = ([], l, n).
Proof. intros Hd. destruct l as [|c l]; [done|]. cbn [reads]. destruct Hd; [by replace (n <=? 0) with true by lia|]. rewrite (proj2 (Z.eqb_eq _ _)) by done. by rewrite orb_true_r. Qed.

Lemma eots_cons c l : eots (c :: l) = eots l + (if has c IN_EOT then 1 else 0).
Proof. change (c :: l) with ([c] ++ l). rewrite eots_app, eots_one. lia. Qed.
Lemma eots_nonneg l : 0 ≤ eots l.
Proof. unfold eots. lia. Qed.

(** A whole line that the reader has room for. *)
Lemma reads_line line c rest n : Forall (λ x, has x IN_EOT = false) line → has c IN_EOT = true → Forall (λ x, has x IN_EOF = false) line →
  Z.of_nat (length line) < n →
  reads true n (line ++ c :: rest) = (map (λ x, Z.land x IN_CHAR) line ++ (if has c IN_EOF then [] else [Z.land c IN_CHAR]), rest, 0).
Proof.
  intros Hl Hc. revert n. induction Hl as [|x line Hx Hl IH]; intros n Hf Hn.
  - cbn [app reads length map] in *. rewrite eots_cons, Hc. pose proof (eots_nonneg rest).
    replace ((n <=? 0) || (eots rest + 1 =? 0)) with false by lia. cbn [andb]. rewrite reads_done by (left; lia). by destruct (has c IN_EOF).
  - inversion Hf as [|?? Hxf Hf']; subst. cbn [app reads length map] in *. rewrite eots_cons, eots_app, eots_cons, Hc, Hx.
    pose proof (eots_nonneg rest). pose proof (eots_nonneg line).
    replace ((n <=? 0) || (eots line + (eots rest + 1) + 0 =? 0)) with false by lia. rewrite Hxf. cbn [andb].
    rewrite IH by (done || lia). done.
Qed.
End readsp.

Section reader.
Context `{TtyWorld}.
Implicit Types (s : ttyst) (t : tty).

Lemma clean_land c : Z.land (clean_char c) IN_CHAR = Z.land c IN_CHAR.
Proof. unfold clean_char, clrf. by rewrite <- Z.land_assoc. Qed.

(** The first character of the queue leaves it. *)
Definition shifted (ch : Z) (t : tty) : tty :=
  t <| tty_intail := next_in (tty_intail t) |> <| tty_incount := tty_incount t - 1 |> <| tty_eotct := tty_eotct t - (if has ch IN_EOT then 1 else 0) |>.
Lemma drop_first t : line_ok t → 0 < tty_incount t → let ch := tty_inbuf t (tty_intail t) in
  queue t = ch :: queue (shifted ch t) ∧ line_ok (shifted ch t).
Proof.
  cbv zeta. intros Hl Hc. set (ch := tty_inbuf t (tty_intail t)). pose proof (l_tail _ Hl) as Ht.
  assert (En : next_in (tty_intail t) = cell TTY_IN_BYTES (tty_intail t) 1) by (unfold next_in; by apply cell_next).
  assert (Eq : queue t = ch :: queue (shifted ch t)).
  { unfold queue, shifted. cbn. rewrite En. by apply ring_cons. }
  split; [done|]. pose proof Hl as []. split; cbn; try done; try lia.
  - rewrite En. by apply cell_range.
  - rewrite En, cell_cell, l_head. f_equal. lia.
  - rewrite Eq, eots_cons in l_eots. lia.
  - rewrite Eq in l_words. by apply Forall_cons in l_words as [_ ?].
Qed.

(** The reader's buffer lies in one piece. *)
Definition rd_base (tp : Z) (s : ttyst) : Z := proc_vir2phys (procs (kern (sys s)) (tty_inproc (tty_table s tp))) 0.
Definition straight (base vir n : Z) : Prop := ∀ i, 0 ≤ i < n → u32 (base + u32 (vir + i)) = u32 (base + vir) + i.

(** Only the line [tp] and the memory have changed. *)
Record only_line (tp : Z) (t1 : tty) (c : Z → Z) (s s1 : ttyst) : Prop := OnlyLine {
  ol_line : tty_table s1 tp = t1;
  ol_others : ∀ q, q ≠ tp → tty_table s1 q = tty_table s q;
  ol_ptys : pty_table s1 = pty_table s;
  ol_list : tty_timelist s1 = tty_timelist s;
  ol_sys : sys s1 = mem_set c (sys s)
}.
Lemma only_trans tp t1 t2 c1 c2 s s1 s2 : only_line tp t1 c1 s s1 → only_line tp t2 c2 s1 s2 → only_line tp t2 c2 s s2.
Proof. intros [] []. split; try congruence. - intros q Hq. by rewrite ol_others1, ol_others0. - by rewrite ol_sys1, ol_sys0. Qed.
Lemma only_set tp t1 s : only_line tp t1 (clicks (kern (sys s))) s (s <| tty_table := <[tp := t1]> (tty_table s) |>).
Proof. split; cbn; rewrite ?fn_lookup_insert; try done; [intros q Hq; by rewrite fn_lookup_insert_ne|by rewrite mem_same]. Qed.
Lemma only_tinv tp t1 c s s1 : tinv s → only_line tp t1 c s s1 → tty_timenext t1 = tty_timenext (tty_table s tp) → tty_time t1 = tty_time (tty_table s tp) →
  line_ok t1 → tinv s1.
Proof.
  intros [H1 H2 [l H3] H4] [O1 O2 O3 O4 O5] En Et Hl. split.
  - intros q Hq. destruct (decide (q = tp)) as [->|]; [by rewrite O1|]. rewrite O2 by done. by apply H1.
  - rewrite O3. done.
  - exists l. eapply timers_ext, H3; [|done]. intros q. destruct (decide (q = tp)) as [->|]; [by rewrite O1|by rewrite O2].
  - rewrite O5. by apply kinv_clicks.
Qed.

(** ** The transfer *)

(** [g] has been given to the reader, of what [t] says. *)
Definition given (g : list Z) (left : Z) (t : tty) : tty :=
  t <| tty_in_vir := u32 (tty_in_vir t + Z.of_nat (length g)) |> <| tty_incum := s16 (tty_incum t + Z.of_nat (length g)) |> <| tty_inleft := left |>.

Lemma copy_given a l c0 c k g : delivered a k g c0 c → 0 ≤ k → k = Z.of_nat (length g) → 
  delivered a (k + Z.of_nat (length l)) (g ++ l) c0 (patch (a + k) (Z.of_nat (length l)) (λ b, nth (Z.to_nat (b - (a + k))) l 0) c).
Proof.
  intros Hd Hk Ek. apply (delivered_app a k (Z.of_nat (length l)) g l c0 c); [done|lia|lia|done|].
  replace (drop (Z.to_nat k) g) with (@nil Z) by (symmetry; apply drop_ge; lia). intros b. rewrite mem_byte_patch. done.
Qed.
End reader.

Section transfer.
Context `{TtyWorld} (tp : Z) (Ha : a_line tp) (s : ttyst).
Notation t := (tty_table s tp).
Notation base := (rd_base tp s).
Notation canon := (has (c_lflag (tty_termios (tty_table s tp))) ICANON).

Definition erase_rd (t : tty) : tty :=
  t <| tty_intail := 0 |> <| tty_incount := 0 |> <| tty_eotct := 0 |> <| tty_in_vir := 0 |> <| tty_incum := 0 |> <| tty_inleft := 0 |>.
(** The reader has got [g]. *)
Record going (s1 : ttyst) (g : list Z) : Prop := Going {
  go_only : ∃ c, only_line tp (tty_table s1 tp) c s s1 ∧
    (straight base (tty_in_vir t) (tty_inleft t) → delivered (u32 (base + tty_in_vir t)) (Z.of_nat (length g)) g (clicks (kern (sys s))) c);
  go_line : erase_rd (tty_table s1 tp) = erase_rd t;
  go_vir : tty_in_vir (tty_table s1 tp) = u32 (tty_in_vir t + Z.of_nat (length g));
  go_cum : tty_incum (tty_table s1 tp) = s16 (tty_incum t + Z.of_nat (length g));
  go_sent : sent s1 = sent s
}.

Lemma going_set s1 g t' : going s1 g → erase_rd t' = erase_rd (tty_table s1 tp) → tty_in_vir t' = tty_in_vir (tty_table s1 tp) →
  tty_incum t' = tty_incum (tty_table s1 tp) → going (s1 <| tty_table := <[tp := t']> (tty_table s1) |>) g.
Proof.
  intros [(c & Ho & Hd) G2 G3 G4 G5] E1 E2 E3. split; cbn; rewrite ?fn_lookup_insert; try congruence.
  exists c. split; [|done]. destruct Ho. split; cbn; rewrite ?fn_lookup_insert; try done. intros q Hq. rewrite fn_lookup_insert_ne by done. by apply ol_others0.
Qed.

Lemma give_run s1 g buf (Q : unit → ttyst → Prop) : going s1 g → Z.of_nat (length g) < tty_inleft t →
  (∀ s2, going s2 (g ++ buf) → tty_table s2 tp = (tty_table s1 tp) <| tty_in_vir := u32 (tty_in_vir (tty_table s1 tp) + Z.of_nat (length buf)) |>
     <| tty_incum := s16 (tty_incum (tty_table s1 tp) + Z.of_nat (length buf)) |> → Q tt s2) →
  wp (give tp base buf) Q s1.
Proof.
  intros [(c & Ho & Hd) G2 G3 G4 G5] Hlt HQ. unfold give. t_step. t_step. t_step. apply copy_out_t. t_step.
  match goal with |- Q tt ?x => set (s2 := x) end.
  assert (E2 : tty_table s2 tp = (tty_table s1 tp) <| tty_in_vir := u32 (tty_in_vir (tty_table s1 tp) + Z.of_nat (length buf)) |>
     <| tty_incum := s16 (tty_incum (tty_table s1 tp) + Z.of_nat (length buf)) |>) by (cbn; by rewrite fn_lookup_insert).
  apply HQ; [|exact E2]. destruct Ho as [O1 O2 O3 O4 O5]. split; rewrite ?E2; cbn [tty_in_vir tty_incum upd upd_tty_incum upd_tty_in_vir].
  - eexists. split.
    + split; [by rewrite E2|intros q Hq; cbn; rewrite fn_lookup_insert_ne by done; by apply O2|exact O3|exact O4|cbn; by rewrite O5].
    + intros Hs. specialize (Hd Hs). rewrite G3, (Hs (Z.of_nat (length g)) ltac:(lia)). rewrite length_app, Nat2Z.inj_add. rewrite ?O5. cbn.
      by apply copy_given; [|lia|].
  - exact G2.
  - rewrite G3, u32_plus_l, length_app. f_equal. lia.
  - rewrite G4, s16_s16, length_app. f_equal. lia.
  - exact G5.
Qed.

(** The invariant of the loop: [buf] has been taken off the queue as well. *)
Record taking (s1 : ttyst) (g buf : list Z) : Prop := Taking {
  ta_going : going s1 g;
  ta_ok : line_ok (tty_table s1 tp);
  ta_buf : Z.of_nat (length buf) < 64;
  ta_room : Z.of_nat (length g) + Z.of_nat (length buf) + tty_inleft (tty_table s1 tp) ≤ tty_inleft t;
  ta_reads : ∀ b r n, reads canon (tty_inleft (tty_table s1 tp)) (clean (tty_table s1 tp)) = (b, r, n) →
     reads canon (tty_inleft t) (clean t) = (g ++ buf ++ b, r, n)
}.

Lemma reader_line_ok t0 vir cum left : line_ok t0 → 0 ≤ vir < 2 ^ 32 → - 2 ^ 15 ≤ cum < 2 ^ 15 → 0 ≤ left ≤ tty_inleft t0 →
  line_ok (t0 <| tty_in_vir := vir |> <| tty_incum := cum |> <| tty_inleft := left |>).
Proof. intros [] Hv Hc Hl. split; cbn; try done; try lia. intros. apply l_inproc. lia. Qed.

Lemma erase_rd_fields t1 t2 : erase_rd t1 = erase_rd t2 → tty_termios t1 = tty_termios t2 ∧ tty_inproc t1 = tty_inproc t2 ∧
  tty_incaller t1 = tty_incaller t2 ∧ tty_inrepcode t1 = tty_inrepcode t2 ∧ tty_timenext t1 = tty_timenext t2 ∧ tty_time t1 = tty_time t2.
Proof. destruct t1, t2. unfold erase_rd. cbn. intros E. by injection E. Qed.

(** The rest of a step, after the character has been put into the buffer or
    given to the reader. *)
Lemma shift_run s1 s2 g g2 buf buf2 ch : taking s1 g buf → 0 < tty_inleft (tty_table s1 tp) → 0 < tty_eotct (tty_table s1 tp) →
  ch = tty_inbuf (tty_table s1 tp) (tty_intail (tty_table s1 tp)) → going s2 g2 →
  g2 ++ buf2 = g ++ buf ++ (if has ch IN_EOF then [] else [Z.land ch IN_CHAR]) → Z.of_nat (length buf2) < 64 →
  (∃ vir cum, 0 ≤ vir < 2 ^ 32 ∧ - 2 ^ 15 ≤ cum < 2 ^ 15 ∧ tty_table s2 tp = (tty_table s1 tp) <| tty_in_vir := vir |> <| tty_incum := cum |>
     <| tty_inleft := tty_inleft (tty_table s1 tp) - (if has ch IN_EOF then 0 else 1) |>) →
  wp (tset tp (λ t, t <| tty_intail := next_in (tty_intail t) |> <| tty_incount := tty_incount t - 1 |>);;
      when (has ch IN_EOT)
        (tset tp (λ t, t <| tty_eotct := tty_eotct t - 1 |>);;
         when canon (tset tp (λ t, t <| tty_inleft := 0 |>)));;
      mret (inl buf2 : list Z + list Z))
    (λ x s3, x = inl buf2 ∧ taking s3 g2 buf2 ∧ tty_incount (tty_table s3 tp) < tty_incount (tty_table s1 tp)) s2.
Proof.
  intros [Hg Hl Hb Hr Hrd] Hn He Ech Hg2 Eb Hb2 (vir & cum & Hvir & Hcum & E2). set (t1 := tty_table s1 tp) in *.
  assert (Hpos : 0 < tty_incount t1).
  { pose proof (l_eots _ Hl) as Ee. pose proof (inq_length t1 Hl) as Hq. pose proof (l_count _ Hl). destruct (decide (tty_incount t1 = 0)); [|lia].
    destruct (queue t1); [change (eots []) with 0 in Ee; lia|cbn in Hq; lia]. }
  destruct (drop_first t1 Hl Hpos) as [Eq Hsl]. rewrite <- Ech in Eq, Hsl.
  set (n1 := tty_inleft t1 - (if has ch IN_EOF then 0 else 1)) in *. set (n2 := if has ch IN_EOT && canon then 0 else n1).
  set (t3 := (shifted ch t1) <| tty_in_vir := vir |> <| tty_incum := cum |> <| tty_inleft := n2 |>).
  assert (Hn1 : 0 ≤ n1 ≤ tty_inleft t1) by (unfold n1; destruct (has ch IN_EOF); lia).
  assert (Hn2 : 0 ≤ n2 ≤ n1) by (unfold n2; destruct (_ && _); lia).
  assert (Hend : ∀ s3, going s3 g2 → tty_table s3 tp = t3 → taking s3 g2 buf2 ∧ tty_incount (tty_table s3 tp) < tty_incount t1).
  { intros s3 Hg3 E3. split; [|rewrite E3; cbn; lia]. split; rewrite ?E3; try done.
    - apply reader_line_ok; try done. cbn. fold t1. lia.
    - cbn [tty_inleft upd upd_tty_inleft t3]. assert (Elen : Z.of_nat (length g2) + Z.of_nat (length buf2) = Z.of_nat (length g) + Z.of_nat (length buf) + (if has ch IN_EOF then 0 else 1)).
      { rewrite <- Nat2Z.inj_add, <- length_app, Eb, !length_app. destruct (has ch IN_EOF); cbn; lia. }
      unfold n1 in *. fold t1 in Hr. lia.
    - intros b r n Ere. cbn [tty_inleft upd upd_tty_inleft t3] in Ere. change (clean t3) with (map clean_char (queue (shifted ch t1))) in Ere.
      rewrite (app_assoc g2), Eb. rewrite (Hrd ((if has ch IN_EOF then [] else [Z.land ch IN_CHAR]) ++ b) r n); [by rewrite <- !app_assoc|].
      unfold clean. rewrite Eq. cbn [map reads]. rewrite !clean_has, clean_land by done.
      assert (Hee : eots (map clean_char (ch :: queue (shifted ch t1))) = tty_eotct t1) by (rewrite eots_clean, <- Eq; symmetry; apply Hl).
      cbn [map] in Hee. rewrite Hee. fold t1. replace ((tty_inleft t1 <=? 0) || (tty_eotct t1 =? 0)) with false by lia.
      replace (if has ch IN_EOF then tty_inleft t1 else tty_inleft t1 - 1) with n1 by (unfold n1; destruct (has ch IN_EOF); lia).
      fold n2. rewrite Ere. by destruct (has ch IN_EOF). }
  t_step. t_step. t_step. match goal with |- wp _ _ ?x => set (s3 := x) end.
  assert (Hg3 : going s3 g2) by (by apply going_set).
  assert (E3 : tty_table s3 tp = (tty_table s2 tp) <| tty_intail := next_in (tty_intail (tty_table s2 tp)) |> <| tty_incount := tty_incount (tty_table s2 tp) - 1 |>) by apply fn_lookup_insert.
  clearbody s3. rewrite E2 in E3.
  destruct (has ch IN_EOT) eqn:Eeot; t_step.
  - t_step. t_step. match goal with |- wp _ _ ?x => set (s4 := x) end.
    assert (Hg4 : going s4 g2) by (by apply going_set).
    assert (E4 : tty_table s4 tp = (tty_table s3 tp) <| tty_eotct := tty_eotct (tty_table s3 tp) - 1 |>) by apply fn_lookup_insert.
    clearbody s4. rewrite E3 in E4. cbn [andb] in n2. unfold n2 in t3. destruct canon eqn:Ecan; t_step.
    + t_step. t_step. split; [done|]. apply Hend; [by apply going_set|]. etrans; [apply fn_lookup_insert|]. rewrite E4. unfold t3, shifted. rewrite Eeot. done.
    + t_step. split; [done|]. apply Hend; [done|]. rewrite E4. unfold t3, shifted. rewrite Eeot. done.
  - t_step. split; [done|]. apply Hend; [done|]. rewrite E3. unfold t3, shifted. rewrite Eeot, Z.sub_0_r. done.
Qed.

Lemma transfer_step_run s1 g buf : taking s1 g buf →
  wp (transfer_step tp base buf) (λ x s3, ∃ g2 buf2, taking s3 g2 buf2 ∧
    match x with
    | inl b => b = buf2 ∧ tty_incount (tty_table s3 tp) < tty_incount (tty_table s1 tp)
    | inr b => b = buf2 ∧ s3 = s1 ∧ g2 = g ∧ buf2 = buf ∧ (tty_inleft (tty_table s1 tp) ≤ 0 ∨ eots (clean (tty_table s1 tp)) = 0)
    end) s1.
Proof.
  intros Ht. pose proof Ht as [Hg Hl Hb Hr Hrd]. unfold transfer_step. t_step. t_step. set (t1 := tty_table s1 tp) in *.
  destruct ((0 <? tty_inleft t1) && (0 <? tty_eotct t1)) eqn:E; cbn [negb].
  2:{ t_step. exists g, buf. split; [done|]. split_and!; try done. pose proof (l_eots _ Hl) as Ee. unfold clean. rewrite eots_clean, <- Ee.
      pose proof (eots_nonneg (queue t1)). lia. }
  assert (Hn : 0 < tty_inleft t1) by lia. assert (He : 0 < tty_eotct t1) by lia.
  t_step. apply inq_get_run; [apply (l_tail _ Hl)|]. fold t1. set (ch := tty_inbuf t1 (tty_intail t1)). t_step.
  assert (Ecan : lflag t1 ICANON = canon).
  { unfold lflag. assert (ET : tty_termios t1 = tty_termios t) by apply (erase_rd_fields _ _ (go_line _ _ Hg)). by rewrite ET. }
  rewrite Ecan. pose proof (l_invir _ Hl) as Hiv. pose proof (l_incum _ Hl) as Hic.
  assert (Hrest : ∀ s2 g2 buf2, going s2 g2 → g2 ++ buf2 = g ++ buf ++ (if has ch IN_EOF then [] else [Z.land ch IN_CHAR]) → Z.of_nat (length buf2) < 64 →
    (∃ vir cum, 0 ≤ vir < 2 ^ 32 ∧ - 2 ^ 15 ≤ cum < 2 ^ 15 ∧ tty_table s2 tp = t1 <| tty_in_vir := vir |> <| tty_incum := cum |>
       <| tty_inleft := tty_inleft t1 - (if has ch IN_EOF then 0 else 1) |>) →
    wp (tset tp (λ t, t <| tty_intail := next_in (tty_intail t) |> <| tty_incount := tty_incount t - 1 |>);;
      when (has ch IN_EOT)
        (tset tp (λ t, t <| tty_eotct := tty_eotct t - 1 |>);;
         when canon (tset tp (λ t, t <| tty_inleft := 0 |>)));;
      mret (inl buf2 : list Z + list Z)) (λ x s3, ∃ g2 buf2, taking s3 g2 buf2 ∧
    match x with
    | inl b => b = buf2 ∧ tty_incount (tty_table s3 tp) < tty_incount t1
    | inr b => b = buf2 ∧ s3 = s1 ∧ g2 = g ∧ buf2 = buf ∧ (tty_inleft t1 ≤ 0 ∨ eots (clean t1) = 0)
    end) s2).
  { intros s2 g2 buf2 Hg2 Eb Hb2 Hex. eapply wp_mono; [by apply (shift_run s1 s2 g g2 buf buf2 ch)|]. cbn beta. intros x s3 (-> & Ht3 & Hc3).
    exists g2, buf2. done. }
  destruct (has ch IN_EOF) eqn:Eeof.
  - t_step. apply (Hrest s1 g buf); [done|by rewrite app_nil_r|done|]. exists (tty_in_vir t1), (tty_incum t1). split; [done|]. split; [done|].
    rewrite Z.sub_0_r. fold t1. by destruct t1.
  - t_step. t_step. match goal with |- wp _ _ ?x => set (s2 := x) end.
    assert (Hg2 : going s2 g) by (by apply going_set).
    assert (E2 : tty_table s2 tp = t1 <| tty_inleft := tty_inleft t1 - 1 |>) by apply fn_lookup_insert. clearbody s2.
    destruct (Z.eqb_spec (Z.of_nat (length (buf ++ [Z.land ch IN_CHAR]))) 64) as [E64|].
    + t_step. apply (give_run s2 g); [done|rewrite length_app in E64; cbn in E64; lia|]. intros s3 Hg3 E3. t_step.
      apply (Hrest s3 (g ++ buf ++ [Z.land ch IN_CHAR]) []); [done|by rewrite app_nil_r|done|]. rewrite E3, E2.
      eexists _, _. split; [|split; [|reflexivity]]; [apply u32_range|apply s16_range].
    + t_step. apply (Hrest s2 g (buf ++ [Z.land ch IN_CHAR])); [done|done|rewrite length_app in *; cbn in *; lia|]. rewrite E2.
      exists (tty_in_vir t1), (tty_incum t1). split; [done|]. split; [done|]. by destruct t1.
Qed.

(** What a reader has got in the end. *)
Record transferred (b r : list Z) (n : Z) (s' : ttyst) : Prop := Transferred {
  tr_tinv : tinv s';
  tr_rest : clean (tty_table s' tp) = r;
  tr_left : tty_inleft (tty_table s' tp) = n;
  tr_mem : straight base (tty_in_vir t) (tty_inleft t) →
     delivered (u32 (base + tty_in_vir t)) (Z.of_nat (length b)) b (clicks (kern (sys s))) (clicks (kern (sys s')));
  tr_only : ∃ c, only_line tp (tty_table s' tp) c s s';
  tr_line : erase_rd (tty_table s' tp) = erase_rd t;
  tr_cum : tty_incum (tty_table s' tp) = if n =? 0 then 0 else s16 (tty_incum t + Z.of_nat (length b));
  tr_sent : sent s' = (if n =? 0 then [(tty_incaller t, Reply (tty_inrepcode t) (tty_inproc t) (s16 (tty_incum t + Z.of_nat (length b))))] else []) ++ sent s
}.

Lemma going_refl : line_ok t → going s [].
Proof.
  intros []. split; rewrite ?Z.add_0_r; try done; [|by rewrite u32_id|by rewrite s16_id].
  exists (clicks (kern (sys s))). split; [split; try done; by rewrite mem_same|]. intros _. apply delivered_none.
Qed.

Lemma transfer_loop_run : tinv s → wp (loop in_fuel (transfer_step tp base) []) (λ buf s1, ∃ g,
  taking s1 g buf ∧ (tty_inleft (tty_table s1 tp) ≤ 0 ∨ eots (clean (tty_table s1 tp)) = 0)) s.
Proof.
  intros Hi. pose proof (t_lines _ Hi tp Ha) as Hl. 
  apply (wp_loop (λ buf s1, ∃ g, taking s1 g buf) (λ _ s1, Z.to_nat (tty_incount (tty_table s1 tp)))).
  - intros buf s1 [g Ht]. eapply wp_mono; [by apply transfer_step_run|]. cbn beta. intros [b|b] s2 (g2 & buf2 & Ht2 & Hx).
    + destruct Hx as [-> Hlt]. split; [by exists g2|]. pose proof (l_count _ (ta_ok _ _ _ Ht2)). lia.
    + destruct Hx as (-> & -> & -> & -> & Hd). by exists g.
  - exists []. pose proof (l_inleft _ Hl). split; [by apply going_refl|done|done|cbn; lia|intros b r n E; by rewrite E].
  - pose proof (l_count _ Hl). unfold in_fuel. lia.
Qed.

Lemma in_transfer_run b r n (Hok : ∀ l, send_status l = OK) : tinv s → 0 < tty_inleft t → tty_min t ≤ tty_eotct t → reads canon (tty_inleft t) (clean t) = (b, r, n) →
  wp (in_transfer tp) (λ _ s', transferred b r n s') s.
Proof.
  intros Hi Hn Hmin Er. pose proof (t_lines _ Hi tp Ha) as Hl. unfold in_transfer. t_step. t_step.
  replace ((tty_inleft t =? 0) || (tty_eotct t <? tty_min t)) with false by lia. t_step. apply user_addr_run; [by apply (l_inproc _ Hl)|].
  change (proc_vir2phys _ 0) with base. t_step. eapply wp_mono; [by apply transfer_loop_run|]. cbn beta. intros buf s1 (g & Ht & Hd).
  pose proof Ht as [Hg Hl1 Hb Hr Hrd]. specialize (Hrd [] (clean (tty_table s1 tp)) (tty_inleft (tty_table s1 tp))).
  rewrite app_nil_r in Hrd. specialize (Hrd (reads_done _ _ _ Hd)). rewrite Er in Hrd. injection Hrd as -> -> ->.
  pose proof (l_inleft _ Hl1) as Hn1.
  assert (Hend : ∀ s2, going s2 (g ++ buf) → (∃ vir cum, 0 ≤ vir < 2 ^ 32 ∧ - 2 ^ 15 ≤ cum < 2 ^ 15 ∧
      tty_table s2 tp = (tty_table s1 tp) <| tty_in_vir := vir |> <| tty_incum := cum |>) →
    wp (t ← line tp; when (tty_inleft t =? 0) (reply_in tp (tty_incum t);; tset tp (λ t, t <| tty_inleft := 0 |> <| tty_incum := 0 |>)))
       (λ _ s', transferred (g ++ buf) (clean (tty_table s1 tp)) (tty_inleft (tty_table s1 tp)) s') s2).
  { intros s2 [(c & Ho & Hdl) G2 G3 G4 G5] (vir & cum & Hv & Hc & E2). 
    destruct (erase_rd_fields _ _ G2) as (_ & F2 & F3 & F4 & F5 & F6).
    assert (Hl2 : line_ok (tty_table s2 tp)).
    { rewrite E2. pose proof (reader_line_ok (tty_table s1 tp) vir cum (tty_inleft (tty_table s1 tp)) Hl1 Hv Hc ltac:(lia)) as Hx. by destruct (tty_table s1 tp). }
    assert (Eleft : tty_inleft (tty_table s2 tp) = tty_inleft (tty_table s1 tp)) by by rewrite E2.
    assert (Ecl : clean (tty_table s2 tp) = clean (tty_table s1 tp)) by by rewrite E2.
    t_step. t_step. rewrite Eleft. destruct (Z.eqb_spec (tty_inleft (tty_table s1 tp)) 0) as [E0|Hne].
    - t_step. t_step. unfold reply_in. t_step. t_step. apply wp_tty_reply; [done|]. t_step.
      match goal with |- transferred _ _ _ ?x => set (s3 := x) end. set (t3 := (tty_table s2 tp) <| tty_inleft := 0 |> <| tty_incum := 0 |>).
      assert (E3 : tty_table s3 tp = t3) by apply fn_lookup_insert.
      assert (Ho3 : only_line tp t3 c s s3).
      { destruct Ho as [O1 O2 O3 O4 O5]. split; cbn; rewrite ?fn_lookup_insert; try done. intros q Hq. rewrite fn_lookup_insert_ne by done. by apply O2. }
      split; rewrite ?E3; try done.
      + apply (only_tinv tp t3 c s); try done. pose proof (reader_line_ok _ (tty_in_vir (tty_table s2 tp)) 0 0 Hl2 (l_invir _ Hl2) ltac:(lia) ltac:(lia)) as Hx.
        by destruct (tty_table s2 tp).
      + intros Hs. cbn. destruct Ho as [_ _ _ _ ->]. by apply Hdl.
      + by exists c.
      + by rewrite E0.
      + cbn. rewrite E0. cbn. by rewrite F2, F3, F4, G4, G5.
    - t_step. split; try done.
      + by apply (only_tinv tp (tty_table s2 tp) c s).
      + intros Hs. destruct Ho as [_ _ _ _ ->]. by apply Hdl.
      + by exists c.
      + by replace (_ =? 0) with false by lia.
      + by replace (_ =? 0) with false by lia. }
  t_step. destruct (decide (buf = [])) as [->|Hne].
  - rewrite bool_decide_true by done. cbn [negb]. t_step. apply Hend; [by rewrite app_nil_r|]. exists (tty_in_vir (tty_table s1 tp)), (tty_incum (tty_table s1 tp)).
    split; [apply Hl1|]. split; [apply Hl1|]. by destruct (tty_table s1 tp).
  - rewrite bool_decide_false by done. cbn [negb]. t_step. apply (give_run s1 g); [done|destruct buf; [done|cbn in *; lia]|]. intros s2 Hg2 E2. apply Hend; [done|].
    eexists _, _. split; [|split; [|exact E2]]; [apply u32_range|apply s16_range].
Qed.
End transfer.
