(* ===== verification/Ttytimer.v ===== *)
(** * The timers of the terminals

    A list of lines, sorted by the time of their timers: [settimer] keeps it
    sorted, and [tty_wakeup] fires exactly the timers that are due. *)

From Stdlib Require Import Sorting.Sorted.
From S2P Require Import Prelude Chain Sigset Proc Sched Ipc Receive Kernel Boot Userq Alloc Ksys Ksysp Ksafe Kmem Tty Ring Ttyout Ttyq Ttystream Ttycall.

(** ** The reference *)
Definition time_of (s : ttyst) (q : Z) : Z := tty_time (tty_table s q).
(** Before the first timer that is not earlier. *)
Fixpoint place (f : Z → Z) (tp : Z) (l : list Z) : list Z :=
  match l with [] => [tp] | q :: l' => if f tp <=? f q then tp :: l else q :: place f tp l' end.
Definition others (tp : Z) (l : list Z) : list Z := filter (λ q, q ≠ tp) l.
Definition new_timer (s : ttyst) (tp : Z) : Z := s32 (s32 (realtime (sys s) + pending_ticks (sys s)) + cc (tty_table s tp) VTIME * HZ10).

Section timers.
Context `{TtyWorld}.
Implicit Types (s : ttyst) (l : list Z).

Definition links (s : ttyst) : Z → option Z := λ q, tty_timenext (tty_table s q).
Definition is_chain (s : ttyst) (l : list Z) : Prop := chain (links s) (tty_timelist s) l.

(** Everything but the list of timers is the same. *)
Definition erase_tm (t : tty) : tty := t <| tty_timenext := None |>.
Record relinked (s s' : ttyst) : Prop := Relinked {
  re_lines : ∀ q, erase_tm (tty_table s' q) = erase_tm (tty_table s q);
  re_ptys : pty_table s' = pty_table s;
  re_sys : sys s' = sys s;
  re_sent : sent s' = sent s
}.
Lemma relinked_refl s : relinked s s.
Proof. by split. Qed.
Lemma relinked_trans s1 s2 s3 : relinked s1 s2 → relinked s2 s3 → relinked s1 s3.
Proof. intros [] []. split; try congruence. Qed.
Lemma relinked_fields s s' q : relinked s s' → tty_time (tty_table s' q) = tty_time (tty_table s q) ∧ cc (tty_table s' q) VTIME = cc (tty_table s q) VTIME.
Proof.
  intros [Hl _ _ _]. specialize (Hl q). unfold cc. destruct (tty_table s' q), (tty_table s q). unfold erase_tm in Hl. cbn in *.
  injection Hl. intros. by subst.
Qed.

(** The pointer to the rest of the list, after [l1]. *)
Lemma set_link_run l1 l2 x m s (Q : unit → ttyst → Prop) : is_chain s (l1 ++ l2) →
  (∀ s', relinked s s' → lseg (links s') (tty_timelist s') l1 x → (∀ q, Some q ≠ last l1 → links s' q = links s q) → Q tt s') →
  m = last l1 → wp (set_link m x) Q s.
Proof.
  intros Hc HQ ->. unfold is_chain in Hc. pose proof (chain_NoDup _ _ _ Hc) as Hnd. apply lseg_app in Hc as (e & H1 & H2). unfold set_link.
  destruct l1 as [|a l1 _] using rev_ind.
  { change (last []) with (@None Z). cbv iota. t_step. apply HQ; [by split|done|done]. }
  rewrite last_snoc. t_step. rewrite <- app_assoc in Hnd. apply NoDup_app in Hnd as (_ & Hd & _).
  match goal with |- Q tt ?x => set (s' := x) end.
  assert (El : ∀ q, links s' q = relink (links s) a x q).
  { intros q. unfold links, s', relink; cbn. fn_cases q a; [by rewrite decide_True|by rewrite decide_False]. }
  apply HQ.
  - split; try done. intros q. cbn. by fn_cases q a.
  - apply lseg_app in H1 as (e1 & H1 & -> & _). apply lseg_app. exists (Some a). split.
    + eapply lseg_ext; [intros q _; apply El|]. apply lseg_relink; [intros Hin; apply (Hd a Hin); left|exact H1].
    + cbn. split; [done|]. rewrite El. apply relink_same.
  - intros q Hq. rewrite last_snoc in Hq. rewrite El. apply relink_ne. congruence.
Qed.

Lemma timers_few l : NoDup l → Forall a_line l → (length l < time_fuel)%nat.
Proof.
  intros Hnd Hl. unfold time_fuel. apply Nat.lt_succ_r. rewrite <- (length_seqZ 0 NR_TTYS).
  assert (Hs : NoDup (seqZ 0 NR_TTYS)) by apply NoDup_seqZ. apply submseteq_length, NoDup_submseteq; [done|].
  intros q Hq. apply elem_of_seqZ. rewrite Forall_forall in Hl. by apply Hl.
Qed.

Lemma others_app tp l1 l2 : others tp (l1 ++ l2) = others tp l1 ++ others tp l2.
Proof. apply filter_app. Qed.
Lemma others_none tp l : tp ∉ l → others tp l = l.
Proof. intros Hn. unfold others. induction l as [|q l IH]; [done|]. rewrite filter_cons. apply not_elem_of_cons in Hn as [Hq Hn]. rewrite decide_True by congruence. by rewrite IH. Qed.

(** [tp] leaves the list. *)
Lemma unlink_run tp s l2 : ∀ fuel l1, is_chain s (l1 ++ l2) → tp ∉ l1 → (length l2 < fuel)%nat →
  wp (loop fuel (unlink_timer tp) (last l1, head l2)) (λ _ s', relinked s s' ∧ is_chain s' (others tp (l1 ++ l2))) s.
Proof.
  induction l2 as [|q l2 IH]; intros fuel l1 Hc Hn Hf; (destruct fuel; [cbn in Hf; lia|]); rewrite loop_unfold; t_step; cbn [head unlink_timer].
  { t_step. t_step. split; [apply relinked_refl|]. by rewrite app_nil_r, others_none in *. }
  t_step. t_step. destruct (Z.eqb_spec tp q) as [<-|Hne].
  - t_step. pose proof (chain_NoDup _ _ _ Hc) as Hnd. apply NoDup_app in Hnd as (_ & Hd1 & Hnd2). apply NoDup_cons in Hnd2 as [Hq2 _].
    apply (set_link_run l1 (tp :: l2)); [done| |done]. intros s' Hre Hl Hfr. t_step. t_step. split; [done|].
    rewrite others_app. unfold others at 2. rewrite filter_cons, decide_False by (intros X; by apply X). fold (others tp l2).
    rewrite !others_none by done. apply lseg_app. eexists. split; [exact Hl|].
    apply lseg_app in Hc as (m & _ & -> & H2). eapply lseg_ext; [|exact H2]. intros k Hk. apply Hfr. intros E. symmetry in E. apply last_Some in E as [l' ->].
    apply (Hd1 k); [set_solver|by right].
  - t_step. assert (En : tty_timenext (tty_table s q) = head l2).
    { apply lseg_app in Hc as (m & _ & -> & H2). by apply chain_head in H2. }
    rewrite En. assert (Ex : (Some q, head l2) = (last (l1 ++ [q]), head l2)) by by rewrite last_snoc. rewrite Ex.
    replace (l1 ++ q :: l2) with ((l1 ++ [q]) ++ l2) in * by by rewrite <- app_assoc.
    apply IH; [done| |cbn in Hf; lia]. intros [?|?%list_elem_of_singleton]%elem_of_app; [done|congruence].
Qed.

(** Where a timer belongs. *)
Lemma find_run time s l2 : ∀ fuel l1, is_chain s (l1 ++ l2) → (length l2 < fuel)%nat → 
  wp (loop fuel (find_timer time) (last l1, head l2)) (λ x s', s' = s ∧ ∃ l3 l4, l2 = l3 ++ l4 ∧ x = (last (l1 ++ l3), head l4) ∧
    Forall (λ q, tty_time (tty_table s q) < time) l3 ∧ (∀ q, head l4 = Some q → time ≤ tty_time (tty_table s q))) s.
Proof.
  induction l2 as [|q l2 IH]; intros fuel l1 Hc Hf; (destruct fuel; [cbn in Hf; lia|]); rewrite loop_unfold; t_step; cbn [head find_timer].
  { t_step. t_step. split; [done|]. exists [], []. rewrite (app_nil_r l1). split_and!; [done|done|constructor|done]. }
  t_step. t_step. destruct (Z.leb_spec time (tty_time (tty_table s q))).
  - t_step. t_step. split; [done|]. exists [], (q :: l2). rewrite (app_nil_r l1). split_and!; [done|done|constructor|by intros ? [= <-]].
  - t_step. assert (En : tty_timenext (tty_table s q) = head l2).
    { apply lseg_app in Hc as (m & _ & -> & H2). by apply chain_head in H2. }
    rewrite En. assert (Ex : (Some q, head l2) = (last (l1 ++ [q]), head l2)) by by rewrite last_snoc. rewrite Ex.
    replace (l1 ++ q :: l2) with ((l1 ++ [q]) ++ l2) in * by by rewrite <- app_assoc.
    eapply wp_mono; [apply IH; [done|cbn in Hf; lia]|]. cbn beta. intros x s' (-> & l3 & l4 & -> & -> & H3 & H4). split; [done|].
    exists (q :: l3), l4. split_and!; try done; [by rewrite <- app_assoc|by constructor].
Qed.

Lemma place_split f tp l3 l4 : Forall (λ q, f q < f tp) l3 → (∀ q, head l4 = Some q → f tp ≤ f q) → place f tp (l3 ++ l4) = l3 ++ tp :: l4.
Proof.
  intros H3 H4. induction H3 as [|q l3 Hq _ IH]; cbn.
  - destruct l4 as [|q l4]; [done|]. cbn. replace (f tp <=? f q) with true by (specialize (H4 q eq_refl); lia). done.
  - replace (f tp <=? f q) with false by lia. by rewrite IH.
Qed.
Lemma place_ext f g tp l : f tp = g tp → (∀ q, q ∈ l → f q = g q) → place f tp l = place g tp l.
Proof.
  intros Et Hl. induction l as [|q l IH]; [done|]. cbn. rewrite Et, (Hl q) by left. destruct (_ <=? _); [done|].
  f_equal. apply IH. intros. apply Hl. by right.
Qed.
Lemma place_sorted (f : Z → Z) tp l : StronglySorted (λ a b, f a ≤ f b) l → StronglySorted (λ a b, f a ≤ f b) (place f tp l).
Proof.
  induction 1 as [|q l Hs IH Hall]; cbn; [repeat constructor|]. destruct (Z.leb_spec (f tp) (f q)).
  - constructor; [by constructor|]. constructor; [done|]. eapply Forall_impl; [exact Hall|]. cbn. lia.
  - constructor; [done|]. clear IH Hs. induction Hall as [|x l Hx Hall IH]; cbn; [repeat constructor; lia|].
    destruct (_ <=? _); constructor; try done; [lia|by constructor].
Qed.
Lemma place_elem f tp l q : q ∈ place f tp l → q = tp ∨ q ∈ l.
Proof. induction l as [|x l IH]; cbn; [by intros ->%list_elem_of_singleton; left|]. destruct (_ <=? _); set_solver. Qed.
Lemma others_sorted (R : Z → Z → Prop) tp l : StronglySorted R l → StronglySorted R (others tp l).
Proof.
  induction 1 as [|q l Hs IH Hall]; [constructor|]. unfold others. rewrite filter_cons. fold (others tp l).
  case_decide; [|done]. constructor; [done|]. apply Forall_forall. intros x Hx. rewrite Forall_forall in Hall. apply Hall.
  by apply list_elem_of_filter in Hx as [_ ?].
Qed.
Lemma others_lines tp l : Forall a_line l → Forall a_line (others tp l).
Proof. rewrite !Forall_forall. intros Hl x Hx. apply Hl. by apply list_elem_of_filter in Hx as [_ ?]. Qed.
Lemma others_not_in tp l : tp ∉ others tp l.
Proof. intros Hin. apply list_elem_of_filter in Hin as [Hn _]. done. Qed.
End timers.

Section settimer.
Context `{TtyWorld}.
Implicit Types (s : ttyst) (l : list Z).

Definition erase_time (t : tty) : tty := t <| tty_timenext := None |> <| tty_time := 0 |>.
Record timed (tp : Z) (s s' : ttyst) : Prop := Timed {
  ti_lines : ∀ q, erase_time (tty_table s' q) = erase_time (tty_table s q);
  ti_times : ∀ q, q ≠ tp → time_of s' q = time_of s q;
  ti_ptys : pty_table s' = pty_table s;
  ti_sys : sys s' = (sys s) <| tty_timeout := tty_timeout (sys s') |>;
  ti_sent : sent s' = sent s
}.
Lemma timed_trans tp s1 s2 s3 : timed tp s1 s2 → timed tp s2 s3 → timed tp s1 s3.
Proof.
  intros [A1 A2 A3 A4 A5] [B1 B2 B3 B4 B5].
  split; [intros q; by rewrite B1|intros q Hq; by rewrite B2, A2|congruence| |congruence].
  rewrite B4, A4. by destruct (sys s1).
Qed.
Lemma relinked_timed tp s s' : relinked s s' → timed tp s s'.
Proof.
  intros Hr. split; [| |apply Hr| |apply Hr].
  - intros q. destruct Hr as [Hl _ _ _]. specialize (Hl q). unfold erase_time. unfold erase_tm in Hl. destruct (tty_table s' q), (tty_table s q). cbn in *. injection Hl. intros. by subst.
  - intros q _. apply (relinked_fields s s' q Hr).
  - rewrite (re_sys _ _ Hr). by destruct (sys s).
Qed.

Lemma settimer_run tp on s l : is_chain s l → Forall a_line l → a_line tp →
  wp (settimer tp on) (λ _ s', timed tp s s' ∧
    if on then time_of s' tp = new_timer s tp ∧ is_chain s' (place (time_of s') tp (others tp l)) ∧ tty_timeout (sys s') = Z.min (tty_timeout (sys s)) (new_timer s tp)
    else time_of s' tp = time_of s tp ∧ is_chain s' (others tp l) ∧ tty_timeout (sys s') = tty_timeout (sys s)) s.
Proof.
  intros Hc Hl Ha. unfold settimer. t_step. t_step. t_step. rewrite (chain_head _ _ _ Hc).
  eapply wp_mono; [apply (unlink_run tp s l _ []); [done|apply not_elem_of_nil|apply timers_few; [by eapply chain_NoDup|done]]|]. cbn beta.
  intros _ s1 [Hre Hc1]. cbn [app] in Hc1. set (l' := others tp l) in *. pose proof (relinked_timed tp s s1 Hre) as Ht1.
  destruct (relinked_fields s s1 tp Hre) as [Etm Ecc]. destruct on; cbn [negb].
  2:{ t_step. split; [done|]. split; [done|]. split; [done|]. by rewrite (re_sys _ _ Hre). }
  t_step. apply wp_kcall. unfold get_uptime. apply wp_gets. rewrite sys_same. t_step. t_step. cbv zeta. rewrite Ecc, (re_sys _ _ Hre).
  fold (new_timer s tp). set (time := new_timer s tp). t_step. t_step. match goal with |- wp _ _ ?x => set (s2 := x) end.
  assert (T2 : tty_table s2 tp = (tty_table s1 tp) <| tty_time := time |>) by apply fn_lookup_insert.
  assert (T2' : ∀ q, q ≠ tp → tty_table s2 q = tty_table s1 q) by (intros q Hq; by apply fn_lookup_insert_ne).
  assert (Ht2 : timed tp s1 s2).
  { split; try done.
    - intros q. destruct (decide (q = tp)) as [->|]; [by rewrite T2|by rewrite T2'].
    - intros q Hq. unfold time_of. by rewrite T2'.
    - cbn. by destruct (sys s1). }
  assert (Hc2 : is_chain s2 l').
  { eapply lseg_ext; [|exact Hc1]. intros q Hq. unfold links. rewrite T2'; [done|]. intros ->. by apply (others_not_in tp l). }
  assert (Hll : Forall a_line l') by by apply others_lines. t_step. t_step. t_step. rewrite (chain_head _ _ _ Hc2). change (tty_timelist s1) with (tty_timelist s2).
  eapply wp_mono; [apply (find_run time s2 l' _ []); [done|apply timers_few; [by eapply chain_NoDup|done]]|]. cbn beta.
  intros x s2' (-> & l3 & l4 & El & -> & H3 & H4). cbn [app]. t_step. t_step. match goal with |- wp _ _ ?x => set (s3 := x) end.
  assert (T3 : tty_table s3 tp = (tty_table s2 tp) <| tty_timenext := head l4 |>) by apply fn_lookup_insert.
  assert (T3' : ∀ q, q ≠ tp → tty_table s3 q = tty_table s2 q) by (intros q Hq; by apply fn_lookup_insert_ne).
  assert (Hr3 : relinked s2 s3).
  { split; try done. intros q. destruct (decide (q = tp)) as [->|]; [by rewrite T3|by rewrite T3']. }
  assert (Hn : tp ∉ l3 ++ l4) by (rewrite <- El; apply others_not_in).
  assert (Hc3 : is_chain s3 (l3 ++ l4)).
  { rewrite <- El. eapply lseg_ext; [|exact Hc2]. intros q Hq. unfold links. rewrite T3'; [done|]. intros ->. by apply (others_not_in tp l). }
  t_step. apply (set_link_run l3 l4); [done| |done]. intros s4 Hr4 Hs4 Hf4.
  assert (Hc4 : is_chain s4 (l3 ++ tp :: l4)).
  { apply lseg_app. exists (Some tp). split; [done|]. split; [done|]. rewrite Hf4.
    2:{ intros E. symmetry in E. apply last_Some in E as [? ->]. apply Hn. set_solver. }
    change (links s3 tp) with (tty_timenext (tty_table s3 tp)). rewrite T3. cbn. pose proof (chain_NoDup _ _ _ Hc3) as Hnd. apply NoDup_app in Hnd as (_ & Hd1 & _).
    apply lseg_app in Hc3 as (m & _ & H5). rewrite <- (chain_head _ _ _ H5). eapply lseg_ext; [|exact H5].
    intros q Hq. apply Hf4. intros E. symmetry in E. apply last_Some in E as [? ->]. apply (Hd1 q); [set_solver|done]. }
  assert (Hr24 : relinked s2 s4) by by eapply relinked_trans.
  assert (Ht4 : timed tp s s4). { eapply timed_trans; [exact Ht1|]. eapply timed_trans; [exact Ht2|]. by apply relinked_timed. }
  assert (Etime : time_of s4 tp = time).
  { unfold time_of. rewrite (proj1 (relinked_fields s2 s4 tp Hr24)). by rewrite T2. }
  assert (Epl : place (time_of s4) tp l' = l3 ++ tp :: l4).
  { rewrite El. apply place_split; rewrite Etime.
    - eapply Forall_impl; [exact H3|]. intros q Hq. unfold time_of. by rewrite (proj1 (relinked_fields s2 s4 q Hr24)).
    - intros q Hq. unfold time_of. rewrite (proj1 (relinked_fields s2 s4 q Hr24)). by apply H4. }
  assert (Esys : sys s4 = sys s) by (rewrite (re_sys _ _ Hr24); exact (re_sys _ _ Hre)).
  rewrite <- Epl in Hc4. t_step. t_step. rewrite Esys. apply wp_when; intros E.
  - t_step. split; [|split; [exact Etime|split; [exact Hc4|cbn; lia]]].
    destruct Ht4 as [A1 A2 A3 A4 A5]. split; try done. cbn. rewrite Esys. by destruct (sys s).
  - split; [done|]. split; [done|]. split; [done|]. rewrite Esys. lia.
Qed.

End settimer.

Section wakeup.
Context `{TtyWorld}.
Implicit Types (s : ttyst) (l : list Z).

Lemma time_line_ok t t' : erase_time t' = erase_time t → line_ok t → line_ok t'.
Proof. destruct t, t'. unfold erase_time. cbn. intros E Hl. injection E. intros. subst. destruct Hl. by split. Qed.

(** The list stays sorted. *)
Lemma settimer_tinv tp on s : tinv s → a_line tp → wp (settimer tp on) (λ _ s', tinv s' ∧ timed tp s s') s.
Proof.
  intros [H1 H2 [l (Hc & Hl & Hs)] H4] Ha. eapply wp_mono; [by apply (settimer_run tp on s l)|]. cbn beta. intros _ s' [Ht Hx]. split; [|done].
  destruct Ht as [A1 A2 A3 A4 A5].
  assert (Hso : StronglySorted (timer_le s') (others tp l)).
  { pose proof (others_sorted _ tp _ Hs) as Hso. pose proof (others_not_in tp l) as Hn. clear -Hso A2 Hn.
    induction Hso as [|q l' Hso IH Hall]; constructor; [apply IH; set_solver|]. apply Forall_forall. intros x Hx. rewrite Forall_forall in Hall.
    specialize (Hall x Hx). unfold timer_le in *. unfold time_of in A2. rewrite !A2; [done|intros ->; set_solver|intros ->; set_solver]. }
  split; [intros q Hq; by eapply time_line_ok, H1|intros q Hq; rewrite A3; by apply H2| |rewrite A4; exact H4].
  destruct on.
  - destruct Hx as (_ & Hc' & _). eexists. split; [exact Hc'|]. split.
    + apply Forall_forall. intros q [->|Hq]%place_elem; [done|]. pose proof (others_lines tp l Hl) as Hol. rewrite Forall_forall in Hol. by apply Hol.
    + apply (place_sorted (time_of s')). exact Hso.
  - destruct Hx as (_ & Hc' & _). eexists. split; [exact Hc'|]. split; [by apply others_lines|done].
Qed.

(** The effect of a timer that is due. *)
Definition woken (now : Z) (l : list Z) (s : ttyst) (q : Z) : tty :=
  if bool_decide (q ∈ l) && (time_of s q <=? now) then (tty_table s q) <| tty_min := 0 |> <| tty_events := true |> else tty_table s q.
Definition later (now : Z) (s : ttyst) (l : list Z) : list Z := filter (λ q, now < time_of s q) l.
Definition next_timeout (s : ttyst) (l : list Z) (d : Z) : Z := match head l with Some q => time_of s q | None => d end.

Record rang (now : Z) (l : list Z) (s s' : ttyst) : Prop := Rang {
  rg_lines : ∀ q, tty_table s' q = woken now l s q;
  rg_ptys : pty_table s' = pty_table s;
  rg_sent : sent s' = sent s;
  rg_list : is_chain s' (later now s l);
  rg_timeout : tty_timeout (sys s') = next_timeout s (later now s l) (tty_timeout (sys s));
  rg_sys : sys s' = (sys s) <| tty_timeout := tty_timeout (sys s') |>
}.

Lemma wakeup_loop now l : ∀ fuel s, is_chain s l → StronglySorted (timer_le s) l → (length l < fuel)%nat →
  wp (loop fuel (wakeup_step now) tt) (λ _ s', rang now l s s') s.
Proof.
  induction l as [|q l IH]; intros fuel s Hc Hs Hf; (destruct fuel; [cbn in Hf; lia|]); rewrite loop_unfold; t_step; unfold wakeup_step; t_step; t_step.
  { change (tty_timelist s) with (@id (option Z) (tty_timelist s)) in *. unfold id in *. rewrite (chain_head _ _ _ Hc). cbn [head]. t_step. t_step.
    split; try done. by destruct (sys s). }
  rewrite (chain_head _ _ _ Hc). cbn [head]. t_step. t_step. pose proof (chain_NoDup _ _ _ Hc) as Hnd. apply NoDup_cons in Hnd as [Hq Hnd].
  inversion Hs as [|?? Hs' Hall]; subst. destruct (Z.ltb_spec now (tty_time (tty_table s q))) as [Hlt|Hge].
  - t_step. t_step. t_step. t_step.
    assert (El : later now s (q :: l) = q :: l).
    { unfold later. assert (Hx : Forall (λ q, now < time_of s q) (q :: l)).
      { constructor; [done|]. eapply Forall_impl; [exact Hall|]. intros x Hx. unfold timer_le in Hx. unfold time_of. lia. }
      clear -Hx. induction Hx as [|x l0 Hx _ IH]; [done|]. rewrite filter_cons, decide_True by done. by f_equal. }
    split; rewrite ?El; try done. intros x. unfold woken. cbn. destruct (bool_decide (x ∈ q :: l)) eqn:E; [|done]. apply bool_decide_eq_true in E.
    replace (time_of s x <=? now) with false; [done|]. symmetry. apply Z.leb_gt. apply elem_of_cons in E as [->|E]; [exact Hlt|].
    rewrite Forall_forall in Hall. specialize (Hall x E). unfold timer_le in Hall. unfold time_of. lia.
  - t_step. t_step. t_step. t_step. t_step. match goal with |- wp _ _ ?x => set (s1 := x) end.
    set (t1 := (tty_table s q) <| tty_min := 0 |> <| tty_events := true |>).
    assert (T1 : tty_table s1 q = t1) by apply fn_lookup_insert. assert (T1' : ∀ x, x ≠ q → tty_table s1 x = tty_table s x) by (intros x Hx; by apply fn_lookup_insert_ne).
    assert (Htm : ∀ x, time_of s1 x = time_of s x).
    { intros x. unfold time_of. destruct (decide (x = q)) as [->|]; [by rewrite T1|by rewrite T1']. }
    assert (Hc1 : is_chain s1 l).
    { destruct Hc as [_ Hc]. unfold is_chain. change (tty_timelist s1) with (links s q). eapply lseg_ext; [|exact Hc].
      intros x Hx. unfold links. rewrite T1'; [done|]. by intros ->. }
    assert (Hs1 : StronglySorted (timer_le s1) l).
    { clear -Hs' Htm. induction Hs' as [|x l Hs' IH Hall]; constructor; [done|]. eapply Forall_impl; [exact Hall|]. intros y Hy.
      unfold timer_le in *. fold (time_of s1 x) (time_of s1 y). by rewrite !Htm. }
    eapply wp_mono; [apply IH; [done|done|cbn in Hf; lia]|]. cbn beta. intros _ s' [R1 R2 R3 R4 R5 R6].
    assert (El : later now s (q :: l) = later now s1 l).
    { unfold later. rewrite filter_cons, decide_False by (unfold time_of; lia). apply list_filter_iff. intros x. by rewrite Htm. }
    split; rewrite ?El; try done.
    + intros x. rewrite R1. unfold woken. rewrite Htm. destruct (decide (x = q)) as [->|Hxq].
      * rewrite T1, (bool_decide_false (q ∈ l)), (bool_decide_true (q ∈ q :: l)) by (done || by left). cbn [andb].
        unfold time_of. by replace (tty_time (tty_table s q) <=? now) with true by lia.
      * rewrite T1' by done. replace (bool_decide (x ∈ q :: l)) with (bool_decide (x ∈ l)); [done|]. apply bool_decide_ext. rewrite elem_of_cons. naive_solver.
    + rewrite R5. unfold next_timeout. destruct (head (later now s1 l)); [apply Htm|done].
Qed.
End wakeup.
