(* ===== verification/Ttysafe.v ===== *)
(** * Safety of the terminal task

    Every request on a pseudo terminal, from either side, is served without a
    fault, a panic or an endless loop, and keeps the invariant [tinv]. *)

From S2P Require Import Prelude Chain Sigset Proc Sched Ipc Receive Kernel Boot Userq Alloc Ksys Ksysp Ksafe Kmem Tty Ring Ttyout Ttyq Ttystream Ttyecho Ttyedit Ttyread Ttycall Ttytimer.

Lemma wp_and {S A} (m : M S A) (P Q : A → S → Prop) s : wp m P s → wp m Q s → wp m (λ a s', P a s' ∧ Q a s') s.
Proof. unfold wp. by destruct (m s). Qed.

(** What the functions of a line leave alone. *)
Record calm (tp : Z) (s s' : ttyst) : Prop := Calm {
  m_tinv : tinv s';
  m_ioreq : tty_ioreq (tty_table s' tp) = tty_ioreq (tty_table s tp);
  m_wrleft : wrleft (pty_table s' (pty_nr tp)) = wrleft (pty_table s (pty_nr tp))
}.

Section calm.
Context `{TtyWorld} `{Lines} (Hok : ∀ l, send_status l = OK) (tp : Z) (Hp : pty_line tp).
Implicit Types (s : ttyst).
Notation T s := (tty_termios (tty_table s tp)).

Lemma calm_refl s : tinv s → calm tp s s.
Proof. by split. Qed.
Lemma calm_trans s1 s2 s3 : calm tp s1 s2 → calm tp s2 s3 → calm tp s1 s3.
Proof. intros [] []. split; congruence || done. Qed.
Lemma typed_calm sg s s' : typed tp sg s s' → calm tp s s'.
Proof.
  intros [Y1 Y2 Y3 Y4 Y5 Y6 Y7 Y8]. split; [done|by apply typed_fields|]. specialize (Y5 (pty_nr tp)).
  destruct (pty_table s' (pty_nr tp)), (pty_table s (pty_nr tp)). unfold erase_out in Y5. cbn in *. by injection Y5.
Qed.
Lemma echoed_calm s s' : echoed tp s s' → calm tp s s'.
Proof. intros He. eapply typed_calm. apply shown_typed, echoed_shown, He. Qed.

Lemma in_transfer_calm s : tinv s → wp (in_transfer tp) (λ _ s', calm tp s s' ∧ tty_inhibited (tty_table s' tp) = tty_inhibited (tty_table s tp) ∧
    tty_events (tty_table s' tp) = tty_events (tty_table s tp) ∧ tty_termios (tty_table s' tp) = T s) s.
Proof.
  intros Hi. pose proof (t_lines _ Hi tp (a_tp tp Hp)) as Hl. pose proof (l_inleft _ Hl) as Hn.
  destruct (decide (0 < tty_inleft (tty_table s tp) ∧ tty_min (tty_table s tp) ≤ tty_eotct (tty_table s tp))) as [[Hn1 Hm]|Hno].
  - destruct (reads (has (c_lflag (T s)) ICANON) (tty_inleft (tty_table s tp)) (clean (tty_table s tp))) as [[b r] n] eqn:Er.
    eapply wp_mono; [by apply (in_transfer_run tp (a_tp tp Hp) s b r n)|]. cbn beta. intros _ s' [R1 R2 R3 R4 [c R5] R6 R7 R8].
    assert (E : tty_ioreq (tty_table s' tp) = tty_ioreq (tty_table s tp) ∧ tty_inhibited (tty_table s' tp) = tty_inhibited (tty_table s tp) ∧
       tty_events (tty_table s' tp) = tty_events (tty_table s tp) ∧ tty_termios (tty_table s' tp) = T s).
    { destruct (tty_table s' tp), (tty_table s tp). unfold erase_rd in R6. cbn in *. by injection R6. }
    destruct E as (E1 & E2 & E3 & E4). split; [|done]. split; [done|done|]. by rewrite (ol_ptys _ _ _ _ _ R5).
  - unfold in_transfer. t_step. t_step. replace ((tty_inleft (tty_table s tp) =? 0) || (tty_eotct (tty_table s tp) <? tty_min (tty_table s tp))) with true by lia.
    t_step. split; [by apply calm_refl|done].
Qed.

Lemma settimer_calm on s : tinv s → wp (settimer tp on) (λ _ s', calm tp s s' ∧ erase_time (tty_table s' tp) = erase_time (tty_table s tp)) s.
Proof.
  intros Hi. eapply wp_mono; [apply settimer_tinv; [done|by apply a_tp]|]. cbn beta. intros _ s' [Hi' [A1 A2 A3 A4 A5]].
  split; [|apply A1]. specialize (A1 tp). split; [done| |by rewrite A3].
  destruct (tty_table s' tp), (tty_table s tp). unfold erase_time in A1. cbn in *. by injection A1.
Qed.

(** A change of the line alone. *)
Lemma line_calm t' s : tinv s → tty_timenext t' = tty_timenext (tty_table s tp) → tty_time t' = tty_time (tty_table s tp) →
  line_ok t' → tty_ioreq t' = tty_ioreq (tty_table s tp) → calm tp s (s <| tty_table := <[tp := t']> (tty_table s) |>).
Proof.
  intros Hi E1 E2 Hl E3. split; cbn; rewrite ?fn_lookup_insert; try done. eapply only_tinv; [done|apply only_set|done..].
Qed.

Lemma in_store_calm ch b s : tinv s → is_word ch →
  wp (in_store tp ch b) (λ r s', calm tp s s' ∧ (r = None → s' = s ∧ has (c_lflag (T s)) ICANON = false)) s.
Proof.
  intros Hi Hw. pose proof (t_lines _ Hi tp (a_tp tp Hp)) as Hl. unfold in_store. t_step. t_step. set (t := tty_table s tp) in *.
  destruct (Z.eqb_spec (tty_incount t) TTY_IN_BYTES) as [|Hroom]; [t_step; split; [by apply calm_refl|fold t; unfold lflag; by destruct (has _ ICANON)]|].
  t_step. eapply (wp_mono _ (λ x s1, is_word x.1 ∧ calm tp s s1 ∧ tty_incount (tty_table s1 tp) = tty_incount t)).
  { destruct (lflag t ICANON); [t_step; split; [done|]; split; [by apply calm_refl|done]|].
    assert (Hwe : is_word (Z.lor ch IN_EOT)) by by apply word_lor.
    destruct (_ && _); [|t_step; split; [done|]; split; [by apply calm_refl|done]].
    t_step. eapply wp_mono; [by apply settimer_calm|]. cbn beta. intros _ s1 [Hc E]. t_step. split; [done|]. split; [done|]. fold t in E.
    destruct (tty_table s1 tp), t. unfold erase_time in E. cbn in *. by injection E. }
  cbn beta. intros [ch1 b1] s1 (Hw1 & Hc1 & En1). cbn in Hw1. t_step.
  eapply (wp_mono _ (λ ch2 s2, is_word ch2 ∧ calm tp s s2 ∧ tty_incount (tty_table s2 tp) = tty_incount t)).
  { destruct (has _ _); [|t_step; done]. eapply wp_mono; [by apply echo_run; [apply Hc1| |]|]. cbn beta. intros ch2 s2 (He & Hw2 & _).
    split; [done|]. split; [eapply calm_trans; [exact Hc1|by apply echoed_calm]|]. destruct He as (_ & (_ & _ & En) & _). congruence. }
  cbn beta. intros ch2 s2 (Hw2 & Hc2 & En2). pose proof (m_tinv _ _ _ Hc2) as Hi2. pose proof (t_lines _ Hi2 tp (a_tp tp Hp)) as Hl2. pose proof (l_count _ Hl2) as Hcc.
  set (t2 := tty_table s2 tp) in *. destruct (appended_ok ch2 t2 Hl2 ltac:(lia) Hw2) as [Hla _].
  t_step. unfold in_queue. do 3 t_step. fold t2. apply inq_set_run; [rewrite (l_head _ Hl2); by apply cell_range|done|].
  t_step. t_step. t_step.
  eapply (wp_mono _ (λ _ s3, calm tp s s3)).
  { apply wp_when; intros E; [t_step|];
      match goal with |- calm _ _ ?x => assert (E3 : only_line tp (appended ch2 t2) (clicks (kern (sys s2))) s2 x) end.
    1, 3: split; cbn; rewrite ?fn_lookup_insert; try done; [|intros q Hq; by rewrite !fn_lookup_insert_ne|by rewrite mem_same]; unfold appended; rewrite E; rewrite ?Z.add_0_r; reflexivity.
    all: (eapply calm_trans; [exact Hc2|]; split; [eapply only_tinv; [exact Hi2|exact E3|done|done|done]|rewrite (ol_line _ _ _ _ _ E3); done|by rewrite (ol_ptys _ _ _ _ _ E3)]). }
  cbn beta. intros _ s3 Hc3. t_step. t_step. apply wp_when; intros _; [|by t_step].
  eapply wp_mono; [apply in_transfer_calm, Hc3|]. cbn beta. intros _ s4 [Hc4 _]. t_step. split; [by eapply calm_trans|done].
Qed.
End calm.

Section input.
Context `{TtyWorld} `{Lines} (Hok : ∀ l, send_status l = OK) (tp : Z) (Hp : pty_line tp).
Implicit Types (s : ttyst).
Notation T s := (tty_termios (tty_table s tp)).
Notation inhib s := (tty_inhibited (tty_table s tp)).
Notation events s := (tty_events (tty_table s tp)).

(** A character that is passed on changes no more than the escape. *)
Lemma in_extended_some ch s : tinv s → wp (in_extended tp ch) (λ r s', r ≠ None → events s' = events s ∧ T s' = T s ∧ inhib s' = inhib s) s.
Proof.
  intros Hi. unfold in_extended. t_step. t_step. destruct (negb _); [by t_step|]. t_step.
  eapply (wp_mono _ (λ _ s1, tinv s1 ∧ events s1 = events s ∧ T s1 = T s ∧ inhib s1 = inhib s)).
  { destruct (tty_escaped _); [|by t_step]. t_step. t_step. t_step.
    destruct (view_flags tp Hp s ((tty_table s tp) <| tty_escaped := false |>) Hi eq_refl) as [Hty _]. split; [apply Hty|]. cbn. by rewrite fn_lookup_insert. }
  cbn beta. intros ch1 s1 (Hi1 & E1 & E2 & E3).
  destruct (_ =? _).
  - t_step. t_step. t_step.
    match goal with |- wp _ _ ?x => set (s2 := x) end. assert (Hi2 : tinv s2).
    { destruct (view_flags tp Hp s1 ((tty_table s1 tp) <| tty_escaped := true |>) Hi1 eq_refl) as [Hty _]. apply Hty. }
    eapply wp_mono; [by apply rawecho_run|]. cbn beta. intros _ s3 He3. t_step. eapply wp_mono; [apply rawecho_run; [apply He3|done]|]. cbn beta. intros _ s4 _. by t_step.
  - destruct (_ =? _); [|by t_step]. t_step. eapply wp_mono; [apply reprint_run; [done|done|by apply cc_word]|]. cbn beta. intros _ s2 _. by t_step.
Qed.

Lemma in_canonical_calm ch s : tinv s → is_word ch →
  wp (in_canonical tp ch) (λ r s', calm tp s s' ∧ (has (c_lflag (T s)) ICANON = false → r = Some ch ∧ s' = s) ∧ T s' = T s ∧ (∀ c, r = Some c → is_word c)) s.
Proof.
  intros Hi Hw. destruct (has (c_lflag (T s)) ICANON) eqn:E.
  - eapply wp_mono; [by apply in_canonical_run|]. cbn beta. intros r s' [Hty Er]. split; [by eapply typed_calm|]. split; [done|]. split; [by apply typed_fields, Hty|].
    intros c ->. by eapply canon_word.
  - unfold in_canonical. t_step. t_step. unfold lflag. rewrite E. cbn [negb]. t_step. split; [by apply calm_refl|]. split; [done|]. split; [done|]. by intros c [= <-].
Qed.

Lemma in_flow_calm ch s : tinv s → is_word ch →
  wp (in_flow tp ch) (λ r s', calm tp s s' ∧ T s' = T s ∧ (∀ c, r = Some c → is_word c ∧ (s' = s ∨ inhib s = true ∧ inhib s' = false))) s.
Proof.
  intros Hi Hw. eapply wp_mono; [apply wp_and; [by apply in_flow_run|]|].
  - instantiate (1 := λ r s', r = None ∨ s' = s ∨ inhib s = true ∧ inhib s' = false). unfold in_flow. t_step. t_step.
    destruct (negb _); [t_step; by right; left|]. destruct (_ =? _); [do 3 t_step; by left|]. destruct (_ && _) eqn:E; [|t_step; by right; left].
    do 3 t_step. right; right. split; [by apply andb_true_iff in E as [? _]|]. cbn. by rewrite fn_lookup_insert.
  - cbn beta. intros r s' [[Hty Er] Hx]. split; [by eapply typed_calm|]. split; [by apply typed_fields, Hty|]. intros c ->. split; [by eapply flow_word|].
    by destruct Hx as [|Hx].
Qed.

(** A character: unless it is consumed, at most stopped output has started. *)
Lemma in_char_calm c b s : tinv s →
  wp (in_char tp c b) (λ r s', calm tp s s' ∧ (r = None → inhib s' = inhib s ∧ events s' = events s ∨ inhib s = true ∧ inhib s' = false)) s.
Proof.
  intros Hi. unfold in_char. t_step. t_step. set (ch0 := if iflag _ ISTRIP then _ else _).
  assert (Hw0 : is_word ch0).
  { assert (Hu : is_word (u8 c)) by (unfold is_word, u8; pose proof (Z.mod_pos_bound c (2 ^ 8) ltac:(lia)); lia).
    unfold ch0. destruct (iflag _ ISTRIP); [by apply word_land|done]. }
  clearbody ch0. t_step. eapply wp_mono; [apply wp_and; [by apply in_extended_run|by apply in_extended_some]|]. cbn beta. intros r1 s1 [[Hty1 E1] Hsame].
  pose proof (typed_calm tp _ _ _ Hty1) as Hc1. destruct r1 as [ch1|]; [|by t_step]. destruct (Hsame ltac:(done)) as (Ev1 & ET1 & Ein1).
  pose proof (ext_word _ _ _ _ _ Hw0 (eq_sym E1)) as Hw1. t_step. t_step.
  rewrite in_mapped_run. destruct (edit_map _ ch1) as [ch2|] eqn:E2; [|by t_step]. pose proof (map_word _ _ _ Hw1 E2) as Hw2.
  t_step. eapply wp_mono; [apply in_canonical_calm; [apply Hc1|done]|]. cbn beta. intros r3 s3 (Hc3 & Hraw & ET3 & Hw3).
  assert (Hc13 : calm tp s s3) by by eapply calm_trans.
  destruct r3 as [ch3|]; [|by t_step]. specialize (Hw3 _ eq_refl). t_step. eapply wp_mono; [apply in_flow_calm; [apply Hc3|done]|]. cbn beta.
  intros r4 s4 (Hc4 & ET4 & Hx4). assert (Hc14 : calm tp s s4) by by eapply calm_trans.
  destruct r4 as [ch4|]; [|by t_step]. destruct (Hx4 _ eq_refl) as [Hw4 Hs4]. t_step.
  eapply wp_mono; [apply in_signal_run; [done|apply Hc4|done]|]. cbn beta. intros r5 s5.
  destruct (edit_sig _ _ ch4) as [[e sg]|].
  { intros (-> & Hty5 & _). t_step. split; [eapply calm_trans; [exact Hc14|by eapply typed_calm]|done]. }
  intros [-> ->]. eapply wp_mono; [apply in_store_calm; [done|done|apply Hc4|done]|]. cbn beta. intros r6 s6 [Hc6 Hx6].
  split; [by eapply calm_trans|]. intros E6. destruct (Hx6 E6) as [-> Ecan]. rewrite ET4, ET3 in Ecan. destruct (Hraw Ecan) as [_ ->].
  destruct Hs4 as [->|[Ea Eb]]; [left; by rewrite Ein1, Ev1|right; by rewrite <- Ein1].
Qed.
End input.

(** ** The events of a line end *)
Definition bit (b : bool) : Z := if b then 1 else 0.
Definition work (tp : Z) (s : ttyst) : Z :=
  2 * wrleft (pty_table s (pty_nr tp)) + bit (tty_inhibited (tty_table s tp)) + 2 * bit (negb (tty_ioreq (tty_table s tp) =? 0)).
(** New events mean that there is less to do. *)
Record served (tp : Z) (s s' : ttyst) : Prop := Served {
  v_tinv : tinv s';
  v_work : work tp s' ≤ work tp s;
  v_events : tty_events (tty_table s' tp) = tty_events (tty_table s tp) ∨ work tp s' < work tp s
}.

Section service.
Context `{TtyWorld} `{Lines} (Hok : ∀ l, send_status l = OK) (tp : Z) (Hp : pty_line tp).
Implicit Types (s : ttyst).

Lemma served_refl s : tinv s → served tp s s.
Proof. split; [done|lia|by left]. Qed.
Lemma served_trans s1 s2 s3 : served tp s1 s2 → served tp s2 s3 → served tp s1 s3.
Proof. intros [A1 A2 A3] [B1 B2 B3]. split; [done|lia|]. destruct A3 as [A3|], B3 as [B3|]; [left; congruence|right; lia..]. Qed.
(** The line and the pseudo terminal have changed. *)
Lemma put_served t1 p1 s c s1 : tinv s → (∀ q, q ≠ tp → tty_table s1 q = tty_table s q) →
  (∀ q, q ≠ pty_nr tp → pty_table s1 q = pty_table s q) → tty_timelist s1 = tty_timelist s → sys s1 = mem_set c (sys s) →
  tty_table s1 tp = t1 → pty_table s1 (pty_nr tp) = p1 →
  tty_timenext t1 = tty_timenext (tty_table s tp) → tty_time t1 = tty_time (tty_table s tp) → line_ok t1 → pty_ok p1 →
  tty_ioreq t1 = tty_ioreq (tty_table s tp) → tty_inhibited t1 = tty_inhibited (tty_table s tp) → tty_events t1 = tty_events (tty_table s tp) →
  wrleft p1 ≤ wrleft (pty_table s (pty_nr tp)) → served tp s s1.
Proof.
  intros Hi Hl Hpt El Es E1 E2 En Et Hlo Hpo Eio Ein Eev Hw. split.
  - apply (tinv_put tp s s1 c); rewrite ?E1, ?E2; done.
  - unfold work. rewrite E1, E2, Eio, Ein. lia.
  - left. by rewrite E1.
Qed.

Lemma pty_read_step_run s : tinv s →
  wp (pty_read_step tp tt) (λ x s', served tp s s' ∧ match x with
    | inl _ => wrleft (pty_table s' (pty_nr tp)) = wrleft (pty_table s (pty_nr tp)) - 1
    | inr _ => True end) s.
Proof.
  intros Hi. destruct (tinv_pty tp s Hi Hp) as [Hpo Hl]. unfold pty_read_step. t_step. t_step. set (p := pty_table s (pty_nr tp)).
  destruct (Z.leb_spec (wrleft p) 0); [t_step; split; [by apply served_refl|done]|]. t_step. apply user_addr_run; [by apply (p_wrproc _ Hpo)|].
  t_step. apply copy_in_run. rewrite seqZ_cons, seqZ_nil by lia. cbn [map]. set (c := mem_byte _ _). t_step.
  unfold in_process, in_chars. t_step. eapply wp_mono; [by apply in_char_calm|]. cbn beta. intros r s1 [[Hi1 Eio Ewr] Hx]. destruct r as [b|]; t_step.
  2:{ cbn [Z.eqb]. t_step. split; [|done]. split; [done| |]; unfold work; rewrite Eio, Ewr; destruct (Hx eq_refl) as [[-> Eev]|[-> ->]]; cbn; try lia; by left. }
  change (0 + 1 =? 0) with false. cbv iota. t_step. t_step. t_step. t_step. match goal with |- context [wp _ _ ?x] => set (s2 := x) end.
  assert (P2 : pty_table s2 (pty_nr tp) = (pty_table s1 (pty_nr tp)) <| wrvir := u32 (wrvir (pty_table s1 (pty_nr tp)) + 1) |>
     <| wrcum := s16 (wrcum (pty_table s1 (pty_nr tp)) + 1) |> <| wrleft := wrleft (pty_table s1 (pty_nr tp)) - 1 |>) by apply fn_lookup_insert.
  assert (P2' : ∀ q, q ≠ pty_nr tp → pty_table s2 q = pty_table s1 q) by (intros q Hq; by apply fn_lookup_insert_ne).
  assert (T2 : tty_table s2 = tty_table s1) by done.
  destruct (tinv_pty tp s1 Hi1 Hp) as [Hpo1 Hl1]. fold p in Ewr.
  assert (Hpo2 : pty_ok (pty_table s2 (pty_nr tp))).
  { rewrite P2. pose proof (p_wrproc _ Hpo1). pose proof (p_wrleft _ Hpo1). destruct Hpo1. split; cbn; try done; try lia. intros. apply p_wrproc. lia. }
  assert (H2 : served tp s s2 ∧ wrleft (pty_table s2 (pty_nr tp)) = wrleft p - 1).
  { split; [|rewrite P2; cbn; lia]. split.
    - apply (tinv_put tp s1 s2 (clicks (kern (sys s1)))); try done. by rewrite mem_same.
    - unfold work. rewrite P2, T2, Eio. cbn. unfold bit. fold p. repeat case_match; lia.
    - right. unfold work. rewrite P2, T2, Eio. cbn. unfold bit. fold p. repeat case_match; lia. }
  destruct H2 as [H2 Hw2]. clearbody s2. t_step. apply wp_when; intros E; [|t_step; done].
  t_step. apply wp_tty_reply; [done|]. t_step. t_step.
  match goal with |- served _ _ ?x ∧ _ => set (s3 := x) end.
  assert (P3 : pty_table s3 (pty_nr tp) = (pty_table s2 (pty_nr tp)) <| wrcum := 0 |>) by apply fn_lookup_insert.
  split; [eapply served_trans; [exact H2|]|by rewrite P3].
  apply (put_served (tty_table s2 tp) ((pty_table s2 (pty_nr tp)) <| wrcum := 0 |>) s2 (clicks (kern (sys s2)))); try done.
  - apply H2.
  - intros q Hq. by apply fn_lookup_insert_ne.
  - by rewrite mem_same.
  - by apply (tinv_pty tp s2 (v_tinv _ _ _ H2) Hp).
  - by destruct Hpo2.
Qed.
End service.

(** ** Attributes *)
Section attributes.
Context `{TtyWorld} `{Lines} (Hok : ∀ l, send_status l = OK) (tp : Z) (Hp : pty_line tp).
Implicit Types (s : ttyst).

(** What a change of the attributes may do. *)
Record lesser (s s' : ttyst) : Prop := Lesser {
  ls_tinv : tinv s';
  ls_ioreq : tty_ioreq (tty_table s' tp) = tty_ioreq (tty_table s tp);
  ls_wrleft : wrleft (pty_table s' (pty_nr tp)) ≤ wrleft (pty_table s (pty_nr tp));
  ls_inh : tty_inhibited (tty_table s' tp) = true → tty_inhibited (tty_table s tp) = true
}.
Lemma lesser_refl s : tinv s → lesser s s.
Proof. by split. Qed.
Lemma lesser_trans s1 s2 s3 : lesser s1 s2 → lesser s2 s3 → lesser s1 s3.
Proof. intros [] []. split; [done|congruence|lia|auto]. Qed.

(** A change of the line and of the pseudo terminal. *)
Lemma put_lesser s c s1 : tinv s → (∀ q, q ≠ tp → tty_table s1 q = tty_table s q) →
  (∀ q, q ≠ pty_nr tp → pty_table s1 q = pty_table s q) → tty_timelist s1 = tty_timelist s → sys s1 = mem_set c (sys s) →
  tty_timenext (tty_table s1 tp) = tty_timenext (tty_table s tp) → tty_time (tty_table s1 tp) = tty_time (tty_table s tp) →
  line_ok (tty_table s1 tp) → pty_ok (pty_table s1 (pty_nr tp)) →
  tty_ioreq (tty_table s1 tp) = tty_ioreq (tty_table s tp) → (tty_inhibited (tty_table s1 tp) = true → tty_inhibited (tty_table s tp) = true) →
  wrleft (pty_table s1 (pty_nr tp)) ≤ wrleft (pty_table s (pty_nr tp)) → lesser s s1.
Proof. intros. split; [|done..]. by apply (tinv_put tp s s1 c). Qed.
Lemma set_lesser t' s : tinv s → tty_timenext t' = tty_timenext (tty_table s tp) → tty_time t' = tty_time (tty_table s tp) → line_ok t' →
  tty_ioreq t' = tty_ioreq (tty_table s tp) → (tty_inhibited t' = true → tty_inhibited (tty_table s tp) = true) →
  lesser s (s <| tty_table := <[tp := t']> (tty_table s) |>).
Proof.
  intros Hi E1 E2 Hl E3 E4. apply (put_lesser s (clicks (kern (sys s)))); cbn; rewrite ?fn_lookup_insert; try done.
  - intros q Hq. by rewrite fn_lookup_insert_ne.
  - by rewrite mem_same.
  - by apply (tinv_pty tp s Hi Hp).
Qed.

Lemma sigchar_lesser sig s : tinv s → wp (sigchar tp sig) (λ _ s', lesser s s' ∧ tty_termios (tty_table s' tp) = tty_termios (tty_table s tp)) s.
Proof.
  intros Hi. eapply wp_mono; [by apply sigchar_run|]. cbn beta. intros _ s' [Hty Ev]. destruct (typed_calm _ _ _ _ Hty) as [C1 C2 C3].
  split; [|by apply typed_fields, Hty]. split; [done|done|lia|]. 
  assert (Ei : tty_inhibited (tty_table s' tp) = inh (view tp s')) by done. rewrite Ei, Ev. by destruct (has _ NOFLSH).
Qed.

(** All characters of the queue become ends of input. *)
Lemma raw_loop_run s (t := tty_table s tp) : 0 ≤ tty_incount t ≤ TTY_IN_BYTES → 0 ≤ tty_intail t < TTY_IN_BYTES → Forall is_word (queue t) →
  wp (loop in_fuel (raw_step tp) (tty_intail t, tty_incount t))
     (λ _ s', ∃ b, s' = s <| tty_table := tty_table s' |> ∧ (∀ q, q ≠ tp → tty_table s' q = tty_table s q) ∧
       tty_table s' tp = t <| tty_inbuf := b |> ∧ ring TTY_IN_BYTES b (tty_intail t) (tty_incount t) = map (λ c, Z.lor c IN_EOT) (queue t)) s.
Proof.
  intros Hc Htl Hw. assert (Hq : Z.of_nat (length (queue t)) = tty_incount t) by (apply ring_length; lia).
  apply (wp_loop (λ x s1, ∃ i b, 0 ≤ i ≤ tty_incount t ∧ x = (cell TTY_IN_BYTES (tty_intail t) i, tty_incount t - i) ∧
       s1 = s <| tty_table := tty_table s1 |> ∧ (∀ q, q ≠ tp → tty_table s1 q = tty_table s q) ∧ tty_table s1 tp = t <| tty_inbuf := b |> ∧
       ring TTY_IN_BYTES b (tty_intail t) (tty_incount t) = map (λ c, Z.lor c IN_EOT) (take (Z.to_nat i) (queue t)) ++ drop (Z.to_nat i) (queue t))
     (λ x _, Z.to_nat x.2)).
  - intros x s1 (i & b & Hi & -> & Es & Eo & Et & Er). unfold raw_step. destruct (Z.leb_spec (tty_incount t - i) 0) as [Hle|Hlt].
    { t_step. exists b. split_and!; try done. rewrite Er. rewrite drop_ge, take_ge, app_nil_r by lia. done. }
    t_step. apply inq_get_run; [by apply cell_range|]. rewrite Et. cbn [tty_inbuf upd upd_tty_inbuf]. t_step.
    set (x := cell TTY_IN_BYTES (tty_intail t) i). 
    destruct (lookup_lt_is_Some_2 (queue t) (Z.to_nat i) ltac:(lia)) as [c Ec].
    assert (Ebx : b x = c).
    { pose proof (ring_lookup TTY_IN_BYTES b (tty_intail t) (tty_incount t) i ltac:(lia)) as Hlk. rewrite Er in Hlk. fold x in Hlk.
      assert (Hlt2 : length (map (λ c, Z.lor c IN_EOT) (take (Z.to_nat i) (queue t))) = Z.to_nat i) by (rewrite length_map, length_take; lia).
      rewrite lookup_app_r in Hlk by lia. rewrite Hlt2, Nat.sub_diag, lookup_drop, Nat.add_0_r, Ec in Hlk. by injection Hlk. }
    assert (Hcw : is_word c) by (rewrite Forall_lookup in Hw; by eapply Hw).
    apply inq_set_run; [by apply cell_range|rewrite Ebx; by apply word_lor|]. t_step. split; [|cbn; lia].
    exists (i + 1), (<[x := Z.lor (b x) IN_EOT]> b). split; [lia|]. split.
    { f_equal; [|lia]. unfold next_in. rewrite cell_next by (try done; by apply cell_range). unfold x. by rewrite cell_cell. }
    split; [cbn; rewrite Es; by destruct s|]. split; [intros q Hqn; cbn; rewrite fn_lookup_insert_ne by done; by apply Eo|].
    split; [cbn; rewrite fn_lookup_insert; unfold set_cell; by rewrite Et|].
    unfold x. rewrite (ring_insert TTY_IN_BYTES) by (try done; lia). rewrite Er. fold x. rewrite Ebx.
    assert (Hlt2 : length (map (λ c, Z.lor c IN_EOT) (take (Z.to_nat i) (queue t))) = Z.to_nat i) by (rewrite length_map, length_take; lia).
    rewrite insert_app_r_alt by lia. rewrite Hlt2, Nat.sub_diag. replace (Z.to_nat (i + 1)) with (S (Z.to_nat i)) by lia.
    rewrite (take_S_r _ _ c) by done. rewrite map_app. cbn [map]. rewrite <- app_assoc. f_equal.
    rewrite (drop_S _ c) by done. done.
  - exists 0, (tty_inbuf t). split; [lia|]. split; [rewrite cell_0, Z.sub_0_r by done; done|]. split; [by destruct s|]. split; [done|].
    split; [unfold t; by destruct (tty_table s tp)|done].
  - unfold in_fuel. cbn. lia.
Qed.

Lemma eots_raw (l : list Z) : eots (map (λ c, Z.lor c IN_EOT) l) = Z.of_nat (length l).
Proof.
  induction l as [|c l IH]; [done|]. cbn [map]. rewrite eots_cons, IH.
  assert (E : has (Z.lor c IN_EOT) IN_EOT = true) by by apply has_setf_same. rewrite E. cbn [length]. lia.
Qed.

Lemma setattr_run s : tinv s → wp (setattr tp) (λ _ s', lesser s s') s.
Proof.
  intros Hi. destruct (tinv_pty tp s Hi Hp) as [Hpo Hl]. unfold setattr. t_step. t_step. set (t := tty_table s tp) in *. t_step.
  assert (Hraw : wp (when (negb (lflag t ICANON)) (tset tp (λ t, t <| tty_eotct := tty_incount t |>);; loop in_fuel (raw_step tp) (tty_intail t, tty_incount t)))
    (λ _ s1, lesser s s1) s).
  { apply wp_when; intros _; [|by apply lesser_refl]. t_step. t_step. set (t1 := t <| tty_eotct := tty_incount t |>).
    match goal with |- wp _ _ ?x => set (s1 := x) end. assert (T1 : tty_table s1 tp = t1) by apply fn_lookup_insert.
    assert (T1' : ∀ q, q ≠ tp → tty_table s1 q = tty_table s q) by (intros q Hq; by apply fn_lookup_insert_ne).
    change (tty_intail t) with (tty_intail t1). change (tty_incount t) with (tty_incount t1). rewrite <- T1.
    pose proof (l_count _ Hl) as Hc. pose proof (l_tail _ Hl) as Htl. pose proof (l_words _ Hl) as Hw.
    eapply wp_mono; [apply raw_loop_run; rewrite T1; done|]. cbn beta. rewrite T1. intros _ s2 (b & Es & Eo & Et & Er).
    apply (put_lesser s (clicks (kern (sys s)))); rewrite ?Et; try done.
    - intros q Hq. rewrite Eo, T1'; done.
    - by rewrite Es.
    - by rewrite Es.
    - by rewrite Es, mem_same.
    - change (queue t1) with (queue t) in Er. assert (Eq : queue (t1 <| tty_inbuf := b |>) = map (λ c, Z.lor c IN_EOT) (queue t)) by exact Er.
      destruct Hl. split; cbn; try done.
      + rewrite Eq, eots_raw. symmetry. apply ring_length. lia.
      + rewrite Eq. apply Forall_map. eapply Forall_impl; [exact Hw|]. intros c Hcw. by apply word_lor.
    - by rewrite Es.
    - rewrite Es. cbn. lia. }
  eapply wp_mono; [exact Hraw|]. cbn beta. clear Hraw. intros _ s1 H1. t_step. eapply wp_mono; [apply settimer_calm; [done|apply H1]|]. cbn beta.
  intros _ s2 [[C1 C2 C3] Ee]. assert (H2 : lesser s s2).
  { eapply lesser_trans; [exact H1|]. split; [done|done|lia|]. destruct (tty_table s2 tp), (tty_table s1 tp). unfold erase_time in Ee. cbn in *. injection Ee. intros. by subst. }
  clear s1 H1 C1 C2 C3 Ee. t_step.
  assert (Hmin : ∀ m, wp (tset tp (λ t, t <| tty_min := m |>)) (λ _ s', lesser s s') s2).
  { intros m. t_step. eapply lesser_trans; [exact H2|]. apply set_lesser; try done; [apply H2|].
    pose proof (t_lines _ (ls_tinv _ _ H2) tp (a_tp tp Hp)) as Hl2. by destruct Hl2. }
  eapply (wp_mono _ (λ _ s', lesser s s')); [destruct (lflag t ICANON); apply Hmin|]. cbn beta. clear Hmin s2 H2. intros _ s3 H3. t_step.
  eapply (wp_mono _ (λ _ s', lesser s s')).
  { apply wp_when; intros _; [t_step|done]. eapply lesser_trans; [exact H3|]. apply set_lesser; try done; [apply H3|].
    pose proof (t_lines _ (ls_tinv _ _ H3) tp (a_tp tp Hp)) as Hl3. by destruct Hl3. }
  cbn beta. clear s3 H3. intros _ s4 H4. t_step. eapply (wp_mono _ (λ _ s', lesser s s')).
  { apply wp_when; intros _; [|done]. eapply wp_mono; [apply sigchar_lesser, H4|]. cbn beta. intros _ s5 [H5 _]. by eapply lesser_trans. }
  cbn beta. intros _ s5 H5. unfold tty_ioctl. destruct (pty_line_ok tp Hp) as (_ & -> & _). by t_step.
Qed.

(** ** Cancelling and the parameters of an ioctl *)
Lemma icancel_lesser s : tinv s → wp (tty_icancel tp) (λ _ s', lesser s s' ∧ wrleft (pty_table s' (pty_nr tp)) = 0) s.
Proof.
  intros Hi. destruct (tinv_pty tp s Hi Hp) as [Hpo Hl]. unfold tty_icancel, tty_devicancel. destruct (pty_line_ok tp Hp) as (_ & -> & _).
  t_step. t_step. match goal with |- wp _ _ ?x => set (s1 := x) end. assert (H1 : lesser s s1).
  { apply set_lesser; try done. by apply (flushed_ok (tty_table s tp)). }
  assert (P1 : pty_table s1 = pty_table s) by done. clearbody s1. unfold pty_icancel. t_step. t_step. rewrite P1. pose proof (p_wrleft _ Hpo) as Hw.
  apply wp_when; intros E; [|split; [done|]; rewrite P1; lia].
  t_step. apply wp_tty_reply; [done|]. t_step. match goal with |- lesser _ ?x ∧ _ => set (s2 := x) end.
  assert (P2 : pty_table s2 (pty_nr tp) = (pty_table s1 (pty_nr tp)) <| wrleft := 0 |> <| wrcum := 0 |>) by apply fn_lookup_insert.
  split; [|by rewrite P2]. eapply lesser_trans; [exact H1|]. apply (put_lesser s1 (clicks (kern (sys s1)))); rewrite ?P2; try done.
  - apply H1.
  - intros q Hq. by apply fn_lookup_insert_ne.
  - by rewrite mem_same.
  - by apply (tinv_pty tp s1 (ls_tinv _ _ H1) Hp).
  - rewrite P1. destruct Hpo. split; cbn; try done; lia.
  - rewrite P1. cbn. lia.
Qed.

Lemma ocancel_lesser s : tinv s → wp (tty_ocancel tp) (λ _ s', lesser s s' ∧ tty_table s' = tty_table s) s.
Proof.
  intros Hi. destruct (tinv_pty tp s Hi Hp) as [Hpo Hl]. unfold tty_ocancel, pty_ocancel. destruct (pty_line_ok tp Hp) as (_ & -> & _).
  t_step. match goal with |- lesser _ ?x ∧ _ => set (s2 := x) end.
  assert (P2 : pty_table s2 (pty_nr tp) = emptied (pty_table s (pty_nr tp))) by apply fn_lookup_insert. split; [|done].
  apply (put_lesser s (clicks (kern (sys s)))); rewrite ?P2; try done.
  - intros q Hq. by apply fn_lookup_insert_ne.
  - by rewrite mem_same.
  - by apply emptied_ok.
Qed.

(** Bytes read from memory. *)
Definition is_bytes (l : list Z) : Prop := Forall (λ b, 0 ≤ b < 256) l.
Lemma mem_bytes c a n : is_bytes (map (mem_byte c) (seqZ a n)).
Proof. apply Forall_map, Forall_forall. intros b _. apply Z.mod_pos_bound. lia. Qed.
Lemma nth_of_bytes l n : is_bytes l → 0 ≤ nth n l 0 < 256.
Proof. intros Hl. rewrite nth_lookup. destruct (l !! n) as [x|] eqn:E; [|cbn; lia]. cbn. unfold is_bytes in Hl. rewrite Forall_lookup in Hl. by eapply Hl. Qed.

Lemma termios_lesser T s : tinv s → (∀ n, 0 ≤ c_cc T n < 256) → lesser s (s <| tty_table := <[tp := (tty_table s tp) <| tty_termios := T |>]> (tty_table s) |>).
Proof.
  intros Hi HT. pose proof (t_lines _ Hi tp (a_tp tp Hp)) as Hl. apply set_lesser; try done. destruct Hl. by split.
Qed.
Lemma get_termios_lesser a s : tinv s → wp (get_termios tp a) (λ _ s', lesser s s') s.
Proof.
  intros Hi. unfold get_termios. t_step. apply copy_in_run. t_step. apply termios_lesser; [done|]. intros n. cbn. apply nth_of_bytes, mem_bytes.
Qed.

End attributes.

(** ** Events *)
Section serving.
Context `{TtyWorld} `{Lines} `{Events} (Hok : ∀ l, send_status l = OK) (tp : Z) (Hp : pty_line tp).
Implicit Types (s : ttyst).

Lemma lesser_work s s' : lesser tp s s' → work tp s' ≤ work tp s.
Proof.
  intros [_ E Hw Hi]. unfold work. rewrite E. unfold bit. destruct (tty_inhibited (tty_table s' tp)); [rewrite Hi by done|]; repeat case_match; lia.
Qed.
Lemma tinv_set t' s : tinv s → tty_timenext t' = tty_timenext (tty_table s tp) → tty_time t' = tty_time (tty_table s tp) → line_ok t' →
  tinv (s <| tty_table := <[tp := t']> (tty_table s) |>).
Proof. intros. eapply only_tinv; [done|apply only_set|done..]. Qed.
Lemma tinv_sent x s : tinv s → tinv (s <| sent := x |>).
Proof. intros [H1' H2' [l H3'] H4']. split; cbn; try done. exists l. by apply (timers_ext s). Qed.

Lemma dev_ioctl_run s : tinv s → tty_ioreq (tty_table s tp) ≠ 0 → wp (dev_ioctl tp) (λ _ s', tinv s' ∧ (s' = s ∨ work tp s' < work tp s)) s.
Proof.
  intros Hi Hr. destruct (tinv_pty tp s Hi Hp) as [Hpo Hl]. unfold dev_ioctl. t_step. t_step. set (t := tty_table s tp) in *.
  destruct (0 <? tty_outleft t); [t_step; split; [done|by left]|]. t_step.
  eapply (wp_mono _ (λ _ s', lesser tp s s')).
  { apply wp_when; intros _; [|by apply lesser_refl]. t_step.
    eapply (wp_mono _ (λ _ s', lesser tp s s')).
    { apply wp_when; intros _; [|by apply lesser_refl]. eapply wp_mono; [by apply icancel_lesser|]. by intros _ s1 [? _]. }
    cbn beta. intros _ s1 H1'. t_step. apply user_addr_run; [by apply (l_ioproc _ Hl)|]. t_step.
    eapply wp_mono; [apply get_termios_lesser; [done|apply H1']|]. cbn beta. intros _ s2 H2'.
    eapply wp_mono; [apply setattr_run; [done|apply H2']|]. cbn beta. intros _ s3 H3'. eapply lesser_trans; [exact H1'|]. by eapply lesser_trans. }
  cbn beta. intros _ s1 H1'. t_step. t_step. apply wp_tty_reply; [done|].
  pose proof (t_lines _ (ls_tinv _ _ _ H1') tp (a_tp tp Hp)) as Hl1. split.
  - apply tinv_sent, tinv_set; [apply H1'|done|done|]. destruct Hl1. split; cbn; try done.
  - right. pose proof (lesser_work _ _ H1') as Hw. unfold work in *. cbn [tty_table pty_table upd upd_tty_table upd_sent]. rewrite fn_lookup_insert.
    cbn [tty_ioreq tty_inhibited upd upd_tty_ioreq]. rewrite (ls_ioreq _ _ _ H1') in Hw. fold t in Hw |- *. replace (tty_ioreq t =? 0) with false in * by lia.
    unfold bit in *. cbn [negb Z.eqb] in *. lia.
Qed.

Lemma pty_read_run s : tinv s → wp (pty_read tp) (λ _ s', served tp s s') s.
Proof.
  intros Hi. destruct (tinv_pty tp s Hi Hp) as [Hpo Hl]. unfold pty_read. do 4 t_step. destruct (has _ _).
  - apply wp_when; intros _; [|by apply served_refl]. t_step. unfold reply_in. t_step. t_step. apply wp_tty_reply; [done|]. t_step.
    match goal with |- served _ _ ?x => set (s2 := x) end.
    set (t2 := (tty_table s tp) <| tty_inleft := 0 |> <| tty_incum := 0 |>). assert (T2 : tty_table s2 tp = t2) by apply fn_lookup_insert.
    apply (put_served tp Hp t2 (pty_table s (pty_nr tp)) s (clicks (kern (sys s)))); try done.
    + intros q Hq. by apply fn_lookup_insert_ne.
    + by rewrite mem_same.
    + destruct Hl. split; cbn; try done; lia.
  - apply (wp_loop (λ _ s1, served tp s s1) (λ _ s1, Z.to_nat (wrleft (pty_table s1 (pty_nr tp))))); [|by apply served_refl|lia].
    intros [] s1 Hs1. eapply wp_mono; [apply pty_read_step_run; [done|done|apply Hs1]|]. cbn beta. intros x s2 [Hs2 Hx].
    pose proof (served_trans _ _ _ _ Hs1 Hs2) as Hs12. destruct x as [[]|[]]; [|done]. split; [done|].
    pose proof (p_wrleft _ (proj1 (tinv_pty tp s2 (v_tinv _ _ _ Hs2) Hp))). lia.
Qed.

Lemma pty_write_served s : tinv s → wp (pty_write tp) (λ _ s', served tp s s' ∧ tty_events (tty_table s' tp) = tty_events (tty_table s tp)) s.
Proof.
  intros Hi. destruct (tinv_pty tp s Hi Hp) as [Hpo Hl]. unfold pty_write. do 4 t_step. destruct (has _ _).
  - apply wp_when; intros _; [|split; [by apply served_refl|done]]. t_step. unfold reply_out. t_step. t_step. apply wp_tty_reply; [done|]. t_step.
    match goal with |- served _ _ ?x ∧ _ => set (s2 := x) end.
    set (t2 := (tty_table s tp) <| tty_outleft := 0 |> <| tty_outcum := 0 |>). assert (T2 : tty_table s2 tp = t2) by apply fn_lookup_insert.
    split; [|by rewrite T2]. apply (put_served tp Hp t2 (pty_table s (pty_nr tp)) s (clicks (kern (sys s)))); try done.
    + intros q Hq. by apply fn_lookup_insert_ne.
    + by rewrite mem_same.
    + destruct Hl. split; cbn; try done; lia.
  - t_step. eapply wp_mono; [by apply write_loop_run|]. cbn beta. intros _ s2 (k & r & X & [I F R (pos & rep & cum & L & C) P S' A N T] & _).
    assert (H2' : served tp s s2 ∧ tty_events (tty_table s2 tp) = tty_events (tty_table s tp)).
    { assert (Ew : wrleft (pty_table s2 (pty_nr tp)) = wrleft (pty_table s (pty_nr tp))).
      { destruct (pty_table s2 (pty_nr tp)), (pty_table s (pty_nr tp)). unfold erase_out in P. cbn in *. by injection P. }
      assert (Ee : tty_events (tty_table s2 tp) = tty_events (tty_table s tp)) by by rewrite L.
      assert (Ei : tty_inhibited (tty_table s2 tp) = tty_inhibited (tty_table s tp)) by by rewrite L.
      assert (Er : tty_ioreq (tty_table s2 tp) = tty_ioreq (tty_table s tp)) by by rewrite L.
      split; [|done]. split; [done| |by left]. unfold work. rewrite Ew, Ei, Er. lia. }
    destruct H2' as [Hs2 Ee2]. apply pty_finish_run; [done|]. cbv zeta. intros s3 E1 E2 E3 E4 E5 E6.
    destruct (tinv_pty tp s2 I Hp) as [Hpo2 Hl2]. destruct (finished_ok _ Hpo2) as [Hfo _]. split; [eapply served_trans; [exact Hs2|]|by rewrite E1].
    apply (put_served tp Hp (tty_table s2 tp) (finished (pty_table s2 (pty_nr tp))) s2 (clicks (kern (sys s2)))); try done.
    + intros q _. by rewrite E1.
    + by rewrite mem_same.
    + by rewrite E1.
    + unfold finished. by destruct (0 <? rdcum _).
Qed.

Lemma event_step_run s : tinv s → wp (event_step tp tt) (λ x s', tinv s' ∧ match x with inl _ => work tp s' < work tp s | inr _ => True end) s.
Proof.
  intros Hi. destruct (tinv_pty tp s Hi Hp) as [Hpo Hl]. destruct (pty_line_ok tp Hp) as (_ & Eis & _). unfold event_step. t_step. t_step.
  match goal with |- wp _ _ ?x => set (s1 := x) end. set (t1 := (tty_table s tp) <| tty_events := false |>).
  assert (T1 : tty_table s1 tp = t1) by apply fn_lookup_insert.
  assert (Hi1 : tinv s1) by (apply tinv_set; try done; by destruct Hl).
  assert (W1 : work tp s1 = work tp s) by (unfold work; by rewrite T1).
  assert (Ev1 : tty_events (tty_table s1 tp) = false) by by rewrite T1. clearbody s1. clear T1 t1.
  t_step. unfold tty_devread. rewrite Eis. eapply wp_mono; [by apply pty_read_run|]. cbn beta. intros _ s2 Hs2.
  t_step. unfold tty_devwrite. rewrite Eis. eapply wp_mono; [apply pty_write_served, Hs2|]. cbn beta. intros _ s3 [Hs3 _].
  pose proof (served_trans _ _ _ _ Hs2 Hs3) as [Hi3 W3 V3]. clear s2 Hs2 Hs3. t_step. t_step. t_step.
  eapply (wp_mono _ (λ _ s4, tinv s4 ∧ (tty_events (tty_table s4 tp) = false ∨ work tp s4 < work tp s))).
  { rewrite Ev1 in V3. assert (H3 : tty_events (tty_table s3 tp) = false ∨ work tp s3 < work tp s) by (destruct V3; [by left|right; lia]).
    apply wp_when; intros E; [|done]. eapply wp_mono; [apply dev_ioctl_run; [done|lia]|]. cbn beta. intros _ s4 [Hi4 [->|Hw]]; [done|].
    split; [done|]. right. lia. }
  cbn beta. intros _ s4 [Hi4 Hx]. t_step. t_step. t_step. destruct (tty_events (tty_table s4 tp)); [|done]. split; [done|]. by destruct Hx.
Qed.

(** Events come to an end. *)
Lemma handle_events_run s (Hpat : 2 ^ 16 + 2 < Z.of_nat patience) : tinv s → wp (handle_events tp) (λ _ s', tinv s') s.
Proof.
  intros Hi. unfold handle_events. t_step. eapply (wp_mono _ (λ _ s', tinv s')).
  { apply (wp_loop (λ _ s1, tinv s1) (λ _ s1, Z.to_nat (work tp s1))); [|done|].
    - intros [] s1 Hi1. eapply wp_mono; [by apply event_step_run|]. cbn beta. intros [[]|[]] s2 [Hi2 Hw]; [|done]. split; [done|].
      assert (0 ≤ work tp s2).
      { pose proof (p_wrleft _ (proj1 (tinv_pty tp s2 Hi2 Hp))). unfold work, bit. repeat case_match; lia. }
      lia.
    - pose proof (p_wrleft _ (proj1 (tinv_pty tp s Hi Hp))). unfold work, bit. repeat case_match; lia. }
  cbn beta. intros _ s1 Hi1. t_step. eapply wp_mono; [by apply in_transfer_calm|]. cbn beta. intros _ s2 [[Hi2 _ _] _]. t_step. t_step.
  apply wp_when; intros _; [|done]. t_step. unfold reply_in. t_step. t_step. apply wp_tty_reply; [done|]. t_step.
  pose proof (t_lines _ Hi2 tp (a_tp tp Hp)) as Hl2. apply tinv_set; [by apply tinv_sent|done|done|]. destruct Hl2. split; cbn; try done; lia.
Qed.
End serving.

(** ** Requests *)

(** A request of the file system on behalf of a user process. *)
Definition good_req (m : message) : Prop := 0 ≤ m_proc m < NR_PROCS ∧ - 2 ^ 15 ≤ m_count m < 2 ^ 15.

Section requests.
Context `{TtyWorld} `{Lines} `{Events} (Hok : ∀ l, send_status l = OK) (Hpat : 2 ^ 16 + 2 < Z.of_nat patience).
Context (Hfont : ∀ m s, tinv s → wp (vdu_loadfont m) (λ _ s', tinv s') s).
Implicit Types (s : ttyst) (m : message).

Lemma task_reply_run m r s : tinv s → wp (task_reply m r) (λ _ s', tinv s') s.
Proof. intros Hi. unfold task_reply. apply wp_tty_reply; [done|]. by apply tinv_sent. Qed.
Lemma good_proc m : good_req m → isokprocn (m_proc m) = true ∧ s8 (m_proc m) = m_proc m.
Proof.
  intros [Hm _]. unfold NR_PROCS in *. split; [unfold isokprocn, NR_TASKS, NR_PROCS; lia|].
  unfold s8. rewrite Z.mod_small; lia.
Qed.
Lemma numap_run p v n (Q : Z → ttyst → Prop) s : isokprocn p = true → (∀ a, Q a s) → wp (kcall (numap p v n)) Q s.
Proof. intros Hp HQ. apply wp_kcall. unfold numap. eapply wp_eq; [by apply umap_at_ok|]. rewrite sys_same. apply HQ. Qed.

Context (tp : Z) (Hp : pty_line tp) (m : message) (Hm : good_req m).
Notation L s := (tty_table s tp).

Lemma line_tinv t' s : tinv s → tty_timenext t' = tty_timenext (L s) → tty_time t' = tty_time (L s) → (line_ok (L s) → line_ok t') →
  tinv (s <| tty_table := <[tp := t']> (tty_table s) |>).
Proof. intros Hi E1 E2 Hl. apply tinv_set; try done. by apply Hl, (tinv_pty tp s Hi Hp). Qed.
Lemma pty_tinv p' s : tinv s → (pty_ok (pty_table s (pty_nr tp)) → pty_ok p') → tinv (s <| pty_table := <[pty_nr tp := p']> (pty_table s) |>).
Proof.
  intros Hi Hpo. destruct (tinv_pty tp s Hi Hp) as [H1' Hl]. apply (tinv_put tp s _ (clicks (kern (sys s)))); cbn; rewrite ?fn_lookup_insert; try done.
  - intros q Hq. by rewrite fn_lookup_insert_ne.
  - by rewrite mem_same.
  - by apply Hpo.
Qed.
Ltac ok_tac := let H := fresh in intros H; destruct H; split; cbn; try done; try lia.

Lemma set_tinv g s : tinv s → tty_timenext (g (L s)) = tty_timenext (L s) → tty_time (g (L s)) = tty_time (L s) → (line_ok (L s) → line_ok (g (L s))) →
  wp (tset tp g) (λ _ s', tinv s') s.
Proof. intros. t_step. by apply line_tinv. Qed.

Lemma do_read_safe s : tinv s → wp (do_read tp m) (λ _ s', tinv s') s.
Proof.
  intros Hi. destruct (good_proc m Hm) as [Hpr Es8]. unfold do_read. t_step. t_step. destruct (0 <? _); [by apply task_reply_run|].
  destruct (Z.leb_spec (m_count m) 0); [by apply task_reply_run|]. t_step. apply numap_run; [done|]. intros a. destruct (a =? 0); [by apply task_reply_run|].
  t_step. eapply wp_mono; [apply set_tinv; [done|done|done|]|].
  { destruct Hm as [_ Hc]. pose proof (u32_range (m2_p1 m)). unfold m_address. ok_tac. by rewrite Es8. }
  cbn beta. intros _ s1 Hi1. t_step. eapply (wp_mono _ (λ _ s', tinv s')).
  { apply wp_when; intros _; [|done]. destruct (_ =? 0).
    - t_step. eapply wp_mono; [by apply settimer_calm|]. cbn beta. intros _ s2 [[Hi2 _ _] _]. apply set_tinv; try done. ok_tac.
    - apply wp_when; intros _; [|done]. t_step. eapply wp_mono; [by apply settimer_calm|]. cbn beta. intros _ s2 [[Hi2 _ _] _]. apply set_tinv; try done. ok_tac. }
  cbn beta. intros _ s2 Hi2. t_step. eapply wp_mono; [by apply in_transfer_calm|]. cbn beta. intros _ s3 [[Hi3 _ _] _].
  t_step. eapply wp_mono; [by apply handle_events_run|]. cbn beta. intros _ s4 Hi4. t_step. t_step. destruct (_ =? 0); [by t_step|].
  destruct (has _ _); t_step; (eapply wp_mono; [apply set_tinv; [done|done|done|ok_tac]|]); cbn beta; intros _ s5 Hi5; by apply task_reply_run.
Qed.

Lemma do_write_safe s : tinv s → wp (do_write tp m) (λ _ s', tinv s') s.
Proof.
  intros Hi. destruct (good_proc m Hm) as [Hpr Es8]. unfold do_write. t_step. t_step. destruct (0 <? _); [by apply task_reply_run|].
  destruct (Z.leb_spec (m_count m) 0); [by apply task_reply_run|]. t_step. apply numap_run; [done|]. intros a. destruct (a =? 0); [by apply task_reply_run|].
  t_step. eapply wp_mono; [apply set_tinv; [done|done|done|]|].
  { destruct Hm as [_ Hc]. pose proof (u32_range (m2_p1 m)). unfold m_address. ok_tac. by rewrite Es8. }
  cbn beta. intros _ s1 Hi1. t_step. eapply wp_mono; [by apply handle_events_run|]. cbn beta. intros _ s4 Hi4. t_step. t_step. destruct (_ =? 0); [by t_step|].
  destruct (has _ _); [cbv zeta|]; t_step; (eapply wp_mono; [apply set_tinv; [done|done|done|ok_tac]|]); cbn beta; intros _ s5 Hi5; by apply task_reply_run.
Qed.

Lemma do_open_safe s : tinv s → wp (do_open tp m) (λ _ s', tinv s') s.
Proof.
  intros Hi. destruct (good_proc m Hm) as [Hpr Es8]. unfold do_open. destruct (_ =? LOG_MINOR); [by apply task_reply_run|].
  t_step. eapply (wp_mono _ (λ _ s', tinv s')).
  { apply wp_when; intros _; [|done]. apply set_tinv; try done. destruct Hm as [Hmp _]. ok_tac; rewrite Es8; lia. }
  cbn beta. intros _ s1 Hi1. t_step. eapply wp_mono; [apply set_tinv; [done|done|done|ok_tac]|]. cbn beta. intros _ s2 Hi2. by apply task_reply_run.
Qed.

Lemma defaults_bytes n : 0 ≤ c_cc termios_defaults n < 256.
Proof. unfold termios_defaults. cbn [c_cc]. apply nth_of_bytes. repeat constructor; done. Qed.

Lemma pty_close_tinv s : tinv s → wp (pty_close tp) (λ _ s', tinv s') s.
Proof.
  intros Hi. unfold pty_close. t_step. t_step. destruct (negb _); [by t_step|]. t_step. eapply (wp_mono _ (λ _ s', tinv s')).
  { apply wp_when; intros _; [|done]. t_step. apply wp_tty_reply; [done|]. t_step. apply pty_tinv; [by apply tinv_sent|]. ok_tac. }
  cbn beta. intros _ s1 Hi1. t_step. t_step. t_step. eapply (wp_mono _ (λ _ s', tinv s')).
  { apply wp_when; intros _; [|done]. t_step. apply wp_tty_reply; [done|]. t_step. apply pty_tinv; [by apply tinv_sent|]. ok_tac. }
  cbn beta. intros _ s2 Hi2. t_step. apply pty_tinv; [done|]. ok_tac.
Qed.

Lemma do_close_safe s : tinv s → wp (do_close tp m) (λ _ s', tinv s') s.
Proof.
  intros Hi. destruct (pty_line_ok tp Hp) as (_ & Eis & _). unfold do_close. t_step. eapply (wp_mono _ (λ _ s', tinv s')); [|cbn beta; intros _ s1 Hi1; by apply task_reply_run].
  apply wp_when; intros _; [|done]. t_step. eapply wp_mono; [apply set_tinv; [done|done|done|ok_tac]|]. cbn beta. intros _ s1 Hi1. t_step. t_step.
  apply wp_when; intros _; [|done]. t_step. eapply wp_mono; [apply set_tinv; [done|done|done|ok_tac]|]. cbn beta. intros _ s2 Hi2.
  t_step. eapply wp_mono; [by apply icancel_lesser|]. cbn beta. intros _ s3 [[Hi3 _ _ _] _]. t_step. eapply wp_mono; [by apply ocancel_lesser|]. cbn beta.
  intros _ s4 [[Hi4 _ _ _] _]. t_step. unfold tty_close. rewrite Eis. eapply wp_mono; [by apply pty_close_tinv|]. cbn beta. intros _ s5 Hi5.
  t_step. eapply wp_mono; [apply set_tinv; [done|done|done|]|]. { pose proof defaults_bytes as Hd. ok_tac. }
  cbn beta. intros _ s6 Hi6. eapply wp_mono; [by apply setattr_run|]. by intros _ s7 [].
Qed.

Lemma do_cancel_safe s : tinv s → wp (do_cancel tp m) (λ _ s', tinv s') s.
Proof.
  intros Hi. unfold do_cancel. t_step. t_step. t_step. eapply (wp_mono _ (λ _ s', tinv s')).
  { apply wp_when; intros _; [|done]. t_step. eapply wp_mono; [by apply icancel_lesser|]. cbn beta. intros _ s3 [[Hi3 _ _ _] _]. apply set_tinv; try done. ok_tac. }
  cbn beta. intros _ s1 Hi1. t_step. t_step. t_step. eapply (wp_mono _ (λ _ s', tinv s')).
  { apply wp_when; intros _; [|done]. t_step. eapply wp_mono; [by apply ocancel_lesser|]. cbn beta. intros _ s3 [[Hi3 _ _ _] _]. apply set_tinv; try done. ok_tac. }
  cbn beta. intros _ s2 Hi2. t_step. t_step. t_step. eapply (wp_mono _ (λ _ s', tinv s')).
  { apply wp_when; intros _; [|done]. apply set_tinv; try done. ok_tac. }
  cbn beta. intros _ s3 Hi3. t_step. eapply wp_mono; [apply set_tinv; [done|done|done|ok_tac]|]. cbn beta. intros _ s4 Hi4. by apply task_reply_run.
Qed.

(** *** ioctl *)
Lemma mem_tinv c s : tinv s → tinv (s <| sys := mem_set c (sys s) |>).
Proof. intros [T1 T2 [l T3] T4]. split; cbn; try done; [exists l; by apply (timers_ext s)|by apply kinv_clicks]. Qed.
Lemma copy_out_tinv l a s : tinv s → wp (kcall (copy_out l a)) (λ _ s', tinv s') s.
Proof. intros Hi. apply copy_out_t. by apply mem_tinv. Qed.
Lemma termios_tinv (g : tty → termios) s : tinv s → (∀ n, 0 ≤ c_cc (g (L s)) n < 256) → wp (tset tp (λ t, t <| tty_termios := g t |>)) (λ _ s', tinv s') s.
Proof. intros Hi Hg. apply set_tinv; try done. ok_tac. Qed.
Lemma setattr_tinv s : tinv s → wp (setattr tp) (λ _ s', tinv s') s.
Proof. intros Hi. eapply wp_mono; [by apply setattr_run|]. by intros _ s' []. Qed.

Lemma insert_bytes (f : Z → Z) k v : (∀ n, 0 ≤ f n < 256) → ∀ n, 0 ≤ (<[k := u8 v]> f) n < 256.
Proof. intros Hf n. fn_cases n k; [|apply Hf]. unfold u8. pose proof (Z.mod_pos_bound v (2 ^ 8) ltac:(lia)). lia. Qed.
Lemma compat_setp_tinv g s : tinv s → wp (compat_setp tp g) (λ _ s', tinv s') s.
Proof.
  intros Hi. unfold compat_setp. t_step. eapply wp_mono; [apply termios_tinv; [done|]|].
  - intros n. cbn. apply insert_bytes, insert_bytes. apply (l_cc _ (proj2 (tinv_pty tp s Hi Hp))).
  - cbn beta. intros _ s1 Hi1. by apply setattr_tinv.
Qed.
Lemma compat_setc_tinv c s : tinv s → wp (compat_setc tp c) (λ _ s', tinv s') s.
Proof.
  intros Hi. unfold compat_setc. t_step. eapply wp_mono; [apply termios_tinv; [done|]|].
  - intros n. cbn. do 6 apply insert_bytes. apply (l_cc _ (proj2 (tinv_pty tp s Hi Hp))).
  - cbn beta. intros _ s1 Hi1. by apply setattr_tinv.
Qed.

Lemma compat_reply_run r a b s : tinv s → wp (compat_reply m r a b) (λ _ s', tinv s') s.
Proof. intros Hi. unfold compat_reply, tty_send. do 5 t_step. by apply tinv_sent. Qed.
Lemma do_ioctl_compat_safe s : tinv s → wp (do_ioctl_compat tp m) (λ _ s', tinv s') s.
Proof.
  intros Hi. unfold do_ioctl_compat. t_step. t_step. cbv zeta. destruct (_ =? _); [by apply compat_reply_run|]. destruct (_ =? _); [by apply compat_reply_run|].
  destruct (_ =? _). { t_step. eapply wp_mono; [by apply compat_setc_tinv|]. cbn beta. intros _ s1 Hi1. by apply compat_reply_run. }
  destruct (_ =? _). { t_step. eapply wp_mono; [by apply compat_setp_tinv|]. cbn beta. intros _ s1 Hi1. by apply compat_reply_run. }
  by apply compat_reply_run.
Qed.

Lemma icancel_tinv s : tinv s → wp (tty_icancel tp) (λ _ s', tinv s') s.
Proof. intros Hi. eapply wp_mono; [by apply icancel_lesser|]. by intros _ s' [[] _]. Qed.
Lemma ocancel_tinv s : tinv s → wp (tty_ocancel tp) (λ _ s', tinv s') s.
Proof. intros Hi. eapply wp_mono; [by apply ocancel_lesser|]. by intros _ s' [[] _]. Qed.

Lemma ioctl_flush_safe a s : tinv s → wp (ioctl_flush tp a) (λ _ s', tinv s') s.
Proof.
  intros Hi. unfold ioctl_flush. t_step. apply copy_in_run. cbv zeta.
  destruct (_ =? _). { t_step. eapply wp_mono; [by apply icancel_tinv|]. cbn beta. intros _ s1 Hi1. by t_step. }
  destruct (_ =? _). { t_step. eapply wp_mono; [by apply ocancel_tinv|]. cbn beta. intros _ s1 Hi1. by t_step. }
  destruct (_ =? _); [|by t_step]. t_step. eapply wp_mono; [by apply icancel_tinv|]. cbn beta. intros _ s1 Hi1.
  t_step. eapply wp_mono; [by apply ocancel_tinv|]. cbn beta. intros _ s2 Hi2. by t_step.
Qed.
Lemma ioctl_flow_safe a s : tinv s → wp (ioctl_flow tp a) (λ _ s', tinv s') s.
Proof.
  intros Hi. unfold ioctl_flow. t_step. apply copy_in_run. t_step. t_step. cbv zeta.
  destruct (_ || _). { t_step. eapply wp_mono; [apply set_tinv; [done|done|done|ok_tac]|]. cbn beta. intros _ s1 Hi1. by t_step. }
  assert (He : ∀ c, wp (tty_echo tp c;; mret OK) (λ _ s', tinv s') s).
  { intros c. t_step. eapply wp_mono; [by apply tty_echo_run|]. cbn beta. intros _ s1 (_ & _ & Hi1). by t_step. }
  destruct (_ =? _); [apply He|]. destruct (_ =? _); [apply He|]. by t_step.
Qed.
Lemma ioctl_set_safe a s : tinv s → wp (ioctl_set tp m a) (λ _ s', tinv s') s.
Proof.
  intros Hi. destruct (good_proc m Hm) as [Hpr Es8]. unfold ioctl_set. t_step. t_step. cbv zeta. destruct (_ && _).
  { t_step. eapply wp_mono; [apply set_tinv; [done|done|done|ok_tac; by rewrite Es8]|]. cbn beta. intros _ s1 Hi1. by t_step. }
  destruct (_ =? TCDRAIN); [by t_step|]. t_step. eapply (wp_mono _ (λ _ s', tinv s')).
  { apply wp_when; intros _; [|done]. by apply icancel_tinv. }
  cbn beta. intros _ s1 Hi1. t_step. eapply wp_mono; [by apply get_termios_lesser|]. cbn beta. intros _ s2 [Hi2 _ _ _].
  t_step. eapply wp_mono; [by apply setattr_tinv|]. cbn beta. intros _ s3 Hi3. by t_step.
Qed.

Lemma do_ioctl_safe s : tinv s → wp (do_ioctl tp m) (λ _ s', tinv s') s.
Proof.
  intros Hi. destruct (good_proc m Hm) as [Hpr _]. unfold do_ioctl. cbv zeta. t_step. eapply (wp_mono _ (λ _ s', s' = s)).
  { destruct (_ =? 0); [by t_step|]. by apply numap_run. }
  cbn beta. intros a ? ->. destruct (_ && _); [by apply task_reply_run|]. t_step. t_step.
  assert (Hout : ∀ l, wp (kcall (copy_out l a);; task_reply m OK) (λ _ s', tinv s') s).
  { intros l. t_step. eapply wp_mono; [by apply copy_out_tinv|]. cbn beta. intros _ s1 Hi1. by apply task_reply_run. }
  destruct (_ =? TCGETS); [apply Hout|]. destruct (_ || _).
  { t_step. eapply wp_mono; [by apply ioctl_set_safe|]. cbn beta. intros r s1 Hi1. by apply task_reply_run. }
  destruct (_ =? TCFLSH). { t_step. eapply wp_mono; [by apply ioctl_flush_safe|]. cbn beta. intros r s1 Hi1. by apply task_reply_run. }
  destruct (_ =? TCFLOW). { t_step. eapply wp_mono; [by apply ioctl_flow_safe|]. cbn beta. intros r s1 Hi1. by apply task_reply_run. }
  destruct (_ =? TCSBRK). { unfold tty_break. destruct (pty_line_ok tp Hp) as (_ & -> & _). t_step. t_step. by apply task_reply_run. }
  destruct (_ =? TIOCGWINSZ); [apply Hout|].
  destruct (_ =? TIOCSWINSZ).
  { t_step. apply copy_in_run. t_step. eapply wp_mono; [apply set_tinv; [done|done|done|ok_tac]|]. cbn beta. intros _ s1 Hi1. by apply task_reply_run. }
  destruct (_ =? TIOCGETP); [apply Hout|].
  destruct (_ =? TIOCSETP). { t_step. apply copy_in_run. t_step. eapply wp_mono; [by apply compat_setp_tinv|]. cbn beta. intros _ s1 Hi1. by apply task_reply_run. }
  destruct (_ =? TIOCGETC); [apply Hout|].
  destruct (_ =? TIOCSETC). { t_step. apply copy_in_run. t_step. eapply wp_mono; [by apply compat_setc_tinv|]. cbn beta. intros _ s1 Hi1. by apply task_reply_run. }
  destruct (_ =? VDU_LOADFONT). { t_step. eapply wp_mono; [by apply Hfont|]. cbn beta. intros r s1 Hi1. by apply task_reply_run. }
  by apply do_ioctl_compat_safe.
Qed.

(** *** The other side *)
Lemma pset_tinv g s : tinv s → (pty_ok (pty_table s (pty_nr tp)) → pty_ok (g (pty_table s (pty_nr tp)))) → wp (pset tp g) (λ _ s', tinv s') s.
Proof. intros Hi Hg. t_step. by apply pty_tinv. Qed.

Lemma pty_start_tinv s : tinv s → wp (pty_start tp) (λ _ s', tinv s') s.
Proof.
  intros Hi. eapply wp_mono; [apply pty_start_run, (tinv_pty tp s Hi Hp)|]. cbn beta. intros _ s' Hs'. destruct (passed_on_echoed tp _ s s' Hi Hp Hs') as (_ & _ & Hi'). exact Hi'.
Qed.

Lemma do_pty_safe s : tinv s → wp (do_pty tp m) (λ _ s', tinv s') s.
Proof.
  intros Hi. destruct (good_proc m Hm) as [Hpr Es8]. pose proof (u32_range (m2_p1 m)) as Ha. destruct Hm as [Hmp Hmc]. unfold do_pty. t_step. t_step.
  assert (Hcan : ∀ (b : Z → bool) g s1, tinv s1 → (∀ p, pty_ok p → pty_ok (g p)) → ∀ c, wp (when c (pset tp g)) (λ _ s', tinv s') s1).
  { intros _ g s1 Hi1 Hg c. apply wp_when; intros _; [|done]. by apply pset_tinv; [|apply Hg]. }
  destruct (_ =? DEV_READ).
  { destruct (has _ _); [by apply task_reply_run|]. destruct (negb _); [by apply task_reply_run|]. destruct (Z.leb_spec (m_count m) 0); [by apply task_reply_run|].
    t_step. apply numap_run; [done|]. intros a. destruct (a =? 0); [by apply task_reply_run|].
    t_step. eapply wp_mono; [apply pset_tinv; [done|]|]. { unfold m_address. ok_tac. by rewrite Es8. }
    cbn beta. intros _ s1 Hi1. t_step. eapply wp_mono; [by apply pty_start_tinv|]. cbn beta. intros _ s2 Hi2.
    t_step. eapply wp_mono; [by apply handle_events_run|]. cbn beta. intros _ s3 Hi3. t_step. t_step. destruct (_ =? 0); [by t_step|].
    destruct (has _ _); t_step; (eapply wp_mono; [apply pset_tinv; [done|ok_tac]|]); cbn beta; intros _ s5 Hi5; by apply task_reply_run. }
  destruct (_ =? DEV_WRITE).
  { destruct (has _ _); [by apply task_reply_run|]. destruct (negb _); [by apply task_reply_run|]. destruct (Z.leb_spec (m_count m) 0); [by apply task_reply_run|].
    t_step. apply numap_run; [done|]. intros a. destruct (a =? 0); [by apply task_reply_run|].
    t_step. eapply wp_mono; [apply pset_tinv; [done|]|]. { ok_tac. by rewrite Es8. }
    cbn beta. intros _ s1 Hi1.
    t_step. eapply wp_mono; [by apply handle_events_run|]. cbn beta. intros _ s3 Hi3. t_step. t_step. destruct (_ =? 0); [by t_step|].
    destruct (has _ _); [cbv zeta|]; t_step; (eapply wp_mono; [apply pset_tinv; [done|ok_tac]|]); cbn beta; intros _ s5 Hi5; by apply task_reply_run. }
  destruct (_ =? DEV_IOCTL); [by apply task_reply_run|].
  destruct (_ =? DEV_OPEN). { t_step. eapply wp_mono; [apply pset_tinv; [done|ok_tac]|]. cbn beta. intros _ s1 Hi1. by apply task_reply_run. }
  destruct (_ =? DEV_CLOSE).
  { t_step. eapply (wp_mono _ (λ _ s', tinv s')).
    - destruct (has _ _); [apply pset_tinv; [done|ok_tac]|]. t_step. eapply wp_mono; [apply pset_tinv; [done|ok_tac]|]. cbn beta. intros _ s1 Hi1.
      eapply wp_mono; [by apply sigchar_lesser|]. by intros _ s2 [[] _].
    - cbn beta. intros _ s1 Hi1. by apply task_reply_run. }
  destruct (_ =? CANCEL); [|by apply task_reply_run].
  t_step. eapply wp_mono; [apply (Hcan (λ _, true)); [done|intros p; ok_tac]|]. cbn beta. intros _ s1 Hi1.
  t_step. eapply wp_mono; [apply (Hcan (λ _, true)); [done|intros p; ok_tac]|]. cbn beta. intros _ s2 Hi2. by apply task_reply_run.
Qed.

Lemma tty_request_safe s : tinv s → wp (tty_request tp m) (λ _ s', tinv s') s.
Proof.
  intros Hi. unfold tty_request. repeat case_match;
    [by apply do_read_safe|by apply do_write_safe|by apply do_ioctl_safe|by apply do_open_safe|by apply do_close_safe|by apply do_cancel_safe|by apply task_reply_run].
Qed.
End requests.

(** ** Start-up *)

(** The tables before [tty_task] runs: all zero. *)
Definition zero_tty : tty :=
  Tty false 0 0 0 0 false 0 0 None 0 false false false 0 0 0 0 0 0 0 0 0 0 0 0 0 0 0 0 0 0 (Termios 0 0 0 0 0 0 (λ _, 0)) (Winsize 0 0 0 0) (λ _, 0).
Definition zero_pty : pty := Pty 0 0 0 0 0 0 0 0 0 0 0 0 0 0 0 0 (λ _, 0).
Definition tty_boot (y : sysst) : ttyst := Ttyst y (λ _, zero_tty) None (λ _, zero_pty) [].

Lemma zero_tty_ok : line_ok zero_tty.
Proof. by split. Qed.
Lemma zero_pty_ok : pty_ok zero_pty.
Proof. by split. Qed.
Lemma tty_boot_inv y : kinv (kern y) → tinv (tty_boot y).
Proof.
  intros Hk. split; [intros; apply zero_tty_ok|intros; apply zero_pty_ok| |done]. exists []. split; [done|]. split; [constructor|constructor].
Qed.

Lemma minor_other dev tp : minor_line dev = Other_side tp → pty_line tp.
Proof.
  unfold minor_line, pty_line. cbv zeta. repeat case_match; try done. intros [= <-]. unfold NR_TTYS, NR_CONS, NR_RS_LINES, NR_PTYS, PTYPX_MINOR in *.
  pose proof (u16_range dev) as Hd. set (x := u16 dev) in *. clearbody x. unfold u16 in *.
  repeat match goal with E : (?a mod 2 ^ 16 <? _) = _ |- _ =>
    pose proof (Z.div_mod a (2 ^ 16) ltac:(lia)); pose proof (Z.mod_pos_bound a (2 ^ 16) ltac:(lia)); revert E end.
  lia.
Qed.
