(* ===== verification/Ttyprops.v ===== *)
(** * Properties of the terminal task

    The theorems about lines and pseudo terminals, with concrete instances: a
    system in which all messages are delivered ([sample_world]) and whose
    screen and serial lines do nothing, and a pseudo terminal, line 4, whose
    process is 5. *)

From Stdlib Require Import Sorting.Sorted.
From S2P Require Import Prelude Chain Sigset Proc Sched Ipc Receive Kernel Boot Userq Alloc Ksys Ksysp Ksafe Kmem Tty Ring Ttyout Ttyq Ttystream Ttyecho Ttyedit Ttyread Ttycall Ttytimer Ttysafe.

(** ** Concrete instances *)
Definition sample_world : TtyWorld := {| send_status := λ _, OK; junk := 0; patience := Z.to_nat 70000 |}.
Definition sample_lines : Lines := {| dev_init := λ _, mret tt; dev_echo := λ _ _, mret tt; dev_icancel := λ _, mret tt; dev_ocancel := λ _, mret tt;
  dev_ioctl_fn := λ _, mret tt; dev_close := λ _, mret tt; dev_break := λ _, None; vdu_loadfont := λ _, mret OK |}.
Definition sample_events : Events := {| dev_read := λ _, mret tt; dev_write := λ _, mret tt |}.
Definition sample_kernel : kernel := (boot_state sizes0 m0) <| clicks := patch 1000 4 (λ b, nth (Z.to_nat (b - 1000)) [104; 105; 10; 33] 0) (λ _, 0) |>.
(** Line 4 is [t], its pseudo terminal [p], in the kernel [k]. *)
Definition sample (k : kernel) (t : tty) (p : pty) : ttyst :=
  Ttyst (sys_of k) (<[4 := t]> (λ _, zero_tty)) None (<[0 := p]> (λ _, zero_pty)) [].

Lemma sample_kernel_inv : kinv sample_kernel.
Proof. apply kinv_clicks, boot0_inv. Qed.
Lemma sample_unshadowed : isshadowp (procs sample_kernel 5) = false.
Proof. by vm_compute. Qed.
Lemma sample_inv k t p : kinv k → line_ok t → pty_ok p → tinv (sample k t p).
Proof.
  intros Hk Ht Hp. split; cbn; [intros q _; fn_cases q 4; [done|apply zero_tty_ok]|intros q _; fn_cases q 0; [done|apply zero_pty_ok]| |exact Hk].
  exists []. split; [done|]. split; constructor.
Qed.
Lemma sample_addr k v : isshadowp (procs k 5) = false → 0 <= v < 2 ^ 32 → proc_vir2phys (procs k 5) v = v.
Proof. intros E Hv. unfold proc_vir2phys. rewrite E, Z.add_0_r. by apply u32_id. Qed.
Lemma pty4 : pty_line 4.
Proof. unfold pty_line, NR_TTYS, NR_CONS, NR_RS_LINES, NR_PTYS. lia. Qed.

(** C6: the terminal task is safe.  A request of the file system on a pseudo
    terminal, from either side, is served without a fault, a panic or an
    endless loop, and the invariant is kept: the circular buffers, their counts
    and the count of line ends agree, what is transferred belongs to a process
    that exists, the list of timers is sorted, and so is the handling of the
    events of a pseudo terminal.  The invariant holds when the tables are
    zero. *)
Theorem tty_requests_safe `{TtyWorld} `{Lines} `{Events} (Hok : ∀ l, send_status l = OK) (Hpat : 2 ^ 16 + 2 < Z.of_nat patience)
    (Hfont : ∀ m s, tinv s → wp (vdu_loadfont m) (λ _ s', tinv s') s) :
  (∀ y, kinv (kern y) → tinv (tty_boot y)) ∧
  (∀ m s, tinv s → good_req m → match minor_line (m2_i1 m) with Line tp => pty_line tp | _ => True end →
     ∃ s', tty_mess m s = Ret tt s' ∧ tinv s') ∧
  (∀ tp s, tinv s → pty_line tp → ∃ s', handle_events tp s = Ret tt s' ∧ tinv s').
Proof.
  split; [exact tty_boot_inv|]. split.
  - intros m s Hi Hm Hdev. assert (Hw : wp (tty_mess m) (λ _ s', tinv s') s).
    { unfold tty_mess. destruct (_ =? HARD_INT); [by t_step|]. destruct (minor_line (m2_i1 m)) as [tp|tp|] eqn:E.
      - t_step. t_step. destruct (tty_active _); [by apply tty_request_safe|by apply task_reply_run].
      - apply do_pty_safe; try done. by eapply minor_other.
      - by apply task_reply_run. }
    destruct (wp_inv _ _ _ Hw) as ([] & s' & E & Hi'). eauto.
  - intros tp s Hi Hp. destruct (wp_inv _ _ _ (handle_events_run Hok tp Hp s Hpat Hi)) as ([] & s' & E & Hi'). eauto.
Qed.

(** C7: a pseudo terminal is a stream.  Of what the writer of an open pseudo
    terminal has left, [k] characters are written: after output processing they
    follow what is in the output buffer, and of the whole the reader gets as many
    characters as he waits for, in order, none lost and none twice; the rest
    stays in the buffer.  The call ends because everything is written, because
    output is stopped, or because the next character does not fit; the writer
    that is done and the reader that has got something have their replies. *)
Theorem pty_write_stream `{TtyWorld} `{Lines} (tp : Z) (s : ttyst) (Hs : tinv s) (Hp : pty_line tp)
    (Hopen : has (state (pty_table s (pty_nr tp))) PTY_CLOSED = false) (Ha : apart tp s) (Hok : ∀ l, send_status l = OK) :
  let t := tty_table s tp in
  let p := pty_table s (pty_nr tp) in
  ∃ s' k r, pty_write tp s = Ret tt s' ∧ tinv s' ∧ 0 <= k <= tty_outleft t ∧
    let text := take (Z.to_nat k) (src tp s) in
    let stream := pq p ++ expand (c_oflag (tty_termios t)) (tty_position t) text in
    r = (if k =? 0 then 0 else Z.min (rdleft p) (Z.of_nat (length stream))) ∧
    pq (pty_table s' (pty_nr tp)) = drop (Z.to_nat r) stream ∧
    delivered (rd_addr s p) r stream (clicks (kern (sys s))) (clicks (kern (sys s'))) ∧
    src tp s' = drop (Z.to_nat k) (src tp s) ∧
    tty_position (tty_table s' tp) = Z.land (column (c_oflag (tty_termios t)) (tty_position t) text) TAB_MASK ∧
    stopped tp s' ∧
    sent s' = (let n := s16 (rdcum p + r) in if 0 <? n then [(rdcaller p, Reply (rdrepcode p) (rdproc p) n)] else []) ++
              (if (0 <? k) && (k =? tty_outleft t)
               then [(tty_outcaller t, Reply (tty_outrepcode t) (tty_outproc t) (s16 (tty_outcum t + k)))] else []) ++ sent s.
Proof.
  cbv zeta. assert (Hw : wp (pty_write tp) (λ _ s', ∃ s2 k r X, wrote_on tp k r X s s2 ∧ stopped tp s2 ∧
      tty_table s' = tty_table s2 ∧ tty_timelist s' = tty_timelist s2 ∧ sys s' = sys s2 ∧
      sent s' = (if 0 <? rdcum (pty_table s2 (pty_nr tp)) then [(rdcaller (pty_table s2 (pty_nr tp)), Reply (rdrepcode (pty_table s2 (pty_nr tp))) (rdproc (pty_table s2 (pty_nr tp))) (rdcum (pty_table s2 (pty_nr tp))))] else []) ++ sent s2 ∧
      pty_table s' (pty_nr tp) = finished (pty_table s2 (pty_nr tp)) ∧ (∀ q, q ≠ pty_nr tp → pty_table s' q = pty_table s2 q)) s).
  { unfold pty_write. do 4 t_step. rewrite Hopen. t_step. eapply wp_mono; [by apply write_loop_run|]. cbn beta.
    intros _ s2 (k & r & X & Hw & Hst). apply pty_finish_run; [done|]. cbv zeta. intros s' E1 E2 E3 E4 E5 E6.
    exists s2, k, r, X. split_and!; try done. by apply Hst. }
  destruct (wp_inv _ _ _ Hw) as ([] & s' & E & s2 & k & r & X & Hwo & Hst & E1 & E2 & E3 & E4 & E5 & E6). clear Hw.
  pose proof Hwo as [I F R (pos & rep & cum & L & C) P S A N T]. destruct (T Ha) as (-> & Ep & Es & _).
  destruct (tinv_pty tp s2 I Hp) as [Hpo2 Hl2]. destruct (finished_ok _ Hpo2) as [Hfo Hfq]. destruct F as [F1 F2 F3 F4 F5 F6 (c & F7 & F8)].
  exists s', k, r. split; [done|]. split.
  { apply (tinv_put tp s2 s' (clicks (kern (sys s2)))); rewrite ?E1, ?E5; try done. by rewrite mem_same. }
  split; [done|]. split; [|split; [|split; [|split; [|split; [|split]]]]].
  - destruct (Z.eqb_spec k 0) as [->|]; [apply N; done|apply A; lia].
  - by rewrite E5, Hfq.
  - rewrite E3, F7. apply F8. apply Ha.
  - unfold src in *. by rewrite E1, E3.
  - by rewrite E1.
  - unfold stopped, src in *. rewrite E1, E3, E5. unfold finished. destruct (0 <? _); exact Hst.
  - rewrite E4, S, F4, F5. assert (Er : rdcaller (pty_table s2 (pty_nr tp)) = rdcaller (pty_table s (pty_nr tp)) ∧ rdrepcode (pty_table s2 (pty_nr tp)) = rdrepcode (pty_table s (pty_nr tp))).
    { destruct (pty_table s2 (pty_nr tp)), (pty_table s (pty_nr tp)). unfold erase_out in P. cbn in *. by injection P. }
    destruct Er as [-> ->]. done.
Qed.

(** C8: line editing.  In canonical mode, while nobody reads, [in_process]
    processes all the characters typed, and does to the queue of the line what
    the editor [edits] does to a list: the text, the escape and the stopped
    output are the editor's, the signals of the interrupt and quit characters
    are posted to the process group in their order, and no reply is sent. *)
Theorem in_process_edits `{TtyWorld} `{Lines} (tp : Z) (cs : list Z) (s : ttyst) (Hs : canonical tp s) :
  ∃ s', in_process tp cs s = Ret (Z.of_nat (length cs)) s' ∧ tinv s' ∧
    view tp s' = (edits (tty_termios (tty_table s tp)) (view tp s) cs).1 ∧
    posted (tty_pgrp (tty_table s tp))
      (if tty_pgrp (tty_table s tp) =? 0 then [] else (edits (tty_termios (tty_table s tp)) (view tp s) cs).2)
      (kern (sys s)) (kern (sys s')) ∧
    sent s' = sent s.
Proof.
  destruct (wp_inv _ _ _ (in_chars_run tp cs 0 false s Hs)) as (r & s' & E & -> & Hr).
  destruct (edits _ _ cs) as [e sg]. destruct Hr as [Ev Hty]. exists s'. split; [done|]. split; [apply Hty|]. split; [done|]. split; apply Hty.
Qed.

(** C20: reading a terminal.  When enough characters are ready for the reader of
    a line, [in_transfer] gives him what [reads] says: in canonical mode the
    next line at most, else as many characters as he waits for, as bytes without
    their flags, in one piece at his address; the text that remains is the rest;
    and he has his reply exactly when he waits for no more. *)
Theorem in_transfer_reads `{TtyWorld} (tp : Z) (s : ttyst) (Hs : tinv s) (Ha : a_line tp) (Hok : ∀ l, send_status l = OK)
    (Hn : 0 < tty_inleft (tty_table s tp)) (Hmin : tty_min (tty_table s tp) <= tty_eotct (tty_table s tp))
    (Hone : straight (rd_base tp s) (tty_in_vir (tty_table s tp)) (tty_inleft (tty_table s tp))) :
  let t := tty_table s tp in
  let '(bytes, rest, more) := reads (has (c_lflag (tty_termios t)) ICANON) (tty_inleft t) (clean t) in
  ∃ s', in_transfer tp s = Ret tt s' ∧ tinv s' ∧ clean (tty_table s' tp) = rest ∧ tty_inleft (tty_table s' tp) = more ∧
    delivered (u32 (rd_base tp s + tty_in_vir t)) (Z.of_nat (length bytes)) bytes (clicks (kern (sys s))) (clicks (kern (sys s'))) ∧
    sent s' = (if more =? 0 then [(tty_incaller t, Reply (tty_inrepcode t) (tty_inproc t) (s16 (tty_incum t + Z.of_nat (length bytes))))] else []) ++ sent s.
Proof.
  cbv zeta. destruct (reads _ _ _) as [[b r] n] eqn:Er.
  destruct (wp_inv _ _ _ (in_transfer_run tp Ha s b r n Hok Hs Hn Hmin Er)) as ([] & s' & E & [I R L M _ _ _ S]). exists s'. split_and!; try done. by apply M.
Qed.

(** C21: the timers of the terminals.  When the clock wakes the terminal task at
    [now], exactly the timers that are due fire: their lines no longer wait for
    a minimum and have events, the other lines and all the times are untouched,
    the list holds the timers that are later, still sorted, the next wake-up is
    set to the first of them, and the task is interrupted. *)
Theorem tty_wakeup_fires (now : Z) (s : ttyst) (l : list Z) (Hs : tinv s) (Hl : timers s l) :
  ∃ s', tty_wakeup now s = Ret tt s' ∧ tinv s' ∧ timers s' (later now s l) ∧
    (∀ q, tty_table s' q = woken now l s q) ∧
    tty_timeout (sys s') = next_timeout s (later now s l) TIME_NEVER ∧
    interrupt TTY (kern (sys s)) = Ret tt (kern (sys s')) ∧ pty_table s' = pty_table s ∧ sent s' = sent s.
Proof.
  destruct Hl as (Hc & Hal & Hso). set (s0 := s <| sys := (sys s) <| tty_timeout := TIME_NEVER |> |>).
  assert (Hw : wp (tty_wakeup now) (λ _ s', ∃ s1 k, rang now l s0 s1 ∧ interrupt TTY (kern (sys s)) = Ret tt k ∧ kinv k ∧ s' = s1 <| sys := (sys s1) <| kern := k |> |>) s).
  { unfold tty_wakeup. t_step. t_step. t_step. eapply wp_mono; [apply (wakeup_loop now l _ s0); [done|done|apply timers_few; [by eapply chain_NoDup|done]]|].
    cbn beta. intros _ s1 Hr. apply wp_kcall, wp_lift. assert (Ek : kern (sys s1) = kern (sys s)) by (rewrite (rg_sys _ _ _ _ Hr); done).
    rewrite Ek. destruct (wp_inv _ _ _ (kinv_interrupt (kern (sys s)) TTY (t_kern _ Hs) ltac:(done))) as ([] & k & E & Hk).
    eapply wp_eq; [exact E|]. exists s1, k. done. }
  destruct (wp_inv _ _ _ Hw) as ([] & s' & E & s1 & k & [R1 R2 R3 R4 R5 R6] & Ei & Hk & ->). clear Hw.
  assert (Htm : ∀ q, time_of s1 q = time_of s q).
  { intros q. unfold time_of. rewrite R1. unfold woken. by destruct (_ && _). }
  assert (Htim : timers s1 (later now s l)).
  { split; [exact R4|]. split.
    - apply Forall_forall. intros q [_ Hq]%list_elem_of_filter. rewrite Forall_forall in Hal. by apply Hal.
    - clear -Hso Htm. induction Hso as [|q l Hso IH Hall]; [constructor|]. unfold later. rewrite filter_cons. fold (later now s l). case_decide; [|done].
      constructor; [done|]. apply Forall_forall. intros x [_ Hx]%list_elem_of_filter. rewrite Forall_forall in Hall. specialize (Hall x Hx).
      unfold timer_le in *. fold (time_of s1 q) (time_of s1 x). by rewrite !Htm. }
  eexists. split; [exact E|]. split; [|split; [exact Htim|split; [exact R1|split; [exact R5|split; [exact Ei|done]]]]].
  split; [|intros q Hq; cbn; rewrite R2; by apply (t_ptys _ Hs)|exists (later now s l); exact Htim|exact Hk].
  intros q Hq. cbn. rewrite R1. unfold woken. pose proof (t_lines _ Hs q Hq) as Hlq. destruct (_ && _); [|done]. by destruct Hlq.
Qed.

(** C22: output processing in a circular buffer.  Of [icount] characters at
    [bpos], [out_process] uses the first [k] and makes [j] in their place: these
    are what the reference [expand] makes of them at the current column (LF to
    CR LF, tabs to the next multiple of eight, both only if asked for), the
    column is that after them modulo eight, and no character outside the room
    of [ocount] is touched.  It always ends, and uses no character only when the
    first does not fit. *)
Theorem out_process_expands (tp : Z) (buf : Z → Z) (bend bpos icount ocount : Z) (s : ttyst)
    (Hpos : 0 <= bpos < bend) (Hcount : 0 <= icount <= ocount) (Hroom : ocount <= bend) :
  let flags := c_oflag (tty_termios (tty_table s tp)) in
  let pos := tty_position (tty_table s tp) in
  let input := ring bend buf bpos icount in
  ∃ buf' k j, out_process tp buf bend bpos icount ocount s =
      Ret (buf', k, j) (moved tp (Z.land (column flags pos (take (Z.to_nat k) input)) TAB_MASK) s) ∧
    0 <= k <= icount ∧ 0 <= j <= ocount ∧
    ring bend buf' bpos j = expand flags pos (take (Z.to_nat k) input) ∧
    (∀ i, ocount <= i < bend → buf' (cell bend bpos i) = buf (cell bend bpos i)) ∧
    (k = 0 → 0 < icount → ocount < Z.of_nat (length (out_char flags pos (buf bpos)))).
Proof.
  cbv zeta. destruct (wp_inv (out_process tp buf bend bpos icount ocount) (λ r s', ∃ buf' k j pos', r = (buf', k, j) ∧
      s' = moved tp (Z.land pos' TAB_MASK) s ∧ 0 ≤ k ≤ icount ∧ 0 ≤ j ≤ ocount ∧
      wrote (c_oflag (tty_termios (tty_table s tp))) bend buf buf' bpos icount k j (tty_position (tty_table s tp)) pos' ∧
      (k = 0 → 0 < icount → ocount < Z.of_nat (length (out_char (c_oflag (tty_termios (tty_table s tp))) (tty_position (tty_table s tp)) (buf bpos))))) s)
    as (r & s' & E & buf' & k & j & pos' & -> & -> & H1 & H2 & (Er & -> & Hf) & H4).
  { apply out_process_run; [lia..|]. cbv zeta. intros buf' k j pos' H1 H2 Hw _ H4. exists buf', k, j, pos'. done. }
  exists buf', k, j. split_and!; try done; [lia..|]. intros i Hi. apply Hf; lia.
Qed.

(** ** From the keyboard to the reader *)

(** A character that is not special for the default attributes. *)
Definition plain (c : Z) : Prop := 32 <= c < 127.
(** A process waits for [n] bytes at [vir]. *)
Definition reader (code caller p vir n : Z) (t : tty) : tty :=
  t <| tty_inrepcode := code |> <| tty_incaller := caller |> <| tty_inproc := p |> <| tty_in_vir := vir |> <| tty_inleft := n |>.

Lemma plain_edit e c : plain c → esc e = false → inh e = false → Z.of_nat (length (text e)) < TTY_IN_BYTES →
  edit termios_defaults e c = (Ed (text e ++ [c]) false false, []).
Proof.
  intros Hc He Hi Hl. unfold plain in Hc. unfold edit. change (has (c_iflag termios_defaults) ISTRIP) with false. cbv iota.
  assert (Eu : u8 c = c) by (unfold u8; apply Z.mod_small; lia). rewrite Eu.
  unfold edit_ext. change (negb (has (c_lflag termios_defaults) IEXTEN)) with false. cbv iota. rewrite He. cbv iota zeta.
  change (c_cc termios_defaults VLNEXT) with 22. change (c_cc termios_defaults VREPRINT) with 18.
  replace (c =? 22) with false by lia. replace (c =? 18) with false by lia. rewrite Hi.
  unfold edit_map, POSIX_VDISABLE, CR, LF. replace (c =? 0xFF) with false by lia. cbv zeta. replace (c =? 13) with false by lia. replace (c =? 10) with false by lia. cbn [andb].
  unfold edit_canon. change (c_cc termios_defaults VERASE) with 8. change (c_cc termios_defaults VKILL) with 21. change (c_cc termios_defaults VEOF) with 4. change (c_cc termios_defaults VEOL) with 0xFF.
  replace (c =? 8) with false by lia. replace (c =? 21) with false by lia. replace (c =? 4) with false by lia. cbv zeta. unfold LF. replace (c =? 10) with false by lia. replace (c =? 0xFF) with false by lia.
  unfold edit_flow. change (negb (has (c_iflag termios_defaults) IXON)) with false. cbv iota. change (c_cc termios_defaults VSTOP) with 19. replace (c =? 19) with false by lia. cbn [inh andb].
  unfold edit_sig. change (c_cc termios_defaults VINTR) with 127. change (c_cc termios_defaults VQUIT) with 28.
  replace (c =? 127) with false by lia. replace (c =? 28) with false by lia. rewrite andb_false_r.
  unfold edit_store. cbn [text esc inh]. replace (Z.of_nat (length (text e)) =? TTY_IN_BYTES) with false by lia.
  assert (Ec : clean_char c = c); [|by rewrite Ec].
  unfold clean_char, clrf. rewrite <- Z.ldiff_land. apply Z.bits_inj'. intros n Hn. rewrite Z.ldiff_spec. change IN_LEN with (Z.shiftl 15 8).
  destruct (decide (n < 8)); [rewrite Z.shiftl_spec, (Z.testbit_neg_r 15) by lia; apply andb_true_r|].
  assert (E : Z.testbit c n = false); [|by rewrite E]. apply (Z.bits_above_log2 c n); [lia|]. apply (Z.lt_le_trans _ 8); [|lia]. apply Z.log2_lt_pow2; lia.
Qed.
Lemma lf_edit e : esc e = false → inh e = false → Z.of_nat (length (text e)) < TTY_IN_BYTES →
  edit termios_defaults e LF = (Ed (text e ++ [Z.lor LF IN_EOT]) false false, []).
Proof.
  destruct e as [tx es ih]. cbn [text esc inh]. intros -> -> Hl.
  assert (E : edit termios_defaults (Ed tx false false) LF = (edit_store (Ed tx false false) (Z.lor LF IN_EOT), [])) by reflexivity.
  rewrite E. unfold edit_store. cbn [text esc inh]. by replace (Z.of_nat (length tx) =? TTY_IN_BYTES) with false by lia.
Qed.
Lemma plain_edits w : ∀ e, Forall plain w → esc e = false → inh e = false → Z.of_nat (length (text e)) + Z.of_nat (length w) < TTY_IN_BYTES →
  edits termios_defaults e (w ++ [LF]) = (Ed (text e ++ w ++ [Z.lor LF IN_EOT]) false false, []).
Proof.
  induction w as [|c w IH]; intros e Hw He Hi Hl; cbn [app edits length] in *.
  - rewrite lf_edit by (try done; lia). done.
  - apply Forall_cons in Hw as [Hc Hw]. rewrite plain_edit by (try done; lia).
    rewrite IH by (try done; cbn [text]; rewrite length_app; cbn; lia). cbn [text]. by rewrite <- app_assoc.
Qed.

Lemma plain_line w : Forall plain w → Forall (λ x, has x IN_EOT = false) w ∧ Forall (λ x, has x IN_EOF = false) w ∧ map (λ x, Z.land x IN_CHAR) w = w.
Proof.
  assert (Hb : ∀ c, plain c → has c IN_EOT = false ∧ has c IN_EOF = false ∧ Z.land c IN_CHAR = c).
  { intros c Hc. unfold plain in Hc. assert (Hbit : ∀ n, 8 <= n → Z.testbit c n = false).
    { intros n Hn. apply (Z.bits_above_log2 c n); [lia|]. apply (Z.lt_le_trans _ 8); [|lia]. apply Z.log2_lt_pow2; lia. }
    unfold has, IN_EOT, IN_EOF. change 0x1000 with (2 ^ 12). change 0x2000 with (2 ^ 13). rewrite !land_single, !Hbit by lia. split; [done|]. split; [done|].
    change IN_CHAR with (Z.ones 8). rewrite Z.land_ones by lia. apply Z.mod_small. lia. }
  induction 1 as [|c w Hc _ (H1 & H2 & H3)]; [done|]. destruct (Hb c Hc) as (B1 & B2 & B3). split_and!; [by constructor|by constructor|cbn; congruence].
Qed.

(** C19: what is typed is what is read.  On a line in canonical mode with the
    default attributes and nothing in its queue, a line of printable characters
    is typed; a process that then waits for more than the line gets exactly the
    line with its newline, and a reply with its length, and the queue is empty
    again. *)
Theorem typed_line_read `{TtyWorld} `{Lines} (tp : Z) (w : list Z) (s : ttyst) (Hs : canonical tp s) (Hok : ∀ l, send_status l = OK)
    (Hatt : tty_termios (tty_table s tp) = termios_defaults ∧ tty_min (tty_table s tp) = 1) (Hempty : view tp s = Ed [] false false)
    (Hw : Forall plain w) (Hlen : Z.of_nat (length w) < TTY_IN_BYTES) :
  ∃ s1, in_process tp (w ++ [LF]) s = Ret (Z.of_nat (length w) + 1) s1 ∧
    ∀ code caller p vir n s2, isokprocn p = true → 0 <= vir < 2 ^ 32 → Z.of_nat (length w) < n < 2 ^ 15 →
      s2 = s1 <| tty_table := <[tp := reader code caller p vir n ((tty_table s1 tp) <| tty_incum := 0 |>)]> (tty_table s1) |> →
      straight (rd_base tp s2) vir n →
      ∃ s3, in_transfer tp s2 = Ret tt s3 ∧ clean (tty_table s3 tp) = [] ∧
        delivered (u32 (rd_base tp s2 + vir)) (Z.of_nat (length w) + 1) (w ++ [LF]) (clicks (kern (sys s1))) (clicks (kern (sys s3))) ∧
        sent s3 = (caller, Reply code p (Z.of_nat (length w) + 1)) :: sent s1.
Proof.
  destruct Hatt as [Hatt Hmin]. destruct (wp_inv _ _ _ (in_chars_run tp (w ++ [LF]) 0 false s Hs)) as (r & s1 & E & -> & Hr).
  rewrite Hatt, Hempty, plain_edits in Hr by (try done; cbn; lia). destruct Hr as [Ev Hty]. exists s1. split.
  { unfold in_process. rewrite E. f_equal. rewrite length_app. cbn. lia. }
  clear E. intros code caller p vir n s2 Hp Hv Hn -> Hst. destruct Hs as (Hi & Hpl & Hcan & Hleft). destruct (typed_fields _ _ (y_line _ _ _ _ Hty)) as (T1 & _ & _ & T4 & T5 & T6 & _).
  pose proof (pty_line_ok tp Hpl) as (Ha & _). pose proof (y_tinv _ _ _ _ Hty) as Hi1. pose proof (t_lines _ Hi1 tp Ha) as Hl1.
  set (t1 := (tty_table s1 tp) <| tty_incum := 0 |>) in *. set (s2 := s1 <| tty_table := _ |>) in *.
  assert (E2 : tty_table s2 tp = reader code caller p vir n t1) by apply fn_lookup_insert.
  assert (Hi2 : tinv s2).
  { eapply only_tinv; [exact Hi1|apply only_set|done|done|]. destruct Hl1. split; cbn; try done. lia. }
  assert (Ecl : clean (tty_table s2 tp) = w ++ [Z.lor LF IN_EOT]) by (rewrite E2; unfold view in Ev; by injection Ev).
  destruct (plain_line w Hw) as (P1 & P2 & P3).
  assert (Er : reads (has (c_lflag (tty_termios (tty_table s2 tp))) ICANON) (tty_inleft (tty_table s2 tp)) (clean (tty_table s2 tp)) = (w ++ [LF], [], 0)).
  { rewrite Ecl, E2. cbn [tty_inleft tty_termios reader upd upd_tty_inleft upd_tty_in_vir upd_tty_inproc upd_tty_incaller upd_tty_inrepcode].
    change (tty_termios t1) with (tty_termios (tty_table s1 tp)). rewrite T1, Hcan. rewrite (reads_line w _ [] n) by (try done; lia). by rewrite P3. }
  assert (Hee : tty_min (tty_table s2 tp) ≤ tty_eotct (tty_table s2 tp)).
  { rewrite (l_eots _ (t_lines _ Hi2 tp Ha)), <- eots_clean. fold (clean (tty_table s2 tp)). rewrite Ecl, eots_app, eots_one. pose proof (eots_nonneg w).
    rewrite E2. cbn. rewrite T6, Hmin. change (has (Z.lor LF IN_EOT) IN_EOT) with true. cbn. lia. }
  destruct (wp_inv _ _ _ (in_transfer_run tp Ha s2 _ _ _ Hok Hi2 ltac:(rewrite E2; cbn; lia) Hee Er)) as ([] & s3 & E3 & [_ R _ M _ _ _ S]).
  assert (Elw : Z.of_nat (length (w ++ [LF])) = Z.of_nat (length w) + 1) by (rewrite length_app; cbn; lia).
  exists s3. split; [exact E3|]. split; [exact R|]. rewrite <- Elw. split.
  - rewrite E2 in M. exact (M Hst).
  - rewrite S, E2. cbn [Z.eqb reader tty_incaller tty_inrepcode tty_inproc tty_incum upd upd_tty_inleft upd_tty_in_vir upd_tty_inproc upd_tty_incaller upd_tty_inrepcode upd_tty_incum t1 app].
    rewrite Z.add_0_l, s16_id by (unfold TTY_IN_BYTES in *; lia). done.
Qed.

(** ** Witnesses *)
#[local] Opaque sample_kernel boot_state.

Lemma tty_requests_safe_witness :
  let m := Message 1 DEV_OPEN 192 5 0 0 0 0 0 in
  ∃ s', @tty_mess sample_world sample_lines sample_events m (tty_boot (sys_of sample_kernel)) = Ret tt s' ∧ tinv s'.
Proof.
  assert (Hpat : 2 ^ 16 + 2 < Z.of_nat (@patience sample_world)).
  { change (@patience sample_world) with (Z.to_nat 70000). rewrite Z2Nat.id by lia. lia. }
  destruct (@tty_requests_safe sample_world sample_lines sample_events (λ _, eq_refl) Hpat (λ _ _ H, H)) as (H1 & H2 & _).
  apply H2; [apply H1, sample_kernel_inv|vm_compute; split; split; congruence|exact I].
Defined.

(** A writer with three characters, and no reader. *)
Definition writing : tty :=
  zero_tty <| tty_termios := termios_defaults |> <| tty_outproc := 5 |> <| tty_out_vir := 1000 |> <| tty_outleft := 3 |> <| tty_outcaller := 1 |>.
Definition opened : pty := zero_pty <| state := PTY_ACTIVE |>.
Lemma writing_ok : line_ok writing.
Proof. split; try done. intros n. apply defaults_bytes. Qed.
Lemma writing_apart k : isshadowp (procs k 5) = false → apart 4 (sample k writing opened).
Proof.
  intros Hk. split; [|split]; [|intros i Hi; change (0 ≤ i < 0) in Hi; lia|intros i j _ Hj; change (0 ≤ j < 0) in Hj; lia].
  intros i Hi. change (proc_vir2phys (procs k 5) (u32 (1000 + i)) = proc_vir2phys (procs k 5) 1000 + i). change (0 ≤ i < 3) in Hi.
  rewrite u32_id by lia. rewrite !sample_addr by (done || lia). lia.
Qed.
Lemma pty_write_stream_witness :
  ∃ s' n, @pty_write sample_world 4 (sample sample_kernel writing opened) = Ret tt s' ∧ tinv s' ∧
    pq (pty_table s' 0) = expand (Z.lor OPOST ONLCR) 0 (take n (src 4 (sample sample_kernel writing opened))) ∧ stopped 4 s'.
Proof.
  pose proof sample_kernel_inv as Hk. pose proof sample_unshadowed as Hs. revert Hk Hs. generalize sample_kernel. intros k Hk Hs.
  destruct (@pty_write_stream sample_world sample_lines 4 (sample k writing opened) (sample_inv k writing opened Hk writing_ok ltac:(by split)) pty4 eq_refl
    (writing_apart k Hs) (λ _, eq_refl)) as (s' & n & r & E & Hi & _ & Hr & Hq & _ & _ & _ & Hst & _).
  exists s', (Z.to_nat n). split; [exact E|]. split; [exact Hi|]. split; [|exact Hst].
  assert (Er : r = 0) by (rewrite Hr; case_match; [done|]; cbn [rdleft]; apply Z.min_l; lia). rewrite Er in Hq. exact Hq.
Defined.

(** A line in canonical mode. *)
Definition cooked : tty := zero_tty <| tty_termios := termios_defaults |> <| tty_min := 1 |>.
Lemma cooked_ok : line_ok cooked.
Proof. split; try done. intros n. apply defaults_bytes. Qed.
Lemma cooked_canonical k : kinv k → canonical 4 (sample k cooked opened).
Proof. intros Hk. split; [apply sample_inv; [done|apply cooked_ok|by split]|]. split; [exact pty4|done]. Qed.
Lemma in_process_edits_witness :
  ∃ s', @in_process sample_world sample_lines 4 [104; 101; 120; 8; 108; 10] (sample sample_kernel cooked opened) = Ret 6 s' ∧
    text (view 4 s') = [104; 101; 108; 0x100A].
Proof.
  pose proof sample_kernel_inv as Hk. revert Hk. generalize sample_kernel. intros k Hk.
  destruct (@in_process_edits sample_world sample_lines 4 [104; 101; 120; 8; 108; 10] _ (cooked_canonical k Hk)) as (s' & E & _ & Ev & _).
  exists s'. split; [exact E|]. rewrite Ev. reflexivity.
Defined.

(** Process 5 waits for ten bytes, and a line is there. *)
Definition lined : tty :=
  cooked <| tty_inbuf := λ i, nth (Z.to_nat i) [104; 105; 0x100A] 0 |> <| tty_incount := 3 |> <| tty_inhead := 3 |> <| tty_eotct := 1 |>
    <| tty_inleft := 10 |> <| tty_inproc := 5 |> <| tty_in_vir := 2000 |> <| tty_incaller := 1 |> <| tty_inrepcode := REVIVE |>.
Lemma lined_ok : line_ok lined.
Proof. split; try done; [repeat (constructor; [done|]); constructor|intros n; apply defaults_bytes]. Qed.
Lemma in_transfer_reads_witness :
  ∃ s', @in_transfer sample_world 4 (sample sample_kernel lined opened) = Ret tt s' ∧ clean (tty_table s' 4) = [] ∧
    sent s' = [(1, Reply REVIVE 5 3)] ∧ map (mem_byte (clicks (kern (sys s')))) [2000; 2001; 2002] = [104; 105; 10].
Proof.
  pose proof sample_kernel_inv as Hk. pose proof sample_unshadowed as Hs. revert Hk Hs. generalize sample_kernel. intros k Hk Hs.
  assert (Eb : rd_base 4 (sample k lined opened) = 0) by (apply (sample_addr k 0 Hs); lia).
  assert (Hst : straight (rd_base 4 (sample k lined opened)) (tty_in_vir lined) (tty_inleft lined)).
  { rewrite Eb. intros i Hi. change (0 ≤ i < 10) in Hi. change (tty_in_vir lined) with 2000. rewrite !u32_id by (try rewrite u32_id; lia). lia. }
  pose proof (@in_transfer_reads sample_world 4 (sample k lined opened) (sample_inv k lined opened Hk lined_ok ltac:(by split)) (proj1 (pty_line_ok 4 pty4))
    (λ _, eq_refl) ltac:(reflexivity) ltac:(change (1 ≤ 1); lia) Hst) as Hr.
  cbv zeta in Hr. set (st := sample k lined opened) in *.
  assert (Er : reads (has (c_lflag (tty_termios (tty_table st 4))) ICANON) (tty_inleft (tty_table st 4)) (clean (tty_table st 4)) = ([104; 105; 10], [], 0)) by reflexivity.
  assert (Ef : tty_incaller (tty_table st 4) = 1 ∧ tty_inrepcode (tty_table st 4) = REVIVE ∧ tty_inproc (tty_table st 4) = 5 ∧ tty_incum (tty_table st 4) = 0 ∧
    tty_in_vir (tty_table st 4) = 2000 ∧ sent st = []) by done.
  destruct Ef as (F1 & F2 & F3 & F4 & F5 & F6). rewrite Er, Eb, F1, F2, F3, F4, F5, F6 in Hr. clearbody st.
  destruct Hr as (s' & E & _ & Hc & _ & Hm & Hsent). exists s'. split; [exact E|]. split; [exact Hc|]. split; [exact Hsent|].
  cbn [map]. rewrite !Hm. reflexivity.
Defined.

(** Two timers, at 10 and at 20. *)
Definition timing : ttyst :=
  (sample sample_kernel cooked opened) <| tty_timelist := Some 4 |>
    <| tty_table := <[4 := cooked <| tty_time := 10 |> <| tty_timenext := Some 5 |>]> (<[5 := cooked <| tty_time := 20 |>]> (λ _, zero_tty)) |>.
Lemma timing_ok : tinv timing ∧ timers timing [4; 5].
Proof.
  assert (Ht : timers timing [4; 5]).
  { split; [done|]. split; [repeat constructor; done|]. repeat constructor. change (10 ≤ 20). lia. }
  split; [|done]. pose proof cooked_ok as Hc. split; [|intros q _; cbn; fn_cases q 0; [by split|apply zero_pty_ok]|by exists [4; 5]|exact sample_kernel_inv].
  intros q _. unfold timing. cbn [tty_table upd upd_tty_table]. fn_cases q 4; [by destruct Hc|]. fn_cases q 5; [by destruct Hc|apply zero_tty_ok].
Qed.
Lemma tty_wakeup_fires_witness :
  ∃ s', tty_wakeup 15 timing = Ret tt s' ∧ timers s' [5] ∧ tty_events (tty_table s' 4) = true ∧ tty_events (tty_table s' 5) = false ∧
    tty_timeout (sys s') = 20.
Proof.
  destruct timing_ok as [Hi Ht].
  destruct (tty_wakeup_fires 15 timing [4; 5] Hi Ht) as (s' & E & _ & Ht' & Hl & Hto & _).
  exists s'. split; [exact E|]. split; [exact Ht'|]. rewrite !Hl, Hto. done.
Defined.

Lemma typed_line_read_witness :
  ∃ s1, @in_process sample_world sample_lines 4 [104; 105; 10] (sample sample_kernel cooked opened) = Ret 3 s1.
Proof.
  pose proof sample_kernel_inv as Hk. revert Hk. generalize sample_kernel. intros k Hk.
  destruct (@typed_line_read sample_world sample_lines 4 [104; 105] _ (cooked_canonical k Hk) (λ _, eq_refl) (conj eq_refl eq_refl) eq_refl
    ltac:(repeat constructor; unfold plain; lia) ltac:(reflexivity)) as (s1 & E & _).
  exists s1. exact E.
Defined.

(** A letter, a tab and the start of a line in a buffer of sixteen cells, of
    which twelve are free. *)
Definition tabbed : Z → Z := λ i, nth (Z.to_nat i) [97; 9; 10] 0.
Lemma out_process_expands_witness :
  ∃ buf' k j s', @out_process 4 tabbed 16 0 3 12 (tty_boot (sys_of (zero_kernel 0))) = Ret (buf', k, j) s' ∧
    ring 16 buf' 0 j = expand 0 0 (take (Z.to_nat k) [97; 9; 10]).
Proof.
  destruct (out_process_expands 4 tabbed 16 0 3 12 (tty_boot (sys_of (zero_kernel 0))) ltac:(lia) ltac:(lia) ltac:(lia)) as (buf' & k & j & E & _ & _ & Hr & _).
  exists buf', k, j. eexists. split; [exact E|exact Hr].
Defined.
