(* ===== verification/Mproc.v ===== *)
(** * The memory manager's process table, its calls to the kernel and to FS,
      and its small system calls

    mm/mproc.h, glo.h, main.c ([reply]), utility.c ([tell_fs]), break.c and
    getset.c.  A [struct mproc *] is the index of its entry.  The hole list of
    Alloc.v is a part of the state.  What the kernel, the clock task and FS
    answer to a call is given by [Servers]; the calls made so far, the last one
    first, are kept in [log]. *)

From S2P Require Import Prelude Chain Alloc Sigset Proc.

(** ** Constants (mproc.h, const.h, signal.h, callnr.h, errno.h) *)
Definition INIT_PROC_NR : Z := 3.
Definition INIT_PID : Z := 1.
Definition LAST_FEW : Z := 2.
Definition SUPER_USER : Z := 0.
Definition NCALLS : Z := 77.
Definition HZ : Z := 60.
Definition INT_MAX : Z := 32767.
Definition LONG_MAX : Z := 2147483647.

Definition IN_USE : Z := 1.
Definition WAITING : Z := 2.
Definition HANGING : Z := 4.
Definition PAUSED : Z := 8.
Definition ALARM_ON : Z := 16.
Definition SEPARATE : Z := 32.
Definition TRACED : Z := 64.
Definition STOPPED : Z := 128.
Definition SIGSUSPENDED : Z := 256.

Definition SIG_DFL : Z := 0.
Definition SIG_IGN : Z := 1.
Definition SA_RESETHAND : Z := 2.
Definition SA_NODEFER : Z := 4.
Definition SA_COMPAT : Z := 128.
Definition SIG_BLOCK : Z := 0.
Definition SIG_UNBLOCK : Z := 1.
Definition SIG_SETMASK : Z := 2.
Definition SIG_INQUIRE : Z := 4.
Definition SIGHUP : Z := 1.
Definition SIGINT : Z := 2.
Definition SIGQUIT : Z := 3.
Definition SIGILL : Z := 4.
Definition SIGTRAP : Z := 5.
Definition SIGKILL : Z := 9.
Definition SIGSEGV : Z := 11.
Definition SIGALRM : Z := 14.

Definition EPERM : Z := -1.
Definition ESRCH : Z := -3.
Definition EINTR : Z := -4.
Definition EIO : Z := -5.
Definition ENOEXEC : Z := -8.
Definition ECHILD : Z := -10.
Definition EAGAIN : Z := -11.
Definition ENOMEM : Z := -12.
Definition EACCES : Z := -13.
Definition EINVAL : Z := -22.
Definition EBADCALL : Z := -102.
Definition NO_NUM : Z := 0x8000.

Definition EXIT : Z := 1.
Definition FORK : Z := 2.
Definition WAIT : Z := 7.
Definition CHDIR : Z := 12.
Definition GETPID : Z := 20.
Definition SETUID : Z := 23.
Definition GETUID : Z := 24.
Definition SYNC : Z := 36.
Definition SETGID : Z := 46.
Definition GETGID : Z := 47.
Definition EXEC : Z := 59.
Definition SETSID : Z := 62.
Definition GETPGRP : Z := 63.
Definition UNPAUSE : Z := 65.

Definition CLICK_SIZE : Z := 256.
Definition SAFETY_CLICKS : Z := (384 * 4 + CLICK_SIZE - 1) / CLICK_SIZE.
(** sizeof(struct sigcontext), sizeof(struct sigframe), SIG_PUSH_BYTES *)
Definition SIGCONTEXT_BYTES : Z := 78.
Definition SIGFRAME_BYTES : Z := 22.
Definition SIG_PUSH_BYTES : Z := 8.

(** ** Data *)
Record sigaction := Sigaction { sa_handler : Z; sa_mask : Z; sa_flags : Z }.
#[export] Instance eta_sigaction : Eta sigaction := λ r, Sigaction r.(sa_handler) r.(sa_mask) r.(sa_flags).
#[export] Instance upd_sa_handler : Upd sa_handler := ltac:(derive_upd).
#[export] Instance upd_sa_mask : Upd sa_mask := ltac:(derive_upd).
#[export] Instance upd_sa_flags : Upd sa_flags := ltac:(derive_upd).

Record mproc := Mproc {
  mp_seg_T : mem_map; mp_seg_D : mem_map; mp_seg_S : mem_map;
  mp_exitstatus : Z; mp_sigstatus : Z;
  mp_pid : Z; mp_procgrp : Z; mp_wpid : Z;
  mp_parent : Z;
  mp_realuid : Z; mp_effuid : Z; mp_realgid : Z; mp_effgid : Z;
  mp_ino : Z; mp_dev : Z; mp_ctime : Z;
  mp_ignore : Z; mp_catch : Z; mp_sigmask : Z; mp_sigmask2 : Z; mp_sigpending : Z;
  mp_sigact : Z → sigaction;
  mp_sigreturn : Z;
  mp_func : Z;
  mp_flags : Z;
  mp_procargs : Z
}.
#[export] Instance eta_mproc : Eta mproc := λ r,
  Mproc r.(mp_seg_T) r.(mp_seg_D) r.(mp_seg_S) r.(mp_exitstatus) r.(mp_sigstatus)
        r.(mp_pid) r.(mp_procgrp) r.(mp_wpid) r.(mp_parent)
        r.(mp_realuid) r.(mp_effuid) r.(mp_realgid) r.(mp_effgid)
        r.(mp_ino) r.(mp_dev) r.(mp_ctime)
        r.(mp_ignore) r.(mp_catch) r.(mp_sigmask) r.(mp_sigmask2) r.(mp_sigpending)
        r.(mp_sigact) r.(mp_sigreturn) r.(mp_func) r.(mp_flags) r.(mp_procargs).
#[export] Instance upd_mp_seg_T : Upd mp_seg_T := ltac:(derive_upd).
#[export] Instance upd_mp_seg_D : Upd mp_seg_D := ltac:(derive_upd).
#[export] Instance upd_mp_seg_S : Upd mp_seg_S := ltac:(derive_upd).
#[export] Instance upd_mp_exitstatus : Upd mp_exitstatus := ltac:(derive_upd).
#[export] Instance upd_mp_sigstatus : Upd mp_sigstatus := ltac:(derive_upd).
#[export] Instance upd_mp_pid : Upd mp_pid := ltac:(derive_upd).
#[export] Instance upd_mp_procgrp : Upd mp_procgrp := ltac:(derive_upd).
#[export] Instance upd_mp_wpid : Upd mp_wpid := ltac:(derive_upd).
#[export] Instance upd_mp_parent : Upd mp_parent := ltac:(derive_upd).
#[export] Instance upd_mp_realuid : Upd mp_realuid := ltac:(derive_upd).
#[export] Instance upd_mp_effuid : Upd mp_effuid := ltac:(derive_upd).
#[export] Instance upd_mp_realgid : Upd mp_realgid := ltac:(derive_upd).
#[export] Instance upd_mp_effgid : Upd mp_effgid := ltac:(derive_upd).
#[export] Instance upd_mp_ino : Upd mp_ino := ltac:(derive_upd).
#[export] Instance upd_mp_dev : Upd mp_dev := ltac:(derive_upd).
#[export] Instance upd_mp_ctime : Upd mp_ctime := ltac:(derive_upd).
#[export] Instance upd_mp_ignore : Upd mp_ignore := ltac:(derive_upd).
#[export] Instance upd_mp_catch : Upd mp_catch := ltac:(derive_upd).
#[export] Instance upd_mp_sigmask : Upd mp_sigmask := ltac:(derive_upd).
#[export] Instance upd_mp_sigmask2 : Upd mp_sigmask2 := ltac:(derive_upd).
#[export] Instance upd_mp_sigpending : Upd mp_sigpending := ltac:(derive_upd).
#[export] Instance upd_mp_sigact : Upd mp_sigact := ltac:(derive_upd).
#[export] Instance upd_mp_sigreturn : Upd mp_sigreturn := ltac:(derive_upd).
#[export] Instance upd_mp_func : Upd mp_func := ltac:(derive_upd).
#[export] Instance upd_mp_flags : Upd mp_flags := ltac:(derive_upd).
#[export] Instance upd_mp_procargs : Upd mp_procargs := ltac:(derive_upd).
#[export] Instance upd_m2_i2 : Upd m2_i2 := ltac:(derive_upd).
#[export] Instance upd_m2_p1 : Upd m2_p1 := ltac:(derive_upd).

(** The calls MM makes: messages to the kernel's system and clock tasks, to FS
    and to user processes. *)
Record sigmsg := Sigmsg { sm_signo : Z; sm_mask : Z; sm_sighandler : Z; sm_sigreturn : Z; sm_stkptr : Z }.
Inductive call :=
| TellFs (what p1 p2 p3 : Z)
| Send (dest : Z) (m : message)
| SysFork (parent child pid base : Z)
| SysXit (parent proc : Z)
| SysNewmap (proc : Z) (t d s : mem_map)
| SysGetmap (proc : Z)
| SysGetsp (proc : Z)
| SysFresh (proc : Z) (t d s : mem_map) (dc : Z)
| SysExec (proc sp traced : Z) (name : list Z) (pc : Z)
| SysSendsig (proc : Z) (sm : sigmsg)
| SysOldsig (proc sig handler : Z)
| SysEndsig (proc : Z)
| SysSigreturn (proc scp flags : Z)
| SysTrace (req proc addr data : Z)
| SysAbort (how : Z) (code : list Z)
| SetAlarm (proc ticks : Z)
| ReadSigaction (proc addr : Z)
| WriteSigaction (proc addr : Z) (sa : sigaction)
| CopyIn (proc addr len : Z)
| CopyOut (proc addr : Z) (bytes : list Z)
| RelocateLong (addr off : Z)
| OpenCore
| OpenFile (name : list Z) (flags : Z)
| AccessFile (name : list Z) (mask : Z)
| Fstat (fd : Z)
| ReadFd (fd addr len : Z)
| IoctlPsinfo (fd : Z)
| WriteFd (fd addr len : Z)
| LseekFd (fd off whence : Z)
| CloseFd (fd : Z).

(** The answer to a call, in the order: result, then the values returned in the
    reply message or written to MM's memory; it may depend on the calls made
    before. *)
Class Servers := answer : list call → call → list Z.

(** [mm_in] and [mm_out] are kept in the second message view: on this machine
    m1_i1, m1_i2, m1_p1, m1_p2, m1_p3 of the first view and m6_i1, m6_f1 of the
    sixth occupy the places of m2_i1, m2_i2, m2_l1, m2_l2, m2_p1, m2_i1, m2_l2. *)
Record mmst := Mmst {
  mproc_of : Z → mproc;
  mp : Z;
  dont_reply : bool;
  procs_in_use : Z;
  mm_in : message;
  mm_out : message;
  who : Z;
  mm_call : Z;
  result2 : Z;
  res_ptr : Z;
  next_pid : Z;
  core_sset : Z;
  errno : Z;
  mem_holes : holes;
  mbuf : Z → Z;              (* the stack image in do_exec *)
  name_buf : list Z;         (* the file name in do_exec *)
  log : list call
}.
#[export] Instance eta_mmst : Eta mmst := λ r,
  Mmst r.(mproc_of) r.(mp) r.(dont_reply) r.(procs_in_use) r.(mm_in) r.(mm_out) r.(who)
       r.(mm_call) r.(result2) r.(res_ptr) r.(next_pid) r.(core_sset) r.(errno) r.(mem_holes)
       r.(mbuf) r.(name_buf) r.(log).
#[export] Instance upd_mproc_of : Upd mproc_of := ltac:(derive_upd).
#[export] Instance upd_mp : Upd mp := ltac:(derive_upd).
#[export] Instance upd_dont_reply : Upd dont_reply := ltac:(derive_upd).
#[export] Instance upd_procs_in_use : Upd procs_in_use := ltac:(derive_upd).
#[export] Instance upd_mm_in : Upd mm_in := ltac:(derive_upd).
#[export] Instance upd_mm_out : Upd mm_out := ltac:(derive_upd).
#[export] Instance upd_who : Upd who := ltac:(derive_upd).
#[export] Instance upd_mm_call : Upd mm_call := ltac:(derive_upd).
#[export] Instance upd_result2 : Upd result2 := ltac:(derive_upd).
#[export] Instance upd_res_ptr : Upd res_ptr := ltac:(derive_upd).
#[export] Instance upd_next_pid : Upd next_pid := ltac:(derive_upd).
#[export] Instance upd_core_sset : Upd core_sset := ltac:(derive_upd).
#[export] Instance upd_mem_holes : Upd mem_holes := ltac:(derive_upd).
#[export] Instance upd_errno : Upd errno := ltac:(derive_upd).
#[export] Instance upd_mbuf : Upd mbuf := ltac:(derive_upd).
#[export] Instance upd_name_buf : Upd name_buf := ltac:(derive_upd).
#[export] Instance upd_log : Upd log := ltac:(derive_upd).

Notation PM := (M mmst).

(** Run an operation of mm/alloc.c on the hole list. *)
Definition on_holes {A} (m : M holes A) : PM A := λ s,
  match m (mem_holes s) with
  | Ret a h => Ret a (s <| mem_holes := h |>)
  | Panic w n => Panic w n
  | Fault => Fault
  | NoFuel => NoFuel
  end.

(** [rmp->f] and [rmp->f = v] *)
Definition in_table (i : Z) : bool := (0 <=? i) && (i <? NR_PROCS).
Definition mget {A} (f : mproc → A) (i : Z) : PM A :=
  if in_table i then gets (λ s, f (mproc_of s i)) else fault.
Definition mset (i : Z) (g : mproc → mproc) : PM unit :=
  if in_table i then modify (λ s, s <| mproc_of := <[i := g (mproc_of s i)]> (mproc_of s) |>) else fault.

(** The process table, in order. *)
Definition all_slots : list Z := seqZ 0 NR_PROCS.

Section mm.
Context `{Servers}.

Definition do_call (c : call) : PM (list Z) := λ s, Ret (answer (log s) c) (s <| log := c :: log s |>).
(** The [i]-th value of an answer. *)
Definition val (l : list Z) (i : nat) : Z := nth i l 0.

(** A library call, which sets [errno] to the second value when it fails. *)
Definition lib_call (c : call) : PM (list Z) :=
  a ← do_call c;
  when (s32 (val a 0) <? 0) (modify (λ s, s <| errno := s16 (val a 1) |>));;
  mret a.

(** ** main.c, utility.c *)
Definition tell_fs (what p1 p2 p3 : Z) : PM unit := do_call (TellFs what p1 p2 p3);; mret tt.

Definition reply (proc_nr result res2 respt : Z) : PM unit :=
  w ← gets who;
  dead ← (if 0 <=? w then
            f ← mget mp_flags proc_nr; mret (negb (has f IN_USE) || has f HANGING)
          else mret false);
  if (dead : bool) then mret tt else
  modify (λ s, s <| mm_out := (mm_out s) <| m_type := result |> <| m2_i1 := res2 |> <| m2_p1 := respt |> |>);;
  o ← gets mm_out;
  a ← do_call (Send proc_nr o);
  when (negb (val a 0 =? OK)) (panic "MM can't reply" NO_NUM).

Definition no_sys : PM Z := mret EINVAL.

(** ** break.c *)
Definition size_ok (file_type tc dc sc dvir s_vir : Z) : Z :=
  if s_vir <? u16 (dvir + dc) then ENOMEM else OK.

Definition adjust (rmp data_clicks sp : Z) : PM Z :=
  r ← mget id rmp;
  let mem_dp := mp_seg_D r in
  let mem_sp := mp_seg_S r in
  if mem_len mem_sp =? 0 then mret OK else
  let base_of_stack := mem_vir mem_sp + mem_len mem_sp in
  let sp_click := u16 (Z.shiftr sp CLICK_SHIFT) in
  if base_of_stack <=? sp_click then mret ENOMEM else
  let delta := mem_vir mem_sp - sp_click in
  let lower := if 0 <? delta then sp_click else mem_vir mem_sp in
  let gap_base := u16 (mem_vir mem_dp + data_clicks + SAFETY_CLICKS) in
  if lower <? gap_base then mret ENOMEM else
  let old_clicks := mem_len mem_dp in
  let data_changed := negb (data_clicks =? mem_len mem_dp) in
  when data_changed (mset rmp (λ r, r <| mp_seg_D := (mp_seg_D r) <| mem_len := data_clicks |> |>));;
  let stack_changed := 0 <? delta in
  when stack_changed (mset rmp (λ r, r <| mp_seg_S :=
      MemMap (u16 (mem_vir (mp_seg_S r) - delta)) (u16 (mem_phys (mp_seg_S r) - delta))
             (u16 (mem_len (mp_seg_S r) + delta)) |>));;
  r ← mget id rmp;
  let ft := Z.land (mp_flags r) SEPARATE in
  let ok := size_ok ft (mem_len (mp_seg_T r)) (mem_len (mp_seg_D r)) (mem_len (mp_seg_S r))
                    (mem_vir (mp_seg_D r)) (mem_vir (mp_seg_S r)) in
  if ok =? OK then
    when (data_changed || stack_changed)
      (do_call (SysNewmap rmp (mp_seg_T r) (mp_seg_D r) (mp_seg_S r));; mret tt);;
    mret OK
  else
    when data_changed (mset rmp (λ r, r <| mp_seg_D := (mp_seg_D r) <| mem_len := old_clicks |> |>));;
    when stack_changed (mset rmp (λ r, r <| mp_seg_S :=
        MemMap (u16 (mem_vir (mp_seg_S r) + delta)) (u16 (mem_phys (mp_seg_S r) + delta))
               (u16 (mem_len (mp_seg_S r) - delta)) |>));;
    mret ENOMEM.

(** [sys_getsp(proc, &new_sp)]: the stack pointer of [proc]. *)
Definition sys_getsp (proc : Z) : PM Z := a ← do_call (SysGetsp proc); mret (u32 (val a 1)).

Definition do_brk : PM Z :=
  rmp ← gets mp;
  v ← gets (λ s, u32 (m2_l1 (mm_in s)));
  let new_clicks := u16 (Z.shiftr (s32 (s32 v + CLICK_SIZE - 1)) CLICK_SHIFT) in
  d ← mget mp_seg_D rmp;
  if new_clicks <? mem_vir d then
    modify (λ s, s <| res_ptr := u32 (-1) |>);; mret ENOMEM
  else
    let new_clicks := u16 (new_clicks - mem_vir d) in
    w ← gets who;
    new_sp ← sys_getsp w;
    r ← adjust rmp new_clicks new_sp;
    modify (λ s, s <| res_ptr := if r =? OK then v else u32 (-1) |>);;
    mret r.

(** ** getset.c *)
Definition do_getset : PM Z :=
  rmp ← gets mp;
  w ← gets who;
  c ← gets mm_call;
  r ← mget id rmp;
  i ← gets (λ s, m2_i1 (mm_in s));
  if c =? GETUID then
    modify (λ s, s <| result2 := mp_effuid r |>);; mret (mp_realuid r)
  else if c =? GETGID then
    modify (λ s, s <| result2 := mp_effgid r |>);; mret (mp_realgid r)
  else if c =? GETPID then
    p ← mget mp_pid w;
    pp ← mget mp_pid (mp_parent r);
    modify (λ s, s <| result2 := pp |>);; mret p
  else if c =? SETUID then
    let usr_id := s16 i in
    if negb (mp_realuid r =? usr_id) && negb (mp_effuid r =? SUPER_USER) then mret EPERM else
    mset rmp (λ r, r <| mp_realuid := usr_id |> <| mp_effuid := usr_id |>);;
    tell_fs SETUID w usr_id usr_id;;
    mret OK
  else if c =? SETGID then
    let grpid := s8 i in
    if negb (mp_realgid r =? grpid) && negb (mp_effuid r =? SUPER_USER) then mret EPERM else
    mset rmp (λ r, r <| mp_realgid := grpid |> <| mp_effgid := grpid |>);;
    tell_fs SETGID w grpid grpid;;
    mret OK
  else if c =? SETSID then
    if mp_procgrp r =? mp_pid r then mret EPERM else
    mset rmp (λ r, r <| mp_procgrp := mp_pid r |>);;
    tell_fs SETSID w 0 0;;
    mget mp_procgrp rmp
  else if c =? GETPGRP then mret (mp_procgrp r)
  else mret EINVAL.
End mm.
