(* ===== verification/Signal.v ===== *)
(** * Signals, exit, wait and tracing in the memory manager

    mm/signal.c, mm/forkexit.c and mm/trace.c.  [mm_exit], [check_sig] and
    [sig_proc] call one another: the exit of a session leader signals its
    process group, and a signal that is not caught makes its receiver exit.
    [sig_proc] and [check_sig] take the exit routine as an argument and
    [mm_exit] ties the knot with a bound on the depth of the recursion. *)

From S2P Require Import Prelude Chain Alloc Sigset Proc Mproc.

Definition WNOHANG : Z := 1.
Definition DUMPED : Z := 128.
Definition BLOCK_SIZE : Z := 1024.
Definition DUMP_SIZE : Z := INT_MAX / BLOCK_SIZE * BLOCK_SIZE.
Definition SEGS_BYTES : Z := 18.
Definition LONG_BYTES : Z := 4.
Definition T_OK : Z := 0.
Definition T_RESUME : Z := 7.
Definition T_EXIT : Z := 8.
Definition T_STEP : Z := 9.
Definition RBT_HALT : Z := 0.
Definition RBT_REBOOT : Z := 1.
Definition RBT_PANIC : Z := 2.
Definition RBT_MONITOR : Z := 3.
Definition RBT_RESET : Z := 4.
Definition MONITOR_CODE_SIZE : Z := 64.

(** The depth of the recursion of [mm_exit]; the words and blocks of a core
    file; the pids to be tried. *)
Definition exit_fuel : nat := 66.
Definition dump_fuel : nat := Z.to_nat 140000.
Definition pid_fuel : nat := 200.

(** The signal sets of a process. *)
Definition addset (set signo : Z) : Z := (sigaddset set signo).2.
Definition delset (set signo : Z) : Z := (sigdelset set signo).2.
Definition ismember (set signo : Z) : bool := negb (sigismember set signo =? 0).
Definition upd_act (signo : Z) (g : sigaction → sigaction) (r : mproc) : mproc :=
  r <| mp_sigact := <[signo := g (mp_sigact r signo)]> (mp_sigact r) |>.
(** [mp->mp_sigact[signo]], a table of [_NSIG + 1] entries. *)
Definition sigact_at (rmp signo : Z) : PM sigaction :=
  if sigisvalid signo then mget (λ r, mp_sigact r signo) rmp else fault.

Section signal.
Context `{Servers}.

(** ** signal.c: leaving a blocking call, core dumps, alarms *)
Definition unpause (pro : Z) : PM unit :=
  f ← mget mp_flags pro;
  if has f PAUSED && negb (has f HANGING) then
    mset pro (λ r, r <| mp_flags := clrf (mp_flags r) PAUSED |>);; reply pro EINTR 0 0
  else if has f WAITING && negb (has f HANGING) then
    mset pro (λ r, r <| mp_flags := clrf (mp_flags r) WAITING |>);; reply pro EINTR 0 0
  else if has f SIGSUSPENDED && negb (has f HANGING) then
    mset pro (λ r, r <| mp_flags := clrf (mp_flags r) SIGSUSPENDED |>);; reply pro EINTR 0 0
  else tell_fs UNPAUSE pro 0 0.

(** One iteration of the dump of the kernel's process table entry; the result
    tells whether the dump goes on. *)
Definition dump_word (slot fd trace_off : Z) : PM (Z + bool) :=
  t ← do_call (SysTrace 3 slot trace_off 0);
  if s16 (val t 0) =? OK then
    w ← lib_call (WriteFd fd (val t 1) LONG_BYTES);
    if negb (u16 (val w 0) =? LONG_BYTES) then lib_call (CloseFd fd);; mret (inr false)
    else mret (inl (trace_off + LONG_BYTES))
  else mret (inr true).

(** One iteration of the dump of a segment, on [(buf, rest)]. *)
Definition dump_part (fd fake_fd : Z) : Z * Z → PM (Z * Z + bool) := λ '(buf, rest),
  if rest =? 0 then mret (inr true) else
  w ← lib_call (WriteFd fake_fd buf (Z.min rest DUMP_SIZE));
  let nr_written := s16 (val w 0) in
  if nr_written <? 0 then lib_call (CloseFd fd);; mret (inr false)
  else mret (inl (u32 (buf + nr_written), u32 (rest - nr_written))).

Definition dump_core (rmp : Z) : PM unit :=
  r ← mget id rmp;
  if negb (mp_realuid r =? mp_effuid r) then mret tt else
  a ← lib_call OpenCore;
  let fd := s16 (val a 0) in
  if fd <? 0 then mret tt else
  mset rmp (λ r, r <| mp_sigstatus := s8 (Z.lor (mp_sigstatus r) DUMPED) |>);;
  current_sp ← sys_getsp rmp;
  d ← mget mp_seg_D rmp;
  adjust rmp (mem_len d) current_sp;;
  w ← lib_call (WriteFd fd 0 SEGS_BYTES);
  if negb (u16 (val w 0) =? SEGS_BYTES) then lib_call (CloseFd fd);; mret tt else
  go ← loop dump_fuel (dump_word rmp fd) 0;
  if negb go then mret tt else
  r ← mget id rmp;
  res ← for_each [0; 1; 2] (λ seg,
    let m := if seg =? 0 then mp_seg_T r else if seg =? 1 then mp_seg_D r else mp_seg_S r in
    let fake_fd := s16 (Z.lor (Z.lor (Z.shiftl rmp 8) (Z.shiftl seg 6)) fd) in
    go ← loop dump_fuel (dump_part fd fake_fd)
           (u32 (Z.shiftl (mem_vir m) CLICK_SHIFT), u32 (Z.shiftl (mem_len m) CLICK_SHIFT));
    mret (if (go : bool) then None else Some tt));
  match res with
  | Some _ => mret tt
  | None => lib_call (CloseFd fd);; mret tt
  end.

Definition set_alarm (proc_nr sec : Z) : PM Z :=
  mset proc_nr (λ r, r <| mp_flags := if negb (sec =? 0) then setf (mp_flags r) ALARM_ON
                                      else clrf (mp_flags r) ALARM_ON |>);;
  let ticks := s32 (HZ * u16 sec) in
  let ticks := if negb (u32 ticks / HZ =? u16 sec) then LONG_MAX else ticks in
  a ← do_call (SetAlarm proc_nr ticks);
  if negb (val a 0 =? OK) then panic "alarm er" NO_NUM else
  let secs := s32 (val a 1) in
  let remaining := s16 secs in
  mret (if negb (remaining =? secs) || (remaining <? 0) then INT_MAX else remaining).

(** ** trace.c: stopping a traced process *)
Definition stop_proc (rmp signo : Z) : PM unit :=
  t ← do_call (SysTrace (-1) rmp 0 0);
  if negb (s16 (val t 0) =? OK) then mret tt else
  mset rmp (λ r, r <| mp_flags := setf (mp_flags r) STOPPED |>);;
  rpmp ← mget mp_parent rmp;
  pf ← mget mp_flags rpmp;
  if has pf WAITING then
    mset rpmp (λ r, r <| mp_flags := clrf (mp_flags r) WAITING |>);;
    pid ← mget mp_pid rmp;
    reply rpmp pid (s16 (Z.lor 0x7F (Z.shiftl signo 8))) 0
  else mset rmp (λ r, r <| mp_sigstatus := s8 signo |>).

(** ** signal.c: sending a signal *)
Section sending.
Variable mm_exit : Z → Z → PM unit.

(** The code after [doterminate]. *)
Definition terminate (rmp signo : Z) : PM unit :=
  mset rmp (λ r, r <| mp_sigstatus := s8 signo |>);;
  core ← gets core_sset;
  when (ismember core signo) (tell_fs CHDIR rmp 0 0;; dump_core rmp);;
  mm_exit rmp 0.

Definition sig_proc (rmp signo : Z) : PM unit :=
  r ← mget id rmp;
  if negb (has (mp_flags r) IN_USE) then panic "" NO_NUM else
  if has (mp_flags r) HANGING then panic "" NO_NUM else
  if has (mp_flags r) TRACED && negb (signo =? SIGKILL) then unpause rmp;; stop_proc rmp signo else
  if ismember (mp_ignore r) signo then mret tt else
  if ismember (mp_sigmask r) signo then
    mset rmp (λ r, r <| mp_sigpending := addset (mp_sigpending r) signo |>)
  else
    act ← sigact_at rmp signo;
    let sigflags := sa_flags act in
    if ismember (mp_catch r) signo then
      let mask := if has (mp_flags r) SIGSUSPENDED then mp_sigmask2 r else mp_sigmask r in
      sp ← sys_getsp rmp;
      let sm := Sigmsg signo mask (sa_handler act) (mp_sigreturn r) sp in
      let new_sp := if has sigflags SA_COMPAT then u32 (sp - SIG_PUSH_BYTES)
                    else u32 (sp - (SIGCONTEXT_BYTES + SIGFRAME_BYTES)) in
      d ← mget mp_seg_D rmp;
      ok ← adjust rmp (mem_len d) new_sp;
      if negb (ok =? OK) then terminate rmp signo else
      mset rmp (λ r, r <| mp_sigmask := Z.lor (mp_sigmask r) (sa_mask (mp_sigact r signo)) |>);;
      mset rmp (λ r, r <| mp_sigmask := if has sigflags SA_NODEFER then delset (mp_sigmask r) signo
                                        else addset (mp_sigmask r) signo |>);;
      when (has sigflags SA_RESETHAND)
        (mset rmp (λ r, upd_act signo (λ a, a <| sa_handler := SIG_DFL |>)
                          (r <| mp_catch := delset (mp_catch r) signo |>)));;
      (if has sigflags SA_COMPAT then
         fn ← mget mp_func rmp; do_call (SysOldsig rmp signo fn);; mret tt
       else do_call (SysSendsig rmp sm);; mret tt);;
      mset rmp (λ r, r <| mp_sigpending := delset (mp_sigpending r) signo |>);;
      unpause rmp
    else terminate rmp signo.

(** [proc_id] selects the process [r]; [m] is the entry of the caller. *)
Definition selected (proc_id : Z) (m r : mproc) : bool :=
  negb ((0 <? proc_id) && negb (proc_id =? mp_pid r)) &&
  negb ((proc_id =? 0) && negb (mp_procgrp m =? mp_procgrp r)) &&
  negb ((proc_id =? -1) && (mp_pid r =? INIT_PID)) &&
  negb ((proc_id <? -1) && negb (mp_procgrp r =? s16 (- proc_id))).
Definition may_signal (m r : mproc) : bool :=
  (mp_effuid m =? SUPER_USER) || (mp_realuid m =? mp_realuid r) || (mp_effuid m =? mp_realuid r) ||
  (mp_realuid m =? mp_effuid r) || (mp_effuid m =? mp_effuid r).

(** The loop of [check_sig]; the result is [(count, error_code)]. *)
Fixpoint check_loop (proc_id signo : Z) (l : list Z) (count error_code : Z) : PM (Z * Z) :=
  match l with
  | [] => mret (count, error_code)
  | rmp :: l =>
      r ← mget id rmp;
      if negb (has (mp_flags r) IN_USE) then check_loop proc_id signo l count error_code else
      if has (mp_flags r) HANGING && negb (signo =? 0) then check_loop proc_id signo l count error_code else
      cur ← gets mp;
      m ← mget id cur;
      if negb (selected proc_id m r) then check_loop proc_id signo l count error_code else
      if negb (may_signal m r) then check_loop proc_id signo l count EPERM else
      if signo =? 0 then check_loop proc_id signo l (count + 1) error_code else
      sig_proc rmp signo;;
      if 0 <? proc_id then mret (count + 1, error_code)
      else check_loop proc_id signo l (count + 1) error_code
  end.

Definition check_sig_of (proc_id signo : Z) : PM Z :=
  if (signo <? 0) || (NSIG <? signo) then mret EINVAL else
  if (proc_id =? INIT_PID) && (signo =? SIGKILL) then mret EINVAL else
  ce ← check_loop proc_id signo (seqZ INIT_PROC_NR (NR_PROCS - INIT_PROC_NR)) 0 ESRCH;
  cur ← gets mp;
  f ← mget mp_flags cur;
  when (negb (has f IN_USE) || has f HANGING) (modify (λ s, s <| dont_reply := true |>));;
  mret (if 0 <? ce.1 then OK else ce.2).
End sending.

(** ** forkexit.c: exit *)
Definition cleanup (child : Z) : PM unit :=
  r ← mget id child;
  let exitstatus := s16 (Z.lor (Z.shiftl (mp_exitstatus r) 8) (Z.land (mp_sigstatus r) 0xFF)) in
  reply (mp_parent r) (mp_pid r) exitstatus 0;;
  mset (mp_parent r) (λ r, r <| mp_flags := clrf (mp_flags r) WAITING |>);;
  mset child (λ r, r <| mp_flags := 0 |>);;
  modify (λ s, s <| procs_in_use := procs_in_use s - 1 |>).

(** A child meets one of the three tests of a process waiting for [pidarg]. *)
Definition right_child (pidarg : Z) (r : mproc) : bool :=
  (pidarg =? -1) || (pidarg =? mp_pid r) || (s16 (- pidarg) =? mp_procgrp r).

(** The body of the loop that disinherits the children of [proc_nr]. *)
Definition disinherit (proc_nr rmp : Z) : PM unit :=
  r ← mget id rmp;
  when (has (mp_flags r) IN_USE && (mp_parent r =? proc_nr))
    (mset rmp (λ r, r <| mp_parent := INIT_PROC_NR |>);;
     i ← mget mp_flags INIT_PROC_NR;
     when (has i WAITING && has (mp_flags r) HANGING) (cleanup rmp)).

Fixpoint mm_exit_ (fuel : nat) (proc_nr exit_status : Z) : PM unit :=
  match fuel with
  | O => no_fuel
  | S n =>
      rmp ← mget id proc_nr;
      cur ← gets mp;
      m ← mget id cur;
      let procgrp := if mp_pid rmp =? mp_procgrp m then mp_procgrp m else 0 in
      when (has (mp_flags rmp) ALARM_ON) (set_alarm proc_nr 0;; mret tt);;
      tell_fs EXIT proc_nr 0 0;;
      x ← do_call (SysXit (mp_parent rmp) proc_nr);
      on_holes (free_mem (u16 (val x 1)) (u16 (val x 2)));;
      mset proc_nr (λ r, r <| mp_exitstatus := s8 exit_status |>);;
      parent ← mget id (mp_parent rmp);
      (if has (mp_flags parent) WAITING && right_child (mp_wpid parent) rmp then cleanup proc_nr
       else mset proc_nr (λ r, r <| mp_flags := setf (mp_flags r) HANGING |>));;
      fold_m (λ _ rmp, disinherit proc_nr rmp) tt all_slots;;
      when (negb (procgrp =? 0)) (check_sig_of (mm_exit_ n) (s16 (- procgrp)) SIGHUP;; mret tt)
  end.
Definition mm_exit : Z → Z → PM unit := mm_exit_ exit_fuel.
Definition check_sig : Z → Z → PM Z := check_sig_of mm_exit.
Definition send_sig : Z → Z → PM unit := sig_proc mm_exit.

Definition do_mm_exit : PM Z :=
  cur ← gets mp;
  status ← gets (λ s, m2_i1 (mm_in s));
  mm_exit cur status;;
  modify (λ s, s <| dont_reply := true |>);;
  mret OK.
End signal.
