(* ===== verification/Mcalls.v ===== *)
(** * The system calls of the memory manager that create, await, trace and
      signal processes

    mm/forkexit.c ([do_fork], [do_waitpid]), mm/signal.c (the calls),
    mm/trace.c ([do_trace]) and mm/break.c ([stack_fault]). *)

From S2P Require Import Prelude Chain Alloc Sigset Proc Mproc Signal.

#[export] Instance upd_m2_l2 : Upd m2_l2 := ltac:(derive_upd).

Section calls.
Context `{Servers}.

(** ** forkexit.c *)

(** The first slot that is not in use; [NR_PROCS] if there is none. *)
Definition free_slot : PM Z :=
  r ← for_each all_slots (λ i, f ← mget mp_flags i; mret (if has f IN_USE then None else Some i));
  mret (default NR_PROCS r).

(** One iteration of the search for a free pid for [rmc]; it stops with the pid
    when no process has it as its pid or process group. *)
Definition pid_step (rmc : Z) : unit → PM (unit + Z) := λ _,
  modify (λ s, s <| next_pid := if next_pid s <? 30000 then next_pid s + 1 else INIT_PID + 1 |>);;
  n ← gets next_pid;
  t ← for_each all_slots (λ i, r ← mget id i;
        mret (if (mp_pid r =? n) || (mp_procgrp r =? n) then Some tt else None));
  mset rmc (λ r, r <| mp_pid := n |>);;
  mret (match t with Some _ => inl tt | None => inr n end).

Definition do_fork : PM Z :=
  rmp ← gets mp;
  w ← gets who;
  n ← gets procs_in_use;
  r ← mget id rmp;
  if n =? NR_PROCS then mret EAGAIN else
  if (NR_PROCS - LAST_FEW <=? n) && negb (mp_effuid r =? 0) then mret EAGAIN else
  let prog_clicks := u16 (mem_len (mp_seg_S r) + (mem_vir (mp_seg_S r) - mem_vir (mp_seg_D r))) in
  child_base ← on_holes (alloc_mem prog_clicks);
  if child_base =? NO_MEM then mret ENOMEM else
  child_nr ← free_slot;
  modify (λ s, s <| procs_in_use := procs_in_use s + 1 |>);;
  mset child_nr (λ _, r);;
  mset child_nr (λ r, r <| mp_parent := w |> <| mp_flags := clrf (mp_flags r) TRACED |>
                        <| mp_exitstatus := 0 |> <| mp_sigstatus := 0 |>);;
  pid ← loop pid_fuel (pid_step child_nr) tt;
  do_call (SysFork w child_nr pid child_base);;
  tell_fs FORK w child_nr pid;;
  reply child_nr 0 0 0;;
  mret pid.

(** The loop of [do_waitpid]; the result is [None] when the call has been
    answered or [Some children]. *)
Fixpoint wait_loop (w pidarg : Z) (l : list Z) (children : Z) : PM (option Z) :=
  match l with
  | [] => mret (Some children)
  | rp :: l =>
      r ← mget id rp;
      if negb (has (mp_flags r) IN_USE && (mp_parent r =? w)) then wait_loop w pidarg l children else
      if (0 <? pidarg) && negb (pidarg =? mp_pid r) then wait_loop w pidarg l children else
      if (pidarg <? -1) && negb (s16 (- pidarg) =? mp_procgrp r) then wait_loop w pidarg l children else
      if has (mp_flags r) HANGING then
        cleanup rp;; modify (λ s, s <| dont_reply := true |>);; mret None
      else if has (mp_flags r) STOPPED && negb (mp_sigstatus r =? 0) then
        reply w (mp_pid r) (s16 (Z.lor 0x7F (Z.shiftl (mp_sigstatus r) 8))) 0;;
        modify (λ s, s <| dont_reply := true |>);;
        mset rp (λ r, r <| mp_sigstatus := 0 |>);;
        mret None
      else wait_loop w pidarg l (children + 1)
  end.

Definition do_waitpid : PM Z :=
  c ← gets mm_call;
  i ← gets mm_in;
  cur ← gets mp;
  w ← gets who;
  grp ← mget mp_procgrp cur;
  let pidarg := if c =? WAIT then -1 else m2_i1 i in
  let options := if c =? WAIT then 0 else m2_i2 i in
  let pidarg := if pidarg =? 0 then s16 (- grp) else pidarg in
  res ← wait_loop w pidarg all_slots 0;
  match res with
  | None => mret OK
  | Some children =>
      if 0 <? children then
        if has options WNOHANG then mret 0 else
        mset cur (λ r, r <| mp_flags := setf (mp_flags r) WAITING |> <| mp_wpid := pidarg |>);;
        modify (λ s, s <| dont_reply := true |>);;
        mret OK
      else mret ECHILD
  end.

(** ** signal.c *)
Definition do_signal : PM Z :=
  i ← gets mm_in;
  cur ← gets mp;
  let sig := m2_i1 i in
  let func := m2_l2 i in
  if (sig <? 1) || (NSIG <? sig) then mret EINVAL else
  if sig =? SIGKILL then mret OK else
  old_ignore ← mget mp_ignore cur;
  mset cur (λ r, upd_act sig (λ a, Sigaction func 0 (Z.lor SA_COMPAT SA_NODEFER))
                   (r <| mp_sigmask := delset (mp_sigmask r) sig |>));;
  (if func =? SIG_IGN then
     mset cur (λ r, r <| mp_ignore := addset (mp_ignore r) sig |> <| mp_catch := delset (mp_catch r) sig |>)
   else
     mset cur (λ r, r <| mp_ignore := delset (mp_ignore r) sig |>);;
     if func =? SIG_DFL then mset cur (λ r, r <| mp_catch := delset (mp_catch r) sig |>)
     else
       mset cur (λ r, r <| mp_catch := addset (mp_catch r) sig |>);;
       when (negb (sig =? SIGILL) && negb (sig =? SIGTRAP))
         (mset cur (upd_act sig (λ a, a <| sa_flags := Z.lor (sa_flags a) SA_RESETHAND |>)));;
       mset cur (λ r, r <| mp_func := func |>));;
  mret (if ismember old_ignore sig then 1 else OK).

Definition do_sigaction : PM Z :=
  i ← gets mm_in;
  cur ← gets mp;
  w ← gets who;
  let sig_nr := m2_i2 i in
  let sig_nsa := m2_l1 i in
  let sig_osa := m2_l2 i in
  if sig_nr =? SIGKILL then mret OK else
  if (sig_nr <? 1) || (NSIG <? sig_nr) then mret EINVAL else
  svp ← sigact_at cur sig_nr;
  r ← (if negb (sig_osa =? 0) then a ← do_call (WriteSigaction w sig_osa svp); mret (s16 (val a 0))
       else mret OK);
  if negb (r =? OK) then mret r else
  if sig_nsa =? 0 then mret OK else
  a ← do_call (ReadSigaction w sig_nsa);
  let r := s16 (val a 0) in
  let svec := Sigaction (u32 (val a 1)) (u32 (val a 2)) (s16 (val a 3)) in
  if negb (r =? OK) then mret r else
  (if sa_handler svec =? SIG_IGN then
     mset cur (λ r, r <| mp_ignore := addset (mp_ignore r) sig_nr |>
                      <| mp_sigpending := delset (mp_sigpending r) sig_nr |>
                      <| mp_catch := delset (mp_catch r) sig_nr |>)
   else
     mset cur (λ r, r <| mp_ignore := delset (mp_ignore r) sig_nr |>
                      <| mp_catch := if sa_handler svec =? SIG_DFL then delset (mp_catch r) sig_nr
                                     else addset (mp_catch r) sig_nr |>));;
  mset cur (λ r, upd_act sig_nr
      (λ _, Sigaction (sa_handler svec) (delset (sa_mask svec) SIGKILL) (clrf (sa_flags svec) SA_COMPAT))
      (r <| mp_sigreturn := m2_p1 i |>));;
  mret OK.

Definition do_sigpending : PM Z :=
  cur ← gets mp;
  p ← mget mp_sigpending cur;
  modify (λ s, s <| mm_out := (mm_out s) <| m2_l1 := p |> |>);;
  mret OK.

(** Deliver the first pending signal that is not blocked any more. *)
Definition check_pending : PM unit :=
  for_each (seqZ 1 (NSIG - 1)) (λ i,
    cur ← gets mp;
    r ← mget id cur;
    if ismember (mp_sigpending r) i && negb (ismember (mp_sigmask r) i) then
      mset cur (λ r, r <| mp_sigpending := delset (mp_sigpending r) i |>);;
      send_sig cur i;;
      mret (Some tt)
    else mret None);;
  mret tt.

(** The two loops of [do_sigprocmask]. *)
Definition block_sigs (set mask : Z) : Z :=
  foldl (λ mask i, if ismember set i then addset mask i else mask) mask (seqZ 1 (NSIG - 1)).
Definition unblock_sigs (set mask : Z) : Z :=
  foldl (λ mask i, if ismember set i then delset mask i else mask) mask (seqZ 1 (NSIG - 1)).

Definition do_sigprocmask : PM Z :=
  i ← gets mm_in;
  cur ← gets mp;
  m ← mget mp_sigmask cur;
  modify (λ s, s <| mm_out := (mm_out s) <| m2_l1 := m |> |>);;
  let sig_how := m2_i1 i in
  let sig_set := u32 (m2_l1 i) in
  if sig_how =? SIG_BLOCK then
    mset cur (λ r, r <| mp_sigmask := block_sigs (delset sig_set SIGKILL) (mp_sigmask r) |>);; mret OK
  else if sig_how =? SIG_UNBLOCK then
    mset cur (λ r, r <| mp_sigmask := unblock_sigs sig_set (mp_sigmask r) |>);;
    check_pending;; mret OK
  else if sig_how =? SIG_SETMASK then
    mset cur (λ r, r <| mp_sigmask := delset sig_set SIGKILL |>);;
    check_pending;; mret OK
  else if sig_how =? SIG_INQUIRE then mret OK
  else mret EINVAL.

Definition do_sigsuspend : PM Z :=
  i ← gets mm_in;
  cur ← gets mp;
  mset cur (λ r, r <| mp_sigmask2 := mp_sigmask r |>
                   <| mp_sigmask := delset (u32 (m2_l1 i)) SIGKILL |>
                   <| mp_flags := setf (mp_flags r) SIGSUSPENDED |>);;
  modify (λ s, s <| dont_reply := true |>);;
  check_pending;;
  mret OK.

Definition do_sigreturn : PM Z :=
  i ← gets mm_in;
  cur ← gets mp;
  w ← gets who;
  mset cur (λ r, r <| mp_sigmask := delset (u32 (m2_l1 i)) SIGKILL |>);;
  a ← do_call (SysSigreturn w (u32 (m2_p1 i)) (m2_i2 i));
  check_pending;;
  mret (s16 (val a 0)).

Definition do_kill : PM Z :=
  i ← gets mm_in;
  check_sig (m2_i1 i) (m2_i2 i).

(** ** break.c: stack faults *)
Definition stack_fault (proc_nr : Z) : PM unit :=
  sp ← sys_getsp proc_nr;
  let new_sp := u32 (sp - CLICK_SIZE) in
  d ← mget mp_seg_D proc_nr;
  r ← adjust proc_nr (mem_len d) new_sp;
  if r =? OK then mret tt else
  mset proc_nr (λ r, r <| mp_catch := delset (mp_catch r) SIGSEGV |>);;
  send_sig proc_nr SIGSEGV.

(** The body of the loop of [do_ksig]. *)
Definition ksig_step (proc_nr proc_id sig_map : Z) (i : Z) : PM unit :=
  if negb (ismember sig_map i) then mret tt else
  if i =? SIGSTKFLT then mret tt else
  id ← (if (i =? SIGINT) || (i =? SIGQUIT) then mret (Some 0)
        else if i =? SIGKILL then mret (Some (-1))
        else if i =? SIGALRM then
          f ← mget mp_flags proc_nr;
          if negb (has f ALARM_ON) then mret None else
          mset proc_nr (λ r, r <| mp_flags := clrf (mp_flags r) ALARM_ON |>);;
          mret (Some proc_id)
        else mret (Some proc_id));
  match id with
  | None => mret tt
  | Some id => check_sig id i;; do_call (SysEndsig proc_nr);; mret tt
  end.

Definition do_ksig : PM Z :=
  w ← gets who;
  if negb (w =? HARDWARE) then mret EPERM else
  modify (λ s, s <| dont_reply := true |>);;
  m ← gets mm_in;
  let proc_nr := m2_i1 m in
  r ← mget id proc_nr;
  if negb (has (mp_flags r) IN_USE) || has (mp_flags r) HANGING then mret OK else
  let proc_id := mp_pid r in
  let sig_map := u32 (m2_l1 m) in
  modify (λ s, s <| mp := 0 |>);;
  mset 0 (λ r0, r0 <| mp_procgrp := mp_procgrp r |>);;
  when (ismember sig_map SIGSTKFLT) (stack_fault proc_nr);;
  fold_m (λ _ i, ksig_step proc_nr proc_id sig_map i) tt (seqZ 1 NSIG);;
  mret OK.

Definition do_alarm : PM Z :=
  w ← gets who;
  i ← gets mm_in;
  set_alarm w (m2_i1 i).

Definition do_pause : PM Z :=
  cur ← gets mp;
  mset cur (λ r, r <| mp_flags := setf (mp_flags r) PAUSED |>);;
  modify (λ s, s <| dont_reply := true |>);;
  mret OK.

(** The kernel does not answer [sys_abort]; the model stops there. *)
Definition do_reboot : PM Z :=
  cur ← gets mp;
  i ← gets mm_in;
  w ← gets who;
  e ← mget mp_effuid cur;
  if negb (e =? SUPER_USER) then mret EPERM else
  let flag := m2_i1 i in
  code ← (if (flag =? RBT_HALT) || (flag =? RBT_REBOOT) || (flag =? RBT_PANIC) || (flag =? RBT_RESET)
          then mret (inl [])
          else if flag =? RBT_MONITOR then
            if MONITOR_CODE_SIZE <? u16 (m2_i2 i) then mret (inr EINVAL) else
            a ← do_call (CopyIn w (m2_l1 i) (m2_i2 i));
            if negb (s16 (val a 0) =? OK) then mret (inr EFAULT) else
            let monitor_code := firstn (Z.to_nat MONITOR_CODE_SIZE)
              (firstn (Z.to_nat (m2_i2 i)) (tail a) ++ repeat 0 (Z.to_nat MONITOR_CODE_SIZE)) in
            if negb (val monitor_code (Z.to_nat MONITOR_CODE_SIZE - 1) =? 0) then mret (inr EINVAL)
            else mret (inl monitor_code)
          else mret (inr EINVAL));
  match (code : list Z + Z) with
  | inr r => mret r
  | inl monitor_code =>
      check_sig (-1) SIGKILL;;
      tell_fs EXIT INIT_PROC_NR 0 0;;
      tell_fs SYNC 0 0 0;;
      do_call (SysAbort flag monitor_code);;
      panic "sys_abort" flag
  end.

(** ** trace.c *)
Definition findproc (lpid : Z) : PM (option Z) :=
  for_each (seqZ (INIT_PROC_NR + 1) (NR_PROCS - (INIT_PROC_NR + 1))) (λ i,
    r ← mget id i;
    mret (if has (mp_flags r) IN_USE && (mp_pid r =? lpid) then Some i else None)).

(** The request to the system task that ends [do_trace]. *)
Definition trace_request (request child taddr data : Z) : PM Z :=
  a ← do_call (SysTrace request child taddr data);
  modify (λ s, s <| mm_in := (mm_in s) <| m2_l2 := val a 1 |> |>);;
  if negb (s16 (val a 0) =? OK) then e ← gets errno; mret (s16 (- e)) else
  modify (λ s, s <| mm_out := (mm_out s) <| m2_l2 := m2_l2 (mm_in s) |> |>);;
  mret OK.

Definition do_trace : PM Z :=
  i ← gets mm_in;
  cur ← gets mp;
  let request := m2_i2 i in
  let data := m2_l2 i in
  if request =? T_OK then
    mset cur (λ r, r <| mp_flags := setf (mp_flags r) TRACED |>);;
    modify (λ s, s <| mm_out := (mm_out s) <| m2_l2 := 0 |> |>);;
    mret OK
  else
    c ← findproc (m2_i1 i);
    match c with
    | None => mret ESRCH
    | Some child =>
        f ← mget mp_flags child;
        if negb (has f STOPPED) then mret ESRCH else
        if request =? T_EXIT then
          mm_exit child (s16 data);;
          modify (λ s, s <| mm_out := (mm_out s) <| m2_l2 := 0 |> |>);;
          mret OK
        else if (request =? T_RESUME) || (request =? T_STEP) then
          if (data <? 0) || (NSIG <? data) then mret EIO else
          when (0 <? data)
            (mset child (λ r, r <| mp_flags := clrf (mp_flags r) TRACED |>);;
             send_sig child (s16 data);;
             mset child (λ r, r <| mp_flags := setf (mp_flags r) TRACED |>));;
          mset child (λ r, r <| mp_flags := clrf (mp_flags r) STOPPED |>);;
          trace_request request child (m2_l1 i) data
        else trace_request request child (m2_l1 i) data
    end.
End calls.
