(* ===== verification/Exec.v ===== *)
(** * The execve system call of the memory manager

    mm/exec.c (with SHARP_BANG, USE_RW_SEG and SHADOWING) and [allowed] of
    mm/utility.c.  The stack image that [do_exec] keeps in [mbuf] is a function
    from offsets to bytes; an access outside its [ARG_MAX] bytes is a fault.
    The operations on the image alone ([patch_ptr], [insert_arg]) run in a
    monad of their own; pointers and longs are big-endian. *)

From S2P Require Import Prelude Chain Alloc Sigset Proc Mproc Signal.

Definition ARG_MAX : Z := 4096.
Definition PATH_MAX : Z := 255.
Definition PTRSIZE : Z := 4.
Definition ESCRIPT : Z := -2000.
Definition A_MINHDR : Z := 32.
Definition A_MAGIC0 : Z := 3.
Definition A_MAGIC1 : Z := 1.
Definition A_I8086 : Z := 4.
Definition A_M68K : Z := 11.
Definition A_NSYM : Z := 4.
Definition A_EXEC : Z := 16.
Definition A_SEP : Z := 32.
Definition X_BIT : Z := 1.
Definition O_RDONLY : Z := 0.
Definition O_NONBLOCK : Z := 0x800.
Definition I_TYPE : Z := 0xF000.
Definition I_REGULAR : Z := 0x8000.
Definition I_SET_UID_BIT : Z := 0x800.
Definition I_SET_GID_BIT : Z := 0x400.
Definition SEEK_SET : Z := 0.
Definition SEEK_CUR : Z := 1.
Definition READ_MAX : Z := INT_MAX / BLOCK_SIZE * BLOCK_SIZE.

(** ** The stack image *)
Notation image := (Z → Z).
Notation IM := (M image).

Definition in_image (i : Z) : bool := (0 <=? i) && (i <? ARG_MAX).
Definition getb (i : Z) : IM Z := if in_image i then gets (λ m, m i) else fault.
Definition setb (i v : Z) : IM unit := if in_image i then modify (λ m, <[i := v]> m) else fault.
(** The long at offset [i]. *)
Definition be32 (b0 b1 b2 b3 : Z) : Z := ((b0 * 256 + b1) * 256 + b2) * 256 + b3.
Definition getw (i : Z) : IM Z :=
  b0 ← getb i; b1 ← getb (i + 1); b2 ← getb (i + 2); b3 ← getb (i + 3); mret (be32 b0 b1 b2 b3).
Definition setw (i v : Z) : IM unit :=
  setb i (u8 (Z.shiftr v 24));; setb (i + 1) (u8 (Z.shiftr v 16));;
  setb (i + 2) (u8 (Z.shiftr v 8));; setb (i + 3) (u8 v).
Definition memmove (dst src n : Z) : IM unit :=
  if n =? 0 then mret tt else
  if in_image dst && in_image src && in_image (dst + n - 1) && in_image (src + n - 1) then
    modify (λ m, λ i, if (dst <=? i) && (i <? dst + n) then m (src + (i - dst)) else m i)
  else fault.
(** Store a string and its final zero. *)
Fixpoint store (i : Z) (bytes : list Z) : IM unit :=
  match bytes with
  | [] => mret tt
  | b :: bytes => setb i b;; store (i + 1) bytes
  end.
Definition strcpy (i : Z) (str : list Z) : IM unit := store i (str ++ [0]).

(** [patch_ptr]: [ap] is an index of longs, [flag] the zero pointers seen. *)
Definition patch_step (base : Z) : Z * Z → IM (Z * Z + unit) := λ '(ap, flag),
  if flag <? 2 then
    if ARG_MAX / PTRSIZE <=? ap then mret (inr tt) else
    v ← getw (PTRSIZE * ap);
    if negb (v =? 0) then setw (PTRSIZE * ap) (u32 (v + base));; mret (inl (ap + 1, flag))
    else mret (inl (ap + 1, flag + 1))
  else mret (inr tt).
Definition patch_fuel : nat := 1026.
Definition patch_ptr (base : Z) : IM unit := loop patch_fuel (patch_step base) (1, 0).

(** The loop of [insert_arg] that skips the old argv[0]: it ends with the
    place behind the string and the offset, or fails. *)
Definition skip_step (old_bytes : Z) : Z * Z → IM (Z * Z + option (Z * Z)) := λ '(a1, offset),
  if a1 =? old_bytes then mret (inr None) else
  c ← getb a1;
  if negb (c =? 0) then mret (inl (a1 + 1, offset - 1)) else mret (inr (Some (a1 + 1, offset - 1))).
Definition skip_fuel : nat := 4100.

(** The result is [None] for FALSE with the value of [*stk_bytes] left behind. *)
Definition insert_arg (stk_bytes : Z) (arg : list Z) (replace : bool) : IM (bool * Z) :=
  let old_bytes := s16 stk_bytes in
  let offset := Z.of_nat (length arg) + 1 in
  a0 ← getw PTRSIZE;
  let a0 := s16 a0 in
  if (u16 a0 <? 4 * PTRSIZE) || (old_bytes <=? a0) then mret (false, stk_bytes) else
  p ← (if replace then
         r ← loop skip_fuel (skip_step old_bytes) (a0, offset);
         mret (match r with Some (a1, offset) => Some (a0, a1, offset) | None => None end)
       else mret (Some (a0 + PTRSIZE, a0, offset + PTRSIZE)));
  match (p : option (Z * Z * Z)) with
  | None => mret (false, stk_bytes)
  | Some (a0, a1, offset) =>
      let stk_bytes := u32 (stk_bytes + offset) in
      if ARG_MAX <? stk_bytes then mret (false, stk_bytes) else
      memmove (a1 + offset) a1 (old_bytes - a1);;
      strcpy a0 arg;;
      when (negb replace)
        (memmove (2 * PTRSIZE) (1 * PTRSIZE) (a0 - 2 * PTRSIZE);;
         n ← getw 0; setw 0 (u32 (n + 1)));;
      patch_ptr (u32 offset);;
      setw PTRSIZE (u32 a0);;
      mret (true, stk_bytes)
  end.

(** Run an operation of the stack image on [mbuf]. *)
Definition on_image {A} (m : IM A) : PM A := λ s,
  match m (mbuf s) with
  | Ret a b => Ret a (s <| mbuf := b |>)
  | Panic w n => Panic w n
  | Fault => Fault
  | NoFuel => NoFuel
  end.
(** Bytes read into the start of a buffer. *)
Definition overlay (n : Z) (bytes : list Z) (m : image) : image :=
  λ o, if (0 <=? o) && (o <? n) then val bytes (Z.to_nat o) else m o.
(** [n] bytes read into [name_buf], which has [PATH_MAX] of them. *)
Definition overwrite (n : nat) (bytes buf : list Z) : list Z :=
  map (val bytes) (seq 0 n) ++ skipn n (firstn (Z.to_nat PATH_MAX) buf).
(** The string that starts a buffer. *)
Fixpoint cstr (bytes : list Z) : list Z :=
  match bytes with
  | [] => []
  | c :: bytes => if c =? 0 then [] else c :: cstr bytes
  end.

(** ** The first line of a script

    An index of [name_buf] stands for the pointer [sp].  Blanks are spaces and
    tabs. *)
Definition blank (c : Z) : bool := (c =? 32) || (c =? 9).
(** Move [sp] back to the last character of a word, or to the start. *)
Fixpoint skip_blanks (buf : list Z) (sp : nat) : nat :=
  match sp with
  | O => O
  | S n => if blank (val buf n) then skip_blanks buf n else n
  end.
(** Move [sp] back to the start of its word. *)
Fixpoint word_start (buf : list Z) (sp : nat) : nat :=
  match sp with
  | O => O
  | S n => if blank (val buf n) then S n else word_start buf n
  end.

Section exec.
Context `{Servers}.

(** One iteration of the loop of [patch_stack] on [sp], [interp] and
    [stk_bytes]; it ends with the success of the loop. *)
Definition word_step : nat * option nat * Z → PM (nat * option nat * Z + bool * option nat * Z) :=
  λ '(sp, interp, stk_bytes),
  buf ← gets name_buf;
  match skip_blanks buf sp with
  | O => mret (inr (true, interp, stk_bytes))
  | S _ as e =>
      modify (λ s, s <| name_buf := <[S e := 0]> (name_buf s) |>);;
      buf ← gets name_buf;
      let b := word_start buf e in
      r ← on_image (insert_arg stk_bytes (cstr (skipn b buf)) false);
      if (r.1 : bool) then mret (inl (b, Some b, r.2)) else mret (inr (false, None, r.2))
  end.
Definition word_fuel : nat := 257.

(** The interpreter, as an index of [name_buf], and the new [stk_bytes]. *)
Definition patch_stack (fd stk_bytes : Z) : PM (option nat * Z) :=
  script ← gets (λ s, cstr (name_buf s));
  r ← on_image (insert_arg stk_bytes script true);
  let '(ok, stk_bytes) := r in
  if negb ok then mret (None, stk_bytes) else
  l ← lib_call (LseekFd fd 2 SEEK_SET);
  if s32 (val l 0) =? -1 then mret (None, stk_bytes) else
  a ← lib_call (ReadFd fd 0 PATH_MAX);
  let n := s16 (val a 0) in
  when (0 <=? n) (modify (λ s, s <| name_buf := overwrite (Z.to_nat n) (tail a) (name_buf s) |>));;
  if n <? 0 then mret (None, stk_bytes) else
  buf ← gets name_buf;
  match list_find (λ c, c = 10) (firstn (Z.to_nat n) buf) with
  | None => mret (None, stk_bytes)
  | Some (sp, _) =>
      r ← loop word_fuel word_step (sp, None, stk_bytes);
      let '(ok, interp, stk_bytes) := r in
      if negb ok then mret (None, stk_bytes) else
      lib_call (CloseFd fd);;
      mret (interp, u32 (stk_bytes + PTRSIZE - 1) / PTRSIZE * PTRSIZE)
  end.

(** ** utility.c *)
Record stat := Stat { st_mode : Z; st_uid : Z; st_gid : Z; st_ino : Z; st_dev : Z; st_ctime : Z }.

(** The descriptor of the opened file and its stat block, or an error. *)
Definition allowed (name : list Z) (mask : Z) : PM (Z * stat) :=
  let none := Stat 0 0 0 0 0 0 in
  a ← lib_call (AccessFile name mask);
  if s16 (val a 0) <? 0 then mret (s16 (- val a 1), none) else
  tell_fs SETUID MM_PROC_NR SUPER_USER SUPER_USER;;
  o ← lib_call (OpenFile name (Z.lor O_RDONLY O_NONBLOCK));
  let fd := s16 (val o 0) in
  cur ← gets mp;
  e ← mget mp_effuid cur;
  tell_fs SETUID MM_PROC_NR e e;;
  if fd <? 0 then mret (s16 (- val o 1), none) else
  f ← lib_call (Fstat fd);
  if s16 (val f 0) <? 0 then panic "allowed: fstat failed" NO_NUM else
  let st := Stat (u16 (val f 1)) (s16 (val f 2)) (s8 (val f 3)) (u16 (val f 4)) (s16 (val f 5)) (s32 (val f 6)) in
  if (mask =? X_BIT) && negb (Z.land (st_mode st) I_TYPE =? I_REGULAR) then
    lib_call (CloseFd fd);; mret (EACCES, none)
  else mret (fd, st).

(** ** The header of an executable *)
Record exechdr := Exechdr {
  x_ft : Z; x_text_bytes : Z; x_data_bytes : Z; x_bss_bytes : Z; x_tot_bytes : Z; x_sym_bytes : Z; x_pc : Z
}.

(** The decoded header, with [m], from the [A_MINHDR] bytes read. *)
Definition decode_header (h : list Z) (sc : Z) : Z * exechdr :=
  let long i := be32 (val h i) (val h (i + 1)) (val h (i + 2)) (val h (i + 3)) in
  let bad := (ENOEXEC, Exechdr 0 0 0 0 0 0 0) in
  let a_cpu := val h 0 in
  let a_flags := val h 1 in
  if negb (val h 2 =? A_MAGIC0) || negb (val h 3 =? A_MAGIC1) then bad else
  if negb (a_cpu =? A_M68K) && negb (a_cpu =? A_I8086) then bad else
  if negb (clrf a_flags (Z.lor (Z.lor A_NSYM A_EXEC) A_SEP) =? 0) then bad else
  let ft := if has a_flags A_SEP then SEPARATE else 0 in
  let text_bytes := long 8%nat in
  let data_bytes := long 12%nat in
  let bss_bytes := long 16%nat in
  let tot_bytes := long 24%nat in
  if tot_bytes =? 0 then bad else
  let '(text_bytes, data_bytes, tot_bytes) :=
    if negb (ft =? SEPARATE) then
      let t := Z.shiftl (Z.shiftr text_bytes CLICK_SHIFT) CLICK_SHIFT in
      (t, u32 (u32 (data_bytes + text_bytes) - t), u32 (tot_bytes - t))
    else (text_bytes, data_bytes, tot_bytes) in
  let hdr := Exechdr ft text_bytes data_bytes bss_bytes tot_bytes (s32 (long 28%nat)) (long 20%nat) in
  let tc := u16 (Z.shiftr (u32 (text_bytes + CLICK_SIZE - 1)) CLICK_SHIFT) in
  let dc := u16 (Z.shiftr (u32 (data_bytes + bss_bytes + CLICK_SIZE - 1)) CLICK_SHIFT) in
  let totc := Z.shiftr (u32 (tot_bytes + CLICK_SIZE - 1)) CLICK_SHIFT in
  if totc <=? dc then (ENOEXEC, hdr) else
  let dvir := if ft =? SEPARATE then 0 else tc in
  let s_vir := u16 (dvir + (totc - sc)) in
  (size_ok ft tc dc sc dvir s_vir, hdr).

Definition read_header (fd sc : Z) : PM (Z * exechdr) :=
  let none := Exechdr 0 0 0 0 0 0 0 in
  a ← lib_call (ReadFd fd 0 A_MINHDR);
  let m := s16 (val a 0) in
  if m <? 2 then mret (ENOEXEC, none) else
  let h := tail a in
  if (val h 0 =? 35) && (val h 1 =? 33) then mret (ESCRIPT, none) else
  if negb (m =? A_MINHDR) then mret (ENOEXEC, none) else
  let '(m, hdr) := decode_header h sc in
  (* ENOEXEC stands for the returns before the seek *)
  if (m =? ENOEXEC) then mret (m, hdr) else
  when (A_MINHDR <? val h 7) (lib_call (LseekFd fd (val h 7) SEEK_SET);; mret tt);;
  mret (m, hdr).

(** ** Memory *)
Definition find_share (mp_ign ino dev ctime : Z) : PM (option Z) :=
  for_each (seqZ INIT_PROC_NR (NR_PROCS - INIT_PROC_NR)) (λ sh_mp,
    r ← mget id sh_mp;
    mret (if negb (Z.land (mp_flags r) (Z.lor (Z.lor IN_USE HANGING) SEPARATE) =? Z.lor IN_USE SEPARATE) then None
          else if sh_mp =? mp_ign then None
          else if negb (mp_ino r =? ino) then None
          else if negb (mp_dev r =? dev) then None
          else if negb (mp_ctime r =? ctime) then None else Some sh_mp)).

Definition new_mem (sh_mp : option Z) (text_bytes data_bytes bss_bytes stk_bytes tot_bytes : Z) : PM Z :=
  let text_bytes := match sh_mp with Some _ => 0 | None => text_bytes end in
  let text_clicks := u16 (Z.shiftr (u32 (text_bytes + CLICK_SIZE - 1)) CLICK_SHIFT) in
  let data_clicks := u16 (Z.shiftr (u32 (data_bytes + bss_bytes + CLICK_SIZE - 1)) CLICK_SHIFT) in
  let stack_clicks := u16 (Z.shiftr (u32 (stk_bytes + CLICK_SIZE - 1)) CLICK_SHIFT) in
  let tot_clicks := u16 (Z.shiftr (u32 (tot_bytes + CLICK_SIZE - 1)) CLICK_SHIFT) in
  let gap_clicks := u16 (tot_clicks - data_clicks - stack_clicks) in
  if s16 gap_clicks <? 0 then mret ENOMEM else
  mh ← on_holes max_hole;
  if mh <? u16 (text_clicks + tot_clicks) then mret EAGAIN else
  rmp ← gets mp;
  w ← gets who;
  new_base ← on_holes (alloc_mem (u16 (text_clicks + tot_clicks)));
  if new_base =? NO_MEM then panic "MM hole list is inconsistent" NO_NUM else
  t ← (match sh_mp with
       | Some sh => mget mp_seg_T sh
       | None => mret (MemMap 0 new_base text_clicks)
       end);
  let d_phys := u16 (new_base + text_clicks) in
  let s_phys := u16 (d_phys + data_clicks + gap_clicks) in
  mset rmp (λ r, r <| mp_seg_T := MemMap (mem_phys t) (mem_phys t) (mem_len t) |>
                   <| mp_seg_D := MemMap d_phys d_phys data_clicks |>
                   <| mp_seg_S := MemMap s_phys s_phys stack_clicks |>);;
  r ← mget id rmp;
  a ← do_call (SysFresh w (mp_seg_T r) (mp_seg_D r) (mp_seg_S r) (u16 (Z.shiftr data_bytes CLICK_SHIFT)));
  on_holes (free_mem (u16 (val a 1)) (u16 (val a 2)));;
  mret OK.

(** ** Loading and relocation *)
Definition rw_part (wr : bool) (fd : Z) : Z * Z → PM (Z * Z + unit) := λ '(ubuf_ptr, seg_bytes),
  if seg_bytes =? 0 then mret (inr tt) else
  let bytes := Z.min READ_MAX seg_bytes in
  a ← lib_call (if wr then WriteFd fd ubuf_ptr bytes else ReadFd fd ubuf_ptr bytes);
  if negb (s16 (val a 0) =? bytes) then mret (inr tt)
  else mret (inl (u32 (ubuf_ptr + bytes), seg_bytes - bytes)).
Definition rw_fuel : nat := Z.to_nat 140000.
Definition rw_seg (wr : bool) (fd proc : Z) (seg : mproc → mem_map) (segnr seg_bytes : Z) : PM unit :=
  m ← mget seg proc;
  let new_fd := s16 (Z.lor (Z.lor (Z.shiftl proc 8) (Z.shiftl segnr 6)) fd) in
  loop rw_fuel (rw_part wr new_fd) (u32 (Z.shiftl (mem_vir m) CLICK_SHIFT), seg_bytes).

(** The relocation bytes of a buffer: the address reached when the buffer is used
    up, or the result. *)
Fixpoint reloc_bytes (off adr : Z) (bytes : list Z) : PM (Z + Z) :=
  match bytes with
  | [] => mret (inl adr)
  | c :: bytes =>
      if c =? 1 then reloc_bytes off (u32 (adr + 254)) bytes
      else if c =? 0 then mret (inr 0)
      else if has c 1 then mret (inr (-1))
      else do_call (RelocateLong (u32 (adr + c)) off);; reloc_bytes off (u32 (adr + c)) bytes
  end.
(** Refill the buffer. *)
Definition reloc_refill (fd off : Z) : Z → PM (Z + Z) := λ adr,
  a ← lib_call (ReadFd fd 0 ARG_MAX);
  let n := s16 (val a 0) in
  modify (λ s, s <| mbuf := overlay n (tail a) (mbuf s) |>);;
  if n <? 1 then mret (inr (-1)) else reloc_bytes off adr (firstn (Z.to_nat n) (tail a)).
Definition reloc_fuel : nat := Z.to_nat 70000.

Definition relocate (fd : Z) : PM Z :=
  cur ← gets mp;
  t ← mget mp_seg_T cur;
  let off := u32 (Z.shiftl (mem_phys t) CLICK_SHIFT) in
  a ← lib_call (ReadFd fd 0 ARG_MAX);
  let n := s16 (val a 0) in
  modify (λ s, s <| mbuf := overlay n (tail a) (mbuf s) |>);;
  if u16 n <? LONG_BYTES then mret (-1) else
  first ← on_image (getw 0);
  if first =? 0 then mret 0 else
  let adr := u32 (off + first) in
  do_call (RelocateLong adr off);;
  x ← reloc_bytes off adr (skipn 4 (firstn (Z.to_nat n) (tail a)));
  match x with
  | inr r => mret r
  | inl adr => loop reloc_fuel (reloc_refill fd off) adr
  end.

(** ** do_exec *)

(** One attempt to read the header of [name]. *)
Definition try_exec (name : list Z) (stk_bytes : Z) : PM (Z + (Z * stat * Z * exechdr)) :=
  w ← gets who;
  tell_fs CHDIR w 0 0;;
  fs ← allowed name X_BIT;
  if fs.1 <? 0 then mret (inl fs.1) else
  let sc := u16 (Z.shiftr (u32 (stk_bytes + CLICK_SIZE - 1)) CLICK_SHIFT) in
  mh ← read_header fs.1 sc;
  mret (inr (fs.1, fs.2, mh.1, mh.2)).

(** The part of a path behind its last slash. *)
Fixpoint basename (name best : list Z) : list Z :=
  match name with
  | [] => best
  | c :: name => basename name (if c =? 47 then name else best)
  end.

(** The part of [do_exec] behind the point where the header has been accepted;
    [st0] is the stat block of the file named by the caller, [st] that of the
    file to be run. *)
Definition exec_image (fd : Z) (st0 st : stat) (hdr : exechdr) (stk_bytes : Z) : PM Z :=
  rmp ← gets mp;
  w ← gets who;
  sh_mp ← find_share rmp (st_ino st) (st_dev st) (st_ctime st);
  r ← new_mem sh_mp (x_text_bytes hdr) (x_data_bytes hdr) (x_bss_bytes hdr) stk_bytes (x_tot_bytes hdr);
  if negb (r =? OK) then lib_call (CloseFd fd);; mret r else
  mset rmp (λ r, r <| mp_ino := st_ino st |> <| mp_dev := st_dev st |> <| mp_ctime := st_ctime st |>);;
  s ← mget mp_seg_S rmp;
  let vsp := u32 (u32 (Z.shiftl (mem_vir s) CLICK_SHIFT) + u32 (Z.shiftl (mem_len s) CLICK_SHIFT) - stk_bytes) in
  on_image (patch_ptr vsp);;
  buf ← gets mbuf;
  c ← do_call (CopyOut w vsp (map buf (seqZ 0 stk_bytes)));
  if negb (s16 (val c 0) =? OK) then panic "do_exec stack copy err" NO_NUM else
  (match sh_mp with
   | Some _ => lib_call (LseekFd fd (x_text_bytes hdr) SEEK_CUR);; mret tt
   | None => rw_seg false fd w mp_seg_T 0 (x_text_bytes hdr)
   end);;
  rw_seg false fd w mp_seg_D 1 (x_data_bytes hdr);;
  lib_call (LseekFd fd (x_sym_bytes hdr) SEEK_CUR);;
  relocate fd;;
  t ← mget mp_seg_T rmp;
  let pc := u32 (x_pc hdr + u32 (Z.shiftl (mem_vir t) CLICK_SHIFT)) in
  lib_call (CloseFd fd);;
  f ← mget mp_flags rmp;
  when (negb (has f TRACED))
    (when (has (st_mode st0) I_SET_UID_BIT)
       (mset rmp (λ r, r <| mp_effuid := st_uid st0 |>);;
        r ← mget id rmp; tell_fs SETUID w (mp_realuid r) (mp_effuid r));;
     when (has (st_mode st0) I_SET_GID_BIT)
       (mset rmp (λ r, r <| mp_effgid := st_gid st0 |>);;
        r ← mget id rmp; tell_fs SETGID w (mp_realgid r) (mp_effgid r)));;
  mset rmp (λ r, r <| mp_procargs := vsp |>);;
  fold_m (λ _ sn, c ← mget mp_catch rmp;
    when (ismember c sn)
      (mset rmp (λ r, upd_act sn (λ a, a <| sa_handler := SIG_DFL |> <| sa_mask := 0 |>)
                        (r <| mp_catch := delset (mp_catch r) sn |>)))) tt (seqZ 1 NSIG);;
  mset rmp (λ r, r <| mp_flags := setf (clrf (mp_flags r) SEPARATE) (x_ft hdr) |>);;
  tell_fs EXEC w 0 0;;
  name ← gets (λ s, cstr (name_buf s));
  f ← mget mp_flags rmp;
  do_call (SysExec w vsp (Z.land f TRACED) (basename name name) pc);;
  mret OK.

(** A header that was not accepted. *)
Definition bad_exec (fd stk_bytes : Z) : PM Z :=
  lib_call (CloseFd fd);; mret (if ARG_MAX <? stk_bytes then ENOMEM else ENOEXEC).

Definition do_exec : PM Z :=
  i ← gets mm_in;
  w ← gets who;
  let stk_bytes := u32 (m2_i2 i) in
  let exec_len := m2_i1 i in
  if ARG_MAX <? stk_bytes then mret ENOMEM else
  if (exec_len <=? 0) || (PATH_MAX <? exec_len) then mret EINVAL else
  a ← do_call (CopyIn w (m2_l1 i) exec_len);
  let r := s16 (val a 0) in
  if negb (r =? OK) then mret r else
  modify (λ s, s <| name_buf := overwrite (Z.to_nat exec_len) (tail a) (name_buf s) |>);;
  a ← do_call (CopyIn w (m2_l2 i) stk_bytes);
  if negb (s16 (val a 0) =? OK) then mret EACCES else
  modify (λ s, s <| mbuf := overlay stk_bytes (tail a) (mbuf s) |>);;
  name ← gets (λ s, cstr (name_buf s));
  t ← try_exec name stk_bytes;
  match t with
  | inl e => mret e
  | inr (fd, st0, m, hdr) =>
      if negb (m =? ESCRIPT) then
        if m <? 0 then bad_exec fd stk_bytes else exec_image fd st0 st0 hdr stk_bytes
      else
        p ← patch_stack fd stk_bytes;
        let '(interp, stk_bytes) := p in
        match interp with
        | None => bad_exec fd stk_bytes
        | Some interp =>
            name ← gets (λ s, cstr (skipn interp (name_buf s)));
            t ← try_exec name stk_bytes;
            match t with
            | inl e => mret e
            | inr (fd, st, m, hdr) =>
                if m <? 0 then bad_exec fd stk_bytes else exec_image fd st0 st hdr stk_bytes
            end
        end
  end.
End exec.
