(* ===== verification/Mmain.v ===== *)
(** * The main loop of the memory manager

    mm/main.c with the call vector of mm/table.c. *)

From S2P Require Import Prelude Chain Alloc Sigset Proc Mproc Signal Mcalls Exec.

Definition SYSTASK : Z := -2.
Definition O_RDWR : Z := 2.

(** The signals that cause core dumps ([core_sigs] of [mm_init]). *)
Definition core_sigs : list Z := [3; 4; 5; 6; 7; 8; 10; 11; 12].

(** "/dev/mem" *)
Definition dev_mem : list Z := [47; 100; 101; 118; 47; 109; 101; 109].

Section main.
Context `{Servers}.

Definition call_vec (n : Z) : PM Z :=
  match n with
  | 1 => do_mm_exit | 2 => do_fork | 7 => do_waitpid | 11 => do_waitpid | 17 => do_brk
  | 20 => do_getset | 23 => do_getset | 24 => do_getset | 26 => do_trace | 27 => do_alarm
  | 29 => do_pause | 37 => do_kill | 46 => do_getset | 47 => do_getset | 48 => do_signal
  | 59 => do_exec | 62 => do_getset | 63 => do_getset | 64 => do_ksig
  | 71 => do_sigaction | 72 => do_sigsuspend | 73 => do_sigpending | 74 => do_sigprocmask
  | 75 => do_sigreturn | 76 => do_reboot
  | _ => no_sys
  end.

(** [get_work] with the message [m]. *)
Definition get_work (m : message) : PM unit :=
  modify (λ s, s <| mm_in := m |> <| who := m_source m |> <| mm_call := m_type m |>).

(** One iteration of the main loop, on the message [m]. *)
Definition mm_main (m : message) : PM unit :=
  get_work m;;
  modify (λ s, s <| mp := who s |> <| dont_reply := false |>);;
  c ← gets mm_call;
  error ← (if (c <? 0) || (NCALLS <=? c) then mret EBADCALL else call_vec c);
  d ← gets dont_reply;
  if (d : bool) then mret tt else
  c ← gets mm_call;
  if (c =? EXEC) && (error =? OK) then mret tt else
  w ← gets who;
  r2 ← gets result2;
  rp ← gets res_ptr;
  reply w error r2 rp.

(** [sys_getmap] *)
Definition sys_getmap (proc : Z) : PM (mem_map * mem_map * mem_map) :=
  a ← do_call (SysGetmap proc);
  mret (MemMap (u16 (val a 1)) (u16 (val a 2)) (u16 (val a 3)),
        MemMap (u16 (val a 4)) (u16 (val a 5)) (u16 (val a 6)),
        MemMap (u16 (val a 7)) (u16 (val a 8)) (u16 (val a 9))).

(** [mm_init]; [tot_mem_size] and [mem] are the kernel's variables, [mess] the
    message of FS.  The memory sizes that are printed are left out. *)
Definition mm_init (tot_mem_size : Z) (mem : list memory) (mess : message) : PM unit :=
  modify (λ s, s <| core_sset := foldl addset 0 core_sigs |>);;
  sys_getmap SYSTASK;;
  fold_m (λ _ proc_nr,
    mset proc_nr (λ r, r <| mp_flags := setf (mp_flags r) IN_USE |>);;
    g ← sys_getmap proc_nr;
    mset proc_nr (λ r, r <| mp_seg_T := g.1.1 |> <| mp_seg_D := g.1.2 |> <| mp_seg_S := g.2 |>);;
    t ← mget mp_seg_T proc_nr;
    when (negb (mem_len t =? 0)) (mset proc_nr (λ r, r <| mp_flags := setf (mp_flags r) SEPARATE |>)))
    tt (seqZ 0 (INIT_PROC_NR + 1));;
  mset INIT_PROC_NR (λ r, r <| mp_pid := INIT_PID |> <| mp_ignore := 0 |> <| mp_catch := 0 |>);;
  modify (λ s, s <| procs_in_use := LOW_USER + 1 |>);;
  on_holes (mem_init tot_mem_size 0 mem);;
  a ← do_call (Send FS_PROC_NR mess);
  when (negb (val a 0 =? OK)) (panic "MM can't sync up with FS" NO_NUM);;
  o ← lib_call (OpenFile dev_mem O_RDWR);
  let fd := s16 (val o 0) in
  when (negb (fd =? -1)) (do_call (IoctlPsinfo fd);; lib_call (CloseFd fd);; mret tt).
End main.
