(* ===== verification/Minv.v ===== *)
(** * The invariant of the memory manager's process table

    [mm_inv] says that [procs_in_use] counts the slots in use, that parents
    are in use, that only INIT has children after its exit, that no parent waits
    for a child that has exited, that process ids are unique, that the hole
    table is well formed, and that SIGKILL is never masked, ignored or caught.

    Most operations only touch fields that do not matter to it: they are
    [quiet], which is proved compositionally with the hint database [mm].  A
    quiet operation may end a WAITING state, which the invariant allows. *)

From S2P Require Import Prelude Chain Alloc Holewf Sigset Proc Mproc Signal.

(** The panics of MM.  The one of [sig_proc] (a signal sent to a dead process) is
    not among them. *)
Definition mm_panics (w : string) : Prop :=
  w ∈ ["Hole table full"; "MM can't reply"; "alarm er"; "MM hole list is inconsistent";
       "do_exec stack copy err"; "allowed: fstat failed"; "sys_abort"]%string.

Definition in_use (r : mproc) : bool := has (mp_flags r) IN_USE.
Definition hanging (r : mproc) : bool := has (mp_flags r) HANGING.
Definition waiting (r : mproc) : bool := has (mp_flags r) WAITING.

(** SIGKILL cannot be held off. *)
Definition kill_ok (r : mproc) : Prop :=
  Z.testbit (mp_sigmask r) SIGKILL = false ∧ Z.testbit (mp_ignore r) SIGKILL = false ∧
  Z.testbit (mp_catch r) SIGKILL = false ∧ ∀ sig, Z.testbit (sa_mask (mp_sigact r sig)) SIGKILL = false.

(** What a quiet operation may do to a table entry and to the state. *)
Record le_proc (r r' : mproc) : Prop := LeProc {
  le_in_use : in_use r' = in_use r;
  le_hanging : hanging r' = hanging r;
  le_waiting : waiting r' = true → waiting r = true;
  le_ids : mp_parent r' = mp_parent r ∧ mp_pid r' = mp_pid r ∧ mp_procgrp r' = mp_procgrp r ∧ mp_wpid r' = mp_wpid r;
  le_kill : kill_ok r → kill_ok r'
}.
Record le_mm (s s' : mmst) : Prop := LeMm {
  le_procs : ∀ i, le_proc (mproc_of s i) (mproc_of s' i);
  le_vars : procs_in_use s' = procs_in_use s ∧ mp s' = mp s ∧ who s' = who s ∧ mm_call s' = mm_call s ∧
            next_pid s' = next_pid s;
  le_holes : holes_wf (mem_holes s')
}.

Definition used (s : mmst) (i : Z) : bool := in_use (mproc_of s i).
Definition count_used (s : mmst) : Z := Z.of_nat (length (filter (λ i, used s i = true) all_slots)).

(** The children of [x] that are still to be disinherited are in [todo], the
    ones in [skip] may be exited children of a waiting parent. *)
Record mm_inv_but (x : option Z) (todo skip : Z → Prop) (s : mmst) : Prop := MmInv {
  inv_count : procs_in_use s = count_used s;
  inv_parent : ∀ i, in_table i = true → in_table (mp_parent (mproc_of s i)) = true ∧
    (used s i = true →
      (Some (mp_parent (mproc_of s i)) = x ∧ todo i) ∨
      (used s (mp_parent (mproc_of s i)) = true ∧
       (hanging (mproc_of s (mp_parent (mproc_of s i))) = true → mp_parent (mproc_of s i) = INIT_PROC_NR)));
  inv_wait : ∀ i, in_table i = true → ¬ skip i → used s i = true → hanging (mproc_of s i) = true →
    waiting (mproc_of s (mp_parent (mproc_of s i))) = true →
    right_child (mp_wpid (mproc_of s (mp_parent (mproc_of s i)))) (mproc_of s i) = false;
  inv_ids : ∀ i, in_table i = true → 0 ≤ mp_pid (mproc_of s i) ≤ 30000 ∧ 0 ≤ mp_procgrp (mproc_of s i) ≤ 30000;
  inv_unique : ∀ i j, INIT_PROC_NR ≤ i < NR_PROCS → INIT_PROC_NR ≤ j < NR_PROCS → used s i = true → used s j = true →
    mp_pid (mproc_of s i) = mp_pid (mproc_of s j) → i = j;
  inv_init : used s INIT_PROC_NR = true ∧ 0 ≤ mp_parent (mproc_of s INIT_PROC_NR) < INIT_PROC_NR;
  inv_servers : ∀ i, 0 ≤ i < INIT_PROC_NR → used s i = true ∧ hanging (mproc_of s i) = false ∧
    waiting (mproc_of s i) = false ∧ 0 ≤ mp_parent (mproc_of s i) < INIT_PROC_NR;
  inv_next : 1 ≤ next_pid s ≤ 30000;
  inv_kill : ∀ i, in_table i = true → kill_ok (mproc_of s i);
  inv_holes : holes_wf (mem_holes s)
}.
Definition mm_inv (s : mmst) : Prop := mm_inv_but None (λ _, False) (λ _, False) s.

(** What MM relies on to end the dump of a core image: the kernel refuses to
    trace beyond the process table entry, and FS writes all bytes or reports an
    error. *)
Class ServersOk `{Servers} : Prop := {
  trace_ends l slot off d : 4096 ≤ off → s16 (val (answer l (SysTrace 3 slot off d)) 0) ≠ OK;
  write_all l fd a n : 0 < n ≤ DUMP_SIZE → s16 (val (answer l (WriteFd fd a n)) 0) < 0 ∨ s16 (val (answer l (WriteFd fd a n)) 0) = n
}.

(** ** Quiet operations *)

Section quiet.
Context `{Servers}.

Definition quiet {A} (m : PM A) : Prop :=
  ∀ s, holes_wf (mem_holes s) → wpx mm_panics m (λ _ s', le_mm s s') s.
Definition quiet_upd (g : mproc → mproc) : Prop := ∀ r, le_proc r (g r).

Lemma le_proc_refl r : le_proc r r.
Proof. done. Qed.
Lemma le_proc_trans r1 r2 r3 : le_proc r1 r2 → le_proc r2 r3 → le_proc r1 r3.
Proof.
  intros [A1 A2 A3 (A4 & A5 & A6 & A7) A8] [B1 B2 B3 (B4 & B5 & B6 & B7) B8].
  split; [congruence|congruence|auto|split_and!; congruence|auto].
Qed.
Lemma le_mm_refl s : holes_wf (mem_holes s) → le_mm s s.
Proof. intros Hs. split; [intros i; apply le_proc_refl|done|done]. Qed.
Lemma le_mm_trans s1 s2 s3 : le_mm s1 s2 → le_mm s2 s3 → le_mm s1 s3.
Proof.
  intros [A1 (A2 & A3 & A4 & A5 & A6) A7] [B1 (B2 & B3 & B4 & B5 & B6) B7].
  split; [intros i; by eapply le_proc_trans|split_and!; congruence|done].
Qed.

Lemma quiet_bind {A B} (m : PM A) (k : A → PM B) : quiet m → (∀ a, quiet (k a)) → quiet (m ≫= k).
Proof.
  intros Hm Hk s Hs. apply wpx_bind. eapply wpx_mono; [by apply Hm|]. intros a s1 H1.
  eapply wpx_mono; [apply Hk, H1|]. intros b s2 H2. exact (le_mm_trans _ _ _ H1 H2).
Qed.
Lemma quiet_ret {A} (a : A) : quiet (mret a).
Proof. intros s Hs. by apply wpx_ret, le_mm_refl. Qed.
Lemma quiet_gets {A} (f : mmst → A) : quiet (gets f).
Proof. intros s Hs. by apply wpx_gets, le_mm_refl. Qed.
Lemma quiet_panic {A} w n : mm_panics w → quiet (@panic _ A w n).
Proof. intros Hw s Hs. by apply wpx_panic. Qed.
Lemma quiet_modify (f : mmst → mmst) :
  (∀ s, mproc_of (f s) = mproc_of s ∧ procs_in_use (f s) = procs_in_use s ∧ mp (f s) = mp s ∧ who (f s) = who s ∧
        mm_call (f s) = mm_call s ∧ next_pid (f s) = next_pid s ∧ mem_holes (f s) = mem_holes s) → quiet (modify f).
Proof.
  intros Hf s Hs. apply wpx_modify. destruct (Hf s) as (E1 & E2 & E3 & E4 & E5 & E6 & E7).
  split; [intros i; by rewrite E1|done|by rewrite E7].
Qed.
Lemma quiet_when b (m : PM unit) : quiet m → quiet (when b m).
Proof. destruct b; [done|]. intros _. apply quiet_ret. Qed.
Lemma quiet_if {A} (b : bool) (m1 m2 : PM A) : quiet m1 → quiet m2 → quiet (if b then m1 else m2).
Proof. by destruct b. Qed.
Lemma quiet_mget {A} (f : mproc → A) i : in_table i = true → quiet (mget f i).
Proof. intros Hi. unfold mget. rewrite Hi. apply quiet_gets. Qed.
Lemma quiet_mset i g : in_table i = true → quiet_upd g → quiet (mset i g).
Proof.
  intros Hi Hg s Hs. unfold mset. rewrite Hi. apply wpx_modify. split; cbn; [|done..].
  intros j. destruct (decide (j = i)) as [->|]; [rewrite fn_lookup_insert; apply Hg|].
  by rewrite fn_lookup_insert_ne.
Qed.
Lemma quiet_call c : quiet (do_call c).
Proof. intros s Hs. by split. Qed.
Lemma quiet_lib c : quiet (lib_call c).
Proof.
  unfold lib_call. apply quiet_bind; [apply quiet_call|]. intros a. apply quiet_bind; [|intros _; apply quiet_ret].
  by apply quiet_when, quiet_modify.
Qed.
Lemma quiet_fold {A} (f : A → Z → PM A) l a : (∀ a x, x ∈ l → quiet (f a x)) → quiet (fold_m f a l).
Proof.
  revert a. induction l as [|x l IH]; intros a Hf; cbn [fold_m]; [apply quiet_ret|].
  apply quiet_bind; [apply Hf; left|]. intros a'. apply IH. intros ???. apply Hf. by right.
Qed.
Lemma quiet_for_each {R} (f : Z → PM (option R)) l : (∀ x, x ∈ l → quiet (f x)) → quiet (for_each l f).
Proof.
  induction l as [|x l IH]; intros Hf; cbn [for_each]; [apply quiet_ret|].
  apply quiet_bind; [apply Hf; left|]. intros [r|]; [apply quiet_ret|]. apply IH. intros ??. apply Hf. by right.
Qed.

(** A bounded loop whose body, quiet, decreases a measure of the loop variables. *)
Lemma quiet_loop {A R} (μ : A → nat) (I : A → Prop) fuel (body : A → PM (A + R)) a :
  (∀ a s, I a → holes_wf (mem_holes s) →
     wpx mm_panics (body a) (λ x s', le_mm s s' ∧ match x with inl a' => I a' ∧ (μ a' < μ a)%nat | inr _ => True end) s) →
  I a → (μ a < fuel)%nat → quiet (loop fuel body a).
Proof.
  intros Hb Ha Hf s Hs.
  apply (wpx_loop mm_panics (λ a s', I a ∧ le_mm s s') (λ a _, μ a)); [|split; [done|by apply le_mm_refl]|done].
  intros a1 s1 (HI & H1). eapply wpx_mono; [apply Hb; [done|apply H1]|]. intros [a2|r] s2; cbn.
  - intros (H2 & HI2 & Hlt). split; [|done]. split; [done|by eapply le_mm_trans].
  - intros (H2 & _). by eapply le_mm_trans.
Qed.
Lemma quiet_holes {A} (m : M holes A) :
  (∀ h, holes_wf h → wpx (λ w, w = "Hole table full"%string) m (λ _ h', holes_wf h') h) → quiet (on_holes m).
Proof.
  intros Hm s Hs. unfold wpx, on_holes. specialize (Hm _ Hs). unfold wpx in Hm.
  destruct (m (mem_holes s)) as [a h|w n| |]; cbn in Hm |- *; [|subst w; left|done..].
  by split.
Qed.
Lemma quiet_free b c : quiet (on_holes (free_mem b c)).
Proof. apply quiet_holes. intros h. apply free_mem_wf. Qed.
Lemma quiet_alloc c : quiet (on_holes (alloc_mem c)).
Proof. apply quiet_holes. intros h Hh. by apply wp_wpx, alloc_mem_wf. Qed.
Lemma quiet_max : quiet (on_holes max_hole).
Proof.
  apply quiet_holes. intros h Hh. apply wp_wpx. eapply wp_mono; [by apply max_hole_wf|]. by intros r s ->.
Qed.

(** ** Updates of a table entry *)
Lemma kill_add set sig : sig ≠ SIGKILL → Z.testbit set SIGKILL = false → Z.testbit (addset set sig) SIGKILL = false.
Proof.
  intros Hne Hs. unfold addset. destruct (decide (0 ≤ sig ≤ NSIG)) as [Hv|Hv].
  - rewrite sigaddset_testbit by (done || lia). by destruct (Z.eqb_spec SIGKILL sig).
  - unfold sigaddset. destruct (sigisvalid sig) eqn:E; [by apply sigisvalid_spec in E|done].
Qed.
Lemma kill_del set sig : Z.testbit set SIGKILL = false → Z.testbit (delset set sig) SIGKILL = false.
Proof.
  intros Hs. unfold delset. destruct (decide (0 ≤ sig ≤ NSIG)) as [Hv|Hv].
  - rewrite sigdelset_testbit by (done || lia). by rewrite Hs, andb_false_r.
  - unfold sigdelset. destruct (sigisvalid sig) eqn:E; [by apply sigisvalid_spec in E|done].
Qed.
Lemma kill_del_self set : Z.testbit (delset set SIGKILL) SIGKILL = false.
Proof. unfold delset. by rewrite sigdelset_testbit. Qed.
Lemma kill_lor a b : Z.testbit a SIGKILL = false → Z.testbit b SIGKILL = false → Z.testbit (Z.lor a b) SIGKILL = false.
Proof. intros Ha Hb. by rewrite Z.lor_spec, Ha, Hb. Qed.
Lemma kill_act (f : Z → sigaction) sig a :
  (∀ x, Z.testbit (sa_mask (f x)) SIGKILL = false) → Z.testbit (sa_mask a) SIGKILL = false →
  ∀ x, Z.testbit (sa_mask ((<[sig := a]> f) x)) SIGKILL = false.
Proof.
  intros Hf Ha x. destruct (decide (x = sig)) as [->|]; [by rewrite fn_lookup_insert|by rewrite fn_lookup_insert_ne].
Qed.
Lemma clr_waiting f : has (clrf f WAITING) WAITING = true → has f WAITING = true.
Proof. by rewrite has_clrf_same. Qed.
Lemma clr_waiting_other f m : Z.land m WAITING = 0 → has (clrf f m) WAITING = true → has f WAITING = true.
Proof. intros Hm. by rewrite has_clrf_other. Qed.
Lemma set_waiting_other f m : Z.land m WAITING = 0 → has (setf f m) WAITING = true → has f WAITING = true.
Proof. intros Hm. by rewrite has_setf_other. Qed.
End quiet.

#[export] Hint Resolve quiet_ret quiet_gets quiet_mget quiet_call quiet_lib quiet_free quiet_alloc quiet_max : mm.
#[export] Hint Resolve kill_add kill_del kill_del_self kill_lor kill_act clr_waiting clr_waiting_other set_waiting_other : mm.

(** An update of a table entry that does not matter to the invariant. *)
Ltac quiet_upd :=
  intros ?r; repeat match goal with |- context [if ?b then _ else _] => destruct b end;
  (split; unfold in_use, hanging, waiting; cbn;
  [first [reflexivity | apply has_clrf_other; reflexivity | apply has_setf_other; reflexivity]
  |first [reflexivity | apply has_clrf_other; reflexivity | apply has_setf_other; reflexivity]
  |first [exact id | apply clr_waiting | apply clr_waiting_other; reflexivity | apply set_waiting_other; reflexivity]
  |by split_and!
  |first [exact id | intros (? & ? & ? & ?); split_and!; cbn -[Z.testbit];
     first [solve [auto with mm] | apply kill_act; cbn -[Z.testbit]; auto with mm | idtac]]]).

(** Decompose a quiet operation. *)
Ltac quiet_step :=
  match goal with
  | |- quiet (mbind _ _) => apply quiet_bind; [|intros ?]
  | |- quiet (when _ _) => apply quiet_when
  | |- quiet (mset _ _) => apply quiet_mset; [try done|try quiet_upd]
  | |- quiet (modify _) => apply quiet_modify; by intros ?
  | |- quiet (if ?b then _ else _) => apply quiet_if
  | |- quiet (let _ := _ in _) => cbv zeta
  | |- quiet (panic _ _) => apply quiet_panic; unfold mm_panics; set_solver
  | |- quiet (fold_m _ _ _) => apply quiet_fold; intros ???
  | |- quiet (for_each _ _) => apply quiet_for_each; intros ??
  | |- quiet (match ?x with _ => _ end) => destruct x
  | |- quiet _ => solve [auto with mm nocore]
  end.
Ltac quiet_steps := repeat quiet_step.

Section ops.
Context `{Servers}.

Lemma quiet_tell what a b c : quiet (tell_fs what a b c).
Proof. unfold tell_fs. quiet_steps. Qed.
#[local] Hint Resolve quiet_tell : mm.

Lemma quiet_reply p a b c : in_table p = true → quiet (reply p a b c).
Proof. intros Hp. unfold reply. quiet_steps. Qed.
Lemma quiet_getsp p : quiet (sys_getsp p).
Proof. unfold sys_getsp. quiet_steps. Qed.
#[local] Hint Resolve quiet_reply quiet_getsp : mm.

Lemma quiet_adjust p d sp : in_table p = true → quiet (adjust p d sp).
Proof. intros Hp. unfold adjust. quiet_steps. Qed.
Lemma quiet_alarm p sec : in_table p = true → quiet (set_alarm p sec).
Proof. intros Hp. unfold set_alarm. quiet_steps. Qed.
Lemma quiet_unpause p : in_table p = true → quiet (unpause p).
Proof. intros Hp. unfold unpause. quiet_steps. Qed.

Lemma wpx_call c s Q :
  holes_wf (mem_holes s) → (∀ s', le_mm s s' → Q (answer (log s) c) s') → wpx mm_panics (do_call c) Q s.
Proof. intros Hs HQ. unfold wpx, do_call. by apply HQ. Qed.
Lemma wpx_lib c s Q :
  holes_wf (mem_holes s) → (∀ s', le_mm s s' → Q (answer (log s) c) s') → wpx mm_panics (lib_call c) Q s.
Proof.
  intros Hs HQ. unfold lib_call. apply wpx_bind, wpx_call; [done|]. intros s1 H1. apply wpx_bind.
  eapply wpx_mono; [apply quiet_when; [by apply quiet_modify|apply H1]|].
  intros [] s2 H2. apply wpx_ret, HQ. by eapply le_mm_trans.
Qed.

Context `{!ServersOk}.

Lemma quiet_dump_words slot fd : quiet (loop dump_fuel (dump_word slot fd) 0).
Proof.
  apply (quiet_loop (λ off, Z.to_nat (5000 - off)) (λ off, 0 ≤ off < 5000)); [|done|unfold dump_fuel; lia].
  intros off s Hoff Hs. unfold dump_word. apply wpx_bind, wpx_call; [done|]. intros s1 H1.
  destruct (Z.eqb_spec (s16 (val (answer (log s) (SysTrace 3 slot off 0)) 0)) OK) as [E|E]; [|by apply wpx_ret].
  destruct (decide (4096 ≤ off)) as [Hl|Hl]; [by apply (trace_ends (log s) slot off 0) in Hl|].
  apply wpx_bind, wpx_lib; [apply H1|]. intros s2 H2. destruct (negb _).
  - apply wpx_bind, wpx_lib; [apply H2|]. intros s3 H3. apply wpx_ret. split; [|done].
    do 2 (eapply le_mm_trans; [done|]). done.
  - apply wpx_ret. unfold LONG_BYTES. split; [by eapply le_mm_trans|lia].
Qed.

Lemma quiet_dump_parts fd fake buf rest : 0 ≤ rest < 2 ^ 32 → quiet (loop dump_fuel (dump_part fd fake) (buf, rest)).
Proof.
  intros Hrest.
  apply (quiet_loop (λ p, Z.to_nat ((p.2 + DUMP_SIZE - 1) / DUMP_SIZE)) (λ p, 0 ≤ p.2 < 2 ^ 32)); [|done|].
  2: { cbn [snd]. change DUMP_SIZE with 31744. unfold dump_fuel. apply Z2Nat.inj_lt; [|lia|].
       - apply Z.div_pos; lia.
       - apply Z.div_lt_upper_bound; lia. }
  intros [b r] s Hr Hs. cbn [snd] in Hr |- *. unfold dump_part. destruct (Z.eqb_spec r 0) as [->|Hne]; [by apply wpx_ret|].
  apply wpx_bind, wpx_lib; [done|]. intros s1 H1.
  assert (Hn : 0 < Z.min r DUMP_SIZE ≤ DUMP_SIZE) by (change DUMP_SIZE with 31744; lia).
  pose proof (write_all (log s) fake b _ Hn) as Hw.
  destruct (Z.ltb_spec (s16 (val (answer (log s) (WriteFd fake b (Z.min r DUMP_SIZE))) 0)) 0).
  - apply wpx_bind, wpx_lib; [apply H1|]. intros s2 Hx. apply wpx_ret. split; [exact (le_mm_trans _ _ _ H1 Hx)|done].
  - destruct Hw as [Hw|Hw]; [lia|]. rewrite Hw. apply wpx_ret. change DUMP_SIZE with 31744 in *.
    rewrite (u32_id (r - _)) by lia. cbn [snd]. split; [done|]. split; [lia|].
    apply Z2Nat.inj_lt; [apply Z.div_pos; lia..|].
    destruct (Z.min_spec r 31744) as [[Hlt ->]|[Hge ->]].
    + replace (r - r + 31744 - 1) with 31743 by lia. change (31743 / 31744) with 0. apply Z.div_str_pos. lia.
    + replace (r - 31744 + 31744 - 1) with (r + 31744 - 1 + (-1) * 31744) by lia. rewrite Z.div_add by done. lia.
Qed.

Lemma quiet_dump p : in_table p = true → quiet (dump_core p).
Proof.
  intros Hp. pose proof (quiet_adjust p) as Ha. unfold dump_core. quiet_steps; try by apply quiet_adjust.
  - apply quiet_dump_words.
  - apply quiet_dump_parts, u32_range.
Qed.
End ops.

#[export] Hint Resolve quiet_tell quiet_reply quiet_getsp quiet_adjust quiet_alarm quiet_unpause quiet_dump : mm.
