(* ===== verification/Mexit.v ===== *)
(** * Exit and signals keep the invariant of the memory manager

    The exit of a process, and with it the delivery of a signal, ends within
    its recursion bound and keeps [mm_inv]: the signals of an exit go to live
    processes, each of which exits at most once, so their number bounds the
    depth of the recursion. *)

From S2P Require Import Prelude Chain Alloc Holewf Sigset Proc Mproc Signal Minv.

Section inv.
Implicit Types (s : mmst).

Definition live s i : bool := used s i && negb (hanging (mproc_of s i)).

Lemma le_used s s' i : le_mm s s' → used s' i = used s i.
Proof. intros [Hp _ _]. apply (le_in_use _ _ (Hp i)). Qed.

Lemma le_count s s' : le_mm s s' → count_used s' = count_used s.
Proof. intros Hle. unfold count_used. do 2 f_equal. apply list_filter_iff. intros i. by rewrite (le_used s s'). Qed.

Lemma right_child_le w r r' : le_proc r r' → right_child w r' = right_child w r.
Proof. intros [_ _ _ (_ & Hp & Hg & _) _]. unfold right_child. by rewrite Hp, Hg. Qed.

Lemma inv_le x todo skip s s' : mm_inv_but x todo skip s → le_mm s s' → mm_inv_but x todo skip s'.
Proof.
  intros Hi Hle. pose proof Hle as [Hp (V1 & V2 & V3 & V4 & V5) Hh].
  assert (Hpar : ∀ i, mp_parent (mproc_of s' i) = mp_parent (mproc_of s i)) by (intros i; apply (Hp i)).
  assert (Hw : ∀ i, waiting (mproc_of s i) = false → waiting (mproc_of s' i) = false).
  { intros i E. apply not_true_is_false. intros E'. apply (le_waiting _ _ (Hp _)) in E'. congruence. }
  destruct Hi as [I1 I2 I3 I4 I5 (I6a & I6b) I6 I7 I8 I9]. split.
  - by rewrite V1, (le_count s s').
  - intros i Hi. rewrite Hpar, !(le_used s s'), (le_hanging _ _ (Hp _)) by done. by apply I2.
  - intros i Hi Hsk. rewrite Hpar, (le_used s s'), (le_hanging _ _ (Hp _)) by done. intros Hu Hg Hw'.
    rewrite (right_child_le _ _ _ (Hp i)). destruct (le_ids _ _ (Hp (mp_parent (mproc_of s i)))) as (_ & _ & _ & ->).
    apply I3; [done..|]. by apply (le_waiting _ _ (Hp _)).
  - intros i Hi. destruct (le_ids _ _ (Hp i)) as (_ & -> & -> & _). by apply I4.
  - intros i j Hi Hj. rewrite !(le_used s s') by done.
    destruct (le_ids _ _ (Hp i)) as (_ & -> & _), (le_ids _ _ (Hp j)) as (_ & -> & _). by apply I5.
  - by rewrite (le_used s s'), Hpar.
  - intros i Hi. rewrite (le_used s s'), Hpar, (le_hanging _ _ (Hp _)) by done.
    destruct (I6 i Hi) as (? & ? & ? & ?). split_and!; auto; lia.
  - by rewrite V5.
  - intros i Hi. by apply (le_kill _ _ (Hp i)), I8.
  - done.
Qed.

(** ** Changes of the number of processes in use *)
Lemma filter_one (P Q : Z → Prop) `{∀ x, Decision (P x), ∀ x, Decision (Q x)} (i : Z) (l : list Z) :
  NoDup l → i ∈ l → P i → ¬ Q i → (∀ j, j ≠ i → (P j ↔ Q j)) → length (filter P l) = S (length (filter Q l)).
Proof.
  intros Hnd Hi HP HQ Hother. apply list_elem_of_split in Hi as (l1 & l2 & ->).
  apply NoDup_app in Hnd as (_ & Hd & [Hi2 _]%NoDup_cons).
  assert (E : ∀ l : list Z, i ∉ l → filter P l = filter Q l).
  { induction l as [|y l IH]; [done|]. intros Hl. apply not_elem_of_cons in Hl as [Hy Hl].
    rewrite !filter_cons, (IH Hl). destruct (decide (P y)), (decide (Q y)); naive_solver. }
  rewrite !filter_app, !filter_cons. destruct (decide (P i)); [|done]. destruct (decide (Q i)); [done|].
  rewrite !length_app. cbn. rewrite (E l1), (E l2); [lia|done|]. intros ?. eapply Hd; [done|left].
Qed.

Lemma slot_in i : in_table i = true ↔ i ∈ all_slots.
Proof. unfold in_table, all_slots, NR_PROCS. rewrite elem_of_seqZ. lia. Qed.
Lemma slots_NoDup : NoDup all_slots.
Proof. apply NoDup_seqZ. Qed.

(** The number of live processes. *)
Definition lives s : nat := length (filter (λ i, live s i = true) all_slots).

(** What an exit or a signal may change. *)
Record exit_frame s s' : Prop := ExitFrame {
  ef_live : ∀ i, live s' i = true → live s i = true;
  ef_used : ∀ i, used s' i = true → used s i = true;
  ef_ids : ∀ i, mp_pid (mproc_of s' i) = mp_pid (mproc_of s i) ∧ mp_procgrp (mproc_of s' i) = mp_procgrp (mproc_of s i);
  ef_vars : mp s' = mp s ∧ who s' = who s ∧ mm_call s' = mm_call s ∧ next_pid s' = next_pid s
}.
Lemma ef_refl s : exit_frame s s.
Proof. by split. Qed.
Lemma ef_trans s1 s2 s3 : exit_frame s1 s2 → exit_frame s2 s3 → exit_frame s1 s3.
Proof.
  intros [A1 A2 A3 (A4 & A5 & A6 & A7)] [B1 B2 B3 (B4 & B5 & B6 & B7)]. split; [auto|auto| |split_and!; congruence].
  intros i. destruct (A3 i), (B3 i). split; congruence.
Qed.
Lemma le_live s s' i : le_mm s s' → live s' i = live s i.
Proof. intros Hle. unfold live. by rewrite (le_used s s'), (le_hanging _ _ (le_procs _ _ Hle i)). Qed.
Lemma le_ef s s' : le_mm s s' → exit_frame s s'.
Proof.
  intros Hle. split.
  - intros i. by rewrite (le_live s s').
  - intros i. by rewrite (le_used s s').
  - intros i. by destruct (le_ids _ _ (le_procs _ _ Hle i)) as (_ & ? & ? & _).
  - by destruct (le_vars _ _ Hle) as (_ & ? & ? & ? & ?).
Qed.
Lemma filter_le (P Q : Z → Prop) `{∀ x, Decision (P x), ∀ x, Decision (Q x)} (l : list Z) :
  (∀ x, P x → Q x) → (length (filter P l) ≤ length (filter Q l))%nat.
Proof.
  intros Himp. induction l as [|y l IH]; [done|]. rewrite !filter_cons.
  destruct (decide (P y)), (decide (Q y)); cbn; try lia. exfalso; auto.
Qed.
Lemma ef_lives s s' : exit_frame s s' → (lives s' ≤ lives s)%nat.
Proof. intros Hef. apply filter_le. apply Hef. Qed.
Lemma ef_lives_lt s s' c : exit_frame s s' → in_table c = true → live s c = true → live s' c = false →
  (lives s' < lives s)%nat.
Proof.
  intros Hef Hc Hl Hl'. unfold lives.
  assert (E : length (filter (λ i, live s i = true) all_slots) =
    S (length (filter (λ i, live s i = true ∧ i ≠ c) all_slots))).
  { apply (filter_one _ _ c); [apply slots_NoDup|by apply slot_in|done|tauto|]. intros j Hj. tauto. }
  rewrite E. apply Nat.lt_succ_r, filter_le. intros i Hi. split; [by apply Hef|]. by intros ->; congruence.
Qed.
Lemma lives_bound s : (lives s ≤ 64)%nat.
Proof.
  unfold lives. etrans; [apply length_filter|]. unfold all_slots. rewrite length_seqZ. unfold NR_PROCS. lia.
Qed.
End inv.

(** Two states that differ in one entry of the table. *)
Lemma proc_set (f : Z → mproc) i r j : (<[i := r]> f) j = if decide (j = i) then r else f j.
Proof. destruct (decide (j = i)) as [->|]; [by rewrite fn_lookup_insert|by rewrite fn_lookup_insert_ne]. Qed.

Section exit.
Context `{SV : Servers, !ServersOk}.
Implicit Types (s : mmst).

Lemma wpx_mget {E} {A} (f : mproc → A) i (Q : A → mmst → Prop) s :
  in_table i = true → Q (f (mproc_of s i)) s → wpx E (mget f i) Q s.
Proof. intros Hi HQ. unfold mget. by rewrite Hi. Qed.
Lemma wpx_mset {E} i g (Q : unit → mmst → Prop) s :
  in_table i = true → Q tt (s <| mproc_of := <[i := g (mproc_of s i)]> (mproc_of s) |>) →
  wpx E (mset i g) Q s.
Proof. intros Hi HQ. unfold mset. by rewrite Hi. Qed.
Lemma wpx_quiet {A} (m : PM A) (Q : A → mmst → Prop) s :
  quiet m → holes_wf (mem_holes s) → (∀ a s', le_mm s s' → Q a s') → wpx mm_panics m Q s.
Proof. intros Hm Hs HQ. eapply wpx_mono; [by apply Hm|]. done. Qed.

Lemma wpx_row {E} i (Q : mproc → mmst → Prop) s :
  in_table i = true → Q (mproc_of s i) s → wpx E (mget id i) Q s.
Proof. apply (wpx_mget id). Qed.

(** Freeing the slot of an exited process. *)
Lemma free_slot_inv x todo skip s c :
  mm_inv_but x todo skip s → (∀ i, skip i → i = c) → INIT_PROC_NR < c < NR_PROCS → used s c = true →
  (∀ i, in_table i = true → used s i = true → mp_parent (mproc_of s i) = c → Some c = x ∧ todo i) →
  let s' := s <| mproc_of := <[c := (mproc_of s c) <| mp_flags := 0 |>]> (mproc_of s) |>
              <| procs_in_use := procs_in_use s - 1 |> in
  mm_inv_but x todo (λ _, False) s' ∧ exit_frame s s' ∧ live s' c = false ∧ used s' c = false.
Proof.
  intros [I1 I2 I3 I4 I5 (I6a & I6b) I6 I7 I8 I9] Hskip Hc Hu Hch s'.
  assert (Hct : in_table c = true) by (unfold in_table, INIT_PROC_NR in *; lia).
  assert (Hm : ∀ i, mproc_of s' i = if decide (i = c) then (mproc_of s c) <| mp_flags := 0 |> else mproc_of s i).
  { intros i. apply proc_set. }
  assert (Huc : used s' c = false) by (unfold used; rewrite Hm; by case_decide).
  assert (Hus : ∀ i, i ≠ c → used s' i = used s i) by (intros i Hi; unfold used; rewrite Hm; by case_decide).
  assert (Hpar : ∀ i, mp_parent (mproc_of s' i) = mp_parent (mproc_of s i)) by (intros i; rewrite Hm; by case_decide as E; [subst|]).
  assert (Hids : ∀ i, mp_pid (mproc_of s' i) = mp_pid (mproc_of s i) ∧ mp_procgrp (mproc_of s' i) = mp_procgrp (mproc_of s i)).
  { intros i. rewrite Hm. by case_decide as E; [subst|]. }
  assert (Hne : ∀ i, used s' i = true → i ≠ c) by (intros i Hi ->; congruence).
  assert (Hso : ∀ i, i ≠ c → mproc_of s' i = mproc_of s i) by (intros i Hi; rewrite Hm; by case_decide).
  split_and!; [split|split|unfold live; by rewrite Huc|done].
  - cbn. unfold count_used. rewrite I1. unfold count_used.
    rewrite (filter_one (λ i, used s i = true) (λ i, used s' i = true) c all_slots); [lia|apply slots_NoDup|by apply slot_in|done|congruence|].
    intros j Hj. by rewrite Hus.
  - intros i Hi. rewrite Hpar. destruct (I2 i Hi) as [Ht Hcase]. split; [done|]. intros Hui.
    pose proof (Hne i Hui) as Hic. rewrite Hus in Hui by done. destruct (Hcase Hui) as [?|[Hup Hh]]; [by left|].
    destruct (decide (mp_parent (mproc_of s i) = c)) as [E|E]; [left; rewrite E; by apply Hch|].
    right. by rewrite Hus, Hso by done.
  - intros i Hi _ Hui. pose proof (Hne i Hui) as Hic. rewrite Hus in Hui by done. rewrite (Hso i) by done.
    destruct (decide (mp_parent (mproc_of s i) = c)) as [E|E].
    + rewrite E, Hm. case_decide; [|done]. unfold waiting. cbn. by rewrite has_0.
    + rewrite (Hso _ E). apply I3; [done| |done]. by intros ?%Hskip.
  - intros i Hi. destruct (Hids i) as [-> ->]. by apply I4.
  - intros i j Hi Hj Hui Huj. destruct (Hids i) as [-> _], (Hids j) as [-> _].
    pose proof (Hne i Hui). pose proof (Hne j Huj). rewrite Hus in Hui, Huj by done. by apply I5.
  - rewrite Hus, Hpar by lia. done.
  - intros i Hi. rewrite Hus, Hso by lia. by apply I6.
  - done.
  - intros i Hi. rewrite Hm. case_decide; [|by apply I8]. apply (I8 c Hct).
  - done.
  - intros i Hl. unfold live in Hl |- *. apply andb_true_iff in Hl as [Hui Hh]. pose proof (Hne i Hui).
    rewrite Hus in Hui by done. rewrite Hso in Hh by done. by rewrite Hui, Hh.
  - intros i Hui. pose proof (Hne i Hui). by rewrite Hus in Hui.
  - done.
  - done.
Qed.

Lemma cleanup_run x todo skip s c :
  mm_inv_but x todo skip s → (∀ i, skip i → i = c) → INIT_PROC_NR < c < NR_PROCS → used s c = true →
  (∀ i, in_table i = true → used s i = true → mp_parent (mproc_of s i) = c → Some c = x ∧ todo i) →
  wpx mm_panics (cleanup c) (λ _ s', mm_inv_but x todo (λ _, False) s' ∧ exit_frame s s' ∧ live s' c = false ∧
    used s' c = false) s.
Proof.
  intros Hi Hskip Hc Hu Hch.
  assert (Hct : in_table c = true) by (unfold in_table, INIT_PROC_NR in *; lia).
  destruct (inv_parent _ _ _ _ Hi c Hct) as [Hpt _].
  unfold cleanup. apply wpx_bind, wpx_mget; [done|]. apply wpx_bind, wpx_quiet; [by apply quiet_reply|apply Hi|].
  intros _ s1 H1. apply wpx_bind, wpx_quiet; [apply quiet_mset; [done|quiet_upd]|apply H1|].
  intros _ s2 H2. pose proof (le_mm_trans _ _ _ H1 H2) as H12. pose proof (inv_le _ _ _ _ _ Hi H12) as Hi2.
  apply wpx_bind, wpx_mset; [done|]. apply wpx_modify.
  destruct (free_slot_inv _ _ _ s2 c Hi2 Hskip Hc) as (Hi3 & Hf3 & Hl3 & Hu3).
  - by rewrite (le_used s s2).
  - intros i Hit. rewrite (le_used s s2) by done. destruct (le_ids _ _ (le_procs _ _ H12 i)) as (-> & _). by apply Hch.
  - split_and!; try done. eapply ef_trans; [by apply le_ef|done].
Qed.

(** Giving a child of [c] to INIT. *)
Lemma reparent_inv c l s i :
  mm_inv_but (Some c) (λ j, j ∈ i :: l) (λ _, False) s → INIT_PROC_NR ≤ c < NR_PROCS →
  in_table i = true → mp_parent (mproc_of s i) = c →
  let s' := s <| mproc_of := <[i := (mproc_of s i) <| mp_parent := INIT_PROC_NR |>]> (mproc_of s) |> in
  mm_inv_but (Some c) (λ j, j ∈ l) (λ j, j = i) s' ∧ exit_frame s s' ∧
  (∀ j, live s' j = live s j ∧ used s' j = used s j) ∧ hanging (mproc_of s' i) = hanging (mproc_of s i) ∧
  mp_parent (mproc_of s' i) = INIT_PROC_NR.
Proof.
  intros [I1 I2 I3 I4 I5 (I6a & I6b) I6 I7 I8 I9] Hc Hi Hp s'.
  assert (Hm : ∀ j, mproc_of s' j = if decide (j = i) then (mproc_of s i) <| mp_parent := INIT_PROC_NR |> else mproc_of s j).
  { intros j. apply proc_set. }
  assert (Hsame : ∀ j, used s' j = used s j ∧ hanging (mproc_of s' j) = hanging (mproc_of s j) ∧
    waiting (mproc_of s' j) = waiting (mproc_of s j) ∧ mp_wpid (mproc_of s' j) = mp_wpid (mproc_of s j) ∧
    mp_pid (mproc_of s' j) = mp_pid (mproc_of s j) ∧ mp_procgrp (mproc_of s' j) = mp_procgrp (mproc_of s j) ∧
    (kill_ok (mproc_of s j) → kill_ok (mproc_of s' j))).
  { intros j. unfold used. rewrite Hm. by case_decide as E; [subst|]. }
  assert (Hpar : ∀ j, mp_parent (mproc_of s' j) = if decide (j = i) then INIT_PROC_NR else mp_parent (mproc_of s j)).
  { intros j. rewrite Hm. by case_decide. }
  assert (Hnot : i ≠ INIT_PROC_NR ∧ ¬ (0 ≤ i < INIT_PROC_NR)).
  { split; [intros ->; lia|]. intros Hs. destruct (I6 i Hs) as (_ & _ & _ & ?). lia. }
  assert (Hlive : ∀ j, live s' j = live s j ∧ used s' j = used s j).
  { intros j. destruct (Hsame j) as (E1 & E2 & _). unfold live. by rewrite E1, E2. }
  split_and!; [split|split|done|by apply Hsame|rewrite Hpar; by case_decide].
  - change (procs_in_use s') with (procs_in_use s). rewrite I1. unfold count_used. do 2 f_equal.
    apply list_filter_iff. intros j. by destruct (Hsame j) as (-> & _).
  - intros j Hj. rewrite Hpar. destruct (Hsame j) as (-> & _). case_decide as E.
    + split; [done|]. intros _. right. destruct (Hsame INIT_PROC_NR) as (-> & _). done.
    + destruct (I2 j Hj) as [Ht Hcase]. split; [done|]. intros Hu.
      destruct (Hsame (mp_parent (mproc_of s j))) as (-> & -> & _).
      destruct (Hcase Hu) as [[? Hin]|?]; [left|by right]. split; [done|].
      apply elem_of_cons in Hin as [?|?]; done.
  - intros j Hj Hsk. rewrite Hpar. case_decide; [done|]. destruct (Hsame j) as (-> & -> & _).
    destruct (Hsame (mp_parent (mproc_of s j))) as (_ & _ & -> & -> & _). intros Hu Hh Hw.
    rewrite Hm. case_decide; [done|]. apply I3; auto.
  - intros j Hj. destruct (Hsame j) as (_ & _ & _ & _ & -> & -> & _). by apply I4.
  - intros j k Hj Hk. destruct (Hsame j) as (-> & _ & _ & _ & -> & _), (Hsame k) as (-> & _ & _ & _ & -> & _). by apply I5.
  - rewrite Hpar. case_decide; [by destruct Hnot; subst|]. by destruct (Hsame INIT_PROC_NR) as (-> & _).
  - intros j Hj. rewrite Hpar. case_decide; [by destruct Hnot; subst|].
    destruct (Hsame j) as (-> & -> & -> & _). by apply I6.
  - done.
  - intros j Hj. by apply (Hsame j), I8.
  - done.
  - intros j. by destruct (Hlive j) as [-> _].
  - intros j. by destruct (Hsame j) as (-> & _).
  - intros j. by destruct (Hsame j) as (_ & _ & _ & _ & ? & ? & _).
  - done.
Qed.

Lemma inv_weaken x x' (todo todo' skip skip' : Z → Prop) s :
  mm_inv_but x todo skip s →
  (∀ i, in_table i = true → used s i = true → Some (mp_parent (mproc_of s i)) = x → todo i →
     (Some (mp_parent (mproc_of s i)) = x' ∧ todo' i) ∨
     (used s (mp_parent (mproc_of s i)) = true ∧
       (hanging (mproc_of s (mp_parent (mproc_of s i))) = true → mp_parent (mproc_of s i) = INIT_PROC_NR))) →
  (∀ i, in_table i = true → skip i → ¬ skip' i → used s i = true → hanging (mproc_of s i) = true →
    waiting (mproc_of s (mp_parent (mproc_of s i))) = true →
    right_child (mp_wpid (mproc_of s (mp_parent (mproc_of s i)))) (mproc_of s i) = false) →
  (∀ i, skip i ∨ ¬ skip i) → mm_inv_but x' todo' skip' s.
Proof.
  intros [I1 I2 I3 I4 I5 I6a I6 I7 I8 I9] Hp Hw Hdec. split; try done.
  - intros i Hi. destruct (I2 i Hi) as [Ht Hcase]. split; [done|]. intros Hu.
    destruct (Hcase Hu) as [[? ?]|?]; [by apply Hp|by right].
  - intros i Hi Hs Hu Hh Hww. destruct (Hdec i); [by apply Hw|by apply I3].
Qed.

Lemma disinherit_run c i l s :
  mm_inv_but (Some c) (λ j, j ∈ i :: l) (λ _, False) s → INIT_PROC_NR ≤ c < NR_PROCS → in_table i = true →
  live s c = false → NoDup (i :: l) →
  wpx mm_panics (disinherit c i) (λ _ s', mm_inv_but (Some c) (λ j, j ∈ l) (λ _, False) s' ∧ exit_frame s s') s.
Proof.
  intros Hi Hc Hit Hlc Hnd. unfold disinherit. apply wpx_bind, wpx_row; [done|]. apply wpx_when.
  - intros [Hu Hp%Z.eqb_eq]%andb_true_iff.
    destruct (reparent_inv c l s i Hi Hc Hit Hp) as (Hi1 & Hf1 & Hl1 & Hh1 & Hp1).
    assert (Hn : INIT_PROC_NR < i < NR_PROCS).
    { assert (Hn : i ≠ INIT_PROC_NR ∧ ¬ (0 ≤ i < INIT_PROC_NR)).
      { split; [intros ->; destruct (inv_init _ _ _ _ Hi); lia|]. intros Hs.
        destruct (inv_servers _ _ _ _ Hi i Hs) as (_ & _ & _ & ?). lia. }
      unfold in_table, INIT_PROC_NR, NR_PROCS in *. lia. }
    assert (Hic : i ≠ c ∨ hanging (mproc_of s i) = true).
    { destruct (decide (i = c)) as [->|]; [right|by left]. unfold live, used, in_use in Hlc. rewrite Hu in Hlc. cbn in Hlc.
      by apply negb_false_iff in Hlc. }
    apply wpx_bind, wpx_mset; [done|]. cbv zeta in *.
    set (s1 := s <| mproc_of := _ |>) in *. clearbody s1. apply wpx_bind, wpx_mget; [done|]. apply wpx_when.
    + intros [Hw Hh]%andb_true_iff. eapply wpx_mono; [apply (cleanup_run _ _ _ s1 i Hi1); [done..| |]|].
      * destruct (Hl1 i) as [_ ->]. exact Hu.
      * intros j Hj Huj Hpj. destruct (inv_parent _ _ _ _ Hi1 j Hj) as [_ Hcase]. rewrite Hpj in Hcase.
        destruct (Hcase Huj) as [?|[_ Hx]]; [done|]. rewrite Hh1 in Hx. specialize (Hx Hh). lia.
      * cbn beta. intros _ s' (Hi' & Hf' & _). split; [done|]. exact (ef_trans _ _ _ Hf1 Hf').
    + intros Hw. split; [|done]. eapply inv_weaken; [exact Hi1|tauto| |intros j; destruct (decide (j = i)); tauto].
      intros j Hj -> _ Huj Hhj. rewrite Hp1. intros Hwj. rewrite Hh1 in Hhj.
      unfold waiting in Hwj. unfold hanging in Hhj. by rewrite Hwj, Hhj in Hw.
  - intros Hno. split; [|by apply ef_refl]. eapply inv_weaken; [exact Hi|..|intros ?; right; tauto]; [|done].
    intros j Hj Huj [= Hpj] [->|?]%elem_of_cons; [|by left; rewrite Hpj].
    unfold used, in_use in Huj. rewrite Huj, Hpj, Z.eqb_refl in Hno. done.
Qed.

Lemma disinherit_all c s :
  mm_inv_but (Some c) (λ _, True) (λ _, False) s → INIT_PROC_NR ≤ c < NR_PROCS → live s c = false →
  wpx mm_panics (fold_m (λ _ i, disinherit c i) tt all_slots) (λ _ s', mm_inv s' ∧ exit_frame s s') s.
Proof.
  intros Hi Hc Hl.
  eapply wpx_mono; [apply (wpx_fold mm_panics (λ l _ s', (∀ i, i ∈ l → in_table i = true) ∧ NoDup l ∧
    mm_inv_but (Some c) (λ j, j ∈ l) (λ _, False) s' ∧ exit_frame s s'))|].
  - intros _ i l s1 (Hin & Hnd & Hi1 & Hf1). eapply wpx_mono; [apply (disinherit_run c i l s1 Hi1 Hc); try done|].
    + apply Hin. left.
    + apply not_true_is_false. intros E. apply (ef_live _ _ Hf1) in E. congruence.
    + intros _ s2 (Hi2 & Hf2). split_and!; [|by inversion_clear Hnd|done|by eapply ef_trans].
      intros j Hj. apply Hin. by right.
  - split_and!; [intros i; apply slot_in|apply slots_NoDup| |apply ef_refl].
    eapply inv_weaken; [exact Hi|..|intros ?; right; tauto]; [|done]. intros i Hit Hu Hp _. left. split; [done|by apply slot_in].
  - cbn beta. intros _ s' (_ & _ & Hi' & Hf'). split; [|done].
    eapply inv_weaken; [exact Hi'|..|intros ?; right; tauto]; [|done]. intros i _ _ _ Hin. by apply elem_of_nil in Hin.
Qed.

(** ** Exit and signals *)

(** [ex] ends the live process [c], when at most [n] processes live. *)
Definition exit_ok (n : nat) (ex : Z → Z → PM unit) : Prop :=
  ∀ s c st, mm_inv s → in_table (mp s) = true → INIT_PROC_NR ≤ c < NR_PROCS → live s c = true → (lives s ≤ n)%nat →
    wpx mm_panics (ex c st) (λ _ s', mm_inv s' ∧ exit_frame s s' ∧ live s' c = false) s.

Lemma quiet_stop p signo s : mm_inv s → in_table p = true →
  wpx mm_panics (stop_proc p signo) (λ _ s', le_mm s s') s.
Proof.
  intros Hi Hp. unfold stop_proc. destruct (inv_parent _ _ _ _ Hi p Hp) as [Hpt _].
  apply wpx_bind, wpx_call; [apply Hi|]. intros s1 H1. destruct (negb _); [by apply wpx_ret|].
  apply wpx_bind, wpx_quiet; [apply quiet_mset; [done|quiet_upd]|apply H1|]. intros _ s2 H2.
  pose proof (le_mm_trans _ _ _ H1 H2) as H12. destruct (le_ids _ _ (le_procs _ _ H12 p)) as (Ep & _).
  apply wpx_bind, wpx_mget; [done|]. rewrite Ep.
  apply (wpx_quiet _ (λ _ s', le_mm s s')).
  - quiet_steps.
  - apply H12.
  - intros _ s3 H3. exact (le_mm_trans _ _ _ H12 H3).
Qed.

Section signal.
Variables (n : nat) (ex : Z → Z → PM unit).
Hypothesis Hex : exit_ok n ex.

(** The outcome of a signal or exit from [s]. *)
Definition sig_post s (s' : mmst) : Prop := mm_inv s' ∧ exit_frame s s'.

Lemma sig_post_le s s1 s2 : le_mm s s1 → sig_post s1 s2 → sig_post s s2.
Proof. intros Hle [Hi Hf]. split; [done|]. eapply ef_trans; [by apply le_ef|done]. Qed.
Lemma sig_post_quiet s s' : mm_inv s → le_mm s s' → sig_post s s'.
Proof. intros Hi Hle. split; [by eapply inv_le|by apply le_ef]. Qed.

Lemma terminate_dead s p signo :
  mm_inv s → in_table (mp s) = true → INIT_PROC_NR ≤ p < NR_PROCS → live s p = true → (lives s ≤ n)%nat →
  wpx mm_panics (terminate ex p signo) (λ _ s', sig_post s s' ∧ live s' p = false) s.
Proof.
  intros Hi Hmp Hp Hl Hn. assert (Hpt : in_table p = true) by (unfold in_table, INIT_PROC_NR in *; lia).
  unfold terminate. apply wpx_bind, wpx_quiet; [apply quiet_mset; [done|quiet_upd]|apply Hi|]. intros _ s1 H1.
  apply wpx_bind, wpx_gets. apply wpx_bind, wpx_quiet.
  { apply quiet_when. quiet_steps. } { apply H1. }
  intros _ s2 H2. pose proof (le_mm_trans _ _ _ H1 H2) as H12.
  destruct (le_vars _ _ H12) as (_ & Emp & _). pose proof (ef_lives _ _ (le_ef _ _ H12)).
  eapply wpx_mono; [apply Hex; [by eapply inv_le|by rewrite Emp|done|by rewrite (le_live s s2)|lia]|].
  cbn beta. intros _ s3 (Hi3 & Hf3 & Hl3). split; [split; [done|]|done]. eapply ef_trans; [by apply le_ef|done].
Qed.
Lemma terminate_run s p signo :
  mm_inv s → in_table (mp s) = true → INIT_PROC_NR ≤ p < NR_PROCS → live s p = true → (lives s ≤ n)%nat →
  wpx mm_panics (terminate ex p signo) (λ _ s', sig_post s s') s.
Proof. intros. eapply wpx_mono; [by apply terminate_dead|]. by intros _ s' [? _]. Qed.

Lemma sig_proc_run s p signo :
  mm_inv s → in_table (mp s) = true → INIT_PROC_NR ≤ p < NR_PROCS → live s p = true → (lives s ≤ n)%nat →
  1 ≤ signo ≤ NSIG → wpx mm_panics (sig_proc ex p signo) (λ _ s', sig_post s s') s.
Proof.
  intros Hi Hmp Hp Hl Hn Hsig. assert (Hpt : in_table p = true) by (unfold in_table, INIT_PROC_NR in *; lia).
  pose proof Hl as [Hu Hh%negb_true_iff]%andb_true_iff. unfold used, in_use in Hu. unfold hanging in Hh.
  unfold sig_proc. apply wpx_bind, wpx_row; [done|]. rewrite Hu, Hh. cbn [negb].
  destruct (_ && _).
  { apply wpx_bind, wpx_quiet; [by apply quiet_unpause|apply Hi|]. intros _ s1 H1.
    eapply wpx_mono; [apply quiet_stop; [by eapply inv_le|done]|]. cbn beta. intros _ s2 H2.
    apply sig_post_quiet; [done|]. exact (le_mm_trans _ _ _ H1 H2). }
  destruct (ismember (mp_ignore _) _); [apply wpx_ret; by apply sig_post_quiet, le_mm_refl, Hi|].
  destruct (ismember (mp_sigmask _) _).
  { apply wpx_quiet; [apply quiet_mset; [done|quiet_upd]|apply Hi|]. intros _ s1 H1. by apply sig_post_quiet. }
  apply wpx_bind. unfold sigact_at. rewrite (proj2 (sigisvalid_spec signo)) by (unfold NSIG in *; lia).
  apply wpx_mget; [done|]. destruct (ismember (mp_catch _) signo) eqn:Ec; [|by apply terminate_run].
  assert (Hne : signo ≠ SIGKILL).
  { intros ->. destruct (inv_kill _ _ _ _ Hi p Hpt) as (_ & _ & Hk & _). unfold ismember in Ec.
    by rewrite sigismember_testbit, Hk in Ec. }
  apply wpx_bind, wpx_quiet; [apply quiet_getsp|apply Hi|]. intros sp s1 H1.
  apply wpx_bind, wpx_mget; [done|]. apply wpx_bind, wpx_quiet; [by apply quiet_adjust|apply H1|]. intros ok s2 H2.
  pose proof (le_mm_trans _ _ _ H1 H2) as H12. destruct (negb _).
  - pose proof (ef_lives _ _ (le_ef _ _ H12)). destruct (le_vars _ _ H12) as (_ & Emp & _).
    eapply wpx_mono; [apply terminate_run; [by eapply inv_le|by rewrite Emp|done|by rewrite (le_live s s2)|lia]|].
    cbn beta. intros _ s3 H3. by eapply sig_post_le.
  - apply (wpx_quiet _ (λ _ s', sig_post s s')).
    + quiet_steps.
    + apply H12.
    + intros _ s3 H3. apply sig_post_quiet; [done|]. exact (le_mm_trans _ _ _ H12 H3).
Qed.

Lemma check_loop_run s proc_id signo l count err :
  mm_inv s → in_table (mp s) = true → (∀ i, i ∈ l → INIT_PROC_NR ≤ i < NR_PROCS) → (lives s ≤ n)%nat →
  0 ≤ signo ≤ NSIG → wpx mm_panics (check_loop ex proc_id signo l count err) (λ _ s', sig_post s s') s.
Proof.
  revert s count err. induction l as [|i l IH]; intros s count err Hi Hmp Hin Hn Hsig; cbn [check_loop].
  { apply wpx_ret. apply sig_post_quiet, le_mm_refl, Hi. done. }
  assert (Hil : INIT_PROC_NR ≤ i < NR_PROCS) by (apply Hin; left).
  assert (Hit : in_table i = true) by (unfold in_table, INIT_PROC_NR in *; lia).
  assert (Hin' : ∀ j, j ∈ l → INIT_PROC_NR ≤ j < NR_PROCS) by (intros j ?; apply Hin; by right).
  apply wpx_bind, wpx_row; [done|].
  destruct (has (mp_flags _) IN_USE) eqn:Hu; cbn [negb]; [|by apply IH].
  destruct (_ && negb (signo =? 0)) eqn:Eh; [by apply IH|].
  apply wpx_bind, wpx_gets. apply wpx_bind, wpx_row; [done|].
  destruct (negb (selected _ _ _)); [by apply IH|]. destruct (negb (may_signal _ _)); [by apply IH|].
  destruct (Z.eqb_spec signo 0) as [->|Hs0]; [by apply IH|].
  assert (Hl : live s i = true).
  { unfold live, used, in_use, hanging. rewrite Hu. cbn in Eh |- *. rewrite andb_true_r in Eh. by rewrite Eh. }
  apply wpx_bind. eapply wpx_mono; [apply sig_proc_run; [done..|lia]|]. cbn beta. intros _ s1 [Hi1 Hf1].
  destruct (0 <? proc_id); [by apply wpx_ret|].
  eapply wpx_mono; [apply IH; [done| |done| |done]|].
  - destruct (ef_vars _ _ Hf1) as (-> & _). done.
  - pose proof (ef_lives _ _ Hf1). lia.
  - cbn beta. intros _ s2 [Hi2 Hf2]. split; [done|]. by eapply ef_trans.
Qed.

Lemma check_sig_run s proc_id signo :
  mm_inv s → in_table (mp s) = true → (lives s ≤ n)%nat →
  wpx mm_panics (check_sig_of ex proc_id signo) (λ _ s', sig_post s s') s.
Proof.
  intros Hi Hmp Hn. unfold check_sig_of. pose proof (le_mm_refl s (inv_holes _ _ _ _ Hi)) as Hr.
  destruct (_ || _) eqn:Es; [by apply wpx_ret, sig_post_quiet|]. apply orb_false_iff in Es as [Es1 Es2].
  apply Z.ltb_ge in Es1, Es2. destruct (_ && _); [by apply wpx_ret, sig_post_quiet|].
  apply wpx_bind. eapply wpx_mono; [apply check_loop_run; try done|].
  { intros i. rewrite elem_of_seqZ. unfold INIT_PROC_NR. lia. }
  cbn beta. intros ce s1 [Hi1 Hf1]. apply wpx_bind, wpx_gets.
  assert (Hmp1 : in_table (mp s1) = true) by (destruct (ef_vars _ _ Hf1) as (-> & _); done).
  apply (wpx_quiet _ (λ _ s', sig_post s s')).
  - quiet_steps.
  - apply Hi1.
  - intros _ s2 H2. split; [by eapply inv_le|]. eapply ef_trans; [done|by apply le_ef].
Qed.
End signal.

(** An exited process that its parent does not wait for. *)
Lemma hang_inv s c :
  mm_inv s → INIT_PROC_NR ≤ c < NR_PROCS →
  (waiting (mproc_of s (mp_parent (mproc_of s c))) = true →
   right_child (mp_wpid (mproc_of s (mp_parent (mproc_of s c)))) (mproc_of s c) = false) →
  let s' := s <| mproc_of := <[c := (mproc_of s c) <| mp_flags := setf (mp_flags (mproc_of s c)) HANGING |>]> (mproc_of s) |> in
  mm_inv_but (Some c) (λ _, True) (λ _, False) s' ∧ exit_frame s s' ∧ live s' c = false.
Proof.
  intros [I1 I2 I3 I4 I5 (I6a & I6b) I6 I7 I8 I9] Hc Hw s'.
  assert (Hm : ∀ j, mproc_of s' j = if decide (j = c) then (mproc_of s c) <| mp_flags := setf (mp_flags (mproc_of s c)) HANGING |>
                                    else mproc_of s j) by (intros j; apply proc_set).
  assert (Hsame : ∀ j, used s' j = used s j ∧ waiting (mproc_of s' j) = waiting (mproc_of s j) ∧
    mp_parent (mproc_of s' j) = mp_parent (mproc_of s j) ∧ mp_wpid (mproc_of s' j) = mp_wpid (mproc_of s j) ∧
    mp_pid (mproc_of s' j) = mp_pid (mproc_of s j) ∧ mp_procgrp (mproc_of s' j) = mp_procgrp (mproc_of s j) ∧
    (kill_ok (mproc_of s j) → kill_ok (mproc_of s' j))).
  { intros j. unfold used, in_use, waiting. rewrite Hm. case_decide as E; [subst|done]. cbn.
    by rewrite !has_setf_other. }
  assert (Hh : ∀ j, j ≠ c → hanging (mproc_of s' j) = hanging (mproc_of s j)).
  { intros j Hj. rewrite Hm. by case_decide. }
  assert (Hhc : hanging (mproc_of s' c) = true).
  { unfold hanging. rewrite Hm. case_decide; [|done]. cbn. by apply has_setf_same. }
  split_and!; [split|split|unfold live; by rewrite Hhc, andb_false_r].
  - change (procs_in_use s') with (procs_in_use s). rewrite I1. unfold count_used. do 2 f_equal.
    apply list_filter_iff. intros j. by destruct (Hsame j) as (-> & _).
  - intros j Hj. destruct (Hsame j) as (-> & _ & -> & _). destruct (I2 j Hj) as [Ht Hcase]. split; [done|].
    intros Hu. destruct (decide (mp_parent (mproc_of s j) = c)) as [E|E]; [left; by rewrite E|right].
    rewrite Hh by done. destruct (Hsame (mp_parent (mproc_of s j))) as (-> & _).
    destruct (Hcase Hu) as [[? _]|?]; done.
  - intros j Hj _. destruct (Hsame j) as (-> & _ & -> & _ & Ep & Eg & _).
    destruct (Hsame (mp_parent (mproc_of s j))) as (_ & -> & _ & -> & _). intros Hu Hhj Hwj.
    unfold right_child. rewrite Ep, Eg. destruct (decide (j = c)) as [->|E]; [by apply Hw|].
    rewrite Hh in Hhj by done. apply I3; auto.
  - intros j Hj. destruct (Hsame j) as (_ & _ & _ & _ & -> & -> & _). by apply I4.
  - intros j k Hj Hk. destruct (Hsame j) as (-> & _ & _ & _ & -> & _), (Hsame k) as (-> & _ & _ & _ & -> & _). by apply I5.
  - by destruct (Hsame INIT_PROC_NR) as (-> & _ & -> & _).
  - intros j Hj. rewrite Hh by lia. destruct (Hsame j) as (-> & -> & -> & _). by apply I6.
  - done.
  - intros j Hj. by apply (Hsame j), I8.
  - done.
  - intros j. destruct (decide (j = c)) as [->|E]; [unfold live; by rewrite Hhc, andb_false_r|]. unfold live. rewrite Hh by done. by destruct (Hsame j) as (-> & _).
  - intros j. by destruct (Hsame j) as (-> & _).
  - intros j. by destruct (Hsame j) as (_ & _ & _ & _ & ? & ? & _).
  - done.
Qed.

Lemma lives_pos s c : in_table c = true → live s c = true → (0 < lives s)%nat.
Proof.
  intros Hc Hl. unfold lives. destruct (filter _ _) eqn:E; [|cbn; lia].
  assert (Hin : c ∈ filter (λ i, live s i = true) all_slots).
  { apply list_elem_of_filter. split; [done|by apply slot_in]. }
  rewrite E in Hin. by apply elem_of_nil in Hin.
Qed.

(** One exit, of a process in use, when exits of live processes are right for [n]
    live processes or fewer.  The process may have exited already, which ptrace
    can bring about: its memory is then released once more. *)
Lemma mm_exit_step n s c st : exit_ok n (mm_exit_ n) →
  mm_inv s → in_table (mp s) = true → INIT_PROC_NR ≤ c < NR_PROCS → used s c = true →
  (lives s ≤ if live s c then S n else n)%nat →
  wpx mm_panics (mm_exit_ (S n) c st) (λ _ s', mm_inv s' ∧ exit_frame s s' ∧ live s' c = false) s.
Proof.
  intros IH Hi Hmp Hc Hu Hn.
  assert (Hct : in_table c = true) by (unfold in_table, INIT_PROC_NR in *; lia).
  destruct (inv_parent _ _ _ _ Hi c Hct) as [Hpt _].
  cbn [mm_exit_]. apply wpx_bind, wpx_row; [done|]. apply wpx_bind, wpx_gets. apply wpx_bind, wpx_row; [done|].
  set (rmp := mproc_of s c) in *. set (procgrp := if _ =? _ then _ else 0). clearbody procgrp.
  apply wpx_bind, wpx_quiet; [apply quiet_when; quiet_steps; by apply quiet_alarm|apply Hi|]. intros _ s1 H1.
  apply wpx_bind, wpx_quiet; [quiet_steps|apply H1|]. intros _ s2 H2.
  apply wpx_bind, wpx_quiet; [quiet_steps|apply H2|]. intros x s3 H3.
  apply wpx_bind, wpx_quiet; [quiet_steps|apply H3|]. intros _ s4 H4.
  apply wpx_bind, wpx_quiet; [apply quiet_mset; [done|quiet_upd]|apply H4|]. intros _ s5 H5.
  pose proof (le_mm_trans _ _ _ (le_mm_trans _ _ _ (le_mm_trans _ _ _ (le_mm_trans _ _ _ H1 H2) H3) H4) H5) as Hle.
  clear H1 H2 H3 H4 H5 s1 s2 s3 s4. pose proof (inv_le _ _ _ _ _ Hi Hle) as Hi5.
  assert (Hu5 : used s5 c = true) by (by rewrite (le_used s s5)).
  destruct (le_ids _ _ (le_procs _ _ Hle c)) as (Ep & _). fold rmp in Ep.
  pose proof (right_child_le (mp_wpid (mproc_of s5 (mp_parent rmp))) _ _ (le_procs _ _ Hle c)) as Erc. fold rmp in Erc.
  apply wpx_bind, wpx_row; [done|]. apply wpx_bind.
  apply (wpx_mono mm_panics _ (λ _ s', mm_inv_but (Some c) (λ _, True) (λ _, False) s' ∧ exit_frame s5 s' ∧ live s' c = false)).
  - destruct (_ && _) eqn:E.
    + apply andb_true_iff in E as [Hw Hr]. eapply wpx_mono; [apply (cleanup_run (Some c) (λ _, True) (λ _, False) s5 c)|].
      * eapply inv_weaken; [exact Hi5|done|done|intros ?; right; tauto].
      * done.
      * destruct (decide (c = INIT_PROC_NR)) as [->|]; [|lia]. exfalso.
        destruct (inv_init _ _ _ _ Hi5) as [_ Hs]. rewrite Ep in Hs.
        destruct (inv_servers _ _ _ _ Hi5 _ Hs) as (_ & _ & Hs' & _). unfold waiting in Hs'. congruence.
      * done.
      * done.
      * cbn beta. tauto.
    + apply wpx_mset; [done|]. apply hang_inv; [done..|]. rewrite Ep, Erc. intros Hw. unfold waiting in Hw. by rewrite Hw in E.
  - cbn beta. intros _ s6 (Hi6 & Hf6 & Hl6). apply wpx_bind.
    eapply wpx_mono; [by apply disinherit_all|]. cbn beta. intros _ s7 [Hi7 Hf7].
    assert (Hf : exit_frame s s7).
    { eapply ef_trans; [by apply le_ef|]. by eapply ef_trans. }
    assert (Hl7 : live s7 c = false).
    { apply not_true_is_false. intros E. apply (ef_live _ _ Hf7) in E. congruence. }
    apply wpx_when; [|by intros _].
    intros _. apply wpx_bind. eapply wpx_mono; [apply (check_sig_run n (mm_exit_ n) IH s7)|].
    + done.
    + by destruct (ef_vars _ _ Hf) as (-> & _).
    + destruct (live s c) eqn:Hl; [pose proof (ef_lives_lt _ _ c Hf Hct Hl Hl7)|pose proof (ef_lives _ _ Hf)]; lia.
    + cbn beta. intros _ s8 [Hi8 Hf8]. apply wpx_ret. split_and!; [done|by eapply ef_trans|].
      apply not_true_is_false. intros E. apply (ef_live _ _ Hf8) in E. congruence.
Qed.

Lemma mm_exit_run fuel : exit_ok fuel (mm_exit_ fuel).
Proof.
  induction fuel as [|n IH]; intros s c st Hi Hmp Hc Hl Hn.
  - assert (Hct : in_table c = true) by (unfold in_table, INIT_PROC_NR in *; lia). pose proof (lives_pos s c Hct Hl). lia.
  - apply mm_exit_step; [done..|by apply andb_true_iff in Hl as [? _]|by rewrite Hl].
Qed.
End exit.
