(* ===== verification/Mfork.v ===== *)
(** * Fork: a free slot and a fresh process id

    [pid_step] tries one process id after the other.  Each of the at most 128
    ids in use is met once, so the search ends; the id found is neither a
    process id nor a process group of any table entry. *)

From S2P Require Import Prelude Chain Alloc Holewf Sigset Proc Mproc Signal Mcalls Minv Mexit.

Section fork.
Context `{SV : Servers}.
Implicit Types (s : mmst).

(** The [t]-th id tried after [n]. *)
Definition nth_pid (n t : Z) : Z := 2 + (n - 2 + t) mod 29999.

Lemma nth_pid_range n t : 2 ≤ nth_pid n t ≤ 30000.
Proof. unfold nth_pid. pose proof (Z.mod_pos_bound (n - 2 + t) 29999). lia. Qed.

Lemma next_pid_step n : 1 ≤ n ≤ 30000 → (if n <? 30000 then n + 1 else INIT_PID + 1) = nth_pid n 1.
Proof.
  intros Hn. unfold nth_pid, INIT_PID. destruct (Z.ltb_spec n 30000).
  - rewrite Z.mod_small; lia.
  - replace n with 30000 by lia. reflexivity.
Qed.

Lemma nth_pid_add n t : nth_pid (nth_pid n t) 1 = nth_pid n (t + 1).
Proof.
  unfold nth_pid. replace (2 + (n - 2 + t) mod 29999 - 2 + 1) with ((n - 2 + t) mod 29999 + 1) by lia.
  rewrite Zplus_mod_idemp_l. do 2 f_equal. lia.
Qed.

Lemma nth_pid_inj n t t' : 0 ≤ t < 29999 → 0 ≤ t' < 29999 → nth_pid n t = nth_pid n t' → t = t'.
Proof.
  unfold nth_pid. intros Ht Ht' E.
  assert (E' : (n - 2 + t) mod 29999 = (n - 2 + t') mod 29999) by lia.
  pose proof (Z.div_mod (n - 2 + t) 29999). pose proof (Z.div_mod (n - 2 + t') 29999).
  assert (D : (n - 2 + t) / 29999 = (n - 2 + t') / 29999 ∨ (n - 2 + t) / 29999 < (n - 2 + t') / 29999 ∨
    (n - 2 + t') / 29999 < (n - 2 + t) / 29999) by lia. nia.
Qed.

Lemma wp_row i (Q : mproc → mmst → Prop) s : in_table i = true → Q (mproc_of s i) s → wp (mget id i) Q s.
Proof. intros Hi HQ. unfold mget. by rewrite Hi. Qed.
Lemma wp_mget {A} (f : mproc → A) i (Q : A → mmst → Prop) s : in_table i = true → Q (f (mproc_of s i)) s → wp (mget f i) Q s.
Proof. intros Hi HQ. unfold mget. by rewrite Hi. Qed.
Lemma wp_mset i g (Q : unit → mmst → Prop) s :
  in_table i = true → Q tt (s <| mproc_of := <[i := g (mproc_of s i)]> (mproc_of s) |>) → wp (mset i g) Q s.
Proof. intros Hi HQ. unfold mset. by rewrite Hi. Qed.

(** The first unused slot. *)
Lemma free_slot_run s : count_used s ≠ NR_PROCS →
  wp free_slot (λ k s', s' = s ∧ in_table k = true ∧ used s k = false) s.
Proof.
  intros Hc. unfold free_slot. apply wp_bind.
  apply (wp_for_each_first _ _ (λ i, negb (used s i))).
  - intros i Hi Hu. apply slot_in in Hi. unfold mbind, M_bind, mget. rewrite Hi. cbn.
    apply negb_false_iff in Hu. unfold used, in_use in Hu. by rewrite Hu.
  - intros l1 i l2 E _ Hu. assert (Hi : in_table i = true).
    { apply slot_in. rewrite E. apply elem_of_app. right. left. }
    apply wp_bind, wp_mget; [done|]. apply wp_ret. apply negb_true_iff in Hu. pose proof Hu as Hu'.
    unfold used, in_use in Hu'. rewrite Hu'. split; [by eexists|]. by apply wp_ret.
  - intros Hall. exfalso. apply Hc. unfold count_used.
    assert (E : ∀ l : list Z, (∀ i, i ∈ l → negb (used s i) = false) → filter (λ i, used s i = true) l = l).
    { induction l as [|y l IH]; intros Hl; [done|]. rewrite filter_cons, IH by (intros; apply Hl; by right).
      assert (Hy : negb (used s y) = false) by (apply Hl; left). apply negb_false_iff in Hy. by rewrite decide_True. }
    rewrite E by done. unfold all_slots. rewrite length_seqZ. reflexivity.
Qed.

(** The ids that a new process must not get. *)
Definition taken s k : list Z :=
  map (λ i, mp_procgrp (mproc_of s i)) all_slots ++
  map (λ i, mp_pid (mproc_of s i)) (filter (λ i, i ≠ k) all_slots).

Lemma taken_length s k : (length (taken s k) ≤ 128)%nat.
Proof.
  unfold taken. rewrite length_app, !length_map. pose proof (length_filter (λ i, i ≠ k) all_slots).
  unfold all_slots in *. rewrite length_seqZ in *. unfold NR_PROCS in *. lia.
Qed.

(** The states met by the search: only [next_pid] and the pid of [k] differ. *)
Definition same_vars s s' : Prop :=
  procs_in_use s' = procs_in_use s ∧ mp s' = mp s ∧ who s' = who s ∧ mm_call s' = mm_call s ∧
  mem_holes s' = mem_holes s ∧ log s' = log s ∧ mm_in s' = mm_in s.
Record searching s k (n : Z) s' : Prop := Searching {
  se_next : next_pid s' = n;
  se_rows : ∀ i, mproc_of s' i = if decide (i = k) then (mproc_of s k) <| mp_pid := n |> else mproc_of s i;
  se_vars : same_vars s s'
}.

Lemma pid_step_run s k s1 n n0 :
  in_table k = true → searching s k n0 s1 ∨ s1 = s → n = (if next_pid s1 <? 30000 then next_pid s1 + 1 else INIT_PID + 1) →
  wp (pid_step k tt) (λ x s', searching s k n s' ∧
    match x with
    | inl _ => n ∈ taken s k ∨ mp_pid (mproc_of s1 k) = n
    | inr r => r = n ∧ n ∉ taken s k
    end) s1.
Proof.
  intros Hk Hs1 Hn. unfold pid_step. do 4 wp_step. cbn [next_pid]. rewrite <- Hn.
  set (s2 := s1 <| next_pid := n |>).
  assert (Hrows : ∀ i, mproc_of s2 i = mproc_of s1 i) by done.
  assert (Hids : ∀ i, mp_procgrp (mproc_of s1 i) = mp_procgrp (mproc_of s i) ∧
     (i ≠ k → mproc_of s1 i = mproc_of s i)).
  { intros i. destruct Hs1 as [[_ Hr _]| ->]; [|done]. rewrite Hr. case_decide as E; [subst|]; done. }
  assert (Hvars : same_vars s s2) by (destruct Hs1 as [[_ _ Hv]| ->]; done).
  set (bad := λ i, (mp_pid (mproc_of s1 i) =? n) || (mp_procgrp (mproc_of s1 i) =? n)).
  assert (Hend : ∀ x : unit + Z, match x with
    | inl _ => n ∈ taken s k ∨ mp_pid (mproc_of s1 k) = n
    | inr r => r = n ∧ n ∉ taken s k
    end → wp (mset k (λ r, r <| mp_pid := n |>);; mret x) (λ x s', searching s k n s' ∧ match x with
    | inl _ => n ∈ taken s k ∨ mp_pid (mproc_of s1 k) = n
    | inr r => r = n ∧ n ∉ taken s k
    end) s2).
  { intros x Hx. apply wp_bind, wp_mset; [done|]. apply wp_ret. split; [|done]. split; [done| |done].
    intros i. cbn. rewrite proc_set. case_decide as E; [|by apply Hids].
    destruct Hs1 as [[_ Hr _]| ->]; [|done]. rewrite Hr. by case_decide. }
  change (next_pid (s1 <| next_pid := n |>)) with n. wp_step. apply (wp_for_each_first _ _ bad).
  - intros i Hi Hb. apply slot_in in Hi. unfold mbind, M_bind, mget. rewrite Hi. unfold bad in Hb. cbn. unfold id. by rewrite Hb.
  - intros l1 i l2 E _ Hb. assert (Hi : in_table i = true).
    { apply slot_in. rewrite E. apply elem_of_app. right. left. }
    apply wp_bind, wp_row; [done|]. apply wp_ret. change (next_pid s2) with n.
    rewrite Hrows. unfold bad in Hb. rewrite Hb. split; [by eexists|].
    apply (Hend (inl tt)). apply orb_true_iff in Hb as [Hb%Z.eqb_eq|Hb%Z.eqb_eq].
    + destruct (decide (i = k)) as [->|Hik]; [by right|left]. unfold taken. apply elem_of_app. right.
      apply list_elem_of_In, in_map_iff. exists i. split; [by rewrite <- (proj2 (Hids i) Hik)|].
      apply list_elem_of_In, list_elem_of_filter. split; [done|by apply slot_in].
    + left. unfold taken. apply elem_of_app. left. apply list_elem_of_In, in_map_iff. exists i.
      split; [by rewrite <- (proj1 (Hids i))|]. by apply list_elem_of_In, slot_in.
  - intros Hall. apply (Hend (inr n)). split; [done|]. unfold taken. intros [Hin|Hin]%elem_of_app.
    + apply list_elem_of_In, in_map_iff in Hin as (i & Ei & Hi%list_elem_of_In). specialize (Hall i Hi).
      unfold bad in Hall. rewrite (proj1 (Hids i)), Ei, Z.eqb_refl, orb_true_r in Hall. done.
    + apply list_elem_of_In, in_map_iff in Hin as (i & Ei & Hi%list_elem_of_In).
      apply list_elem_of_filter in Hi as [Hik Hi]. specialize (Hall i Hi).
      unfold bad in Hall. rewrite (proj2 (Hids i) Hik), Ei, Z.eqb_refl in Hall. done.
Qed.

(** After [j] failures the first [j] ids tried are taken. *)
Lemma pid_loop s k j fuel s1 :
  in_table k = true → 1 ≤ next_pid s ≤ 30000 → mp_pid (mproc_of s k) ∈ taken s k →
  (if decide (j = 0) then s1 = s else searching s k (nth_pid (next_pid s) j) s1) → 0 ≤ j →
  (∀ t, 1 ≤ t ≤ j → nth_pid (next_pid s) t ∈ taken s k) → (Z.to_nat j + fuel = 200)%nat →
  wp (loop fuel (pid_step k) tt) (λ n s', searching s k n s' ∧ n ∉ taken s k ∧ 2 ≤ n ≤ 30000) s1.
Proof.
  revert j s1. induction fuel as [|fuel IH]; intros j s1 Hk Hn Hpk Hs1 Hj Htk Hf.
  { exfalso. assert (Hle : (length (map (nth_pid (next_pid s)) (seqZ 1 129)) ≤ length (taken s k))%nat).
    { apply submseteq_length, NoDup_submseteq.
      - apply NoDup_ListNoDup, NoDup_map_NoDup_ForallPairs; [|apply NoDup_ListNoDup, NoDup_seqZ].
        intros t t' Ht%list_elem_of_In Ht'%list_elem_of_In. rewrite elem_of_seqZ in *. apply nth_pid_inj; lia.
      - intros x Hx. apply list_elem_of_In, in_map_iff in Hx as (t & <- & Ht%list_elem_of_In).
        apply elem_of_seqZ in Ht. apply Htk. lia. }
    rewrite length_map, length_seqZ in Hle. pose proof (taken_length s k). lia. }
  rewrite loop_unfold. wp_step.
  set (n0 := nth_pid (next_pid s) j). set (n := nth_pid (next_pid s) (j + 1)).
  assert (Hs1' : searching s k n0 s1 ∨ s1 = s) by (case_decide; tauto).
  assert (Hnext : n = (if next_pid s1 <? 30000 then next_pid s1 + 1 else INIT_PID + 1)).
  { case_decide as E; [subst j; subst s1; unfold n; by rewrite next_pid_step|].
    destruct Hs1 as [-> _ _]. pose proof (nth_pid_range (next_pid s) j). rewrite next_pid_step by lia.
    by rewrite nth_pid_add. }
  eapply wp_mono; [by apply (pid_step_run s k s1 n n0)|]. cbn beta. intros [[]|r] s2 [Hse Hx].
  - apply (IH (j + 1)); try done; try lia.
    + destruct (decide (j + 1 = 0)) as [E|E]; [exfalso; lia|done].
    + intros t Ht. destruct (decide (t = j + 1)) as [->|]; [|apply Htk; lia].
      destruct Hx as [?|Hx]; [done|]. fold n. case_decide as E; [subst s1; by rewrite <- Hx|].
      exfalso. destruct Hs1 as [_ Hr _]. rewrite Hr in Hx. case_decide; [|done]. cbn in Hx.
      apply nth_pid_inj in Hx; lia.
  - apply wp_ret. destruct Hx as [-> Hx]. split_and!; [done|done|apply nth_pid_range..].
Qed.

(** The table with the child [c] in the slot [k]. *)
Lemma fork_inv s s' k w c :
  mm_inv s → in_table k = true → used s k = false → INIT_PROC_NR ≤ w < NR_PROCS → live s w = true →
  (∀ i, mproc_of s' i = if decide (i = k) then c else mproc_of s i) →
  procs_in_use s' = procs_in_use s + 1 → 1 ≤ next_pid s' ≤ 30000 → holes_wf (mem_holes s') →
  in_use c = true → hanging c = false → mp_parent c = w → mp_procgrp c = mp_procgrp (mproc_of s w) →
  1 ≤ mp_pid c ≤ 30000 → (∀ i, in_table i = true → i ≠ k → mp_pid (mproc_of s i) ≠ mp_pid c) → kill_ok c →
  mm_inv s' ∧ (∀ i, i ≠ k → mproc_of s' i = mproc_of s i).
Proof.
  intros [I1 I2 I3 I4 I5 (I6a & I6b) I6 I7 I8 I9] Hk Hku Hw Hl Hm Hcnt Hnext Hh Hcu Hch Hcp Hcg Hcr Hfresh Hck.
  assert (Hwt : in_table w = true) by (unfold in_table, INIT_PROC_NR in *; lia).
  pose proof Hl as [Hwu Hwh%negb_true_iff]%andb_true_iff.
  assert (Hso : ∀ i, i ≠ k → mproc_of s' i = mproc_of s i) by (intros i Hi; rewrite Hm; by case_decide).
  assert (Hrk : mproc_of s' k = c) by (rewrite Hm; by case_decide).
  assert (Hu : ∀ i, used s i = true → i ≠ k) by (intros i Hi ->; congruence).
  assert (Huo : ∀ i, i ≠ k → used s' i = used s i) by (intros i Hi; unfold used; by rewrite Hso).
  assert (Hkne : k ≠ INIT_PROC_NR ∧ ¬ (0 ≤ k < INIT_PROC_NR)).
  { split; [intros ->; congruence|]. intros Hs. destruct (I6 k Hs) as [? _]. congruence. }
  split; [split|done].
  - rewrite Hcnt, I1. unfold count_used.
    rewrite (filter_one (λ i, used s' i = true) (λ i, used s i = true) k all_slots); [lia|apply slots_NoDup|by apply slot_in| |congruence|].
    + unfold used. by rewrite Hrk.
    + intros j Hj. by rewrite Huo.
  - intros i Hi. destruct (decide (i = k)) as [->|Hik].
    + rewrite Hrk, Hcp. split; [done|]. intros _. right. rewrite Huo, Hso by by apply Hu. by rewrite Hwh.
    + rewrite Hso, Huo by done. destruct (I2 i Hi) as [Ht Hcase]. split; [done|]. intros Hui.
      destruct (Hcase Hui) as [[? []]|[Hpu Hph]]. right. rewrite Huo, Hso by by apply Hu. done.
  - intros i Hi Hs. destruct (decide (i = k)) as [->|Hik]; [rewrite Hrk; by rewrite Hch|].
    rewrite Hso, Huo by done. intros Hui. destruct (I2 i Hi) as [_ Hcase].
    destruct (Hcase Hui) as [[? []]|[Hpu _]]. rewrite Hso by by apply Hu. by apply I3.
  - intros i Hi. destruct (decide (i = k)) as [->|Hik]; [|by rewrite Hso by done; apply I4].
    rewrite Hrk, Hcg. split; [lia|]. by apply I4.
  - intros i j Hi Hj. assert (Hit : in_table i = true ∧ in_table j = true) by (unfold in_table, INIT_PROC_NR in *; lia).
    destruct (decide (i = k)) as [->|Hik], (decide (j = k)) as [->|Hjk]; [done|..].
    + rewrite Hrk, (Hso j Hjk). intros _ _ E. by destruct (Hfresh j (proj2 Hit) Hjk).
    + rewrite Hrk, (Hso i Hik). intros _ _ E. by destruct (Hfresh i (proj1 Hit) Hik).
    + rewrite !Hso, !Huo by done. by apply I5.
  - rewrite Huo, Hso by (destruct Hkne; congruence). done.
  - intros i Hi. assert (i ≠ k) by (intros ->; tauto). rewrite Huo, Hso by done. by apply I6.
  - done.
  - intros i Hi. destruct (decide (i = k)) as [->|Hik]; [by rewrite Hrk|]. rewrite Hso by done. by apply I8.
  - done.
Qed.

Lemma count_le s : count_used s ≤ NR_PROCS.
Proof.
  unfold count_used. pose proof (length_filter (λ i, used s i = true) all_slots) as Hl.
  unfold all_slots in *. rewrite length_seqZ in Hl. unfold NR_PROCS in *. lia.
Qed.

(** The result of a fork: an error that changes nothing that matters, or a new
    process with a fresh id, of which the kernel and FS are told. *)
Definition fork_post s (r : Z) (s' : mmst) : Prop :=
  (r < 0 ∧ le_mm s s') ∨
  ∃ k, in_table k = true ∧ used s k = false ∧ used s' k = true ∧ mp_pid (mproc_of s' k) = r ∧ 2 ≤ r ≤ 30000 ∧
    mp_parent (mproc_of s' k) = who s ∧
    (∀ i, in_table i = true → mp_pid (mproc_of s i) ≠ r ∨ i = k) ∧
    (∀ i, in_table i = true → mp_procgrp (mproc_of s i) ≠ r ∨ i = k) ∧
    (∀ i, i ≠ k → le_proc (mproc_of s i) (mproc_of s' i)) ∧ procs_in_use s' = procs_in_use s + 1.

Lemma do_fork_run s :
  mm_inv s → mp s = who s → INIT_PROC_NR ≤ who s < NR_PROCS → live s (who s) = true →
  wpx mm_panics do_fork (λ r s', mm_inv s' ∧ who s' = who s ∧ fork_post s r s') s.
Proof.
  intros Hi Hmp Hw Hl. assert (Hwt : in_table (who s) = true) by (unfold in_table, INIT_PROC_NR in *; lia).
  unfold do_fork. apply wpx_bind, wpx_gets. apply wpx_bind, wpx_gets. apply wpx_bind, wpx_gets.
  rewrite Hmp. apply wpx_bind, wpx_row; [done|]. set (w := who s) in *. set (r := mproc_of s w).
  assert (Hself : le_mm s s) by apply le_mm_refl, Hi.
  destruct (Z.eqb_spec (procs_in_use s) NR_PROCS) as [E|Efull]; [by apply wpx_ret; split_and!; [|done|left]|].
  destruct (_ && _); [by apply wpx_ret; split_and!; [|done|left]|].
  apply wpx_bind, wpx_quiet; [apply quiet_alloc|apply Hi|]. intros base sa Ha.
  pose proof (inv_le _ _ _ _ _ Hi Ha) as Hia. destruct (le_vars _ _ Ha) as (Va1 & Va2 & Va3 & Va4 & Va5).
  destruct (base =? NO_MEM); [by apply wpx_ret; split_and!; [|done|left]|].
  apply wpx_bind. apply (wpx_mono mm_panics _ (λ k s', s' = sa ∧ in_table k = true ∧ used sa k = false)).
  { apply wp_wpx, free_slot_run. rewrite <- (inv_count _ _ _ _ Hia). congruence. }
  intros k ? (-> & Hk & Hku). apply wpx_bind, wpx_modify. apply wpx_bind, wpx_mset; [done|]. apply wpx_bind, wpx_mset; [done|].
  set (child := r <| mp_parent := w |> <| mp_flags := clrf (mp_flags r) TRACED |> <| mp_exitstatus := 0 |> <| mp_sigstatus := 0 |>).
  match goal with |- wpx _ _ _ ?st => set (sb := st) end.
  assert (Hwk : w ≠ k) by (intros <-; pose proof (le_used _ _ w Ha) as Eu; apply andb_true_iff in Hl as [? _]; congruence).
  assert (Hb : ∀ i, mproc_of sb i = if decide (i = k) then child else mproc_of sa i).
  { intros i. unfold sb. cbn. rewrite !proc_set. case_decide; [|done]. by rewrite !decide_True by done. }
  assert (Hvb : procs_in_use sb = procs_in_use sa + 1 ∧ next_pid sb = next_pid sa ∧ who sb = who sa ∧ mem_holes sb = mem_holes sa) by done.
  clearbody sb. destruct Hvb as (Vb1 & Vb2 & Vb3 & Vb4).
  assert (Hnext : 1 ≤ next_pid sb ≤ 30000) by (rewrite Vb2; apply Hia).
  apply wpx_bind. eapply wpx_mono; [apply wp_wpx, (pid_loop sb k 0 pid_fuel sb Hk Hnext)|].
  { rewrite Hb, decide_True by done. unfold taken. apply elem_of_app. right. apply list_elem_of_In, in_map_iff.
    exists w. rewrite Hb, decide_False by done. destruct (le_ids _ _ (le_procs _ _ Ha w)) as (_ & Ep & _). split; [done|].
    apply list_elem_of_In, list_elem_of_filter. split; [done|by apply slot_in]. }
  { by rewrite decide_True. } { done. } { intros t ?. lia. } { done. }
  cbn beta. intros n sc ([Sn Sr (Sv1 & Sv2 & Sv3 & Sv4 & Sv5 & _)] & Hfresh & Hn).
  rewrite Hb, decide_True in Sr by done. set (c := child <| mp_pid := n |>) in *.
  assert (Hrows : ∀ i, mproc_of sc i = if decide (i = k) then c else mproc_of sa i).
  { intros i. rewrite Sr. case_decide; [done|]. rewrite Hb. by case_decide. }
  assert (Htk : ∀ i, in_table i = true → i ≠ k → mp_pid (mproc_of sa i) ≠ n ∧ mp_procgrp (mproc_of sa i) ≠ n).
  { intros i Hit Hik. split; intros E; apply Hfresh; unfold taken; apply elem_of_app.
    - right. apply list_elem_of_In, in_map_iff. exists i. rewrite Hb, decide_False by done. split; [done|].
      apply list_elem_of_In, list_elem_of_filter. split; [done|by apply slot_in].
    - left. apply list_elem_of_In, in_map_iff. exists i. rewrite Hb, decide_False by done. split; [done|].
      by apply list_elem_of_In, slot_in. }
  pose proof (le_procs _ _ Ha w) as [Lu Lh Lw (Lp & Li & Lg & Lwp) Lk]. fold r in Lu, Lh, Lw, Lp, Li, Lg, Lwp, Lk.
  pose proof Hl as [Hwu Hwh%negb_true_iff]%andb_true_iff. change (in_use r = true) in Hwu. change (hanging r = false) in Hwh.
  assert (Hflags : in_use c = true ∧ hanging c = false).
  { unfold in_use, hanging, c, child. cbn. by rewrite !has_clrf_other. }
  destruct (fork_inv sa sc k w c Hia Hk Hku Hw) as [Hic Hoc]; try done.
  { by rewrite (le_live s sa). } { congruence. } { rewrite Sn. lia. } { rewrite Sv5, Vb4. apply Hia. }
  { tauto. } { tauto. } { cbn. lia. } { intros i Hit Hik. cbn. by apply Htk. }
  { apply (inv_kill _ _ _ _ Hi w Hwt). }
  apply wpx_bind, wpx_quiet; [apply quiet_call|apply Hic|]. intros _ s1 H1.
  apply wpx_bind, wpx_quiet; [apply quiet_tell|apply H1|]. intros _ s2 H2.
  apply wpx_bind, wpx_quiet; [by apply quiet_reply|apply H2|]. intros _ s3 H3. apply wpx_ret.
  pose proof (le_mm_trans _ _ _ (le_mm_trans _ _ _ H1 H2) H3) as H123. clear H1 H2 H3.
  destruct (le_vars _ _ H123) as (V1 & V2 & V3 & V4 & V5).
  split; [by eapply inv_le|]. split; [unfold w; congruence|]. right. exists k.
  destruct (le_ids _ _ (le_procs _ _ H123 k)) as (P1 & P2 & _).
  rewrite (Hrows k), decide_True in P1, P2 by done.
  split_and!; try done.
  - by rewrite <- (le_used s sa).
  - rewrite (le_used sc s3) by done. unfold used. rewrite Hrows, decide_True by done. tauto.
  - lia.
  - lia.
  - intros i Hit. destruct (decide (i = k)) as [->|Hik]; [by right|left].
    destruct (le_ids _ _ (le_procs _ _ Ha i)) as (_ & <- & _). by apply Htk.
  - intros i Hit. destruct (decide (i = k)) as [->|Hik]; [by right|left].
    destruct (le_ids _ _ (le_procs _ _ Ha i)) as (_ & _ & <- & _). by apply Htk.
  - intros i Hik. eapply le_proc_trans; [apply Ha|]. rewrite <- (Hoc i Hik). apply H123.
  - congruence.
Qed.
End fork.
