(* ===== verification/Mexec.v ===== *)
(** * Execve keeps the invariant of the memory manager

    [do_exec] never leaves the stack image or the process table, ends within its
    bounds and changes nothing that [mm_inv] speaks of.  The one
    condition is that of [exec_ok]: the low half of the argv[0] pointer in the
    image of the caller, taken as a signed number, is not negative
    ([insert_arg_faults] shows the access that [insert_arg] makes without it).
    What is asked of FS is in [ExecOk]. *)

From S2P Require Import Prelude Chain Alloc Holewf Sigset Proc Mproc Signal Exec Minv Mexit.

(** The pointer argv[0] of a stack image. *)
Definition argv0 (img : image) : Z := be32 (img 4) (img 5) (img 6) (img 7).
Definition image_ok (img : image) : Prop := 0 ≤ s16 (argv0 img).

(** The stack image that a process hands to execve. *)
Definition exec_ok `{Servers} (s : mmst) (m : message) : Prop :=
  let stk_bytes := u32 (m2_i2 m) in
  let l := CopyIn (m_source m) (m2_l1 m) (m2_i1 m) :: log s in
  image_ok (overlay stk_bytes (tail (answer l (CopyIn (m_source m) (m2_l2 m) stk_bytes))) (mbuf s)).

(** What MM relies on to load a program.  FS reads no more bytes than it is asked
    for and regular files end: [chunks_left] bounds the buffers of [ARG_MAX]
    bytes that can still be read from a descriptor (a file has at most
    7 + 512 + 512 * 512 blocks of 1024 bytes), and the calls to the kernel that
    patch the program do not make the file longer. *)
Class ExecOk `{Servers} := {
  read_max l fd a n : 0 ≤ n → s16 (val (answer l (ReadFd fd a n)) 0) ≤ n;
  read_bytes l fd a n i : 0 ≤ val (answer l (ReadFd fd a n)) (S i) < 256;
  chunks_left : list call → Z → nat;
  chunks_max l fd : Z.of_nat (chunks_left l fd) ≤ 65666;
  chunks_read l fd : 1 ≤ s16 (val (answer l (ReadFd fd 0 ARG_MAX)) 0) →
    (chunks_left (ReadFd fd 0 ARG_MAX :: l) fd < chunks_left l fd)%nat;
  chunks_reloc l fd adr off : (chunks_left (RelocateLong adr off :: l) fd ≤ chunks_left l fd)%nat
}.

(** ** The stack image *)
Section image.
Implicit Types (img : image).

Definition calm {A} (m : IM A) : Prop := ∀ img, wp m (λ _ _, True) img.

Lemma wp_getb i (Q : Z → image → Prop) img : 0 ≤ i < ARG_MAX → Q (img i) img → wp (getb i) Q img.
Proof. intros Hi HQ. unfold getb, in_image. by rewrite (proj2 (Z.leb_le 0 i)), (proj2 (Z.ltb_lt i ARG_MAX)) by lia. Qed.
Lemma wp_setb i v (Q : unit → image → Prop) img : 0 ≤ i < ARG_MAX → Q tt (<[i := v]> img) → wp (setb i v) Q img.
Proof. intros Hi HQ. unfold setb, in_image. by rewrite (proj2 (Z.leb_le 0 i)), (proj2 (Z.ltb_lt i ARG_MAX)) by lia. Qed.

Lemma wp_getw i (Q : Z → image → Prop) img : 0 ≤ i → i + 4 ≤ ARG_MAX →
  Q (be32 (img i) (img (i + 1)) (img (i + 2)) (img (i + 3))) img → wp (getw i) Q img.
Proof. intros H0 H1 HQ. unfold getw. repeat (apply wp_bind, wp_getb; [lia|]). by apply wp_ret. Qed.
Lemma calm_bind {A B} (m : IM A) (k : A → IM B) : calm m → (∀ a, calm (k a)) → calm (m ≫= k).
Proof. intros Hm Hk img. apply wp_bind. eapply wp_mono; [apply Hm|]. intros a img' _. apply Hk. Qed.
Lemma calm_ret {A} (a : A) : calm (mret a).
Proof. intros img. by apply wp_ret. Qed.
Lemma calm_setb i v : 0 ≤ i < ARG_MAX → calm (setb i v).
Proof. intros Hi img. by apply wp_setb. Qed.
Lemma calm_getw i : 0 ≤ i → i + 4 ≤ ARG_MAX → calm (getw i).
Proof. intros H0 H1 img. by apply wp_getw. Qed.
Lemma calm_setw i v : 0 ≤ i → i + 4 ≤ ARG_MAX → calm (setw i v).
Proof. intros H0 H1. unfold setw. repeat (apply calm_bind; [apply calm_setb; lia|intros _]). apply calm_setb. lia. Qed.

(** The long written last is the long read. *)
Lemma be32_bytes v : 0 ≤ v < 2 ^ 32 →
  be32 (u8 (Z.shiftr v 24)) (u8 (Z.shiftr v 16)) (u8 (Z.shiftr v 8)) (u8 v) = v.
Proof. intros Hv. unfold be32, u8. rewrite !Z.shiftr_div_pow2 by lia. Z.to_euclidean_division_equations. lia. Qed.
Lemma setw_argv0 v img : 0 ≤ v < 2 ^ 32 → wp (setw PTRSIZE v) (λ _ img', argv0 img' = v) img.
Proof.
  intros Hv. unfold setw, PTRSIZE. repeat (apply wp_bind, wp_setb; [done|]). apply wp_setb; [done|].
  unfold argv0. cbn. rewrite !fn_lookup_insert, !fn_lookup_insert_ne, !fn_lookup_insert by done. by apply be32_bytes.
Qed.

Lemma calm_memmove dst src n : 0 ≤ n → (n = 0 ∨ 0 ≤ dst ∧ 0 ≤ src ∧ dst + n ≤ ARG_MAX ∧ src + n ≤ ARG_MAX) →
  calm (memmove dst src n).
Proof.
  intros Hn H img. unfold memmove. destruct (Z.eqb_spec n 0) as [|Hne]; [by apply wp_ret|]. destruct H as [|(? & ? & ? & ?)]; [done|].
  unfold in_image. replace (_ && _) with true by (unfold ARG_MAX in *; lia). by apply wp_modify.
Qed.
Lemma calm_store bytes i : 0 ≤ i → i + Z.of_nat (length bytes) ≤ ARG_MAX → calm (store i bytes).
Proof.
  revert i. induction bytes as [|b bytes IH]; intros i H0 H1; cbn [store]; [apply calm_ret|]. cbn [length] in H1.
  apply calm_bind; [apply calm_setb; lia|]. intros _. apply IH; lia.
Qed.
Lemma calm_strcpy i arg : 0 ≤ i → i + Z.of_nat (length arg) + 1 ≤ ARG_MAX → calm (strcpy i arg).
Proof. intros H0 H1. apply calm_store; [done|]. rewrite length_app. cbn. lia. Qed.

Lemma calm_patch base : calm (patch_ptr base).
Proof.
  intros img. unfold patch_ptr.
  apply (wp_loop (λ '(ap, _) _, 1 ≤ ap ≤ 1024) (λ '(ap, _) _, Z.to_nat (1024 - ap))); [|done|by apply Nat.ltb_lt].
  intros [ap flag] img1 Hap. unfold patch_step. destruct (flag <? 2); [|by apply wp_ret].
  change (ARG_MAX / PTRSIZE) with 1024. destruct (Z.leb_spec 1024 ap); [by apply wp_ret|].
  unfold PTRSIZE, ARG_MAX in *. apply wp_bind, wp_getw; [lia|unfold ARG_MAX; lia|]. destruct (negb _).
  - apply wp_bind. eapply wp_mono; [apply calm_setw; unfold ARG_MAX; lia|]. intros _ img2 _. apply wp_ret. lia.
  - apply wp_ret. lia.
Qed.

(** The search for the end of argv[0] stays below [old_bytes]. *)
Lemma skip_run old a0 offset img : 0 ≤ a0 ≤ old → old ≤ ARG_MAX →
  wp (loop skip_fuel (skip_step old) (a0, offset))
     (λ r _, ∀ a1 off, r = Some (a1, off) → a0 < a1 ≤ old ∧ off = offset - (a1 - a0)) img.
Proof.
  intros Ha Ho. apply (wp_loop (λ '(a1, off) _, a0 ≤ a1 ≤ old ∧ off = offset - (a1 - a0)) (λ '(a1, _) _, Z.to_nat (old - a1))).
  - intros [a1 off] img1 [H1 ->]. unfold skip_step. destruct (Z.eqb_spec a1 old); [by apply wp_ret|].
    apply wp_bind, wp_getb; [lia|]. destruct (negb _); apply wp_ret; [split; [split; lia|lia]|].
    intros ? ? [= <- <-]. split; lia.
  - split; lia.
  - unfold skip_fuel, ARG_MAX in *. lia.
Qed.

(** The new argument and the old ones fit in the image, or [insert_arg] fails. *)
Lemma insert_arg_run stk arg replace img : 0 ≤ stk ≤ ARG_MAX → (length arg ≤ 255)%nat → image_ok img →
  wp (insert_arg stk arg replace) (λ r img', r.1 = true → 0 ≤ r.2 ≤ ARG_MAX ∧ image_ok img') img.
Proof.
  intros Hs Ha Hok. unfold insert_arg. apply wp_bind, wp_getw; [done|done|].
  assert (Eold : s16 stk = stk) by (apply s16_id; unfold ARG_MAX in *; lia).
  unfold image_ok, argv0 in Hok. change (PTRSIZE + 1) with 5. change (PTRSIZE + 2) with 6. change (PTRSIZE + 3) with 7. change PTRSIZE with 4.
  set (w := be32 _ _ _ _) in *. assert (Hu : u16 (s16 w) = s16 w) by (apply u16_id; pose proof (Z.mod_pos_bound (w + 2 ^ 15) (2 ^ 16)); unfold s16 in *; lia).
  rewrite Eold, Hu. clearbody w. generalize dependent (s16 w). clear w. intros a0 _ Hok.
  destruct (_ || _) eqn:E0; [by apply wp_ret|]. apply orb_false_iff in E0 as [E1%Z.ltb_ge E2%Z.leb_gt].
  assert (Hrest : ∀ b a1 off img, 16 ≤ b ≤ a1 + 4 → 16 ≤ a1 ≤ stk → b + Z.of_nat (length arg) + 1 = a1 + off →
    wp (let stk_bytes := u32 (stk + off) in
        if ARG_MAX <? stk_bytes then mret (false, stk_bytes) else
        memmove (a1 + off) a1 (stk - a1);;
        strcpy b arg;;
        when (negb replace) (memmove (2 * 4) (1 * 4) (b - 2 * 4);; n ← getw 0; setw 0 (u32 (n + 1)));;
        patch_ptr (u32 off);; setw 4 (u32 b);; mret (true, stk_bytes))
      (λ r img', r.1 = true → 0 ≤ r.2 ≤ ARG_MAX ∧ image_ok img') img).
  { clear img. intros b a1 off img Hb Ha1 Hoff. cbv zeta. unfold ARG_MAX in Hs. rewrite (u32_id (stk + off)) by lia.
    destruct (Z.ltb_spec ARG_MAX (stk + off)) as [|Hle]; [by apply wp_ret|].
    apply wp_bind. eapply wp_mono; [apply calm_memmove; unfold ARG_MAX in *; lia|]. intros _ img1 _.
    apply wp_bind. eapply wp_mono; [apply calm_strcpy; unfold ARG_MAX in *; lia|]. intros _ img2 _.
    apply wp_bind. apply (wp_mono _ (λ _ _, True)).
    { apply wp_when; [|done]. intros _. unfold ARG_MAX in Hle.
      apply wp_bind. eapply wp_mono; [apply calm_memmove; unfold ARG_MAX; lia|]. intros _ img3 _.
      apply wp_bind, wp_getw; [done|done|]. by apply calm_setw. }
    intros _ img3 _. apply wp_bind. eapply wp_mono; [apply calm_patch|]. intros _ img4 _.
    apply wp_bind. eapply wp_mono; [apply setw_argv0, u32_range|]. cbn beta. intros _ img5 E5. apply wp_ret. intros _.
    cbn. split; [lia|]. unfold image_ok, ARG_MAX in *. rewrite E5, u32_id, s16_id by lia. lia. }
  cbv zeta. apply wp_bind. destruct replace.
  - apply wp_bind. eapply wp_mono; [apply skip_run; lia|]. cbn beta. intros [[a1 off]|] img1 Hr; apply wp_ret; [|by apply wp_ret].
    destruct (Hr _ _ eq_refl) as [Hr1 ->]. apply Hrest; lia.
  - apply wp_ret. apply Hrest; lia.
Qed.

(** Without the condition on argv[0] the search for its end, in the image of a
    script, starts below the image. *)
Lemma insert_arg_faults stk arg img : 0 ≤ stk ≤ ARG_MAX → s16 (argv0 img) < 0 → insert_arg stk arg true img = Fault.
Proof.
  intros Hs Hneg. unfold insert_arg. rewrite (bind_eq (getw PTRSIZE) _ img (argv0 img) img) by reflexivity.
  assert (Eold : s16 stk = stk) by (apply s16_id; unfold ARG_MAX in *; lia). rewrite Eold.
  assert (Hu : 2 ^ 15 ≤ u16 (s16 (argv0 img))).
  { pose proof (Z.mod_pos_bound (argv0 img + 2 ^ 15) (2 ^ 16)). unfold u16, s16 in *.
    rewrite <- (Z_mod_plus_full _ 1), Z.mod_small by lia. lia. }
  rewrite (proj2 (Z.ltb_ge _ _)) by (unfold PTRSIZE; lia). rewrite (proj2 (Z.leb_gt _ _)) by lia. cbn [orb]. cbv zeta.
  unfold mbind, M_bind, skip_fuel. rewrite loop_unfold. unfold mbind, M_bind, skip_step at 1.
  rewrite (proj2 (Z.eqb_neq _ _)) by lia. unfold mbind, M_bind, getb, in_image.
  by rewrite (proj2 (Z.leb_gt 0 _)) by lia.
Qed.
End image.

(** ** Steps of execve *)
Section steps.
Context `{SV : Servers}.
Implicit Types (s : mmst).

(** The state in which a process execs. *)
Definition execing s : Prop := holes_wf (mem_holes s) ∧ in_table (mp s) = true ∧ in_table (who s) = true.
Lemma execing_le s s' : execing s → le_mm s s' → execing s'.
Proof. intros (_ & Hm & Hw) Hle. destruct (le_vars _ _ Hle) as (_ & E1 & E2 & _). split_and!; [apply Hle|congruence..]. Qed.
Definition same_bufs s s' : Prop := mbuf s' = mbuf s ∧ name_buf s' = name_buf s.

(** A quiet part of execve, with a property of its result; with [b] it leaves the
    two buffers alone. *)
Definition doing (b : bool) {A} (m : PM A) (Q : A → Prop) : Prop :=
  ∀ s, execing s → wpx mm_panics m (λ a s', le_mm s s' ∧ (b = true → same_bufs s s') ∧ Q a) s.

Lemma doing_bind b {A B} (m : PM A) (k : A → PM B) Q R :
  doing b m Q → (∀ a, Q a → doing b (k a) R) → doing b (m ≫= k) R.
Proof.
  intros Hm Hk s Hs. apply wpx_bind. eapply wpx_mono; [by apply Hm|]. cbn beta. intros a s1 (H1 & B1 & HQ).
  eapply wpx_mono; [apply Hk; [done|by eapply execing_le]|]. cbn beta. intros c s2 (H2 & B2 & HR).
  split_and!; [by eapply le_mm_trans| |done]. intros E. destruct (B1 E), (B2 E). split; congruence.
Qed.
Lemma doing_here b {A} (a : A) (m : PM A) (Q : A → Prop) :
  (∀ s, execing s → m s = Ret a s) → Q a → doing b m Q.
Proof. intros Hm HQ s Hs. unfold wpx. rewrite (Hm s Hs). split_and!; [apply le_mm_refl, Hs|by split|done]. Qed.
Lemma doing_ret b {A} (a : A) (Q : A → Prop) : Q a → doing b (mret a) Q.
Proof. intros HQ. by apply (doing_here b a). Qed.
Lemma doing_read b {A} (f : mmst → A) (Q : A → Prop) : (∀ s, execing s → Q (f s)) → doing b (gets f) Q.
Proof. intros HQ s Hs. apply wpx_gets. split_and!; [apply le_mm_refl, Hs|by split|by apply HQ]. Qed.
Lemma doing_gets b {A} (f : mmst → A) : doing b (gets f) (λ _, True).
Proof. by apply doing_read. Qed.
Lemma doing_mp b : doing b (gets mp) (λ p, in_table p = true).
Proof. apply doing_read. by intros s (_ & ? & _). Qed.
Lemma doing_who b : doing b (gets who) (λ p, in_table p = true).
Proof. apply doing_read. by intros s (_ & _ & ?). Qed.
Lemma doing_mget b {A} (f : mproc → A) i : in_table i = true → doing b (mget f i) (λ _, True).
Proof. intros Hi. unfold mget. rewrite Hi. apply doing_gets. Qed.
Lemma doing_quiet {A} (m : PM A) : quiet m → doing false m (λ _, True).
Proof. intros Hm s Hs. eapply wpx_mono; [apply Hm, Hs|]. by intros a s' ?. Qed.
Lemma doing_call b c : doing b (do_call c) (λ a, ∃ l, a = answer l c).
Proof. intros s Hs. unfold wpx, do_call. split_and!; [by split; [|split_and!|apply Hs]|by split|by eexists]. Qed.
Lemma doing_lib b c : doing b (lib_call c) (λ a, ∃ l, a = answer l c).
Proof.
  unfold lib_call. eapply doing_bind; [apply doing_call|]. intros a Ha. apply (doing_bind _ _ _ (λ _, True)).
  - unfold when. destruct (_ <? _); [|by apply doing_ret]. intros s Hs. apply wpx_modify. by split_and!; [split; [|split_and!|apply Hs]| |].
  - intros _ _. by apply doing_ret.
Qed.
Lemma doing_weaken b {A} (m : PM A) (Q R : A → Prop) : doing b m Q → (∀ a, Q a → R a) → doing b m R.
Proof. intros Hm HQ s Hs. eapply wpx_mono; [by apply Hm|]. cbn beta. intros a s' (? & ? & ?). auto. Qed.
Lemma doing_less {A} (m : PM A) (Q : A → Prop) : doing true m Q → doing false m Q.
Proof. intros Hm s Hs. eapply wpx_mono; [by apply Hm|]. cbn beta. by intros a s' (? & _ & ?). Qed.
Lemma doing_tell b what p1 p2 p3 : doing b (tell_fs what p1 p2 p3) (λ _, True).
Proof. eapply doing_bind; [apply doing_call|]. intros a _. by apply doing_ret. Qed.
Lemma doing_panic b {A} w n (Q : A → Prop) : mm_panics w → doing b (panic w n) Q.
Proof. intros Hw s _. by apply wpx_panic. Qed.
Lemma doing_when b c (m : PM unit) : doing b m (λ _, True) → doing b (when c m) (λ _, True).
Proof. destruct c; [done|]. intros _. by apply doing_ret. Qed.
Lemma quiet_image {A} (m : IM A) : calm m → quiet (on_image m).
Proof.
  intros Hm s Hs. specialize (Hm (mbuf s)). unfold wpx, on_image, wp in *. destruct (m (mbuf s)); [|done..]. by split.
Qed.
End steps.

(** ** Opening the program *)
Section exec.
Context `{SV : Servers, !ExecOk}.
Implicit Types (s : mmst).

(** What the rest of execve needs of a header. *)
Definition hdr_ok (h : exechdr) : Prop :=
  (x_ft h = 0 ∨ x_ft h = SEPARATE) ∧ 0 ≤ x_text_bytes h < 2 ^ 32 ∧ 0 ≤ x_data_bytes h < 2 ^ 32.

Ltac do_step :=
  match goal with
  | |- doing _ (mret _) _ => apply doing_ret
  | |- doing _ (panic _ _) _ => apply doing_panic; unfold mm_panics; set_solver
  | |- doing _ (gets mp ≫= _) _ => eapply doing_bind; [apply doing_mp|intros ? ?]
  | |- doing _ (gets who ≫= _) _ => eapply doing_bind; [apply doing_who|intros ? ?]
  | |- doing _ (gets _ ≫= _) _ => eapply doing_bind; [apply doing_gets|intros ? _]
  | |- doing _ (mget _ _ ≫= _) _ => eapply doing_bind; [by apply doing_mget|intros ? _]
  | |- doing _ (do_call _ ≫= _) _ => eapply doing_bind; [apply doing_call|intros ? ?]
  | |- doing _ (lib_call _ ≫= _) _ => eapply doing_bind; [apply doing_lib|intros ? ?]
  | |- doing _ (tell_fs _ _ _ _ ≫= _) _ => eapply doing_bind; [apply doing_tell|intros ? _]
  | |- doing _ (when _ _ ≫= _) _ => apply (doing_bind _ _ _ (λ _, True)); [apply doing_when|intros ? _]
  | |- doing _ (if ?b then _ else _) _ => destruct b
  | |- doing _ _ _ => progress cbv zeta
  end.
Ltac do_steps := repeat do_step.

Lemma allowed_run name mask : doing true (allowed name mask) (λ _, True).
Proof. unfold allowed. do_steps; done. Qed.

Lemma be32_range a b c d : 0 ≤ a < 256 → 0 ≤ b < 256 → 0 ≤ c < 256 → 0 ≤ d < 256 → 0 ≤ be32 a b c d < 2 ^ 32.
Proof. unfold be32. lia. Qed.
Lemma decode_ok h sc : (∀ i, 0 ≤ val h i < 256) → hdr_ok (decode_header h sc).2.
Proof.
  intros Hb. unfold decode_header. cbv zeta. assert (Hbad : hdr_ok (Exechdr 0 0 0 0 0 0 0)) by (split_and!; auto; cbn; lia).
  destruct (negb _ || _); [done|]. destruct (negb _ && _); [done|]. destruct (negb _); [done|].
  set (ft := if has _ _ then _ else _). assert (Hft : ft = 0 ∨ ft = SEPARATE) by (unfold ft; destruct (has _ _); auto). clearbody ft.
  pose proof (be32_range _ _ _ _ (Hb 8%nat) (Hb 9%nat) (Hb 10%nat) (Hb 11%nat)) as Ht.
  pose proof (be32_range _ _ _ _ (Hb 12%nat) (Hb 13%nat) (Hb 14%nat) (Hb 15%nat)) as Hd.
  cbn [Nat.add]. revert Ht Hd. generalize (be32 (val h 8) (val h 9) (val h 10) (val h 11)), (be32 (val h 12) (val h 13) (val h 14) (val h 15)).
  intros text data Ht Hd. destruct (_ =? 0); [done|].
  assert (H1 : 0 ≤ Z.shiftl (Z.shiftr text CLICK_SHIFT) CLICK_SHIFT < 2 ^ 32).
  { unfold CLICK_SHIFT. rewrite Z.shiftl_mul_pow2, Z.shiftr_div_pow2 by lia. Z.to_euclidean_division_equations. lia. }
  destruct (ft =? SEPARATE); cbn [negb]; destruct (_ <=? _); (split; [done|]; cbn [x_text_bytes x_data_bytes snd]; split; first [apply u32_range|done]).
Qed.

Lemma header_run fd sc : doing true (read_header fd sc) (λ r, hdr_ok r.2).
Proof.
  assert (Hbad : hdr_ok (Exechdr 0 0 0 0 0 0 0)) by (split_and!; auto; cbn; lia).
  unfold read_header. cbv zeta. eapply doing_bind; [apply doing_lib|]. intros a [l ->]. destruct (_ <? 2); [by apply doing_ret|].
  destruct (_ && _); [by apply doing_ret|]. destruct (negb _); [by apply doing_ret|].
  pose proof (decode_ok (tail (answer l (ReadFd fd 0 A_MINHDR))) sc) as Hd. destruct (decode_header _ _) as [m hdr].
  assert (Hok : hdr_ok hdr).
  { apply Hd. intros i. pose proof (read_bytes l fd 0 A_MINHDR i). unfold val in *. by destruct (answer _ _); [destruct i|]. }
  do_steps; done.
Qed.

Lemma try_exec_run name stk :
  doing true (try_exec name stk) (λ t, match t with inl _ => True | inr (_, _, _, hdr) => hdr_ok hdr end).
Proof.
  unfold try_exec. do 2 do_step. eapply doing_bind; [apply allowed_run|]. intros fs _. destruct (_ <? 0); [by apply doing_ret|].
  cbv zeta. eapply doing_bind; [apply header_run|]. intros mh Hh. by apply doing_ret.
Qed.

Lemma bad_exec_run b fd stk : doing b (bad_exec fd stk) (λ _, True).
Proof. unfold bad_exec. do_steps; done. Qed.

(** ** The first line of a script *)
Lemma skip_blanks_lt buf sp : (skip_blanks buf sp ≤ pred sp)%nat.
Proof. induction sp as [|n IH]; [done|]. cbn. destruct (blank _); lia. Qed.
Lemma word_start_le buf sp : (word_start buf sp ≤ sp)%nat.
Proof. induction sp as [|n IH]; [done|]. cbn. destruct (blank _); lia. Qed.
Lemma cstr_length l : (length (cstr l) ≤ length l)%nat.
Proof. induction l as [|c l IH]; [done|]. cbn. destruct (_ =? _); cbn; lia. Qed.
Lemma overwrite_short n bytes buf : (n ≤ 255)%nat → (length (overwrite n bytes buf) ≤ 255)%nat.
Proof.
  intros Hn. unfold overwrite. rewrite length_app, length_map, length_seq, length_skipn, length_firstn. change (Z.to_nat PATH_MAX) with 255%nat. lia.
Qed.

(** The two buffers are in order. *)
Definition bufs_ok s : Prop := image_ok (mbuf s) ∧ (length (name_buf s) ≤ 255)%nat.
Lemma bufs_same s s' : bufs_ok s → same_bufs s s' → bufs_ok s'.
Proof. unfold bufs_ok. by intros ? [-> ->]. Qed.

Lemma wpx_image {A} (m : IM A) (Q : A → mmst → Prop) s :
  wp m (λ a b, Q a (s <| mbuf := b |>)) (mbuf s) → wpx mm_panics (on_image m) Q s.
Proof. intros Hm. unfold wpx, on_image, wp in *. by destruct (m (mbuf s)). Qed.
Lemma le_image s b : holes_wf (mem_holes s) → le_mm s (s <| mbuf := b |>).
Proof. by split. Qed.

Lemma arg_run stk arg replace s : holes_wf (mem_holes s) → bufs_ok s → 0 ≤ stk ≤ ARG_MAX → (length arg ≤ 255)%nat →
  wpx mm_panics (on_image (insert_arg stk arg replace))
    (λ r s', le_mm s s' ∧ (r.1 = true → 0 ≤ r.2 ≤ ARG_MAX ∧ bufs_ok s')) s.
Proof.
  intros Hh [Hi Hn] Hs Ha. apply wpx_image. eapply wp_mono; [by apply insert_arg_run|]. cbn beta. intros r b Hr.
  split; [by apply le_image|]. intros E. destruct (Hr E) as [? Hb]. split; [done|]. split; [exact Hb|exact Hn].
Qed.

Lemma word_run sp interp stk s : execing s → bufs_ok s → (sp ≤ 255)%nat → 0 ≤ stk ≤ ARG_MAX →
  wpx mm_panics (word_step (sp, interp, stk)) (λ x s', le_mm s s' ∧
    match x with
    | inl (sp', _, stk') => (sp' < sp)%nat ∧ 0 ≤ stk' ≤ ARG_MAX ∧ bufs_ok s'
    | inr (ok, _, stk') => ok = true → 0 ≤ stk' ≤ ARG_MAX ∧ bufs_ok s'
    end) s.
Proof.
  intros Hx Hb Hsp Hstk. unfold word_step. apply wpx_bind, wpx_gets. pose proof (skip_blanks_lt (name_buf s) sp) as Hlt.
  destruct (skip_blanks _ _) as [|e]; [apply wpx_ret; split; [apply le_mm_refl, Hx|done]|].
  apply wpx_bind, wpx_modify. apply wpx_bind, wpx_gets.
  match goal with |- wpx _ _ _ ?st => set (s1 := st) end.
  assert (H1 : le_mm s s1) by (by split; [|split_and!|apply Hx]).
  assert (Hb1 : bufs_ok s1) by (destruct Hb; split; [done|]; unfold s1; cbn; by rewrite length_insert).
  clearbody s1. cbv zeta. pose proof (word_start_le (name_buf s1) (S e)) as Hle. set (b := word_start _ _) in *. clearbody b.
  apply wpx_bind. eapply wpx_mono; [apply arg_run; [apply H1|done|done|]|].
  { etrans; [apply cstr_length|]. rewrite length_skipn. destruct Hb1. lia. }
  cbn beta. intros [ok stk'] s2 [H2 Hok]. pose proof (le_mm_trans _ _ _ H1 H2) as H12. cbn [fst snd] in *.
  destruct ok; apply wpx_ret; (split; [done|]); [split; [lia|]; by apply Hok|done].
Qed.

Lemma patch_stack_run fd stk s : execing s → bufs_ok s → 0 ≤ stk ≤ ARG_MAX →
  wpx mm_panics (patch_stack fd stk) (λ r s', le_mm s s' ∧ (is_Some r.1 → 0 ≤ r.2 ≤ ARG_MAX ∧ bufs_ok s')) s.
Proof.
  intros Hx Hb Hs. unfold patch_stack. apply wpx_bind, wpx_gets. apply wpx_bind.
  eapply wpx_mono; [apply arg_run; [apply Hx|done|done|]|].
  { etrans; [apply cstr_length|apply Hb]. }
  cbn beta. intros [ok stk1] s1 [H1 Hok]. cbn [fst snd] in Hok.
  destruct ok; cbn [negb]; [|apply wpx_ret; split; [done|by intros []]].
  destruct (Hok eq_refl) as [Hs1 Hb1]. clear Hok.
  assert (Hnone : ∀ stk s', le_mm s s' → wpx mm_panics (mret (None, stk)) (λ (r : option nat * Z) s', le_mm s s' ∧ (is_Some r.1 → 0 ≤ r.2 ≤ ARG_MAX ∧ bufs_ok s')) s').
  { intros ? s' H'. apply wpx_ret. split; [done|by intros []]. }
  apply wpx_bind. eapply wpx_mono; [apply (doing_lib true); by eapply execing_le|]. cbn beta. intros l s2 (H2 & B2 & _).
  pose proof (le_mm_trans _ _ _ H1 H2) as H12. pose proof (bufs_same _ _ Hb1 (B2 eq_refl)) as Hb2. clear B2 H1 H2 Hb1 s1.
  destruct (_ =? _); [by apply Hnone|].
  apply wpx_bind. eapply wpx_mono; [apply (doing_lib true); by eapply execing_le|]. cbn beta. intros a s3 (H3 & B3 & [l' ->]).
  pose proof (le_mm_trans _ _ _ H12 H3) as H13. pose proof (bufs_same _ _ Hb2 (B3 eq_refl)) as Hb3. clear B3 H12 H3 Hb2 s2.
  pose proof (read_max l' fd 0 PATH_MAX ltac:(done)) as Hn. change PATH_MAX with 255 in Hn |- *. revert Hn.
  generalize (s16 (val (answer l' (ReadFd fd 0 255)) 0)), (tail (answer l' (ReadFd fd 0 255))). clear l l'. intros n a Hn. cbv zeta.
  apply wpx_bind. apply (wpx_mono mm_panics _ (λ _ s', le_mm s s' ∧ bufs_ok s')).
  { apply wpx_when; [|done]. intros Hn0%Z.leb_le. apply wpx_modify. split.
    - eapply le_mm_trans; [done|]. by split; [|split_and!|apply H13].
    - destruct Hb3. split; [done|]. cbn. apply overwrite_short. lia. }
  clear Hb3 H13 s3. intros _ s4 [H4 Hb4]. destruct (_ <? _); [by apply Hnone|]. apply wpx_bind, wpx_gets.
  destruct (list_find _ _) as [[sp c]|] eqn:Ef; [|by apply Hnone].
  apply list_find_Some in Ef as (Ef & _ & _). apply lookup_lt_Some in Ef. rewrite length_firstn in Ef.
  apply wpx_bind. eapply wpx_mono.
  { apply (wpx_loop mm_panics (λ '(sp, _, stk) s', (sp ≤ 255)%nat ∧ 0 ≤ stk ≤ ARG_MAX ∧ le_mm s s' ∧ bufs_ok s') (λ '(sp, _, _) _, sp) _ _
      (λ '(ok, _, stk) s', le_mm s s' ∧ (ok = true → 0 ≤ stk ≤ ARG_MAX ∧ bufs_ok s'))).
    - intros [[sp' interp] stk2] s5 (Hsp & Hs2 & H5 & Hb5). eapply wpx_mono; [apply word_run; try done; by eapply execing_le|].
      cbn beta. intros [[[sp2 i2] stk3]|[[ok i2] stk3]] s6 [H6 Hx6]; [destruct Hx6 as (? & ? & ?)|];
        pose proof (le_mm_trans _ _ _ H5 H6); [split; [split; [lia|done]|lia]|by split].
    - split; [lia|done].
    - unfold word_fuel. lia. }
  cbn beta. intros [[ok interp] stk2] s5 [H5 Hok]. destruct ok; cbn [negb]; [|by apply Hnone].
  destruct (Hok eq_refl) as [Hs2 Hb5].
  apply wpx_bind. eapply wpx_mono; [apply (doing_lib true); by eapply execing_le|]. cbn beta. intros _ s6 (H6 & B6 & _).
  pose proof (le_mm_trans _ _ _ H5 H6) as H56. pose proof (bufs_same _ _ Hb5 (B6 eq_refl)) as Hb6. apply wpx_ret. split; [done|]. intros _.
  split; [|done]. cbn. unfold ARG_MAX, PTRSIZE in *. rewrite u32_id by lia. Z.to_euclidean_division_equations. lia.
Qed.

(** ** Memory and loading *)
Lemma share_run ign ino dev ctime :
  doing true (find_share ign ino dev ctime) (λ r, match r with Some p => in_table p = true | None => True end).
Proof.
  intros s Hs. unfold find_share.
  apply (wpx_for_each mm_panics (λ s', s' = s)); [|done|by intros ? ->; split; [apply le_mm_refl, Hs|]].
  intros i s1 Hi ->. apply elem_of_seqZ in Hi. assert (Hit : in_table i = true) by (unfold in_table, INIT_PROC_NR, NR_PROCS in *; lia).
  apply wpx_bind, wpx_row; [done|]. apply wpx_ret. repeat case_match; try done; simplify_eq. by split; [apply le_mm_refl, Hs|].
Qed.

Lemma new_mem_run sh text data bss stk tot :
  match sh with Some p => in_table p = true | None => True end → doing false (new_mem sh text data bss stk tot) (λ _, True).
Proof.
  intros Hsh. unfold new_mem. cbv zeta. do_step; [by do_step|].
  eapply doing_bind; [apply doing_quiet, quiet_max|]. intros mh _. do_step; [by do_step|]. do 2 do_step.
  eapply doing_bind; [apply doing_quiet, quiet_alloc|]. intros base _. do_step; [do_step|].
  apply (doing_bind _ _ _ (λ _, True)).
  { destruct sh; [by apply doing_mget|by apply doing_ret]. }
  intros t _. apply (doing_bind _ _ _ (λ _, True)); [apply doing_quiet, quiet_mset; [done|quiet_upd]|]. intros _ _.
  do 2 do_step. eapply doing_bind; [apply doing_quiet, quiet_free|]. intros _ _. by do_step.
Qed.

Lemma quiet_rw_seg wr fd proc seg nr bytes : in_table proc = true → 0 ≤ bytes < 2 ^ 32 → quiet (rw_seg wr fd proc seg nr bytes).
Proof.
  intros Hp Hb. unfold rw_seg. apply quiet_bind; [by apply quiet_mget|]. intros m. cbv zeta.
  apply (quiet_loop (λ '(_, n), Z.to_nat ((n + READ_MAX - 1) / READ_MAX)) (λ '(_, n), 0 ≤ n < 2 ^ 32)); [|done|].
  2: { change READ_MAX with 31744. unfold rw_fuel. apply Z2Nat.inj_lt; [apply Z.div_pos; lia|lia|]. apply Z.div_lt_upper_bound; lia. }
  intros [p n] s Hn Hs. unfold rw_part. destruct (Z.eqb_spec n 0) as [->|Hne]; [by apply wpx_ret; split; [apply le_mm_refl|]|]. cbv zeta.
  apply wpx_bind, wpx_lib; [done|]. intros s1 H1. destruct (negb _); apply wpx_ret; (split; [done|]); [done|].
  change READ_MAX with 31744 in *. split; [lia|]. apply Z2Nat.inj_lt; [apply Z.div_pos; lia..|].
  destruct (Z.min_spec 31744 n) as [[Hlt ->]|[Hge ->]].
  - replace (n - 31744 + 31744 - 1) with (n + 31744 - 1 + (-1) * 31744) by lia. rewrite Z.div_add by done. lia.
  - replace (n - n + 31744 - 1) with 31743 by lia. change (31743 / 31744) with 0. apply Z.div_str_pos. lia.
Qed.

(** The relocation bytes make no file longer. *)
Lemma wpx_lib_log c s : holes_wf (mem_holes s) →
  wpx mm_panics (lib_call c) (λ a s', le_mm s s' ∧ a = answer (log s) c ∧ log s' = c :: log s) s.
Proof.
  intros Hs. unfold lib_call. apply wpx_bind. unfold wpx at 1, do_call. apply wpx_bind.
  apply (wpx_mono mm_panics _ (λ _ s', le_mm s s' ∧ log s' = c :: log s)).
  - apply wpx_when; [intros _; apply wpx_modify|intros _]; by split; [split; [|split_and!|]|].
  - intros _ s' [? ?]. by apply wpx_ret.
Qed.
Lemma reloc_bytes_run fd off bytes adr s : holes_wf (mem_holes s) →
  wpx mm_panics (reloc_bytes off adr bytes) (λ _ s', le_mm s s' ∧ (chunks_left (log s') fd ≤ chunks_left (log s) fd)%nat) s.
Proof.
  revert adr s. induction bytes as [|c bytes IH]; intros adr s Hs; cbn [reloc_bytes].
  { apply wpx_ret. by split; [apply le_mm_refl|]. }
  destruct (c =? 1); [by apply IH|]. destruct (c =? 0); [apply wpx_ret; by split; [apply le_mm_refl|]|].
  destruct (has c 1); [apply wpx_ret; by split; [apply le_mm_refl|]|].
  apply wpx_bind. unfold wpx at 1, do_call. set (s1 := s <| log := _ |>).
  assert (H1 : le_mm s s1) by (by split; [|split_and!|]).
  eapply wpx_mono; [apply (IH _ s1), H1|]. cbn beta. intros _ s2 [H2 Hc]. split; [by eapply le_mm_trans|].
  etrans; [exact Hc|]. apply (chunks_reloc (log s) fd).
Qed.
Lemma quiet_reloc_loop fd off adr : quiet (loop reloc_fuel (reloc_refill fd off) adr).
Proof.
  intros s Hs. apply (wpx_loop mm_panics (λ _ s', le_mm s s') (λ _ s', chunks_left (log s') fd)).
  - intros adr1 s1 H1. unfold reloc_refill. apply wpx_bind. eapply wpx_mono; [apply wpx_lib_log, H1|].
    cbn beta. intros a s2 (H2 & -> & El). apply wpx_bind, wpx_modify.
    match goal with |- wpx _ _ _ ?st => set (s3 := st) end.
    assert (H3 : le_mm s s3) by (eapply le_mm_trans; [exact H1|]; eapply le_mm_trans; [exact H2|]; by split; [|split_and!|apply H2]).
    assert (E3 : log s3 = ReadFd fd 0 ARG_MAX :: log s1) by exact El. clearbody s3.
    destruct (Z.ltb_spec (s16 (val (answer (log s1) (ReadFd fd 0 ARG_MAX)) 0)) 1) as [|Hn]; [by apply wpx_ret|].
    eapply wpx_mono; [apply (reloc_bytes_run fd), H3|]. cbn beta. intros [adr2|r] s4 [H4 Hc]; [|by eapply le_mm_trans].
    split; [by eapply le_mm_trans|]. rewrite E3 in Hc. pose proof (chunks_read (log s1) fd Hn). lia.
  - by apply le_mm_refl.
  - pose proof (chunks_max (log s) fd). unfold reloc_fuel. lia.
Qed.

Lemma relocate_run fd : doing false (relocate fd) (λ _, True).
Proof.
  unfold relocate. do 3 do_step.
  eapply doing_bind; [apply doing_quiet, quiet_modify; by intros ?|]. intros _ _. do_step; [by do_step|].
  eapply doing_bind; [apply doing_quiet, quiet_image, calm_getw; done|]. intros first _. do_step; [by do_step|].
  do_step. apply (doing_bind _ _ _ (λ _, True)).
  { apply doing_quiet. intros s Hs. eapply wpx_mono; [by apply (reloc_bytes_run fd)|]. by intros ? ? [? _]. }
  intros [adr|r] _; [apply doing_quiet, quiet_reloc_loop|by do_step].
Qed.

(** ** The new image *)
Lemma quiet_upd_ft ft : ft = 0 ∨ ft = SEPARATE → quiet_upd (λ r, r <| mp_flags := setf (clrf (mp_flags r) SEPARATE) ft |>).
Proof.
  intros Hft r. assert (Hk : ∀ m, Z.land SEPARATE m = 0 → Z.land ft m = 0 → has (setf (clrf (mp_flags r) SEPARATE) ft) m = has (mp_flags r) m).
  { intros m H1 H2. rewrite has_setf_other by done. by rewrite has_clrf_other. }
  assert (Hs : ∀ m, Z.land SEPARATE m = 0 → has (setf (clrf (mp_flags r) SEPARATE) ft) m = has (mp_flags r) m).
  { intros m H1. apply Hk; [done|]. destruct Hft as [->| ->]; [done|done]. }
  split; unfold in_use, hanging, waiting; cbn; [by apply Hs..| |done|done]. by rewrite Hs.
Qed.

Lemma set_ids_run f w rmp st0 : in_table rmp = true →
  doing false (when (negb (has f TRACED))
    (when (has (st_mode st0) I_SET_UID_BIT)
       (mset rmp (λ r, r <| mp_effuid := st_uid st0 |>);;
        r ← mget id rmp; tell_fs SETUID w (mp_realuid r) (mp_effuid r));;
     when (has (st_mode st0) I_SET_GID_BIT)
       (mset rmp (λ r, r <| mp_effgid := st_gid st0 |>);;
        r ← mget id rmp; tell_fs SETGID w (mp_realgid r) (mp_effgid r)))) (λ _, True).
Proof. intros Hp. apply doing_quiet. quiet_steps. Qed.

Lemma exec_image_run fd st0 st hdr stk : hdr_ok hdr → doing false (exec_image fd st0 st hdr stk) (λ _, True).
Proof.
  intros (Hft & Ht & Hd). unfold exec_image. eapply doing_bind; [apply doing_mp|]. intros rmp Hp. eapply doing_bind; [apply doing_who|]. intros w Hw.
  eapply doing_bind; [apply doing_less, share_run|]. intros sh Hsh.
  eapply doing_bind; [by apply new_mem_run|]. intros r _.
  destruct (negb _); [by do_steps|].
  eapply doing_bind; [apply doing_quiet, quiet_mset; [done|quiet_upd]|]. intros _ _. do_step. cbv zeta.
  eapply doing_bind; [apply doing_quiet, quiet_image, calm_patch|]. intros _ _. do_step. do_step.
  destruct (negb _); [do_step|]. apply (doing_bind _ _ _ (λ _, True)).
  { apply doing_quiet. destruct sh; [quiet_steps|by apply quiet_rw_seg]. }
  intros _ _. eapply doing_bind; [by apply doing_quiet, quiet_rw_seg|]. intros _ _. do_step.
  eapply doing_bind; [apply relocate_run|]. intros _ _. do_step. cbv zeta. do_step. do_step.
  eapply doing_bind; [by apply set_ids_run|]. intros _ _.
  apply doing_quiet. apply quiet_bind; [apply quiet_mset; [done|quiet_upd]|]. intros _.
  apply quiet_bind; [quiet_steps|]. intros _.
  apply quiet_bind; [apply quiet_mset; [done|by apply quiet_upd_ft]|]. intros _. quiet_steps.
Qed.

(** What follows the first look at the program. *)
Lemma run_exec st0 fd st m hdr stk : hdr_ok hdr →
  doing false (if m <? 0 then bad_exec fd stk else exec_image fd st0 st hdr stk) (λ _, True).
Proof. intros Hh. destruct (m <? 0); [apply bad_exec_run|by apply exec_image_run]. Qed.

Lemma do_exec_run s : execing s → m_source (mm_in s) = who s → exec_ok s (mm_in s) →
  wpx mm_panics do_exec (λ _ s', le_mm s s') s.
Proof.
  intros Hx Hsrc Hok. pose proof (le_mm_refl s (proj1 Hx)) as Hr. unfold do_exec.
  apply wpx_bind, wpx_gets. apply wpx_bind, wpx_gets. cbv zeta. destruct (Z.ltb_spec ARG_MAX (u32 (m2_i2 (mm_in s)))) as [|Hstk]; [by apply wpx_ret|].
  destruct (_ || _) eqn:El; [by apply wpx_ret|]. apply orb_false_iff in El as [El1%Z.leb_gt El2%Z.ltb_ge].
  apply wpx_bind. unfold wpx at 1, do_call at 1. destruct (negb _); [by apply wpx_ret; split; [|split_and!|apply Hx]|].
  apply wpx_bind, wpx_modify. apply wpx_bind. unfold wpx at 1, do_call at 1.
  match goal with |- context [answer ?l ?c] => set (c2 := c); set (l2 := l) end.
  destruct (negb _); [by apply wpx_ret; split; [|split_and!|apply Hx]|]. apply wpx_bind, wpx_modify.
  match goal with |- wpx _ _ _ ?st => set (s1 := st) end.
  assert (H1 : le_mm s s1) by (by split; [|split_and!|apply Hx]).
  assert (B1 : bufs_ok s1).
  { split; [unfold exec_ok in Hok; rewrite Hsrc in Hok; exact Hok|]. apply overwrite_short. unfold PATH_MAX in El2. lia. }
  assert (Hs1 : 0 ≤ u32 (m2_i2 (mm_in s)) ≤ ARG_MAX) by (pose proof (u32_range (m2_i2 (mm_in s))); lia).
  revert Hs1. generalize (u32 (m2_i2 (mm_in s))). clearbody s1. clear Hstk Hok c2 l2. intros stk Hstk.
  pose proof (execing_le _ _ Hx H1) as Hx1.
  assert (Hfin : ∀ m s', le_mm s s' → doing false m (λ _ : Z, True) → wpx mm_panics m (λ _ s', le_mm s s') s').
  { intros m s' H' Hd. eapply wpx_mono; [apply Hd; exact (execing_le _ _ Hx H')|]. intros r s2 [H2 _]. exact (le_mm_trans _ _ _ H' H2). }
  apply wpx_bind, wpx_gets. apply wpx_bind. eapply wpx_mono; [by apply try_exec_run|]. cbn beta.
  intros [e|[[[fd st0] m] hdr]] s2 (H2 & B2 & Hh); pose proof (le_mm_trans _ _ _ H1 H2) as H12; [by apply wpx_ret|].
  pose proof (bufs_same _ _ B1 (B2 eq_refl)) as Hb2. destruct (negb _); [by apply Hfin, run_exec|].
  apply wpx_bind. eapply wpx_mono; [apply patch_stack_run; [exact (execing_le _ _ Hx H12)|done|done]|]. cbn beta.
  intros [interp stk2] s3 [H3 Hp]. pose proof (le_mm_trans _ _ _ H12 H3) as H13. destruct interp as [interp|]; [|apply Hfin, bad_exec_run; done].
  apply wpx_bind, wpx_gets. apply wpx_bind. eapply wpx_mono; [apply try_exec_run; exact (execing_le _ _ Hx H13)|]. cbn beta.
  intros [e|[[[fd2 st2] m2] hdr2]] s4 (H4 & _ & Hh2); pose proof (le_mm_trans _ _ _ H13 H4) as H14; [by apply wpx_ret|].
  by apply Hfin, run_exec.
Qed.
End exec.
