(* ===== verification/Mrun.v ===== *)
(** * Every system call of the memory manager keeps the invariant *)

From S2P Require Import Prelude Chain Alloc Holewf Sigset Proc Mproc Signal Mcalls Exec Mmain Minv Mexit Mfork Mexec.

(** A message the memory manager can get: a signal message of the kernel, or any
    request of a live user process. *)
Inductive good_request `{Servers} (s : mmst) (m : message) : Prop :=
| good_ksig : m_source m = HARDWARE → m_type m = 64 → in_table (m2_i1 m) = true →
    (ismember (u32 (m2_l1 m)) SIGSTKFLT = true → INIT_PROC_NR ≤ m2_i1 m) → good_request s m
| good_user : INIT_PROC_NR ≤ m_source m < NR_PROCS → live s (m_source m) = true →
    - 2 ^ 15 ≤ m2_i1 m < 2 ^ 15 → (m_type m = EXEC → exec_ok s m) → good_request s m.

(** The request is one of ptrace to resume, with a signal, a process that was
    stopped and has exited since: it makes [sig_proc] panic. *)
Definition resumes_dead (s : mmst) (m : message) : Prop :=
  (m2_i2 m = T_RESUME ∨ m2_i2 m = T_STEP) ∧ 0 < m2_l2 m ≤ NSIG ∧
  ∃ c, INIT_PROC_NR < c < NR_PROCS ∧ used s c = true ∧ hanging (mproc_of s c) = true ∧
       has (mp_flags (mproc_of s c)) STOPPED = true ∧ mp_pid (mproc_of s c) = m2_i1 m.
(** The panics a message can lead to. *)
Definition request_panics (s : mmst) (m : message) (w : string) : Prop :=
  mm_panics w ∨ w = ""%string ∧ m_type m = 26 ∧ resumes_dead s m.

(** Read the globals and the table in the current state. *)
Ltac reads := repeat lazymatch goal with
  | |- wpx _ (gets _ ≫= _) _ _ => apply wpx_bind, wpx_gets
  | |- wpx _ (mget id _ ≫= _) _ _ => apply wpx_bind, wpx_row; [done|]
  | |- wpx _ (mget _ _ ≫= _) _ _ => apply wpx_bind, wpx_mget; [done|]
  end; cbv beta zeta.

Section run.
Context `{SV : Servers, SO : !ServersOk, EO : !ExecOk}.
Implicit Types (s : mmst).

Definition call_post s (s' : mmst) : Prop := mm_inv s' ∧ who s' = who s.
(** The state in which a user process calls. *)
Definition calling s : Prop :=
  mm_inv s ∧ mp s = who s ∧ INIT_PROC_NR ≤ who s < NR_PROCS ∧ live s (who s) = true ∧ - 2 ^ 15 ≤ m2_i1 (mm_in s) < 2 ^ 15.

Lemma calling_table s : calling s → in_table (mp s) = true ∧ in_table (who s) = true.
Proof. intros (_ & -> & Hw & _). unfold in_table, INIT_PROC_NR in *. lia. Qed.

Lemma call_quiet {A} (m : PM A) s : mm_inv s → quiet m → wpx mm_panics m (λ _ s', call_post s s') s.
Proof.
  intros Hi Hm. apply wpx_quiet; [done|apply Hi|]. intros a s' Hle. split; [by eapply inv_le|apply Hle].
Qed.
Lemma sig_call s s' : sig_post s s' → call_post s s'.
Proof. intros [Hi Hf]. split; [done|]. by destruct (ef_vars _ _ Hf) as (_ & -> & _). Qed.
Lemma call_le s s1 s2 : le_mm s s1 → call_post s1 s2 → call_post s s2.
Proof. intros Hle [Hi Hw]. split; [done|]. rewrite Hw. apply Hle. Qed.
Lemma calling_le s s' : le_mm s s' → mm_in s' = mm_in s → calling s → calling s'.
Proof.
  intros Hle Hin (Hi & Hm & Hw & Hl & Hb). destruct (le_vars _ _ Hle) as (_ & E1 & E2 & _).
  unfold calling. rewrite E1, E2, Hin, (le_live s s') by done. split_and!; try done; [by eapply inv_le|lia..].
Qed.

(** The exit of any process in use. *)
Lemma mm_exit_call s c st : mm_inv s → in_table (mp s) = true → INIT_PROC_NR ≤ c < NR_PROCS → used s c = true →
  wpx mm_panics (mm_exit c st) (λ _ s', sig_post s s') s.
Proof.
  intros Hi Hm Hc Hu. eapply wpx_mono; [apply (mm_exit_step 65); try done; [apply mm_exit_run|]|].
  { pose proof (lives_bound s). destruct (live s c); lia. }
  cbn beta. by intros _ s' (? & ? & _).
Qed.
Lemma exit_fuel_ok : exit_ok exit_fuel mm_exit.
Proof. apply mm_exit_run. Qed.
Lemma lives_fuel s : (lives s ≤ exit_fuel)%nat.
Proof. pose proof (lives_bound s). unfold exit_fuel. lia. Qed.

Lemma do_mm_exit_run s : calling s → wpx mm_panics do_mm_exit (λ _ s', call_post s s') s.
Proof.
  intros (Hi & Hm & Hw & Hl & _). unfold do_mm_exit. apply wpx_bind, wpx_gets. apply wpx_bind, wpx_gets.
  apply wpx_bind. eapply wpx_mono; [apply mm_exit_call; rewrite ?Hm; try done|].
  { unfold in_table, INIT_PROC_NR in *. lia. } { by apply andb_true_iff in Hl as [? _]. }
  cbn beta. intros _ s1 Hp. apply wpx_bind, wpx_modify, wpx_ret. apply sig_call in Hp as [Hi1 Hw1]. split; [|done].
  eapply inv_le; [exact Hi1|]. by apply (quiet_modify (λ s, s <| dont_reply := true |>)); [|apply Hi1].
Qed.

(** ** Waiting *)
Definition acceptable (pidarg : Z) (r : mproc) : bool :=
  negb ((0 <? pidarg) && negb (pidarg =? mp_pid r)) && negb ((pidarg <? -1) && negb (s16 (- pidarg) =? mp_procgrp r)).

Lemma acceptable_right pidarg r : - 2 ^ 15 ≤ pidarg < 2 ^ 15 → 0 ≤ mp_pid r → 0 ≤ mp_procgrp r →
  acceptable pidarg r = false → right_child pidarg r = false.
Proof.
  intros Hb Hp Hg Ha. unfold acceptable in Ha. apply andb_false_iff in Ha as [Ha|Ha];
    apply negb_false_iff, andb_true_iff in Ha as [Ha Hb'%negb_true_iff].
  - apply Z.ltb_lt in Ha. unfold right_child. rewrite Hb'. rewrite s16_id by lia. lia.
  - apply Z.ltb_lt in Ha. unfold right_child. rewrite Hb'. lia.
Qed.

Lemma wait_loop_run s w pidarg l n :
  calling s → who s = w → (∀ i, i ∈ l → in_table i = true) →
  wpx mm_panics (wait_loop w pidarg l n) (λ r s',
    match r with
    | None => call_post s s'
    | Some _ => s' = s ∧ ∀ i, i ∈ l → used s i = true → hanging (mproc_of s i) = true →
        mp_parent (mproc_of s i) = w → acceptable pidarg (mproc_of s i) = false
    end) s.
Proof.
  intros (Hi & Hm & Hw & Hl & Hb) <-. revert n. induction l as [|i l IH]; intros n Hin; cbn [wait_loop].
  { apply wpx_ret. split; [done|]. intros i Hx. by apply elem_of_nil in Hx. }
  assert (Hit : in_table i = true) by (apply Hin; left).
  assert (Hskip : (used s i = true → hanging (mproc_of s i) = true → mp_parent (mproc_of s i) = who s →
                   acceptable pidarg (mproc_of s i) = false) → ∀ n,
    wpx mm_panics (wait_loop (who s) pidarg l n) (λ r s',
    match r with
    | None => call_post s s'
    | Some _ => s' = s ∧ ∀ j, j ∈ i :: l → used s j = true → hanging (mproc_of s j) = true →
        mp_parent (mproc_of s j) = who s → acceptable pidarg (mproc_of s j) = false
    end) s).
  { intros Hx n'. eapply wpx_mono; [apply IH; intros j Hj; apply Hin; by right|]. cbn beta. intros [c|] s'; [|done].
    intros [-> Hall]. split; [done|]. intros j [->|Hj]%elem_of_cons; auto. }
  apply wpx_bind, wpx_row; [done|]. destruct (negb (_ && _)) eqn:E1.
  { apply Hskip. unfold used, in_use. intros Hu _ Hp. rewrite Hu, Hp, Z.eqb_refl in E1. done. }
  apply negb_false_iff, andb_true_iff in E1 as [Hu Hp%Z.eqb_eq].
  destruct ((0 <? pidarg) && negb (pidarg =? mp_pid (mproc_of s i))) eqn:E2; [apply Hskip; intros _ _ _; unfold acceptable; by rewrite E2|].
  destruct ((pidarg <? -1) && negb (s16 (- pidarg) =? mp_procgrp (mproc_of s i))) eqn:E3; [apply Hskip; intros _ _ _; unfold acceptable; by rewrite E2, E3|].
  assert (Hpt : in_table (who s) = true) by (unfold in_table, INIT_PROC_NR in *; lia).
  destruct (has (mp_flags _) HANGING) eqn:Eh.
  - apply wpx_bind. eapply wpx_mono; [apply (cleanup_run None (λ _, False) (λ _, False) s i Hi); [done|..|exact Hu|]|].
    + assert (i ≠ INIT_PROC_NR ∧ ¬ (0 ≤ i < INIT_PROC_NR)) as [? ?].
      { split; [intros ->; destruct (inv_init _ _ _ _ Hi); lia|]. intros Hs.
        destruct (inv_servers _ _ _ _ Hi i Hs) as (_ & _ & _ & ?). lia. }
      unfold in_table, INIT_PROC_NR, NR_PROCS in *. lia.
    + intros j Hj Huj Hpj. exfalso. destruct (inv_parent _ _ _ _ Hi j Hj) as [_ Hcase]. rewrite Hpj in Hcase.
      destruct (Hcase Huj) as [[? []]|[_ Hx]]. specialize (Hx Eh).
      destruct (inv_init _ _ _ _ Hi) as [_ Hinit]. rewrite <- Hx, Hp in Hinit. lia.
    + cbn beta. intros _ s1 (Hi1 & Hf1 & _). apply wpx_bind, wpx_modify, wpx_ret.
      split; [|by destruct (ef_vars _ _ Hf1) as (_ & ? & _)].
      eapply inv_le; [exact Hi1|]. by apply (quiet_modify (λ s, s <| dont_reply := true |>)); [|apply Hi1].
  - destruct (has (mp_flags (mproc_of s i)) STOPPED && _).
    + apply wpx_bind, wpx_quiet; [by apply quiet_reply|apply Hi|]. intros _ s1 H1.
      apply wpx_bind, wpx_quiet; [by apply quiet_modify|apply H1|]. intros _ s2 H2.
      apply wpx_bind, wpx_quiet; [apply quiet_mset; [done|quiet_upd]|apply H2|]. intros _ s3 H3.
      pose proof (le_mm_trans _ _ _ (le_mm_trans _ _ _ H1 H2) H3) as H123.
      apply wpx_ret. split; [by eapply inv_le|apply H123].
    + apply Hskip. unfold hanging. by rewrite Eh.
Qed.

(** A change of one entry that keeps the invariant. *)
Record row_ok s c (r' : mproc) : Prop := RowOk {
  row_flags : in_use r' = used s c ∧ hanging r' = hanging (mproc_of s c);
  row_ids : mp_parent r' = mp_parent (mproc_of s c) ∧ mp_pid r' = mp_pid (mproc_of s c);
  row_grp : 0 ≤ mp_procgrp r' ≤ 30000 ∧ (hanging r' = true → mp_procgrp r' = mp_procgrp (mproc_of s c));
  row_kill : kill_ok r';
  row_server : c < INIT_PROC_NR → waiting r' = false;
  row_wait : waiting r' = true → ∀ i, in_table i = true → used s i = true → hanging (mproc_of s i) = true →
    mp_parent (mproc_of s i) = c → right_child (mp_wpid r') (mproc_of s i) = false
}.

Lemma row_inv s c r' : mm_inv s → in_table c = true → row_ok s c r' →
  mm_inv (s <| mproc_of := <[c := r']> (mproc_of s) |>).
Proof.
  intros [I1 I2 I3 I4 I5 (I6a & I6b) I6 I7 I8 I9] Hc [(Ru & Rh) (Rp & Ri) (Rg & Rg') Rk Rs Rw].
  set (s' := s <| mproc_of := _ |>).
  assert (Hm : ∀ i, mproc_of s' i = if decide (i = c) then r' else mproc_of s i) by (intros i; apply proc_set).
  assert (Hsame : ∀ i, used s' i = used s i ∧ hanging (mproc_of s' i) = hanging (mproc_of s i) ∧
    mp_parent (mproc_of s' i) = mp_parent (mproc_of s i) ∧ mp_pid (mproc_of s' i) = mp_pid (mproc_of s i)).
  { intros i. unfold used at 1. rewrite Hm. by case_decide as E; [subst|]. }
  assert (Hrc : ∀ w i, hanging (mproc_of s i) = true → right_child w (mproc_of s' i) = right_child w (mproc_of s i)).
  { intros w i Hh. unfold right_child. rewrite Hm. case_decide as E; [subst|done]. rewrite Ri, Rg'; [done|congruence]. }
  split.
  - change (procs_in_use s') with (procs_in_use s). rewrite I1. unfold count_used. do 2 f_equal.
    apply list_filter_iff. intros j. by destruct (Hsame j) as (-> & _).
  - intros i Hi. destruct (Hsame i) as (-> & _ & -> & _). destruct (Hsame (mp_parent (mproc_of s i))) as (-> & -> & _).
    by apply I2.
  - intros i Hi Hsk. destruct (Hsame i) as (-> & -> & -> & _). intros Hu Hh. rewrite Hrc by done.
    rewrite Hm. case_decide as E; [intros Hw; by apply Rw|]. by apply I3.
  - intros i Hi. destruct (Hsame i) as (_ & _ & _ & ->). rewrite Hm. split; [by apply I4|].
    case_decide; [done|by apply I4].
  - intros i j Hi Hj. destruct (Hsame i) as (-> & _ & _ & ->), (Hsame j) as (-> & _ & _ & ->). by apply I5.
  - by destruct (Hsame INIT_PROC_NR) as (-> & _ & -> & _).
  - intros i Hi. destruct (Hsame i) as (-> & -> & -> & _). destruct (I6 i Hi) as (? & ? & ? & ?). split_and!; try done; try lia.
    rewrite Hm. case_decide; [apply Rs; lia|done].
  - done.
  - intros i Hi. rewrite Hm. case_decide; [done|by apply I8].
  - done.
Qed.

Lemma do_waitpid_run s : calling s → wpx mm_panics do_waitpid (λ _ s', call_post s s') s.
Proof.
  intros Hcall. pose proof Hcall as (Hi & Hm & Hw & Hl & Hb). destruct (calling_table s Hcall) as [Hmt Hwt].
  unfold do_waitpid. do 4 apply wpx_bind, wpx_gets. apply wpx_bind, wpx_mget; [done|].
  set (grp := mp_procgrp _). set (opt := if mm_call s =? WAIT then 0 else _). set (p0 := if mm_call s =? WAIT then -1 else _).
  assert (Hp0 : - 2 ^ 15 ≤ p0 < 2 ^ 15) by (unfold p0; case_match; lia). clearbody p0 opt.
  set (pidarg := if p0 =? 0 then _ else p0).
  assert (Hpid : - 2 ^ 15 ≤ pidarg < 2 ^ 15).
  { unfold pidarg. case_match; [|done]. unfold s16. pose proof (Z.mod_pos_bound (- grp + 2 ^ 15) (2 ^ 16)). lia. }
  clearbody pidarg. apply wpx_bind. eapply wpx_mono; [apply (wait_loop_run s (who s)); [done|done|intros i; apply slot_in]|].
  cbn beta. intros [children|] s1; [|by intros; apply wpx_ret]. intros [-> Hno].
  assert (Hs : call_post s s) by done.
  destruct (0 <? children); [|by apply wpx_ret]. destruct (has opt WNOHANG); [by apply wpx_ret|].
  apply wpx_bind, wpx_mset; [done|]. match goal with |- wpx _ _ _ ?st => set (s1 := st) end.
  assert (Hi1 : mm_inv s1).
  { unfold s1. apply row_inv; [done..|]. rewrite Hm. pose proof Hl as [Hu Hh%negb_true_iff]%andb_true_iff.
    unfold hanging in Hh. split; unfold in_use, hanging, waiting; cbn; rewrite ?has_setf_other by done.
    - done.
    - done.
    - split; [by apply Hi|congruence].
    - apply (inv_kill _ _ _ _ Hi _ Hwt).
    - lia.
    - intros _ i Hit Hui Hhi Hpi. apply acceptable_right; [done| | |by apply Hno, Hpi; try apply slot_in].
      + by apply Hi.
      + by apply Hi. }
  apply wpx_bind, wpx_modify, wpx_ret. split; [|done].
  eapply inv_le; [exact Hi1|]. by apply (quiet_modify (λ s, s <| dont_reply := true |>)); [|apply Hi1].
Qed.

(** ** The calls that only touch the entry of the caller *)
Lemma do_brk_run s : calling s → wpx mm_panics do_brk (λ _ s', call_post s s') s.
Proof.
  intros Hc. destruct (calling_table s Hc) as [Hmt Hwt]. unfold do_brk. reads. apply call_quiet; [apply Hc|]. quiet_steps.
Qed.
Lemma do_signal_run s : calling s → wpx mm_panics do_signal (λ _ s', call_post s s') s.
Proof.
  intros Hc. destruct (calling_table s Hc) as [Hmt Hwt]. unfold do_signal. reads. apply call_quiet; [apply Hc|].
  destruct (_ || _); [apply quiet_ret|]. destruct (Z.eqb_spec (m2_i1 (mm_in s)) SIGKILL) as [|Hne]; [apply quiet_ret|].
  quiet_steps.
Qed.
Lemma do_sigaction_run s : calling s → wpx mm_panics do_sigaction (λ _ s', call_post s s') s.
Proof.
  intros Hc. destruct (calling_table s Hc) as [Hmt Hwt]. unfold do_sigaction. reads. apply call_quiet; [apply Hc|].
  destruct (Z.eqb_spec (m2_i2 (mm_in s)) SIGKILL) as [|Hne]; [apply quiet_ret|].
  destruct (_ || _) eqn:Er; [apply quiet_ret|]. apply orb_false_iff in Er as [E1%Z.ltb_ge E2%Z.ltb_ge].
  unfold sigact_at. rewrite (proj2 (sigisvalid_spec (m2_i2 (mm_in s)))) by (unfold NSIG in *; lia).
  quiet_steps. apply kill_del_self.
Qed.
Lemma do_sigpending_run s : calling s → wpx mm_panics do_sigpending (λ _ s', call_post s s') s.
Proof.
  intros Hc. destruct (calling_table s Hc) as [Hmt Hwt]. unfold do_sigpending. reads. apply call_quiet; [apply Hc|]. quiet_steps.
Qed.
Lemma do_alarm_run s : calling s → wpx mm_panics do_alarm (λ _ s', call_post s s') s.
Proof.
  intros Hc. destruct (calling_table s Hc) as [Hmt Hwt]. unfold do_alarm. reads. apply call_quiet; [apply Hc|]. quiet_steps.
Qed.
Lemma do_pause_run s : calling s → wpx mm_panics do_pause (λ _ s', call_post s s') s.
Proof.
  intros Hc. destruct (calling_table s Hc) as [Hmt Hwt]. unfold do_pause. reads. apply call_quiet; [apply Hc|]. quiet_steps.
Qed.

Lemma do_getset_run s : calling s → wpx mm_panics do_getset (λ _ s', call_post s s') s.
Proof.
  intros Hc. destruct (calling_table s Hc) as [Hmt Hwt]. pose proof Hc as (Hi & Hm & Hw & Hl & _).
  unfold do_getset. reads. set (r := mproc_of s (mp s)) in *. set (c := mm_call s).
  assert (Hpt : in_table (mp_parent r) = true) by (destruct (inv_parent _ _ _ _ Hi (mp s) Hmt) as [? _]; done).
  do 5 (match goal with |- wpx _ (if ?b then _ else _) _ _ => destruct b end; [apply call_quiet; [done|quiet_steps]|]).
  destruct (c =? SETSID); [|apply call_quiet; [done|quiet_steps]].
  destruct (mp_procgrp r =? mp_pid r); [apply call_quiet; [done|quiet_steps]|].
  apply wpx_bind, wpx_mset; [done|]. match goal with |- wpx _ _ _ ?st => set (s1 := st) end.
  assert (Hi1 : mm_inv s1 ∧ who s1 = who s).
  { split; [|done]. unfold s1. apply row_inv; [done..|]. fold r.
    pose proof Hl as [Hu Hh%negb_true_iff]%andb_true_iff. rewrite <- Hm in Hh. fold r in Hh.
    split; try done.
    - cbn. split; [by apply Hi|]. change (hanging r = true → mp_pid r = mp_procgrp r). congruence.
    - apply (inv_kill _ _ _ _ Hi (mp s) Hmt).
    - unfold INIT_PROC_NR in *. lia.
    - intros Hwr i Hit Hui Hhi Hpi. pose proof (inv_wait _ _ _ _ Hi i Hit) as Hx. rewrite Hpi in Hx. apply Hx; [by intros []|done..]. }
  destruct Hi1 as [Hi1 Ew]. clearbody s1. eapply wpx_mono; [apply call_quiet; [done|]|].
  - quiet_steps.
  - cbn beta. intros _ s2 [? ?]. split; [done|congruence].
Qed.

(** ** The calls that may deliver a pending signal *)
Lemma check_pending_run s : mm_inv s → INIT_PROC_NR ≤ mp s < NR_PROCS → live s (mp s) = true →
  wpx mm_panics check_pending (λ _ s', sig_post s s') s.
Proof.
  intros Hi Hm Hl. assert (Hmt : in_table (mp s) = true) by (unfold in_table, INIT_PROC_NR in *; lia).
  unfold check_pending. apply wpx_bind.
  apply (wpx_for_each mm_panics (λ s', mm_inv s' ∧ s' = s)); [|done|].
  - intros x s1 Hx [_ ->]. reads. destruct (_ && _); [|by apply wpx_ret].
    apply wpx_bind, wpx_quiet; [apply quiet_mset; [done|quiet_upd]|apply Hi|]. intros _ s1 H1.
    destruct (le_vars _ _ H1) as (_ & Em & _).
    apply wpx_bind. eapply wpx_mono; [apply (sig_proc_run exit_fuel mm_exit exit_fuel_ok)|].
    + by eapply inv_le.
    + by rewrite Em.
    + done.
    + by rewrite (le_live s s1).
    + apply lives_fuel.
    + apply elem_of_seqZ in Hx. lia.
    + cbn beta. intros _ s2 H2. do 2 apply wpx_ret. by eapply sig_post_le.
  - intros s1 [_ ->]. by apply wpx_ret, sig_post_quiet, le_mm_refl, Hi.
Qed.

Lemma check_pending_call s : calling s → wpx mm_panics check_pending (λ _ s', call_post s s') s.
Proof.
  intros (Hi & Hm & Hw & Hl & _). eapply wpx_mono; [apply check_pending_run; rewrite ?Hm; done|].
  cbn beta. intros _ s'. apply sig_call.
Qed.

(** Looking for pending signals after quiet operations. *)
Lemma pending_le s s1 : calling s → le_mm s s1 → wpx mm_panics check_pending (λ _ s', call_post s s') s1.
Proof.
  intros (Hi & Hm & Hw & Hl & _) Hle. destruct (le_vars _ _ Hle) as (_ & Em & _).
  eapply wpx_mono; [apply check_pending_run; rewrite ?Em, ?Hm; [by eapply inv_le|done|by rewrite (le_live s s1)]|].
  cbn beta. intros _ s' H'. by eapply call_le, sig_call.
Qed.

(** The masks of [do_sigprocmask] leave SIGKILL alone. *)
Lemma kill_fold (f : Z → Z → Z) l m :
  (∀ m i, i ∈ l → Z.testbit m SIGKILL = false → Z.testbit (f m i) SIGKILL = false) →
  Z.testbit m SIGKILL = false → Z.testbit (foldl f m l) SIGKILL = false.
Proof.
  revert m. induction l as [|i l IH]; intros m Hf Hm; [done|]. apply IH; [intros ???; apply Hf; by right|].
  apply Hf; [left|done].
Qed.
Lemma kill_block set m : Z.testbit set SIGKILL = false → Z.testbit m SIGKILL = false →
  Z.testbit (block_sigs set m) SIGKILL = false.
Proof.
  intros Hs. apply kill_fold. intros m' i Hi Hm. destruct (ismember set i) eqn:E; [|done].
  apply kill_add; [|done]. intros ->. unfold ismember in E. by rewrite sigismember_testbit, Hs in E.
Qed.
Lemma kill_unblock set m : Z.testbit m SIGKILL = false → Z.testbit (unblock_sigs set m) SIGKILL = false.
Proof. apply kill_fold. intros m' i Hi Hm. destruct (ismember set i); [by apply kill_del|done]. Qed.

Lemma do_sigprocmask_run s : calling s → wpx mm_panics do_sigprocmask (λ _ s', call_post s s') s.
Proof.
  intros Hc. destruct (calling_table s Hc) as [Hmt Hwt]. pose proof Hc as (Hi & Hm & Hw & Hl & _).
  unfold do_sigprocmask. reads. apply wpx_bind, wpx_quiet; [by apply quiet_modify|apply Hi|]. intros _ s1 H1.
  pose proof (inv_le _ _ _ _ _ Hi H1) as Hi1.
  assert (Hq : ∀ g, quiet_upd g → wpx mm_panics (mset (mp s) g;; check_pending;; mret OK) (λ _ s', call_post s s') s1).
  { intros g Hg. apply wpx_bind, wpx_quiet; [by apply quiet_mset|apply Hi1|]. intros _ s2 H2. apply wpx_bind.
    eapply wpx_mono; [apply (pending_le s); [done|exact (le_mm_trans _ _ _ H1 H2)]|]. cbn beta. intros. by apply wpx_ret. }
  assert (Hret : ∀ r, wpx mm_panics (mret r) (λ (_ : Z) s', call_post s s') s1).
  { intros r. apply wpx_ret. split; [done|apply H1]. }
  repeat match goal with |- wpx _ (if ?b then _ else _) _ _ => destruct b end; try apply Hret.
  - apply wpx_bind, wpx_quiet; [apply quiet_mset; [done|]|apply Hi1|].
    + quiet_upd. apply kill_block; [apply kill_del_self|done].
    + intros _ s2 H2. apply wpx_ret. pose proof (le_mm_trans _ _ _ H1 H2) as H12. split; [by eapply inv_le|apply H12].
  - apply Hq. quiet_upd. by apply kill_unblock.
  - apply Hq. quiet_upd. apply kill_del_self.
Qed.

Lemma do_sigsuspend_run s : calling s → wpx mm_panics do_sigsuspend (λ _ s', call_post s s') s.
Proof.
  intros Hc. destruct (calling_table s Hc) as [Hmt Hwt]. pose proof Hc as (Hi & _).
  unfold do_sigsuspend. reads. apply wpx_bind, wpx_quiet; [apply quiet_mset; [done|quiet_upd; apply kill_del_self]|apply Hi|].
  intros _ s1 H1. apply wpx_bind, wpx_quiet; [by apply quiet_modify|apply H1|]. intros _ s2 H2. apply wpx_bind.
  eapply wpx_mono; [apply (pending_le s); [done|exact (le_mm_trans _ _ _ H1 H2)]|]. cbn beta. intros. by apply wpx_ret.
Qed.

Lemma do_sigreturn_run s : calling s → wpx mm_panics do_sigreturn (λ _ s', call_post s s') s.
Proof.
  intros Hc. destruct (calling_table s Hc) as [Hmt Hwt]. pose proof Hc as (Hi & _).
  unfold do_sigreturn. reads. apply wpx_bind, wpx_quiet; [apply quiet_mset; [done|quiet_upd; apply kill_del_self]|apply Hi|].
  intros _ s1 H1. apply wpx_bind, wpx_quiet; [apply quiet_call|apply H1|]. intros a s2 H2. apply wpx_bind.
  eapply wpx_mono; [apply (pending_le s); [done|exact (le_mm_trans _ _ _ H1 H2)]|]. cbn beta. intros. by apply wpx_ret.
Qed.

(** ** Signals from users and from the kernel *)
Lemma check_sig_call s id signo : mm_inv s → in_table (mp s) = true →
  wpx mm_panics (check_sig id signo) (λ _ s', sig_post s s') s.
Proof. intros Hi Hm. apply (check_sig_run exit_fuel mm_exit exit_fuel_ok); [done..|apply lives_fuel]. Qed.

Lemma do_kill_run s : calling s → wpx mm_panics do_kill (λ _ s', call_post s s') s.
Proof.
  intros Hc. destruct (calling_table s Hc) as [Hmt _]. unfold do_kill. reads.
  eapply wpx_mono; [apply check_sig_call; [apply Hc|done]|]. intros r s'. apply sig_call.
Qed.

Lemma do_reboot_run s : calling s → wpx mm_panics do_reboot (λ _ s', call_post s s') s.
Proof.
  intros Hc. destruct (calling_table s Hc) as [Hmt Hwt]. pose proof Hc as (Hi & _). unfold do_reboot. reads.
  destruct (negb _); [by apply wpx_ret|]. apply wpx_bind, wpx_quiet; [quiet_steps|apply Hi|].
  intros [code|r] s1 H1; [|apply wpx_ret; split; [by eapply inv_le|apply H1]].
  apply wpx_bind. eapply wpx_mono; [apply check_sig_call; [by eapply inv_le|]|].
  { by destruct (le_vars _ _ H1) as (_ & -> & _). }
  cbn beta. intros _ s2 [Hi2 _]. apply wpx_bind, wpx_quiet; [apply quiet_tell|apply Hi2|]. intros _ s3 H3.
  apply wpx_bind, wpx_quiet; [apply quiet_tell|apply H3|]. intros _ s4 H4.
  apply wpx_bind, wpx_quiet; [apply quiet_call|apply H4|]. intros _ s5 _. apply wpx_panic. unfold mm_panics. set_solver.
Qed.

(** The state during the handling of kernel signals: MM acts for itself. *)
Definition acting s (s' : mmst) : Prop := mm_inv s' ∧ mp s' = 0 ∧ who s' = who s.

Lemma acting_sig s s1 s2 : acting s s1 → sig_post s1 s2 → acting s s2.
Proof. intros (Hi & Hm & Hw) [Hi2 Hf]. destruct (ef_vars _ _ Hf) as (Em & Ew & _). split_and!; [done|congruence..]. Qed.
Lemma acting_le s s1 s2 : acting s s1 → le_mm s1 s2 → acting s s2.
Proof. intros Ha Hle. eapply acting_sig; [done|]. apply sig_post_quiet; [apply Ha|done]. Qed.

Lemma ksig_step_run s s1 p id map i : acting s s1 → in_table p = true →
  wpx mm_panics (ksig_step p id map i) (λ _ s', acting s s') s1.
Proof.
  intros Ha Hp. unfold ksig_step. destruct (negb _); [by apply wpx_ret|]. destruct (i =? SIGSTKFLT); [by apply wpx_ret|].
  apply wpx_bind, wpx_quiet; [quiet_steps|apply Ha|]. intros [x|] s2 H2; pose proof (acting_le _ _ _ Ha H2) as Ha2; [|by apply wpx_ret].
  apply wpx_bind. eapply wpx_mono; [apply check_sig_call; [apply Ha2|by destruct Ha2 as (_ & -> & _)]|].
  cbn beta. intros _ s3 H3. pose proof (acting_sig _ _ _ Ha2 H3) as Ha3.
  apply wpx_bind, wpx_quiet; [apply quiet_call|apply Ha3|]. intros _ s4 H4. apply wpx_ret. by eapply acting_le.
Qed.

Lemma stack_fault_run s s1 p : acting s s1 → INIT_PROC_NR ≤ p < NR_PROCS → live s1 p = true →
  wpx mm_panics (stack_fault p) (λ _ s', acting s s') s1.
Proof.
  intros Ha Hp Hl. assert (Hpt : in_table p = true) by (unfold in_table, INIT_PROC_NR in *; lia). unfold stack_fault.
  apply wpx_bind, wpx_quiet; [apply quiet_getsp|apply Ha|]. intros sp s2 H2.
  apply wpx_bind, wpx_mget; [done|]. apply wpx_bind, wpx_quiet; [by apply quiet_adjust|apply H2|]. intros r s3 H3.
  pose proof (le_mm_trans _ _ _ H2 H3) as H23. destruct (r =? OK); [apply wpx_ret; by eapply acting_le|].
  apply wpx_bind, wpx_quiet; [apply quiet_mset; [done|quiet_upd; by apply (kill_del (mp_catch r0) SIGSEGV)]|apply H23|]. intros _ s4 H4.
  pose proof (le_mm_trans _ _ _ H23 H4) as H24. pose proof (acting_le _ _ _ Ha H24) as Ha4.
  eapply wpx_mono; [apply (sig_proc_run exit_fuel mm_exit exit_fuel_ok)|].
  - apply Ha4.
  - by destruct Ha4 as (_ & -> & _).
  - done.
  - by rewrite (le_live s1 s4).
  - apply lives_fuel.
  - done.
  - cbn beta. intros _ s5 H5. by eapply acting_sig.
Qed.

Lemma do_ksig_run s :
  mm_inv s → in_table (m2_i1 (mm_in s)) = true →
  (ismember (u32 (m2_l1 (mm_in s))) SIGSTKFLT = true → INIT_PROC_NR ≤ m2_i1 (mm_in s)) →
  wpx mm_panics do_ksig (λ _ s', call_post s s') s.
Proof.
  intros Hi Hp Hstk. unfold do_ksig. apply wpx_bind, wpx_gets. destruct (negb (who s =? HARDWARE)); [by apply wpx_ret|].
  apply wpx_bind, wpx_modify. cbv beta. apply wpx_bind, wpx_gets. set (m := mm_in _) in *. change (mm_in _) with m in Hp, Hstk.
  set (p := m2_i1 m) in *. set (map := u32 (m2_l1 m)) in *. clearbody map.
  apply wpx_bind, wpx_row; [done|]. change (mproc_of _ p) with (mproc_of s p).
  destruct (negb _ || _) eqn:E.
  { apply wpx_ret. split; [|done]. eapply inv_le; [exact Hi|]. apply (quiet_modify (λ s, s <| dont_reply := true |>)); [done|apply Hi]. }
  apply orb_false_iff in E as [Hu%negb_false_iff Hh]. cbv zeta. apply wpx_bind, wpx_modify. apply wpx_bind, wpx_mset; [done|].
  match goal with |- wpx _ _ _ ?st => set (s1 := st) end.
  assert (Ha : acting s s1 ∧ live s1 p = live s p).
  { assert (Hlp : live s1 p = live s p).
    { unfold live, used, s1, hanging, in_use. cbn. rewrite proc_set. by case_decide as Ep; [rewrite Ep|]. }
    split; [|done]. split_and!; [|done..].
    set (s0 := s <| dont_reply := true |> <| mp := 0 |>).
    assert (H0 : mm_inv s0) by (destruct Hi; by split).
    destruct (inv_servers _ _ _ _ Hi 0) as (Su & Sh & Sw & Sp); [done|].
    change (mm_inv (s0 <| mproc_of := <[0 := (mproc_of s0 0) <| mp_procgrp := mp_procgrp (mproc_of s p) |>]> (mproc_of s0) |>)).
    apply row_inv; [done..|]. split; try done.
    - cbn. split; [by apply Hi|]. intros Hx. change (hanging (mproc_of s 0) = true) in Hx. congruence.
    - apply (inv_kill _ _ _ _ Hi 0). done.
    - intros Hx. change (waiting (mproc_of s 0) = true) in Hx. congruence. }
  destruct Ha as [Ha Hl1]. assert (Hl : live s1 p = true).
  { rewrite Hl1. unfold live, used, in_use, hanging. by rewrite Hu, Hh. }
  clearbody s1. clear Hl1. apply wpx_bind.
  apply (wpx_mono mm_panics _ (λ _ s', acting s s')).
  - apply wpx_when; [|done]. intros Hs. apply stack_fault_run; [done| |done].
    specialize (Hstk Hs). unfold in_table in Hp. lia.
  - intros _ s2 Ha2. apply wpx_bind. eapply wpx_mono;
      [apply (wpx_fold mm_panics (λ _ _ s', acting s s')); [intros; by apply ksig_step_run|exact Ha2]|].
    cbn beta. intros _ s3 (? & _ & ?). by apply wpx_ret.
Qed.

(** ** Tracing *)
Lemma findproc_run s pid :
  wp (findproc pid) (λ c s', s' = s ∧ (∀ i, c = Some i →
    INIT_PROC_NR < i < NR_PROCS ∧ used s i = true ∧ mp_pid (mproc_of s i) = pid) ∧
    (c = None → ∀ i, INIT_PROC_NR < i < NR_PROCS → used s i = true → mp_pid (mproc_of s i) ≠ pid)) s.
Proof.
  assert (Hin : ∀ i, i ∈ seqZ (INIT_PROC_NR + 1) (NR_PROCS - (INIT_PROC_NR + 1)) → in_table i = true ∧ INIT_PROC_NR < i < NR_PROCS).
  { intros i Hi. apply elem_of_seqZ in Hi. unfold in_table, INIT_PROC_NR, NR_PROCS in *. lia. }
  unfold findproc. apply (wp_for_each_first _ _ (λ i, used s i && (mp_pid (mproc_of s i) =? pid))).
  - intros i Hi Hb. destruct (Hin i Hi) as [Hit _]. unfold mbind, M_bind, mget. rewrite Hit. cbn. unfold id.
    unfold used, in_use in Hb. by rewrite Hb.
  - intros l1 i l2 E _ Hb. assert (Hi : i ∈ seqZ (INIT_PROC_NR + 1) (NR_PROCS - (INIT_PROC_NR + 1))).
    { rewrite E. apply elem_of_app. right. left. }
    destruct (Hin i Hi) as [Hit Hr]. apply wp_bind, wp_row; [done|]. apply wp_ret. pose proof Hb as Hb'.
    unfold used, in_use in Hb'. rewrite Hb'. split; [by eexists|]. split_and!; [done| |done]. intros j [= <-].
    apply andb_true_iff in Hb as [? ?%Z.eqb_eq]. done.
  - intros Hno. split_and!; [done..|]. intros _ i Hi Hu E. specialize (Hno i). rewrite Hu, E, Z.eqb_refl in Hno.
    by discriminate Hno; apply elem_of_seqZ; lia.
Qed.

Lemma quiet_trace q c a d : quiet (trace_request q c a d).
Proof. unfold trace_request. quiet_steps. Qed.

Lemma sig_dead s c signo : in_table c = true → hanging (mproc_of s c) = true →
  wpx (λ w, w = ""%string) (send_sig c signo) (λ _ _, False) s.
Proof.
  intros Hc Hh. unfold send_sig, sig_proc. apply wpx_bind, wpx_row; [done|]. unfold hanging in Hh. rewrite Hh.
  by destruct (negb _); apply wpx_panic.
Qed.

(** The signal with which a stopped process is resumed. *)
Lemma resume_sig s c data : mm_inv s → in_table (mp s) = true → INIT_PROC_NR < c < NR_PROCS → used s c = true → 0 < data ≤ NSIG →
  wpx (λ w, mm_panics w ∨ w = ""%string ∧ hanging (mproc_of s c) = true)
    (mset c (λ r, r <| mp_flags := clrf (mp_flags r) TRACED |>);;
     send_sig c (s16 data);;
     mset c (λ r, r <| mp_flags := setf (mp_flags r) TRACED |>)) (λ _ s', call_post s s') s.
Proof.
  intros Hi Hm Hr Hu Hd. assert (Hct : in_table c = true) by (unfold in_table, INIT_PROC_NR in *; lia).
  apply wpx_bind, (wpx_weaken _ mm_panics); [by left|].
  apply wpx_quiet; [apply quiet_mset; [done|quiet_upd]|apply Hi|]. intros _ s1 H1. apply wpx_bind.
  destruct (hanging (mproc_of s c)) eqn:Hh.
  - apply (wpx_weaken _ (λ w, w = ""%string)); [by right|]. eapply wpx_mono; [apply sig_dead; [done|]|done].
    by rewrite (le_hanging _ _ (le_procs _ _ H1 c)).
  - apply (wpx_weaken _ mm_panics); [by left|].
    eapply wpx_mono; [apply (sig_proc_run exit_fuel mm_exit exit_fuel_ok); [by eapply inv_le| |lia| |apply lives_fuel|]|].
    + by destruct (le_vars _ _ H1) as (_ & -> & _).
    + rewrite (le_live s s1) by done. unfold live. by rewrite Hu, Hh.
    + unfold NSIG in *. rewrite s16_id; lia.
    + cbn beta. intros _ s2 [Hi2 Hw2]%sig_call. apply (wpx_weaken _ mm_panics); [by left|].
      apply wpx_quiet; [apply quiet_mset; [done|quiet_upd]|apply Hi2|].
      intros _ s3 H3. split; [by eapply inv_le|]. destruct (le_vars _ _ H3) as (_ & _ & -> & _). rewrite Hw2. apply H1.
Qed.

Lemma do_trace_run s : calling s →
  wpx (λ w, mm_panics w ∨ w = ""%string ∧ resumes_dead s (mm_in s)) do_trace (λ _ s', call_post s s') s.
Proof.
  intros Hc. destruct (calling_table s Hc) as [Hmt _]. pose proof Hc as (Hi & _). unfold do_trace. reads.
  assert (Hq : ∀ m s', quiet m → call_post s s' →
    wpx (λ w, mm_panics w ∨ w = ""%string ∧ resumes_dead s (mm_in s)) m (λ (_ : Z) s', call_post s s') s').
  { intros m s' Hm [Hi' Hw']. apply (wpx_weaken _ mm_panics); [by left|]. eapply wpx_mono; [by apply call_quiet|].
    cbn beta. intros _ s2 [? ?]. split; [done|congruence]. }
  destruct (m2_i2 (mm_in s) =? T_OK); [apply Hq; [quiet_steps|done]|].
  apply wpx_bind. eapply wpx_mono; [apply wp_wpx, findproc_run|]. cbn beta. intros [child|] s1 (-> & Hch & _); [|by apply wpx_ret].
  destruct (Hch child eq_refl) as (Hr & Hu & Hpid).
  assert (Hct : in_table child = true) by (unfold in_table, INIT_PROC_NR in *; lia). reads.
  destruct (has _ STOPPED) eqn:Hst; [|by apply wpx_ret]. cbn [negb]. destruct (m2_i2 (mm_in s) =? T_EXIT).
  { apply wpx_bind, (wpx_weaken _ mm_panics); [by left|]. eapply wpx_mono; [apply mm_exit_call; try done; lia|].
    cbn beta. intros _ s1 H1%sig_call. apply Hq; [quiet_steps|done]. }
  destruct (_ || _) eqn:Eq; [|apply Hq; [apply quiet_trace|done]].
  destruct ((_ <? 0) || _) eqn:Ed; [by apply wpx_ret|]. apply orb_false_iff in Ed as [_ Ed%Z.ltb_ge].
  apply wpx_bind, (wpx_mono _ _ (λ _ s', call_post s s')).
  - apply wpx_when; [|done]. intros Hd%Z.ltb_lt. eapply wpx_weaken; [|by apply resume_sig].
    intros w [?|[-> Hh]]; [by left|right]. split; [done|]. apply orb_true_iff in Eq.
    split; [by destruct Eq as [?%Z.eqb_eq|?%Z.eqb_eq]; [left|right]|]. split; [lia|]. by exists child.
  - intros _ s1 H1. apply Hq; [|done]. apply quiet_bind; [apply quiet_mset; [done|quiet_upd]|]. intros _. apply quiet_trace.
Qed.

(** ** The main loop *)
Lemma call_vec_cases (P : PM Z → Prop) c :
  P do_mm_exit → P do_fork → P do_waitpid → P do_brk → P do_getset → (c = 26 → P do_trace) → P do_alarm →
  P do_pause → P do_kill → P do_signal → (c = EXEC → P do_exec) → P do_ksig → P do_sigaction → P do_sigsuspend →
  P do_sigpending → P do_sigprocmask → P do_sigreturn → P do_reboot → P no_sys → P (call_vec c).
Proof. intros. unfold call_vec. repeat case_match; auto. Qed.

Lemma reply_run s p a b c : in_table p = true ∨ who s < 0 → holes_wf (mem_holes s) →
  wpx mm_panics (reply p a b c) (λ _ s', le_mm s s') s.
Proof.
  intros [Hp|Hw] Hh; [by apply quiet_reply|]. unfold reply. reads. destruct (Z.leb_spec 0 (who s)); [lia|].
  apply wpx_bind, wpx_ret. apply (wpx_quiet _ (λ _ s', le_mm s s')); [quiet_steps|done|by intros].
Qed.

Lemma mm_main_run s m : mm_inv s → good_request s m → wpx (request_panics s m) (mm_main m) (λ _ s', mm_inv s') s.
Proof.
  intros Hi Hg. unfold mm_main. apply wpx_bind. unfold get_work. apply wpx_modify. apply wpx_bind, wpx_modify.
  match goal with |- wpx _ _ _ ?st => set (s1 := st) end.
  assert (Hi1 : mm_inv s1) by (destruct Hi; by split).
  assert (Hv : mp s1 = m_source m ∧ who s1 = m_source m ∧ mm_in s1 = m ∧ mm_call s1 = m_type m ∧ log s1 = log s ∧ mbuf s1 = mbuf s) by done.
  assert (Hlive : ∀ i, live s1 i = live s i ∧ used s1 i = used s i ∧ mproc_of s1 i = mproc_of s i) by done.
  clearbody s1. destruct Hv as (V1 & V2 & V3 & V4 & Vl & Vb).
  apply wpx_bind, wpx_gets. apply wpx_bind.
  apply (wpx_mono (request_panics s m) _ (λ _ s', call_post s1 s')).
  - destruct (_ || _) eqn:Ec; [by apply wpx_ret|]. rewrite V4.
    assert (Hok : ∀ call : PM Z, wpx mm_panics call (λ _ s', call_post s1 s') s1 →
      wpx (request_panics s m) call (λ _ s', call_post s1 s') s1) by (intros call; apply wpx_weaken; by left).
    destruct Hg as [Hs Ht Hp Hstk|Hs Hl Hr He].
    + rewrite Ht. apply Hok, do_ksig_run; [done|by rewrite V3..].
    + assert (Hc : calling s1).
      { split_and!; [done|congruence|lia|lia| |rewrite V3; lia..]. rewrite V2. by destruct (Hlive (m_source m)) as [-> _]. }
      pose proof Hc as (_ & Hmw & Hw & Hlw & _).
      apply (call_vec_cases (λ call, wpx (request_panics s m) call (λ _ s', call_post s1 s') s1)).
      * by apply Hok, do_mm_exit_run.
      * apply Hok. eapply wpx_mono; [by apply do_fork_run|]. cbn beta. by intros r s' (? & ? & _).
      * by apply Hok, do_waitpid_run.
      * by apply Hok, do_brk_run.
      * by apply Hok, do_getset_run.
      * intros E. eapply wpx_weaken; [|by apply do_trace_run]. intros w [?|[-> Hd]]; [by left|right].
        split_and!; [done..|]. rewrite V3 in Hd. destruct Hd as (Ha & Hb & c & Hd). split_and!; [done|lia..|]. exists c.
        destruct (Hlive c) as (_ & <- & <-). done.
      * by apply Hok, do_alarm_run.
      * by apply Hok, do_pause_run.
      * by apply Hok, do_kill_run.
      * by apply Hok, do_signal_run.
      * intros E. apply Hok. eapply wpx_mono; [apply do_exec_run|].
        { unfold execing. rewrite Hmw. unfold in_table, INIT_PROC_NR in *. split_and!; [apply Hi1|lia..]. }
        { congruence. }
        { rewrite V3. unfold exec_ok. rewrite Vl, Vb. exact (He E). }
        intros r s' H'. split; [by eapply inv_le|apply H'].
      * apply Hok. unfold do_ksig. reads. destruct (Z.eqb_spec (who s1) HARDWARE) as [E|E]; [|by apply wpx_ret].
        exfalso. rewrite E in Hw. by destruct Hw.
      * by apply Hok, do_sigaction_run.
      * by apply Hok, do_sigsuspend_run.
      * by apply Hok, do_sigpending_run.
      * by apply Hok, do_sigprocmask_run.
      * by apply Hok, do_sigreturn_run.
      * by apply Hok, do_reboot_run.
      * by apply wpx_ret.
  - intros error s2 [Hi2 Hw2]. apply (wpx_weaken _ mm_panics); [by left|]. reads. destruct (dont_reply s2); [by apply wpx_ret|]. reads.
    destruct (_ && _); [by apply wpx_ret|]. reads. eapply wpx_mono; [apply reply_run; [|apply Hi2]|].
    + rewrite Hw2, V2. destruct Hg as [Hs _ _ _|Hs _ _ _]; [right; by rewrite Hs|left].
      unfold in_table, INIT_PROC_NR in *. lia.
    + cbn beta. intros _ s3 H3. by eapply inv_le.
Qed.
End run.
