(* ===== verification/Mm.v ===== *)
(** * The memory manager: safety of the main loop

    [mm_init] establishes [mm_inv] and every message a process or the kernel can
    send keeps it; MM neither accesses a table out of bounds nor loops nor
    panics, but for the reasons in [request_panics]. *)

From S2P Require Import Prelude Chain Alloc Holewf Sigset Proc Mproc Signal Mcalls Exec Mmain Minv Mexit Mfork Mexec Mrun.

(** The static data of MM, all zero but for [next_pid]. *)
Definition zero_map : mem_map := MemMap 0 0 0.
Definition zero_mproc : mproc :=
  Mproc zero_map zero_map zero_map 0 0 0 0 0 0 0 0 0 0 0 0 0 0 0 0 0 0 (λ _, Sigaction 0 0 0) 0 0 0 0.
Definition zero_msg : message := Message 0 0 0 0 0 0 0 0 0.
Definition zero_mm : mmst :=
  Mmst (λ _, zero_mproc) 0 false 0 zero_msg zero_msg 0 0 0 0 (INIT_PID + 1) 0 0 zero_holes (λ _, 0) [] [].

(** What can happen to MM. *)
Inductive mm_reachable `{Servers} (tot : Z) (mem : list memory) (mess : message) : mmst → Prop :=
| reach_init s : mm_init tot mem mess zero_mm = Ret tt s → mm_reachable tot mem mess s
| reach_step s m s' : mm_reachable tot mem mess s → good_request s m → mm_main m s = Ret tt s' →
    mm_reachable tot mem mess s'.

Section init.
Context `{SV : Servers}.
Implicit Types (s : mmst).

(** An entry of the table before ([b = false]) and after [mm_init] has set it up. *)
Definition new_row (b : bool) (r : mproc) : Prop :=
  in_use r = b ∧ hanging r = false ∧ waiting r = false ∧ mp_parent r = 0 ∧ mp_pid r = 0 ∧ mp_procgrp r = 0 ∧ kill_ok r.
Definition booting s (k : Z) : Prop :=
  (∀ i, new_row ((0 <=? i) && (i <? k)) (mproc_of s i)) ∧ next_pid s = INIT_PID + 1 ∧ mem_holes s = zero_holes.

Lemma zero_booting : booting zero_mm 0.
Proof.
  split_and!; [|done..]. intros i. replace ((0 <=? i) && (i <? 0)) with false by lia. by split_and!.
Qed.
Lemma booting_eq s s' k : mproc_of s' = mproc_of s → next_pid s' = next_pid s → mem_holes s' = mem_holes s →
  booting s k → booting s' k.
Proof. unfold booting. by intros -> -> ->. Qed.

Lemma boot_row s k i r : booting s k → new_row ((0 <=? i) && (i <? k)) r →
  booting (s <| mproc_of := <[i := r]> (mproc_of s) |>) k.
Proof.
  intros (Hr & Hn & Hh) Hg. split_and!; [|done..]. intros j. cbn. rewrite proc_set. case_decide; [by subst|done].
Qed.

(** One round of the loop of [mm_init]. *)
Lemma boot_step s k : 0 ≤ k < NR_PROCS → booting s k →
  wp (mset k (λ r, r <| mp_flags := setf (mp_flags r) IN_USE |>);;
      g ← sys_getmap k;
      mset k (λ r, r <| mp_seg_T := g.1.1 |> <| mp_seg_D := g.1.2 |> <| mp_seg_S := g.2 |>);;
      t ← mget mp_seg_T k;
      when (negb (mem_len t =? 0)) (mset k (λ r, r <| mp_flags := setf (mp_flags r) SEPARATE |>)))
    (λ _ s', booting s' (k + 1)) s.
Proof.
  intros Hk Hb. assert (Hkt : in_table k = true) by (unfold in_table; lia).
  apply wp_bind, wp_mset; [done|]. match goal with |- wp _ _ ?st => set (s1 := st) end.
  assert (Hb1 : booting s1 (k + 1)).
  { destruct Hb as (Hr & Hn & Hh). split_and!; [|done..]. intros j. unfold s1. cbn. rewrite proc_set. case_decide as E.
    - subst j. replace ((0 <=? k) && (k <? k + 1)) with true by lia. destruct (Hr k) as (_ & R2 & R3 & R4 & R5 & R6 & R7).
      unfold hanging, waiting in R2, R3. unfold new_row, in_use, hanging, waiting. cbn.
      rewrite has_setf_same, !has_setf_other by done. by split_and!.
    - replace ((0 <=? j) && (j <? k + 1)) with ((0 <=? j) && (j <? k)) by lia. apply Hr. }
  clearbody s1. unfold sys_getmap. apply wp_bind, wp_bind. eapply wp_eq; [done|]. apply wp_ret.
  match goal with |- wp _ _ ?st => set (s2 := st) end.
  assert (Hb2 : booting s2 (k + 1)) by (by apply (booting_eq s1)). clearbody s2.
  apply wp_bind, wp_mset; [done|]. match goal with |- wp _ _ ?st => set (s3 := st) end.
  assert (Hb3 : booting s3 (k + 1)).
  { unfold s3. apply boot_row; [done|]. destruct Hb2 as (Hr & _). by specialize (Hr k). }
  clearbody s3. apply wp_bind, wp_mget; [done|]. apply wp_when; [|done]. intros _. apply wp_mset; [done|].
  apply boot_row; [done|]. destruct Hb3 as (Hr & _). destruct (Hr k) as (R1 & R2 & R3 & R4 & R5 & R6 & R7).
  unfold new_row, in_use, hanging, waiting in *. cbn. rewrite !has_setf_other by done. by split_and!.
Qed.

(** The state of MM when the table is complete and INIT has its process id. *)
Lemma booted_inv s :
  (∀ i, new_row ((0 <=? i) && (i <? INIT_PROC_NR + 1)) (mproc_of s i)) → next_pid s = INIT_PID + 1 →
  let s' := s <| mproc_of := <[INIT_PROC_NR := (mproc_of s INIT_PROC_NR) <| mp_pid := INIT_PID |> <| mp_ignore := 0 |>
                                                                      <| mp_catch := 0 |>]> (mproc_of s) |>
             <| procs_in_use := LOW_USER + 1 |> in
  holes_wf (mem_holes s') → mm_inv s'.
Proof.
  intros Hr Hn s' Hh.
  assert (Hrow : ∀ i, new_row ((0 <=? i) && (i <? 4)) ((mproc_of s' i) <| mp_pid := 0 |>) ∧
    mp_pid (mproc_of s' i) = if decide (i = INIT_PROC_NR) then 1 else 0).
  { intros i. unfold s'. cbn. rewrite proc_set. case_decide as E.
    - subst i. destruct (Hr INIT_PROC_NR) as (R1 & R2 & R3 & R4 & R5 & R6 & (R7 & R8 & R9 & R10)). by split_and!.
    - destruct (Hr i) as (R1 & R2 & R3 & R4 & R5 & R6 & (R7 & R8 & R9 & R10)). by split_and!. }
  assert (Hu : ∀ i, used s' i = ((0 <=? i) && (i <? 4))) by (intros i; by destruct (Hrow i) as [(? & _) _]).
  assert (Hf : ∀ i, hanging (mproc_of s' i) = false ∧ waiting (mproc_of s' i) = false ∧ mp_parent (mproc_of s' i) = 0 ∧
    mp_procgrp (mproc_of s' i) = 0 ∧ kill_ok (mproc_of s' i)).
  { intros i. destruct (Hrow i) as [(_ & R2 & R3 & R4 & _ & R6 & R7) _]. by split_and!. }
  split.
  - cbn. unfold count_used. rewrite (list_filter_iff _ (λ i, (0 <=? i) && (i <? 4) = true)); [by vm_compute|].
    intros i. by rewrite Hu.
  - intros i Hi. destruct (Hf i) as (_ & _ & -> & _). split; [done|]. intros _. right. rewrite Hu.
    split; [done|]. destruct (Hf 0) as (-> & _). done.
  - intros i Hi _ _ E. destruct (Hf i) as (E' & _). congruence.
  - intros i Hi. destruct (Hrow i) as [_ ->]. destruct (Hf i) as (_ & _ & _ & -> & _). case_decide; lia.
  - intros i j Hi Hj. rewrite !Hu. unfold INIT_PROC_NR in *. lia.
  - rewrite Hu. destruct (Hf INIT_PROC_NR) as (_ & _ & -> & _). done.
  - intros i Hi. rewrite Hu. destruct (Hf i) as (-> & -> & -> & _). unfold INIT_PROC_NR in *. lia.
  - cbn. rewrite Hn. done.
  - intros i _. by destruct (Hf i) as (_ & _ & _ & _ & ?).
  - done.
Qed.

Lemma mem_init_wf tot mem : chunks_ok mem → (length mem ≤ 128)%nat →
  wp (mem_init tot 0 mem) (λ _ h, holes_wf h) zero_holes.
Proof.
  intros Hmem Hlen. assert (Hl : (length (nz mem) ≤ length mem)%nat) by apply length_filter.
  unfold mem_init. do 2 wp_step. eapply wp_mono.
  { apply (mem_init_loop tot _ 0 0 mem _ []); [by apply init_empty, zero_holes_ok|lia|cbn; lia|by apply chunks_ok_filter|].
    intros m x _ _. apply free_click_nil. }
  intros r s' (hs & (_ & L & F & Hr) & _). by exists L, F, hs.
Qed.

Lemma on_holes_run {A} (m : M holes A) (Q : A → mmst → Prop) s :
  wp m (λ a h, Q a (s <| mem_holes := h |>)) (mem_holes s) → wp (on_holes m) Q s.
Proof. unfold wp, on_holes. by destruct (m (mem_holes s)). Qed.

Lemma mm_init_run tot mem mess : chunks_ok mem → (length mem ≤ 128)%nat →
  wpx (λ _, True) (mm_init tot mem mess) (λ _ s', mm_inv s') zero_mm.
Proof.
  intros Hmem Hlen. unfold mm_init. apply wpx_bind, wpx_modify.
  match goal with |- wpx _ _ _ ?st => set (s0 := st) end.
  assert (H0 : booting s0 0) by (apply (booting_eq zero_mm); [done..|apply zero_booting]). clearbody s0.
  unfold sys_getmap at 1. apply wpx_bind, wpx_bind.
  apply (wpx_mono _ _ (λ _ s', booting s' 0)); [by apply wp_wpx; eapply wp_eq; [done|apply (booting_eq s0)]|].
  intros a s1 H1. apply wpx_ret, wpx_bind.
  eapply wpx_mono; [apply (wpx_fold (λ _, True) (λ l _ s', ∃ k, 0 ≤ k ≤ INIT_PROC_NR + 1 ∧ l = seqZ k (INIT_PROC_NR + 1 - k) ∧ booting s' k))|].
  - intros _ k l s2 (k' & Hk' & El & Hb). assert (k' < INIT_PROC_NR + 1).
    { destruct (decide (k' = INIT_PROC_NR + 1)) as [->|]; [done|lia]. }
    rewrite seqZ_cons in El by lia. injection El as <- ->. apply wp_wpx. eapply wp_mono; [apply (boot_step s2 k); [|done]|].
    { unfold INIT_PROC_NR, NR_PROCS in *. lia. }
    cbn beta. intros _ s3 H3. exists (k + 1). split_and!; [lia..| |done]. f_equal; lia.
  - exists 0. by split_and!.
  - cbn beta. intros _ s2 (k & Hk & El & Hb). assert (k = INIT_PROC_NR + 1) as ->.
    { destruct (decide (k = INIT_PROC_NR + 1)); [done|]. rewrite seqZ_cons in El by lia. done. }
    apply wpx_bind, wp_wpx, wp_mset; [done|]. apply wpx_bind, wpx_modify.
    match goal with |- wpx _ _ _ ?st => set (s3 := st) end.
    assert (Hs3 : mem_holes s3 = zero_holes ∧ ∀ h, holes_wf h → mm_inv (s3 <| mem_holes := h |>)).
    { destruct Hb as (Hr & Hn & Hh). split; [done|]. intros h Hwf. pose proof (booted_inv (s2 <| mem_holes := h |>)) as Hx. exact (Hx Hr Hn Hwf). }
    clearbody s3. destruct Hs3 as [Ez Hs3]. apply wpx_bind, wp_wpx, on_holes_run. rewrite Ez.
    eapply wp_mono; [by apply mem_init_wf|]. cbn beta. intros _ h Hh. specialize (Hs3 h Hh).
    assert (Hq : ∀ m : PM unit, (∀ s, holes_wf (mem_holes s) → wpx (λ _, True) m (λ _ s', le_mm s s') s) →
      wpx (λ _, True) m (λ _ s', mm_inv s') (s3 <| mem_holes := h |>)).
    { intros m Hm. eapply wpx_mono; [apply Hm; exact Hh|]. intros u s4 H4. by eapply inv_le. }
    apply Hq. intros s4 H4. apply wpx_bind, wpx_weaken with mm_panics; [done|].
    apply wpx_call; [done|]. intros s5 H5. apply wpx_bind, wpx_when; [by intros; apply wpx_panic|]. intros _.
    apply wpx_weaken with mm_panics; [done|]. apply (wpx_quiet _ (λ _ s', le_mm s4 s')); [quiet_steps|apply H5|].
    intros _ s6 H6. exact (le_mm_trans _ _ _ H5 H6).
Qed.
End init.

(** ** Servers and states for the witnesses *)

(** Servers that answer every call with success; the kernel refuses to be dumped. *)
#[local] Instance obliging : Servers := λ _ c,
  match c with SysTrace r _ _ _ => [if r =? 3 then -1 else 0] | WriteFd _ _ n => [n] | _ => [0] end.
#[local] Instance obliging_ok : ServersOk.
Proof.
  split; [done|]. intros l fd a n Hn. right. change (s16 n = n). change DUMP_SIZE with 31744 in Hn. by rewrite s16_id by lia.
Qed.

#[local] Instance obliging_exec : ExecOk.
Proof. refine {| chunks_left _ _ := O |}; cbn; try done. intros _ _ _ _ [|[|i]]; done. Defined.

Definition chunk : list memory := [Memory 100 2000].
Lemma chunk_ok : chunks_ok chunk ∧ (length chunk ≤ 128)%nat.
Proof. unfold chunk. cbn. unfold chunk_in, chunks_apart. cbn. split; [split_and!; try lia; constructor|lia]. Qed.

Definition run_mm (m : PM unit) (s : mmst) : mmst := match m s with Ret _ s' => s' | _ => s end.
Definition request (src typ i1 i2 : Z) : message := Message src typ i1 i2 0 0 0 0 0.
(** MM after its initialisation, and after INIT has forked once. *)
Definition boot_mm : mmst := run_mm (mm_init 0 chunk zero_msg) zero_mm.
Definition fork_mm : mmst := run_mm (mm_main (request 3 2 0 0)) boot_mm.

Lemma boot_reachable : mm_reachable 0 chunk zero_msg boot_mm.
Proof. apply reach_init. by vm_compute. Qed.
Lemma good_plain `{Servers} s m : INIT_PROC_NR ≤ m_source m < NR_PROCS → live s (m_source m) = true →
  - 2 ^ 15 ≤ m2_i1 m < 2 ^ 15 → m_type m ≠ EXEC → good_request s m.
Proof. intros. by apply good_user. Qed.
Lemma boot_good : good_request boot_mm (request 3 2 0 0).
Proof. apply good_plain; [done|by vm_compute|done..]. Qed.
Lemma fork_reachable : mm_reachable 0 chunk zero_msg fork_mm.
Proof. apply (reach_step _ _ _ boot_mm (request 3 2 0 0)); [apply boot_reachable|apply boot_good|by vm_compute]. Qed.

Lemma reach_inv `{SV : Servers, !ServersOk, !ExecOk} tot mem mess s :
  chunks_ok mem → (length mem ≤ 128)%nat → mm_reachable tot mem mess s → mm_inv s.
Proof.
  intros Hmem Hlen. induction 1 as [s Hs|s m s' _ IH Hg Hs].
  - pose proof (mm_init_run tot mem mess Hmem Hlen) as Hw. unfold wpx in Hw. by rewrite Hs in Hw.
  - pose proof (mm_main_run s m IH Hg) as Hw. unfold wpx in Hw. by rewrite Hs in Hw.
Qed.
Lemma boot_mm_inv : mm_inv boot_mm.
Proof. by apply (reach_inv 0 chunk zero_msg); [apply chunk_ok..|apply boot_reachable]. Qed.
Lemma fork_mm_inv : mm_inv fork_mm.
Proof. by apply (reach_inv 0 chunk zero_msg); [apply chunk_ok..|apply fork_reachable]. Qed.

Lemma fork_mm_caller : mp fork_mm = who fork_mm ∧ INIT_PROC_NR ≤ who fork_mm < NR_PROCS ∧ live fork_mm (who fork_mm) = true.
Proof.
  assert (E : mp fork_mm = 3 ∧ who fork_mm = 3 ∧ live fork_mm 3 = true) by (vm_compute; done).
  destruct E as (-> & -> & ->). done.
Qed.

(** ** Properties *)

(** C39: Fork terminates and returns either an error, with the table unchanged,
    or the id of the new process: an id in 2..30000 that is neither the process
    id nor the process group of any other table entry, for a child of the caller
    in a slot that was free. *)
Theorem do_fork_fresh `{SV : Servers} (s : mmst)
    (Hi : mm_inv s) (Hm : mp s = who s) (Hw : INIT_PROC_NR ≤ who s < NR_PROCS) (Hl : live s (who s) = true) :
  wpx mm_panics do_fork (λ r s', mm_inv s' ∧ fork_post s r s') s.
Proof. eapply wpx_mono; [by apply do_fork_run|]. cbn beta. by intros r s' (? & _ & ?). Qed.
Lemma do_fork_fresh_witness :
  wpx mm_panics do_fork (λ r s', mm_inv s' ∧ fork_post fork_mm r s') fork_mm.
Proof. exact (@do_fork_fresh obliging fork_mm fork_mm_inv (proj1 fork_mm_caller) (proj1 (proj2 fork_mm_caller)) (proj2 (proj2 fork_mm_caller))). Defined.


(** A file system with a script [/s], of the line [#!/i], and its interpreter
    [/i], whose text has 512 bytes and whose data has 256; INIT executes the
    script. *)
Definition script_name : list Z := [47; 115; 0].
Definition script_line : list Z := [35; 33; 47; 105; 10] ++ repeat 0 27.
Definition loader_header : list Z :=
  [A_M68K; A_SEP; A_MAGIC0; A_MAGIC1] ++ [0; 0; 0; 32] ++ [0; 0; 2; 0] ++ [0; 0; 1; 0] ++ repeat 0 8 ++ [0; 0; 16; 0] ++ repeat 0 4.
Definition init_stack : list Z := [0; 0; 0; 1] ++ [0; 0; 0; 16] ++ repeat 0 8 ++ [115; 0; 0; 0].
Fixpoint last_open (l : list call) : list Z :=
  match l with [] => [] | OpenFile name _ :: _ => name | _ :: l => last_open l end.
#[local] Instance loader : Servers := λ l c,
  match c with
  | SysTrace r _ _ _ => [if r =? 3 then -1 else 0]
  | WriteFd _ _ n => [n]
  | CopyIn _ a _ => 0 :: if a =? 0 then script_name else init_stack
  | OpenFile _ _ => [3]
  | Fstat _ => [0; I_REGULAR]
  | ReadFd _ _ n =>
      if n =? A_MINHDR then 32 :: if bool_decide (last_open l = [47; 115]) then script_line else loader_header
      else if n =? PATH_MAX then [3; 47; 105; 10] else if n =? ARG_MAX then [0] else [n]
  | _ => [0]
  end.
#[local] Instance loader_ok : ServersOk.
Proof.
  split; [done|]. intros l fd a n Hn. right. change (s16 n = n). change DUMP_SIZE with 31744 in Hn. by rewrite s16_id by lia.
Qed.
#[local] Instance loader_exec : ExecOk.
Proof.
  refine {| chunks_left _ _ := O |}; [| |done| |done].
  - intros l fd a n Hn. unfold answer, loader. pose proof (Z.mod_le (n + 2 ^ 15) (2 ^ 16) ltac:(lia) ltac:(done)).
    repeat case_match; subst; try done; repeat match goal with E : (n =? _) = true |- _ => apply Z.eqb_eq in E; subst n; done end.
    cbn. unfold s16. lia.
  - intros l fd a n i. unfold answer, loader. repeat case_match; try done; (do 40 (destruct i as [|i]; [done|])); done.
  - intros l fd Hx. done.
Defined.
Definition loader_mm : mmst := run_mm (mm_init 0 chunk zero_msg) zero_mm.
Definition exec_request : message := Message 3 EXEC 3 20 0 0 1000 0 0.
Lemma loader_reachable : mm_reachable 0 chunk zero_msg loader_mm.
Proof. apply reach_init. by vm_compute. Qed.
Lemma loader_good : good_request loader_mm exec_request.
Proof. apply good_user; [done|by vm_compute|done|]. intros _. by vm_compute. Qed.
(** The last call MM makes, and the clicks of text and data of INIT. *)
Definition loader_end : option (call * Z * Z) :=
  match mm_main exec_request loader_mm with
  | Ret _ s => match log s with c :: _ => Some (c, mem_len (mp_seg_T (mproc_of s 3)), mem_len (mp_seg_D (mproc_of s 3))) | [] => None end
  | _ => None
  end.
