(* ===== verification/Mprops.v ===== *)
(** * What the system calls of the memory manager do *)

From S2P Require Import Prelude Chain Alloc Holewf Sigset Proc Mproc Signal Mcalls Exec Mmain Minv Mexit Mfork Mrun Mm.

(** ** Waiting *)
Section wait.
Context `{SV : Servers}.
Implicit Types (s : mmst).

(** [i] is a child [do_waitpid] may report, and one it can report at once. *)
Definition child_of s (w pidarg i : Z) : bool :=
  used s i && (mp_parent (mproc_of s i) =? w) && acceptable pidarg (mproc_of s i).
Definition reportable s (w pidarg i : Z) : bool :=
  child_of s w pidarg i && (hanging (mproc_of s i) ||
    has (mp_flags (mproc_of s i)) STOPPED && negb (mp_sigstatus (mproc_of s i) =? 0)).
Definition count_children s (w pidarg : Z) (l : list Z) : Z :=
  Z.of_nat (length (filter (λ i, child_of s w pidarg i = true) l)).

Lemma wait_step s w pidarg i l n : in_table i = true →
  wait_loop w pidarg (i :: l) n s =
    if child_of s w pidarg i then
      if reportable s w pidarg i then wait_loop w pidarg [i] n s else wait_loop w pidarg l (n + 1) s
    else wait_loop w pidarg l n s.
Proof.
  intros Hi. cbn [wait_loop]. unfold reportable, child_of, acceptable, used, in_use, hanging, mget. rewrite Hi.
  unfold mbind, M_bind, gets, id.
  destruct (has (mp_flags (mproc_of s i)) IN_USE), (mp_parent (mproc_of s i) =? w); cbn [andb negb]; try done.
  destruct (_ && _); [done|]. destruct (_ && _); [done|]. cbn [andb negb].
  destruct (has (mp_flags (mproc_of s i)) HANGING); [done|]. cbn [orb].
  by destruct (_ && _).
Qed.

Lemma wait_none s w pidarg l n : (∀ i, i ∈ l → in_table i = true ∧ reportable s w pidarg i = false) →
  wait_loop w pidarg l n s = Ret (Some (n + count_children s w pidarg l)) s.
Proof.
  revert n. induction l as [|i l IH]; intros n Hl.
  { unfold count_children. cbn. by rewrite Z.add_0_r. }
  destruct (Hl i) as [Hi Hr]; [left|]. assert (Hl' : ∀ j, j ∈ l → in_table j = true ∧ reportable s w pidarg j = false).
  { intros j Hj. apply Hl. by right. }
  rewrite wait_step, Hr by done. unfold count_children in *. rewrite filter_cons.
  destruct (child_of s w pidarg i) eqn:E; (destruct (decide _); [|try congruence]); try congruence.
  - rewrite IH by done. cbn [length]. do 2 f_equal. lia.
  - by rewrite IH.
Qed.

Lemma wait_first s w pidarg l1 i l2 n :
  (∀ j, j ∈ l1 → in_table j = true ∧ reportable s w pidarg j = false) → in_table i = true → reportable s w pidarg i = true →
  ∃ n', wait_loop w pidarg (l1 ++ i :: l2) n s = wait_loop w pidarg [i] n' s.
Proof.
  intros Hl Hi Hr. revert n. induction l1 as [|j l1 IH]; intros n; cbn [app].
  - exists n. rewrite (wait_step s w pidarg i l2), Hr by done. unfold reportable in Hr.
    by apply andb_true_iff in Hr as [-> _].
  - destruct (Hl j) as [Hj Hrj]; [left|]. rewrite wait_step, Hrj by done.
    destruct (child_of s w pidarg j); apply IH; intros k Hk; apply Hl; by right.
Qed.

(** The message a reply puts on the way. *)
Definition reply_msg s (a b c : Z) : message := (mm_out s) <| m_type := a |> <| m2_i1 := b |> <| m2_p1 := c |>.
Lemma reply_exact s p a b c : in_table p = true → live s p = true →
  wpx mm_panics (reply p a b c)
    (λ _ s', s' = s <| mm_out := reply_msg s a b c |> <| log := Send p (reply_msg s a b c) :: log s |>) s.
Proof.
  intros Hp Hl. unfold live, used, in_use, hanging in Hl. apply andb_true_iff in Hl as [Hu Hh%negb_true_iff].
  unfold reply. apply wpx_bind, wpx_gets. apply wpx_bind.
  apply (wpx_mono mm_panics _ (λ d s', d = false ∧ s' = s)).
  { destruct (0 <=? who s); [|by apply wpx_ret]. apply wpx_bind, wpx_mget; [done|]. apply wpx_ret. by rewrite Hu, Hh. }
  intros d s1 [-> ->]. apply wpx_bind, wpx_modify, wpx_bind, wpx_gets, wpx_bind. unfold do_call, wpx at 1.
  apply wpx_when; [|done]. intros _. apply wpx_panic. unfold mm_panics. set_solver.
Qed.

(** What the parent [w] learns of its child [i]. *)
Definition wait_status (r : mproc) : Z :=
  if hanging r then s16 (Z.lor (Z.shiftl (mp_exitstatus r) 8) (Z.land (mp_sigstatus r) 0xFF))
  else s16 (Z.lor 0x7F (Z.shiftl (mp_sigstatus r) 8)).
Definition reported s w i s' : Prop :=
  log s' = Send w (reply_msg s (mp_pid (mproc_of s i)) (wait_status (mproc_of s i)) 0) :: log s ∧
  dont_reply s' = true ∧
  (if hanging (mproc_of s i) then used s' i = false ∧ procs_in_use s' = procs_in_use s - 1
   else used s' i = true ∧ mp_sigstatus (mproc_of s' i) = 0 ∧ procs_in_use s' = procs_in_use s) ∧
  (∀ j, j ≠ i → j ≠ w → mproc_of s' j = mproc_of s j).

Lemma report_run s w pidarg i n : in_table i = true → in_table w = true → live s w = true → reportable s w pidarg i = true →
  wpx mm_panics (wait_loop w pidarg [i] n) (λ r s', r = None ∧ reported s w i s') s.
Proof.
  intros Hi Hw Hl Hr. unfold reportable, child_of, acceptable in Hr.
  apply andb_true_iff in Hr as [[[Hu Hp%Z.eqb_eq]%andb_true_iff [Ha1%negb_true_iff Ha2%negb_true_iff]%andb_true_iff]%andb_true_iff Hh].
  cbn [wait_loop]. apply wpx_bind, wpx_row; [done|]. pose proof Hu as Hu'. unfold used, in_use in Hu'.
  rewrite Hu', Hp, Z.eqb_refl, Ha1, Ha2. cbn [andb negb]. unfold hanging in Hh. unfold reported, wait_status, hanging.
  destruct (has (mp_flags (mproc_of s i)) HANGING) eqn:Eh.
  - apply wpx_bind. unfold cleanup. apply wpx_bind, wpx_row; [done|]. cbv zeta. rewrite Hp.
    apply wpx_bind. eapply wpx_mono; [by apply reply_exact|]. cbn beta. intros _ s1 ->.
    apply wpx_bind, wpx_mset; [done|]. apply wpx_bind, wpx_mset; [done|]. apply wpx_modify.
    apply wpx_bind, wpx_modify, wpx_ret. cbn. split_and!; try done.
    + unfold used, in_use. cbn. rewrite proc_set. by case_decide.
    + intros j Hj Hjw. rewrite !proc_set. by rewrite !decide_False by done.
  - cbn [orb] in Hh. rewrite Hh. apply wpx_bind. eapply wpx_mono; [by apply reply_exact|]. cbn beta. intros _ s1 ->.
    apply wpx_bind, wpx_modify, wpx_bind, wpx_mset; [done|]. apply wpx_ret. cbn. split_and!; try done.
    + unfold used, in_use. cbn. rewrite proc_set. by case_decide.
    + rewrite proc_set. by case_decide.
    + intros j Hj Hjw. rewrite proc_set. by rewrite decide_False.
Qed.

(** The arguments of WAIT and WAITPID. *)
Definition wait_pidarg s : Z :=
  let p := if mm_call s =? WAIT then -1 else m2_i1 (mm_in s) in
  if p =? 0 then s16 (- mp_procgrp (mproc_of s (mp s))) else p.
Definition wait_options s : Z := if mm_call s =? WAIT then 0 else m2_i2 (mm_in s).
End wait.

(** C34: Wait and waitpid report the first child, in table order, that has exited
    or stopped and that the argument selects: the parent is sent its id and
    status, an exited child's slot is freed, and no other entry changes.  If
    there is none, a parent with such children waits (or gets 0 with WNOHANG) and
    one without gets ECHILD, with nothing else changed. *)
Theorem do_waitpid_exact `{SV : Servers} (s : mmst)
    (Hm : in_table (mp s) = true) (Hw : in_table (who s) = true) (Hl : live s (who s) = true) :
  (∀ l1 i l2, all_slots = l1 ++ i :: l2 → (∀ j, j ∈ l1 → reportable s (who s) (wait_pidarg s) j = false) →
     reportable s (who s) (wait_pidarg s) i = true →
     wpx mm_panics do_waitpid (λ r s', r = OK ∧ reported s (who s) i s') s) ∧
  ((∀ i, i ∈ all_slots → reportable s (who s) (wait_pidarg s) i = false) →
     do_waitpid s =
       if 0 <? count_children s (who s) (wait_pidarg s) all_slots then
         if has (wait_options s) WNOHANG then Ret 0 s
         else Ret OK (s <| mproc_of := <[mp s := (mproc_of s (mp s)) <| mp_flags := setf (mp_flags (mproc_of s (mp s))) WAITING |>
                                                          <| mp_wpid := wait_pidarg s |>]> (mproc_of s) |>
                        <| dont_reply := true |>)
       else Ret ECHILD s).
Proof.
  assert (Hstart : do_waitpid s = (res ← wait_loop (who s) (wait_pidarg s) all_slots 0;
    match res with
    | None => mret OK
    | Some children =>
        if 0 <? children then
          if has (wait_options s) WNOHANG then mret 0 else
          mset (mp s) (λ r, r <| mp_flags := setf (mp_flags r) WAITING |> <| mp_wpid := wait_pidarg s |>);;
          modify (λ s, s <| dont_reply := true |>);;
          mret OK
        else mret ECHILD
    end) s).
  { unfold do_waitpid. do 4 (erewrite bind_eq; [|done]). erewrite bind_eq; [|unfold mget; by rewrite Hm]. done. }
  split.
  - intros l1 i l2 E Hno Hr. eapply wpx_eq; [exact Hstart|].
    assert (Hi : in_table i = true) by (apply slot_in; rewrite E; apply elem_of_app; right; left).
    destruct (wait_first s (who s) (wait_pidarg s) l1 i l2 0) as [n En]; [|done|done|].
    { intros j Hj. split; [|by apply Hno]. apply slot_in. rewrite E. apply elem_of_app. by left. }
    apply wpx_bind. eapply wpx_eq; [rewrite E; exact En|]. eapply wpx_mono; [by apply report_run|].
    cbn beta. intros r s' [-> Hx]. by apply wpx_ret.
  - intros Hno. rewrite Hstart. unfold mbind at 1, M_bind at 1. rewrite wait_none by (intros i Hi; split; [by apply slot_in|by apply Hno]).
    rewrite Z.add_0_l. destruct (0 <? _); [|done]. destruct (has _ WNOHANG); [done|].
    unfold mset. by rewrite Hm.
Qed.

#[local] Existing Instance obliging.
#[local] Existing Instance obliging_ok.
#[local] Existing Instance obliging_exec.

(** INIT, which has forked once, calls WAIT. *)
Definition asked (m : message) (s : mmst) : mmst :=
  s <| mm_in := m |> <| who := m_source m |> <| mm_call := m_type m |> <| mp := m_source m |> <| dont_reply := false |>.
Definition wait_mm : mmst := asked (request 3 WAIT 0 0) fork_mm.
Lemma wait_mm_facts : in_table (mp wait_mm) = true ∧ in_table (who wait_mm) = true ∧ live wait_mm (who wait_mm) = true ∧
  forallb (λ i, negb (reportable wait_mm (who wait_mm) (wait_pidarg wait_mm) i)) all_slots = true ∧
  (0 <? count_children wait_mm (who wait_mm) (wait_pidarg wait_mm) all_slots) = true ∧
  has (wait_options wait_mm) WNOHANG = false.
Proof. by vm_compute. Qed.
Lemma do_waitpid_exact_witness : ∃ s', do_waitpid wait_mm = Ret OK s'.
Proof.
  destruct wait_mm_facts as (F1 & F2 & F3 & F4 & F5 & F6).
  pose proof (proj2 (@do_waitpid_exact obliging wait_mm F1 F2 F3)) as Hx. rewrite F5, F6 in Hx. cbv iota in Hx.
  refine (ex_intro _ _ (Hx _)). intros i Hi.
  exact (proj1 (negb_true_iff _) (proj1 (forallb_forall _ _) F4 i (proj1 (list_elem_of_In _ _) Hi))).
Defined.

(** ** Killing *)
Section kill.
Context `{SV : Servers, !ServersOk}.
Implicit Types (s : mmst).

Lemma sigkill_run s t : mm_inv s → in_table (mp s) = true → INIT_PROC_NR ≤ t < NR_PROCS → live s t = true →
  wpx mm_panics (sig_proc mm_exit t SIGKILL) (λ _ s', mm_inv s' ∧ mp s' = mp s ∧ live s' t = false) s.
Proof.
  intros Hi Hm Ht Hl. assert (Htt : in_table t = true) by (unfold in_table, INIT_PROC_NR in *; lia).
  destruct (inv_kill _ _ _ _ Hi t Htt) as (K1 & K2 & K3 & K4).
  assert (Hmem : ∀ m, Z.testbit m SIGKILL = false → ismember m SIGKILL = false).
  { intros m E. unfold ismember. by rewrite sigismember_testbit, E. }
  pose proof Hl as [Hu Hh%negb_true_iff]%andb_true_iff. unfold used, in_use in Hu. unfold hanging in Hh.
  unfold sig_proc. apply wpx_bind, wpx_row; [done|]. rewrite Hu, Hh. cbn [negb]. rewrite andb_false_r.
  rewrite (Hmem _ K1), (Hmem _ K2). apply wpx_bind. unfold sigact_at. apply wpx_mget; [done|]. rewrite (Hmem _ K3).
  eapply wpx_mono; [apply (terminate_dead exit_fuel mm_exit exit_fuel_ok); [done..|apply lives_fuel]|].
  cbn beta. intros _ s' [[? Hf] ?]. by destruct (ef_vars _ _ Hf) as (? & _).
Qed.

Lemma kill_loop s t l count err : mm_inv s → in_table (mp s) = true → t ∈ l → (∀ i, i ∈ l → INIT_PROC_NR ≤ i < NR_PROCS) →
  live s t = true → 0 < mp_pid (mproc_of s t) → may_signal (mproc_of s (mp s)) (mproc_of s t) = true →
  wpx mm_panics (check_loop mm_exit (mp_pid (mproc_of s t)) SIGKILL l count err)
    (λ ce s', ce.1 = count + 1 ∧ mm_inv s' ∧ mp s' = mp s ∧ live s' t = false) s.
Proof.
  intros Hi Hm Ht Hin Hl Hp Hmay. pose proof Hl as [Hu Hh%negb_true_iff]%andb_true_iff.
  assert (Htr : INIT_PROC_NR ≤ t < NR_PROCS) by by apply Hin.
  revert count err. induction l as [|i l IH]; intros count err; [by apply elem_of_nil in Ht|]. cbn [check_loop].
  assert (Hir : INIT_PROC_NR ≤ i < NR_PROCS) by (apply Hin; left).
  assert (Hit : in_table i = true) by (unfold in_table, INIT_PROC_NR in *; lia).
  assert (IH' : i ≠ t → ∀ count err, wpx mm_panics (check_loop mm_exit (mp_pid (mproc_of s t)) SIGKILL l count err)
    (λ ce s', ce.1 = count + 1 ∧ mm_inv s' ∧ mp s' = mp s ∧ live s' t = false) s).
  { intros Hne. apply IH; [|intros j Hj; apply Hin; by right]. apply elem_of_cons in Ht as [?|?]; congruence. }
  apply wpx_bind, wpx_row; [done|]. destruct (has (mp_flags (mproc_of s i)) IN_USE) eqn:Ei; cbn [negb];
    [|apply IH'; intros ->; unfold used, in_use in Hu; congruence].
  destruct (_ && negb (SIGKILL =? 0)) eqn:Eh.
  { apply IH'. intros ->. unfold hanging in Hh. by rewrite Hh in Eh. }
  apply wpx_bind, wpx_gets, wpx_bind, wpx_row; [done|].
  destruct (decide (i = t)) as [->|Hne].
  - assert (Es : selected (mp_pid (mproc_of s t)) (mproc_of s (mp s)) (mproc_of s t) = true).
    { unfold selected. rewrite Z.eqb_refl. cbn [negb]. rewrite andb_false_r.
      rewrite (proj2 (Z.eqb_neq _ 0)), (proj2 (Z.eqb_neq _ (-1))), (proj2 (Z.ltb_ge _ (-1))) by lia. done. }
    rewrite Es, Hmay. cbn [negb Z.eqb]. change (SIGKILL =? 0) with false. cbv iota.
    apply wpx_bind. eapply wpx_mono; [by apply sigkill_run|]. cbn beta. intros _ s' (? & ? & ?).
    rewrite (proj2 (Z.ltb_lt 0 _)) by done. by apply wpx_ret.
  - assert (Es : selected (mp_pid (mproc_of s t)) (mproc_of s (mp s)) (mproc_of s i) = false).
    { unfold selected. rewrite (proj2 (Z.ltb_lt 0 _)) by done.
      destruct (Z.eqb_spec (mp_pid (mproc_of s t)) (mp_pid (mproc_of s i))) as [E|E]; [|done]. destruct Hne.
      by apply (inv_unique _ _ _ _ Hi). }
    rewrite Es. by apply IH'.
Qed.
End kill.

(** C37: SIGKILL cannot be blocked, ignored, caught or held off by a tracer: when
    a process with the right to do so sends it to a live process other than INIT,
    the receiver has exited when [kill] returns OK. *)
Theorem sigkill_kills `{SV : Servers} (HS : ServersOk) (s : mmst) (t : Z)
    (Hi : mm_inv s) (Hm : in_table (mp s) = true) (Ht : INIT_PROC_NR < t < NR_PROCS) (Hl : live s t = true)
    (Hp : INIT_PID < mp_pid (mproc_of s t)) (Hmay : may_signal (mproc_of s (mp s)) (mproc_of s t) = true) :
  wpx mm_panics (check_sig (mp_pid (mproc_of s t)) SIGKILL) (λ r s', r = OK ∧ live s' t = false ∧ mm_inv s') s.
Proof.
  unfold INIT_PID in Hp. unfold check_sig, check_sig_of. change ((SIGKILL <? 0) || (NSIG <? SIGKILL)) with false. cbv iota.
  destruct (Z.eqb_spec (mp_pid (mproc_of s t)) INIT_PID) as [E|_]; [unfold INIT_PID in E; lia|]. cbn [andb].
  apply wpx_bind. eapply wpx_mono; [apply (kill_loop s t); try done|].
  - apply elem_of_seqZ. unfold INIT_PROC_NR in *. lia.
  - intros i. rewrite elem_of_seqZ. unfold INIT_PROC_NR. lia.
  - lia.
  - cbn beta. intros ce s1 (Hce & Hi1 & Em & Hl1). apply wpx_bind, wpx_gets, wpx_bind, wpx_mget; [by rewrite Em|].
    apply wpx_bind, wpx_quiet; [quiet_steps|apply Hi1|]. intros _ s2 H2. apply wpx_ret. rewrite Hce.
    split_and!; [done|by rewrite (le_live s1 s2)|by eapply inv_le].
Qed.
Lemma fork_mm_child : in_table (mp fork_mm) = true ∧ live fork_mm 4 = true ∧ INIT_PID < mp_pid (mproc_of fork_mm 4) ∧
  may_signal (mproc_of fork_mm (mp fork_mm)) (mproc_of fork_mm 4) = true.
Proof. by vm_compute. Qed.
Lemma sigkill_kills_witness :
  wpx mm_panics (check_sig (mp_pid (mproc_of fork_mm 4)) SIGKILL) (λ r s', r = OK ∧ live s' 4 = false ∧ mm_inv s') fork_mm.
Proof.
  destruct fork_mm_child as (F1 & F2 & F3 & F4).
  exact (@sigkill_kills obliging obliging_ok fork_mm 4 fork_mm_inv F1 (conj eq_refl eq_refl) F2 F3 F4).
Defined.

(** ** Tracing a process that has exited *)

(** C40: A debugger can stop the whole system: when the process it traces was
    stopped and has then been killed, ptrace(T_RESUME) with a signal number makes
    the memory manager panic (sig_proc finds a dead process), although
    do_trace is meant to refuse processes it cannot trace. *)
Theorem do_trace_exited_panics `{SV : Servers} (s : mmst) (c : Z)
    (Hi : mm_inv s) (Hm : in_table (mp s) = true) (Hc : INIT_PROC_NR < c < NR_PROCS)
    (Hu : used s c = true) (Hh : hanging (mproc_of s c) = true) (Hst : has (mp_flags (mproc_of s c)) STOPPED = true)
    (Hpid : mp_pid (mproc_of s c) = m2_i1 (mm_in s)) (Hreq : m2_i2 (mm_in s) = T_RESUME)
    (Hdata : 0 < m2_l2 (mm_in s) ≤ NSIG) :
  wpx (λ w, w = ""%string) do_trace (λ _ _, False) s.
Proof.
  assert (Hct : in_table c = true) by (unfold in_table, INIT_PROC_NR in *; lia).
  unfold do_trace. apply wpx_bind, wpx_gets, wpx_bind, wpx_gets. rewrite Hreq. change (T_RESUME =? T_OK) with false. cbv iota.
  apply wpx_bind. eapply wpx_mono; [apply wp_wpx, findproc_run|]. cbn beta. intros child s1 (-> & Hsome & Hnone).
  destruct child as [i|]; [|by destruct (Hnone eq_refl c Hc Hu)].
  destruct (Hsome i eq_refl) as (Hir & Hui & Hpi).
  assert (i = c) as ->.
  { apply (inv_unique _ _ _ _ Hi); [lia|lia|done|done|congruence]. }
  unfold mget. rewrite Hct. apply wpx_bind, wpx_gets. rewrite Hst. cbn [negb].
  change (T_RESUME =? T_EXIT) with false. change ((T_RESUME =? T_RESUME) || (T_RESUME =? T_STEP)) with true. cbv iota.
  rewrite (proj2 (Z.ltb_ge (m2_l2 (mm_in s)) 0)), (proj2 (Z.ltb_ge NSIG _)), (proj2 (Z.ltb_lt 0 (m2_l2 (mm_in s)))) by lia. cbn [orb].
  unfold when. unfold mset. rewrite Hct. do 2 apply wpx_bind. apply wpx_modify. apply wpx_bind.
  unfold send_sig, sig_proc, mget. rewrite Hct. apply wpx_bind, wpx_gets. unfold id. cbn [mproc_of].
  match goal with |- context [mproc_of ?st c] => set (r := mproc_of st c) end.
  assert (Hr : has (mp_flags r) IN_USE = true ∧ has (mp_flags r) HANGING = true).
  { unfold r. cbn. rewrite proc_set. case_decide; [|done]. cbn. rewrite !has_clrf_other by done. done. }
  destruct Hr as [-> ->]. cbn [negb]. by apply wpx_panic.
Qed.

(** INIT lets its child be traced, stops it with a signal, kills it, and resumes it. *)
Definition SIGTERM : Z := 15.
Definition ptrace (src req pid data : Z) : message := Message src 26 pid req 0 0 data 0 0.
Definition traced_mm : mmst := run_mm (mm_main (ptrace 4 T_OK 0 0)) fork_mm.
Definition stopped_mm : mmst := run_mm (mm_main (request 3 37 3 SIGTERM)) traced_mm.
Definition dead_mm : mmst := run_mm (mm_main (request 3 37 3 SIGKILL)) stopped_mm.
Lemma dead_reachable : mm_reachable 0 chunk zero_msg dead_mm.
Proof.
  assert (H1 : mm_reachable 0 chunk zero_msg traced_mm).
  { apply (reach_step _ _ _ fork_mm (ptrace 4 T_OK 0 0)); [apply fork_reachable| |by vm_compute].
    apply good_plain; [done|by vm_compute|done..]. }
  assert (H2 : mm_reachable 0 chunk zero_msg stopped_mm).
  { apply (reach_step _ _ _ traced_mm (request 3 37 3 SIGTERM)); [done| |by vm_compute].
    apply good_plain; [done|by vm_compute|done..]. }
  apply (reach_step _ _ _ stopped_mm (request 3 37 3 SIGKILL)); [done| |by vm_compute].
  apply good_plain; [done|by vm_compute|done..].
Qed.
(** INIT asks to resume the dead process. *)
Definition trace_mm : mmst := asked (ptrace 3 T_RESUME 3 1) dead_mm.
Lemma trace_mm_inv : mm_inv trace_mm.
Proof.
  assert (Hi : mm_inv dead_mm) by (by apply (reach_inv 0 chunk zero_msg); [apply chunk_ok..|apply dead_reachable]).
  unfold trace_mm. generalize dead_mm Hi. clear. intros s Hi. destruct Hi. by split.
Qed.
Lemma trace_mm_facts : in_table (mp trace_mm) = true ∧ used trace_mm 4 = true ∧ hanging (mproc_of trace_mm 4) = true ∧
  has (mp_flags (mproc_of trace_mm 4)) STOPPED = true ∧ mp_pid (mproc_of trace_mm 4) = m2_i1 (mm_in trace_mm) ∧
  m2_i2 (mm_in trace_mm) = T_RESUME ∧ 0 < m2_l2 (mm_in trace_mm) ≤ NSIG.
Proof. by vm_compute. Qed.
Lemma do_trace_exited_panics_witness : wpx (λ w, w = ""%string) do_trace (λ _ _, False) trace_mm.
Proof.
  destruct trace_mm_facts as (F1 & F2 & F3 & F4 & F5 & F6 & F7).
  exact (@do_trace_exited_panics obliging trace_mm 4 trace_mm_inv F1 (conj eq_refl eq_refl) F2 F3 F4 F5 F6 F7).
Defined.

(** ** kill with signal 0, the signal mask, alarms *)
Section null.
Context `{SV : Servers}.
Implicit Types (s : mmst).

(** The processes [kill(proc_id, ...)] addresses, and those it may signal. *)
Definition addressed s (proc_id i : Z) : bool :=
  used s i && selected proc_id (mproc_of s (mp s)) (mproc_of s i).
Definition permitted s (i : Z) : bool := may_signal (mproc_of s (mp s)) (mproc_of s i).
Definition null_error s (proc_id : Z) (l : list Z) : Z :=
  if existsb (λ i, addressed s proc_id i && negb (permitted s i)) l then EPERM else ESRCH.
Definition null_count s (proc_id : Z) (l : list Z) : Z :=
  Z.of_nat (length (filter (λ i, addressed s proc_id i && permitted s i = true) l)).

Lemma null_step s proc_id i l count err : in_table (mp s) = true → in_table i = true →
  check_loop mm_exit proc_id 0 (i :: l) count err s =
    if addressed s proc_id i then
      if permitted s i then check_loop mm_exit proc_id 0 l (count + 1) err s
      else check_loop mm_exit proc_id 0 l count EPERM s
    else check_loop mm_exit proc_id 0 l count err s.
Proof.
  intros Hm Hi. cbn [check_loop]. erewrite bind_eq; [|unfold mget; by rewrite Hi]. cbv beta. unfold id, addressed, used, in_use, permitted.
  destruct (has (mp_flags (mproc_of s i)) IN_USE) eqn:Eu; cbn [andb negb]; [|done].
  rewrite andb_false_r. erewrite bind_eq; [|done]. erewrite bind_eq; [|unfold mget; by rewrite Hm]. cbv beta.
  destruct (selected _ _ _); cbn [negb]; [|done]. by destruct (may_signal _ _).
Qed.

Lemma null_loop s proc_id l count err : in_table (mp s) = true → (∀ i, i ∈ l → in_table i = true) →
  check_loop mm_exit proc_id 0 l count err s =
    Ret (count + null_count s proc_id l,
         if existsb (λ i, addressed s proc_id i && negb (permitted s i)) l then EPERM else err) s.
Proof.
  intros Hm. revert count err. induction l as [|i l IH]; intros count err Hin.
  { unfold null_count. cbn. by rewrite Z.add_0_r. }
  assert (IH' : ∀ count err, check_loop mm_exit proc_id 0 l count err s =
    Ret (count + null_count s proc_id l,
         if existsb (λ i, addressed s proc_id i && negb (permitted s i)) l then EPERM else err) s).
  { intros c e. apply IH. intros j Hj. apply Hin. by right. }
  rewrite null_step by (done || apply Hin; left). unfold null_count in *. rewrite filter_cons. cbn [existsb].
  cbv beta. destruct (addressed s proc_id i), (permitted s i); cbn [andb negb orb]; rewrite IH';
    case_decide; try done; [cbn [length]; do 2 f_equal; lia|by case_match].
Qed.
End null.

(** Kill with signal 0 tests without sending anything: it returns OK when
    the argument addresses a process the caller may signal (one that has exited
    included), else EPERM when it addresses a process at all, else ESRCH; at most
    the flag that suppresses the reply to a dead caller changes. *)
Theorem kill_null_exact `{SV : Servers} (s : mmst) (proc_id : Z) (Hm : in_table (mp s) = true) :
  let users := seqZ INIT_PROC_NR (NR_PROCS - INIT_PROC_NR) in
  check_sig proc_id 0 s =
    Ret (if 0 <? null_count s proc_id users then OK else null_error s proc_id users)
        (if live s (mp s) then s else s <| dont_reply := true |>).
Proof.
  intros users. unfold check_sig, check_sig_of. change ((0 <? 0) || (NSIG <? 0)) with false. cbv iota.
  change (0 =? SIGKILL) with false. rewrite andb_false_r. erewrite bind_eq; [|apply null_loop; [done|]].
  - fold users. erewrite bind_eq; [|done]. erewrite bind_eq; [|unfold mget; by rewrite Hm]. cbv beta.
    unfold live, used, in_use, hanging, null_error. rewrite Z.add_0_l. cbn [fst snd].
    destruct (has (mp_flags (mproc_of s (mp s))) IN_USE), (has (mp_flags (mproc_of s (mp s))) HANGING); done.
  - intros i Hi%elem_of_seqZ. unfold in_table, INIT_PROC_NR, NR_PROCS in *. lia.
Qed.
Lemma kill_null_exact_witness : check_sig 3 0 fork_mm =
    Ret (if 0 <? null_count fork_mm 3 (seqZ INIT_PROC_NR (NR_PROCS - INIT_PROC_NR)) then OK
         else null_error fork_mm 3 (seqZ INIT_PROC_NR (NR_PROCS - INIT_PROC_NR)))
        (if live fork_mm (mp fork_mm) then fork_mm else fork_mm <| dont_reply := true |>).
Proof. exact (@kill_null_exact obliging fork_mm 3 (proj1 fork_mm_child)). Defined.

(** ** Data and stack segments *)

(** The segments of [r] lie in the address space; a data segment of [dc] clicks does too. *)
Definition segs_ok (r : mproc) (dc : Z) : Prop :=
  0 ≤ mem_vir (mp_seg_D r) ∧ 0 ≤ dc ∧ mem_vir (mp_seg_D r) + dc < 2 ^ 16 ∧
  0 ≤ mem_vir (mp_seg_S r) ∧ 0 < mem_len (mp_seg_S r) < 2 ^ 16 ∧ mem_vir (mp_seg_S r) + mem_len (mp_seg_S r) < 2 ^ 16 ∧
  0 ≤ mem_phys (mp_seg_S r) < 2 ^ 16.
(** The stack segment grown to [sp_click]. *)
Definition grown (r : mproc) (sp_click : Z) : mem_map :=
  let delta := mem_vir (mp_seg_S r) - sp_click in
  if 0 <? delta then MemMap sp_click (u16 (mem_phys (mp_seg_S r) - delta)) (mem_len (mp_seg_S r) + delta)
  else mp_seg_S r.
Definition adjusted (r : mproc) (dc sp_click : Z) : mproc :=
  r <| mp_seg_D := (mp_seg_D r) <| mem_len := dc |> |> <| mp_seg_S := grown r sp_click |>.
(** When [adjust] gives the memory. *)
Definition fits (r : mproc) (dc sp_click : Z) : bool :=
  (sp_click <? mem_vir (mp_seg_S r) + mem_len (mp_seg_S r)) &&
  (u16 (mem_vir (mp_seg_D r) + dc + SAFETY_CLICKS) <=? Z.min sp_click (mem_vir (mp_seg_S r))) &&
  (mem_vir (mp_seg_D r) + dc <=? Z.min sp_click (mem_vir (mp_seg_S r))).

Section adjust.
Context `{SV : Servers}.
Implicit Types (s : mmst).

(** [s'] differs from [s] in the entry [p] only. *)
Definition changed_to s p (r : mproc) s' : Prop :=
  log s' = log s ∧ ∀ i, mproc_of s' i = if decide (i = p) then r else mproc_of s i.

(** An update that is made only if it matters. *)
Lemma when_set s s1 p r b g : in_table p = true → changed_to s p r s1 → (b = false → g r = r) →
  wp (when b (mset p g)) (λ _ s', changed_to s p (g r) s') s1.
Proof.
  intros Hp [Hl Hr] Hg. apply wp_when; intros E.
  - apply wp_mset; [done|]. split; [done|]. intros i. cbn. rewrite proc_set. case_decide as Ei; [|by rewrite Hr, decide_False].
    by rewrite Hr, decide_True.
  - rewrite Hg by done. done.
Qed.
Lemma changed_refl s p : changed_to s p (mproc_of s p) s.
Proof. split; [done|]. intros i. by case_decide as E; [rewrite E|]. Qed.

(** The two updates of [adjust], and their reversal. *)
Lemma grow_run s p dc spc : in_table p = true → segs_ok (mproc_of s p) dc →
  0 ≤ spc < mem_vir (mp_seg_S (mproc_of s p)) + mem_len (mp_seg_S (mproc_of s p)) →
  let r := mproc_of s p in
  let delta := mem_vir (mp_seg_S r) - spc in
  wp (when (negb (dc =? mem_len (mp_seg_D r))) (mset p (λ r, r <| mp_seg_D := (mp_seg_D r) <| mem_len := dc |> |>)))
    (λ _, wp (when (0 <? delta) (mset p (λ r, r <| mp_seg_S :=
        MemMap (u16 (mem_vir (mp_seg_S r) - delta)) (u16 (mem_phys (mp_seg_S r) - delta))
               (u16 (mem_len (mp_seg_S r) + delta)) |>)))
      (λ _ s', changed_to s p (adjusted r dc spc) s')) s.
Proof.
  intros Hp (D1 & D2 & D3 & S1 & S2 & S3 & S4) Hs r delta. subst delta. fold r in Hs, D1, D2, D3, S1, S2, S3, S4.
  set (gD := λ r : mproc, r <| mp_seg_D := (mp_seg_D r) <| mem_len := dc |> |>).
  eapply wp_mono; [apply (when_set s s p r _ gD Hp (changed_refl s p))|].
  { intros E%negb_false_iff%Z.eqb_eq. unfold gD. rewrite E. destruct r as [? [] ? ? ? ? ? ? ? ? ? ? ? ? ? ? ? ? ? ? ? ? ? ? ? ?]. done. }
  cbn beta. intros _ s1 Hc1. destruct (Z.ltb_spec 0 (mem_vir (mp_seg_S r) - spc)) as [Hd|Hd].
  - eapply wp_mono; [apply (when_set s s1 p (gD r) true _ Hp Hc1); done|]. cbn beta. intros _ s2 Hc2.
    match type of Hc2 with changed_to _ _ ?x _ => replace (adjusted r dc spc) with x; [done|] end.
    unfold adjusted, grown, gD. rewrite (proj2 (Z.ltb_lt 0 _)) by done. cbn. f_equal. f_equal; rewrite u16_id; lia.
  - apply wp_ret. replace (adjusted r dc spc) with (gD r); [done|]. unfold adjusted, grown, gD.
    rewrite (proj2 (Z.ltb_ge 0 _)) by done. by destruct r.
Qed.

Lemma undo_run s s2 p dc spc : in_table p = true → segs_ok (mproc_of s p) dc →
  0 ≤ spc < mem_vir (mp_seg_S (mproc_of s p)) + mem_len (mp_seg_S (mproc_of s p)) →
  changed_to s p (adjusted (mproc_of s p) dc spc) s2 →
  let r := mproc_of s p in
  let delta := mem_vir (mp_seg_S r) - spc in
  wp (when (negb (dc =? mem_len (mp_seg_D r))) (mset p (λ r', r' <| mp_seg_D := (mp_seg_D r') <| mem_len := mem_len (mp_seg_D r) |> |>)))
    (λ _, wp (when (0 <? delta) (mset p (λ r, r <| mp_seg_S :=
        MemMap (u16 (mem_vir (mp_seg_S r) + delta)) (u16 (mem_phys (mp_seg_S r) + delta))
               (u16 (mem_len (mp_seg_S r) - delta)) |>)))
      (λ _ s', changed_to s p r s')) s2.
Proof.
  intros Hp (D1 & D2 & D3 & S1 & S2 & S3 & S4) Hs Hc2 r delta. subst delta. fold r in Hs, Hc2, D1, D2, D3, S1, S2, S3, S4.
  eapply wp_mono; [apply (when_set s s2 p (adjusted r dc spc) _ (λ r', r' <| mp_seg_D := (mp_seg_D r') <| mem_len := mem_len (mp_seg_D r) |> |>) Hp Hc2)|].
  { intros E%negb_false_iff%Z.eqb_eq. unfold adjusted. cbn. rewrite <- E. done. }
  cbn beta. intros _ s3 Hc3. match type of Hc3 with changed_to _ _ ?x _ => set (r3 := x) in * end.
  assert (Er3 : r3 = r <| mp_seg_S := grown r spc |>).
  { unfold r3, adjusted. cbn. destruct r as [? [] ? ? ? ? ? ? ? ? ? ? ? ? ? ? ? ? ? ? ? ? ? ? ? ?]. done. }
  clearbody r3. subst r3. unfold grown in Hc3. destruct (Z.ltb_spec 0 (mem_vir (mp_seg_S r) - spc)) as [Hd|Hd].
  - eapply wp_mono; [apply (when_set s s3 p _ true _ Hp Hc3); done|]. cbn beta. intros _ s4 Hc4. cbn in Hc4.
    set (delta := mem_vir (mp_seg_S r) - spc) in *.
    replace (u16 (spc + delta)) with (mem_vir (mp_seg_S r)) in Hc4 by (unfold delta; rewrite u16_id; lia).
    replace (u16 (mem_len (mp_seg_S r) + delta - delta)) with (mem_len (mp_seg_S r)) in Hc4 by (rewrite u16_id; lia).
    replace (u16 (u16 (mem_phys (mp_seg_S r) - delta) + delta)) with (mem_phys (mp_seg_S r)) in Hc4
      by (unfold u16; rewrite Zplus_mod_idemp_l, Z.mod_small; lia).
    revert Hc4. clear. destruct r as [? ? [] ? ? ? ? ? ? ? ? ? ? ? ? ? ? ? ? ? ? ? ? ? ? ?]. done.
  - apply wp_ret. revert Hc3. clear. by destruct r.
Qed.

(** What [adjust] leaves: nothing has changed, or the segments are the new ones. *)
Definition adjust_post s p dc sp_click (r : Z) s' : Prop :=
  if fits (mproc_of s p) dc sp_click then
    r = OK ∧ mproc_of s' p = adjusted (mproc_of s p) dc sp_click ∧ (∀ i, i ≠ p → mproc_of s' i = mproc_of s i)
  else r = ENOMEM ∧ (∀ i, mproc_of s' i = mproc_of s i) ∧ log s' = log s.
End adjust.

(** [adjust] grants a data size and a stack pointer exactly when the stack
    pointer is below the stack's end, the gap of [SAFETY_CLICKS] (computed at 16
    bits) remains and the segments do not meet; then the data segment has the new
    size and the stack segment reaches down to the stack pointer with its end
    fixed.  Otherwise it returns ENOMEM and leaves the table and the kernel's
    map unchanged. *)
Theorem adjust_exact `{SV : Servers} (s : mmst) (p dc sp : Z)
    (Hp : in_table p = true) (Hok : segs_ok (mproc_of s p) dc) :
  wp (adjust p dc sp) (adjust_post s p dc (u16 (Z.shiftr sp CLICK_SHIFT))) s.
Proof.
  unfold adjust, adjust_post, fits. apply wp_bind, wp_row; [done|]. set (r := mproc_of s p) in *.
  pose proof (u16_range (Z.shiftr sp CLICK_SHIFT)) as Hsp. set (spc := u16 (Z.shiftr sp CLICK_SHIFT)) in *. clearbody spc.
  destruct Hok as (D1 & D2 & D3 & S1 & S2 & S3 & S4).
  destruct (Z.eqb_spec (mem_len (mp_seg_S r)) 0); [lia|].
  destruct (Z.leb_spec (mem_vir (mp_seg_S r) + mem_len (mp_seg_S r)) spc) as [Hb|Hb].
  { apply wp_ret. destruct (Z.ltb_spec spc (mem_vir (mp_seg_S r) + mem_len (mp_seg_S r))); [lia|]. done. }
  destruct (Z.ltb_spec spc (mem_vir (mp_seg_S r) + mem_len (mp_seg_S r))); [|lia]. cbn [andb].
  set (gap := u16 (mem_vir (mp_seg_D r) + dc + SAFETY_CLICKS)).
  replace (if 0 <? mem_vir (mp_seg_S r) - spc then spc else mem_vir (mp_seg_S r)) with (Z.min spc (mem_vir (mp_seg_S r)))
    by (destruct (Z.ltb_spec 0 (mem_vir (mp_seg_S r) - spc)); lia).
  destruct (Z.ltb_spec (Z.min spc (mem_vir (mp_seg_S r))) gap); destruct (Z.leb_spec gap (Z.min spc (mem_vir (mp_seg_S r)))); try lia.
  { by apply wp_ret. }
  cbn [andb]. fold r. set (delta := mem_vir (mp_seg_S r) - spc) in *.
  assert (Hok : segs_ok (mproc_of s p) dc) by done. assert (Hspc : 0 ≤ spc < mem_vir (mp_seg_S r) + mem_len (mp_seg_S r)) by lia.
  apply wp_bind. eapply wp_mono; [by apply (grow_run s p dc spc)|]. cbn beta. intros _ s1 Hs1. apply wp_bind.
  eapply wp_mono; [exact Hs1|]. clear s1 Hs1. cbn beta. set (r2 := adjusted r dc spc).
  intros _ s2 Hc2. pose proof (proj2 Hc2 p) as E2. rewrite decide_True in E2 by done.
  change (mproc_of s2 p = r2) in E2. apply wp_bind, wp_row; [done|]. rewrite E2.
  assert (Esz : size_ok (Z.land (mp_flags r2) SEPARATE) (mem_len (mp_seg_T r2)) (mem_len (mp_seg_D r2)) (mem_len (mp_seg_S r2))
      (mem_vir (mp_seg_D r2)) (mem_vir (mp_seg_S r2)) =
    if mem_vir (mp_seg_D r) + dc <=? Z.min spc (mem_vir (mp_seg_S r)) then OK else ENOMEM).
  { unfold size_ok, r2, adjusted. cbn. rewrite u16_id by lia.
    replace (mem_vir (grown r spc)) with (Z.min spc (mem_vir (mp_seg_S r))).
    - destruct (Z.ltb_spec (Z.min spc (mem_vir (mp_seg_S r))) (mem_vir (mp_seg_D r) + dc)),
        (Z.leb_spec (mem_vir (mp_seg_D r) + dc) (Z.min spc (mem_vir (mp_seg_S r)))); try lia; done.
    - unfold grown. fold delta. destruct (Z.ltb_spec 0 delta); cbn; lia. }
  rewrite Esz. destruct (_ <=? Z.min spc (mem_vir (mp_seg_S r))).
  - change (OK =? OK) with true. cbv iota. apply wp_bind, wp_when.
    + intros _. apply wp_bind. eapply wp_eq; [done|]. do 2 apply wp_ret. split_and!; [done|exact E2|].
      intros i Hi. cbn. by rewrite (proj2 Hc2), decide_False.
    + intros _. apply wp_ret. split_and!; [done|exact E2|]. intros i Hi. by rewrite (proj2 Hc2), decide_False.
  - change (ENOMEM =? OK) with false. cbv iota. apply wp_bind.
    eapply wp_mono; [by apply (undo_run s s2 p dc spc)|]. cbn beta. intros _ s3 Hs3. apply wp_bind.
    eapply wp_mono; [exact Hs3|]. cbn beta.
    intros _ s4 [Hl4 Hr4]. apply wp_ret. split_and!; [done| |done]. intros i. rewrite Hr4. by case_decide as E; [rewrite E|].
Qed.

(** A process with 16 clicks of data from 0 and a stack of 4 clicks that ends at click 100. *)
Definition stack_row : mproc := zero_mproc <| mp_seg_D := MemMap 0 500 16 |> <| mp_seg_S := MemMap 96 596 4 |>.
Definition stack_mm : mmst := zero_mm <| mproc_of := λ _, stack_row |>.
Lemma adjust_exact_witness : wp (adjust 5 20 (90 * 256)) (adjust_post stack_mm 5 20 (u16 (Z.shiftr (90 * 256) CLICK_SHIFT))) stack_mm.
Proof. exact (@adjust_exact obliging stack_mm 5 20 (90 * 256) eq_refl ltac:(unfold segs_ok; cbn; lia)). Defined.

(** The signals the loops of [do_sigprocmask] visit. *)
Definition visited (i : Z) : bool := (1 <=? i) && (i <? NSIG).

Lemma range_nil k i : (k <=? i) && (i <? k + 0) = false.
Proof. zcmp. Qed.
Lemma range_step k n i : 0 ≤ n →
  (k <=? i) && (i <? k + Z.succ n) = (i =? k) || ((Z.succ k <=? i) && (i <? Z.succ k + n)).
Proof. intros. zcmp. Qed.

Lemma mask_fold (op : Z → Z → Z) (b : bool) set i :
  (∀ m k, 0 ≤ k ≤ NSIG → Z.testbit (op m k) i = if i =? k then b else Z.testbit m i) → ∀ n k m,
  1 ≤ k → k + Z.of_nat n ≤ NSIG →
  Z.testbit (foldl (λ mask i, if ismember set i then op mask i else mask) m (seqZ k (Z.of_nat n))) i =
    if (k <=? i) && (i <? k + Z.of_nat n) && Z.testbit set i then b else Z.testbit m i.
Proof.
  intros Hop. induction n as [|n IH]; intros k m Hk Hn.
  { change (Z.of_nat 0) with 0. by rewrite range_nil. }
  assert (Hkn : 0 ≤ k ≤ NSIG) by (clear - Hk Hn; lia).
  rewrite Nat2Z.inj_succ in Hn |- *. rewrite seqZ_cons by (clear; lia). cbn [foldl]. rewrite Z.pred_succ.
  rewrite IH by (clear - Hk Hn; lia). unfold ismember. rewrite sigismember_testbit by done.
  rewrite range_step by (clear; lia). destruct (Z.eqb_spec i k) as [->|Hik].
  - replace (Z.succ k <=? k) with false by (clear; zcmp). cbn [andb orb].
    destruct (Z.testbit set k); cbn; [|done]. rewrite Hop by done. by rewrite Z.eqb_refl.
  - cbn [orb]. destruct (Z.testbit set k); cbn; [|done]. rewrite Hop by done. by destruct (Z.eqb_spec i k).
Qed.
Lemma block_bits set mask i : 0 ≤ i →
  Z.testbit (block_sigs set mask) i = if visited i && Z.testbit set i then true else Z.testbit mask i.
Proof.
  intros Hi. unfold block_sigs. apply (mask_fold addset true set i) with (n := 15%nat); [|done..].
  intros m k Hk. unfold addset. rewrite sigaddset_testbit by lia. by destruct (i =? k).
Qed.
Lemma unblock_bits set mask i : 0 ≤ i →
  Z.testbit (unblock_sigs set mask) i = if visited i && Z.testbit set i then false else Z.testbit mask i.
Proof.
  intros Hi. unfold unblock_sigs. apply (mask_fold delset false set i) with (n := 15%nat); [|done..].
  intros m k Hk. unfold delset. rewrite sigdelset_testbit by lia. by destruct (i =? k).
Qed.

(** SIG_BLOCK adds to the signal mask the signals 1..15 of the set, SIGKILL
    excepted, and returns the old mask; SIG_UNBLOCK and SIG_SETMASK, SIGKILL apart,
    give the masks [unblock_sigs] and the set before pending signals are looked
    for.  Signal 16, the last valid one, is never blocked by SIG_BLOCK. *)
Theorem sigprocmask_block `{SV : Servers} (s : mmst)
    (Hm : in_table (mp s) = true) (Hhow : m2_i1 (mm_in s) = SIG_BLOCK) :
  ∃ s', do_sigprocmask s = Ret OK s' ∧
    m2_l1 (mm_out s') = mp_sigmask (mproc_of s (mp s)) ∧
    (∀ i, i ≠ mp s → mproc_of s' i = mproc_of s i) ∧ mp_sigpending (mproc_of s' (mp s)) = mp_sigpending (mproc_of s (mp s)) ∧
    ∀ i, 0 ≤ i → Z.testbit (mp_sigmask (mproc_of s' (mp s))) i =
      Z.testbit (mp_sigmask (mproc_of s (mp s))) i ||
      (visited i && negb (i =? SIGKILL) && Z.testbit (u32 (m2_l1 (mm_in s))) i).
Proof.
  unfold do_sigprocmask. do 2 (erewrite bind_eq; [|done]). erewrite bind_eq; [|unfold mget; by rewrite Hm].
  erewrite bind_eq; [|done]. cbv zeta. rewrite Hhow. change (SIG_BLOCK =? SIG_BLOCK) with true. cbv iota.
  erewrite bind_eq; [|unfold mset; by rewrite Hm]. eexists. split; [done|]. cbn [mm_out mproc_of upd]. split_and!.
  - done.
  - intros i Hi. cbn. by rewrite proc_set, decide_False.
  - cbn. by rewrite proc_set, decide_True.
  - intros i Hi. cbn -[Z.testbit delset block_sigs]. rewrite proc_set, decide_True by done. cbn -[Z.testbit delset block_sigs].
    rewrite block_bits by done. unfold delset. rewrite sigdelset_testbit by done.
    destruct (visited i), (i =? SIGKILL), (Z.testbit (u32 _) i), (Z.testbit (mp_sigmask _) i); done.
Qed.
Definition block_mm : mmst := asked (Message 3 74 SIG_BLOCK 0 0 0x1FFFE 0 0 0) fork_mm.
Lemma sigprocmask_block_witness : ∃ s', do_sigprocmask block_mm = Ret OK s'.
Proof.
  assert (Hm : in_table (mp block_mm) = true) by (by vm_compute).
  assert (Hh : m2_i1 (mm_in block_mm) = SIG_BLOCK) by (by vm_compute).
  destruct (@sigprocmask_block obliging block_mm Hm Hh) as (s' & E & _). exact (ex_intro _ s' E).
Defined.

(** An alarm of [sec] seconds (at 16 bits) is set for 60 times as many clock
    ticks, which never overflows - the test for that never succeeds -, and the
    time that remained is reported in 0..32767. *)
Theorem set_alarm_bounds `{SV : Servers} (s : mmst) (p sec : Z) (Hp : in_table p = true) (Hh : holes_wf (mem_holes s)) :
  0 ≤ 60 * u16 sec < 2 ^ 31 ∧
  wpx mm_panics (set_alarm p sec) (λ r s',
    0 ≤ r ≤ INT_MAX ∧ log s' = SetAlarm p (60 * u16 sec) :: log s ∧
    has (mp_flags (mproc_of s' p)) ALARM_ON = negb (sec =? 0)) s.
Proof.
  pose proof (u16_range sec) as Hr. split; [lia|]. unfold set_alarm. apply wpx_bind, wpx_mset; [done|].
  assert (Et : s32 (HZ * u16 sec) = 60 * u16 sec) by (unfold HZ; rewrite s32_id; lia).
  rewrite Et, u32_id by lia. unfold HZ. rewrite (Z.mul_comm 60), Z.div_mul by done. rewrite Z.eqb_refl. cbn [negb]. cbv iota.
  apply wpx_bind. unfold do_call, wpx at 1. destruct (negb _); [apply wpx_panic; unfold mm_panics; set_solver|]. apply wpx_ret.
  split; [|split].
  - set (x := s16 _). destruct (negb _ || _) eqn:E; [unfold INT_MAX; lia|]. apply orb_false_iff in E as [_ E%Z.ltb_ge].
    split; [done|]. unfold x, s16, INT_MAX. match goal with |- (?a + _) mod _ - _ ≤ _ => pose proof (Z.mod_pos_bound (a + 2 ^ 15) (2 ^ 16)) end. lia.
  - cbn. by rewrite Z.mul_comm.
  - cbn. rewrite proc_set, decide_True by done. cbn. destruct (negb (sec =? 0)); [by apply has_setf_same|by apply has_clrf_same].
Qed.
Lemma set_alarm_bounds_witness : wpx mm_panics (set_alarm 3 70000) (λ r s',
    0 ≤ r ≤ INT_MAX ∧ log s' = SetAlarm 3 (60 * u16 70000) :: log boot_mm ∧
    has (mp_flags (mproc_of s' 3)) ALARM_ON = negb (70000 =? 0)) boot_mm.
Proof. exact (proj2 (@set_alarm_bounds obliging boot_mm 3 70000 eq_refl (inv_holes _ _ _ _ boot_mm_inv))). Defined.
