(* ===== verification/Fstate.v ===== *)
(** * The file system's tables, variables and environment

    fs/const.h, buf.h, inode.h, super.h, filp.h, fproc.h, lock.h, glo.h, param.h
    and type.h: the constants, the tables and the global variables of FS, the
    layout of messages, and the calls FS makes to the tasks, to the kernel and
    to processes.  A pointer to a table entry is the index of the entry, the
    null pointer is [NIL]; an access through any other value is a fault. *)

From S2P Require Import Prelude.

(** ** Constants (config.h, const.h, limits.h, errno.h, com.h, callnr.h, fcntl.h) *)
Definition NIL : Z := -1.
(** A pointer read from the disk, which points to no entry. *)
Definition WILD : Z := -2.

Definition NR_PROCS : Z := 64.
Definition NR_TASKS : Z := 11.
Definition NR_BUFS : Z := 256.
Definition NR_BUF_HASH : Z := 256.
Definition HASH_MASK : Z := NR_BUF_HASH - 1.
Definition NR_FILPS : Z := 128.
Definition NR_INODES : Z := 64.
Definition NR_SUPERS : Z := 8.
Definition NR_LOCKS : Z := 8.
Definition NR_IOREQS : Z := 64.
Definition MAX_BUF2 : Z := 256 * 4.
Definition OPEN_MAX : Z := 20.
Definition LINK_MAX : Z := 127.
Definition PATH_MAX : Z := 255.
Definition NAME_MAX : Z := 14.
Definition M3_STRING : Z := 14.
Definition BLOCK_SIZE : Z := 1024.
Definition MM_PROC_NR : Z := 0.
Definition FS_PROC_NR : Z := 1.
Definition LOW_USER : Z := 3.
Definition INIT_PROC_NR : Z := 3.
Definition NCALLS : Z := 77.
Definition NO_NUM : Z := 0x8000.
Definition LONG_MAX : Z := 2147483647.
Definition MAX_FILE_POS : Z := 4294967295.
Definition BYTE : Z := 255.
Definition BITMAP_CHUNKS : Z := 512.
Definition BITCHUNK_BITS : Z := 16.
Definition BITS_PER_BLOCK : Z := BITMAP_CHUNKS * BITCHUNK_BITS.

Definition V1_NR_DZONES : Z := 7.
Definition V1_NR_TZONES : Z := 9.
Definition V2_NR_DZONES : Z := 7.
Definition V2_NR_TZONES : Z := 10.
Definition V1_INODES_PER_BLOCK : Z := 32.
Definition V2_INODES_PER_BLOCK : Z := 16.
Definition V1_INDIRECTS : Z := 512.
Definition V2_INDIRECTS : Z := 256.
Definition V1_INODE_SIZE : Z := 32.
Definition V2_INODE_SIZE : Z := 64.
Definition SUPER_MAGIC : Z := 0x137F.
Definition SUPER_V2 : Z := 0x2468.
Definition V1 : Z := 1.
Definition V2 : Z := 2.
Definition PIPE_SIZE : Z := V1_NR_DZONES * BLOCK_SIZE.
Definition DIR_ENTRY_SIZE : Z := 16.
Definition NR_DIR_ENTRIES : Z := 64.

Definition SU_UID : Z := 0.
Definition NORMAL : Z := 0.
Definition NO_READ : Z := 1.
Definition PREFETCH : Z := 2.
Definition READING : Z := 0.
Definition WRITING : Z := 1.
Definition XPIPE : Z := - NR_TASKS - 1.
Definition XOPEN : Z := - NR_TASKS - 2.
Definition XLOCK : Z := - NR_TASKS - 3.
Definition XPOPEN : Z := - NR_TASKS - 4.
Definition NO_BIT : Z := 0.
Definition DUP_MASK : Z := 0x40.
Definition LOOK_UP : Z := 0.
Definition ENTER : Z := 1.
Definition DELETE : Z := 2.
Definition IS_EMPTY : Z := 3.
Definition ATIME : Z := 2.
Definition CTIME : Z := 4.
Definition MTIME : Z := 8.
Definition END_OF_FILE : Z := -104.
Definition ROOT_INODE : Z := 1.
Definition SUPER_BLOCK : Z := 1.
Definition IMAP : Z := 0.
Definition ZMAP : Z := 1.
Definition NO_BLOCK : Z := 0.
Definition NO_ZONE : Z := 0.
Definition NO_DEV : Z := 0.
Definition DEV_RAM : Z := 0x100.

Definition WRITE_IMMED : Z := 0x40.
Definition ONE_SHOT : Z := 0x80.
Definition INODE_BLOCK : Z := 0.
Definition DIRECTORY_BLOCK : Z := 1.
Definition INDIRECT_BLOCK : Z := 2.
Definition MAP_BLOCK : Z := 3.
Definition ZUPER_BLOCK : Z := 4 + WRITE_IMMED + ONE_SHOT.
Definition FULL_DATA_BLOCK : Z := 5.
Definition PARTIAL_DATA_BLOCK : Z := 6.

Definition I_TYPE : Z := 0xF000.
Definition I_REGULAR : Z := 0x8000.
Definition I_BLOCK_SPECIAL : Z := 0x6000.
Definition I_DIRECTORY : Z := 0x4000.
Definition I_CHAR_SPECIAL : Z := 0x2000.
Definition I_NAMED_PIPE : Z := 0x1000.
Definition I_SYMBOLIC_LINK : Z := 0xA000.
Definition I_SET_UID_BIT : Z := 0x800.
Definition I_SET_GID_BIT : Z := 0x400.
Definition ALL_MODES : Z := 0xDFF.
Definition RWX_MODES : Z := 0x1FF.
Definition R_BIT : Z := 4.
Definition W_BIT : Z := 2.
Definition X_BIT : Z := 1.
Definition I_NOT_ALLOC : Z := 0.
Definition FILP_CLOSED : Z := 0.

Definition O_CREAT : Z := 0x40.
Definition O_EXCL : Z := 0x80.
Definition O_NOCTTY : Z := 0x100.
Definition O_TRUNC : Z := 0x200.
Definition O_APPEND : Z := 0x400.
Definition O_NONBLOCK : Z := 0x800.
Definition O_RDONLY : Z := 0.
Definition O_WRONLY : Z := 1.
Definition O_ACCMODE : Z := 3.
Definition F_DUPFD : Z := 0.
Definition F_GETFD : Z := 1.
Definition F_SETFD : Z := 2.
Definition F_GETFL : Z := 3.
Definition F_SETFL : Z := 4.
Definition F_GETLK : Z := 5.
Definition F_SETLK : Z := 6.
Definition F_SETLKW : Z := 7.
Definition FD_CLOEXEC : Z := 1.
Definition F_RDLCK : Z := 1.
Definition F_WRLCK : Z := 2.
Definition F_UNLCK : Z := 3.
Definition SIGPIPE : Z := 13.

Definition CANCEL : Z := 0.
Definition DEV_READ : Z := 3.
Definition DEV_WRITE : Z := 4.
Definition DEV_IOCTL : Z := 5.
Definition DEV_OPEN : Z := 6.
Definition DEV_CLOSE : Z := 7.
Definition SCATTERED_IO : Z := 8.
Definition OPTIONAL_IO : Z := 16.
Definition SUSPEND : Z := -998.
Definition GET_TIME : Z := 3.
Definition SET_TIME : Z := 4.
Definition CLOCK : Z := -3.
Definition MEM : Z := -4.
Definition FLOPPY : Z := -5.
Definition PRINTER : Z := -6.
Definition ANY : Z := NR_PROCS + 100.

Definition READ : Z := 3.
Definition WRITE : Z := 4.
Definition OPEN : Z := 5.
Definition CREAT : Z := 8.
Definition UNLINK : Z := 10.
Definition SETUID : Z := 23.
Definition ACCESS : Z := 33.
Definition SETGID : Z := 46.
Definition REVIVE : Z := 67.

Definition OK : Z := 0.
Definition EPERM : Z := -1.
Definition ENOENT : Z := -2.
Definition EINTR : Z := -4.
Definition EIO : Z := -5.
Definition ENXIO : Z := -6.
Definition EBADF : Z := -9.
Definition EAGAIN : Z := -11.
Definition EACCES : Z := -13.
Definition ENOTBLK : Z := -15.
Definition EBUSY : Z := -16.
Definition EEXIST : Z := -17.
Definition EXDEV : Z := -18.
Definition ENODEV : Z := -19.
Definition ENOTDIR : Z := -20.
Definition EISDIR : Z := -21.
Definition EINVAL : Z := -22.
Definition ENFILE : Z := -23.
Definition EMFILE : Z := -24.
Definition ENOTTY : Z := -25.
Definition EFBIG : Z := -27.
Definition ENOSPC : Z := -28.
Definition ESPIPE : Z := -29.
Definition EROFS : Z := -30.
Definition EMLINK : Z := -31.
Definition EPIPE : Z := -32.
Definition ENAMETOOLONG : Z := -36.
Definition ENOLCK : Z := -37.
Definition ENOSYS : Z := -38.
Definition ENOTEMPTY : Z := -39.
Definition ELOOP : Z := -40.
Definition EGENERIC : Z := -99.
Definition ELOCKED : Z := -101.
Definition EBADCALL : Z := -102.

(** ** Tables *)

(** buf.h: the block is kept as its bytes; [b_dirt] is [true] for [DIRTY]. *)
Record buf := Buf {
  b_data : Z → Z;
  b_next : Z;
  b_prev : Z;
  b_hash : Z;
  b_blocknr : Z;
  b_dev : Z;
  b_dirt : bool;
  b_count : Z
}.
#[export] Instance eta_buf : Eta buf := λ r,
  Buf r.(b_data) r.(b_next) r.(b_prev) r.(b_hash) r.(b_blocknr) r.(b_dev) r.(b_dirt) r.(b_count).
#[export] Instance upd_b_data : Upd b_data := ltac:(derive_upd).
#[export] Instance upd_b_next : Upd b_next := ltac:(derive_upd).
#[export] Instance upd_b_prev : Upd b_prev := ltac:(derive_upd).
#[export] Instance upd_b_hash : Upd b_hash := ltac:(derive_upd).
#[export] Instance upd_b_blocknr : Upd b_blocknr := ltac:(derive_upd).
#[export] Instance upd_b_dev : Upd b_dev := ltac:(derive_upd).
#[export] Instance upd_b_dirt : Upd b_dirt := ltac:(derive_upd).
#[export] Instance upd_b_count : Upd b_count := ltac:(derive_upd).

(** cache2.c *)
Record buf2 := Buf2 {
  b2_blocknr : Z;
  b2_dev : Z;
  b2_count : Z
}.
#[export] Instance eta_buf2 : Eta buf2 := λ r,
  Buf2 r.(b2_blocknr) r.(b2_dev) r.(b2_count).
#[export] Instance upd_b2_blocknr : Upd b2_blocknr := ltac:(derive_upd).
#[export] Instance upd_b2_dev : Upd b2_dev := ltac:(derive_upd).
#[export] Instance upd_b2_count : Upd b2_count := ltac:(derive_upd).

(** super.h ([s_pad] is not used) *)
Record super_block := SuperBlock {
  s_ninodes : Z;
  s_nzones : Z;
  s_imap_blocks : Z;
  s_zmap_blocks : Z;
  s_firstdatazone : Z;
  s_log_zone_size : Z;
  s_max_size : Z;
  s_magic : Z;
  s_zones : Z;
  s_isup : Z;
  s_imount : Z;
  s_inodes_per_block : Z;
  s_dev : Z;
  s_rd_only : bool;
  s_native : bool;
  s_version : Z;
  s_ndzones : Z;
  s_nindirs : Z;
  s_isearch : Z;
  s_zsearch : Z
}.
#[export] Instance eta_super_block : Eta super_block := λ r,
  SuperBlock r.(s_ninodes) r.(s_nzones) r.(s_imap_blocks) r.(s_zmap_blocks) r.(s_firstdatazone)
    r.(s_log_zone_size) r.(s_max_size) r.(s_magic) r.(s_zones) r.(s_isup) r.(s_imount)
    r.(s_inodes_per_block) r.(s_dev) r.(s_rd_only) r.(s_native) r.(s_version) r.(s_ndzones)
    r.(s_nindirs) r.(s_isearch) r.(s_zsearch).
#[export] Instance upd_s_ninodes : Upd s_ninodes := ltac:(derive_upd).
#[export] Instance upd_s_nzones : Upd s_nzones := ltac:(derive_upd).
#[export] Instance upd_s_imap_blocks : Upd s_imap_blocks := ltac:(derive_upd).
#[export] Instance upd_s_zmap_blocks : Upd s_zmap_blocks := ltac:(derive_upd).
#[export] Instance upd_s_firstdatazone : Upd s_firstdatazone := ltac:(derive_upd).
#[export] Instance upd_s_log_zone_size : Upd s_log_zone_size := ltac:(derive_upd).
#[export] Instance upd_s_max_size : Upd s_max_size := ltac:(derive_upd).
#[export] Instance upd_s_magic : Upd s_magic := ltac:(derive_upd).
#[export] Instance upd_s_zones : Upd s_zones := ltac:(derive_upd).
#[export] Instance upd_s_isup : Upd s_isup := ltac:(derive_upd).
#[export] Instance upd_s_imount : Upd s_imount := ltac:(derive_upd).
#[export] Instance upd_s_inodes_per_block : Upd s_inodes_per_block := ltac:(derive_upd).
#[export] Instance upd_s_dev : Upd s_dev := ltac:(derive_upd).
#[export] Instance upd_s_rd_only : Upd s_rd_only := ltac:(derive_upd).
#[export] Instance upd_s_native : Upd s_native := ltac:(derive_upd).
#[export] Instance upd_s_version : Upd s_version := ltac:(derive_upd).
#[export] Instance upd_s_ndzones : Upd s_ndzones := ltac:(derive_upd).
#[export] Instance upd_s_nindirs : Upd s_nindirs := ltac:(derive_upd).
#[export] Instance upd_s_isearch : Upd s_isearch := ltac:(derive_upd).
#[export] Instance upd_s_zsearch : Upd s_zsearch := ltac:(derive_upd).

(** inode.h: the flags are [true] for [DIRTY], [I_PIPE], [I_MOUNT] and [ISEEK]. *)
Record inode := Inode {
  i_mode : Z;
  i_nlinks : Z;
  i_uid : Z;
  i_gid : Z;
  i_size : Z;
  i_atime : Z;
  i_mtime : Z;
  i_ctime : Z;
  i_zone : Z → Z;
  i_dev : Z;
  i_num : Z;
  i_count : Z;
  i_ndzones : Z;
  i_nindirs : Z;
  i_sp : Z;
  i_dirt : bool;
  i_pipe : bool;
  i_mount : bool;
  i_seek : bool;
  i_update : Z
}.
#[export] Instance eta_inode : Eta inode := λ r,
  Inode r.(i_mode) r.(i_nlinks) r.(i_uid) r.(i_gid) r.(i_size) r.(i_atime) r.(i_mtime)
    r.(i_ctime) r.(i_zone) r.(i_dev) r.(i_num) r.(i_count) r.(i_ndzones) r.(i_nindirs) r.(i_sp)
    r.(i_dirt) r.(i_pipe) r.(i_mount) r.(i_seek) r.(i_update).
#[export] Instance upd_i_mode : Upd i_mode := ltac:(derive_upd).
#[export] Instance upd_i_nlinks : Upd i_nlinks := ltac:(derive_upd).
#[export] Instance upd_i_uid : Upd i_uid := ltac:(derive_upd).
#[export] Instance upd_i_gid : Upd i_gid := ltac:(derive_upd).
#[export] Instance upd_i_size : Upd i_size := ltac:(derive_upd).
#[export] Instance upd_i_atime : Upd i_atime := ltac:(derive_upd).
#[export] Instance upd_i_mtime : Upd i_mtime := ltac:(derive_upd).
#[export] Instance upd_i_ctime : Upd i_ctime := ltac:(derive_upd).
#[export] Instance upd_i_zone : Upd i_zone := ltac:(derive_upd).
#[export] Instance upd_i_dev : Upd i_dev := ltac:(derive_upd).
#[export] Instance upd_i_num : Upd i_num := ltac:(derive_upd).
#[export] Instance upd_i_count : Upd i_count := ltac:(derive_upd).
#[export] Instance upd_i_ndzones : Upd i_ndzones := ltac:(derive_upd).
#[export] Instance upd_i_nindirs : Upd i_nindirs := ltac:(derive_upd).
#[export] Instance upd_i_sp : Upd i_sp := ltac:(derive_upd).
#[export] Instance upd_i_dirt : Upd i_dirt := ltac:(derive_upd).
#[export] Instance upd_i_pipe : Upd i_pipe := ltac:(derive_upd).
#[export] Instance upd_i_mount : Upd i_mount := ltac:(derive_upd).
#[export] Instance upd_i_seek : Upd i_seek := ltac:(derive_upd).
#[export] Instance upd_i_update : Upd i_update := ltac:(derive_upd).

(** file.h *)
Record filp := Filp {
  filp_mode : Z;
  filp_flags : Z;
  filp_count : Z;
  filp_ino : Z;
  filp_pos : Z
}.
#[export] Instance eta_filp : Eta filp := λ r,
  Filp r.(filp_mode) r.(filp_flags) r.(filp_count) r.(filp_ino) r.(filp_pos).
#[export] Instance upd_filp_mode : Upd filp_mode := ltac:(derive_upd).
#[export] Instance upd_filp_flags : Upd filp_flags := ltac:(derive_upd).
#[export] Instance upd_filp_count : Upd filp_count := ltac:(derive_upd).
#[export] Instance upd_filp_ino : Upd filp_ino := ltac:(derive_upd).
#[export] Instance upd_filp_pos : Upd filp_pos := ltac:(derive_upd).

(** fproc.h: the flags are [true] for [SUSPENDED] and [REVIVING]. *)
Record fproc := Fproc {
  fp_umask : Z;
  fp_workdir : Z;
  fp_rootdir : Z;
  fp_filp : Z → Z;
  fp_realuid : Z;
  fp_effuid : Z;
  fp_realgid : Z;
  fp_effgid : Z;
  fp_tty : Z;
  fp_fd : Z;
  fp_buffer : Z;
  fp_nbytes : Z;
  fp_cum_io_partial : Z;
  fp_suspended : bool;
  fp_revived : bool;
  fp_task : Z;
  fp_sesldr : bool;
  fp_pid : Z;
  fp_cloexec : Z
}.
#[export] Instance eta_fproc : Eta fproc := λ r,
  Fproc r.(fp_umask) r.(fp_workdir) r.(fp_rootdir) r.(fp_filp) r.(fp_realuid) r.(fp_effuid)
    r.(fp_realgid) r.(fp_effgid) r.(fp_tty) r.(fp_fd) r.(fp_buffer) r.(fp_nbytes)
    r.(fp_cum_io_partial) r.(fp_suspended) r.(fp_revived) r.(fp_task) r.(fp_sesldr) r.(fp_pid)
    r.(fp_cloexec).
#[export] Instance upd_fp_umask : Upd fp_umask := ltac:(derive_upd).
#[export] Instance upd_fp_workdir : Upd fp_workdir := ltac:(derive_upd).
#[export] Instance upd_fp_rootdir : Upd fp_rootdir := ltac:(derive_upd).
#[export] Instance upd_fp_filp : Upd fp_filp := ltac:(derive_upd).
#[export] Instance upd_fp_realuid : Upd fp_realuid := ltac:(derive_upd).
#[export] Instance upd_fp_effuid : Upd fp_effuid := ltac:(derive_upd).
#[export] Instance upd_fp_realgid : Upd fp_realgid := ltac:(derive_upd).
#[export] Instance upd_fp_effgid : Upd fp_effgid := ltac:(derive_upd).
#[export] Instance upd_fp_tty : Upd fp_tty := ltac:(derive_upd).
#[export] Instance upd_fp_fd : Upd fp_fd := ltac:(derive_upd).
#[export] Instance upd_fp_buffer : Upd fp_buffer := ltac:(derive_upd).
#[export] Instance upd_fp_nbytes : Upd fp_nbytes := ltac:(derive_upd).
#[export] Instance upd_fp_cum_io_partial : Upd fp_cum_io_partial := ltac:(derive_upd).
#[export] Instance upd_fp_suspended : Upd fp_suspended := ltac:(derive_upd).
#[export] Instance upd_fp_revived : Upd fp_revived := ltac:(derive_upd).
#[export] Instance upd_fp_task : Upd fp_task := ltac:(derive_upd).
#[export] Instance upd_fp_sesldr : Upd fp_sesldr := ltac:(derive_upd).
#[export] Instance upd_fp_pid : Upd fp_pid := ltac:(derive_upd).
#[export] Instance upd_fp_cloexec : Upd fp_cloexec := ltac:(derive_upd).

(** lock.h *)
Record file_lock := FileLock {
  lock_type : Z;
  lock_pid : Z;
  lock_inode : Z;
  lock_first : Z;
  lock_last : Z
}.
#[export] Instance eta_file_lock : Eta file_lock := λ r,
  FileLock r.(lock_type) r.(lock_pid) r.(lock_inode) r.(lock_first) r.(lock_last).
#[export] Instance upd_lock_type : Upd lock_type := ltac:(derive_upd).
#[export] Instance upd_lock_pid : Upd lock_pid := ltac:(derive_upd).
#[export] Instance upd_lock_inode : Upd lock_inode := ltac:(derive_upd).
#[export] Instance upd_lock_first : Upd lock_first := ltac:(derive_upd).
#[export] Instance upd_lock_last : Upd lock_last := ltac:(derive_upd).

(** ** Messages

    minix/type.h: after the two header words a message is a union of views of
    the same memory; it is kept as its 16-bit words, the most significant half
    of a 32-bit field first. *)
Record message := Message {
  m_source : Z;
  m_type : Z;
  m_w : Z → Z
}.
#[export] Instance eta_message : Eta message := λ r,
  Message r.(m_source) r.(m_type) r.(m_w).
#[export] Instance upd_m_source : Upd m_source := ltac:(derive_upd).
#[export] Instance upd_m_type : Upd m_type := ltac:(derive_upd).
#[export] Instance upd_m_w : Upd m_w := ltac:(derive_upd).

Definition word32 (w : Z → Z) (i : Z) : Z := w i * 2 ^ 16 + w (i + 1).
Definition put16 (i v : Z) (mm : message) : message := mm <| m_w := <[i := u16 v]> (m_w mm) |>.
Definition put32 (i v : Z) (mm : message) : message :=
  mm <| m_w := <[i := u32 v / 2 ^ 16]> (<[i + 1 := u16 v]> (m_w mm)) |>.

Definition m1_i1 (mm : message) : Z := s16 (m_w mm 0).
Definition m1_i2 (mm : message) : Z := s16 (m_w mm 1).
Definition m1_i3 (mm : message) : Z := s16 (m_w mm 2).
Definition m1_p1 (mm : message) : Z := word32 (m_w mm) 3.
Definition m1_p2 (mm : message) : Z := word32 (m_w mm) 5.
Definition m2_i1 (mm : message) : Z := s16 (m_w mm 0).
Definition m2_i2 (mm : message) : Z := s16 (m_w mm 1).
Definition m2_i3 (mm : message) : Z := s16 (m_w mm 2).
Definition m2_l1 (mm : message) : Z := s32 (word32 (m_w mm) 3).
Definition m2_l2 (mm : message) : Z := s32 (word32 (m_w mm) 5).
Definition m2_p1 (mm : message) : Z := word32 (m_w mm) 7.
Definition m3_i1 (mm : message) : Z := s16 (m_w mm 0).
Definition m3_i2 (mm : message) : Z := s16 (m_w mm 1).
Definition m3_p1 (mm : message) : Z := word32 (m_w mm) 2.
(** byte [i] of [m3_ca1] *)
Definition m3_ca1 (mm : message) (i : Z) : Z :=
  let w := m_w mm (4 + i / 2) in if i mod 2 =? 0 then w / 2 ^ 8 else w mod 2 ^ 8.
Definition m6_l1 (mm : message) : Z := s32 (word32 (m_w mm) 3).

(** A request to a device task, whose other fields are not set. *)
Definition dev_message (op device proc_nr count position flags address : Z) : message :=
  put32 7 address (put32 5 flags (put32 3 position (put16 2 count (put16 1 proc_nr (put16 0 device
    (Message 0 op (λ _, 0))))))).
Definition REP_PROC_NR := m2_i1.
Definition REP_STATUS := m2_i2.
Definition set_REP_STATUS (v : Z) : message → message := put16 1 v.

(** ** The environment

    [Sendrec]: a request to a task, with the memory of FS it names: none, a
    buffer to be filled, the content of a buffer to be written, or an I/O
    vector.  [CopyFrom] and [CopyTo] are the two directions of [sys_copy]. *)
Record iorequest_s := Iorequest { io_position : Z; io_nbytes : Z; io_request : Z; io_buf : list Z }.
Inductive iomem :=
| NoMem
| Fill
| Bytes (l : list Z)
| Iovec (l : list iorequest_s).
Inductive fcall :=
| Sendrec (task : Z) (mm : message) (mem : iomem)
| Receive (source : Z)
| Send (dest : Z) (mm : message)
| CopyFrom (proc seg addr len : Z)
| CopyTo (proc seg addr : Z) (l : list Z)
| SysKill (proc sig : Z)
| SysTimes (proc : Z).
(** The answer: the result of the call, the message received, and the bytes
    stored in the memory of FS, for each request of a vector with its
    [io_nbytes] afterwards. *)
Record fanswer := Fanswer { a_res : Z; a_msg : message; a_data : list (Z * list Z) }.
(** The answers, which may depend on the calls made before, the last one first;
    a bound on the iterations of the loops that the code does not bound; the
    byte of memory after [user_path]; the content of a name that was not
    initialised; and the result of a function that returns none. *)
Class World := MkWorld {
  fs_answer : list fcall → fcall → fanswer;
  patience : nat;
  path_guard : Z;
  junk : list Z;
  no_value : Z
}.

(** ** The state (glo.h, and the variables of cache2.c, boot.h) *)
(** The names [m], [m1] and [who] of the source are [fs_m], [fs_m1] and [fs_who]. *)
Record fsst := Fsst {
  buf_of : Z → buf;
  buf_hash : Z → Z;
  front : Z;
  rear : Z;
  bufs_in_use : Z;
  buf2_of : Z → buf2;
  nr_buf2 : Z;
  buf2_idx : Z;
  super_of : Z → super_block;
  inode_of : Z → inode;
  filp_of : Z → filp;
  fproc_of : Z → fproc;
  lock_of : Z → file_lock;
  fp : Z;
  super_user : bool;
  dont_reply : bool;
  susp_count : Z;
  nr_locks : Z;
  reviving : Z;
  rdahedpos : Z;
  rdahed_inode : Z;
  fs_m : message;
  fs_m1 : message;
  fs_who : Z;
  fs_call : Z;
  user_path : Z → Z;
  err_code : Z;
  rdwt_err : Z;
  ROOT_DEV : Z;
  IMAGE_DEV : Z;
  bp_ramsize : Z;
  fs_log : list fcall
}.
#[export] Instance eta_fsst : Eta fsst := λ r,
  Fsst r.(buf_of) r.(buf_hash) r.(front) r.(rear) r.(bufs_in_use) r.(buf2_of) r.(nr_buf2)
    r.(buf2_idx) r.(super_of) r.(inode_of) r.(filp_of) r.(fproc_of) r.(lock_of) r.(fp)
    r.(super_user) r.(dont_reply) r.(susp_count) r.(nr_locks) r.(reviving) r.(rdahedpos)
    r.(rdahed_inode) r.(fs_m) r.(fs_m1) r.(fs_who) r.(fs_call) r.(user_path) r.(err_code)
    r.(rdwt_err) r.(ROOT_DEV) r.(IMAGE_DEV) r.(bp_ramsize) r.(fs_log).
#[export] Instance upd_buf_of : Upd buf_of := ltac:(derive_upd).
#[export] Instance upd_buf_hash : Upd buf_hash := ltac:(derive_upd).
#[export] Instance upd_front : Upd front := ltac:(derive_upd).
#[export] Instance upd_rear : Upd rear := ltac:(derive_upd).
#[export] Instance upd_bufs_in_use : Upd bufs_in_use := ltac:(derive_upd).
#[export] Instance upd_buf2_of : Upd buf2_of := ltac:(derive_upd).
#[export] Instance upd_nr_buf2 : Upd nr_buf2 := ltac:(derive_upd).
#[export] Instance upd_buf2_idx : Upd buf2_idx := ltac:(derive_upd).
#[export] Instance upd_super_of : Upd super_of := ltac:(derive_upd).
#[export] Instance upd_inode_of : Upd inode_of := ltac:(derive_upd).
#[export] Instance upd_filp_of : Upd filp_of := ltac:(derive_upd).
#[export] Instance upd_fproc_of : Upd fproc_of := ltac:(derive_upd).
#[export] Instance upd_lock_of : Upd lock_of := ltac:(derive_upd).
#[export] Instance upd_fp : Upd fp := ltac:(derive_upd).
#[export] Instance upd_super_user : Upd super_user := ltac:(derive_upd).
#[export] Instance upd_dont_reply : Upd dont_reply := ltac:(derive_upd).
#[export] Instance upd_susp_count : Upd susp_count := ltac:(derive_upd).
#[export] Instance upd_nr_locks : Upd nr_locks := ltac:(derive_upd).
#[export] Instance upd_reviving : Upd reviving := ltac:(derive_upd).
#[export] Instance upd_rdahedpos : Upd rdahedpos := ltac:(derive_upd).
#[export] Instance upd_rdahed_inode : Upd rdahed_inode := ltac:(derive_upd).
#[export] Instance upd_fs_m : Upd fs_m := ltac:(derive_upd).
#[export] Instance upd_fs_m1 : Upd fs_m1 := ltac:(derive_upd).
#[export] Instance upd_fs_who : Upd fs_who := ltac:(derive_upd).
#[export] Instance upd_fs_call : Upd fs_call := ltac:(derive_upd).
#[export] Instance upd_user_path : Upd user_path := ltac:(derive_upd).
#[export] Instance upd_err_code : Upd err_code := ltac:(derive_upd).
#[export] Instance upd_rdwt_err : Upd rdwt_err := ltac:(derive_upd).
#[export] Instance upd_ROOT_DEV : Upd ROOT_DEV := ltac:(derive_upd).
#[export] Instance upd_IMAGE_DEV : Upd IMAGE_DEV := ltac:(derive_upd).
#[export] Instance upd_bp_ramsize : Upd bp_ramsize := ltac:(derive_upd).
#[export] Instance upd_fs_log : Upd fs_log := ltac:(derive_upd).

Notation PF := (M fsst).

(** ** Access to the tables *)
Definition in_tab (n i : Z) : bool := (0 <=? i) && (i <? n).
Definition bget {A} (f : buf → A) (i : Z) : PF A :=
  if in_tab NR_BUFS i then gets (λ s, f (buf_of s i)) else fault.
Definition bset (i : Z) (g : buf → buf) : PF unit :=
  if in_tab NR_BUFS i then modify (λ s, s <| buf_of := <[i := g (buf_of s i)]> (buf_of s) |>) else fault.
Definition b2get {A} (f : buf2 → A) (i : Z) : PF A :=
  if in_tab MAX_BUF2 i then gets (λ s, f (buf2_of s i)) else fault.
Definition b2set (i : Z) (g : buf2 → buf2) : PF unit :=
  if in_tab MAX_BUF2 i then modify (λ s, s <| buf2_of := <[i := g (buf2_of s i)]> (buf2_of s) |>) else fault.
Definition sget {A} (f : super_block → A) (i : Z) : PF A :=
  if in_tab NR_SUPERS i then gets (λ s, f (super_of s i)) else fault.
Definition sset (i : Z) (g : super_block → super_block) : PF unit :=
  if in_tab NR_SUPERS i then modify (λ s, s <| super_of := <[i := g (super_of s i)]> (super_of s) |>) else fault.
Definition iget {A} (f : inode → A) (i : Z) : PF A :=
  if in_tab NR_INODES i then gets (λ s, f (inode_of s i)) else fault.
Definition iset (i : Z) (g : inode → inode) : PF unit :=
  if in_tab NR_INODES i then modify (λ s, s <| inode_of := <[i := g (inode_of s i)]> (inode_of s) |>) else fault.
Definition fget {A} (f : filp → A) (i : Z) : PF A :=
  if in_tab NR_FILPS i then gets (λ s, f (filp_of s i)) else fault.
Definition fset (i : Z) (g : filp → filp) : PF unit :=
  if in_tab NR_FILPS i then modify (λ s, s <| filp_of := <[i := g (filp_of s i)]> (filp_of s) |>) else fault.
Definition pget {A} (f : fproc → A) (i : Z) : PF A :=
  if in_tab NR_PROCS i then gets (λ s, f (fproc_of s i)) else fault.
Definition pset (i : Z) (g : fproc → fproc) : PF unit :=
  if in_tab NR_PROCS i then modify (λ s, s <| fproc_of := <[i := g (fproc_of s i)]> (fproc_of s) |>) else fault.
Definition lget {A} (f : file_lock → A) (i : Z) : PF A :=
  if in_tab NR_LOCKS i then gets (λ s, f (lock_of s i)) else fault.
Definition lset (i : Z) (g : file_lock → file_lock) : PF unit :=
  if in_tab NR_LOCKS i then modify (λ s, s <| lock_of := <[i := g (lock_of s i)]> (lock_of s) |>) else fault.

(** [fp->f] and [fp->f = v] *)
Definition cget {A} (f : fproc → A) : PF A := p ← gets fp; pget f p.
Definition cset (g : fproc → fproc) : PF unit := p ← gets fp; pset p g.
(** [fpp->fp_filp[fd]], and its update *)
Definition get_desc (p d : Z) : PF Z :=
  t ← pget fp_filp p; if in_tab OPEN_MAX d then mret (t d) else fault.
Definition set_desc (p d f : Z) : PF unit :=
  if in_tab OPEN_MAX d then pset p (λ r, r <| fp_filp := <[d := f]> (fp_filp r) |>) else fault.
(** [rip->i_zone[k]], and its update *)
Definition get_zone (rip k : Z) : PF Z :=
  t ← iget i_zone rip; if in_tab V2_NR_TZONES k then mret (t k) else fault.
Definition set_zone (rip k z : Z) : PF unit :=
  if in_tab V2_NR_TZONES k then iset rip (λ r, r <| i_zone := <[k := u32 z]> (i_zone r) |>) else fault.

Definition set_err (e : Z) : PF unit := modify (λ s, s <| err_code := e |>).

(** ** Bytes of a block (a 68000 is big-endian) *)
Definition be16 (d : Z → Z) (o : Z) : Z := d o * 2 ^ 8 + d (o + 1).
Definition be32 (d : Z → Z) (o : Z) : Z := be16 d o * 2 ^ 16 + be16 d (o + 2).
Definition set16 (o v : Z) (d : Z → Z) : Z → Z := <[o := u16 v / 2 ^ 8]> (<[o + 1 := u8 v]> d).
Definition set32 (o v : Z) (d : Z → Z) : Z → Z := set16 o (u32 v / 2 ^ 16) (set16 (o + 2) v d).
(** [memcpy] of the bytes [l] to offset [o] *)
Definition store (o : Z) (l : list Z) (d : Z → Z) : Z → Z :=
  λ i, if (o <=? i) && (i <? o + Z.of_nat (length l)) then u8 (nth (Z.to_nat (i - o)) l 0) else d i.
Definition load (d : Z → Z) (o n : Z) : list Z := map d (seqZ o n).

(** utility.c *)
Definition conv2 (norm : bool) (w : Z) : Z :=
  if norm then Z.land (u16 w) 0xFFFF
  else Z.lor (Z.shiftl (Z.land w BYTE) 8) (Z.land (Z.shiftr w 8) BYTE).
Definition conv4 (norm : bool) (x : Z) : Z :=
  if norm then s32 x else
  let lo := conv2 false (Z.land (s16 x) 0xFFFF) in
  let hi := conv2 false (Z.land (s16 (Z.shiftr x 16)) 0xFFFF) in
  s32 (Z.lor (Z.shiftl lo 16) hi).

Section world.
Context `{World}.

Definition ask (c : fcall) : PF fanswer :=
  λ s, Ret (fs_answer (fs_log s) c) (s <| fs_log := c :: fs_log s |>).

(** [while (c) body]: the loops whose bound is a table size. *)
Definition all_bufs : list Z := seqZ 0 NR_BUFS.
Definition all_supers : list Z := seqZ 0 NR_SUPERS.
Definition all_inodes : list Z := seqZ 0 NR_INODES.
Definition all_filps : list Z := seqZ 0 NR_FILPS.
Definition all_fprocs : list Z := seqZ 0 NR_PROCS.
Definition all_locks : list Z := seqZ 0 NR_LOCKS.

(** [for (i in l) body(i)] *)
Definition each (l : list Z) (f : Z → PF unit) : PF unit := fold_m (λ _ i, f i) tt l.
(** The first entry of a list that satisfies a test. *)
Definition first_of (l : list Z) (p : fsst → Z → bool) : PF (option Z) :=
  for_each l (λ i, b ← gets (λ s, p s i); mret (if (b : bool) then Some i else None)).
End world.
