(* ===== verification/Fdev.v ===== *)
(** * Suspended processes and requests to device tasks

    fs/main.c ([reply]), pipe.c ([suspend], [revive], [release]), device.c
    ([find_dev], [call_task], [call_ctty], [no_dev], [dev_io]) and the device
    table of table.c.  The routines of device.c that open and close devices
    are in Fopen.v. *)

From S2P Require Import Prelude Fstate.

(** ** The device table (table.c, on an Atari) *)
Inductive dmap_t := No_dev | Dev_opcl | Call_task | Tty_open | Ctty_open | Call_ctty | Ctty_close | Net_open.
Record dmap := Dmap { dmap_open : dmap_t; dmap_rw : dmap_t; dmap_close : dmap_t; dmap_task : Z }.

Definition WINCHESTER : Z := -9.
Definition TTY : Z := -11.
Definition INET_PROC_NR : Z := 2.

Definition dmap_table : list dmap := [
  Dmap No_dev    No_dev    No_dev     0;
  Dmap Dev_opcl  Call_task Dev_opcl   MEM;
  Dmap Dev_opcl  Call_task Dev_opcl   FLOPPY;
  Dmap Dev_opcl  Call_task Dev_opcl   WINCHESTER;
  Dmap Tty_open  Call_task Dev_opcl   TTY;
  Dmap Ctty_open Call_ctty Ctty_close TTY;
  Dmap Dev_opcl  Call_task Dev_opcl   PRINTER;
  Dmap Net_open  Call_task Dev_opcl   INET_PROC_NR;
  Dmap No_dev    No_dev    No_dev     0 ].
Definition max_major : Z := 9.

(** [dmap[major]] *)
Definition dmap_at (major : Z) : PF dmap :=
  if in_tab max_major major then deref (dmap_table !! Z.to_nat major) else fault.

(** [(dev >> MAJOR) & BYTE] and [(dev >> MINOR) & BYTE] *)
Definition major_of (dev : Z) : Z := Z.land (Z.shiftr dev 8) BYTE.
Definition minor_of (dev : Z) : Z := Z.land dev BYTE.

Section dev.
Context `{World}.

(** ** main.c *)
Definition reply (whom result : Z) : PF unit :=
  modify (λ s, s <| fs_m1 := (fs_m1 s) <| m_type := result |> |>);;
  mm ← gets fs_m1;
  ask (Send whom mm);;
  mret tt.

(** ** pipe.c *)
Definition suspend (task : Z) : PF unit :=
  when ((task =? XPIPE) || (task =? XPOPEN)) (modify (λ s, s <| susp_count := susp_count s + 1 |>));;
  mm ← gets fs_m;
  call ← gets fs_call;
  cset (λ r, r <| fp_suspended := true |>);;
  cset (λ r, r <| fp_fd := s16 (Z.lor (s16 (Z.shiftl (m1_i1 mm) 8)) call) |>);;
  cset (λ r, r <| fp_task := s8 (- task) |>);;
  cset (λ r, r <| fp_buffer := m1_p1 mm |> <| fp_nbytes := m1_i2 mm |>);;
  modify (λ s, s <| dont_reply := true |>).

Definition revive (proc_nr bytes : Z) : PF unit :=
  if negb (in_tab NR_PROCS proc_nr) then panic "revive err" proc_nr else
  r ← pget id proc_nr;
  if negb (fp_suspended r) || fp_revived r then mret tt else
  let task := - fp_task r in
  if (task =? XPIPE) || (task =? XLOCK) then
    pset proc_nr (λ r, r <| fp_revived := true |>);;
    modify (λ s, s <| reviving := reviving s + 1 |>)
  else
    pset proc_nr (λ r, r <| fp_suspended := false |>);;
    if task =? XPOPEN then reply proc_nr (Z.shiftr (fp_fd r) 8)
    else
      pset proc_nr (λ r, r <| fp_nbytes := bytes |>);;
      reply proc_nr bytes.

(** [for (rp = ...) if (...) { revive(rp); susp_count--; if (--count == 0) return; }] *)
Definition release (ip call_nr count : Z) : PF unit :=
  fold_until (λ count rp,
    r ← pget id rp;
    hit ← (if fp_suspended r && negb (fp_revived r) && (Z.land (fp_fd r) BYTE =? call_nr) then
             f ← get_desc rp (Z.shiftr (fp_fd r) 8);
             i ← fget filp_ino f;
             mret (i =? ip)
           else mret false);
    if hit : bool then
      revive rp 0;;
      modify (λ s, s <| susp_count := susp_count s - 1 |>);;
      mret (if count - 1 =? 0 then inr tt else inl (count - 1))
    else mret (inl count)) count all_fprocs;;
  mret tt.

(** ** device.c *)
Definition find_dev (dev : Z) : Z * Z * Z :=
  let major := major_of dev in
  if max_major <=? major then (0, 0, 0)
  else (major, minor_of dev, match dmap_table !! Z.to_nat major with Some d => dmap_task d | None => 0 end).

(** The answer of a task: the message, and the bytes stored in the memory of FS
    that the request named. *)
Definition task_reply : Type := message * list (Z * list Z).

(** The request is repeated until the task is not itself sending to FS: [None]
    when a cancelled request turns out to be completed. *)
Definition call_task_send (task_nr proc_nr : Z) (mess : message) (mem : iomem)
    : PF (option (Z * task_reply)) :=
  loop patience (λ _ : unit,
    a ← ask (Sendrec task_nr mess mem);
    if negb (a_res a =? ELOCKED) then mret (inr (Some (a_res a, (a_msg a, a_data a)))) else
    b ← ask (Receive task_nr);
    if negb (a_res b =? OK) then mret (inr (Some (a_res b, (mess, [])))) else
    let local_m := a_msg b in
    if (m_type mess =? CANCEL) && (REP_PROC_NR local_m =? proc_nr) then mret (inr None) else
    if negb (m_type local_m =? REVIVE) then mret (inl tt) else
    revive (REP_PROC_NR local_m) (REP_STATUS local_m);;
    mret (inl tt)) tt.

(** The message received may be the reply or a REVIVE for another process. *)
Definition call_task_reply (task_nr proc_nr r : Z) (mess : message) : PF message :=
  loop patience (λ '(r, mess),
    if negb (r =? OK) then panic "call_task: can't send/receive" NO_NUM else
    if REP_PROC_NR mess =? proc_nr then mret (inr mess) else
    if negb (m_type mess =? REVIVE) then mret (inl (r, mess)) else
    revive (REP_PROC_NR mess) (REP_STATUS mess);;
    b ← ask (Receive task_nr);
    mret (inl (a_res b, a_msg b))) (r, mess).

Definition call_task (task_nr : Z) (mess : message) (mem : iomem) : PF task_reply :=
  let proc_nr := m2_i2 mess in
  x ← call_task_send task_nr proc_nr mess mem;
  match x with
  | None => mret (mess, [])
  | Some (r, (mess, data)) => mess ← call_task_reply task_nr proc_nr r mess; mret (mess, data)
  end.

Definition call_ctty (mess : message) (mem : iomem) : PF task_reply :=
  tty ← cget fp_tty;
  if tty =? 0 then mret (set_REP_STATUS EIO mess, []) else
  d ← dmap_at (major_of tty);
  call_task (dmap_task d) (put16 0 (minor_of tty) mess) mem.

Definition no_dev (mess : message) : PF task_reply := mret (set_REP_STATUS ENODEV mess, []).

(** [( *dmap[major].dmap_rw)(task, mess_ptr)] *)
Definition dmap_rw_call (major task : Z) (mess : message) (mem : iomem) : PF task_reply :=
  d ← dmap_at major;
  match dmap_rw d with
  | Call_task => call_task task mess mem
  | Call_ctty => call_ctty mess mem
  | _ => no_dev mess
  end.

(** The result and the bytes stored in [buff]. *)
Definition dev_io (op nonblock dev pos bytes proc buff : Z) (mem : iomem) : PF (Z * list (Z * list Z)) :=
  let '(major, minor, task) := find_dev dev in
  let dev_mess := dev_message op (minor_of dev) proc bytes pos nonblock buff in
  '(dev_mess, data) ← dmap_rw_call major task dev_mess mem;
  if negb (REP_STATUS dev_mess =? SUSPEND) then mret (REP_STATUS dev_mess, data) else
  if negb (nonblock =? 0) then
    let cancel := put16 0 (minor_of dev) (put16 1 proc (dev_mess <| m_type := CANCEL |>)) in
    '(dev_mess, _) ← dmap_rw_call major task cancel NoMem;
    mret (if REP_STATUS dev_mess =? EINTR then EAGAIN else REP_STATUS dev_mess, data)
  else
    suspend (if op =? DEV_OPEN then XPOPEN else task);;
    mret (REP_STATUS dev_mess, data).
End dev.
