(* ===== verification/Cache.v ===== *)
(** * The block cache

    fs/cache.c without the zone routines (Super.v), cache2.c, and [zero_block]
    of write.c.  A [struct buf *] is the number of the buffer.  The loops that
    follow a hash chain or the LRU chain run at most once per buffer. *)

From S2P Require Import Prelude Fstate Fdev.

Definition buf_fuel : nat := Z.to_nat (NR_BUFS + 1).

Section cache.
Context `{World}.

(** The bytes a task stored in one block. *)
Definition block_data (data : list (Z * list Z)) : list Z :=
  match data with (_, l) :: _ => take (Z.to_nat BLOCK_SIZE) l | [] => [] end.
Definition block_bytes (b : buf) : list Z := load (b_data b) 0 BLOCK_SIZE.
Definition fill_block (bp : Z) (l : list Z) : PF unit :=
  bset bp (λ b, b <| b_data := store 0 (take (Z.to_nat BLOCK_SIZE) l) (b_data b) |>).

(** ** cache.c *)
Definition rm_lru (bp : Z) : PF unit :=
  modify (λ s, s <| bufs_in_use := bufs_in_use s + 1 |>);;
  next_ptr ← bget b_next bp;
  prev_ptr ← bget b_prev bp;
  (if negb (prev_ptr =? NIL) then bset prev_ptr (λ b, b <| b_next := next_ptr |>)
   else modify (λ s, s <| front := next_ptr |>));;
  (if negb (next_ptr =? NIL) then bset next_ptr (λ b, b <| b_prev := prev_ptr |>)
   else modify (λ s, s <| rear := prev_ptr |>)).

Definition rw_block (bp rw_flag : Z) : PF unit :=
  b ← bget id bp;
  let dev := b_dev b in
  when (negb (dev =? NO_DEV))
    (let pos := u32 (b_blocknr b * BLOCK_SIZE) in
     '(r, data) ← (if rw_flag =? READING then dev_io DEV_READ 0 dev pos BLOCK_SIZE FS_PROC_NR 0 Fill
                   else dev_io DEV_WRITE 0 dev pos BLOCK_SIZE FS_PROC_NR 0 (Bytes (block_bytes b)));
     when (rw_flag =? READING) (fill_block bp (block_data data));;
     when (negb (r =? BLOCK_SIZE))
       (let r := if 0 <=? r then END_OF_FILE else r in
        bset bp (λ b, b <| b_dev := NO_DEV |>);;
        when (rw_flag =? READING) (modify (λ s, s <| rdwt_err := r |>))));;
  bset bp (λ b, b <| b_dirt := false |>).

Definition put_block (bp block_type : Z) : PF unit :=
  if bp =? NIL then mret tt else
  bset bp (λ b, b <| b_count := s8 (b_count b - 1) |>);;
  c ← bget b_count bp;
  if negb (c =? 0) then mret tt else
  modify (λ s, s <| bufs_in_use := bufs_in_use s - 1 |>);;
  (if has block_type ONE_SHOT then
     f ← gets front;
     bset bp (λ b, b <| b_prev := NIL |> <| b_next := f |>);;
     (if f =? NIL then modify (λ s, s <| rear := bp |>) else bset f (λ b, b <| b_prev := bp |>));;
     modify (λ s, s <| front := bp |>)
   else
     r ← gets rear;
     bset bp (λ b, b <| b_prev := r |> <| b_next := NIL |>);;
     (if r =? NIL then modify (λ s, s <| front := bp |>) else bset r (λ b, b <| b_next := bp |>));;
     modify (λ s, s <| rear := bp |>));;
  b ← bget id bp;
  when (has block_type WRITE_IMMED && b_dirt b && negb (b_dev b =? NO_DEV)) (rw_block bp WRITING).

(** *** [rw_scattered] *)

(** [q[i]] and [q[i] = x] *)
Definition at_q (q : list Z) (i : Z) : PF Z := if 0 <=? i then deref (q !! Z.to_nat i) else fault.
Definition swap_q (q : list Z) (i j : Z) : PF (list Z) :=
  x ← at_q q i; y ← at_q q j; mret (<[Z.to_nat i := y]> (<[Z.to_nat j := x]> q)).

(** [for (i = j - gap; i >= 0 && ...; i -= gap) swap(i, i + gap);] *)
Definition sort_insert (gap : Z) (q : list Z) (j : Z) : PF (list Z) :=
  loop (S (Z.to_nat j)) (λ '(i, q),
    if i <? 0 then mret (inr q) else
    x ← at_q q i; y ← at_q q (i + gap);
    bx ← bget b_blocknr x; by_ ← bget b_blocknr y;
    if bx <=? by_ then mret (inr q) else
    q ← swap_q q i (i + gap);
    mret (inl (i - gap, q))) (j - gap, q).

(** [for (j = gap; j < bufqsize; j++)] *)
Definition sort_pass (gap : Z) (q : list Z) : PF (list Z) :=
  fold_m (sort_insert gap) q (seqZ gap (Z.of_nat (length q) - gap)).

Definition gap_start (n : Z) : PF Z :=
  loop (S (Z.to_nat n)) (λ gap, let gap := 3 * gap + 1 in mret (if gap <=? n then inl gap else inr gap)) 1.

(** The Shell sort on [b_blocknr]. *)
Definition shell_sort (q : list Z) : PF (list Z) :=
  gap ← gap_start (Z.of_nat (length q));
  loop (Z.to_nat gap) (λ '(gap, q),
    if gap =? 1 then mret (inr q) else
    let gap := gap / 3 in
    q ← sort_pass gap q;
    mret (inl (gap, q))) (gap, q).

Definition request_of (rw_flag : Z) (b : buf) : iorequest_s :=
  Iorequest (s32 (b_blocknr b * BLOCK_SIZE)) BLOCK_SIZE
    (if rw_flag =? WRITING then DEV_WRITE else Z.lor DEV_READ OPTIONAL_IO)
    (if rw_flag =? WRITING then block_bytes b else []).

(** The result of the [i]-th request: its [io_nbytes], and the bytes read. *)
Definition harvest (data : list (Z * list Z)) (i : nat) : Z * list Z := nth i data (BLOCK_SIZE, []).

Definition harvest_one (dev rw_flag bp nbytes : Z) : PF unit :=
  if rw_flag =? READING then
    when (nbytes =? 0) (bset bp (λ b, b <| b_dev := dev |>));;
    put_block bp PARTIAL_DATA_BLOCK
  else
    when (negb (nbytes =? 0)) (bset bp (λ b, b <| b_dev := NO_DEV |>));;
    bset bp (λ b, b <| b_dirt := false |>).

(** The first [NR_IOREQS] buffers of the queue. *)
Definition rw_batch (dev : Z) (q : list Z) (rw_flag : Z) : PF unit :=
  bufs ← gets (λ s, map (buf_of s) q);
  '(_, data) ← dev_io SCATTERED_IO 0 dev 0 (Z.of_nat (length q)) FS_PROC_NR 0
                 (Iovec (map (request_of rw_flag) bufs));
  let idx := seqZ 0 (Z.of_nat (length q)) in
  when (rw_flag =? READING)
    (each idx (λ i, bp ← at_q q i; fill_block bp (harvest data (Z.to_nat i)).2));;
  each idx (λ i, bp ← at_q q i; harvest_one dev rw_flag bp (harvest data (Z.to_nat i)).1).

Definition rw_scattered (dev : Z) (bufq : list Z) (rw_flag : Z) : PF unit :=
  q ← shell_sort bufq;
  loop (S (length q)) (λ q,
    match q with
    | [] => mret (inr tt)
    | _ =>
        rw_batch dev (take (Z.to_nat NR_IOREQS) q) rw_flag;;
        mret (inl (drop (Z.to_nat NR_IOREQS) q))
    end) q.

Definition flushall (dev : Z) : PF unit :=
  dirty ← gets (λ s, base.filter (λ bp, b_dirt (buf_of s bp) = true ∧ b_dev (buf_of s bp) = dev) all_bufs);
  rw_scattered dev dirty WRITING.

(** ** cache2.c *)
Definition hash2 (block : Z) : Z := Z.land block (MAX_BUF2 - 1).

Definition init_cache2 (size : Z) : PF unit :=
  modify (λ s, s <| nr_buf2 := if MAX_BUF2 <? size then MAX_BUF2 else u16 size |>).

Definition search2 (dev block : Z) : PF (option Z) :=
  n ← gets nr_buf2;
  idx ← gets buf2_idx;
  loop (S (Z.to_nat n)) (λ b,
    let b := (if b =? 0 then n else b) - 1 in
    bp2 ← b2get id b;
    if (b2_blocknr bp2 =? block) && (b2_dev bp2 =? dev) then mret (inr (Some b)) else
    if b =? idx then mret (inr None) else mret (inl b)) idx.

Definition get_block2 (bp only_search : Z) : PF bool :=
  b ← bget id bp;
  when (b_dev b =? DEV_RAM) (modify (λ s, s <| nr_buf2 := 0 |>));;
  n ← gets nr_buf2;
  c ← b2get b2_count (hash2 (b_blocknr b));
  if (n =? 0) || (only_search =? NO_READ) || (c =? 0) then mret false else
  x ← search2 (b_dev b) (b_blocknr b);
  match x with
  | None => mret false
  | Some i =>
      '(r, data) ← dev_io DEV_READ 0 DEV_RAM (u32 (i * BLOCK_SIZE)) BLOCK_SIZE FS_PROC_NR 0 Fill;
      fill_block bp (block_data data);;
      mret (r =? BLOCK_SIZE)
  end.

Definition put_block2 (bp : Z) : PF unit :=
  n ← gets nr_buf2;
  if n =? 0 then mret tt else
  i ← gets buf2_idx;
  modify (λ s, s <| buf2_idx := if u16 (i + 1) =? n then 0 else u16 (i + 1) |>);;
  b ← bget id bp;
  '(r, _) ← dev_io DEV_WRITE 0 DEV_RAM (u32 (i * BLOCK_SIZE)) BLOCK_SIZE FS_PROC_NR 0
              (Bytes (block_bytes b));
  if negb (r =? BLOCK_SIZE) then mret tt else
  bp2 ← b2get id i;
  when (negb (b2_dev bp2 =? NO_DEV))
    (b2set (hash2 (b2_blocknr bp2)) (λ x, x <| b2_count := u16 (b2_count x - 1) |>));;
  b2set i (λ x, x <| b2_dev := b_dev b |> <| b2_blocknr := b_blocknr b |>);;
  b2set (hash2 (b_blocknr b)) (λ x, x <| b2_count := u16 (b2_count x + 1) |>).

Definition invalidate2 (device : Z) : PF unit :=
  n ← gets nr_buf2;
  each (seqZ 0 n) (λ i,
    bp2 ← b2get id i;
    when (b2_dev bp2 =? device)
      (b2set i (λ x, x <| b2_dev := NO_DEV |>);;
       b2set (hash2 (b2_blocknr bp2)) (λ x, x <| b2_count := u16 (b2_count x - 1) |>))).

(** ** cache.c, continued *)

(** Search the hash chain for a block. *)
Definition hash_search (dev block : Z) : PF (option Z) :=
  bp ← gets (λ s, buf_hash s (Z.land block HASH_MASK));
  loop buf_fuel (λ bp,
    if bp =? NIL then mret (inr None) else
    b ← bget id bp;
    if (b_blocknr b =? block) && (b_dev b =? dev) then mret (inr (Some bp)) else mret (inl (b_hash b))) bp.

(** Remove a buffer from its hash chain. *)
Definition hash_remove (bp : Z) : PF unit :=
  block ← bget b_blocknr bp;
  let b := Z.land block HASH_MASK in
  prev_ptr ← gets (λ s, buf_hash s b);
  if prev_ptr =? bp then
    h ← bget b_hash bp;
    modify (λ s, s <| buf_hash := <[b := h]> (buf_hash s) |>)
  else
    loop buf_fuel (λ prev_ptr,
      h ← bget b_hash prev_ptr;
      if h =? NIL then mret (inr tt) else
      if h =? bp then
        h' ← bget b_hash bp; bset prev_ptr (λ b, b <| b_hash := h' |>);; mret (inr tt)
      else mret (inl h)) prev_ptr.

(** Give the buffer its new identity and add it to its hash chain. *)
Definition hash_enter (bp dev block : Z) : PF unit :=
  bset bp (λ b, b <| b_dev := dev |> <| b_blocknr := block |> <| b_count := s8 (b_count b + 1) |>);;
  let b := Z.land block HASH_MASK in
  h ← gets (λ s, buf_hash s b);
  bset bp (λ x, x <| b_hash := h |>);;
  modify (λ s, s <| buf_hash := <[b := bp]> (buf_hash s) |>).

(** What is done with the block that was in the buffer. *)
Definition put_back (bp : Z) : PF unit :=
  b ← bget id bp;
  when (negb (b_dev b =? NO_DEV))
    (when (b_dirt b) (flushall (b_dev b));;
     put_block2 bp).

(** How the new block gets its contents. *)
Definition fetch (bp dev only_search : Z) : PF unit :=
  when (negb (dev =? NO_DEV))
    (found ← get_block2 bp only_search;
     if found : bool then mret tt else
     if only_search =? PREFETCH then bset bp (λ b, b <| b_dev := NO_DEV |>)
     else when (only_search =? NORMAL) (rw_block bp READING)).

Definition get_block (dev block only_search : Z) : PF Z :=
  hit ← (if negb (dev =? NO_DEV) then hash_search dev block else mret None);
  match hit with
  | Some bp =>
      c ← bget b_count bp;
      when (c =? 0) (rm_lru bp);;
      bset bp (λ b, b <| b_count := s8 (b_count b + 1) |>);;
      mret bp
  | None =>
      bp ← gets front;
      if bp =? NIL then panic "all buffers in use" NR_BUFS else
      rm_lru bp;; hash_remove bp;; put_back bp;; hash_enter bp dev block;; fetch bp dev only_search;; mret bp
  end.

Definition invalidate (device : Z) : PF unit :=
  each all_bufs (λ bp, b ← bget b_dev bp; when (b =? device) (bset bp (λ b, b <| b_dev := NO_DEV |>)));;
  invalidate2 device.

(** ** write.c *)
Definition zero_block (bp : Z) : PF unit :=
  bset bp (λ b, b <| b_data := λ _, 0 |> <| b_dirt := true |>).
End cache.
