(* ===== verification/Super.v ===== *)
(** * Super blocks, bit maps and zones

    fs/super.c, with [alloc_zone] and [free_zone] of cache.c. *)

From S2P Require Import Prelude Fstate Fdev Cache.

Section super.
Context `{World}.

(** ** super.c *)
Definition get_super (dev : Z) : PF Z :=
  x ← first_of all_supers (λ s sp, s_dev (super_of s sp) =? dev);
  match x with
  | Some sp => mret sp
  | None => panic "can't find superblock for device (in decimal)" dev
  end.

(** [start_block] *)
Definition map_start (sp : super_block) (map : Z) : Z :=
  if map =? IMAP then SUPER_BLOCK + 1 else u32 (SUPER_BLOCK + 1 + s_imap_blocks sp).
(** [map_bits] *)
Definition map_bits (sp : super_block) (map : Z) : Z :=
  if map =? IMAP then u16 (s_ninodes sp + 1)
  else u32 (s_zones sp - u16 (s_firstdatazone sp - 1)).
(** [bit_blocks] *)
Definition bit_blocks (sp : super_block) (map : Z) : Z :=
  u16 (if map =? IMAP then s_imap_blocks sp else s_zmap_blocks sp).

(** [for (i = 0; (k & (1 << i)) != 0; ++i) {}], on a word that is not all ones *)
Definition first_zero (k : Z) : PF Z :=
  loop (Z.to_nat BITCHUNK_BITS) (λ i, mret (if has k (2 ^ i) then inl (i + 1) else inr i)) 0.

(** Word [wptr] of block [block] of the map: [None] when it is full, [Some None]
    when its free bit is past the end of the map, else the bit allocated. *)
Definition try_word (native : bool) (bits block bp wptr : Z) : PF (option (option Z)) :=
  d ← bget b_data bp;
  let w := be16 d (2 * wptr) in
  if w =? 0xFFFF then mret None else
  let k := u16 (conv2 native (s16 w)) in
  i ← first_zero k;
  let b := u32 (block * BITS_PER_BLOCK + wptr * BITCHUNK_BITS + i) in
  if bits <=? b then mret (Some None) else
  let k := Z.lor k (2 ^ i) in
  bset bp (λ x, x <| b_data := set16 (2 * wptr) (conv2 native (s16 k)) (b_data x) |> <| b_dirt := true |>);;
  mret (Some (Some b)).

Definition alloc_bit (sp map origin : Z) : PF Z :=
  r ← sget id sp;
  if s_rd_only r then panic "can't allocate bit on read-only filesys." NO_NUM else
  let bits := map_bits r map in
  let blocks := bit_blocks r map in
  let origin := if bits <=? origin then 0 else origin in
  loop (Z.to_nat (blocks + 1)) (λ '(block, word, bcount),
    bp ← get_block (s_dev r) (u32 (map_start r map + block)) NORMAL;
    x ← for_each (seqZ word (BITMAP_CHUNKS - word)) (try_word (s_native r) bits block bp);
    match x with
    | Some (Some b) => put_block bp MAP_BLOCK;; mret (inr b)
    | _ =>
        put_block bp MAP_BLOCK;;
        let block := u16 (block + 1) in
        let block := if blocks <=? block then 0 else block in
        let bcount := u16 (bcount - 1) in
        if 0 <? bcount then mret (inl (block, 0, bcount)) else mret (inr NO_BIT)
    end)
    (u16 (origin / BITS_PER_BLOCK), u16 (origin mod BITS_PER_BLOCK / BITCHUNK_BITS), u16 (blocks + 1)).

Definition free_bit (sp map bit_returned : Z) : PF unit :=
  r ← sget id sp;
  if s_rd_only r then panic "can't free bit on read-only filesys." NO_NUM else
  let block := u16 (bit_returned / BITS_PER_BLOCK) in
  let word := u16 (bit_returned mod BITS_PER_BLOCK / BITCHUNK_BITS) in
  let bit := u16 (bit_returned mod BITCHUNK_BITS) in
  let mask := u16 (Z.shiftl 1 bit) in
  bp ← get_block (s_dev r) (u32 (map_start r map + block)) NORMAL;
  d ← bget b_data bp;
  let k := u16 (conv2 (s_native r) (s16 (be16 d (2 * word)))) in
  if negb (has k mask) then
    panic (if map =? IMAP then "tried to free unused inode" else "tried to free unused block") NO_NUM
  else
  let k := clrf k mask in
  bset bp (λ x, x <| b_data := set16 (2 * word) (conv2 (s_native r) (s16 k)) (b_data x) |> <| b_dirt := true |>);;
  put_block bp MAP_BLOCK.

Definition mounted (rip : Z) : PF bool :=
  z ← get_zone rip 0;
  let dev := s16 z in
  root ← gets ROOT_DEV;
  if dev =? root then mret true else
  x ← first_of all_supers (λ s sp, s_dev (super_of s sp) =? dev);
  mret (match x with Some _ => true | None => false end).

(** A pointer in the copied bytes. *)
Definition disk_ptr (d : Z → Z) (o : Z) : Z := if be32 d o =? 0 then NIL else WILD.
(** [memcpy(sp, bp->b_data, SUPER_SIZE)] *)
Definition super_of_bytes (d : Z → Z) : super_block :=
  SuperBlock (be16 d 0) (be16 d 2) (s16 (be16 d 4)) (s16 (be16 d 6)) (be16 d 8) (s16 (be16 d 10))
    (be32 d 12) (s16 (be16 d 16)) (be32 d 20) (disk_ptr d 24) (disk_ptr d 28) (be16 d 32)
    (s16 (be16 d 34)) (negb (be16 d 36 =? 0)) (negb (be16 d 38 =? 0)) (s16 (be16 d 40))
    (s16 (be16 d 42)) (s16 (be16 d 44)) (be32 d 46) (be32 d 50).

(** The version and the byte order, from the magic number. *)
Definition super_version (magic : Z) : option (Z * bool) :=
  if (magic =? SUPER_MAGIC) || (magic =? conv2 false SUPER_MAGIC) then Some (V1, magic =? SUPER_MAGIC)
  else if (magic =? SUPER_V2) || (magic =? conv2 false SUPER_V2) then Some (V2, magic =? SUPER_V2)
  else None.

(** The fields after the conversion of the byte order. *)
Definition super_convert (version : Z) (native : bool) (r : super_block) : super_block :=
  let r := r <| s_ninodes := conv2 native (s16 (s_ninodes r)) |>
             <| s_nzones := conv2 native (s16 (s_nzones r)) |>
             <| s_imap_blocks := s16 (conv2 native (s_imap_blocks r)) |>
             <| s_zmap_blocks := s16 (conv2 native (s_zmap_blocks r)) |>
             <| s_firstdatazone := conv2 native (s16 (s_firstdatazone r)) |>
             <| s_log_zone_size := s16 (conv2 native (s_log_zone_size r)) |>
             <| s_max_size := u32 (conv4 native (s32 (s_max_size r))) |>
             <| s_zones := u32 (conv4 native (s32 (s_zones r))) |> in
  let r := if version =? V1 then
             r <| s_zones := s_nzones r |> <| s_inodes_per_block := V1_INODES_PER_BLOCK |>
               <| s_ndzones := V1_NR_DZONES |> <| s_nindirs := V1_INDIRECTS |>
           else
             r <| s_inodes_per_block := V2_INODES_PER_BLOCK |>
               <| s_ndzones := V2_NR_DZONES |> <| s_nindirs := V2_INDIRECTS |> in
  r <| s_isearch := 0 |> <| s_zsearch := 0 |> <| s_version := version |> <| s_native := native |>.

Definition super_bad (r : super_block) : bool :=
  (s_imap_blocks r <? 1) || (s_zmap_blocks r <? 1) || (s_ninodes r <? 1) || (s_zones r <? 1) ||
  (4 <? u16 (s_log_zone_size r)).

Definition read_super (sp : Z) : PF Z :=
  dev ← sget s_dev sp;
  bp ← get_block dev SUPER_BLOCK NORMAL;
  d ← bget b_data bp;
  sset sp (λ _, super_of_bytes d);;
  put_block bp ZUPER_BLOCK;;
  sset sp (λ r, r <| s_dev := NO_DEV |>);;
  magic ← sget s_magic sp;
  match super_version magic with
  | None => mret EINVAL
  | Some (version, native) =>
      sset sp (super_convert version native);;
      r ← sget id sp;
      if super_bad r then mret EINVAL else
      sset sp (λ r, r <| s_dev := dev |>);;
      mret OK
  end.

(** ** cache.c: zones *)
Definition alloc_zone (dev z : Z) : PF Z :=
  sp ← get_super dev;
  r ← sget id sp;
  let bit := if z =? s_firstdatazone r then s_zsearch r else u32 (z - u16 (s_firstdatazone r - 1)) in
  b ← alloc_bit sp ZMAP bit;
  if b =? NO_BIT then set_err ENOSPC;; mret NO_ZONE else
  when (z =? s_firstdatazone r) (sset sp (λ r, r <| s_zsearch := b |>));;
  mret (u32 (u16 (s_firstdatazone r - 1) + b)).

Definition free_zone (dev numb : Z) : PF unit :=
  sp ← get_super dev;
  r ← sget id sp;
  if (numb <? s_firstdatazone r) || (s_zones r <=? numb) then mret tt else
  let bit := u32 (numb - u16 (s_firstdatazone r - 1)) in
  free_bit sp ZMAP bit;;
  when (bit <? s_zsearch r) (sset sp (λ r, r <| s_zsearch := bit |>)).
End super.
