(* ===== verification/Inode.v ===== *)
(** * Inodes

    fs/inode.c, with [clock_time] of utility.c, [read_map] and [rd_indir] of
    read.c, and [truncate] of link.c.  A [struct inode *] is the index of the
    entry. *)

From S2P Require Import Prelude Fstate Fdev Cache Super.

(** ** Inodes on the disk: [d1_inode] and [d2_inode] at byte [o] of a block *)

(** [old_icopy(rip, dip, READING, norm)] *)
Definition old_icopy_read (norm : bool) (d : Z → Z) (o : Z) (r : inode) : inode :=
  let mtime := conv4 norm (s32 (be32 d (o + 8))) in
  r <| i_mode := conv2 norm (s16 (be16 d o)) |>
    <| i_uid := s16 (conv2 norm (s16 (be16 d (o + 2)))) |>
    <| i_size := u32 (conv4 norm (s32 (be32 d (o + 4)))) |>
    <| i_mtime := mtime |> <| i_atime := mtime |> <| i_ctime := mtime |>
    <| i_nlinks := s8 (d (o + 13)) |>
    <| i_gid := s8 (d (o + 12)) |>
    <| i_ndzones := V1_NR_DZONES |> <| i_nindirs := V1_INDIRECTS |>
    <| i_zone := λ i, if in_tab V1_NR_TZONES i then conv2 norm (s16 (be16 d (o + 14 + 2 * i))) else i_zone r i |>.

Definition set_zones (n : Z) (f : Z → (Z → Z) → Z → Z) (d : Z → Z) : Z → Z := foldl (λ d i, f i d) d (seqZ 0 n).

(** [old_icopy(rip, dip, WRITING, norm)] *)
Definition old_icopy_write (norm : bool) (r : inode) (o : Z) (d : Z → Z) : Z → Z :=
  let d := set16 o (conv2 norm (s16 (i_mode r))) d in
  let d := set16 (o + 2) (conv2 norm (i_uid r)) d in
  let d := set32 (o + 4) (conv4 norm (s32 (i_size r))) d in
  let d := set32 (o + 8) (conv4 norm (i_mtime r)) d in
  let d := <[o + 13 := u8 (i_nlinks r)]> d in
  let d := <[o + 12 := u8 (i_gid r)]> d in
  set_zones V1_NR_TZONES (λ i, set16 (o + 14 + 2 * i) (conv2 norm (s16 (i_zone r i)))) d.

(** [new_icopy(rip, dip, READING, norm)] *)
Definition new_icopy_read (norm : bool) (d : Z → Z) (o : Z) (r : inode) : inode :=
  r <| i_mode := conv2 norm (s16 (be16 d o)) |>
    <| i_uid := s16 (conv2 norm (s16 (be16 d (o + 4)))) |>
    <| i_nlinks := s8 (conv2 norm (s16 (be16 d (o + 2)))) |>
    <| i_gid := s8 (conv2 norm (s16 (be16 d (o + 6)))) |>
    <| i_size := u32 (conv4 norm (s32 (be32 d (o + 8)))) |>
    <| i_atime := conv4 norm (s32 (be32 d (o + 12))) |>
    <| i_ctime := conv4 norm (s32 (be32 d (o + 20))) |>
    <| i_mtime := conv4 norm (s32 (be32 d (o + 16))) |>
    <| i_ndzones := V2_NR_DZONES |> <| i_nindirs := V2_INDIRECTS |>
    <| i_zone := λ i, if in_tab V2_NR_TZONES i then u32 (conv4 norm (s32 (be32 d (o + 24 + 4 * i)))) else i_zone r i |>.

(** [new_icopy(rip, dip, WRITING, norm)] *)
Definition new_icopy_write (norm : bool) (r : inode) (o : Z) (d : Z → Z) : Z → Z :=
  let d := set16 o (conv2 norm (s16 (i_mode r))) d in
  let d := set16 (o + 4) (conv2 norm (i_uid r)) d in
  let d := set16 (o + 2) (conv2 norm (i_nlinks r)) d in
  let d := set16 (o + 6) (conv2 norm (i_gid r)) d in
  let d := set32 (o + 8) (conv4 norm (s32 (i_size r))) d in
  let d := set32 (o + 12) (conv4 norm (i_atime r)) d in
  let d := set32 (o + 20) (conv4 norm (i_ctime r)) d in
  let d := set32 (o + 16) (conv4 norm (i_mtime r)) d in
  set_zones V2_NR_TZONES (λ i, set32 (o + 24 + 4 * i) (conv4 norm (s32 (i_zone r i)))) d.

Section inode.
Context `{World}.

(** ** utility.c *)
Definition clock_time : PF Z :=
  a ← ask (Sendrec CLOCK (Message 0 GET_TIME (λ _, 0)) NoMem);
  if negb (a_res a =? OK) then panic "clock_time err" (a_res a) else mret (m6_l1 (a_msg a)).

(** ** read.c *)
Definition rd_indir (bp index : Z) : PF Z :=
  dev ← bget b_dev bp;
  sp ← get_super dev;
  r ← sget id sp;
  d ← bget b_data bp;
  zone ← (if s_version r =? V1 then
            if in_tab V1_INDIRECTS index then mret (conv2 (s_native r) (s16 (be16 d (2 * index)))) else fault
          else
            if in_tab V2_INDIRECTS index then mret (u32 (conv4 (s_native r) (s32 (be32 d (4 * index))))) else fault);
  if negb (zone =? NO_ZONE) && ((zone <? s_firstdatazone r) || (s_zones r <=? zone)) then
    panic "check file system" NO_NUM
  else mret zone.

(** An entry of the indirect block of zone [z]. *)
Definition rd_indir_zone (dev scale z index : Z) : PF Z :=
  bp ← get_block dev (u32 (Z.shiftl z scale)) NORMAL;
  z ← rd_indir bp index;
  put_block bp INDIRECT_BLOCK;;
  mret z.

Definition read_map (rip position : Z) : PF Z :=
  r ← iget id rip;
  scale ← sget s_log_zone_size (i_sp r);
  let block_pos := position / BLOCK_SIZE in
  let zone := Z.shiftr block_pos scale in
  let boff := block_pos - Z.shiftl zone scale in
  let dzones := i_ndzones r in
  let nr_indirects := i_nindirs r in
  if zone <? dzones then
    z ← get_zone rip zone;
    if z =? NO_ZONE then mret NO_BLOCK else mret (u32 (Z.shiftl z scale + boff))
  else
  let excess := zone - dzones in
  x ← (if excess <? nr_indirects then
         z ← get_zone rip dzones; mret (Some (z, excess))
       else
         z ← get_zone rip (dzones + 1);
         if z =? NO_ZONE then mret None else
         let excess := excess - nr_indirects in
         z ← rd_indir_zone (i_dev r) scale z (s16 (excess / nr_indirects));
         mret (Some (z, excess mod nr_indirects)));
  match x with
  | None => mret NO_BLOCK
  | Some (z, excess) =>
      if z =? NO_ZONE then mret NO_BLOCK else
      z ← rd_indir_zone (i_dev r) scale z (s16 excess);
      if z =? NO_ZONE then mret NO_BLOCK else mret (u32 (Z.shiftl z scale + boff))
  end.

(** ** inode.c *)
Definition dup_inode (ip : Z) : PF unit := iset ip (λ r, r <| i_count := i_count r + 1 |>).

Definition wipe_inode (rip : Z) : PF unit :=
  iset rip (λ r, r <| i_size := 0 |> <| i_update := Z.lor (Z.lor ATIME CTIME) MTIME |>
                   <| i_dirt := true |> <| i_zone := λ _, NO_ZONE |>).

Definition update_times (rip : Z) : PF unit :=
  sp ← iget i_sp rip;
  ro ← sget s_rd_only sp;
  if ro : bool then mret tt else
  cur_time ← clock_time;
  u ← iget i_update rip;
  when (has u ATIME) (iset rip (λ r, r <| i_atime := cur_time |>));;
  when (has u CTIME) (iset rip (λ r, r <| i_ctime := cur_time |>));;
  when (has u MTIME) (iset rip (λ r, r <| i_mtime := cur_time |>));;
  iset rip (λ r, r <| i_update := 0 |>).

Definition rw_inode (rip rw_flag : Z) : PF unit :=
  dev ← iget i_dev rip;
  sp ← get_super dev;
  iset rip (λ r, r <| i_sp := sp |>);;
  r ← sget id sp;
  num ← iget (λ r, u16 (i_num r - 1)) rip;
  let offset := u32 (s16 (s_imap_blocks r + s_zmap_blocks r + 2)) in
  if s_inodes_per_block r =? 0 then fault else
  bp ← get_block dev (u32 (num / s_inodes_per_block r + offset)) NORMAL;
  let dip := V1_INODE_SIZE * (num mod V1_INODES_PER_BLOCK) in
  let dip2 := V2_INODE_SIZE * (num mod V2_INODES_PER_BLOCK) in
  when (rw_flag =? WRITING)
    (u ← iget i_update rip;
     when (negb (u =? 0)) (update_times rip);;
     when (negb (s_rd_only r)) (bset bp (λ b, b <| b_dirt := true |>)));;
  ino ← iget id rip;
  d ← bget b_data bp;
  (if rw_flag =? WRITING then
     bset bp (λ b, b <| b_data :=
       if s_version r =? V1 then old_icopy_write (s_native r) ino dip d
       else new_icopy_write (s_native r) ino dip2 d |>)
   else
     iset rip (λ ino,
       if s_version r =? V1 then old_icopy_read (s_native r) d dip ino
       else new_icopy_read (s_native r) d dip2 ino));;
  put_block bp INODE_BLOCK;;
  iset rip (λ r, r <| i_dirt := false |>).

(** The entry of [(dev, numb)] ([inr]), or the last free entry seen. *)
Definition find_inode (dev numb : Z) : PF (Z + Z) :=
  fold_until (λ xp rip,
    r ← iget id rip;
    if 0 <? i_count r then
      mret (if (i_dev r =? dev) && (i_num r =? numb) then inr rip else inl xp)
    else mret (inl rip)) NIL all_inodes.

Definition get_inode (dev numb : Z) : PF Z :=
  x ← find_inode dev (u16 numb);
  match x with
  | inr rip => iset rip (λ r, r <| i_count := i_count r + 1 |>);; mret rip
  | inl xp =>
      if xp =? NIL then set_err ENFILE;; mret NIL else
      iset xp (λ r, r <| i_dev := dev |> <| i_num := u16 numb |> <| i_count := 1 |>);;
      when (negb (dev =? NO_DEV)) (rw_inode xp READING);;
      iset xp (λ r, r <| i_update := 0 |>);;
      mret xp
  end.

Definition free_inode (dev inumb : Z) : PF unit :=
  sp ← get_super dev;
  r ← sget id sp;
  if (inumb <=? 0) || (s_ninodes r <? inumb) then mret tt else
  free_bit sp IMAP inumb;;
  when (inumb <? s_isearch r) (sset sp (λ r, r <| s_isearch := inumb |>)).

Definition alloc_inode (dev bits : Z) : PF Z :=
  sp ← get_super dev;
  r ← sget id sp;
  if s_rd_only r then set_err EROFS;; mret NIL else
  b ← alloc_bit sp IMAP (s_isearch r);
  if b =? NO_BIT then set_err ENFILE;; mret NIL else
  sset sp (λ r, r <| s_isearch := b |>);;
  rip ← get_inode NO_DEV (s16 b);
  (if rip =? NIL then free_bit sp IMAP b
   else
     uid ← cget fp_effuid;
     gid ← cget fp_effgid;
     iset rip (λ i, i <| i_mode := bits |> <| i_nlinks := 0 |> <| i_uid := uid |> <| i_gid := gid |>
                      <| i_dev := dev |> <| i_ndzones := s_ndzones r |> <| i_nindirs := s_nindirs r |>
                      <| i_sp := sp |>);;
     wipe_inode rip);;
  mret rip.

(** ** link.c *)
(** Free the data zones of the first [size] bytes. *)
Definition free_data (rip dev scale size : Z) : PF unit :=
  let zone_size := u32 (Z.shiftl BLOCK_SIZE scale) in
  loop (Z.to_nat (size / zone_size + 2)) (λ position,
    if size <=? position then mret (inr tt) else
    b ← read_map rip position;
    when (negb (b =? NO_BLOCK)) (free_zone dev (Z.shiftr b scale));;
    mret (inl (u32 (position + zone_size)))) 0.

(** Free the zones the double indirect zone [z] points to, and [z]. *)
Definition free_double (dev scale z nr_indirects : Z) : PF unit :=
  bp ← get_block dev (u32 (Z.shiftl z scale)) NORMAL;
  each (seqZ 0 nr_indirects) (λ i, z1 ← rd_indir bp i; free_zone dev z1);;
  put_block bp INDIRECT_BLOCK;;
  free_zone dev z.

Definition truncate (rip : Z) : PF unit :=
  r ← iget id rip;
  let file_type := Z.land (i_mode r) I_TYPE in
  if (file_type =? I_CHAR_SPECIAL) || (file_type =? I_BLOCK_SPECIAL) then mret tt else
  let dev := i_dev r in
  scale ← sget s_log_zone_size (i_sp r);
  let waspipe := i_pipe r in
  when waspipe (iset rip (λ r, r <| i_size := PIPE_SIZE |>));;
  size ← iget i_size rip;
  free_data rip dev scale size;;
  iset rip (λ r, r <| i_dirt := true |>);;
  if waspipe then wipe_inode rip else
  let single := i_ndzones r in
  z ← get_zone rip single;
  free_zone dev z;;
  z ← get_zone rip (single + 1);
  when (negb (z =? NO_ZONE)) (free_double dev scale z (i_nindirs r)).

(** ** inode.c, continued *)
Definition put_inode (rip : Z) : PF unit :=
  if rip =? NIL then mret tt else
  iset rip (λ r, r <| i_count := i_count r - 1 |>);;
  r ← iget id rip;
  when (i_count r =? 0)
    ((if Z.land (i_nlinks r) BYTE =? 0 then
        truncate rip;;
        iset rip (λ r, r <| i_mode := I_NOT_ALLOC |> <| i_dirt := true |>);;
        free_inode (i_dev r) (i_num r)
      else when (i_pipe r) (truncate rip));;
     iset rip (λ r, r <| i_pipe := false |>);;
     dirty ← iget i_dirt rip;
     when dirty (rw_inode rip WRITING)).
End inode.
