(* ===== verification/Filedes.v ===== *)
(** * File descriptors, pipes and locks

    fs/filedes.c, [pipe_check] of pipe.c, and lock.c.  A [struct filp *] and a
    [struct file_lock *] are indices of entries. *)

From S2P Require Import Prelude Fstate Fdev.

(** ** [struct flock] (fcntl.h), as copied from and to user space *)
Record flock := Flock { l_type : Z; l_whence : Z; l_start : Z; l_len : Z; l_pid : Z }.
Definition flock_size : Z := 14.
Definition SEEK_SET : Z := 0.
Definition SEEK_CUR : Z := 1.
Definition SEEK_END : Z := 2.

Definition flock_of_bytes (l : list Z) : flock :=
  let d := store 0 l (λ _, 0) in
  Flock (s16 (be16 d 0)) (s16 (be16 d 2)) (be32 d 4) (be32 d 8) (s16 (be16 d 12)).
Definition flock_bytes (f : flock) : list Z :=
  load (set16 0 (l_type f) (set16 2 (l_whence f) (set32 4 (l_start f) (set32 8 (l_len f)
    (set16 12 (l_pid f) (λ _, 0)))))) 0 flock_size.

Section filedes.
Context `{World}.

(** ** filedes.c *)

(** The descriptor and the filp slot ([inr]), or the error ([inl]). *)
Definition get_fd (start bits : Z) : PF (Z + Z * Z) :=
  p ← gets fp;
  if negb (in_tab NR_PROCS p) then fault else
  k ← first_of (seqZ start (OPEN_MAX - start)) (λ s i, fp_filp (fproc_of s p) i =? NIL);
  match k with
  | None => mret (inl EMFILE)
  | Some k =>
      f ← first_of all_filps (λ s f, filp_count (filp_of s f) =? 0);
      match f with
      | None => mret (inl ENFILE)
      | Some f =>
          fset f (λ x, x <| filp_mode := bits |> <| filp_pos := 0 |> <| filp_flags := 0 |>);;
          mret (inr (k, f))
      end
  end.

Definition get_filp (fild : Z) : PF Z :=
  set_err EBADF;;
  if (fild <? 0) || (OPEN_MAX <=? fild) then mret NIL else
  p ← gets fp; get_desc p fild.

Definition find_filp (rip bits : Z) : PF Z :=
  f ← first_of all_filps (λ s f, let x := filp_of s f in
        negb (filp_count x =? 0) && (filp_ino x =? rip) && has (filp_mode x) bits);
  mret (default NIL f).

(** ** pipe.c *)

(** The result, and [canwrite]. *)
Definition pipe_check (rip rw_flag oflags bytes position canwrite : Z) : PF (Z * Z) :=
  if rw_flag =? READING then
    size ← iget i_size rip;
    if size <=? position then
      w ← find_filp rip W_BIT;
      if w =? NIL then mret (0, canwrite) else
      (if has oflags O_NONBLOCK then mret tt else suspend XPIPE);;
      n ← gets susp_count;
      when (0 <? n) (release rip WRITE n);;
      mret (if has oflags O_NONBLOCK then EAGAIN else 0, canwrite)
    else mret (1, 0)
  else
    rd ← find_filp rip R_BIT;
    if rd =? NIL then p ← gets fp; ask (SysKill p SIGPIPE);; mret (EPIPE, canwrite) else
    n ← gets susp_count;
    if PIPE_SIZE <? u32 (position + bytes) then
      let room := s16 (PIPE_SIZE - position) in
      if has oflags O_NONBLOCK && (bytes <? PIPE_SIZE) then mret (EAGAIN, canwrite) else
      if has oflags O_NONBLOCK && (PIPE_SIZE <? bytes) then
        if 0 <? room then release rip READ n;; mret (1, room) else mret (EAGAIN, room)
      else if (PIPE_SIZE <? bytes) && (0 <? room) then release rip READ n;; mret (1, room)
      else suspend XPIPE;; mret (0, if PIPE_SIZE <? bytes then room else canwrite)
    else
      when (position =? 0) (release rip READ n);;
      mret (1, 0).

(** ** lock.c *)
Definition lock_revive : PF unit :=
  each (seqZ (INIT_PROC_NR + 1) (NR_PROCS - (INIT_PROC_NR + 1))) (λ p,
    r ← pget id p;
    when (fp_suspended r && (- fp_task r =? XLOCK)) (revive p 0)).

(** The bounds of the region, or [None] for an invalid one. *)
Definition lock_region (fl : flock) (pos size : Z) : option (Z * Z) :=
  let base := if l_whence fl =? SEEK_SET then Some 0
              else if l_whence fl =? SEEK_CUR then Some pos
              else if l_whence fl =? SEEK_END then Some size else None in
  match base with
  | None => None
  | Some first =>
      let sum := u32 (first + l_start fl) in
      if (0 <? s32 (l_start fl)) && (sum <? first) then None else
      if (s32 (l_start fl) <? 0) && (first <? sum) then None else
      let last := if l_len fl =? 0 then MAX_FILE_POS else u32 (sum + l_len fl - 1) in
      if last <? sum then None else Some (sum, last)
  end.

(** [conflict], [unlocking] and [empty]. *)
Record lock_scan := LockScan { ls_unlocking : bool; ls_empty : Z }.
(** The ways the scan ends before the end of the table. *)
Inductive lock_stop := Stop_conflict (flp : Z) | Stop_return (r : Z).

(** Whether an entry has nothing to do with the request: the [continue]s. *)
Definition lock_skip (ltype pid ino first last : Z) (x : file_lock) : bool :=
  negb (lock_inode x =? ino) || (last <? lock_first x) || (lock_last x <? first) ||
  ((ltype =? F_RDLCK) && (lock_type x =? F_RDLCK)) ||
  (negb (ltype =? F_UNLCK) && (lock_pid x =? pid)).

(** Unlock the part of entry [flp] between [first] and [last]. *)
Definition lock_clear (flp first last : Z) (sc : lock_scan) : PF (lock_scan + lock_stop) :=
  x ← lget id flp;
  let sc := LockScan true (ls_empty sc) in
  if (first <=? lock_first x) && (lock_last x <=? last) then
    lset flp (λ x, x <| lock_type := 0 |>);;
    modify (λ s, s <| nr_locks := nr_locks s - 1 |>);;
    mret (inl sc)
  else if first <=? lock_first x then
    lset flp (λ x, x <| lock_first := u32 (last + 1) |>);; mret (inl sc)
  else if lock_last x <=? last then
    lset flp (λ x, x <| lock_last := u32 (first - 1) |>);; mret (inl sc)
  else
    n ← gets nr_locks;
    if n =? NR_LOCKS then mret (inr (Stop_return ENOLCK)) else
    i ← first_of all_locks (λ s i, lock_type (lock_of s i) =? 0);
    match i with
    | None => fault
    | Some flp2 =>
        lset flp2 (λ _, x <| lock_first := u32 (last + 1) |>);;
        lset flp (λ x, x <| lock_last := u32 (first - 1) |>);;
        modify (λ s, s <| nr_locks := nr_locks s + 1 |>);;
        mret (inl sc)
    end.

(** One iteration of the scan of the lock table. *)
Definition lock_step (req ltype pid ino first last : Z) (sc : lock_scan) (flp : Z)
    : PF (lock_scan + lock_stop) :=
  x ← lget id flp;
  if lock_type x =? 0 then
    mret (inl (LockScan (ls_unlocking sc) (if ls_empty sc =? NIL then flp else ls_empty sc)))
  else if lock_skip ltype pid ino first last x then mret (inl sc)
  else if req =? F_GETLK then mret (inr (Stop_conflict flp))
  else if (ltype =? F_RDLCK) || (ltype =? F_WRLCK) then
    if req =? F_SETLK then mret (inr (Stop_return EAGAIN))
    else suspend XLOCK;; mret (inr (Stop_return 0))
  else lock_clear flp first last sc.

(** The error checks at the start. *)
Definition lock_check (req ltype mo imode : Z) : Z :=
  if negb ((ltype =? F_UNLCK) || (ltype =? F_RDLCK) || (ltype =? F_WRLCK)) then EINVAL else
  if (req =? F_GETLK) && (ltype =? F_UNLCK) then EINVAL else
  if negb (Z.land imode I_TYPE =? I_REGULAR) then EINVAL else
  if negb (req =? F_GETLK) && (ltype =? F_RDLCK) && negb (has mo R_BIT) then EBADF else
  if negb (req =? F_GETLK) && (ltype =? F_WRLCK) && negb (has mo W_BIT) then EBADF else OK.

(** After the scan: report the lock found, or set the new one. *)
Definition lock_getlk (fl : flock) (conflict : option Z) : PF Z :=
  who ← gets fs_who;
  mm ← gets fs_m;
  fl ← (match conflict with
        | Some flp =>
            x ← lget id flp;
            mret (Flock (lock_type x) SEEK_SET (lock_first x) (u32 (lock_last x - lock_first x + 1)) (lock_pid x))
        | None => mret (Flock F_UNLCK (l_whence fl) (l_start fl) (l_len fl) (l_pid fl))
        end);
  a ← ask (CopyTo who 1 (m1_p1 mm) (flock_bytes fl));
  mret (a_res a).

Definition lock_set (ltype pid ino first last empty : Z) : PF Z :=
  if empty =? NIL then mret ENOLCK else
  lset empty (λ _, FileLock ltype pid ino first last);;
  modify (λ s, s <| nr_locks := nr_locks s + 1 |>);;
  mret OK.

(** The part of [lock_op] after the region is known. *)
Definition lock_table (req : Z) (fl : flock) (ino first last : Z) : PF Z :=
  pid ← cget fp_pid;
  x ← fold_until (lock_step req (l_type fl) pid ino first last) (LockScan false NIL) all_locks;
  match x with
  | inr (Stop_return r) => mret r
  | inr (Stop_conflict flp) => lock_getlk fl (Some flp)
  | inl sc =>
      when (ls_unlocking sc) lock_revive;;
      if req =? F_GETLK then lock_getlk fl None else
      if l_type fl =? F_UNLCK then mret OK else
      lock_set (l_type fl) pid ino first last (ls_empty sc)
  end.

Definition lock_op (f req : Z) : PF Z :=
  who ← gets fs_who;
  mm ← gets fs_m;
  a ← ask (CopyFrom who 1 (m1_p1 mm) flock_size);
  if negb (a_res a =? OK) then mret EINVAL else
  let fl := flock_of_bytes (match a_data a with (_, l) :: _ => l | [] => [] end) in
  x ← fget id f;
  ino ← iget id (filp_ino x);
  let r := lock_check req (l_type fl) (filp_mode x) (i_mode ino) in
  if negb (r =? OK) then mret r else
  match lock_region fl (filp_pos x) (i_size ino) with
  | None => mret EINVAL
  | Some (first, last) => lock_table req fl (filp_ino x) first last
  end.
End filedes.
