(* ===== verification/Rdwr.v ===== *)
(** * Reading and writing files

    fs/write.c and the rest of read.c: the zone maps, new blocks, read ahead
    and the READ and WRITE system calls. *)

From S2P Require Import Prelude Fstate Fdev Cache Super Inode Filedes.

Definition FD_MASK : Z := 0x3F.
Definition BLOCKS_MINIMUM : Z := 32.

(** [MIN] of an int and an unsigned *)
Definition min_u (x y : Z) : Z := if u16 x <? u16 y then s16 x else s16 y.

Section rdwr.
Context `{World}.

(** The input message *)
Definition mm_get {A} (f : message → A) : PF A := gets (λ s, f (fs_m s)).
Definition mm_set (g : message → message) : PF unit := modify (λ s, s <| fs_m := g (fs_m s) |>).

(** ** write.c *)
Definition wr_indir (bp index zone : Z) : PF unit :=
  dev ← bget b_dev bp;
  sp ← get_super dev;
  r ← sget id sp;
  if s_version r =? V1 then
    if in_tab V1_INDIRECTS index then
      bset bp (λ b, b <| b_data := set16 (2 * index) (conv2 (s_native r) (s16 zone)) (b_data b) |>)
    else fault
  else
    if in_tab V2_INDIRECTS index then
      bset bp (λ b, b <| b_data := set32 (4 * index) (conv4 (s_native r) (s32 zone)) (b_data b) |>)
    else fault.

(** The double indirect block, created if need be: the zone of the single
    indirect block, the buffer ([inr]), or the error ([inl]). *)
Definition write_map_double (rip scale excess : Z) : PF (Z + Z * Z * Z) :=
  r ← iget id rip;
  z0 ← get_zone rip (i_ndzones r + 1);
  z ← (if z0 =? NO_ZONE then
         near ← get_zone rip 0;
         z ← alloc_zone (i_dev r) near;
         when (negb (z =? NO_ZONE)) (set_zone rip (i_ndzones r + 1) z);;
         mret z
       else mret z0);
  if z =? NO_ZONE then e ← gets err_code; mret (inl e) else
  let new_dbl := z0 =? NO_ZONE in
  let ind_ex := s16 (excess / i_nindirs r) in
  if i_nindirs r <=? ind_ex then mret (inl EFBIG) else
  bp ← get_block (i_dev r) (u32 (Z.shiftl z scale)) (if new_dbl then NO_READ else NORMAL);
  when new_dbl (zero_block bp);;
  z1 ← rd_indir bp ind_ex;
  mret (inr (z1, bp, ind_ex)).

(** Enter [new_zone] at [excess] in the single indirect block of zone [z1],
    which is created when [z1] is [NO_ZONE]; [bp] is the double indirect block,
    if any. *)
Definition write_map_single (rip scale excess z1 bp ind_ex new_zone : Z) : PF Z :=
  r ← iget id rip;
  let new_ind := z1 =? NO_ZONE in
  z1 ← (if new_ind then
          near ← get_zone rip 0;
          z1 ← alloc_zone (i_dev r) near;
          (if bp =? NIL then set_zone rip (i_ndzones r) z1
           else wr_indir bp ind_ex z1;; bset bp (λ b, b <| b_dirt := true |>));;
          mret z1
        else mret z1);
  put_block bp INDIRECT_BLOCK;;
  if z1 =? NO_ZONE then gets err_code else
  bp ← get_block (i_dev r) (u32 (Z.shiftl z1 scale)) (if new_ind then NO_READ else NORMAL);
  when new_ind (zero_block bp);;
  wr_indir bp (s16 excess) new_zone;;
  bset bp (λ b, b <| b_dirt := true |>);;
  put_block bp INDIRECT_BLOCK;;
  mret OK.

Definition write_map (rip position new_zone : Z) : PF Z :=
  iset rip (λ r, r <| i_dirt := true |>);;
  r ← iget id rip;
  scale ← sget s_log_zone_size (i_sp r);
  let zone := Z.shiftr (position / BLOCK_SIZE) scale in
  let zones := i_ndzones r in
  if zone <? zones then set_zone rip zone new_zone;; mret OK else
  let excess := zone - zones in
  if excess <? i_nindirs r then
    z1 ← get_zone rip zones;
    write_map_single rip scale excess z1 NIL 0 new_zone
  else
    let excess := excess - i_nindirs r in
    x ← write_map_double rip scale excess;
    match x with
    | inl e => mret e
    | inr (z1, bp, ind_ex) =>
        write_map_single rip scale (excess mod i_nindirs r) z1 bp ind_ex new_zone
    end.

Definition clear_zone (rip pos flag : Z) : PF unit :=
  r ← iget id rip;
  scale ← sget s_log_zone_size (i_sp r);
  if scale =? 0 then mret tt else
  let zone_size := u32 (Z.shiftl BLOCK_SIZE scale) in
  let pos := if flag =? 1 then u32 (pos / zone_size * zone_size) else pos in
  let next := u32 (pos + BLOCK_SIZE - 1) in
  if negb (next / zone_size =? pos / zone_size) then mret tt else
  blo ← read_map rip next;
  if blo =? NO_BLOCK then mret tt else
  let bhi := u32 (Z.shiftl (Z.shiftr blo scale + 1) scale - 1) in
  each (seqZ blo (bhi - blo + 1)) (λ b,
    bp ← get_block (i_dev r) b NO_READ;
    zero_block bp;;
    put_block bp FULL_DATA_BLOCK).

(** The block of a position that has none: a new zone. *)
Definition new_zone_block (rip position : Z) : PF (option Z) :=
  z0 ← get_zone rip 0;
  r ← iget id rip;
  near ← (if z0 =? NO_ZONE then sget s_firstdatazone (i_sp r) else mret z0);
  z ← alloc_zone (i_dev r) near;
  if z =? NO_ZONE then mret None else
  e ← write_map rip position z;
  if negb (e =? OK) then free_zone (i_dev r) z;; set_err e;; mret None else
  r ← iget id rip;
  when (negb (position =? i_size r)) (clear_zone rip position 1);;
  scale ← sget s_log_zone_size (i_sp r);
  let zone_size := u32 (Z.shiftl BLOCK_SIZE scale) in
  mret (Some (u32 (Z.shiftl z scale + position mod zone_size / BLOCK_SIZE))).

Definition new_block (rip position : Z) : PF Z :=
  b ← read_map rip position;
  x ← (if b =? NO_BLOCK then new_zone_block rip position else mret (Some b));
  match x with
  | None => mret NIL
  | Some b =>
      dev ← iget i_dev rip;
      bp ← get_block dev b NO_READ;
      zero_block bp;;
      mret bp
  end.

(** ** read.c: read ahead *)
Definition is_block_spec (r : inode) : bool := Z.land (i_mode r) I_TYPE =? I_BLOCK_SPECIAL.
(** The device of an inode's blocks. *)
Definition data_dev (r : inode) : Z := if is_block_spec r then s16 (i_zone r 0) else i_dev r.

(** The number of blocks to read. *)
Definition blocks_to_read (r : inode) (scale position bytes_ahead : Z) : Z :=
  let fragment := position mod BLOCK_SIZE in
  let position := position - fragment in
  let bytes_ahead := u16 (bytes_ahead + fragment) in
  let ahead := u16 (bytes_ahead + BLOCK_SIZE - 1) / BLOCK_SIZE in
  let '(ahead, blocks_left) :=
    if is_block_spec r && (i_size r =? 0) then (ahead, NR_IOREQS) else
    let blocks_left := u32 (i_size r - position + BLOCK_SIZE - 1) / BLOCK_SIZE in
    let ind1_pos := u32 (i_ndzones r * s16 (Z.shiftl BLOCK_SIZE scale)) in
    if negb (is_block_spec r) && (position <=? ind1_pos) && (ind1_pos <? i_size r)
    then (u16 (ahead + 1), blocks_left + 1) else (ahead, blocks_left) in
  let ahead := if NR_IOREQS <? ahead then NR_IOREQS else ahead in
  let ahead := if (ahead <? BLOCKS_MINIMUM) && negb (i_seek r) then BLOCKS_MINIMUM else ahead in
  if blocks_left <? ahead then u16 blocks_left else ahead.

(** Acquire buffers for the blocks after [block], [bp] being its buffer. *)
Definition acquire (dev bp block blocks_ahead : Z) : PF (list Z) :=
  loop buf_fuel (λ '(q, bp, block, ahead),
    let q := q ++ [bp] in
    let ahead := u16 (ahead - 1) in
    n ← gets bufs_in_use;
    if (ahead =? 0) || (NR_BUFS - 4 <=? n) then mret (inr q) else
    let block := u32 (block + 1) in
    bp ← get_block dev block PREFETCH;
    d ← bget b_dev bp;
    if negb (d =? NO_DEV) then put_block bp FULL_DATA_BLOCK;; mret (inr q)
    else mret (inl (q, bp, block, ahead))) ([], bp, block, blocks_ahead).

Definition rahead (rip baseblock position bytes_ahead : Z) : PF Z :=
  r ← iget id rip;
  let dev := data_dev r in
  bp ← get_block dev baseblock PREFETCH;
  d ← bget b_dev bp;
  if negb (d =? NO_DEV) then mret bp else
  scale ← (if is_block_spec r then mret 0 else sget s_log_zone_size (i_sp r));
  read_q ← acquire dev bp baseblock (blocks_to_read r scale position bytes_ahead);
  rw_scattered dev read_q READING;;
  get_block dev baseblock NORMAL.

Definition read_ahead : PF unit :=
  rip ← gets rdahed_inode;
  modify (λ s, s <| rdahed_inode := NIL |>);;
  pos ← gets rdahedpos;
  b ← read_map rip pos;
  if b =? NO_BLOCK then mret tt else
  bp ← rahead rip b pos BLOCK_SIZE;
  put_block bp PARTIAL_DATA_BLOCK.

(** ** read.c: [rw_chunk] *)

(** The buffer of the block at [position]: [NIL] when there is none left. *)
Definition chunk_block (rip position off chunk bytes_ahead rw_flag : Z) : PF Z :=
  r ← iget id rip;
  b ← (if is_block_spec r then mret (position / BLOCK_SIZE) else read_map rip position);
  if negb (is_block_spec r) && (b =? NO_BLOCK) then
    if rw_flag =? READING then
      bp ← get_block NO_DEV NO_BLOCK NORMAL; zero_block bp;; mret bp
    else new_block rip position
  else if rw_flag =? READING then rahead rip b position bytes_ahead
  else
    let n := if chunk =? BLOCK_SIZE then NO_READ else NORMAL in
    let n := if negb (is_block_spec r) && (off =? 0) && (i_size r <=? position) then NO_READ else n in
    get_block (data_dev r) b n.

Definition rw_chunk (rip position off chunk bytes_ahead rw_flag buff seg usr : Z) : PF Z :=
  bp ← chunk_block rip position off chunk bytes_ahead rw_flag;
  if bp =? NIL then gets err_code else
  r ← iget id rip;
  when ((rw_flag =? WRITING) && negb (chunk =? BLOCK_SIZE) && negb (is_block_spec r) &&
        (i_size r <=? position) && (off =? 0)) (zero_block bp);;
  res ← (if rw_flag =? READING then
           d ← bget b_data bp;
           a ← ask (CopyTo usr seg buff (load d off chunk));
           mret (a_res a)
         else
           a ← ask (CopyFrom usr seg buff chunk);
           let bytes := match a_data a with (_, l) :: _ => take (Z.to_nat chunk) l | [] => [] end in
           bset bp (λ b, b <| b_data := store off bytes (b_data b) |>);;
           bset bp (λ b, b <| b_dirt := true |>);;
           mret (a_res a));
  put_block bp (if off + chunk =? BLOCK_SIZE then FULL_DATA_BLOCK else PARTIAL_DATA_BLOCK);;
  mret res.

(** ** read.c: [read_write] *)

(** The transfer in chunks that do not span two blocks: the result, the bytes
    transferred and the new position.  [part] is [partial_cnt], 0 unless the
    write to a pipe is partial. *)
Definition transfer (rip rw_flag f_size seg usr part r cum_io position : Z) : PF (Z * Z * Z) :=
  n ← mm_get m1_i2;
  loop (Z.to_nat (n / BLOCK_SIZE + 3)) (λ '(part_cnt, r, cum_io, position),
    nbytes ← mm_get m1_i2;
    if nbytes =? 0 then mret (inr (r, cum_io, position)) else
    let off := position mod BLOCK_SIZE in
    let chunk := min_u (if 0 <? part then part_cnt else nbytes) (BLOCK_SIZE - off) in
    let chunk := if chunk <? 0 then BLOCK_SIZE - off else chunk in
    let bytes_left := u32 (f_size - position) in
    if (rw_flag =? READING) && (f_size <=? position) then mret (inr (r, cum_io, position)) else
    let chunk := if (rw_flag =? READING) && (bytes_left <? u32 chunk) then s16 bytes_left else chunk in
    buff ← mm_get m1_p1;
    r ← rw_chunk rip position off chunk (u16 nbytes) rw_flag buff seg usr;
    err ← gets rdwt_err;
    if negb (r =? OK) || (err <? 0) then mret (inr (r, cum_io, position)) else
    mm_set (λ x, put16 1 (nbytes - chunk) (put32 3 (buff + chunk) x));;
    let cum_io := u16 (cum_io + chunk) in
    let position := u32 (position + chunk) in
    let part_cnt := s16 (part_cnt - chunk) in
    if (0 <? part) && (part_cnt <=? 0) then mret (inr (r, cum_io, position))
    else mret (inl (part_cnt, r, cum_io, position))) (part, r, cum_io, position).

(** After the transfer: the size of the file, the position and the times. *)
Definition rw_finish (f rip rw_flag f_size oflags partial : Z) (res : Z * Z * Z) : PF Z :=
  let '(r, cum_io, position) := res in
  ino ← iget id rip;
  let mode_word := Z.land (i_mode ino) I_TYPE in
  let regular := (mode_word =? I_REGULAR) || (mode_word =? I_NAMED_PIPE) in
  let reset := (rw_flag =? READING) && i_pipe ino && (i_size ino <=? position) in
  (if rw_flag =? WRITING then
     when ((regular || (mode_word =? I_DIRECTORY)) && (f_size <? position))
       (iset rip (λ x, x <| i_size := position |>))
   else when reset
     (iset rip (λ x, x <| i_size := 0 |>);;
      wf ← find_filp rip W_BIT;
      when (negb (wf =? NIL)) (fset wf (λ x, x <| filp_pos := 0 |>))));;
  let position := if reset then 0 else position in
  fset f (λ x, x <| filp_pos := position |>);;
  when ((rw_flag =? READING) && negb (i_seek ino) && (position mod BLOCK_SIZE =? 0) &&
        (regular || (mode_word =? I_DIRECTORY)))
    (modify (λ s, s <| rdahed_inode := rip |> <| rdahedpos := position |>));;
  iset rip (λ x, x <| i_seek := false |>);;
  err ← gets rdwt_err;
  let r := if negb (err =? OK) then err else r in
  let r := if err =? END_OF_FILE then OK else r in
  if negb (r =? OK) then mret r else
  iset rip (λ x, x <| i_update := Z.lor (i_update x) (if rw_flag =? READING then ATIME else Z.lor CTIME MTIME) |>
                   <| i_dirt := true |>);;
  if (0 <? partial) && negb (has oflags O_NONBLOCK) then
    cset (λ p, p <| fp_cum_io_partial := s16 cum_io |>);;
    suspend XPIPE;;
    mret 0
  else
    cset (λ p, p <| fp_cum_io_partial := 0 |>);;
    mret (s16 cum_io).

(** The user process and the segment, which MM puts in the descriptor. *)
Definition rw_target : PF (Z * Z) :=
  who ← gets fs_who;
  fd ← mm_get m1_i1;
  if (who =? MM_PROC_NR) && negb (Z.land fd (Z.lnot BYTE) =? 0) then
    mm_set (put16 0 (Z.land fd FD_MASK));;
    mret (Z.land (Z.shiftr fd 8) BYTE, Z.land (Z.shiftr fd 6) 3)
  else mret (who, 1).

(** A character special file: one request to its task. *)
Definition rw_special (rip rw_flag oflags cum_io position : Z) : PF (Z * Z * Z) :=
  z ← get_zone rip 0;
  who ← gets fs_who;
  nbytes ← mm_get m1_i2;
  buff ← mm_get m1_p1;
  '(r, _) ← dev_io (if rw_flag =? READING then DEV_READ else DEV_WRITE) (Z.land oflags O_NONBLOCK)
              (s16 z) position nbytes who buff NoMem;
  mret (if 0 <=? r then (OK, r, u32 (position + r)) else (r, cum_io, position)).

(** Any other file: [inl] is an early return. *)
Definition rw_file (rip rw_flag f_size oflags seg usr cum_io position : Z) : PF (Z + Z * Z * Z * Z) :=
  ino ← iget id rip;
  nbytes ← mm_get m1_i2;
  let checked := (rw_flag =? WRITING) && negb (is_block_spec ino) in
  max ← (if checked then sget s_max_size (i_sp ino) else mret 0);
  if checked && (u32 (max - nbytes) <? position) then mret (inl EFBIG) else
  let position := if checked && has oflags O_APPEND then f_size else position in
  when (checked && (f_size <? position)) (clear_zone rip f_size 0);;
  '(r, part) ← (if i_pipe ino then pipe_check rip rw_flag oflags nbytes position 0 else mret (OK, 0));
  if i_pipe ino && (r <=? 0) then mret (inl r) else
  let part := if 0 <? part then part else 0 in
  '(r, cum_io, position) ← transfer rip rw_flag f_size seg usr part r cum_io position;
  mret (inr (part, r, cum_io, position)).

Definition read_write (rw_flag : Z) : PF Z :=
  '(usr, seg) ← rw_target;
  nbytes ← mm_get m1_i2;
  if nbytes <? 0 then mret EINVAL else
  fd ← mm_get m1_i1;
  f ← get_filp fd;
  if f =? NIL then gets err_code else
  x ← fget id f;
  if negb (has (filp_mode x) (if rw_flag =? READING then R_BIT else W_BIT)) then
    mret (if filp_mode x =? FILP_CLOSED then EIO else EBADF) else
  if nbytes =? 0 then mret 0 else
  let position := filp_pos x in
  if MAX_FILE_POS <? position then mret EINVAL else
  if u32 (position + nbytes) <? position then mret EINVAL else
  let rip := filp_ino x in
  ino ← iget id rip;
  partial ← cget fp_cum_io_partial;
  let cum_io := if i_pipe ino then u16 partial else 0 in
  let mode_word := Z.land (i_mode ino) I_TYPE in
  let f_size := if is_block_spec ino then LONG_MAX else i_size ino in
  modify (λ s, s <| rdwt_err := OK |>);;
  if mode_word =? I_CHAR_SPECIAL then
    res ← rw_special rip rw_flag (filp_flags x) cum_io position;
    rw_finish f rip rw_flag f_size (filp_flags x) 0 res
  else
    y ← rw_file rip rw_flag f_size (filp_flags x) seg usr cum_io position;
    match y with
    | inl r => mret r
    | inr (part, r, cum_io, position) =>
        rw_finish f rip rw_flag f_size (filp_flags x) part (r, cum_io, position)
    end.

Definition do_read : PF Z := read_write READING.
Definition do_write : PF Z := read_write WRITING.
End rdwr.
