(* ===== verification/Path.v ===== *)
(** * Protection and path names

    fs/path.c, with [forbidden] and [read_only] of protect.c.  A [char *] into
    [user_path] is an offset.  A component is the list of its characters, or
    one of the arrays [dot1] and [dot2], which the code recognises by their
    addresses. *)

From S2P Require Import Prelude Fstate Fdev Cache Super Inode Filedes Rdwr.

Definition SLASH : Z := 47.
Definition DOT : Z := 46.

Inductive cname := Dot1 | Dot2 | Str (l : list Z).
Definition chars (c : cname) : list Z :=
  match c with Dot1 => [DOT] | Dot2 => [DOT; DOT] | Str l => l end.
Definition is_dots (c : cname) : bool := match c with Str _ => false | _ => true end.
Definition name_eqb (l l' : list Z) : bool := bool_decide (l = l').

(** The characters before the first null byte. *)
Fixpoint upto_nul (l : list Z) : list Z :=
  match l with [] => [] | c :: l' => if c =? 0 then [] else c :: upto_nul l' end.

(** A directory entry at byte [o] of a block: [d_ino] as stored, and [d_name] *)
Definition entry_ino (d : Z → Z) (o : Z) : Z := be16 d o.
Definition entry_name (d : Z → Z) (o : Z) : list Z := upto_nul (load d (o + 2) NAME_MAX).

Section path.
Context `{World}.

(** ** protect.c *)
Definition read_only (ip : Z) : PF Z :=
  sp ← iget i_sp ip;
  ro ← sget s_rd_only sp;
  mret (if ro : bool then EROFS else OK).

(** The inode whose permissions count: the root of the file system mounted on
    [rip], if any. *)
Definition mounted_root (rip : Z) : PF Z :=
  m ← iget i_mount rip;
  if negb m then mret rip else
  x ← first_of (seqZ 1 (NR_SUPERS - 1)) (λ s sp, s_imount (super_of s sp) =? rip);
  match x with
  | Some sp => dev ← sget s_dev sp; get_inode dev ROOT_INODE
  | None => mret rip
  end.

(** [perm_bits] *)
Definition perm_bits (r : inode) (test_uid test_gid : Z) : Z :=
  let bits := i_mode r in
  if test_uid =? SU_UID then
    if (Z.land bits I_TYPE =? I_DIRECTORY) ||
       has bits (Z.lor (Z.lor (Z.shiftl X_BIT 6) (Z.shiftl X_BIT 3)) X_BIT)
    then Z.lor (Z.lor R_BIT W_BIT) X_BIT else Z.lor R_BIT W_BIT
  else
    let shift := if test_uid =? i_uid r then 6 else if test_gid =? i_gid r then 3 else 0 in
    Z.land (Z.shiftr bits shift) (Z.lor (Z.lor R_BIT W_BIT) X_BIT).

Definition forbidden (old_rip access_desired : Z) : PF Z :=
  rip ← mounted_root old_rip;
  ino ← iget id rip;
  call ← gets fs_call;
  uid ← cget (if call =? ACCESS then fp_realuid else fp_effuid);
  gid ← cget (if call =? ACCESS then fp_realgid else fp_effgid);
  let perm := perm_bits ino uid gid in
  r ← (if negb (Z.lor perm access_desired =? perm) then mret EACCES
       else if has access_desired W_BIT then read_only rip else mret OK);
  when (negb (rip =? old_rip)) (put_inode rip);;
  mret r.

(** ** path.c: names *)

(** [*p]: the array [user_path], and the byte after it. *)
Definition path_at (p : Z) : PF Z :=
  if in_tab PATH_MAX p then gets (λ s, user_path s p)
  else if p =? PATH_MAX then mret path_guard else fault.

(** [while ((c = *rnp) == '/') rnp++;] *)
Definition skip_slashes (rnp : Z) : PF Z :=
  loop (Z.to_nat (PATH_MAX + 2)) (λ rnp,
    c ← path_at rnp; mret (if c =? SLASH then inl (rnp + 1) else inr rnp)) rnp.

(** The component at [rnp], and the position after it. *)
Definition copy_name (rnp lim : Z) : PF (Z * list Z) :=
  loop (Z.to_nat (PATH_MAX + 2)) (λ '(rnp, np),
    c ← path_at rnp;
    if (rnp <? lim) && negb (c =? SLASH) && negb (c =? 0) then
      mret (inl (rnp + 1, if Z.of_nat (length np) <? NAME_MAX then np ++ [c] else np))
    else mret (inr (rnp, np))) (rnp, []).

(** [while (c == '/' && rnp < &old_name[PATH_MAX]) c = *++rnp;] *)
Definition skip_trailing (rnp lim : Z) : PF Z :=
  loop (Z.to_nat (PATH_MAX + 2)) (λ rnp,
    c ← path_at rnp; mret (if (c =? SLASH) && (rnp <? lim) then inl (rnp + 1) else inr rnp)) rnp.

(** The unparsed part, [NIL] for a null pointer, and the component. *)
Definition get_name (old_name : Z) : PF (Z * list Z) :=
  let lim := old_name + PATH_MAX in
  rnp ← skip_slashes old_name;
  '(rnp, string) ← copy_name rnp lim;
  rnp ← skip_trailing rnp lim;
  if lim <=? rnp then set_err ENAMETOOLONG;; mret (NIL, string)
  else mret (rnp, string).

(** ** path.c: [search_dir] *)

(** How the search of a block ends before its last entry. *)
Inductive slot_stop := Slot_end (o : Z) | Slot_match (o : Z) | Slot_free (o : Z).

(** Whether the entry at [o] is what the search is for. *)
Definition slot_match (d : Z → Z) (o : Z) (string : cname) (flag : Z) : bool :=
  negb (flag =? ENTER) && negb (entry_ino d o =? 0) &&
  (if flag =? IS_EMPTY then
     negb (name_eqb (entry_name d o) [DOT]) && negb (name_eqb (entry_name d o) [DOT; DOT])
   else name_eqb (entry_name d o) (chars string)).

(** The entries of a block; the argument counts [new_slots]. *)
Definition scan_block (bp : Z) (string : cname) (flag old_slots new_slots : Z) : PF (Z + Z * slot_stop) :=
  fold_until (λ new_slots j,
    let o := DIR_ENTRY_SIZE * j in
    let new_slots := u16 (new_slots + 1) in
    if old_slots <? new_slots then mret (inr (new_slots, Slot_end o)) else
    d ← bget b_data bp;
    if slot_match d o string flag then mret (inr (new_slots, Slot_match o)) else
    if (flag =? ENTER) && (entry_ino d o =? 0) then mret (inr (new_slots, Slot_free o)) else
    mret (inl new_slots)) new_slots (seqZ 0 NR_DIR_ENTRIES).

(** [LOOK_UP], [DELETE] or [IS_EMPTY] found what it wanted. *)
Definition slot_found (ldir bp o numb flag : Z) : PF (Z * Z) :=
  d ← bget b_data bp;
  x ← (if flag =? IS_EMPTY then mret (ENOTEMPTY, numb)
       else if flag =? DELETE then
         bset bp (λ b, b <| b_data := set16 o 0 (set16 (o + 2 + (NAME_MAX - 2)) (entry_ino d o) d) |>
                         <| b_dirt := true |>);;
         iset ldir (λ r, r <| i_update := Z.lor (i_update r) (Z.lor CTIME MTIME) |> <| i_dirt := true |>);;
         mret (OK, numb)
       else
         sp ← iget i_sp ldir;
         native ← sget s_native sp;
         mret (OK, conv2 native (s16 (entry_ino d o))));
  put_block bp DIRECTORY_BLOCK;;
  mret x.

(** Step through the directory: the answer ([inl]), or [new_slots] with the
    block and the slot found for [ENTER], if any. *)
Definition scan_dir (ldir : Z) (string : cname) (numb flag old_slots : Z)
    : PF (Z * Z + Z * option (Z * Z)) :=
  dir ← iget id ldir;
  loop (Z.to_nat (i_size dir / BLOCK_SIZE + 2)) (λ '(pos, new_slots),
    if i_size dir <=? pos then mret (inr (inr (new_slots, None))) else
    b ← read_map ldir pos;
    bp ← get_block (i_dev dir) b NORMAL;
    x ← scan_block bp string flag old_slots new_slots;
    let next n := put_block bp DIRECTORY_BLOCK;; mret (inl (u32 (pos + BLOCK_SIZE), n)) in
    match x with
    | inl n => next n
    | inr (n, Slot_match o) => x ← slot_found ldir bp o numb flag; mret (inr (inl x))
    | inr (n, Slot_free o) => mret (inr (inr (n, Some (bp, o))))
    | inr (n, Slot_end o) => if flag =? ENTER then mret (inr (inr (n, Some (bp, o)))) else next n
    end) (0, 0).

(** [ENTER]: fill the slot, after the directory has been extended if need be. *)
Definition enter_slot (ldir : Z) (string : cname) (numb old_slots new_slots : Z) (slot : option (Z * Z)) : PF Z :=
  let extended := match slot with None => true | Some _ => false end in
  let new_slots := if extended then u16 (new_slots + 1) else new_slots in
  if extended && (new_slots =? 0) then mret EFBIG else
  '(bp, o) ← (match slot with
              | Some x => mret x
              | None => size ← iget i_size ldir; bp ← new_block ldir size; mret (bp, 0)
              end);
  if bp =? NIL then gets err_code else
  sp ← iget i_sp ldir;
  native ← sget s_native sp;
  let name := take (Z.to_nat NAME_MAX) (chars string) in
  bset bp (λ b, b <| b_data :=
      set16 o (conv2 native (s16 numb)) (store (o + 2) name (store (o + 2) (replicate (Z.to_nat NAME_MAX) 0) (b_data b))) |>
                  <| b_dirt := true |>);;
  put_block bp DIRECTORY_BLOCK;;
  iset ldir (λ r, r <| i_update := Z.lor (i_update r) (Z.lor CTIME MTIME) |> <| i_dirt := true |>);;
  when (old_slots <? new_slots)
    (iset ldir (λ r, r <| i_size := u32 (new_slots * DIR_ENTRY_SIZE) |>);;
     when extended (rw_inode ldir WRITING));;
  mret OK.

(** The result, and the inode number for [LOOK_UP]. *)
Definition search_dir (ldir : Z) (string : cname) (numb flag : Z) : PF (Z * Z) :=
  dir ← iget id ldir;
  if negb (Z.land (i_mode dir) I_TYPE =? I_DIRECTORY) then mret (ENOTDIR, numb) else
  let bits := if flag =? LOOK_UP then X_BIT else Z.lor W_BIT X_BIT in
  r ← (if flag =? IS_EMPTY then mret OK
       else if is_dots string then if flag =? LOOK_UP then mret OK else read_only ldir
       else forbidden ldir bits);
  if negb (r =? OK) then mret (r, numb) else
  dir ← iget id ldir;
  let old_slots := u16 (i_size dir / DIR_ENTRY_SIZE) in
  x ← scan_dir ldir string numb flag old_slots;
  match x with
  | inl x => mret x
  | inr (new_slots, slot) =>
      if negb (flag =? ENTER) then mret (if flag =? IS_EMPTY then OK else ENOENT, numb) else
      r ← enter_slot ldir string numb old_slots new_slots slot;
      mret (r, numb)
  end.

(** ** path.c: [slink_traverse] *)

(** [*q]: the name is an array of [NAME_MAX] characters, ended by a null
    character when it is shorter. *)
Definition name_at (string : list Z) (q : Z) : PF Z :=
  if in_tab NAME_MAX q then mret (nth (Z.to_nat q) string 0) else fault.

(** [while ( *p != '\0') { ++p; if ( *p == '/') break; }] *)
Definition skip_component (p : Z) : PF Z :=
  loop (Z.to_nat (PATH_MAX + 2)) (λ p,
    c ← path_at p;
    if c =? 0 then mret (inr p) else
    c ← path_at (p + 1);
    mret (if c =? SLASH then inr (p + 1) else inl (p + 1))) p.

(** The inner loop: compare the characters after the first one. *)
Definition match_rest (string : list Z) (old_path p q : Z) : PF (Z * Z) :=
  loop patience (λ '(p, q),
    cq ← name_at string q;
    if cq =? 0 then mret (inr (p, q)) else
    cq ← name_at string (q + 1);
    if cq =? 0 then mret (inr (p + 1, q + 1)) else
    cp ← path_at (p + 1);
    if cp =? cq then mret (inl (p + 1, q + 1)) else
    p ← skip_component old_path;
    cp ← path_at p;
    if cp =? 0 then mret (inr (p, q + 1)) else mret (inl (p, 0))) (p, q).

(** [while ( *q == '/') q++;] *)
Definition skip_name_slashes (string : list Z) (q : Z) : PF Z :=
  loop (Z.to_nat (NAME_MAX + 1)) (λ q,
    c ← name_at string q; mret (if c =? SLASH then inl (q + 1) else inr q)) q.

(** Where [string] ends in the path. *)
Definition find_string (string : list Z) (path : Z) : PF Z :=
  loop patience (λ '(p, q),
    cq ← name_at string q;
    if cq =? 0 then mret (inr p) else
    p ← skip_slashes p;
    q ← skip_name_slashes string q;
    cp ← path_at p;
    cq ← name_at string q;
    if cp =? cq then x ← match_rest string p p q; mret (inl x) else
    p ← skip_component p;
    cp ← path_at p;
    if cp =? 0 then mret (inr p) else mret (inl (p, q))) (path, 0).

(** The characters of the path from [p] to the null character. *)
Definition path_rest (p : Z) : PF (list Z) :=
  '(_, l) ← loop (Z.to_nat (PATH_MAX + 2)) (λ '(p, l),
    c ← path_at p; mret (if c =? 0 then inr (p, l) else inl (p + 1, l ++ [c]))) (p, []);
  mret l.

(** The text of a symbolic link: [temp], which holds [PATH_MAX] bytes. *)
Definition link_text (rip : Z) : PF (list Z) :=
  b ← read_map rip 0;
  r ← iget id rip;
  bp ← get_block (i_dev r) b NORMAL;
  d ← bget b_data bp;
  if PATH_MAX <=? i_size r then fault else
  put_block bp NORMAL;;
  mret (upto_nul (load d 0 (i_size r))).

Definition slink_traverse (rip path : Z) (string : list Z) (ldip : Z) : PF Z :=
  temp ← link_text rip;
  p ← find_string string path;
  rest ← path_rest p;
  let temp := temp ++ rest in
  if PATH_MAX <=? Z.of_nat (length temp) then fault else
  if PATH_MAX <=? path + Z.of_nat (length temp) then fault else
  modify (λ s, s <| user_path := store path (temp ++ [0]) (user_path s) |>);;
  put_inode rip;;
  c ← path_at path;
  dir ← (if c =? SLASH then cget fp_rootdir else mret ldip);
  dup_inode dir;;
  mret dir.

(** ** path.c: [advance], [last_dir] and [eat_path] *)
Definition is_slink (rip : Z) : PF bool :=
  mo ← iget i_mode rip; mret (Z.land mo I_TYPE =? I_SYMBOLIC_LINK).

(** Cross from inodes mounted on to the roots of the mounted file systems. *)
Definition cross_mounts (rip : Z) : PF Z :=
  loop (Z.to_nat (NR_SUPERS + 1)) (λ rip,
    if rip =? NIL then mret (inr rip) else
    m ← iget i_mount rip;
    if negb m then mret (inr rip) else
    x ← first_of all_supers (λ s sp, s_imount (super_of s sp) =? rip);
    match x with
    | None => mret (inl rip)
    | Some sp => put_inode rip;; dev ← sget s_dev sp; rip ← get_inode dev ROOT_INODE; mret (inl rip)
    end) rip.

(** [fuel] bounds the nesting of the mounted file systems. *)
Fixpoint advance_n (fuel : nat) (dirp : Z) (string : cname) : PF Z :=
  match fuel with O => no_fuel | S fuel =>
    match chars string with
    | [] => d ← iget id dirp; get_inode (i_dev d) (s16 (i_num d))
    | _ =>
        if dirp =? NIL then mret NIL else
        '(r, numb) ← search_dir dirp string 0 LOOK_UP;
        if negb (r =? OK) then set_err r;; mret NIL else
        d ← iget id dirp;
        root ← cget fp_rootdir;
        if (dirp =? root) && name_eqb (chars string) [DOT; DOT] && negb (is_dots string) then
          get_inode (i_dev d) (s16 (i_num d))
        else
        rip ← get_inode (i_dev d) (s16 numb);
        if rip =? NIL then mret NIL else
        r ← iget id rip;
        sp ← (if (i_num r =? ROOT_INODE) && (i_num d =? ROOT_INODE) && (nth 1 (chars string) 0 =? DOT)
              then first_of (seqZ 1 (NR_SUPERS - 1)) (λ s sp, s_dev (super_of s sp) =? i_dev r)
              else mret None);
        rip ← (match sp with
               | None => mret rip
               | Some sp =>
                   put_inode rip;;
                   mnt ← sget s_imount sp;
                   m ← iget id mnt;
                   rip2 ← get_inode (i_dev m) (s16 (i_num m));
                   rip ← advance_n fuel rip2 string;
                   put_inode rip2;;
                   mret rip
               end);
        cross_mounts rip
    end
  end.
Definition advance : Z → cname → PF Z := advance_n (Z.to_nat (NR_SUPERS + 1)).

(** The inode of the last directory, or [NIL], and the final component. *)
Definition last_dir (path : Z) : PF (Z * list Z) :=
  c ← path_at path;
  rip ← cget (if c =? SLASH then fp_rootdir else fp_workdir);
  n ← iget i_nlinks rip;
  if (n =? 0) || (c =? 0) then set_err ENOENT;; mret (NIL, junk) else
  dup_inode rip;;
  loop (Z.to_nat (10 * (PATH_MAX + 1))) (λ '(rip, path, loops),
    '(new_name, string) ← get_name path;
    if new_name =? NIL then put_inode rip;; mret (inr (NIL, string)) else
    c ← path_at new_name;
    if c =? 0 then
      mo ← iget i_mode rip;
      if Z.land mo I_TYPE =? I_DIRECTORY then mret (inr (rip, string))
      else put_inode rip;; set_err ENOTDIR;; mret (inr (NIL, string))
    else
    new_ip ← advance rip (Str string);
    if new_ip =? NIL then put_inode rip;; mret (inr (NIL, string)) else
    slink ← is_slink new_ip;
    if (slink : bool) && (8 <? loops + 1) then
      set_err ELOOP;; put_inode rip;; put_inode new_ip;; mret (inr (NIL, string))
    else if slink : bool then
      new_ip ← slink_traverse new_ip path string rip;
      put_inode rip;;
      mret (inl (new_ip, path, loops + 1))
    else
      put_inode rip;;
      mret (inl (new_ip, new_name, loops))) (rip, path, 0).

Definition set_workdir (rip : Z) : PF unit := cset (λ p, p <| fp_workdir := rip |>).

Definition eat_path (path : Z) : PF Z :=
  old_workdir_ip ← cget fp_workdir;
  loop 10 (λ loops,
    '(ldip, string) ← last_dir path;
    if ldip =? NIL then set_workdir old_workdir_ip;; mret (inr NIL) else
    if name_eqb string [] then mret (inr ldip) else
    rip ← advance ldip (Str string);
    slink ← (if rip =? NIL then mret false else is_slink rip);
    if negb slink then put_inode ldip;; set_workdir old_workdir_ip;; mret (inr rip) else
    if 8 <? loops + 1 then
      put_inode rip;; put_inode ldip;; set_workdir old_workdir_ip;; set_err ELOOP;; mret (inr NIL)
    else
    rip ← slink_traverse rip path string ldip;
    set_workdir rip;;
    put_inode rip;;
    put_inode ldip;;
    mret (inl (loops + 1))) 0.
End path.
