(* ===== verification/Fcalls.v ===== *)
(** * System calls on names: protection, status, times and links

    fs/protect.c, time.c, stadir.c and link.c, with [fetch_name] and [no_sys]
    of utility.c. *)

From S2P Require Import Prelude Fstate Fdev Cache Super Inode Filedes Rdwr Path.

Definition SAME : Z := 1000.
(** The modes of [access] *)
Definition F_OK : Z := 0.
Definition RWX_OK : Z := 7.

Section calls.
Context `{World}.

(** ** utility.c *)
Definition no_sys : PF Z := mret EINVAL.

(** [m3] tells whether the name may be in the message. *)
Definition fetch_name (addr len : Z) (m3 : bool) : PF Z :=
  if len <=? 0 then set_err EINVAL;; mret EGENERIC else
  if PATH_MAX <? len then set_err ENAMETOOLONG;; mret EGENERIC else
  if m3 && (len <=? M3_STRING) then
    mm ← gets fs_m;
    modify (λ s, s <| user_path := store 0 (map (m3_ca1 mm) (seqZ 0 len)) (user_path s) |>);;
    mret OK
  else
    who ← gets fs_who;
    a ← ask (CopyFrom who 1 addr len);
    let l := match a_data a with (_, l) :: _ => take (Z.to_nat len) l | [] => [] end in
    modify (λ s, s <| user_path := store 0 l (user_path s) |>);;
    mret (a_res a).

(** [name] and [name1], [name2] *)
Definition fetch_m3 : PF Z := mm ← gets fs_m; fetch_name (m3_p1 mm) (m3_i1 mm) true.
Definition fetch_name1 : PF Z := mm ← gets fs_m; fetch_name (m1_p1 mm) (m1_i1 mm) false.
Definition fetch_name2 : PF Z := mm ← gets fs_m; fetch_name (m1_p2 mm) (m1_i2 mm) false.

(** [if (fetch_name(...) != OK) return(err_code);
     if ((rip = eat_path(user_path)) == NIL_INODE) return(err_code);] *)
Definition with_path (fetch : PF Z) (k : Z → PF Z) : PF Z :=
  r ← fetch;
  if negb (r =? OK) then gets err_code else
  rip ← eat_path 0;
  if rip =? NIL then gets err_code else k rip.

(** The same with [last_dir] *)
Definition with_dir (fetch : PF Z) (k : Z → list Z → PF Z) : PF Z :=
  r ← fetch;
  if negb (r =? OK) then gets err_code else
  '(ip, string) ← last_dir 0;
  if ip =? NIL then gets err_code else k ip string.

(** ** protect.c *)
Definition do_chmod : PF Z :=
  with_path fetch_m3 (λ rip,
    ino ← iget id rip;
    uid ← cget fp_effuid;
    gid ← cget fp_effgid;
    su ← gets super_user;
    r ← (if negb (i_uid ino =? uid) && negb su then mret EPERM else read_only rip);
    if negb (r =? OK) then put_inode rip;; mret r else
    mode ← mm_get m3_i2;
    iset rip (λ x, x <| i_mode := Z.lor (clrf (i_mode x) ALL_MODES) (Z.land mode ALL_MODES) |>);;
    when (negb su && negb (i_gid ino =? gid))
      (iset rip (λ x, x <| i_mode := clrf (i_mode x) I_SET_GID_BIT |>));;
    iset rip (λ x, x <| i_update := Z.lor (i_update x) CTIME |> <| i_dirt := true |>);;
    put_inode rip;;
    mret OK).

Definition do_chown : PF Z :=
  with_path fetch_name1 (λ rip,
    r ← read_only rip;
    ino ← iget id rip;
    uid ← cget fp_effuid;
    gid ← cget fp_effgid;
    su ← gets super_user;
    owner ← mm_get m1_i2;
    group ← mm_get m1_i3;
    let allowed := su || ((i_uid ino =? uid) && (i_uid ino =? owner) && (gid =? group)) in
    let r := if negb (r =? OK) then r else if allowed then OK else EPERM in
    when (r =? OK)
      (when su (iset rip (λ x, x <| i_uid := owner |>));;
       iset rip (λ x, x <| i_gid := s8 group |>
                        <| i_mode := clrf (i_mode x) (Z.lor I_SET_UID_BIT I_SET_GID_BIT) |>
                        <| i_update := Z.lor (i_update x) CTIME |> <| i_dirt := true |>));;
    put_inode rip;;
    mret r).

Definition do_umask : PF Z :=
  old ← cget fp_umask;
  co_mode ← mm_get m1_i1;
  cset (λ p, p <| fp_umask := u16 (Z.lnot (Z.land co_mode RWX_MODES)) |>);;
  mret (s16 (u16 (Z.lnot old))).

Definition do_access : PF Z :=
  mode ← mm_get m3_i2;
  if negb (Z.land mode (Z.lnot RWX_OK) =? 0) && negb (mode =? F_OK) then mret EINVAL else
  with_path fetch_m3 (λ rip,
    r ← forbidden rip (u16 mode);
    put_inode rip;;
    mret r).

(** ** time.c *)
Definition do_utime : PF Z :=
  len ← mm_get m2_i1;
  len2 ← mm_get m2_i2;
  file ← mm_get m2_p1;
  with_path (fetch_name file (if len =? 0 then len2 else len) false) (λ rip,
    ino ← iget id rip;
    uid ← cget fp_effuid;
    su ← gets super_user;
    let r := if negb (i_uid ino =? uid) && negb su then EPERM else OK in
    r ← (if (len =? 0) && negb (r =? OK) then forbidden rip W_BIT else mret r);
    ro ← read_only rip;
    let r := if negb (ro =? OK) then EROFS else r in
    when (r =? OK)
      (if len =? 0 then
         now ← clock_time;
         iset rip (λ x, x <| i_atime := now |> <| i_mtime := now |> <| i_update := CTIME |> <| i_dirt := true |>)
       else
         atime ← mm_get m2_l1;
         mtime ← mm_get m2_l2;
         iset rip (λ x, x <| i_atime := atime |> <| i_mtime := mtime |> <| i_update := CTIME |> <| i_dirt := true |>));;
    put_inode rip;;
    mret r).

Definition do_time : PF Z :=
  now ← clock_time;
  modify (λ s, s <| fs_m1 := put32 3 now (fs_m1 s) |>);;
  mret OK.

Definition do_stime : PF Z :=
  su ← gets super_user;
  if negb su then mret EPERM else
  tp ← mm_get m2_l1;
  a ← ask (Sendrec CLOCK (put32 3 tp (Message 0 SET_TIME (λ _, 0))) NoMem);
  if negb (a_res a =? OK) then panic "do_stime error" (a_res a) else mret OK.

(** [reply_t1] to [reply_t5] *)
Definition do_tims : PF Z :=
  who ← gets fs_who;
  a ← ask (SysTimes who);
  let t i := word32 (m_w (a_msg a)) (2 * i) in
  modify (λ s, s <| fs_m1 := put32 8 (t 4) (put32 6 (t 3) (put32 4 (t 2) (put32 2 (t 1) (put32 0 (t 0) (fs_m1 s))))) |>);;
  mret OK.

(** ** stadir.c *)
Definition change (root : bool) : PF Z :=
  with_path fetch_m3 (λ rip,
    mo ← iget i_mode rip;
    r ← (if negb (Z.land mo I_TYPE =? I_DIRECTORY) then mret ENOTDIR else forbidden rip X_BIT);
    if negb (r =? OK) then put_inode rip;; mret r else
    old ← cget (if root then fp_rootdir else fp_workdir);
    put_inode old;;
    cset (λ p, if root then p <| fp_rootdir := rip |> else p <| fp_workdir := rip |>);;
    mret OK).

Definition do_chdir : PF Z :=
  who ← gets fs_who;
  if who =? MM_PROC_NR then
    slot ← mm_get m1_i1;
    rfp ← pget id slot;
    old ← cget fp_rootdir;
    put_inode old;;
    cset (λ p, p <| fp_rootdir := fp_rootdir rfp |>);;
    dup_inode (fp_rootdir rfp);;
    old ← cget fp_workdir;
    put_inode old;;
    cset (λ p, p <| fp_workdir := fp_workdir rfp |>);;
    dup_inode (fp_workdir rfp);;
    cset (λ p, p <| fp_effuid := fp_effuid rfp |> <| fp_realuid := fp_effuid rfp |>
                 <| fp_effgid := fp_effgid rfp |> <| fp_realgid := fp_effgid rfp |>
                 <| fp_umask := fp_umask rfp |>);;
    mret OK
  else change false.

Definition do_chroot : PF Z :=
  su ← gets super_user;
  if negb su then mret EPERM else change true.

(** [struct stat], 30 bytes on this machine *)
Definition stat_bytes (r : inode) (mode rdev size : Z) : list Z :=
  load (set16 0 (i_dev r) (set16 2 (i_num r) (set16 4 mode (set16 6 (Z.land (i_nlinks r) BYTE)
    (set16 8 (i_uid r) (set16 10 (Z.land (i_gid r) BYTE) (set16 12 rdev (set32 14 size
    (set32 18 (i_atime r) (set32 22 (i_mtime r) (set32 26 (i_ctime r) (λ _, 0)))))))))))) 0 30.

Definition stat_inode (rip fil_ptr user_addr : Z) : PF Z :=
  u ← iget i_update rip;
  when (negb (u =? 0)) (update_times rip);;
  r ← iget id rip;
  let mo := Z.land (i_mode r) I_TYPE in
  let special := (mo =? I_CHAR_SPECIAL) || (mo =? I_BLOCK_SPECIAL) in
  let rdev := if special then s16 (i_zone r 0) else NO_DEV in
  let mode := if i_pipe r then clrf (i_mode r) I_REGULAR else i_mode r in
  size ← (if i_pipe r && negb (fil_ptr =? NIL) then
            x ← fget id fil_ptr;
            mret (if has (filp_mode x) R_BIT then u32 (i_size r - filp_pos x) else i_size r)
          else mret (i_size r));
  who ← gets fs_who;
  a ← ask (CopyTo who 1 user_addr (stat_bytes r mode rdev size));
  mret (a_res a).

Definition do_stat : PF Z :=
  with_path fetch_name1 (λ rip,
    name2 ← mm_get m1_p2;
    r ← stat_inode rip NIL name2;
    put_inode rip;;
    mret r).

Definition do_fstat : PF Z :=
  fd ← mm_get m1_i1;
  f ← get_filp fd;
  if f =? NIL then gets err_code else
  rip ← fget filp_ino f;
  buff ← mm_get m1_p1;
  stat_inode rip f buff.

(** The final component, not followed when it is a symbolic link. *)
Definition with_node (k : Z → PF Z) : PF Z :=
  with_dir fetch_name1 (λ ldip string,
    rip ← advance ldip (Str string);
    put_inode ldip;;
    if rip =? NIL then gets err_code else
    r ← k rip;
    put_inode rip;;
    mret r).

Definition do_lstat : PF Z :=
  with_node (λ rip, name2 ← mm_get m1_p2; stat_inode rip NIL name2).

(** A copy of more bytes than a block holds takes those of the memory after it,
    which is a fault here; a negative length is refused by the kernel. *)
Definition do_rdlink : PF Z :=
  with_node (λ rip,
    slink ← is_slink rip;
    if negb slink then mret EINVAL else
    r ← iget id rip;
    bufsiz ← mm_get m1_i2;
    name2 ← mm_get m1_p2;
    who ← gets fs_who;
    let len := s16 (if i_size r <? u32 bufsiz then i_size r else bufsiz) in
    b ← read_map rip 0;
    bp ← get_block (i_dev r) b NORMAL;
    d ← bget b_data bp;
    if BLOCK_SIZE <? len then fault else
    ask (CopyTo who 1 name2 (load d 0 len));;
    put_block bp NORMAL;;
    mret (s16 (i_size r))).

(** ** link.c *)
Definition unlink_file (dirp rip : Z) (file_name : cname) : PF Z :=
  rip ← (if rip =? NIL then
           '(r, numb) ← search_dir dirp file_name 0 LOOK_UP;
           set_err r;;
           if r =? OK then d ← iget i_dev dirp; get_inode d (s16 numb) else mret NIL
         else dup_inode rip;; mret rip);
  if rip =? NIL then gets err_code else
  '(r, _) ← search_dir dirp file_name 0 DELETE;
  when (r =? OK)
    (iset rip (λ x, x <| i_nlinks := s8 (i_nlinks x - 1) |> <| i_update := Z.lor (i_update x) CTIME |>
                      <| i_dirt := true |>));;
  put_inode rip;;
  mret r.

(** Whether some user process has [rip] as its working or root directory. *)
Definition dir_in_use (rip : Z) : PF bool :=
  x ← first_of (seqZ (INIT_PROC_NR + 1) (NR_PROCS - (INIT_PROC_NR + 1)))
        (λ s p, (fp_workdir (fproc_of s p) =? rip) || (fp_rootdir (fproc_of s p) =? rip));
  mret (match x with Some _ => true | None => false end).

Definition is_dot_name (l : list Z) : bool := name_eqb l [DOT] || name_eqb l [DOT; DOT].

Definition remove_dir (rldirp rip : Z) (dir_name : list Z) : PF Z :=
  '(r, _) ← search_dir rip (Str []) 0 IS_EMPTY;
  if negb (r =? OK) then mret r else
  if is_dot_name dir_name then mret EINVAL else
  n ← iget i_num rip;
  if n =? ROOT_INODE then mret EBUSY else
  busy ← dir_in_use rip;
  if busy : bool then mret EBUSY else
  r ← unlink_file rldirp rip (Str dir_name);
  if negb (r =? OK) then mret r else
  unlink_file rip NIL Dot1;;
  unlink_file rip NIL Dot2;;
  mret OK.

(** Whether [string] is free in [ip] (OK), or the error. *)
Definition name_free (ip : Z) (string : list Z) : PF Z :=
  new_ip ← advance ip (Str string);
  if new_ip =? NIL then r ← gets err_code; mret (if r =? ENOENT then OK else r)
  else put_inode new_ip;; mret EEXIST.

Definition do_link : PF Z :=
  with_path fetch_name1 (λ rip,
    ino ← iget id rip;
    su ← gets super_user;
    let r := if LINK_MAX <=? Z.land (i_nlinks ino) BYTE then EMLINK
             else if (Z.land (i_mode ino) I_TYPE =? I_DIRECTORY) && negb su then EPERM else OK in
    if negb (r =? OK) then put_inode rip;; mret r else
    f ← fetch_name2;
    if negb (f =? OK) then put_inode rip;; gets err_code else
    '(ip, string) ← last_dir 0;
    r ← (if ip =? NIL then gets err_code else mret OK);
    r ← (if r =? OK then name_free ip string else mret r);
    r ← (if r =? OK then
           d ← iget i_dev rip; d' ← iget i_dev ip; mret (if d =? d' then OK else EXDEV)
         else mret r);
    r ← (if r =? OK then
           n ← iget i_num rip; '(r, _) ← search_dir ip (Str string) n ENTER; mret r
         else mret r);
    when (r =? OK)
      (iset rip (λ x, x <| i_nlinks := s8 (i_nlinks x + 1) |> <| i_update := Z.lor (i_update x) CTIME |>
                        <| i_dirt := true |>));;
    put_inode rip;;
    put_inode ip;;
    mret r).

Definition do_unlink : PF Z :=
  with_dir fetch_m3 (λ rldirp string,
    rip ← advance rldirp (Str string);
    r ← (if rip =? NIL then gets err_code else mret OK);
    if negb (r =? OK) then put_inode rldirp;; mret r else
    ino ← iget id rip;
    if i_num ino =? ROOT_INODE then put_inode rldirp;; put_inode rip;; mret EBUSY else
    call ← gets fs_call;
    su ← gets super_user;
    r ← (if call =? UNLINK then
           if (Z.land (i_mode ino) I_TYPE =? I_DIRECTORY) && negb su then mret EPERM
           else unlink_file rldirp rip (Str string)
         else remove_dir rldirp rip string);
    put_inode rip;;
    put_inode rldirp;;
    mret r).

(** *** [do_rename] *)

(** The old inode must not be a superdirectory of the new last directory. *)
Definition not_superdir (old_ip new_dirp : Z) : PF bool :=
  dup_inode new_dirp;;
  loop patience (λ new_superdirp,
    if new_superdirp =? old_ip then put_inode new_superdirp;; mret (inr false) else
    next ← advance new_superdirp Dot2;
    put_inode new_superdirp;;
    if next =? new_superdirp then put_inode new_superdirp;; mret (inr true) else
    if next =? NIL then put_inode NIL;; mret (inr false) else
    mret (inl next)) new_dirp.

(** The errors of the rename, the last one found first. *)
Definition rename_check (old_dirp old_ip new_dirp new_ip : Z) (old_name new_name : list Z) : PF Z :=
  oi ← iget id old_ip;
  od ← iget id old_dirp;
  let odir := Z.land (i_mode oi) I_TYPE =? I_DIRECTORY in
  let same_pdir := old_dirp =? new_dirp in
  ok ← (if odir && negb same_pdir then not_superdir old_ip new_dirp else mret true);
  let r := if (ok : bool) then OK else EINVAL in
  let r := if is_dot_name old_name || is_dot_name new_name then EINVAL else r in
  nd ← iget id new_dirp;
  let r := if i_dev od =? i_dev nd then r else EXDEV in
  r1 ← forbidden old_dirp (Z.lor W_BIT X_BIT);
  r1 ← (if r1 =? OK then forbidden new_dirp (Z.lor W_BIT X_BIT) else mret r1);
  let r := if r1 =? OK then r else r1 in
  if new_ip =? NIL then
    let r := if i_dev oi =? i_dev od then r else EXDEV in
    mret (if odir && (LINK_MAX <=? Z.land (i_nlinks nd) BYTE) && negb same_pdir && (r =? OK) then EMLINK else r)
  else
    ni ← iget id new_ip;
    let r := if old_ip =? new_ip then SAME else r in
    let r := if i_dev oi =? i_dev ni then r else EXDEV in
    let ndir := Z.land (i_mode ni) I_TYPE =? I_DIRECTORY in
    let r := if odir && negb ndir then ENOTDIR else r in
    mret (if negb odir && ndir then EISDIR else r).

(** Remove the new name, then move the entry. *)
Definition rename_move (old_dirp old_ip new_dirp new_ip : Z) (old_name new_name : list Z) : PF Z :=
  oi ← iget id old_ip;
  let odir := Z.land (i_mode oi) I_TYPE =? I_DIRECTORY in
  let same_pdir := old_dirp =? new_dirp in
  r ← (if new_ip =? NIL then mret OK
       else if odir then remove_dir new_dirp new_ip new_name
       else unlink_file new_dirp new_ip (Str new_name));
  if negb (r =? OK) then mret r else
  numb ← iget i_num old_ip;
  r ← (if same_pdir then
         '(r, _) ← search_dir old_dirp (Str old_name) 0 DELETE;
         (if r =? OK then search_dir old_dirp (Str new_name) numb ENTER;; mret tt else mret tt);;
         mret r
       else
         '(r, _) ← search_dir new_dirp (Str new_name) numb ENTER;
         (if r =? OK then search_dir old_dirp (Str old_name) 0 DELETE;; mret tt else mret tt);;
         mret r);
  when ((r =? OK) && odir && negb same_pdir)
    (numb ← iget i_num new_dirp;
     unlink_file old_ip NIL Dot2;;
     '(r, _) ← search_dir old_ip Dot2 numb ENTER;
     when (r =? OK)
       (iset new_dirp (λ x, x <| i_nlinks := s8 (i_nlinks x + 1) |> <| i_dirt := true |>)));;
  mret r.

Definition do_rename : PF Z :=
  with_dir fetch_name1 (λ old_dirp old_name,
    old_ip ← advance old_dirp (Str old_name);
    r ← (if old_ip =? NIL then gets err_code else mret OK);
    f ← fetch_name2;
    r ← (if f =? OK then mret r else gets err_code);
    '(new_dirp, new_name) ← last_dir 0;
    r ← (if new_dirp =? NIL then gets err_code else mret r);
    new_ip ← advance new_dirp (Str new_name);
    r ← (if r =? OK then rename_check old_dirp old_ip new_dirp new_ip old_name new_name else mret r);
    r ← (if r =? OK then rename_move old_dirp old_ip new_dirp new_ip old_name new_name else mret r);
    put_inode old_dirp;;
    put_inode old_ip;;
    put_inode new_dirp;;
    put_inode new_ip;;
    mret (if r =? SAME then OK else r)).
End calls.
