(* ===== verification/Fopen.v ===== *)
(** * Opening, creating and closing files

    fs/open.c, [do_pipe] of pipe.c, [do_sync] of misc.c, and the routines of
    device.c that open and close devices, which the device table names. *)

From S2P Require Import Prelude Fstate Fdev Cache Super Inode Filedes Rdwr Path Fcalls.

Section fopen.
Context `{World}.

(** ** device.c *)
Definition dev_opcl (task_nr : Z) (mess : message) : PF message :=
  p ← gets fp;
  let op := m_type mess in
  let mess := put16 1 p (put16 0 (minor_of (m2_i1 mess)) mess) in
  '(mess, _) ← call_task task_nr mess NoMem;
  when (REP_STATUS mess =? SUSPEND) (suspend (if op =? DEV_OPEN then XPOPEN else task_nr));;
  mret mess.

Definition tty_open (mess : message) : PF message :=
  let dev := m2_i1 mess in
  let flags := m2_i3 mess in
  p ← gets fp;
  r ← pget id p;
  others ← gets (λ s, existsb (λ q, fp_tty (fproc_of s q) =? dev) (seqZ LOW_USER (NR_PROCS - LOW_USER)));
  let flags := if negb (fp_sesldr r) || negb (fp_tty r =? 0) || others then Z.lor flags O_NOCTTY else flags in
  mode ← mm_get m3_i2;
  '(r, _) ← dev_io DEV_OPEN mode dev 0 flags p 0 NoMem;
  when (r =? 1) (cset (λ x, x <| fp_tty := dev |>));;
  mret (set_REP_STATUS (if r =? 1 then OK else r) mess).

Definition ctty_open (mess : message) : PF message :=
  tty ← cget fp_tty;
  mret (set_REP_STATUS (if tty =? 0 then ENXIO else OK) mess).

Definition ctty_close (mess : message) : PF message := mret (set_REP_STATUS OK mess).

Definition net_open (mess : message) : PF message :=
  fd ← mm_get m1_i1;
  p ← gets fp;
  f ← get_desc p fd;
  rip ← fget filp_ino f;
  d ← iget i_dev rip;
  nrip ← alloc_inode d (Z.lor ALL_MODES I_CHAR_SPECIAL);
  if nrip =? NIL then e ← gets err_code; mret (set_REP_STATUS e mess) else
  mode ← mm_get m3_i2;
  '(result, _) ← dev_io DEV_OPEN mode (m2_i1 mess) 0 (m2_i3 mess) p 0 NoMem;
  if result <? 0 then put_inode nrip;; mret (set_REP_STATUS result mess) else
  z ← get_zone rip 0;
  set_zone nrip 0 (s16 (Z.lor (Z.land (s16 z) (Z.lnot BYTE)) (Z.land result BYTE)));;
  put_inode rip;;
  f ← get_desc p fd;
  fset f (λ x, x <| filp_ino := nrip |>);;
  mret (set_REP_STATUS OK mess).

(** [( *dmap[major].dmap_open)(task, &dev_mess)] and [dmap_close] *)
Definition dmap_open_call (major : Z) (mess : message) : PF message :=
  d ← dmap_at major;
  match dmap_open d with
  | Dev_opcl => dev_opcl (dmap_task d) mess
  | Tty_open => tty_open mess
  | Ctty_open => ctty_open mess
  | Net_open => net_open mess
  | _ => '(mess, _) ← no_dev mess; mret mess
  end.
Definition dmap_close_call (major : Z) (mess : message) : PF message :=
  d ← dmap_at major;
  match dmap_close d with
  | Dev_opcl => dev_opcl (dmap_task d) mess
  | Ctty_close => ctty_close mess
  | _ => '(mess, _) ← no_dev mess; mret mess
  end.

(** Open and close a device: a DEV_OPEN and a DEV_CLOSE message. *)
Definition open_dev (dev count : Z) : PF Z :=
  mess ← dmap_open_call (major_of dev) (dev_message DEV_OPEN dev 0 count 0 0 0);
  mret (REP_STATUS mess).
Definition close_dev (dev : Z) : PF unit :=
  dmap_close_call (major_of dev) (dev_message DEV_CLOSE dev 0 0 0 0 0);;
  mret tt.

(** ** open.c: [new_node] *)

(** The last directory, its entry ([NIL] when there is none) and the final
    component, symbolic links followed: [None] is an error. *)
Definition node_path (path old_workdir : Z) : PF (option (Z * Z * list Z)) :=
  loop 10 (λ loops,
    '(ldir, string) ← last_dir path;
    if ldir =? NIL then set_workdir old_workdir;; mret (inr None) else
    rip ← advance ldir (Str string);
    slink ← (if rip =? NIL then mret false else is_slink rip);
    if negb slink then mret (inr (Some (ldir, rip, string))) else
    if 8 <? loops + 1 then
      set_workdir old_workdir;; put_inode ldir;; set_err ELOOP;; mret (inr None)
    else
    rip ← slink_traverse rip path string ldir;
    put_inode ldir;;
    set_workdir rip;;
    mret (inl (loops + 1))) 0.

(** The new inode and its directory entry. *)
Definition make_node (ldir : Z) (string : list Z) (bits z0 : Z) : PF Z :=
  d ← iget i_dev ldir;
  rip ← alloc_inode d bits;
  if rip =? NIL then put_inode ldir;; mret NIL else
  iset rip (λ x, x <| i_nlinks := s8 (i_nlinks x + 1) |>);;
  set_zone rip 0 z0;;
  rw_inode rip WRITING;;
  numb ← iget i_num rip;
  '(r, _) ← search_dir ldir (Str string) numb ENTER;
  if negb (r =? OK) then
    put_inode ldir;;
    iset rip (λ x, x <| i_nlinks := s8 (i_nlinks x - 1) |> <| i_dirt := true |>);;
    put_inode rip;;
    set_err r;;
    mret NIL
  else
    put_inode ldir;;
    set_err OK;;
    mret rip.

Definition new_node (path bits z0 : Z) : PF Z :=
  old_workdir ← cget fp_workdir;
  x ← node_path path old_workdir;
  match x with
  | None => mret NIL
  | Some (ldir, rip, string) =>
      e ← gets err_code;
      if (rip =? NIL) && (e =? ENOENT) then make_node ldir string bits z0 else
      put_inode ldir;;
      set_err (if rip =? NIL then e else EEXIST);;
      mret rip
  end.

(** ** open.c: [common_open] *)
Definition mode_map : list Z := [R_BIT; W_BIT; Z.lor R_BIT W_BIT; 0].

Definition pipe_open (rip bits oflags : Z) : PF Z :=
  other ← find_filp rip (if has bits W_BIT then R_BIT else W_BIT);
  n ← gets susp_count;
  if (other =? NIL) && has oflags O_NONBLOCK && has bits W_BIT then mret ENXIO else
  (if other =? NIL then when (negb (has oflags O_NONBLOCK)) (suspend XPOPEN)
   else when (0 <? n)
     (release rip OPEN n;;
      n ← gets susp_count;
      release rip CREAT n));;
  iset rip (λ x, x <| i_pipe := true |>);;
  mret OK.

(** A FIFO: share the filp entry of another reader or writer. *)
Definition open_fifo (fd fil_ptr rip bits oflags : Z) : PF Z :=
  let oflags := Z.lor oflags O_APPEND in
  fset fil_ptr (λ x, x <| filp_flags := oflags |>);;
  r ← pipe_open rip bits oflags;
  if negb (r =? OK) then mret r else
  let b := if has bits R_BIT then R_BIT else W_BIT in
  fset fil_ptr (λ x, x <| filp_count := 0 |>);;
  filp2 ← find_filp rip b;
  (if negb (filp2 =? NIL) then
     p ← gets fp;
     set_desc p fd filp2;;
     fset filp2 (λ x, x <| filp_count := filp_count x + 1 |> <| filp_ino := rip |> <| filp_flags := oflags |>);;
     iset rip (λ x, x <| i_count := i_count x - 1 |>)
   else
     fset fil_ptr (λ x, x <| filp_count := 1 |>);;
     pos ← get_zone rip (if b =? R_BIT then V2_NR_DZONES else V2_NR_DZONES + 1);
     fset fil_ptr (λ x, x <| filp_pos := pos |>));;
  mret OK.

(** The normal open code, by the type of the file. *)
Definition open_existing (fd fil_ptr rip bits oflags : Z) : PF Z :=
  r ← forbidden rip bits;
  if negb (r =? OK) then mret r else
  ino ← iget id rip;
  let t := Z.land (i_mode ino) I_TYPE in
  if t =? I_REGULAR then
    if negb (has oflags O_TRUNC) then mret OK else
    r ← forbidden rip W_BIT;
    if negb (r =? OK) then mret r else
    truncate rip;;
    wipe_inode rip;;
    rw_inode rip WRITING;;
    mret OK
  else if t =? I_DIRECTORY then mret (if has bits W_BIT then EISDIR else OK)
  else if (t =? I_CHAR_SPECIAL) || (t =? I_BLOCK_SPECIAL) then
    let dev := s16 (i_zone ino 0) in
    if (major_of dev <=? 0) || (max_major <=? major_of dev) then mret ENODEV else
    open_dev dev (Z.lor bits (clrf oflags O_ACCMODE))
  else if t =? I_NAMED_PIPE then open_fifo fd fil_ptr rip bits oflags
  else mret OK.

(** The inode, and whether the normal open code applies with what result so
    far; [inl] is an error. *)
Definition open_node (oflags omode : Z) : PF (Z + Z * bool * Z) :=
  if has oflags O_CREAT then
    mask ← cget fp_umask;
    rip ← new_node 0 (Z.lor I_REGULAR (Z.land (Z.land omode ALL_MODES) mask)) NO_ZONE;
    r ← gets err_code;
    if r =? OK then mret (inr (rip, false, r)) else
    if negb (r =? EEXIST) then mret (inl r) else
    mret (inr (rip, negb (has oflags O_EXCL), r))
  else
    rip ← eat_path 0;
    if rip =? NIL then e ← gets err_code; mret (inl e) else mret (inr (rip, true, OK)).

Definition common_open (oflags omode : Z) : PF Z :=
  let bits := nth (Z.to_nat (Z.land oflags O_ACCMODE)) mode_map 0 in
  x ← get_fd 0 bits;
  match x with
  | inl e => mret e
  | inr (fd, fil_ptr) =>
      mm_set (put16 0 fd);;
      y ← open_node oflags omode;
      match y with
      | inl e => mret e
      | inr (rip, there, r) =>
          p ← gets fp;
          set_desc p fd fil_ptr;;
          fset fil_ptr (λ x, x <| filp_count := 1 |> <| filp_ino := rip |> <| filp_flags := oflags |>);;
          r ← (if (there : bool) then open_existing fd fil_ptr rip bits oflags else mret r);
          if negb (r =? OK) then
            set_desc p fd NIL;;
            fset fil_ptr (λ x, x <| filp_count := 0 |>);;
            put_inode rip;;
            mret r
          else mm_get m1_i1
      end
  end.

Definition do_creat : PF Z :=
  r ← fetch_m3;
  if negb (r =? OK) then gets err_code else
  mode ← mm_get m3_i2;
  common_open (Z.lor (Z.lor O_WRONLY O_CREAT) O_TRUNC) (u16 mode).

Definition do_open : PF Z :=
  mode ← mm_get m3_i2;
  c_mode ← mm_get m1_i3;
  r ← (if has mode O_CREAT then fetch_name1 else fetch_m3);
  if negb (r =? OK) then gets err_code else
  common_open mode (if has mode O_CREAT then u16 c_mode else 0).

(** ** open.c: other nodes *)
Definition do_mknod : PF Z :=
  su ← gets super_user;
  mode_bits ← mm_get (λ mm, u16 (m1_i2 mm));
  z0 ← mm_get m1_i3;
  if negb su && negb (Z.land mode_bits I_TYPE =? I_NAMED_PIPE) then mret EPERM else
  r ← fetch_name1;
  if negb (r =? OK) then gets err_code else
  mask ← cget fp_umask;
  ip ← new_node 0 (Z.lor (Z.land mode_bits I_TYPE) (Z.land (Z.land mode_bits ALL_MODES) mask)) z0;
  put_inode ip;;
  gets err_code.

(** The entries . and .. of the new directory [rip]. *)
Definition mkdir_dots (ldirp rip : Z) (string : list Z) : PF unit :=
  dotdot ← iget i_num ldirp;
  dot ← iget i_num rip;
  '(r1, _) ← search_dir rip Dot1 dot ENTER;
  '(r2, _) ← search_dir rip Dot2 dotdot ENTER;
  (if (r1 =? OK) && (r2 =? OK) then
     iset rip (λ x, x <| i_nlinks := s8 (i_nlinks x + 1) |>);;
     iset ldirp (λ x, x <| i_nlinks := s8 (i_nlinks x + 1) |> <| i_dirt := true |>)
   else
     search_dir ldirp (Str string) 0 DELETE;;
     iset rip (λ x, x <| i_nlinks := s8 (i_nlinks x - 1) |>));;
  iset rip (λ x, x <| i_dirt := true |>).

Definition do_mkdir : PF Z :=
  with_dir fetch_name1 (λ ldirp string,
    n ← iget i_nlinks ldirp;
    if LINK_MAX <=? Z.land n BYTE then put_inode ldirp;; mret EMLINK else
    mode ← mm_get m3_i2;
    mask ← cget fp_umask;
    let bits := Z.lor I_DIRECTORY (Z.land (Z.land (u16 mode) RWX_MODES) mask) in
    rip ← new_node 0 bits NO_ZONE;
    e ← gets err_code;
    if (rip =? NIL) || (e =? EEXIST) then put_inode rip;; put_inode ldirp;; gets err_code else
    iset rip (λ x, x <| i_mode := bits |>);;
    mkdir_dots ldirp rip string;;
    put_inode ldirp;;
    put_inode rip;;
    gets err_code).

Definition do_symlink : PF Z :=
  with_dir fetch_name2 (λ ip string,
    r ← name_free ip string;
    put_inode ip;;
    if negb (r =? OK) then mret r else
    new_ip ← new_node 0 (Z.lor I_SYMBOLIC_LINK 0x1FF) NO_ZONE;
    if new_ip =? NIL then put_inode new_ip;; gets err_code else
    truncate new_ip;;
    wipe_inode new_ip;;
    len ← mm_get m1_i1;
    iset new_ip (λ x, x <| i_size := u32 len |>);;
    r ← fetch_name1;
    if negb (r =? OK) then put_inode new_ip;; gets err_code else
    bp ← new_block new_ip 0;
    if bp =? NIL then put_inode new_ip;; gets err_code else
    text ← gets (λ s, load (user_path s) 0 len);
    bset bp (λ b, b <| b_data := store 0 text (b_data b) |> <| b_dirt := true |>);;
    put_block bp INODE_BLOCK;;
    iset new_ip (λ x, x <| i_dirt := true |>);;
    rw_inode new_ip WRITING;;
    put_inode new_ip;;
    gets err_code).

(** ** pipe.c: [do_pipe] *)
Definition release_desc (p fd f : Z) : PF unit :=
  set_desc p fd NIL;; fset f (λ x, x <| filp_count := 0 |>).

(** Claim a descriptor and a filp slot. *)
Definition claim_fd (p bits : Z) : PF (Z + Z * Z) :=
  x ← get_fd 0 bits;
  match x with
  | inl e => mret (inl e)
  | inr (fd, f) =>
      set_desc p fd f;; fset f (λ x, x <| filp_count := 1 |>);; mret (inr (fd, f))
  end.

Definition do_pipe : PF Z :=
  p ← gets fp;
  x ← claim_fd p R_BIT;
  match x with
  | inl e => mret e
  | inr (fd0, f0) =>
      y ← claim_fd p W_BIT;
      match y with
      | inl e => release_desc p fd0 f0;; mret e
      | inr (fd1, f1) =>
          dev ← gets ROOT_DEV;
          rip ← alloc_inode dev I_REGULAR;
          if rip =? NIL then release_desc p fd0 f0;; release_desc p fd1 f1;; gets err_code else
          ro ← read_only rip;
          if negb (ro =? OK) then panic "pipe device is read only" NO_NUM else
          iset rip (λ x, x <| i_pipe := true |>
                           <| i_mode := Z.lor (clrf (i_mode x) I_REGULAR) I_NAMED_PIPE |>);;
          fset f0 (λ x, x <| filp_ino := rip |> <| filp_flags := O_RDONLY |>);;
          dup_inode rip;;
          fset f1 (λ x, x <| filp_ino := rip |> <| filp_flags := O_WRONLY |>);;
          rw_inode rip WRITING;;
          modify (λ s, s <| fs_m1 := put16 1 fd1 (put16 0 fd0 (fs_m1 s)) |>);;
          iset rip (λ x, x <| i_update := Z.lor (Z.lor ATIME CTIME) MTIME |>);;
          mret OK
      end
  end.

(** ** misc.c: [do_sync] *)
Definition do_sync : PF Z :=
  each all_inodes (λ rip,
    r ← iget id rip;
    when ((0 <? i_count r) && i_dirt r) (rw_inode rip WRITING));;
  each all_bufs (λ bp,
    b ← bget id bp;
    when (negb (b_dev b =? NO_DEV) && b_dirt b) (flushall (b_dev b)));;
  mret OK.

(** ** open.c: [do_close] *)

(** The last close of a special file. *)
Definition close_special (rip : Z) : PF unit :=
  ino ← iget id rip;
  let mode_word := Z.land (i_mode ino) I_TYPE in
  when ((mode_word =? I_CHAR_SPECIAL) || (mode_word =? I_BLOCK_SPECIAL))
    (let dev := s16 (i_zone ino 0) in
     when (mode_word =? I_BLOCK_SPECIAL)
       (m ← mounted rip;
        when (negb m) (do_sync;; invalidate dev));;
     close_dev dev).

(** Release the locks of the caller on [rip]. *)
Definition close_locks (rip : Z) : PF unit :=
  lock_count ← gets nr_locks;
  if lock_count =? 0 then mret tt else
  pid ← cget fp_pid;
  each all_locks (λ l,
    x ← lget id l;
    when (negb (lock_type x =? 0) && (lock_inode x =? rip) && (lock_pid x =? pid))
      (lset l (λ x, x <| lock_type := 0 |>);;
       modify (λ s, s <| nr_locks := nr_locks s - 1 |>)));;
  n ← gets nr_locks;
  when (n <? lock_count) lock_revive.

(** The filp entry has one user less. *)
Definition release_filp (f rip : Z) : PF unit :=
  fset f (λ x, x <| filp_count := filp_count x - 1 |>);;
  x ← fget id f;
  when (filp_count x =? 0)
    (ino ← iget id rip;
     when (i_pipe ino && (1 <? i_count ino))
       (set_zone rip (if filp_mode x =? R_BIT then V2_NR_DZONES else V2_NR_DZONES + 1) (filp_pos x));;
     put_inode rip).

Definition do_close : PF Z :=
  fd ← mm_get m1_i1;
  f ← get_filp fd;
  if f =? NIL then gets err_code else
  x ← fget id f;
  let rip := filp_ino x in
  when ((filp_count x - 1 =? 0) && negb (filp_mode x =? FILP_CLOSED)) (close_special rip);;
  pipe ← iget i_pipe rip;
  when pipe (release rip (if has (filp_mode x) R_BIT then WRITE else READ) NR_PROCS);;
  release_filp f rip;;
  p ← gets fp;
  cset (λ p, p <| fp_cloexec := clrf (fp_cloexec p) (Z.shiftl 1 fd) |>);;
  set_desc p fd NIL;;
  close_locks rip;;
  mret OK.

(** ** open.c: [do_lseek] *)
Definition do_lseek : PF Z :=
  ls_fd ← mm_get m2_i1;
  f ← get_filp ls_fd;
  if f =? NIL then gets err_code else
  x ← fget id f;
  ino ← iget id (filp_ino x);
  if i_pipe ino then mret ESPIPE else
  whence ← mm_get m2_i2;
  offset ← mm_get m2_l1;
  if negb (in_tab 3 whence) then mret EINVAL else
  let pos := if whence =? 0 then 0 else if whence =? 1 then filp_pos x else i_size ino in
  let sum := u32 (pos + offset) in
  if (0 <? offset) && (s32 sum <? s32 pos) then mret EINVAL else
  if (offset <? 0) && (s32 pos <? s32 sum) then mret EINVAL else
  when (negb (sum =? filp_pos x)) (iset (filp_ino x) (λ i, i <| i_seek := true |>));;
  fset f (λ x, x <| filp_pos := sum |>);;
  modify (λ s, s <| fs_m1 := put32 3 sum (fs_m1 s) |>);;
  mret OK.
End fopen.
