(* ===== verification/Fmisc.v ===== *)
(** * Mounting, descriptors, processes and devices

    fs/mount.c, misc.c without [do_sync], [do_unpause] of pipe.c, and
    [do_setsid] and [do_ioctl] of device.c. *)

From S2P Require Import Prelude Fstate Fdev Cache Super Inode Filedes Rdwr Path Fcalls Fopen.

Section fmisc.
Context `{World}.

(** ** mount.c *)
Definition name_to_dev (path : Z) : PF Z :=
  rip ← eat_path path;
  if rip =? NIL then mret NO_DEV else
  ino ← iget id rip;
  if negb (Z.land (i_mode ino) I_TYPE =? I_BLOCK_SPECIAL) then set_err ENOTBLK;; put_inode rip;; mret NO_DEV
  else put_inode rip;; mret (s16 (i_zone ino 0)).

(** [if (fetch_name(...) != OK) return(err_code);
     if ((dev = name_to_dev(user_path)) == NO_DEV) return(err_code);] *)
Definition with_dev (fetch : PF Z) (k : Z → PF Z) : PF Z :=
  r ← fetch;
  if negb (r =? OK) then gets err_code else
  dev ← name_to_dev 0;
  if dev =? NO_DEV then gets err_code else k dev.

(** Whether the device is mounted, and the last free entry. *)
Definition scan_supers (dev : Z) : PF (bool * Z) :=
  gets (λ s, foldl (λ '(found, sp) xp,
      (found || (s_dev (super_of s xp) =? dev), if s_dev (super_of s xp) =? NO_DEV then xp else sp))
    (false, NIL) all_supers).

(** Give up: the device is closed and the entry freed. *)
Definition mount_fail (sp dev r : Z) : PF Z :=
  sset sp (λ x, x <| s_dev := NO_DEV |>);; close_dev dev;; mret r.

(** Whether the root of [dev] can be mounted on [rip]: the error, and the root. *)
Definition mount_check (dev rip : Z) : PF (Z * Z) :=
  ino ← iget id rip;
  let bits := Z.land (i_mode ino) I_TYPE in
  let r := if 1 <? i_count ino then EBUSY else OK in
  let r := if (bits =? I_BLOCK_SPECIAL) || (bits =? I_CHAR_SPECIAL) then ENOTDIR else r in
  if negb (r =? OK) then mret (r, NIL) else
  root_ip ← get_inode dev ROOT_INODE;
  if root_ip =? NIL then e ← gets err_code; mret (e, NIL) else
  root ← iget id root_ip;
  ino ← iget id rip;
  let mdir := Z.land (i_mode ino) I_TYPE =? I_DIRECTORY in
  let rdir := Z.land (i_mode root) I_TYPE =? I_DIRECTORY in
  mret (if i_mode root =? 0 then EINVAL else if negb mdir && rdir then EISDIR else OK, root_ip).

Definition mount_on (sp dev rd_only : Z) : PF Z :=
  r ← fetch_name2;
  if negb (r =? OK) then e ← gets err_code; mount_fail sp dev e else
  rip ← eat_path 0;
  if rip =? NIL then e ← gets err_code; mount_fail sp dev e else
  '(r, root_ip) ← mount_check dev rip;
  if negb (r =? OK) then
    put_inode rip;;
    put_inode root_ip;;
    do_sync;;
    invalidate dev;;
    mount_fail sp dev r
  else
    iset rip (λ x, x <| i_mount := true |>);;
    sset sp (λ x, x <| s_imount := rip |> <| s_isup := root_ip |> <| s_rd_only := negb (rd_only =? 0) |>);;
    mret OK.

Definition do_mount : PF Z :=
  su ← gets super_user;
  if negb su then mret EPERM else
  with_dev fetch_name1 (λ dev,
    rd_only ← mm_get m1_i3;
    '(found, sp) ← scan_supers dev;
    if found : bool then mret EBUSY else
    if sp =? NIL then mret ENFILE else
    if (major_of dev <=? 0) || (max_major <=? major_of dev) then mret ENODEV else
    r ← open_dev dev (if negb (rd_only =? 0) then R_BIT else Z.lor R_BIT W_BIT);
    if negb (r =? OK) then mret EINVAL else
    sset sp (λ x, x <| s_dev := dev |>);;
    r ← read_super sp;
    if negb (r =? OK) then close_dev dev;; mret r else
    mount_on sp dev rd_only).

Definition do_umount : PF Z :=
  su ← gets super_user;
  if negb su then mret EPERM else
  with_dev fetch_m3 (λ dev,
    count ← gets (λ s, foldl (λ c rip,
      let r := inode_of s rip in if (0 <? i_count r) && (i_dev r =? dev) then c + i_count r else c) 0 all_inodes);
    if 1 <? count then mret EBUSY else
    sp ← first_of all_supers (λ s sp, s_dev (super_of s sp) =? dev);
    do_sync;;
    invalidate dev;;
    match sp with
    | None => mret EINVAL
    | Some sp =>
        close_dev dev;;
        mnt ← sget s_imount sp;
        iset mnt (λ x, x <| i_mount := false |>);;
        put_inode mnt;;
        sup ← sget s_isup sp;
        put_inode sup;;
        sset sp (λ x, x <| s_imount := NIL |> <| s_dev := NO_DEV |>);;
        mret OK
    end).

(** ** pipe.c *)

(** Cancel the request of [proc_nr], suspended on a device. *)
Definition cancel_io (proc_nr task : Z) : PF unit :=
  r ← pget id proc_nr;
  let fild := Z.land (Z.shiftr (fp_fd r) 8) BYTE in
  if negb (in_tab OPEN_MAX fild) then panic "unpause err 2" NO_NUM else
  f ← get_desc proc_nr fild;
  rip ← fget filp_ino f;
  z ← get_zone rip 0;
  let dev := s16 z in
  let count := if Z.land (fp_fd r) BYTE =? READ then R_BIT else W_BIT in
  modify (λ s, s <| fp := proc_nr |>);;
  dmap_rw_call (major_of dev) task (dev_message CANCEL (minor_of dev) proc_nr count 0 0 0) NoMem;;
  mret tt.

Definition do_unpause : PF Z :=
  who ← gets fs_who;
  if MM_PROC_NR <? who then mret EPERM else
  proc_nr ← mm_get m1_i1;
  if negb (in_tab NR_PROCS proc_nr) then panic "unpause err 1" proc_nr else
  r ← pget id proc_nr;
  if negb (fp_suspended r) then mret OK else
  let task := - fp_task r in
  (if task =? XOPEN then panic "fs/do_unpause called with XOPEN" NO_NUM
   else if (task =? XPIPE) || (task =? XLOCK) || (task =? XPOPEN) then mret tt
   else cancel_io proc_nr task);;
  pset proc_nr (λ x, x <| fp_suspended := false |>);;
  reply proc_nr EINTR;;
  mret OK.

(** ** misc.c *)
Definition do_dup : PF Z :=
  fd ← mm_get m1_i1;
  fd2 ← mm_get m1_i2;
  let rfd := Z.land fd (Z.lnot DUP_MASK) in
  f ← get_filp rfd;
  if f =? NIL then gets err_code else
  let claim fd2 :=
    fset f (λ x, x <| filp_count := filp_count x + 1 |>);;
    p ← gets fp;
    set_desc p fd2 f;;
    mret fd2 in
  if fd =? rfd then
    x ← get_fd 0 0;
    match x with
    | inl e => mret e
    | inr (fd2, _) => mm_set (put16 1 fd2);; claim fd2
    end
  else
    if (fd2 <? 0) || (OPEN_MAX <=? fd2) then mret EBADF else
    if rfd =? fd2 then mret fd2 else
    mm_set (put16 0 fd2);;
    do_close;;
    claim fd2.

Definition do_fcntl : PF Z :=
  fd ← mm_get m1_i1;
  f ← get_filp fd;
  if f =? NIL then gets err_code else
  request ← mm_get m1_i2;
  addr ← mm_get m1_i3;
  if request =? F_DUPFD then
    if (addr <? 0) || (OPEN_MAX <=? addr) then mret EINVAL else
    x ← get_fd addr 0;
    match x with
    | inl e => mret e
    | inr (new_fd, _) =>
        fset f (λ x, x <| filp_count := filp_count x + 1 |>);;
        p ← gets fp;
        set_desc p new_fd f;;
        mret new_fd
    end
  else if request =? F_GETFD then
    c ← cget fp_cloexec;
    mret (if Z.testbit c fd then FD_CLOEXEC else 0)
  else if request =? F_SETFD then
    let mask := Z.shiftl 1 fd in
    cset (λ p, p <| fp_cloexec := Z.lor (clrf (fp_cloexec p) mask) (if has addr FD_CLOEXEC then mask else 0) |>);;
    mret OK
  else if request =? F_GETFL then
    x ← fget id f;
    mret (Z.land (filp_flags x) (Z.lor (Z.lor O_NONBLOCK O_APPEND) O_ACCMODE))
  else if request =? F_SETFL then
    let fl := Z.lor O_NONBLOCK O_APPEND in
    fset f (λ x, x <| filp_flags := Z.lor (clrf (filp_flags x) fl) (Z.land addr fl) |>);;
    mret OK
  else if (request =? F_GETLK) || (request =? F_SETLK) || (request =? F_SETLKW) then lock_op f request
  else mret EINVAL.

(** The guard of the calls only MM may make. *)
Definition only_mm (k : PF Z) : PF Z :=
  who ← gets fs_who;
  if negb (who =? MM_PROC_NR) then mret EGENERIC else k.

Definition do_fork : PF Z :=
  only_mm
    (parent ← mm_get m1_i1;
     child ← mm_get m1_i2;
     pid ← mm_get m1_i3;
     r ← pget id parent;
     pset child (λ _, r);;
     each (seqZ 0 OPEN_MAX) (λ i,
       let f := fp_filp r i in
       when (negb (f =? NIL)) (fset f (λ x, x <| filp_count := filp_count x + 1 |>)));;
     pset child (λ x, x <| fp_pid := pid |> <| fp_sesldr := false |>);;
     dup_inode (fp_rootdir r);;
     dup_inode (fp_workdir r);;
     mret OK).

(** [fd = i; (void) do_close();] *)
Definition close_fd (i : Z) : PF unit := mm_set (put16 0 i);; do_close;; mret tt.

(** [fp = &fproc[slot1]] *)
Definition act_for (slot : Z) : PF unit := modify (λ s, s <| fp := slot |>).

Definition do_exec : PF Z :=
  only_mm
    (slot ← mm_get m1_i1;
     act_for slot;;
     bitmap ← cget fp_cloexec;
     if bitmap =? 0 then mret OK else
     each (seqZ 0 OPEN_MAX) (λ i,
       if Z.testbit bitmap i then close_fd i else mm_set (put16 0 i));;
     mret OK).

(** Take the controlling tty [dev] away from process [q]. *)
Definition revoke_tty (dev q : Z) : PF unit :=
  r ← pget id q;
  when (fp_tty r =? dev) (pset q (λ x, x <| fp_tty := 0 |>));;
  each (seqZ 0 OPEN_MAX) (λ i,
    let f := fp_filp r i in
    if f =? NIL then mret tt else
    x ← fget id f;
    if filp_mode x =? FILP_CLOSED then mret tt else
    ino ← iget id (filp_ino x);
    when ((Z.land (i_mode ino) I_TYPE =? I_CHAR_SPECIAL) && (s16 (i_zone ino 0) =? dev))
      (close_dev dev;;
       fset f (λ x, x <| filp_mode := FILP_CLOSED |>))).

Definition do_exit : PF Z :=
  only_mm
    (slot ← mm_get m1_i1;
     act_for slot;;
     r ← cget id;
     when (fp_suspended r)
       (let task := - fp_task r in
        when ((task =? XPIPE) || (task =? XPOPEN)) (modify (λ s, s <| susp_count := susp_count s - 1 |>));;
        mm_set (put16 0 slot);;
        do_unpause;;
        cset (λ x, x <| fp_suspended := false |>));;
     each (seqZ 0 OPEN_MAX) close_fd;;
     root ← cget fp_rootdir;
     put_inode root;;
     work ← cget fp_workdir;
     put_inode work;;
     cset (λ x, x <| fp_rootdir := NIL |> <| fp_workdir := NIL |>);;
     leader ← cget fp_sesldr;
     if negb leader then mret OK else
     cset (λ x, x <| fp_sesldr := false |>);;
     dev ← cget fp_tty;
     if dev =? 0 then mret OK else
     each (seqZ LOW_USER (NR_PROCS - LOW_USER)) (revoke_tty dev);;
     mret OK).

Definition do_set : PF Z :=
  only_mm
    (slot ← mm_get m1_i1;
     real ← mm_get m1_i2;
     eff ← mm_get m1_i3;
     call ← gets fs_call;
     pget id slot;;
     when (call =? SETUID) (pset slot (λ x, x <| fp_realuid := real |> <| fp_effuid := eff |>));;
     when (call =? SETGID) (pset slot (λ x, x <| fp_effgid := s8 eff |> <| fp_realgid := s8 real |>));;
     mret OK).

Definition do_revive : PF Z :=
  who ← gets fs_who;
  if LOW_USER <=? who then mret EPERM else
  mm ← gets fs_m;
  revive (REP_PROC_NR mm) (REP_STATUS mm);;
  modify (λ s, s <| dont_reply := true |>);;
  mret OK.

(** ** device.c *)
Definition do_setsid : PF Z :=
  who ← gets fs_who;
  if negb (who =? MM_PROC_NR) then mret ENOSYS else
  slot ← mm_get m1_i1;
  pset slot (λ x, x <| fp_sesldr := true |> <| fp_tty := 0 |>);;
  mret no_value.

Definition do_ioctl : PF Z :=
  ls_fd ← mm_get m2_i1;
  f ← get_filp ls_fd;
  if f =? NIL then gets err_code else
  x ← fget id f;
  ino ← iget id (filp_ino x);
  let t := Z.land (i_mode ino) I_TYPE in
  if negb (t =? I_CHAR_SPECIAL) && negb (t =? I_BLOCK_SPECIAL) then mret ENOTTY else
  let '(major, minor, task) := find_dev (s16 (i_zone ino 0)) in
  who ← gets fs_who;
  mm ← gets fs_m;
  '(mess, _) ← dmap_rw_call major task (put16 0 minor (put16 1 who (mm <| m_type := DEV_IOCTL |>))) NoMem;
  mess ←
    (if negb (REP_STATUS mess =? SUSPEND) then mret mess else
     if has (filp_flags x) O_NONBLOCK then
       '(mess, _) ← dmap_rw_call major task (put16 0 minor (put16 1 who (mess <| m_type := CANCEL |>))) NoMem;
       mret (if REP_STATUS mess =? EINTR then set_REP_STATUS EAGAIN mess else mess)
     else suspend task;; mret mess);
  modify (λ s, s <| fs_m1 := put32 5 (m2_l2 mess) (put32 3 (m2_l1 mess) (fs_m1 s)) |>);;
  mret (REP_STATUS mess).
End fmisc.
