(* ===== verification/Fmain.v ===== *)
(** * The main loop and the initialisation of FS

    fs/main.c and the call table of table.c. *)

From S2P Require Import Prelude Fstate Fdev Cache Super Inode Filedes Rdwr Path Fcalls Fopen Fmisc.

Definition SYSTASK : Z := -2.
Definition SYS_GBOOT : Z := 12.
Definition MIOCRAMSIZE : Z := 0x6D03.
Definition MIOCSPSINFO : Z := 0x6D04.
Definition HARDWARE : Z := -1.
Definition CLICK_SHIFT : Z := 8.

Section fmain.
Context `{World}.

(** ** table.c *)
Definition call_vector (n : Z) : PF Z :=
  match n with
  | 1 => do_exit | 2 => do_fork | 3 => do_read | 4 => do_write | 5 => do_open | 6 => do_close
  | 8 => do_creat | 9 => do_link | 10 => do_unlink | 12 => do_chdir | 13 => do_time | 14 => do_mknod
  | 15 => do_chmod | 16 => do_chown | 18 => do_stat | 19 => do_lseek | 21 => do_mount | 22 => do_umount
  | 23 => do_set | 25 => do_stime | 28 => do_fstat | 30 => do_utime | 33 => do_access | 36 => do_sync
  | 38 => do_rename | 39 => do_mkdir | 40 => do_unlink | 41 => do_dup | 42 => do_pipe | 43 => do_tims
  | 46 => do_set | 49 => do_rdlink | 50 => do_lstat | 54 => do_ioctl | 55 => do_fcntl | 57 => do_symlink
  | 59 => do_exec | 60 => do_umask | 61 => do_chroot | 62 => do_setsid | 65 => do_unpause | 67 => do_revive
  | _ => no_sys
  end.

(** ** main.c: the main loop *)

(** Restart the call of the first process to be revived, if any. *)
Definition revive_work : PF bool :=
  x ← first_of all_fprocs (λ s p, fp_revived (fproc_of s p));
  match x with
  | None => mret false
  | Some rp =>
      r ← pget id rp;
      modify (λ s, s <| fs_who := rp |> <| fs_call := Z.land (fp_fd r) BYTE |>);;
      mm_set (put16 0 (Z.land (Z.shiftr (fp_fd r) 8) BYTE));;
      mm_set (put32 3 (fp_buffer r));;
      mm_set (put16 1 (fp_nbytes r));;
      pset rp (λ x, x <| fp_suspended := false |> <| fp_revived := false |>);;
      modify (λ s, s <| reviving := reviving s - 1 |>);;
      mret true
  end.

Definition get_work : PF unit :=
  n ← gets reviving;
  if negb (n =? 0) then
    b ← revive_work;
    if b : bool then mret tt else panic "get_work couldn't revive anyone" NO_NUM
  else
    a ← ask (Receive ANY);
    if negb (a_res a =? OK) then panic "fs receive error" NO_NUM else
    modify (λ s, s <| fs_m := a_msg a |> <| fs_who := m_source (a_msg a) |> <| fs_call := m_type (a_msg a) |>).

(** The call is carried out for [who]; for a task [fp] points before the table,
    and [super_user] depends on the memory there. *)
Definition serve : PF unit :=
  who ← gets fs_who;
  call ← gets fs_call;
  modify (λ s, s <| fp := who |>);;
  uid ← (if who <? 0 then mret no_value else cget fp_effuid);
  modify (λ s, s <| super_user := uid =? SU_UID |> <| dont_reply := false |>);;
  error ← (if (call <? 0) || (NCALLS <=? call) then mret EBADCALL else call_vector call);
  quiet ← gets dont_reply;
  if quiet : bool then mret tt else
  who ← gets fs_who;
  reply who error;;
  ahead ← gets rdahed_inode;
  when (negb (ahead =? NIL)) read_ahead.

(** One iteration of the main loop. *)
Definition fs_step : PF unit := get_work;; serve.

(** ** main.c: initialisation *)
Definition buf_pool : PF unit :=
  modify (λ s, s <| bufs_in_use := 0 |> <| front := 0 |> <| rear := NR_BUFS - 1 |>);;
  each all_bufs (λ bp, bset bp (λ b, b <| b_blocknr := NO_BLOCK |> <| b_dev := NO_DEV |>
                                       <| b_next := bp + 1 |> <| b_prev := bp - 1 |>));;
  bset 0 (λ b, b <| b_prev := NIL |>);;
  bset (NR_BUFS - 1) (λ b, b <| b_next := NIL |>);;
  each all_bufs (λ bp, bset bp (λ b, b <| b_hash := b_next b |>));;
  f ← gets front;
  modify (λ s, s <| buf_hash := <[0 := f]> (buf_hash s) |>).

(** The answer gives the root device, the image device and the size of the RAM
    disk in the words of its message. *)
Definition get_boot_parameters : PF unit :=
  modify (λ s, s <| fs_m1 := put16 0 FS_PROC_NR ((fs_m1 s) <| m_type := SYS_GBOOT |>) |>);;
  mm ← gets fs_m1;
  a ← ask (Sendrec SYSTASK mm Fill);
  let l := match a_data a with (_, l) :: _ => l | [] => [] end in
  let d := store 0 l (λ _, 0) in
  modify (λ s, s <| fs_m1 := a_msg a |> <| ROOT_DEV := s16 (be16 d 0) |> <| IMAGE_DEV := s16 (be16 d 2) |>
                 <| bp_ramsize := be16 d 4 |>).

Definition lastused (boot_dev : Z) : PF Z :=
  r ← sget id 0;
  let zbase := SUPER_BLOCK + 1 + s_imap_blocks r in
  let this := s_firstdatazone r in
  x ← fold_until (λ '(last, this) i,
    bp ← get_block boot_dev (u32 (zbase + i)) NORMAL;
    d ← bget b_data bp;
    x ← fold_until (λ '(last, this) n,
          if this =? s_zones r then mret (inr last) else
          let w := be16 d (2 * (n / BITCHUNK_BITS)) in
          mret (inl (if Z.testbit w (n mod BITCHUNK_BITS) then this else last, this + 1)))
          (last, this) (seqZ 0 BITS_PER_BLOCK);
    put_block bp ZUPER_BLOCK;;
    mret x) (this - 1, this) (seqZ 0 (s_zmap_blocks r));
  match x with
  | inr last => mret (s16 (Z.shiftl last (s_log_zone_size r)))
  | inl _ => panic "lastused" NO_NUM
  end.

(** Copy the used blocks of the boot device to memory at [address]. *)
Definition fastload (boot_dev address : Z) : PF unit :=
  blocks ← lastused boot_dev;
  d ← dmap_at (major_of boot_dev);
  loop (S (Z.to_nat blocks)) (λ '(blocks, position, address),
    if blocks =? 0 then mret (inr tt) else
    let i := if 18 * 1024 / BLOCK_SIZE <? blocks then 18 * 1024 / BLOCK_SIZE else blocks in
    let n := i * BLOCK_SIZE in
    modify (λ s, s <| fs_m1 := put16 2 n (put32 7 address (put16 1 HARDWARE (put32 3 position
                                 (put16 0 (minor_of boot_dev) ((fs_m1 s) <| m_type := DEV_READ |>))))) |>);;
    mm ← gets fs_m1;
    '(mm, _) ← dmap_rw_call (major_of boot_dev) (dmap_task d) mm NoMem;
    modify (λ s, s <| fs_m1 := mm |>);;
    if REP_STATUS mm <? 0 then panic "Disk error loading BOOT disk" (REP_STATUS mm) else
    mret (inl (blocks - i, position + n, address + n))) (blocks, 0, address).

(** The size of the RAM disk that holds the root file system. *)
Definition stretch (r : super_block) (ram_size : Z) : Z :=
  let lcount := u32 (Z.shiftl (s_zones r) (s_log_zone_size r)) in
  let ram_size := if ram_size <? lcount then lcount else ram_size in
  let fsmax := u32 (s_zmap_blocks r * 8 * BLOCK_SIZE) in
  let fsmax := u32 (Z.shiftl (fsmax + u16 (s_firstdatazone r - 1)) (s_log_zone_size r)) in
  if fsmax <? ram_size then fsmax else ram_size.

(** Tell the RAM driver and MM the size of the RAM disk. *)
Definition announce_ram (ram_size : Z) : PF unit :=
  modify (λ s, s <| fs_m1 := put32 3 ram_size (put16 2 MIOCRAMSIZE (put16 1 FS_PROC_NR
                               ((fs_m1 s) <| m_type := DEV_IOCTL |>))) |>);;
  mm ← gets fs_m1;
  a ← ask (Sendrec MEM mm NoMem);
  if negb (a_res a =? OK) || negb (REP_STATUS (a_msg a) =? OK) then panic "Can't set RAM disk size" NO_NUM else
  let mm := put16 0 (Z.shiftr (s32 (ram_size * BLOCK_SIZE)) CLICK_SHIFT) (a_msg a) in
  a ← ask (Sendrec MM_PROC_NR mm NoMem);
  if negb (a_res a =? OK) then panic "FS can't sync up with MM" NO_NUM else
  modify (λ s, s <| fs_m1 := a_msg a |>).

Definition load_ram : PF unit :=
  ram_size ← gets bp_ramsize;
  root ← gets ROOT_DEV;
  image ← gets IMAGE_DEV;
  r ← open_dev root (Z.lor R_BIT W_BIT);
  if negb (r =? OK) then panic "Cannot open root device" NO_NUM else
  ram_size ← (if root =? DEV_RAM then
                r ← open_dev image R_BIT;
                if negb (r =? OK) then panic "Cannot open root device" NO_NUM else
                sset 0 (λ x, x <| s_dev := image |>);;
                r ← read_super 0;
                if negb (r =? OK) then panic "Bad root file system" NO_NUM else
                sb ← sget id 0;
                mret (stretch sb ram_size)
              else mret ram_size);
  announce_ram ram_size;;
  init_cache2 ram_size;;
  if negb (root =? DEV_RAM) then mret tt else
  mm ← gets fs_m1;
  fastload image (u32 (m2_l1 mm));;
  close_dev image;;
  invalidate image;;
  bp ← get_block root SUPER_BLOCK NORMAL;
  sb ← sget id 0;
  let zones := Z.shiftr ram_size (s_log_zone_size sb) in
  bset bp (λ b, b <| b_data := set32 20 (conv4 (s_native sb) (s32 zones))
                                 (set16 2 (conv2 (s_native sb) (s16 zones)) (b_data b)) |> <| b_dirt := true |>);;
  put_block bp ZUPER_BLOCK.

Definition load_super (super_dev : Z) : PF unit :=
  each all_supers (λ sp, sset sp (λ x, x <| s_dev := NO_DEV |>));;
  sset 0 (λ x, x <| s_dev := super_dev |>);;
  r ← read_super 0;
  if negb (r =? OK) then panic "Invalid root file system.  Possibly wrong diskette." NO_NUM else
  rip ← get_inode super_dev ROOT_INODE;
  ino ← iget id rip;
  if negb (Z.land (i_mode ino) I_TYPE =? I_DIRECTORY) || (i_nlinks ino <? 3) then
    panic "Invalid root file system.  Possibly wrong diskette." NO_NUM
  else
  sset 0 (λ x, x <| s_imount := rip |>);;
  dup_inode rip;;
  sset 0 (λ x, x <| s_isup := rip |> <| s_rd_only := false |>).

(** Process 0 to [LOW_USER], FS excepted, start in the root directory. *)
Definition init_fproc (root i : Z) : PF unit :=
  if i =? FS_PROC_NR then mret tt else
  modify (λ s, s <| fp := i |>);;
  rip ← get_inode root ROOT_INODE;
  cset (λ x, x <| fp_rootdir := rip |>);;
  dup_inode rip;;
  cset (λ x, x <| fp_workdir := rip |> <| fp_realuid := 0 |> <| fp_effuid := 0 |>
               <| fp_realgid := 0 |> <| fp_effgid := 0 |> <| fp_umask := 0xFFFF |>).

Definition fs_init : PF unit :=
  modify (λ s, s <| fp := NIL |> <| fs_who := FS_PROC_NR |>);;
  buf_pool;;
  get_boot_parameters;;
  load_ram;;
  root ← gets ROOT_DEV;
  load_super root;;
  each (seqZ 0 (LOW_USER + 1)) (init_fproc root);;
  ask (Sendrec MEM (put16 2 MIOCSPSINFO (put16 1 FS_PROC_NR (Message 0 DEV_IOCTL (λ _, 0)))) NoMem);;
  mret tt.
End fmain.

(** The variables before [fs_init]: C initialises them to zero. *)
Definition zero_buf : buf := Buf (λ _, 0) NIL NIL NIL 0 0 false 0.
Definition zero_super : super_block := SuperBlock 0 0 0 0 0 0 0 0 0 NIL NIL 0 0 false false 0 0 0 0 0.
Definition zero_inode : inode := Inode 0 0 0 0 0 0 0 0 (λ _, 0) 0 0 0 0 0 NIL false false false false 0.
Definition zero_filp : filp := Filp 0 0 0 NIL 0.
Definition zero_fproc : fproc := Fproc 0 NIL NIL (λ _, NIL) 0 0 0 0 0 0 0 0 0 false false 0 false 0 0.
Definition zero_message : message := Message 0 0 (λ _, 0).
Definition fs_zero : fsst :=
  Fsst (λ _, zero_buf) (λ _, NIL) NIL NIL 0 (λ _, Buf2 0 0 0) 0 0 (λ _, zero_super) (λ _, zero_inode)
    (λ _, zero_filp) (λ _, zero_fproc) (λ _, FileLock 0 0 NIL 0 0) NIL false false 0 0 0 0 NIL
    zero_message zero_message 0 0 (λ _, 0) 0 0 0 0 0 [].
