(* ===== verification/Fwp.v ===== *)
(** * Proof support for the file system

    Rules of the weakest precondition for the accesses to the tables of FS and
    for its loops, and a tactic that applies them. *)

From S2P Require Import Prelude Fstate Fdev.

Lemma in_tab_spec n i : in_tab n i = true ↔ 0 ≤ i < n.
Proof. unfold in_tab. rewrite andb_true_iff, Z.leb_le, Z.ltb_lt. done. Qed.
Lemma in_tab_intro n i : 0 ≤ i < n → in_tab n i = true.
Proof. apply in_tab_spec. Qed.
Lemma elem_of_tab n i : i ∈ seqZ 0 n → in_tab n i = true.
Proof. rewrite elem_of_seqZ. intros. apply in_tab_intro. lia. Qed.
#[export] Hint Resolve in_tab_intro elem_of_tab : fs.

Section tables.
Implicit Types (s : fsst).

Lemma wp_bget {A} (f : buf → A) i Q s : in_tab NR_BUFS i = true → Q (f (buf_of s i)) s → wp (bget f i) Q s.
Proof. unfold bget. by intros ->. Qed.
Lemma wp_bset i g Q s : in_tab NR_BUFS i = true →
  Q tt (s <| buf_of := <[i := g (buf_of s i)]> (buf_of s) |>) → wp (bset i g) Q s.
Proof. unfold bset. by intros ->. Qed.
Lemma wp_b2get {A} (f : buf2 → A) i Q s : in_tab MAX_BUF2 i = true → Q (f (buf2_of s i)) s → wp (b2get f i) Q s.
Proof. unfold b2get. by intros ->. Qed.
Lemma wp_b2set i g Q s : in_tab MAX_BUF2 i = true →
  Q tt (s <| buf2_of := <[i := g (buf2_of s i)]> (buf2_of s) |>) → wp (b2set i g) Q s.
Proof. unfold b2set. by intros ->. Qed.
Lemma wp_sget {A} (f : super_block → A) i Q s : in_tab NR_SUPERS i = true → Q (f (super_of s i)) s → wp (sget f i) Q s.
Proof. unfold sget. by intros ->. Qed.
Lemma wp_sset i g Q s : in_tab NR_SUPERS i = true →
  Q tt (s <| super_of := <[i := g (super_of s i)]> (super_of s) |>) → wp (sset i g) Q s.
Proof. unfold sset. by intros ->. Qed.
Lemma wp_iget {A} (f : inode → A) i Q s : in_tab NR_INODES i = true → Q (f (inode_of s i)) s → wp (iget f i) Q s.
Proof. unfold iget. by intros ->. Qed.
Lemma wp_iset i g Q s : in_tab NR_INODES i = true →
  Q tt (s <| inode_of := <[i := g (inode_of s i)]> (inode_of s) |>) → wp (iset i g) Q s.
Proof. unfold iset. by intros ->. Qed.
Lemma wp_fget {A} (f : filp → A) i Q s : in_tab NR_FILPS i = true → Q (f (filp_of s i)) s → wp (fget f i) Q s.
Proof. unfold fget. by intros ->. Qed.
Lemma wp_fset i g Q s : in_tab NR_FILPS i = true →
  Q tt (s <| filp_of := <[i := g (filp_of s i)]> (filp_of s) |>) → wp (fset i g) Q s.
Proof. unfold fset. by intros ->. Qed.
Lemma wp_pget {A} (f : fproc → A) i Q s : in_tab NR_PROCS i = true → Q (f (fproc_of s i)) s → wp (pget f i) Q s.
Proof. unfold pget. by intros ->. Qed.
Lemma wp_pset i g Q s : in_tab NR_PROCS i = true →
  Q tt (s <| fproc_of := <[i := g (fproc_of s i)]> (fproc_of s) |>) → wp (pset i g) Q s.
Proof. unfold pset. by intros ->. Qed.
Lemma wp_lget {A} (f : file_lock → A) i Q s : in_tab NR_LOCKS i = true → Q (f (lock_of s i)) s → wp (lget f i) Q s.
Proof. unfold lget. by intros ->. Qed.
Lemma wp_lset i g Q s : in_tab NR_LOCKS i = true →
  Q tt (s <| lock_of := <[i := g (lock_of s i)]> (lock_of s) |>) → wp (lset i g) Q s.
Proof. unfold lset. by intros ->. Qed.
Lemma wp_cget {A} (f : fproc → A) Q s : in_tab NR_PROCS (fp s) = true → Q (f (fproc_of s (fp s))) s → wp (cget f) Q s.
Proof. intros. unfold cget. apply wp_bind, wp_gets. by apply wp_pget. Qed.
Lemma wp_cset g Q s : in_tab NR_PROCS (fp s) = true →
  Q tt (s <| fproc_of := <[fp s := g (fproc_of s (fp s))]> (fproc_of s) |>) → wp (cset g) Q s.
Proof. intros. unfold cset. apply wp_bind, wp_gets. by apply wp_pset. Qed.
Lemma wp_get_desc p d Q s : in_tab NR_PROCS p = true → in_tab OPEN_MAX d = true →
  Q (fp_filp (fproc_of s p) d) s → wp (get_desc p d) Q s.
Proof. intros Hp Hd HQ. unfold get_desc. apply wp_bind, wp_pget; [done|]. by rewrite Hd. Qed.
Lemma wp_set_desc p d f Q s : in_tab NR_PROCS p = true → in_tab OPEN_MAX d = true →
  Q tt (s <| fproc_of := <[p := (fproc_of s p) <| fp_filp := <[d := f]> (fp_filp (fproc_of s p)) |>]> (fproc_of s) |>) →
  wp (set_desc p d f) Q s.
Proof. intros Hp Hd HQ. unfold set_desc. rewrite Hd. by apply wp_pset. Qed.
Lemma wp_set_err e Q s : Q tt (s <| err_code := e |>) → wp (set_err e) Q s.
Proof. apply wp_modify. Qed.

(** The entry of a table after an update. *)
Lemma tab_set {A} (f : Z → A) i j x : <[i := x]> f j = if decide (i = j) then x else f j.
Proof. case_decide as E; [subst; apply fn_lookup_insert|by apply fn_lookup_insert_ne]. Qed.

Lemma for_each_cons {R} x l (f : Z → PF (option R)) :
  for_each (x :: l) f = (r ← f x; match r with Some r => mret (Some r) | None => for_each l f end).
Proof. done. Qed.
Lemma first_of_find l p s : first_of l p s = Ret (List.find (p s) l) s.
Proof.
  unfold first_of. induction l as [|x l IH]; [done|]. cbn [List.find].
  rewrite for_each_cons. erewrite bind_eq; [|reflexivity]. destruct (p s x); [done|exact IH].
Qed.
Lemma wp_first_of l p Q s : Q (List.find (p s) l) s → wp (first_of l p) Q s.
Proof. intros. by eapply wp_eq; [apply first_of_find|]. Qed.
End tables.

(** A loop over a list whose body turns [I (x :: l)] into [I l]. *)
Lemma wp_fold {S A} (I : list Z → A → S → Prop) (f : A → Z → M S A) (l : list Z) a s :
  (∀ a x l s, I (x :: l) a s → wp (f a x) (λ a' s', I l a' s') s) →
  I l a s → wp (fold_m f a l) (λ a' s', I [] a' s') s.
Proof.
  intros Hf. revert a s. induction l as [|x l IH]; intros a s HI; cbn [fold_m]; [by apply wp_ret|].
  apply wp_bind. eapply wp_mono; [by apply Hf|]. intros a' s' H'. by apply IH.
Qed.
Lemma wp_each (I : list Z → fsst → Prop) (f : Z → PF unit) (l : list Z) s :
  (∀ x l s, I (x :: l) s → wp (f x) (λ _ s', I l s') s) → I l s → wp (each l f) (λ _ s', I [] s') s.
Proof. intros Hf HI. unfold each. apply (wp_fold (λ l _ s, I l s)); [|done]. intros _ x l' s'. apply Hf. Qed.
(** A loop left early. *)
Lemma wp_fold_until {S A R} (I : list Z → A → S → Prop) (Q : A + R → S → Prop) (f : A → Z → M S (A + R)) (l : list Z) a s :
  (∀ a x l s, I (x :: l) a s → wp (f a x) (λ y s', match y with inl a' => I l a' s' | inr r => Q (inr r) s' end) s) →
  (∀ a s, I [] a s → Q (inl a) s) →
  I l a s → wp (fold_until f a l) Q s.
Proof.
  intros Hf Hn. revert a s. induction l as [|x l IH]; intros a s HI; cbn [fold_until]; [by apply wp_ret, Hn|].
  apply wp_bind. eapply wp_mono; [by apply Hf|]. cbn beta. intros [a'|r] s' H'; [by apply IH|by apply wp_ret].
Qed.

(** One step of symbolic execution: [fs_tab] proves that an index is in its table. *)
Ltac fs_tab := first [assumption | reflexivity | solve [eauto with fs]].
Ltac fs_step :=
  lazymatch goal with
  | |- wp (mbind _ _) _ _ => apply wp_bind
  | |- wp (mret _) _ _ => apply wp_ret
  | |- wp (gets _) _ _ => apply wp_gets
  | |- wp (modify _) _ _ => apply wp_modify
  | |- wp (set_err _) _ _ => apply wp_set_err
  | |- wp (bget _ _) _ _ => apply wp_bget; [fs_tab|]
  | |- wp (bset _ _) _ _ => apply wp_bset; [fs_tab|]
  | |- wp (b2get _ _) _ _ => apply wp_b2get; [fs_tab|]
  | |- wp (b2set _ _) _ _ => apply wp_b2set; [fs_tab|]
  | |- wp (sget _ _) _ _ => apply wp_sget; [fs_tab|]
  | |- wp (sset _ _) _ _ => apply wp_sset; [fs_tab|]
  | |- wp (iget _ _) _ _ => apply wp_iget; [fs_tab|]
  | |- wp (iset _ _) _ _ => apply wp_iset; [fs_tab|]
  | |- wp (fget _ _) _ _ => apply wp_fget; [fs_tab|]
  | |- wp (fset _ _) _ _ => apply wp_fset; [fs_tab|]
  | |- wp (pget _ _) _ _ => apply wp_pget; [fs_tab|]
  | |- wp (pset _ _) _ _ => apply wp_pset; [fs_tab|]
  | |- wp (lget _ _) _ _ => apply wp_lget; [fs_tab|]
  | |- wp (lset _ _) _ _ => apply wp_lset; [fs_tab|]
  | |- wp (cget _) _ _ => apply wp_cget; [fs_tab|]
  | |- wp (cset _) _ _ => apply wp_cset; [fs_tab|]
  | |- wp (get_desc _ _) _ _ => apply wp_get_desc; [fs_tab..|]
  | |- wp (set_desc _ _ _) _ _ => apply wp_set_desc; [fs_tab..|]
  | |- wp (first_of _ _) _ _ => apply wp_first_of
  end; cbv beta.
Ltac fs_steps := repeat fs_step.
