(* ===== verification/Sortp.v ===== *)
(** * The Shell sort of the block queue

    [shell_sort] of [rw_scattered] (fs/cache.c) is a sort: its passes keep the
    buffers, a pass with gap [g] leaves the queue sorted at distance [g], and
    the last gap is 1. *)

From stdpp Require Import sorting.
From S2P Require Import Prelude Fstate Fdev Cache Fwp.

Section sort.
Implicit Types (q : list Z) (s : fsst).

Definition key s (bp : Z) : Z := b_blocknr (buf_of s bp).
Definition queued q : Prop := Forall (λ bp, 0 ≤ bp < NR_BUFS) q.
(** The entries of [q] below [n] are sorted at distance [gap], where [P] holds of the second index. *)
Definition gap_sorted s (gap : Z) q (n : Z) (P : Z → Prop) : Prop :=
  ∀ i j : nat, (i < j)%nat → Z.of_nat j < n → (gap | Z.of_nat j - Z.of_nat i) → P (Z.of_nat j) →
    key s (q !!! i) ≤ key s (q !!! j).

Lemma queued_total q (i : nat) : queued q → (i < length q)%nat → in_tab NR_BUFS (q !!! i) = true.
Proof.
  intros Hq Hi. apply in_tab_intro. exact (Forall_lookup_1 _ _ _ _ Hq (list_lookup_lookup_total_lt q i Hi)).
Qed.

Lemma wp_at_q q i Q s : 0 ≤ i < Z.of_nat (length q) → Q (q !!! Z.to_nat i) s → wp (at_q q i) Q s.
Proof.
  intros Hi HQ. unfold at_q. destruct (Z.leb_spec 0 i); [|lia].
  eapply wp_deref; [|exact HQ]. apply list_lookup_lookup_total_lt. lia.
Qed.

Definition swapped q (a b : nat) : list Z := <[a := q !!! b]> (<[b := q !!! a]> q).
Lemma swapped_length q a b : length (swapped q a b) = length q.
Proof. unfold swapped. by rewrite !length_insert. Qed.
Lemma swapped_at q a b c : (a < length q)%nat → (b < length q)%nat →
  swapped q a b !!! c = if decide (c = a) then q !!! b else if decide (c = b) then q !!! a else q !!! c.
Proof.
  intros Ha Hb. unfold swapped. case_decide; [subst; apply list_lookup_total_insert_eq; by rewrite length_insert|].
  rewrite list_lookup_total_insert_ne by done. case_decide; [subst; by apply list_lookup_total_insert_eq|].
  by rewrite list_lookup_total_insert_ne.
Qed.
Lemma swapped_perm q a b : (a < length q)%nat → (b < length q)%nat → swapped q a b ≡ₚ q.
Proof.
  intros Ha%list_lookup_lookup_total_lt Hb%list_lookup_lookup_total_lt. unfold swapped.
  by apply Permutation_insert_swap.
Qed.

(** One insertion: [q !!! j] moves down by steps of [gap]. *)
Lemma sort_insert_ok gap q j s : queued q → 1 ≤ gap ≤ j → j < Z.of_nat (length q) →
  gap_sorted s gap q j (λ _, True) →
  wp (sort_insert gap q j) (λ q' s', s' = s ∧ q' ≡ₚ q ∧ gap_sorted s gap q' (j + 1) (λ _, True)) s.
Proof.
  intros Hq Hg Hj Hs. unfold sort_insert.
  eapply (wp_loop (λ '(i, q') s', s' = s ∧ q' ≡ₚ q ∧ - gap ≤ i ≤ j - gap ∧ (gap | j - i) ∧
    gap_sorted s gap q' (j + 1) (λ k, k ≠ i + gap)) (λ '(i, _) _, Z.to_nat (i + gap))).
  2: { split_and!; [done|done|lia|lia|by exists 1; lia|].
       intros a b Hab Hb Hd Hne. apply Hs; [done|lia|done|done]. }
  2: lia.
  clear Hs. intros [i q'] ? (-> & Hp & Hi & Hdi & HI).
  assert (Hlen : length q' = length q) by (by apply Permutation_length).
  assert (Hq' : queued q') by (unfold queued; by rewrite Hp).
  destruct (Z.ltb_spec i 0).
  { apply wp_ret. split_and!; [done|done|]. intros a b Hab Hb Hd _. apply HI; [done|done|done|].
    intros ?. apply Z.divide_pos_le in Hd; lia. }
  fs_step. apply wp_at_q; [lia|]. fs_step. apply wp_at_q; [lia|].
  fs_step. apply wp_bget; [apply queued_total; [done|lia]|]. fs_step. apply wp_bget; [apply queued_total; [done|lia]|].
  fold (key s (q' !!! Z.to_nat i)) (key s (q' !!! Z.to_nat (i + gap))).
  destruct (Z.leb_spec (key s (q' !!! Z.to_nat i)) (key s (q' !!! Z.to_nat (i + gap)))) as [Hle|Hlt].
  { apply wp_ret. split_and!; [done|done|]. intros a b Hab Hb Hd _.
    destruct (decide (Z.of_nat b = i + gap)) as [Hbe|]; [|by apply HI].
    replace b with (Z.to_nat (i + gap)) by lia.
    destruct (decide (Z.of_nat a = i)) as [Hae|]; [by replace a with (Z.to_nat i) by lia|].
    etrans; [|exact Hle]. destruct Hd as [c Hc].
    assert (1 < c) by (assert (c ≠ 1) by (intros ->; lia); nia).
    assert (Z.of_nat a < i) by nia.
    apply HI; [lia|lia| |lia]. exists (c - 1). lia. }
  fs_step. unfold swap_q. fs_step. apply wp_at_q; [lia|]. fs_step. apply wp_at_q; [lia|]. fs_step. fs_step.
  fold (swapped q' (Z.to_nat i) (Z.to_nat (i + gap))).
  assert (HI' : gap_sorted s gap (swapped q' (Z.to_nat i) (Z.to_nat (i + gap))) (j + 1) (λ k, k ≠ i - gap + gap)).
  { intros a b Hab Hb [c Hc] Hne. rewrite !swapped_at by lia.
    assert (0 < c) by nia.
    destruct (decide (a = Z.to_nat i)) as [->|].
    - rewrite decide_False by lia. case_decide; [lia|]. apply HI; [|lia|exists (c - 1); lia|lia].
      assert (c ≠ 1) by (intros ->; lia). nia.
    - destruct (decide (b = Z.to_nat i)); [lia|].
      destruct (decide (a = Z.to_nat (i + gap))) as [->|].
      + rewrite decide_False by lia. apply HI; [lia|lia|exists (c + 1); lia|lia].
      + case_decide as Eb; [|apply HI; [done|done|by exists c|lia]]. subst b.
        apply HI; [|lia|exists (c - 1); lia|lia]. assert (c ≠ 1) by (intros ->; lia). nia. }
  split; [|lia]. split_and!; [done| |lia|lia| |done].
  - rewrite <- Hp. apply swapped_perm; lia.
  - destruct Hdi as [c Hc]. exists (c + 1). lia.
Qed.

Lemma sort_pass_ok gap q s : queued q → 1 ≤ gap →
  wp (sort_pass gap q) (λ q' s', s' = s ∧ q' ≡ₚ q ∧ gap_sorted s gap q' (Z.of_nat (length q)) (λ _, True)) s.
Proof.
  intros Hq Hg. unfold sort_pass. set (n := Z.of_nat (length q)).
  assert (H0 : gap_sorted s gap q gap (λ _, True)).
  { intros i j Hij Hj Hd _. apply Z.divide_pos_le in Hd; lia. }
  destruct (decide (n ≤ gap)) as [Hn|Hn].
  { rewrite seqZ_nil by lia. apply wp_ret. split_and!; [done|done|]. intros i j Hij Hj. apply H0; lia. }
  eapply wp_mono.
  - apply (wp_fold (λ l q' s', s' = s ∧ q' ≡ₚ q ∧ ∃ j, gap ≤ j ≤ n ∧ l = seqZ j (n - j) ∧
             gap_sorted s gap q' j (λ _, True))).
    2: { split_and!; [done|done|]. exists gap. split_and!; [lia|lia|done|done]. }
    intros q' x l s' (-> & Hp & j & Hj & E & HI).
    assert (j < n) by (destruct (decide (j < n)); [done|]; rewrite seqZ_nil in E by lia; done).
    rewrite seqZ_cons in E by lia. injection E as -> ->.
    eapply wp_mono; [apply sort_insert_ok; [by unfold queued; rewrite Hp|lia|rewrite Hp; lia|done]|].
    intros q'' ? (-> & Hp' & HI'). split_and!; [done|by rewrite Hp'|]. exists (j + 1).
    split_and!; [lia|lia|f_equal; lia|done].
  - intros q' ? (-> & Hp & j & Hj & E & HI). split_and!; [done|done|].
    assert (j = n) as -> by (destruct (decide (j = n)); [done|]; rewrite seqZ_cons in E by lia; done). done.
Qed.

(** The gaps: 1, 4, 13, ..., each three times the one before and one more. *)
Inductive gaps : Z → Prop :=
| gaps_1 : gaps 1
| gaps_next g : gaps g → gaps (3 * g + 1).
Lemma gaps_pos g : gaps g → 1 ≤ g.
Proof. induction 1; lia. Qed.

Lemma gap_start_ok n s : 0 ≤ n → wp (gap_start n) (λ g s', s' = s ∧ gaps g ∧ 1 < g) s.
Proof.
  intros Hn. unfold gap_start.
  apply (wp_loop (λ g s', s' = s ∧ gaps g) (λ g _, Z.to_nat (n - g))); [|split; [done|constructor]|lia].
  intros g ? [-> Hg]. apply gaps_pos in Hg as Hp. apply wp_ret.
  destruct (Z.leb_spec (3 * g + 1) n); split_and!; try done; try lia; by constructor.
Qed.

Lemma shell_sort_ok q s : queued q →
  wp (shell_sort q) (λ q' s', s' = s ∧ q' ≡ₚ q ∧ gap_sorted s 1 q' (Z.of_nat (length q')) (λ _, True)) s.
Proof.
  intros Hq. unfold shell_sort. fs_step. eapply wp_mono; [apply gap_start_ok; lia|].
  intros g ? (-> & Hg & Hg1).
  apply (wp_loop (λ '(g, q') s', s' = s ∧ q' ≡ₚ q ∧ gaps g ∧
           (g = 1 → gap_sorted s 1 q' (Z.of_nat (length q)) (λ _, True))) (λ '(g, _) _, Z.to_nat (g - 1))).
  2: { split_and!; [done|done|done|]. lia. }
  2: lia.
  clear g Hg Hg1. intros [g q'] ? (-> & Hp & Hg & HI).
  destruct (Z.eqb_spec g 1) as [->|Hg1].
  { apply wp_ret. split_and!; [done|done|]. rewrite (Permutation_length Hp). auto. }
  fs_step. inversion Hg as [E|g' Hg' E]; [done|]. apply gaps_pos in Hg' as Hp'.
  replace ((3 * g' + 1) / 3) with g' by (apply Z.div_unique with 1; lia).
  eapply wp_mono; [apply sort_pass_ok; [by unfold queued; rewrite Hp|done]|].
  intros q'' ? (-> & Hpq & HI'). apply wp_ret. split_and!; [done|by rewrite Hpq|done| |lia].
  intros ->. rewrite <- (Permutation_length Hp). exact HI'.
Qed.

Lemma gap_sorted_1 s q : gap_sorted s 1 q (Z.of_nat (length q)) (λ _, True) → StronglySorted Z.le (map (key s) q).
Proof.
  induction q as [|x q IH]; intros Hs; cbn [map]; constructor.
  - apply IH. intros i j Hij Hj _ _. apply (Hs (S i) (S j)); [lia|cbn [length]; lia|apply Z.divide_1_l|done].
  - apply Forall_forall. intros y (z & -> & Hz)%list_elem_of_fmap.
    apply list_elem_of_lookup in Hz as [i Hi]. apply lookup_lt_Some in Hi as Hlt.
    apply list_lookup_total_correct in Hi. rewrite <- Hi.
    apply (Hs O (S i)); [lia|cbn [length]; lia|apply Z.divide_1_l|done].
Qed.
End sort.
