(* ===== verification/Cachewf.v ===== *)
(** * The structure of the block cache

    The invariant of fs/cache.c: the LRU chain is a doubly linked list of the
    buffers that are not in use, the hash chains partition the buffers by their
    block numbers, and no block is in two buffers.  [rm_lru], [put_block],
    [hash_search], [hash_remove] and [hash_enter] on these structures. *)

From S2P Require Import Prelude Chain Fstate Fdev Cache Fwp.

(** A pointer of the code: [NIL] is the null pointer. *)
Definition ptr (p : Z) : option Z := if p =? NIL then None else Some p.
Lemma ptr_Some p : p ≠ NIL → ptr p = Some p.
Proof. unfold ptr. destruct (Z.eqb_spec p NIL); done. Qed.
Lemma ptr_spec p : (p = NIL ∧ ptr p = None) ∨ (p ≠ NIL ∧ ptr p = Some p).
Proof. unfold ptr. destruct (Z.eqb_spec p NIL); auto. Qed.

Section wf.
Implicit Types (s : fsst) (bp i : Z).

Definition nxt s i : option Z := ptr (b_next (buf_of s i)).
Definition prv s i : option Z := ptr (b_prev (buf_of s i)).
Definition hsh s i : option Z := ptr (b_hash (buf_of s i)).
Definition is_buf i : Prop := 0 ≤ i < NR_BUFS.

(** The LRU chain is [lru]. *)
Record lru_wf (lru : list Z) s : Prop := LruWf {
  lw_chain : dchain (nxt s) (prv s) (ptr (front s)) (ptr (rear s)) lru;
  lw_bufs : ∀ i, i ∈ lru → is_buf i;
  lw_use : bufs_in_use s = NR_BUFS - Z.of_nat (length lru)
}.

(** The hash chain of [h] is [hl h]. *)
Record hash_wf (hl : Z → list Z) s : Prop := HashWf {
  hw_chain h : chain (hsh s) (ptr (buf_hash s h)) (hl h);
  hw_bufs h i : i ∈ hl h → is_buf i
}.

(** The whole invariant, but for a buffer [x] that is between two blocks; [x] is [NIL] elsewhere. *)
Definition hash_of s i : Z := Z.land (b_blocknr (buf_of s i)) HASH_MASK.
Definition is_bufx (x i : Z) : Prop := is_buf i ∧ i ≠ x.
Record cache_wf (x : Z) (lru : list Z) (hl : Z → list Z) s : Prop := CacheWf {
  cw_lru : lru_wf lru s;
  cw_hash : hash_wf hl s;
  cw_out : x ∉ lru ∧ ∀ h, x ∉ hl h;
  cw_free i : is_bufx x i → i ∈ lru ↔ b_count (buf_of s i) = 0;
  cw_hashed h i : is_bufx x i → i ∈ hl h ↔ hash_of s i = h;
  cw_count i : is_bufx x i → 0 ≤ b_count (buf_of s i) < 2 ^ 7;
  cw_unique i j : is_bufx x i → is_bufx x j → b_dev (buf_of s i) ≠ NO_DEV →
    b_dev (buf_of s i) = b_dev (buf_of s j) → b_blocknr (buf_of s i) = b_blocknr (buf_of s j) → i = j
}.

(** What the cache routines leave alone. *)
Definition outside s :=
  (super_of s, inode_of s, filp_of s, fproc_of s, lock_of s, fp s, super_user s, dont_reply s,
   susp_count s, nr_locks s, reviving s, rdahedpos s, rdahed_inode s, fs_m s, fs_m1 s, fs_who s,
   fs_call s, user_path s, err_code s, ROOT_DEV s, IMAGE_DEV s, bp_ramsize s).
(** ... and the manipulation of the LRU chain: *)
Definition off_lru s := (outside s, buf_hash s, buf2_of s, nr_buf2 s, buf2_idx s, rdwt_err s, fs_log s).
Definition off_links (b : buf) := (b_data b, b_hash b, b_blocknr b, b_dev b, b_dirt b).
Definition off_bhash (b : buf) := (b_data b, b_next b, b_prev b, b_blocknr b, b_dev b, b_dirt b, b_count b).

Lemma is_buf_tab i : is_buf i → in_tab NR_BUFS i = true.
Proof. apply in_tab_intro. Qed.
Lemma is_buf_nil i : is_buf i → i ≠ NIL.
Proof. unfold is_buf, NIL. lia. Qed.
End wf.
#[export] Hint Resolve is_buf_tab : fs.

(** Prove a fact about each entry of a table after an update. *)
Ltac entry := intros; cbn; rewrite ?tab_set; repeat (case_decide; subst; cbn);
  try done; unfold off_links, off_bhash; cbn; split_and?; try congruence.

Section lru.
Implicit Types (s : fsst) (bp i : Z) (lru : list Z).

Lemma lru_wf_ext lru s s' :
  (∀ i, b_next (buf_of s' i) = b_next (buf_of s i)) → (∀ i, b_prev (buf_of s' i) = b_prev (buf_of s i)) →
  front s' = front s → rear s' = rear s → bufs_in_use s' = bufs_in_use s → lru_wf lru s → lru_wf lru s'.
Proof.
  intros Hn Hp Hf Hr Hu [Hc Hb Hl]. constructor; [|done|by rewrite Hu].
  rewrite Hf, Hr. eapply dchain_ext; [| |exact Hc]; intros; unfold nxt, prv; by rewrite ?Hn, ?Hp.
Qed.

Lemma ptr_end lru s : lru_wf lru s → ptr (front s) = head lru ∧ ptr (rear s) = last lru.
Proof. intros [Hc _ _]. by apply dchain_ends in Hc. Qed.

Lemma rm_lru_ok lru1 bp lru2 Q s : lru_wf (lru1 ++ bp :: lru2) s →
  (∀ s', lru_wf (lru1 ++ lru2) s' → off_lru s' = off_lru s →
     (∀ i, off_links (buf_of s' i) = off_links (buf_of s i) ∧ b_count (buf_of s' i) = b_count (buf_of s i)) → Q tt s') →
  wp (rm_lru bp) Q s.
Proof.
  intros [Hc Hb Hu] HQ. assert (Hbp : is_buf bp) by (apply Hb; set_solver).
  pose proof (dchain_next _ _ _ _ _ _ _ Hc) as Hn. pose proof (dchain_prev _ _ _ _ _ _ _ Hc) as Hp.
  pose proof (dchain_NoDup _ _ _ _ _ Hc) as Hd.
  apply dchain_unlink in Hc. unfold unlink, unlink_end in Hc. unfold nxt in Hn, Hc. unfold prv in Hp, Hc.
  unfold rm_lru. do 4 fs_step. fs_step. fs_step. cbn.
  assert (Hpb : ptr (b_prev (buf_of s bp)) ≠ None → is_buf (b_prev (buf_of s bp))).
  { intros Hne. destruct (ptr_spec (b_prev (buf_of s bp))) as [[_ E]|[_ E]]; rewrite E in *; [done|].
    symmetry in Hp. apply last_Some in Hp as [l' ->]. apply Hb. set_solver. }
  assert (Hnb : ptr (b_next (buf_of s bp)) ≠ None → is_buf (b_next (buf_of s bp))).
  { intros Hne. destruct (ptr_spec (b_next (buf_of s bp))) as [[_ E]|[_ E]]; rewrite E in *; [done|].
    symmetry in Hn. apply head_Some in Hn as [l' ->]. apply Hb. set_solver. }
  rewrite length_app in Hu. cbn [length] in Hu.
  assert (Hb' : ∀ i, i ∈ lru1 ++ lru2 → is_buf i) by (intros i Hi; apply Hb; set_solver).
  destruct (ptr_spec (b_prev (buf_of s bp))) as [[Ep Ep']|[Ep Ep']], (ptr_spec (b_next (buf_of s bp))) as [[En En']|[En En']];
    rewrite Ep', En' in *; rewrite ?(proj2 (Z.eqb_eq _ _) Ep), ?(proj2 (Z.eqb_neq _ _) Ep),
      ?(proj2 (Z.eqb_eq _ _) En), ?(proj2 (Z.eqb_neq _ _) En); cbn [negb]; fs_steps; cbn.
  all: apply HQ; [constructor; [|done|cbn; rewrite length_app; lia]|done|entry].
  all: eapply dchain_ext; [| |cbn; rewrite ?Ep', ?En'; exact Hc].
  all: unfold nxt, prv, relink; entry.
Qed.

(** The two places where [put_block] links a buffer in. *)
Lemma lru_front_ok lru bp Q s : is_buf bp → bp ∉ lru →
  dchain (nxt s) (prv s) (ptr (front s)) (ptr (rear s)) lru → (∀ i, i ∈ lru → is_buf i) →
  bufs_in_use s = NR_BUFS - Z.of_nat (S (length lru)) →
  (∀ s', lru_wf (bp :: lru) s' → off_lru s' = off_lru s →
     (∀ i, off_links (buf_of s' i) = off_links (buf_of s i) ∧ b_count (buf_of s' i) = b_count (buf_of s i)) → Q tt s') →
  wp (f ← gets front;
      bset bp (λ b, b <| b_prev := NIL |> <| b_next := f |>);;
      (if f =? NIL then modify (λ s, s <| rear := bp |>) else bset f (λ b, b <| b_prev := bp |>));;
      modify (λ s, s <| front := bp |>)) Q s.
Proof.
  intros Hbp Hni Hc Hb Hu HQ.
  assert (Hb' : ∀ i, i ∈ bp :: lru → is_buf i) by (intros i [->|?]%elem_of_cons; auto).
  assert (Hf : ptr (front s) ≠ None → is_buf (front s) ∧ front s ≠ bp).
  { intros Hne. apply dchain_ends in Hc as [Hf _]. destruct (ptr_spec (front s)) as [[_ E]|[_ E]]; rewrite E in *; [done|].
    symmetry in Hf. apply head_Some in Hf as [l' ->]. split; [apply Hb|]; set_solver. }
  pose proof (dchain_push _ _ _ _ _ _ Hni Hc) as H. unfold nxt, prv in H. fs_step. fs_step. fs_step. cbn.
  apply is_buf_nil in Hbp as Hbn.
  destruct (ptr_spec (front s)) as [[Ef Ef']|[Ef Ef']]; rewrite Ef' in *;
    rewrite ?(proj2 (Z.eqb_eq _ _) Ef), ?(proj2 (Z.eqb_neq _ _) Ef); [|destruct Hf as [Hf Hfb]; [done|]]; fs_steps; cbn.
  all: apply HQ; [constructor; [|done|done]|done|entry].
  all: eapply dchain_ext; [| |cbn; rewrite ?Ef', ?(ptr_Some bp) by done; exact H].
  all: unfold nxt, prv, relink; entry; by apply ptr_Some.
Qed.

Lemma lru_rear_ok lru bp Q s : is_buf bp → bp ∉ lru →
  dchain (nxt s) (prv s) (ptr (front s)) (ptr (rear s)) lru → (∀ i, i ∈ lru → is_buf i) →
  bufs_in_use s = NR_BUFS - Z.of_nat (S (length lru)) →
  (∀ s', lru_wf (lru ++ [bp]) s' → off_lru s' = off_lru s →
     (∀ i, off_links (buf_of s' i) = off_links (buf_of s i) ∧ b_count (buf_of s' i) = b_count (buf_of s i)) → Q tt s') →
  wp (r ← gets rear;
      bset bp (λ b, b <| b_prev := r |> <| b_next := NIL |>);;
      (if r =? NIL then modify (λ s, s <| front := bp |>) else bset r (λ b, b <| b_next := bp |>));;
      modify (λ s, s <| rear := bp |>)) Q s.
Proof.
  intros Hbp Hni Hc Hb Hu HQ.
  assert (Hb' : ∀ i, i ∈ lru ++ [bp] → is_buf i) by (intros i [?| ->%list_elem_of_singleton]%elem_of_app; auto).
  assert (Hr : ptr (rear s) ≠ None → is_buf (rear s) ∧ rear s ≠ bp).
  { intros Hne. apply dchain_ends in Hc as [_ Hr]. destruct (ptr_spec (rear s)) as [[_ E]|[_ E]]; rewrite E in *; [done|].
    symmetry in Hr. apply last_Some in Hr as [l' ->]. split; [apply Hb|]; set_solver. }
  apply dchain_sym in Hc. assert (Hni' : bp ∉ reverse lru) by (by rewrite elem_of_reverse).
  pose proof (dchain_push _ _ _ _ _ _ Hni' Hc) as H. apply dchain_sym in H. rewrite reverse_cons, reverse_involutive in H.
  unfold nxt, prv in H. fs_step. fs_step. fs_step. cbn. apply is_buf_nil in Hbp as Hbn.
  destruct (ptr_spec (rear s)) as [[Er Er']|[Er Er']]; rewrite Er' in *;
    rewrite ?(proj2 (Z.eqb_eq _ _) Er), ?(proj2 (Z.eqb_neq _ _) Er); [|destruct Hr as [Hr Hrb]; [done|]]; fs_steps; cbn.
  all: apply HQ; [constructor; [|done|cbn; rewrite length_app; cbn; lia]|done|entry].
  all: eapply dchain_ext; [| |cbn; rewrite ?Er', ?(ptr_Some bp) by done; exact H].
  all: unfold nxt, prv, relink; entry; by apply ptr_Some.
Qed.
End lru.

Section hash.
Implicit Types (s : fsst) (bp i : Z) (hl : Z → list Z).

(** What the manipulation of the hash chains leaves alone. *)
Definition off_hash s := (outside s, front s, rear s, bufs_in_use s, buf2_of s, nr_buf2 s, buf2_idx s, rdwt_err s, fs_log s).
Definition disjoint_chains hl : Prop := ∀ h h' i, i ∈ hl h → i ∈ hl h' → h = h'.

Lemma bufs_length l : NoDup l → (∀ i, i ∈ l → is_buf i) → (length l ≤ Z.to_nat NR_BUFS)%nat.
Proof.
  intros Hd Hb. assert (Hs : l ⊆+ seqZ 0 NR_BUFS).
  { apply NoDup_submseteq; [done|]. intros i Hi%Hb. apply elem_of_seqZ. unfold is_buf in Hi. lia. }
  apply submseteq_length in Hs. by rewrite length_seqZ in Hs.
Qed.

Lemma chain_ptr nx bp l : bp ≠ NIL → chain nx (ptr bp) l → ∃ l', l = bp :: l' ∧ chain nx (nx bp) l'.
Proof. intros Hn Hc. rewrite ptr_Some in Hc by done. by apply chain_Some in Hc. Qed.

Definition holds s (dev block i : Z) : bool := (b_blocknr (buf_of s i) =? block) && (b_dev (buf_of s i) =? dev).

Lemma hash_search_ok hl dev block Q s : hash_wf hl s →
  Q (List.find (holds s dev block) (hl (Z.land block HASH_MASK))) s → wp (hash_search dev block) Q s.
Proof.
  intros [Hc Hb] HQ. unfold hash_search. fs_step. fs_step.
  specialize (Hc (Z.land block HASH_MASK)). specialize (Hb (Z.land block HASH_MASK)).
  pose proof (bufs_length _ (chain_NoDup _ _ _ Hc) Hb) as Hlen.
  assert (Hf : (length (hl (Z.land block HASH_MASK)) < buf_fuel)%nat) by (unfold buf_fuel, NR_BUFS in *; lia).
  clear Hlen. revert Hc Hb Hf HQ. generalize (buf_hash s (Z.land block HASH_MASK)) as bp, (hl (Z.land block HASH_MASK)) as l, buf_fuel as fuel.
  intros bp l. revert bp. induction l as [|i l IH]; intros bp [|fuel] Hc Hb Hf HQ; cbn [length] in Hf; [lia| |lia|].
  - cbn in Hc. destruct (ptr_spec bp) as [[-> _]|[_ E]]; [|by rewrite E in Hc].
    rewrite loop_unfold. fs_step. change (NIL =? NIL) with true. cbv iota. fs_step. by fs_step.
  - destruct (ptr_spec bp) as [[_ E]|[Hn _]]; [rewrite E in Hc; by destruct Hc|].
    apply chain_ptr in Hc as (l' & [= -> ->] & Hc); [|done].
    rewrite loop_unfold. fs_step. rewrite (proj2 (Z.eqb_neq _ _) Hn). fs_step.
    apply wp_bget; [apply is_buf_tab, Hb; set_solver|]. unfold id. cbn [List.find] in HQ. unfold holds in HQ at 1.
    destruct (_ && _); fs_step; [by fs_step|]. apply (IH _ fuel); [exact Hc|set_solver|lia|exact HQ].
Qed.

Lemma hash_wf_ext hl s s' : (∀ i, b_hash (buf_of s' i) = b_hash (buf_of s i)) → buf_hash s' = buf_hash s →
  hash_wf hl s → hash_wf hl s'.
Proof.
  intros Hh Hb [Hc Hi]. constructor; [|done]. intros h. rewrite Hb.
  eapply lseg_ext; [|exact (Hc h)]. intros k _. unfold hsh. by rewrite Hh.
Qed.

(** The search for the predecessor of [bp] in its chain. *)
Lemma unhash_loop_ok bp fuel pre prev mid post h Q s : 
  chain (hsh s) h (pre ++ prev :: mid ++ bp :: post) → (∀ i, i ∈ pre ++ prev :: mid ++ bp :: post → is_buf i) →
  (length mid < fuel)%nat →
  (∀ pre' prev', pre ++ prev :: mid = pre' ++ [prev'] → 
     Q tt (s <| buf_of := <[prev' := (buf_of s prev') <| b_hash := b_hash (buf_of s bp) |>]> (buf_of s) |>)) →
  wp (loop fuel (λ prev_ptr,
      h ← bget b_hash prev_ptr;
      if h =? NIL then mret (inr tt) else
      if h =? bp then
        h' ← bget b_hash bp; bset prev_ptr (λ b, b <| b_hash := h' |>);; mret (inr tt)
      else mret (inl h)) prev) Q s.
Proof.
  revert pre prev mid. induction fuel as [|fuel IH]; intros pre prev mid Hc Hb Hf HQ; [lia|].
  rewrite loop_unfold. fs_step. fs_step. apply wp_bget; [apply is_buf_tab, Hb; set_solver|].
  pose proof (lseg_suffix _ _ _ _ _ Hc) as [_ Hn]. unfold hsh at 2 in Hn.
  destruct (ptr_spec (b_hash (buf_of s prev))) as [[_ E]|[Hne _]]; [rewrite E in Hn; destruct mid; by destruct Hn|].
  rewrite (proj2 (Z.eqb_neq _ _) Hne). pose proof (chain_NoDup _ _ _ Hc) as Hd.
  apply chain_ptr in Hn as (l' & El & _); [|done]. destruct (Z.eqb_spec (b_hash (buf_of s prev)) bp) as [Ebp|Hbp].
  - assert (mid = []) as ->.
    { destruct mid as [|m mid]; [done|]. cbn in El. injection El as -> _. rewrite Ebp in Hd.
      apply NoDup_app in Hd as (_ & _ & Hd). apply NoDup_cons in Hd as [_ Hd]. cbn in Hd. apply NoDup_cons in Hd as [Hd _]. set_solver. }
    fs_step. apply wp_bget; [apply is_buf_tab, Hb; set_solver|]. fs_step.
    apply wp_bset; [apply is_buf_tab, Hb; set_solver|]. fs_step. fs_step. by apply (HQ pre).
  - destruct mid as [|m mid]; cbn in El; injection El as Em _; [by destruct Hbp|]. subst m. fs_step.
    apply (IH (pre ++ [prev]) _ mid).
    + by rewrite <- app_assoc.
    + by rewrite <- app_assoc.
    + cbn in Hf. lia.
    + by rewrite <- app_assoc.
Qed.

Lemma hash_remove_ok hl bp l1 l2 Q s : hash_wf hl s → disjoint_chains hl →
  hl (hash_of s bp) = l1 ++ bp :: l2 →
  (∀ s', hash_wf (<[hash_of s bp := l1 ++ l2]> hl) s' → off_hash s' = off_hash s →
     (∀ i, off_bhash (buf_of s' i) = off_bhash (buf_of s i)) → Q tt s') →
  wp (hash_remove bp) Q s.
Proof.
  intros [Hc Hb] Hd El HQ. pose proof (Hc (hash_of s bp)) as Hcb. rewrite El in Hcb.
  assert (Hbp : is_buf bp) by (apply (Hb (hash_of s bp)); rewrite El; set_solver).
  assert (Hin : ∀ h i, i ∈ (<[hash_of s bp := l1 ++ l2]> hl) h → is_buf i).
  { intros h i. rewrite tab_set. case_decide; [|apply Hb]. intros Hi. apply (Hb (hash_of s bp)). rewrite El. set_solver. }
  unfold hash_remove. fs_step. fs_step. fs_step. fs_step. fold (hash_of s bp).
  destruct l1 as [|p l1].
  - destruct Hcb as [Eb Hcb]. destruct (ptr_spec (buf_hash s (hash_of s bp))) as [[_ E]|[_ E]]; rewrite E in Eb; [done|].
    injection Eb as Eb. rewrite (proj2 (Z.eqb_eq _ _) Eb). fs_step. fs_step. fs_step.
    apply HQ; [|done|done]. constructor; [|exact Hin]. intros h. cbn. rewrite !tab_set. case_decide; [exact Hcb|apply Hc].
  - assert (Hpb : buf_hash s (hash_of s bp) = p).
    { destruct Hcb as [Eb _]. destruct (ptr_spec (buf_hash s (hash_of s bp))) as [[_ E]|[_ E]]; rewrite E in Eb; [done|congruence]. }
    rewrite Hpb. pose proof (chain_NoDup _ _ _ Hcb) as Hnd.
    destruct (Z.eqb_spec p bp) as [->|_]; [cbn in Hnd; apply NoDup_cons in Hnd as [Hnd _]; set_solver|].
    assert (Hb' : ∀ i, i ∈ p :: l1 ++ bp :: l2 → is_buf i) by (intros i Hi; apply (Hb (hash_of s bp)); by rewrite El).
    pose proof (bufs_length _ Hnd Hb') as Hlen.
    apply (unhash_loop_ok bp buf_fuel [] p l1 l2 (Some p)); [by destruct Hcb as [_ ?]|exact Hb'| |].
    { cbn in Hlen. rewrite length_app in Hlen. unfold buf_fuel, NR_BUFS in *. lia. }
    intros pre' prev' E. cbn [app] in E. apply HQ; [|done|entry].
    constructor; [|exact Hin]. intros h. cbn. rewrite tab_set. case_decide as Eh.
    + subst h. rewrite E in Hcb; rewrite app_comm_cons, E. rewrite <- !app_assoc in *. apply chain_delete_after in Hcb.
      eapply lseg_ext; [|exact Hcb]. intros k _. unfold hsh, relink. entry.
    + eapply lseg_ext; [|exact (Hc h)]. intros k Hk. unfold hsh. entry.
      exfalso. apply Eh. apply (Hd _ _ k); [|done]. rewrite El, E, <- app_assoc. set_solver.
Qed.
(** Buffer [bp], which is in no chain, gets a new identity. *)
Lemma hash_enter_ok hl bp dev block Q s : hash_wf hl s → is_buf bp → (∀ h, bp ∉ hl h) →
  (∀ s', hash_wf (<[Z.land block HASH_MASK := bp :: hl (Z.land block HASH_MASK)]> hl) s' → off_hash s' = off_hash s →
     (∀ i, i ≠ bp → buf_of s' i = buf_of s i) →
     (let b := buf_of s bp in let b' := buf_of s' bp in
      b_dev b' = dev ∧ b_blocknr b' = block ∧ b_count b' = s8 (b_count b + 1) ∧
      b_data b' = b_data b ∧ b_next b' = b_next b ∧ b_prev b' = b_prev b ∧ b_dirt b' = b_dirt b) → Q tt s') →
  wp (hash_enter bp dev block) Q s.
Proof.
  intros [Hc Hb] Hbp Hni HQ. unfold hash_enter. fs_step. fs_step. fs_step. fs_step. fs_step. fs_step. fs_step.
  set (h0 := Z.land block HASH_MASK) in *. clearbody h0.
  apply HQ; [|done|entry|cbn; rewrite !fn_lookup_insert; cbn; auto 10]. constructor.
  - intros h. cbn. destruct (decide (h0 = h)) as [<-|Eh].
    + rewrite !fn_lookup_insert, ptr_Some by (by apply is_buf_nil). split; [done|]. unfold hsh at 2. cbn. rewrite !fn_lookup_insert. cbn.
      eapply lseg_ext; [|exact (Hc h0)]. intros k Hk. unfold hsh. entry. by destruct (Hni h0).
    + rewrite !(fn_lookup_insert_ne _ h0 h) by done. eapply lseg_ext; [|exact (Hc h)]. intros k Hk. unfold hsh. entry. by destruct (Hni h).
  - intros h i. rewrite tab_set. case_decide; [|apply Hb]. intros [->|?]%elem_of_cons; [done|by eapply Hb].
Qed.
End hash.
