(* ===== verification/Cachep.v ===== *)
(** * The block cache and the disks

    The law of the disk tasks, what the routines of fs/cache.c and cache2.c
    that do I/O change, and [get_block] and [put_block] on the structure of the
    cache. *)

From S2P Require Import Prelude Chain Fstate Fdev Cache Fwp Sortp Cachewf.

(** ** Disks *)

(** The devices whose blocks are in the cache: the memory, floppy and hard disks. *)
Definition disk_task (task : Z) : Prop := task = MEM ∨ task = FLOPPY ∨ task = WINCHESTER.
Definition disk_dev (dev : Z) : Prop := major_of dev = 1 ∨ major_of dev = 2 ∨ major_of dev = 3.
Definition disk_op (op : Z) : Prop := op = DEV_READ ∨ op = DEV_WRITE ∨ op = SCATTERED_IO.

(** What the cache relies on: a disk task answers a request with a reply to it,
    and never suspends FS. *)
Class DiskLaw `{World} : Prop := {
  disk_patience : (0 < patience)%nat;
  disk_reply log task mm mem : disk_task task → disk_op (m_type mm) →
    let a := fs_answer log (Sendrec task mm mem) in
    a_res a = OK ∧ REP_PROC_NR (a_msg a) = m2_i2 mm ∧ REP_STATUS (a_msg a) ≠ SUSPEND
}.

(** The task that serves a device. *)
Definition task_of (dev : Z) : Z := (find_dev dev).2.
Definition disk_call (op dev pos bytes : Z) (mem : iomem) : fcall :=
  Sendrec (task_of dev) (dev_message op (minor_of dev) FS_PROC_NR bytes pos 0 0) mem.

Section disk.
Context `{DiskLaw}.
Implicit Types (s : fsst).

Lemma disk_dev_nodev dev : disk_dev dev → dev ≠ NO_DEV.
Proof. by intros [E|[E|E]] ->. Qed.
Lemma disk_dev_find dev : disk_dev dev → ∃ t,
  disk_task t ∧ find_dev dev = (major_of dev, minor_of dev, t) ∧ in_tab max_major (major_of dev) = true ∧
  ∃ d, dmap_table !! Z.to_nat (major_of dev) = Some d ∧ dmap_rw d = Call_task.
Proof.
  intros Hd. unfold find_dev. destruct Hd as [E|[E|E]]; rewrite E; cbn; eexists; split_and!;
    try reflexivity; unfold disk_task; eauto.
Qed.

Definition answer_of s (c : fcall) : fanswer := fs_answer (fs_log s) c.
Definition io_status s (c : fcall) : Z := REP_STATUS (a_msg (answer_of s c)).
Definition logged (c : fcall) s : fsst := s <| fs_log := c :: fs_log s |>.

(** A request to a disk is one exchange of messages. *)
Lemma dev_io_ok op dev pos bytes mem (Q : Z * list (Z * list Z) → fsst → Prop) s : disk_dev dev → disk_op op →
  let c := disk_call op dev pos bytes mem in
  Q (io_status s c, a_data (answer_of s c)) (logged c s) →
  wp (dev_io op 0 dev pos bytes FS_PROC_NR 0 mem) Q s.
Proof.
  intros Hd Ho c HQ. destruct (disk_dev_find dev Hd) as (t & Ht & Ef & Hm & d & Ed & Er).
  unfold c, disk_call, io_status, answer_of, task_of, dev_io in *. rewrite Ef in *. cbn [snd] in *.
  set (mm := dev_message op (minor_of dev) FS_PROC_NR bytes pos 0 0) in *.
  destruct (disk_reply (fs_log s) t mm mem Ht Ho) as (Ea & Ep & Es).
  pose proof disk_patience as Hpat. fs_step.
  apply (wp_mono _ (λ x s', x = (a_msg (fs_answer (fs_log s) (Sendrec t mm mem)), a_data (fs_answer (fs_log s) (Sendrec t mm mem))) ∧
           s' = logged (Sendrec t mm mem) s)).
  - unfold dmap_rw_call, dmap_at. rewrite Hm. fs_step. eapply wp_deref; [exact Ed|]. rewrite Er.
    unfold call_task, call_task_send, call_task_reply. destruct patience as [|n]; [lia|].
    fs_step. rewrite !loop_unfold. fs_step. fs_step. unfold ask at 1. unfold wp at 1.
    rewrite Ea. change (negb (OK =? ELOCKED)) with true. cbv iota. fs_step. fs_step. fs_step. cbn.
    rewrite loop_unfold. fs_step. change (negb (OK =? OK)) with false. cbv iota.
    rewrite Ep. change (m2_i2 mm) with FS_PROC_NR. rewrite Z.eqb_refl. fs_step. fs_step. by fs_step.
  - intros [m' data] s' [[= -> ->] ->]. destruct (Z.eqb_spec (REP_STATUS (a_msg (fs_answer (fs_log s) (Sendrec t mm mem)))) SUSPEND); [done|].
    cbn [negb]. by fs_step.
Qed.
End disk.

(** ** What I/O changes: the contents and the state of the buffers, not the chains *)
Section quiet.
Context `{DiskLaw}.
Implicit Types (s : fsst) (bp i : Z).

(** The variables that I/O leaves alone. *)
Definition off_io s := (outside s, front s, rear s, bufs_in_use s, buf_hash s).
Definition links (b : buf) := (b_next b, b_prev b, b_hash b, b_blocknr b, b_count b).

(** The secondary cache is off, or its tables are in range. *)
Definition cache2_wf s : Prop :=
  0 ≤ nr_buf2 s ≤ MAX_BUF2 ∧ (nr_buf2 s = 0 ∨ 0 ≤ buf2_idx s < nr_buf2 s).

(** [quiet X s s']: of the buffers, only those of [X] get new contents; a buffer may
    become invalid. *)
Record quiet (X : Z → Prop) s s' : Prop := Quiet {
  q_off : off_io s' = off_io s;
  q_links i : links (buf_of s' i) = links (buf_of s i);
  q_dev i : b_dev (buf_of s' i) = b_dev (buf_of s i) ∨ b_dev (buf_of s' i) = NO_DEV;
  q_data i : ¬ X i → b_data (buf_of s' i) = b_data (buf_of s i);
  q_cache2 : cache2_wf s → cache2_wf s'
}.
Definition nobuf (i : Z) : Prop := False.

Lemma quiet_refl X s : quiet X s s.
Proof. constructor; auto. Qed.
Lemma quiet_trans X s1 s2 s3 : quiet X s1 s2 → quiet X s2 s3 → quiet X s1 s3.
Proof.
  intros [O1 L1 D1 T1 C1] [O2 L2 D2 T2 C2]. constructor; [congruence| | | |auto].
  - intros i. by rewrite L2, L1.
  - intros i. destruct (D2 i) as [->|]; auto.
  - intros i Hi. rewrite T2, T1; auto.
Qed.
Lemma quiet_mono (X Y : Z → Prop) s s' : (∀ i, X i → Y i) → quiet X s s' → quiet Y s s'.
Proof. intros HXY [O L D T C]. constructor; auto. Qed.

Lemma quiet_logged X c s : quiet X s (logged c s).
Proof. constructor; auto. Qed.

(** Updates of one buffer that are quiet. *)
Lemma quiet_bset (X : Z → Prop) i (g : buf → buf) s :
  (let b := buf_of s i in links (g b) = links b ∧ (b_dev (g b) = b_dev b ∨ b_dev (g b) = NO_DEV) ∧
     (¬ X i → b_data (g b) = b_data b)) →
  quiet X s (s <| buf_of := <[i := g (buf_of s i)]> (buf_of s) |>).
Proof.
  intros (Hl & Hd & Ht). constructor; [done| | | |done]; intros j; cbn; rewrite tab_set; case_decide; subst; auto.
Qed.

Lemma q_blocknr X s s' i : quiet X s s' → b_blocknr (buf_of s' i) = b_blocknr (buf_of s i).
Proof. intros Hq. pose proof (q_links _ _ _ Hq i) as E. by injection E. Qed.
Lemma q_count X s s' i : quiet X s s' → b_count (buf_of s' i) = b_count (buf_of s i).
Proof. intros Hq. pose proof (q_links _ _ _ Hq i) as E. by injection E. Qed.

Lemma quiet_lru X s s' lru : quiet X s s' → lru_wf lru s → lru_wf lru s'.
Proof.
  intros Hq. pose proof (q_off _ _ _ Hq) as E.
  apply lru_wf_ext; [..|exact (f_equal (λ x, x.1.1.1.2) E)|exact (f_equal (λ x, x.1.1.2) E)|exact (f_equal (λ x, x.1.2) E)]; clear E; intros i; pose proof (q_links _ _ _ Hq i) as E; by injection E.
Qed.
Lemma quiet_hash X s s' hl : quiet X s s' → hash_wf hl s → hash_wf hl s'.
Proof.
  intros Hq. pose proof (q_off _ _ _ Hq) as E.
  apply hash_wf_ext; [|exact (f_equal (λ x, x.2) E)]; clear E; intros i; pose proof (q_links _ _ _ Hq i) as E; by injection E.
Qed.
Lemma quiet_outside X s s' : quiet X s s' → outside s' = outside s.
Proof. intros Hq. exact (f_equal (λ x, x.1.1.1.1) (q_off _ _ _ Hq)). Qed.

(** [rw_block] writes the buffer back, or fills it. *)
Lemma rw_block_ok bp rw_flag Q s : is_buf bp → (b_dev (buf_of s bp) = NO_DEV ∨ disk_dev (b_dev (buf_of s bp))) →
  (∀ s', quiet (λ i, i = bp ∧ rw_flag = READING) s s' → b_dirt (buf_of s' bp) = false → Q tt s') →
  wp (rw_block bp rw_flag) Q s.
Proof.
  intros Hbp Hd HQ. unfold rw_block. fs_step. fs_step. unfold id. fs_step.
  eapply (wp_mono _ (λ _ s', quiet (λ i, i = bp ∧ rw_flag = READING) s s')).
  2: { intros _ s' Hq. fs_step. apply HQ; [|cbn; by rewrite tab_set, decide_True].
       eapply quiet_trans; [exact Hq|]. apply quiet_bset. cbn. auto. }
  apply wp_when; [|intros _; apply quiet_refl]. intros En. destruct Hd as [Hd|Hd]; [rewrite Hd in En; done|].
  fs_step. set (pos := u32 _).
  eapply (wp_mono _ (λ _ s', quiet (λ i, i = bp ∧ rw_flag = READING) s s')).
  { destruct (rw_flag =? READING); (apply dev_io_ok; [done|unfold disk_op; tauto|]); apply quiet_logged. }
  intros [r data] s1 Hq. fs_step.
  eapply (wp_mono _ (λ _ s', quiet (λ i, i = bp ∧ rw_flag = READING) s s')).
  { apply wp_when; [|done]. intros Ef%Z.eqb_eq. unfold fill_block. fs_step. eapply quiet_trans; [exact Hq|].
    apply quiet_bset. cbn. split_and!; [done|auto|]. intros []; auto. }
  clear Hq. intros _ s2 Hq. apply wp_when; [|done]. intros _. fs_step. fs_step.
  assert (Hq' : quiet (λ i, i = bp ∧ rw_flag = READING) s
            (s2 <| buf_of := <[bp := (buf_of s2 bp) <| b_dev := NO_DEV |>]> (buf_of s2) |>)).
  { eapply quiet_trans; [exact Hq|]. apply quiet_bset with (g := λ b, b <| b_dev := NO_DEV |>). cbn. auto. }
  apply wp_when; [|done]. intros _. fs_step. destruct Hq'. by constructor.
Qed.
End quiet.

(** ** Writing buffers back *)
Section flush.
Context `{DiskLaw}.
Implicit Types (s : fsst) (q : list Z).

(** The request for a queue of buffers, and a buffer after it. *)
Definition batch_call s dev q : fcall :=
  disk_call SCATTERED_IO dev 0 (Z.of_nat (length q)) (Iovec (map (request_of WRITING) (map (buf_of s) q))).
Definition written (nbytes : Z) (b : buf) : buf :=
  (if nbytes =? 0 then b else b <| b_dev := NO_DEV |>) <| b_dirt := false |>.

Lemma seqZ_uncons x l m n : x :: l = seqZ m (n - m) → x = m ∧ m < n ∧ l = seqZ (m + 1) (n - (m + 1)).
Proof.
  intros E. destruct (decide (m < n)); [|rewrite seqZ_nil in E by lia; done].
  rewrite seqZ_cons in E by lia. injection E as -> ->. split_and!; [done|done|f_equal; lia].
Qed.

Lemma harvest_write_ok dev bp nbytes Q s : is_buf bp →
  (∀ f, (∀ i, f i = if decide (i = bp) then written nbytes (buf_of s bp) else buf_of s i) →
     Q tt (s <| buf_of := f |>)) → wp (harvest_one dev WRITING bp nbytes) Q s.
Proof.
  intros Hbp HQ. unfold harvest_one. change (WRITING =? READING) with false. cbv iota. fs_step.
  apply wp_when; intros E; [fs_step|]; fs_step; apply HQ; intros i; unfold written; entry;
    [apply negb_true_iff in E|apply negb_false_iff in E]; by rewrite E.
Qed.

(** The state after the first [j] buffers of the queue. *)
Definition batch_done s dev q (j : Z) s' : Prop := ∃ f,
  s' = (logged (batch_call s dev q) s) <| buf_of := f |> ∧
  (∀ i bp, q !! i = Some bp → f bp =
     if decide (Z.of_nat i < j) then written (harvest (a_data (answer_of s (batch_call s dev q))) i).1 (buf_of s bp)
     else buf_of s bp) ∧
  (∀ bp, bp ∉ q → f bp = buf_of s bp).

Lemma rw_batch_ok dev q Q s : disk_dev dev → queued q → NoDup q →
  (∀ s', batch_done s dev q (Z.of_nat (length q)) s' → Q tt s') → wp (rw_batch dev q WRITING) Q s.
Proof.
  intros Hd Hq Hn HQ. unfold rw_batch. fs_step. fs_step. fs_step. apply dev_io_ok; [done|unfold disk_op; tauto|].
  change (WRITING =? READING) with false. fs_step. cbn [when]. fs_step.
  fold (batch_call s dev q). set (c := batch_call s dev q). set (n := Z.of_nat (length q)).
  eapply wp_mono.
  { apply (wp_each (λ l s', ∃ j, 0 ≤ j ≤ n ∧ l = seqZ j (n - j) ∧ batch_done s dev q j s')).
    - intros x l s1 (j & Hj & E & f & -> & Hin & Hout). apply seqZ_uncons in E as (-> & Hlt & ->).
      destruct (lookup_lt_is_Some_2 q (Z.to_nat j)) as [bp Ebp]; [lia|].
      fs_step. unfold at_q. destruct (Z.leb_spec 0 j); [|lia]. eapply wp_deref; [exact Ebp|].
      apply harvest_write_ok; [by apply (Forall_lookup_1 _ _ _ _ Hq Ebp)|]. intros f' Hf'.
      exists (j + 1). split_and!; [lia|lia|done|]. exists f'. split_and!; [done| |].
      + intros i bp' Ei. rewrite Hf'. cbn. case_decide as Ee.
        * subst bp'. assert (i = Z.to_nat j) as -> by (by eapply NoDup_lookup).
          rewrite decide_True by lia. rewrite (Hin _ _ Ebp), decide_False by lia. done.
        * rewrite (Hin _ _ Ei). assert (i ≠ Z.to_nat j) by (intros ->; congruence).
          destruct (decide (Z.of_nat i < j)); [rewrite decide_True by lia|rewrite decide_False by lia]; done.
      + intros bp' Hbp'. rewrite Hf'. cbn. rewrite decide_False; [by apply Hout|].
        intros ->. apply Hbp'. by apply list_elem_of_lookup_2 in Ebp.
    - exists 0. split_and!; [lia|lia|f_equal; lia|]. exists (buf_of s). split_and!; [done| |done].
      intros i bp Ei. by rewrite decide_False by lia. }
  intros [] s1 (j & Hj & E & Hf). apply HQ. fold n.
  assert (j = n) as Ej by (destruct (decide (j = n)); [done|]; rewrite seqZ_cons in E by lia; done). by rewrite <- Ej.
Qed.

Lemma batch_done_quiet s dev q s' X : queued q → batch_done s dev q (Z.of_nat (length q)) s' → quiet X s s'.
Proof.
  intros Hq (f & -> & Hin & Hout).
  assert (Hf : ∀ i, f i = buf_of s i ∨ ∃ n, f i = written n (buf_of s i)).
  { intros i. destruct (decide (i ∈ q)) as [[j Hj]%list_elem_of_lookup|Hi]; [|left; by apply Hout].
    right. rewrite (Hin _ _ Hj). apply lookup_lt_Some in Hj as Hl. rewrite decide_True by lia. eauto. }
  constructor; [done|..|done]; intros i; cbn; destruct (Hf i) as [->|[m ->]]; auto;
    unfold written; destruct (m =? 0); cbn; auto.
Qed.

(** The dirty buffers of a device, in the order in which they are written. *)
Definition dirty_bufs s dev : list Z :=
  base.filter (λ bp, b_dirt (buf_of s bp) = true ∧ b_dev (buf_of s bp) = dev) all_bufs.
Lemma dirty_queued s dev : queued (dirty_bufs s dev) ∧ NoDup (dirty_bufs s dev).
Proof.
  split; [|apply NoDup_filter, NoDup_seqZ]. apply Forall_forall. intros bp [_ Hb]%list_elem_of_filter.
  apply elem_of_seqZ in Hb. lia.
Qed.

(** An invariant of the batches is an invariant of [rw_scattered]. *)
Lemma rw_scattered_ok (I : list Z → fsst → Prop) dev q Q s : disk_dev dev → queued q → NoDup q →
  (∀ q', q' ≡ₚ q → I q' s) →
  (∀ q1 q2 s1 s2, NoDup (q1 ++ q2) → queued (q1 ++ q2) → I (q1 ++ q2) s1 →
     batch_done s1 dev q1 (Z.of_nat (length q1)) s2 → I q2 s2) →
  (∀ s', I [] s' → Q tt s') → wp (rw_scattered dev q WRITING) Q s.
Proof.
  intros Hd Hq Hn H0' Hstep HQ. unfold rw_scattered. fs_step. eapply wp_mono; [by apply shell_sort_ok|].
  intros q' ? (-> & Hp & _).
  apply (wp_loop (λ q s, queued q ∧ NoDup q ∧ I q s) (λ q _, length q)).
  2: { split_and!; [unfold queued; by rewrite Hp|by rewrite Hp|by apply H0']. }
  2: lia.
  clear q' Hp. intros [|x q'] s' (Hq' & Hn' & HI); [fs_step; by apply HQ|].
  rewrite <- (take_drop (Z.to_nat NR_IOREQS) (x :: q')) in Hq', Hn', HI.
  set (q1 := take (Z.to_nat NR_IOREQS) (x :: q')) in *. set (q2 := drop (Z.to_nat NR_IOREQS) (x :: q')) in *.
  pose proof Hq' as [Hq1 Hq2]%Forall_app. pose proof Hn' as (Hn1 & _ & Hn2)%NoDup_app.
  fs_step. apply rw_batch_ok; [done|done|done|]. intros s2 Hb. fs_step. split_and!; [done|done|by eapply Hstep|].
  subst q2. rewrite length_drop. unfold NR_IOREQS. cbn [length]. lia.
Qed.

Lemma flushall_ok dev Q s : disk_dev dev → (∀ s', quiet nobuf s s' → Q tt s') → wp (flushall dev) Q s.
Proof.
  intros Hd HQ. unfold flushall. fs_step. fs_step. destruct (dirty_queued s dev).
  apply (rw_scattered_ok (λ _ s', quiet nobuf s s')); [done|done|done| | |exact HQ].
  - intros. apply quiet_refl.
  - intros q1 q2 s1 s2 _ [Hq1 _]%Forall_app Hq Hb. eapply quiet_trans; [exact Hq|by eapply batch_done_quiet].
Qed.
End flush.

(** ** The secondary cache *)
Section cache2.
Context `{DiskLaw}.
Implicit Types (s : fsst).

Lemma hash2_tab b : in_tab MAX_BUF2 (hash2 b) = true.
Proof.
  apply in_tab_intro. unfold hash2. change (MAX_BUF2 - 1) with (Z.ones 10). rewrite Z.land_ones by lia.
  by apply Z.mod_pos_bound.
Qed.
Hint Resolve hash2_tab : fs.
Lemma ram_disk : disk_dev DEV_RAM.
Proof. by left. Qed.

Lemma quiet_b2 (X : Z → Prop) s s' f : quiet X s s' → quiet X s (s' <| buf2_of := f |>).
Proof. intros []. by constructor. Qed.

Lemma fill_block_quiet (X : Z → Prop) s0 bp l Q s : is_buf bp → X bp → quiet X s0 s →
  (∀ s', quiet X s0 s' → Q tt s') → wp (fill_block bp l) Q s.
Proof.
  intros Hbp HX Hq HQ. unfold fill_block. fs_step. apply HQ. eapply quiet_trans; [exact Hq|].
  apply quiet_bset. cbn. split_and!; [done|auto|by intros []].
Qed.

Lemma search2_ok dev block s : cache2_wf s → 0 < nr_buf2 s →
  wp (search2 dev block) (λ r s', s' = s ∧ ∀ b, r = Some b → 0 ≤ b < nr_buf2 s) s.
Proof.
  intros [Hn Hi] Hp. unfold search2. fs_step. fs_step. fs_step. fs_step. set (n := nr_buf2 s) in *. set (idx := buf2_idx s) in *.
  apply (wp_loop (λ b s', s' = s ∧ 0 ≤ b < n) (λ b _, Z.to_nat (if b <=? idx then b + n - idx else b - idx))).
  3: { zcmp. }
  2: { split; [done|lia]. }
  intros b ? [-> Hb].
  assert (Hb' : 0 ≤ (if b =? 0 then n else b) - 1 < n) by (destruct (Z.eqb_spec b 0); lia).
  fs_step. apply wp_b2get; [apply in_tab_intro; lia|]. destruct (_ && _).
  { fs_step. split; [done|]. intros ? [= <-]. lia. }
  destruct (Z.eqb_spec ((if b =? 0 then n else b) - 1) idx) as [E|E]; fs_step; [done|].
  split; [done|]. revert Hb' E. zcmp.
Qed.

Lemma get_block2_ok bp only Q s : is_buf bp → cache2_wf s →
  (∀ r s', quiet (λ i, i = bp) s s' → Q r s') → wp (get_block2 bp only) Q s.
Proof.
  intros Hbp Hc HQ. unfold get_block2. fs_step. fs_step. unfold id. fs_step.
  eapply (wp_mono _ (λ _ s', quiet (λ i, i = bp) s s')).
  { apply wp_when; intros _; [fs_step|apply quiet_refl]. constructor; auto. intros _. split; cbn; [unfold MAX_BUF2; lia|by left]. }
  intros [] s1 Hq. apply (q_cache2 _ _ _ Hq) in Hc as Hc1. fs_step. fs_step. fs_step.
  apply wp_b2get; [apply hash2_tab|]. destruct (Z.eqb_spec (nr_buf2 s1) 0) as [|En]; [by apply HQ|].
  destruct (_ || _); [by apply HQ|]. fs_step.
  eapply wp_mono; [apply search2_ok; [done|unfold cache2_wf in Hc1; lia]|].
  intros [i|] ? [-> Hi]; [|by apply HQ]. fs_step. apply dev_io_ok; [apply ram_disk|unfold disk_op; tauto|].
  fs_step. apply (fill_block_quiet (λ i, i = bp) s); [done|done|eapply quiet_trans; [exact Hq|apply quiet_logged]|].
  intros s2 Hq2. fs_step. by apply HQ.
Qed.

Lemma put_block2_ok bp Q s : is_buf bp → cache2_wf s → (∀ s', quiet nobuf s s' → Q tt s') → wp (put_block2 bp) Q s.
Proof.
  intros Hbp Hc HQ. unfold put_block2. fs_step. fs_step.
  destruct (Z.eqb_spec (nr_buf2 s) 0) as [|Hn]; [fs_step; apply HQ, quiet_refl|].
  destruct Hc as [Hn2 [?|Hi]]; [done|]. fs_step. fs_step. fs_step. fs_step. fs_step. fs_step. fs_step.
  set (s1 := s <| buf2_idx := _ |>).
  assert (Hq1 : quiet nobuf s s1).
  { constructor; auto. intros _. split; [done|]. right. cbn. unfold u16. rewrite Z.mod_small by (unfold MAX_BUF2 in *; lia). zcmp. }
  apply dev_io_ok; [apply ram_disk|unfold disk_op; tauto|].
  match goal with |- context [logged ?c s1] =>
    assert (Hq2 : quiet nobuf s (logged c s1)) by (eapply quiet_trans; [exact Hq1|apply quiet_logged]);
    set (s2 := logged c s1) in * end.
  destruct (negb _); [fs_step; by apply HQ|]. assert (in_tab MAX_BUF2 (buf2_idx s) = true) by (apply in_tab_intro; lia).
  fs_step. fs_step. unfold id.
  fs_step. eapply (wp_mono _ (λ _ s', quiet nobuf s s')).
  { apply wp_when; intros _; [|done]. fs_step. by apply quiet_b2. }
  intros [] s3 Hq3. fs_step. fs_step. fs_step. by apply HQ, quiet_b2, quiet_b2.
Qed.
End cache2.

(** ** [get_block] and [put_block] *)
Section get.
Context `{DiskLaw}.
Implicit Types (s : fsst) (hl : Z → list Z) (lru : list Z).

(** The invariant of the cache. *)
Record cache_inv s : Prop := CacheInv {
  ci_wf : ∃ lru hl, cache_wf NIL lru hl s;
  ci_dev i : is_buf i → b_dev (buf_of s i) = NO_DEV ∨ disk_dev (b_dev (buf_of s i));
  ci_cache2 : cache2_wf s
}.

Definition core (b : buf) := (b_dev b, b_blocknr b, b_count b).
Lemma bufx_nil i : is_bufx NIL i ↔ is_buf i.
Proof. split; [by intros []|]. intros Hi. split; [done|by apply is_buf_nil]. Qed.

Lemma quiet_wf X x lru hl s s' : quiet X s s' → cache_wf x lru hl s → cache_wf x lru hl s'.
Proof.
  intros Hq [Hl Hh Ho Hf Hd Hc Hu]. constructor; [by eapply quiet_lru|by eapply quiet_hash|done|..].
  - intros i Hi. rewrite (q_count _ _ _ _ Hq). auto.
  - intros h i Hi. unfold hash_of. rewrite (q_blocknr _ _ _ _ Hq). by apply Hd.
  - intros i Hi. rewrite (q_count _ _ _ _ Hq). auto.
  - intros i j Hi Hj. rewrite !(q_blocknr _ _ _ _ Hq).
    destruct (q_dev _ _ _ Hq i) as [->| ->], (q_dev _ _ _ Hq j) as [->| ->]; try done; intros ??; by apply Hu.
Qed.
Lemma quiet_devs X s s' : quiet X s s' →
  (∀ i, is_buf i → b_dev (buf_of s i) = NO_DEV ∨ disk_dev (b_dev (buf_of s i))) →
  (∀ i, is_buf i → b_dev (buf_of s' i) = NO_DEV ∨ disk_dev (b_dev (buf_of s' i))).
Proof. intros Hq Hd i Hi. destruct (q_dev _ _ _ Hq i) as [->| ->]; auto. Qed.

Lemma hl_disjoint lru hl s : cache_wf NIL lru hl s → disjoint_chains hl.
Proof.
  intros W h h' i Hi Hi'. assert (Hb : is_bufx NIL i) by (apply bufx_nil; by eapply hw_bufs, Hi; apply W).
  apply (cw_hashed _ _ _ _ W _ _ Hb) in Hi as <-. by apply (cw_hashed _ _ _ _ W _ _ Hb) in Hi'.
Qed.

(** A buffer taken off both chains. *)
Lemma evicted_wf l1 bp l2 h1 h2 hl s s' : cache_wf NIL (l1 ++ bp :: l2) hl s →
  hl (hash_of s bp) = h1 ++ bp :: h2 → (∀ i, core (buf_of s' i) = core (buf_of s i)) →
  lru_wf (l1 ++ l2) s' → hash_wf (<[hash_of s bp := h1 ++ h2]> hl) s' →
  cache_wf bp (l1 ++ l2) (<[hash_of s bp := h1 ++ h2]> hl) s'.
Proof.
  intros W Eh Hcore Hl' Hh'. pose proof (hl_disjoint _ _ _ W) as Hdis. destruct W as [Hl Hh Ho Hf Hd Hc Hu].
  pose proof (dchain_NoDup _ _ _ _ _ (lw_chain _ _ Hl)) as Hnl. pose proof (chain_NoDup _ _ _ (hw_chain _ _ Hh (hash_of s bp))) as Hnh.
  rewrite Eh in Hnh. apply NoDup_app in Hnl as (_ & Hnl1 & [Hnl2 _]%NoDup_cons). apply NoDup_app in Hnh as (_ & Hnh1 & [Hnh2 _]%NoDup_cons).
  assert (Hn : ∀ i, is_bufx bp i → is_bufx NIL i) by (intros i [? _]; by apply bufx_nil).
  constructor; [done|done| | | | |].
  - split; [set_solver|]. intros h. rewrite tab_set. case_decide as E; [set_solver|]. intros Hbp. apply E.
    apply (Hdis _ _ bp); [|done]. rewrite Eh. set_solver.
  - intros i Hi. injection (Hcore i) as _ _ ->. rewrite <- (Hf i) by auto. destruct Hi. set_solver.
  - intros h i Hi. unfold hash_of at 2. injection (Hcore i) as _ -> _. fold (hash_of s i). rewrite <- (Hd h i) by auto.
    rewrite tab_set. case_decide as E; [|done]. subst h. rewrite Eh. destruct Hi. set_solver.
  - intros i Hi. injection (Hcore i) as _ _ ->. auto.
  - intros i j Hi Hj. injection (Hcore i) as -> -> _. injection (Hcore j) as -> -> _. auto.
Qed.

(** A buffer off both chains that has got a new identity. *)
Lemma entered_wf bp lru hl block s s' : is_buf bp → cache_wf bp lru hl s → b_count (buf_of s bp) = 0 →
  (∀ i, i ≠ bp → is_buf i → b_dev (buf_of s' bp) ≠ NO_DEV → holds s (b_dev (buf_of s' bp)) block i = false) →
  lru_wf lru s' → hash_wf (<[Z.land block HASH_MASK := bp :: hl (Z.land block HASH_MASK)]> hl) s' →
  (∀ i, i ≠ bp → buf_of s' i = buf_of s i) → b_blocknr (buf_of s' bp) = block → b_count (buf_of s' bp) = 1 →
  cache_wf NIL lru (<[Z.land block HASH_MASK := bp :: hl (Z.land block HASH_MASK)]> hl) s'.
Proof.
  intros Hbp [Hl Hh [Ho1 Ho2] Hf Hd Hc Hu] H0' Hnew Hl' Hh' Hsame Eb Ec.
  assert (Hx : ∀ i, is_bufx NIL i → i ≠ bp → is_bufx bp i) by (intros i [? _] ?; done).
  constructor; [done|done| | | | |].
  - split; [|intros h]; intros Hi; [apply (lw_bufs _ _ Hl') in Hi|apply (hw_bufs _ _ Hh') in Hi]; by apply is_buf_nil in Hi.
  - intros i Hi. destruct (decide (i = bp)) as [->|Hne]; [rewrite Ec; done|]. rewrite Hsame by done. auto.
  - intros h i Hi. unfold hash_of. rewrite tab_set. destruct (decide (i = bp)) as [->|Hne].
    + rewrite Eb. case_decide; [set_solver|]. split; [intros Hbp'; by destruct (Ho2 h)|done].
    + rewrite Hsame by done. fold (hash_of s i). rewrite <- (Hd h i) by auto. case_decide; [subst; set_solver|done].
  - intros i Hi. destruct (decide (i = bp)) as [->|Hne]; [rewrite Ec; lia|]. rewrite Hsame by done. auto.
  - assert (Hbad : ∀ i, is_bufx NIL i → i ≠ bp → b_dev (buf_of s' bp) ≠ NO_DEV →
              b_dev (buf_of s i) = b_dev (buf_of s' bp) → b_blocknr (buf_of s i) = block → False).
    { intros i [Hi _] Hne Hd1 Hd2 Hd3. specialize (Hnew i Hne Hi Hd1). unfold holds in Hnew.
      by rewrite Hd2, Hd3, !Z.eqb_refl in Hnew. }
    intros i j Hi Hj. destruct (decide (i = bp)) as [->|Hni], (decide (j = bp)) as [->|Hnj]; [done| | |];
      rewrite ?(Hsame i), ?(Hsame j) by done; intros ???; [|exfalso..|auto].
    + exfalso. apply (Hbad j); congruence.
    + apply (Hbad i); congruence.
Qed.

(** A buffer of the cache that gets one more user. *)
Lemma bumped_wf bp lru lru' hl s s' : is_buf bp → cache_wf NIL lru hl s →
  lru_wf lru' s' → hash_wf hl s' → (∀ i, i ∈ lru' ↔ i ∈ lru ∧ i ≠ bp) →
  (∀ i, i ≠ bp → core (buf_of s' i) = core (buf_of s i)) →
  b_dev (buf_of s' bp) = b_dev (buf_of s bp) → b_blocknr (buf_of s' bp) = b_blocknr (buf_of s bp) →
  b_count (buf_of s' bp) = b_count (buf_of s bp) + 1 → b_count (buf_of s bp) + 1 < 2 ^ 7 →
  cache_wf NIL lru' hl s'.
Proof.
  intros Hbp [Hl Hh [Ho1 Ho2] Hf Hd Hc Hu] Hl' Hh' Hin Hcore Ed Eb Ec Hlt.
  assert (Hdb : ∀ i, b_dev (buf_of s' i) = b_dev (buf_of s i) ∧ b_blocknr (buf_of s' i) = b_blocknr (buf_of s i)).
  { intros i. destruct (decide (i = bp)) as [->|Hne]; [done|]. by injection (Hcore i Hne) as -> -> _. }
  assert (Hcb : ∀ i, i ≠ bp → b_count (buf_of s' i) = b_count (buf_of s i)).
  { intros i Hne. by injection (Hcore i Hne) as _ _ ->. }
  pose proof (Hc bp (proj2 (bufx_nil _) Hbp)) as Hcbp.
  constructor; [done|done| | | | |].
  - split; [|done]. rewrite Hin. tauto.
  - intros i Hi. rewrite Hin. destruct (decide (i = bp)) as [->|Hne]; [rewrite Ec; lia|]. rewrite Hcb by done. rewrite <- (Hf i) by done. tauto.
  - intros h i Hi. unfold hash_of. destruct (Hdb i) as [_ ->]. by apply Hd.
  - intros i Hi. destruct (decide (i = bp)) as [->|Hne]; [rewrite Ec; lia|]. rewrite Hcb by done. auto.
  - intros i j Hi Hj. destruct (Hdb i) as [-> ->], (Hdb j) as [-> ->]. auto.
Qed.

Lemma holds_find lru hl s dev block : cache_wf NIL lru hl s →
  match List.find (holds s dev block) (hl (Z.land block HASH_MASK)) with
  | Some i => is_buf i ∧ holds s dev block i = true
  | None => ∀ i, is_buf i → holds s dev block i = false
  end.
Proof.
  intros W. destruct (List.find _ _) as [i|] eqn:E.
  - apply List.find_some in E as [Hi Hh]. split; [|done]. apply list_elem_of_In in Hi. by eapply hw_bufs, Hi; apply W.
  - intros i Hi. destruct (holds s dev block i) eqn:Eh; [|done].
    assert (Hin : i ∈ hl (Z.land block HASH_MASK)).
    { apply (cw_hashed _ _ _ _ W); [by apply bufx_nil|]. unfold holds in Eh. apply andb_true_iff in Eh as [Eb%Z.eqb_eq _].
      unfold hash_of. by rewrite Eb. }
    apply list_elem_of_In in Hin. pose proof (List.find_none _ _ E i Hin). congruence.
Qed.

(** A buffer that keeps its contents, and its device if no I/O on it fails. *)
Definition kept (b b' : buf) : Prop :=
  b_count b' = b_count b ∧ b_blocknr b' = b_blocknr b ∧ b_data b' = b_data b ∧ (b_dev b' = b_dev b ∨ b_dev b' = NO_DEV).
Lemma kept_trans b1 b2 b3 : kept b1 b2 → kept b2 b3 → kept b1 b3.
Proof. unfold kept. intros (-> & -> & -> & H1) (-> & -> & -> & [->|H2]); auto. Qed.
Lemma quiet_kept X s s' i : quiet X s s' → ¬ X i → kept (buf_of s i) (buf_of s' i).
Proof.
  intros Hq Hi. split_and!; [by eapply q_count|by eapply q_blocknr|by eapply q_data|by eapply q_dev].
Qed.

(** The result of [get_block]. *)
Record got (dev block only_search : Z) s bp s' : Prop := Got {
  g_buf : is_buf bp;
  g_inv : cache_inv s';
  g_outside : outside s' = outside s;
  g_block : b_blocknr (buf_of s' bp) = block;
  g_dev : b_dev (buf_of s' bp) = dev ∨ b_dev (buf_of s' bp) = NO_DEV ∧ holds s dev block bp = false;
  g_count : b_count (buf_of s' bp) = b_count (buf_of s bp) + 1;
  g_hit i : dev ≠ NO_DEV → is_buf i → holds s dev block i = true → bp = i ∧ b_data (buf_of s' bp) = b_data (buf_of s bp);
  g_miss : (dev = NO_DEV ∨ ∀ i, is_buf i → holds s dev block i = false) → b_count (buf_of s bp) = 0 ∧ front s = bp;
  g_others i : i ≠ bp → kept (buf_of s i) (buf_of s' i)
}.

Lemma hit_ok dev block only bp (Q : Z → fsst → Prop) s : cache_inv s → is_buf bp → dev ≠ NO_DEV → holds s dev block bp = true →
  b_count (buf_of s bp) < 127 → (∀ s', got dev block only s bp s' → Q bp s') →
  wp (c ← bget b_count bp; when (c =? 0) (rm_lru bp);; bset bp (λ b, b <| b_count := s8 (b_count b + 1) |>);; mret bp) Q s.
Proof.
  intros [(lru & hl & W) Hdev H2] Hbp Hnd Hh Hlt HQ. fs_step. fs_step. fs_step.
  pose proof (cw_count _ _ _ _ W bp (proj2 (bufx_nil _) Hbp)) as Hc.
  set (c := b_count (buf_of s bp)) in *. 
  eapply (wp_mono _ (λ _ s1, off_lru s1 = off_lru s ∧
     (∀ i, off_links (buf_of s1 i) = off_links (buf_of s i) ∧ b_count (buf_of s1 i) = b_count (buf_of s i)) ∧
     ∃ lru', lru_wf lru' s1 ∧ ∀ i, i ∈ lru' ↔ i ∈ lru ∧ i ≠ bp)).
  - apply wp_when; intros E; [apply Z.eqb_eq in E|apply Z.eqb_neq in E].
    + apply (cw_free _ _ _ _ W bp (proj2 (bufx_nil _) Hbp)) in E. apply list_elem_of_split in E as (l1 & l2 & ->).
      apply (rm_lru_ok l1 bp l2); [apply W|]. intros s1 Hl Ho Hb. split_and!; [done|done|]. exists (l1 ++ l2). split; [done|].
      pose proof (dchain_NoDup _ _ _ _ _ (lw_chain _ _ (cw_lru _ _ _ _ W))) as Hnl.
      apply NoDup_app in Hnl as (_ & Hnl1 & [Hnl2 _]%NoDup_cons). set_solver.
    + split_and!; [done|done|]. exists lru. split; [apply W|]. intros i. split; [|by intros []]. intros Hi. split; [done|].
      intros ->. by apply (cw_free _ _ _ _ W bp (proj2 (bufx_nil _) Hbp)) in Hi.
  - intros [] s1 (Ho & Hb & lru' & Hl & Hin). fs_step. fs_step. fs_step. apply HQ.
    assert (Hf : ∀ i, (b_data (buf_of s1 i) = b_data (buf_of s i) ∧ b_hash (buf_of s1 i) = b_hash (buf_of s i)) ∧ core (buf_of s1 i) = core (buf_of s i)).
    { intros i. destruct (Hb i) as [E Ec]. injection E as E1 E2 E3 E4 E5. unfold core. split; [done|]. congruence. }
    assert (Ec1 : b_count (buf_of s1 bp) = c) by (by destruct (Hb bp) as [_ ->]).
    assert (Es : s8 (c + 1) = c + 1) by (unfold s8; rewrite Z.mod_small; lia).
    set (s2 := s1 <| buf_of := _ |>).
    assert (E2 : ∀ i, buf_of s2 i = if decide (bp = i) then (buf_of s1 bp) <| b_count := s8 (b_count (buf_of s1 bp) + 1) |> else buf_of s1 i).
    { intros i. unfold s2. cbn. by rewrite tab_set. }
    assert (Hcore : ∀ i, i ≠ bp → core (buf_of s2 i) = core (buf_of s i)).
    { intros i Hne. rewrite E2, decide_False by done. apply Hf. }
    pose proof (Hf bp) as [_ Ecb]. injection Ecb as Ed Eb _.
    assert (E2b : buf_of s2 bp = (buf_of s1 bp) <| b_count := c + 1 |>) by (by rewrite E2, decide_True, Ec1, Es).
    apply andb_true_iff in Hh as Hh'. destruct Hh' as [Hbl%Z.eqb_eq Hdv%Z.eqb_eq].
    constructor; [done| |exact (f_equal (λ x, x.1.1.1.1.1.1) Ho)|rewrite E2b; cbn; congruence|rewrite E2b; left; cbn; congruence|by rewrite E2b| |..].
    + constructor.
      * exists lru', hl. apply (bumped_wf bp lru lru' hl s s2); [done|done| | |done|done|by rewrite E2b|by rewrite E2b|by rewrite E2b|lia].
        -- eapply lru_wf_ext; [..|exact Hl]; try done; intros i; rewrite E2; by case_decide; subst.
        -- eapply hash_wf_ext; [..|apply W]; [|exact (f_equal (λ x, x.1.1.1.1.1.2) Ho)]. intros i. rewrite E2.
           destruct (Hf i) as [[_ <-] _]. by case_decide; subst.
      * intros i Hi. rewrite E2. destruct (Hf i) as [_ Ei]. injection Ei as Ei _ _. case_decide; [subst; cbn|]; rewrite Ei; auto.
      * injection Ho. intros. unfold cache2_wf. cbn. by repeat match goal with E : _ s1 = _ s |- _ => rewrite E; clear E end.
    + intros i _ Hi Hhi. rewrite E2b. split; [|by apply Hf]. apply andb_true_iff in Hhi as [Hbi%Z.eqb_eq Hdi%Z.eqb_eq].
      eapply (cw_unique _ _ _ _ W); try (by apply bufx_nil); congruence.
    + intros [->|Hno]; [done|]. by rewrite Hno in Hh.
    + intros i Hne. unfold kept. rewrite E2, decide_False by done. destruct (Hf i) as [[Ed' _] Ei]. injection Ei as Ei1 Ei2 Ei3. auto.
Qed.

(** The first free buffer, taken off both chains. *)
Lemma evict_ok bp lru hl Q s : cache_wf NIL (bp :: lru) hl s →
  (∀ s' hl', cache_wf bp lru hl' s' → is_buf bp → b_count (buf_of s' bp) = 0 → outside s' = outside s →
     (cache2_wf s → cache2_wf s') → (∀ i, b_dirt (buf_of s' i) = b_dirt (buf_of s i) ∧ b_data (buf_of s' i) = b_data (buf_of s i) ∧
       core (buf_of s' i) = core (buf_of s i)) → fs_log s' = fs_log s → nr_buf2 s' = nr_buf2 s → Q tt s') →
  wp (rm_lru bp) (λ _ s1, wp (hash_remove bp) Q s1) s.
Proof.
  intros W HQ. assert (Hbp : is_buf bp) by (apply (lw_bufs _ _ (cw_lru _ _ _ _ W)); set_solver).
  pose proof (proj2 (bufx_nil _) Hbp) as Hbx.
  assert (Hc0 : b_count (buf_of s bp) = 0) by (apply (cw_free _ _ _ _ W bp Hbx); set_solver).
  apply (rm_lru_ok [] bp lru); [apply W|]. intros s1 Hl1 Ho1 Hb1.
  assert (Hf1 : ∀ i, b_dirt (buf_of s1 i) = b_dirt (buf_of s i) ∧ b_data (buf_of s1 i) = b_data (buf_of s i) ∧
            b_hash (buf_of s1 i) = b_hash (buf_of s i) ∧ core (buf_of s1 i) = core (buf_of s i)).
  { intros i. destruct (Hb1 i) as [E Ec]. injection E as E1 E2 E3 E4 E5. unfold core. split_and!; congruence. }
  assert (Hh1 : hash_wf hl s1).
  { eapply hash_wf_ext; [|exact (f_equal (λ x, x.1.1.1.1.1.2) Ho1)|apply W]. intros i. apply Hf1. }
  assert (Eh : hash_of s1 bp = hash_of s bp).
  { unfold hash_of. destruct (Hf1 bp) as (_ & _ & _ & E). by injection E as _ -> _. }
  assert (Hin : bp ∈ hl (hash_of s1 bp)) by (apply (cw_hashed _ _ _ _ W _ _ Hbx); done).
  apply list_elem_of_split in Hin as (h1 & h2 & Eh12).
  eapply (hash_remove_ok hl bp h1 h2); [done|by eapply hl_disjoint|done|]. intros s2 Hh2 Ho2 Hb2.
  assert (Hf2 : ∀ i, b_dirt (buf_of s2 i) = b_dirt (buf_of s i) ∧ b_data (buf_of s2 i) = b_data (buf_of s i) ∧
            core (buf_of s2 i) = core (buf_of s i)).
  { intros i. specialize (Hb2 i). injection Hb2 as E1 E2 E3 E4 E5 E6 E7. destruct (Hf1 i) as (D1 & D2 & _ & D3).
    injection D3 as D3 D4 D5. unfold core. split_and!; congruence. }
  assert (Eo : off_hash s2 = off_hash s1) by done. rewrite Eh in *.
  eapply (HQ s2 (<[hash_of s bp := h1 ++ h2]> hl)); [|done| | | |exact Hf2| |].
  - eapply (evicted_wf []); [exact W|done|apply Hf2| |done].
    eapply lru_wf_ext; [| |exact (f_equal (λ x, x.1.1.1.1.1.1.1.2) Ho2)|exact (f_equal (λ x, x.1.1.1.1.1.1.2) Ho2)|
      exact (f_equal (λ x, x.1.1.1.1.1.2) Ho2)|exact Hl1]; intros i; specialize (Hb2 i); by injection Hb2.
  - destruct (Hf2 bp) as (_ & _ & E). by injection E as _ _ ->.
  - transitivity (outside s1); [exact (f_equal (λ x, x.1.1.1.1.1.1.1.1) Ho2)|exact (f_equal (λ x, x.1.1.1.1.1.1) Ho1)].
  - unfold cache2_wf.
    rewrite (f_equal (λ x, x.1.1.1.2) Ho2 : nr_buf2 s2 = nr_buf2 s1), (f_equal (λ x, x.1.1.2) Ho2 : buf2_idx s2 = buf2_idx s1),
      (f_equal (λ x, x.1.1.1.2) Ho1 : nr_buf2 s1 = nr_buf2 s), (f_equal (λ x, x.1.1.2) Ho1 : buf2_idx s1 = buf2_idx s). done.
  - by rewrite (f_equal snd Ho2 : fs_log s2 = fs_log s1), (f_equal snd Ho1 : fs_log s1 = fs_log s).
  - by rewrite (f_equal (λ x, x.1.1.1.2) Ho2 : nr_buf2 s2 = nr_buf2 s1), (f_equal (λ x, x.1.1.1.2) Ho1 : nr_buf2 s1 = nr_buf2 s).
Qed.

Lemma put_back_ok bp Q s : is_buf bp → (b_dev (buf_of s bp) = NO_DEV ∨ disk_dev (b_dev (buf_of s bp))) → cache2_wf s →
  (∀ s', quiet nobuf s s' → Q tt s') → wp (put_back bp) Q s.
Proof.
  intros Hbp Hd Hc HQ. unfold put_back. fs_step. fs_step. unfold id.
  apply wp_when; [|intros _; apply HQ, quiet_refl]. intros E. destruct Hd as [Hd|Hd]; [rewrite Hd in E; done|].
  fs_step. eapply (wp_mono _ (λ _ s', quiet nobuf s s')).
  { apply wp_when; [|intros _; apply quiet_refl]. intros _. by apply flushall_ok. }
  intros [] s1 Hq. apply put_block2_ok; [done|by eapply q_cache2|]. intros s2 Hq2. apply HQ. by eapply quiet_trans.
Qed.

Lemma fetch_ok bp dev only Q s : is_buf bp → (b_dev (buf_of s bp) = NO_DEV ∨ disk_dev (b_dev (buf_of s bp))) → cache2_wf s →
  (∀ s', quiet (λ i, i = bp) s s' → Q tt s') → wp (fetch bp dev only) Q s.
Proof.
  intros Hbp Hd Hc HQ. unfold fetch. apply wp_when; [|intros _; apply HQ, quiet_refl]. intros _.
  fs_step. apply get_block2_ok; [done|done|]. intros [] s1 Hq; [fs_step; by apply HQ|].
  destruct (only =? PREFETCH).
  { fs_step. apply HQ. eapply quiet_trans; [exact Hq|]. apply quiet_bset. cbn. auto. }
  apply wp_when; [|intros _; by apply HQ]. intros _. apply rw_block_ok; [done|destruct (q_dev _ _ _ Hq bp) as [->| ->]; auto|].
  intros s2 Hq2 _. apply HQ. eapply quiet_trans; [exact Hq|]. eapply quiet_mono; [|exact Hq2]. by intros i [-> _].
Qed.

Lemma miss_ok dev block only (Q : Z → fsst → Prop) s : cache_inv s → (dev = NO_DEV ∨ disk_dev dev) →
  (∃ i, is_buf i ∧ b_count (buf_of s i) = 0) → (dev = NO_DEV ∨ ∀ i, is_buf i → holds s dev block i = false) →
  (∀ bp s', got dev block only s bp s' → Q bp s') →
  wp (bp ← gets front;
      if bp =? NIL then panic "all buffers in use" NR_BUFS else
      rm_lru bp;; hash_remove bp;; put_back bp;; hash_enter bp dev block;; fetch bp dev only;; mret bp) Q s.
Proof.
  intros [(lru & hl & W) Hdev H2] Hd (i0 & Hi0 & Hc0) Hno HQ. fs_step. fs_step.
  apply (cw_free _ _ _ _ W) in Hc0; [|by apply bufx_nil].
  destruct lru as [|bp lru]; [by apply elem_of_nil in Hc0|]. clear i0 Hi0 Hc0.
  destruct (ptr_end _ _ (cw_lru _ _ _ _ W)) as [Hf _]. cbn in Hf.
  destruct (ptr_spec (front s)) as [[_ E]|[En E]]; rewrite E in Hf; [done|]. injection Hf as Hf. rewrite Hf in *.
  rewrite (proj2 (Z.eqb_neq _ _) En). fs_step. eapply wp_mono.
  { apply (evict_ok bp lru hl (λ _ s1, wp (put_back bp;; hash_enter bp dev block;; fetch bp dev only;; mret bp) Q s1)); [done|].
    intros s2 hl2 W2 Hbp Hz Ho2 Hc2 Hf2 _ _. fs_step.
    assert (Hdev2 : ∀ i, is_buf i → b_dev (buf_of s2 i) = NO_DEV ∨ disk_dev (b_dev (buf_of s2 i))).
    { intros i Hi. destruct (Hf2 i) as (_ & _ & Ec). injection Ec as -> _ _. auto. }
    apply put_back_ok; [done|auto|auto|]. intros s3 Hq3. pose proof (quiet_wf _ _ _ _ _ _ Hq3 W2) as W3.
    pose proof (quiet_devs _ _ _ Hq3 Hdev2) as Hdev3. pose proof (q_cache2 _ _ _ Hq3 (Hc2 H2)) as H23.
    assert (Hz3 : b_count (buf_of s3 bp) = 0) by (by rewrite (q_count _ _ _ _ Hq3)).
    assert (K3 : ∀ i, kept (buf_of s i) (buf_of s3 i)).
    { intros i. apply (kept_trans _ (buf_of s2 i)); [|by apply (quiet_kept nobuf); [|intros []]].
      destruct (Hf2 i) as (_ & D & C). injection C as C1 C2 C3. unfold kept. auto. }
    fs_step. apply (hash_enter_ok hl2); [apply W3|done|apply W3|]. intros s4 Hh4 Ho4 Hs4 (D4 & B4 & C4 & _ & N4 & P4 & _).
    rewrite Hz3 in C4. change (s8 (0 + 1)) with 1 in C4.
    assert (W4 : cache_wf NIL lru (<[Z.land block HASH_MASK := bp :: hl2 (Z.land block HASH_MASK)]> hl2) s4).
    { apply (entered_wf bp lru hl2 block s3 s4); try done.
      - intros i Hi Hib Hdn. rewrite D4 in *. destruct Hno as [->|Hno]; [done|]. specialize (Hno i Hib).
        destruct (K3 i) as (_ & B & _ & D). unfold holds in *. rewrite B. destruct D as [->|D]; [done|].
        rewrite D. apply andb_false_iff. right. by apply Z.eqb_neq.
      - assert (Hsame : ∀ i, b_next (buf_of s4 i) = b_next (buf_of s3 i) ∧ b_prev (buf_of s4 i) = b_prev (buf_of s3 i)).
        { intros i. destruct (decide (i = bp)) as [->|Hne]; [done|by rewrite Hs4]. }
        eapply lru_wf_ext; [intros i; apply Hsame|intros i; apply Hsame|exact (f_equal (λ x, x.1.1.1.1.1.1.1.2) Ho4)|
          exact (f_equal (λ x, x.1.1.1.1.1.1.2) Ho4)|exact (f_equal (λ x, x.1.1.1.1.1.2) Ho4)|apply W3]. }
    assert (Hdev4 : ∀ i, is_buf i → b_dev (buf_of s4 i) = NO_DEV ∨ disk_dev (b_dev (buf_of s4 i))).
    { intros i Hi. destruct (decide (i = bp)) as [->|Hne]; [by rewrite D4|rewrite Hs4; auto]. }
    assert (H24 : cache2_wf s4).
    { unfold cache2_wf. by rewrite (f_equal (λ x, x.1.1.1.2) Ho4 : nr_buf2 s4 = nr_buf2 s3), (f_equal (λ x, x.1.1.2) Ho4 : buf2_idx s4 = buf2_idx s3). }
    fs_step. apply fetch_ok; [done|auto|done|]. intros s5 Hq5. fs_step. apply HQ.
    assert (Hb0 : b_count (buf_of s bp) = 0) by (destruct (K3 bp) as (<- & _); done).
    constructor.
    - done.
    - constructor; [|by eapply quiet_devs|by eapply q_cache2]. eexists _, _. by eapply quiet_wf.
    - rewrite (quiet_outside _ _ _ Hq5). transitivity (outside s3); [exact (f_equal (λ x, x.1.1.1.1.1.1.1.1) Ho4)|].
      by rewrite (quiet_outside _ _ _ Hq3).
    - by rewrite (q_blocknr _ _ _ _ Hq5).
    - destruct (q_dev _ _ _ Hq5 bp) as [->|D]; [by left|]. destruct Hno as [->|Hno]; [by left|]. right. auto.
    - rewrite (q_count _ _ _ _ Hq5), Hb0. done.
    - intros i Hnd Hi Hhi. destruct Hno as [->|Hno]; [done|]. by rewrite Hno in Hhi.
    - done.
    - intros i Hne. apply (kept_trans _ (buf_of s4 i)); [by rewrite Hs4|by apply (quiet_kept (λ i, i = bp))]. }
  intros [] s' Hw. by apply wp_bind.
Qed.

(** [got] holds of every call. *)
Lemma get_block_ok dev block only (Q : Z → fsst → Prop) s : cache_inv s → (dev = NO_DEV ∨ disk_dev dev) →
  (∃ i, is_buf i ∧ b_count (buf_of s i) = 0) → (∀ i, is_buf i → holds s dev block i = true → b_count (buf_of s i) < 127) →
  (∀ bp s', got dev block only s bp s' → Q bp s') → wp (get_block dev block only) Q s.
Proof.
  intros Hinv Hd Hfree Hmax HQ. unfold get_block. fs_step. destruct (Z.eqb_spec dev NO_DEV) as [Ed|Ed]; cbn [negb].
  - fs_step. apply (miss_ok dev block only); auto.
  - destruct (ci_wf _ Hinv) as (lru & hl & W). apply (hash_search_ok hl); [apply W|].
    pose proof (holds_find _ _ _ dev block W) as Hfind. destruct (List.find _ _) as [bp|].
    + destruct Hfind as [Hbp Hh]. apply (hit_ok dev block only); auto.
    + apply (miss_ok dev block only); auto.
Qed.

(** [put_block]: the last user of a buffer puts it at one of the ends of the LRU chain. *)
Definition lru_after (block_type bp : Z) (lru : list Z) : list Z :=
  if has block_type ONE_SHOT then bp :: lru else lru ++ [bp].

(** A buffer that lost its last user, linked in. *)
Lemma freed_wf bp lru lru' hl s s' : cache_wf NIL lru hl s → is_buf bp → b_count (buf_of s bp) = 1 →
  lru_wf lru' s' → (∀ i, i ∈ lru' ↔ i = bp ∨ i ∈ lru) → buf_hash s' = buf_hash s →
  (∀ i, off_links (buf_of s' i) = off_links (buf_of s i)) →
  (∀ i, b_count (buf_of s' i) = if decide (bp = i) then 0 else b_count (buf_of s i)) →
  cache_wf NIL lru' hl s'.
Proof.
  intros [Hl Hh [Ho1 Ho2] Hf Hd Hc Hu] Hbp H1 Hl' Hin Hbh Hoff Hcnt.
  assert (Hdb : ∀ i, b_dev (buf_of s' i) = b_dev (buf_of s i) ∧ b_blocknr (buf_of s' i) = b_blocknr (buf_of s i) ∧ b_hash (buf_of s' i) = b_hash (buf_of s i)).
  { intros i. specialize (Hoff i). by injection Hoff. }
  constructor; [done| | | | | |].
  - eapply hash_wf_ext; [|exact Hbh|exact Hh]. intros i. apply Hdb.
  - split; [|done]. rewrite Hin. intros [E|?]; [|done]. by apply (is_buf_nil bp).
  - intros i Hi. rewrite Hin, Hcnt, (Hf i) by done. case_decide; [subst; tauto|]. split; [|tauto]. intros [->|]; done.
  - intros h i Hi. unfold hash_of. destruct (Hdb i) as (_ & -> & _). by apply Hd.
  - intros i Hi. rewrite Hcnt. case_decide; [lia|auto].
  - intros i j Hi Hj. destruct (Hdb i) as (-> & -> & _), (Hdb j) as (-> & -> & _). auto.
Qed.

(** A buffer that still has a user. *)
Lemma fewer_wf bp lru hl s s' : cache_wf NIL lru hl s → is_buf bp → 1 < b_count (buf_of s bp) →
  (∀ i, buf_of s' i = if decide (bp = i) then (buf_of s bp) <| b_count := b_count (buf_of s bp) - 1 |> else buf_of s i) →
  front s' = front s → rear s' = rear s → bufs_in_use s' = bufs_in_use s → buf_hash s' = buf_hash s → cache_wf NIL lru hl s'.
Proof.
  intros [Hl Hh Ho Hf Hd Hc Hu] Hbp Hgt E1 Ef Er Eu Eh.
  assert (Hfx : ∀ i, let b := buf_of s i in let b' := buf_of s' i in b_next b' = b_next b ∧ b_prev b' = b_prev b ∧ b_hash b' = b_hash b ∧
            b_dev b' = b_dev b ∧ b_blocknr b' = b_blocknr b).
  { intros i. cbn. rewrite E1. by case_decide; subst. }
  pose proof (Hc bp (proj2 (bufx_nil _) Hbp)) as Hcb.
  constructor; [| |done|..].
  - eapply lru_wf_ext; [..|exact Hl]; try done; intros i; apply Hfx.
  - eapply hash_wf_ext; [| |exact Hh]; [|done]. intros i; apply Hfx.
  - intros i Hi. rewrite E1. case_decide; [subst; cbn; rewrite (Hf i) by done; lia|auto].
  - intros h i Hi. unfold hash_of. destruct (Hfx i) as (_ & _ & _ & _ & ->). by apply Hd.
  - intros i Hi. rewrite E1. case_decide; [subst; cbn; lia|auto].
  - intros i j Hi Hj. destruct (Hfx i) as (_ & _ & _ & -> & ->), (Hfx j) as (_ & _ & _ & -> & ->). auto.
Qed.

(** The result of [put_block], when the LRU chain was [lru]. *)
Record put (block_type : Z) (lru : list Z) s bp s' : Prop := Put {
  p_wf : ∃ hl, cache_wf NIL (if b_count (buf_of s bp) =? 1 then lru_after block_type bp lru else lru) hl s';
  p_inv : cache_inv s';
  p_outside : outside s' = outside s;
  p_count : b_count (buf_of s' bp) = b_count (buf_of s bp) - 1;
  p_kept i : b_blocknr (buf_of s' i) = b_blocknr (buf_of s i) ∧ b_data (buf_of s' i) = b_data (buf_of s i) ∧
    (b_dev (buf_of s' i) = b_dev (buf_of s i) ∨ b_dev (buf_of s' i) = NO_DEV);
  p_counts i : i ≠ bp → b_count (buf_of s' i) = b_count (buf_of s i)
}.

(** Whatever quiet I/O follows, the result is the same. *)
Lemma put_quiet block_type lru s bp s3 s4 : put block_type lru s bp s3 → quiet nobuf s3 s4 → put block_type lru s bp s4.
Proof.
  intros [[hl W] [_ Hd H2] Ho Hc Hk Hcs] Hq. pose proof (quiet_wf _ _ _ _ _ _ Hq W) as W4. constructor.
  - by exists hl.
  - constructor; [by eexists _, _|by eapply quiet_devs|by eapply q_cache2].
  - by rewrite (quiet_outside _ _ _ Hq).
  - by rewrite (q_count _ _ _ _ Hq).
  - intros i. destruct (quiet_kept nobuf _ _ i Hq) as (_ & -> & -> & D); [by intros []|]. destruct (Hk i) as (-> & -> & D').
    destruct D as [->|]; auto.
  - intros i Hne. rewrite (q_count _ _ _ _ Hq). auto.
Qed.

(** The buffer after [b_count--]. *)
Definition dropped bp s s1 : Prop :=
  ∀ i, buf_of s1 i = if decide (bp = i) then (buf_of s bp) <| b_count := b_count (buf_of s bp) - 1 |> else buf_of s i.

(** The last user: the buffer goes to an end of the LRU chain. *)
Lemma put_last block_type lru hl bp s s2 s3 : cache_inv s → cache_wf NIL lru hl s → is_buf bp → b_count (buf_of s bp) = 1 →
  dropped bp s s2 → off_lru s2 = off_lru s →
  lru_wf (lru_after block_type bp lru) s3 → off_lru s3 = off_lru s2 →
  (∀ i, off_links (buf_of s3 i) = off_links (buf_of s2 i) ∧ b_count (buf_of s3 i) = b_count (buf_of s2 i)) →
  put block_type lru s bp s3.
Proof.
  intros [_ Hdev H2] W Hbp H1 E2 Ho2 Hl3 Ho Hb3. assert (Ho3 : off_lru s3 = off_lru s) by (by rewrite Ho). clear Ho Ho2.
  assert (Hoff3 : ∀ i, off_links (buf_of s3 i) = off_links (buf_of s i)).
  { intros i. destruct (Hb3 i) as [-> _]. rewrite E2. by case_decide; subst. }
  assert (Hcnt3 : ∀ i, b_count (buf_of s3 i) = if decide (bp = i) then 0 else b_count (buf_of s i)).
  { intros i. destruct (Hb3 i) as [_ ->]. rewrite E2. case_decide; [cbn; lia|done]. }
  assert (W3 : cache_wf NIL (lru_after block_type bp lru) hl s3).
  { eapply freed_wf; [exact W|done|lia|done| |exact (f_equal (λ x, x.1.1.1.1.1.2) Ho3)|done|done].
    intros i. unfold lru_after. destruct (has block_type ONE_SHOT); set_solver. }
  constructor.
  - exists hl. by rewrite (proj2 (Z.eqb_eq _ _)).
  - constructor; [by eexists _, _| |].
    + intros i Hi. specialize (Hoff3 i). injection Hoff3 as _ _ _ -> _. auto.
    + unfold cache2_wf. by rewrite (f_equal (λ x, x.1.1.1.2) Ho3 : nr_buf2 s3 = nr_buf2 s), (f_equal (λ x, x.1.1.2) Ho3 : buf2_idx s3 = buf2_idx s).
  - exact (f_equal (λ x, x.1.1.1.1.1.1) Ho3).
  - rewrite Hcnt3, decide_True by done. lia.
  - intros i. specialize (Hoff3 i). injection Hoff3 as -> _ -> -> _. auto.
  - intros i Hne. by rewrite Hcnt3, decide_False.
Qed.

(** A dirty block of a kind that must not be lost is written at once. *)
Lemma write_immed_ok block_type lru bp Q s s3 : is_buf bp → put block_type lru s bp s3 → (∀ s4, put block_type lru s bp s4 → Q tt s4) →
  wp (b ← bget id bp; when (has block_type WRITE_IMMED && b_dirt b && negb (b_dev b =? NO_DEV)) (rw_block bp WRITING)) Q s3.
Proof.
  intros Hbp Hput HQ. fs_step. fs_step. unfold id. apply wp_when; [|auto]. intros _.
  apply rw_block_ok; [done|by apply (p_inv _ _ _ _ _ Hput)|]. intros s4 Hq _. apply HQ. eapply put_quiet; [exact Hput|].
  eapply quiet_mono; [|exact Hq]. by intros i [_ ?].
Qed.

Lemma put_block_ok block_type lru hl bp Q s : cache_inv s → cache_wf NIL lru hl s → is_buf bp → b_count (buf_of s bp) ≠ 0 →
  (∀ s', put block_type lru s bp s' → Q tt s') → wp (put_block bp block_type) Q s.
Proof.
  intros Hinv W Hbp Hc HQ. pose proof (proj2 (bufx_nil _) Hbp) as Hbx.
  pose proof (cw_count _ _ _ _ W bp Hbx) as Hr.
  assert (Hni : bp ∉ lru) by (rewrite (cw_free _ _ _ _ W bp Hbx); done).
  unfold put_block. rewrite (proj2 (Z.eqb_neq _ _) (is_buf_nil _ Hbp)). fs_step. fs_step. fs_step. fs_step. cbn. rewrite fn_lookup_insert. cbn.
  assert (Es : s8 (b_count (buf_of s bp) - 1) = b_count (buf_of s bp) - 1) by (unfold s8; rewrite Z.mod_small; lia).
  rewrite Es. set (s1 := s <| buf_of := _ |>). assert (E1 : dropped bp s s1) by (intros i; apply tab_set).
  destruct (Z.eqb_spec (b_count (buf_of s bp) - 1) 0) as [E0|E0]; cbn [negb].
  - fs_step. fs_step. fs_step. set (s2 := s1 <| bufs_in_use := _ |>).
    assert (Hl2 : dchain (nxt s2) (prv s2) (ptr (front s2)) (ptr (rear s2)) lru).
    { eapply dchain_ext; [| |exact (lw_chain _ _ (cw_lru _ _ _ _ W))]; intros k _; unfold nxt, prv;
        rewrite (E1 k : buf_of s2 k = _); case_decide; by subst. }
    assert (Hu2 : bufs_in_use s2 = NR_BUFS - Z.of_nat (S (length lru))).
    { unfold s2. cbn. rewrite (lw_use _ _ (cw_lru _ _ _ _ W)). lia. }
    pose proof (lw_bufs _ _ (cw_lru _ _ _ _ W)) as Hlb.
    pose proof (put_last block_type lru hl bp s s2) as Hput. unfold lru_after in Hput.
    eapply (wp_mono _ (λ _ s3, put block_type lru s bp s3)); [|intros [] s3 Hp3; by eapply write_immed_ok].
    destruct (has block_type ONE_SHOT); [apply (lru_front_ok lru)|apply (lru_rear_ok lru)]; try done;
      intros s3 Hl3 Ho3 Hb3; apply Hput; (done || lia).
  - fs_step. apply HQ. assert (W1 : cache_wf NIL lru hl s1) by (eapply fewer_wf; try done; lia).
    assert (Hd1 : ∀ i, b_dev (buf_of s1 i) = b_dev (buf_of s i)) by (intros i; rewrite E1; by case_decide; subst).
    destruct Hinv as [_ Hdev H2]. constructor; [exists hl; by rewrite (proj2 (Z.eqb_neq _ _)) by lia| |done|by rewrite E1, decide_True|..].
    + constructor; [by eexists _, _| |done]. intros i Hi. rewrite Hd1. auto.
    + intros i. rewrite Hd1, E1. by case_decide; subst; auto.
    + intros i Hne. by rewrite E1, decide_False.
Qed.
End get.
