(* ===== verification/Cachesem.v ===== *)
(** * The block cache is transparent

    What fs/cache.c promises to the rest of FS: a block that is read through the
    cache has the contents last given to it, wherever they are, and neither
    [get_block] nor [put_block] changes the contents of any block.  The disks
    are perfect: they return what was last written.  The secondary cache is off. *)

From S2P Require Import Prelude Chain Fstate Fdev Cache Fwp Sortp Cachewf Cachep.

(** ** Perfect disks *)

(** The blocks whose positions the messages can tell apart. *)
Definition disk_block (dev block : Z) : Prop := disk_dev dev ∧ 0 ≤ dev < 2 ^ 16 ∧ 0 ≤ block < 2 ^ 22.
Definition position (block : Z) : Z := s32 (block * BLOCK_SIZE).

(** What a call writes to a block. *)
Definition writes_block (c : fcall) (dev block : Z) : option (list Z) :=
  match c with
  | Sendrec t mm mem =>
      if (t =? task_of dev) && (m2_i1 mm =? minor_of dev) then
        match mem with
        | Bytes l => if m2_l1 mm =? position block then Some l else None
        | Iovec rs => option_map io_buf (List.find (λ r, (io_request r =? DEV_WRITE) && (io_position r =? position block)) rs)
        | _ => None
        end
      else None
  | _ => None
  end.
(** The contents of a block after the calls of [log], from those of [image]. *)
Fixpoint on_disk (image : Z → Z → list Z) (log : list fcall) (dev block : Z) : list Z :=
  match log with
  | [] => image dev block
  | c :: log' => match writes_block c dev block with Some l => l | None => on_disk image log' dev block end
  end.

Definition is_block (l : list Z) : Prop := Z.of_nat (length l) = BLOCK_SIZE ∧ Forall (λ x, 0 ≤ x < 2 ^ 8) l.

(** The disks do all requests without an error, and return what was written. *)
Class DiskStore `{World} (image : Z → Z → list Z) : Prop := {
  store_law :: DiskLaw;
  store_image dev block : is_block (image dev block);
  store_read log dev block : disk_block dev block → is_block (on_disk image log dev block) →
    let a := fs_answer log (disk_call DEV_READ dev (u32 (block * BLOCK_SIZE)) BLOCK_SIZE Fill) in
    REP_STATUS (a_msg a) = BLOCK_SIZE ∧ block_data (a_data a) = on_disk image log dev block;
  store_write log dev pos l : disk_dev dev →
    REP_STATUS (a_msg (fs_answer log (disk_call DEV_WRITE dev pos BLOCK_SIZE (Bytes l)))) = BLOCK_SIZE;
  store_vector log dev n rs i : disk_dev dev → (i < length rs)%nat →
    (harvest (a_data (fs_answer log (disk_call SCATTERED_IO dev 0 n (Iovec rs)))) i).1 = 0
}.

Section numbers.
Lemma s32_u32 v : s32 (u32 v) = s32 v.
Proof. unfold s32, u32. by rewrite Zplus_mod_idemp_l. Qed.
Lemma put32_word i v mm : word32 (m_w (put32 i v mm)) i = u32 v.
Proof.
  unfold word32, put32. cbn. rewrite fn_lookup_insert, fn_lookup_insert_ne, fn_lookup_insert by lia.
  unfold u16, u32. pose proof (Z.div_mod (v mod 2 ^ 32) (2 ^ 16)) as E.
  replace (v mod 2 ^ 16) with ((v mod 2 ^ 32) mod 2 ^ 16); [lia|].
  symmetry. apply Znumtheory.Zmod_div_mod; [lia|lia|]. by exists (2 ^ 16).
Qed.
Lemma minor_range dev : 0 ≤ minor_of dev < 2 ^ 8.
Proof. unfold minor_of. change BYTE with (Z.ones 8). rewrite Z.land_ones by lia. by apply Z.mod_pos_bound. Qed.
Lemma dev_message_minor op dev proc count pos flags address : m2_i1 (dev_message op (minor_of dev) proc count pos flags address) = minor_of dev.
Proof.
  pose proof (minor_range dev). unfold m2_i1, dev_message, put32, put16. cbn. rewrite !fn_lookup_insert_ne, fn_lookup_insert by lia.
  rewrite u16_id, s16_id by lia. done.
Qed.
Lemma dev_message_pos op d proc count pos flags address : m2_l1 (dev_message op d proc count pos flags address) = s32 pos.
Proof.
  unfold m2_l1. rewrite <- (s32_u32 pos). f_equal. unfold dev_message.
  rewrite <- (put32_word 3 pos (put16 2 count (put16 1 proc (put16 0 d (Message 0 op (λ _, 0)))))).
  unfold word32, put32 at 1 2. cbn. by rewrite !fn_lookup_insert_ne by lia.
Qed.
Lemma position_inj b b' : 0 ≤ b < 2 ^ 22 → 0 ≤ b' < 2 ^ 22 → position b = position b' → b = b'.
Proof.
  unfold position, s32, BLOCK_SIZE. intros Hb Hb' E.
  assert (E' : (b * 1024 + 2 ^ 31) mod 2 ^ 32 = (b' * 1024 + 2 ^ 31) mod 2 ^ 32) by lia. clear E.
  rewrite (Z.mod_eq (b * 1024 + 2 ^ 31) (2 ^ 32)), (Z.mod_eq (b' * 1024 + 2 ^ 31) (2 ^ 32)) in E' by lia.
  set (q := (b * 1024 + 2 ^ 31) / 2 ^ 32) in *. set (q' := (b' * 1024 + 2 ^ 31) / 2 ^ 32) in *. nia.
Qed.
Lemma u32_position b : 0 ≤ b < 2 ^ 22 → s32 (u32 (b * BLOCK_SIZE)) = position b.
Proof. intros. unfold position. apply s32_u32. Qed.

(** A device is its major and its minor number. *)
Lemma dev_inj d d' : disk_dev d → disk_dev d' → 0 ≤ d < 2 ^ 16 → 0 ≤ d' < 2 ^ 16 →
  task_of d = task_of d' → minor_of d = minor_of d' → d = d'.
Proof.
  intros Hd Hd' Hr Hr' Et Em.
  assert (Hmaj : major_of d = major_of d').
  { unfold task_of, find_dev in Et. destruct Hd as [E|[E|E]], Hd' as [E'|[E'|E']]; rewrite E, E' in *; cbn in Et; done. }
  assert (Hdm : ∀ x, 0 ≤ x < 2 ^ 16 → x = major_of x * 2 ^ 8 + minor_of x).
  { intros x Hx. unfold major_of, minor_of. change BYTE with (Z.ones 8). rewrite !Z.land_ones, Z.shiftr_div_pow2 by lia.
    rewrite (Z.mod_small (x / 2 ^ 8)) by (split; [apply Z.div_pos; lia|apply Z.div_lt_upper_bound; lia]).
    pose proof (Z.div_mod x (2 ^ 8)). lia. }
  rewrite (Hdm d), (Hdm d') by done. by rewrite Hmaj, Em.
Qed.
End numbers.

Section sem.
Context `{!World} (image : Z → Z → list Z) `{!DiskStore image}.
Implicit Types (s : fsst) (q : list Z).

(** The contents of a block: in the buffer that holds it, or on the disk. *)
Definition contents s dev block : list Z :=
  match List.find (holds s dev block) all_bufs with
  | Some i => block_bytes (buf_of s i)
  | None => on_disk image (fs_log s) dev block
  end.

(** A buffer that is not dirty holds what is on the disk. *)
Record coherent s : Prop := Coherent {
  co_range i : is_buf i → b_dev (buf_of s i) ≠ NO_DEV → disk_block (b_dev (buf_of s i)) (b_blocknr (buf_of s i));
  co_bytes i k : 0 ≤ b_data (buf_of s i) k < 2 ^ 8;
  co_clean i : is_buf i → b_dev (buf_of s i) ≠ NO_DEV → b_dirt (buf_of s i) = false →
    block_bytes (buf_of s i) = on_disk image (fs_log s) (b_dev (buf_of s i)) (b_blocknr (buf_of s i));
  co_disk dev block : disk_block dev block → is_block (on_disk image (fs_log s) dev block)
}.
Lemma bytes_block s i : (∀ k, 0 ≤ b_data (buf_of s i) k < 2 ^ 8) → is_block (block_bytes (buf_of s i)).
Proof.
  intros Hb. unfold block_bytes, load, is_block. rewrite length_map, length_seqZ. split; [done|].
  apply Forall_forall. intros x (k & -> & _)%list_elem_of_fmap. apply Hb.
Qed.

(** No block is in two buffers. *)
Definition unique s : Prop := ∀ i j, is_buf i → is_buf j → b_dev (buf_of s i) ≠ NO_DEV →
  b_dev (buf_of s i) = b_dev (buf_of s j) → b_blocknr (buf_of s i) = b_blocknr (buf_of s j) → i = j.

Lemma cache_unique s : cache_inv s → unique s.
Proof. intros [(lru & hl & W) _ _] i j Hi Hj. apply (cw_unique _ _ _ _ W); by apply bufx_nil. Qed.

Lemma holds_true s dev block i : holds s dev block i = true ↔ b_dev (buf_of s i) = dev ∧ b_blocknr (buf_of s i) = block.
Proof. unfold holds. rewrite andb_true_iff, !Z.eqb_eq. tauto. Qed.
Lemma disk_block_nodev dev block : disk_block dev block → dev ≠ NO_DEV.
Proof. intros [Hd _]. by apply disk_dev_nodev. Qed.
Lemma in_all_bufs i : List.In i all_bufs ↔ is_buf i.
Proof. rewrite <- list_elem_of_In. unfold all_bufs. rewrite elem_of_seqZ. unfold is_buf. lia. Qed.

Lemma contents_held s dev block i : unique s → dev ≠ NO_DEV → is_buf i → holds s dev block i = true →
  contents s dev block = block_bytes (buf_of s i).
Proof.
  intros Hu Hd Hi Hh. unfold contents. destruct (List.find _ _) as [j|] eqn:E.
  - apply List.find_some in E as [Hj%in_all_bufs Hhj]. apply holds_true in Hh as [E1 E2], Hhj as [E3 E4].
    assert (i = j) as -> by (apply Hu; congruence). done.
  - apply in_all_bufs in Hi. pose proof (List.find_none _ _ E i Hi). congruence.
Qed.
Lemma contents_unheld s dev block : (∀ i, is_buf i → holds s dev block i = false) →
  contents s dev block = on_disk image (fs_log s) dev block.
Proof.
  intros Hn. unfold contents. destruct (List.find _ _) as [j|] eqn:E; [|done].
  apply List.find_some in E as [Hj%in_all_bufs Hhj]. by rewrite Hn in Hhj.
Qed.
Lemma held_dec s dev block : (∃ i, is_buf i ∧ holds s dev block i = true) ∨ ∀ i, is_buf i → holds s dev block i = false.
Proof.
  destruct (List.find (holds s dev block) all_bufs) as [j|] eqn:E.
  - apply List.find_some in E as [Hj%in_all_bufs Hhj]. eauto.
  - right. intros i Hi%in_all_bufs. by eapply List.find_none.
Qed.

(** A change that moves no block: the buffers keep what they hold, and only blocks
    in buffers are written. *)
Record steady s s' : Prop := Steady {
  st_buf i : b_dev (buf_of s' i) = b_dev (buf_of s i) ∧ b_blocknr (buf_of s' i) = b_blocknr (buf_of s i) ∧
    b_data (buf_of s' i) = b_data (buf_of s i);
  st_disk dev block : disk_block dev block → (∀ i, is_buf i → holds s dev block i = false) →
    on_disk image (fs_log s') dev block = on_disk image (fs_log s) dev block
}.
Lemma steady_holds s s' dev block i : steady s s' → holds s' dev block i = holds s dev block i.
Proof. intros [Hb _]. unfold holds. by destruct (Hb i) as (-> & -> & _). Qed.
Lemma steady_refl s : steady s s.
Proof. by constructor. Qed.
Lemma steady_trans s1 s2 s3 : steady s1 s2 → steady s2 s3 → steady s1 s3.
Proof.
  intros H1 H2. constructor.
  - intros i. destruct (st_buf _ _ H1 i) as (<- & <- & <-). apply H2.
  - intros dev block Hd Hn. rewrite (st_disk _ _ H2), (st_disk _ _ H1); try done.
    intros i Hi. rewrite (steady_holds _ _ _ _ _ H1). auto.
Qed.
Lemma steady_unique s s' : steady s s' → unique s → unique s'.
Proof.
  intros [Hb _] Hu i j. destruct (Hb i) as (-> & -> & _), (Hb j) as (-> & -> & _). apply Hu.
Qed.
Lemma steady_bytes s s' i : steady s s' → block_bytes (buf_of s' i) = block_bytes (buf_of s i).
Proof. intros [Hb _]. unfold block_bytes. by destruct (Hb i) as (_ & _ & ->). Qed.
Lemma steady_contents s s' dev block : unique s → steady s s' → disk_block dev block → contents s' dev block = contents s dev block.
Proof.
  intros Hu Hs Hd. apply disk_block_nodev in Hd as Hn. destruct (held_dec s dev block) as [(i & Hi & Hh)|Hno].
  - rewrite (contents_held s dev block i), (contents_held s' dev block i); [by apply steady_bytes|by eapply steady_unique|done|done| |done..].
    by rewrite (steady_holds _ _ _ _ _ Hs).
  - rewrite !contents_unheld; [by apply Hs|done|]. intros i Hi. rewrite (steady_holds _ _ _ _ _ Hs). auto.
Qed.

(** A write of one block or of a queue of them, seen from the disk. *)
Lemma same_disk dev d b : disk_block d b → disk_dev dev → 0 ≤ dev < 2 ^ 16 →
  (task_of dev =? task_of d) && (minor_of dev =? minor_of d) = bool_decide (dev = d).
Proof.
  intros (Hd & Hr & _) Hdev Hrd. case_bool_decide as E; [by rewrite E, !Z.eqb_refl|].
  apply not_true_iff_false. intros [E1%Z.eqb_eq E2%Z.eqb_eq]%andb_true_iff. apply E. by apply dev_inj.
Qed.
Lemma writes_one dev block l d b : disk_block dev block → disk_block d b →
  writes_block (disk_call DEV_WRITE dev (u32 (block * BLOCK_SIZE)) BLOCK_SIZE (Bytes l)) d b =
    if bool_decide (dev = d ∧ block = b) then Some l else None.
Proof.
  intros (Hd & Hr & Hb) Hdb. unfold disk_call, writes_block. rewrite dev_message_minor, dev_message_pos, u32_position by done.
  rewrite (same_disk _ _ _ Hdb) by done. destruct Hdb as (_ & _ & Hb'). case_bool_decide as E.
  - subst d. destruct (Z.eqb_spec (position block) (position b)) as [E|E].
    + apply position_inj in E; [|done..]. by rewrite bool_decide_true.
    + rewrite bool_decide_false; [done|]. by intros [_ ->].
  - rewrite bool_decide_false; [done|]. by intros [].
Qed.
Lemma reads_nothing dev pos d b : writes_block (disk_call DEV_READ dev pos BLOCK_SIZE Fill) d b = None.
Proof. unfold disk_call, writes_block. by destruct (_ && _). Qed.

(** The queues that are written: buffers of the device. *)
Definition queue_of s dev q : Prop := Forall (λ i, is_buf i ∧ b_dev (buf_of s i) = dev) q.

Lemma writes_queue s dev q d b : coherent s → disk_dev dev → 0 ≤ dev < 2 ^ 16 → queue_of s dev q → disk_block d b →
  writes_block (batch_call s dev q) d b =
    if bool_decide (dev = d) then option_map (λ i, block_bytes (buf_of s i)) (List.find (λ i, b_blocknr (buf_of s i) =? b) q) else None.
Proof.
  intros Hco Hd Hr Hq Hdb. unfold batch_call, disk_call, writes_block. rewrite dev_message_minor, (same_disk _ _ _ Hdb) by done.
  case_bool_decide as E; [|done]. subst d. destruct Hdb as (_ & _ & Hb).
  induction q as [|i q IH]; [done|]. pose proof Hq as [[Hi Hdi] Hq']%Forall_cons. cbn [map List.find].
  destruct (co_range _ Hco i Hi) as (_ & _ & Hbi); [rewrite Hdi; by apply disk_dev_nodev|].
  cbn [io_request io_position request_of]. change (WRITING =? WRITING) with true. cbv iota. change (DEV_WRITE =? DEV_WRITE) with true. cbn [andb].
  fold (position (b_blocknr (buf_of s i))). destruct (Z.eqb_spec (b_blocknr (buf_of s i)) b) as [->|Hne].
  - by rewrite Z.eqb_refl.
  - destruct (Z.eqb_spec (position (b_blocknr (buf_of s i))) (position b)) as [E|_]; [by apply position_inj in E|]. by apply IH.
Qed.

Lemma on_disk_cons c log d b : on_disk image (c :: log) d b =
  match writes_block c d b with Some l => l | None => on_disk image log d b end.
Proof. done. Qed.

(** Writing a queue of buffers makes them clean, and changes no contents. *)
Lemma batch_sem s dev q s' : unique s → coherent s → disk_dev dev → 0 ≤ dev < 2 ^ 16 → queue_of s dev q →
  batch_done s dev q (Z.of_nat (length q)) s' →
  steady s s' ∧ coherent s' ∧ (∀ i, b_dirt (buf_of s' i) = if decide (i ∈ q) then false else b_dirt (buf_of s i)).
Proof.
  intros Hu Hco Hd Hr Hq (f & Es & Hin & Hout).
  assert (Hlog : fs_log s' = batch_call s dev q :: fs_log s) by (by subst s').
  assert (Hbo : ∀ i, buf_of s' i = f i) by (by subst s'). clear Es.
  assert (Hf : ∀ i, f i = if decide (i ∈ q) then (buf_of s i) <| b_dirt := false |> else buf_of s i).
  { intros i. case_decide as Hi; [|by apply Hout]. apply list_elem_of_lookup in Hi as [j Hj]. apply lookup_lt_Some in Hj as Hl.
    rewrite (Hin _ _ Hj), decide_True by lia. unfold written, answer_of, batch_call. rewrite store_vector; [done|done|by rewrite !length_map]. }
  assert (Hbuf : ∀ i, b_dev (f i) = b_dev (buf_of s i) ∧ b_blocknr (f i) = b_blocknr (buf_of s i) ∧ b_data (f i) = b_data (buf_of s i)).
  { intros i. rewrite Hf. by case_decide. }
  assert (Hfind : ∀ d b j, List.find (λ i, b_blocknr (buf_of s i) =? b) q = Some j → dev = d →
            j ∈ q ∧ is_buf j ∧ b_dev (buf_of s j) = d ∧ b_blocknr (buf_of s j) = b).
  { intros d b j [Hj%list_elem_of_In Hb%Z.eqb_eq]%List.find_some <-. unfold queue_of in Hq. rewrite Forall_forall in Hq.
    by destruct (Hq j Hj). }
  split_and!.
  - constructor; [intros i; rewrite Hbo; exact (Hbuf i)|]. intros d b Hdb Hno. rewrite Hlog, on_disk_cons, writes_queue by done. case_bool_decide as E; [|done].
    destruct (List.find _ _) as [j|] eqn:Ej; [|done]. destruct (Hfind _ _ _ Ej E) as (_ & Hj & Hdj & Hbj).
    specialize (Hno j Hj). by rewrite (proj2 (holds_true s d b j)) in Hno.
  - constructor.
    + intros i Hi. rewrite Hbo. destruct (Hbuf i) as (-> & -> & _). by apply Hco.
    + intros i k. rewrite Hbo. destruct (Hbuf i) as (_ & _ & ->). apply Hco.
    + intros i Hi. unfold block_bytes. rewrite Hbo. destruct (Hbuf i) as (-> & -> & ->). intros Hn Hc.
      rewrite Hlog, on_disk_cons, writes_queue; [|done..|by apply Hco]. case_bool_decide as E.
      * destruct (List.find _ _) as [j|] eqn:Ej; cbn [option_map].
        -- destruct (Hfind _ _ _ Ej E) as (_ & Hj & Hdj & Hbj). assert (i = j) as -> by (apply Hu; congruence). done.
        -- assert (Hnq : i ∉ q).
           { intros Hiq%list_elem_of_In. pose proof (List.find_none _ _ Ej i Hiq) as E'. cbn in E'. by rewrite Z.eqb_refl in E'. }
           apply (co_clean _ Hco i Hi Hn). by rewrite Hf, decide_False in Hc.
      * assert (Hnq : i ∉ q). { intros Hiq. unfold queue_of in Hq. rewrite Forall_forall in Hq. by destruct (Hq i Hiq). }
        apply (co_clean _ Hco i Hi Hn). by rewrite Hf, decide_False in Hc.
    + intros d b Hdb. rewrite Hlog, on_disk_cons, writes_queue by done. case_bool_decide; [|by apply Hco].
      destruct (List.find _ _) as [j|]; [apply bytes_block, Hco|by apply Hco].
  - intros i. rewrite Hbo, Hf. by case_decide.
Qed.

(** [flushall]: no buffer of the device stays dirty. *)
Lemma flushall_sem dev Q s : unique s → coherent s → disk_dev dev → 0 ≤ dev < 2 ^ 16 →
  (∀ s', steady s s' → coherent s' → quiet nobuf s s' →
     (∀ i, is_buf i → b_dev (buf_of s i) = dev → b_dirt (buf_of s' i) = false) → nr_buf2 s' = nr_buf2 s → Q tt s') →
  wp (flushall dev) Q s.
Proof.
  intros Hu Hco Hd Hr HQ. unfold flushall. fs_step. fs_step. destruct (dirty_queued s dev) as [Hqu Hqn].
  apply (rw_scattered_ok (λ q s', steady s s' ∧ coherent s' ∧ quiet nobuf s s' ∧ queue_of s' dev q ∧ nr_buf2 s' = nr_buf2 s ∧
           ∀ i, is_buf i → b_dev (buf_of s i) = dev → b_dirt (buf_of s' i) = true → i ∈ q)); [done|done|done| | |].
  - intros q' Hp. split_and!; [apply steady_refl|done|apply quiet_refl| |done|].
    + unfold queue_of. rewrite Hp. apply Forall_forall. intros i [[_ Ei] Hi%elem_of_seqZ]%list_elem_of_filter. split; [unfold is_buf; lia|done].
    + intros i Hi Hdi Hdirt. rewrite Hp. apply list_elem_of_filter. split; [done|]. apply elem_of_seqZ. unfold is_buf in Hi. lia.
  - intros q1 q2 s1 s2 Hn Hb (Hst & Hco1 & Hqt & Hqo & Hnr & Hdirty) Hbd. pose proof Hqo as [Hqo1 Hqo2]%Forall_app.
    pose proof (steady_unique _ _ Hst Hu) as Hu1.
    destruct (batch_sem s1 dev q1 s2 Hu1 Hco1 Hd Hr Hqo1 Hbd) as (Hst2 & Hco2 & Hdirt2). apply Forall_app in Hb as [Hb1 _].
    split_and!; [by eapply steady_trans|done|eapply quiet_trans; [exact Hqt|by eapply batch_done_quiet]| | |].
    + eapply Forall_impl; [exact Hqo2|]. intros i [Hi Hdi]. split; [done|]. destruct (st_buf _ _ Hst2 i) as (-> & _). done.
    + destruct Hbd as (f & -> & _). done.
    + intros i Hi Hdi. rewrite Hdirt2. case_decide as Ein; [done|]. intros Hdt. specialize (Hdirty i Hi Hdi Hdt). set_solver.
  - intros s' (Hst & Hco' & Hqt & _ & Hnr & Hdirty). apply HQ; [done|done|done| |done]. intros i Hi Hdi.
    destruct (b_dirt (buf_of s' i)) eqn:E; [|done]. specialize (Hdirty i Hi Hdi E). by apply elem_of_nil in Hdirty.
Qed.

(** [rw_block] writes the contents of the buffer. *)
Lemma rw_block_write_sem bp Q s : unique s → coherent s → is_buf bp → b_dev (buf_of s bp) ≠ NO_DEV →
  (∀ s', steady s s' → coherent s' → b_dirt (buf_of s' bp) = false → nr_buf2 s' = nr_buf2 s → Q tt s') → wp (rw_block bp WRITING) Q s.
Proof.
  intros Hu Hco Hbp Hn HQ. destruct (co_range _ Hco bp Hbp Hn) as (Hd & Hr & Hb). pose proof (conj Hd (conj Hr Hb)) as Hdb.
  unfold rw_block. fs_step. fs_step. unfold id. rewrite (proj2 (Z.eqb_neq _ _) Hn). cbn [negb when].
  change (WRITING =? READING) with false. cbv iota. cbn [when]. fs_step. fs_step. apply dev_io_ok; [done|unfold disk_op; tauto|].
  set (c := disk_call _ _ _ _ _). fs_step. fs_step. unfold io_status, answer_of. unfold c at 1. rewrite store_write by done.
  rewrite Z.eqb_refl. cbn [negb when]. fs_step. fs_step. match goal with |- Q tt ?x => set (s1 := x) end.
  assert (E1 : ∀ i, buf_of s1 i = if decide (bp = i) then (buf_of s bp) <| b_dirt := false |> else buf_of s i) by (intros i; apply tab_set).
  assert (Hbuf : ∀ i, b_dev (buf_of s1 i) = b_dev (buf_of s i) ∧ b_blocknr (buf_of s1 i) = b_blocknr (buf_of s i) ∧ b_data (buf_of s1 i) = b_data (buf_of s i)).
  { intros i. rewrite E1. by case_decide; subst. }
  assert (Hlog : fs_log s1 = c :: fs_log s) by done. apply HQ.
  - constructor; [exact Hbuf|]. intros d b Hdb' Hno. rewrite Hlog, on_disk_cons. unfold c. rewrite writes_one by done.
    case_bool_decide as E; [|done]. destruct E as [<- <-]. specialize (Hno bp Hbp). by rewrite (proj2 (holds_true s _ _ bp)) in Hno.
  - constructor.
    + intros i Hi. destruct (Hbuf i) as (-> & -> & _). by apply Hco.
    + intros i k. destruct (Hbuf i) as (_ & _ & ->). apply Hco.
    + intros i Hi. unfold block_bytes. destruct (Hbuf i) as (-> & -> & ->). rewrite E1. intros Hni Hc. rewrite Hlog, on_disk_cons.
      unfold c. rewrite writes_one by (done || by apply Hco). case_bool_decide as E.
      * destruct E as [E1' E2']. assert (bp = i) as -> by (by apply Hu). done.
      * apply (co_clean _ Hco i Hi Hni). case_decide; [subst; by destruct E|done].
    + intros d b Hdb'. rewrite Hlog, on_disk_cons. unfold c. rewrite writes_one by done.
      case_bool_decide; [apply bytes_block|]; apply Hco; done.
  - by rewrite E1, decide_True.
  - done.
Qed.

(** States in which the buffers hold the same. *)
Definition same_view s s' : Prop := fs_log s' = fs_log s ∧ nr_buf2 s' = nr_buf2 s ∧
  ∀ i, b_dev (buf_of s' i) = b_dev (buf_of s i) ∧ b_blocknr (buf_of s' i) = b_blocknr (buf_of s i) ∧
    b_data (buf_of s' i) = b_data (buf_of s i) ∧ b_dirt (buf_of s' i) = b_dirt (buf_of s i).
Lemma same_view_steady s s' : same_view s s' → steady s s'.
Proof. intros (El & _ & Hb). constructor; [intros i; by destruct (Hb i) as (-> & -> & -> & _)|]. by rewrite El. Qed.
Lemma same_view_coherent s s' : same_view s s' → coherent s → coherent s'.
Proof.
  intros (El & _ & Hb) Hco. constructor; [..|rewrite El; apply Hco]; intros i; destruct (Hb i) as (E1 & E2 & E3 & E4).
  - rewrite E1, E2. apply Hco.
  - rewrite E3. apply Hco.
  - unfold block_bytes. rewrite El, E1, E2, E3, E4. apply Hco.
Qed.

Lemma get_block2_off bp only s : is_buf bp → nr_buf2 s = 0 →
  wp (get_block2 bp only) (λ r s', r = false ∧ buf_of s' = buf_of s ∧ fs_log s' = fs_log s ∧ nr_buf2 s' = 0) s.
Proof.
  intros Hbp Hn. unfold get_block2. fs_step. fs_step. fs_step.
  eapply (wp_mono _ (λ _ s', buf_of s' = buf_of s ∧ fs_log s' = fs_log s ∧ nr_buf2 s' = 0)).
  { apply wp_when; intros _; [by fs_step|done]. }
  intros [] s1 (Eb & El & En). fs_step. fs_step. fs_step. apply wp_b2get; [apply hash2_tab|].
  rewrite En. change (0 =? 0) with true. cbn [orb]. by fs_step.
Qed.

Lemma put_back_sem bp Q s : unique s → coherent s → is_buf bp → nr_buf2 s = 0 →
  (∀ s', steady s s' → coherent s' → (b_dev (buf_of s bp) ≠ NO_DEV → b_dirt (buf_of s' bp) = false) → nr_buf2 s' = 0 → Q tt s') →
  wp (put_back bp) Q s.
Proof.
  intros Hu Hco Hbp Hn HQ. unfold put_back. fs_step. fs_step. unfold id.
  apply wp_when; intros E; [apply negb_true_iff, Z.eqb_neq in E|apply negb_false_iff, Z.eqb_eq in E];
    [|apply HQ; [apply steady_refl|done|by rewrite E|done]].
  fs_step. eapply (wp_mono _ (λ _ s', steady s s' ∧ coherent s' ∧ b_dirt (buf_of s' bp) = false ∧ nr_buf2 s' = 0)).
  - apply wp_when; intros Ed; [|split_and!; [apply steady_refl|done|done|done]].
    destruct (co_range _ Hco bp Hbp E) as (Hd & Hr & _). apply flushall_sem; [done|done|done|done|].
    intros s' Hst Hco' _ Hcl Hnr. split_and!; [done|done|by apply Hcl|by rewrite Hnr].
  - intros [] s1 (Hst & Hco1 & Hcl & Hn1). unfold put_block2. fs_step. fs_step. rewrite Hn1. change (0 =? 0) with true. cbv iota. fs_step. by apply HQ.
Qed.

(** A buffer filled from the disk. *)
Lemma load_store l d : is_block l → load (store 0 (take (Z.to_nat BLOCK_SIZE) l) d) 0 BLOCK_SIZE = l.
Proof.
  intros [Hl Hb]. unfold load, store. rewrite take_ge by (unfold BLOCK_SIZE in *; lia). apply list_eq. intros k.
  change (map ?f ?x) with (f <$> x). rewrite list_lookup_fmap. destruct (decide (k < length l)%nat) as [Hk|Hk].
  - rewrite lookup_seqZ_lt by lia. cbn. destruct (lookup_lt_is_Some_2 l k Hk) as [x Hx].
    rewrite Z.leb_refl || rewrite (proj2 (Z.leb_le 0 (0 + Z.of_nat k))) by lia.
    rewrite (proj2 (Z.ltb_lt _ _)) by lia. cbn [andb]. rewrite Hx. f_equal.
    replace (Z.to_nat (0 + Z.of_nat k - 0)) with k by lia. rewrite (nth_lookup_Some _ _ _ _ Hx).
    apply Z.mod_small. by apply (Forall_lookup_1 _ _ _ _ Hb Hx).
  - rewrite lookup_seqZ_ge by lia. cbn. symmetry. apply lookup_ge_None_2. lia.
Qed.

Definition bytes_ok s : Prop := ∀ i k, 0 ≤ b_data (buf_of s i) k < 2 ^ 8.
Lemma fetch_sem bp dev block Q s : is_buf bp → nr_buf2 s = 0 → disk_block dev block →
  b_dev (buf_of s bp) = dev → b_blocknr (buf_of s bp) = block → is_block (on_disk image (fs_log s) dev block) →
  (∀ s', (∀ i, i ≠ bp → buf_of s' i = buf_of s i) → b_dev (buf_of s' bp) = dev → b_blocknr (buf_of s' bp) = block →
     b_dirt (buf_of s' bp) = false → block_bytes (buf_of s' bp) = on_disk image (fs_log s) dev block →
     (bytes_ok s → bytes_ok s') → (∀ d b, on_disk image (fs_log s') d b = on_disk image (fs_log s) d b) → nr_buf2 s' = 0 → Q tt s') →
  wp (fetch bp dev NORMAL) Q s.
Proof.
  intros Hbp Hn Hdb Ed Eb Hib HQ. pose proof Hdb as (Hd & Hr & Hb). unfold fetch.
  rewrite (proj2 (Z.eqb_neq _ _) (disk_block_nodev _ _ Hdb)). cbn [negb when]. fs_step.
  eapply wp_mono; [by apply get_block2_off|]. intros r s1 (-> & Eb1 & El1 & En1).
  change (NORMAL =? PREFETCH) with false. change (NORMAL =? NORMAL) with true. cbn [when].
  unfold rw_block. fs_step. fs_step. unfold id. fs_step. rewrite Eb1, Ed, Eb. rewrite (proj2 (Z.eqb_neq _ _) (disk_block_nodev _ _ Hdb)). cbn [negb when].
  change (READING =? READING) with true. cbv iota. cbn [when]. fs_step. apply dev_io_ok; [done|unfold disk_op; tauto|].
  set (c := disk_call _ _ _ _ _). unfold io_status, answer_of, fill_block. rewrite El1.
  destruct (store_read (fs_log s) dev block Hdb Hib) as [Es Edat]. fold c in Es, Edat. rewrite Es, Edat. fs_step. fs_step.
  rewrite Z.eqb_refl. cbn [negb when]. fs_step. fs_step. match goal with |- Q tt ?x => set (s2 := x) end.
  assert (E2 : buf_of s2 bp = (buf_of s bp) <| b_data := store 0 (take (Z.to_nat BLOCK_SIZE) (on_disk image (fs_log s) dev block)) (b_data (buf_of s bp)) |> <| b_dirt := false |>).
  { unfold s2. cbn. by rewrite !fn_lookup_insert, Eb1. }
  assert (E2' : ∀ i, i ≠ bp → buf_of s2 i = buf_of s i).
  { intros i Hi. unfold s2. cbn. by rewrite !fn_lookup_insert_ne, Eb1. }
  assert (Elog : fs_log s2 = c :: fs_log s) by (unfold s2; cbn; by rewrite El1).
  assert (En2 : nr_buf2 s2 = nr_buf2 s1) by done. clearbody s2.
  apply HQ; [done|by rewrite E2|by rewrite E2|by rewrite E2| | | |by rewrite En2].
  - rewrite E2. unfold block_bytes. cbn. by apply load_store.
  - intros Hok i k. destruct (decide (i = bp)) as [->|Hi]; [|rewrite E2' by done; apply Hok].
    rewrite E2. cbn. unfold store. destruct (_ && _); [apply Z.mod_pos_bound; lia|apply Hok].
  - intros d b. rewrite Elog, on_disk_cons. unfold c. by rewrite reads_nothing.
Qed.

Lemma hash_enter_view bp dev block s : is_buf bp →
  wp (hash_enter bp dev block) (λ _ s', (∀ i, i ≠ bp → buf_of s' i = buf_of s i) ∧ b_dev (buf_of s' bp) = dev ∧
    b_blocknr (buf_of s' bp) = block ∧ fs_log s' = fs_log s ∧ nr_buf2 s' = nr_buf2 s ∧ b_data (buf_of s' bp) = b_data (buf_of s bp)) s.
Proof.
  intros Hbp. unfold hash_enter. fs_step. fs_step. fs_step. fs_step. fs_step. fs_step. fs_step.
  split_and!; [entry|cbn; by rewrite !fn_lookup_insert..|done|done|cbn; by rewrite !fn_lookup_insert].
Qed.

(** A block that takes the place of a clean one. *)
Lemma replaced_sem s3 s5 bp dev block : unique s3 → unique s5 → coherent s3 → is_buf bp → disk_block dev block →
  (∀ i, is_buf i → holds s3 dev block i = false) → (b_dev (buf_of s3 bp) ≠ NO_DEV → b_dirt (buf_of s3 bp) = false) →
  (∀ i, i ≠ bp → buf_of s5 i = buf_of s3 i) → b_dev (buf_of s5 bp) = dev → b_blocknr (buf_of s5 bp) = block →
  b_dirt (buf_of s5 bp) = false → block_bytes (buf_of s5 bp) = on_disk image (fs_log s3) dev block → bytes_ok s5 →
  (∀ d b, on_disk image (fs_log s5) d b = on_disk image (fs_log s3) d b) →
  coherent s5 ∧ ∀ d b, disk_block d b → contents s5 d b = contents s3 d b.
Proof.
  intros Hu3 Hu5 Hco Hbp Hdb Hno Hclean Hsame Ed Eb Edirt Ebytes Hok Hdisk. split.
  - constructor.
    + intros i Hi. destruct (decide (i = bp)) as [->|Hne]; [by rewrite Ed, Eb|]. rewrite Hsame by done. by apply Hco.
    + exact Hok.
    + intros i Hi. destruct (decide (i = bp)) as [->|Hne]; [by rewrite Ed, Eb, Ebytes, Hdisk|].
      rewrite Hsame, Hdisk by done. by apply Hco.
    + intros d b Hdb'. rewrite Hdisk. by apply Hco.
  - intros d b Hdb'. apply disk_block_nodev in Hdb' as Hn.
    destruct (decide (d = dev ∧ b = block)) as [[-> ->]|Hdiff].
    { rewrite (contents_unheld s3) by done. rewrite (contents_held s5 dev block bp), Ebytes; try done. by apply holds_true. }
    assert (H5 : ∀ i, holds s5 d b i = if decide (i = bp) then false else holds s3 d b i).
    { intros i. case_decide as Ei; [|unfold holds; by rewrite Hsame]. subst i. apply not_true_iff_false.
      intros [E1 E2]%holds_true. apply Hdiff. split; congruence. }
    destruct (held_dec s3 d b) as [(i & Hi & Hh)|Hno3].
    + rewrite (contents_held s3 d b i) by done. destruct (decide (i = bp)) as [->|Hne].
      * apply holds_true in Hh as [<- <-]. rewrite (co_clean _ Hco bp Hbp Hn (Hclean Hn)). rewrite contents_unheld, Hdisk; [done|].
        intros j Hj. rewrite H5. case_decide as Ej; [done|]. apply not_true_iff_false. intros [E1 E2]%holds_true. apply Ej. apply Hu3; congruence.
      * rewrite (contents_held s5 d b i); [unfold block_bytes; by rewrite Hsame|done|done|done|by rewrite H5, decide_False].
    + rewrite !contents_unheld, Hdisk; [done|done|]. intros i Hi. rewrite H5. case_decide; auto.
Qed.

(** What a caller of [get_block] gets, and what it does to the contents of the blocks. *)
Definition transparent s s' : Prop :=
  coherent s' ∧ nr_buf2 s' = 0 ∧ ∀ d b, disk_block d b → contents s' d b = contents s d b.
Definition fetched dev block s bp s' : Prop :=
  unique s' → transparent s s' ∧ b_dev (buf_of s' bp) = dev ∧ block_bytes (buf_of s' bp) = contents s dev block.

Lemma same_view_transparent s s' : unique s → coherent s → nr_buf2 s = 0 → same_view s s' → transparent s s'.
Proof.
  intros Hu Hco Hn Hv. split_and!; [by eapply same_view_coherent|by destruct Hv as (_ & -> & _)|].
  intros d b. apply steady_contents; [done|by apply same_view_steady].
Qed.

Lemma hit_sem dev block bp s : cache_inv s → coherent s → nr_buf2 s = 0 → disk_block dev block → is_buf bp → holds s dev block bp = true →
  wp (c ← bget b_count bp; when (c =? 0) (rm_lru bp);; bset bp (λ b, b <| b_count := s8 (b_count b + 1) |>);; mret bp)
    (fetched dev block s) s.
Proof.
  intros Hinv Hco Hn Hdb Hbp Hh. pose proof (cache_unique _ Hinv) as Hu. destruct Hinv as [(lru & hl & W) _ _].
  fs_step. fs_step. fs_step. eapply (wp_mono _ (λ _ s', same_view s s')).
  - apply wp_when; [|done]. intros E%Z.eqb_eq.
    apply (cw_free _ _ _ _ W bp (proj2 (bufx_nil _) Hbp)) in E. apply list_elem_of_split in E as (l1 & l2 & ->).
    apply (rm_lru_ok l1 bp l2); [apply W|]. intros s1 _ Ho Hb. split_and!; [exact (f_equal snd Ho)|exact (f_equal (λ x, x.1.1.1.2) Ho)|].
    intros i. destruct (Hb i) as [E _]. injection E as -> _ -> -> ->. done.
  - intros [] s1 (El & En & Hv). fs_step. fs_step. fs_step. match goal with |- fetched _ _ _ _ ?x => set (s2 := x) end.
    assert (Hv2 : same_view s s2).
    { split_and!; [done|done|]. intros i. unfold s2. cbn. rewrite tab_set. case_decide; [subst; cbn|]; apply Hv. }
    intros _. split; [by apply same_view_transparent|]. destruct Hv2 as (_ & _ & Hv2). destruct (Hv2 bp) as (E1 & _ & E3 & _).
    apply disk_block_nodev in Hdb. rewrite E1. split; [by apply holds_true in Hh as [-> _]|].
    rewrite (contents_held s dev block bp) by done. unfold block_bytes. by rewrite E3.
Qed.

Lemma miss_sem dev block s : cache_inv s → coherent s → nr_buf2 s = 0 → disk_block dev block →
  (∃ i, is_buf i ∧ b_count (buf_of s i) = 0) → (∀ i, is_buf i → holds s dev block i = false) →
  wp (bp ← gets front;
      if bp =? NIL then panic "all buffers in use" NR_BUFS else
      rm_lru bp;; hash_remove bp;; put_back bp;; hash_enter bp dev block;; fetch bp dev NORMAL;; mret bp)
    (fetched dev block s) s.
Proof.
  intros Hinv Hco Hn Hdb (i0 & Hi0 & Hc0) Hno. pose proof (cache_unique _ Hinv) as Hu. destruct Hinv as [(lru & hl & W) _ _].
  fs_step. fs_step. apply (cw_free _ _ _ _ W) in Hc0; [|by apply bufx_nil].
  destruct lru as [|bp lru]; [by apply elem_of_nil in Hc0|]. clear i0 Hi0 Hc0.
  destruct (ptr_end _ _ (cw_lru _ _ _ _ W)) as [Hf _]. cbn in Hf.
  destruct (ptr_spec (front s)) as [[_ E]|[En E]]; rewrite E in Hf; [done|]. injection Hf as Hf. rewrite Hf in *.
  rewrite (proj2 (Z.eqb_neq _ _) En). fs_step. eapply wp_mono;
    [apply (evict_ok bp lru hl (λ _ s1, wp (put_back bp;; hash_enter bp dev block;; fetch bp dev NORMAL;; mret bp) (fetched dev block s) s1));
       [done|]|intros [] s' Hw; by apply wp_bind].
  intros s2 hl2 W2 Hbp _ _ _ Hf2 El2 En2.
  assert (Hv2 : same_view s s2).
  { split_and!; [done|done|]. intros i. destruct (Hf2 i) as (D1 & D2 & D3). injection D3 as D3 D4 D5. auto. }
  pose proof (same_view_steady _ _ Hv2) as Hst2. pose proof (same_view_coherent _ _ Hv2 Hco) as Hco2. pose proof (steady_unique _ _ Hst2 Hu) as Hu2.
  fs_step. apply put_back_sem; [done|done|done|by rewrite En2|]. intros s3 Hst3 Hco3 Hcl3 Hn3.
  pose proof (steady_trans _ _ _ Hst2 Hst3) as Hst. pose proof (steady_unique _ _ Hst Hu) as Hu3.
  fs_step. pose proof (hash_enter_view bp dev block s3 Hbp) as He. eapply wp_mono; [exact He|].
  intros [] s4 (Hs4 & D4 & B4 & L4 & N4 & T4).
  fs_step. apply (fetch_sem bp dev block); [done|by rewrite N4|done|done|done|rewrite L4; by apply Hco3|].
  intros s5 Hs5 D5 B5 C5 Y5 K5 O5 N5. fs_step. intros Hu5.
  destruct (replaced_sem s3 s5 bp dev block) as [Hco5 Hcont]; try done.
  - intros i Hi. rewrite (steady_holds _ _ _ _ _ Hst). auto.
  - intros Hd3. apply Hcl3. by destruct (st_buf _ _ Hst3 bp) as (<- & _).
  - intros i Hi. by rewrite Hs5, Hs4.
  - by rewrite Y5, L4.
  - apply K5. intros i k. destruct (decide (i = bp)) as [->|Hi]; [rewrite T4|rewrite Hs4 by done]; apply Hco3.
  - intros d b. by rewrite O5, L4.
  - assert (Hc3 : ∀ d b, disk_block d b → contents s3 d b = contents s d b) by (intros d b; by apply steady_contents).
    split; [split_and!; [done|done|intros d b Hdb'; by rewrite Hcont, Hc3]|]. split; [done|].
    rewrite Y5, L4, <- Hc3, contents_unheld; [done| |done]. intros i Hi. rewrite (steady_holds _ _ _ _ _ Hst). auto.
Qed.

Lemma get_block_sem dev block s : cache_inv s → coherent s → nr_buf2 s = 0 → disk_block dev block →
  (∃ i, is_buf i ∧ b_count (buf_of s i) = 0) → wp (get_block dev block NORMAL) (fetched dev block s) s.
Proof.
  intros Hinv Hco Hn Hdb Hfree. unfold get_block. fs_step.
  rewrite (proj2 (Z.eqb_neq _ _) (disk_block_nodev _ _ Hdb)). cbn [negb].
  destruct (ci_wf _ Hinv) as (lru & hl & W). apply (hash_search_ok hl); [apply W|].
  pose proof (holds_find _ _ _ dev block W) as Hfind. destruct (List.find _ _) as [bp|].
  - destruct Hfind as [Hbp Hh]. by apply hit_sem.
  - by apply miss_sem.
Qed.

(** Both halves of the specification hold of the same run. *)
Lemma get_block_full dev block s : cache_inv s → coherent s → nr_buf2 s = 0 → disk_block dev block →
  (∃ i, is_buf i ∧ b_count (buf_of s i) = 0) → (∀ i, is_buf i → holds s dev block i = true → b_count (buf_of s i) < 127) →
  ∃ bp s', get_block dev block NORMAL s = Ret bp s' ∧ got dev block NORMAL s bp s' ∧ transparent s s' ∧
    b_dev (buf_of s' bp) = dev ∧ block_bytes (buf_of s' bp) = contents s dev block.
Proof.
  intros Hinv Hco Hn Hdb Hfree Hmax. pose proof Hdb as (Hd & _).
  destruct (wp_inv _ _ _ (get_block_ok dev block NORMAL (got dev block NORMAL s) s Hinv (or_intror Hd) Hfree Hmax (λ bp s' Hg, Hg)))
    as (bp & s' & E & Hg).
  destruct (wp_inv _ _ _ (get_block_sem dev block s Hinv Hco Hn Hdb Hfree)) as (bp' & s'' & E' & Hf).
  rewrite E in E'. injection E' as <- <-. exists bp, s'. split; [done|]. split; [done|].
  apply Hf, cache_unique, Hg.
Qed.

Lemma put_sem block_type bp s : cache_inv s → coherent s → nr_buf2 s = 0 → is_buf bp → b_count (buf_of s bp) ≠ 0 →
  wp (put_block bp block_type) (λ _ s', transparent s s') s.
Proof.
  intros Hinv Hco Hn Hbp Hc. pose proof (cache_unique _ Hinv) as Hu.
  destruct Hinv as [(lru & hl & W) _ _]. pose proof (proj2 (bufx_nil _) Hbp) as Hbx.
  assert (Hni : bp ∉ lru) by (rewrite (cw_free _ _ _ _ W bp Hbx); done).
  pose proof (cw_count _ _ _ _ W bp Hbx) as Hr.
  unfold put_block. rewrite (proj2 (Z.eqb_neq _ _) (is_buf_nil _ Hbp)). fs_step. fs_step. fs_step. fs_step. cbn. rewrite fn_lookup_insert. cbn.
  set (s1 := s <| buf_of := _ |>).
  assert (Hb1 : ∀ i, off_links (buf_of s1 i) = off_links (buf_of s i) ∧ nxt s1 i = nxt s i ∧ prv s1 i = prv s i).
  { intros i. unfold nxt, prv, s1. entry. }
  assert (Hv1 : same_view s s1).
  { split_and!; [done|done|]. intros i. unfold s1. cbn. rewrite tab_set. by case_decide; subst. }
  destruct (negb _); [fs_step; by apply same_view_transparent|]. fs_step. fs_step. fs_step. set (s2 := s1 <| bufs_in_use := _ |>).
  assert (Hl2 : dchain (nxt s2) (prv s2) (ptr (front s2)) (ptr (rear s2)) lru).
  { eapply dchain_ext; [| |exact (lw_chain _ _ (cw_lru _ _ _ _ W))]; intros k _; apply Hb1. }
  assert (Hu2 : bufs_in_use s2 = NR_BUFS - Z.of_nat (S (length lru))).
  { unfold s2. cbn. rewrite (lw_use _ _ (cw_lru _ _ _ _ W)). lia. }
  pose proof (lw_bufs _ _ (cw_lru _ _ _ _ W)) as Hlb.
  eapply (wp_mono _ (λ _ s3, same_view s s3)).
  { assert (Hv : ∀ s3, off_lru s3 = off_lru s2 → (∀ i, off_links (buf_of s3 i) = off_links (buf_of s2 i)) → same_view s s3).
    { intros s3 Ho Hb. split_and!; [exact (f_equal snd Ho)|exact (f_equal (λ x, x.1.1.1.2) Ho)|].
      intros i. assert (E : off_links (buf_of s3 i) = off_links (buf_of s i)) by (rewrite Hb; apply Hb1). by injection E as -> _ -> -> ->. }
    destruct (has block_type ONE_SHOT); [apply (lru_front_ok lru)|apply (lru_rear_ok lru)]; try done;
      intros s3 _ Ho3 Hb3; apply Hv; try done; apply Hb3. }
  intros [] s3 Hv3. pose proof (same_view_transparent _ _ Hu Hco Hn Hv3) as Ht. fs_step. fs_step. unfold id.
  apply wp_when; [|done]. intros [_ E]%andb_true_iff. apply negb_true_iff, Z.eqb_neq in E. destruct Ht as (Hco3 & Hn3 & Hc3).
  pose proof (steady_unique _ _ (same_view_steady _ _ Hv3) Hu) as Hu3.
  apply rw_block_write_sem; [done|done|done|done|]. intros s4 Hst Hco4 _ Hn4. split_and!; [done|by rewrite Hn4|].
  intros d b Hdb. rewrite (steady_contents s3 s4) by done. by apply Hc3.
Qed.

(** The write of a caller to the buffer it has. *)
Definition fill (bp : Z) (d : Z → Z) : PF unit := bset bp (λ b, b <| b_data := d |> <| b_dirt := true |>).
Lemma fill_sem bp d s : cache_inv s → coherent s → nr_buf2 s = 0 → is_buf bp → b_dev (buf_of s bp) ≠ NO_DEV →
  (∀ k, 0 ≤ d k < 2 ^ 8) →
  wp (fill bp d) (λ _ s', cache_inv s' ∧ coherent s' ∧ nr_buf2 s' = 0 ∧
    (∀ i, core (buf_of s' i) = core (buf_of s i)) ∧
    ∀ dev block, disk_block dev block → contents s' dev block =
      if decide (dev = b_dev (buf_of s bp) ∧ block = b_blocknr (buf_of s bp)) then load d 0 BLOCK_SIZE else contents s dev block) s.
Proof.
  intros Hinv Hco Hn Hbp Hd Hok. pose proof (cache_unique _ Hinv) as Hu. unfold fill. fs_step.
  match goal with |- cache_inv ?x ∧ _ => set (s1 := x) end.
  assert (E1 : ∀ i, buf_of s1 i = if decide (bp = i) then (buf_of s bp) <| b_data := d |> <| b_dirt := true |> else buf_of s i) by (intros i; apply tab_set).
  assert (Hcore : ∀ i, core (buf_of s1 i) = core (buf_of s i)) by (intros i; rewrite E1; by case_decide; subst).
  assert (Hl : ∀ i, links (buf_of s1 i) = links (buf_of s i)) by (intros i; rewrite E1; by case_decide; subst).
  assert (Hq : quiet (λ i, i = bp) s s1).
  { constructor; [done|done| | |done]; intros i; rewrite E1; case_decide; subst; auto. by intros []. }
  assert (Hinv1 : cache_inv s1).
  { destruct Hinv as [(lru & hl & W) Hdev H2]. constructor; [by eexists _, _; eapply quiet_wf|by eapply quiet_devs|done]. }
  assert (Hdb : ∀ i, b_dev (buf_of s1 i) = b_dev (buf_of s i) ∧ b_blocknr (buf_of s1 i) = b_blocknr (buf_of s i)).
  { intros i. specialize (Hcore i). by injection Hcore. }
  assert (Hh : ∀ dev block i, holds s1 dev block i = holds s dev block i).
  { intros dev block i. unfold holds. by destruct (Hdb i) as [-> ->]. }
  split_and!; [done| |done|done|].
  - constructor; [| | |apply Hco].
    + intros i Hi. destruct (Hdb i) as [-> ->]. by apply Hco.
    + intros i k. rewrite E1. case_decide; [apply Hok|apply Hco].
    + intros i Hi. rewrite E1. case_decide; [done|]. by apply Hco.
  - intros dev block Hblk. apply disk_block_nodev in Hblk as Hnd. pose proof (cache_unique _ Hinv1) as Hu1.
    destruct (held_dec s dev block) as [(i & Hi & Hhi)|Hno].
    + rewrite (contents_held s dev block i), (contents_held s1 dev block i); try done; [|by rewrite Hh].
      apply holds_true in Hhi as [<- <-]. rewrite E1. destruct (decide (bp = i)) as [->|Hne]; [by rewrite decide_True|].
      rewrite decide_False; [done|]. intros [E2 E3]. apply Hne. symmetry. by apply Hu.
    + rewrite !contents_unheld; [|done|intros i Hi; by rewrite Hh, Hno]. rewrite decide_False; [done|].
      intros [-> ->]. specialize (Hno bp Hbp). by rewrite (proj2 (holds_true s _ _ bp)) in Hno.
Qed.

(** Read a block, change it, release it, and read a block again. *)
Definition rewrite_then_read (dev block : Z) (d : Z → Z) (block_type dev' block' : Z) : PF (list Z) :=
  bp ← get_block dev block NORMAL;
  fill bp d;;
  put_block bp block_type;;
  bp' ← get_block dev' block' NORMAL;
  b ← bget id bp';
  mret (block_bytes b).

Lemma rewrite_then_read_ok dev block d block_type dev' block' s : cache_inv s → coherent s → nr_buf2 s = 0 →
  disk_block dev block → disk_block dev' block' → (∀ k, 0 ≤ d k < 2 ^ 8) →
  (∃ i, is_buf i ∧ b_count (buf_of s i) = 0) → (∀ i, is_buf i → b_count (buf_of s i) < 127) →
  wp (rewrite_then_read dev block d block_type dev' block') (λ l _, l =
    if decide (dev' = dev ∧ block' = block) then load d 0 BLOCK_SIZE else contents s dev' block') s.
Proof.
  intros Hinv Hco Hn Hdb Hdb' Hok Hfree Hmax. unfold rewrite_then_read. fs_step.
  destruct (get_block_full dev block s) as (bp & s1 & E1 & Hg1 & (Hco1 & Hn1 & Hc1) & Hd1 & _); [done..|by auto|].
  eapply wp_eq; [exact E1|]. pose proof (g_buf _ _ _ _ _ _ Hg1) as Hbp. pose proof (g_inv _ _ _ _ _ _ Hg1) as Hinv1.
  pose proof (cw_count) as Hcw. destruct (ci_wf _ Hinv) as (lru & hl & W).
  pose proof (Hcw _ _ _ _ W bp (proj2 (bufx_nil _) Hbp)) as Hcbp. clear Hcw.
  fs_step. eapply wp_mono; [apply (fill_sem bp d s1); [done|done|done|done|rewrite Hd1; by eapply disk_block_nodev|done]|].
  intros [] s2 (Hinv2 & Hco2 & Hn2 & Hcore2 & Hc2).
  assert (Hcnt2 : ∀ i, b_count (buf_of s2 i) = b_count (buf_of s1 i)) by (intros i; specialize (Hcore2 i); by injection Hcore2).
  pose proof (g_count _ _ _ _ _ _ Hg1) as Hbc.
  assert (Hnz : b_count (buf_of s2 bp) ≠ 0) by (rewrite Hcnt2; lia).
  destruct (ci_wf _ Hinv2) as (lru2 & hl2 & W2).
  destruct (wp_inv _ _ _ (put_block_ok block_type lru2 hl2 bp (λ _, put block_type lru2 s2 bp) s2 Hinv2 W2 Hbp Hnz (λ s' Hp, Hp))) as (u & s3 & E3 & Hp3).
  destruct (wp_inv _ _ _ (put_sem block_type bp s2 Hinv2 Hco2 Hn2 Hbp Hnz)) as (u' & s3' & E3' & Hco3 & Hn3 & Hc3).
  rewrite E3 in E3'. injection E3' as <- <-. fs_step. eapply wp_eq; [exact E3|].
  assert (Hcnt3 : ∀ i, b_count (buf_of s3 i) = b_count (buf_of s i)).
  { intros i. destruct (decide (i = bp)) as [->|Hne]; [rewrite (p_count _ _ _ _ _ Hp3), Hcnt2; lia|].
    rewrite (p_counts _ _ _ _ _ Hp3), Hcnt2 by done. by apply (g_others _ _ _ _ _ _ Hg1). }
  destruct Hfree as (i0 & Hi0 & Hz0).
  destruct (get_block_full dev' block' s3) as (bp' & s4 & E4 & Hg4 & _ & _ & Hbytes); [by apply Hp3|done|done|done| | |].
  { exists i0. by rewrite Hcnt3. }
  { intros i Hi _. rewrite Hcnt3. auto. }
  fs_step. eapply wp_eq; [exact E4|]. fs_step. apply wp_bget; [apply is_buf_tab, Hg4|]. unfold id. fs_step.
  rewrite Hbytes, Hc3, Hc2, Hd1, (g_block _ _ _ _ _ _ Hg1) by done. case_decide; [done|]. by apply Hc1.
Qed.
End sem.
