(* ===== verification/Fworld.v ===== *)
(** * A concrete environment

    The buffer pool after [buf_pool] (fs/main.c), and an environment whose disks
    keep what is written to them: the laws of the disks hold of it, so the
    properties proved from them are about something. *)

From S2P Require Import Prelude Chain Fstate Fdev Cache Super Inode Filedes Rdwr Path Fcalls Fopen Fmisc Fmain Fwp Sortp Cachewf Cachep Cachesem.

(** ** The initial pool *)
Section pool.
Context `{World}.
Implicit Types (s : fsst).

Lemma each_bset_ok (g : Z → buf → buf) l Q s : NoDup l → (∀ i, i ∈ l → is_buf i) →
  (∀ f, (∀ i, f i = if decide (i ∈ l) then g i (buf_of s i) else buf_of s i) → Q tt (s <| buf_of := f |>)) →
  wp (each l (λ bp, bset bp (g bp))) Q s.
Proof.
  intros Hn Hb HQ. eapply wp_mono.
  { apply (wp_each (λ l' s', ∃ pre f, l = pre ++ l' ∧ s' = s <| buf_of := f |> ∧
             ∀ i, f i = if decide (i ∈ pre) then g i (buf_of s i) else buf_of s i)).
    - intros x l' ? (pre & f & E & -> & Hf). assert (Hx : is_buf x) by (apply Hb; rewrite E; set_solver).
      fs_step. exists (pre ++ [x]), (<[x := g x (f x)]> f). split_and!; [by rewrite <- app_assoc|done|].
      rewrite E in Hn. apply NoDup_app in Hn as (_ & Hn & _). specialize (Hn x).
      intros i. rewrite tab_set, (Hf i). case_decide as Ei.
      + subst i. rewrite (Hf x), decide_False, decide_True by set_solver. done.
      + destruct (decide (i ∈ pre)); [rewrite decide_True by set_solver|rewrite decide_False by set_solver]; done.
    - exists [], (buf_of s). split_and!; [done|by destruct s|]. intros i. by rewrite decide_False by apply not_elem_of_nil. }
  intros [] s' (pre & f & E & -> & Hf). rewrite app_nil_r in E. subst pre. by apply HQ.
Qed.

(** The chains of the pool: all the buffers in the order of their numbers. *)
Definition pool_hash (h : Z) : list Z := if h =? 0 then all_bufs else [].

Lemma seqZ_chain nx a n : 0 ≤ a → 0 ≤ n → (∀ i, a ≤ i < a + n - 1 → nx i = Some (i + 1)) → (1 ≤ n → nx (a + n - 1) = None) →
  chain nx (if n =? 0 then None else Some a) (seqZ a n).
Proof.
  intros Ha Hn. revert a Ha. pattern n. apply natlike_ind; [done| |done]. clear n Hn. intros n Hn IH a Ha Hnx Hlast.
  rewrite seqZ_cons by lia. rewrite (proj2 (Z.eqb_neq _ _)) by lia. split; [done|].
  replace (Z.pred (Z.succ n)) with n by lia. replace (Z.succ a) with (a + 1) by lia.
  specialize (IH (a + 1)). destruct (Z.eqb_spec n 0) as [->|].
  - replace (a + Z.succ 0 - 1) with a in Hlast by lia. rewrite Hlast by lia. done.
  - rewrite Hnx by lia. apply IH; [lia|intros; apply Hnx; lia|]. intros _. rewrite <- Hlast by lia. f_equal. lia.
Qed.
Lemma seqZ_chain_rev nx a n : 0 ≤ a → 0 ≤ n → (∀ i, a < i < a + n → nx i = Some (i - 1)) → (1 ≤ n → nx a = None) →
  chain nx (if n =? 0 then None else Some (a + n - 1)) (reverse (seqZ a n)).
Proof.
  intros Ha Hn. pattern n. apply natlike_ind; [done| |done]. clear n Hn. intros n Hn IH Hnx Hlast.
  rewrite (proj2 (Z.eqb_neq _ _)) by lia. replace (Z.succ n) with (n + 1) by lia. rewrite seqZ_app by lia.
  rewrite reverse_app, (seqZ_cons (a + n)) by lia. rewrite seqZ_nil by lia. cbn.
  split; [f_equal; lia|]. destruct (Z.eqb_spec n 0) as [->|].
  - replace (a + 0) with a by lia. rewrite Hlast by lia. done.
  - rewrite Hnx by lia. apply IH; [intros; apply Hnx; lia|intros; apply Hlast; lia].
Qed.

(** The ends of the pool get null links. *)
Definition pool_ends (f : Z → buf) : Z → buf :=
  let f0 := <[0 := (f 0) <| b_prev := NIL |>]> f in <[NR_BUFS - 1 := (f0 (NR_BUFS - 1)) <| b_next := NIL |>]> f0.
Lemma pool_ends_ok f i : let b := pool_ends f i in
  b_next b = (if i =? NR_BUFS - 1 then NIL else b_next (f i)) ∧ b_prev b = (if i =? 0 then NIL else b_prev (f i)) ∧
  b_dev b = b_dev (f i) ∧ b_blocknr b = b_blocknr (f i) ∧ b_count b = b_count (f i) ∧ b_data b = b_data (f i).
Proof.
  cbn. unfold pool_ends. rewrite tab_set. destruct (Z.eqb_spec i (NR_BUFS - 1)) as [->|Hn].
  - rewrite decide_True by done. cbn. by rewrite fn_lookup_insert_ne.
  - rewrite decide_False by done. rewrite tab_set. destruct (Z.eqb_spec i 0) as [->|]; [by rewrite decide_True|by rewrite decide_False by done].
Qed.

Lemma buf_pool_ok Q s : (∀ i, b_count (buf_of s i) = 0) → (∀ h, buf_hash s h = NIL) → cache2_wf s →
  (∀ s', cache_inv s' → (∀ i, b_count (buf_of s' i) = 0 ∧ b_data (buf_of s' i) = b_data (buf_of s i)) →
     (∀ i, is_buf i → b_dev (buf_of s' i) = NO_DEV) → fs_log s' = fs_log s → nr_buf2 s' = nr_buf2 s → Q tt s') →
  wp buf_pool Q s.
Proof.
  intros Hc Hh H2 HQ. assert (Hall : ∀ i, i ∈ all_bufs ↔ is_buf i) by (intros i; rewrite list_elem_of_In; apply in_all_bufs).
  assert (Hnd : NoDup all_bufs) by apply NoDup_seqZ.
  unfold buf_pool. fs_step. fs_step. fs_step. apply each_bset_ok; [done|by intros i ?%Hall|]. intros f1 Hf1.
  fs_step. fs_step. fs_step. fs_step. fs_step. apply each_bset_ok; [done|by intros i ?%Hall|]. intros f2 Hf2.
  fs_step. fs_step. fs_step. match goal with |- Q tt ?x => set (s1 := x) end. cbn in Hf1, Hf2.
  assert (E1 : ∀ i, buf_of s1 i = f2 i) by done.
  assert (H1 : ∀ i, b_count (f1 i) = 0 ∧ b_data (f1 i) = b_data (buf_of s i) ∧
            (is_buf i → b_next (f1 i) = i + 1 ∧ b_prev (f1 i) = i - 1 ∧ b_dev (f1 i) = NO_DEV ∧ b_blocknr (f1 i) = NO_BLOCK)).
  { intros i. rewrite Hf1. case_decide as Hi; cbn; rewrite ?Hc; [done|]. split_and!; [done|done|]. by intros ?%Hall. }
  pose proof (pool_ends_ok f1) as Hends.
  assert (Hf2' : ∀ i, f2 i = if decide (i ∈ all_bufs) then (pool_ends f1 i) <| b_hash := b_next (pool_ends f1 i) |> else pool_ends f1 i) by exact Hf2.
  assert (Hfull : ∀ i, is_buf i → b_next (f2 i) = (if i =? NR_BUFS - 1 then NIL else i + 1) ∧ b_prev (f2 i) = (if i =? 0 then NIL else i - 1) ∧
            b_hash (f2 i) = b_next (f2 i) ∧ b_dev (f2 i) = NO_DEV ∧ b_blocknr (f2 i) = NO_BLOCK).
  { intros i Hi. rewrite (Hf2' i), decide_True by by apply Hall. cbn. destruct (Hends i) as (-> & -> & -> & -> & _).
    destruct (H1 i) as (_ & _ & H1'). by destruct (H1' Hi) as (-> & -> & -> & ->). }
  assert (Hcd : ∀ i, b_count (f2 i) = 0 ∧ b_data (f2 i) = b_data (buf_of s i)).
  { intros i. rewrite (Hf2' i). destruct (Hends i) as (_ & _ & _ & _ & Ec & Ed), (H1 i) as (Ec1 & Ed1 & _).
    case_decide; cbn; by rewrite Ec, Ed, Ec1, Ed1. }
  assert (Hnx : ∀ i, is_buf i → ptr (b_next (f2 i)) = if i =? NR_BUFS - 1 then None else Some (i + 1)).
  { intros i Hi. destruct (Hfull i Hi) as (-> & _). destruct (_ =? _); [done|]. apply ptr_Some. unfold is_buf, NIL in *. lia. }
  assert (Hpv : ∀ i, is_buf i → ptr (b_prev (f2 i)) = if i =? 0 then None else Some (i - 1)).
  { intros i Hi. destruct (Hfull i Hi) as (_ & -> & _). destruct (Z.eqb_spec i 0); [done|]. apply ptr_Some. unfold is_buf, NIL in *. lia. }
  assert (Hchain : ∀ nx, (∀ i, is_buf i → nx i = if i =? NR_BUFS - 1 then None else Some (i + 1)) → chain nx (Some 0) all_bufs).
  { intros nx Hn. apply (seqZ_chain nx 0 NR_BUFS); [done|done| |intros _; by rewrite Hn by done].
    intros i Hi. rewrite Hn by (unfold is_buf; lia). rewrite (proj2 (Z.eqb_neq _ _)); [done|lia]. }
  apply HQ; [|exact Hcd|intros i Hi; by apply Hfull|done|done]. constructor; [|intros i Hi; left; by apply Hfull|done].
  exists all_bufs, pool_hash. constructor.
  - constructor; [|by intros i ?%Hall|done]. split; [by apply Hchain|]. apply (seqZ_chain_rev _ 0 NR_BUFS); [done|done| |].
    + intros i Hi. unfold prv. rewrite E1, Hpv by (unfold is_buf; lia). rewrite (proj2 (Z.eqb_neq _ _)); [done|lia].
    + intros _. unfold prv. by rewrite E1, Hpv.
  - constructor; [|intros h i; unfold pool_hash; destruct (h =? 0); [by intros ?%Hall|by intros ?%elem_of_nil]].
    intros h. unfold pool_hash. cbn. rewrite tab_set, Hh. destruct (Z.eqb_spec h 0) as [->|Hne].
    + rewrite decide_True by done. apply Hchain. intros i Hi. unfold hsh. rewrite E1. destruct (Hfull i Hi) as (_ & _ & -> & _). by apply Hnx.
    + by rewrite decide_False by done.
  - split; [rewrite Hall; unfold is_buf, NIL; lia|]. intros h. unfold pool_hash. destruct (h =? 0); [rewrite Hall; unfold is_buf, NIL; lia|apply not_elem_of_nil].
  - intros i [Hi _]. rewrite Hall, E1. split; [intros _; apply Hcd|done].
  - intros h i [Hi _]. unfold hash_of. rewrite E1. destruct (Hfull i Hi) as (_ & _ & _ & _ & ->). unfold pool_hash.
    change (Z.land NO_BLOCK HASH_MASK) with 0. destruct (Z.eqb_spec h 0) as [->|]; [by rewrite Hall|]. split; [by intros ?%elem_of_nil|congruence].
  - intros i [Hi _]. rewrite E1. destruct (Hcd i) as [-> _]. lia.
  - intros i j [Hi _] [Hj _] Hnd'. rewrite E1 in Hnd'. by destruct (Hfull i Hi) as (_ & _ & _ & E & _).
Qed.
End pool.

(** ** An environment with perfect disks

    The disk tasks answer from the log of the calls; MM, the clock and the
    system task give fixed answers, and so does user memory. *)
Section perfect.
Context (image : Z → Z → list Z).

Definition dev_of (task minor : Z) : Z :=
  (if task =? MEM then 1 else if task =? FLOPPY then 2 else 3) * 2 ^ 8 + minor.
Definition disk_data (log : list fcall) (t : Z) (mm : message) (mem : iomem) : list (Z * list Z) :=
  match mem with
  | Fill => [(0, on_disk image log (dev_of t (m2_i1 mm)) (u32 (m2_l1 mm) / BLOCK_SIZE))]
  | Iovec rs => map (λ r, (0, if io_request r =? DEV_WRITE then [] else
                               on_disk image log (dev_of t (m2_i1 mm)) (u32 (io_position r) / BLOCK_SIZE))) rs
  | _ => []
  end.
Definition disk_status (op : Z) : Z := if (op =? DEV_READ) || (op =? DEV_WRITE) then BLOCK_SIZE else OK.
Definition perfect_answer (log : list fcall) (c : fcall) : fanswer :=
  match c with
  | Sendrec t mm mem =>
      if (t =? MEM) || (t =? FLOPPY) || (t =? WINCHESTER) then
        Fanswer OK (put16 1 (disk_status (m_type mm)) (put16 0 (m2_i2 mm) mm)) (disk_data log t mm mem)
      else if t =? SYSTASK then Fanswer OK mm [(0, [2; 0; 2; 0; 0; 0])]
      else if t =? CLOCK then Fanswer OK (put32 3 1000 mm) []
      else Fanswer OK mm []
  | CopyFrom _ _ _ n => Fanswer OK zero_message [(0, replicate (Z.to_nat n) 65)]
  | _ => Fanswer OK zero_message []
  end.
#[local] Instance perfect : World := MkWorld perfect_answer 1000 0 [] 0.

Lemma rep_words r st mm : - 2 ^ 15 ≤ r < 2 ^ 15 → - 2 ^ 15 ≤ st < 2 ^ 15 →
  REP_PROC_NR (put16 1 st (put16 0 r mm)) = r ∧ REP_STATUS (put16 1 st (put16 0 r mm)) = st.
Proof.
  intros Hr Hst. unfold REP_PROC_NR, REP_STATUS, m2_i1, m2_i2, put16. cbn.
  rewrite fn_lookup_insert_ne, !fn_lookup_insert by done. unfold s16, u16. rewrite !Zplus_mod_idemp_l, !Z.mod_small by lia. lia.
Qed.
Lemma m2_i2_range mm : - 2 ^ 15 ≤ m2_i2 mm < 2 ^ 15.
Proof. unfold m2_i2, s16. pose proof (Z.mod_pos_bound (m_w mm 1 + 2 ^ 15) (2 ^ 16)). lia. Qed.
Lemma disk_status_range op : - 2 ^ 15 ≤ disk_status op < 2 ^ 15 ∧ disk_status op ≠ SUSPEND.
Proof. unfold disk_status. destruct (_ || _); done. Qed.
Lemma disk_answer log t mm mem : disk_task t → perfect_answer log (Sendrec t mm mem) =
  Fanswer OK (put16 1 (disk_status (m_type mm)) (put16 0 (m2_i2 mm) mm)) (disk_data log t mm mem).
Proof. unfold perfect_answer. by intros [->|[->| ->]]. Qed.
Lemma task_disk dev : disk_dev dev → disk_task (task_of dev).
Proof. intros Hd. destruct (disk_dev_find dev Hd) as (t & Ht & E & _). unfold task_of. by rewrite E. Qed.

#[local] Instance perfect_law : DiskLaw.
Proof.
  constructor; [cbn; lia|]. intros log t mm mem Ht _. cbn [fs_answer perfect]. rewrite disk_answer by done. cbn [a_res a_msg].
  destruct (disk_status_range (m_type mm)) as [Hs Hn]. destruct (rep_words (m2_i2 mm) (disk_status (m_type mm)) mm) as [-> ->];
    [apply m2_i2_range|done|]. done.
Qed.

Lemma dev_of_inv dev : disk_dev dev → 0 ≤ dev < 2 ^ 16 → dev_of (task_of dev) (minor_of dev) = dev.
Proof.
  intros Hd Hr. assert (E : dev = major_of dev * 2 ^ 8 + minor_of dev).
  { unfold major_of, minor_of. change BYTE with (Z.ones 8). rewrite !Z.land_ones, Z.shiftr_div_pow2 by lia.
    rewrite (Z.mod_small (dev / 2 ^ 8)) by (split; [apply Z.div_pos; lia|apply Z.div_lt_upper_bound; lia]).
    pose proof (Z.div_mod dev (2 ^ 8)). lia. }
  rewrite E at 3. unfold dev_of, task_of, find_dev. destruct Hd as [Em|[Em|Em]]; rewrite Em; reflexivity.
Qed.
Lemma pos_block block : 0 ≤ block < 2 ^ 22 → u32 (position block) / BLOCK_SIZE = block.
Proof.
  intros Hb. unfold position. assert (E : u32 (s32 (block * BLOCK_SIZE)) = block * BLOCK_SIZE).
  { unfold u32, s32, BLOCK_SIZE. rewrite Zminus_mod, Zmod_mod, <- Zminus_mod. rewrite Z.mod_small; lia. }
  rewrite E. by apply Z.div_mul.
Qed.

Lemma perfect_store : (∀ dev block, is_block (image dev block)) → DiskStore image.
Proof.
  intros Him. constructor; [exact perfect_law|done| | |].
  - intros log dev block (Hd & Hr & Hb) [Hl _]. unfold disk_call. cbn [fs_answer perfect]. rewrite disk_answer by by apply task_disk.
    cbn [a_msg a_data]. split; [apply rep_words; [apply m2_i2_range|done]|].
    unfold disk_data, block_data. rewrite dev_message_minor, dev_message_pos, u32_position, pos_block, dev_of_inv by done.
    apply take_ge. unfold BLOCK_SIZE in *. lia.
  - intros log dev pos l Hd. unfold disk_call. cbn [fs_answer perfect]. rewrite disk_answer by by apply task_disk.
    apply rep_words; [apply m2_i2_range|done].
  - intros log dev n rs i Hd Hi. unfold disk_call. cbn [fs_answer perfect]. rewrite disk_answer by by apply task_disk.
    unfold harvest. cbn [a_data disk_data].
    match goal with |- (nth i (map ?f rs) ?d).1 = 0 => destruct (nth_in_or_default i (map f rs) d) as [Hin|Hdef] end.
    + apply List.in_map_iff in Hin as (r & <- & _). done.
    + exfalso. apply lookup_lt_is_Some_2 in Hi as [r Hr]. rewrite (nth_lookup_Some _ _ _ (0, if io_request r =? DEV_WRITE then [] else on_disk image log (dev_of (task_of dev) (m2_i1 (dev_message SCATTERED_IO (minor_of dev) FS_PROC_NR n 0 0 0))) (u32 (io_position r) / BLOCK_SIZE))) in Hdef; [by injection Hdef|].
      change (map ?f rs) with (f <$> rs). by rewrite list_lookup_fmap, Hr.
Qed.
End perfect.

(** ** A small file system (version 2) on a floppy disk

    Blocks 1 to 5: the super block, the two bit maps, the inodes (only the root)
    and the root directory. *)
Definition FLOPPY_DEV : Z := 0x200.
Definition floppy_block (b : Z) : Z → Z :=
  if b =? 1 then set16 0 16 (set16 4 1 (set16 6 1 (set16 8 5 (set16 10 0 (set32 12 100000 (set16 16 SUPER_V2 (set32 20 20 (λ _, 0))))))))
  else if b =? 2 then set16 0 7 (λ _, 0)
  else if b =? 3 then set16 0 3 (λ _, 0)
  else if b =? 4 then set16 0 0x41FF (set16 2 3 (set32 8 48 (set32 24 5 (λ _, 0))))
  else if b =? 5 then set16 0 1 (<[2 := 46]> (set16 16 1 (<[18 := 46]> (<[19 := 46]> (set16 32 1 (<[34 := 122]> (λ _, 0)))))))
  else λ _, 0.
Definition floppy (dev b : Z) : list Z := load (floppy_block b) 0 BLOCK_SIZE.
Definition byte_list (l : list Z) : bool := forallb (λ x, (0 <=? x) && (x <? 256)) l.
Lemma byte_list_ok l : byte_list l = true → Forall (λ x, 0 ≤ x < 2 ^ 8) l.
Proof. intros Hf. apply Forall_forall. intros x Hx%list_elem_of_In. unfold byte_list in Hf. rewrite forallb_forall in Hf. specialize (Hf x Hx). lia. Qed.
Lemma floppy_ok dev b : is_block (floppy dev b).
Proof.
  split; [unfold floppy, load; by rewrite length_map, length_seqZ|]. apply byte_list_ok. unfold floppy, floppy_block.
  repeat case_match; vm_compute; reflexivity.
Qed.
#[export] Instance demo : World := perfect floppy.
#[export] Instance demo_store : DiskStore floppy := perfect_store floppy floppy_ok.
