(* ===== verification/Fprops.v ===== *)
(** * What the block cache promises

    The contract of fs/cache.c, as its callers use it. *)

From stdpp Require Import sorting.
From S2P Require Import Prelude Chain Fstate Fdev Cache Super Inode Filedes Rdwr Path Fcalls Fopen Fmisc Fmain Fwp Sortp Cachewf Cachep Cachesem Fworld.

(** The demonstration state: the pool after [buf_pool]. *)
Definition pool_state : fsst := match buf_pool fs_zero with Ret _ s => s | _ => fs_zero end.
Lemma pool_facts : cache_inv pool_state ∧ coherent floppy pool_state ∧ nr_buf2 pool_state = 0 ∧
  (∀ i, b_count (buf_of pool_state i) = 0) ∧ (∀ i, is_buf i → b_dev (buf_of pool_state i) = NO_DEV).
Proof.
  destruct (wp_inv _ _ _ (buf_pool_ok (λ _ s', cache_inv s' ∧ (∀ i, b_count (buf_of s' i) = 0 ∧ b_data (buf_of s' i) = λ _, 0) ∧
    (∀ i, is_buf i → b_dev (buf_of s' i) = NO_DEV) ∧ fs_log s' = [] ∧ nr_buf2 s' = 0) fs_zero
    ltac:(done) ltac:(done) ltac:(split; [done|by left]) ltac:(done))) as (u & s & E & Hinv & Hcd & Hdev & Hlog & Hn).
  unfold pool_state. rewrite E. split_and!; [done| |done|intros i; by destruct (Hcd i)|done]. constructor.
  - intros i Hi Hd. by destruct (Hd (Hdev i Hi)).
  - intros i k. destruct (Hcd i) as [_ ->]. done.
  - intros i Hi Hd. by destruct (Hd (Hdev i Hi)).
  - intros dev b _. rewrite Hlog. apply floppy_ok.
Qed.
Lemma floppy_disk b : 0 ≤ b < 2 ^ 22 → disk_block FLOPPY_DEV b.
Proof. intros Hb. split; [by right; left|]. split; [done|exact Hb]. Qed.
Lemma pool_unheld dev b i : dev ≠ NO_DEV → is_buf i → holds pool_state dev b i = false.
Proof.
  intros Hd Hi. unfold holds. destruct pool_facts as (_ & _ & _ & _ & Hdev). rewrite (Hdev i Hi).
  apply andb_false_iff. right. by apply Z.eqb_neq.
Qed.

Lemma pool_got : ∃ bp s1 lru hl, b_blocknr (buf_of s1 bp) = 5 ∧ is_buf bp ∧ cache_inv s1 ∧ cache_wf NIL lru hl s1 ∧
  b_count (buf_of s1 bp) ≠ 0.
Proof.
  destruct (get_block_full (H := demo) floppy FLOPPY_DEV 5 pool_state) as (bp & s1 & _ & Hg & _).
  - exact (proj1 pool_facts).
  - exact (proj1 (proj2 pool_facts)).
  - exact (proj1 (proj2 (proj2 pool_facts))).
  - by apply floppy_disk.
  - exists 0. split; [by split|]. exact (proj1 (proj2 (proj2 (proj2 pool_facts))) 0).
  - intros i Hi Hh. exfalso. revert Hh. by rewrite pool_unheld.
  - destruct (ci_wf _ (g_inv _ _ _ _ _ _ Hg)) as (lru & hl & W). exists bp, s1, lru, hl.
    split_and!; [apply Hg|apply Hg|apply Hg|done|]. rewrite (g_count _ _ _ _ _ _ Hg), (proj1 (proj2 (proj2 (proj2 pool_facts))) bp). done.
Qed.

(** C38: the Shell sort always ends and changes nothing but the queue; the
    queue it returns holds the same buffers, and their block numbers are in
    the order in which a reference sort puts them. *)
Theorem shell_sort_sorts q s : Forall (λ bp, 0 ≤ bp < NR_BUFS) q →
  ∃ q', shell_sort q s = Ret q' s ∧ q' ≡ₚ q ∧
    map (λ bp, b_blocknr (buf_of s bp)) q' = merge_sort Z.le (map (λ bp, b_blocknr (buf_of s bp)) q).
Proof.
  intros Hq. destruct (wp_inv _ _ _ (shell_sort_ok q s Hq)) as (q' & ? & E & -> & Hp & Hs).
  exists q'. split_and!; [done|done|]. apply (StronglySorted_unique Z.le).
  - by apply gap_sorted_1.
  - apply StronglySorted_merge_sort; apply _.
  - rewrite merge_sort_Permutation. by apply fmap_Permutation.
Qed.
Lemma shell_sort_sorts_witness : let s := fs_zero <| buf_of := λ i, zero_buf <| b_blocknr := (i * 17) mod 23 |> |> in
  ∃ q', shell_sort [4; 9; 2; 11; 30; 7] s = Ret q' s ∧ q' ≡ₚ [4; 9; 2; 11; 30; 7] ∧
    map (λ bp, b_blocknr (buf_of s bp)) q' = merge_sort Z.le [22; 15; 11; 3; 4; 4].
Proof.
  apply (shell_sort_sorts [4; 9; 2; 11; 30; 7]). repeat constructor; done.
Defined.

(** C15: the structure of the cache.  In a well-formed cache (the LRU chain is
    a doubly linked list of the buffers not in use, the hash chains partition
    the buffers by block number, no block is in two buffers) with a buffer that
    is not in use, [get_block] returns a buffer for the block asked for, on any
    of its modes and whatever the disks answer: the buffer that holds the block
    with its contents if there is one, else the least recently used one.  The
    buffer gets one more user, all the others keep their users and contents
    (an I/O error can only make a block invalid), nothing outside the cache
    changes, and the cache is well-formed again. *)
Theorem get_block_spec `{DiskLaw} dev block only_search s : cache_inv s → (dev = NO_DEV ∨ disk_dev dev) →
  (∃ i, is_buf i ∧ b_count (buf_of s i) = 0) → (∀ i, is_buf i → holds s dev block i = true → b_count (buf_of s i) < 127) →
  ∃ bp s', get_block dev block only_search s = Ret bp s' ∧ got dev block only_search s bp s'.
Proof.
  intros Hinv Hd Hfree Hmax.
  destruct (wp_inv _ _ _ (get_block_ok dev block only_search (got dev block only_search s) s Hinv Hd Hfree Hmax (λ _ _ Hg, Hg))) as (bp & s' & E & Hg).
  by exists bp, s'.
Qed.
Lemma get_block_spec_witness : ∃ bp s', get_block (H := demo) FLOPPY_DEV 5 PREFETCH pool_state = Ret bp s' ∧
  got FLOPPY_DEV 5 PREFETCH pool_state bp s'.
Proof.
  apply (@get_block_spec demo (store_law (DiskStore := demo_store)) FLOPPY_DEV 5 PREFETCH pool_state).
  - exact (proj1 pool_facts).
  - right. by right; left.
  - exists 0. split; [by split|]. exact (proj1 (proj2 (proj2 (proj2 pool_facts))) 0).
  - intros i Hi Hh. exfalso. revert Hh. by rewrite pool_unheld.
Defined.

(** [put_block] of a buffer in use, whatever the disks answer: it has one
    user fewer, and the last user puts it at the front of the LRU chain, where
    it is the next to be evicted, for a one-shot block and at the rear for any
    other; no buffer changes its block or contents, nothing outside the cache
    changes, and the cache is well-formed again. *)
Theorem put_block_spec `{DiskLaw} block_type lru hl bp s : cache_inv s → cache_wf NIL lru hl s → is_buf bp →
  b_count (buf_of s bp) ≠ 0 → ∃ s', put_block bp block_type s = Ret tt s' ∧ put block_type lru s bp s'.
Proof.
  intros Hinv W Hbp Hc.
  destruct (wp_inv _ _ _ (put_block_ok block_type lru hl bp (λ _, put block_type lru s bp) s Hinv W Hbp Hc (λ _ Hp, Hp))) as ([] & s' & E & Hp).
  by exists s'.
Qed.

Lemma put_block_spec_witness : ∃ bp lru s1 s2, b_blocknr (buf_of s1 bp) = 5 ∧
  put_block (H := demo) bp ZUPER_BLOCK s1 = Ret tt s2 ∧ put ZUPER_BLOCK lru s1 bp s2.
Proof.
  destruct pool_got as (bp & s1 & lru & hl & Hb & Hbp & Hinv & W & Hc). exists bp, lru, s1.
  destruct (@put_block_spec demo (store_law (DiskStore := demo_store)) ZUPER_BLOCK lru hl bp s1 Hinv W Hbp Hc) as (s2 & Hput).
  by exists s2.
Defined.

(** C3: the cache is transparent.  With perfect disks and without the
    secondary cache, [get_block] of a block returns a buffer with the contents
    of the block (those of the buffer that holds it, which may be newer than
    the disk, or else what is on the disk), and no block of any disk changes
    its contents: a dirty buffer that has to make room is written back first,
    with all the dirty blocks of its device, in one sorted sweep. *)
Theorem cache_transparent `{!World} image `{!DiskStore image} dev block s : cache_inv s → coherent image s → nr_buf2 s = 0 →
  disk_block dev block → (∃ i, is_buf i ∧ b_count (buf_of s i) = 0) →
  (∀ i, is_buf i → holds s dev block i = true → b_count (buf_of s i) < 127) →
  ∃ bp s', get_block dev block NORMAL s = Ret bp s' ∧ b_dev (buf_of s' bp) = dev ∧ b_blocknr (buf_of s' bp) = block ∧
    block_bytes (buf_of s' bp) = contents image s dev block ∧ coherent image s' ∧ cache_inv s' ∧
    ∀ d b, disk_block d b → contents image s' d b = contents image s d b.
Proof.
  intros Hinv Hco Hn Hdb Hfree Hmax.
  destruct (get_block_full image dev block s Hinv Hco Hn Hdb Hfree Hmax) as (bp & s' & E & Hg & (Hco' & _ & Hc) & Hd & Hb).
  exists bp, s'. split_and!; [done|done|by apply Hg|done|done|by apply Hg|done].
Qed.
Lemma cache_transparent_witness : ∃ bp s', get_block (H := demo) FLOPPY_DEV 5 NORMAL pool_state = Ret bp s' ∧
  b_dev (buf_of s' bp) = FLOPPY_DEV ∧ b_blocknr (buf_of s' bp) = 5 ∧
  block_bytes (buf_of s' bp) = contents floppy pool_state FLOPPY_DEV 5 ∧ coherent floppy s' ∧ cache_inv s' ∧
  ∀ d b, disk_block d b → contents floppy s' d b = contents floppy pool_state d b.
Proof.
  apply (@cache_transparent demo floppy demo_store FLOPPY_DEV 5 pool_state).
  - exact (proj1 pool_facts).
  - exact (proj1 (proj2 pool_facts)).
  - exact (proj1 (proj2 (proj2 pool_facts))).
  - by apply floppy_disk.
  - exists 0. split; [by split|]. exact (proj1 (proj2 (proj2 (proj2 pool_facts))) 0).
  - intros i Hi Hh. exfalso. revert Hh. by rewrite pool_unheld.
Defined.

(** C31: what is written is read back.  A block is read through the cache, its
    buffer is filled and marked dirty, and it is released in any of the ways
    [put_block] has; a later [get_block] of any block returns the new contents
    if it is the same block, and the contents the block had if it is another. *)
Theorem write_read_back `{!World} image `{!DiskStore image} dev block d block_type dev' block' s :
  cache_inv s → coherent image s → nr_buf2 s = 0 → disk_block dev block → disk_block dev' block' → (∀ k, 0 ≤ d k < 2 ^ 8) →
  (∃ i, is_buf i ∧ b_count (buf_of s i) = 0) → (∀ i, is_buf i → b_count (buf_of s i) < 127) →
  ∃ s', rewrite_then_read dev block d block_type dev' block' s =
    Ret (if decide (dev' = dev ∧ block' = block) then load d 0 BLOCK_SIZE else contents image s dev' block') s'.
Proof.
  intros Hinv Hco Hn Hdb Hdb' Hok Hfree Hmax.
  destruct (wp_inv _ _ _ (rewrite_then_read_ok image dev block d block_type dev' block' s Hinv Hco Hn Hdb Hdb' Hok Hfree Hmax)) as (l & s' & E & ->).
  by exists s'.
Qed.
Lemma write_read_back_witness : ∃ s', rewrite_then_read (H := demo) FLOPPY_DEV 5 (λ _, 77) ZUPER_BLOCK FLOPPY_DEV 5 pool_state =
  Ret (if decide (FLOPPY_DEV = FLOPPY_DEV ∧ 5 = 5) then load (λ _, 77) 0 BLOCK_SIZE else contents floppy pool_state FLOPPY_DEV 5) s'.
Proof.
  apply (@write_read_back demo floppy demo_store FLOPPY_DEV 5 (λ _, 77) ZUPER_BLOCK FLOPPY_DEV 5 pool_state).
  - exact (proj1 pool_facts).
  - exact (proj1 (proj2 pool_facts)).
  - exact (proj1 (proj2 (proj2 pool_facts))).
  - by apply floppy_disk.
  - by apply floppy_disk.
  - done.
  - exists 0. split; [by split|]. exact (proj1 (proj2 (proj2 (proj2 pool_facts))) 0).
  - intros i Hi. rewrite (proj1 (proj2 (proj2 (proj2 pool_facts))) i). done.
Defined.
