(* ===== verification/Lockp.v ===== *)
(** * Advisory record locks

    fs/lock.c: no two processes hold conflicting locks. *)

From S2P Require Import Prelude Fstate Fdev Filedes Fwp.

Section locks.
Context `{World}.
Implicit Types (s : fsst) (i j : Z).

Definition is_lock i : Prop := 0 ≤ i < NR_LOCKS.
Definition used (x : file_lock) : bool := negb (lock_type x =? 0).
Definition overlap (x y : file_lock) : Prop :=
  lock_inode x = lock_inode y ∧ lock_first x ≤ lock_last y ∧ lock_first y ≤ lock_last x.
(** Two locks that may not be held together. *)
Definition conflicting (x y : file_lock) : Prop :=
  overlap x y ∧ lock_pid x ≠ lock_pid y ∧ (lock_type x ≠ F_RDLCK ∨ lock_type y ≠ F_RDLCK).
Definition count_used (f : Z → file_lock) : Z := Z.of_nat (length (List.filter (λ i, used (f i)) all_locks)).

Record lock_wf s : Prop := LockWf {
  lk_conflict i j : is_lock i → is_lock j → i ≠ j → used (lock_of s i) = true → used (lock_of s j) = true →
    ¬ conflicting (lock_of s i) (lock_of s j);
  lk_range i : is_lock i → used (lock_of s i) = true →
    0 ≤ lock_first (lock_of s i) ≤ lock_last (lock_of s i) ∧ lock_last (lock_of s i) ≤ MAX_FILE_POS;
  lk_count : nr_locks s = count_used (lock_of s)
}.

Lemma is_lock_tab i : is_lock i → in_tab NR_LOCKS i = true.
Proof. apply in_tab_intro. Qed.
Lemma elem_all_locks i : i ∈ all_locks ↔ is_lock i.
Proof. unfold all_locks. rewrite elem_of_seqZ. unfold is_lock. lia. Qed.
Hint Resolve is_lock_tab : fs.

(** The number of used entries after an update. *)
Definition b2z (b : bool) : Z := if b then 1 else 0.
Lemma count_filter_set l f i x : NoDup l → i ∈ l →
  Z.of_nat (length (List.filter (λ j, used (<[i := x]> f j)) l)) =
  Z.of_nat (length (List.filter (λ j, used (f j)) l)) - b2z (used (f i)) + b2z (used x).
Proof.
  induction l as [|k l IH]; [by intros ? ?%elem_of_nil|]. intros [Hk Hn]%NoDup_cons Hi. cbn [List.filter].
  apply elem_of_cons in Hi as [<-|Hi].
  - rewrite fn_lookup_insert, (List.filter_ext_in _ (λ j, used (f j))).
    + unfold b2z. destruct (used x), (used (f i)); cbn [length]; lia.
    + intros j Hj%list_elem_of_In. rewrite fn_lookup_insert_ne; [done|]. by intros ->.
  - rewrite fn_lookup_insert_ne by (by intros ->). specialize (IH Hn Hi). destruct (used (f k)); cbn [length]; lia.
Qed.
Lemma count_set f i x : is_lock i → count_used (<[i := x]> f) = count_used f - b2z (used (f i)) + b2z (used x).
Proof. intros Hi. apply count_filter_set; [apply NoDup_seqZ|by apply elem_all_locks]. Qed.
Lemma b2z_unused x : used x = false → b2z (used x) = 0.
Proof. by intros ->. Qed.

Lemma conflicting_sym x y : conflicting x y → conflicting y x.
Proof. unfold conflicting, overlap. intros ((? & ? & ?) & ? & ?). split_and!; try done; tauto. Qed.

(** An entry is replaced by one that conflicts with no other. *)
Lemma lock_wf_set s s' i y : lock_wf s → is_lock i → lock_of s' = <[i := y]> (lock_of s) →
  nr_locks s' = nr_locks s - b2z (used (lock_of s i)) + b2z (used y) →
  (used y = true → 0 ≤ lock_first y ≤ lock_last y ∧ lock_last y ≤ MAX_FILE_POS ∧
     ∀ j, is_lock j → j ≠ i → used (lock_of s j) = true → ¬ conflicting y (lock_of s j)) → lock_wf s'.
Proof.
  intros [Hc Hr Hn] Hi El En Hy. constructor; rewrite El.
  - intros j k Hj Hk Hjk. rewrite !tab_set. destruct (decide (i = j)) as [<-|], (decide (i = k)) as [<-|]; [done| | |by apply Hc].
    + intros Hu1 Hu2. apply (Hy Hu1); auto.
    + intros Hu1 Hu2 Hcf%conflicting_sym. revert Hcf. apply (Hy Hu2); auto.
  - intros j Hj. rewrite tab_set. case_decide; [|by apply Hr]. intros Hu. destruct (Hy Hu) as (? & ? & _). done.
  - by rewrite count_set, <- Hn.
Qed.

(** A part of a lock conflicts with nothing the lock does not conflict with. *)
Lemma part_ok s i x j first last : lock_wf s → is_lock i → used (lock_of s i) = true → x = lock_of s i →
  lock_first x ≤ first → last ≤ lock_last x → is_lock j → j ≠ i → used (lock_of s j) = true →
  ¬ conflicting (FileLock (lock_type x) (lock_pid x) (lock_inode x) first last) (lock_of s j).
Proof.
  intros W Hi Hu -> Hf Hl Hj Hne Huj Hc. apply (lk_conflict _ W i j); auto. revert Hc.
  unfold conflicting, overlap. cbn. intros ((? & ? & ?) & ? & ?). split_and!; try done; lia.
Qed.

(** The process [pid] holds a lock of type [t] on byte [b] of a file. *)
Definition held s (pid t ino b : Z) : Prop := ∃ i, is_lock i ∧ used (lock_of s i) = true ∧
  lock_pid (lock_of s i) = pid ∧ lock_type (lock_of s i) = t ∧ lock_inode (lock_of s i) = ino ∧
  lock_first (lock_of s i) ≤ b ≤ lock_last (lock_of s i).

Lemma free_slot s : lock_wf s → nr_locks s ≠ NR_LOCKS →
  ∃ e, List.find (λ i, lock_type (lock_of s i) =? 0) all_locks = Some e ∧ is_lock e ∧ used (lock_of s e) = false.
Proof.
  intros W Hn. destruct (List.find _ _) as [e|] eqn:E.
  - apply List.find_some in E as [He%list_elem_of_In%elem_all_locks Hz]. exists e. split_and!; [done|done|]. unfold used. by rewrite Hz.
  - exfalso. apply Hn. rewrite (lk_count _ W). unfold count_used. rewrite (List.filter_ext_in _ (λ _, true)).
    + by rewrite List.filter_true.
    + intros i Hi. unfold used. by rewrite (List.find_none _ _ E i Hi).
Qed.

(** What the scan of the table leaves alone. *)
Definition lk_frame s s' : Prop := ∃ f n, s' = s <| lock_of := f |> <| nr_locks := n |>.
Lemma lk_frame_refl s : lk_frame s s.
Proof. exists (lock_of s), (nr_locks s). by destruct s. Qed.
Lemma lk_frame_trans s1 s2 s3 : lk_frame s1 s2 → lk_frame s2 s3 → lk_frame s1 s3.
Proof. intros (f & n & ->) (f' & n' & ->). by exists f', n'. Qed.

(** The effect of an unlock on one entry of the table. *)
Record cleared (flp first last : Z) s s' : Prop := Cleared {
  cl_wf : lock_wf s';
  cl_frame : lk_frame s s';
  cl_in i : is_lock i → used (lock_of s' i) = true → lock_inode (lock_of s' i) = lock_inode (lock_of s flp) →
    lock_first (lock_of s' i) ≤ last → first ≤ lock_last (lock_of s' i) → i ≠ flp ∧ lock_of s' i = lock_of s i;
  cl_out pid t ino b : ¬ (ino = lock_inode (lock_of s flp) ∧ first ≤ b ≤ last) → held s' pid t ino b ↔ held s pid t ino b
}.

Lemma cleared_one flp first last s s' y : lock_wf s → is_lock flp → used (lock_of s flp) = true →
  lock_of s' = <[flp := y]> (lock_of s) → lock_wf s' → lk_frame s s' →
  (used y = true → y = FileLock (lock_type (lock_of s flp)) (lock_pid (lock_of s flp)) (lock_inode (lock_of s flp)) (lock_first y) (lock_last y)) →
  (∀ b, ¬ first ≤ b ≤ last → (lock_first (lock_of s flp) ≤ b ≤ lock_last (lock_of s flp) ↔ used y = true ∧ lock_first y ≤ b ≤ lock_last y)) →
  (used y = true → lock_first y ≤ last → first ≤ lock_last y → False) → cleared flp first last s s'.
Proof.
  intros W Hi Hu El W' Hfr Hy Hb Hdis. constructor; [done|done| |].
  - intros i Hil. rewrite El, tab_set. case_decide as E; [|auto]. intros Huy _ H1 H2. by destruct Hdis.
  - intros pid t ino b Hout. unfold held. rewrite El. split; intros (i & Hil & Hrest); exists i; revert Hrest; rewrite tab_set; case_decide as E; try (by intros); subst i.
    + intros (Huy & Ep & Et & Ei & Hr). pose proof (Hy Huy) as Ey. rewrite Ey in Ep, Et, Ei. cbn in Ep, Et, Ei.
      assert (Hnb : ¬ first ≤ b ≤ last) by (intros ?; by apply Hout).
      split_and!; try done; apply (Hb b Hnb); done.
    + intros (_ & Ep & Et & Ei & Hr). assert (Hnb : ¬ first ≤ b ≤ last) by (intros ?; by apply Hout).
      apply (Hb b Hnb) in Hr as [Huy Hr]. pose proof (Hy Huy) as Ey. split_and!; try (rewrite Ey; done); tauto.
Qed.

(** Unlocking the middle of a lock: [e] gets the end of it. *)
Lemma split_ok flp e first last s s' : lock_wf s → is_lock flp → used (lock_of s flp) = true → is_lock e →
  used (lock_of s e) = false → e ≠ flp → 0 ≤ first ≤ last →
  lock_first (lock_of s flp) < first → last < lock_last (lock_of s flp) →
  lock_of s' = <[flp := (lock_of s flp) <| lock_last := u32 (first - 1) |>]>
                 (<[e := (lock_of s flp) <| lock_first := u32 (last + 1) |>]> (lock_of s)) →
  nr_locks s' = nr_locks s + 1 → lk_frame s s' → cleared flp first last s s'.
Proof.
  intros W Hi Hu He Hue Hne Hfl Hf Hl El En Hfr. set (x := lock_of s flp) in *.
  pose proof (lk_range _ W flp Hi Hu) as Hr. fold x in Hr. unfold MAX_FILE_POS in *.
  assert (E1 : u32 (first - 1) = first - 1) by (apply u32_id; lia). assert (E2 : u32 (last + 1) = last + 1) by (apply u32_id; lia).
  set (y := x <| lock_last := u32 (first - 1) |>) in *. set (z := x <| lock_first := u32 (last + 1) |>) in *.
  set (s1 := s <| lock_of := <[e := z]> (<[flp := y]> (lock_of s)) |> <| nr_locks := nr_locks s + 1 |>).
  set (s0 := s <| lock_of := <[flp := y]> (lock_of s) |>).
  assert (Huy : used y = true) by done. assert (Huz : used z = true) by done.
  assert (W0 : lock_wf s0).
  { eapply lock_wf_set; [exact W|exact Hi|reflexivity|fold x; rewrite Hu, Huy; cbn; lia|].
    intros _. unfold y, MAX_FILE_POS. cbn. rewrite E1. split_and!; [lia..|]. intros j Hj Hnj Huj. by eapply (part_ok s flp x j (lock_first x) (first - 1)); try done; lia. }
  assert (He0 : lock_of s0 e = lock_of s e) by (by apply fn_lookup_insert_ne).
  assert (El' : ∀ i, lock_of s' i = if decide (e = i) then z else if decide (flp = i) then y else lock_of s i).
  { intros i. rewrite El, !tab_set. repeat case_decide; by subst. }
  assert (W' : lock_wf s').
  { assert (W1 : lock_wf s1).
    { eapply (lock_wf_set s0); [exact W0|exact He|reflexivity|rewrite He0, Hue, Huz; cbn; lia|].
      intros _. unfold z, MAX_FILE_POS. cbn. rewrite E2. split_and!; [lia..|]. intros j Hj Hnj. rewrite tab_set. case_decide as Ej.
      - intros _. unfold conflicting. cbn. tauto.
      - intros Huj. by eapply (part_ok s flp x j (last + 1) (lock_last x)); try done; lia. }
    destruct W1 as [C1 R1 N1]. assert (Els : ∀ i, lock_of s' i = lock_of s1 i) by (intros i; rewrite El'; unfold s1; cbn; by rewrite !tab_set).
    constructor; [intros i j; rewrite !Els; apply C1|intros i; rewrite Els; apply R1|]. rewrite En. etrans; [exact N1|].
    unfold count_used. do 2 f_equal. apply List.filter_ext. intros i. by rewrite Els. }
  constructor; [done|done| |].
  - intros i Hil. rewrite El'. repeat case_decide; subst; unfold y, z; cbn; [rewrite E2; lia|rewrite E1; lia|auto].
  - intros pid t ino b Hout. unfold held. split.
    + intros (i & Hil & Hrest). rewrite El' in Hrest. repeat case_decide; [exists flp|exists flp|exists i]; unfold y, z in Hrest; cbn in Hrest;
        fold x; rewrite ?E1, ?E2 in Hrest; destruct Hrest as (? & ? & ? & ? & ?); split_and!; (done || lia).
    + intros (i & Hil & Hui & Hp & Ht & Hn & Hb). destruct (decide (i = flp)) as [->|Hi'].
      * fold x in Hp, Ht, Hn, Hb. assert (Hnb : ¬ first ≤ b ≤ last) by (intros ?; by apply Hout).
        destruct (decide (b < first)); [exists flp|exists e]; rewrite El'; [rewrite decide_False, decide_True by done|rewrite decide_True by done];
          unfold y, z; cbn; rewrite ?E1, ?E2; split_and!; (done || lia).
      * exists i. rewrite El'. rewrite !decide_False by (intros ->; congruence). done.
Qed.

(** [lock_clear] of an entry that overlaps the region. *)
Lemma lock_clear_ok flp first last sc Q s : lock_wf s → is_lock flp → used (lock_of s flp) = true →
  0 ≤ first ≤ last → last ≤ MAX_FILE_POS →
  lock_first (lock_of s flp) ≤ last → first ≤ lock_last (lock_of s flp) →
  (∀ s', cleared flp first last s s' → Q (inl (LockScan true (ls_empty sc))) s') →
  (nr_locks s = NR_LOCKS → Q (inr (Stop_return ENOLCK)) s) →
  wp (lock_clear flp first last sc) Q s.
Proof.
  intros W Hi Hu Hfl Hmax Ho1 Ho2 HQ HQn. pose proof (lk_range _ W flp Hi Hu) as Hr. unfold MAX_FILE_POS in *.
  set (x := lock_of s flp) in *.
  unfold lock_clear. fs_step. fs_step. unfold id. fold x.
  destruct ((first <=? lock_first x) && (lock_last x <=? last)) eqn:E1.
  { (* the whole lock *)
    apply andb_true_iff in E1 as [E1%Z.leb_le E1'%Z.leb_le]. fs_step. fs_step. fs_step. fs_step. fs_step. apply HQ.
    eapply (cleared_one _ _ _ _ _ (x <| lock_type := 0 |>)); try done.
    - eapply lock_wf_set; [exact W|exact Hi|reflexivity| |done]. cbn. fold x. rewrite Hu. cbn. lia.
    - by eexists _, _.
    - intros b Hb. fold x. split; [lia|by intros [? _]]. }
  apply andb_false_iff in E1.
  destruct (Z.leb_spec first (lock_first x)) as [E2|E2].
  { (* the start of the lock *)
    destruct E1 as [E1|E1%Z.leb_gt]; [done|]. assert (Eu : u32 (last + 1) = last + 1) by (apply u32_id; lia).
    fs_step. fs_step. fs_step. apply HQ. eapply (cleared_one _ _ _ _ _ (x <| lock_first := u32 (last + 1) |>)); try done.
    - eapply lock_wf_set; [exact W|exact Hi|reflexivity| |].
      + fold x. change (used (x <| lock_first := _ |>)) with (used x). cbn [nr_locks]. rewrite Hu. cbn. lia.
      + intros _. unfold MAX_FILE_POS. cbn. fold x. rewrite Eu. split_and!; [lia..|]. intros j Hj Hne Huj. by eapply (part_ok s flp x j (last + 1) (lock_last x)); try done; lia.
    - by eexists _, _.
    - intros b Hb. fold x. cbn. fold x. rewrite Eu. split; [intros ?; split; [done|lia]|lia].
    - intros _. cbn. fold x. rewrite Eu. lia. }
  destruct (Z.leb_spec (lock_last x) last) as [E3|E3].
  { (* the end of the lock *)
    assert (Eu : u32 (first - 1) = first - 1) by (apply u32_id; lia).
    fs_step. fs_step. fs_step. apply HQ. eapply (cleared_one _ _ _ _ _ (x <| lock_last := u32 (first - 1) |>)); try done.
    - eapply lock_wf_set; [exact W|exact Hi|reflexivity| |].
      + fold x. change (used (x <| lock_last := _ |>)) with (used x). cbn [nr_locks]. rewrite Hu. cbn. lia.
      + intros _. unfold MAX_FILE_POS. cbn. fold x. rewrite Eu. split_and!; [lia..|]. intros j Hj Hne Huj. by eapply (part_ok s flp x j (lock_first x) (first - 1)); try done; lia.
    - by eexists _, _.
    - intros b Hb. fold x. cbn. fold x. rewrite Eu. split; [intros ?; split; [done|lia]|lia].
    - intros _. cbn. fold x. rewrite Eu. lia. }
  (* the middle: the lock is split *)
  fs_step. fs_step. destruct (Z.eqb_spec (nr_locks s) NR_LOCKS) as [|Hn]; [fs_step; by apply HQn|].
  destruct (free_slot s W Hn) as (e & Ef & He & Hue). fs_step. fs_step. rewrite Ef.
  assert (Hne : e ≠ flp) by (intros ->; unfold x in Hu; congruence).
  fs_step. fs_step. fs_step. fs_step. fs_step. fs_step. fs_step. apply HQ.
  apply (split_ok flp e first last s); try done.
  - cbn. fold x. f_equal. by rewrite fn_lookup_insert_ne.
  - by eexists _, _.
Qed.

(** ** Setting a lock *)

(** Entry [i] is a lock of another process that excludes the lock asked for. *)
Definition blocker (ltype pid ino first last : Z) s i : Prop :=
  is_lock i ∧ used (lock_of s i) = true ∧ conflicting (FileLock ltype pid ino first last) (lock_of s i).
Definition first_empty s e : Prop :=
  (e = NIL ∧ ∀ i, is_lock i → used (lock_of s i) = true) ∨
  (is_lock e ∧ used (lock_of s e) = false ∧ ∀ i, 0 ≤ i < e → used (lock_of s i) = true).
Definition locks_same s s' : Prop := lock_of s' = lock_of s ∧ nr_locks s' = nr_locks s.
(** The caller waits for a lock, and gets no reply. *)
Definition waiting s s' : Prop :=
  dont_reply s' = true ∧ fp_suspended (fproc_of s' (fp s)) = true ∧ - fp_task (fproc_of s' (fp s)) = XLOCK.

Lemma wf_same s s' : locks_same s s' → lock_wf s → lock_wf s'.
Proof. intros [El En] [Hc Hr Hn]. by constructor; rewrite ?El, ?En. Qed.

Lemma suspend_ok Q s : in_tab NR_PROCS (fp s) = true → (∀ s', locks_same s s' → waiting s s' → Q tt s') → wp (suspend XLOCK) Q s.
Proof.
  intros Hp HQ. unfold suspend. fs_step. change ((XLOCK =? XPIPE) || (XLOCK =? XPOPEN)) with false. cbn [when]. fs_step.
  do 4 fs_step. repeat (fs_step || (apply wp_cset; [exact Hp|]; cbv beta)). apply HQ; [done|]. unfold waiting. cbn. by rewrite !fn_lookup_insert.
Qed.

Lemma skip_blocker ltype pid ino first last x : ltype ≠ F_UNLCK →
  lock_skip ltype pid ino first last x = false ↔ conflicting (FileLock ltype pid ino first last) x.
Proof.
  intros Hu. unfold lock_skip, conflicting, overlap. cbn. rewrite (proj2 (Z.eqb_neq _ _) Hu).
  rewrite !orb_false_iff, !andb_false_iff, !negb_false_iff, !Z.ltb_ge, !Z.eqb_eq, !Z.eqb_neq. cbn. split.
  - intros ((((-> & ?) & ?) & ?) & [?|?]); [done|]. split_and!; lia.
  - intros ((<- & ? & ?) & ? & ?). split_and!; lia.
Qed.

(** The scan after the entries below [k]. *)
Definition scan_inv (ltype pid ino first last : Z) s (l : list Z) (sc : lock_scan) s' : Prop :=
  s' = s ∧ ∃ k, 0 ≤ k ≤ NR_LOCKS ∧ l = seqZ k (NR_LOCKS - k) ∧
    (∀ i, 0 ≤ i < k → ¬ blocker ltype pid ino first last s i) ∧ ls_unlocking sc = false ∧
    ((ls_empty sc = NIL ∧ ∀ i, 0 ≤ i < k → used (lock_of s i) = true) ∨
     (0 ≤ ls_empty sc < k ∧ used (lock_of s (ls_empty sc)) = false ∧ ∀ i, 0 ≤ i < ls_empty sc → used (lock_of s i) = true)).
Lemma scan_next ltype pid ino first last s k sc : 0 ≤ k < NR_LOCKS →
  (∀ i, 0 ≤ i < k → ¬ blocker ltype pid ino first last s i) → ls_unlocking sc = false →
  ¬ blocker ltype pid ino first last s k →
  ((ls_empty sc = NIL ∧ ∀ i, 0 ≤ i < k + 1 → used (lock_of s i) = true) ∨
   (0 ≤ ls_empty sc < k + 1 ∧ used (lock_of s (ls_empty sc)) = false ∧ ∀ i, 0 ≤ i < ls_empty sc → used (lock_of s i) = true)) →
  scan_inv ltype pid ino first last s (seqZ (Z.succ k) (Z.pred (NR_LOCKS - k))) sc s.
Proof.
  intros Hk Hnb Hul Hnk Hem. split; [done|]. exists (k + 1). split_and!; [lia|lia|f_equal; lia| |done|done].
  intros i Hi. destruct (decide (i = k)) as [->|]; [done|apply Hnb; lia].
Qed.

Lemma scan_lock_ok req ltype pid ino first last Q s : ltype = F_RDLCK ∨ ltype = F_WRLCK → in_tab NR_PROCS (fp s) = true →
  (∀ i, blocker ltype pid ino first last s i → req = F_GETLK → Q (inr (Stop_conflict i)) s) →
  (∀ i, blocker ltype pid ino first last s i → req = F_SETLK → Q (inr (Stop_return EAGAIN)) s) →
  (∀ i s', blocker ltype pid ino first last s i → req ≠ F_GETLK → req ≠ F_SETLK → locks_same s s' → waiting s s' →
     Q (inr (Stop_return 0)) s') →
  (∀ e, (∀ i, ¬ blocker ltype pid ino first last s i) → first_empty s e → Q (inl (LockScan false e)) s) →
  wp (fold_until (lock_step req ltype pid ino first last) (LockScan false NIL) all_locks) Q s.
Proof.
  intros Ht Hp Hget Hset Hwait Hend. assert (Hu : ltype ≠ F_UNLCK) by (by destruct Ht as [->| ->]).
  apply (wp_fold_until (scan_inv ltype pid ino first last s)).
  - intros sc x l ? (-> & k & Hk & E & Hnb & Hul & Hem). destruct (decide (k < NR_LOCKS)) as [Hlt|]; [|rewrite seqZ_nil in E by lia; done].
    rewrite seqZ_cons in E by lia. injection E as -> ->. assert (Hx : is_lock k) by (unfold is_lock; lia).
    unfold lock_step. fs_step. fs_step. unfold id.
    destruct (Z.eqb_spec (lock_type (lock_of s k)) 0) as [Ez|Ez].
    + assert (Huk : used (lock_of s k) = false) by (unfold used; by rewrite Ez). fs_step.
      apply scan_next; [done|done|done|unfold blocker; rewrite Huk; by intros (_ & ? & _)|]. cbn [ls_empty]. right.
      destruct Hem as [[-> Hall]|(He1 & He2 & He3)]; [rewrite Z.eqb_refl; split_and!; (done || lia)|].
      rewrite (proj2 (Z.eqb_neq _ _)) by (unfold NIL; lia). split_and!; (done || lia).
    + assert (Huk : used (lock_of s k) = true) by (unfold used; by rewrite (proj2 (Z.eqb_neq _ _) Ez)).
      destruct (lock_skip ltype pid ino first last (lock_of s k)) eqn:Es.
      * fs_step. apply scan_next; [done|done|done| |].
        -- intros (_ & _ & Hc). apply skip_blocker in Hc; [|done]. congruence.
        -- destruct Hem as [[-> Hall]|(He1 & He2 & He3)]; [left|right; split_and!; try done; lia]. split; [done|].
           intros i Hi. destruct (decide (i = k)) as [->|]; [done|apply Hall; lia].
      * assert (Hb : blocker ltype pid ino first last s k) by (split_and!; [done|done|by apply skip_blocker]).
        destruct (Z.eqb_spec req F_GETLK); [fs_step; by apply (Hget k)|].
        assert (Ht' : (ltype =? F_RDLCK) || (ltype =? F_WRLCK) = true) by (by destruct Ht as [->| ->]). rewrite Ht'.
        destruct (Z.eqb_spec req F_SETLK); [fs_step; by apply (Hset k)|].
        fs_step. apply suspend_ok; [done|]. intros s' Hs Hw. fs_step. by apply (Hwait k).
  - intros [ul e] ? (-> & k & Hk & E & Hnb & Hul & Hem). cbn in Hul, Hem. subst ul.
    assert (k = NR_LOCKS) as -> by (destruct (decide (k < NR_LOCKS)); [rewrite seqZ_cons in E by lia; done|lia]).
    apply Hend; [intros i Hi; apply (Hnb i); [apply Hi|done]|]. destruct Hem as [[-> Hall]|(He1 & He2 & He3)]; [by left|by right].
  - split; [done|]. exists 0. split_and!; [done|done|done|lia|done|left; split; [done|cbn; lia]].
Qed.

(** What a request for a lock does. *)
Inductive set_outcome (req ltype pid ino first last : Z) s : Z → fsst → Prop :=
| Granted e : (∀ i, ¬ blocker ltype pid ino first last s i) → is_lock e → used (lock_of s e) = false →
    (∀ i, 0 ≤ i < e → used (lock_of s i) = true) →
    set_outcome req ltype pid ino first last s OK
      (s <| lock_of := <[e := FileLock ltype pid ino first last]> (lock_of s) |> <| nr_locks := nr_locks s + 1 |>)
| Table_full : (∀ i, ¬ blocker ltype pid ino first last s i) → (∀ i, is_lock i → used (lock_of s i) = true) →
    set_outcome req ltype pid ino first last s ENOLCK s
| Denied i : blocker ltype pid ino first last s i → req = F_SETLK → set_outcome req ltype pid ino first last s EAGAIN s
| Waits i s' : blocker ltype pid ino first last s i → req ≠ F_SETLK → locks_same s s' → waiting s s' →
    set_outcome req ltype pid ino first last s 0 s'.

Lemma lock_table_set req fl ino first last Q s : lock_wf s → in_tab NR_PROCS (fp s) = true → req ≠ F_GETLK →
  l_type fl = F_RDLCK ∨ l_type fl = F_WRLCK → 0 ≤ first ≤ last → last ≤ MAX_FILE_POS →
  (∀ r s', set_outcome req (l_type fl) (fp_pid (fproc_of s (fp s))) ino first last s r s' → lock_wf s' → Q r s') →
  wp (lock_table req fl ino first last) Q s.
Proof.
  intros W Hp Hr Ht Hfl Hmax HQ. unfold lock_table. fs_step. apply wp_cget; [done|]. fs_step. set (pid := fp_pid _) in *.
  assert (Hu : l_type fl ≠ F_UNLCK) by (by destruct Ht as [->| ->]).
  apply scan_lock_ok; [done|done|done| | |].
  - intros i Hb Hreq. fs_step. apply HQ; [by eapply Denied|done].
  - intros i s' Hb _ Hreq Hs Hw. fs_step. apply HQ; [by eapply Waits|by eapply wf_same].
  - intros e Hnb He. cbn [ls_unlocking ls_empty when]. fs_step. fs_step.
    rewrite (proj2 (Z.eqb_neq _ _) Hr), (proj2 (Z.eqb_neq _ _) Hu). unfold lock_set.
    destruct He as [[-> Hall]|(He & Hue & Hbefore)].
    { rewrite Z.eqb_refl. fs_step. apply HQ; [by apply Table_full|done]. }
    destruct (Z.eqb_spec e NIL) as [->|_]; [unfold is_lock, NIL in He; lia|].
    fs_step. fs_step. fs_step. fs_step. fs_step. apply HQ; [exact (Granted req _ pid ino first last s e Hnb He Hue Hbefore)|].
    eapply lock_wf_set; [exact W|exact He|reflexivity| |].
    + cbn [nr_locks]. rewrite Hue. unfold used. cbn. destruct Ht as [E|E]; rewrite E; cbn; lia.
    + intros _. cbn. split_and!; [lia|lia|done|]. intros j Hj _ Huj Hc. apply (Hnb j). by split_and!.
Qed.

(** ** Unlocking *)

Lemma lock_revive_ok Q s : (∀ s', locks_same s s' → Q tt s') → wp lock_revive Q s.
Proof.
  intros HQ. unfold lock_revive. eapply wp_mono.
  { apply (wp_each (λ l s', locks_same s s' ∧ Forall (λ i, in_tab NR_PROCS i = true) l)).
    2: { split; [done|]. apply Forall_forall. intros i Hi%elem_of_seqZ. apply in_tab_intro. unfold INIT_PROC_NR, NR_PROCS in *. lia. }
    intros x l s1 [Hs [Hx Hl]%Forall_cons]. fs_step. fs_step. unfold id. apply wp_when; [|done]. intros E.
    unfold revive. rewrite Hx. cbn [negb]. fs_step. fs_step. unfold id. destruct (_ || _); [by fs_step|].
    apply andb_true_iff in E as [_ E]. rewrite E. rewrite orb_true_r. fs_step. fs_step. by fs_step. }
  intros [] s' [Hs _]. by apply HQ.
Qed.

(** The effect of an unlock: no process holds a lock on a byte of the region. *)
Record unlocked (ino first last : Z) s s' : Prop := Unlocked {
  ul_in pid t b : first ≤ b ≤ last → ¬ held s' pid t ino b;
  ul_out pid t n b : ¬ (n = ino ∧ first ≤ b ≤ last) → held s' pid t n b ↔ held s pid t n b
}.

Lemma held_same s s' pid t n b : locks_same s s' → held s' pid t n b ↔ held s pid t n b.
Proof. intros [El _]. unfold held. by rewrite El. Qed.

Lemma skip_unlock pid ino first last x :
  lock_skip F_UNLCK pid ino first last x = false ↔ lock_inode x = ino ∧ lock_first x ≤ last ∧ first ≤ lock_last x.
Proof.
  unfold lock_skip. change (F_UNLCK =? F_RDLCK) with false. change (negb (F_UNLCK =? F_UNLCK)) with false. cbn [andb].
  rewrite !orb_false_r, !orb_false_iff, negb_false_iff, Z.eqb_eq, !Z.ltb_ge. tauto.
Qed.

Lemma lock_table_unlock req fl ino first last Q s : lock_wf s → in_tab NR_PROCS (fp s) = true → req ≠ F_GETLK →
  l_type fl = F_UNLCK → 0 ≤ first ≤ last → last ≤ MAX_FILE_POS →
  (∀ s', unlocked ino first last s s' → lock_wf s' → Q OK s') → (∀ s', lock_wf s' → nr_locks s' = NR_LOCKS → Q ENOLCK s') →
  wp (lock_table req fl ino first last) Q s.
Proof.
  intros W Hp Hr Ht Hfl Hmax HQ HQn. unfold lock_table. fs_step. apply wp_cget; [done|]. fs_step. set (pid := fp_pid _) in *. rewrite Ht.
  eapply wp_mono.
  { apply (wp_fold_until (λ l sc s', lock_wf s' ∧ Forall is_lock l ∧
      (∀ i, is_lock i → used (lock_of s' i) = true → lock_inode (lock_of s' i) = ino →
         lock_first (lock_of s' i) ≤ last → first ≤ lock_last (lock_of s' i) → i ∈ l) ∧
      ∀ p t n b, ¬ (n = ino ∧ first ≤ b ≤ last) → held s' p t n b ↔ held s p t n b)
      (λ y s', match y with inl _ => unlocked ino first last s s' ∧ lock_wf s' | inr r => r = Stop_return ENOLCK ∧ lock_wf s' ∧ nr_locks s' = NR_LOCKS end)).
    3: { split_and!; [done|by apply Forall_forall; intros i ?%elem_all_locks|by intros i ?%elem_all_locks|done]. }
    2: { intros sc s' (W' & _ & Hin & Hout). split; [|done]. constructor; [|done]. intros p t b Hb (i & Hi & Hu & _ & _ & Hn & Hl).
         assert (Hbad : i ∈ []) by (apply Hin; (done || lia)). by apply elem_of_nil in Hbad. }
    intros sc i l s1 (W1 & [Hi Hl]%Forall_cons & Hin & Hout). unfold lock_step. fs_step. fs_step. unfold id.
    destruct (Z.eqb_spec (lock_type (lock_of s1 i)) 0) as [Ez|Ez].
    { fs_step. split_and!; [done|done| |done]. intros j Hj Huj Hn H1 H2. specialize (Hin j Hj Huj Hn H1 H2).
      apply elem_of_cons in Hin as [->|]; [|done]. unfold used in Huj. by rewrite Ez in Huj. }
    destruct (lock_skip F_UNLCK pid ino first last (lock_of s1 i)) eqn:Es.
    { fs_step. split_and!; [done|done| |done]. intros j Hj Huj Hn H1 H2. specialize (Hin j Hj Huj Hn H1 H2).
      apply elem_of_cons in Hin as [->|]; [|done]. by rewrite (proj2 (skip_unlock pid ino first last (lock_of s1 i))) in Es. }
    apply skip_unlock in Es as (Hn & H1 & H2). rewrite (proj2 (Z.eqb_neq _ _) Hr).
    change ((F_UNLCK =? F_RDLCK) || (F_UNLCK =? F_WRLCK)) with false. cbv iota.
    assert (Hui : used (lock_of s1 i) = true) by (unfold used; by rewrite (proj2 (Z.eqb_neq _ _) Ez)).
    apply lock_clear_ok; try done.
    intros s2 [W2 _ Hin2 Hout2]. rewrite Hn in *. split_and!; [done|done| |].
    - intros j Hj Huj Hnj H1' H2'. destruct (Hin2 j Hj Huj Hnj H1' H2') as [Hne E]. rewrite E in *.
      specialize (Hin j Hj Huj Hnj H1' H2'). apply elem_of_cons in Hin as [->|]; done.
    - intros p t n b Hb. rewrite Hout2, Hout by done. done. }
  intros [sc|r] s' Hy; cbv beta iota.
  - destruct Hy as [Hul W']. fs_step. eapply (wp_mono _ (λ _ s2, locks_same s' s2)).
    { apply wp_when; [|done]. intros _. apply lock_revive_ok. auto. }
    intros [] s2 Hs. rewrite (proj2 (Z.eqb_neq _ _) Hr). rewrite Z.eqb_refl. fs_step. apply HQ; [|by eapply wf_same].
    destruct Hul as [U1 U2]. constructor; intros; rewrite held_same by done; auto.
  - destruct Hy as (-> & W' & Hn). fs_step. by apply HQn.
Qed.
End locks.
