(* ===== verification/Fdp.v ===== *)
(** * Descriptors

    [get_fd] of fs/filedes.c, and the use counts of the [filp] table across
    [do_fork] of fs/misc.c. *)

From S2P Require Import Prelude Fstate Fdev Cache Super Inode Filedes Rdwr Path Fcalls Fopen Fmisc Fmain Fwp.

Section get_fd.
Context `{World}.
Implicit Types (s : fsst).

(** The possible results of [get_fd]. *)
Inductive fd_outcome (start bits : Z) s : Z + Z * Z → fsst → Prop :=
| No_fd : (∀ d, start ≤ d < OPEN_MAX → fp_filp (fproc_of s (fp s)) d ≠ NIL) → fd_outcome start bits s (inl EMFILE) s
| No_filp d : start ≤ d < OPEN_MAX → fp_filp (fproc_of s (fp s)) d = NIL →
    (∀ f, 0 ≤ f < NR_FILPS → filp_count (filp_of s f) ≠ 0) → fd_outcome start bits s (inl ENFILE) s
| Fd d f : start ≤ d < OPEN_MAX → fp_filp (fproc_of s (fp s)) d = NIL →
    (∀ d', start ≤ d' < d → fp_filp (fproc_of s (fp s)) d' ≠ NIL) →
    0 ≤ f < NR_FILPS → filp_count (filp_of s f) = 0 → (∀ f', 0 ≤ f' < f → filp_count (filp_of s f') ≠ 0) →
    fd_outcome start bits s (inr (d, f))
      (s <| filp_of := <[f := (filp_of s f) <| filp_mode := bits |> <| filp_pos := 0 |> <| filp_flags := 0 |>]> (filp_of s) |>).

(** The first element of an interval that satisfies a test. *)
Lemma find_seqZ (p : Z → bool) m n :
  match List.find p (seqZ m n) with
  | Some x => m ≤ x < m + n ∧ p x = true ∧ ∀ y, m ≤ y < x → p y = false
  | None => ∀ y, m ≤ y < m + n → p y = false
  end.
Proof.
  destruct (decide (n < 0)) as [Hn|Hn]; [rewrite seqZ_nil by lia; cbn; lia|]. revert m. pattern n. apply natlike_ind; [|clear n Hn|lia].
  { intros m. rewrite seqZ_nil by lia. cbn. lia. }
  intros n Hn IH m. rewrite seqZ_cons by lia. cbn. destruct (p m) eqn:E; [split_and!; [lia|lia|done|lia]|].
  specialize (IH (Z.succ m)). replace (Z.pred (Z.succ n)) with n by lia. destruct (List.find _ _) as [x|].
  - destruct IH as (? & ? & Hy). split_and!; [lia|lia|done|]. intros y Hym. destruct (decide (y = m)) as [->|]; [done|apply Hy; lia].
  - intros y Hym. destruct (decide (y = m)) as [->|]; [done|apply IH; lia].
Qed.

Lemma get_fd_ok start bits Q s : in_tab NR_PROCS (fp s) = true →
  (∀ r s', fd_outcome start bits s r s' → Q r s') → wp (get_fd start bits) Q s.
Proof.
  intros Hp HQ. unfold get_fd. fs_step. fs_step. rewrite Hp. cbn [negb]. fs_step. fs_step.
  pose proof (find_seqZ (λ d, fp_filp (fproc_of s (fp s)) d =? NIL) start (OPEN_MAX - start)) as Hd.
  replace (start + (OPEN_MAX - start)) with OPEN_MAX in Hd by lia. destruct (List.find _ _) as [d|].
  2: { fs_step. apply HQ. apply No_fd. intros d Hdr. by apply Z.eqb_neq, Hd. }
  destruct Hd as (Hdr & Hdz%Z.eqb_eq & Hdl). fs_step. fs_step.
  pose proof (find_seqZ (λ f, filp_count (filp_of s f) =? 0) 0 NR_FILPS) as Hf. unfold all_filps. destruct (List.find _ _) as [f|].
  2: { fs_step. apply HQ. apply (No_filp _ _ _ d); [done|done|]. intros f Hfr. by apply Z.eqb_neq, Hf. }
  destruct Hf as (Hfr & Hfz%Z.eqb_eq & Hfl). fs_step. apply wp_fset; [apply in_tab_intro; lia|]. fs_step. apply HQ.
  apply (Fd start bits s d f); try done; [intros d' Hd'; by apply Z.eqb_neq, Hdl|intros f' Hf'; by apply Z.eqb_neq, Hfl].
Qed.
End get_fd.

(** ** The use counts of the filp table *)
Section counts.
Context `{World}.
Implicit Types (s : fsst).

(** The number of descriptors of a process, and of all, that refer to [f]. *)
Definition desc_count (t : Z → Z) (f : Z) : Z := Z.of_nat (length (List.filter (λ d, t d =? f) (seqZ 0 OPEN_MAX))).
Definition users (tab : Z → fproc) (f : Z) : Z :=
  foldr (λ p n, n + desc_count (fp_filp (tab p)) f) 0 all_fprocs.
(** Every filp entry counts the descriptors that refer to it. *)
Definition counted s : Prop := ∀ f, 0 ≤ f < NR_FILPS → filp_count (filp_of s f) = users (fproc_of s) f.
Definition filps_ok s : Prop := ∀ p d, 0 ≤ p < NR_PROCS → 0 ≤ d < OPEN_MAX →
  fp_filp (fproc_of s p) d = NIL ∨ 0 ≤ fp_filp (fproc_of s p) d < NR_FILPS.

Lemma users_list_set (l : list Z) (tab : Z → fproc) (p : Z) r f : NoDup l →
  foldr (λ q n, n + desc_count (fp_filp (<[p := r]> tab q)) f) 0 l =
  foldr (λ q n, n + desc_count (fp_filp (tab q)) f) 0 l +
    (if decide (p ∈ l) then desc_count (fp_filp r) f - desc_count (fp_filp (tab p)) f else 0).
Proof.
  induction l as [|q l IH]; intros Hn; cbn [foldr]; [by rewrite decide_False by apply not_elem_of_nil|].
  apply NoDup_cons in Hn as [Hq Hn]. rewrite IH by done. rewrite tab_set. destruct (decide (p = q)) as [<-|Hne].
  - rewrite (decide_False (P := p ∈ l)), decide_True by set_solver. lia.
  - destruct (decide (p ∈ l)); [rewrite (decide_True (P := p ∈ q :: l)) by set_solver|rewrite (decide_False (P := p ∈ q :: l)) by set_solver]; lia.
Qed.
Lemma users_set (tab : Z → fproc) (p : Z) r f : 0 ≤ p < NR_PROCS →
  users (<[p := r]> tab) f = users tab f + desc_count (fp_filp r) f - desc_count (fp_filp (tab p)) f.
Proof.
  intros Hp. unfold users. rewrite users_list_set by apply NoDup_seqZ. rewrite decide_True by (apply elem_of_seqZ; lia). lia.
Qed.

(** The loop of [do_fork] over the descriptors. *)
Definition claim_all (t : Z → Z) : PF unit :=
  each (seqZ 0 OPEN_MAX) (λ i, let f := t i in when (negb (f =? NIL)) (fset f (λ x, x <| filp_count := filp_count x + 1 |>))).

Lemma claim_all_ok t Q s : (∀ d, 0 ≤ d < OPEN_MAX → t d = NIL ∨ 0 ≤ t d < NR_FILPS) →
  (∀ g, (∀ f, g f = (filp_of s f) <| filp_count := filp_count (filp_of s f) + (if decide (0 ≤ f < NR_FILPS) then desc_count t f else 0) |>) →
     Q tt (s <| filp_of := g |>)) → wp (claim_all t) Q s.
Proof.
  intros Ht HQ. unfold claim_all. eapply wp_mono.
  { apply (wp_each (λ l s', ∃ g pre, seqZ 0 OPEN_MAX = pre ++ l ∧ s' = s <| filp_of := g |> ∧
      ∀ f, g f = (filp_of s f) <| filp_count := filp_count (filp_of s f) +
        (if decide (0 ≤ f < NR_FILPS) then Z.of_nat (length (List.filter (λ d, t d =? f) pre)) else 0) |>)).
    2: { exists (filp_of s), []. split_and!; [done|by destruct s|]. intros f. cbn [List.filter length]. change (Z.of_nat 0) with 0.
         replace (filp_count (filp_of s f) + (if decide (0 ≤ f < NR_FILPS) then 0 else 0)) with (filp_count (filp_of s f)) by (case_decide; lia).
         by destruct (filp_of s f). }
    intros d l ? (g & pre & E & -> & Hg).
    assert (Hd : 0 ≤ d < OPEN_MAX) by (assert (Hd : d ∈ seqZ 0 OPEN_MAX) by (rewrite E; set_solver); apply elem_of_seqZ in Hd; lia).
    assert (Hlen : ∀ f, List.filter (λ d, t d =? f) (pre ++ [d]) = List.filter (λ d, t d =? f) pre ++ (if t d =? f then [d] else [])).
    { intros f. rewrite List.filter_app. by cbn. }
    apply wp_when; intros Ed; [apply negb_true_iff, Z.eqb_neq in Ed|apply negb_false_iff, Z.eqb_eq in Ed].
    - destruct (Ht d Hd) as [|Hf]; [done|]. apply wp_fset; [apply in_tab_intro; lia|].
      eexists _, (pre ++ [d]). split_and!; [by rewrite <- app_assoc|reflexivity|]. intros f. cbn. rewrite tab_set, Hlen, length_app.
      rewrite (Hg f). case_decide as E1.
      + subst f. rewrite (Hg (t d)), !decide_True, Z.eqb_refl by lia. cbn [length]. rewrite Nat2Z.inj_add.
        change (Z.of_nat 1) with 1. rewrite Z.add_assoc. done.
      + rewrite (proj2 (Z.eqb_neq _ _)) by done. cbn [length]. by rewrite Nat.add_0_r.
    - exists g, (pre ++ [d]). split_and!; [by rewrite <- app_assoc|done|]. intros f. rewrite (Hg f), Hlen. case_decide as E1; [|done].
      rewrite (proj2 (Z.eqb_neq _ _)) by (unfold NIL in *; lia). by rewrite app_nil_r. }
  intros [] s' (g & pre & E & -> & Hg). rewrite app_nil_r in E. subst pre. by apply HQ.
Qed.

Lemma desc_count_none (t : Z → Z) f : (∀ d, 0 ≤ d < OPEN_MAX → t d = NIL) → 0 ≤ f → desc_count t f = 0.
Proof.
  intros Ht Hf. unfold desc_count. rewrite (List.filter_ext_in _ (λ _, false)).
  - by rewrite List.filter_false.
  - intros d Hd%list_elem_of_In%elem_of_seqZ. apply Z.eqb_neq. rewrite Ht by lia. unfold NIL. lia.
Qed.

(** What the child gets, and what changes for the others. *)
Record forked (parent child pid : Z) s s' : Prop := Forked {
  fk_child : fproc_of s' child = (fproc_of s parent) <| fp_pid := pid |> <| fp_sesldr := false |>;
  fk_others p : p ≠ child → fproc_of s' p = fproc_of s p;
  fk_counted : counted s';
  fk_filps : filps_ok s';
  fk_inodes i : i_count (inode_of s' i) = i_count (inode_of s i) +
    (if decide (i = fp_rootdir (fproc_of s parent)) then 1 else 0) + (if decide (i = fp_workdir (fproc_of s parent)) then 1 else 0)
}.

Definition bump (r : inode) : inode := r <| i_count := i_count r + 1 |>.
Lemma dup_count (tab : Z → inode) (a i : Z) :
  i_count (<[a := bump (tab a)]> tab i) = i_count (tab i) + (if decide (i = a) then 1 else 0).
Proof. rewrite tab_set. repeat case_decide; subst; cbn; try done; lia. Qed.

Lemma do_fork_ok Q s : let parent := m1_i1 (fs_m s) in let child := m1_i2 (fs_m s) in
  fs_who s = MM_PROC_NR → 0 ≤ parent < NR_PROCS → 0 ≤ child < NR_PROCS → parent ≠ child → counted s → filps_ok s →
  (∀ d, 0 ≤ d < OPEN_MAX → fp_filp (fproc_of s child) d = NIL) →
  0 ≤ fp_rootdir (fproc_of s parent) < NR_INODES → 0 ≤ fp_workdir (fproc_of s parent) < NR_INODES →
  (∀ s', forked parent child (m1_i3 (fs_m s)) s s' → Q OK s') → wp do_fork Q s.
Proof.
  intros parent child Hwho Hp Hc Hpc Hcnt Hok Hnone Hroot Hwork HQ. unfold do_fork, only_mm, mm_get. fs_step. fs_step.
  rewrite Hwho. change (negb (MM_PROC_NR =? MM_PROC_NR)) with false. cbv iota. do 6 fs_step. fold parent child.
  fs_step. apply wp_pget; [apply in_tab_intro; lia|]. unfold id. fs_step. apply wp_pset; [apply in_tab_intro; lia|]. fs_step.
  change (each (seqZ 0 OPEN_MAX) _) with (claim_all (fp_filp (fproc_of s parent))).
  apply claim_all_ok; [intros d Hd; by apply Hok|]. intros g Hg. fs_step. apply wp_pset; [apply in_tab_intro; lia|]. cbn in Hg.
  fs_step. unfold dup_inode. apply wp_iset; [apply in_tab_intro; lia|]. fs_step. apply wp_iset; [apply in_tab_intro; lia|]. fs_step.
  apply HQ. match goal with |- forked _ _ _ _ ?x => set (s1 := x) end.
  assert (Ep : fproc_of s1 = <[child := (fproc_of s parent) <| fp_pid := m1_i3 (fs_m s) |> <| fp_sesldr := false |>]> (<[child := fproc_of s parent]> (fproc_of s))).
  { unfold s1. cbn. by rewrite fn_lookup_insert. }
  assert (Ef : filp_of s1 = g) by done.
  assert (Ec : ∀ p, fp_filp (fproc_of s1 p) = if decide (child = p) then fp_filp (fproc_of s parent) else fp_filp (fproc_of s p)).
  { intros p. rewrite Ep, !tab_set. by case_decide. }
  constructor.
  - by rewrite Ep, fn_lookup_insert.
  - intros p Hne. by rewrite Ep, !fn_lookup_insert_ne.
  - intros f Hf. rewrite Ef, (Hg f), decide_True by done.
    transitivity (filp_count (filp_of s f) + desc_count (fp_filp (fproc_of s parent)) f); [done|]. rewrite (Hcnt f Hf), Ep, users_set, users_set, fn_lookup_insert by lia.
    cbn. rewrite (desc_count_none (fp_filp (fproc_of s child))) by (done || lia). lia.
  - intros p d Hpr Hd. rewrite Ec. case_decide; by apply Hok.
  - intros i. etrans; [exact (dup_count (<[fp_rootdir (fproc_of s parent) := bump (inode_of s (fp_rootdir (fproc_of s parent)))]> (inode_of s)) (fp_workdir (fproc_of s parent)) i)|].
    by rewrite dup_count.
Qed.
End counts.
