(* ===== verification/Icopyp.v ===== *)
(** * Inodes on the disk

    [conv2] and [conv4] of fs/utility.c undo themselves, and [old_icopy] and
    [new_icopy] of fs/inode.c read back what they wrote, on machines of either
    byte order. *)

From S2P Require Import Prelude Fstate Fdev Cache Super Inode Fwp.

(** ** Byte swapping *)
Lemma land_byte w : Z.land w BYTE = w mod 2 ^ 8.
Proof. change BYTE with (Z.ones 8). by rewrite Z.land_ones. Qed.
Lemma conv2_true w : conv2 true w = u16 w.
Proof. unfold conv2. change 0xFFFF with (Z.ones 16). rewrite Z.land_ones by done. apply Z.mod_mod. done. Qed.
Lemma lor_shift8 a b : 0 ≤ b < 2 ^ 8 → Z.lor (Z.shiftl a 8) b = a * 2 ^ 8 + b.
Proof.
  intros Hb. rewrite <- Z.add_lor_land, Z.shiftl_mul_pow2 by done.
  assert (E : Z.land (a * 2 ^ 8) b = 0).
  { apply Z.bits_inj'. intros i Hi. rewrite Z.land_spec, Z.bits_0, Z.mul_pow2_bits by done. destruct (decide (i < 8)).
    - by rewrite Z.testbit_neg_r by lia.
    - rewrite <- (Z.mod_small b (2 ^ 8)) by done. by rewrite Z.mod_pow2_bits_high, andb_false_r by lia. }
  lia.
Qed.
Lemma conv2_false w : conv2 false w = (w mod 2 ^ 8) * 2 ^ 8 + (w / 2 ^ 8) mod 2 ^ 8.
Proof.
  unfold conv2. rewrite !land_byte, Z.shiftr_div_pow2 by done. apply lor_shift8. by apply Z.mod_pos_bound.
Qed.
Lemma conv2_range norm w : 0 ≤ conv2 norm w < 2 ^ 16.
Proof.
  destruct norm; [rewrite conv2_true; apply u16_range|]. rewrite conv2_false.
  pose proof (Z.mod_pos_bound w (2 ^ 8)). pose proof (Z.mod_pos_bound (w / 2 ^ 8) (2 ^ 8)). lia.
Qed.
(** Only the low 16 bits count. *)
Lemma mod_bytes w : u16 w = (w / 2 ^ 8) mod 2 ^ 8 * 2 ^ 8 + w mod 2 ^ 8.
Proof.
  unfold u16. change (2 ^ 16) with (2 ^ 8 * 2 ^ 8). rewrite Z.rem_mul_r by done. lia.
Qed.
Lemma conv2_u16 norm w w' : u16 w = u16 w' → conv2 norm w = conv2 norm w'.
Proof.
  intros E. destruct norm; [by rewrite !conv2_true|]. rewrite !conv2_false. rewrite !mod_bytes in E.
  pose proof (Z.mod_pos_bound w (2 ^ 8)). pose proof (Z.mod_pos_bound (w / 2 ^ 8) (2 ^ 8)).
  pose proof (Z.mod_pos_bound w' (2 ^ 8)). pose proof (Z.mod_pos_bound (w' / 2 ^ 8) (2 ^ 8)). lia.
Qed.
Lemma u16_u16 x : u16 (u16 x) = u16 x.
Proof. apply Z.mod_mod. done. Qed.
Lemma s16_u16 x : s16 (u16 x) = s16 x.
Proof. unfold s16, u16. by rewrite Zplus_mod_idemp_l. Qed.

(** Twice is nothing. *)
Lemma conv2_twice norm w : conv2 norm (conv2 norm w) = u16 w.
Proof.
  destruct norm; [by rewrite !conv2_true, u16_u16|]. rewrite !conv2_false, mod_bytes.
  pose proof (Z.mod_pos_bound w (2 ^ 8) ltac:(done)) as Hb. pose proof (Z.mod_pos_bound (w / 2 ^ 8) (2 ^ 8) ltac:(done)) as Ha.
  set (a := (w / 2 ^ 8) mod 2 ^ 8) in *. set (b := w mod 2 ^ 8) in *.
  assert (E1 : (b * 2 ^ 8 + a) mod 2 ^ 8 = a) by (rewrite Z.add_comm, Z.mod_add by done; by apply Z.mod_small).
  assert (E2 : (b * 2 ^ 8 + a) / 2 ^ 8 = b) by (rewrite Z.div_add_l by done; rewrite Z.div_small; lia).
  rewrite E1, E2. rewrite (Z.mod_small b) by lia. done.
Qed.
Lemma conv2_round norm x : conv2 norm (s16 (u16 (conv2 norm (s16 x)))) = u16 x.
Proof.
  rewrite (conv2_u16 norm _ (conv2 norm (s16 x))) by (by rewrite u16_s16, u16_u16).
  by rewrite conv2_twice, u16_s16.
Qed.
Lemma conv2_round' norm x : conv2 norm (s16 (u16 (conv2 norm x))) = u16 x.
Proof.
  rewrite (conv2_u16 norm _ (conv2 norm x)) by (by rewrite u16_s16, u16_u16). apply conv2_twice.
Qed.

Lemma u32_s32 x : u32 (s32 x) = u32 x.
Proof. unfold u32, s32. rewrite Zminus_mod, Zmod_mod, <- Zminus_mod. f_equal. lia. Qed.
Lemma u32_u32 x : u32 (u32 x) = u32 x.
Proof. apply Z.mod_mod. done. Qed.
Lemma s32_cong x y : u32 x = u32 y → s32 x = s32 y.
Proof.
  intros E. unfold s32. rewrite <- (Zplus_mod_idemp_l x), <- (Zplus_mod_idemp_l y). unfold u32 in E. by rewrite E.
Qed.
Lemma lor_shift16 a b : 0 ≤ b < 2 ^ 16 → Z.lor (Z.shiftl a 16) b = a * 2 ^ 16 + b.
Proof.
  intros Hb. rewrite <- Z.add_lor_land, Z.shiftl_mul_pow2 by done.
  assert (E : Z.land (a * 2 ^ 16) b = 0).
  { apply Z.bits_inj'. intros i Hi. rewrite Z.land_spec, Z.bits_0, Z.mul_pow2_bits by done. destruct (decide (i < 16)).
    - by rewrite Z.testbit_neg_r by lia.
    - rewrite <- (Z.mod_small b (2 ^ 16)) by done. by rewrite Z.mod_pow2_bits_high, andb_false_r by lia. }
  lia.
Qed.
Lemma land_word w : Z.land w 0xFFFF = u16 w.
Proof. change 0xFFFF with (Z.ones 16). by rewrite Z.land_ones. Qed.
Lemma conv4_false x : conv4 false x = s32 (conv2 false x * 2 ^ 16 + conv2 false (Z.shiftr x 16)).
Proof.
  unfold conv4. rewrite !land_word, lor_shift16 by apply conv2_range.
  rewrite (conv2_u16 false _ x), (conv2_u16 false (u16 (s16 (Z.shiftr x 16))) (Z.shiftr x 16)) by (by rewrite u16_u16, u16_s16). done.
Qed.
Lemma u16_u32 x : u16 (u32 x) = u16 x.
Proof. unfold u16, u32. symmetry. apply Znumtheory.Zmod_div_mod; [done|done|]. by exists (2 ^ 16). Qed.
Lemma shiftr_u32 x : u16 (Z.shiftr (u32 x) 16) = u16 (Z.shiftr x 16).
Proof.
  rewrite !Z.shiftr_div_pow2 by done. unfold u16, u32. change (2 ^ 32) with (2 ^ 16 * 2 ^ 16). rewrite Z.rem_mul_r by done.
  rewrite Z.mul_comm, Z.div_add, Z.div_small by (done || by apply Z.mod_pos_bound). by rewrite Z.add_0_l, Z.mod_mod.
Qed.
Lemma conv4_twice norm x y : u32 y = u32 (conv4 norm x) → conv4 norm y = s32 x.
Proof.
  intros E. destruct norm; [apply s32_cong; cbn in E; by rewrite E, u32_s32|]. rewrite conv4_false in *.
  rewrite u32_s32 in E. pose proof (conv2_range false x) as Hlo. pose proof (conv2_range false (Z.shiftr x 16)) as Hhi.
  set (lo := conv2 false x) in *. set (hi := conv2 false (Z.shiftr x 16)) in *. rewrite (u32_id (lo * 2 ^ 16 + hi)) in E by lia.
  assert (E1 : u16 y = hi).
  { rewrite <- u16_u32, E. unfold u16. rewrite Z.add_comm, Z.mod_add by done. by apply Z.mod_small. }
  assert (E2 : u16 (Z.shiftr y 16) = lo).
  { rewrite <- shiftr_u32, E. rewrite Z.shiftr_div_pow2 by done. rewrite Z.add_comm, Z.div_add, Z.div_small by lia. by apply u16_id. }
  rewrite (conv2_u16 false y hi) by (by rewrite E1, u16_id). rewrite (conv2_u16 false (Z.shiftr y 16) lo) by (by rewrite E2, u16_id).
  unfold lo, hi. rewrite !conv2_twice. apply s32_cong. rewrite Z.shiftr_div_pow2 by done. unfold u32, u16.
  pose proof (Z.div_mod x (2 ^ 16)) as Hx. pose proof (Z.div_mod (x / 2 ^ 16) (2 ^ 16)) as Hy.
  replace x with ((x / 2 ^ 16) mod 2 ^ 16 * 2 ^ 16 + x mod 2 ^ 16 + (x / 2 ^ 16 / 2 ^ 16) * 2 ^ 32) at 3 by lia.
  by rewrite Z.mod_add.
Qed.

Lemma conv4_round norm x : conv4 norm (s32 (u32 (conv4 norm x))) = s32 x.
Proof. apply conv4_twice. by rewrite u32_s32, u32_u32. Qed.

(** ** Bytes of a block *)
Section bytes.
Implicit Types (d : Z → Z) (o k v : Z).

(** The bytes outside an interval stay. *)
Definition same_off (lo hi : Z) d d' : Prop := ∀ k, ¬ (lo ≤ k < hi) → d' k = d k.
Lemma set16_off o v d : same_off o (o + 2) d (set16 o v d).
Proof. intros k Hk. unfold set16. by rewrite !fn_lookup_insert_ne by lia. Qed.
Lemma set32_off o v d : same_off o (o + 4) d (set32 o v d).
Proof. intros k Hk. unfold set32. by rewrite !set16_off by lia. Qed.
Lemma be16_off lo hi d d' o : same_off lo hi d d' → o + 2 ≤ lo ∨ hi ≤ o → be16 d' o = be16 d o.
Proof. intros Hs Ho. unfold be16. by rewrite !Hs by lia. Qed.
Lemma be32_off lo hi d d' o : same_off lo hi d d' → o + 4 ≤ lo ∨ hi ≤ o → be32 d' o = be32 d o.
Proof. intros Hs Ho. unfold be32. rewrite !(be16_off lo hi d d') by (done || lia). done. Qed.

Lemma be16_set16 o v d : be16 (set16 o v d) o = u16 v.
Proof.
  unfold be16, set16. rewrite fn_lookup_insert, fn_lookup_insert_ne, fn_lookup_insert by lia.
  unfold u8. pose proof (Z.div_mod (u16 v) (2 ^ 8)). unfold u16 in *.
  replace (v mod 2 ^ 8) with ((v mod 2 ^ 16) mod 2 ^ 8); [lia|].
  symmetry. apply Znumtheory.Zmod_div_mod; [done|done|]. by exists (2 ^ 8).
Qed.
Lemma be32_set32 o v d : be32 (set32 o v d) o = u32 v.
Proof.
  unfold be32, set32. rewrite be16_set16. rewrite (be16_off o (o + 2) (set16 (o + 2) v d)) by (apply set16_off || lia).
  rewrite be16_set16. pose proof (Z.div_mod (u32 v) (2 ^ 16)) as E. rewrite <- (u16_u32 v).
  rewrite (u16_id (u32 v / 2 ^ 16)); [unfold u16 in *; lia|].
  pose proof (u32_range v). split; [apply Z.div_pos; lia|]. apply Z.div_lt_upper_bound; lia.
Qed.

Lemma seqZ_snoc n : 0 ≤ n → seqZ 0 (n + 1) = seqZ 0 n ++ [n].
Proof. intros. rewrite seqZ_app by lia. done. Qed.
Lemma set_zones_snoc n f d : 0 ≤ n → set_zones (n + 1) f d = f n (set_zones n f d).
Proof. intros. unfold set_zones. by rewrite seqZ_snoc, foldl_app by done. Qed.

(** The zones, written one after the other from [b] on. *)
Lemma set_zones16 n b (v : Z → Z) d : 0 ≤ n → let d' := set_zones n (λ i, set16 (b + 2 * i) (v i)) d in
  same_off b (b + 2 * n) d d' ∧ ∀ i, 0 ≤ i < n → be16 d' (b + 2 * i) = u16 (v i).
Proof.
  intros Hn. pattern n. apply natlike_ind; [split; [intros k _; reflexivity|intros; lia]|clear n Hn; intros n Hn [IH1 IH2]|done].
  rewrite <- Z.add_1_r. rewrite set_zones_snoc by done. split.
  - intros k Hk. rewrite set16_off by lia. apply IH1. lia.
  - intros i Hi. destruct (decide (i = n)) as [->|]; [apply be16_set16|].
    erewrite be16_off; [apply IH2; lia|apply set16_off|lia].
Qed.
Lemma set_zones32 n b (v : Z → Z) d : 0 ≤ n → let d' := set_zones n (λ i, set32 (b + 4 * i) (v i)) d in
  same_off b (b + 4 * n) d d' ∧ ∀ i, 0 ≤ i < n → be32 d' (b + 4 * i) = u32 (v i).
Proof.
  intros Hn. pattern n. apply natlike_ind; [split; [intros k _; reflexivity|intros; lia]|clear n Hn; intros n Hn [IH1 IH2]|done].
  rewrite <- Z.add_1_r. rewrite set_zones_snoc by done. split.
  - intros k Hk. rewrite set32_off by lia. apply IH1. lia.
  - intros i Hi. destruct (decide (i = n)) as [->|]; [apply be32_set32|].
    erewrite be32_off; [apply IH2; lia|apply set32_off|lia].
Qed.
End bytes.

(** Skip the writes that do not concern a field, and read the one that does. *)
Ltac field_round := repeat first
  [ rewrite be16_set16 | rewrite be32_set32
  | erewrite be16_off; [|solve [apply set16_off]|lia] | erewrite be16_off; [|solve [apply set32_off]|lia]
  | erewrite be32_off; [|solve [apply set16_off]|lia] | erewrite be32_off; [|solve [apply set32_off]|lia]].

Section icopy.
Implicit Types (r : inode) (d : Z → Z).

(** The fields that fit the inode on the disk: the version 2 layout, and the older one. *)
Record fits2 r : Prop := Fits2 {
  f2_mode : 0 ≤ i_mode r < 2 ^ 16; f2_uid : - 2 ^ 15 ≤ i_uid r < 2 ^ 15; f2_nlinks : - 2 ^ 7 ≤ i_nlinks r < 2 ^ 7;
  f2_gid : - 2 ^ 7 ≤ i_gid r < 2 ^ 7; f2_size : 0 ≤ i_size r < 2 ^ 32;
  f2_atime : - 2 ^ 31 ≤ i_atime r < 2 ^ 31; f2_mtime : - 2 ^ 31 ≤ i_mtime r < 2 ^ 31; f2_ctime : - 2 ^ 31 ≤ i_ctime r < 2 ^ 31;
  f2_zones k : 0 ≤ k < V2_NR_TZONES → 0 ≤ i_zone r k < 2 ^ 32
}.
Record fits1 r : Prop := Fits1 {
  f1_fits : fits2 r;
  f1_zones k : 0 ≤ k < V1_NR_TZONES → 0 ≤ i_zone r k < 2 ^ 16
}.
(** The fields both layouts have. *)
Definition same_inode (n : Z) r r' : Prop :=
  i_mode r' = i_mode r ∧ i_uid r' = i_uid r ∧ i_nlinks r' = i_nlinks r ∧ i_gid r' = i_gid r ∧ i_size r' = i_size r ∧
  i_mtime r' = i_mtime r ∧ ∀ k, 0 ≤ k < n → i_zone r' k = i_zone r k.

Lemma s8_id x : - 2 ^ 7 ≤ x < 2 ^ 7 → s8 x = x.
Proof. intros. unfold s8. rewrite Z.mod_small; lia. Qed.
Lemma s8_u16 x : s8 (u16 x) = s8 x.
Proof.
  unfold s8, u16. rewrite <- (Zplus_mod_idemp_l (x mod 2 ^ 16)), <- (Zplus_mod_idemp_l x). do 3 f_equal.
  symmetry. apply Znumtheory.Zmod_div_mod; [done|done|]. by exists (2 ^ 8).
Qed.
Lemma s8_u8 x : s8 (u8 x) = s8 x.
Proof. unfold s8, u8. by rewrite Zplus_mod_idemp_l. Qed.

Lemma new_icopy_ok norm r r0 o d : fits2 r →
  same_inode V2_NR_TZONES r (new_icopy_read norm (new_icopy_write norm r o d) o r0) ∧
  i_atime (new_icopy_read norm (new_icopy_write norm r o d) o r0) = i_atime r ∧
  i_ctime (new_icopy_read norm (new_icopy_write norm r o d) o r0) = i_ctime r ∧
  same_off o (o + V2_INODE_SIZE) d (new_icopy_write norm r o d).
Proof.
  intros [Hm Hu Hl Hg Hs Ha Hmt Hct Hz]. unfold new_icopy_write.
  match goal with |- context [set_zones V2_NR_TZONES ?f ?d0] => destruct (set_zones32 V2_NR_TZONES (o + 24) (λ i, conv4 norm (s32 (i_zone r i))) d0) as [Hoff Hzone]; [done|];
    set (d1 := set_zones V2_NR_TZONES f d0) in *; set (d2 := d0) in * end.
  assert (H16 : ∀ k, k + 2 ≤ o + 24 → be16 d1 k = be16 d2 k) by (intros k Hk; eapply be16_off; [exact Hoff|lia]).
  assert (H32 : ∀ k, k + 4 ≤ o + 24 → be32 d1 k = be32 d2 k) by (intros k Hk; eapply be32_off; [exact Hoff|lia]).
  split_and!.
  - unfold same_inode, new_icopy_read. cbn. rewrite !H16, !H32 by lia. unfold d2. split_and!.
    + field_round. rewrite conv2_round. by apply u16_id.
    + field_round. rewrite conv2_round', s16_u16. by apply s16_id.
    + field_round. rewrite conv2_round', s8_u16. by apply s8_id.
    + field_round. rewrite conv2_round', s8_u16. by apply s8_id.
    + field_round. rewrite conv4_round, u32_s32, u32_s32. by apply u32_id.
    + field_round. rewrite conv4_round. by apply s32_id.
    + intros k Hk. rewrite (proj2 (in_tab_spec _ _)) by done. rewrite Hzone by done. rewrite conv4_round, !u32_s32. apply u32_id. auto.
  - unfold new_icopy_read. cbn. rewrite H32 by lia. unfold d2. field_round. rewrite conv4_round. by apply s32_id.
  - unfold new_icopy_read. cbn. rewrite H32 by lia. unfold d2. field_round. rewrite conv4_round. by apply s32_id.
  - intros k Hk. unfold V2_INODE_SIZE in *. rewrite Hoff by (unfold V2_NR_TZONES; lia). unfold d2. by rewrite !set32_off, !set16_off by lia.
Qed.

Lemma byte_off o v d : same_off o (o + 1) d (<[o := v]> d).
Proof. intros k Hk. by rewrite fn_lookup_insert_ne by lia. Qed.
Lemma s16_u32 x : 0 ≤ x < 2 ^ 16 → u16 (s16 x) = x.
Proof. intros. rewrite u16_s16. by apply u16_id. Qed.

Lemma old_icopy_ok norm r r0 o d : fits1 r →
  same_inode V1_NR_TZONES r (old_icopy_read norm (old_icopy_write norm r o d) o r0) ∧
  same_off o (o + V1_INODE_SIZE) d (old_icopy_write norm r o d).
Proof.
  intros [[Hm Hu Hl Hg Hs Ha Hmt Hct _] Hz]. unfold old_icopy_write.
  match goal with |- context [set_zones V1_NR_TZONES ?f ?d0] => destruct (set_zones16 V1_NR_TZONES (o + 14) (λ i, conv2 norm (s16 (i_zone r i))) d0) as [Hoff Hzone]; [done|];
    set (d1 := set_zones V1_NR_TZONES f d0) in *; set (d2 := d0) in * end.
  assert (H16 : ∀ k, k + 2 ≤ o + 12 → be16 d1 k = be16 d2 k) by (intros k Hk; eapply be16_off; [exact Hoff|lia]).
  assert (H32 : ∀ k, k + 4 ≤ o + 12 → be32 d1 k = be32 d2 k) by (intros k Hk; eapply be32_off; [exact Hoff|lia]).
  assert (Hb : ∀ k, k < o + 14 → d1 k = d2 k) by (intros k Hk; apply Hoff; lia).
  split.
  - unfold same_inode, old_icopy_read. cbn. rewrite !H16, !H32, !Hb by lia. unfold d2.
    assert (Hskip : ∀ k e v w, k + 4 ≤ o + 12 → be32 (<[o + 12 := v]> (<[o + 13 := w]> e)) k = be32 e k).
    { intros k e v w Hk. rewrite (be32_off (o + 12) (o + 12 + 1) (<[o + 13 := w]> e)) by (apply byte_off || lia).
      by rewrite (be32_off (o + 13) (o + 13 + 1) e) by (apply byte_off || lia). }
    assert (Hskip2 : ∀ k e v w, k + 2 ≤ o + 12 → be16 (<[o + 12 := v]> (<[o + 13 := w]> e)) k = be16 e k).
    { intros k e v w Hk. rewrite (be16_off (o + 12) (o + 12 + 1) (<[o + 13 := w]> e)) by (apply byte_off || lia).
      by rewrite (be16_off (o + 13) (o + 13 + 1) e) by (apply byte_off || lia). }
    rewrite !Hskip, !Hskip2 by lia. split_and!.
    + field_round. rewrite conv2_round. by apply u16_id.
    + field_round. rewrite conv2_round', s16_u16. by apply s16_id.
    + rewrite fn_lookup_insert_ne, fn_lookup_insert by lia. rewrite s8_u8. by apply s8_id.
    + rewrite fn_lookup_insert. rewrite s8_u8. by apply s8_id.
    + field_round. rewrite conv4_round, u32_s32, u32_s32. by apply u32_id.
    + field_round. rewrite conv4_round. by apply s32_id.
    + intros k Hk. rewrite (proj2 (in_tab_spec _ _)) by done. rewrite Hzone by done. rewrite conv2_round. apply u16_id. auto.
  - intros k Hk. unfold V1_INODE_SIZE in *. rewrite Hoff by (unfold V1_NR_TZONES; lia). unfold d2.
    rewrite !fn_lookup_insert_ne by lia. by rewrite !set32_off, !set16_off by lia.
Qed.
End icopy.
