(* ===== verification/Pipep.v ===== *)
(** * Pipes

    [pipe_check] of fs/pipe.c for a write, with [suspend], [revive] and
    [release], which it calls. *)

From S2P Require Import Prelude Fstate Fdev Cache Super Inode Filedes Rdwr Path Fcalls Fopen Fmisc Fmain Fwp.

Section pipe.
Context `{World}.
Implicit Types (s : fsst) (p : Z).

Definition is_proc p : Prop := 0 ≤ p < NR_PROCS.
Lemma is_proc_tab p : is_proc p → in_tab NR_PROCS p = true.
Proof. apply in_tab_intro. Qed.
Hint Resolve is_proc_tab : fs.

(** A process that waits for a pipe has the descriptor it waits for. *)
Definition waits_ok s p : Prop := fp_suspended (fproc_of s p) = true → fp_revived (fproc_of s p) = false →
  Z.land (fp_fd (fproc_of s p)) BYTE = READ ∨ Z.land (fp_fd (fproc_of s p)) BYTE = WRITE →
  in_tab OPEN_MAX (Z.shiftr (fp_fd (fproc_of s p)) 8) = true ∧
  in_tab NR_FILPS (fp_filp (fproc_of s p) (Z.shiftr (fp_fd (fproc_of s p)) 8)) = true.
Definition susp_ok s : Prop := ∀ p, is_proc p → waits_ok s p.

Lemma wp_reply whom result Q s : (let mm := (fs_m1 s) <| m_type := result |> in
  Q tt (s <| fs_m1 := mm |> <| fs_log := Send whom mm :: fs_log s |>)) → wp (reply whom result) Q s.
Proof. done. Qed.

(** What [revive] leaves alone. *)
Definition off_procs s := (inode_of s, filp_of s, fp s, super_of s, lock_of s, buf_of s).

Lemma revive_ok rp bytes Q s : is_proc rp → fp_suspended (fproc_of s rp) = true → fp_revived (fproc_of s rp) = false →
  (∀ s', off_procs s' = off_procs s → (∀ p, p ≠ rp → fproc_of s' p = fproc_of s p) →
     (fp_suspended (fproc_of s' rp) = false ∨ fp_revived (fproc_of s' rp) = true) → Q tt s') → wp (revive rp bytes) Q s.
Proof.
  intros Hp Hs Hr HQ. unfold revive. rewrite is_proc_tab by done. cbn [negb]. fs_step. fs_step. unfold id. rewrite Hs, Hr. cbn [negb orb].
  assert (Hdone : ∀ g s1, off_procs s1 = off_procs s → fproc_of s1 = <[rp := g]> (fproc_of s) →
            (fp_suspended g = false ∨ fp_revived g = true) → Q tt s1).
  { intros g s1 Ho E Hg. apply HQ; [done| |by rewrite E, fn_lookup_insert]. intros p Hne. by rewrite E, fn_lookup_insert_ne. }
  destruct (_ || _).
  { fs_step. fs_step. fs_step. eapply Hdone; [done|reflexivity|]. by right. }
  fs_step. fs_step. destruct (_ =? XPOPEN).
  { apply wp_reply. eapply Hdone; [done|reflexivity|]. by left. }
  fs_step. fs_step. apply wp_reply. apply HQ; [done| |cbn; rewrite !fn_lookup_insert; by left]. intros p Hne. cbn. by rewrite !fn_lookup_insert_ne.
Qed.

(** [release] changes the states of processes only. *)
Lemma release_ok ip call_nr count Q s : call_nr = READ ∨ call_nr = WRITE → susp_ok s →
  (∀ s', off_procs s' = off_procs s → susp_ok s' → Q tt s') → wp (release ip call_nr count) Q s.
Proof.
  intros Hcall Hok HQ. unfold release. fs_step.
  apply (wp_fold_until (λ l _ s', off_procs s' = off_procs s ∧ susp_ok s' ∧ Forall is_proc l)).
  3: { split_and!; [done|done|]. apply Forall_forall. intros p Hp%elem_of_seqZ. unfold is_proc. lia. }
  2: { intros c s1 (Ho & Hok1 & _). fs_step. by apply HQ. }
  intros c rp l s1 (Ho & Hok1 & [Hp Hl]%Forall_cons). fs_step. fs_step. unfold id. fs_step.
  apply (wp_mono _ (λ hit s', s' = s1 ∧ (hit = true → fp_suspended (fproc_of s1 rp) = true ∧ fp_revived (fproc_of s1 rp) = false))).
  - destruct (fp_suspended (fproc_of s1 rp)) eqn:Es; [|by cbn [andb]; fs_step]. destruct (fp_revived (fproc_of s1 rp)) eqn:Er; [by cbn [andb negb]; fs_step|].
    cbn [andb negb]. destruct (Z.eqb_spec (Z.land (fp_fd (fproc_of s1 rp)) BYTE) call_nr) as [Ec|]; [|by fs_step].
    destruct (Hok1 rp Hp Es Er) as [H1 H2]; [rewrite Ec; tauto|]. fs_step. apply wp_get_desc; [by apply is_proc_tab|done|].
    fs_step. apply wp_fget; [done|]. by fs_step.
  - intros [] s2 [-> Hhit]; [|by fs_step]. destruct Hhit as [Es Er]; [done|]. fs_step. apply revive_ok; [done|done|done|].
    intros s3 Ho3 Hoth Hst. fs_step. fs_step. fs_step.
    assert (Hok3 : susp_ok (s3 <| susp_count := susp_count s3 - 1 |>)).
    { intros p Hpp. unfold waits_ok. cbn. destruct (decide (p = rp)) as [->|Hne]; [|rewrite (Hoth p Hne); by apply Hok1].
      destruct Hst as [-> | ->]; done. }
    assert (Hoff : off_procs (s3 <| susp_count := susp_count s3 - 1 |>) = off_procs s) by (by rewrite <- Ho, <- Ho3).
    destruct (_ =? 0); [fs_step; by apply HQ|done].
Qed.

Lemma suspend_pipe_ok Q s : in_tab NR_PROCS (fp s) = true →
  (∀ s', fp s' = fp s → dont_reply s' = true → fp_suspended (fproc_of s' (fp s)) = true → - fp_task (fproc_of s' (fp s)) = XPIPE →
     susp_count s' = susp_count s + 1 → Q tt s') → wp (suspend XPIPE) Q s.
Proof.
  intros Hp HQ. unfold suspend. fs_step. change ((XPIPE =? XPIPE) || (XPIPE =? XPOPEN)) with true. cbn [when]. fs_step.
  do 4 fs_step. repeat (fs_step || (apply wp_cset; [exact Hp|]; cbv beta)). apply HQ; cbn; by rewrite ?fn_lookup_insert.
Qed.

(** The caller waits, and gets no reply. *)
Definition pipe_wait s s' : Prop :=
  dont_reply s' = true ∧ fp_suspended (fproc_of s' (fp s)) = true ∧ - fp_task (fproc_of s' (fp s)) = XPIPE.
(** The file is open for [bits] somewhere. *)
Definition open_for s rip bits : Prop :=
  ∃ f, 0 ≤ f < NR_FILPS ∧ filp_count (filp_of s f) ≠ 0 ∧ filp_ino (filp_of s f) = rip ∧ has (filp_mode (filp_of s f)) bits = true.

Lemma find_filp_ok rip bits Q s : (∀ f, (f = NIL → ¬ open_for s rip bits) → (f ≠ NIL → open_for s rip bits) → Q f s) → wp (find_filp rip bits) Q s.
Proof.
  intros HQ. unfold find_filp. fs_step. fs_step. fs_step. apply HQ.
  - intros Hn (f & Hf & Hc & Hi & Hb). destruct (List.find _ _) as [f'|] eqn:E; cbn in Hn.
    + apply List.find_some in E as [Hin%list_elem_of_In%elem_of_seqZ _]. unfold NIL in Hn. lia.
    + assert (Hin : List.In f all_filps) by (apply list_elem_of_In, elem_of_seqZ; lia). pose proof (List.find_none _ _ E f Hin) as Hx.
      cbn in Hx. by rewrite Hi, Hb, Z.eqb_refl, (proj2 (Z.eqb_neq _ _) Hc) in Hx.
  - intros Hn. destruct (List.find _ _) as [f'|] eqn:E; cbn in Hn; [|done].
    apply List.find_some in E as [Hin%list_elem_of_In%elem_of_seqZ Hx]. apply andb_true_iff in Hx as [[Hc Hi]%andb_true_iff Hb].
    exists f'. split_and!; [lia|lia|by apply negb_true_iff, Z.eqb_neq in Hc|by apply Z.eqb_eq|done].
Qed.

(** The outcome of a write of [bytes] bytes at [position] of a pipe: the result,
    and the limit on the bytes to be written, 0 for none. *)
Record pipe_write_ok (rip oflags bytes position : Z) s (r canwrite : Z) s' : Prop := PipeWriteOk {
  pw_result : r = 1 ∨ r = 0 ∨ r = EAGAIN ∨ r = EPIPE;
  pw_fits : r = 1 → open_for s rip R_BIT ∧ 0 ≤ canwrite ∧
    (canwrite = 0 → position + bytes ≤ PIPE_SIZE) ∧ (canwrite ≠ 0 → PIPE_SIZE < bytes ∧ position + canwrite = PIPE_SIZE);
  pw_wait : r = 0 → open_for s rip R_BIT ∧ position + bytes > PIPE_SIZE ∧ pipe_wait s s' ∧
    (has oflags O_NONBLOCK = true → bytes = PIPE_SIZE);
  pw_again : r = EAGAIN → has oflags O_NONBLOCK = true ∧ open_for s rip R_BIT ∧ position + bytes > PIPE_SIZE ∧
    bytes ≠ PIPE_SIZE ∧ (PIPE_SIZE < bytes → position = PIPE_SIZE);
  pw_broken : r = EPIPE ↔ ¬ open_for s rip R_BIT
}.

Lemma pipe_write_spec_ok rip oflags bytes position (Q : Z * Z → fsst → Prop) s : susp_ok s → in_tab NR_PROCS (fp s) = true →
  0 < bytes < 2 ^ 15 → 0 ≤ position ≤ PIPE_SIZE →
  (∀ r k s', pipe_write_ok rip oflags bytes position s r k s' → Q (r, k) s') →
  wp (pipe_check rip WRITING oflags bytes position 0) Q s.
Proof.
  intros Hok Hp Hb Hpos HQ. unfold pipe_check. change (WRITING =? READING) with false. cbv iota. fs_step.
  assert (HPS : PIPE_SIZE = 7168) by done.
  apply find_filp_ok. intros f Hno Hyes. destruct (Z.eqb_spec f NIL) as [Ef|Ef].
  { specialize (Hno Ef). fs_step. fs_step. fs_step. unfold ask, wp at 1. fs_step. apply HQ. constructor; auto; try done. }
  specialize (Hyes Ef). clear Hno Ef. fs_step. fs_step.
  rewrite (u32_id (position + bytes)) by lia. rewrite (s16_id (PIPE_SIZE - position)) by lia.
  assert (Hr1 : ∀ k s', 0 ≤ k → (k = 0 → position + bytes ≤ PIPE_SIZE) → (k ≠ 0 → PIPE_SIZE < bytes ∧ position + k = PIPE_SIZE) → Q (1, k) s').
  { intros k s' H1 H2 H3. apply HQ. constructor; auto; done. }
  assert (Hag : ∀ k s', has oflags O_NONBLOCK = true → position + bytes > PIPE_SIZE → bytes ≠ PIPE_SIZE → (PIPE_SIZE < bytes → position = PIPE_SIZE) → Q (EAGAIN, k) s').
  { intros k s' H1 H2 H3 H4. apply HQ. constructor; auto; done. }
  assert (Hwt : ∀ k s', pipe_wait s s' → position + bytes > PIPE_SIZE → (has oflags O_NONBLOCK = true → bytes = PIPE_SIZE) → Q (0, k) s').
  { intros k s' H1 H2 H3. apply HQ. constructor; auto; done. }
  destruct (Z.ltb_spec PIPE_SIZE (position + bytes)) as [Hlt|Hge].
  2: { fs_step. apply wp_when; [|intros _; fs_step; apply Hr1; lia]. intros _. apply release_ok; [by left|done|]. intros s' _ _. fs_step. apply Hr1; lia. }
  destruct (has oflags O_NONBLOCK) eqn:En; cbn [andb].
  - destruct (Z.ltb_spec bytes PIPE_SIZE); [fs_step; apply Hag; (done || lia)|]. destruct (Z.ltb_spec PIPE_SIZE bytes).
    + destruct (Z.ltb_spec 0 (PIPE_SIZE - position)); [|fs_step; apply Hag; (done || lia)].
      fs_step. apply release_ok; [by left|done|]. intros s' _ _. fs_step. apply Hr1; lia.
    + cbn [andb]. fs_step. apply suspend_pipe_ok; [done|]. intros s' _ W1 W2 W3 _. fs_step. apply Hwt; [done|lia|lia].
  - destruct (Z.ltb_spec PIPE_SIZE bytes) as [Hgt|Hle]; cbn [andb].
    + destruct (Z.ltb_spec 0 (PIPE_SIZE - position)).
      * fs_step. apply release_ok; [by left|done|]. intros s' _ _. fs_step. apply Hr1; lia.
      * fs_step. apply suspend_pipe_ok; [done|]. intros s' _ W1 W2 W3 _. fs_step. apply Hwt; [done|lia|done].
    + fs_step. apply suspend_pipe_ok; [done|]. intros s' _ W1 W2 W3 _. fs_step. apply Hwt; [done|lia|done].
Qed.
End pipe.
