(* ===== verification/Fblock.v ===== *)
(** * The interface of the block cache

    What the callers of fs/cache.c rely on, as a class: reading a block lends a
    buffer with its contents, writing the buffer changes that block only, and
    returning it changes nothing.  The cache of Cachesem.v implements it. *)

From S2P Require Import Prelude Fstate Fdev Cache Fwp Cachewf Cachep Cachesem.

(** The block contents, as a function of the state. *)
Definition views : Type := Z → Z → list Z.

Class BlockCache `{World} : Type := {
  blocks_ok : Z → Z → Prop;
  view : fsst → views;
  (** no buffer is on loan, or exactly [bp], which holds [(dev, block)] *)
  ready : fsst → Prop;
  lent : Z → Z → Z → fsst → Prop;
  lent_buf bp dev block s : lent bp dev block s → is_buf bp;
  lent_data bp dev block s : lent bp dev block s →
    block_bytes (buf_of s bp) = view s dev block ∧ ∀ k, 0 ≤ b_data (buf_of s bp) k < 2 ^ 8;
  get_law dev block s : ready s → blocks_ok dev block →
    wp (get_block dev block NORMAL) (λ bp s', lent bp dev block s' ∧ outside s' = outside s ∧
      ∀ d b, blocks_ok d b → view s' d b = view s d b) s;
  put_law block_type bp dev block s : lent bp dev block s →
    wp (put_block bp block_type) (λ _ s', ready s' ∧ outside s' = outside s ∧ ∀ d b, blocks_ok d b → view s' d b = view s d b) s;
  write_law bp dev block d s : lent bp dev block s → (∀ k, 0 ≤ d k < 2 ^ 8) →
    wp (fill bp d) (λ _ s', lent bp dev block s' ∧ outside s' = outside s ∧
      ∀ d' b', blocks_ok d' b' → view s' d' b' = if decide (d' = dev ∧ b' = block) then load d 0 BLOCK_SIZE else view s d' b') s
}.

Section implementation.
Context `{!World} (image : Z → Z → list Z) `{!DiskStore image}.
Implicit Types (s : fsst).

Definition cache_ok s : Prop := cache_inv s ∧ coherent image s ∧ nr_buf2 s = 0.
(** The numbers of users when no buffer is on loan. *)
Definition at_rest (c : Z → Z) : Prop := (∃ i, is_buf i ∧ c i = 0) ∧ ∀ i, is_buf i → 0 ≤ c i < 127.
Definition cache_ready s : Prop := cache_ok s ∧ at_rest (λ i, b_count (buf_of s i)).
Definition cache_lent bp dev block s : Prop := cache_ok s ∧ is_buf bp ∧ disk_block dev block ∧
  b_dev (buf_of s bp) = dev ∧ b_blocknr (buf_of s bp) = block ∧
  ∃ c, at_rest c ∧ ∀ i, b_count (buf_of s i) = c i + (if decide (i = bp) then 1 else 0).

Lemma cache_get dev block s : cache_ready s → disk_block dev block →
  wp (get_block dev block NORMAL) (λ bp s', cache_lent bp dev block s' ∧ outside s' = outside s ∧
    ∀ d b, disk_block d b → contents image s' d b = contents image s d b) s.
Proof.
  intros [(Hinv & Hco & Hn) [Hfree Hmax]] Hdb.
  destruct (get_block_full image dev block s) as (bp & s' & E & Hg & (Hco' & Hn' & Hc) & Hd & _); [done..|intros i Hi _; by apply Hmax|].
  eapply wp_eq; [exact E|]. split_and!; [|by apply Hg|done]. split_and!; [by split_and!; [apply Hg| |]|by apply Hg|done|done|by apply Hg|].
  exists (λ i, b_count (buf_of s i)). split; [done|]. intros i. case_decide as Ei; [subst; apply Hg|].
  rewrite Z.add_0_r. by apply (g_others _ _ _ _ _ _ Hg).
Qed.

Lemma cache_put block_type bp dev block s : cache_lent bp dev block s →
  wp (put_block bp block_type) (λ _ s', cache_ready s' ∧ outside s' = outside s ∧
    ∀ d b, disk_block d b → contents image s' d b = contents image s d b) s.
Proof.
  intros ((Hinv & Hco & Hn) & Hbp & Hdb & Hd & Hb & c & Hrest & Hcnt).
  assert (Hnz : b_count (buf_of s bp) ≠ 0) by (rewrite Hcnt, decide_True by done; destruct Hrest as [_ Hr]; specialize (Hr bp Hbp); lia).
  destruct (ci_wf _ Hinv) as (lru & hl & W).
  destruct (wp_inv _ _ _ (put_block_ok block_type lru hl bp (λ _, put block_type lru s bp) s Hinv W Hbp Hnz (λ _ Hp, Hp))) as (u & s3 & E & Hp).
  destruct (wp_inv _ _ _ (put_sem image block_type bp s Hinv Hco Hn Hbp Hnz)) as (u' & s3' & E' & Hco3 & Hn3 & Hc3).
  rewrite E in E'. injection E' as <- <-. eapply wp_eq; [exact E|]. split_and!; [|by apply Hp|done].
  split; [by split_and!; [apply Hp| |]|].
  assert (Ec : ∀ i, b_count (buf_of s3 i) = c i).
  { intros i. destruct (decide (i = bp)) as [->|Hne].
    - rewrite (p_count _ _ _ _ _ Hp), Hcnt, decide_True by done. lia.
    - rewrite (p_counts _ _ _ _ _ Hp), Hcnt, decide_False by done. lia. }
  destruct Hrest as [(i & Hi & Hz) Hr]. split; [exists i; by rewrite Ec|]. intros j Hj. rewrite Ec. auto.
Qed.

Lemma cache_write bp dev block d s : cache_lent bp dev block s → (∀ k, 0 ≤ d k < 2 ^ 8) →
  wp (fill bp d) (λ _ s', cache_lent bp dev block s' ∧ outside s' = outside s ∧
    ∀ d' b', disk_block d' b' → contents image s' d' b' =
      if decide (d' = dev ∧ b' = block) then load d 0 BLOCK_SIZE else contents image s d' b') s.
Proof.
  intros ((Hinv & Hco & Hn) & Hbp & Hdb & Hd & Hb & c & Hrest & Hcnt) Hok.
  assert (Hnd : b_dev (buf_of s bp) ≠ NO_DEV) by (rewrite Hd; by eapply disk_block_nodev).
  assert (Hout : wp (fill bp d) (λ _ s', outside s' = outside s) s) by (unfold fill; by fs_step).
  destruct (wp_inv _ _ _ Hout) as (u & s1 & E & Ho).
  destruct (wp_inv _ _ _ (fill_sem image bp d s Hinv Hco Hn Hbp Hnd Hok)) as (u' & s1' & E' & Hinv1 & Hco1 & Hn1 & Hcore & Hc).
  rewrite E in E'. injection E' as <- <-. eapply wp_eq; [exact E|].
  assert (Hcb : ∀ i, b_dev (buf_of s1 i) = b_dev (buf_of s i) ∧ b_blocknr (buf_of s1 i) = b_blocknr (buf_of s i) ∧ b_count (buf_of s1 i) = b_count (buf_of s i)).
  { intros i. specialize (Hcore i). by injection Hcore. }
  split_and!; [|done|by rewrite <- Hd, <- Hb].
  destruct (Hcb bp) as (E1 & E2 & _). split; [done|]. split; [done|]. split; [done|]. split; [by rewrite E1|]. split; [by rewrite E2|].
  exists c. split; [done|]. intros i. destruct (Hcb i) as (_ & _ & ->). apply Hcnt.
Qed.

#[export] Program Instance cache_blocks : BlockCache := {|
  blocks_ok := disk_block; view := contents image; ready := cache_ready; lent := cache_lent;
  get_law := cache_get; put_law := cache_put; write_law := cache_write |}.
Next Obligation. intros bp dev block s Hl. apply Hl. Qed.
Next Obligation.
  intros bp dev block s ((Hinv & Hco & _) & Hbp & Hdb & Hd & Hb & _). split; [|apply Hco].
  symmetry. apply contents_held; [by apply cache_unique|by eapply disk_block_nodev|done|by apply holds_true].
Qed.
End implementation.
