(* ===== verification/Bitmapp.v ===== *)
(** * Bit maps

    [alloc_bit] and [free_bit] of fs/super.c, as clients of the block cache: the
    first finds a bit that is clear and sets it, the second clears one, and they
    change nothing else. *)

From S2P Require Import Prelude Fstate Fdev Cache Super Inode Fwp Cachewf Cachep Cachesem Fblock Icopyp.

Section bits.
Context `{World}.

Lemma has_bit k i : 0 ≤ i → has k (2 ^ i) = Z.testbit k i.
Proof.
  intros Hi. unfold has. rewrite land_single by done. destruct (Z.testbit k i); [|done].
  apply negb_true_iff, Z.eqb_neq. pose proof (Z.pow_pos_nonneg 2 i). lia.
Qed.
Lemma zero_bit k : 0 ≤ k < 2 ^ 16 → k ≠ 0xFFFF → ∃ z, 0 ≤ z < 16 ∧ Z.testbit k z = false.
Proof.
  intros Hk Hne. destruct (List.find (λ z, negb (Z.testbit k z)) (seqZ 0 16)) as [z|] eqn:E.
  - apply List.find_some in E as [Hz%list_elem_of_In%elem_of_seqZ Hb%negb_true_iff]. exists z. split; [lia|done].
  - exfalso. apply Hne. change 0xFFFF with (Z.ones 16). apply Z.bits_inj'. intros i Hi. destruct (decide (i < 16)).
    + rewrite Z.ones_spec_low by lia. assert (Hin : List.In i (seqZ 0 16)) by (apply list_elem_of_In, elem_of_seqZ; lia).
      pose proof (List.find_none _ _ E i Hin) as Hx. by apply negb_false_iff in Hx.
    + rewrite Z.ones_spec_high by lia. rewrite <- (Z.mod_small k (2 ^ 16)) by done. apply Z.mod_pow2_bits_high. lia.
Qed.
Lemma first_zero_ok k Q (s : fsst) : 0 ≤ k < 2 ^ 16 → k ≠ 0xFFFF →
  (∀ i, 0 ≤ i < 16 → Z.testbit k i = false → (∀ j, 0 ≤ j < i → Z.testbit k j = true) → Q i s) → wp (first_zero k) Q s.
Proof.
  intros Hk Hne HQ. destruct (zero_bit k Hk Hne) as (z & Hz & Hzb). unfold first_zero.
  apply (wp_loop (λ i s', s' = s ∧ 0 ≤ i ≤ z ∧ ∀ j, 0 ≤ j < i → Z.testbit k j = true) (λ i _, Z.to_nat (z - i))).
  - intros i ? (-> & Hi & Hb). apply wp_ret. rewrite has_bit by lia. destruct (Z.testbit k i) eqn:E.
    + assert (i ≠ z) by (intros ->; congruence). split; [|lia]. split_and!; [done|lia|lia|].
      intros j Hj. destruct (decide (j = i)) as [->|]; [done|apply Hb; lia].
    + apply HQ; [lia|done|done].
  - split_and!; [done|lia|lia|lia].
  - unfold BITCHUNK_BITS. lia.
Qed.

Lemma be16_range d o : (∀ k, 0 ≤ d k < 2 ^ 8) → 0 ≤ be16 d o < 2 ^ 16.
Proof. intros Hd. unfold be16. pose proof (Hd o). pose proof (Hd (o + 1)). lia. Qed.
Lemma set16_bytes o v d : (∀ k, 0 ≤ d k < 2 ^ 8) → ∀ k, 0 ≤ set16 o v d k < 2 ^ 8.
Proof.
  intros Hd k. unfold set16. rewrite !tab_set. pose proof (u16_range v).
  repeat case_decide; [|by apply Z.mod_pos_bound|done]. split; [apply Z.div_pos; lia|apply Z.div_lt_upper_bound; lia].
Qed.

(** Bit [i] of word [w] of a bit map. *)
Definition bitv (native : bool) (d : Z → Z) (w i : Z) : bool := Z.testbit (conv2 native (be16 d (2 * w))) i.

Lemma bitv_full native d w i : be16 d (2 * w) = 0xFFFF → 0 ≤ i < 16 → bitv native d w i = true.
Proof.
  intros E Hi. unfold bitv. rewrite E. assert (E' : conv2 native 0xFFFF = Z.ones 16) by (by destruct native).
  rewrite E'. by apply Z.ones_spec_low.
Qed.
Lemma word_norm native d w : (∀ k, 0 ≤ d k < 2 ^ 8) → u16 (conv2 native (s16 (be16 d w))) = conv2 native (be16 d w).
Proof. intros Hd. rewrite u16_id by apply conv2_range. apply conv2_u16. apply u16_s16. Qed.
Lemma conv2_full native w : 0 ≤ w < 2 ^ 16 → conv2 native w = 0xFFFF → w = 0xFFFF.
Proof.
  intros Hw E. rewrite <- (u16_id w) by done. rewrite <- (conv2_twice native w), E. by destruct native.
Qed.

(** The map after word [w] gets the value [k]. *)
Definition put_word (native : bool) (w k : Z) (d : Z → Z) : Z → Z := set16 (2 * w) (conv2 native (s16 k)) d.
Lemma put_word_spec native d w k w' j : 0 ≤ j < 16 →
  bitv native (put_word native w k d) w' j = if decide (w' = w) then Z.testbit k j else bitv native d w' j.
Proof.
  intros Hj. unfold bitv, put_word. case_decide as E.
  - subst w'. rewrite be16_set16. rewrite (conv2_u16 native _ _ (u16_u16 _)), conv2_twice, u16_s16.
    unfold u16. by rewrite Z.mod_pow2_bits_low by lia.
  - by rewrite (be16_off (2 * w) (2 * w + 2) d) by (apply set16_off || lia).
Qed.
Lemma put_word_bytes native w k d : (∀ k, 0 ≤ d k < 2 ^ 8) → ∀ j, 0 ≤ put_word native w k d j < 2 ^ 8.
Proof. apply set16_bytes. Qed.

(** The map after bit [i] of word [w] is set, or cleared. *)
Definition set_bit (native : bool) (w i : Z) (d : Z → Z) : Z → Z :=
  put_word native w (Z.lor (conv2 native (be16 d (2 * w))) (2 ^ i)) d.
Definition clear_bit (native : bool) (w i : Z) (d : Z → Z) : Z → Z :=
  put_word native w (clrf (conv2 native (be16 d (2 * w))) (2 ^ i)) d.
(** [d'] is [d] with bit [i] of word [w] set to [v]. *)
Definition one_bit (native : bool) (w i : Z) (v : bool) (d d' : Z → Z) : Prop :=
  ∀ w' j, 0 ≤ j < 16 → bitv native d' w' j = if decide (w' = w ∧ j = i) then v else bitv native d w' j.
Lemma one_bit_intro native w i v d k : (∀ j, 0 ≤ j < 16 → Z.testbit k j = if decide (j = i) then v else bitv native d w j) →
  one_bit native w i v d (put_word native w k d).
Proof.
  intros Hbits w' j Hj. rewrite put_word_spec by done. case_decide as E; [|by rewrite decide_False by (by intros [])].
  subst w'. rewrite Hbits by done. repeat case_decide; try done; tauto.
Qed.
Lemma set_bit_spec native d w i : 0 ≤ i < 16 → one_bit native w i true d (set_bit native w i d).
Proof.
  intros Hi. apply one_bit_intro. intros j Hj. unfold bitv. rewrite Z.lor_spec, Z.pow2_bits_eqb by lia. case_decide as E.
  - subst. by rewrite Z.eqb_refl, orb_true_r.
  - rewrite (proj2 (Z.eqb_neq _ _)) by lia. apply orb_false_r.
Qed.
Lemma clear_bit_spec native d w i : 0 ≤ i < 16 → one_bit native w i false d (clear_bit native w i d).
Proof.
  intros Hi. apply one_bit_intro. intros j Hj. unfold bitv, clrf. rewrite Z.land_spec, Z.lnot_spec, Z.pow2_bits_eqb by lia. case_decide as E.
  - subst. by rewrite Z.eqb_refl, andb_false_r.
  - rewrite (proj2 (Z.eqb_neq _ _)) by lia. apply andb_true_r.
Qed.

(** The words before [w], and the bits of [w] before [i], are all set, and bit [i] is clear. *)
Definition first_clear (native : bool) (d : Z → Z) (word w i : Z) : Prop :=
  word ≤ w < BITMAP_CHUNKS ∧ 0 ≤ i < 16 ∧ (∀ w', word ≤ w' < w → be16 d (2 * w') = 0xFFFF) ∧
  (∀ j, 0 ≤ j < i → bitv native d w j = true) ∧ bitv native d w i = false.

(** The store of [try_word], as [fill]. *)
Lemma wp_bset_fill bp w v Q s : is_buf bp →
  wp (fill bp (set16 w v (b_data (buf_of s bp)))) Q s →
  wp (bset bp (λ x, x <| b_data := set16 w v (b_data x) |> <| b_dirt := true |>)) Q s.
Proof. intros Hb Hw. unfold fill in Hw. unfold bset in *. by rewrite (in_tab_intro NR_BUFS bp) in * by done. Qed.

Lemma scan_words_ok native bits block bp word Q s : is_buf bp → (∀ k, 0 ≤ b_data (buf_of s bp) k < 2 ^ 8) → 0 ≤ word ≤ BITMAP_CHUNKS →
  0 ≤ block < 2 ^ 16 → let d := b_data (buf_of s bp) in
  ((∀ w, word ≤ w < BITMAP_CHUNKS → be16 d (2 * w) = 0xFFFF) → Q None s) →
  (∀ w i, first_clear native d word w i → bits ≤ block * BITS_PER_BLOCK + w * BITCHUNK_BITS + i → Q (Some None) s) →
  (∀ w i, first_clear native d word w i → block * BITS_PER_BLOCK + w * BITCHUNK_BITS + i < bits →
     wp (fill bp (set_bit native w i d)) (λ _ s', Q (Some (Some (block * BITS_PER_BLOCK + w * BITCHUNK_BITS + i))) s') s) →
  wp (for_each (seqZ word (BITMAP_CHUNKS - word)) (try_word native bits block bp)) Q s.
Proof.
  intros Hbp Hd Hw Hblk d Hnone Hpast Hfound.
  assert (Hgen : ∀ n k, 0 ≤ k → k + Z.of_nat n = BITMAP_CHUNKS → word ≤ k → (∀ w, word ≤ w < k → be16 d (2 * w) = 0xFFFF) →
    wp (for_each (seqZ k (BITMAP_CHUNKS - k)) (try_word native bits block bp)) Q s).
  2: { apply (Hgen (Z.to_nat (BITMAP_CHUNKS - word)) word); (lia || intros; lia). }
  induction n as [|n IH]; intros k Hk0 Hk Hwk Hfull.
  { replace (BITMAP_CHUNKS - k) with 0 by lia. apply Hnone. intros w Hww. apply Hfull. lia. }
  rewrite seqZ_cons by lia. rewrite for_each_cons. fs_step. unfold try_word. fs_step. fs_step. fold d.
  destruct (Z.eqb_spec (be16 d (2 * k)) 0xFFFF) as [Ef|Ef].
  { fs_step. replace (Z.succ k) with (k + 1) by lia. replace (Z.pred (BITMAP_CHUNKS - k)) with (BITMAP_CHUNKS - (k + 1)) by lia.
    apply IH; [lia|lia|lia|]. intros w Hww. destruct (decide (w = k)) as [->|]; [done|apply Hfull; lia]. }
  rewrite word_norm by done. fs_step. apply first_zero_ok; [apply conv2_range|intros E; apply Ef; eapply conv2_full; [by apply be16_range|exact E]|].
  intros i Hi Hz Hset.
  assert (Hfc : first_clear native d word k i) by (split_and!; (done || lia)).
  unfold BITS_PER_BLOCK, BITCHUNK_BITS, BITMAP_CHUNKS in *. rewrite u32_id by lia.
  destruct (Z.leb_spec bits (block * (512 * 16) + k * 16 + i)) as [Hge|Hlt].
  { fs_step. fs_step. apply (Hpast k i Hfc). lia. }
  fs_step. apply wp_bset_fill; [done|]. eapply wp_mono; [exact (Hfound k i Hfc Hlt)|]. intros [] s' HQ. fs_step. by fs_step.
Qed.
End bits.

(** ** Bits in the blocks of a map *)
Section map.
Context `{!World} `{!BlockCache}.
Implicit Types (s : fsst) (r : super_block).

Definition list_bytes (l : list Z) (k : Z) : Z := nth (Z.to_nat k) l 0.
Definition map_block r (map b : Z) : Z := map_start r map + b / BITS_PER_BLOCK.
Definition bits_of r (l : list Z) (b : Z) : bool :=
  bitv (s_native r) (list_bytes l) (b mod BITS_PER_BLOCK / BITCHUNK_BITS) (b mod BITCHUNK_BITS).
(** Bit [b] of map [map] of the file system [r]. *)
Definition map_bit s r (map b : Z) : bool := bits_of r (view s (s_dev r) (map_block r map b)) b.

(** The map has blocks for its bits, and they are blocks of the disk. *)
Record map_ok r (map : Z) : Prop := {
  mo_bits : 0 < map_bits r map ≤ bit_blocks r map * BITS_PER_BLOCK;
  mo_blocks : bit_blocks r map < 2 ^ 16 - 1;
  mo_disk k : 0 ≤ k < bit_blocks r map → 0 ≤ map_start r map + k < 2 ^ 32 ∧ blocks_ok (s_dev r) (map_start r map + k)
}.

Lemma list_bytes_load d k : 0 ≤ k < BLOCK_SIZE → list_bytes (load d 0 BLOCK_SIZE) k = d k.
Proof.
  intros Hk. unfold list_bytes, load. rewrite (nth_lookup_Some _ _ _ (d k)); [done|].
  change (map ?f ?l) with (f <$> l). rewrite list_lookup_fmap, (lookup_seqZ_lt 0 BLOCK_SIZE) by lia. cbn. do 2 f_equal. lia.
Qed.
Lemma bits_of_load r d w i block : 0 ≤ w < BITMAP_CHUNKS → 0 ≤ i < 16 →
  bits_of r (load d 0 BLOCK_SIZE) (block * BITS_PER_BLOCK + w * BITCHUNK_BITS + i) = bitv (s_native r) d w i.
Proof.
  intros Hw Hi. unfold bits_of, BITS_PER_BLOCK, BITCHUNK_BITS, BITMAP_CHUNKS in *.
  replace ((block * (512 * 16) + w * 16 + i) mod (512 * 16) / 16) with w by (Z.to_euclidean_division_equations; lia).
  replace ((block * (512 * 16) + w * 16 + i) mod 16) with i by (Z.to_euclidean_division_equations; lia).
  unfold bitv, be16. rewrite !list_bytes_load by (unfold BLOCK_SIZE; lia). done.
Qed.
(** A bit by its block, word and position. *)
Lemma bit_split b : 0 ≤ b → ∃ k w i, b = k * BITS_PER_BLOCK + w * BITCHUNK_BITS + i ∧ k = b / BITS_PER_BLOCK ∧
  0 ≤ k ∧ 0 ≤ w < BITMAP_CHUNKS ∧ 0 ≤ i < 16.
Proof.
  intros Hb. exists (b / BITS_PER_BLOCK), (b mod BITS_PER_BLOCK / BITCHUNK_BITS), (b mod 16).
  unfold BITS_PER_BLOCK, BITCHUNK_BITS, BITMAP_CHUNKS. Z.to_euclidean_division_equations. lia.
Qed.

(** ** One block of the map *)

(** The bits from [pos] to the end of block [k] of the map are set. *)
Definition set_to_end s r (map pos k : Z) : Prop :=
  ∀ b, 0 ≤ b < map_bits r map → pos ≤ b < (k + 1) * BITS_PER_BLOCK → map_bit s r map b = true.

Lemma map_bit_word s r map d k w i : view s (s_dev r) (map_start r map + k) = load d 0 BLOCK_SIZE →
  0 ≤ k → 0 ≤ w < BITMAP_CHUNKS → 0 ≤ i < 16 →
  map_bit s r map (k * BITS_PER_BLOCK + w * BITCHUNK_BITS + i) = bitv (s_native r) d w i.
Proof.
  intros Hv Hk Hw Hi. unfold map_bit, map_block.
  replace ((k * BITS_PER_BLOCK + w * BITCHUNK_BITS + i) / BITS_PER_BLOCK) with k
    by (unfold BITS_PER_BLOCK, BITCHUNK_BITS, BITMAP_CHUNKS in *; Z.to_euclidean_division_equations; lia).
  rewrite Hv. by apply bits_of_load.
Qed.

(** The words of block [k] from [word] on are all ones up to the bit at [w], [i]. *)
Lemma passed_words s r map d k word w i : view s (s_dev r) (map_start r map + k) = load d 0 BLOCK_SIZE →
  0 ≤ k → 0 ≤ word → w ≤ BITMAP_CHUNKS → 0 ≤ i ≤ 16 → (w = BITMAP_CHUNKS → i = 0) →
  (∀ w', word ≤ w' < w → be16 d (2 * w') = 0xFFFF) → (∀ j, 0 ≤ j < i → bitv (s_native r) d w j = true) →
  ∀ b, k * BITS_PER_BLOCK + word * BITCHUNK_BITS ≤ b < k * BITS_PER_BLOCK + w * BITCHUNK_BITS + i → map_bit s r map b = true.
Proof.
  intros Hv Hk Hword Hw Hi Hend Hfull Hset b Hb.
  destruct (bit_split b) as (k' & w' & j & -> & _ & Hk' & Hw' & Hj).
  { unfold BITS_PER_BLOCK, BITCHUNK_BITS, BITMAP_CHUNKS in *; lia. }
  assert (k' = k) as -> by (unfold BITS_PER_BLOCK, BITCHUNK_BITS, BITMAP_CHUNKS in *; lia).
  rewrite (map_bit_word s r map d) by done. destruct (decide (w' = w)) as [->|].
  - apply Hset. unfold BITCHUNK_BITS in *. lia.
  - apply bitv_full; [|done]. apply Hfull. unfold BITCHUNK_BITS in *. lia.
Qed.

(** Bit [b] of the map gets the value [v], and nothing else changes. *)
Record changed s0 s' r map b (v : bool) : Prop := {
  ch_bits b' : 0 ≤ b' < bit_blocks r map * BITS_PER_BLOCK → map_bit s' r map b' = if decide (b' = b) then v else map_bit s0 r map b';
  ch_view d k : blocks_ok d k → (d, k) ≠ (s_dev r, map_block r map b) → view s' d k = view s0 d k
}.
Definition allocated s0 s' r map b : Prop := map_bit s0 r map b = false ∧ changed s0 s' r map b true.

Lemma changed_intro s0 s' r map d d1 k w i v : map_ok r map → view s0 (s_dev r) (map_start r map + k) = load d 0 BLOCK_SIZE →
  0 ≤ k → 0 ≤ w < BITMAP_CHUNKS → 0 ≤ i < 16 → one_bit (s_native r) w i v d d1 →
  (∀ d' b', blocks_ok d' b' → view s' d' b' =
     if decide (d' = s_dev r ∧ b' = map_start r map + k) then load d1 0 BLOCK_SIZE else view s0 d' b') →
  changed s0 s' r map (k * BITS_PER_BLOCK + w * BITCHUNK_BITS + i) v.
Proof.
  intros Hmap Hv Hk Hw Hi Hone Hview.
  assert (Eb : (k * BITS_PER_BLOCK + w * BITCHUNK_BITS + i) / BITS_PER_BLOCK = k)
    by (unfold BITS_PER_BLOCK, BITCHUNK_BITS, BITMAP_CHUNKS in *; Z.to_euclidean_division_equations; lia).
  constructor.
  - intros b' Hb'. destruct (bit_split b') as (k' & w' & j & Eb' & Ek' & Hk' & Hw' & Hj); [lia|].
    assert (Hk2 : k' < bit_blocks r map) by (rewrite Ek'; apply Z.div_lt_upper_bound; [done|lia]).
    destruct (mo_disk _ _ Hmap k') as [_ Hok]; [lia|]. specialize (Hview _ _ Hok). rewrite Eb'. destruct (decide (k' = k)) as [->|Hne].
    + rewrite decide_True in Hview by done. rewrite (map_bit_word s' r map _ _ _ _ Hview), (map_bit_word s0 r map d) by done.
      rewrite Hone by done. apply decide_ext. unfold BITS_PER_BLOCK, BITCHUNK_BITS in *. lia.
    + rewrite decide_False in Hview by (intros []; lia). rewrite decide_False
        by (unfold BITS_PER_BLOCK, BITCHUNK_BITS, BITMAP_CHUNKS in *; lia).
      unfold map_bit, map_block. rewrite <- Eb', <- Ek'. by rewrite Hview.
  - intros d' k' Hok Hne. rewrite Hview by done. rewrite decide_False; [done|]. intros [-> ->]. apply Hne. unfold map_block. by rewrite Eb.
Qed.

(** Block [k] of the map, from word [word]. *)
Lemma scan_block_ok r map bp word k Q s : map_ok r map → lent bp (s_dev r) (map_start r map + k) s →
  0 ≤ word ≤ BITMAP_CHUNKS → 0 ≤ k < bit_blocks r map →
  (∀ x, match x with Some (Some _) => False | _ => True end →
     set_to_end s r map (k * BITS_PER_BLOCK + word * BITCHUNK_BITS) k → Q x s) →
  (∀ b s', k * BITS_PER_BLOCK + word * BITCHUNK_BITS ≤ b < map_bits r map → lent bp (s_dev r) (map_start r map + k) s' →
     outside s' = outside s → allocated s s' r map b →
     (∀ b', k * BITS_PER_BLOCK + word * BITCHUNK_BITS ≤ b' < b → map_bit s r map b' = true) → Q (Some (Some b)) s') →
  wp (for_each (seqZ word (BITMAP_CHUNKS - word)) (try_word (s_native r) (map_bits r map) k bp)) Q s.
Proof.
  intros Hmap Hl Hword Hk Hfull Hfound. pose proof (lent_buf _ _ _ _ Hl) as Hbp.
  destruct (lent_data _ _ _ _ Hl) as [Hv%eq_sym Hd]. set (d := b_data (buf_of s bp)) in *.
  pose proof (mo_blocks _ _ Hmap). unfold block_bytes in Hv. fold d in Hv.
  assert (Hp := λ w i, passed_words s r map d k word w i Hv).
  apply scan_words_ok; [done|done|done|lia|..]; fold d.
  - intros Hall. apply Hfull; [done|]. intros b Hb Hpos. apply (Hp BITMAP_CHUNKS 0); try (done || lia).
    unfold BITS_PER_BLOCK, BITCHUNK_BITS, BITMAP_CHUNKS in *. lia.
  - intros w i (Hw & Hi & Hf & Hz & _) Hge. apply Hfull; [done|]. intros b Hb Hpos.
    apply (Hp w i); try (done || lia).
  - intros w i (Hw & Hi & Hf & Hz & Hc) Hlt. eapply wp_mono; [by apply (write_law _ _ _ _ _ Hl), put_word_bytes|].
    intros [] s' (Hl' & Ho & Hview). apply Hfound; [unfold BITS_PER_BLOCK, BITCHUNK_BITS in *; lia|done|done| |].
    + split; [by rewrite (map_bit_word s r map d) by (done || lia)|].
      apply (changed_intro s s' r map d (set_bit (s_native r) w i d)); try (done || lia). by apply set_bit_spec.
    + apply (Hp w i); try (done || lia).
Qed.

(** ** The whole map *)

(** The bits from word [start] of the map up to [b], wrapping around. *)
Definition before (start b b' : Z) : Prop := if start <=? b then start ≤ b' < b else start ≤ b' ∨ b' < b.
(** The outcome of [alloc_bit], with the search starting at bit [start]. *)
Definition alloc_outcome s0 r map start b s' : Prop :=
  ready s' ∧ outside s' = outside s0 ∧
  ((b = NO_BIT ∧ (∀ b', 0 ≤ b' < map_bits r map → map_bit s0 r map b' = true) ∧
    ∀ d k, blocks_ok d k → view s' d k = view s0 d k) ∨
   (0 ≤ b < map_bits r map ∧ allocated s0 s' r map b ∧
    ∀ b', 0 ≤ b' < map_bits r map → before start b b' → map_bit s0 r map b' = true)).
(** The bit at whose word the search starts. *)
Definition search_start r map origin : Z := (if map_bits r map <=? origin then 0 else origin) / BITCHUNK_BITS * BITCHUNK_BITS.

Definition same_view s0 s : Prop := ∀ d k, blocks_ok d k → view s d k = view s0 d k.
Lemma map_block_ok r map b : map_ok r map → 0 ≤ b < bit_blocks r map * BITS_PER_BLOCK → blocks_ok (s_dev r) (map_block r map b).
Proof.
  intros Hmap Hb. unfold map_block. apply (mo_disk _ _ Hmap). unfold BITS_PER_BLOCK, BITCHUNK_BITS, BITMAP_CHUNKS in *.
  split; [apply Z.div_pos; lia|apply Z.div_lt_upper_bound; lia].
Qed.
Lemma map_bit_same s0 s r map b : map_ok r map → same_view s0 s → 0 ≤ b < map_bits r map → map_bit s r map b = map_bit s0 r map b.
Proof.
  intros Hmap Hv Hb. unfold map_bit. rewrite Hv; [done|]. apply map_block_ok; [done|]. pose proof (mo_bits _ _ Hmap). lia.
Qed.
Lemma changed_same s0 s s1 s' r map b v : map_ok r map → same_view s0 s → same_view s1 s' →
  changed s s1 r map b v → changed s0 s' r map b v.
Proof.
  intros Hmap Hv Hv1 Ha. constructor.
  - intros b' Hb'. pose proof (ch_bits _ _ _ _ _ _ Ha b' Hb') as E. unfold map_bit in *.
    rewrite Hv1 by by apply map_block_ok. rewrite E. by rewrite Hv by by apply map_block_ok.
  - intros d k Hok Hne. rewrite Hv1 by done. rewrite (ch_view _ _ _ _ _ _ Ha) by done. by apply Hv.
Qed.

(** The state of the search after [blocks + 1 - bcount] blocks, the first being
    [b0]: what it has passed is set. *)
Record searching s0 r map b0 w0 (block word bcount : Z) s : Prop := {
  se_ready : ready s;
  se_out : outside s = outside s0;
  se_view : same_view s0 s;
  se_count : 1 ≤ bcount ≤ bit_blocks r map + 1;
  se_block : 0 ≤ block < bit_blocks r map;
  se_word : 0 ≤ word < BITMAP_CHUNKS;
  se_passed : ∃ wrapped : bool,
    block + (if wrapped then bit_blocks r map else 0) = b0 + (bit_blocks r map + 1 - bcount) ∧
    (bcount = bit_blocks r map + 1 → word = w0 ∧ wrapped = false) ∧ (bcount ≤ bit_blocks r map → word = 0) ∧
    ∀ b, 0 ≤ b < map_bits r map →
      (let pos := block * BITS_PER_BLOCK + word * BITCHUNK_BITS in
       let start := b0 * BITS_PER_BLOCK + w0 * BITCHUNK_BITS in
       if wrapped then start ≤ b ∨ b < pos else start ≤ b < pos) → map_bit s0 r map b = true
}.

Definition search_pos (block word : Z) : Z := block * BITS_PER_BLOCK + word * BITCHUNK_BITS.
(** What the scan of one more block shows. *)
Definition passed_block s r map block word : Prop :=
  ∀ b, 0 ≤ b < map_bits r map → search_pos block word ≤ b < search_pos (block + 1) 0 → map_bit s r map b = true.
Ltac map_arith := unfold search_pos, BITS_PER_BLOCK, BITCHUNK_BITS, BITMAP_CHUNKS in *; (lia || (Z.to_euclidean_division_equations; lia)).

Lemma searching_next s0 r map b0 w0 block word bcount s s' : map_ok r map → 0 ≤ w0 < BITMAP_CHUNKS → 0 ≤ b0 < bit_blocks r map →
  searching s0 r map b0 w0 block word bcount s → passed_block s0 r map block word → 1 < bcount →
  ready s' → outside s' = outside s0 → same_view s0 s' →
  searching s0 r map b0 w0 (if bit_blocks r map <=? block + 1 then 0 else block + 1) 0 (bcount - 1) s'.
Proof.
  intros Hmap Hw0 Hb0 [_ _ _ Hc Hbl Hw (wr & Epos & Hfirst & Hlater & Hpass)] Hnew Hlt Hrd Hout Hv.
  pose proof (mo_bits _ _ Hmap) as Hbits.
  constructor; [done|done|done|lia|destruct (Z.leb_spec (bit_blocks r map) (block + 1)); lia|done|].
  exists (wr || (bit_blocks r map <=? block + 1)). unfold passed_block in Hnew. cbv zeta in Hpass |- *. fold (search_pos b0 w0) (search_pos block word) in *.
  destruct (Z.leb_spec (bit_blocks r map) (block + 1)) as [Hlast|Hmore]; destruct wr; cbn [orb]; [lia| | |];
    (split_and!; [lia|lia|lia|]); intros b Hb Hp.
  - destruct (decide (b < search_pos block word)); [apply Hpass; map_arith|]. apply Hnew; [done|].
    assert (bit_blocks r map * BITS_PER_BLOCK ≤ (block + 1) * BITS_PER_BLOCK) by map_arith. map_arith.
  - destruct (decide (search_pos b0 w0 ≤ b ∨ b < search_pos block word)); [by apply Hpass|]. apply Hnew; [done|map_arith].
  - destruct (decide (b < search_pos block word)); [apply Hpass; map_arith|]. apply Hnew; [done|map_arith].
Qed.
(** After the last block, all of the map is set. *)
Lemma searching_done s0 r map b0 w0 block word bcount s : map_ok r map → 0 ≤ w0 < BITMAP_CHUNKS → 0 ≤ b0 < bit_blocks r map →
  searching s0 r map b0 w0 block word bcount s → passed_block s0 r map block word → bcount ≤ 1 →
  ∀ b, 0 ≤ b < map_bits r map → map_bit s0 r map b = true.
Proof.
  intros Hmap Hw0 Hb0 [_ _ _ Hc Hbl Hw (wr & Epos & Hfirst & Hlater & Hpass)] Hnew Hlt b Hb. pose proof (mo_bits _ _ Hmap) as Hbits.
  cbv zeta in Hpass. fold (search_pos b0 w0) (search_pos block word) in *. destruct wr; [|lia]. assert (block = b0) as -> by lia.
  destruct (decide (search_pos b0 w0 ≤ b ∨ b < search_pos b0 word)); [by apply Hpass|]. apply Hnew; [done|map_arith].
Qed.
(** A clear bit found in the block at hand is the first one. *)
Lemma searching_found s0 r map b0 w0 block word bcount s b : map_ok r map → 0 ≤ w0 < BITMAP_CHUNKS →
  searching s0 r map b0 w0 block word bcount s → search_pos block word ≤ b < map_bits r map → map_bit s0 r map b = false →
  (∀ b', search_pos block word ≤ b' < b → map_bit s0 r map b' = true) →
  ∀ b', 0 ≤ b' < map_bits r map → before (search_pos b0 w0) b b' → map_bit s0 r map b' = true.
Proof.
  intros Hmap Hw0 [_ _ _ Hc Hbl Hw (wr & Epos & Hfirst & Hlater & Hpass)] Hb Hclear Hprev b' Hb' Hbef.
  cbv zeta in Hpass. fold (search_pos b0 w0) (search_pos block word) in *. unfold before in Hbef.
  assert (Hb0 : 0 ≤ b < map_bits r map) by map_arith.
  assert (Hnot : wr = true → b < search_pos b0 w0).
  { intros ->. destruct (decide (b < search_pos b0 w0)); [done|]. rewrite (Hpass b) in Hclear by lia. done. }
  assert (Hpos : wr = false → search_pos b0 w0 ≤ search_pos block word).
  { intros ->. destruct (decide (bcount = bit_blocks r map + 1)) as [E|]; [destruct (Hfirst E) as [-> _]|rewrite Hlater in * by lia]; map_arith. }
  destruct (decide (search_pos block word ≤ b' < b)); [by apply Hprev|]. apply Hpass; [done|].
  destruct wr; [specialize (Hnot eq_refl)|specialize (Hpos eq_refl)]; destruct (Z.leb_spec (search_pos b0 w0) b); lia.
Qed.

Lemma alloc_bit_ok r sp map origin s : in_tab NR_SUPERS sp = true → super_of s sp = r → s_rd_only r = false →
  ready s → map_ok r map → 0 ≤ origin →
  wp (alloc_bit sp map origin) (alloc_outcome s r map (search_start r map origin)) s.
Proof.
  intros Hsp Hr Hrd Hready Hmap Horig. unfold alloc_bit. fs_step. fs_step. cbn beta. unfold id. rewrite Hr, Hrd.
  unfold search_start. set (o := if map_bits r map <=? origin then 0 else origin).
  pose proof (mo_bits _ _ Hmap) as Hbits. pose proof (mo_blocks _ _ Hmap) as Hblocks.
  assert (Ho : 0 ≤ o < map_bits r map) by (unfold o; destruct (Z.leb_spec (map_bits r map) origin); lia). clearbody o.
  set (b0 := o / BITS_PER_BLOCK). set (w0 := o mod BITS_PER_BLOCK / BITCHUNK_BITS).
  assert (Hb0 : 0 ≤ b0 < bit_blocks r map) by (unfold b0; map_arith).
  assert (Hw0 : 0 ≤ w0 < BITMAP_CHUNKS) by (unfold w0; map_arith).
  assert (Estart : o / BITCHUNK_BITS * BITCHUNK_BITS = search_pos b0 w0) by (unfold b0, w0; map_arith). rewrite Estart.
  apply (wp_loop (λ '(block, word, bcount) s', searching s r map b0 w0 block word bcount s') (λ '(_, _, bcount) _, Z.to_nat (bcount - 1))).
  2: { unfold BITMAP_CHUNKS in *. rewrite !u16_id by lia. constructor; [done|done|done|lia|lia|unfold BITMAP_CHUNKS; lia|].
       exists false. split_and!; [lia|done|lia|]. intros b Hb. cbn. lia. }
  2: { rewrite u16_id by lia. lia. }
  intros [[block word] bcount] s1 Hse. pose proof Hse as [Hrd1 Hout Hv Hc Hbl Hw _].
  destruct (mo_disk _ _ Hmap block Hbl) as [Hrange Hok]. rewrite u32_id by done.
  fs_step. eapply wp_mono; [by apply get_law|]. intros bp s2 (Hl & Hout2 & Hv2).
  assert (Hv02 : same_view s s2) by (intros d k Hdk; rewrite Hv2 by done; by apply Hv).
  assert (Hsame : ∀ b, 0 ≤ b < map_bits r map → map_bit s2 r map b = map_bit s r map b) by (intros; by apply map_bit_same).
  fs_step. apply scan_block_ok; [done|done|lia|done|..].
  - intros x Hx Hend. match goal with |- wp ?e _ _ => assert (E : e = (put_block bp MAP_BLOCK;;
        let block := u16 (block + 1) in
        let block := if bit_blocks r map <=? block then 0 else block in
        let bcount := u16 (bcount - 1) in
        if 0 <? bcount then mret (inl (block, 0, bcount)) else mret (inr NO_BIT))) by (by destruct x as [[?|]|]); rewrite E; clear E end.
    fs_step. eapply wp_mono; [by eapply put_law|]. intros [] s3 (Hrd3 & Hout3 & Hv3). rewrite (u16_id (block + 1)), (u16_id (bcount - 1)) by lia.
    assert (Hv03 : same_view s s3) by (intros d k Hdk; rewrite Hv3 by done; by apply Hv02).
    assert (Hnew : passed_block s r map block word) by (intros b Hb Hpos; rewrite <- Hsame by done; apply Hend; [done|map_arith]).
    cbv zeta. destruct (Z.ltb_spec 0 (bcount - 1)) as [Hlt|Hge]; fs_step.
    + split; [|lia]. eapply searching_next; (done || congruence || lia).
    + split; [done|]. split; [congruence|]. left. split; [done|]. split; [|done]. eapply (searching_done s r map b0 w0 block word bcount s1); (done || lia).
  - intros b s3 Hb Hl3 Hout3 Hal Hprev. fs_step. eapply wp_mono; [by eapply put_law|]. intros [] s4 (Hrd4 & Hout4 & Hv4).
    assert (Hb0' : 0 ≤ b < map_bits r map) by map_arith.
    fs_step. split; [done|]. split; [congruence|]. right. split; [done|].
    destruct Hal as [Hclear Hch]. split; [split; [by rewrite <- Hsame|by apply (changed_same s s2 s3)]|].
    apply (searching_found s r map b0 w0 block word bcount s1); try done; [by rewrite <- Hsame|].
    intros b' Hb'. rewrite <- Hsame; [by apply Hprev|map_arith].
Qed.

(** ** Freeing a bit *)
Lemma free_bit_ok r sp map b (Q : unit → fsst → Prop) s : in_tab NR_SUPERS sp = true → super_of s sp = r → s_rd_only r = false →
  ready s → map_ok r map → 0 ≤ b < map_bits r map → map_bit s r map b = true →
  (∀ s', ready s' → outside s' = outside s → changed s s' r map b false → Q tt s') → wp (free_bit sp map b) Q s.
Proof.
  intros Hsp Hr Hrd Hready Hmap Hb Hset HQ. unfold free_bit. fs_step. fs_step. cbn beta. unfold id. rewrite Hr, Hrd.
  pose proof (mo_bits _ _ Hmap) as Hbits. pose proof (mo_blocks _ _ Hmap) as Hblocks.
  destruct (bit_split b) as (k & w & i & Eb & Ek & Hk & Hw & Hi); [lia|].
  assert (Hkb : k < bit_blocks r map) by map_arith. destruct (mo_disk _ _ Hmap k) as [Hrange Hok]; [lia|].
  assert (Ek' : u16 (b / BITS_PER_BLOCK) = k) by (rewrite <- Ek; apply u16_id; map_arith).
  assert (Ew : u16 (b mod BITS_PER_BLOCK / BITCHUNK_BITS) = w) by (rewrite u16_id; map_arith).
  assert (Ei : u16 (b mod BITCHUNK_BITS) = i) by (rewrite u16_id; map_arith).
  assert (Em : u16 (Z.shiftl 1 i) = 2 ^ i).
  { rewrite Z.shiftl_1_l. apply u16_id. split; [lia|]. apply Z.pow_lt_mono_r; lia. }
  rewrite Ek', Ew, Ei, Em, u32_id by done. clear Ek' Ew Ei Em.
  fs_step. eapply wp_mono; [by apply get_law|]. intros bp s1 (Hl & Ho1 & Hv1). pose proof (lent_buf _ _ _ _ Hl) as Hbp.
  destruct (lent_data _ _ _ _ Hl) as [Hv Hd]. fs_step. fs_step. set (d := b_data (buf_of s1 bp)) in *. unfold block_bytes in Hv. fold d in Hv.
  rewrite word_norm by done. rewrite has_bit by lia.
  assert (Hv0 : view s (s_dev r) (map_start r map + k) = load d 0 BLOCK_SIZE) by (by rewrite Hv, Hv1).
  assert (Hbit : Z.testbit (conv2 (s_native r) (be16 d (2 * w))) i = true).
  { rewrite Eb in Hset. by rewrite (map_bit_word s r map d) in Hset. }
  rewrite Hbit. cbn [negb]. fs_step. apply wp_bset_fill; [done|]. fold d. eapply wp_mono; [apply (write_law _ _ _ _ _ Hl); by apply set16_bytes|].
  intros [] s2 (Hl2 & Ho2 & Hv2). eapply wp_mono; [by eapply put_law|]. intros [] s3 (Hrd3 & Ho3 & Hv3).
  apply HQ; [done|congruence|]. apply (changed_same s s s2); [done|done|done|]. rewrite Eb.
  apply (changed_intro s s2 r map d (clear_bit (s_native r) w i d)); try done; [by apply clear_bit_spec|].
  intros d' b' Hdb. rewrite Hv2 by done. by case_decide; [|apply Hv1].
Qed.
End map.
