(* ===== verification/Fprops2.v ===== *)
(** * What the tables of the file system promise

    Descriptors, record locks, pipes, inodes on the disk, path names and bit
    maps: the contracts of the operations of FS outside the block cache. *)

From S2P Require Import Prelude Fstate Fdev Cache Super Inode Filedes Rdwr Path Fcalls Fopen Fmisc Fmain Fwp Cachewf Cachep Cachesem Fworld Fprops Fblock Lockp Fdp Icopyp Pipep Bitmapp.

(** [get_fd] looks at nothing but the descriptors of the caller from
    [start] on and the use counts of the filp table.  It fails with [EMFILE]
    exactly when no descriptor is free, and with [ENFILE] when one is but no
    filp entry is; else it returns the first free descriptor and the first
    free entry, which is initialised, and no other entry changes. *)
Theorem get_fd_spec start bits s : in_tab NR_PROCS (fp s) = true → 0 ≤ start →
  ∃ r s', get_fd start bits s = Ret r s' ∧ fd_outcome start bits s r s'.
Proof.
  intros Hp _. destruct (wp_inv _ _ _ (get_fd_ok start bits (fd_outcome start bits s) s Hp (λ _ _ Ho, Ho))) as (r & s' & E & Ho).
  by exists r, s'.
Qed.
Definition fd_state : fsst :=
  fs_zero <| fp := 3 |> <| fproc_of := <[3 := zero_fproc <| fp_filp := <[0 := 2]> (λ _, NIL) |>]> (λ _, zero_fproc) |>
    <| filp_of := <[0 := zero_filp <| filp_count := 1 |>]> (λ _, zero_filp) |>.
Lemma get_fd_spec_witness : ∃ r s', get_fd 0 R_BIT fd_state = Ret r s' ∧ fd_outcome 0 R_BIT fd_state r s' ∧ r = inr (1, 1).
Proof.
  destruct (@get_fd_spec 0 R_BIT fd_state eq_refl ltac:(done)) as (r & s' & E & Ho). exists r, s'.
  split; [exact E|]. split; [exact Ho|]. vm_compute in E. by injection E as <- _.
Defined.

(** Executable forms of the invariants of the filp table. *)
Lemma counted_check s : forallb (λ f, filp_count (filp_of s f) =? users (fproc_of s) f) (seqZ 0 NR_FILPS) = true → counted s.
Proof.
  rewrite forallb_forall. intros Hf f Hr. apply Z.eqb_eq, Hf, list_elem_of_In, elem_of_seqZ. lia.
Qed.
Definition desc_ok (f : Z) : bool := (f =? NIL) || in_tab NR_FILPS f.
Lemma filps_check s :
  forallb (λ p, forallb (λ d, desc_ok (fp_filp (fproc_of s p) d)) (seqZ 0 OPEN_MAX)) all_fprocs = true → filps_ok s.
Proof.
  rewrite forallb_forall. intros Hf p d Hp Hd. specialize (Hf p). rewrite forallb_forall in Hf.
  specialize (Hf ltac:(apply list_elem_of_In, elem_of_seqZ; lia) d ltac:(apply list_elem_of_In, elem_of_seqZ; lia)).
  apply orb_true_iff in Hf as [Hf|Hf]; [left; by apply Z.eqb_eq|right; by apply in_tab_spec].
Qed.

(** [do_fork] keeps the use counts of the filp table exact.  If every
    entry counts the descriptors of all processes that refer to it, and the
    child's descriptors are free, then afterwards the child is a copy of its
    parent with its own process id, not a session leader; every entry counts
    its descriptors again; the root and working directories of the parent have
    one more user each; and no other process changes. *)
Theorem do_fork_counts s : let parent := m1_i1 (fs_m s) in let child := m1_i2 (fs_m s) in
  fs_who s = MM_PROC_NR → 0 ≤ parent < NR_PROCS → 0 ≤ child < NR_PROCS → parent ≠ child → counted s → filps_ok s →
  (∀ d, 0 ≤ d < OPEN_MAX → fp_filp (fproc_of s child) d = NIL) →
  0 ≤ fp_rootdir (fproc_of s parent) < NR_INODES → 0 ≤ fp_workdir (fproc_of s parent) < NR_INODES →
  ∃ s', do_fork s = Ret OK s' ∧ forked parent child (m1_i3 (fs_m s)) s s'.
Proof.
  intros parent child Hw Hp Hc Hne Hcnt Hok Hfree Hr Hwd.
  destruct (wp_inv _ _ _ (do_fork_ok (λ r s', r = OK ∧ forked parent child (m1_i3 (fs_m s)) s s') s Hw Hp Hc Hne Hcnt Hok Hfree Hr Hwd
    ltac:(done))) as (r & s' & E & -> & Hf).
  by exists s'.
Qed.
Definition fork_state : fsst :=
  fs_zero <| fs_m := put16 0 3 (put16 1 4 (put16 2 77 zero_message)) |> <| fs_who := MM_PROC_NR |>
    <| fproc_of := <[3 := zero_fproc <| fp_rootdir := 0 |> <| fp_workdir := 1 |> <| fp_filp := <[1 := 2]> (<[5 := 2]> (λ _, NIL)) |>]> (λ _, zero_fproc) |>
    <| filp_of := <[2 := zero_filp <| filp_count := 2 |>]> (λ _, zero_filp) |>.
Lemma do_fork_counts_witness : ∃ s', do_fork fork_state = Ret OK s' ∧ forked 3 4 77 fork_state s'.
Proof.
  apply (do_fork_counts fork_state); try done.
  - apply counted_check. vm_compute. reflexivity.
  - apply filps_check. vm_compute. reflexivity.
Defined.

(** An inode read back from the disk is the inode that was written, in both
    formats and on machines of either byte order: when the fields fit the
    format, [new_icopy] restores all of them and [old_icopy] all but the access
    and change times, which it does not store; and the bytes of the other
    inodes of the block are untouched. *)
Theorem icopy_round_trip norm r r0 o d : fits2 r →
  (let r' := new_icopy_read norm (new_icopy_write norm r o d) o r0 in
     same_inode V2_NR_TZONES r r' ∧ i_atime r' = i_atime r ∧ i_ctime r' = i_ctime r ∧
     same_off o (o + V2_INODE_SIZE) d (new_icopy_write norm r o d)) ∧
  (fits1 r → same_inode V1_NR_TZONES r (old_icopy_read norm (old_icopy_write norm r o d) o r0) ∧
     same_off o (o + V1_INODE_SIZE) d (old_icopy_write norm r o d)).
Proof. intros Hf. split; [by apply new_icopy_ok|]. intros Hf1. by apply old_icopy_ok. Qed.
Definition big_inode : inode :=
  zero_inode <| i_mode := 0x81ED |> <| i_uid := -2 |> <| i_gid := -128 |> <| i_nlinks := 127 |> <| i_size := 2 ^ 32 - 1 |>
    <| i_mtime := - 2 ^ 31 |> <| i_zone := λ k, 65535 - k |>.
Lemma icopy_round_trip_witness :
  (let r' := new_icopy_read false (new_icopy_write false big_inode 64 (λ _, 9)) 64 zero_inode in
     same_inode V2_NR_TZONES big_inode r' ∧ i_atime r' = i_atime big_inode ∧ i_ctime r' = i_ctime big_inode ∧
     same_off 64 (64 + V2_INODE_SIZE) (λ _, 9) (new_icopy_write false big_inode 64 (λ _, 9))) ∧
  (fits1 big_inode → same_inode V1_NR_TZONES big_inode (old_icopy_read false (old_icopy_write false big_inode 64 (λ _, 9)) 64 zero_inode) ∧
     same_off 64 (64 + V1_INODE_SIZE) (λ _, 9) (old_icopy_write false big_inode 64 (λ _, 9))) ∧ fits1 big_inode.
Proof.
  assert (Hf : fits2 big_inode) by (constructor; cbn; unfold V2_NR_TZONES; lia).
  destruct (icopy_round_trip false big_inode zero_inode 64 (λ _, 9) Hf) as [H2 H1]. split; [exact H2|]. split; [exact H1|].
  constructor; [exact Hf|]. cbn. unfold V1_NR_TZONES. lia.
Defined.

(** ** Record locks *)
Lemma lock_wf_zero s : (∀ i, used (lock_of s i) = false) → nr_locks s = 0 → lock_wf s.
Proof.
  intros Hu Hn. constructor; [intros i j _ _ _; by rewrite Hu|intros i _; by rewrite Hu|].
  rewrite Hn. unfold count_used. rewrite (List.filter_ext_in _ (λ _, false)); [by rewrite List.filter_false|intros i _; apply Hu].
Qed.
(** Process 3, with process id 5, asks; process id 7 has a lock on file 3. *)
Definition lock_state : fsst :=
  fs_zero <| fp := 3 |> <| fproc_of := <[3 := zero_fproc <| fp_pid := 5 |>]> (λ _, zero_fproc) |>
    <| lock_of := <[0 := FileLock F_WRLCK 7 3 10 19]> (lock_of fs_zero) |> <| nr_locks := 1 |>.
Lemma lock_state_wf : lock_wf lock_state.
Proof.
  apply (lock_wf_set fs_zero _ 0 (FileLock F_WRLCK 7 3 10 19)); [by apply lock_wf_zero|by unfold is_lock|done|done|].
  intros _. cbn. unfold MAX_FILE_POS. split_and!; [lia|lia|lia|]. by intros j _ _.
Qed.

(** C25: no two processes hold conflicting locks.  A request for a lock keeps the
    table well-formed (no two locks of different processes overlap unless both
    are shared, and the count is right), and it is granted exactly when no lock
    of the table conflicts with it and an entry is free, which it takes; it
    fails with [ENOLCK] when the table is full; when a lock conflicts, [F_SETLK]
    fails with [EAGAIN] and [F_SETLKW] suspends the caller, and neither changes
    the table. *)
Theorem lock_table_safe `{World} req fl ino first last s : lock_wf s → in_tab NR_PROCS (fp s) = true → req ≠ F_GETLK →
  l_type fl = F_RDLCK ∨ l_type fl = F_WRLCK → 0 ≤ first ≤ last → last ≤ MAX_FILE_POS →
  ∃ r s', lock_table req fl ino first last s = Ret r s' ∧ lock_wf s' ∧
    set_outcome req (l_type fl) (fp_pid (fproc_of s (fp s))) ino first last s r s'.
Proof.
  intros W Hp Hr Ht Hfl Hmax.
  destruct (wp_inv _ _ _ (lock_table_set req fl ino first last (λ r s', lock_wf s' ∧
    set_outcome req (l_type fl) (fp_pid (fproc_of s (fp s))) ino first last s r s') s W Hp Hr Ht Hfl Hmax (λ _ _ Ho W', conj W' Ho)))
    as (r & s' & E & W' & Ho).
  by exists r, s'.
Qed.
Lemma lock_table_safe_witness : ∃ r s', lock_table (H := demo) F_SETLK (Flock F_RDLCK 0 15 1 0) 3 15 15 lock_state = Ret r s' ∧
  lock_wf s' ∧ set_outcome F_SETLK F_RDLCK 5 3 15 15 lock_state r s' ∧ r = EAGAIN.
Proof.
  destruct (@lock_table_safe demo F_SETLK (Flock F_RDLCK 0 15 1 0) 3 15 15 lock_state lock_state_wf eq_refl ltac:(done) ltac:(by left) ltac:(lia)
    ltac:(unfold MAX_FILE_POS; lia)) as (r & s' & E & W & Ho).
  exists r, s'. split; [exact E|]. split; [exact W|]. split; [exact Ho|]. vm_compute in E. by injection E as <- _.
Defined.

(** C35: after an unlock no process at all holds a lock on a byte of the region
    (also the locks of others are released: the owner is not looked at), and on
    the other bytes everyone holds exactly what they held before; a lock whose
    middle is released is split in two.  The only error is [ENOLCK], when the
    split needs an entry and the table is full.  The table stays well-formed. *)
Theorem unlock_releases `{World} req fl ino first last s : lock_wf s → in_tab NR_PROCS (fp s) = true → req ≠ F_GETLK →
  l_type fl = F_UNLCK → 0 ≤ first ≤ last → last ≤ MAX_FILE_POS →
  ∃ r s', lock_table req fl ino first last s = Ret r s' ∧ lock_wf s' ∧
    ((r = OK ∧ unlocked ino first last s s') ∨ (r = ENOLCK ∧ nr_locks s' = NR_LOCKS)).
Proof.
  intros W Hp Hr Ht Hfl Hmax.
  destruct (wp_inv _ _ _ (lock_table_unlock req fl ino first last (λ r s', lock_wf s' ∧
    ((r = OK ∧ unlocked ino first last s s') ∨ (r = ENOLCK ∧ nr_locks s' = NR_LOCKS))) s W Hp Hr Ht Hfl Hmax
    (λ _ Hu W', conj W' (or_introl (conj eq_refl Hu))) (λ _ W' Hn, conj W' (or_intror (conj eq_refl Hn))))) as (r & s' & E & W' & Ho).
  by exists r, s'.
Qed.
Lemma unlock_releases_witness : ∃ s', lock_table (H := demo) F_SETLK (Flock F_UNLCK 0 12 3 0) 3 12 14 lock_state = Ret OK s' ∧
  lock_wf s' ∧ unlocked 3 12 14 lock_state s' ∧ nr_locks s' = 2.
Proof.
  destruct (@unlock_releases demo F_SETLK (Flock F_UNLCK 0 12 3 0) 3 12 14 lock_state lock_state_wf eq_refl ltac:(done) eq_refl ltac:(lia)
    ltac:(unfold MAX_FILE_POS; lia)) as (r & s' & E & W & Ho).
  assert (En : nr_locks s' = 2) by (vm_compute in E; by injection E as _ <-).
  exists s'. destruct Ho as [[-> Hu]|[_ Hn]]; [|by rewrite En in Hn]. split; [exact E|]. split; [exact W|]. by split.
Defined.

(** ** Pipes *)
Definition pipe_state : fsst :=
  fs_zero <| fp := 3 |> <| filp_of := <[0 := zero_filp <| filp_count := 1 |> <| filp_ino := 2 |> <| filp_mode := R_BIT |>]> (λ _, zero_filp) |>.

(** C36: a pipe never holds more than its 7168 bytes, and a write of no more
    than that is not split.  A write to a pipe that nobody reads fails with
    [EPIPE] (after the signal).  Otherwise it goes ahead when all of it fits, or
    when it is larger than a pipe and there is room, and then it is cut to the
    room; if not, a caller that does not want to wait gets [EAGAIN] and any
    other is suspended.  A write of exactly 7168 bytes suspends even the caller
    that does not want to wait. *)
Theorem pipe_write_bounds `{World} rip oflags bytes position s : susp_ok s → in_tab NR_PROCS (fp s) = true →
  0 < bytes < 2 ^ 15 → 0 ≤ position ≤ PIPE_SIZE →
  ∃ r canwrite s', pipe_check rip WRITING oflags bytes position 0 s = Ret (r, canwrite) s' ∧
    pipe_write_ok rip oflags bytes position s r canwrite s' ∧
    (bytes = PIPE_SIZE → 0 < position → has oflags O_NONBLOCK = true → open_for s rip R_BIT → r = 0 ∧ pipe_wait s s').
Proof.
  intros Hok Hp Hb Hpos.
  destruct (wp_inv _ _ _ (pipe_write_spec_ok rip oflags bytes position (λ x s', pipe_write_ok rip oflags bytes position s x.1 x.2 s') s Hok Hp Hb Hpos
    ltac:(done))) as ([r k] & s' & E & Ho). cbn in Ho.
  exists r, k, s'. split; [done|]. split; [done|]. intros Hbp Hpos0 _ Hopen. destruct (pw_result _ _ _ _ _ _ _ _ Ho) as [->|[->|[->| ->]]].
  - exfalso. destruct (pw_fits _ _ _ _ _ _ _ _ Ho eq_refl) as (_ & _ & H1 & H2). destruct (decide (k = 0)); lia.
  - split; [done|]. by apply Ho.
  - exfalso. by destruct (pw_again _ _ _ _ _ _ _ _ Ho eq_refl) as (_ & _ & _ & Hne & _).
  - exfalso. by apply (pw_broken _ _ _ _ _ _ _ _ Ho).
Qed.
Lemma pipe_write_bounds_witness : ∃ r canwrite s', pipe_check (H := demo) 2 WRITING O_NONBLOCK PIPE_SIZE 5 0 pipe_state = Ret (r, canwrite) s' ∧
  pipe_write_ok 2 O_NONBLOCK PIPE_SIZE 5 pipe_state r canwrite s' ∧
  (PIPE_SIZE = PIPE_SIZE → 0 < 5 → has O_NONBLOCK O_NONBLOCK = true → open_for pipe_state 2 R_BIT → r = 0 ∧ pipe_wait pipe_state s').
Proof.
  apply (@pipe_write_bounds demo 2 O_NONBLOCK PIPE_SIZE 5 pipe_state); [|done|done|done].
  intros p _. unfold waits_ok. cbn. done.
Defined.

(** ** Path names *)
Lemma loop_stuck {S A R} (body : A → M S (A + R)) a s n : body a s = Ret (inl a) s → loop n body a s = NoFuel.
Proof. intros E. induction n as [|n IH]; [done|]. cbn [loop]. etrans; [by apply bind_eq|exact IH]. Qed.
Lemma loop_next {S A R} (body : A → M S (A + R)) a a' s s' n : body a s = Ret (inl a') s' → loop (Datatypes.S n) body a s = loop n body a' s'.
Proof. intros E. cbn [loop]. by etrans; [by apply bind_eq|]. Qed.
Lemma bind_stop {S A B} (m : M S A) (k : A → M S B) s : m s = NoFuel → (m ≫= k) s = NoFuel.
Proof. unfold mbind, M_bind. by intros ->. Qed.

Section hang.
Context `{World} (s : fsst) (a b x : Z) (l : list Z).
Hypotheses (H0 : user_path s 0 = a) (H1 : user_path s 1 = x) (H2 : user_path s 2 = SLASH) (H3 : user_path s 3 = a).
Hypotheses (Ha : a ≠ 0) (Hb : b ≠ 0) (Hx : x ≠ 0) (Has : a ≠ SLASH) (Hxs : x ≠ SLASH) (Hxb : x ≠ b) (Hab : a ≠ b).

Ltac path_step := etrans; [apply bind_eq; first [reflexivity | eassumption]|]; cbv beta;
  change (0 + 1) with 1; change (1 + 1) with 2; change (2 + 1) with 3;
  change (nth (Z.to_nat 0) (a :: b :: l) 0) with a; change (nth (Z.to_nat 1) (a :: b :: l) 0) with b; rewrite ?H0, ?H1, ?H2, ?H3;
  rewrite ?(proj2 (Z.eqb_neq _ _) Ha), ?(proj2 (Z.eqb_neq _ _) Hb), ?(proj2 (Z.eqb_neq _ _) Hx), ?(proj2 (Z.eqb_neq _ _) Has),
    ?(proj2 (Z.eqb_neq _ _) Hxs), ?(proj2 (Z.eqb_neq _ _) Hxb), ?(proj2 (Z.eqb_neq _ _) Hab), ?Z.eqb_refl; cbv iota.

Lemma hang_skip : skip_component 0 s = Ret 2 s.
Proof.
  unfold skip_component. change (Z.to_nat (PATH_MAX + 2)) with (S (S (Z.to_nat PATH_MAX))).
  etrans; [apply (loop_next _ _ 1 _ s); do 2 path_step; reflexivity|]. cbn [loop].
  etrans; [apply (bind_eq _ _ _ (inr 2) s); do 2 path_step; reflexivity|]. reflexivity.
Qed.
Lemma hang_match : match_rest (a :: b :: l) 0 0 0 s = NoFuel.
Proof.
  unfold match_rest. destruct patience as [|m]; [done|]. pose proof hang_skip as Hskip.
  etrans; [apply (loop_next _ _ (2, 0) _ s); do 5 path_step; reflexivity|]. apply loop_stuck. do 5 path_step. reflexivity.
Qed.
Lemma hang_slashes : skip_slashes 0 s = Ret 0 s ∧ skip_name_slashes (a :: b :: l) 0 s = Ret 0 s.
Proof.
  split.
  - unfold skip_slashes. match goal with |- loop (Z.to_nat ?n) _ _ _ = _ => change (Z.to_nat n) with (S (Z.to_nat (n - 1))) end. cbn [loop].
    etrans; [apply (bind_eq _ _ _ (inr 0) s); do 1 path_step; reflexivity|]. reflexivity.
  - unfold skip_name_slashes. change (Z.to_nat (NAME_MAX + 1)) with (S (Z.to_nat NAME_MAX)). cbn [loop].
    etrans; [apply (bind_eq _ _ _ (inr 0) s); do 1 path_step; reflexivity|]. reflexivity.
Qed.
Lemma hang_find : find_string (a :: b :: l) 0 s = NoFuel.
Proof.
  unfold find_string. destruct patience as [|m]; [done|]. cbn [loop]. apply bind_stop. destruct hang_slashes as [Hs1 Hs2].
  do 5 path_step. apply bind_stop, hang_match.
Qed.
End hang.

(** The search for the name of a symbolic link in the path need not end.
    When the path starts with a name that begins like the link's but differs,
    and the next one begins with the same character ("ax/ab", for a link "ab"),
    the search falls back to the start of the name it left and runs for ever,
    however long it is given. *)
Theorem slink_search_hangs `{World} s a b x l : user_path s 0 = a → user_path s 1 = x → user_path s 2 = SLASH → user_path s 3 = a →
  a ≠ 0 → b ≠ 0 → x ≠ 0 → a ≠ SLASH → x ≠ SLASH → x ≠ b → a ≠ b → find_string (a :: b :: l) 0 s = NoFuel.
Proof. apply hang_find. Qed.
Definition path_state : fsst := fs_zero <| user_path := store 0 [97; 120; SLASH; 97; 98; 0] (λ _, 0) |>.
Lemma slink_search_hangs_witness : find_string (H := demo) [97; 98] 0 path_state = NoFuel.
Proof. by apply (@slink_search_hangs demo path_state 97 98 120 []). Defined.

(** ** Bit maps *)

(** C16: [alloc_bit], over any cache that keeps its promises ([BlockCache]).  It
    fails, with [NO_BIT], only when every bit of the map is set, and then nothing
    has changed.  Else it returns a bit of the map that was clear, the first one
    from the word of [origin] on, wrapping around at the end of the map; that bit
    is now set, and no other bit of the map nor any other block has changed. *)
Theorem alloc_bit_spec `{!World} `{!BlockCache} sp map origin s : in_tab NR_SUPERS sp = true → s_rd_only (super_of s sp) = false →
  ready s → map_ok (super_of s sp) map → 0 ≤ origin →
  ∃ b s', alloc_bit sp map origin s = Ret b s' ∧
    alloc_outcome s (super_of s sp) map (search_start (super_of s sp) map origin) b s'.
Proof.
  intros Hsp Hrd Hr Hm Ho.
  destruct (wp_inv _ _ _ (alloc_bit_ok (super_of s sp) sp map origin s Hsp eq_refl Hrd Hr Hm Ho)) as (b & s' & E & Hout).
  by exists b, s'.
Qed.

(** The floppy disk of Fworld.v, mounted. *)
Definition floppy_super : super_block :=
  (super_convert V2 true (super_of_bytes (floppy_block 1))) <| s_dev := FLOPPY_DEV |>.
#[local] Opaque pool_state.
Definition mounted_state : fsst := pool_state <| super_of := λ _, floppy_super |>.
#[export] Instance demo_cache : BlockCache := cache_blocks (H := demo) floppy (DiskStore0 := demo_store).
Lemma floppy_map map : map = IMAP ∨ map = ZMAP → map_ok floppy_super map.
Proof.
  intros Hm. assert (Eb : bit_blocks floppy_super map = 1) by (by destruct Hm as [-> | ->]).
  assert (Es : map_start floppy_super map = 2 ∨ map_start floppy_super map = 3) by (destruct Hm as [-> | ->]; [by left|by right]).
  assert (En : 0 < map_bits floppy_super map ≤ 100) by (by destruct Hm as [-> | ->]).
  constructor; rewrite Eb; [unfold BITS_PER_BLOCK, BITMAP_CHUNKS, BITCHUNK_BITS; lia|lia|].
  intros k Hk. split; [lia|]. change (s_dev floppy_super) with FLOPPY_DEV. apply floppy_disk. lia.
Qed.
Lemma ready_super s f : cache_ready floppy s → cache_ready floppy (s <| super_of := f |>).
Proof.
  intros [([(lru & hl & [[] [] W1 W2 W3 W4 W5]) Hd H2] & [] & Hn) Hr]. split; [|exact Hr]. split_and!; [|by constructor|done].
  constructor; [|done|done]. exists lru, hl. constructor; try done; by constructor.
Qed.
Lemma mounted_ready : ready mounted_state.
Proof.
  apply ready_super. destruct pool_facts as (Hi & Hc & Hn & Hcnt & _). split; [by split_and!|]. split.
  - exists 0. split; [by split|apply Hcnt].
  - intros i _. rewrite Hcnt. lia.
Qed.
Lemma mounted_super : super_of mounted_state 0 = floppy_super.
Proof. reflexivity. Qed.
Lemma alloc_bit_spec_witness : ∃ b s', alloc_bit (H := demo) 0 ZMAP 0 mounted_state = Ret b s' ∧
  alloc_outcome mounted_state floppy_super ZMAP (search_start floppy_super ZMAP 0) b s'.
Proof.
  pose proof (@alloc_bit_spec demo demo_cache 0 ZMAP 0 mounted_state eq_refl) as P. rewrite mounted_super in P.
  exact (P eq_refl mounted_ready (floppy_map ZMAP (or_intror eq_refl)) ltac:(done)).
Defined.

(** [free_bit] undoes [alloc_bit].  After a bit is allocated and freed again,
    over any cache that keeps its promises, every bit of the map and every other
    block is as before, and so is the state of FS outside the cache. *)
Theorem free_undoes_alloc `{!World} `{!BlockCache} sp map origin b s s1 : in_tab NR_SUPERS sp = true → s_rd_only (super_of s sp) = false →
  ready s → map_ok (super_of s sp) map → 0 ≤ origin → alloc_bit sp map origin s = Ret b s1 → b ≠ NO_BIT →
  ∃ s2, free_bit sp map b s1 = Ret tt s2 ∧ ready s2 ∧ outside s2 = outside s ∧
    (∀ b', 0 ≤ b' < bit_blocks (super_of s sp) map * BITS_PER_BLOCK →
       map_bit s2 (super_of s sp) map b' = map_bit s (super_of s sp) map b') ∧
    ∀ d k, blocks_ok d k → (d, k) ≠ (s_dev (super_of s sp), map_block (super_of s sp) map b) → view s2 d k = view s d k.
Proof.
  intros Hsp Hrd Hr Hm Ho Ea Hb.
  destruct (wp_inv _ _ _ (alloc_bit_ok (super_of s sp) sp map origin s Hsp eq_refl Hrd Hr Hm Ho)) as (b' & s' & E & Hr1 & Ho1 & Hout).
  rewrite Ea in E. injection E as <- <-. destruct Hout as [[? _]|(Hbr & [Hclear Hch] & _)]; [done|].
  assert (Esp : super_of s1 sp = super_of s sp) by (injection Ho1; intros; congruence).
  assert (Hset : map_bit s1 (super_of s sp) map b = true).
  { rewrite (ch_bits _ _ _ _ _ _ Hch) by (pose proof (mo_bits _ _ Hm); lia). by rewrite decide_True. }
  destruct (wp_inv _ _ _ (free_bit_ok (super_of s sp) sp map b (λ _ s2, ready s2 ∧ outside s2 = outside s1 ∧
    changed s1 s2 (super_of s sp) map b false) s1 Hsp Esp Hrd Hr1 Hm Hbr Hset (λ _ H1 H2 H3, conj H1 (conj H2 H3)))) as ([] & s2 & E2 & Hr2 & Ho2 & Hch2).
  exists s2. split; [done|]. split; [done|]. split; [congruence|]. split.
  - intros b' Hb'. rewrite (ch_bits _ _ _ _ _ _ Hch2), (ch_bits _ _ _ _ _ _ Hch) by done. case_decide; [by subst|done].
  - intros d k Hok Hne. by rewrite (ch_view _ _ _ _ _ _ Hch2), (ch_view _ _ _ _ _ _ Hch).
Qed.
(** The floppy disk has a free zone. *)
Lemma pool_log : fs_log pool_state = [].
Proof. vm_compute. reflexivity. Qed.
Lemma mounted_view b : view mounted_state FLOPPY_DEV b = floppy FLOPPY_DEV b.
Proof.
  change (view mounted_state FLOPPY_DEV b) with (contents floppy pool_state FLOPPY_DEV b).
  rewrite contents_unheld; [by rewrite pool_log|]. intros i Hi. by apply pool_unheld.
Qed.
Lemma floppy_bit : map_bit mounted_state floppy_super ZMAP 5 = false.
Proof.
  unfold map_bit. change (s_dev floppy_super) with FLOPPY_DEV. rewrite mounted_view. vm_compute. reflexivity.
Qed.
Lemma free_undoes_alloc_witness : ∃ b s1 s2, alloc_bit (H := demo) 0 ZMAP 0 mounted_state = Ret b s1 ∧ b ≠ NO_BIT ∧
  free_bit (H := demo) 0 ZMAP b s1 = Ret tt s2 ∧ ready s2 ∧ outside s2 = outside mounted_state.
Proof.
  pose proof (@alloc_bit_ok demo demo_cache floppy_super 0 ZMAP 0 mounted_state eq_refl mounted_super eq_refl mounted_ready (floppy_map ZMAP (or_intror eq_refl)) ltac:(done)) as P.
  destruct (wp_inv _ _ _ P) as (b & s1 & E & Ho). exists b, s1. assert (Hb : b ≠ NO_BIT).
  { clear E P. intros ->. destruct Ho as (_ & _ & [(_ & Hall & _)|(_ & [Hc Hch] & Hbefore)]).
    - specialize (Hall 5 ltac:(by split)). rewrite floppy_bit in Hall. discriminate Hall.
    - revert Hc. unfold map_bit. change (s_dev floppy_super) with FLOPPY_DEV. rewrite mounted_view. vm_compute. discriminate. }
  pose proof (@free_undoes_alloc demo demo_cache 0 ZMAP 0 b mounted_state s1 eq_refl) as F. rewrite mounted_super in F.
  destruct (F eq_refl mounted_ready (floppy_map ZMAP (or_intror eq_refl)) ltac:(done) E Hb) as (s2 & Ef & Hr & Hou & _).
  exists s2. split; [exact E|]. split; [exact Hb|]. split; [exact Ef|]. split; [exact Hr|exact Hou].
Defined.
