(* ===== verification/Driver.v ===== *)
(** * Block device drivers: the part that is the same for all devices

    kernel/driver.c: the main loop of a driver task, single and scattered
    requests, and the requests on partitions; and kernel/drvlib.c: the partition
    tables of a disk.  The part of a driver that depends on its device is the
    class [Device]; its other entry points are the class [Entry].  Memdrv.v has
    the instances of the memory task. *)

From S2P Require Import Prelude Sigset Proc Alloc Ksys.

(** ** Constants *)
Definition DEV_READ : Z := 3.
Definition DEV_WRITE : Z := 4.
Definition DEV_IOCTL : Z := 5.
Definition DEV_OPEN : Z := 6.
Definition DEV_CLOSE : Z := 7.
Definition SCATTERED_IO : Z := 8.
Definition OPTIONAL_IO : Z := 16.
Definition TASK_REPLY : Z := 68.
Definition SET_ALARM : Z := 1.
Definition EPERM : Z := -1.
Definition ENXIO : Z := -6.
Definition ENODEV : Z := -19.
Definition ENOTTY : Z := -25.
Definition NR_IOREQS : Z := 64.
Definition IOREQ_SIZE : Z := 12.
Definition PARTITION_SIZE : Z := 14.
Definition DIOCSETP : Z := 100 * 256 + 6.
Definition DIOCGETP : Z := 100 * 256 + 7.
Definition SECTOR_SIZE : Z := 512.
Definition SECTOR_SHIFT : Z := 9.
Definition NR_PARTITIONS : Z := 4.
Definition PART_TABLE_OFF : Z := 0x1BE.
Definition PART_ENTRY_SIZE : Z := 16.
Definition MINIX_PART : Z := 0x81.
Definition NO_PART : Z := 0x00.
Definition EXT_PART : Z := 0x05.
Definition DEV_PER_DRIVE : Z := 1 + NR_PARTITIONS.
Definition MINOR_hd1a : Z := 128.
Definition MINOR_fd0a : Z := 112.
Definition P_FLOPPY : Z := 0.
Definition P_PRIMARY : Z := 1.
Definition P_SUB : Z := 2.

(** ** Data *)

(** Base and size of a device in bytes. *)
Record device := Device_ { dv_base : Z; dv_size : Z }.
(** A request; [io_buf] is an address of the process that made it. *)
Record iorequest_s := Iorequest { io_position : Z; io_buf : Z; io_nbytes : Z; io_request : Z }.
#[export] Instance eta_iorequest : Eta iorequest_s := λ r, Iorequest r.(io_position) r.(io_buf) r.(io_nbytes) r.(io_request).
#[export] Instance upd_io_nbytes : Upd io_nbytes := ltac:(derive_upd).
Definition ioreq_bytes (r : iorequest_s) : list Z := w32 (io_position r) ++ w32 (io_buf r) ++ w16 (io_nbytes r) ++ w16 (io_request r).
Definition ioreq_of (l : list Z) (o : Z) : iorequest_s := Iorequest (s32 (r32 l o)) (r32 l (o + 4)) (s16 (r16 l (o + 8))) (r16 l (o + 10)).
(** [struct partition]: a partition and the geometry of its disk. *)
Record part := Part { p_base : Z; p_size : Z; cylinders : Z; heads : Z; sectors : Z }.
#[export] Instance eta_part : Eta part := λ r, Part r.(p_base) r.(p_size) r.(cylinders) r.(heads) r.(sectors).
#[export] Instance upd_cylinders : Upd cylinders := ltac:(derive_upd).
#[export] Instance upd_heads : Upd heads := ltac:(derive_upd).
#[export] Instance upd_sectors : Upd sectors := ltac:(derive_upd).
Definition part_bytes (p : part) : list Z := w32 (p_base p) ++ w32 (p_size p) ++ w16 (cylinders p) ++ w16 (heads p) ++ w16 (sectors p).
Definition part_of (l : list Z) : part := Part (r32 l 0) (r32 l 4) (r16 l 8) (r16 l 10) (r16 l 12).
(** [struct part_entry]; the fields of the BIOS geometry are one list. *)
Record part_entry := Part_entry { sysind : Z; lowsec : Z; size : Z; geom : list Z }.
Definition part_entry_of (l : list Z) (o : Z) : part_entry :=
  Part_entry (nth (Z.to_nat (o + 4)) l 0) (r32 l (o + 8)) (r32 l (o + 12)) (map (λ i, nth (Z.to_nat (o + i)) l 0) [0; 1; 2; 3; 5; 6; 7]).

(** The state of a driver task: the kernel, the devices, and what is private to
    the driver. *)
Record drvst (D : Type) := Drvst { ksys : sysst; devs : Z → device; priv : D }.
Arguments Drvst {D}. Arguments ksys {D}. Arguments devs {D}. Arguments priv {D}.
#[export] Instance eta_drvst {D} : Eta (drvst D) := λ r, Drvst r.(ksys) r.(devs) r.(priv).
#[export] Instance upd_ksys {D} : Upd (@ksys D) := ltac:(derive_upd).
#[export] Instance upd_devs {D} : Upd (@devs D) := ltac:(derive_upd).
#[export] Instance upd_priv {D} : Upd (@priv D) := ltac:(derive_upd).
Notation DM D := (M (drvst D)).

(** The fields of a request. *)
Definition DEVICE := m2_i1.
Definition PROC_NR := m2_i2.
Definition COUNT := m2_i3.
Definition POSITION := m2_l1.
Definition ADDRESS (m : message) : Z := u32 (m2_p1 m).

(** The part of [struct driver] that does the work: the number of devices, whose
    elements [dr_prepare] points to; [dr_schedule] gives its result and the
    request with the bytes left. *)
Class Device (D : Type) := {
  nr_devs : Z;
  dr_prepare : Z → DM D (option Z);
  dr_schedule : Z → iorequest_s → DM D (Z * iorequest_s);
  dr_finish : DM D Z;
  dr_cleanup : DM D unit;
  dr_geometry : part → DM D part
}.
Class Entry (D : Type) := {
  dr_open : message → DM D Z;
  dr_close : message → DM D Z;
  dr_ioctl : message → DM D Z
}.
(** The value of a variable that was not set, the number of the task, the address
    of the DMA buffer, and a bound for the chain of extended partitions. *)
Class Place := { junk : Z; self : Z; tmp_buf : Z; patience : nat }.

Definition kcall {D A} (m : SM A) : DM D A := λ s,
  match m (ksys s) with
  | Ret a k => Ret a (s <| ksys := k |>)
  | Panic w n => Panic w n
  | Fault => Fault
  | NoFuel => NoFuel
  end.

Section driver.
Context {D : Type} `{Device D} `{Place}.

Definition get_dev (i : Z) : DM D device := if (0 <=? i) && (i <? nr_devs) then gets (λ s, devs s i) else fault.
Definition set_dev (i : Z) (d : device) : DM D unit :=
  if (0 <=? i) && (i <? nr_devs) then modify (λ s, s <| devs := <[i := d]> (devs s) |>) else fault.

(** ** driver.c *)
Definition do_rdwt (m : message) : DM D Z :=
  if COUNT m <=? 0 then mret EINVAL else
  dv ← dr_prepare (DEVICE m);
  match dv with
  | None => mret ENXIO
  | Some _ =>
      '(r, ioreq) ← dr_schedule (PROC_NR m) (Iorequest (POSITION m) (ADDRESS m) (COUNT m) (m_type m));
      when (r =? OK) (dr_finish;; mret tt);;
      let r := io_nbytes ioreq in
      mret (if r <? 0 then r else COUNT m - r)
  end.

(** The requests of a vector one at a time, until one fails. *)
Fixpoint schedule_all (proc_nr r : Z) (l : list iorequest_s) : DM D (Z * list iorequest_s) :=
  match l with
  | [] => mret (r, [])
  | iop :: l =>
      '(r, iop) ← dr_schedule proc_nr iop;
      if r =? OK then '(r, l) ← schedule_all proc_nr r l; mret (r, iop :: l) else mret (r, iop :: l)
  end.
Definition iovec_of (l : list Z) (n : Z) : list iorequest_s := map (λ i, ioreq_of l (IOREQ_SIZE * i)) (seqZ 0 n).

(** The vector of a task is used in its place, which is the kernel's memory. *)
Definition do_vrdwt (m : message) : DM D Z :=
  let nr_requests := u16 (COUNT m) in
  let size := u16 (nr_requests * IOREQ_SIZE) in
  user_phys ← (if m_source m <? 0 then mret (ADDRESS m)
               else if NR_IOREQS <? nr_requests then panic "too big I/O vector by" (m_source m)
               else a ← kcall (umap_at (m_source m) D_SEG (ADDRESS m) size);
                    if a =? 0 then panic "bad I/O vector by" (m_source m) else mret a);
  l ← kcall (copy_in user_phys (nr_requests * IOREQ_SIZE));
  dv ← dr_prepare (DEVICE m);
  match dv with
  | None => mret ENXIO
  | Some _ =>
      '(r, iovec) ← schedule_all (PROC_NR m) junk (iovec_of l nr_requests);
      when (r =? OK) (dr_finish;; mret tt);;
      kcall (copy_out (concat (map ioreq_bytes iovec)) user_phys);;
      mret OK
  end.

Definition do_nop (m : message) : DM D Z :=
  mret (if m_type m =? DEV_OPEN then ENODEV else if m_type m =? DEV_CLOSE then OK
        else if m_type m =? DEV_IOCTL then ENOTTY else EIO).
Definition nop_finish : DM D Z := mret OK.
Definition nop_cleanup : DM D unit := mret tt.

(** The message to the clock task. *)
Definition clock_mess (ticks func : Z) : message := Message 0 SET_ALARM self 0 0 ticks func 0 0.

Definition do_diocntl (m : message) : DM D Z :=
  if negb (COUNT m =? DIOCSETP) && negb (COUNT m =? DIOCGETP) then mret ENOTTY else
  dv ← dr_prepare (DEVICE m);
  match dv with
  | None => mret ENXIO
  | Some dv =>
      user_phys ← kcall (numap (PROC_NR m) (ADDRESS m) PARTITION_SIZE);
      if user_phys =? 0 then mret EFAULT else
      if COUNT m =? DIOCSETP then
        l ← kcall (copy_in user_phys PARTITION_SIZE);
        set_dev dv (Device_ (p_base (part_of l)) (p_size (part_of l)));;
        mret OK
      else
        d ← get_dev dv;
        entry ← dr_geometry (Part (dv_base d) (dv_size d) junk junk junk);
        kcall (copy_out (part_bytes entry) user_phys);;
        mret OK
  end.

(** One round of the main loop: the reply to the caller, if any. *)
Definition driver_task `{Entry D} (mess : message) : DM D (option message) :=
  let caller := m_source mess in
  let proc_nr := PROC_NR mess in
  if negb (caller =? FS_PROC_NR) && (0 <=? caller) then mret None else
  if m_type mess =? HARD_INT then mret None else
  r ← (if m_type mess =? DEV_OPEN then dr_open mess
       else if m_type mess =? DEV_CLOSE then dr_close mess
       else if m_type mess =? DEV_IOCTL then dr_ioctl mess
       else if (m_type mess =? DEV_READ) || (m_type mess =? DEV_WRITE) then do_rdwt mess
       else if m_type mess =? SCATTERED_IO then do_vrdwt mess
       else mret EINVAL);
  dr_cleanup;;
  mret (Some (mess <| m_type := TASK_REPLY |> <| m2_i1 := proc_nr |> <| m2_i2 := r |>)).

(** ** drvlib.c *)

(** The four entries at [PART_TABLE_OFF] of a sector with a valid mark. *)
Definition get_part_table (device offset : Z) : DM D (option (list part_entry)) :=
  r ← do_rdwt (Message 0 DEV_READ (s16 device) self SECTOR_SIZE (s32 (Z.shiftl offset SECTOR_SHIFT)) 0 tmp_buf 0);
  if negb (r =? SECTOR_SIZE) then mret None else
  l ← kcall (copy_in tmp_buf SECTOR_SIZE);
  if negb (nth 510 l 0 =? 0x55) || negb (nth 511 l 0 =? 0xAA) then mret None else
  mret (Some (map (λ i, part_entry_of l (PART_TABLE_OFF + PART_ENTRY_SIZE * i)) (seqZ 0 NR_PARTITIONS))).

(** [sort]: [NR_PARTITIONS] passes over the table. *)
Definition out_of_order (a b : part_entry) : bool :=
  (sysind a =? NO_PART) || ((lowsec b <? lowsec a) && negb (sysind b =? NO_PART)).
(** The rest of a pass, with [a] in front of the entries [l]. *)
Fixpoint sort_from (a : part_entry) (l : list part_entry) : list part_entry :=
  match l with
  | [] => [a]
  | b :: l => if out_of_order a b then b :: sort_from a l else a :: sort_from b l
  end.
Definition sort_pass (l : list part_entry) : list part_entry := match l with [] => [] | a :: l => sort_from a l end.
Definition sort (table : list part_entry) : list part_entry := Nat.iter (Z.to_nat NR_PARTITIONS) sort_pass table.

(** The base and the size of a partition of the device of sectors [base] to
    [limit]: the low sector and the device. *)
Definition part_device (base limit : Z) (pe : part_entry) : Z * device :=
  let part_limit := u32 (lowsec pe + size pe) in
  let part_limit := if part_limit <? lowsec pe then limit else part_limit in
  let part_limit := if limit <? part_limit then limit else part_limit in
  let low := if lowsec pe <? base then base else lowsec pe in
  let part_limit := if part_limit <? low then low else part_limit in
  (low, Device_ (u32 (Z.shiftl low SECTOR_SHIFT)) (u32 (Z.shiftl (part_limit - low) SECTOR_SHIFT))).

(** The devices of the logical partitions in one table of the chain:
    [inr] when the scan is over, else the next device and the next table. *)
Definition logical_part (extbase offset : Z) (pe : part_entry) : device :=
  Device_ (u32 (Z.shiftl (u32 (extbase + offset + lowsec pe)) SECTOR_SHIFT)) (u32 (Z.shiftl (size pe) SECTOR_SHIFT)).
Fixpoint ext_table (extbase offset : Z) (table : list part_entry) (subdev nextoffset : Z) : DM D (Z * Z + unit) :=
  match table with
  | [] => mret (inl (subdev, nextoffset))
  | pe :: table =>
      if sysind pe =? EXT_PART then ext_table extbase offset table subdev (lowsec pe)
      else if negb (sysind pe =? NO_PART) then
        dv ← dr_prepare subdev;
        match dv with
        | None => mret (inr tt)
        | Some dv =>
            set_dev dv (logical_part extbase offset pe);;
            if (subdev + 1) mod NR_PARTITIONS =? 0 then mret (inr tt)
            else ext_table extbase offset table (subdev + 1) nextoffset
        end
      else ext_table extbase offset table subdev nextoffset
  end.
Definition sub_device (device : Z) : Z :=
  MINOR_hd1a + (Z.quot device DEV_PER_DRIVE * NR_PARTITIONS + (Z.rem device DEV_PER_DRIVE - 1)) * NR_PARTITIONS.
Definition ext_step (extdev extbase : Z) (x : Z * Z) : DM D (Z * Z + unit) :=
  let '(subdev, offset) := x in
  t ← get_part_table extdev offset;
  match t with
  | None => mret (inr tt)
  | Some table =>
      r ← ext_table extbase offset (sort table) subdev 0;
      mret (match r with
            | inl (subdev, next) => if negb (next =? 0) then inl (subdev, next) else inr tt
            | inr _ => inr tt
            end)
  end.
Definition extpartition (extdev extbase : Z) : DM D unit :=
  loop patience (ext_step extdev extbase) (sub_device extdev, 0).

(** The partitions of a table go to the devices from [dv] on; [sub] is called
    for each with the device number, its entry and its low sector. *)
Fixpoint set_parts (base limit : Z) (sub : Z → part_entry → Z → DM D unit) (table : list part_entry) (device dv : Z) : DM D unit :=
  match table with
  | [] => mret tt
  | pe :: table =>
      let '(low, d) := part_device base limit pe in
      set_dev dv d;;
      sub device pe low;;
      set_parts base limit sub table (device + 1) (dv + 1)
  end.
Definition first_part (device style : Z) : Z :=
  if style =? P_FLOPPY then device + MINOR_fd0a
  else if style =? P_PRIMARY then device + 1
  else if style =? P_SUB then sub_device device
  else device.
(** [partition], with what it does for each partition. *)
Definition partition_with (sub : Z → part_entry → Z → DM D unit) (device style : Z) : DM D unit :=
  dv ← dr_prepare device;
  match dv with
  | None => mret tt
  | Some dv =>
      d ← get_dev dv;
      if dv_size d =? 0 then mret tt else
      let base := Z.shiftr (dv_base d) SECTOR_SHIFT in
      let limit := u32 (base + Z.shiftr (dv_size d) SECTOR_SHIFT) in
      t ← get_part_table device 0;
      match t with
      | None => mret tt
      | Some table =>
          let table := if style =? P_PRIMARY then sort table else table in
          dv ← dr_prepare (first_part device style);
          match dv with
          | None => mret tt
          | Some dv => set_parts base limit sub table (first_part device style) dv
          end
      end
  end.
(** A primary partition may have subpartitions or be an extended one. *)
Definition subpartition (device : Z) (pe : part_entry) (low : Z) : DM D unit :=
  when (sysind pe =? MINIX_PART) (partition_with (λ _ _ _, mret tt) device P_SUB);;
  when (sysind pe =? EXT_PART) (extpartition device low).
Definition partition (device style : Z) : DM D unit :=
  partition_with (if style =? P_PRIMARY then subpartition else λ _ _ _, mret tt) device style.
End driver.
