(* ===== verification/Memdrv.v ===== *)
(** * The memory task

    kernel/memory.c: the RAM disk, physical memory, kernel memory, the null
    device and the device of zeros, as an instance of the driver of Driver.v.
    (68000; the privileges of processes that open /dev/mem are for INTEL.) *)

From S2P Require Import Prelude Sigset Proc Alloc Ksys Driver.

Definition NR_RAMS : Z := 5.
Definition NR_MEMS : Z := 2.
Definition RAM_DEV : Z := 0.
Definition MEM_DEV : Z := 1.
Definition KMEM_DEV : Z := 2.
Definition NULL_DEV : Z := 3.
Definition ZERO_DEV : Z := 4.
Definition MEM_BYTES : Z := 0xffffffff.
Definition BLOCK_SIZE : Z := 1024.
Definition MIOCRAMSIZE : Z := 109 * 256 + 3.
Definition MIOCSPSINFO : Z := 109 * 256 + 4.
Definition MIOCGPSINFO : Z := 109 * 256 + 5.
Definition PSINFO_SIZE : Z := 16.
Definition NO_NUM : Z := 0x8000.

(** The current device, and the variable fields of the static [psinfo]. *)
Record memdrv := Memdrv_ { m_device : Z; psinfo_mproc : Z; psinfo_fproc : Z }.
#[export] Instance eta_memdrv : Eta memdrv := λ r, Memdrv_ r.(m_device) r.(psinfo_mproc) r.(psinfo_fproc).
#[export] Instance upd_m_device : Upd m_device := ltac:(derive_upd).
#[export] Instance upd_psinfo_mproc : Upd psinfo_mproc := ltac:(derive_upd).
#[export] Instance upd_psinfo_fproc : Upd psinfo_fproc := ltac:(derive_upd).
Notation memst := (drvst memdrv).
Notation MD := (M memst).

(** The addresses of the end of the kernel and of the process table. *)
Class Image := { end_addr : Z; proc_table : Z }.

Definition m_geom (d : Z) : MD device := if (0 <=? d) && (d <? NR_RAMS) then gets (λ s, devs s d) else fault.

Definition m_prepare (minor : Z) : MD (option Z) :=
  if (minor <? 0) || (NR_RAMS <=? minor) then mret None else
  modify (λ s, s <| priv := (priv s) <| m_device := minor |> |>);;
  mret (Some minor).

(** The bytes at [p] cleared as the code does it: up to an even address, then in
    longs, then the rest; [i] counts the bytes left. *)
Definition fill (n p : Z) : SM unit := copy_out (replicate (Z.to_nat n) 0) p.
Definition zero_longs (x : Z * Z) : SM (Z * Z + Z * Z) :=
  let '(p, i) := x in if 3 <? i then fill 4 p;; mret (inl (p + 4, i - 4)) else mret (inr (p, i)).
Definition zero_bytes (x : Z * Z) : SM (Z * Z + unit) :=
  let '(p, i) := x in if 0 <? i then fill 1 p;; mret (inl (p + 1, i - 1)) else mret (inr tt).
Definition zero_fill (p i : Z) : SM unit :=
  '(p, i) ← (if has p 1 then fill 1 p;; mret (p + 1, i - 1) else mret (p, i));
  '(p, i) ← loop (S (Z.to_nat i)) zero_longs (p, i);
  loop (S (Z.to_nat i)) zero_bytes (p, i).

(** The bytes to transfer; the result of a request that ends before. *)
Definition m_count (minor opcode : Z) (dv : device) (iop : iorequest_s) : Z * iorequest_s + Z * iorequest_s :=
  if minor =? NULL_DEV then inl (0, if opcode =? DEV_WRITE then iop <| io_nbytes := 0 |> else iop)
  else if minor =? ZERO_DEV then
    if opcode =? DEV_WRITE then inr (EIO, iop <| io_nbytes := EIO |>) else inl (io_nbytes iop, iop)
  else if dv_size dv <=? u32 (io_position iop) then inr (OK, iop)
  else inl (if dv_size dv <? u32 (io_position iop + io_nbytes iop) then s16 (dv_size dv - io_position iop) else io_nbytes iop, iop).

Definition m_schedule (proc_nr : Z) (iop : iorequest_s) : MD (Z * iorequest_s) :=
  let opcode := clrf (io_request iop) OPTIONAL_IO in
  minor ← gets (λ s, m_device (priv s));
  dv ← m_geom minor;
  user_phys ← kcall (numap proc_nr (io_buf iop) (u32 (io_nbytes iop)));
  if user_phys =? 0 then mret (EINVAL, iop <| io_nbytes := EINVAL |>) else
  match m_count minor opcode dv iop with
  | inr r => mret r
  | inl (count, iop) =>
      let mem_phys := u32 (dv_base dv + io_position iop) in
      let iop := iop <| io_nbytes := s16 (io_nbytes iop - count) |> in
      if count =? 0 then mret (OK, iop) else
      (if opcode =? DEV_READ then
         if minor =? ZERO_DEV then kcall (zero_fill user_phys (u16 count))
         else kcall (phys_copy mem_phys user_phys (u32 count))
       else kcall (phys_copy user_phys mem_phys (u32 count)));;
      mret (OK, iop)
  end.

(** Memory devices have no geometry. *)
Definition m_geometry (entry : part) : MD part :=
  d ← gets (λ s, m_device (priv s));
  dv ← m_geom d;
  mret (entry <| cylinders := u16 (Z.shiftr (dv_size dv) SECTOR_SHIFT / (64 * 32)) |> <| heads := 64 |> <| sectors := 32 |>).

#[export] Instance mem_device : Device memdrv := {|
  nr_devs := NR_RAMS;
  dr_prepare := m_prepare;
  dr_schedule := m_schedule;
  dr_finish := nop_finish;
  dr_cleanup := nop_cleanup;
  dr_geometry := m_geometry
|}.

Section mem_task.
Context `{Place} `{Image}.

Definition m_do_open (m : message) : MD Z :=
  dv ← m_prepare (DEVICE m); mret (match dv with None => ENXIO | Some _ => OK end).

(** The last chunk of memory with [size] clicks gives its first [size] clicks:
    their base. *)
Definition take_chunk (size : Z) : SM Z :=
  mem ← gets mem_chunks;
  r ← for_each (reverse (seqZ 0 NR_MEMS)) (λ i,
        c ← deref (mem !! Z.to_nat i); mret (if mem_size c <? size then None else Some i));
  match r with
  | None => panic "Not enough memory for RAM disk" NO_NUM
  | Some i =>
      c ← deref (mem !! Z.to_nat i);
      modify (λ s, s <| mem_chunks := <[Z.to_nat i := Memory (u16 (mem_base c + size)) (u16 (mem_size c - size))]> mem |>);;
      mret (mem_base c)
  end.

Definition psinfo_bytes (d : memdrv) : list Z :=
  w16 NR_TASKS ++ w16 NR_PROCS ++ w32 proc_table ++ w32 (psinfo_mproc d) ++ w32 (psinfo_fproc d).

Definition m_ioctl (m : message) : MD Z :=
  if COUNT m =? MIOCRAMSIZE then
    if negb (PROC_NR m =? FS_PROC_NR) then mret EPERM else
    let bytesize := u32 (POSITION m * BLOCK_SIZE) in
    let size := u16 (Z.shiftr (u32 (bytesize + (CLICK_SHIFT - 1))) CLICK_SHIFT) in
    base ← kcall (take_chunk size);
    set_dev RAM_DEV (Device_ (Z.shiftl base CLICK_SHIFT) bytesize);;
    mret OK
  else if COUNT m =? MIOCSPSINFO then
    if PROC_NR m =? MM_PROC_NR then modify (λ s, s <| priv := (priv s) <| psinfo_mproc := ADDRESS m |> |>);; mret OK
    else if PROC_NR m =? FS_PROC_NR then modify (λ s, s <| priv := (priv s) <| psinfo_fproc := ADDRESS m |> |>);; mret OK
    else mret EPERM
  else if COUNT m =? MIOCGPSINFO then
    a ← kcall (numap (PROC_NR m) (ADDRESS m) PSINFO_SIZE);
    if a =? 0 then mret EFAULT else
    d ← gets priv;
    kcall (copy_out (psinfo_bytes d) a);;
    mret OK
  else do_diocntl m.

#[export] Instance mem_entry : Entry memdrv := {| dr_open := m_do_open; dr_close := do_nop; dr_ioctl := m_ioctl |}.

Definition m_init : MD unit :=
  set_dev KMEM_DEV (Device_ 0 end_addr);;
  d ← m_geom MEM_DEV;
  set_dev MEM_DEV (Device_ (dv_base d) MEM_BYTES).
(** A message to the task, after [m_init]. *)
Definition mem_task (m : message) : MD (option message) := driver_task m.
End mem_task.
