(* ===== verification/Memp.v ===== *)
(** * Transfers of the memory task

    What the requests of Memdrv.v do to memory: the RAM disk and the other
    devices that are memory as ranges of bytes, the null device and the device
    of zeros, and the memory that the RAM disk takes. *)

From S2P Require Import Prelude Sigset Proc Alloc Ksys Ksysp Kmem Driver Memdrv Boot Ksafe.

(** ** Bytes of memory *)
Definition bytes_at (c : Z → Z) (a n : Z) : list Z := map (mem_byte c) (seqZ a n).
(** [n] bytes from [src] on have been copied to [dst]. *)
Definition copied (src dst n : Z) (c c' : Z → Z) : Prop :=
  ∀ b, mem_byte c' b = if (dst <=? b) && (b <? dst + n) then mem_byte c (src + (b - dst)) else mem_byte c b.

Lemma copied_none src dst c : copied src dst 0 c c.
Proof. intros b. by replace ((dst <=? b) && (b <? dst + 0)) with false by lia. Qed.
Lemma bytes_at_length c a n : length (bytes_at c a n) = Z.to_nat n.
Proof. unfold bytes_at. by rewrite length_map, length_seqZ. Qed.
Lemma bytes_at_ext c c' a a' n : (∀ i, 0 ≤ i < n → mem_byte c (a + i) = mem_byte c' (a' + i)) → bytes_at c a n = bytes_at c' a' n.
Proof.
  intros He. apply list_eq. intros i. unfold bytes_at. change (map ?f ?l) with (f <$> l). rewrite !list_lookup_fmap.
  destruct (decide (Z.of_nat i < n)); [|by rewrite !lookup_seqZ_ge by lia]. rewrite !lookup_seqZ_lt by lia. cbn. f_equal. apply He. lia.
Qed.
Lemma copied_bytes src dst n c c' : copied src dst n c c' → bytes_at c' dst n = bytes_at c src n.
Proof.
  intros Hc. apply bytes_at_ext. intros i Hi. rewrite Hc. replace ((dst <=? dst + i) && (dst + i <? dst + n)) with true by lia. f_equal. lia.
Qed.
Lemma copied_apart src dst n c c' a k : copied src dst n c c' → a + k ≤ dst ∨ dst + n ≤ a → bytes_at c' a k = bytes_at c a k.
Proof.
  intros Hc Ha. apply bytes_at_ext. intros i Hi. rewrite Hc. by replace ((dst <=? a + i) && (a + i <? dst + n)) with false by lia.
Qed.
Lemma bytes_at_range c a n : Forall is_byte (bytes_at c a n).
Proof. apply Forall_map, Forall_forall. intros x _. apply mem_byte_range. Qed.
Lemma bytes_at_app c a n k : 0 ≤ n → 0 ≤ k → bytes_at c a (n + k) = bytes_at c a n ++ bytes_at c (a + n) k.
Proof. intros. unfold bytes_at. by rewrite seqZ_app, map_app by lia. Qed.

(** ** The state of the task *)
Definition mem_of (s : memst) : Z → Z := clicks (kern (ksys s)).
Definition with_mem (c : Z → Z) (s : memst) : memst := s <| ksys := (ksys s) <| kern := (kern (ksys s)) <| clicks := c |> |> |>.
Lemma with_same s : with_mem (mem_of s) s = s.
Proof. destruct s as [[[]]]. done. Qed.
Definition user_map (s : memst) (p v n : Z) : Z := umap (procs (kern (ksys s)) p) D_SEG v n.

Lemma numap_eq p v n s : isokprocn p = true → kcall (D := memdrv) (numap p v n) s = Ret (user_map s p v n) s.
Proof. intros Hp. unfold kcall, numap. rewrite umap_at_ok by done. by destruct s. Qed.
Lemma phys_copy_eq src dst n s : 0 ≤ n →
  ∃ c, kcall (D := memdrv) (phys_copy src dst n) s = Ret tt (with_mem c s) ∧ copied src dst n (mem_of s) c.
Proof.
  intros Hn. eexists. split; [done|]. intros b. rewrite mem_byte_patch. destruct (_ && _); [|done].
  apply Z.mod_small, mem_byte_range.
Qed.
Lemma m_geom_eq d s : 0 ≤ d < NR_RAMS → m_geom d s = Ret (devs s d) s.
Proof. intros Hd. unfold m_geom. by replace ((0 <=? d) && (d <? NR_RAMS)) with true by lia. Qed.

(** ** Devices that are memory *)

(** The bytes of a request that are before the end of the device. *)
Definition reach (dv : device) (pos n : Z) : Z := if dv_size dv <=? pos then 0 else Z.min n (dv_size dv - pos).
Definition is_read (iop : iorequest_s) : bool := clrf (io_request iop) OPTIONAL_IO =? DEV_READ.

(** A request within the ranges of its types. *)
Record request_ok (p : Z) (iop : iorequest_s) : Prop := RequestOk {
  q_proc : isokprocn p = true;
  q_pos : 0 ≤ io_position iop < 2 ^ 31;
  q_bytes : 0 < io_nbytes iop < 2 ^ 15
}.
Definition device_ok (dv : device) : Prop := 0 ≤ dv_base dv < 2 ^ 32 ∧ 0 ≤ dv_size dv < 2 ^ 32.

Lemma reach_range dv pos n : device_ok dv → 0 < n → 0 ≤ reach dv pos n ≤ n.
Proof. intros [_ Hs] Hn. unfold reach. destruct (Z.leb_spec (dv_size dv) pos); lia. Qed.

Definition addr_of (dv : device) (iop : iorequest_s) : Z := u32 (dv_base dv + io_position iop).
(** What a request does: its source and its destination. *)
Definition transferred (dv : device) (iop : iorequest_s) (a : Z) (c c' : Z → Z) : Prop :=
  if is_read iop then copied (addr_of dv iop) a (reach dv (io_position iop) (io_nbytes iop)) c c'
  else copied a (addr_of dv iop) (reach dv (io_position iop) (io_nbytes iop)) c c'.

Lemma m_count_eq d op dv iop : 0 ≤ d < NULL_DEV → 0 ≤ io_position iop < 2 ^ 31 → 0 < io_nbytes iop < 2 ^ 15 → device_ok dv →
  m_count d op dv iop = if dv_size dv <=? io_position iop then inr (OK, iop) else inl (reach dv (io_position iop) (io_nbytes iop), iop).
Proof.
  intros Hd Hp Hn [_ Hs]. unfold m_count, NULL_DEV, ZERO_DEV in *.
  rewrite !(proj2 (Z.eqb_neq d _)) by lia. rewrite u32_id by lia. unfold reach.
  destruct (Z.leb_spec (dv_size dv) (io_position iop)); [done|]. rewrite u32_id by lia. do 2 f_equal.
  destruct (Z.ltb_spec (dv_size dv) (io_position iop + io_nbytes iop)); [|lia]. rewrite s16_id by lia. lia.
Qed.

Lemma m_schedule_memory p iop s : request_ok p iop → 0 ≤ m_device (priv s) < NULL_DEV → device_ok (devs s (m_device (priv s))) →
  let dv := devs s (m_device (priv s)) in
  let a := user_map s p (io_buf iop) (io_nbytes iop) in
  if a =? 0 then m_schedule p iop s = Ret (EINVAL, iop <| io_nbytes := EINVAL |>) s
  else ∃ c, m_schedule p iop s = Ret (OK, iop <| io_nbytes := io_nbytes iop - reach dv (io_position iop) (io_nbytes iop) |>) (with_mem c s) ∧
            transferred dv iop a (mem_of s) c.
Proof.
  intros [Hp Hpos Hn] Hd Hdv dv a. unfold m_schedule. erewrite bind_eq by reflexivity.
  erewrite bind_eq by (apply m_geom_eq; unfold NULL_DEV, NR_RAMS in *; lia). fold dv.
  erewrite bind_eq by by apply numap_eq. rewrite u32_id by lia. fold a. destruct (Z.eqb_spec a 0); [done|].
  rewrite m_count_eq by done. pose proof (reach_range dv (io_position iop) _ Hdv (proj1 Hn)) as Hr.
  assert (Hz : reach dv (io_position iop) (io_nbytes iop) = 0 → transferred dv iop a (mem_of s) (mem_of s)).
  { intros Ez. unfold transferred. rewrite Ez. destruct (is_read iop); apply copied_none. }
  destruct (Z.leb_spec (dv_size dv) (io_position iop)) as [Hle|Hle].
  { assert (Ez : reach dv (io_position iop) (io_nbytes iop) = 0) by (unfold reach; by rewrite (proj2 (Z.leb_le _ _))).
    exists (mem_of s). rewrite with_same. split; [|by apply Hz]. rewrite Ez. unfold mret, M_ret. rewrite Z.sub_0_r. by destruct iop. }
  rewrite s16_id by lia. destruct (Z.eqb_spec (reach dv (io_position iop) (io_nbytes iop)) 0) as [Ez|Ez].
  { exists (mem_of s). rewrite with_same. split; [done|by apply Hz]. }
  assert (Hnz : (m_device (priv s) =? ZERO_DEV) = false) by (unfold NULL_DEV, ZERO_DEV in *; lia). rewrite Hnz. fold (addr_of dv iop).
  rewrite u32_id by lia. unfold transferred, is_read. destruct (_ =? DEV_READ).
  - destruct (phys_copy_eq (addr_of dv iop) a (reach dv (io_position iop) (io_nbytes iop)) s ltac:(lia)) as (c & E & Hc).
    exists c. split; [|done]. by erewrite bind_eq by exact E.
  - destruct (phys_copy_eq a (addr_of dv iop) (reach dv (io_position iop) (io_nbytes iop)) s ltac:(lia)) as (c & E & Hc).
    exists c. split; [|done]. by erewrite bind_eq by exact E.
Qed.

(** ** Requests *)
Lemma m_prepare_eq d s : 0 ≤ d < NR_RAMS → m_prepare d s = Ret (Some d) (s <| priv := (priv s) <| m_device := d |> |>).
Proof. intros Hd. unfold m_prepare. by replace ((d <? 0) || (NR_RAMS <=? d)) with false by (unfold NR_RAMS in *; lia). Qed.
Definition on_device (d : Z) (s : memst) : memst := s <| priv := (priv s) <| m_device := d |> |>.
Definition the_request (m : message) : iorequest_s := Iorequest (POSITION m) (ADDRESS m) (COUNT m) (m_type m).
Definition replied (m : message) (r : Z) : message := m <| m_type := TASK_REPLY |> <| m2_i1 := PROC_NR m |> <| m2_i2 := r |>.

Section requests.
Context `{Place} `{Image}.

Lemma do_rdwt_memory m s : 0 ≤ DEVICE m < NULL_DEV → device_ok (devs s (DEVICE m)) → request_ok (PROC_NR m) (the_request m) →
  let dv := devs s (DEVICE m) in
  let a := user_map s (PROC_NR m) (ADDRESS m) (COUNT m) in
  if a =? 0 then do_rdwt m s = Ret EINVAL (on_device (DEVICE m) s)
  else ∃ c, do_rdwt m s = Ret (reach dv (POSITION m) (COUNT m)) (with_mem c (on_device (DEVICE m) s)) ∧ transferred dv (the_request m) a (mem_of s) c.
Proof.
  intros Hd Hdv Hq dv a. pose proof (q_bytes _ _ Hq) as Hn. cbn [io_nbytes the_request] in Hn. unfold do_rdwt.
  rewrite (proj2 (Z.leb_gt _ _)) by lia. erewrite bind_eq by (apply m_prepare_eq; unfold NULL_DEV, NR_RAMS in *; lia).
  pose proof (m_schedule_memory (PROC_NR m) (the_request m) (on_device (DEVICE m) s) Hq Hd Hdv) as Hs. cbv zeta in Hs.
  change (user_map (on_device (DEVICE m) s) (PROC_NR m) (io_buf (the_request m)) (io_nbytes (the_request m))) with a in Hs.
  change (devs (on_device (DEVICE m) s) (m_device (priv (on_device (DEVICE m) s)))) with dv in Hs.
  destruct (a =? 0).
  - by erewrite bind_eq by exact Hs.
  - destruct Hs as (c & E & Hc). exists c. split; [|exact Hc]. erewrite bind_eq by exact E. cbn [io_nbytes upd upd_io_nbytes the_request].
    pose proof (reach_range dv (POSITION m) (COUNT m) Hdv (proj1 Hn)). cbn [io_position].
    change (OK =? OK) with true. cbn [when]. erewrite bind_eq by reflexivity.
    unfold mret, M_ret. f_equal. change (io_position (the_request m)) with (POSITION m).
    rewrite (proj2 (Z.ltb_ge _ _)) by lia. lia.
Qed.

Lemma fs_or_task m : m_source m = FS_PROC_NR ∨ m_source m < 0 → negb (m_source m =? FS_PROC_NR) && (0 <=? m_source m) = false.
Proof. intros [->|Hs]; [by rewrite Z.eqb_refl|]. rewrite (proj2 (Z.leb_gt _ _)) by done. apply andb_false_r. Qed.
(** The main loop replies to FS and to the tasks. *)
Lemma mem_task_rdwt m s r s' : m_source m = FS_PROC_NR ∨ m_source m < 0 → m_type m = DEV_READ ∨ m_type m = DEV_WRITE →
  do_rdwt m s = Ret r s' → mem_task m s = Ret (Some (replied m r)) s'.
Proof.
  intros Hsrc Ht E. unfold mem_task, driver_task. rewrite (fs_or_task m) by done.
  destruct Ht as [Et|Et]; rewrite !Et; cbn [Z.eqb Pos.eqb orb HARD_INT DEV_READ DEV_WRITE DEV_OPEN DEV_CLOSE DEV_IOCTL]; (erewrite bind_eq by exact E); done.
Qed.
Lemma mem_task_vrdwt m s r s' : m_source m = FS_PROC_NR ∨ m_source m < 0 → m_type m = SCATTERED_IO →
  do_vrdwt m s = Ret r s' → mem_task m s = Ret (Some (replied m r)) s'.
Proof.
  intros Hsrc Et E. unfold mem_task, driver_task. rewrite (fs_or_task m) by done.
  rewrite !Et. cbn [Z.eqb Pos.eqb orb HARD_INT DEV_READ DEV_WRITE DEV_OPEN DEV_CLOSE DEV_IOCTL SCATTERED_IO]. by erewrite bind_eq by exact E.
Qed.

(** ** Vectors: a sequence of copies *)
Fixpoint copies (n : Z) (l : list (Z * Z)) (c c' : Z → Z) : Prop :=
  match l with
  | [] => c' = c
  | (src, dst) :: l => ∃ c1, copied src dst n c c1 ∧ copies n l c1 c'
  end.
Definition apart (n a b : Z) : Prop := a + n ≤ b ∨ b + n ≤ a.
(** No destination meets another one, or a source. *)
Fixpoint independent (n : Z) (l : list (Z * Z)) : Prop :=
  match l with
  | [] => True
  | (src, dst) :: l => Forall (λ x, apart n dst x.2 ∧ apart n dst x.1 ∧ apart n src x.2) l ∧ independent n l
  end.

Lemma copies_result n l c c' : 0 ≤ n → copies n l c c' → independent n l →
  (∀ src dst, (src, dst) ∈ l → bytes_at c' dst n = bytes_at c src n) ∧
  (∀ b, (∀ src dst, (src, dst) ∈ l → b < dst ∨ dst + n ≤ b) → mem_byte c' b = mem_byte c b).
Proof.
  intros Hn. revert c. induction l as [|[s d] l IH]; intros c.
  { intros -> _. split; [|done]. intros src dst Hin. by apply elem_of_nil in Hin. }
  intros (c1 & Hc & Hl) [Hf Hi]. destruct (IH c1 Hl Hi) as [I1 I2]. rewrite Forall_forall in Hf. split.
  - intros src dst [[= -> ->]|Hin]%elem_of_cons.
    + rewrite <- (copied_bytes _ _ _ _ _ Hc). apply bytes_at_ext. intros i Hi'. apply I2. intros s' d' Hin. destruct (Hf _ Hin) as ([?|?] & _); cbn in *; lia.
    + rewrite (I1 src dst) by done. apply (copied_apart s d n c); [done|]. destruct (Hf _ Hin) as (_ & [?|?] & _); cbn in *; lia.
  - intros b Hb. rewrite I2 by (intros src dst ?; apply (Hb src dst); by right). rewrite Hc. destruct (Hb s d ltac:(left)); by replace ((d <=? b) && (b <? d + n)) with false by lia.
Qed.

(** The copy that a request within the device makes. *)
Definition copy_pair (dv : device) (s : memst) (p : Z) (iop : iorequest_s) : Z * Z :=
  let a := user_map s p (io_buf iop) (io_nbytes iop) in
  if is_read iop then (addr_of dv iop, a) else (a, addr_of dv iop).
Lemma schedule_all_memory p n l r0 s : 0 ≤ m_device (priv s) < NULL_DEV → let dv := devs s (m_device (priv s)) in device_ok dv →
  Forall (λ iop, request_ok p iop ∧ io_nbytes iop = n ∧ io_position iop + n ≤ dv_size dv ∧ user_map s p (io_buf iop) n ≠ 0) l →
  ∃ c, schedule_all p r0 l s = Ret (if bool_decide (l = []) then r0 else OK, map (λ iop, iop <| io_nbytes := 0 |>) l) (with_mem c s) ∧
       copies n (map (copy_pair dv s p) l) (mem_of s) c.
Proof.
  intros Hd dv Hdv. revert r0. revert s Hd dv Hdv. induction l as [|iop l IH]; intros s Hd dv Hdv r0 Hl.
  { exists (mem_of s). by rewrite with_same. }
  apply Forall_cons in Hl as [(Hq & Hn & Hend & Ha) Hl]. cbn [schedule_all map].
  pose proof (m_schedule_memory p iop s Hq Hd Hdv) as Hs. cbv zeta in Hs. fold dv in Hs. rewrite Hn, (proj2 (Z.eqb_neq _ _)) in Hs by done.
  destruct Hs as (c1 & E & Ht). assert (Er : reach dv (io_position iop) n = n).
  { unfold reach. rewrite (proj2 (Z.leb_gt _ _)) by (pose proof (q_bytes _ _ Hq); lia). lia. }
  destruct (IH (with_mem c1 s) Hd Hdv OK Hl) as (c & E2 & Hc). exists c. split.
  - erewrite bind_eq by exact E. cbv beta iota. rewrite Z.eqb_refl.
    erewrite bind_eq by exact E2.
    unfold mret, M_ret. rewrite Er, Z.sub_diag. by destruct l.
  - cbn [copies]. unfold copy_pair at 1. rewrite Hn. unfold transferred in Ht. rewrite Hn, Er in Ht. destruct (is_read iop); by exists c1.
Qed.
End requests.

(** ** Vectors in memory *)
Lemma copy_in_eq a n s : kcall (D := memdrv) (copy_in a n) s = Ret (bytes_at (mem_of s) a n) s.
Proof. by destruct s. Qed.
Lemma copy_out_eq l a s : Forall is_byte l → ∃ c, kcall (D := memdrv) (copy_out l a) s = Ret tt (with_mem c s) ∧
  bytes_at c a (Z.of_nat (length l)) = l ∧ ∀ b, b < a ∨ a + Z.of_nat (length l) ≤ b → mem_byte c b = mem_byte (mem_of s) b.
Proof.
  intros Hl. eexists. split; [done|]. split; [by apply copy_back|]. intros b Hb. apply patch_same. lia.
Qed.

Record typed (r : iorequest_s) : Prop := Typed {
  y_pos : - 2 ^ 31 ≤ io_position r < 2 ^ 31;
  y_buf : 0 ≤ io_buf r < 2 ^ 32;
  y_bytes : - 2 ^ 15 ≤ io_nbytes r < 2 ^ 15;
  y_request : 0 ≤ io_request r < 2 ^ 16
}.
Lemma ioreq_bytes_length r : length (ioreq_bytes r) = 12%nat.
Proof. done. Qed.
Lemma ioreq_bytes_ok r : Forall is_byte (ioreq_bytes r).
Proof. unfold ioreq_bytes. repeat (apply Forall_app; split); (apply w32_bytes || apply w16_bytes). Qed.
Lemma w16_read x l o : r16 (w16 x ++ l) 0 = u16 x ∧ (2 ≤ o → r16 (w16 x ++ l) o = r16 l (o - 2)).
Proof.
  split.
  { unfold r16, w16. change (nth (Z.to_nat 0) (_ ++ l) 0) with (u16 x / 256). change (nth (Z.to_nat (0 + 1)) (_ ++ l) 0) with (u16 x mod 256).
    pose proof (Z.div_mod (u16 x) 256). lia. }
  intros Ho. unfold r16, w16.
  rewrite !app_nth2 by (cbn; lia). cbn [length]. do 2 f_equal; [f_equal|]; f_equal; lia.
Qed.
Lemma w32_read x l o : r32 (w32 x ++ l) 0 = u32 x ∧ (4 ≤ o → r16 (w32 x ++ l) o = r16 l (o - 4)).
Proof.
  unfold w32, r32. rewrite <- app_assoc. split.
  - rewrite (proj1 (w16_read _ _ 0)), (proj2 (w16_read _ _ (0 + 2))) by lia. rewrite (proj1 (w16_read _ _ 0)).
    pose proof (Z.mod_pos_bound x (2 ^ 32) ltac:(lia)) as Hx. fold (u32 x) in Hx.
    rewrite !u16_id by (split; [apply Z.div_pos || apply Z.mod_pos_bound; lia|apply Z.div_lt_upper_bound || apply Z.mod_pos_bound; lia]).
    pose proof (Z.div_mod (u32 x) (2 ^ 16)). lia.
  - intros Ho. rewrite !(proj2 (w16_read _ _ _)) by lia. f_equal. lia.
Qed.
Lemma ioreq_first r l : typed r → ioreq_of (ioreq_bytes r ++ l) 0 = r.
Proof.
  intros [Hp Hb Hn Hr]. unfold ioreq_of, ioreq_bytes. rewrite <- !app_assoc.
  assert (E4 : ∀ x l', r32 (w32 x ++ l') (0 + 4) = r32 l' 0) by (intros; unfold r32; by rewrite !(proj2 (w32_read _ _ _)) by lia).
  rewrite (proj1 (w32_read _ _ 0)), E4, (proj1 (w32_read _ _ 0)), !(proj2 (w32_read _ _ _)) by lia. cbn [Z.add Z.sub Z.opp Z.pos_sub Pos.pred_double Pos.add].
  change (0 + 8 - 4 - 4) with 0. change (0 + 10 - 4 - 4) with 2.
  rewrite (proj1 (w16_read _ _ 0)), (proj2 (w16_read _ _ 2)) by lia. rewrite (proj1 (w16_read _ _ 0)).
  destruct r; cbn in *. f_equal; [|by apply u32_id| |by apply u16_id].
  - unfold s32, u32. rewrite Zplus_mod_idemp_l, Z.mod_small; lia.
  - unfold s16, u16. rewrite Zplus_mod_idemp_l, Z.mod_small; lia.
Qed.
Lemma ioreq_next r l i : 0 ≤ i → ioreq_of (ioreq_bytes r ++ l) (IOREQ_SIZE * (i + 1)) = ioreq_of l (IOREQ_SIZE * i).
Proof.
  intros Hi. unfold IOREQ_SIZE. assert (E : ∀ o, 0 ≤ o → r16 (ioreq_bytes r ++ l) (12 * (i + 1) + o) = r16 l (12 * i + o)).
  { intros o Ho. unfold r16. rewrite !app_nth2 by (rewrite ioreq_bytes_length; lia). rewrite ioreq_bytes_length.
    do 2 f_equal; [f_equal|]; f_equal; lia. }
  unfold ioreq_of, r32. rewrite <- !Z.add_assoc. rewrite <- (Z.add_0_r (12 * (i + 1))) at 1. rewrite <- (Z.add_0_r (12 * i)) at 1. by rewrite !E by lia.
Qed.
Lemma iovec_round l : Forall typed l → iovec_of (concat (map ioreq_bytes l)) (Z.of_nat (length l)) = l.
Proof.
  intros Hl. apply list_eq. intros j. unfold iovec_of. change (map ?f (seqZ ?a ?b)) with (f <$> seqZ a b). rewrite list_lookup_fmap.
  destruct (decide (j < length l)%nat) as [Hj|Hj]; [|rewrite lookup_seqZ_ge by lia; symmetry; apply lookup_ge_None; lia].
  rewrite lookup_seqZ_lt by lia. cbn [fmap option_fmap option_map]. destruct (lookup_lt_is_Some_2 l j Hj) as [r Hr]. rewrite Hr. f_equal.
  clear Hj. revert j Hr. induction Hl as [|r' l Hr' Hl IH]; intros j Hr; [done|]. cbn [map concat]. destruct j as [|j].
  - injection Hr as ->. by apply ioreq_first.
  - replace (0 + Z.of_nat (S j)) with (Z.of_nat j + 1) by lia. rewrite ioreq_next by lia. by apply IH.
Qed.
Lemma iovec_bytes_length l : Z.of_nat (length (concat (map ioreq_bytes l))) = 12 * Z.of_nat (length l).
Proof. induction l as [|r l IH]; [done|]. cbn [map concat length]. rewrite length_app, ioreq_bytes_length. lia. Qed.
Lemma iovec_bytes_ok l : Forall is_byte (concat (map ioreq_bytes l)).
Proof. apply Forall_concat, Forall_map, Forall_forall. intros r _. apply ioreq_bytes_ok. Qed.

(** The requests of FS in a vector. *)
Record vector_ok (m : message) (l : list iorequest_s) (n v : Z) (s : memst) : Prop := VectorOk {
  v_source : m_source m = FS_PROC_NR;
  v_minor : 0 ≤ DEVICE m < NULL_DEV;
  v_device : device_ok (devs s (DEVICE m));
  v_some : 0 < COUNT m ≤ NR_IOREQS ∧ Z.of_nat (length l) = COUNT m;
  v_addr : user_map s FS_PROC_NR (ADDRESS m) (12 * COUNT m) = v ∧ v ≠ 0;
  v_bytes : bytes_at (mem_of s) v (12 * COUNT m) = concat (map ioreq_bytes l);
  v_typed : Forall typed l;
  v_reqs : Forall (λ iop, request_ok (PROC_NR m) iop ∧ io_nbytes iop = n ∧ io_position iop + n ≤ dv_size (devs s (DEVICE m)) ∧
                          user_map s (PROC_NR m) (io_buf iop) n ≠ 0) l
}.
Section vector.
Context `{Place}.
Lemma do_vrdwt_memory m l n v s : vector_ok m l n v s →
  ∃ c c', do_vrdwt m s = Ret OK (with_mem c' (on_device (DEVICE m) s)) ∧
    copies n (map (copy_pair (devs s (DEVICE m)) s (PROC_NR m)) l) (mem_of s) c ∧
    bytes_at c' v (12 * COUNT m) = concat (map ioreq_bytes (map (λ iop, iop <| io_nbytes := 0 |>) l)) ∧
    (∀ b, b < v ∨ v + 12 * COUNT m ≤ b → mem_byte c' b = mem_byte c b).
Proof.
  intros [Hs Hd Hdv [Hc Hlen] [Ev Hv] Hb Ht Hr]. unfold NR_IOREQS in Hc.
  destruct (schedule_all_memory (PROC_NR m) n l junk (on_device (DEVICE m) s) Hd Hdv Hr) as (c & E & Hcp).
  set (l' := map (λ iop, iop <| io_nbytes := 0 |>) l) in *.
  destruct (copy_out_eq (concat (map ioreq_bytes l')) v (with_mem c (on_device (DEVICE m) s)) (iovec_bytes_ok l')) as (c' & E' & Hb' & Hsame).
  assert (El : Z.of_nat (length (concat (map ioreq_bytes l'))) = 12 * COUNT m).
  { rewrite iovec_bytes_length. unfold l'. rewrite length_map. lia. }
  rewrite El in *. exists c, c'. split; [|done]. unfold do_vrdwt. rewrite Hs. change (FS_PROC_NR <? 0) with false. cbv iota zeta.
  rewrite (u16_id (COUNT m)) by lia. rewrite (proj2 (Z.ltb_ge NR_IOREQS _)) by (unfold NR_IOREQS; lia). unfold IOREQ_SIZE. rewrite (u16_id (COUNT m * 12)), (Z.mul_comm (COUNT m) 12) by lia.
  erewrite bind_eq; [|erewrite bind_eq by (apply (numap_eq FS_PROC_NR); done); rewrite Ev, (proj2 (Z.eqb_neq _ _)) by done; reflexivity].
  erewrite bind_eq by apply copy_in_eq. erewrite bind_eq by (apply m_prepare_eq; unfold NULL_DEV, NR_RAMS in *; lia).
  cbv beta iota. rewrite Hb, <- Hlen, iovec_round by done. erewrite bind_eq by exact E. rewrite bool_decide_false by (intros ->; cbn in Hlen; lia).
  cbv beta iota. rewrite Z.eqb_refl. cbn [when]. erewrite bind_eq by reflexivity. by erewrite bind_eq by exact E'.
Qed.
End vector.

(** ** The device of zeros *)
Definition zeroed (a n : Z) (c c' : Z → Z) : Prop :=
  ∀ b, mem_byte c' b = if (a <=? b) && (b <? a + n) then 0 else mem_byte c b.
Definition with_clicks (c : Z → Z) (y : sysst) : sysst := y <| kern := (kern y) <| clicks := c |> |>.
Lemma clicks_same y : with_clicks (clicks (kern y)) y = y.
Proof. by destruct y as [[]]. Qed.
Lemma zeroed_none a c : zeroed a 0 c c.
Proof. intros b. by replace ((a <=? b) && (b <? a + 0)) with false by lia. Qed.
Lemma zeroed_app a n k c c1 c2 : 0 ≤ n → 0 ≤ k → zeroed a n c c1 → zeroed (a + n) k c1 c2 → zeroed a (n + k) c c2.
Proof.
  intros Hn Hk H1 H2 b. rewrite H2, H1.
  destruct (Z.leb_spec a b), (Z.ltb_spec b (a + n)), (Z.leb_spec (a + n) b), (Z.ltb_spec b (a + n + k)), (Z.ltb_spec b (a + (n + k))); cbn; lia || done.
Qed.

(** [p] has been reached with [i] bytes left, of the [n] bytes from [p0] on. *)
Definition zeroing (p0 n : Z) (y : sysst) (x : Z * Z) (y' : sysst) : Prop :=
  p0 ≤ x.1 ∧ 0 ≤ x.2 ∧ x.1 + x.2 = p0 + n ∧ ∃ c, y' = with_clicks c y ∧ zeroed p0 (x.1 - p0) (clicks (kern y)) c.
Lemma zeroing_fill p0 n y p i k y' (Q : unit → sysst → Prop) : 0 ≤ k ≤ i → zeroing p0 n y (p, i) y' →
  (∀ y2, zeroing p0 n y (p + k, i - k) y2 → Q tt y2) → wp (fill k p) Q y'.
Proof.
  intros Hk (H1 & H2 & H3 & c & -> & Hz) HQ. cbn [fst snd] in *.
  assert (Hb : Forall is_byte (replicate (Z.to_nat k) 0)) by (apply Forall_replicate; by split).
  eapply wp_eq; [reflexivity|]. apply HQ. split; [cbn; lia|]. split; [cbn; lia|]. split; [cbn; lia|]. eexists. split; [reflexivity|].
  replace ((p + k, i - k).1 - p0) with ((p - p0) + k) by (cbn; lia). eapply zeroed_app; [lia|lia|exact Hz|].
  intros b. rewrite mem_byte_patch, length_replicate, Z2Nat.id by lia. replace (p0 + (p - p0)) with p by lia.
  destruct (_ && _) eqn:Eb; [|done]. rewrite nth_lookup, lookup_replicate_2 by lia. done.
Qed.
Lemma zero_longs_run p0 n y x fuel y' (Q : Z * Z → sysst → Prop) : zeroing p0 n y x y' → (Z.to_nat (x.2) < fuel)%nat →
  (∀ x' y2, zeroing p0 n y x' y2 → Q x' y2) → wp (loop fuel zero_longs x) Q y'.
Proof.
  intros Hz Hf HQ. apply (wp_loop (zeroing p0 n y) (λ x _, Z.to_nat (x.2))); [|done|done]. intros [p i] z Hi. unfold zero_longs.
  wp_step; [|wp_step; by apply HQ]. wp_step. eapply zeroing_fill; [|exact Hi|]; [lia|]. intros y2 H2. wp_step. split; [exact H2|cbn; lia].
Qed.
Lemma zero_bytes_run p0 n y x fuel y' (Q : unit → sysst → Prop) : zeroing p0 n y x y' → (Z.to_nat (x.2) < fuel)%nat →
  (∀ y2, zeroing p0 n y (p0 + n, 0) y2 → Q tt y2) → wp (loop fuel zero_bytes x) Q y'.
Proof.
  intros Hz Hf HQ. apply (wp_loop (zeroing p0 n y) (λ x _, Z.to_nat (x.2))); [|done|done]. intros [p i] z Hi. unfold zero_bytes.
  wp_step.
  - wp_step. eapply zeroing_fill; [|exact Hi|]; [lia|]. intros y2 H2. wp_step. split; [exact H2|cbn; lia].
  - wp_step. apply HQ. destruct Hi as (H1 & H2 & H3 & H4). cbn [fst snd] in *. assert (i = 0) by lia. subst i.
    replace (p0 + n) with p by lia. done.
Qed.
Lemma zero_fill_run p n y : 0 < n → wp (zero_fill p n) (λ _ y', ∃ c, y' = with_clicks c y ∧ zeroed p n (clicks (kern y)) c) y.
Proof.
  intros Hn. assert (H0 : zeroing p n y (p, n) y).
  { split; [cbn; lia|]. split; [cbn; lia|]. split; [done|]. exists (clicks (kern y)). rewrite clicks_same. split; [done|].
    cbn. rewrite Z.sub_diag. apply zeroed_none. }
  unfold zero_fill. wp_step. apply (wp_mono _ (λ x y', zeroing p n y x y')).
  { wp_step; [|by wp_step]. wp_step. eapply zeroing_fill; [|exact H0|]; [lia|]. intros y2 H2. by wp_step. }
  intros [p1 i1] y1 H1. wp_step. eapply zero_longs_run; [exact H1|cbn; lia|]. intros [p2 i2] y2 H2. eapply zero_bytes_run; [exact H2|cbn; lia|].
  intros y3 (_ & _ & _ & c & -> & Hz). exists c. split; [done|]. cbn [fst] in Hz. by replace (p + n - p) with n in Hz by lia.
Qed.

Lemma kcall_wp {A} (m : SM A) (Q : A → sysst → Prop) s : wp m Q (ksys s) → ∃ a y, kcall (D := memdrv) m s = Ret a (s <| ksys := y |>) ∧ Q a y.
Proof. intros (a & y & E & HQ)%wp_inv. exists a, y. unfold kcall. by rewrite E. Qed.

Section special.
Context `{Place} `{Image}.

Lemma rdwt_of_schedule m s d r iop s2 : DEVICE m = d → 0 ≤ d < NR_RAMS → 0 < COUNT m →
  m_schedule (PROC_NR m) (the_request m) (on_device (DEVICE m) s) = Ret (r, iop) s2 →
  do_rdwt m s = Ret (if io_nbytes iop <? 0 then io_nbytes iop else COUNT m - io_nbytes iop) s2.
Proof.
  intros Hd Hr Hn E. unfold do_rdwt. rewrite (proj2 (Z.leb_gt _ _)) by lia. erewrite bind_eq by (apply m_prepare_eq; by rewrite Hd).
  cbv beta iota. erewrite bind_eq by exact E. cbv beta iota zeta. destruct (r =? OK); reflexivity.
Qed.
(** What is done for a request with a buffer that is mapped. *)
Definition do_transfer (d op a base : Z) (x : Z * iorequest_s) : MD (Z * iorequest_s) :=
  let '(count, iop) := x in
  let iop' := iop <| io_nbytes := s16 (io_nbytes iop - count) |> in
  if count =? 0 then mret (OK, iop') else
  (if op =? DEV_READ then
     if d =? ZERO_DEV then kcall (zero_fill a (u16 count)) else kcall (phys_copy (u32 (base + io_position iop)) a (u32 count))
   else kcall (phys_copy a (u32 (base + io_position iop)) (u32 count)));;
  mret (OK, iop').
Lemma schedule_transfer m s d : request_ok (PROC_NR m) (the_request m) → clrf (m_type m) OPTIONAL_IO = m_type m → DEVICE m = d → 0 ≤ d < NR_RAMS →
  let a := user_map s (PROC_NR m) (ADDRESS m) (COUNT m) in a ≠ 0 →
  m_schedule (PROC_NR m) (the_request m) (on_device (DEVICE m) s) =
  match m_count d (m_type m) (devs s d) (the_request m) with
  | inr r => Ret r (on_device (DEVICE m) s)
  | inl x => do_transfer d (m_type m) a (dv_base (devs s d)) x (on_device (DEVICE m) s)
  end.
Proof.
  intros [Hp Hpos Hn] Hop Hd Hr a Ha. cbn [io_position io_nbytes the_request] in *. unfold m_schedule. erewrite bind_eq by reflexivity.
  cbn [priv m_device on_device upd upd_priv upd_m_device the_request io_request].
  rewrite Hd. erewrite bind_eq by by apply m_geom_eq. erewrite bind_eq by by apply numap_eq. cbn [io_buf io_nbytes the_request].
  rewrite u32_id by lia. change (user_map _ _ _ _) with a. rewrite (proj2 (Z.eqb_neq a 0)), Hop by done. by destruct (m_count _ _ _ _) as [[count iop]|].
Qed.

(** C29: the null device and the device of zeros.  With a buffer that is mapped,
    reading the null device gives the end of the file and writing to it uses
    everything up, both without touching memory; reading the device of zeros
    clears exactly the bytes asked for, though the code clears them in odd bytes
    and longs, and writing to it is an error. *)
Theorem null_and_zero (m : message) (s : memst) (Hq : request_ok (PROC_NR m) (the_request m)) (Hm : m_type m = DEV_READ ∨ m_type m = DEV_WRITE)
    (Ha : user_map s (PROC_NR m) (ADDRESS m) (COUNT m) ≠ 0) :
  let a := user_map s (PROC_NR m) (ADDRESS m) (COUNT m) in
  let s1 := on_device (DEVICE m) s in
  (DEVICE m = NULL_DEV → do_rdwt m s = Ret (if m_type m =? DEV_READ then 0 else COUNT m) s1) ∧
  (DEVICE m = ZERO_DEV → m_type m = DEV_WRITE → do_rdwt m s = Ret EIO s1) ∧
  (DEVICE m = ZERO_DEV → m_type m = DEV_READ → ∃ c, do_rdwt m s = Ret (COUNT m) (with_mem c s1) ∧ zeroed a (COUNT m) (mem_of s) c).
Proof.
  intros a s1. pose proof (q_bytes _ _ Hq) as Hn. cbn [io_nbytes the_request] in Hn.
  assert (Hop : clrf (m_type m) OPTIONAL_IO = m_type m) by by destruct Hm as [-> | ->].
  pose proof (λ d Hd Hr, schedule_transfer m s d Hq Hop Hd Hr Ha) as Hgo. cbv zeta in Hgo. fold a s1 in Hgo.
  pose proof (λ d r iop s2 Hd Hr, rdwt_of_schedule m s d r iop s2 Hd Hr (proj1 Hn)) as Hsched. fold s1 in Hsched.
  assert (Hs16 : s16 (COUNT m) = COUNT m) by (apply s16_id; lia).
  split_and!.
  - intros Hd. specialize (Hgo _ Hd ltac:(done)). unfold m_count, do_transfer in Hgo. change (NULL_DEV =? NULL_DEV) with true in Hgo. cbv iota in Hgo.
    change (0 =? 0) with true in Hgo. cbv iota in Hgo. rewrite (Hsched _ _ _ _ Hd ltac:(done) Hgo). clear Hgo Hsched.
    destruct Hm as [-> | ->].
    + change (DEV_READ =? DEV_WRITE) with false. change (DEV_READ =? DEV_READ) with true. cbn [io_nbytes the_request upd upd_io_nbytes].
      rewrite Z.sub_0_r, Hs16, (proj2 (Z.ltb_ge _ _)) by lia. f_equal. lia.
    + change (DEV_WRITE =? DEV_WRITE) with true. change (DEV_WRITE =? DEV_READ) with false. cbn [io_nbytes the_request upd upd_io_nbytes].
      change (s16 (0 - 0)) with 0. cbn [Z.ltb Z.compare]. f_equal. lia.
  - intros Hd Hw. specialize (Hgo _ Hd ltac:(done)). unfold m_count, do_transfer in Hgo. change (ZERO_DEV =? NULL_DEV) with false in Hgo. change (ZERO_DEV =? ZERO_DEV) with true in Hgo.
    rewrite Hw in Hgo. change (DEV_WRITE =? DEV_WRITE) with true in Hgo. cbv iota in Hgo. by rewrite (Hsched _ _ _ _ Hd ltac:(done) Hgo).
  - intros Hd Hw. specialize (Hgo _ Hd ltac:(done)). unfold m_count, do_transfer in Hgo. change (ZERO_DEV =? NULL_DEV) with false in Hgo. change (ZERO_DEV =? ZERO_DEV) with true in Hgo.
    rewrite Hw in Hgo. change (DEV_READ =? DEV_WRITE) with false in Hgo. change (DEV_READ =? DEV_READ) with true in Hgo. cbv iota in Hgo.
    cbn [io_nbytes io_position the_request upd upd_io_nbytes] in Hgo. rewrite (proj2 (Z.eqb_neq (COUNT m) 0)), (u16_id (COUNT m)), Z.sub_diag in Hgo by lia.
    destruct (kcall_wp _ _ s1 (zero_fill_run a (COUNT m) (ksys s1) ltac:(lia))) as ([] & y & Ek & c & -> & Hz).
    exists c. split; [|exact Hz]. erewrite bind_eq in Hgo by exact Ek. rewrite (Hsched _ _ _ _ Hd ltac:(done) Hgo).
    cbn [io_nbytes upd upd_io_nbytes]. change (s16 0) with 0. cbn [Z.ltb Z.compare]. f_equal. lia.
Qed.
End special.

(** FS reads 300 bytes of the device of zeros. *)
Definition zero_request : message := Message FS_PROC_NR DEV_READ ZERO_DEV FS_PROC_NR 300 0 0 260001 0.
Definition fs_kernel : kernel := boot_state sizes0 m0.
Definition mem_sample (k : kernel) (l : list memory) (base size : Z) : memst :=
  Drvst ((sys_of k) <| mem_chunks := l |>) (<[0 := Device_ base size]> (λ _, Device_ 0 0)) (Memdrv_ 0 0 0).
Lemma fs_buffer v n : v = 260000 ∨ v = 260001 ∨ v = 262000 ∨ v = 270000 → n = 24 ∨ n = 300 ∨ n = 1024 → umap (procs fs_kernel 1) D_SEG v n = v.
Proof. intros [-> | [-> | [-> | ->]]] [-> | [-> | ->]]; by vm_compute. Qed.
Lemma null_and_zero_witness : let s := mem_sample fs_kernel [] 0 0 in
  ∃ c, do_rdwt zero_request s = Ret 300 (with_mem c (on_device ZERO_DEV s)) ∧ zeroed 260001 300 (mem_of s) c.
Proof.
  pose proof (fs_buffer 260001 300) as Hv. revert Hv. generalize fs_kernel. intros k Hv s.
  assert (Ha : user_map s (PROC_NR zero_request) (ADDRESS zero_request) (COUNT zero_request) = 260001) by (apply Hv; [right; by left|right; by left]).
  destruct (null_and_zero zero_request s) as (_ & _ & Hz); [split; [done|split; [done|done]|split; done]|by left|by rewrite Ha|].
  destruct (Hz eq_refl eq_refl) as (c & E & Hc). rewrite Ha in Hc. exists c. by split.
Defined.
