(* ===== verification/Partp.v ===== *)
(** * Partitions

    kernel/drvlib.c (Driver.v) against what it relies on of a device, the class
    [DeviceLaws], of which the memory task is an instance: partitions are within
    their device, and the table of a primary partition is sorted. *)

From Stdlib Require Import Sorting.Sorted.
From S2P Require Import Prelude Sigset Proc Alloc Ksys Ksysp Kmem Driver Memdrv Memp Boot Ksafe.

(** ** Sorting a table *)

(** Used entries by their first sector, then the unused ones. *)
Definition entry_le (a b : part_entry) : Prop := sysind b = NO_PART ∨ (sysind a ≠ NO_PART ∧ lowsec a ≤ lowsec b).
#[export] Instance entry_le_trans : Transitive entry_le.
Proof. intros a b c. unfold entry_le. intros [H1|[H1 H1']] [H2|[H2 H2']]; try (by left). right. split; [done|lia]. Qed.
Lemma out_of_order_le a b : if out_of_order a b then entry_le b a else entry_le a b.
Proof.
  unfold out_of_order, entry_le. destruct (Z.eqb_spec (sysind a) NO_PART) as [E|E]; cbn [orb]; [by left|].
  destruct (Z.ltb_spec (lowsec b) (lowsec a)) as [L|L]; cbn [andb]; [|right; split; [done|lia]].
  destruct (Z.eqb_spec (sysind b) NO_PART) as [E'|E']; cbn [negb]; [by left|]. right. split; [done|lia].
Qed.

(** The carried entry passes a sorted rest. *)
Lemma sort_from_sorted a l : StronglySorted entry_le l → Forall (entry_le a) l →
  StronglySorted entry_le (sort_from a l) ∧ sort_from a l ≡ₚ a :: l.
Proof.
  revert a. induction l as [|b l IH]; intros a Hs Ha; cbn [sort_from]; [by repeat constructor|].
  apply StronglySorted_inv in Hs as [Hs Hb]. apply Forall_cons in Ha as [Hab Ha]. pose proof (out_of_order_le a b) as Ho.
  destruct (out_of_order a b).
  - destruct (IH a Hs Ha) as [I1 I2]. split; [|rewrite I2; apply perm_swap]. constructor; [done|]. rewrite I2. by constructor.
  - destruct (IH b Hs Hb) as [I1 I2]. split; [|by rewrite I2]. constructor; [done|]. rewrite I2. by constructor.
Qed.
(** The last [k] entries are in their places. *)
Definition settled (k : nat) (l : list part_entry) : Prop :=
  ∃ l1 l2, l = l1 ++ l2 ∧ length l2 = k ∧ StronglySorted entry_le l2 ∧ ∀ x y, x ∈ l1 → y ∈ l2 → entry_le x y.
Lemma sort_from_settles a l1 l2 : StronglySorted entry_le l2 → (∀ x y, x ∈ a :: l1 → y ∈ l2 → entry_le x y) →
  ∃ r1 r2 mx, sort_from a (l1 ++ l2) = r1 ++ r2 ∧ r1 ++ r2 ≡ₚ a :: l1 ++ l2 ∧ r2 ≡ₚ mx :: l2 ∧ StronglySorted entry_le r2 ∧
    (∀ x, x ∈ r1 → x ∈ a :: l1 ∧ entry_le x mx) ∧ entry_le a mx.
Proof.
  intros Hs. revert a. induction l1 as [|b l1 IH]; intros a Hle.
  - destruct (sort_from_sorted a l2 Hs) as [I1 I2]; [apply Forall_forall; intros y Hy; apply Hle; [left|done]|].
    assert (Haa : entry_le a a) by (unfold entry_le; destruct (decide (sysind a = NO_PART)); [by left|right; lia]).
    exists [], (sort_from a l2), a. split_and!; try done. intros x Hx. by apply elem_of_nil in Hx.
  - cbn [sort_from app]. pose proof (out_of_order_le a b) as Ho. destruct (out_of_order a b).
    + destruct (IH a) as (r1 & r2 & mx & E & Ep & Em & Hr & Hl & Ha); [intros x y Hx; apply Hle; set_solver|].
      exists (b :: r1), r2, mx. rewrite E. split_and!; try done.
      * cbn. rewrite Ep. apply perm_swap.
      * intros x [->|Hx]%elem_of_cons; [split; [set_solver|by etrans]|]. destruct (Hl x Hx). split; [set_solver|done].
    + destruct (IH b) as (r1 & r2 & mx & E & Ep & Em & Hr & Hl & Hb); [intros x y Hx; apply Hle; set_solver|].
      exists (a :: r1), r2, mx. rewrite E. split_and!; try done; [cbn; by rewrite Ep| |by etrans].
      intros x [->|Hx]%elem_of_cons; [split; [set_solver|by etrans]|]. destruct (Hl x Hx). split; [set_solver|done].
Qed.
Lemma sort_pass_settles k l : settled k l → (k < length l)%nat → settled (S k) (sort_pass l) ∧ sort_pass l ≡ₚ l.
Proof.
  intros (l1 & l2 & -> & Hk & Hs & Hle) Hlen. rewrite length_app in Hlen. destruct l1 as [|a l1]; [cbn in Hlen; lia|].
  destruct (sort_from_settles a l1 l2 Hs Hle) as (r1 & r2 & mx & E & Ep & Em & Hr & Hl & _). cbn [sort_pass app]. rewrite E.
  split; [|done]. exists r1, r2. split_and!; try done; [rewrite Em; cbn; lia|]. intros x y Hx Hy. rewrite Em in Hy.
  destruct (Hl x Hx) as [Hin Hmx]. apply elem_of_cons in Hy as [->|Hy]; [done|by apply Hle].
Qed.
Lemma sort_passes n l : (n ≤ length l)%nat → settled n (Nat.iter n sort_pass l) ∧ Nat.iter n sort_pass l ≡ₚ l.
Proof.
  induction n as [|n IH]; intros Hn.
  - split; [|done]. exists l, []. split_and!; [by rewrite app_nil_r|done|constructor|]. intros x y _ Hy. by apply elem_of_nil in Hy.
  - destruct IH as [I1 I2]; [lia|]. rewrite Nat.iter_succ.
    destruct (sort_pass_settles n _ I1) as [S1 S2]; [rewrite I2; lia|]. split; [done|by rewrite S2].
Qed.

(** The table of a primary partition is sorted: the same four entries, the
    used ones first in the order of their first sectors, the unused ones last. *)
Lemma sort_sorts table : length table = 4%nat → StronglySorted entry_le (sort table) ∧ sort table ≡ₚ table.
Proof.
  intros Hlen. unfold sort. change (Z.to_nat NR_PARTITIONS) with 4%nat. destruct (sort_passes 4 table ltac:(lia)) as [(l1 & l2 & E & Hk & Hs & _) Hp].
  split; [|done]. assert (l1 = []) as ->; [|by rewrite E].
  apply Permutation_length in Hp. rewrite E, length_app in Hp. destruct l1; [done|]. cbn in Hp. lia.
Qed.

(** ** Within the device *)

(** What the partitions rely on of a driver: the device that a minor number
    prepares is fixed, and in the states [dev_ok] of the driver its work ends and
    does not change the table of devices. *)
Class DeviceLaws (D : Type) `{Device D} `{Place} := {
  dev_ok : drvst D → Prop;
  prepared : Z → option Z;
  law_devs f s : dev_ok s → dev_ok (s <| devs := f |>);
  law_prepare d s : dev_ok s → wp (dr_prepare d) (λ r s', r = prepared d ∧ dev_ok s' ∧ devs s' = devs s) s;
  law_schedule iop s : dev_ok s → 0 < io_nbytes iop < 2 ^ 15 → wp (dr_schedule self iop) (λ _ s', dev_ok s' ∧ devs s' = devs s) s;
  law_finish s : dev_ok s → wp dr_finish (λ _ s', dev_ok s' ∧ devs s' = devs s) s
}.

Section partitions.
Context {D : Type} `{DeviceLaws D}.
Implicit Types (s : drvst D).

Lemma rdwt_devs m s : dev_ok s → PROC_NR m = self → COUNT m < 2 ^ 15 → wp (do_rdwt m) (λ _ s', dev_ok s' ∧ devs s' = devs s) s.
Proof.
  intros Hs Hp Hc. unfold do_rdwt. wp_step; [by wp_step|]. wp_step. eapply wp_mono; [by apply law_prepare|]. cbn beta. intros [i|] s1 (_ & I1 & E1); [|by wp_step].
  wp_step. rewrite Hp. eapply wp_mono; [apply law_schedule; [done|cbn; lia]|]. cbn beta. intros [r iop] s2 [I2 E2]. wp_step.
  apply (wp_mono _ (λ _ s', dev_ok s' ∧ devs s' = devs s2)).
  - wp_step; [|done]. intros _. wp_step. eapply wp_mono; [by apply law_finish|]. cbn beta. intros _ s3 E3. by wp_step.
  - intros _ s3 [I3 E3]. wp_step. split; [done|congruence].
Qed.

(** The entries have the ranges of their types. *)
Definition entry_ok (pe : part_entry) : Prop := 0 ≤ lowsec pe < 2 ^ 32 ∧ 0 ≤ size pe < 2 ^ 32.
Lemma r32_bytes_range l o : Forall is_byte l → 0 ≤ r32 l o < 2 ^ 32.
Proof.
  intros Hl. assert (Hn : ∀ i, 0 ≤ nth i l 0 < 256).
  { intros i. rewrite nth_lookup. destruct (l !! i) as [x|] eqn:E; [|cbn; lia]. rewrite Forall_lookup in Hl. apply (Hl i x E). }
  unfold r32, r16. pose proof (Hn (Z.to_nat o)). pose proof (Hn (Z.to_nat (o + 1))). pose proof (Hn (Z.to_nat (o + 2))). pose proof (Hn (Z.to_nat (o + 2 + 1))). lia.
Qed.
Lemma get_part_table_devs d o s : dev_ok s →
  wp (get_part_table d o) (λ r s', dev_ok s' ∧ devs s' = devs s ∧ match r with Some t => length t = 4%nat ∧ Forall entry_ok t | None => True end) s.
Proof.
  intros Hs. unfold get_part_table. wp_step. eapply wp_mono; [by apply rdwt_devs|]. cbn beta. intros r s1 [I1 E1]. wp_step; [by wp_step|]. wp_step.
  assert (Ec : kcall (copy_in tmp_buf SECTOR_SIZE) s1 = Ret (bytes_at (clicks (kern (ksys s1))) tmp_buf SECTOR_SIZE) s1) by by destruct s1.
  eapply wp_eq; [exact Ec|]. cbn beta. wp_step; [by wp_step|]. wp_step. split; [done|]. split; [done|]. split; [done|].
  apply Forall_map, Forall_forall. intros i _. split; apply r32_bytes_range; apply Forall_map, Forall_forall; intros; apply mem_byte_range.
Qed.

(** [d] is empty, or within [parent]. *)
Definition within (parent d : device) : Prop :=
  dv_size d = 0 ∨ (dv_base parent ≤ dv_base d ∧ 0 < dv_size d ∧ dv_base d + dv_size d ≤ dv_base parent + dv_size parent).
Definition aligned (dv : device) : Prop := 0 ≤ dv_base dv ∧ 0 ≤ dv_size dv < 2 ^ 32 ∧ dv_base dv + dv_size dv ≤ 2 ^ 32 ∧ dv_base dv mod SECTOR_SIZE = 0.
Lemma shl9 x : Z.shiftl x SECTOR_SHIFT = x * 512.
Proof. unfold SECTOR_SHIFT. by rewrite Z.shiftl_mul_pow2 by lia. Qed.
Lemma part_within parent pe : aligned parent → entry_ok pe →
  within parent (part_device (Z.shiftr (dv_base parent) SECTOR_SHIFT)
                   (u32 (Z.shiftr (dv_base parent) SECTOR_SHIFT + Z.shiftr (dv_size parent) SECTOR_SHIFT)) pe).2.
Proof.
  intros (A1 & A2 & A3 & A4) (E1 & E2). unfold SECTOR_SHIFT, SECTOR_SIZE in *. rewrite !Z.shiftr_div_pow2 by lia. change (2 ^ 9) with 512.
  pose proof (Z.div_mod (dv_base parent) 512 ltac:(lia)) as B. pose proof (Z.div_mod (dv_size parent) 512 ltac:(lia)) as C.
  pose proof (Z.mod_pos_bound (dv_size parent) 512 ltac:(lia)). set (base := dv_base parent / 512) in *. set (len := dv_size parent / 512) in *.
  rewrite (u32_id (base + len)) by lia. unfold within, part_device. cbn [snd dv_base dv_size]. set (lim := u32 (lowsec pe + size pe)).
  pose proof (Z.mod_pos_bound (lowsec pe + size pe) (2 ^ 32) ltac:(lia)) as Hlim. fold lim in Hlim. change (0 ≤ lim < 2 ^ 32) in Hlim. clearbody lim.
  rewrite !shl9.
  match goal with |- context [if _ <? (if lowsec pe <? base then _ else _) then _ else ?x] => set (p2 := x) end.
  assert (Hp2 : p2 ≤ base + len) by (unfold p2; repeat case_match; lia). clearbody p2.
  set (low := if lowsec pe <? base then base else lowsec pe). assert (Hlow : base ≤ low ∧ 0 ≤ low < 2 ^ 32) by (unfold low; destruct (Z.ltb_spec (lowsec pe) base); lia).
  clearbody low. destruct (Z.ltb_spec p2 low) as [|Hlt]; [left; by rewrite Z.sub_diag|].
  destruct (decide (p2 = low)) as [->|]; [left; by rewrite Z.sub_diag|]. right.
  rewrite A4 in B. clearbody base len. rewrite (u32_id (low * 512)), (u32_id ((p2 - low) * 512)) by lia. lia.
Qed.

Lemma set_parts_within parent base limit table device dv s : base = Z.shiftr (dv_base parent) SECTOR_SHIFT →
  limit = u32 (base + Z.shiftr (dv_size parent) SECTOR_SHIFT) → aligned parent → Forall entry_ok table → dev_ok s →
  0 ≤ dv → dv + Z.of_nat (length table) ≤ nr_devs →
  wp (set_parts base limit (λ _ _ _, mret tt) table device dv) (λ _ s', dev_ok s' ∧ ∀ x,
    if decide (dv ≤ x < dv + Z.of_nat (length table)) then within parent (devs s' x) else devs s' x = devs s x) s.
Proof.
  intros Eb El Hp Ht. revert device dv s. induction Ht as [|pe table Hpe Ht IH]; intros device dv s Hs Hdv Hn; cbn [set_parts length] in *.
  { wp_step. split; [done|]. intros x. case_decide; [lia|done]. }
  pose proof (part_within parent pe Hp Hpe) as Hw. rewrite <- Eb, <- El in Hw. destruct (part_device base limit pe) as [low d]. cbn [snd] in Hw.
  wp_step. unfold set_dev. replace ((0 <=? dv) && (dv <? nr_devs)) with true by lia. wp_step. wp_step. wp_step.
  eapply wp_mono; [apply IH; [by apply law_devs|lia..]|]. cbn beta. intros _ s' [I Hx']. split; [done|].
  intros x. specialize (Hx' x). case_decide as Hx; case_decide as Hx2; try lia; try done.
  - cbn in Hx'. rewrite Hx'. replace x with dv by lia. by rewrite fn_lookup_insert.
  - cbn in Hx'. rewrite Hx'. rewrite fn_lookup_insert_ne by lia. done.
Qed.

Lemma within_trans a b c : dv_size b ≠ 0 → within a b → within b c → within a c.
Proof. unfold within. lia. Qed.
Lemma part_aligned parent pe : let d := (part_device (Z.shiftr (dv_base parent) SECTOR_SHIFT)
                   (u32 (Z.shiftr (dv_base parent) SECTOR_SHIFT + Z.shiftr (dv_size parent) SECTOR_SHIFT)) pe).2 in
  aligned parent → entry_ok pe → dv_size d ≠ 0 → aligned d.
Proof.
  intros d Hp He Hd. pose proof (part_within parent pe Hp He) as Hw. fold d in Hw. destruct Hp as (A1 & A2 & A3 & A4).
  destruct Hw as [|Hw]; [done|]. split_and!; try lia.
  subst d. unfold part_device; cbn [snd dv_base]. rewrite shl9. unfold u32, SECTOR_SIZE.
    by rewrite <- (Znumtheory.Zmod_div_mod 512 (2 ^ 32)), Z.mod_mul by (done || by exists (2 ^ 23)).
Qed.

(** Every device is as before or within [parent]. *)
Definition inside (parent : device) s s' : Prop := ∀ x, devs s' x = devs s x ∨ within parent (devs s' x).
Lemma inside_trans parent s1 s2 s3 : inside parent s1 s2 → inside parent s2 s3 → inside parent s1 s3.
Proof. intros I1 I2 x. destruct (I2 x) as [E|?]; [|by right]. rewrite E. apply I1. Qed.

(** The loop over a table, with work [sub] for each partition that leaves every
    device as it was or within [parent]. *)
Lemma set_parts_run parent base limit sub table device dv s : base = Z.shiftr (dv_base parent) SECTOR_SHIFT →
  limit = u32 (base + Z.shiftr (dv_size parent) SECTOR_SHIFT) → aligned parent → Forall entry_ok table → dev_ok s →
  0 ≤ dv → dv + Z.of_nat (length table) ≤ nr_devs →
  (∀ k pe s, 0 ≤ k < Z.of_nat (length table) → pe ∈ table → dev_ok s → devs s (dv + k) = (part_device base limit pe).2 →
     wp (sub (device + k) pe (part_device base limit pe).1) (λ _ s', dev_ok s' ∧ inside parent s s') s) →
  wp (set_parts base limit sub table device dv) (λ _ s', dev_ok s' ∧ inside parent s s' ∧
    ∀ x, dv ≤ x < dv + Z.of_nat (length table) → within parent (devs s' x)) s.
Proof.
  intros Eb El Hp Ht. revert device dv s. induction Ht as [|pe table Hpe Ht IH]; intros device dv s Hs Hdv Hn Hsub; cbn [set_parts length] in *.
  { wp_step. split_and!; [done|intros x; by left|lia]. }
  pose proof (part_within parent pe Hp Hpe) as Hw. rewrite <- Eb, <- El in Hw.
  pose proof (λ s E1 E2, Hsub 0 pe s ltac:(lia) ltac:(left) E1 E2) as Hsub0. rewrite !Z.add_0_r in Hsub0.
  destruct (part_device base limit pe) as [low d]. cbn [fst snd] in *.
  wp_step. unfold set_dev. replace ((0 <=? dv) && (dv <? nr_devs)) with true by lia. wp_step.
  set (s1 := s <| devs := _ |>). assert (H01 : inside parent s s1).
  { intros x. cbn. destruct (decide (dv = x)) as [<-|]; [rewrite fn_lookup_insert; by right|rewrite fn_lookup_insert_ne by done; by left]. }
  assert (E1 : within parent (devs s1 dv)) by (cbn; by rewrite fn_lookup_insert).
  wp_step. eapply wp_mono; [apply (Hsub0 s1); [by apply law_devs|cbn; by rewrite fn_lookup_insert]|]. cbn beta. intros _ s2 (I2 & H12).
  eapply wp_mono; [apply (IH (device + 1) (dv + 1) s2 I2); [lia..|]|].
  - intros k pe' s' Hk Hin Hs' E'. rewrite <- Z.add_assoc. apply (Hsub (1 + k) pe' s'); [lia|by right|done|]. by rewrite Z.add_assoc.
  - cbn beta. intros _ s3 (I3 & H23 & Hall). split_and!; [done|by eapply inside_trans; [|eapply inside_trans]|].
    intros x Hx. destruct (decide (x = dv)) as [->|]; [|apply Hall; lia].
    destruct (H23 dv) as [->|?]; [|done]. by destruct (H12 dv) as [->|?].
Qed.

(** The table of a device, read as subpartitions or those of a floppy disk. *)
Lemma partition_plain d style i s : style = P_FLOPPY ∨ style = P_SUB → prepared d = Some i → 0 ≤ i < nr_devs →
  (dv_size (devs s i) ≠ 0 → aligned (devs s i)) →
  match prepared (first_part d style) with Some j => 0 ≤ j ∧ j + 4 ≤ nr_devs | None => True end → dev_ok s →
  wp (partition_with (λ _ _ _, mret tt) d style) (λ _ s', dev_ok s' ∧ (devs s' = devs s ∨ dv_size (devs s i) ≠ 0 ∧ 
    ∃ j, prepared (first_part d style) = Some j ∧
      ∀ x, if decide (j ≤ x < j + 4) then within (devs s i) (devs s' x) else devs s' x = devs s x)) s.
Proof.
  intros Hstyle Hi Hir Hal Hj Hs. unfold partition_with.
  wp_step. eapply wp_mono; [by apply law_prepare|]. cbn beta. intros ? s1 (-> & I1 & E1). rewrite Hi.
  wp_step. unfold get_dev. replace ((0 <=? i) && (i <? nr_devs)) with true by lia. wp_step. rewrite E1.
  destruct (Z.eqb_spec (dv_size (devs s i)) 0) as [|Hne]; [wp_step; by split; [|left]|].
  wp_step. eapply wp_mono; [by apply get_part_table_devs|]. cbn beta. intros [t|] s2 (I2 & E2 & Ht); [|wp_step; split; [done|left; congruence]].
  destruct Ht as [Hl Ht]. replace (style =? P_PRIMARY) with false by (unfold P_FLOPPY, P_SUB, P_PRIMARY in *; lia).
  wp_step. eapply wp_mono; [by apply law_prepare|]. cbn beta. intros ? s3 (-> & I3 & E3).
  destruct (prepared (first_part d style)) as [j|] eqn:Ej; [|wp_step; split; [done|left; congruence]].
  eapply wp_mono; [apply (set_parts_within (devs s i)); try done; try lia; by apply Hal|].
  cbn beta. intros _ s4 [I4 H4]. split; [done|]. right. split; [done|]. exists j. split; [done|]. intros x. specialize (H4 x).
  rewrite Hl in H4. change (Z.of_nat 4) with 4 in H4. case_decide; [done|]. by rewrite H4, E3, E2, E1.
Qed.

(** The layout of a hard disk [d] with the index [i]: its primary partitions
    are the four devices from [j] on, and those of the subpartitions of each are
    in the table. *)
Definition hard_disk (d i j : Z) : Prop :=
  prepared d = Some i ∧ ∀ k, 0 ≤ k < 4 → prepared (d + 1 + k) = Some (j + k) ∧
    match prepared (sub_device (d + 1 + k)) with Some j' => 0 ≤ j' ∧ j' + 4 ≤ nr_devs | None => True end.
(** No entry of the table of [d] is an extended partition. *)
Definition no_extended (d : Z) : Prop :=
  ∀ s t s', dev_ok s → get_part_table d 0 s = Ret (Some t) s' → Forall (λ pe, sysind pe ≠ EXT_PART) t.

Lemma partition_primary d i j s : hard_disk d i j → no_extended d → 0 ≤ i < nr_devs → 0 ≤ j ∧ j + 4 ≤ nr_devs →
  aligned (devs s i) → dev_ok s →
  wp (partition d P_PRIMARY) (λ _ s', devs s' = devs s ∨ inside (devs s i) s s' ∧
    ∀ x, j ≤ x < j + 4 → within (devs s i) (devs s' x)) s.
Proof.
  intros [Hi Hl] Hne Hir Hj Hal Hs. unfold partition. change (P_PRIMARY =? P_PRIMARY) with true. cbv iota. unfold partition_with at 1.
  wp_step. eapply wp_mono; [by apply law_prepare|]. cbn beta. intros ? s1 (-> & I1 & E1). rewrite Hi.
  wp_step. unfold get_dev. replace ((0 <=? i) && (i <? nr_devs)) with true by lia. wp_step. rewrite E1.
  destruct (Z.eqb_spec (dv_size (devs s i)) 0) as [|Hsz]; [wp_step; by left|].
  wp_step. destruct (wp_inv _ _ _ (get_part_table_devs d 0 s1 I1)) as (ot & s2 & Et & I2 & E2 & Ht). eapply wp_eq; [exact Et|].
  destruct ot as [t|]; [|wp_step; left; congruence]. destruct Ht as [Hlen Ht].
  pose proof (Hne s1 t s2 I1 Et) as Hnx. change (P_PRIMARY =? P_PRIMARY) with true. cbv iota.
  destruct (sort_sorts t Hlen) as [_ Hperm]. rewrite <- Hperm in Hnx, Ht. assert (Hls : length (sort t) = 4%nat) by by rewrite Hperm.
  change (first_part d P_PRIMARY) with (d + 1). destruct (Hl 0 ltac:(lia)) as [Hj0 _]. rewrite !Z.add_0_r in Hj0.
  wp_step. eapply wp_mono; [by apply law_prepare|]. cbn beta. intros ? s3 (-> & I3 & E3). rewrite Hj0.
  eapply wp_mono; [apply (set_parts_run (devs s i) _ _ subpartition (sort t)); try done; try lia|].
  2:{ cbn beta. intros _ s4 (I4 & H4 & Hall). right. rewrite Hls in Hall. split; [|done]. intros x. destruct (H4 x) as [E|?]; [left; by rewrite E, E3, E2, E1|by right]. }
  rewrite Hls. intros k pe s4 Hk Hin I4 Edev. rewrite Forall_forall in Hnx, Ht. specialize (Hnx pe Hin). specialize (Ht pe Hin).
  unfold subpartition. rewrite (proj2 (Z.eqb_neq _ _) Hnx). wp_step.
  apply (wp_mono _ (λ _ s', dev_ok s' ∧ inside (devs s i) s4 s')); [|intros _ s' H'; by wp_step].
  apply wp_when; [|intros _; split; [done|intros x; by left]]. intros _. destruct (Hl k Hk) as [Hpk Hsub].
  eapply wp_mono; [apply (partition_plain _ P_SUB (j + k) s4 ltac:(by right) Hpk); [lia| |done|done]|].
  { rewrite Edev. by apply part_aligned. }
  cbn beta. intros _ s5 [I5 [E5|(Hz & j' & _ & H5)]]; (split; [done|]); intros x; [left; by rewrite E5|].
  specialize (H5 x). case_decide; [right|by left]. eapply within_trans; [exact Hz| |exact H5]. rewrite Edev. by apply part_within.
Qed.

(** C12: partitions are within their device.  Reading the partition table of a
    floppy disk, or of a primary partition for its subpartitions, ends, and the
    four devices that it sets are empty or within the sectors of the device,
    whatever the table says; no other device is touched, and none at all without
    a valid table.  Reading the table of a hard disk of which no entry is an
    extended partition ends too, with the subpartitions of its partitions: every
    device that is changed is empty or within the disk, and so are the four
    primary partitions.  (Following the chain of an extended partition need not
    end, and its partitions are not kept within the disk.) *)
Theorem partition_within (d style i j : Z) (s : drvst D)
    (Hstyle : if decide (style = P_PRIMARY) then hard_disk d i j ∧ no_extended d
              else (style = P_FLOPPY ∨ style = P_SUB) ∧ prepared d = Some i ∧ prepared (first_part d style) = Some j)
    (Hir : 0 <= i < nr_devs) (Hjr : 0 <= j ∧ j + 4 <= nr_devs) (Hal : aligned (devs s i)) (Hs : dev_ok s) :
  ∃ s', partition d style s = Ret tt s' ∧
    (devs s' = devs s ∨ ∀ x, if decide (j <= x < j + 4) then within (devs s i) (devs s' x)
       else devs s' x = devs s x ∨ style = P_PRIMARY ∧ within (devs s i) (devs s' x)).
Proof.
  assert (Hw : wp (partition d style) (λ _ s', devs s' = devs s ∨ ∀ x, if decide (j <= x < j + 4) then within (devs s i) (devs s' x)
       else devs s' x = devs s x ∨ style = P_PRIMARY ∧ within (devs s i) (devs s' x)) s).
  { case_decide as Hp.
    - destruct Hstyle as [Hd Hn]. rewrite Hp. eapply wp_mono; [by apply (partition_primary d i j)|]. cbn beta.
      intros _ s' [?|[I1 I2]]; [by left|right]. intros x. case_decide; [by apply I2|]. destruct (I1 x); tauto.
    - destruct Hstyle as (Hst & Hi & Hj). unfold partition. rewrite (proj2 (Z.eqb_neq _ _) Hp).
      eapply wp_mono; [apply (partition_plain d style i s Hst Hi Hir); [done|by rewrite Hj|done]|]. cbn beta.
      intros _ s' [_ [?|(_ & j' & Ej & I1)]]; [by left|right]. intros x. specialize (I1 x). rewrite Hj in Ej. injection Ej as <-.
      case_decide; [done|by left]. }
  destruct (wp_inv _ _ _ Hw) as ([] & s' & E & H'). by exists s'.
Qed.
End partitions.

(** The memory task is such a driver. *)
Section mem_laws.
Context `{Place} (Hself : isokprocn self = true).

Lemma kcall_same {A} (m : SM A) (Q : A → memst → Prop) s : wp m (λ a y, ∀ s', devs s' = devs s → priv s' = priv s → Q a s') (ksys s) → wp (kcall m) Q s.
Proof. intros (a & y & E & HQ)%wp_inv. eapply wp_eq; [unfold kcall; by rewrite E|]. by apply HQ. Qed.
Lemma m_schedule_total iop s : 0 ≤ m_device (priv s) < NR_RAMS → 0 < io_nbytes iop < 2 ^ 15 →
  wp (m_schedule self iop) (λ _ s', 0 ≤ m_device (priv s') < NR_RAMS ∧ devs s' = devs s) s.
Proof.
  intros Hd Hn. unfold m_schedule. wp_step. wp_step. wp_step. eapply wp_eq; [by apply m_geom_eq|]. wp_step. eapply wp_eq; [by apply numap_eq|].
  wp_step; [by wp_step|]. destruct (m_count _ _ _ _) as [[count iop']|r] eqn:Ec; [|by wp_step]. wp_step; [by wp_step|]. wp_step.
  apply (wp_mono _ (λ _ s', priv s' = priv s ∧ devs s' = devs s)); [|intros _ s' [E3 E4]; wp_step; by rewrite E3, E4].
  wp_step; [wp_step|]; apply kcall_same; try (eapply wp_eq; [reflexivity|]; done).
  eapply wp_mono; [apply zero_fill_run|done]. unfold m_count in Ec.
  destruct (m_device (priv s) =? NULL_DEV) eqn:En; [injection Ec as <- _; done|].
  match goal with Hz : (m_device (priv s) =? ZERO_DEV) = true |- _ => rewrite Hz in Ec end.
  destruct (_ =? DEV_WRITE); [done|]. injection Ec as <- _. rewrite u16_id; lia.
Qed.
#[export] Instance mem_laws : DeviceLaws memdrv.
Proof.
  refine (Build_DeviceLaws memdrv _ _ (λ s, 0 ≤ m_device (priv s) < NR_RAMS) (λ d, if (d <? 0) || (NR_RAMS <=? d) then None else Some d) _ _ _ _).
  - done.
  - intros d s Hs. cbn [dr_prepare mem_device]. unfold m_prepare. destruct ((d <? 0) || (NR_RAMS <=? d)) eqn:E; [by wp_step|]. wp_step. wp_step. wp_step.
    split; [done|]. split; [cbn; unfold NR_RAMS in *; lia|done].
  - intros iop s Hs Hn. by apply m_schedule_total.
  - intros s Hs. cbn [dr_finish mem_device]. unfold nop_finish. by wp_step.
Defined.
End mem_laws.

(** ** Examples *)

Definition sample_table : list part_entry := [Part_entry 0 0 0 []; Part_entry 0x81 900 100 []; Part_entry 0x81 100 50 []; Part_entry 0x05 200 70 []].
Lemma sort_sorts_witness : map lowsec (sort sample_table) = [100; 200; 900; 0] ∧ StronglySorted entry_le (sort sample_table).
Proof. split; [reflexivity|]. by apply sort_sorts. Defined.

(** A disk of which every sector is the same, with the table of a floppy disk:
    one entry within the disk, one around its end, one of no sectors and one
    that is beyond the disk. *)
Definition sample_sector : list Z :=
  replicate 446 0 ++ concat (map (λ e : Z * Z, [0; 0; 0; 0; 0x81; 0; 0; 0] ++ w32 e.1 ++ w32 e.2) [(10, 20); (30, 0xffffffff); (0, 0); (5000, 10)]) ++ [0x55; 0xAA].
Definition disk_place : Place := {| junk := 0; self := -5; tmp_buf := 0x80000; patience := 10 |}.
Definition sample_disk : Device unit := {|
  nr_devs := 200;
  dr_prepare d := mret (if (0 <=? d) && (d <? 200) then Some d else None);
  dr_schedule _ iop := kcall (copy_out sample_sector (io_buf iop));; mret (OK, iop <| io_nbytes := 0 |>);
  dr_finish := mret OK;
  dr_cleanup := mret tt;
  dr_geometry p := mret p
|}.
Lemma sample_disk_laws : @DeviceLaws unit sample_disk disk_place.
Proof.
  refine (@Build_DeviceLaws unit sample_disk disk_place (λ _, True) (λ d, if (0 <=? d) && (d <? 200) then Some d else None) _ _ _ _).
  - done.
  - intros d s _. cbn [dr_prepare sample_disk]. by wp_step.
  - intros iop s _ _. cbn [dr_schedule sample_disk]. wp_step. eapply wp_eq; [reflexivity|]. by wp_step.
  - intros s _. cbn [dr_finish sample_disk]. by wp_step.
Defined.
Definition floppy (k : kernel) : drvst unit := Drvst (sys_of k) (<[0 := Device_ 0 (1440 * 512)]> (λ _, Device_ 0 0)) tt.
(** A hard disk of 2000 sectors with the same table in every sector. *)
Definition hard (k : kernel) : drvst unit := Drvst (sys_of k) (<[0 := Device_ 0 (2000 * 512)]> (λ _, Device_ 0 0)) tt.
Lemma sample_hard_disk : @hard_disk unit sample_disk disk_place sample_disk_laws 0 0 1.
Proof.
  split; [done|]. intros k Hk. assert (k = 0 ∨ k = 1 ∨ k = 2 ∨ k = 3) as [->|[->|[->| ->]]] by lia; (split; [done|]);
    match goal with |- match ?p with _ => _ end => let v := eval vm_compute in p in change p with v end; cbn; lia.
Qed.
Lemma sample_no_extended : @no_extended unit sample_disk disk_place sample_disk_laws 0.
Proof.
  intros s t s' _ E.
  assert (Hout : ∃ s2 : drvst unit, kcall (copy_out sample_sector 0x80000) s = Ret tt s2 ∧ kcall (copy_in 0x80000 512) s2 = Ret sample_sector s2).
  { eexists. split; [reflexivity|]. unfold kcall, copy_in, gets. cbn [ksys upd upd_ksys kern upd_kern clicks upd_clicks].
    match goal with |- Ret ?a ?b = Ret ?c ?d => assert (Ea : a = c); [|rewrite Ea; by destruct s] end.
    apply (copy_back _ sample_sector 0x80000). unfold sample_sector, is_byte. apply Forall_forall. intros x Hx.
    assert (Hb : forallb (λ x, (0 <=? x) && (x <? 256)) sample_sector = true) by (vm_compute; reflexivity).
    rewrite forallb_forall in Hb. specialize (Hb x ltac:(by apply list_elem_of_In)). lia. }
  destruct Hout as (s2 & E1 & E2).
  assert (Hsch : ∀ iop, io_buf iop = 0x80000 → @dr_schedule unit sample_disk (-5) iop s = Ret (OK, iop <| io_nbytes := 0 |>) s2).
  { intros iop Ei. change ((kcall (copy_out sample_sector (io_buf iop));; mret (OK, iop <| io_nbytes := 0 |>)) s = Ret (OK, iop <| io_nbytes := 0 |>) s2).
    rewrite Ei. by erewrite bind_eq by exact E1. }
  assert (Hrd : @do_rdwt unit sample_disk (Message 0 DEV_READ (s16 0) (@self disk_place) SECTOR_SIZE (s32 (Z.shiftl 0 SECTOR_SHIFT)) 0 (@tmp_buf disk_place) 0) s = Ret SECTOR_SIZE s2).
  { unfold do_rdwt. cbn [COUNT m2_i3]. change (SECTOR_SIZE <=? 0) with false. cbv iota. erewrite bind_eq by reflexivity. cbv beta iota.
    match goal with |- match ?p with _ => _ end _ = _ => change p with (Some 0) end. cbv iota beta.
    erewrite bind_eq by (apply Hsch; reflexivity). reflexivity. }
  unfold get_part_table in E. erewrite bind_eq in E by exact Hrd. cbv beta in E. change (negb (SECTOR_SIZE =? SECTOR_SIZE)) with false in E. cbv iota in E.
  change (@tmp_buf disk_place) with 0x80000 in E. change SECTOR_SIZE with 512 in E. erewrite bind_eq in E by exact E2. cbv beta in E.
  match type of E with (if ?b then _ else _) _ = _ => change b with false in E end. cbv iota in E. injection E as <- _.
  assert (Hb : forallb (λ pe, negb (sysind pe =? EXT_PART)) (map (λ i, part_entry_of sample_sector (PART_TABLE_OFF + PART_ENTRY_SIZE * i)) (seqZ 0 NR_PARTITIONS)) = true)
    by (vm_compute; reflexivity).
  rewrite forallb_forall in Hb. apply Forall_forall. intros pe Hpe%list_elem_of_In Ee. specialize (Hb pe Hpe). by rewrite Ee in Hb.
Qed.
Lemma partition_within_witness :
  (∃ s', @partition unit sample_disk disk_place 0 P_FLOPPY (floppy fs_kernel) = Ret tt s' ∧
    (devs s' = devs (floppy fs_kernel) ∨ within (Device_ 0 (1440 * 512)) (devs s' 113))) ∧
  ∃ s', @partition unit sample_disk disk_place 0 P_PRIMARY (hard fs_kernel) = Ret tt s' ∧
    (devs s' = devs (hard fs_kernel) ∨ within (Device_ 0 (2000 * 512)) (devs s' 2)).
Proof.
  generalize fs_kernel. intros k. split.
  - destruct (@partition_within unit sample_disk disk_place sample_disk_laws 0 P_FLOPPY 0 112 (floppy k)) as (s' & E & Hw);
      [split; [by left|by split]|done|done|split; done|exact I|].
    exists s'. split; [exact E|]. destruct Hw as [Hw|Hw]; [by left|right]. specialize (Hw 113). rewrite decide_True in Hw by lia. exact Hw.
  - destruct (@partition_within unit sample_disk disk_place sample_disk_laws 0 P_PRIMARY 0 1 (hard k)) as (s' & E & Hw);
      [split; [exact sample_hard_disk|exact sample_no_extended]|done|done|split; done|exact I|].
    exists s'. split; [exact E|]. destruct Hw as [Hw|Hw]; [by left|right]. specialize (Hw 2). rewrite decide_True in Hw by lia. exact Hw.
Defined.
