(* ===== verification/Ramdisk.v ===== *)
(** * The RAM disk serves the file system

    The memory task (Memdrv.v) on the requests that FS makes for blocks of the
    RAM disk (Fdev.v, Cache.v): it does what the cache relies on of a disk, that
    a block that is read is the one last written ([on_disk]).  The two models
    meet in the messages and in the memory of FS. *)

From S2P Require Import Prelude Fstate Fdev Cache Fwp Cachewf Cachep Cachesem.
From S2P Require Import Sigset Proc Alloc Ksys Ksysp Kmem Driver Memdrv Memp Boot Ksafe.

(** The device number of the RAM disk in FS. *)
Definition RAM : Z := 0x100.
(** The message of FS with the address of its buffer, as the task receives it. *)
Definition to_task (addr : Z) (mm : Fstate.message) : Proc.message :=
  Proc.Message FS_PROC_NR (Fstate.m_type mm) (Fstate.m2_i1 mm) (Fstate.m2_i2 mm) (Fstate.m2_i3 mm) (Fstate.m2_l1 mm) (Fstate.m2_l2 mm) addr 0.

Lemma ram_disk_dev : disk_dev RAM.
Proof. by left. Qed.
Lemma ram_task : task_of RAM = Fstate.MEM ∧ minor_of RAM = RAM_DEV.
Proof. done. Qed.

(** The RAM disk has [n] blocks. *)
Record ram_disk (n : Z) (s : memst) : Prop := RamDisk {
  r_base : 0 ≤ dv_base (devs s RAM_DEV);
  r_size : dv_size (devs s RAM_DEV) = n * BLOCK_SIZE;
  r_blocks : 0 ≤ n ≤ 2 ^ 21;
  r_end : dv_base (devs s RAM_DEV) + n * BLOCK_SIZE < 2 ^ 32
}.
Definition block_addr (s : memst) (b : Z) : Z := dv_base (devs s RAM_DEV) + b * BLOCK_SIZE.
(** The memory holds what the calls of [log] wrote. *)
Definition holds_disk (image : Z → Z → list Z) (n : Z) (log : list fcall) (s : memst) : Prop :=
  ∀ b, 0 ≤ b < n → bytes_at (mem_of s) (block_addr s b) BLOCK_SIZE = on_disk image log RAM b.
(** A range of memory is outside the disk. *)
Definition off_disk (n a k : Z) (s : memst) : Prop := a + k ≤ dv_base (devs s RAM_DEV) ∨ dv_base (devs s RAM_DEV) + n * BLOCK_SIZE ≤ a.

Lemma ram_device_ok n s : ram_disk n s → device_ok (devs s RAM_DEV).
Proof. intros [H1 H2 H3 H4]. unfold device_ok, BLOCK_SIZE in *. lia. Qed.
Lemma block_pos b : 0 ≤ b < 2 ^ 21 → position b = b * BLOCK_SIZE.
Proof. intros Hb. unfold position. change Fstate.BLOCK_SIZE with BLOCK_SIZE. apply s32_id. unfold BLOCK_SIZE. lia. Qed.

(** What [to_task] makes of a request. *)
Lemma to_task_fields addr op bytes pos : let m := to_task addr (dev_message op (minor_of RAM) Fstate.FS_PROC_NR bytes pos 0 0) in
  m_source m = FS_PROC_NR ∧ m_type m = op ∧ DEVICE m = RAM_DEV ∧ PROC_NR m = FS_PROC_NR ∧ POSITION m = s32 pos ∧
  (0 ≤ bytes < 2 ^ 15 → COUNT m = bytes).
Proof.
  cbv zeta. unfold to_task, DEVICE, PROC_NR, POSITION, COUNT. cbn [m_source m_type m2_i1 m2_i2 m2_i3 m2_l1].
  split_and!; try done; [apply dev_message_pos|]. intros Hb.
  unfold Fstate.m2_i3, dev_message, Fstate.put32, Fstate.put16. cbn. rewrite !fn_lookup_insert_ne, fn_lookup_insert by lia.
  rewrite u16_id, s16_id by lia. done.
Qed.

Section serves.
Context (image : Z → Z → list Z) `{Place} `{Image}.

(** The effect of a call on the contents of the RAM disk. *)
Lemma on_disk_read log pos k b : on_disk image (disk_call Fstate.DEV_READ RAM pos k Fill :: log) RAM b = on_disk image log RAM b.
Proof. cbn [on_disk]. unfold writes_block, disk_call. destruct (_ && _); done. Qed.
Lemma on_disk_write log b l b' k : 0 ≤ b < 2 ^ 22 → 0 ≤ b' < 2 ^ 22 →
  on_disk image (disk_call Fstate.DEV_WRITE RAM (u32 (b * BLOCK_SIZE)) k (Bytes l) :: log) RAM b' = if decide (b' = b) then l else on_disk image log RAM b'.
Proof.
  intros Hb Hb'. cbn [on_disk]. unfold writes_block, disk_call. rewrite dev_message_minor, !Z.eqb_refl, dev_message_pos. cbn [andb].
  change BLOCK_SIZE with Fstate.BLOCK_SIZE. rewrite u32_position by done. case_decide as E.
  - subst b'. by rewrite Z.eqb_refl.
  - destruct (Z.eqb_spec (position b) (position b')) as [Ep|]; [|done]. exfalso. by apply E, position_inj.
Qed.

(** A whole block is within the disk. *)
Lemma block_reach n b s : ram_disk n s → 0 ≤ b < n → reach (devs s RAM_DEV) (b * BLOCK_SIZE) BLOCK_SIZE = BLOCK_SIZE.
Proof. intros [] Hb. unfold reach. rewrite r_size0. unfold BLOCK_SIZE in *. rewrite (proj2 (Z.leb_gt _ _)) by lia. lia. Qed.

Lemma ram_disk_with n s c d : ram_disk n s → ram_disk n (with_mem c (on_device d s)).
Proof. by intros []. Qed.

Lemma off_block n a k s b : off_disk n a k s → 0 ≤ b < n → block_addr s b + BLOCK_SIZE ≤ a ∨ a + k ≤ block_addr s b.
Proof. unfold off_disk, block_addr, BLOCK_SIZE. lia. Qed.
Lemma blocks_apart s b b' : b' ≠ b → block_addr s b' + BLOCK_SIZE ≤ block_addr s b ∨ block_addr s b + BLOCK_SIZE ≤ block_addr s b'.
Proof. unfold block_addr, BLOCK_SIZE. lia. Qed.

(** The task does a request for one block. *)
Lemma one_block n b addr op s : ram_disk n s → 0 ≤ b < n → op = DEV_READ ∨ op = DEV_WRITE → 0 ≤ addr < 2 ^ 32 →
  let m := to_task addr (dev_message op (minor_of RAM) Fstate.FS_PROC_NR BLOCK_SIZE (u32 (b * BLOCK_SIZE)) 0 0) in
  let a := user_map s FS_PROC_NR addr BLOCK_SIZE in a ≠ 0 →
  ∃ c, mem_task m s = Ret (Some (replied m BLOCK_SIZE)) (with_mem c (on_device RAM_DEV s)) ∧
    if op =? DEV_READ then copied (block_addr s b) a BLOCK_SIZE (mem_of s) c else copied a (block_addr s b) BLOCK_SIZE (mem_of s) c.
Proof.
  intros Hr Hb Hop Haddr m a Ha. destruct (to_task_fields addr op BLOCK_SIZE (u32 (b * BLOCK_SIZE))) as (F1 & F2 & F3 & F4 & F5 & F6).
  fold m in F1, F2, F3, F4, F5, F6. specialize (F6 ltac:(done)). pose proof (r_blocks _ _ Hr) as Hn.
  assert (Hpos : POSITION m = b * BLOCK_SIZE).
  { rewrite F5. change BLOCK_SIZE with Fstate.BLOCK_SIZE at 1. rewrite u32_position by lia. apply block_pos. lia. }
  assert (Eaddr : ADDRESS m = addr) by (unfold ADDRESS; by apply u32_id).
  assert (Hq : request_ok (PROC_NR m) (the_request m)).
  { split; cbn [the_request io_position io_nbytes]; [by rewrite F4|rewrite Hpos; unfold BLOCK_SIZE; lia|by rewrite F6]. }
  pose proof (do_rdwt_memory m s ltac:(by rewrite F3) ltac:(rewrite F3; by eapply ram_device_ok) Hq) as Hd. cbv zeta in Hd.
  rewrite F3, F4, Eaddr, F6, Hpos in Hd. fold a in Hd. rewrite (proj2 (Z.eqb_neq a 0)), (block_reach n) in Hd by done.
  destruct Hd as (c & E & Ht). exists c. split.
  - apply mem_task_rdwt; [left; done|rewrite F2; done|exact E].
  - unfold transferred, addr_of, is_read in Ht. cbn [the_request io_position io_nbytes io_request] in Ht.
    rewrite Hpos, F6, (block_reach n), F2 in Ht by done. rewrite u32_id in Ht by (destruct Hr; unfold BLOCK_SIZE in *; lia).
    destruct Hop as [-> | ->]; exact Ht.
Qed.

(** C10: the RAM disk is a disk.  A request of FS to read or to write a block of
    the RAM disk, with a buffer that is mapped and is not part of the disk, is
    answered with the size of the block; a block that is read is the one last
    written to it, and after a write the disk holds the bytes of the buffer in
    that block and what it held in all others.  This is what the cache relies on
    of its disks. *)
Theorem ram_disk_serves (n b addr : Z) (log : list fcall) (s : memst) (Hr : ram_disk n s) (Hh : holds_disk image n log s)
    (Hb : 0 <= b < n) (Haddr : 0 <= addr < 2 ^ 32) (Ha : user_map s FS_PROC_NR addr BLOCK_SIZE ≠ 0)
    (Hoff : off_disk n (user_map s FS_PROC_NR addr BLOCK_SIZE) BLOCK_SIZE s) :
  let a := user_map s FS_PROC_NR addr BLOCK_SIZE in
  let request op := dev_message op (minor_of RAM) Fstate.FS_PROC_NR BLOCK_SIZE (u32 (b * BLOCK_SIZE)) 0 0 in
  let call op mem := disk_call op RAM (u32 (b * BLOCK_SIZE)) BLOCK_SIZE mem in
  (∃ s', mem_task (to_task addr (request DEV_READ)) s = Ret (Some (replied (to_task addr (request DEV_READ)) BLOCK_SIZE)) s' ∧
     ram_disk n s' ∧ holds_disk image n (call DEV_READ Fill :: log) s' ∧ bytes_at (mem_of s') a BLOCK_SIZE = on_disk image log RAM b) ∧
  (∃ s', mem_task (to_task addr (request DEV_WRITE)) s = Ret (Some (replied (to_task addr (request DEV_WRITE)) BLOCK_SIZE)) s' ∧
     ram_disk n s' ∧ holds_disk image n (call DEV_WRITE (Bytes (bytes_at (mem_of s) a BLOCK_SIZE)) :: log) s').
Proof.
  intros a request call. split.
  - destruct (one_block n b addr DEV_READ s Hr Hb ltac:(by left) Haddr Ha) as (c & E & Hc). eexists. split; [exact E|].
    change (DEV_READ =? DEV_READ) with true in Hc. split; [by apply ram_disk_with|]. split.
    + intros b' Hb'. unfold call. rewrite on_disk_read, <- Hh by done. eapply copied_apart; [exact Hc|]. by eapply off_block.
    + rewrite <- Hh by done. by apply (copied_bytes _ _ _ _ _ Hc).
  - destruct (one_block n b addr DEV_WRITE s Hr Hb ltac:(by right) Haddr Ha) as (c & E & Hc). eexists. split; [exact E|].
    change (DEV_WRITE =? DEV_READ) with false in Hc. split; [by apply ram_disk_with|].
    pose proof (r_blocks _ _ Hr). intros b' Hb'. unfold call. rewrite on_disk_write by lia. case_decide as Eb.
    + subst b'. by apply (copied_bytes _ _ _ _ _ Hc).
    + rewrite <- Hh by done. eapply copied_apart; [exact Hc|]. by apply blocks_apart.
Qed.

(** ** Scattered requests *)

(** The request for a block with a buffer at an address, in FS and in the task. *)
Definition rw_request (write : bool) : Z := if write then DEV_WRITE else Z.lor DEV_READ OPTIONAL_IO.
Definition fs_request (write : bool) (s : memst) (x : Z * Z) : Fstate.iorequest_s :=
  Fstate.Iorequest (position x.1) BLOCK_SIZE (rw_request write) (if write then bytes_at (mem_of s) (user_map s FS_PROC_NR x.2 BLOCK_SIZE) BLOCK_SIZE else []).
Definition task_request (write : bool) (x : Z * Z) : iorequest_s := Iorequest (x.1 * BLOCK_SIZE) x.2 BLOCK_SIZE (rw_request write).
Definition buffer (s : memst) (x : Z * Z) : Z := user_map s FS_PROC_NR x.2 BLOCK_SIZE.

(** The requests of a vector: different blocks, buffers that are apart from each
    other, from the vector at [v] and from the disk. *)
Record scatter (n v : Z) (xs : list (Z * Z)) (s : memst) : Prop := Scatter {
  x_some : 0 < Z.of_nat (length xs) ≤ NR_IOREQS;
  x_each : Forall (λ x, 0 ≤ x.1 < n ∧ 0 ≤ x.2 < 2 ^ 32 ∧ buffer s x ≠ 0 ∧ off_disk n (buffer s x) BLOCK_SIZE s ∧
                        (buffer s x + BLOCK_SIZE ≤ v ∨ v + 12 * Z.of_nat (length xs) ≤ buffer s x)) xs;
  x_pairs : List.ForallOrdPairs (λ x y, x.1 ≠ y.1 ∧ apart BLOCK_SIZE (buffer s x) (buffer s y)) xs;
  x_vector : off_disk n v (12 * Z.of_nat (length xs)) s
}.

Lemma scatter_pair write n s x : ram_disk n s → 0 ≤ x.1 < n →
  copy_pair (devs s RAM_DEV) s FS_PROC_NR (task_request write x) = if write then (buffer s x, block_addr s x.1) else (block_addr s x.1, buffer s x).
Proof.
  intros Hr Hx. unfold copy_pair, addr_of, buffer, block_addr. cbn [io_position io_nbytes io_buf task_request].
  rewrite u32_id by (destruct Hr; unfold BLOCK_SIZE in *; lia). by destruct write.
Qed.
Lemma scatter_independent write n v xs s : ram_disk n s → scatter n v xs s →
  independent BLOCK_SIZE (map (copy_pair (devs s RAM_DEV) s FS_PROC_NR) (map (task_request write) xs)).
Proof.
  intros Hr [_ He Hp _]. generalize dependent (Z.of_nat (length xs)). intros len He.
  induction Hp as [|x xs Hx Hp IH]; [done|]. apply Forall_cons in He as [(B1 & B2 & B3 & B4 & _) He]. cbn [map independent].
  rewrite (scatter_pair write n s x Hr B1).
  replace (if write then _ else _) with (if write then buffer s x else block_addr s x.1, if write then block_addr s x.1 else buffer s x) by by destruct write.
  cbv iota. split; [|by apply IH].
  apply Forall_map, Forall_map, Forall_forall. intros y Hy. rewrite Forall_forall in He. destruct (He y Hy) as (C1 & _ & _ & C4 & _).
  rewrite (scatter_pair write n s y Hr C1). rewrite Forall_forall in Hx. destruct (Hx y Hy) as [Hne Hap].
  pose proof (off_block _ _ _ _ _ B4 C1). pose proof (off_block _ _ _ _ _ C4 B1). pose proof (blocks_apart s (y.1) (x.1) Hne).
  unfold apart in *. destruct write; cbn [fst snd]; split_and!; lia.
Qed.

Lemma on_disk_vector write s log k xs b : 0 ≤ b < 2 ^ 21 → Forall (λ x, 0 ≤ x.1 < 2 ^ 21) xs →
  on_disk image (disk_call Fstate.SCATTERED_IO RAM 0 k (Iovec (map (fs_request write s) xs)) :: log) RAM b =
  match List.find (λ x, write && (x.1 =? b)) xs with Some x => bytes_at (mem_of s) (buffer s x) BLOCK_SIZE | None => on_disk image log RAM b end.
Proof.
  intros Hb Hx. cbn [on_disk]. unfold writes_block, disk_call. rewrite dev_message_minor, !Z.eqb_refl. cbn [andb].
  induction Hx as [|x xs Hx1 Hx IH]; [done|]. cbn [map List.find fs_request Fstate.io_request Fstate.io_position].
  assert (Ep : (position x.1 =? position b) = (x.1 =? b)).
  { rewrite !block_pos by lia. unfold BLOCK_SIZE. destruct (Z.eqb_spec (x.1) b), (Z.eqb_spec (x.1 * 1024) (b * 1024)); lia. }
  rewrite Ep. destruct write; cbn [rw_request andb].
  - change (DEV_WRITE =? Fstate.DEV_WRITE) with true. cbn [andb]. destruct (x.1 =? b); [done|exact IH].
  - change (Z.lor DEV_READ OPTIONAL_IO =? Fstate.DEV_WRITE) with false. exact IH.
Qed.

Lemma scatter_vector write n vaddr xs s : ram_disk n s → 0 ≤ vaddr < 2 ^ 32 →
  let k := Z.of_nat (length xs) in
  let v := user_map s FS_PROC_NR vaddr (12 * k) in v ≠ 0 → scatter n v xs s →
  bytes_at (mem_of s) v (12 * k) = concat (map ioreq_bytes (map (task_request write) xs)) →
  vector_ok (to_task vaddr (dev_message Fstate.SCATTERED_IO (minor_of RAM) Fstate.FS_PROC_NR k 0 0 0)) (map (task_request write) xs) BLOCK_SIZE v s.
Proof.
  intros Hr Hva k v Hv [Hk He _ _] Hb. unfold NR_IOREQS in Hk.
  destruct (to_task_fields vaddr Fstate.SCATTERED_IO k 0) as (F1 & F2 & F3 & F4 & F5 & F6). specialize (F6 ltac:(lia)).
  set (m := to_task _ _) in *. assert (Eaddr : ADDRESS m = vaddr) by (unfold ADDRESS; by apply u32_id). clearbody m.
  pose proof (r_blocks _ _ Hr) as Hn.
  split; [done|by rewrite F3|rewrite F3; by eapply ram_device_ok|rewrite F6, length_map; unfold NR_IOREQS; lia|by rewrite Eaddr, F6|by rewrite F6| |].
  - apply Forall_map. eapply Forall_impl; [exact He|]. intros x (B1 & B2 & _). split; cbn [io_position io_buf io_nbytes io_request task_request]; unfold BLOCK_SIZE; try lia. by destruct write.
  - apply Forall_map. eapply Forall_impl; [exact He|]. intros x (B1 & B2 & B3 & _). rewrite F3, F4. split_and!; try done; cbn [io_position io_buf io_nbytes task_request].
    + split; cbn [io_position io_buf io_nbytes task_request]; try done. unfold BLOCK_SIZE. lia.
    + rewrite (r_size _ _ Hr). unfold BLOCK_SIZE. lia.
Qed.

(** C11: the RAM disk does scattered requests.  A vector of requests of FS for
    different blocks of the RAM disk, with buffers apart from each other, from
    the vector and from the disk, is answered with OK and with all bytes of
    every request done; every block that is read is the one last written, and
    after a vector of writes the disk holds exactly these blocks anew. *)
Theorem ram_disk_scattered (write : bool) (n vaddr : Z) (xs : list (Z * Z)) (log : list fcall) (s : memst)
    (Hr : ram_disk n s) (Hh : holds_disk image n log s) (Hva : 0 <= vaddr < 2 ^ 32) :
  let k := Z.of_nat (length xs) in
  let v := user_map s FS_PROC_NR vaddr (12 * k) in
  let m := to_task vaddr (dev_message SCATTERED_IO (minor_of RAM) Fstate.FS_PROC_NR k 0 0 0) in
  v ≠ 0 → scatter n v xs s → bytes_at (mem_of s) v (12 * k) = concat (map ioreq_bytes (map (task_request write) xs)) →
  ∃ s', mem_task m s = Ret (Some (replied m OK)) s' ∧ ram_disk n s' ∧
    holds_disk image n (disk_call SCATTERED_IO RAM 0 k (Iovec (map (fs_request write s) xs)) :: log) s' ∧
    iovec_of (bytes_at (mem_of s') v (12 * k)) k = map (λ x, (task_request write x) <| io_nbytes := 0 |>) xs ∧
    (write = false → ∀ x, x ∈ xs → bytes_at (mem_of s') (buffer s x) BLOCK_SIZE = on_disk image log RAM x.1).
Proof.
  intros k v m Hv Hx Hb. pose proof (scatter_vector write n vaddr xs s Hr Hva Hv Hx Hb) as Hvec.
  destruct (do_vrdwt_memory m _ _ _ s Hvec) as (c & c' & E & Hc & Hcv & Hsame).
  destruct (to_task_fields vaddr SCATTERED_IO k 0) as (F1 & F2 & F3 & F4 & F5 & F6). fold m in F1, F2, F3, F4, F5, F6.
  pose proof (x_some _ _ _ _ Hx) as Hk. unfold NR_IOREQS in Hk. specialize (F6 ltac:(lia)). rewrite F3, F4, F6 in *. fold k v in Hcv, Hsame. fold v in Hcv, Hsame. clearbody v.
  pose proof (scatter_independent write n v xs s Hr Hx) as Hi.
  destruct (copies_result BLOCK_SIZE _ _ _ ltac:(done) Hc Hi) as [R1 R2]. pose proof (r_blocks _ _ Hr) as Hn.
  pose proof (x_each _ _ _ _ Hx) as He. rewrite Forall_forall in He.
  assert (Hpair : ∀ x, x ∈ xs → ((if write then buffer s x else block_addr s x.1), (if write then block_addr s x.1 else buffer s x)) ∈
      map (copy_pair (devs s RAM_DEV) s FS_PROC_NR) (map (task_request write) xs)).
  { intros x Hin. destruct (He x Hin) as (B1 & _). apply list_elem_of_In, in_map_iff. exists (task_request write x).
    split; [rewrite (scatter_pair write n s x Hr B1); by destruct write|]. apply in_map_iff. exists x. by rewrite <- list_elem_of_In. }
  assert (Hpairs : ∀ src dst, (src, dst) ∈ map (copy_pair (devs s RAM_DEV) s FS_PROC_NR) (map (task_request write) xs) →
      ∃ x, x ∈ xs ∧ dst = if write then block_addr s x.1 else buffer s x).
  { intros src dst (r & Er & (x & <- & Hin)%in_map_iff)%list_elem_of_In%in_map_iff. rewrite <- list_elem_of_In in Hin. exists x. split; [done|].
    destruct (He x Hin) as (B1 & _). rewrite (scatter_pair write n s x Hr B1) in Er. destruct write; by injection Er. }
  exists (with_mem c' (on_device RAM_DEV s)). split; [apply mem_task_vrdwt; [by left|done|exact E]|]. split; [by apply ram_disk_with|].
  assert (Hcc : ∀ a j, a + j ≤ v ∨ v + 12 * k ≤ a → bytes_at c' a j = bytes_at c a j).
  { intros a j Ha. apply bytes_at_ext. intros i Hi'. apply Hsame. lia. }
  split; [|split].
  - intros b Hb'. change (bytes_at c' (block_addr s b) BLOCK_SIZE = on_disk image (disk_call SCATTERED_IO RAM 0 k (Iovec (map (fs_request write s) xs)) :: log) RAM b).
    rewrite Hcc by (eapply off_block; [apply (x_vector _ _ _ _ Hx)|done]).
    rewrite on_disk_vector by (try lia; apply Forall_forall; intros x Hin; destruct (He x Hin); lia). rewrite <- Hh by done.
    destruct (List.find _ xs) as [x|] eqn:Ef.
    + apply find_some in Ef as [Hin%list_elem_of_In [-> <-%Z.eqb_eq]%andb_true_iff]. apply R1. exact (Hpair x Hin).
    + apply bytes_at_ext. intros i Hi'. apply R2. intros src dst (x & Hin & ->)%Hpairs. destruct (He x Hin) as (B1 & _ & _ & B4 & _).
      pose proof (find_none _ _ Ef x ltac:(by apply list_elem_of_In)) as Hne. destruct write.
      * cbn [andb] in Hne. apply Z.eqb_neq in Hne. destruct (blocks_apart s b (x.1) ltac:(congruence)); lia.
      * destruct (off_block _ _ _ _ _ B4 Hb'); lia.
  - rewrite map_map in Hcv. change (bytes_at (mem_of (with_mem c' (on_device RAM_DEV s))) v (12 * k)) with (bytes_at c' v (12 * k)). rewrite Hcv, map_map.
    set (l := map (λ x, (task_request write x) <| io_nbytes := 0 |>) xs).
    replace (map (λ x : Z * Z, ioreq_bytes _) xs) with (map ioreq_bytes l) by (unfold l; by rewrite map_map).
    replace k with (Z.of_nat (length l)) by (unfold l; by rewrite length_map). apply iovec_round. apply Forall_map, Forall_forall. intros x Hin.
    destruct (He x Hin) as (B1 & B2 & _). split; cbn; try lia; [unfold BLOCK_SIZE; lia|by destruct write].
  - intros -> x Hin. destruct (He x Hin) as (B1 & _ & _ & _ & B5). change (bytes_at c' (buffer s x) BLOCK_SIZE = on_disk image log RAM x.1).
    rewrite Hcc by done. rewrite <- Hh by done. apply R1. exact (Hpair x Hin).
Qed.
End serves.

(** ** The memory of the RAM disk *)
Section size.
Context `{Place} `{Image}.

(** A chunk of free memory at start-up. *)
Definition chunk_ok (c : memory) : Prop := 0 ≤ mem_base c ∧ 0 ≤ mem_size c ∧ mem_base c + mem_size c < 2 ^ 16.
(** The chunk without its first [k] clicks. *)
Definition cut (k : Z) (c : memory) : memory := Memory (mem_base c + k) (mem_size c - k).
Definition set_chunks (l : list memory) (y : sysst) : sysst := y <| mem_chunks := l |>.

Lemma take_chunk_run k c0 c1 y : 0 ≤ k < 2 ^ 16 → chunk_ok c0 → chunk_ok c1 → mem_chunks y = [c0; c1] →
  take_chunk k y = if k <=? mem_size c1 then Ret (mem_base c1) (set_chunks [c0; cut k c1] y)
                   else if k <=? mem_size c0 then Ret (mem_base c0) (set_chunks [cut k c0; c1] y)
                   else Panic "Not enough memory for RAM disk" NO_NUM.
Proof.
  intros Hk (A1 & A2 & A3) (B1 & B2 & B3) Hc. unfold take_chunk. erewrite bind_eq by reflexivity. rewrite Hc.
  change (reverse (seqZ 0 NR_MEMS)) with [1; 0]. unfold for_each.
  change ([c0; c1] !! Z.to_nat 1) with (Some c1). change ([c0; c1] !! Z.to_nat 0) with (Some c0).
  unfold deref, cut, set_chunks, modify, panic. cbv [mbind M_bind mret M_ret]. rewrite !Z.ltb_antisym.
  destruct (Z.leb_spec k (mem_size c1)); cbn [negb].
  { change ([c0; c1] !! Z.to_nat 1) with (Some c1). cbv beta iota. rewrite !u16_id by lia. done. }
  destruct (Z.leb_spec k (mem_size c0)); cbn [negb]; [|done].
  change ([c0; c1] !! Z.to_nat 0) with (Some c0). cbv beta iota. rewrite !u16_id by lia. done.
Qed.

(** C28: FS makes the RAM disk.  A request for a RAM disk of [n] blocks, whatever
    [n], makes a RAM disk of [n] blocks (modulo 2^22: its size in bytes is a
    32-bit number) at the front of the last chunk of free memory with [need]
    clicks, and takes [need] clicks from that chunk, or panics when there is no
    such chunk; the other chunk and the contents of memory are as before.  Below
    16384 blocks [need] is the size of the disk: the disk is within what was the
    chunk, and exactly before what is left of it.  From 16384 blocks on the number
    of clicks does not fit its variable, [need] is what is left of it modulo 2^16,
    and the disk goes on into the memory that is still free. *)
Theorem ramsize_takes_memory (m : message) (n : Z) (c0 c1 : memory) (s : memst) (Hreq : COUNT m = MIOCRAMSIZE ∧ PROC_NR m = FS_PROC_NR ∧ POSITION m = n)
    (Hc0 : chunk_ok c0) (Hc1 : chunk_ok c1) (Hmem : mem_chunks (ksys s) = [c0; c1]) :
  let blocks := n mod 2 ^ 22 in
  let need := 4 * (n mod 2 ^ 14) in
  let made c l s' := m_ioctl m s = Ret OK s' ∧ devs s' RAM_DEV = Device_ (mem_base c * 256) (blocks * BLOCK_SIZE) ∧
    mem_chunks (ksys s') = l ∧ mem_of s' = mem_of s ∧
    if blocks <? 2 ^ 14
    then need = 4 * blocks ∧ ram_disk blocks s' ∧ mem_base c * 256 + blocks * BLOCK_SIZE <= (mem_base c + mem_size c) * 256 ∧
         mem_base (cut need c) * 256 = mem_base c * 256 + blocks * BLOCK_SIZE
    else mem_base (cut need c) * 256 < mem_base c * 256 + blocks * BLOCK_SIZE in
  if need <=? mem_size c1 then ∃ s', made c1 [c0; cut need c1] s'
  else if need <=? mem_size c0 then ∃ s', made c0 [cut need c0; c1] s'
  else m_ioctl m s = Panic "Not enough memory for RAM disk" NO_NUM.
Proof.
  destruct Hreq as (E1 & E2 & E3). intros blocks need made.
  pose proof (Z.mod_pos_bound n (2 ^ 22) ltac:(lia)) as Hb. fold blocks in Hb.
  assert (Hneed : need = 4 * (blocks mod 2 ^ 14)).
  { unfold need, blocks. by rewrite <- (Znumtheory.Zmod_div_mod (2 ^ 14) (2 ^ 22) n) by (done || by exists (2 ^ 8)). }
  pose proof (Z.mod_pos_bound blocks (2 ^ 14) ltac:(lia)) as Hn.
  assert (Hbytes : u32 (n * BLOCK_SIZE) = blocks * BLOCK_SIZE).
  { unfold u32, blocks, BLOCK_SIZE. change (2 ^ 32) with (2 ^ 22 * 1024). by rewrite Z.mul_mod_distr_r by lia. }
  assert (Hsize : u16 (Z.shiftr (u32 (u32 (n * BLOCK_SIZE) + (CLICK_SHIFT - 1))) CLICK_SHIFT) = need).
  { rewrite Hbytes, Hneed. unfold BLOCK_SIZE, CLICK_SHIFT. rewrite u32_id by lia. rewrite Z.shiftr_div_pow2 by lia.
    replace (blocks * 1024 + (8 - 1)) with (7 + (4 * blocks) * 2 ^ 8) by lia. rewrite Z.div_add by lia. change (7 / 2 ^ 8) with 0.
    unfold u16. change (2 ^ 16) with (4 * 2 ^ 14). by rewrite Z.add_0_l, Z.mul_mod_distr_l by lia. }
  assert (Hgo : m_ioctl m s = (base ← kcall (take_chunk need); set_dev RAM_DEV (Device_ (Z.shiftl base CLICK_SHIFT) (blocks * BLOCK_SIZE));; mret OK) s).
  { unfold m_ioctl. rewrite E1, E2, E3, Hsize, Hbytes. done. }
  assert (Hdone : ∀ c l, chunk_ok c → need ≤ mem_size c → take_chunk need (ksys s) = Ret (mem_base c) (set_chunks l (ksys s)) → ∃ s', made c l s').
  { intros c l (A1 & A2 & A3) Hle Et. eexists. unfold made. split.
    - rewrite Hgo. erewrite bind_eq; [|unfold kcall; rewrite Et; reflexivity]. unfold set_dev.
      replace ((0 <=? RAM_DEV) && (RAM_DEV <? nr_devs)) with true by reflexivity. erewrite bind_eq by reflexivity. reflexivity.
    - cbn [devs upd upd_devs ksys upd_ksys]. rewrite fn_lookup_insert. unfold CLICK_SHIFT. rewrite Z.shiftl_mul_pow2 by lia. change (2 ^ 8) with 256.
      split_and!; try done. destruct (Z.ltb_spec blocks (2 ^ 14)) as [Hlt|Hge].
      + rewrite (Z.mod_small blocks) in Hneed by lia. unfold cut, BLOCK_SIZE in *; cbn [mem_base].
        split_and!; try done; try lia. split; cbn [devs upd upd_devs]; rewrite ?fn_lookup_insert; cbn [dv_base dv_size]; unfold BLOCK_SIZE; lia.
      + unfold cut, BLOCK_SIZE in *; cbn [mem_base]. lia. }
  pose proof (take_chunk_run need c0 c1 (ksys s) ltac:(lia) Hc0 Hc1 Hmem) as Ht.
  destruct (Z.leb_spec need (mem_size c1)); [by apply Hdone|]. destruct (Z.leb_spec need (mem_size c0)); [by apply Hdone|].
  rewrite Hgo. unfold mbind, M_bind, kcall. by rewrite Ht.
Qed.
End size.

(** ** Examples *)

Definition sample_place : Place := {| junk := 0; self := -4; tmp_buf := 500000; patience := 10 |}.
Definition sample_image : Image := {| end_addr := 0x20000; proc_table := 0x10000 |}.
(** The kernel [k] with a RAM disk of four blocks, which is as [ram_image] says. *)
Definition ram_sample (k : kernel) : memst := mem_sample k [] 0x100000 4096.
Definition ram_image (k : kernel) (dev b : Z) : list Z := bytes_at (clicks k) (0x100000 + b * 1024) 1024.
Lemma ram_sample_disk k : ram_disk 4 (ram_sample k) ∧ holds_disk (ram_image k) 4 [] (ram_sample k).
Proof. split; [by repeat split|]. by intros b Hb. Qed.

Lemma ram_disk_serves_witness : let s := ram_sample fs_kernel in
  ∃ s', @mem_task sample_place sample_image (to_task 260000 (dev_message DEV_READ 0 Fstate.FS_PROC_NR BLOCK_SIZE 3072 0 0)) s =
    Ret (Some (replied (to_task 260000 (dev_message DEV_READ 0 Fstate.FS_PROC_NR BLOCK_SIZE 3072 0 0)) BLOCK_SIZE)) s' ∧
    bytes_at (mem_of s') 260000 BLOCK_SIZE = ram_image fs_kernel RAM 3.
Proof.
  pose proof (fs_buffer 260000 1024) as Hv. revert Hv. generalize fs_kernel. intros k Hv s. destruct (ram_sample_disk k) as [Hr Hh].
  assert (Ha : user_map s FS_PROC_NR 260000 BLOCK_SIZE = 260000) by (apply Hv; [by left|right; by right]).
  destruct (@ram_disk_serves (ram_image k) sample_place sample_image 4 3 260000 [] s Hr Hh) as [(s' & E & _ & _ & Hb) _];
    [done|done|by rewrite Ha|left; rewrite Ha; done|].
  exists s'. rewrite Ha in Hb. by split.
Defined.

(** The vector of two reads at 270000. *)
Definition two_reads : list (Z * Z) := [(0, 260000); (2, 262000)].
Definition vector_kernel : kernel :=
  fs_kernel <| clicks := patch 270000 24 (λ b, nth (Z.to_nat (b - 270000)) (concat (map ioreq_bytes (map (task_request false) two_reads))) 0) (λ _, 0) |>.
Lemma vector_there : bytes_at (clicks vector_kernel) 270000 24 = concat (map ioreq_bytes (map (task_request false) two_reads)).
Proof. by vm_compute. Qed.
Lemma vector_procs : procs vector_kernel = procs fs_kernel.
Proof. done. Qed.
Lemma ram_disk_scattered_witness : let s := ram_sample vector_kernel in
  let m := to_task 270000 (dev_message SCATTERED_IO 0 Fstate.FS_PROC_NR 2 0 0 0) in
  ∃ s', @mem_task sample_place sample_image m s = Ret (Some (replied m OK)) s' ∧
    bytes_at (mem_of s') 262000 BLOCK_SIZE = ram_image vector_kernel RAM 2.
Proof.
  pose proof (fs_buffer) as Hv. pose proof vector_there as Hb. rewrite <- vector_procs in Hv. revert Hv Hb. generalize vector_kernel. intros k Hv Hb s m.
  destruct (ram_sample_disk k) as [Hr Hh].
  assert (Ha : user_map s FS_PROC_NR 270000 (12 * Z.of_nat (length two_reads)) = 270000) by (apply Hv; [tauto|by left]).
  assert (Hbuf : ∀ v, v = 260000 ∨ v = 262000 → user_map s FS_PROC_NR v BLOCK_SIZE = v) by (intros v Hx; apply Hv; unfold BLOCK_SIZE; tauto).
  destruct (@ram_disk_scattered (ram_image k) sample_place sample_image false 4 270000 two_reads [] s Hr Hh ltac:(done)) as (s' & E & _ & _ & _ & Hd).
  - by rewrite Ha.
  - rewrite Ha. split; [done| | |left; done].
    + unfold two_reads, buffer, off_disk. rewrite !Forall_cons. cbn [fst snd]. rewrite !Hbuf by tauto.
      split_and!; try done; by left.
    + repeat constructor; unfold buffer, apart; cbn [fst snd]; rewrite ?Hbuf by tauto; unfold BLOCK_SIZE; lia.
  - rewrite Ha. exact Hb.
  - exists s'. split; [exact E|]. specialize (Hd eq_refl (2, 262000) ltac:(set_solver)). unfold buffer in Hd. cbn [fst snd] in Hd. rewrite Hbuf in Hd by tauto. exact Hd.
Defined.

(** A RAM disk of 100 blocks from the second chunk; and one of 16389 blocks,
    for which 20 clicks are taken. *)
Lemma ramsize_takes_memory_witness : let s := mem_sample fs_kernel [Memory 3000 500; Memory 4000 1000] 0 0 in
  let m n := Message FS_PROC_NR DEV_IOCTL 0 FS_PROC_NR MIOCRAMSIZE n 0 0 0 in
  (∃ s', @m_ioctl sample_place sample_image (m 100) s = Ret OK s' ∧ ram_disk 100 s' ∧ mem_chunks (ksys s') = [Memory 3000 500; Memory 4400 600]) ∧
  ∃ s', @m_ioctl sample_place sample_image (m 16389) s = Ret OK s' ∧ dv_size (devs s' RAM_DEV) = 16389 * 1024 ∧ mem_chunks (ksys s') = [Memory 3000 500; Memory 4020 980].
Proof.
  generalize fs_kernel. intros k s m. split.
  - destruct (@ramsize_takes_memory sample_place sample_image (m 100) 100 (Memory 3000 500) (Memory 4000 1000) s) as (s' & E & _ & Hm & _ & _ & Hr & _); try done.
    by exists s'.
  - destruct (@ramsize_takes_memory sample_place sample_image (m 16389) 16389 (Memory 3000 500) (Memory 4000 1000) s) as (s' & E & Hd & Hm & _); try done.
    exists s'. by rewrite Hd.
Defined.
