(* ===== verification/Buf.v ===== *)
(** * The buffers of the network server

    inet/buf.c: packets are chains of accessors, each with a part of a buffer of
    512 bytes; accessors and buffers are shared and have link counts.  (CRAMPED,
    as on the Atari: buffers of one size, and assertions are not compiled.)  Link
    counts are not wrapped: 2^15 pointers to one accessor do not fit the memory of
    the server. *)

From S2P Require Import Prelude.

Definition BUF512_NR : Z := 32.
Definition ACC_NR : Z := 48.
Definition CLIENT_NR : Z := 6.
Definition MAX_BUFREQ_PRI : Z := 10.
Definition BUF_S : Z := 512.

(** [buf_free] is [bf_512free] in all buffers. *)
Record buf_t := Buf_t { buf_linkC : Z; buf_size : Z; buf_data : list Z }.
#[export] Instance eta_buf_t : Eta buf_t := λ r, Buf_t r.(buf_linkC) r.(buf_size) r.(buf_data).
#[export] Instance upd_buf_linkC : Upd buf_linkC := ltac:(derive_upd).
#[export] Instance upd_buf_data : Upd buf_data := ltac:(derive_upd).
Record acc_t := Acc_t {
  acc_linkC : Z; acc_offset : Z; acc_length : Z; acc_buffer : option Z; acc_next : option Z; acc_ext_link : option Z
}.
#[export] Instance eta_acc_t : Eta acc_t := λ r, Acc_t r.(acc_linkC) r.(acc_offset) r.(acc_length) r.(acc_buffer) r.(acc_next) r.(acc_ext_link).
#[export] Instance upd_acc_linkC : Upd acc_linkC := ltac:(derive_upd).
#[export] Instance upd_acc_offset : Upd acc_offset := ltac:(derive_upd).
#[export] Instance upd_acc_length : Upd acc_length := ltac:(derive_upd).
#[export] Instance upd_acc_buffer : Upd acc_buffer := ltac:(derive_upd).
#[export] Instance upd_acc_next : Upd acc_next := ltac:(derive_upd).

(** The variables of buf.c, and the state of its clients. *)
Record bfst (W : Type) := Bfst {
  accessors : Z → acc_t;
  buffers512 : Z → buf_t;
  acc_freelist : option Z;
  buf512_freelist : option Z;
  freereq : Z → option Z;
  bf_buf_gran : Z;
  bf_free_bufsize : Z;
  clients : W
}.
Arguments Bfst {W}. Arguments accessors {W}. Arguments buffers512 {W}. Arguments acc_freelist {W}. Arguments buf512_freelist {W}.
Arguments freereq {W}. Arguments bf_buf_gran {W}. Arguments bf_free_bufsize {W}. Arguments clients {W}.
#[export] Instance eta_bfst {W} : Eta (bfst W) := λ r,
  Bfst r.(accessors) r.(buffers512) r.(acc_freelist) r.(buf512_freelist) r.(freereq) r.(bf_buf_gran) r.(bf_free_bufsize) r.(clients).
#[export] Instance upd_accessors {W} : Upd (@accessors W) := ltac:(derive_upd).
#[export] Instance upd_buffers512 {W} : Upd (@buffers512 W) := ltac:(derive_upd).
#[export] Instance upd_acc_freelist {W} : Upd (@acc_freelist W) := ltac:(derive_upd).
#[export] Instance upd_buf512_freelist {W} : Upd (@buf512_freelist W) := ltac:(derive_upd).
#[export] Instance upd_freereq {W} : Upd (@freereq W) := ltac:(derive_upd).
#[export] Instance upd_bf_buf_gran {W} : Upd (@bf_buf_gran W) := ltac:(derive_upd).
#[export] Instance upd_bf_free_bufsize {W} : Upd (@bf_free_bufsize W) := ltac:(derive_upd).
#[export] Instance upd_clients {W} : Upd (@clients W) := ltac:(derive_upd).
Notation BM W := (M (bfst W)).

(** The functions that the clients log on, by their numbers; and the addresses of
    the data of the buffers. *)
Class Clients (W : Type) := { client_free : Z → Z → BM W unit; data_addr : Z → Z }.

Section buf.
Context {W : Type} `{Clients W}.

Definition get_acc (a : Z) : BM W acc_t := if (0 <=? a) && (a <? ACC_NR) then gets (λ s, accessors s a) else fault.
Definition set_acc (a : Z) (x : acc_t) : BM W unit :=
  if (0 <=? a) && (a <? ACC_NR) then modify (λ s, s <| accessors := <[a := x]> (accessors s) |>) else fault.
Definition get_buf (b : Z) : BM W buf_t := if (0 <=? b) && (b <? BUF512_NR) then gets (λ s, buffers512 s b) else fault.
Definition set_buf (b : Z) (x : buf_t) : BM W unit :=
  if (0 <=? b) && (b <? BUF512_NR) then modify (λ s, s <| buffers512 := <[b := x]> (buffers512 s) |>) else fault.
(** [acc->acc_next = next], [acc->acc_linkC++] *)
Definition set_next (a : Z) (next : option Z) : BM W unit := x ← get_acc a; set_acc a (x <| acc_next := next |>).
Definition link_acc (a : Z) : BM W unit := x ← get_acc a; set_acc a (x <| acc_linkC := acc_linkC x + 1 |>).
Definition link_opt (p : option Z) : BM W unit := match p with None => mret tt | Some a => link_acc a end.
Definition acc_fuel : nat := S (Z.to_nat ACC_NR).

(** ** Initialisation *)
Definition bf_init : BM W unit :=
  modify (λ s, s <| bf_buf_gran := BUF_S |> <| freereq := λ _, None |> <| acc_freelist := None |>);;
  fold_m (λ _ i,
    l ← gets acc_freelist;
    set_acc i (Acc_t 0 0 0 None l None);;
    modify (λ s, s <| acc_freelist := Some i |>)) tt (seqZ 0 ACC_NR);;
  modify (λ s, s <| buf512_freelist := None |>);;
  fold_m (λ _ i,
    p ← gets acc_freelist;
    match p with
    | None => panic "fewer accessors than buffers" 0
    | Some a =>
        x ← get_acc a;
        set_buf i (Buf_t 0 BUF_S (replicate (Z.to_nat BUF_S) 0));;
        l ← gets buf512_freelist;
        set_acc a (x <| acc_linkC := 0 |> <| acc_buffer := Some i |> <| acc_next := l |>);;
        modify (λ s, s <| acc_freelist := acc_next x |> <| buf512_freelist := Some a |>)
    end) tt (seqZ 0 BUF512_NR).
Definition bf_logon (func : Z) : BM W unit :=
  r ← for_each (seqZ 0 CLIENT_NR) (λ i,
        f ← gets (λ s, freereq s i);
        match f with
        | Some _ => mret None
        | None => modify (λ s, s <| freereq := <[i := Some func]> (freereq s) |>);; mret (Some tt)
        end);
  match r with Some _ => mret tt | None => panic "buf.c: to many clients" 0 end.

(** ** Freeing *)
Definition bf_512free (a : Z) : BM W unit :=
  l ← gets buf512_freelist; set_next a l;; modify (λ s, s <| buf512_freelist := Some a |>).
Definition afree_step (p : option Z) : BM W (option Z + unit) :=
  match p with
  | None => mret (inr tt)
  | Some a =>
      x ← get_acc a;
      set_acc a (x <| acc_linkC := acc_linkC x - 1 |>);;
      if 0 <? acc_linkC x - 1 then mret (inr tt) else
      b ← deref (acc_buffer x);
      y ← get_buf b;
      set_buf b (y <| buf_linkC := buf_linkC y - 1 |>);;
      if 0 <? buf_linkC y - 1 then
        l ← gets acc_freelist;
        set_acc a (x <| acc_linkC := acc_linkC x - 1 |> <| acc_buffer := None |> <| acc_next := l |>);;
        modify (λ s, s <| acc_freelist := Some a |>);;
        mret (inl (acc_next x))
      else
        modify (λ s, s <| bf_free_bufsize := u16 (bf_free_bufsize s + buf_size y) |>);;
        bf_512free a;;
        mret (inl (acc_next x))
  end.
Definition bf_afree (acc : option Z) : BM W unit := loop acc_fuel afree_step acc.

(** The clients free what they can spare at a priority. *)
Definition call_client (pri j : Z) : BM W unit :=
  f ← gets (λ s, freereq s j); match f with None => mret tt | Some c => client_free c pri end.
Definition free_accs : BM W unit :=
  loop (S (Z.to_nat MAX_BUFREQ_PRI)) (λ i,
    l ← gets acc_freelist;
    if bool_decide (l = None) && (i <? MAX_BUFREQ_PRI) then
      fold_m (λ _ j, modify (λ s, s <| bf_free_bufsize := 0 |>);; call_client i j) tt (seqZ 0 CLIENT_NR);;
      mret (inl (i + 1))
    else mret (inr tt)) 0.
Definition free_bufs (size : Z) : BM W unit :=
  modify (λ s, s <| bf_free_bufsize := 0 |>);;
  loop (S (Z.to_nat MAX_BUFREQ_PRI)) (λ i,
    n ← gets bf_free_bufsize;
    if (n <? size) && (i <? MAX_BUFREQ_PRI) then
      fold_m (λ _ j, call_client i j) tt (seqZ 0 CLIENT_NR);; mret (inl (i + 1))
    else mret (inr tt)) 0;;
  n ← gets bf_free_bufsize;
  when (n <? size) (panic "not enough buffers freed" 0).

(** ** Allocation *)

(** One round of [bf_memreq], with [head], [tail] and the size left. *)
Definition memreq_step (x : option Z * option Z * Z) : BM W (option Z * option Z * Z + option Z * option Z) :=
  let '(head, tail, size) := x in
  if size =? 0 then mret (inr (head, tail)) else
  p ← gets buf512_freelist;
  match p with
  | None => free_bufs size;; mret (inl (head, tail, size))
  | Some a =>
      y ← get_acc a;
      modify (λ s, s <| buf512_freelist := acc_next y |>);;
      set_acc a (y <| acc_linkC := 1 |>);;
      b ← deref (acc_buffer y);
      z ← get_buf b;
      set_buf b (z <| buf_linkC := 1 |>);;
      match head with
      | None => mret tt
      | Some _ => t ← deref tail; set_next t (Some a)
      end;;
      let count := if size <? buf_size z then size else buf_size z in
      y ← get_acc a;
      set_acc a (y <| acc_offset := 0 |> <| acc_length := count |>);;
      mret (inl (match head with None => Some a | Some _ => head end, Some a, u16 (size - count)))
  end.
(** Without a byte [tail] is not set. *)
Definition bf_memreq (size : Z) : BM W (option Z) :=
  '(head, tail) ← loop (S (S (2 * Z.to_nat size))) memreq_step (None, None, size);
  t ← deref tail;
  set_next t None;;
  mret head.
Definition bf_small_memreq (size : Z) : BM W (option Z) := bf_memreq size.

Definition bf_dupacc (acc_ptr : Z) : BM W Z :=
  l ← gets acc_freelist;
  when (bool_decide (l = None)) free_accs;;
  l ← gets acc_freelist;
  match l with
  | None => panic "buf.c: out of accessors" 0
  | Some new_acc =>
      y ← get_acc new_acc;
      modify (λ s, s <| acc_freelist := acc_next y |>);;
      x ← get_acc acc_ptr;
      set_acc new_acc x;;
      link_opt (acc_next x);;
      match acc_buffer x with
      | None => mret tt
      | Some b => z ← get_buf b; set_buf b (z <| buf_linkC := buf_linkC z + 1 |>)
      end;;
      y ← get_acc new_acc;
      set_acc new_acc (y <| acc_linkC := 1 |>);;
      mret new_acc
  end.

(** ** Contents *)
Definition bf_bufsize (acc_ptr : Z) : BM W Z :=
  loop acc_fuel (λ x : option Z * Z, let '(p, size) := x in
    match p with
    | None => mret (inr size)
    | Some a => y ← get_acc a; mret (inl (acc_next y, u16 (size + acc_length y)))
    end) (Some acc_ptr, 0).

(** [l] written over [data] from [o] on. *)
Definition overwrite (o : Z) (l data : list Z) : list Z := take (Z.to_nat o) data ++ l ++ drop (Z.to_nat o + length l) data.
(** [n] bytes of [src] from [osrc] on are copied to [dst] at [odst]. *)
Definition acc_copy (dst odst src osrc n : Z) : BM W unit :=
  x ← get_acc src; bs ← deref (acc_buffer x); z ← get_buf bs;
  y ← get_acc dst; bd ← deref (acc_buffer y); w ← get_buf bd;
  set_buf bd (w <| buf_data := overwrite (acc_offset y + odst)
    (take (Z.to_nat n) (drop (Z.to_nat (acc_offset x + osrc)) (buf_data z))) (buf_data w) |>).

(** One round of the loop that copies [size] bytes from a chain to a new one. *)
Definition pack_step (x : option Z * option Z * Z * Z * Z) : BM W (option Z * option Z * Z * Z * Z + unit) :=
  let '(old, new, offset_old, offset_new, size) := x in
  if size =? 0 then mret (inr tt) else
  o ← deref old; xo ← get_acc o;
  if offset_old =? acc_length xo then mret (inl (acc_next xo, new, 0, offset_new, size)) else
  let block_size_old := acc_length xo - offset_old in
  n ← deref new; xn ← get_acc n;
  if offset_new =? acc_length xn then mret (inl (old, acc_next xn, offset_old, 0, size)) else
  let block_size := acc_length xn - offset_new in
  let block_size := if block_size_old <? block_size then block_size_old else block_size in
  acc_copy n offset_new o offset_old block_size;;
  mret (inl (old, new, offset_old + block_size, offset_new + block_size, size - block_size)).
Definition pack_fuel (size : Z) : nat := S (Z.to_nat size + 2 * acc_fuel).
Definition packed (x : acc_t) (y : buf_t) : bool := bool_decide (acc_next x = None) && (acc_linkC x =? 1) && (buf_linkC y =? 1).
Definition bf_pack (old_acc : option Z) : BM W (option Z) :=
  match old_acc with
  | None => mret None
  | Some a =>
      x ← get_acc a; b ← deref (acc_buffer x); y ← get_buf b;
      if packed x y then mret old_acc else
      size ← bf_bufsize a;
      new_acc ← bf_memreq size;
      loop (pack_fuel size) pack_step (old_acc, new_acc, 0, 0, size);;
      bf_afree old_acc;;
      mret new_acc
  end.
Definition bf_packIffLess (pack : option Z) (min_len : Z) : BM W (option Z) :=
  match pack with
  | None => mret None
  | Some a => x ← get_acc a; if min_len <=? acc_length x then mret pack else bf_pack pack
  end.

(** ** Parts of a chain *)

(** A duplicate of one accessor: its rest is given up. *)
Definition dup_one (data : Z) : BM W Z :=
  head ← bf_dupacc data;
  x ← get_acc head;
  bf_afree (acc_next x);;
  set_next head None;;
  mret head.
(** The same, linked after [tail]. *)
Definition dup_after (tail data : Z) : BM W Z :=
  t ← bf_dupacc data;
  set_next tail (Some t);;
  x ← get_acc t;
  bf_afree (acc_next x);;
  set_next t None;;
  mret t.
(** The accessor that has the byte at an offset. *)
Definition skip_step (x : option Z * Z) : BM W (option Z * Z + option Z * Z) :=
  let '(data, offset) := x in
  match data with
  | None => mret (inr (data, offset))
  | Some d => y ← get_acc d; if acc_length y <=? offset then mret (inl (acc_next y, offset - acc_length y)) else mret (inr (data, offset))
  end.
Definition cut_step (x : option Z * Z * Z) : BM W (option Z * Z * Z + option Z * Z * Z) :=
  let '(data, tail, length) := x in
  match data with
  | None => mret (inr x)
  | Some d =>
      y ← get_acc d;
      if negb (length =? 0) && (acc_length y <=? length) then
        t ← dup_after tail d;
        y ← get_acc d; z ← get_acc t;
        mret (inl (acc_next y, t, length - acc_length z))
      else mret (inr x)
  end.
Definition bf_cut (data : option Z) (offset length : Z) : BM W (option Z) :=
  match data with
  | None => if (offset =? 0) && (length =? 0) then mret None else fault
  | Some d =>
      if length =? 0 then
        head ← dup_one d;
        x ← get_acc head;
        set_acc head (x <| acc_length := 0 |>);;
        mret (Some head)
      else
        '(data, offset) ← loop acc_fuel skip_step (data, offset);
        d ← deref data;
        head ← dup_one d;
        x ← get_acc head;
        let x := x <| acc_offset := acc_offset x + offset |> <| acc_length := acc_length x - offset |> in
        let '(x, length) := if acc_length x <=? length then (x, length - acc_length x) else (x <| acc_length := length |>, 0) in
        set_acc head x;;
        y ← get_acc d;
        '(data, tail, length) ← loop acc_fuel cut_step (acc_next y, head, length);
        when (negb (length =? 0)) (
          d ← deref data;
          t ← dup_after tail d;
          z ← get_acc t;
          set_acc t (z <| acc_length := length |>));;
        mret (Some head)
  end.

(** [acc] is duplicated if it has more than one link. *)
Definition bf_own (acc : Z) : BM W Z :=
  x ← get_acc acc;
  if acc_linkC x =? 1 then mret acc else
  new_acc ← bf_dupacc acc; bf_afree (Some acc);; mret new_acc.
Definition delhead_step (x : Z * Z) : BM W (Z * Z + Z * Z) :=
  let '(new_acc, offset) := x in
  y ← get_acc new_acc;
  if acc_length y <=? offset then n ← deref (acc_next y); mret (inl (n, offset - acc_length y)) else mret (inr (new_acc, offset)).
Definition bf_delhead (data offset : Z) : BM W Z :=
  '(new_acc, offset) ← loop acc_fuel delhead_step (data, offset);
  when (negb (new_acc =? data)) (link_acc new_acc;; bf_afree (Some data));;
  data ← bf_own new_acc;
  x ← get_acc data;
  set_acc data (x <| acc_offset := acc_offset x + offset |> <| acc_length := acc_length x - offset |>);;
  mret data.

(** ** Appending *)

(** The first loop makes the first chain private and drops its empty accessors. *)
Definition own_step (x : option Z * option Z * option Z) : BM W (option Z * option Z * option Z + option Z * option Z) :=
  let '(data_first, head, tail) := x in
  match data_first with
  | None => mret (inr (head, tail))
  | Some d =>
      curr ← bf_own d;
      z ← get_acc curr;
      let data_first := acc_next z in
      if acc_length z =? 0 then
        set_next curr None;; bf_afree (Some curr);; mret (inl (data_first, head, tail))
      else
        match head with None => mret tt | Some _ => t ← deref tail; set_next t (Some curr) end;;
        mret (inl (data_first, match head with None => Some curr | Some _ => head end, Some curr))
  end.
Definition strip_step (data_second : option Z) : BM W (option Z + option Z) :=
  match data_second with
  | None => mret (inr None)
  | Some curr =>
      y ← get_acc curr;
      if acc_length y =? 0 then
        link_opt (acc_next y);; bf_afree (Some curr);; mret (inl (acc_next y))
      else mret (inr data_second)
  end.
(** One round of the loops that copy an accessor to a new chain. *)
Definition app_step (src : Z) (x : option Z * Z * Z * Z) : BM W (option Z * Z * Z * Z + option Z * Z) :=
  let '(new, offset_old, offset_new, size) := x in
  if size =? 0 then mret (inr (new, offset_new)) else
  n ← deref new; xn ← get_acc n;
  if offset_new =? acc_length xn then mret (inl (acc_next xn, offset_old, 0, size)) else
  xo ← get_acc src;
  let block_size_old := acc_length xo - offset_old in
  let block_size := acc_length xn - offset_new in
  let block_size := if block_size_old <? block_size then block_size_old else block_size in
  acc_copy n offset_new src offset_old block_size;;
  mret (inl (new, offset_old + block_size, offset_new + block_size, size - block_size)).
Definition last_step (tail : Z) : BM W (Z + Z) :=
  x ← get_acc tail; mret (match acc_next x with Some t => inl t | None => inr tail end).
(** The rest of the second chain goes after [tail]. *)
Definition take_rest (tail second : Z) : BM W unit :=
  y ← get_acc second;
  set_next tail (acc_next y);;
  link_opt (acc_next y);;
  bf_afree (Some second).

(** Both accessors fit a buffer: the second is moved behind the first in its
    buffer, or both to a new one. *)
Definition append_in_place (tail second : Z) : BM W unit :=
  x ← get_acc tail; b ← deref (acc_buffer x); z ← get_buf b;
  when (negb (acc_offset x =? 0)) (
    set_buf b (z <| buf_data := overwrite 0 (take (Z.to_nat (acc_length x)) (drop (Z.to_nat (acc_offset x)) (buf_data z))) (buf_data z) |>);;
    set_acc tail (x <| acc_offset := 0 |>));;
  x ← get_acc tail; y ← get_acc second;
  acc_copy tail (acc_length x) second 0 (acc_length y);;
  set_acc tail (x <| acc_length := acc_length x + acc_length y |>);;
  take_rest tail second.
Definition append_new (tail second : Z) : BM W unit :=
  x ← get_acc tail; y ← get_acc second;
  new_acc ← bf_small_memreq (acc_length x + acc_length y);
  '(new, offset_new) ← loop (pack_fuel (acc_length x)) (app_step tail) (new_acc, 0, 0, acc_length x);
  loop (pack_fuel (acc_length y)) (app_step second) (new, 0, offset_new, acc_length y);;
  n ← deref new_acc;
  tmp_acc ← get_acc tail; xn ← get_acc n;
  set_acc tail xn;; set_acc n tmp_acc;;
  bf_afree (Some n);;
  tail ← loop acc_fuel last_step tail;
  take_rest tail second.
Definition bf_append (data_first data_second : option Z) : BM W (option Z) :=
  match data_first, data_second with
  | None, _ => mret data_second
  | _, None => mret data_first
  | Some _, Some _ =>
      '(head, tail) ← loop acc_fuel own_step (data_first, None, None);
      match head with
      | None => mret data_second
      | Some _ =>
          t ← deref tail;
          set_next t None;;
          data_second ← loop acc_fuel strip_step data_second;
          match data_second with
          | None => mret head
          | Some d =>
              x ← get_acc t; y ← get_acc d; b ← deref (acc_buffer x); z ← get_buf b;
              gran ← gets bf_buf_gran;
              (if buf_size z <? acc_length x + acc_length y then set_next t (Some d)
               else if (buf_size z =? gran) && (buf_linkC z =? 1) then append_in_place t d
               else append_new t d);;
              mret head
          end
      end
  end.

(** ** Alignment *)
Definition aligned (x : acc_t) (size alignment : Z) : bool :=
  (size <=? acc_length x) &&
  (match acc_buffer x with Some b => Z.land (u16 (data_addr b + acc_offset x)) (alignment - 1) =? 0 | None => false end).
Definition bf_align (acc : Z) (size alignment : Z) : BM W (option Z) :=
  x ← get_acc acc;
  if aligned x size alignment then mret (Some acc) else
  buf_size ← bf_bufsize acc;
  if buf_size <=? size then bf_pack (Some acc) else
  head ← bf_cut (Some acc) 0 size;
  tail ← bf_cut (Some acc) size (buf_size - size);
  bf_afree (Some acc);;
  head ← bf_pack head;
  h ← deref head;
  set_next h tail;;
  mret head.
End buf.
