(* ===== verification/Bufinv.v ===== *)
(** * The invariant of the buffers

    Every link count is the number of its references: those that the caller has
    ([own]), those that the clients have ([held]) and the links of other
    accessors.  An operation may leave links to be overwritten: [st] lists the
    accessors whose link is not a reference.  The operations of buf.c are made of
    the steps proved here to keep the invariant. *)

From S2P Require Import Prelude Chain Buf.

(** ** The invariant of the buffers *)

(** *** Counting *)

Definition cnt (n : Z) (p : Z → bool) : Z := foldr (λ j x, Z.b2z (p j) + x) 0 (seqZ 0 n).
Definition occ (i : Z) (l : list Z) : Z := foldr (λ j x, Z.b2z (j =? i) + x) 0 l.

Lemma b2z_range b : 0 ≤ Z.b2z b ≤ 1.
Proof. destruct b; cbn; lia. Qed.
Lemma fold_b2z_ext (p p' : Z → bool) l : (∀ j, j ∈ l → p' j = p j) → foldr (λ j x, Z.b2z (p' j) + x) 0 l = foldr (λ j x, Z.b2z (p j) + x) 0 l.
Proof. induction l as [|a l IH]; intros Hp; [done|]. cbn. rewrite Hp by left. f_equal. apply IH. intros j Hj. apply Hp. by right. Qed.
Lemma fold_b2z_nonneg (p : Z → bool) l : 0 ≤ foldr (λ j x, Z.b2z (p j) + x) 0 l.
Proof. induction l as [|a l IH]; cbn; [done|]. pose proof (b2z_range (p a)). lia. Qed.
Lemma fold_b2z_change (p p' : Z → bool) k l : NoDup l → k ∈ l → (∀ j, j ≠ k → p' j = p j) →
  foldr (λ j x, Z.b2z (p' j) + x) 0 l = foldr (λ j x, Z.b2z (p j) + x) 0 l - Z.b2z (p k) + Z.b2z (p' k).
Proof.
  induction l as [|a l IH]; intros Hd Hk Hp; [by apply elem_of_nil in Hk|]. apply NoDup_cons in Hd as [Ha Hd]. cbn.
  destruct (decide (a = k)) as [->|Hne].
  - rewrite (fold_b2z_ext p p'); [lia|]. intros j Hj. apply Hp. by intros ->.
  - apply elem_of_cons in Hk as [->|Hk]; [done|]. rewrite IH, Hp by done. lia.
Qed.
Lemma cnt_ext n p p' : (∀ j, 0 ≤ j < n → p' j = p j) → cnt n p' = cnt n p.
Proof. intros Hp. apply fold_b2z_ext. intros j Hj%elem_of_seqZ. apply Hp. lia. Qed.
Lemma cnt_change n p p' k : 0 ≤ k < n → (∀ j, j ≠ k → p' j = p j) → cnt n p' = cnt n p - Z.b2z (p k) + Z.b2z (p' k).
Proof. intros Hk. apply fold_b2z_change; [apply NoDup_seqZ|apply elem_of_seqZ; lia]. Qed.
Lemma cnt_nonneg n p : 0 ≤ cnt n p.
Proof. apply fold_b2z_nonneg. Qed.
Lemma cnt_none n : cnt n (λ _, false) = 0.
Proof. unfold cnt. by induction (seqZ 0 n). Qed.
Lemma cnt_pos n p k : 0 ≤ k < n → p k = true → 1 ≤ cnt n p.
Proof.
  intros Hk Hp. pose proof (cnt_change n (λ j, p j && negb (j =? k)) p k Hk) as E.
  rewrite E; [|intros j Hj; rewrite (proj2 (Z.eqb_neq j k)) by done; by rewrite andb_true_r].
  rewrite Hp, Z.eqb_refl. cbn. pose proof (cnt_nonneg n (λ j, p j && negb (j =? k))). lia.
Qed.
Lemma cnt_two n p k j : 0 ≤ k < n → 0 ≤ j < n → k ≠ j → p k = true → p j = true → 2 ≤ cnt n p.
Proof.
  intros Hk Hj Hne Hpk Hpj. pose proof (cnt_change n (λ i, p i && negb (i =? k)) p k Hk) as E.
  rewrite E; [|intros i Hi; rewrite (proj2 (Z.eqb_neq i k)) by done; by rewrite andb_true_r].
  rewrite Hpk, Z.eqb_refl. cbn. pose proof (cnt_pos n (λ i, p i && negb (i =? k)) j Hj ltac:(cbn; rewrite Hpj, (proj2 (Z.eqb_neq j k)); done)). lia.
Qed.
Lemma cnt_ex n p : 0 < cnt n p → ∃ k, 0 ≤ k < n ∧ p k = true.
Proof.
  unfold cnt. assert (∀ l, 0 < foldr (λ j x, Z.b2z (p j) + x) 0 l → ∃ k, k ∈ l ∧ p k = true) as Hl.
  { induction l as [|a l IH]; cbn; [lia|]. destruct (p a) eqn:E; [intros _; exists a; split; [left|done]|].
    cbn. intros (k & Hk & Hp)%IH. exists k. split; [by right|done]. }
  intros (k & Hk%elem_of_seqZ & Hp)%Hl. exists k. split; [lia|done].
Qed.

Lemma occ_nonneg i l : 0 ≤ occ i l.
Proof. unfold occ. induction l as [|a l IH]; cbn; [done|]. pose proof (b2z_range (a =? i)). lia. Qed.
Lemma occ_cons i a l : occ i (a :: l) = Z.b2z (a =? i) + occ i l.
Proof. done. Qed.
Lemma occ_app i l1 l2 : occ i (l1 ++ l2) = occ i l1 + occ i l2.
Proof. unfold occ. induction l1 as [|a l IH]; cbn; [done|]. rewrite IH. lia. Qed.
Lemma occ_in i l : i ∈ l ↔ 0 < occ i l.
Proof.
  induction l as [|a l IH]; [split; [by intros ?%elem_of_nil|cbn; lia]|]. rewrite occ_cons, elem_of_cons, IH.
  pose proof (occ_nonneg i l). destruct (Z.eqb_spec a i); cbn; [split; [lia|by left]|]. split; [intros [->|?]; [done|lia]|]. right. lia.
Qed.
Lemma occ_perm i l l' : l ≡ₚ l' → occ i l = occ i l'.
Proof. induction 1; rewrite ?occ_cons; lia. Qed.

(** *** The invariant *)
Section inv.
Context {W : Type} (held : W → list Z).
Implicit Types (s : bfst W) (own st : list Z).

Definition nx st s (i : Z) : option Z := if decide (i ∈ st) then None else acc_next (accessors s i).
Definition roots own s : list Z := own ++ held (clients s).
Definition live s (i : Z) : Prop := 0 ≤ i < ACC_NR ∧ 0 < acc_linkC (accessors s i).
Definition refs st s (i : Z) : Z := cnt ACC_NR (λ j, (0 <? acc_linkC (accessors s j)) && bool_decide (nx st s j = Some i)).
Definition uses s (b : Z) : Z := cnt ACC_NR (λ j, (0 <? acc_linkC (accessors s j)) && bool_decide (acc_buffer (accessors s j) = Some b)).
Definition acc_ok (x : acc_t) : Prop :=
  ∃ b, acc_buffer x = Some b ∧ 0 ≤ b < BUF512_NR ∧ 0 ≤ acc_offset x ∧ 0 ≤ acc_length x ∧ acc_offset x + acc_length x ≤ BUF_S.

(** The free accessors, and those of them that have the free buffers. *)
Record free_lists s (la lb bl : list Z) : Prop := FreeLists {
  f_accs : chain (λ i, acc_next (accessors s i)) (acc_freelist s) la;
  f_bufs : chain (λ i, acc_next (accessors s i)) (buf512_freelist s) lb;
  f_dup : NoDup (la ++ lb);
  f_free : ∀ i, i ∈ la ++ lb ↔ 0 ≤ i < ACC_NR ∧ acc_linkC (accessors s i) = 0;
  f_with : map (λ i, acc_buffer (accessors s i)) lb = map Some bl;
  f_bdup : NoDup bl;
  f_buf : ∀ b, b ∈ bl ↔ 0 ≤ b < BUF512_NR ∧ buf_linkC (buffers512 s b) = 0
}.
Record binv own st s : Prop := Binv {
  i_root : Forall (λ a, 0 ≤ a < ACC_NR) (roots own s);
  i_link : ∀ i, 0 ≤ i < ACC_NR → acc_linkC (accessors s i) = occ i (roots own s) + refs st s i;
  i_acc : ∀ i, live s i → acc_ok (accessors s i);
  i_next : ∀ i n, live s i → nx st s i = Some n → 0 ≤ n < ACC_NR;
  i_chain : ∀ i, live s i → ∃ l, chain (nx st s) (Some i) l;
  i_buf : ∀ b, 0 ≤ b < BUF512_NR → buf_linkC (buffers512 s b) = uses s b ∧ buf_size (buffers512 s b) = BUF_S ∧ length (buf_data (buffers512 s b)) = 512%nat;
  i_free : ∃ la lb bl, free_lists s la lb bl;
  i_stale : ∀ t, t ∈ st → ∃ r l, r ∈ own ∧ chain (nx st s) (Some r) l ∧ t ∈ l;
  i_gran : bf_buf_gran s = BUF_S
}.

(** The bytes of an accessor, and of the chain from [p] on. *)
Definition data_of s (x : acc_t) : list Z :=
  match acc_buffer x with None => [] | Some b => take (Z.to_nat (acc_length x)) (drop (Z.to_nat (acc_offset x)) (buf_data (buffers512 s b))) end.
Definition part s (i : Z) : list Z := data_of s (accessors s i).
Definition cont st s (p : option Z) (v : list Z) : Prop := ∃ l, chain (nx st s) p l ∧ concat (map (part s) l) = v.

(** An accessor has its fields and its bytes as before. *)
Definition same s s' (i : Z) : Prop :=
  acc_offset (accessors s' i) = acc_offset (accessors s i) ∧ acc_length (accessors s' i) = acc_length (accessors s i) ∧
  acc_buffer (accessors s' i) = acc_buffer (accessors s i) ∧ acc_next (accessors s' i) = acc_next (accessors s i) ∧ part s' i = part s i.
(** And it has not more links than before, nor has its buffer. *)
Definition lower s s' (i : Z) : Prop :=
  acc_linkC (accessors s' i) ≤ acc_linkC (accessors s i) ∧
  ∀ b, acc_buffer (accessors s i) = Some b → buf_linkC (buffers512 s' b) ≤ buf_linkC (buffers512 s b).
(** What is reached from [own] satisfies [P]. *)
Definition all_of own st s (P : Z → Prop) : Prop := ∀ r l i, r ∈ own → chain (nx st s) (Some r) l → i ∈ l → P i.
Definition kept own st s s' : Prop := all_of own st s (same s s').
Definition untouched own st s s' : Prop := all_of own st s (λ i, same s s' i ∧ lower s s' i).
(** Buffers are not taken away, and those that were freed are there. *)
Definition freed s s' : Prop :=
  buf512_freelist s' = None → buf512_freelist s = None ∧ bf_free_bufsize s' ≤ bf_free_bufsize s.

(** *** Immediate consequences *)
Lemma live_range s i : live s i → 0 ≤ i < ACC_NR.
Proof. by intros []. Qed.
Lemma linkC_nonneg own st s i : binv own st s → 0 ≤ i < ACC_NR → 0 ≤ acc_linkC (accessors s i).
Proof. intros Hb Hi. rewrite (i_link _ _ _ Hb) by done. pose proof (occ_nonneg i (roots own s)). pose proof (cnt_nonneg ACC_NR (λ j, (0 <? acc_linkC (accessors s j)) && bool_decide (nx st s j = Some i))). unfold refs. lia. Qed.
Lemma refs_nonneg st s i : 0 ≤ refs st s i.
Proof. apply cnt_nonneg. Qed.
Lemma refs_pos st s i j : live s j → nx st s j = Some i → 1 ≤ refs st s i.
Proof. intros [Hj Hl] Hn. apply (cnt_pos _ _ j Hj). rewrite (proj2 (Z.ltb_lt _ _)) by done. by rewrite bool_decide_true. Qed.
Lemma refs_two st s i j k : live s j → live s k → j ≠ k → nx st s j = Some i → nx st s k = Some i → 2 ≤ refs st s i.
Proof.
  intros [Hj Hlj] [Hk Hlk] Hne Hnj Hnk.
  apply (cnt_two _ _ j k Hj Hk Hne); rewrite (proj2 (Z.ltb_lt _ _)) by done; by rewrite bool_decide_true.
Qed.
Lemma root_live own st s a : binv own st s → a ∈ roots own s → live s a.
Proof.
  intros Hb Ha. pose proof (proj1 (Forall_forall _ _) (i_root _ _ _ Hb) a Ha) as Hr. split; [done|].
  rewrite (i_link _ _ _ Hb) by done. apply occ_in in Ha. pose proof (refs_nonneg st s a). lia.
Qed.
Lemma own_live own st s a : binv own st s → a ∈ own → live s a.
Proof. intros Hb Ha. eapply root_live; [done|]. apply elem_of_app. by left. Qed.
Lemma next_live own st s i n : binv own st s → live s i → nx st s i = Some n → live s n.
Proof.
  intros Hb Hi Hn. pose proof (i_next _ _ _ Hb i n Hi Hn) as Hr. split; [done|]. rewrite (i_link _ _ _ Hb) by done.
  pose proof (occ_nonneg n (roots own s)). pose proof (refs_pos _ _ _ _ Hi Hn). lia.
Qed.
Lemma chain_live own st s p l : binv own st s → (∀ a, p = Some a → live s a) → chain (nx st s) p l → ∀ i, i ∈ l → live s i.
Proof.
  intros Hb. revert p. induction l as [|a l IH]; intros p Hp Hc i Hi; [by apply elem_of_nil in Hi|].
  destruct Hc as [-> Hc]. specialize (Hp a eq_refl). apply elem_of_cons in Hi as [->|Hi]; [done|].
  eapply IH; [|exact Hc|done]. intros b Hn. by eapply next_live.
Qed.
Lemma own_chain own st s a : binv own st s → a ∈ own → ∃ l, chain (nx st s) (Some a) (a :: l).
Proof.
  intros Hb Ha. destruct (i_chain _ _ _ Hb a) as [l Hl]; [by eapply own_live|]. destruct (chain_Some _ _ _ Hl) as (l' & -> & Hc).
  exists l'. by split.
Qed.
Lemma opt_chain own st s p : binv own st s → (∀ a, p = Some a → live s a) → ∃ l, chain (nx st s) p l.
Proof. intros Hb Hp. destruct p as [a|]; [by apply (i_chain _ _ _ Hb), Hp|by exists []]. Qed.
Lemma chain_nx_in st s p l i : chain (nx st s) p l → i ∈ l → p = Some i ∨ ∃ j, j ∈ l ∧ nx st s j = Some i.
Proof.
  revert p. induction l as [|a l IH]; intros p Hc Hi; [by apply elem_of_nil in Hi|]. destruct Hc as [-> Hc].
  apply elem_of_cons in Hi as [->|Hi]; [by left|]. destruct (IH _ Hc Hi) as [E|(j & Hj & E)]; right; [exists a|exists j]; (split; [|done]); [by left|by right].
Qed.

(** An accessor with one reference that is a root is reached from that root only. *)
Lemma sole_root own st s a r l : binv (a :: own) st s → acc_linkC (accessors s a) = 1 → r ∈ roots own s → chain (nx st s) (Some r) l → a ∉ l.
Proof.
  intros Hb H1 Hr Hl Ha. pose proof (root_live _ _ _ a Hb ltac:(left)) as Hla.
  pose proof (i_link _ _ _ Hb a (live_range _ _ Hla)) as Hc. unfold roots in Hc. cbn [app] in Hc. rewrite occ_cons, Z.eqb_refl in Hc. cbn [Z.b2z] in Hc.
  pose proof (occ_nonneg a (own ++ held (clients s))). pose proof (refs_nonneg st s a).
  destruct (chain_nx_in _ _ _ _ _ Hl Ha) as [[= ->]|(j & Hj & Hn)].
  - apply occ_in in Hr. unfold roots in Hr. lia.
  - assert (live s j) by (eapply (chain_live (a :: own)); [done| |exact Hl|done]; intros ? [= <-]; eapply root_live; [done|]; by right).
    pose proof (refs_pos _ _ _ _ H2 Hn). lia.
Qed.
Lemma sole_root_occ own st s a : binv (a :: own) st s → acc_linkC (accessors s a) = 1 → occ a (roots own s) = 0 ∧ refs st s a = 0.
Proof.
  intros Hb H1. pose proof (root_live _ _ _ a Hb ltac:(left)) as Hla.
  pose proof (i_link _ _ _ Hb a (live_range _ _ Hla)) as Hc. unfold roots in Hc. cbn [app] in Hc. rewrite occ_cons, Z.eqb_refl in Hc. cbn [Z.b2z] in Hc.
  pose proof (occ_nonneg a (own ++ held (clients s))). pose proof (refs_nonneg st s a). unfold roots. lia.
Qed.
Lemma refs_none st s a j : refs st s a = 0 → live s j → nx st s j ≠ Some a.
Proof. intros H0 Hj Hn. pose proof (refs_pos _ _ _ _ Hj Hn). lia. Qed.

(** The invariant depends on the contents of the tables, and on the roots and the
    stale links as sets. *)
Lemma nx_ext st st' s s' i : (i ∈ st ↔ i ∈ st') → acc_next (accessors s' i) = acc_next (accessors s i) → nx st' s' i = nx st s i.
Proof. intros Hs E. unfold nx. rewrite E. destruct (decide (i ∈ st)), (decide (i ∈ st')); tauto. Qed.
Lemma binv_ext own own' st st' s s' : binv own st s → own ≡ₚ own' → (∀ i, i ∈ st ↔ i ∈ st') →
  (∀ i, accessors s' i = accessors s i) → (∀ b, buffers512 s' b = buffers512 s b) →
  acc_freelist s' = acc_freelist s → buf512_freelist s' = buf512_freelist s → bf_buf_gran s' = bf_buf_gran s → held (clients s') = held (clients s) →
  binv own' st' s'.
Proof.
  intros Hb Hp Hst Ha Hbu E1 E2 E3 E4.
  assert (Hr : roots own s ≡ₚ roots own' s') by (unfold roots; by rewrite E4, Hp).
  assert (Hn : ∀ i, nx st' s' i = nx st s i) by (intros i; apply nx_ext; [done|by rewrite Ha]).
  assert (Hl : ∀ i, live s' i ↔ live s i) by (intros i; unfold live; by rewrite Ha).
  split.
  - rewrite <- Hr. by apply (i_root _ _ _ Hb).
  - intros i Hi. rewrite Ha, (i_link _ _ _ Hb) by done. rewrite (occ_perm _ _ _ Hr). f_equal. apply cnt_ext. intros j _. by rewrite Ha, Hn.
  - intros i Hi. rewrite Ha. by apply (i_acc _ _ _ Hb), Hl.
  - intros i n Hi. rewrite Hn. by apply (i_next _ _ _ Hb), Hl.
  - intros i Hi. destruct (i_chain _ _ _ Hb i) as [l Hc]; [by apply Hl|]. exists l. eapply lseg_ext; [|exact Hc]. done.
  - intros b Hbr. rewrite Hbu. destruct (i_buf _ _ _ Hb b Hbr) as (B1 & B2 & B3). split_and!; try done. rewrite B1. apply cnt_ext. intros j _. by rewrite Ha.
  - destruct (i_free _ _ _ Hb) as (la & lb & bl & F). exists la, lb, bl. destruct F. split; try done.
    + rewrite E1. eapply lseg_ext; [|done]. intros k _. cbn. by rewrite Ha.
    + rewrite E2. eapply lseg_ext; [|done]. intros k _. cbn. by rewrite Ha.
    + intros i. by rewrite Ha.
    + rewrite <- f_with0. apply map_ext. intros i. by rewrite Ha.
    + intros b. by rewrite Hbu.
  - intros t Ht. destruct (i_stale _ _ _ Hb t) as (r & l & Hro & Hc & Htl); [by apply Hst|]. exists r, l. rewrite <- Hp. split; [done|]. split; [|done].
    eapply lseg_ext; [|exact Hc]. done.
  - by rewrite E3, (i_gran _ _ _ Hb).
Qed.
Lemma binv_perm own own' st s : binv own st s → own ≡ₚ own' → binv own' st s.
Proof. intros Hb Hp. by eapply binv_ext. Qed.
End inv.

(** ** Steps that keep the invariant of the buffers *)

Section moves.
Context {W : Type} (held : W → list Z).
Implicit Types (s : bfst W) (own st : list Z).
Abbreviation binv := (binv held).
Abbreviation roots := (roots held).

Definition sa (a : Z) (x : acc_t) (s : bfst W) : bfst W := s <| accessors := <[a := x]> (accessors s) |>.
Definition sb (b : Z) (x : buf_t) (s : bfst W) : bfst W := s <| buffers512 := <[b := x]> (buffers512 s) |>.
Definition opt (p : option Z) : list Z := match p with Some a => [a] | None => [] end.
Definition reached own st s (t : Z) : Prop := ∃ r l, r ∈ own ∧ chain (nx st s) (Some r) l ∧ t ∈ l.

Lemma sa_at a x s : accessors (sa a x s) a = x.
Proof. cbn. by rewrite fn_lookup_insert. Qed.
Lemma sa_ne a x s i : i ≠ a → accessors (sa a x s) i = accessors s i.
Proof. intros. cbn. by rewrite fn_lookup_insert_ne. Qed.
Lemma sb_at b x s : buffers512 (sb b x s) b = x.
Proof. cbn. by rewrite fn_lookup_insert. Qed.
Lemma sb_ne b x s i : i ≠ b → buffers512 (sb b x s) i = buffers512 s i.
Proof. intros. cbn. by rewrite fn_lookup_insert_ne. Qed.

(** What one accessor adds to the counts. *)
Definition lnk st s (a i : Z) : Z := Z.b2z ((0 <? acc_linkC (accessors s a)) && bool_decide (nx st s a = Some i)).
Definition usb s (a b : Z) : Z := Z.b2z ((0 <? acc_linkC (accessors s a)) && bool_decide (acc_buffer (accessors s a) = Some b)).
Lemma refs_upd st st' s s' a i : 0 ≤ a < ACC_NR → (∀ j, j ≠ a → accessors s' j = accessors s j ∧ (j ∈ st ↔ j ∈ st')) →
  refs st' s' i = refs st s i - lnk st s a i + lnk st' s' a i.
Proof.
  intros Ha Hj. apply (cnt_change _ (λ j, (0 <? acc_linkC (accessors s j)) && bool_decide (nx st s j = Some i)) (λ j, (0 <? acc_linkC (accessors s' j)) && bool_decide (nx st' s' j = Some i))); [done|]. intros j Hne. destruct (Hj j Hne) as [E Hs].
  rewrite E. by rewrite (nx_ext st st' s s') by (rewrite ?E; done).
Qed.
Lemma uses_upd s s' a b : 0 ≤ a < ACC_NR → (∀ j, j ≠ a → accessors s' j = accessors s j) → uses s' b = uses s b - usb s a b + usb s' a b.
Proof. intros Ha Hj. apply (cnt_change _ (λ j, (0 <? acc_linkC (accessors s j)) && bool_decide (acc_buffer (accessors s j) = Some b)) (λ j, (0 <? acc_linkC (accessors s' j)) && bool_decide (acc_buffer (accessors s' j) = Some b))); [done|]. intros j Hne. by rewrite Hj. Qed.
Lemma lnk_dead st s a i : acc_linkC (accessors s a) = 0 → lnk st s a i = 0.
Proof. intros E. unfold lnk. by rewrite E. Qed.
Lemma lnk_live st s a i : 0 < acc_linkC (accessors s a) → lnk st s a i = Z.b2z (bool_decide (nx st s a = Some i)).
Proof. intros E. unfold lnk. by rewrite (proj2 (Z.ltb_lt _ _)). Qed.
Lemma usb_dead s a b : acc_linkC (accessors s a) = 0 → usb s a b = 0.
Proof. intros E. unfold usb. by rewrite E. Qed.
Lemma usb_live s a b : 0 < acc_linkC (accessors s a) → usb s a b = Z.b2z (bool_decide (acc_buffer (accessors s a) = Some b)).
Proof. intros E. unfold usb. by rewrite (proj2 (Z.ltb_lt _ _)). Qed.
Lemma nx_sa_ne st a x s i : i ≠ a → nx st (sa a x s) i = nx st s i.
Proof. intros Hi. apply nx_ext; [done|]. by rewrite sa_ne. Qed.
Lemma nx_stale st s t : t ∈ st → nx st s t = None.
Proof. intros. unfold nx. by rewrite decide_True. Qed.
Lemma nx_plain st s t : t ∉ st → nx st s t = acc_next (accessors s t).
Proof. intros. unfold nx. by rewrite decide_False. Qed.
Lemma occ_opt i p : occ i (opt p) = Z.b2z (bool_decide (p = Some i)).
Proof. destruct p as [a|]; cbn; [|done]. destruct (Z.eqb_spec a i); [subst; by rewrite bool_decide_true|rewrite bool_decide_false; [done|congruence]]. Qed.
Lemma roots_sa own a x s : roots own (sa a x s) = roots own s.
Proof. done. Qed.

(** Chains are as before where the links are. *)
Lemma chain_keep st st' s s' p l : (∀ i, i ∈ l → nx st' s' i = nx st s i) → chain (nx st s) p l → chain (nx st' s') p l.
Proof. intros Hn. by apply lseg_ext. Qed.

(** The free lists do not depend on live accessors. *)
Lemma free_keep s s' la lb bl : free_lists s la lb bl → acc_freelist s' = acc_freelist s → buf512_freelist s' = buf512_freelist s →
  (∀ i, acc_linkC (accessors s i) = 0 → accessors s' i = accessors s i) →
  (∀ i, 0 ≤ i < ACC_NR → acc_linkC (accessors s' i) = 0 → acc_linkC (accessors s i) = 0) →
  (∀ b, 0 ≤ b < BUF512_NR → buf_linkC (buffers512 s' b) = 0 ↔ buf_linkC (buffers512 s b) = 0) → free_lists s' la lb bl.
Proof.
  intros F E1 E2 Ha Hd Hb. assert (Hin : ∀ i, i ∈ la ++ lb → accessors s' i = accessors s i) by (intros i Hi; by apply Ha, (f_free _ _ _ _ F)).
  destruct F as [f_accs f_bufs f_dup f_free f_with f_bdup f_buf]. split; try done.
  - rewrite E1. eapply lseg_ext; [|done]. intros i Hi. cbn. rewrite Hin; [done|]. apply elem_of_app. by left.
  - rewrite E2. eapply lseg_ext; [|done]. intros i Hi. cbn. rewrite Hin; [done|]. apply elem_of_app. by right.
  - intros i. split.
    + intros Hi. rewrite (Hin i Hi). by apply f_free.
    + intros [Hr H0]. apply f_free. split; [done|by apply Hd].
  - rewrite <- f_with. apply map_ext_in. intros i Hi%list_elem_of_In. rewrite Hin; [done|]. apply elem_of_app. by right.
  - intros b. rewrite f_buf. split; intros [Hr H0]; (split; [done|]); by apply Hb.
Qed.

(** *** References *)

(** The number of references to a live accessor changes with the roots. *)
Lemma set_count own own' st s a c : binv own st s → live s a → 0 < c → Forall (λ a, 0 ≤ a < ACC_NR) own' →
  (∀ i, occ i own' = occ i own + (if decide (i = a) then c - acc_linkC (accessors s a) else 0)) →
  (∀ t, t ∈ st → reached own' st s t) →
  binv own' st (sa a ((accessors s a) <| acc_linkC := c |>) s).
Proof.
  intros Hb [Har Hal] Hc Hr' Ho Hst. set (s' := sa _ _ _).
  assert (Hf : ∀ i, acc_offset (accessors s' i) = acc_offset (accessors s i) ∧ acc_length (accessors s' i) = acc_length (accessors s i) ∧
     acc_buffer (accessors s' i) = acc_buffer (accessors s i) ∧ acc_next (accessors s' i) = acc_next (accessors s i) ∧
     (0 <? acc_linkC (accessors s' i)) = (0 <? acc_linkC (accessors s i))).
  { intros i. unfold s'. destruct (decide (i = a)) as [->|]; [|by rewrite sa_ne]. rewrite sa_at. cbn. split_and!; try done.
    by rewrite !(proj2 (Z.ltb_lt _ _)). }
  assert (Hn : ∀ i, nx st s' i = nx st s i) by (intros i; apply nx_ext; [done|apply Hf]).
  assert (Hl : ∀ i, live s' i ↔ live s i).
  { intros i. unfold live. rewrite <- (Z.ltb_lt 0 (acc_linkC (accessors s' i))), <- (Z.ltb_lt 0 (acc_linkC (accessors s i))). destruct (Hf i) as (_ & _ & _ & _ & ->). done. }
  split.
  - pose proof (i_root _ _ _ _ Hb) as Hr. apply Forall_app in Hr as [_ Hh]. by apply Forall_app.
  - intros i Hi. replace (refs st s' i) with (refs st s i) by (apply cnt_ext; intros j _; destruct (Hf j) as (_ & _ & _ & _ & ->); by rewrite Hn).
    pose proof (i_link _ _ _ _ Hb i Hi) as Hli. unfold Bufinv.roots in *. rewrite occ_app in Hli |- *. rewrite Ho. change (clients s') with (clients s).
    unfold s'. destruct (decide (i = a)) as [->|]; [rewrite sa_at; cbn [acc_linkC upd upd_acc_linkC]|rewrite sa_ne by done]; lia.
  - intros i Hi. apply Hl in Hi. destruct (i_acc _ _ _ _ Hb i Hi) as (b & B). exists b. destruct (Hf i) as (-> & -> & -> & _). done.
  - intros i n Hi. rewrite Hn. by apply (i_next _ _ _ _ Hb), Hl.
  - intros i Hi. destruct (i_chain _ _ _ _ Hb i) as [l Hch]; [by apply Hl|]. exists l. eapply chain_keep; [|exact Hch]. by intros.
  - intros b Hbr. destruct (i_buf _ _ _ _ Hb b Hbr) as (B1 & B2 & B3). split_and!; try done. change (buffers512 s') with (buffers512 s). rewrite B1.
    apply cnt_ext. intros j _. by destruct (Hf j) as (_ & _ & -> & _ & ->).
  - destruct (i_free _ _ _ _ Hb) as (la & lb & bl & F). exists la, lb, bl. eapply free_keep; try done.
    + intros i H0. unfold s'. destruct (decide (i = a)) as [->|]; [lia|by rewrite sa_ne].
    + intros i Hi H0. unfold s' in H0. destruct (decide (i = a)) as [->|]; [rewrite sa_at in H0; cbn in H0; lia|by rewrite sa_ne in H0].
  - intros t Ht. destruct (Hst t Ht) as (r & l & Hr & Hch & Htl). exists r, l. split_and!; [done| |done]. eapply chain_keep; [|exact Hch]. by intros.
  - exact (i_gran _ _ _ _ Hb).
Qed.
Lemma one_more own st s a : binv own st s → live s a → binv (a :: own) st (sa a ((accessors s a) <| acc_linkC := acc_linkC (accessors s a) + 1 |>) s).
Proof.
  intros Hb Ha. eapply set_count; [exact Hb|done|destruct Ha; lia| | |].
  - constructor; [by apply Ha|]. pose proof (i_root _ _ _ _ Hb) as Hr. by apply Forall_app in Hr as [? _].
  - intros i. rewrite occ_cons. destruct (Z.eqb_spec a i); case_decide; subst; cbn; try done; lia.
  - intros t Ht. destruct (i_stale _ _ _ _ Hb t Ht) as (r & l & Hr & Hc). exists r, l. split; [by right|done].
Qed.
Lemma one_less own st s a : binv (a :: own) st s → 1 < acc_linkC (accessors s a) → (∀ t, t ∈ st → reached own st s t) →
  binv own st (sa a ((accessors s a) <| acc_linkC := acc_linkC (accessors s a) - 1 |>) s).
Proof.
  intros Hb Ha Hst. eapply set_count; [exact Hb|eapply own_live; [done|left]|lia| | |done].
  - pose proof (i_root _ _ _ _ Hb) as Hr. apply Forall_app in Hr as [Hr _]. by inv Hr.
  - intros i. rewrite occ_cons. destruct (Z.eqb_spec a i); case_decide; subst; cbn; try done; lia.
Qed.

(** *** Links *)

Lemma chain_cut (f g : Z → option Z) t p l : (∀ i, i ≠ t → g i = f i) → g t = None → chain f p l →
  (t ∉ l ∧ chain g p l) ∨ (∃ l1 l2, l = l1 ++ t :: l2 ∧ chain g p (l1 ++ [t]) ∧ chain f (f t) l2 ∧ t ∉ l2 ∧ chain g (f t) l2).
Proof.
  intros Hg Ht Hc. destruct (decide (t ∈ l)) as [Hin|Hni]; [right|left; split; [done|]; eapply lseg_ext; [|done]; intros i Hi; apply Hg; by intros ->].
  apply list_elem_of_split in Hin as (l1 & l2 & ->). exists l1, l2. pose proof (chain_NoDup _ _ _ Hc) as Hd.
  apply NoDup_app in Hd as (_ & Hd & Hd2). apply NoDup_cons in Hd2 as [Hd2 _].
  apply lseg_app in Hc as (m & H1 & -> & H2). split; [done|]. split; [|split; [done|]].
  - apply lseg_app. exists (Some t). split; [|by split]. eapply lseg_ext; [|exact H1]. intros i Hi. apply Hg. intros ->. apply (Hd t Hi). left.
  - split; [done|]. eapply lseg_ext; [|done]. intros i Hi. apply Hg. by intros ->.
Qed.
Lemma chain_join (f g : Z → option Z) t lq p l : (∀ i, i ≠ t → g i = f i) → f t = None → chain g (g t) lq → chain f p l →
  chain g p (if decide (t ∈ l) then l ++ lq else l).
Proof.
  intros Hg Ht Hq Hc. case_decide as Hin; [|eapply lseg_ext; [|done]; intros i Hi; apply Hg; by intros ->].
  apply list_elem_of_split in Hin as (l1 & l2 & ->). pose proof (chain_NoDup _ _ _ Hc) as Hd. apply NoDup_app in Hd as (_ & Hd & _).
  apply lseg_app in Hc as (m & H1 & -> & H2). rewrite Ht in H2. apply chain_None in H2 as ->.
  rewrite <- app_assoc. cbn. apply lseg_app. exists (Some t). split; [|by split].
  eapply lseg_ext; [|exact H1]. intros i Hi. apply Hg. intros ->. apply (Hd t Hi). left.
Qed.

Lemma unlink own st s t : binv own st s → reached own st s t → t ∉ st → binv (opt (acc_next (accessors s t)) ++ own) (t :: st) s.
Proof.
  intros Hb (r & lr & Hro & Hcr & Htr) Hst. set (p := acc_next (accessors s t)).
  assert (Hlt : live s t) by (eapply chain_live; [exact Hb| |exact Hcr|exact Htr]; intros ? [= <-]; by eapply own_live).
  assert (Hpt : nx st s t = p) by by apply nx_plain.
  assert (Hn : ∀ i, i ≠ t → nx (t :: st) s i = nx st s i).
  { intros i Hi. apply nx_ext; [|done]. rewrite elem_of_cons. split; [tauto|]. by intros [?|?]. }
  assert (Ht : nx (t :: st) s t = None) by (apply nx_stale; left).
  split.
  - unfold Bufinv.roots. rewrite <- app_assoc. apply Forall_app. split; [|exact (i_root _ _ _ _ Hb)].
    destruct p as [n|] eqn:E; [|constructor]. constructor; [|constructor]. by eapply i_next.
  - intros i Hi. rewrite (i_link _ _ _ _ Hb i Hi). unfold Bufinv.roots. rewrite <- app_assoc, (occ_app i (opt p)), occ_opt.
    rewrite (refs_upd st (t :: st) s s t i (live_range _ _ Hlt)) by (intros j Hj; rewrite elem_of_cons; tauto).
    rewrite !lnk_live by apply Hlt. rewrite Ht, Hpt, (bool_decide_false (None = _)) by done. cbn. lia.
  - exact (i_acc _ _ _ _ Hb).
  - intros i n Hi. destruct (decide (i = t)) as [->|]; [by rewrite Ht|]. rewrite Hn by done. by apply (i_next _ _ _ _ Hb).
  - intros i Hi. destruct (i_chain _ _ _ _ Hb i Hi) as [l Hc].
    destruct (chain_cut _ (nx (t :: st) s) t _ _ Hn Ht Hc) as [[_ Hc']|(l1 & l2 & _ & Hc' & _)]; by eexists.
  - exact (i_buf _ _ _ _ Hb).
  - exact (i_free _ _ _ _ Hb).
  - intros u Hu. assert (Hru : reached own st s u) by (apply elem_of_cons in Hu as [->|Hu]; [by exists r, lr|by apply (i_stale _ _ _ _ Hb)]).
    destruct Hru as (q & l & Hq & Hc & Hul).
    destruct (chain_cut _ (nx (t :: st) s) t _ _ Hn Ht Hc) as [[_ Hc']|(l1 & l2 & -> & Hc' & _ & _ & Hc2)].
    + exists q, l. split; [apply elem_of_app; by right|done].
    + apply elem_of_app in Hul as [Hul|Hul].
      * exists q, (l1 ++ [t]). split; [apply elem_of_app; by right|]. split; [done|]. apply elem_of_app. by left.
      * apply elem_of_cons in Hul as [->|Hul].
        -- exists q, (l1 ++ [t]). split; [apply elem_of_app; by right|]. split; [done|]. apply elem_of_app. right. left.
        -- rewrite Hpt in Hc2. destruct p as [n|]; [|apply chain_None in Hc2 as ->; by apply elem_of_nil in Hul].
           exists n, l2. split; [left|done].
  - exact (i_gran _ _ _ _ Hb).
Qed.

(** A stale link is overwritten by a reference that the caller had. *)
Lemma relink_step own st s t p : binv (opt p ++ own) (t :: st) s → t ∉ st → (∀ l, chain (nx (t :: st) s) p l → t ∉ l) →
  binv own st (sa t ((accessors s t) <| acc_next := p |>) s).
Proof.
  intros Hb Hst Hap. set (s' := sa _ _ _).
  assert (Hlt : live s t).
  { destruct (i_stale _ _ _ _ Hb t ltac:(left)) as (r & lr & Hro & Hcr & Htr).
    eapply chain_live; [exact Hb| |exact Hcr|exact Htr]. intros ? [= <-]. by eapply own_live. }
  assert (Ea : ∀ i, i ≠ t → accessors s' i = accessors s i) by (intros i Hi; by apply sa_ne).
  assert (Et : accessors s' t = (accessors s t) <| acc_next := p |>) by apply sa_at.
  assert (Hn : ∀ i, i ≠ t → nx st s' i = nx (t :: st) s i).
  { intros i Hi. apply nx_ext; [|by rewrite Ea]. rewrite elem_of_cons. split; [by intros [?|?]|tauto]. }
  assert (Ht : nx (t :: st) s t = None) by (apply nx_stale; left).
  assert (Ht' : nx st s' t = p) by (rewrite nx_plain by done; by rewrite Et).
  assert (Hl : ∀ i, live s' i ↔ live s i).
  { intros i. unfold live. destruct (decide (i = t)) as [->|]; [by rewrite Et|by rewrite Ea]. }
  assert (Hlp : ∃ lp, chain (nx (t :: st) s) p lp).
  { eapply opt_chain; [exact Hb|]. intros a ->. eapply own_live; [exact Hb|]. left. }
  destruct Hlp as [lp Hlp]. specialize (Hap lp Hlp).
  assert (Hlp' : chain (nx st s') (nx st s' t) lp) by (rewrite Ht'; eapply lseg_ext; [|exact Hlp]; intros i Hi; apply Hn; by intros ->).
  pose proof (λ q l, chain_join _ (nx st s') t lp q l Hn Ht Hlp') as Hj.
  split.
  - pose proof (i_root _ _ _ _ Hb) as Hr. unfold Bufinv.roots in Hr. rewrite <- app_assoc in Hr. by apply Forall_app in Hr as [_ Hr].
  - intros i Hi. pose proof (i_link _ _ _ _ Hb i Hi) as Hli. unfold Bufinv.roots in *. rewrite <- app_assoc, occ_app, occ_opt in Hli. change (clients s') with (clients s).
    rewrite (refs_upd (t :: st) st s s' t i (live_range _ _ Hlt)) by (intros j Hj'; rewrite elem_of_cons; split; [by apply Ea|tauto]).
    rewrite !lnk_live by (try rewrite Et; apply Hlt). rewrite Ht, Ht', (bool_decide_false (None = _)) by done. change (Z.b2z false) with 0.
    replace (acc_linkC (accessors s' i)) with (acc_linkC (accessors s i)); [lia|]. destruct (decide (i = t)) as [->|]; [by rewrite Et|by rewrite Ea].
  - intros i Hi. apply Hl in Hi. destruct (i_acc _ _ _ _ Hb i Hi) as (b & B). exists b. destruct (decide (i = t)) as [->|]; [by rewrite Et|by rewrite Ea].
  - intros i n Hi. apply Hl in Hi. destruct (decide (i = t)) as [->|]; [|rewrite Hn by done; by apply (i_next _ _ _ _ Hb)].
    rewrite Ht'. intros ->. pose proof (i_root _ _ _ _ Hb) as Hr. by inv Hr.
  - intros i Hi. apply Hl in Hi. destruct (i_chain _ _ _ _ Hb i Hi) as [l Hc]. eexists. by apply Hj.
  - intros b Hbr. destruct (i_buf _ _ _ _ Hb b Hbr) as (B1 & B2 & B3). split_and!; try done. change (buffers512 s') with (buffers512 s). rewrite B1.
    apply cnt_ext. intros j _. destruct (decide (j = t)) as [->|]; [by rewrite Et|by rewrite Ea].
  - destruct (i_free _ _ _ _ Hb) as (la & lb & bl & F). exists la, lb, bl. eapply free_keep; try done.
    + intros i H0. destruct (decide (i = t)) as [->|]; [destruct Hlt; lia|by apply Ea].
    + intros i Hi H0. destruct (decide (i = t)) as [->|]; [by rewrite Et in H0|by rewrite Ea in H0].
  - assert (Hown : ∀ u, reached (opt p ++ own) (t :: st) s u → u ∉ lp → reached own st s' u).
    { intros u (r & l & Hr & Hc & Hu) Hni. apply elem_of_app in Hr as [Hr|Hr].
      - destruct p as [n|]; [|by apply elem_of_nil in Hr]. apply list_elem_of_singleton in Hr as ->. by rewrite (chain_det _ _ _ _ Hc Hlp) in Hu.
      - exists r. eexists. split; [done|]. split; [by apply Hj|]. case_decide; [|done]. apply elem_of_app. by left. }
    intros u Hu. destruct (decide (u ∈ lp)) as [Hin|Hni]; [|apply Hown; [|done]; apply (i_stale _ _ _ _ Hb); by right].
    destruct (i_stale _ _ _ _ Hb t ltac:(left)) as (r & l & Hr & Hc & Htl). apply elem_of_app in Hr as [Hr|Hr].
    + destruct p as [n|]; [|by apply elem_of_nil in Hr]. apply list_elem_of_singleton in Hr as ->. by rewrite (chain_det _ _ _ _ Hc Hlp) in Htl.
    + exists r, (l ++ lp). split; [done|]. split; [|apply elem_of_app; by right]. specialize (Hj _ _ Hc). by rewrite decide_True in Hj.
  - exact (i_gran _ _ _ _ Hb).
Qed.

(** *** Fields and data *)

(** The part of a live accessor changes, or a stale link of it. *)
Lemma touch own st s a x : binv own st s → live s a → acc_linkC x = acc_linkC (accessors s a) → acc_buffer x = acc_buffer (accessors s a) →
  a ∈ st ∨ acc_next x = acc_next (accessors s a) → acc_ok x → binv own st (sa a x s).
Proof.
  intros Hb Hal E1 E2 E3 Hok. set (s' := sa _ _ _).
  assert (Ea : ∀ i, i ≠ a → accessors s' i = accessors s i) by (intros i Hi; by apply sa_ne).
  assert (Et : accessors s' a = x) by apply sa_at.
  assert (Hn : ∀ i, nx st s' i = nx st s i).
  { intros i. destruct (decide (i = a)) as [->|]; [|apply nx_ext; [done|by rewrite Ea]]. destruct E3 as [E3|E3]; [by rewrite !nx_stale|].
    apply nx_ext; [done|by rewrite Et]. }
  assert (Hc : ∀ i, acc_linkC (accessors s' i) = acc_linkC (accessors s i) ∧ acc_buffer (accessors s' i) = acc_buffer (accessors s i)).
  { intros i. destruct (decide (i = a)) as [->|]; [by rewrite Et|by rewrite Ea]. }
  assert (Hl : ∀ i, live s' i ↔ live s i) by (intros i; unfold live; by rewrite (proj1 (Hc i))).
  split.
  - exact (i_root _ _ _ _ Hb).
  - intros i Hi. rewrite (proj1 (Hc i)), (i_link _ _ _ _ Hb i Hi). f_equal. apply cnt_ext. intros j _. by rewrite (proj1 (Hc j)), Hn.
  - intros i Hi. apply Hl in Hi. destruct (decide (i = a)) as [->|]; [by rewrite Et|rewrite Ea by done; by apply (i_acc _ _ _ _ Hb)].
  - intros i n Hi. rewrite Hn. by apply (i_next _ _ _ _ Hb), Hl.
  - intros i Hi. destruct (i_chain _ _ _ _ Hb i) as [l Hch]; [by apply Hl|]. exists l. eapply chain_keep; [|exact Hch]. by intros.
  - intros b Hbr. destruct (i_buf _ _ _ _ Hb b Hbr) as (B1 & B2 & B3). split_and!; try done. change (buffers512 s') with (buffers512 s). rewrite B1.
    apply cnt_ext. intros j _. by rewrite (proj1 (Hc j)), (proj2 (Hc j)).
  - destruct (i_free _ _ _ _ Hb) as (la & lb & bl & F). exists la, lb, bl. eapply free_keep; try done.
    + intros i H0. apply Ea. intros ->. destruct Hal. lia.
    + intros i Hi. by rewrite (proj1 (Hc i)).
  - intros t Ht. destruct (i_stale _ _ _ _ Hb t Ht) as (r & l & Hr & Hch & Htl). exists r, l. split_and!; [done| |done]. eapply chain_keep; [|exact Hch]. by intros.
  - exact (i_gran _ _ _ _ Hb).
Qed.
Lemma rewrite_data own st s b d : binv own st s → length d = 512%nat → binv own st (sb b ((buffers512 s b) <| buf_data := d |>) s).
Proof.
  intros Hb Hd. set (s' := sb _ _ _).
  assert (Eb : ∀ i, buf_linkC (buffers512 s' i) = buf_linkC (buffers512 s i) ∧ buf_size (buffers512 s' i) = buf_size (buffers512 s i) ∧
    (length (buf_data (buffers512 s i)) = 512%nat → length (buf_data (buffers512 s' i)) = 512%nat)).
  { intros i. destruct (decide (i = b)) as [->|]; unfold s'; [by rewrite sb_at|by rewrite sb_ne]. }
  destruct Hb as [i_root i_link i_acc i_next i_chain i_buf i_free i_stale i_gran]. split; try done.
  - intros i Hi. destruct (i_buf i Hi) as (B1 & B2 & B3), (Eb i) as (-> & -> & E3). split; [exact B1|]. split; [done|by apply E3].
  - destruct i_free as (la & lb & bl & F). exists la, lb, bl. eapply free_keep; try done. intros i Hi. by rewrite (proj1 (Eb i)).
Qed.

(** *** Accessors in use and free *)

(** [s'] is [s] with accessor [a] and buffer [b] changed, and other free lists. *)
Record differ (a b : Z) s s' : Prop := Differ {
  d_acc : ∀ i, i ≠ a → accessors s' i = accessors s i;
  d_buf : ∀ i, i ≠ b → buffers512 s' i = buffers512 s i;
  d_size : buf_size (buffers512 s' b) = buf_size (buffers512 s b);
  d_data : length (buf_data (buffers512 s b)) = 512%nat → length (buf_data (buffers512 s' b)) = 512%nat;
  d_gran : bf_buf_gran s' = bf_buf_gran s;
  d_clients : clients s' = clients s
}.

Lemma dead_none own st s n : binv own st s → 0 ≤ n < ACC_NR → acc_linkC (accessors s n) = 0 → n ∉ st ∧ n ∉ roots own s ∧ ∀ j, live s j → nx st s j ≠ Some n.
Proof.
  intros Hb Hn H0. pose proof (i_link _ _ _ _ Hb n Hn) as Hl. pose proof (occ_nonneg n (roots own s)). pose proof (refs_nonneg st s n). split_and!.
  - intros Hst. destruct (i_stale _ _ _ _ Hb n Hst) as (r & l & Hr & Hc & Hin).
    assert (live s n) as [_ Hp]; [|lia]. eapply chain_live; [exact Hb| |exact Hc|exact Hin]. intros ? [= <-]. by eapply own_live.
  - rewrite occ_in. lia.
  - intros j Hj. apply refs_none; [lia|done].
Qed.

Lemma come_alive own st st' s s' n b p : binv (opt p ++ own) st s → 0 ≤ n < ACC_NR → acc_linkC (accessors s n) = 0 → differ n b s s' →
  acc_linkC (accessors s' n) = 1 → acc_ok (accessors s' n) → acc_buffer (accessors s' n) = Some b → buf_linkC (buffers512 s' b) = buf_linkC (buffers512 s b) + 1 →
  (∀ i, i ≠ n → i ∈ st ↔ i ∈ st') → nx st' s' n = p → (∃ la lb bl, free_lists s' la lb bl) → binv (n :: own) st' s'.
Proof.
  intros Hb Hn H0 [Da Db Ds Dd Dg Dc] H1 Hok Hbuf Hbl Hst Hnx Hf. destruct (dead_none _ _ _ _ Hb Hn H0) as (N1 & N2 & N3).
  assert (Hnx' : ∀ i, i ≠ n → nx st' s' i = nx st s i) by (intros i Hi; apply nx_ext; [by apply Hst|by rewrite Da]).
  assert (Hlv : ∀ i, live s' i → i ≠ n → live s i) by (intros i [H2 H3] Hi; split; [done|by rewrite <- Da]).
  assert (Hch : ∀ q l, (∀ a, q = Some a → live s a) → chain (nx st s) q l → chain (nx st' s') q l).
  { intros q l Hq Hc. eapply lseg_ext; [|exact Hc]. intros i Hi. apply Hnx'. intros ->.
    assert (live s n) as [_ ?]; [|lia]. by eapply chain_live. }
  pose proof (i_root _ _ _ _ Hb) as Hr. unfold Bufinv.roots in Hr, N2. rewrite <- app_assoc in Hr, N2. apply Forall_app in Hr as [Hrp Hr].
  assert (Hrp' : ∀ a, p = Some a → live s a) by (intros a ->; eapply own_live; [exact Hb|left]).
  split; try congruence.
  - unfold Bufinv.roots. rewrite Dc. by constructor.
  - intros i Hi. pose proof (i_link _ _ _ _ Hb i Hi) as Hli. unfold Bufinv.roots in *. rewrite Dc. cbn [app]. rewrite occ_cons.
    rewrite <- app_assoc, (occ_app i (opt p)), occ_opt in Hli. rewrite not_elem_of_app in N2. destruct N2 as [N2 N2'].
    rewrite (refs_upd st st' s s' n i Hn) by (intros j Hj; split; [by apply Da|by apply Hst]). rewrite lnk_dead, lnk_live, Hnx by (try done; lia).
    destruct (Z.eqb_spec n i) as [<-|Hne]; cbn [Z.b2z]; [|rewrite Da by done; lia].
    rewrite H1. rewrite occ_in in N2'. pose proof (occ_nonneg n (own ++ held (clients s))). pose proof (refs_nonneg st s n).
    rewrite bool_decide_false in Hli |- * by (intros ->; apply N2; left). change (Z.b2z false) with 0 in *. lia.
  - intros i Hi. destruct (decide (i = n)) as [->|Hne]; [done|]. rewrite Da by done. apply (i_acc _ _ _ _ Hb). by apply Hlv.
  - intros i m Hi. destruct (decide (i = n)) as [->|Hne].
    + rewrite Hnx. intros E. by apply live_range with (s := s), Hrp'.
    + rewrite Hnx' by done. apply (i_next _ _ _ _ Hb). by apply Hlv.
  - intros i Hi. destruct (decide (i = n)) as [->|Hne].
    + destruct (opt_chain _ _ _ _ p Hb Hrp') as [l Hl]. exists (n :: l). split; [done|]. rewrite Hnx. by apply Hch.
    + destruct (i_chain _ _ _ _ Hb i (Hlv i Hi Hne)) as [l Hl]. exists l. apply Hch; [|done]. intros a [= <-]. by apply Hlv.
  - intros i Hi. destruct (i_buf _ _ _ _ Hb i Hi) as (B1 & B2 & B3).
    rewrite (uses_upd s s' n i Hn) by (intros j Hj; by apply Da). rewrite usb_dead, usb_live, Hbuf by (try done; lia).
    destruct (decide (i = b)) as [->|Hne]; [rewrite bool_decide_true by done|rewrite bool_decide_false, Db by congruence]; cbn [Z.b2z].
    + split; [lia|]. split; [by rewrite Ds|by apply Dd].
    + split; [lia|done].
  - intros t Ht. destruct (decide (t = n)) as [->|Hne].
    + destruct (opt_chain _ _ _ _ p Hb Hrp') as [l Hl]. exists n, (n :: l). split; [left|]. split; [|left]. split; [done|]. rewrite Hnx. by apply Hch.
    + destruct (i_stale _ _ _ _ Hb t) as (r & l & Hro & Hl & Htl); [by apply Hst|]. apply elem_of_app in Hro as [Hro|Hro].
      * destruct p as [m|]; [|by apply elem_of_nil in Hro]. apply list_elem_of_singleton in Hro as ->.
        exists n, (n :: l). split; [left|]. split; [|by right]. split; [done|]. rewrite Hnx. by apply Hch.
      * exists r, l. split; [by right|]. split; [|done]. apply Hch; [|done]. intros a [= <-]. eapply own_live; [exact Hb|]. apply elem_of_app. by right.
  - rewrite Dg. exact (i_gran _ _ _ _ Hb).
Qed.

Lemma die own st s s' a b p : binv (a :: own) st s → acc_linkC (accessors s a) = 1 → a ∉ st → acc_next (accessors s a) = p → differ a b s s' →
  acc_linkC (accessors s' a) = 0 → acc_buffer (accessors s a) = Some b → buf_linkC (buffers512 s' b) = buf_linkC (buffers512 s b) - 1 →
  (∃ la lb bl, free_lists s' la lb bl) → binv (opt p ++ own) st s'.
Proof.
  intros Hb H1 Hst Hp [Da Db Ds Dd Dg Dc] H0 Hbuf Hbl Hf. assert (Hpn : nx st s a = p) by by rewrite nx_plain.
  pose proof (own_live _ _ _ _ a Hb ltac:(left)) as Hla. pose proof (live_range _ _ Hla) as Hra.
  destruct (sole_root_occ _ _ _ _ _ Hb H1) as [O1 O2].
  assert (Hnx' : ∀ i, i ≠ a → nx st s' i = nx st s i) by (intros i Hi; apply nx_ext; [done|by rewrite Da]).
  assert (Hlv : ∀ i, live s' i → i ≠ a ∧ live s i).
  { intros i [H2 H3]. assert (i ≠ a) by (intros ->; lia). split; [done|]. split; [done|by rewrite <- Da]. }
  assert (Hch : ∀ i l, live s i → i ≠ a → chain (nx st s) (Some i) l → a ∉ l ∧ chain (nx st s') (Some i) l).
  { intros i l Hi Hne Hc. assert (a ∉ l).
    { intros Hin. destruct (chain_nx_in _ _ _ _ _ Hc Hin) as [[=]|(j & Hj & Hn)]; [done|].
      eapply refs_none; [exact O2| |exact Hn]. eapply chain_live; [exact Hb| |exact Hc|exact Hj]. by intros ? [= <-]. }
    split; [done|]. eapply lseg_ext; [|exact Hc]. intros j Hj. apply Hnx'. by intros ->. }
  assert (Hpl : ∀ m, p = Some m → live s m ∧ m ≠ a).
  { intros m ->. assert (live s m) by (by eapply next_live). split; [done|]. intros ->. by eapply refs_none. }
  pose proof (i_root _ _ _ _ Hb) as Hr. unfold Bufinv.roots in Hr, O1. apply Forall_cons in Hr as [_ Hr].
  split; try congruence.
  - unfold Bufinv.roots. rewrite Dc, <- app_assoc. apply Forall_app. split; [|done]. destruct p as [m|]; [|constructor].
    constructor; [by apply live_range with (s := s), Hpl|constructor].
  - intros i Hi. pose proof (i_link _ _ _ _ Hb i Hi) as Hli. unfold Bufinv.roots in *. rewrite Dc, <- app_assoc, occ_app, occ_opt.
    cbn [app] in Hli. rewrite occ_cons in Hli.
    rewrite (refs_upd st st s s' a i Hra) by (intros j Hj; split; [by apply Da|done]). rewrite lnk_live, (lnk_dead _ s'), Hpn by (try done; lia).
    destruct (Z.eqb_spec a i) as [<-|Hne]; cbn [Z.b2z] in Hli; [|rewrite Da by done; lia]. rewrite H0. lia.
  - intros i [Hne Hi]%Hlv. rewrite Da by done. by apply (i_acc _ _ _ _ Hb).
  - intros i m [Hne Hi]%Hlv. rewrite Hnx' by done. by apply (i_next _ _ _ _ Hb).
  - intros i [Hne Hi]%Hlv. destruct (i_chain _ _ _ _ Hb i Hi) as [l Hl]. exists l. by eapply Hch.
  - intros i Hi. destruct (i_buf _ _ _ _ Hb i Hi) as (B1 & B2 & B3).
    rewrite (uses_upd s s' a i Hra) by (intros j Hj; by apply Da). rewrite usb_live, (usb_dead s'), Hbuf by (try done; lia).
    destruct (decide (i = b)) as [->|Hne]; [rewrite bool_decide_true by done|rewrite bool_decide_false, Db by congruence]; cbn [Z.b2z].
    + split; [lia|]. split; [by rewrite Ds|by apply Dd].
    + split; [lia|done].
  - intros t Ht. destruct (i_stale _ _ _ _ Hb t Ht) as (r & l & Hro & Hl & Htl). apply elem_of_cons in Hro as [->|Hro].
    + destruct (chain_Some _ _ _ Hl) as (l' & -> & Hl'). rewrite Hpn in Hl'. apply elem_of_cons in Htl as [->|Htl]; [done|].
      destruct p as [m|]; [|apply chain_None in Hl' as ->; by apply elem_of_nil in Htl].
      exists m, l'. split; [left|]. split; [|done]. destruct (Hpl m) as [? ?]; [done|]. by eapply Hch.
    + exists r, l. split; [apply elem_of_app; by right|]. split; [|done]. eapply Hch; [|..|done].
      * eapply own_live; [exact Hb|]. by right.
      * intros ->. apply occ_in in Hro. rewrite occ_app in O1. pose proof (occ_nonneg a (held (clients s))). lia.
  - rewrite Dg. exact (i_gran _ _ _ _ Hb).
Qed.

(** *** The free lists *)

Definition anext s : Z → option Z := λ i, acc_next (accessors s i).
Lemma chain_apart s s' a p l : (∀ i, i ≠ a → accessors s' i = accessors s i) → a ∉ l → chain (anext s) p l → chain (anext s') p l.
Proof. intros Ha Hni. apply lseg_ext. intros i Hi. unfold anext. rewrite Ha; [done|]. by intros ->. Qed.
Lemma with_apart s s' a l bl : (∀ i, i ≠ a → accessors s' i = accessors s i) → a ∉ l →
  map (λ i, acc_buffer (accessors s i)) l = map Some bl → map (λ i, acc_buffer (accessors s' i)) l = map Some bl.
Proof. intros Ha Hni <-. apply map_ext_in. intros i Hi%list_elem_of_In. rewrite Ha; [done|]. by intros ->. Qed.

Lemma take_acc s s' n b la lb bl : free_lists s (n :: la) lb bl → differ n b s s' → acc_linkC (accessors s' n) = 1 →
  0 < buf_linkC (buffers512 s b) → 0 < buf_linkC (buffers512 s' b) →
  acc_freelist s' = acc_next (accessors s n) → buf512_freelist s' = buf512_freelist s → free_lists s' la lb bl.
Proof.
  intros F [Da Db _ _ _ _] H1 B1 B2 E1 E2. destruct F as [f_accs f_bufs f_dup f_free f_with f_bdup f_buf]. cbn [app] in *. apply NoDup_cons in f_dup as [Hni Hd]. rewrite not_elem_of_app in Hni. destruct Hni as [Ni1 Ni2].
  destruct f_accs as [Ef Hc]. split.
  - rewrite E1. by eapply chain_apart.
  - rewrite E2. by eapply chain_apart.
  - done.
  - intros i. destruct (decide (i = n)) as [->|Hne].
    + rewrite H1, elem_of_app. split; [tauto|lia].
    + rewrite Da by done. rewrite <- f_free, elem_of_cons. tauto.
  - by eapply with_apart.
  - done.
  - intros c. rewrite f_buf. destruct (decide (c = b)) as [->|Hne]; [lia|by rewrite Db].
Qed.
Lemma put_acc s s' a b la lb bl : free_lists s la lb bl → differ a b s s' → 0 ≤ a < ACC_NR → 0 < acc_linkC (accessors s a) → acc_linkC (accessors s' a) = 0 →
  0 < buf_linkC (buffers512 s b) → 0 < buf_linkC (buffers512 s' b) → acc_next (accessors s' a) = acc_freelist s →
  acc_freelist s' = Some a → buf512_freelist s' = buf512_freelist s → free_lists s' (a :: la) lb bl.
Proof.
  intros F [Da Db _ _ _ _] Ha H1 H0 B1 B2 En E1 E2. destruct F as [f_accs f_bufs f_dup f_free f_with f_bdup f_buf].
  assert (Hni : a ∉ la ++ lb) by (rewrite f_free; lia). pose proof Hni as Hni'. rewrite not_elem_of_app in Hni. destruct Hni as [Ni1 Ni2]. split.
  - rewrite E1. split; [done|]. rewrite En. by eapply chain_apart.
  - rewrite E2. by eapply chain_apart.
  - by apply NoDup_cons.
  - intros i. cbn. rewrite elem_of_cons. destruct (decide (i = a)) as [->|Hne]; [split; [done|by left]|]. rewrite Da by done. rewrite <- f_free. tauto.
  - by eapply with_apart.
  - done.
  - intros c. rewrite f_buf. destruct (decide (c = b)) as [->|Hne]; [lia|by rewrite Db].
Qed.
Lemma take_buf s s' n b la lb bl : free_lists s la (n :: lb) bl → differ n b s s' → acc_linkC (accessors s' n) = 1 → acc_buffer (accessors s n) = Some b →
  0 < buf_linkC (buffers512 s' b) → acc_freelist s' = acc_freelist s → buf512_freelist s' = acc_next (accessors s n) → ∃ bl', bl = b :: bl' ∧ free_lists s' la lb bl'.
Proof.
  intros F [Da Db _ _ _ _] H1 Hb B1 E1 E2. destruct F as [f_accs f_bufs f_dup f_free f_with f_bdup f_buf]. destruct f_bufs as [Ef Hc]. destruct bl as [|c bl]; [done|]. cbn in f_with. rewrite Hb in f_with.
  injection f_with as <- Hw. exists bl. split; [done|]. apply NoDup_cons in f_bdup as [Hnb Hbd].
  assert (Hnn : n ∉ la ++ lb) by (rewrite <- Permutation_middle in f_dup; by apply NoDup_cons in f_dup as [? _]).
  pose proof Hnn as Hnn'. rewrite not_elem_of_app in Hnn. destruct Hnn as [Ni1 Ni2]. split.
  - rewrite E1. by eapply chain_apart.
  - rewrite E2. by eapply chain_apart.
  - rewrite <- Permutation_middle in f_dup. by apply NoDup_cons in f_dup as [_ ?].
  - intros i. destruct (decide (i = n)) as [->|Hne]; [split; [done|lia]|]. rewrite Da by done. rewrite <- f_free, !elem_of_app, elem_of_cons. tauto.
  - by eapply with_apart.
  - done.
  - intros c. destruct (decide (c = b)) as [->|Hne]; [split; [done|lia]|]. rewrite Db by done. rewrite <- f_buf, elem_of_cons. tauto.
Qed.
Lemma put_buf s s' a b la lb bl : free_lists s la lb bl → differ a b s s' → 0 ≤ a < ACC_NR → 0 ≤ b < BUF512_NR → 0 < acc_linkC (accessors s a) → acc_linkC (accessors s' a) = 0 →
  acc_buffer (accessors s' a) = Some b → 0 < buf_linkC (buffers512 s b) → buf_linkC (buffers512 s' b) = 0 → acc_next (accessors s' a) = buf512_freelist s →
  acc_freelist s' = acc_freelist s → buf512_freelist s' = Some a → free_lists s' la (a :: lb) (b :: bl).
Proof.
  intros F [Da Db _ _ _ _] Ha Hbr H1 H0 Hb B1 B2 En E1 E2. destruct F as [f_accs f_bufs f_dup f_free f_with f_bdup f_buf].
  assert (Hni : a ∉ la ++ lb) by (rewrite f_free; lia). pose proof Hni as Hni'. rewrite not_elem_of_app in Hni. destruct Hni as [Ni1 Ni2]. split.
  - rewrite E1. by eapply chain_apart.
  - rewrite E2. split; [done|]. rewrite En. by eapply chain_apart.
  - rewrite <- Permutation_middle. by apply NoDup_cons.
  - intros i. rewrite <- Permutation_middle. rewrite elem_of_cons. destruct (decide (i = a)) as [->|Hne]; [split; [done|by left]|]. rewrite Da by done. rewrite <- f_free. tauto.
  - cbn. rewrite Hb. f_equal. by eapply with_apart.
  - apply NoDup_cons. split; [|done]. rewrite f_buf. lia.
  - intros c. rewrite elem_of_cons. destruct (decide (c = b)) as [->|Hne]; [split; [done|by left]|]. rewrite Db by done. rewrite <- f_buf. tauto.
Qed.
End moves.
