(* ===== verification/Bufops.v ===== *)
(** * The operations on accessors

    What freeing, duplicating and requesting do to the references ([binv]) and to
    the contents ([cont]); what is relied on of the clients ([ClientLaws]). *)

From S2P Require Import Prelude Chain Buf Bufinv.

(** ** The operations on buffers *)

(** Without buffers or accessors the server stops. *)
Definition out (w : string) : Prop := w = "not enough buffers freed"%string ∨ w = "buf.c: out of accessors"%string.

Section frame.
Context {W : Type} (held : W → list Z).
Implicit Types (s : bfst W) (own st : list Z).
Abbreviation binv := (binv held).
Abbreviation roots := (roots held).

Lemma all_of_mono own st s (P Q : Z → Prop) : (∀ i, P i → Q i) → all_of own st s P → all_of own st s Q.
Proof. intros HPQ HP r l i Hr Hl Hi. eapply HPQ, HP; eauto. Qed.
Lemma untouched_kept own st s s' : untouched own st s s' → kept own st s s'.
Proof. by apply all_of_mono; intros i []. Qed.
Lemma same_trans s s' s'' i : same s s' i → same s' s'' i → same s s'' i.
Proof. intros (A1 & A2 & A3 & A4 & A5) (B1 & B2 & B3 & B4 & B5). split_and!; congruence. Qed.
Lemma lower_trans s s' s'' i : same s s' i → lower s s' i → lower s' s'' i → lower s s'' i.
Proof.
  intros (_ & _ & E & _) [A1 A2] [B1 B2]. split; [lia|]. intros b Hb. specialize (A2 b Hb). rewrite <- E in Hb. specialize (B2 b Hb). lia.
Qed.
Lemma same_refl s i : same s s i.
Proof. by split_and!. Qed.
Lemma lower_refl s i : lower s s i.
Proof. by split. Qed.
Lemma kept_chain own st s s' r l : kept own st s s' → r ∈ own → chain (nx st s) (Some r) l → chain (nx st s') (Some r) l.
Proof. intros Hk Hr Hl. eapply lseg_ext; [|exact Hl]. intros i Hi. apply nx_ext; [done|]. by destruct (Hk r l i Hr Hl Hi) as (_ & _ & _ & E & _). Qed.
Lemma kept_refl own st s : kept own st s s.
Proof. intros r l i _ _ _. apply same_refl. Qed.
Lemma untouched_refl own st s : untouched own st s s.
Proof. intros r l i _ _ _. split; [apply same_refl|apply lower_refl]. Qed.
Lemma kept_chain_trans own st s s' s'' : kept own st s s' → kept own st s' s'' → kept own st s s''.
Proof. intros H1 H2 r l i Hr Hl Hi. eapply same_trans; [by eapply H1|]. eapply H2; [exact Hr| |done]. by eapply kept_chain. Qed.
Lemma untouched_trans own st s s' s'' : untouched own st s s' → untouched own st s' s'' → untouched own st s s''.
Proof.
  intros H1 H2 r l i Hr Hl Hi. destruct (H1 r l i Hr Hl Hi) as [A B]. destruct (H2 r l i Hr) as [C D]; [|done|].
  - eapply kept_chain; [by apply untouched_kept|done|done].
  - split; [by eapply same_trans|by eapply lower_trans].
Qed.
Lemma kept_sub own own' st s s' : (∀ r, r ∈ own' → r ∈ own) → kept own st s s' → kept own' st s s'.
Proof. intros Hs Hk r l i Hr. apply Hk. by apply Hs. Qed.
Lemma untouched_sub own own' st s s' : (∀ r, r ∈ own' → r ∈ own) → untouched own st s s' → untouched own' st s s'.
Proof. intros Hs Hk r l i Hr. apply Hk. by apply Hs. Qed.
Lemma kept_reached own st s s' t : kept own st s s' → reached own st s t → reached own st s' t.
Proof. intros Hk (r & l & Hr & Hl & Ht). exists r, l. split; [done|]. split; [by eapply kept_chain|done]. Qed.
(** The contents of what is kept. *)
Lemma kept_cont own st s s' r v : kept own st s s' → r ∈ own → cont st s (Some r) v → cont st s' (Some r) v.
Proof.
  intros Hk Hr (l & Hl & <-). exists l. split; [by eapply kept_chain|]. f_equal. apply map_ext_in. intros i Hi%list_elem_of_In.
  by destruct (Hk r l i Hr Hl Hi) as (_ & _ & _ & _ & E).
Qed.
Lemma freed_refl s : freed s s.
Proof. by intros ?. Qed.
Lemma freed_trans s s' s'' : freed s s' → freed s' s'' → freed s s''.
Proof. intros H1 H2 Hn. destruct (H2 Hn) as [A B]. destruct (H1 A). split; [done|lia]. Qed.

(** A chain that does not reach a changed accessor or buffer is untouched. *)
Lemma differ_untouched own st s s' a b : differ a b s s' → buf_data (buffers512 s' b) = buf_data (buffers512 s b) →
  buf_linkC (buffers512 s' b) ≤ buf_linkC (buffers512 s b) → all_of own st s (λ i, i ≠ a) → untouched own st s s'.
Proof.
  intros [Da Db _ _ _ _] Hd Hl Ha r l i Hr Hc Hi. specialize (Ha r l i Hr Hc Hi). cbn in Ha. assert (E : accessors s' i = accessors s i) by by apply Da.
  split; [unfold same, part, data_of|unfold lower]; rewrite !E.
  - split_and!; try done. destruct (acc_buffer (accessors s i)) as [c|]; [|done]. destruct (decide (c = b)) as [->|]; [by rewrite Hd|by rewrite Db].
  - split; [done|]. intros c _. destruct (decide (c = b)) as [->|]; [done|by rewrite Db].
Qed.
Lemma count_untouched own st s a c : c ≤ acc_linkC (accessors s a) → untouched own st s (sa a ((accessors s a) <| acc_linkC := c |>) s).
Proof.
  intros Hc r l i _ _ _. unfold same, lower, part, data_of. destruct (decide (i = a)) as [->|]; [rewrite sa_at|rewrite sa_ne by done]; done.
Qed.
Lemma count_kept own st s a c : kept own st s (sa a ((accessors s a) <| acc_linkC := c |>) s).
Proof.
  intros r l i _ _ _. unfold same, part, data_of. destruct (decide (i = a)) as [->|]; [rewrite sa_at|rewrite sa_ne by done]; done.
Qed.

(** *** Accessors and buffers *)
Lemma wp_get_acc a (Q : acc_t → bfst W → Prop) s : 0 ≤ a < ACC_NR → Q (accessors s a) s → wp (get_acc a) Q s.
Proof. intros Ha HQ. unfold get_acc. replace ((0 <=? a) && (a <? ACC_NR)) with true by lia. done. Qed.
Lemma wp_set_acc a x (Q : unit → bfst W → Prop) s : 0 ≤ a < ACC_NR → Q tt (sa a x s) → wp (set_acc a x) Q s.
Proof. intros Ha HQ. unfold set_acc. replace ((0 <=? a) && (a <? ACC_NR)) with true by lia. done. Qed.
Lemma wp_get_buf b (Q : buf_t → bfst W → Prop) s : 0 ≤ b < BUF512_NR → Q (buffers512 s b) s → wp (get_buf b) Q s.
Proof. intros Ha HQ. unfold get_buf. replace ((0 <=? b) && (b <? BUF512_NR)) with true by lia. done. Qed.
Lemma wp_set_buf b x (Q : unit → bfst W → Prop) s : 0 ≤ b < BUF512_NR → Q tt (sb b x s) → wp (set_buf b x) Q s.
Proof. intros Ha HQ. unfold set_buf. replace ((0 <=? b) && (b <? BUF512_NR)) with true by lia. done. Qed.
End frame.

(** One step of symbolic execution of an operation. *)
Ltac buf_step :=
  lazymatch goal with
  | |- wp (get_acc _) _ _ => apply wp_get_acc; [try done|]
  | |- wp (set_acc _ _) _ _ => apply wp_set_acc; [try done|]
  | |- wp (get_buf _) _ _ => apply wp_get_buf; [try done|]
  | |- wp (set_buf _ _) _ _ => apply wp_set_buf; [try done|]
  | |- wp (set_next _ _) _ _ => unfold set_next
  | |- wp (link_acc _) _ _ => unfold link_acc
  | _ => wp_step
  end; cbv beta.

Section free.
Context {W : Type} (held : W → list Z).
Implicit Types (s : bfst W) (own st : list Z).
Abbreviation binv := (binv held).
Abbreviation roots := (roots held).

(** *** Freeing *)

Definition used s : Z := cnt ACC_NR (λ j, 0 <? acc_linkC (accessors s j)).
Lemma afree_step_wp own st s a : binv (a :: own) st s → (∀ t, t ∈ st → reached own st s t) →
  wp (afree_step (Some a)) (λ x s', untouched own st s s' ∧ freed s s' ∧ clients s' = clients s ∧ freereq s' = freereq s ∧
    match x with inl p => binv (opt p ++ own) st s' ∧ used s' < used s | inr _ => binv own st s' end) s.
Proof.
  intros Hb Hst. pose proof (own_live _ _ _ _ a Hb ltac:(left)) as Hla. pose proof (live_range _ _ Hla) as Ha. destruct Hla as [_ Hl0].
  destruct (i_acc _ _ _ _ Hb a) as (b & Eb & Hbr & _); [by split|]. unfold afree_step. buf_step. buf_step. buf_step. buf_step. buf_step.
  { buf_step. split_and!; try done; [apply count_untouched; lia|apply one_less; [done|lia|done]]. }
  assert (H1 : acc_linkC (accessors s a) = 1) by lia.
  assert (Hna : all_of own st s (λ i, i ≠ a)).
  { intros r l i Hr Hl Hi ->. eapply sole_root; [exact Hb|done| |exact Hl|done]. apply elem_of_app. by left. }
  assert (Hast : a ∉ st) by (intros Hin; destruct (Hst a Hin) as (r & l & Hr & Hl & Hi); by apply (Hna r l a Hr Hl Hi)).
  destruct (i_free _ _ _ _ Hb) as (la & lb & bl & F). destruct (i_buf _ _ _ _ Hb b Hbr) as (B1 & B2 & B3).
  assert (Hbp : 0 < buf_linkC (buffers512 s b)).
  { rewrite B1. pose proof (cnt_pos ACC_NR (λ j, (0 <? acc_linkC (accessors s j)) && bool_decide (acc_buffer (accessors s j) = Some b)) a Ha) as Hp.
    cbn in Hp. rewrite (proj2 (Z.ltb_lt _ _)), bool_decide_true in Hp by done. specialize (Hp eq_refl). unfold uses. lia. }
  assert (Hus : ∀ s', acc_linkC (accessors s' a) = 0 → (∀ i, i ≠ a → accessors s' i = accessors s i) → used s' < used s).
  { intros s' E0 Ea. unfold used. rewrite (cnt_change _ (λ j, 0 <? acc_linkC (accessors s j)) (λ j, 0 <? acc_linkC (accessors s' j)) a Ha) by (intros j Hj; by rewrite Ea).
    rewrite E0, H1. cbn. lia. }
  wp_step. eapply wp_deref; [exact Eb|]. buf_step. buf_step. cbn [buffers512 sa upd upd_accessors]. buf_step. buf_step. buf_step.
  - wp_step. wp_step. wp_step. buf_step. wp_step. wp_step. wp_step. match goal with |- untouched _ _ _ ?x ∧ _ => set (s' := x) end.
    assert (D : differ a b s s').
    { unfold s'. split; cbn; try done; [intros i Hi; by rewrite !fn_lookup_insert_ne|intros i Hi; by rewrite fn_lookup_insert_ne|by rewrite fn_lookup_insert|by rewrite fn_lookup_insert]. }
    assert (H0 : acc_linkC (accessors s' a) = 0) by (unfold s'; cbn; rewrite fn_lookup_insert; cbn; lia).
    assert (El : buf_linkC (buffers512 s' b) = buf_linkC (buffers512 s b) - 1) by (unfold s'; cbn; by rewrite fn_lookup_insert).
    split_and!; try done.
    + eapply differ_untouched; [exact D| |lia|done]. unfold s'. cbn. by rewrite fn_lookup_insert.
    + eapply die; try done. exists (a :: la), lb, bl. eapply put_acc; try done; try lia. unfold s'. cbn. by rewrite fn_lookup_insert.
    + apply Hus; [done|]. apply D.
  - wp_step. wp_step. wp_step. unfold bf_512free. wp_step. wp_step. wp_step. buf_step. wp_step. buf_step. buf_step. buf_step. wp_step.
    match goal with |- untouched _ _ _ ?x ∧ _ => set (s' := x) end.
    assert (D : differ a b s s').
    { unfold s'. split; cbn; try done; [intros i Hi; by rewrite !fn_lookup_insert_ne|intros i Hi; by rewrite fn_lookup_insert_ne|by rewrite fn_lookup_insert|by rewrite fn_lookup_insert]. }
    assert (H0 : acc_linkC (accessors s' a) = 0) by (unfold s'; cbn; rewrite !fn_lookup_insert; cbn; lia).
    assert (El : buf_linkC (buffers512 s' b) = buf_linkC (buffers512 s b) - 1) by (unfold s'; cbn; by rewrite fn_lookup_insert).
    split_and!; try done.
    + eapply differ_untouched; [exact D| |lia|done]. unfold s'. cbn. by rewrite fn_lookup_insert.
    + eapply die; try done. exists la, (a :: lb), (b :: bl). eapply put_buf; try done; try lia; unfold s'; cbn; by rewrite !fn_lookup_insert.
    + apply Hus; [done|]. apply D.
Qed.
Lemma afree_wp own st s p : binv (opt p ++ own) st s → (∀ t, t ∈ st → reached own st s t) →
  wp (bf_afree p) (λ _ s', binv own st s' ∧ untouched own st s s' ∧ freed s s' ∧ clients s' = clients s ∧ freereq s' = freereq s) s.
Proof.
  intros Hb Hst. unfold bf_afree.
  eapply (wp_loop (λ p s', binv (opt p ++ own) st s' ∧ untouched own st s s' ∧ freed s s' ∧ clients s' = clients s ∧ freereq s' = freereq s) (λ _ s', Z.to_nat (used s'))).
  - intros [a|] s1 (I1 & I2 & I3 & I4 & I5); [|cbn; wp_step; done].
    eapply wp_mono; [apply afree_step_wp; [exact I1|]; intros t Ht; eapply kept_reached; [by apply untouched_kept|by apply Hst]|]. cbn beta.
    intros x s2 (J1 & J2 & J3 & J4 & Hx). pose proof (untouched_trans _ _ _ _ _ I2 J1). pose proof (freed_trans _ _ _ I3 J2).
    destruct x as [q|]; [|split_and!; [done..|congruence|congruence]]. destruct Hx as [Hx Hu]. split; [split_and!; [done..|congruence|congruence]|].
    pose proof (cnt_nonneg ACC_NR (λ j, 0 <? acc_linkC (accessors s2 j))). unfold used in *. lia.
  - split_and!; [exact Hb|apply untouched_refl|apply freed_refl|done|done].
  - assert (Hu : ∀ l : list Z, foldr (λ j x, Z.b2z (0 <? acc_linkC (accessors s j)) + x) 0 l ≤ Z.of_nat (length l)).
    { induction l as [|a l IH]; cbn; [done|]. pose proof (b2z_range (0 <? acc_linkC (accessors s a))). lia. }
    specialize (Hu (seqZ 0 ACC_NR)). rewrite length_seqZ in Hu. unfold used, cnt, acc_fuel. lia.
Qed.
End free.

(** What buf.c relies on of its clients: they have references of their own, free
    some of them when they are asked to, and leave all others alone. *)
Class ClientLaws (W : Type) `{Clients W} := {
  held : W → list Z;
  law_client c pri own st (s : bfst W) : binv held own st s →
    wpx out (client_free c pri) (λ _ s', binv held own st s' ∧ untouched own st s s' ∧ freed s s' ∧ freereq s' = freereq s) s
}.

(** The same for operations that may stop the server. *)
Ltac bufx_step :=
  lazymatch goal with
  | |- wpx _ (mbind _ _) _ _ => apply wpx_bind
  | |- wpx _ (mret _) _ _ => apply wpx_ret
  | |- wpx _ (gets _) _ _ => apply wpx_gets
  | |- wpx _ (modify _) _ _ => apply wpx_modify
  | |- wpx _ (when _ _) _ _ => apply wpx_when
  | |- wpx _ (if ?b then _ else _) _ _ => let E := fresh "E" in destruct b eqn:E
  | |- wpx _ (get_acc _) _ _ => apply wp_wpx, wp_get_acc; [try done|]
  | |- wpx _ (set_acc _ _) _ _ => apply wp_wpx, wp_set_acc; [try done|]
  | |- wpx _ (get_buf _) _ _ => apply wp_wpx, wp_get_buf; [try done|]
  | |- wpx _ (set_buf _ _) _ _ => apply wp_wpx, wp_set_buf; [try done|]
  | |- wpx _ (set_next _ _) _ _ => unfold set_next
  | |- wpx _ (link_acc _) _ _ => unfold link_acc
  | |- wpx _ (deref _) _ _ => apply wp_wpx; eapply wp_deref; [first [eassumption | reflexivity]|]
  end; cbv beta.

Section alloc.
Context {W : Type} `{ClientLaws W}.
Implicit Types (s : bfst W) (own st : list Z).
Abbreviation binv := (binv held).
Abbreviation roots := (roots held).

(** *** The clients *)

Lemma binv_size own st s n : binv own st s → binv own st (s <| bf_free_bufsize := n |>).
Proof. intros Hb. by eapply binv_ext. Qed.
Lemma size_untouched own st s n : untouched own st s (s <| bf_free_bufsize := n |>).
Proof. intros r l i _ _ _. by split. Qed.
Lemma call_client_wp pri j own st s : binv own st s →
  wpx out (call_client pri j) (λ _ s', binv own st s' ∧ untouched own st s s' ∧ freed s s' ∧ freereq s' = freereq s) s.
Proof.
  intros Hb. unfold call_client. bufx_step. bufx_step. destruct (freereq s j) as [c|]; [by apply law_client|]. bufx_step.
  split_and!; [done|apply untouched_refl|apply freed_refl|done].
Qed.
Lemma free_accs_wp own st s : binv own st s → wpx out free_accs (λ _ s', binv own st s' ∧ untouched own st s s' ∧ freereq s' = freereq s) s.
Proof.
  intros Hb. unfold free_accs.
  eapply (wpx_loop out (λ i s', 0 ≤ i ∧ binv own st s' ∧ untouched own st s s' ∧ freereq s' = freereq s) (λ i _, Z.to_nat (MAX_BUFREQ_PRI - i))).
  - intros i s1 (I0 & I1 & I2 & I3). bufx_step. bufx_step. bufx_step; [|by bufx_step]. bufx_step.
    eapply wpx_mono; [eapply (wpx_fold out (λ _ _ s', binv own st s' ∧ untouched own st s s' ∧ freereq s' = freereq s)); [|done]|].
    + intros _ j l s2 (J1 & J2 & J3). bufx_step. bufx_step. eapply wpx_mono; [apply call_client_wp, binv_size, J1|]. cbn beta. intros _ s3 (K1 & K2 & K3 & K4).
      split; [done|]. split; [|by rewrite K4]. eapply untouched_trans; [exact J2|]. eapply untouched_trans; [apply size_untouched|exact K2].
    + cbn beta. intros _ s2 (J1 & J2 & J3). bufx_step. split; [split; [lia|done]|]. apply andb_true_iff in E as [_ E]. unfold MAX_BUFREQ_PRI in *. lia.
  - split_and!; [done|done|apply untouched_refl|done].
  - unfold MAX_BUFREQ_PRI. lia.
Qed.
Lemma free_bufs_wp size own st s : binv own st s → 0 < size →
  wpx out (free_bufs size) (λ _ s', binv own st s' ∧ untouched own st s s' ∧ freereq s' = freereq s ∧ buf512_freelist s' ≠ None) s.
Proof.
  intros Hb Hs. unfold free_bufs. bufx_step. bufx_step. bufx_step. set (s0 := s <| bf_free_bufsize := 0 |>).
  set (I s' := binv own st s' ∧ untouched own st s s' ∧ freed s0 s' ∧ freereq s' = freereq s).
  assert (Hstep : ∀ i s1, I s1 → wpx out (fold_m (λ _ j, call_client i j) tt (seqZ 0 CLIENT_NR)) (λ _ s', I s') s1).
  { intros i s1 I1. eapply wpx_mono; [eapply (wpx_fold out (λ _ _ s', I s')); [|exact I1]|done].
    intros _ j l s2 (J1 & J2 & J3 & J4). eapply wpx_mono; [apply call_client_wp, J1|]. cbn beta. intros _ s3 (K1 & K2 & K3 & K4).
    split; [done|]. split; [by eapply untouched_trans|]. split; [by eapply freed_trans|congruence]. }
  eapply wpx_mono; [eapply (wpx_loop out (λ i s', 0 ≤ i ∧ I s') (λ i _, Z.to_nat (MAX_BUFREQ_PRI - i)) _ _ (λ _ s', I s'))|].
  - intros i s1 [I0 I1]. bufx_step. bufx_step. bufx_step; [|by bufx_step]. bufx_step. eapply wpx_mono; [by apply Hstep|]. cbn beta. intros _ s2 I2. bufx_step.
    split; [split; [lia|done]|]. apply andb_true_iff in E as [_ E]. unfold MAX_BUFREQ_PRI in *. lia.
  - split; [done|]. split; [by apply binv_size|]. split; [apply size_untouched|]. split; [apply freed_refl|done].
  - unfold MAX_BUFREQ_PRI. lia.
  - cbn beta. intros _ s1 (I1 & I2 & I3 & I4). bufx_step. bufx_step. bufx_step; [intros _; apply wpx_panic; by left|].
    intros E. split_and!; try done. intros Hn. destruct (I3 Hn) as [_ Hle]. cbn in Hle. lia.
Qed.

(** *** Duplicates *)

(** What [n] has of [a]. *)
Definition copy_of (y x : acc_t) : Prop :=
  acc_offset y = acc_offset x ∧ acc_length y = acc_length x ∧ acc_buffer y = acc_buffer x ∧ acc_next y = acc_next x.
Definition dead s (n : Z) : Prop := 0 ≤ n < ACC_NR ∧ acc_linkC (accessors s n) = 0.

Lemma all_live own st s : binv own st s → all_of own st s (live s).
Proof. intros Hb r l i Hr Hl Hi. eapply chain_live; [exact Hb| |exact Hl|done]. intros ? [= <-]. by eapply own_live. Qed.
Lemma dead_apart own st s n : binv own st s → acc_linkC (accessors s n) = 0 → all_of own st s (λ i, i ≠ n).
Proof. intros Hb Hn r l i Hr Hl Hi ->. destruct (all_live _ _ _ Hb r l n Hr Hl Hi). lia. Qed.
Lemma buf_used own st s i b : binv own st s → live s i → acc_buffer (accessors s i) = Some b → 0 < buf_linkC (buffers512 s b).
Proof.
  intros Hb [Hi Hl] Eb. destruct (i_acc _ _ _ _ Hb i) as (b' & Eb' & Hr & _); [by split|]. replace b' with b in * by congruence.
  destruct (i_buf _ _ _ _ Hb b Hr) as (-> & _).
  pose proof (cnt_pos ACC_NR (λ j, (0 <? acc_linkC (accessors s j)) && bool_decide (acc_buffer (accessors s j) = Some b)) i Hi) as Hp. cbn in Hp.
  rewrite (proj2 (Z.ltb_lt _ _)), bool_decide_true in Hp by done. specialize (Hp eq_refl). unfold uses. lia.
Qed.

(** The accessor is taken from the free list; the state of the function is that of
    the steps [one_more] and [come_alive]. *)
Lemma dup_taken own st s a n : binv own st s → reached own st s a → a ∉ st → acc_freelist s = Some n →
  wp (modify (λ s, s <| acc_freelist := acc_next (accessors s n) |>);;
      x ← get_acc a; set_acc n x;; link_opt (acc_next x);;
      match acc_buffer x with None => mret tt | Some b => z ← get_buf b; set_buf b (z <| buf_linkC := buf_linkC z + 1 |>) end;;
      y ← get_acc n; set_acc n (y <| acc_linkC := 1 |>);; mret n)
    (λ n' s', n' = n ∧ binv (n :: own) st s' ∧ kept own st s s' ∧ copy_of (accessors s' n) (accessors s a) ∧ acc_linkC (accessors s' n) = 1 ∧
      dead s n ∧ (∀ i, i ≠ n → Some i ≠ acc_next (accessors s a) → accessors s' i = accessors s i) ∧
      data_of s' (accessors s' n) = part s a) s.
Proof.
  intros Hb Hre Hst Hfl. destruct (i_free _ _ _ _ Hb) as (la & lb & bl & F). pose proof (f_accs _ _ _ _ F) as Hfc. rewrite Hfl in Hfc. destruct (chain_Some _ _ _ Hfc) as (la' & -> & _).
  destruct (proj1 (f_free _ _ _ _ F n) ltac:(left)) as [Hnr Hn0].
  destruct Hre as (r & l & Hr & Hl & Hal). pose proof (all_live _ _ _ Hb r l a Hr Hl Hal) as Hla. pose proof (live_range _ _ Hla) as Har.
  assert (Hna : n ≠ a) by (intros ->; destruct Hla; lia).
  destruct (i_acc _ _ _ _ Hb a Hla) as (b & Eb & Hbr & Hok). pose proof (buf_used _ _ _ _ _ Hb Hla Eb) as Hbu.
  set (p := acc_next (accessors s a)). assert (Hp : ∀ m, p = Some m → live s m ∧ m ≠ n).
  { intros m Em. assert (live s m) as Hm by (eapply next_live; [exact Hb|exact Hla|by rewrite nx_plain]). split; [done|]. intros ->. destruct Hm. lia. }
  set (s1 := match p with None => s | Some m => sa m ((accessors s m) <| acc_linkC := acc_linkC (accessors s m) + 1 |>) s end).
  assert (B1 : binv (opt p ++ own) st s1).
  { unfold s1. destruct p as [m|]; [|done]. apply one_more; [done|by apply Hp]. }
  assert (E1 : ∀ i, Some i ≠ p → accessors s1 i = accessors s i) by (intros i Hi; unfold s1; destruct p as [m|]; [|done]; apply sa_ne; congruence).
  assert (E1n : accessors s1 n = accessors s n) by (apply E1; intros Ep; destruct (Hp n) as [_ ?]; done).
  assert (Ef : ∀ i, acc_offset (accessors s1 i) = acc_offset (accessors s i) ∧ acc_length (accessors s1 i) = acc_length (accessors s i) ∧
     acc_buffer (accessors s1 i) = acc_buffer (accessors s i) ∧ acc_next (accessors s1 i) = acc_next (accessors s i)).
  { intros i. unfold s1. destruct p as [m|]; [|done]. destruct (decide (i = m)) as [->|]; [by rewrite sa_at|by rewrite sa_ne]. }
  assert (Eb1 : buffers512 s1 = buffers512 s) by (unfold s1; by destruct p).
  set (s2 := (sb b ((buffers512 s b) <| buf_linkC := buf_linkC (buffers512 s b) + 1 |>) (sa n ((accessors s a) <| acc_linkC := 1 |>) s1)) <| acc_freelist := acc_next (accessors s n) |>).
  assert (E2n : accessors s2 n = (accessors s a) <| acc_linkC := 1 |>) by (unfold s2; cbn; by rewrite fn_lookup_insert).
  assert (E2 : ∀ i, i ≠ n → accessors s2 i = accessors s1 i) by (intros i Hi; unfold s2; cbn; by rewrite fn_lookup_insert_ne).
  assert (D : differ n b s1 s2).
  { split; [done| | | |unfold s1; by destruct p|unfold s1; by destruct p]; rewrite Eb1; unfold s2; cbn; rewrite ?Eb1; [intros i Hi; by rewrite fn_lookup_insert_ne|by rewrite fn_lookup_insert|by rewrite fn_lookup_insert]. }
  assert (F1 : free_lists s1 (n :: la') lb bl).
  { unfold s1. destruct p as [m|]; [|done]. destruct (Hp m eq_refl) as [[Hm1 Hm2] _]. eapply free_keep; [exact F|done|done| | |done].
    - intros i Hi. apply sa_ne. intros ->. lia.
    - intros i Hi. destruct (decide (i = m)) as [->|]; [rewrite sa_at; cbn; lia|by rewrite sa_ne]. }
  assert (B2 : binv (n :: own) st s2).
  { eapply come_alive; [exact B1|done|by rewrite E1n|exact D|by rewrite E2n|rewrite E2n; exists b; done|by rewrite E2n|unfold s2; cbn; by rewrite fn_lookup_insert, Eb1|done| |].
    - rewrite nx_plain; [by rewrite E2n|]. by destruct (dead_none _ _ _ _ _ Hb Hnr Hn0).
    - exists la', lb, bl. eapply take_acc; [exact F1|exact D|by rewrite E2n|by rewrite Eb1|unfold s2; cbn; rewrite fn_lookup_insert; cbn; lia|by rewrite E1n|done]. }
  assert (Hdata : ∀ c, buf_data (buffers512 s2 c) = buf_data (buffers512 s c)).
  { intros c. unfold s2; cbn. destruct (decide (c = b)) as [->|]; [by rewrite fn_lookup_insert|rewrite fn_lookup_insert_ne by done; by rewrite Eb1]. }
  assert (Hend : ∀ s', (∀ i, accessors s' i = accessors s2 i) → (∀ c, buffers512 s' c = buffers512 s2 c) → acc_freelist s' = acc_freelist s2 →
      buf512_freelist s' = buf512_freelist s2 → bf_buf_gran s' = bf_buf_gran s2 → clients s' = clients s2 →
    n = n ∧ binv (n :: own) st s' ∧ kept own st s s' ∧ copy_of (accessors s' n) (accessors s a) ∧ acc_linkC (accessors s' n) = 1 ∧
      dead s n ∧ (∀ i, i ≠ n → Some i ≠ acc_next (accessors s a) → accessors s' i = accessors s i) ∧ data_of s' (accessors s' n) = part s a).
  { intros s' X1 X2 X3 X4 X5 X6. split; [done|]. split; [eapply binv_ext; try done; by rewrite X6|]. rewrite !X1, E2n. split; [|split_and!; try done].
    - intros q lq i Hq Hlq Hi. assert (i ≠ n) by (by eapply (dead_apart own st s n Hb Hn0 q lq)).
      unfold same, part, data_of. rewrite !X1, E2 by done. destruct (Ef i) as (-> & -> & -> & ->). split_and!; try done.
      destruct (acc_buffer (accessors s i)) as [c|]; [|done]. by rewrite X2, Hdata.
    - intros i Hi Hip. rewrite X1, E2, E1 by done. done.
    - unfold part, data_of. cbn. rewrite Eb. by rewrite X2, Hdata. }
  assert (Hx : ∀ s3, accessors s3 = <[n := accessors s a]> (accessors s) → buffers512 s3 = buffers512 s → acc_freelist s3 = acc_next (accessors s n) →
      buf512_freelist s3 = buf512_freelist s → bf_buf_gran s3 = bf_buf_gran s → clients s3 = clients s →
      wp (link_opt p) (λ _ s4, (∀ i, accessors s4 i = if decide (i = n) then accessors s a else accessors s1 i) ∧ buffers512 s4 = buffers512 s ∧
        acc_freelist s4 = acc_next (accessors s n) ∧ buf512_freelist s4 = buf512_freelist s ∧ bf_buf_gran s4 = bf_buf_gran s ∧ clients s4 = clients s) s3).
  { intros s3 X1 X2 X3 X4 X5 X6. unfold s1. destruct p as [m|]; cbn [link_opt].
    - destruct (Hp m eq_refl) as [Hm Hmn]. buf_step. buf_step. buf_step; [by apply live_range with (s := s)|]. buf_step; [by apply live_range with (s := s)|].
      cbn. rewrite X1, X2, X3, X4, X5, X6. split_and!; try done. intros i. destruct (decide (i = m)) as [->|].
      + rewrite decide_False, !fn_lookup_insert by done. by rewrite fn_lookup_insert_ne by done.
      + rewrite !(fn_lookup_insert_ne _ m) by done. case_decide as Ei; [subst; by rewrite fn_lookup_insert|by rewrite fn_lookup_insert_ne].
    - wp_step. rewrite X1. split_and!; try done. intros i. case_decide as Ei; [subst; by rewrite fn_lookup_insert|by rewrite fn_lookup_insert_ne]. }
  assert (S2 : buffers512 s2 = <[b := (buffers512 s b) <| buf_linkC := buf_linkC (buffers512 s b) + 1 |>]> (buffers512 s) ∧
    acc_freelist s2 = acc_next (accessors s n) ∧ buf512_freelist s2 = buf512_freelist s ∧ bf_buf_gran s2 = bf_buf_gran s ∧ clients s2 = clients s).
  { unfold s2. cbn. rewrite Eb1. unfold s1. by destruct p. }
  clearbody s2. destruct S2 as (S2 & S3 & S4 & S5 & S6).
  wp_step. wp_step. wp_step. buf_step. wp_step. buf_step. wp_step. eapply wp_mono; [by apply Hx|]. cbn beta. intros _ s4 (Y1 & Y2 & Y3 & Y4 & Y5 & Y6).
  change (accessors (s <| acc_freelist := _ |>) a) with (accessors s a). rewrite Eb. wp_step. buf_step. buf_step. buf_step. wp_step. buf_step. wp_step. buf_step. wp_step.
  apply Hend; cbn; try congruence.
  intros i. destruct (decide (i = n)) as [->|Hi]; [rewrite fn_lookup_insert, Y1, decide_True by done; by rewrite E2n|].
    rewrite fn_lookup_insert_ne, Y1, decide_False, E2 by done. done.
Qed.
End alloc.

(** ** Duplicates and new buffers *)

Section dup.
Context {W : Type} `{ClientLaws W}.
Implicit Types (s : bfst W) (own st : list Z).
Abbreviation binv := (binv held).
Abbreviation roots := (roots held).
Abbreviation avoids own st s n := (all_of own st s (λ i, i ≠ n)).

Lemma kept_all own own' st s s' P : binv own' st s → (∀ r, r ∈ own → r ∈ own') → kept own st s s' → all_of own st s P → all_of own st s' P.
Proof.
  intros Hb Hs Hk HP r l i Hr Hl Hi. destruct (own_chain _ _ _ _ r Hb (Hs r Hr)) as [l' Hl']. pose proof (kept_chain _ _ _ _ _ _ Hk Hr Hl') as Hl2.
  rewrite (chain_det _ _ _ _ Hl Hl2) in Hi. by eapply HP.
Qed.
Lemma stale_chain st s t p l : t ∉ l → chain (nx st s) p l → chain (nx (t :: st) s) p l.
Proof. intros Ht. apply lseg_ext. intros i Hi. apply nx_ext; [|done]. rewrite elem_of_cons. split; [by right|]. intros [->|?]; done. Qed.
Lemma stale_all own st s t P : avoids own st s t → all_of own (t :: st) s P → all_of own st s P.
Proof. intros Ha HP r l i Hr Hl Hi. eapply HP; [done| |done]. apply stale_chain; [|done]. intros Ht. by eapply Ha. Qed.
Lemma sa_kept own st s a x : avoids own st s a → kept own st s (sa a x s).
Proof. intros Ha r l i Hr Hl Hi. pose proof (Ha r l i Hr Hl Hi) as Hne. cbn in Hne. unfold same, part. rewrite !sa_ne by done. done. Qed.
Lemma sole_avoids own st s a : binv (a :: own) st s → acc_linkC (accessors s a) = 1 → avoids own st s a.
Proof. intros Hb H1 r l i Hr Hl Hi ->. eapply sole_root; [exact Hb|done| |exact Hl|done]. apply elem_of_app. by left. Qed.
Lemma binv_swap own st s a b : binv (a :: b :: own) st s → binv (b :: a :: own) st s.
Proof. intros Hb. eapply binv_perm; [exact Hb|]. constructor. Qed.

Lemma bf_dupacc_wp own st s a : binv own st s → reached own st s a → a ∉ st →
  wpx out (bf_dupacc a) (λ n s', binv (n :: own) st s' ∧ kept own st s s' ∧ copy_of (accessors s' n) (accessors s a) ∧ acc_linkC (accessors s' n) = 1 ∧
    data_of s' (accessors s' n) = part s a ∧ all_of own st s (λ i, Some i ≠ acc_next (accessors s a) → acc_linkC (accessors s' i) ≤ acc_linkC (accessors s i))) s.
Proof.
  intros Hb Ha Hst. unfold bf_dupacc. bufx_step. bufx_step. bufx_step.
  apply (wpx_mono out _ (λ _ s', binv own st s' ∧ untouched own st s s')).
  { bufx_step; [intros _; eapply wpx_mono; [by apply free_accs_wp|]; cbn beta; intros _ s' (? & ? & _); by split|intros _; split; [done|apply untouched_refl]]. }
  intros _ s1 [I1 I2]. bufx_step. bufx_step. destruct (acc_freelist s1) as [n|] eqn:En; [|apply wpx_panic; by right].
  pose proof (untouched_kept _ _ _ _ I2) as Hk. assert (Ha1 : reached own st s1 a) by by eapply kept_reached.
  destruct Ha as (r & l & Hr & Hl & Hal). destruct (I2 r l a Hr Hl Hal) as [(S1 & S2 & S3 & S4 & S5) _].
  destruct (i_free _ _ _ _ I1) as (la & lb & bl & F). pose proof (f_accs _ _ _ _ F) as Hfc. rewrite En in Hfc. destruct (chain_Some _ _ _ Hfc) as (la' & -> & _).
  destruct (proj1 (f_free _ _ _ _ F n) ltac:(left)) as [Hnr Hn0].
  bufx_step. bufx_step. eapply wp_wpx. eapply wp_mono; [by apply (dup_taken own st s1 a n)|]. cbn beta.
  intros n' s2 (-> & J1 & J2 & J3 & J4 & J5 & J6 & J7). rewrite S5 in J7. split; [done|]. split; [by eapply kept_chain_trans|]. unfold copy_of in *. rewrite S1, S2, S3, S4 in J3. split; [done|].
  split; [done|]. split; [done|]. intros q lq i Hq Hlq Hi Hne. rewrite <- S4 in Hne. rewrite J6; [by apply (I2 q lq i)| |done].
  intros ->. pose proof (kept_chain _ _ _ _ _ _ Hk Hq Hlq) as Hc. by apply (dead_apart own st s1 n I1 Hn0 q lq n Hq Hc Hi).
Qed.

Lemma dup_one_wp own s a : binv own [] s → reached own [] s a →
  wpx out (dup_one a) (λ h s', binv (h :: own) [] s' ∧ kept own [] s s' ∧ acc_offset (accessors s' h) = acc_offset (accessors s a) ∧
    acc_length (accessors s' h) = acc_length (accessors s a) ∧ acc_buffer (accessors s' h) = acc_buffer (accessors s a) ∧ acc_next (accessors s' h) = None ∧
    acc_linkC (accessors s' h) = 1 ∧ part s' h = part s a ∧
    all_of own [] s (λ i, Some i ≠ acc_next (accessors s a) → acc_linkC (accessors s' i) ≤ acc_linkC (accessors s i))) s.
Proof.
  intros Hb Ha. unfold dup_one. bufx_step. eapply wpx_mono; [apply bf_dupacc_wp; [exact Hb|done|apply not_elem_of_nil]|]. cbn beta.
  intros h s1 (I1 & I2 & (C1 & C2 & C3 & C4) & I4 & I5 & I6). pose proof (own_live _ _ _ _ h I1 ltac:(left)) as [Hh _]. bufx_step. bufx_step.
  assert (Hav : avoids own [] s1 h) by by apply sole_avoids.
  assert (B1 : binv (opt (acc_next (accessors s1 h)) ++ h :: own) [h] s1).
  { apply unlink; [done| |apply not_elem_of_nil]. destruct (own_chain _ _ _ _ h I1 ltac:(left)) as [l Hl]. exists h, (h :: l). split_and!; [left|done|left]. }
  bufx_step. eapply wp_wpx, wp_mono; [apply afree_wp; [exact B1|]|].
  { intros t ->%list_elem_of_singleton. exists h, [h]. split; [left|]. split; [|left]. split; [done|]. apply nx_stale. left. }
  cbn beta. intros _ s2 (J1 & J2 & _). assert (Hk2 : kept own [] s1 s2).
  { apply (stale_all own [] s1 h); [done|]. eapply kept_sub; [|by apply untouched_kept]. intros r. by right. }
  do 6 bufx_step.
  destruct (J2 h [h] h) as [(S1 & S2 & S3 & S4 & S5) [L1 _]]; [left| |left|]. { split; [done|]. apply nx_stale. left. }
  assert (J1' : binv (h :: own) [] (sa h ((accessors s2 h) <| acc_next := None |>) s2)).
  { apply (relink_step held (h :: own) [] s2 h None); [exact J1|apply not_elem_of_nil|]. intros l Hl. apply chain_None in Hl as ->. apply not_elem_of_nil. }
  split; [done|]. split.
  - eapply kept_chain_trans; [exact I2|]. eapply kept_chain_trans; [exact Hk2|]. apply sa_kept. eapply kept_all; [exact I1|by right|exact Hk2|done].
  - rewrite sa_at. cbn. split_and!; try congruence.
    + destruct (own_live _ _ _ _ h J1 ltac:(left)). lia.
    + unfold part, data_of in *. rewrite sa_at. cbn. rewrite S1, S2, S3. rewrite <- I5, <- S5, S1, S2, S3. done.
    + intros r l i Hr Hl Hi Hne. pose proof (kept_chain _ _ _ _ _ _ I2 Hr Hl) as Hl1. pose proof (Hav r l i Hr Hl1 Hi) as Hih. cbn in Hih.
      rewrite fn_lookup_insert_ne by done. etrans; [|by apply (I6 r l i)]. apply (J2 r l i); [by right| |done]. apply stale_chain; [|done]. intros Hin. by eapply Hav.
Qed.

(** *** New buffers *)

(** The accessors of a chain with one reference each are reached from its root only. *)
Lemma private_rest own st s r l P h : binv own st s → r ∈ roots own s → chain (nx st s) (Some r) l → chain (nx st s) (nx st s h) P →
  live s h → h ∉ l → (∀ i, i ∈ P → acc_linkC (accessors s i) = 1) → ∀ i, i ∈ P → i ∉ l.
Proof.
  intros Hb Hr Hl. revert h. induction P as [|n P IH]; intros h HP Hh Hh0 H1 i Hi; [by apply elem_of_nil in Hi|]. destruct HP as [En HP].
  pose proof (next_live _ _ _ _ _ _ Hb Hh En) as Hn. assert (Hnl : n ∉ l).
  { intros Hin. pose proof (i_link _ _ _ _ Hb n (live_range _ _ Hn)) as Hc. rewrite (H1 n ltac:(left)) in Hc.
    pose proof (refs_pos _ _ _ _ Hh En). pose proof (occ_nonneg n (roots own s)). destruct (chain_nx_in _ _ _ _ _ Hl Hin) as [[= ->]|(j & Hj & Ej)].
    - apply occ_in in Hr. lia.
    - assert (Hlj : live s j) by (eapply chain_live; [exact Hb| |exact Hl|exact Hj]; intros ? [= <-]; by eapply root_live).
      assert (j ≠ h) by (by intros ->). pose proof (refs_two st s n j h Hlj Hh). specialize (H5 H4 Ej En). lia. }
  apply elem_of_cons in Hi as [->|Hi]; [done|]. eapply (IH n); try done. intros j Hj. apply H1. by right.
Qed.
Lemma private_apart own st s h P r l : binv (h :: own) st s → chain (nx st s) (Some h) P → (∀ i, i ∈ P → acc_linkC (accessors s i) = 1) →
  r ∈ roots own s → chain (nx st s) (Some r) l → ∀ i, i ∈ P → i ∉ l.
Proof.
  intros Hb HP H1 Hr Hl i Hi. destruct (chain_Some _ _ _ HP) as (P' & -> & HP').
  assert (Hh0 : h ∉ l) by (eapply sole_root; [exact Hb|apply H1; left|exact Hr|exact Hl]).
  apply elem_of_cons in Hi as [->|Hi]; [done|]. eapply (private_rest (h :: own)); [exact Hb| |exact Hl|exact HP'|eapply own_live; [exact Hb|left]|done| |done].
  - unfold Bufinv.roots in *. by right.
  - intros j Hj. apply H1. by right.
Qed.

(** An accessor with its buffer is taken from the free list. *)
Lemma grab own st s a : binv own st s → buf512_freelist s = Some a → ∃ b, acc_buffer (accessors s a) = Some b ∧ 0 ≤ b < BUF512_NR ∧
  buf_linkC (buffers512 s b) = 0 ∧ buf_size (buffers512 s b) = BUF_S ∧ dead s a ∧ ∀ count, 0 ≤ count ≤ BUF_S →
  binv (a :: own) (a :: st) ((sb b ((buffers512 s b) <| buf_linkC := 1 |>)
    (sa a ((accessors s a) <| acc_linkC := 1 |> <| acc_offset := 0 |> <| acc_length := count |>) s)) <| buf512_freelist := acc_next (accessors s a) |>).
Proof.
  intros Hb Hfl. destruct (i_free _ _ _ _ Hb) as (la & lb & bl & F). pose proof (f_bufs _ _ _ _ F) as Hfc. rewrite Hfl in Hfc.
  destruct (chain_Some _ _ _ Hfc) as (lb' & -> & _). pose proof (f_with _ _ _ _ F) as Hw. destruct bl as [|b bl]; [done|]. injection Hw as Eb Hw.
  destruct (proj1 (f_buf _ _ _ _ F b) ltac:(left)) as [Hbr Hb0]. destruct (proj1 (f_free _ _ _ _ F a)) as [Har Ha0]; [apply elem_of_app; right; left|].
  exists b. destruct (i_buf _ _ _ _ Hb b Hbr) as (_ & B2 & _). split_and!; try lia; try done. intros count Hc. match goal with |- Bufinv.binv _ _ _ ?x => set (s' := x) end.
  assert (D : differ a b s s').
  { unfold s'. split; cbn; [intros i Hi; by rewrite fn_lookup_insert_ne|intros i Hi; by rewrite fn_lookup_insert_ne|by rewrite fn_lookup_insert|by rewrite fn_lookup_insert|done|done]. }
  assert (Ea : accessors s' a = (accessors s a) <| acc_linkC := 1 |> <| acc_offset := 0 |> <| acc_length := count |>) by (unfold s'; cbn; by rewrite fn_lookup_insert).
  assert (Ebl : buf_linkC (buffers512 s' b) = 1) by (unfold s'; cbn; by rewrite fn_lookup_insert).
  eapply (come_alive held own st (a :: st) s s' a b None); try done.
  - by rewrite Ea.
  - rewrite Ea. exists b. cbn. split_and!; try done; unfold BUF_S in *; lia.
  - by rewrite Ea.
  - rewrite Ebl. lia.
  - intros i Hi. rewrite elem_of_cons. split; [by right|]. by intros [?|?].
  - apply nx_stale. left.
  - destruct (take_buf s s' a b la lb' (b :: bl)) as (bl' & [= <-] & F'); try done; [by rewrite Ea|lia|]. by exists la, lb', bl.
Qed.

(** Accessors and buffers with no other references, filled from the start. *)
Definition fresh_at s (i : Z) : Prop :=
  acc_linkC (accessors s i) = 1 ∧ acc_offset (accessors s i) = 0 ∧ 0 < acc_length (accessors s i) ≤ BUF_S ∧
  ∃ b, acc_buffer (accessors s i) = Some b ∧ buf_linkC (buffers512 s b) = 1.
Definition sum_len s (l : list Z) : Z := foldr (λ i n, acc_length (accessors s i) + n) 0 l.
Lemma sum_len_app s l1 l2 : sum_len s (l1 ++ l2) = sum_len s l1 + sum_len s l2.
Proof. unfold sum_len. induction l1 as [|a l IH]; cbn; [done|]. rewrite IH. lia. Qed.
Lemma sum_len_ext s s' l : (∀ i, i ∈ l → acc_length (accessors s' i) = acc_length (accessors s i)) → sum_len s' l = sum_len s l.
Proof. induction l as [|a l IH]; intros Hl; [done|]. cbn. rewrite Hl by left. f_equal. apply IH. intros i Hi. apply Hl. by right. Qed.

Lemma fresh_untouched own st s s' h l : untouched own st s s' → binv own st s' → h ∈ own → chain (nx st s) (Some h) l → Forall (fresh_at s) l →
  chain (nx st s') (Some h) l ∧ Forall (fresh_at s') l ∧ ∀ i, i ∈ l → acc_length (accessors s' i) = acc_length (accessors s i).
Proof.
  intros Hu Hb Hh Hl Hf. pose proof (kept_chain _ _ _ _ _ _ (untouched_kept _ _ _ _ Hu) Hh Hl) as Hl'. split; [done|].
  rewrite Forall_forall in Hf. split; [apply Forall_forall; intros i Hi|intros i Hi; by destruct (Hu h l i Hh Hl Hi) as [(_ & -> & _) _]].
  destruct (Hf i Hi) as (F1 & F2 & F3 & b & F4 & F5). destruct (Hu h l i Hh Hl Hi) as [(S1 & S2 & S3 & _) [L1 L2]].
  pose proof (all_live _ _ _ Hb h l i Hh Hl' Hi) as Hli. unfold fresh_at. rewrite S1, S2, S3. split; [destruct Hli; lia|]. split_and!; try done; [lia..|].
  exists b. split; [done|]. specialize (L2 b F4). pose proof (buf_used _ _ _ _ _ Hb Hli ltac:(by rewrite S3)). lia.
Qed.
Lemma stale_avoids own s h t P : binv (h :: own) [t] s → chain (nx [t] s) (Some h) P → (∀ i, i ∈ P → acc_linkC (accessors s i) = 1) → t ∈ P → avoids own [] s t.
Proof.
  intros Hb HP H1 Ht r l i Hr Hl Hi ->. destruct (own_chain _ _ _ _ r Hb ltac:(by right)) as [l' Hl'].
  assert (Hni : t ∉ r :: l') by (eapply (private_apart own [t] s h P r); [exact Hb|exact HP|exact H1|apply elem_of_app; by left|exact Hl'|exact Ht]).
  rewrite (chain_det _ _ l (r :: l') Hl) in Hi; [done|]. eapply lseg_ext; [|exact Hl']. intros j Hj. symmetry. apply nx_ext; [|done].
  rewrite elem_of_cons. split; [by intros ?%elem_of_nil|]. intros [->|?]; done.
Qed.

(** What the loop of [bf_memreq] has done of [n] bytes. *)
Definition mem_inv own s (n : Z) (x : option Z * option Z * Z) s' : Prop :=
  untouched own [] s s' ∧
  match x with
  | (None, None, size) => size = n ∧ binv own [] s'
  | (Some h, Some t, size) => ∃ l, binv (h :: own) [t] s' ∧ chain (nx [t] s') (Some h) l ∧ last l = Some t ∧ Forall (fresh_at s') l ∧
      sum_len s' l = n - size ∧ 0 ≤ size ≤ n ∧ acc_length (accessors s' h) = Z.min n BUF_S
  | _ => False
  end.
Definition no_buffer s : nat := if buf512_freelist s then 0 else 1.
Definition mem_size (x : option Z * option Z * Z) s : nat := (2 * Z.to_nat x.2 + no_buffer s)%nat.

Lemma memreq_wait own s n x s1 : mem_inv own s n x s1 → 0 < x.2 →
  wpx out (free_bufs x.2) (λ _ s', mem_inv own s n x s' ∧ buf512_freelist s' ≠ None) s1.
Proof.
  intros [I1 I2] Hs. destruct x as [[[h|] [t|]] size]; cbn [snd] in *; try done.
  - destruct I2 as (l & B & Hl & Ht & Hf & Hsum & Hsz & Hh). assert (Htl : t ∈ l) by (apply last_Some in Ht as [l' ->]; apply elem_of_app; right; left).
    eapply wpx_mono; [by apply free_bufs_wp|]. cbn beta. intros _ s2 (J1 & J2 & _ & J4). split; [|done].
    destruct (fresh_untouched _ _ _ _ h l J2 J1 ltac:(left) Hl Hf) as (K1 & K2 & K3).
    assert (Hav : avoids own [] s1 t).
    { eapply stale_avoids; [exact B|exact Hl| |exact Htl]. rewrite Forall_forall in Hf. intros i Hi. by apply Hf. }
    split.
    + eapply untouched_trans; [exact I1|]. apply (stale_all own [] s1 t); [done|]. eapply untouched_sub; [|exact J2]. intros r. by right.
    + exists l. split_and!; try done; [by rewrite (sum_len_ext s1 s2)|lia..|]. rewrite K3; [done|]. destruct (chain_Some _ _ _ Hl) as (l' & -> & _). left.
  - destruct I2 as [-> B]. eapply wpx_mono; [by apply free_bufs_wp|]. cbn beta. intros _ s2 (J1 & J2 & _ & J4). split; [|done]. split; [by eapply untouched_trans|done].
Qed.

(** The state after an accessor was taken. *)
Definition grabbed (a b count : Z) s : bfst W :=
  (sb b ((buffers512 s b) <| buf_linkC := 1 |>) (sa a ((accessors s a) <| acc_linkC := 1 |> <| acc_offset := 0 |> <| acc_length := count |>) s))
    <| buf512_freelist := acc_next (accessors s a) |>.
Lemma grabbed_acc a b count s i : accessors (grabbed a b count s) i =
  if decide (i = a) then (accessors s a) <| acc_linkC := 1 |> <| acc_offset := 0 |> <| acc_length := count |> else accessors s i.
Proof. unfold grabbed. cbn. case_decide; [subst; by rewrite fn_lookup_insert|by rewrite fn_lookup_insert_ne]. Qed.
Lemma grabbed_buf a b count s c : buffers512 (grabbed a b count s) c = if decide (c = b) then (buffers512 s b) <| buf_linkC := 1 |> else buffers512 s c.
Proof. unfold grabbed. cbn. case_decide; [subst; by rewrite fn_lookup_insert|by rewrite fn_lookup_insert_ne]. Qed.
(** [s'] is the state after [a] was taken, and linked after [t] if there is one. *)
Record taken_state (a b count : Z) (t : option Z) s s' : Prop := TakenState {
  ts_acc : ∀ i, accessors s' i = if decide (t = Some i) then (accessors s i) <| acc_next := Some a |> else accessors (grabbed a b count s) i;
  ts_buf : ∀ c, buffers512 s' c = buffers512 (grabbed a b count s) c;
  ts_rest : acc_freelist s' = acc_freelist s ∧ buf512_freelist s' = acc_next (accessors s a) ∧ bf_buf_gran s' = bf_buf_gran s ∧ clients s' = clients s
}.
Lemma taken_untouched own own' st st' s s' a b count t : binv own' st' s → (∀ r, r ∈ own → r ∈ own') → dead s a → buf_linkC (buffers512 s b) = 0 →
  taken_state a b count t s s' → all_of own st s (λ i, t ≠ Some i) → (∀ r l, r ∈ own → chain (nx st s) (Some r) l → chain (nx st' s) (Some r) l) → untouched own st s s'.
Proof.
  intros Hb Hq [Ha Ha0] Hb0 [Ta Tb _] Hav Hch r l i Hr Hl Hi. pose proof (Hav r l i Hr Hl Hi) as Hit.
  pose proof (all_live _ _ _ Hb r l i (Hq r Hr) (Hch r l Hr Hl) Hi) as Hli. assert (i ≠ a) by (intros ->; destruct Hli; lia).
  assert (E : accessors s' i = accessors s i) by (by rewrite Ta, decide_False, grabbed_acc, decide_False). unfold same, lower, part, data_of. rewrite E.
  assert (Hc : ∀ c, acc_buffer (accessors s i) = Some c → buffers512 s' c = buffers512 s c).
  { intros c Hc. rewrite Tb, grabbed_buf, decide_False; [done|]. intros ->. pose proof (buf_used _ _ _ _ _ Hb Hli Hc). lia. }
  split; [split_and!; try done; destruct (acc_buffer (accessors s i)) as [c|] eqn:E2; [by rewrite Hc|done]|]. split; [done|]. intros c E2. by rewrite Hc.
Qed.
Lemma memreq_run x s a b : 0 < x.2 → buf512_freelist s = Some a → 0 ≤ a < ACC_NR → acc_buffer (accessors s a) = Some b → 0 ≤ b < BUF512_NR → buf_size (buffers512 s b) = BUF_S →
  (match x.1.1 with Some _ => ∃ t, x.1.2 = Some t ∧ 0 ≤ t < ACC_NR ∧ t ≠ a | None => True end) →
  let count := Z.min x.2 BUF_S in
  wp (memreq_step x) (λ r s', r = inl (match x.1.1 with Some _ => x.1.1 | None => Some a end, Some a, u16 (x.2 - count)) ∧
    taken_state a b count (match x.1.1 with Some _ => x.1.2 | None => None end) s s') s.
Proof.
  intros Hs Hfl Ha Eb Hb Ebs Ht count. destruct x as [[head tail] size]. cbn [fst snd] in *. unfold memreq_step. rewrite (proj2 (Z.eqb_neq size 0)) by lia.
  assert (Ec : (if size <? BUF_S then size else BUF_S) = count) by (unfold count, BUF_S; destruct (Z.ltb_spec size 512); lia).
  wp_step. wp_step. rewrite Hfl. buf_step. buf_step. wp_step. wp_step. wp_step. buf_step. wp_step. eapply wp_deref; [exact Eb|]. wp_step. buf_step. wp_step. buf_step.
  cbn [buffers512 sa upd upd_accessors upd_buf512_freelist]. rewrite Ebs, Ec. wp_step.
  destruct head as [h|].
  - destruct Ht as (t & -> & Htr & Hta). wp_step. eapply wp_deref; [reflexivity|]. buf_step. buf_step. buf_step. buf_step. wp_step. buf_step. wp_step. buf_step. wp_step. split; [done|].
    split; [|intros c; rewrite grabbed_buf; cbn; case_decide; [subst; by rewrite fn_lookup_insert|by rewrite fn_lookup_insert_ne]|done].
    intros i. rewrite grabbed_acc. cbn. destruct (decide (i = a)) as [->|Hi].
    + rewrite fn_lookup_insert, decide_False by congruence. rewrite (fn_lookup_insert_ne _ t a), !fn_lookup_insert by done. done.
    + rewrite (fn_lookup_insert_ne _ a i) by done. case_decide as Ei; [injection Ei as ->; by rewrite fn_lookup_insert, fn_lookup_insert_ne|].
      rewrite !fn_lookup_insert_ne by congruence. done.
  - wp_step. wp_step. buf_step. wp_step. buf_step. wp_step. split; [done|].
    split; [|intros c; rewrite grabbed_buf; cbn; case_decide; [subst; by rewrite fn_lookup_insert|by rewrite fn_lookup_insert_ne]|done].
    intros i. rewrite grabbed_acc. cbn. destruct (decide (i = a)) as [->|Hi]; [by rewrite !fn_lookup_insert|by rewrite !fn_lookup_insert_ne].
Qed.

(** The free buffers. *)
Definition avail s : Z := cnt BUF512_NR (λ b, buf_linkC (buffers512 s b) =? 0).
Lemma taken_avail a b count t s s' : taken_state a b count t s s' → 0 ≤ b < BUF512_NR → buf_linkC (buffers512 s b) = 0 → avail s' = avail s - 1.
Proof.
  intros [_ Tb _] Hb H0'. unfold avail. rewrite (cnt_change _ (λ c, buf_linkC (buffers512 s c) =? 0) (λ c, buf_linkC (buffers512 s' c) =? 0) b Hb).
  - rewrite H0', Tb, grabbed_buf, decide_True by done. cbn. lia.
  - intros c Hc. by rewrite Tb, grabbed_buf, decide_False.
Qed.
Lemma avail_buffer own st s : binv own st s → 0 < avail s → buf512_freelist s ≠ None.
Proof.
  intros Hb Ha E. destruct (cnt_ex _ _ Ha) as (b & Hbr & H0'%Z.eqb_eq). destruct (i_free _ _ _ _ Hb) as (la & lb & bl & F).
  pose proof (f_bufs _ _ _ _ F) as Hl. rewrite E in Hl. apply chain_None in Hl as ->. pose proof (f_with _ _ _ _ F) as Hw. destruct bl as [|c bl]; [|done].
  pose proof (proj2 (f_buf _ _ _ _ F b) (conj Hbr H0')) as Hin. by apply elem_of_nil in Hin.
Qed.
Lemma memreq_take own s n x s1 a : mem_inv own s n x s1 → 0 < x.2 → n < 2 ^ 16 → buf512_freelist s1 = Some a →
  wp (memreq_step x) (λ r s', match r with inl x' => mem_inv own s n x' s' ∧ 0 ≤ x'.2 < x.2 ∧ x'.2 = x.2 - Z.min x.2 BUF_S ∧ avail s' = avail s1 - 1 | inr _ => False end) s1.
Proof.
  intros [I1 I2] Hs Hn Hfl. set (count := Z.min x.2 BUF_S). assert (Hcount : 0 < count ≤ BUF_S ∧ count ≤ x.2) by (unfold count, BUF_S; lia).
  destruct x as [[[h|] [t|]] size]; try done; cbn [fst snd] in *.
  - destruct I2 as (l & B & Hl & Ht & Hf & Hsum & Hsz & Hh). assert (Htl : t ∈ l) by (apply last_Some in Ht as [l' ->]; apply elem_of_app; right; left).
    destruct (grab _ _ _ _ B Hfl) as (b & Eb & Hbr & Hb0 & Ebs & Hd & Hg). specialize (Hg count ltac:(lia)). fold (grabbed a b count s1) in Hg. pose proof Hd as [Har Ha0].
    pose proof (all_live _ _ _ B h l t ltac:(left) Hl Htl) as Hlt. pose proof (live_range _ _ Hlt) as Htr. assert (Hta : t ≠ a) by (intros ->; destruct Hlt; lia).
    assert (Hal : a ∉ l) by (intros Hin; destruct (all_live _ _ _ B h l a ltac:(left) Hl Hin); lia).
    eapply wp_mono; [by apply (memreq_run (Some h, Some t, size) s1 a b); [..|by exists t]|]. cbn [fst snd]. fold count. intros r s' [-> TS]. pose proof (taken_avail _ _ _ _ _ _ TS Hbr Hb0) as Hav1. destruct TS as [Ta Tb (T1 & T2 & T3 & T4)].
    rewrite u16_id by lia. split; [|cbn; split; [lia|by split]].
    assert (Ei : ∀ i, i ≠ a → i ≠ t → accessors s' i = accessors s1 i) by (intros i Hi Hi'; rewrite Ta, decide_False by congruence; by rewrite grabbed_acc, decide_False).
    assert (Et : accessors s' t = (accessors s1 t) <| acc_next := Some a |>) by (by rewrite Ta, decide_True).
    assert (Ea : accessors s' a = (accessors s1 a) <| acc_linkC := 1 |> <| acc_offset := 0 |> <| acc_length := count |>) by (rewrite Ta, decide_False by congruence; by rewrite grabbed_acc, decide_True).
    assert (Ef : ∀ i, i ∈ l → acc_linkC (accessors s' i) = acc_linkC (accessors s1 i) ∧ acc_offset (accessors s' i) = acc_offset (accessors s1 i) ∧
      acc_length (accessors s' i) = acc_length (accessors s1 i) ∧ acc_buffer (accessors s' i) = acc_buffer (accessors s1 i)).
    { intros i Hi. destruct (decide (i = t)) as [->|]; [by rewrite Et|]. rewrite Ei; [done| |done]. by intros ->. }
    assert (Hav : avoids own [] s1 t) by (eapply stale_avoids; [exact B|exact Hl| |exact Htl]; rewrite Forall_forall in Hf; intros i Hi; by apply Hf).
    assert (Hb' : ∀ c, c ≠ b → buffers512 s' c = buffers512 s1 c) by (intros c Hc; by rewrite Tb, grabbed_buf, decide_False).
    split.
    + eapply untouched_trans; [exact I1|]. eapply (taken_untouched own (h :: own) [] [t] s1 s' a b count (Some t)); try done; [by right| |].
      * intros r lr i Hr Hlr Hi [= ->]. by eapply Hav.
      * intros r lr Hr Hlr. apply stale_chain; [|done]. intros Hin. by eapply Hav.
    + exists (l ++ [a]). split_and!; try done.
      * eapply (binv_ext held (h :: own) _ [a] _ (sa t ((accessors (grabbed a b count s1) t) <| acc_next := Some a |>) (grabbed a b count s1))); try done; [|..|by rewrite T4].
        -- apply (relink_step held (h :: own) [a] (grabbed a b count s1) t (Some a)).
           ++ eapply binv_ext; [exact Hg|done| |done..]. intros i. rewrite !elem_of_cons. tauto.
           ++ by rewrite list_elem_of_singleton.
           ++ intros la Hla. destruct (chain_Some _ _ _ Hla) as (la' & -> & Hla'). rewrite nx_stale in Hla' by (right; left). apply chain_None in Hla' as ->. by rewrite list_elem_of_singleton.
        -- intros i. destruct (decide (i = t)) as [->|]; [rewrite Et, sa_at, grabbed_acc, decide_False by done; done|]. rewrite sa_ne by done. by rewrite Ta, decide_False by congruence.
      * apply last_Some in Ht as [l1 ->]. rewrite <- app_assoc. eapply lseg_ext; [|apply (chain_snoc _ _ _ _ _ Hal Hl)]. intros i Hi. unfold relink.
        case_decide as Hia; [subst; apply nx_stale; left|]. case_decide as Hit; [subst; rewrite nx_plain by (by rewrite list_elem_of_singleton); by rewrite Et|].
        apply nx_ext; [rewrite !list_elem_of_singleton; tauto|by rewrite Ei].
      * by rewrite last_snoc.
      * apply Forall_app. split; [|constructor; [|constructor]].
        -- rewrite Forall_forall in Hf |- *. intros i Hi. destruct (Hf i Hi) as (F1 & F2 & F3 & c & F4 & F5). destruct (Ef i Hi) as (X1 & X2 & X3 & X4).
           unfold fresh_at. rewrite X1, X2, X3, X4. split_and!; try done; try lia. exists c. split; [done|]. rewrite Hb'; [done|]. intros ->. lia.
        -- unfold fresh_at. rewrite Ea. cbn. split_and!; try done; try lia. exists b. split; [done|]. by rewrite Tb, grabbed_buf, decide_True.
      * rewrite sum_len_app. rewrite (sum_len_ext s1 s') by (intros i Hi; by apply Ef). cbn. rewrite Ea. cbn. lia.
      * lia.
      * lia.
      * destruct (Ef h) as (_ & _ & -> & _); [|done]. destruct (chain_Some _ _ _ Hl) as (l' & -> & _). left.
  - destruct I2 as [-> B]. destruct (grab _ _ _ _ B Hfl) as (b & Eb & Hbr & Hb0 & Ebs & Hd & Hg). specialize (Hg count ltac:(lia)). fold (grabbed a b count s1) in Hg. pose proof Hd as [Har Ha0].
    eapply wp_mono; [by apply (memreq_run (None, None, n) s1 a b)|]. cbn [fst snd]. fold count. intros r s' [-> TS]. pose proof (taken_avail _ _ _ _ _ _ TS Hbr Hb0) as Hav1. destruct TS as [Ta Tb (T1 & T2 & T3 & T4)].
    rewrite u16_id by lia. split; [|cbn; split; [lia|by split]].
    assert (Ea : accessors s' a = (accessors s1 a) <| acc_linkC := 1 |> <| acc_offset := 0 |> <| acc_length := count |>) by (rewrite Ta, decide_False by done; by rewrite grabbed_acc, decide_True).
    split.
    + eapply untouched_trans; [exact I1|]. eapply (taken_untouched own own [] [] s1 s' a b count None); try done.
    + exists [a]. split_and!; try done.
      * eapply binv_ext; [exact Hg|..]; try done. by rewrite T4.
      * split; [done|]. apply nx_stale. left.
      * constructor; [|constructor]. unfold fresh_at. rewrite Ea. cbn. split_and!; try done; try lia. exists b. split; [done|]. by rewrite Tb, grabbed_buf, decide_True.
      * cbn. rewrite Ea. cbn. lia.
      * lia.
      * lia.
      * rewrite Ea. cbn. done.
Qed.

(** The end of the last accessor. *)
Lemma memreq_close own s n head tail s1 : 0 < n → mem_inv own s n (head, tail, 0) s1 →
  wp (t ← deref tail; set_next t None;; mret head) (λ p s', ∃ h l, p = Some h ∧ binv (h :: own) [] s' ∧ untouched own [] s s' ∧ chain (nx [] s') (Some h) l ∧ Forall (fresh_at s') l ∧
    sum_len s' l = n ∧ acc_length (accessors s' h) = Z.min n BUF_S) s1.
Proof.
  intros Hn [I1 I2]. destruct head as [h|], tail as [t|]; try done; [|lia]. destruct I2 as (l & B & Hl & Ht & Hf & Hsum & _ & Hh).
  assert (Htl : t ∈ l) by (apply last_Some in Ht as [l' ->]; apply elem_of_app; right; left).
  pose proof (live_range _ _ (all_live _ _ _ B h l t ltac:(left) Hl Htl)) as Htr.
  assert (Hav : avoids own [] s1 t) by (eapply stale_avoids; [exact B|exact Hl| |exact Htl]; rewrite Forall_forall in Hf; intros i Hi; by apply Hf).
  buf_step. eapply wp_deref; [reflexivity|]. do 6 buf_step. set (s' := sa t _ s1).
  assert (Ef : ∀ i, acc_linkC (accessors s' i) = acc_linkC (accessors s1 i) ∧ acc_offset (accessors s' i) = acc_offset (accessors s1 i) ∧
    acc_length (accessors s' i) = acc_length (accessors s1 i) ∧ acc_buffer (accessors s' i) = acc_buffer (accessors s1 i)).
  { intros i. unfold s'. destruct (decide (i = t)) as [->|]; [by rewrite sa_at|by rewrite sa_ne]. }
  exists h, l. split_and!; try done.
  + apply (relink_step held (h :: own) [] s1 t None); [exact B|apply not_elem_of_nil|]. intros lq Hlq. apply chain_None in Hlq as ->. apply not_elem_of_nil.
  + eapply untouched_trans; [exact I1|]. intros r lr i Hr Hlr Hi. pose proof (Hav r lr i Hr Hlr Hi) as Hit. cbn in Hit.
    unfold same, lower, part, s'. rewrite !sa_ne by done. done.
  + eapply lseg_ext; [|exact Hl]. intros i Hi. unfold s'. destruct (decide (i = t)) as [->|Hne].
    * rewrite (nx_stale [t]) by left. rewrite nx_plain by apply not_elem_of_nil. by rewrite sa_at.
    * apply nx_ext; [|by rewrite sa_ne]. rewrite list_elem_of_singleton, elem_of_nil. tauto.
  + eapply Forall_impl; [exact Hf|]. intros i. unfold fresh_at. destruct (Ef i) as (-> & -> & -> & ->). done.
  + rewrite (sum_len_ext s1 s') by (intros i _; by apply Ef). lia.
  + by destruct (Ef h) as (_ & _ & -> & _).
Qed.

Lemma bf_memreq_wp own s n : binv own [] s → 0 < n < 2 ^ 16 →
  wpx out (bf_memreq n) (λ p s', ∃ h l, p = Some h ∧ binv (h :: own) [] s' ∧ untouched own [] s s' ∧ chain (nx [] s') (Some h) l ∧ Forall (fresh_at s') l ∧
    sum_len s' l = n ∧ acc_length (accessors s' h) = Z.min n BUF_S) s.
Proof.
  intros Hb Hn. unfold bf_memreq. bufx_step.
  eapply wpx_mono; [eapply (wpx_loop out (λ x s', mem_inv own s n x s' ∧ 0 ≤ x.2) mem_size _ _ (λ r s', mem_inv own s n (r, 0) s'))|].
  - intros x s1 [I1 I2]. destruct (decide (x.2 = 0)) as [E|E].
    { destruct x as [[head tail] size]. cbn in E. subst size. unfold memreq_step. cbn. bufx_step. done. }
    destruct (buf512_freelist s1) as [a|] eqn:Efl.
    + eapply wp_wpx, wp_mono; [apply (memreq_take own s n x s1 a); try done; lia|]. cbn beta. intros [x'|r] s2; [|done]. intros (J1 & J2 & _). split; [split; [done|lia]|].
      unfold mem_size, no_buffer. rewrite Efl. destruct (buf512_freelist s2); lia.
    + assert (Hw : wpx out (free_bufs x.2;; mret (inl x)) (λ r s', match r with inl x' => (mem_inv own s n x' s' ∧ 0 ≤ x'.2) ∧ (mem_size x' s' < mem_size x s1)%nat | inr r => mem_inv own s n (r, 0) s' end) s1).
      { bufx_step. eapply wpx_mono; [apply memreq_wait; [exact I1|lia]|]. cbn beta. intros _ s2 [J1 J2]. bufx_step. split; [done|].
        unfold mem_size, no_buffer. rewrite Efl. destruct (buf512_freelist s2); [lia|done]. }
      destruct x as [[head tail] size]. cbn [snd] in *. unfold memreq_step. rewrite (proj2 (Z.eqb_neq size 0)) by done. bufx_step. bufx_step. rewrite Efl. exact Hw.
  - split; [split; [apply untouched_refl|done]|cbn; lia].
  - unfold mem_size, no_buffer. cbn [snd]. destruct (buf512_freelist s); lia.
  - cbn beta. intros [head tail] s1 HI. apply wp_wpx, memreq_close; [lia|exact HI].
Qed.
(** With enough free buffers nobody is asked to free any. *)
Lemma memreq_granted own s n : binv own [] s → 0 < n < 2 ^ 16 → n ≤ BUF_S * avail s → wp (bf_memreq n) (λ p s', ∃ h l, p = Some h ∧ binv (h :: own) [] s' ∧ untouched own [] s s' ∧ chain (nx [] s') (Some h) l ∧ Forall (fresh_at s') l ∧
    sum_len s' l = n ∧ acc_length (accessors s' h) = Z.min n BUF_S) s.
Proof.
  intros Hb Hn Ha. unfold bf_memreq. wp_step.
  eapply wp_mono; [eapply (wp_loop (λ x s', mem_inv own s n x s' ∧ 0 ≤ x.2 ≤ BUF_S * avail s') (λ x _, Z.to_nat x.2) _ _ (λ r s', mem_inv own s n (r, 0) s'))|].
  - intros x s1 [I1 I2]. destruct (decide (x.2 = 0)) as [E|E].
    { destruct x as [[head tail] size]. cbn in E. subst size. unfold memreq_step. cbn. wp_step. done. }
    assert (Hfl : ∃ a, buf512_freelist s1 = Some a).
    { assert (∃ own' st, binv own' st s1) as (own' & st & B).
      { destruct x as [[[h|] [t|]] size]; destruct I1 as [_ I1]; try done; [destruct I1 as (l & B & _); by exists (h :: own), [t]|destruct I1 as [_ B]; by exists own, []]. }
      assert (0 < avail s1) by (unfold BUF_S in *; lia). destruct (buf512_freelist s1) as [a|] eqn:Ef; [by exists a|]. by destruct (avail_buffer _ _ _ B H1). }
    destruct Hfl as [a Hfl]. eapply wp_mono; [apply (memreq_take own s n x s1 a); [done|lia|lia|done]|]. cbn beta. intros [x'|r] s2; [|done].
    intros (J1 & J2 & J3 & J4). split; [split; [done|]; unfold BUF_S in *; lia|lia].
  - split; [split; [apply untouched_refl|done]|cbn; lia].
  - cbn [snd]. lia.
  - cbn beta. intros [head tail] s1 HI. apply memreq_close; [lia|exact HI].
Qed.
End dup.
