(* ===== verification/Bufpart.v ===== *)
(** * Contents and parts of packets

    Copies between accessors, [bf_bufsize], [bf_pack] and [bf_cut]. *)

From S2P Require Import Prelude Chain Buf Bufinv Bufops.

(** ** The contents of buffers *)

(** A bounded loop with a measure that the invariant gives. *)
Lemma wp_loop_ghost {S A R} (I : nat → A → S → Prop) (body : A → M S (A + R)) Q fuel n a s :
  (∀ n a s, I n a s → wp (body a) (λ x s', match x with inl a' => ∃ n', (n' < n)%nat ∧ I n' a' s' | inr r => Q r s' end) s) →
  I n a s → (n < fuel)%nat → wp (loop fuel body a) Q s.
Proof.
  intros Hbody. revert n a s. induction fuel as [|fuel IH]; intros n a s HI Hn; [lia|]. rewrite loop_unfold. apply wp_bind.
  eapply wp_mono; [by eapply Hbody|]. intros [a'|r] s'; [|done]. intros (n' & Hlt & HI'). eapply IH; [exact HI'|lia].
Qed.

Lemma wpx_loop_ghost {S G A R} (E : string → Prop) (μ : G → nat) (I : G → A → S → Prop) fuel (body : A → M S (A + R)) Q g a s :
  (∀ g a s, I g a s → wpx E (body a) (λ x s', match x with inl a' => ∃ g', (μ g' < μ g)%nat ∧ I g' a' s' | inr r => Q r s' end) s) →
  I g a s → (μ g < fuel)%nat → wpx E (loop fuel body a) Q s.
Proof.
  intros Hbody. revert g a s. induction fuel as [|fuel IH]; intros g a s HI Hμ; [lia|]. rewrite loop_unfold. apply wpx_bind.
  eapply wpx_mono; [by eapply Hbody|]. intros [a'|r] s'; [|done]. intros (g' & Hlt & HI'). eapply IH; [exact HI'|lia].
Qed.

(** *** Lists of bytes *)
Lemma overwrite_length o l d : 0 ≤ o → o + Z.of_nat (length l) ≤ Z.of_nat (length d) → length (overwrite o l d) = length d.
Proof. intros Ho Hl. unfold overwrite. rewrite !length_app, length_take, length_drop. lia. Qed.
Lemma part_overwritten {A} (off o len : nat) (l d : list A) : (o + length l ≤ len)%nat → (off + len ≤ length d)%nat →
  take len (drop off (take (off + o) d ++ l ++ drop (off + o + length l) d)) =
  take o (take len (drop off d)) ++ l ++ drop (o + length l) (take len (drop off d)).
Proof.
  intros Hl Hd. rewrite drop_app_le by (rewrite length_take; lia). rewrite <- take_drop_commute.
  replace (off + o + length l)%nat with (off + (o + length l))%nat by lia. rewrite <- drop_drop. set (D := drop off d).
  assert (HD : (len ≤ length D)%nat) by (unfold D; rewrite length_drop; lia).
  rewrite take_app, take_take, length_take, Nat.min_r, (Nat.min_l o) by lia. f_equal; [by rewrite take_take, Nat.min_l by lia|].
  rewrite take_app, take_ge by lia. f_equal. rewrite take_drop_commute. f_equal. f_equal. lia.
Qed.
(** A part of overwritten data. *)
Lemma overwrite_part off len o l d : 0 ≤ off → 0 ≤ o → o + Z.of_nat (length l) ≤ len → off + len ≤ Z.of_nat (length d) →
  take (Z.to_nat len) (drop (Z.to_nat off) (overwrite (off + o) l d)) = overwrite o l (take (Z.to_nat len) (drop (Z.to_nat off) d)).
Proof.
  intros Hoff Ho Hl Hd. unfold overwrite. replace (Z.to_nat (off + o)) with (Z.to_nat off + Z.to_nat o)%nat by lia.
  apply part_overwritten; lia.
Qed.
(** The first bytes after an overwrite at their end. *)
Lemma overwrite_take k l d : 0 ≤ k → k + Z.of_nat (length l) ≤ Z.of_nat (length d) → take (Z.to_nat k + length l) (overwrite k l d) = take (Z.to_nat k) d ++ l.
Proof.
  intros Hk Hl. unfold overwrite. rewrite app_assoc, take_app_le by (rewrite length_app, length_take; lia).
  apply take_ge. rewrite length_app, length_take. lia.
Qed.

(** The bytes up to a place in the middle part, and those from there on. *)
Lemma take_middle {A} (l p r : list A) j : (j ≤ length p)%nat → take (length l + j) (l ++ p ++ r) = l ++ take j p.
Proof. intros Hj. rewrite take_app_ge by lia. replace (length l + j - length l)%nat with j by lia. f_equal. by apply take_app_le. Qed.
Lemma take_drop_middle {A} (l p r : list A) j n : (j + n ≤ length p)%nat → take n (drop (length l + j) (l ++ p ++ r)) = take n (drop j p).
Proof.
  intros Hj. rewrite drop_app_ge by lia. replace (length l + j - length l)%nat with j by lia. rewrite drop_app_le by lia.
  apply take_app_le. rewrite length_drop. lia.
Qed.

Section contents.
Context {W : Type} `{ClientLaws W}.
Implicit Types (s : bfst W) (own st : list Z).
Abbreviation binv := (binv held).
Abbreviation roots := (roots held).
Abbreviation avoids own st s n := (all_of own st s (λ i, i ≠ n)).

(** *** Sizes *)

Lemma part_length own st s i : binv own st s → live s i → Z.of_nat (length (part s i)) = acc_length (accessors s i).
Proof.
  intros Hb Hi. destruct (i_acc _ _ _ _ Hb i Hi) as (b & Eb & Hbr & H1 & H2 & H3). destruct (i_buf _ _ _ _ Hb b Hbr) as (_ & _ & B3).
  unfold part, data_of. rewrite Eb, length_take, length_drop, B3. unfold BUF_S in *. lia.
Qed.
Lemma sum_parts own st s l : binv own st s → (∀ i, i ∈ l → live s i) → Z.of_nat (length (concat (map (part s) l))) = sum_len s l.
Proof.
  intros Hb. induction l as [|a l IH]; intros Hl; [done|]. cbn. rewrite length_app, Nat2Z.inj_add, IH by (intros i Hi; apply Hl; by right).
  rewrite (part_length own st s a Hb) by (apply Hl; left). done.
Qed.
Lemma sum_len_bound own st s l : binv own st s → (∀ i, i ∈ l → live s i) → NoDup l → 0 ≤ sum_len s l ≤ BUF_S * Z.of_nat (length l) ∧ Z.of_nat (length l) ≤ ACC_NR.
Proof.
  intros Hb Hl Hd. split.
  - clear Hd. induction l as [|a l IH]; [done|]. destruct IH as [I1 I2]; [intros i Hi; apply Hl; by right|]. cbn [sum_len foldr length]. fold (sum_len s l).
    destruct (i_acc _ _ _ _ Hb a (Hl a ltac:(left))) as (b & _ & _ & H1 & H2 & H3). unfold BUF_S in *. lia.
  - assert (Hs : l ⊆+ seqZ 0 ACC_NR).
    { apply NoDup_submseteq; [done|]. intros i Hi. apply elem_of_seqZ. destruct (Hl i Hi). lia. }
    apply submseteq_length in Hs. rewrite length_seqZ in Hs. unfold ACC_NR in *. lia.
Qed.
Lemma chain_fuel own s p l : binv own [] s → (∀ a, p = Some a → live s a) → chain (nx [] s) p l → (∀ i, i ∈ l → live s i) ∧ NoDup l ∧ (length l < acc_fuel)%nat ∧ 0 ≤ sum_len s l < 2 ^ 16.
Proof.
  intros Hb Hp Hl. assert (Hll : ∀ i, i ∈ l → live s i) by by eapply chain_live. pose proof (chain_NoDup _ _ _ Hl) as Hd.
  destruct (sum_len_bound _ _ _ _ Hb Hll Hd) as [H1 H2]. split_and!; try done; unfold acc_fuel, ACC_NR, BUF_S in *; lia.
Qed.

Lemma chain_tail st s p a l : chain (nx st s) p (a :: l) → a ∉ st → p = Some a ∧ chain (nx st s) (acc_next (accessors s a)) l.
Proof. intros [-> Hl] Ha. split; [done|]. by rewrite nx_plain in Hl. Qed.
Lemma plain_tail s p a l : chain (nx [] s) p (a :: l) → p = Some a ∧ chain (nx [] s) (acc_next (accessors s a)) l.
Proof. intros Hc. by apply chain_tail, not_elem_of_nil. Qed.

Lemma sum_len_nonneg s l : (∀ i, i ∈ l → 0 ≤ acc_length (accessors s i)) → 0 ≤ sum_len s l.
Proof. induction l as [|a l IH]; intros Hl; [done|]. cbn. pose proof (Hl a ltac:(left)). pose proof (IH (λ i Hi, Hl i (list_elem_of_further _ _ _ Hi))). unfold sum_len in *. lia. Qed.
Lemma bufsize_loop s l fuel p n : chain (nx [] s) p l → (∀ i, i ∈ l → 0 ≤ i < ACC_NR ∧ 0 ≤ acc_length (accessors s i)) → (length l < fuel)%nat → 0 ≤ n → n + sum_len s l < 2 ^ 16 →
  loop fuel (λ x : option Z * Z, let '(p, size) := x in
    match p with None => mret (inr size) | Some a => y ← get_acc a; mret (inl (acc_next y, u16 (size + acc_length y))) end) (p, n) s = Ret (n + sum_len s l) s.
Proof.
  revert fuel p n. induction l as [|a l IH]; intros fuel p n Hl Hr Hf Hn Hs; (destruct fuel as [|fuel]; [cbn in Hf; lia|]); rewrite loop_unfold.
  - cbn in Hl. subst p. change (sum_len s []) with 0. by rewrite Z.add_0_r.
  - apply plain_tail in Hl as [-> Hl]. destruct (Hr a ltac:(left)) as [Ha Hla]. cbn [sum_len foldr] in *. fold (sum_len s l) in *.
    pose proof (sum_len_nonneg s l (λ i Hi, proj2 (Hr i (list_elem_of_further _ _ _ Hi)))).
    erewrite bind_eq; [|unfold get_acc; replace ((0 <=? a) && (a <? ACC_NR)) with true by lia; reflexivity]. cbv beta iota.
    rewrite u16_id by lia. rewrite IH; [f_equal; lia|done|intros i Hi; apply Hr; by right|cbn in Hf; lia|lia|lia].
Qed.
Lemma bf_bufsize_eq own s a l : binv own [] s → live s a → chain (nx [] s) (Some a) l → bf_bufsize a s = Ret (sum_len s l) s.
Proof.
  intros Hb Ha Hl. destruct (chain_fuel own s (Some a) l Hb) as (Hll & Hd & Hf & Hs); [by intros ? [= <-]|done|]. unfold bf_bufsize.
  rewrite (bufsize_loop s l); try done; [|lia]. intros i Hi. destruct (i_acc _ _ _ _ Hb i (Hll i Hi)) as (b & _ & _ & ? & ? & ?).
  split; [exact (live_range _ _ (Hll i Hi))|done].
Qed.

(** *** Copies *)

Lemma sole_buf own st s i j b : binv own st s → live s i → live s j → acc_buffer (accessors s i) = Some b → acc_buffer (accessors s j) = Some b →
  buf_linkC (buffers512 s b) = 1 → i = j.
Proof.
  intros Hb [Hi Hli] [Hj Hlj] Ei Ej H1. destruct (decide (i = j)) as [|Hne]; [done|]. destruct (i_acc _ _ _ _ Hb i) as (b' & Eb & Hbr & _); [by split|].
  replace b' with b in * by congruence. destruct (i_buf _ _ _ _ Hb b Hbr) as (Hu & _). rewrite H1 in Hu.
  assert (2 ≤ uses s b); [|lia]. apply (cnt_two _ _ i j Hi Hj Hne); rewrite (proj2 (Z.ltb_lt _ _)) by done; by rewrite bool_decide_true.
Qed.

(** The state after [l] was written to the data of [d] from [o] on. *)
Definition written (d o : Z) (l : list Z) s : bfst W :=
  match acc_buffer (accessors s d) with
  | None => s
  | Some b => sb b ((buffers512 s b) <| buf_data := overwrite (acc_offset (accessors s d) + o) l (buf_data (buffers512 s b)) |>) s
  end.
Definition piece s (src o n : Z) : list Z := take (Z.to_nat n) (drop (Z.to_nat o) (part s src)).
Lemma written_acc d o l s : accessors (written d o l s) = accessors s ∧ clients (written d o l s) = clients s.
Proof. unfold written. by destruct (acc_buffer _). Qed.
Lemma written_nx st d o l s i : nx st (written d o l s) i = nx st s i.
Proof. unfold nx. by rewrite (proj1 (written_acc d o l s)). Qed.
Lemma written_binv own st s d o l : binv own st s → live s d → 0 ≤ o → acc_offset (accessors s d) + o + Z.of_nat (length l) ≤ BUF_S → binv own st (written d o l s).
Proof.
  intros Hb Hd Ho Hl. destruct (i_acc _ _ _ _ Hb d Hd) as (b & Eb & Hbr & H1 & H2 & H3). destruct (i_buf _ _ _ _ Hb b Hbr) as (_ & _ & B3). unfold written. rewrite Eb.
  apply rewrite_data; [done|]. rewrite overwrite_length; [done|lia|rewrite B3; unfold BUF_S in *; lia].
Qed.
Lemma written_part_ne own st s d o l i b : binv own st s → live s d → live s i → i ≠ d → acc_buffer (accessors s d) = Some b → buf_linkC (buffers512 s b) = 1 →
  part (written d o l s) i = part s i.
Proof.
  intros Hb Hd Hi Hne Eb H1. unfold part, data_of. rewrite (proj1 (written_acc d o l s)). destruct (acc_buffer (accessors s i)) as [c|] eqn:Ec; [|done].
  unfold written. rewrite Eb, sb_ne; [done|]. intros ->. apply Hne. by eapply sole_buf.
Qed.
Lemma written_part own st s d o l : binv own st s → live s d → 0 ≤ o → o + Z.of_nat (length l) ≤ acc_length (accessors s d) →
  part (written d o l s) d = overwrite o l (part s d).
Proof.
  intros Hb Hd Ho Hl. destruct (i_acc _ _ _ _ Hb d Hd) as (b & Eb & Hbr & H1 & H2 & H3). destruct (i_buf _ _ _ _ Hb b Hbr) as (_ & _ & B3).
  unfold part, data_of. rewrite (proj1 (written_acc d o l s)), Eb. unfold written. rewrite Eb, sb_at. cbn [buf_data upd upd_buf_data].
  apply overwrite_part; try done. rewrite B3. unfold BUF_S in *. lia.
Qed.
Lemma written_kept own own' st s d o l b : binv own' st s → (∀ r, r ∈ own → r ∈ own') → live s d → acc_buffer (accessors s d) = Some b → buf_linkC (buffers512 s b) = 1 →
  avoids own st s d → kept own st s (written d o l s).
Proof.
  intros Hb Hq Hd Eb H1 Hav r lr i Hr Hl Hi. pose proof (all_live _ _ _ Hb r lr i (Hq r Hr) Hl Hi) as Hli. unfold same. rewrite (proj1 (written_acc d o l s)).
  split_and!; try done. eapply written_part_ne; try done. by eapply Hav.
Qed.
Lemma acc_copy_eq own st s d od src os n : binv own st s → live s d → live s src → 0 ≤ os → os + n ≤ acc_length (accessors s src) →
  acc_copy d od src os n s = Ret tt (written d od (piece s src os n) s).
Proof.
  intros Hb Hd Hs Ho Hn. destruct (i_acc _ _ _ _ Hb d Hd) as (b & Eb & Hbr & D1 & D2 & D3). destruct (i_acc _ _ _ _ Hb src Hs) as (c & Ec & Hcr & S1 & S2 & S3).
  pose proof (live_range _ _ Hd) as Hdr. pose proof (live_range _ _ Hs) as Hsr.
  assert (Hw : wp (acc_copy d od src os n) (λ _ s', s' = written d od (piece s src os n) s) s).
  { unfold acc_copy. buf_step. buf_step. buf_step. eapply wp_deref; [exact Ec|]. buf_step. buf_step. buf_step. buf_step. buf_step. eapply wp_deref; [exact Eb|]. buf_step. buf_step. buf_step.
    unfold written, piece, part, data_of. rewrite Eb, Ec. f_equal. f_equal. f_equal.
    rewrite skipn_firstn_comm, drop_drop, take_take. f_equal; [f_equal|f_equal]; lia. }
  apply wp_inv in Hw as ([] & s' & E & ->). exact E.
Qed.

(** *** Packing *)

(** [s'] is [s] but for the data of the accessors [ln]. *)
Record filled own (ln : list Z) s s' : Prop := Filled {
  fl_inv : binv own [] s';
  fl_acc : accessors s' = accessors s;
  fl_clients : clients s' = clients s;
  fl_link : ∀ b, buf_linkC (buffers512 s' b) = buf_linkC (buffers512 s b);
  fl_part : ∀ i, live s i → i ∉ ln → part s' i = part s i
}.
Lemma filled_refl own ln s : binv own [] s → filled own ln s s.
Proof. by split. Qed.
Lemma filled_live own ln s s' i : filled own ln s s' → live s' i ↔ live s i.
Proof. intros F. unfold live. by rewrite (fl_acc _ _ _ _ F). Qed.
Lemma filled_chain own ln s s' p l : filled own ln s s' → chain (nx [] s') p l ↔ chain (nx [] s) p l.
Proof. intros F. split; apply lseg_ext; intros i _; apply nx_ext; rewrite ?(fl_acc _ _ _ _ F); done. Qed.
Lemma filled_written own ln s s' d o l b : filled own ln s s' → d ∈ ln → live s d → acc_buffer (accessors s d) = Some b → buf_linkC (buffers512 s b) = 1 →
  0 ≤ o → acc_offset (accessors s d) + o + Z.of_nat (length l) ≤ BUF_S → filled own ln s (written d o l s').
Proof.
  intros F Hin Hd Eb H1 Ho Hl. pose proof F as [F1 F2 F3 F4 F5]. destruct (written_acc d o l s') as [E1 E2].
  assert (Hd' : live s' d) by by apply (filled_live _ _ _ _ _ F). split.
  - apply written_binv; try done. by rewrite F2.
  - by rewrite E1.
  - by rewrite E2.
  - intros c. rewrite <- F4. unfold written. destruct (acc_buffer (accessors s' d)) as [c'|]; [|done]. destruct (decide (c = c')) as [->|]; [by rewrite sb_at|by rewrite sb_ne].
  - intros i Hi Hni. rewrite <- F5 by done. eapply (written_part_ne own [] s' d o l i b); try done; [by apply (filled_live _ _ _ _ _ F)|by intros ->|by rewrite F2|by rewrite F4].
Qed.

Section packing.
Context (own : list Z) (s : bfst W) (la ln : list Z) (a h : Z).
Hypothesis (Hb : binv own [] s) (Ha : live s a) (Hh : live s h) (Hla : chain (nx [] s) (Some a) la) (Hln : chain (nx [] s) (Some h) ln).
Hypothesis (Hfresh : Forall (fresh_at s) ln) (Hsum : sum_len s ln = sum_len s la) (Hap : ∀ i, i ∈ la → i ∉ ln).
Let V : list Z := concat (map (part s) la).

Lemma la_live i : i ∈ la → live s i.
Proof. eapply chain_live; [exact Hb| |exact Hla]. by intros ? [= <-]. Qed.
Lemma ln_live i : i ∈ ln → live s i.
Proof. eapply chain_live; [exact Hb| |exact Hln]. by intros ? [= <-]. Qed.

(** A place in a chain: the accessors before it, those from it on, the offset. *)
Record place (l : list Z) (p : option Z) (o : Z) (l1 l2 : list Z) : Prop := Place_ {
  pl_split : l = l1 ++ l2;
  pl_chain : chain (nx [] s) p l2;
  pl_off : 0 ≤ o;
  pl_head : match l2 with [] => o = 0 | i :: _ => o ≤ acc_length (accessors s i) end
}.
Lemma place_next l p o l1 i l2 : place l p o l1 (i :: l2) → (∀ i, i ∈ l → live s i) → o = acc_length (accessors s i) → place l (acc_next (accessors s i)) 0 (l1 ++ [i]) l2.
Proof.
  intros [E Hc Ho Hi] Hl Eo. apply plain_tail in Hc as [_ Hc]. split; [by rewrite <- app_assoc|done|done|]. destruct l2 as [|j l2]; [done|].
  destruct (i_acc _ _ _ _ Hb j) as (b & _ & _ & _ & ? & _); [apply Hl; rewrite E, elem_of_app; right; right; left|done].
Qed.

Definition pack_inv (k : nat) (x : option Z * option Z * Z * Z * Z) (s' : bfst W) : Prop :=
  let '(old, new, oo, on, size) := x in
  ∃ lo1 lo2 ln1 ln2, k = (Z.to_nat size + length lo2 + length ln2)%nat ∧ place la old oo lo1 lo2 ∧ place ln new on ln1 ln2 ∧ sum_len s lo1 + oo = sum_len s ln1 + on ∧ size = sum_len s la - (sum_len s lo1 + oo) ∧ 0 ≤ size ∧
    filled own ln s s' ∧ take (Z.to_nat (sum_len s lo1 + oo)) (concat (map (part s') ln)) = take (Z.to_nat (sum_len s lo1 + oo)) V.

Lemma parts_len s' l : filled own ln s s' → (∀ i, i ∈ l → live s i) → Z.of_nat (length (concat (map (part s') l))) = sum_len s l.
Proof.
  intros F Hl. rewrite (sum_parts own [] s' l); [|by apply F|intros i Hi; by apply (filled_live _ _ _ _ _ F), Hl].
  apply sum_len_ext. intros i _. by rewrite (fl_acc _ _ _ _ F).
Qed.
Lemma pack_rest l1 i l2 : (∀ j, j ∈ l1 ++ i :: l2 → live s j) → sum_len s (l1 ++ i :: l2) = sum_len s l1 + acc_length (accessors s i) + sum_len s l2 ∧ 0 ≤ sum_len s l2.
Proof.
  intros Hl. rewrite sum_len_app. cbn [sum_len foldr]. fold (sum_len s l2). split; [lia|]. apply sum_len_nonneg. intros j Hj.
  destruct (i_acc _ _ _ _ Hb j) as (b & _ & _ & _ & ? & _); [apply Hl, elem_of_app; right; by right|done].
Qed.
(** One copy: the new accessors have as many more bytes of the old. *)
Lemma pack_copy s' lo1 o lo2 ln1 n ln2 oo on block : filled own ln s s' → la = lo1 ++ o :: lo2 → ln = ln1 ++ n :: ln2 → 0 ≤ oo → 0 ≤ on → 0 ≤ block →
  oo + block ≤ acc_length (accessors s o) → on + block ≤ acc_length (accessors s n) → sum_len s lo1 + oo = sum_len s ln1 + on →
  take (Z.to_nat (sum_len s lo1 + oo)) (concat (map (part s') ln)) = take (Z.to_nat (sum_len s lo1 + oo)) V →
  acc_copy n on o oo block s' = Ret tt (written n on (piece s' o oo block) s') ∧ filled own ln s (written n on (piece s' o oo block) s') ∧
  take (Z.to_nat (sum_len s lo1 + oo + block)) (concat (map (part (written n on (piece s' o oo block) s')) ln)) = take (Z.to_nat (sum_len s lo1 + oo + block)) V.
Proof.
  intros F Ela Eln Hoo Hon Hbl Ho Hn Hk Ht. assert (Hoin : o ∈ la) by (rewrite Ela, elem_of_app; right; left). assert (Hnin : n ∈ ln) by (rewrite Eln, elem_of_app; right; left).
  pose proof (la_live o Hoin) as Hol. pose proof (ln_live n Hnin) as Hnl. pose proof (proj1 (Forall_forall _ _) Hfresh n Hnin) as (_ & N2 & N3 & b & Eb & Hb1).
  assert (Hol' : live s' o) by by apply (filled_live _ _ _ _ _ F). assert (Hnl' : live s' n) by by apply (filled_live _ _ _ _ _ F).
  pose proof (fl_inv _ _ _ _ F) as Hb'. pose proof (fl_acc _ _ _ _ F) as Ea.
  assert (Epo : part s' o = part s o) by (apply F; [done|by apply Hap]).
  assert (Hpo : Z.of_nat (length (part s o)) = acc_length (accessors s o)) by by eapply part_length.
  assert (Hpn : Z.of_nat (length (part s' n)) = acc_length (accessors s n)) by (rewrite (part_length own [] s' n), Ea by done; done).
  set (B := piece s' o oo block). assert (HB : Z.of_nat (length B) = block) by (unfold B, piece; rewrite Epo, length_take, length_drop; lia).
  assert (EB : B = take (Z.to_nat block) (drop (Z.to_nat oo) (part s o))) by (unfold B, piece; by rewrite Epo).
  split; [by apply (acc_copy_eq own [] s' n on o oo block); rewrite ?Ea|]. split.
  { eapply filled_written; try done. rewrite N2. unfold BUF_S in *. lia. }
  assert (Hd : NoDup (ln1 ++ n :: ln2)) by (rewrite <- Eln; eapply chain_NoDup; exact Hln). apply NoDup_app in Hd as (_ & Hd1 & Hd2). apply NoDup_cons in Hd2 as [Hd2 _].
  assert (Eother : ∀ i, i ∈ ln → i ≠ n → part (written n on B s') i = part s' i).
  { intros i Hi Hne. eapply (written_part_ne own [] s' n on B i b); try done; [by apply (filled_live _ _ _ _ _ F), ln_live|by rewrite Ea|by rewrite (fl_link _ _ _ _ F)]. }
  assert (En : part (written n on B s') n = overwrite on B (part s' n)) by (eapply written_part; try done; rewrite Ea; lia).
  clearbody B. rewrite Eln, map_app, concat_app in Ht. rewrite Eln, map_app, concat_app. cbn [map concat] in Ht |- *. rewrite En.
  rewrite (map_ext_in (part (written n on B s')) (part s') ln1).
  2: { intros i Hi%list_elem_of_In. apply Eother; [rewrite Eln; apply elem_of_app; by left|]. intros ->. apply (Hd1 n Hi). left. }
  assert (Hl1 : Z.of_nat (length (concat (map (part s') ln1))) = sum_len s ln1).
  { apply parts_len; [done|]. intros i Hi. apply ln_live. rewrite Eln. apply elem_of_app. by left. }
  assert (Hl2 : Z.of_nat (length (concat (map (part s) lo1))) = sum_len s lo1).
  { apply parts_len; [by apply filled_refl|]. intros i Hi. apply la_live. rewrite Ela. apply elem_of_app. by left. }
  pose proof (overwrite_length on B (part s' n) Hon ltac:(lia)) as Hlo.
  replace (Z.to_nat (sum_len s lo1 + oo + block)) with (length (concat (map (part s') ln1)) + (Z.to_nat on + length B))%nat by lia.
  rewrite take_middle by lia. rewrite overwrite_take by lia.
  replace (Z.to_nat (sum_len s lo1 + oo)) with (length (concat (map (part s') ln1)) + Z.to_nat on)%nat in Ht by lia. rewrite take_middle in Ht by lia.
  rewrite app_assoc, Ht. unfold V. rewrite Ela, map_app, concat_app. cbn [map concat].
  replace (length (concat (map (part s') ln1)) + (Z.to_nat on + length B))%nat with ((length (concat (map (part s) lo1)) + Z.to_nat oo) + length B)%nat by lia.
  replace (length (concat (map (part s') ln1)) + Z.to_nat on)%nat with (length (concat (map (part s) lo1)) + Z.to_nat oo)%nat by lia.
  rewrite <- (take_take_drop _ (length (concat (map (part s) lo1)) + Z.to_nat oo) (length B)). rewrite take_drop_middle by lia. f_equal. replace (length B) with (Z.to_nat block) by lia. exact EB.
Qed.

Lemma pack_step_wp k x s' : pack_inv k x s' →
  wp (pack_step x) (λ r s'', match r with inl x' => ∃ k', (k' < k)%nat ∧ pack_inv k' x' s'' | inr _ => filled own ln s s'' ∧ concat (map (part s'') ln) = V end) s'.
Proof.
  destruct x as [[[[old new] oo] on] size]. intros (lo1 & lo2 & ln1 & ln2 & Ek & Po & Pn & Hk & Hs & Hs0 & F & Ht). unfold pack_step.
  pose proof (fl_acc _ _ _ _ F) as Ea. wp_step.
  { wp_step. split; [done|]. assert (HV : Z.of_nat (length V) = sum_len s la) by (apply parts_len; [by apply filled_refl|apply la_live]).
    assert (Hl : Z.of_nat (length (concat (map (part s') ln))) = sum_len s ln) by (apply parts_len; [done|apply ln_live]).
    rewrite !take_ge in Ht by lia. done. }
  destruct Po as [Ela Hco Hoo Ho], Pn as [Eln Hcn Hon Hn].
  destruct lo2 as [|o lo2]; [rewrite app_nil_r in Ela; subst; lia|]. apply plain_tail in Hco as [-> Hco'].
  destruct (pack_rest lo1 o lo2) as [So So2]; [intros j Hj; apply la_live; by rewrite Ela|]. rewrite <- Ela in So.
  assert (Hol : live s o) by (apply la_live; rewrite Ela, elem_of_app; right; left). pose proof (live_range _ _ Hol) as Hor.
  wp_step. eapply wp_deref; [reflexivity|]. buf_step. buf_step. rewrite Ea. wp_step.
  { wp_step. exists (Z.to_nat size + length lo2 + length ln2)%nat. split; [subst k; cbn; lia|]. exists (lo1 ++ [o]), lo2, ln1, ln2. split; [done|]. split; [|split; [done|]].
    - apply (place_next la (Some o) oo lo1 o lo2); [by split|apply la_live|lia].
    - rewrite sum_len_app. cbn. replace (sum_len s lo1 + (acc_length (accessors s o) + 0) + 0) with (sum_len s lo1 + oo) by lia. split_and!; try done; lia. }
  destruct ln2 as [|n ln2]; [rewrite app_nil_r in Eln; subst; lia|]. apply plain_tail in Hcn as [-> Hcn'].
  destruct (pack_rest ln1 n ln2) as [Sn Sn2]; [intros j Hj; apply ln_live; by rewrite Eln|]. rewrite <- Eln in Sn.
  assert (Hnl : live s n) by (apply ln_live; rewrite Eln, elem_of_app; right; left). pose proof (live_range _ _ Hnl) as Hnr.
  wp_step. eapply wp_deref; [reflexivity|]. buf_step. buf_step. rewrite Ea. wp_step.
  { wp_step. exists (Z.to_nat size + length (o :: lo2) + length ln2)%nat. split; [subst k; cbn; lia|]. exists lo1, (o :: lo2), (ln1 ++ [n]), ln2. split; [done|]. split; [|split].
    - split; try done.
    - apply (place_next ln (Some n) on ln1 n ln2); [by split|apply ln_live|lia].
    - rewrite sum_len_app. cbn. split_and!; try done; lia. }
  set (block := if _ <? _ then _ else _). assert (Hblock : 0 < block ∧ oo + block ≤ acc_length (accessors s o) ∧ on + block ≤ acc_length (accessors s n)).
  { unfold block. destruct (Z.ltb_spec (acc_length (accessors s o) - oo) (acc_length (accessors s n) - on)); lia. } clearbody block.
  destruct (pack_copy s' lo1 o lo2 ln1 n ln2 oo on block F Ela Eln) as (Ecp & F' & Ht'); try done; try lia.
  wp_step. eapply wp_eq; [exact Ecp|]. wp_step. exists (Z.to_nat (size - block) + length (o :: lo2) + length (n :: ln2))%nat. split; [subst k; cbn; lia|].
  exists lo1, (o :: lo2), ln1, (n :: ln2). split; [done|]. split; [split; try done; lia|]. split; [split; try done; lia|].
  rewrite !Z.add_assoc. split_and!; try done; lia.
Qed.
Lemma pack_loop_wp : wp (loop (pack_fuel (sum_len s la)) pack_step (Some a, Some h, 0, 0, sum_len s la)) (λ _ s', filled own ln s s' ∧ concat (map (part s') ln) = V) s.
Proof.
  assert (Hpos : ∀ i, live s i → 0 ≤ acc_length (accessors s i)) by (intros i Hi; by destruct (i_acc _ _ _ _ Hb i Hi) as (b & _ & _ & _ & ? & _)).
  eapply (wp_loop_ghost pack_inv _ _ _ (Z.to_nat (sum_len s la) + length la + length ln)); [intros; by apply pack_step_wp| |].
  - exists [], la, [], ln. split; [done|].
    split; [split; [done|done|done|]; destruct (chain_Some _ _ _ Hla) as (l & -> & _); by apply Hpos|].
    split; [split; [done|done|done|]; destruct (chain_Some _ _ _ Hln) as (l & -> & _); by apply Hpos|].
    assert (0 ≤ sum_len s la) by (apply sum_len_nonneg; intros i Hi; by apply Hpos, la_live).
    cbn [sum_len foldr]. split_and!; try done; try lia.
  - destruct (chain_fuel own s (Some a) la Hb) as (_ & _ & Hf1 & _); [by intros ? [= <-]|done|].
    destruct (chain_fuel own s (Some h) ln Hb) as (_ & _ & Hf2 & _); [by intros ? [= <-]|done|]. unfold pack_fuel. lia.
Qed.
End packing.
End contents.

(** ** Parts of a packet *)

Section part.
Context {W : Type} `{ClientLaws W}.
Implicit Types (s : bfst W) (own st : list Z).
Abbreviation binv := (binv held).
Abbreviation roots := (roots held).
Abbreviation avoids own st s n := (all_of own st s (λ i, i ≠ n)).

Lemma filled_kept own own' ln s s' : filled own' ln s s' → all_of own [] s (λ i, i ∉ ln) → all_of own [] s (live s) → kept own [] s s'.
Proof.
  intros F Hn Hl r l i Hr Hc Hi. unfold same. rewrite (fl_acc _ _ _ _ F). split_and!; try done. apply (fl_part _ _ _ _ F); [by eapply Hl|by eapply Hn].
Qed.
Lemma cont_det st s p v v' : cont st s p v → cont st s p v' → v = v'.
Proof. intros (l & Hl & <-) (l' & Hl' & <-). by rewrite (chain_det _ _ _ _ Hl Hl'). Qed.
Lemma all_live_cons own s r : binv (r :: own) [] s → all_of own [] s (live s).
Proof. intros Hb q l i Hq. eapply all_live; [exact Hb|by right]. Qed.

Lemma fresh_single s n l : chain (nx [] s) (Some n) l → Forall (fresh_at s) l → sum_len s l = acc_length (accessors s n) → l = [n] ∧ acc_next (accessors s n) = None.
Proof.
  intros Hl Hf Hs. destruct (chain_Some _ _ _ Hl) as (l' & -> & _). apply plain_tail in Hl as [_ Hl]. apply Forall_cons in Hf as [_ Hf]. cbn in Hs. fold (sum_len s l') in Hs.
  destruct l' as [|m l']; [by rewrite Hl|]. apply Forall_cons in Hf as [(_ & _ & Hm & _) Hf]. cbn in Hs. fold (sum_len s l') in Hs.
  assert (0 ≤ sum_len s l'); [|lia]. apply sum_len_nonneg. rewrite Forall_forall in Hf. intros i Hi. destruct (Hf i Hi) as (_ & _ & ? & _). lia.
Qed.

(** [h] is a private packed copy of [v]: one accessor if a buffer is enough. *)
Definition is_packed s (h : Z) (v : list Z) : Prop :=
  cont [] s (Some h) v ∧ acc_linkC (accessors s h) = 1 ∧ acc_length (accessors s h) = Z.min (Z.of_nat (length v)) BUF_S ∧
  (Z.of_nat (length v) ≤ BUF_S → acc_next (accessors s h) = None) ∧
  ∃ b, acc_buffer (accessors s h) = Some b ∧ buf_linkC (buffers512 s b) = 1.
Lemma bf_pack_wp own s a v : binv (a :: own) [] s → cont [] s (Some a) v → v ≠ [] →
  wpx out (bf_pack (Some a)) (λ p s', ∃ h, p = Some h ∧ binv (h :: own) [] s' ∧ kept own [] s s' ∧ is_packed s' h v) s.
Proof.
  intros Hb (la & Hla & <-) Hv. pose proof (own_live _ _ _ _ a Hb ltac:(left)) as Hal. pose proof (live_range _ _ Hal) as Har.
  destruct (i_acc _ _ _ _ Hb a Hal) as (b & Eb & Hbr & H1 & H2 & H3). unfold bf_pack. bufx_step. bufx_step. bufx_step. bufx_step. bufx_step. bufx_step. bufx_step.
  { bufx_step. exists a. split_and!; try done. unfold packed in E. apply andb_true_iff in E as [[E1 E2]%andb_true_iff E3]. apply bool_decide_eq_true in E1.
    destruct (chain_Some _ _ _ Hla) as (l & -> & Hl). rewrite nx_plain, E1 in Hl by apply not_elem_of_nil. apply chain_None in Hl as ->. cbn. rewrite app_nil_r.
    split_and!; [exists [a]; split; [split; [done|by rewrite nx_plain by apply not_elem_of_nil]|cbn; by rewrite app_nil_r]|lia| |done|exists b; split; [done|lia]].
    rewrite (part_length (a :: own) [] s a) by done. unfold BUF_S in *. lia. }
  destruct (chain_fuel (a :: own) s (Some a) la Hb) as (Hll & _ & _ & Hsz); [by intros ? [= <-]|done|].
  pose proof (sum_parts _ _ _ la Hb Hll) as Hlen. assert (Hpos : 0 < sum_len s la) by (destruct (concat (map (part s) la)); [done|cbn in Hlen; lia]).
  bufx_step. apply wp_wpx. eapply wp_eq; [by eapply bf_bufsize_eq|]. bufx_step. eapply wpx_mono; [apply bf_memreq_wp; [exact Hb|lia]|]. cbn beta.
  intros p s1 (h & ln & -> & B1 & U1 & Hln & Hf & Hsum & Hh). pose proof (untouched_kept _ _ _ _ U1) as K1.
  pose proof (kept_chain _ _ _ _ _ _ K1 ltac:(left) Hla) as Hla1.
  assert (Ev : concat (map (part s1) la) = concat (map (part s) la)).
  { f_equal. apply map_ext_in. intros i Hi%list_elem_of_In. by destruct (K1 a la i ltac:(left) Hla Hi) as (_ & _ & _ & _ & ?). }
  assert (Esum : sum_len s1 la = sum_len s la) by (apply sum_len_ext; intros i Hi; by destruct (K1 a la i ltac:(left) Hla Hi) as (_ & ? & _)).
  assert (Hone : ∀ i, i ∈ ln → acc_linkC (accessors s1 i) = 1) by (rewrite Forall_forall in Hf; intros i Hi; by apply Hf).
  assert (Hap : ∀ r l, r ∈ a :: own → chain (nx [] s1) (Some r) l → ∀ i, i ∈ ln → i ∉ l).
  { intros r l Hr Hl. eapply (private_apart (a :: own) [] s1 h); try done. apply elem_of_app. by left. }
  bufx_step. rewrite <- Esum. apply wp_wpx. eapply wp_mono; [apply (pack_loop_wp (h :: a :: own) s1 la ln a h); try done; [| |lia|]|].
  { eapply own_live; [exact B1|]. right. left. }
  { eapply own_live; [exact B1|]. left. }
  { intros i Hi Hin. exact (Hap a la ltac:(left) Hla1 i Hin Hi). }
  cbn beta. intros _ s2 [F Hc]. rewrite Ev in Hc. bufx_step. pose proof (fl_inv _ _ _ _ F) as B2.
  eapply wp_wpx, wp_mono; [apply (afree_wp held (h :: own) [] s2 (Some a)); [by apply binv_swap|by intros t ?%elem_of_nil]|]. cbn beta. intros _ s3 (B3 & U3 & _). bufx_step.
  pose proof (untouched_kept _ _ _ _ U3) as K3. pose proof (proj2 (filled_chain _ _ _ _ (Some h) ln F) Hln) as Hln2.
  exists h. split; [done|]. split; [done|]. split.
  - eapply kept_chain_trans; [eapply kept_sub; [|exact K1]; intros r; by right|]. eapply kept_chain_trans; [|eapply kept_sub; [|exact K3]; intros r; by right].
    eapply filled_kept; [exact F| |].
    + intros r l i Hr Hl Hi Hin. by eapply (Hap r l); [right|..].
    + intros r l i Hr Hl Hi. eapply all_live; [exact B1| |exact Hl|exact Hi]. right. by right.
  - assert (Hhl : h ∈ ln) by (destruct (chain_Some _ _ _ Hln) as (l & -> & _); left). pose proof (proj1 (Forall_forall _ _) Hf h Hhl) as (G1 & G2 & G3 & c & G4 & G5).
    destruct (U3 h ln h ltac:(left) Hln2 Hhl) as [(S1 & S2 & S3 & S4 & S5) [L1 L2]]. rewrite (fl_acc _ _ _ _ F) in *.
    pose proof (own_live _ _ _ _ h B3 ltac:(left)) as Hhl3. split_and!.
    + eapply kept_cont; [exact K3|left|]. by exists ln.
    + destruct Hhl3. lia.
    + rewrite S2, Hh, <- Hlen. done.
    + intros Hle. rewrite S4. eapply fresh_single; [exact Hln|done|lia].
    + exists c. rewrite S3. split; [done|]. specialize (L2 c G4). rewrite (fl_link _ _ _ _ F) in L2. pose proof (buf_used _ _ _ _ c B3 Hhl3 ltac:(by rewrite S3)). lia.
Qed.

(** *** A chain that is being built *)

(** The private chain [lh] from [h] to [tail]. *)
Record built own s s' (h : Z) (lh : list Z) (tail : Z) : Prop := Built {
  bt_inv : binv (h :: own) [] s';
  bt_kept : kept own [] s s';
  bt_chain : chain (nx [] s') (Some h) lh;
  bt_last : last lh = Some tail;
  bt_one : ∀ i, i ∈ lh → acc_linkC (accessors s' i) = 1
}.
Lemma built_apart own s s' h lh tail r l : built own s s' h lh tail → r ∈ own → chain (nx [] s') (Some r) l → ∀ i, i ∈ lh → i ∉ l.
Proof. intros [B1 B2 B3 B4 B5] Hr Hl. eapply (private_apart own [] s' h); try done. apply elem_of_app. by left. Qed.
Lemma built_avoids own s s' h lh tail i : built own s s' h lh tail → i ∈ lh → avoids own [] s' i.
Proof. intros B Hi r l j Hr Hl Hj ->. by eapply built_apart. Qed.
Lemma built_tail own s s' h lh tail : built own s s' h lh tail → tail ∈ lh.
Proof. intros B. pose proof (bt_last _ _ _ _ _ _ B) as Hl. apply last_Some in Hl as [l' ->]. apply elem_of_app. right. left. Qed.
Lemma built_live own s s' h lh tail i : built own s s' h lh tail → i ∈ lh → live s' i.
Proof. intros [B1 B2 B3 B4 B5] Hi. eapply all_live; [exact B1|left|exact B3|done]. Qed.

(** The last accessor of a chain is linked to another chain. *)
Lemma append_link own s h t tail lh lt : binv (t :: h :: own) [] s → chain (nx [] s) (Some h) lh → last lh = Some tail → chain (nx [] s) (Some t) lt → tail ∉ lt →
  let s' := sa tail ((accessors s tail) <| acc_next := Some t |>) s in binv (h :: own) [] s' ∧ chain (nx [] s') (Some h) (lh ++ lt).
Proof.
  intros Hb Hh Hl Ht Hni s'. pose proof (chain_last _ _ _ _ Hh Hl) as Hn. rewrite nx_plain in Hn by apply not_elem_of_nil.
  assert (Htl : tail ∈ lh) by (apply last_Some in Hl as [l' ->]; apply elem_of_app; right; left).
  assert (B : binv (t :: h :: own) [tail] s).
  { change (binv (opt None ++ t :: h :: own) [tail] s). rewrite <- Hn. apply unlink; [done| |apply not_elem_of_nil]. exists h, lh. split; [right; left|done]. }
  split.
  - apply (relink_step held (h :: own) [] s tail (Some t)); [exact B|apply not_elem_of_nil|]. intros l Hl'.
    rewrite (chain_det _ _ _ _ Hl' (stale_chain [] s tail _ _ Hni Ht)). done.
  - apply lseg_app. apply last_Some in Hl as [l1 ->]. pose proof (chain_NoDup _ _ _ Hh) as Hd. apply NoDup_app in Hd as (_ & Hd & _).
    apply lseg_app in Hh as (m & Hh1 & -> & _). assert (Hdup : tail ∉ l1) by (intros Hin; apply (Hd tail Hin); left).
    exists (Some t). split.
    + apply lseg_app. exists (Some tail). split; [|split; [done|unfold s'; rewrite nx_plain by apply not_elem_of_nil; by rewrite sa_at]].
      eapply lseg_ext; [|exact Hh1]. intros i Hi. apply nx_sa_ne. by intros ->.
    + eapply lseg_ext; [|exact Ht]. intros i Hi. apply nx_sa_ne. by intros ->.
Qed.

(** A duplicate of the accessor [d] of another packet is linked to the tail. *)
Lemma attach_wp own s s' h lh tail a la d : built own s s' h lh tail → a ∈ own → chain (nx [] s) (Some a) la → d ∈ la →
  wpx out (dup_after tail d) (λ t s2, built own s s2 h (lh ++ [t]) t ∧ map (part s2) lh = map (part s') lh ∧ part s2 t = part s d ∧
    acc_length (accessors s2 t) = acc_length (accessors s d)) s'.
Proof.
  intros Hbt Ha Hla Hd. pose proof Hbt as [B1 B2 B3 B4 B5]. pose proof (kept_chain _ _ _ _ _ _ B2 Ha Hla) as Hla'.
  assert (Hdl : reached (h :: own) [] s' d) by (exists a, la; split; [by right|done]). unfold dup_after.
  bufx_step. eapply wpx_mono; [apply bf_dupacc_wp; [exact B1|done|apply not_elem_of_nil]|]. cbn beta. intros t s1 (C1 & C2 & (D1 & D2 & D3 & D4) & C7 & C8 & C9).
  pose proof (kept_chain _ _ _ _ _ _ C2 ltac:(left) B3) as B3'.
  pose proof (built_live _ _ _ _ _ _ _ Hbt (built_tail _ _ _ _ _ _ Hbt)) as Htl. pose proof (live_range _ _ Htl) as Htr.
  destruct (own_chain _ _ _ _ t C1 ltac:(left)) as [lr Hlr]. pose proof Hlr as Hlr'. apply plain_tail in Hlr' as [_ Hlr'].
  (* the rest of the duplicate is in the other packet *)
  assert (Hsub : ∀ i, i ∈ lr → i ∈ la).
  { intros i Hi. apply list_elem_of_split in Hd as (l1 & l2 & ->). pose proof (kept_chain _ _ _ _ _ _ C2 ltac:(by right) Hla') as Hla1.
    apply lseg_app in Hla1 as (m & _ & Hd2). apply plain_tail in Hd2 as [_ Hd2]. destruct (C2 a (l1 ++ d :: l2) d) as (_ & _ & _ & En & _); [by right|done|apply elem_of_app; right; left|].
    rewrite D4 in Hlr'. rewrite En in Hd2. rewrite (chain_det _ _ _ _ Hlr' Hd2) in Hi. apply elem_of_app. right. by right. }
  assert (Htlh : ∀ i, i ∈ lh → i ∉ t :: lr).
  { intros i Hi [->|Hin]%elem_of_cons; [by eapply (sole_avoids (h :: own) [] s1 t C1 C7 h lh t); [left|..]|].
    by eapply (built_apart _ _ _ _ _ _ _ _ Hbt Ha Hla' i Hi), Hsub. }
  assert (Hone : ∀ i, i ∈ lh → acc_linkC (accessors s1 i) ≤ 1).
  { intros i Hi. rewrite <- (B5 i Hi). apply (C9 h lh i ltac:(left) B3 Hi). intros E. apply (Htlh i Hi). right.
    rewrite D4, <- E in Hlr'. destruct (chain_Some _ _ _ Hlr') as (l3 & -> & _). left. }
  destruct (append_link own s1 h t tail lh (t :: lr) C1 B3' B4 Hlr) as [F1 F2]; [by eapply Htlh, built_tail|].
  set (s2 := sa tail _ s1) in F1, F2. bufx_step. bufx_step. bufx_step. bufx_step.
  pose proof (live_range _ _ (own_live _ _ _ _ t C1 ltac:(left))) as Htr'. bufx_step. bufx_step. bufx_step. change (sa tail _ s1) with s2.
  assert (Htt : tail ≠ t) by (intros ->; eapply Htlh; [by eapply built_tail|left]). assert (Et : accessors s2 t = accessors s1 t) by (by apply sa_ne).
  assert (G1 : binv (opt (acc_next (accessors s2 t)) ++ h :: own) [t] s2).
  { apply unlink; [done| |apply not_elem_of_nil]. exists h, (lh ++ t :: lr). split; [left|]. split; [done|]. apply elem_of_app. right. left. }
  assert (F2' : chain (nx [t] s2) (Some h) (lh ++ [t])).
  { apply lseg_app in F2 as (m & X1 & X2 & _). apply lseg_app. exists m. split; [|split; [done|apply nx_stale; left]]. eapply lseg_ext; [|exact X1].
    intros i Hi. apply nx_ext; [|done]. rewrite list_elem_of_singleton, elem_of_nil. split; [tauto|]. intros ->. by eapply Htlh; [|left]. }
  assert (Hav : avoids own [] s2 t).
  { eapply (kept_all own (t :: h :: own) [] s1 s2); [exact C1|intros r Hr; right; by right| |].
    - apply sa_kept. eapply (kept_all own (h :: own) [] s' s1); [exact B1|by right|eapply kept_sub; [|exact C2]; by right|]. eapply built_avoids; [exact Hbt|by eapply built_tail].
    - intros r l i Hr Hl Hi. eapply (sole_avoids (h :: own) [] s1 t C1 C7 r l i); [by right|done|done]. }
  bufx_step. eapply wp_wpx, wp_mono; [apply afree_wp; [exact G1|]|].
  { intros i ->%list_elem_of_singleton. exists h, (lh ++ [t]). split; [left|]. split; [done|]. apply elem_of_app. right. left. }
  cbn beta. intros _ s3 (J1 & J2 & _). do 5 bufx_step. set (s4 := sa t _ s3).
  assert (E4 : ∀ i, i ≠ t → accessors s4 i = accessors s3 i) by (intros i Hi; by apply sa_ne).
  assert (Ep4 : ∀ i, part s4 i = part s3 i).
  { intros i. unfold part, data_of, s4. destruct (decide (i = t)) as [->|]; [by rewrite sa_at|by rewrite sa_ne]. }
  assert (Hs : ∀ i, i ∈ lh ++ [t] → same s2 s3 i ∧ lower s2 s3 i) by (intros i Hi; eapply J2; [left|exact F2'|done]).
  assert (E2 : ∀ i, part s2 i = part s1 i ∧ acc_linkC (accessors s2 i) = acc_linkC (accessors s1 i)).
  { intros i. unfold part, data_of, s2. destruct (decide (i = tail)) as [->|]; [by rewrite sa_at|by rewrite sa_ne]. }
  assert (Ht : t ∈ lh ++ [t]) by (apply elem_of_app; right; left). destruct (Hs t Ht) as [(S1 & S2 & S3 & S4 & S5) _].
  assert (K1 : kept own [] s2 s3) by (apply (stale_all own [] s2 t); [done|]; eapply kept_sub; [|by apply untouched_kept]; by right).
  assert (J3 : chain (nx [t] s3) (Some h) (lh ++ [t])) by (eapply kept_chain; [by apply untouched_kept|left|done]).
  split_and!; [split| | |].
  - apply (relink_step held (h :: own) [] s3 t None); [exact J1|apply not_elem_of_nil|]. intros l Hl. apply chain_None in Hl as ->. apply not_elem_of_nil.
  - eapply kept_chain_trans; [exact B2|]. eapply kept_chain_trans; [eapply kept_sub; [|exact C2]; by right|]. eapply kept_chain_trans; [|eapply kept_chain_trans; [exact K1|apply sa_kept]].
    + apply sa_kept. eapply (kept_all own (h :: own) [] s' s1); [exact B1|by right|eapply kept_sub; [|exact C2]; by right|]. eapply built_avoids; [exact Hbt|by eapply built_tail].
    + eapply (kept_all own (h :: own) [] s2 s3); [exact F1|by right|exact K1|exact Hav].
  - eapply lseg_ext; [|exact J3]. intros i Hi. unfold s4. destruct (decide (i = t)) as [->|]; [rewrite nx_plain, nx_stale, sa_at; [done|left|apply not_elem_of_nil]|].
    rewrite nx_sa_ne by done. apply nx_ext; [|done]. rewrite list_elem_of_singleton, elem_of_nil. tauto.
  - by rewrite last_snoc.
  - intros i Hi. pose proof (all_live _ _ _ J1 h _ i ltac:(left) J3 Hi) as [_ Hl0].
    destruct (Hs i Hi) as [_ [L1 _]]. rewrite (proj2 (E2 i)) in L1. assert (acc_linkC (accessors s1 i) ≤ 1) by (apply elem_of_app in Hi as [Hi| ->%list_elem_of_singleton]; [by apply Hone|lia]).
    assert (acc_linkC (accessors s4 i) = acc_linkC (accessors s3 i)); [|lia]. unfold s4. destruct (decide (i = t)) as [->|]; [by rewrite sa_at|by rewrite sa_ne].
  - apply map_ext_in. intros i Hi%list_elem_of_In. rewrite Ep4. destruct (Hs i) as [(_ & _ & _ & _ & ->) _]; [apply elem_of_app; by left|].
    rewrite (proj1 (E2 i)). by destruct (C2 h lh i ltac:(left) B3 Hi) as (_ & _ & _ & _ & ?).
  - rewrite Ep4, S5, (proj1 (E2 t)). unfold part at 1. rewrite C8. by destruct (B2 a la d Ha Hla Hd) as (_ & _ & _ & _ & ?).
  - unfold s4. rewrite sa_at. cbn. rewrite S2, Et, D2. by destruct (B2 a la d Ha Hla Hd) as (_ & ? & _).
Qed.

(** *** Cutting *)

Definition resized (x : acc_t) (o len : Z) : acc_t := x <| acc_offset := acc_offset x + o |> <| acc_length := len |>.
Lemma resized_data own st s a o len : binv own st s → live s a → 0 ≤ o → 0 ≤ len → o + len ≤ acc_length (accessors s a) →
  data_of s (resized (accessors s a) o len) = take (Z.to_nat len) (drop (Z.to_nat o) (part s a)).
Proof.
  intros Hb Ha Ho Hl Hs. destruct (i_acc _ _ _ _ Hb a Ha) as (b & Eb & Hbr & H1 & H2 & H3). unfold part, data_of. cbn. rewrite Eb.
  rewrite skipn_firstn_comm, drop_drop, take_take. f_equal; [lia|]. f_equal. lia.
Qed.
Lemma resized_ok own st s a o len : binv own st s → live s a → 0 ≤ o → 0 ≤ len → o + len ≤ acc_length (accessors s a) → acc_ok (resized (accessors s a) o len).
Proof. intros Hb Ha Ho Hl Hs. destruct (i_acc _ _ _ _ Hb a Ha) as (b & Eb & Hbr & H1 & H2 & H3). exists b. cbn. split_and!; try done; lia. Qed.
Lemma built_resize own s s' h lh tail i o len : built own s s' h lh tail → i ∈ lh → 0 ≤ o → 0 ≤ len → o + len ≤ acc_length (accessors s' i) →
  built own s (sa i (resized (accessors s' i) o len) s') h lh tail.
Proof.
  intros Hbt Hi Ho Hl Hs. pose proof (built_live _ _ _ _ _ _ _ Hbt Hi) as Hil. pose proof Hbt as [B1 B2 B3 B4 B5].
  assert (Ef : ∀ j, acc_linkC (accessors (sa i (resized (accessors s' i) o len) s') j) = acc_linkC (accessors s' j) ∧
    acc_next (accessors (sa i (resized (accessors s' i) o len) s') j) = acc_next (accessors s' j)).
  { intros j. destruct (decide (j = i)) as [->|]; [by rewrite sa_at|by rewrite sa_ne]. }
  split; try done.
  - eapply touch; try done; [by right|]. by eapply resized_ok.
  - eapply kept_chain_trans; [exact B2|]. apply sa_kept. by eapply built_avoids.
  - eapply lseg_ext; [|exact B3]. intros j _. apply nx_ext; [done|]. apply Ef.
  - intros j Hj. rewrite (proj1 (Ef j)). by apply B5.
Qed.
Lemma resize_part own st s i o len : binv own st s → live s i → 0 ≤ o → 0 ≤ len → o + len ≤ acc_length (accessors s i) →
  part (sa i (resized (accessors s i) o len) s) i = take (Z.to_nat len) (drop (Z.to_nat o) (part s i)) ∧
  ∀ j, j ≠ i → part (sa i (resized (accessors s i) o len) s) j = part s j.
Proof.
  intros Hb Hi Ho Hl Hs. split.
  - unfold part at 1. rewrite sa_at. by apply (resized_data own st s).
  - intros j Hj. unfold part. by rewrite sa_ne.
Qed.

(** The accessor with the byte at an offset is found. *)
Lemma skip_loop s l fuel p o : chain (nx [] s) p l → (∀ i, i ∈ l → 0 ≤ i < ACC_NR ∧ 0 ≤ acc_length (accessors s i)) → (length l < fuel)%nat → 0 ≤ o < sum_len s l →
  ∃ l1 i l2, l = l1 ++ i :: l2 ∧ loop fuel skip_step (p, o) s = Ret (Some i, o - sum_len s l1) s ∧ 0 ≤ o - sum_len s l1 < acc_length (accessors s i).
Proof.
  revert fuel p o. induction l as [|a l IH]; intros fuel p o Hl Hr Hf Ho; [cbn in Ho; lia|]. destruct fuel as [|fuel]; [cbn in Hf; lia|].
  apply plain_tail in Hl as [-> Hl]. destruct (Hr a ltac:(left)) as [Ha Hla]. cbn [sum_len foldr] in Ho. fold (sum_len s l) in Ho. rewrite loop_unfold.
  destruct (Z.leb_spec (acc_length (accessors s a)) o) as [Hle|Hgt].
  - destruct (IH fuel (acc_next (accessors s a)) (o - acc_length (accessors s a))) as (l1 & i & l2 & -> & E & Hi); [done|intros i Hi; apply Hr; by right|cbn in Hf; lia|lia|].
    exists (a :: l1), i, l2. split; [done|]. cbn [sum_len foldr]. fold (sum_len s l1). replace (o - (acc_length (accessors s a) + sum_len s l1)) with (o - acc_length (accessors s a) - sum_len s l1) by lia.
    split; [|done]. assert (Es : skip_step (Some a, o) s = Ret (inl (acc_next (accessors s a), o - acc_length (accessors s a))) s); [|by rewrite (bind_eq _ _ _ _ _ Es)].
    unfold skip_step. erewrite bind_eq; [|unfold get_acc; replace ((0 <=? a) && (a <? ACC_NR)) with true by lia; reflexivity]. cbv beta. by rewrite (proj2 (Z.leb_le _ _) Hle).
  - exists [], a, l. split; [done|]. cbn [sum_len foldr]. rewrite Z.sub_0_r. split; [|lia].
    assert (E : skip_step (Some a, o) s = Ret (inr (Some a, o)) s); [|by rewrite (bind_eq _ _ _ _ _ E)].
    unfold skip_step. erewrite bind_eq; [|unfold get_acc; replace ((0 <=? a) && (a <? ACC_NR)) with true by lia; reflexivity]. cbv beta. by rewrite (proj2 (Z.leb_gt _ _) Hgt).
Qed.
Lemma drop_parts own s l1 i l2 o : binv own [] s → (∀ j, j ∈ l1 ++ i :: l2 → live s j) → 0 ≤ o - sum_len s l1 ≤ acc_length (accessors s i) →
  drop (Z.to_nat o) (concat (map (part s) (l1 ++ i :: l2))) = drop (Z.to_nat (o - sum_len s l1)) (part s i) ++ concat (map (part s) l2).
Proof.
  intros Hb Hl Ho. rewrite map_app, concat_app. cbn [map concat].
  assert (Hs : Z.of_nat (length (concat (map (part s) l1))) = sum_len s l1) by (eapply sum_parts; [exact Hb|intros j Hj; apply Hl, elem_of_app; by left]).
  pose proof (part_length _ _ _ i Hb ltac:(apply Hl, elem_of_app; right; left)). rewrite drop_app_ge by lia.
  replace (Z.to_nat o - length (concat (map (part s) l1)))%nat with (Z.to_nat (o - sum_len s l1)) by lia. apply drop_app_le. lia.
Qed.

(** The loop of [bf_cut]: what is left to add is in the accessors [l2]. *)
Definition cut_inv own s (la : list Z) (h : Z) (target : list Z) (l2 : list Z) (x : option Z * Z * Z) s' : Prop :=
  let '(data, tail, length) := x in
  (∀ i, i ∈ l2 → i ∈ la) ∧ ∃ lh, built own s s' h lh tail ∧ chain (nx [] s) data l2 ∧ 0 ≤ length ≤ sum_len s l2 ∧
    concat (map (part s') lh) ++ take (Z.to_nat length) (concat (map (part s) l2)) = target.
Lemma cut_step_wp own s a la h target l2 x s' : binv own [] s → a ∈ own → chain (nx [] s) (Some a) la → cut_inv own s la h target l2 x s' →
  wpx out (cut_step x) (λ r s'', match r with
    | inl x' => ∃ l2', (length l2' < length l2)%nat ∧ cut_inv own s la h target l2' x' s''
    | inr x' => ∃ l2', cut_inv own s la h target l2' x' s'' ∧ match x' with (Some d, _, len) => len = 0 ∨ len < acc_length (accessors s d) | (None, _, len) => len = 0 end
    end) s'.
Proof.
  intros Hb Ha Hla HI. destruct x as [[data tail] len]. pose proof HI as (Hsub & lh & Hbt & Hl2 & Hlen & Ht). unfold cut_step. destruct data as [d|].
  - destruct l2 as [|d' l2]; [done|]. apply plain_tail in Hl2 as [[= <-] Hl2]. assert (Hd : d ∈ la) by (apply Hsub; left).
    assert (Hdl : live s d) by by eapply (all_live own). pose proof (live_range _ _ Hdl) as Hdr.
    destruct (bt_kept _ _ _ _ _ _ Hbt a la d Ha Hla Hd) as (_ & El & _ & _ & _). bufx_step. bufx_step. rewrite El. bufx_step.
    + apply andb_true_iff in E as [E1 E2]. bufx_step. eapply wpx_mono; [by eapply attach_wp|]. cbn beta. intros t s2 (Hb2 & Ec & Ep & Etl).
      destruct (bt_kept _ _ _ _ _ _ Hb2 a la d Ha Hla Hd) as (_ & _ & _ & En & _).
      pose proof (live_range _ _ (built_live _ _ _ _ _ _ _ Hb2 (built_tail _ _ _ _ _ _ Hb2))) as Htr. bufx_step. bufx_step. bufx_step. bufx_step. bufx_step.
      exists l2. split; [cbn; lia|]. split; [intros i Hi; apply Hsub; by right|]. exists (lh ++ [t]). rewrite En, Etl. split; [done|]. split; [done|].
      cbn [sum_len foldr] in Hlen. fold (sum_len s l2) in Hlen. split; [lia|]. rewrite <- Ht. rewrite map_app, concat_app, Ec. cbn [map concat]. rewrite Ep, app_nil_r, <- app_assoc. f_equal.
      pose proof (part_length _ _ _ d Hb Hdl) as Hpl. rewrite take_app_ge by lia. f_equal. f_equal. lia.
    + bufx_step. exists (d :: l2). split; [split; [done|]; by exists lh|]. apply andb_false_iff in E as [E|E]; [left; lia|right; lia].
  - apply chain_None in Hl2 as ->. cbn in Hlen. bufx_step. exists []. split; [split; [done|]; by exists lh|]. lia.
Qed.

(** A duplicate alone is the start of a packet. *)
Lemma dup_built own s a la d : binv own [] s → a ∈ own → chain (nx [] s) (Some a) la → d ∈ la →
  wpx out (dup_one d) (λ h s', built own s s' h [h] h ∧ part s' h = part s d ∧ acc_length (accessors s' h) = acc_length (accessors s d)) s.
Proof.
  intros Hb Ha Hla Hd. eapply wpx_mono; [apply dup_one_wp; [done|by exists a, la]|]. cbn beta. intros h s' (B1 & B2 & B3 & B4 & B5 & B6 & B7 & B8 & _).
  split; [|done]. split; [done|done| |done|by intros i ->%list_elem_of_singleton]. split; [done|by rewrite nx_plain by apply not_elem_of_nil].
Qed.
Lemma resized_0 x len : resized x 0 len = x <| acc_length := len |>.
Proof. destruct x. unfold resized. cbn. by rewrite Z.add_0_r. Qed.
(** The last accessor of a packet that is built is made shorter. *)
Lemma shorten_last own s s' h lh tail len : built own s s' h (lh ++ [tail]) tail → 0 ≤ len ≤ acc_length (accessors s' tail) →
  let s2 := sa tail ((accessors s' tail) <| acc_length := len |>) s' in
  built own s s2 h (lh ++ [tail]) tail ∧ concat (map (part s2) (lh ++ [tail])) = concat (map (part s') lh) ++ take (Z.to_nat len) (part s' tail).
Proof.
  intros Hbt Hl. assert (Hin : tail ∈ lh ++ [tail]) by (apply elem_of_app; right; left). rewrite <- resized_0. intros s2.
  destruct (resize_part (h :: own) [] s' tail 0 len) as [E1 E2]; [by apply Hbt|by eapply built_live|lia..|].
  split; [apply built_resize; [done|done|lia..]|]. unfold s2. rewrite map_app, concat_app. cbn [map concat]. rewrite E1, app_nil_r. f_equal.
  f_equal. apply map_ext_in. intros i Hi%list_elem_of_In. apply E2. intros ->. pose proof (chain_NoDup _ _ _ (bt_chain _ _ _ _ _ _ Hbt)) as Hd.
  apply NoDup_app in Hd as (_ & Hd & _). apply (Hd _ Hi). left.
Qed.
Lemma built_result own s s' h lh tail v : built own s s' h lh tail → concat (map (part s') lh) = v → binv (h :: own) [] s' ∧ kept own [] s s' ∧ cont [] s' (Some h) v.
Proof. intros [B1 B2 B3 B4 B5] Hv. split_and!; try done. by exists lh. Qed.

(** The rest of [bf_cut], after the first accessor. *)
Lemma cut_rest own s a la h target l2 x s' : binv own [] s → a ∈ own → chain (nx [] s) (Some a) la → cut_inv own s la h target l2 x s' → (length l2 < acc_fuel)%nat →
  wpx out ('(data, tail, length) ← loop acc_fuel cut_step x;
    when (negb (length =? 0)) (d ← deref data; t ← dup_after tail d; z ← get_acc t; set_acc t (z <| acc_length := length |>));;
    mret (Some h)) (λ p s2, p = Some h ∧ binv (h :: own) [] s2 ∧ kept own [] s s2 ∧ cont [] s2 (Some h) target) s'.
Proof.
  intros Hb Ha Hla HI Hf. bufx_step. eapply wpx_mono.
  { eapply (wpx_loop_ghost out length (cut_inv own s la h target)); [|exact HI|exact Hf]. intros l x1 s1 HI1. eapply wpx_mono; [by eapply cut_step_wp|]. exact (λ r s'' Hr, Hr). }
  cbn beta. intros [[data tail] len] s1 (l3 & (Hsub & lh & Hbt & Hl3 & Hlen & Ht) & Hend). bufx_step. bufx_step.
  - intros Hnz. destruct data as [d|]; [|lia]. destruct l3 as [|d' l3]; [done|]. apply plain_tail in Hl3 as [[= <-] _]. assert (Hd : d ∈ la) by (apply Hsub; left).
    bufx_step. bufx_step. bufx_step. eapply wpx_mono; [by eapply attach_wp|]. cbn beta. intros t s2 (Hb2 & Ec & Ep & Etl).
    pose proof (live_range _ _ (built_live _ _ _ _ _ _ _ Hb2 (built_tail _ _ _ _ _ _ Hb2))) as Htr. bufx_step. bufx_step. bufx_step. bufx_step. split; [done|].
    destruct (shorten_last _ _ _ _ _ _ len Hb2) as [F1 F2]; [lia|]. eapply built_result; [exact F1|]. rewrite F2, Ec, Ep, <- Ht. f_equal. cbn [map concat].
    pose proof (part_length _ _ _ d Hb ltac:(by eapply (all_live own))). by rewrite take_app_le by lia.
  - intros Hz%negb_false_iff. bufx_step. split; [done|]. eapply built_result; [exact Hbt|]. rewrite <- Ht. replace len with 0 by lia. by rewrite app_nil_r.
Qed.

Lemma bf_cut_wp own s a v off len : binv own [] s → a ∈ own → cont [] s (Some a) v → 0 ≤ off → 0 ≤ len → off + len ≤ Z.of_nat (length v) →
  wpx out (bf_cut (Some a) off len) (λ p s', ∃ h, p = Some h ∧ binv (h :: own) [] s' ∧ kept own [] s s' ∧ cont [] s' (Some h) (take (Z.to_nat len) (drop (Z.to_nat off) v))) s.
Proof.
  intros Hb Ha (la & Hla & <-) Ho Hl Hs. destruct (chain_fuel own s (Some a) la Hb) as (Hll & Hdup & Hf & _); [intros ? [= <-]; by eapply own_live|done|].
  rewrite (sum_parts own [] s la Hb Hll) in Hs. unfold bf_cut. bufx_step.
  { apply Z.eqb_eq in E as ->. bufx_step. eapply wpx_mono; [eapply (dup_built own s a la a); try done; destruct (chain_Some _ _ _ Hla) as (l & -> & _); left|]. cbn beta.
    intros h s1 (B1 & _ & B3). pose proof (live_range _ _ (built_live _ _ _ _ _ _ h B1 ltac:(left))) as Hhr. bufx_step. bufx_step. bufx_step. bufx_step. bufx_step.
    exists h. split; [done|]. destruct (shorten_last own s s1 h [] h 0 B1) as [C1 C2].
    { destruct (i_acc _ _ _ _ (bt_inv _ _ _ _ _ _ B1) h) as (b & _ & _ & _ & ? & _); [eapply built_live; [exact B1|left]|lia]. }
    eapply built_result; [exact C1|exact C2]. }
  assert (Hpos : ∀ i, i ∈ la → 0 ≤ i < ACC_NR ∧ 0 ≤ acc_length (accessors s i)).
  { intros i Hi. split; [by apply live_range with (s := s), Hll|]. by destruct (i_acc _ _ _ _ Hb i (Hll i Hi)) as (b & _ & _ & _ & ? & _). }
  destruct (skip_loop s la acc_fuel (Some a) off) as (l1 & d & l2 & El & Eloop & Hd); [done|done|done|lia|].
  bufx_step. eapply wp_wpx, wp_eq; [exact Eloop|]. cbv beta iota. apply wp_ret. set (o := off - sum_len s l1) in *. bufx_step. bufx_step.
  assert (Hdin : d ∈ la) by (rewrite El; apply elem_of_app; right; left).
  bufx_step. eapply wpx_mono; [by eapply (dup_built own s a la d)|]. cbn beta. intros h s1 (B1 & B2 & B3).
  pose proof (live_range _ _ (built_live _ _ _ _ _ _ h B1 ltac:(left))) as Hhr. bufx_step. bufx_step.
  set (L := acc_length (accessors s d)) in *. set (m := Z.min (L - o) len).
  match goal with |- wpx _ (let '(x, length) := ?p in _) _ _ => replace p with (resized (accessors s1 h) o m, len - m) end.
  2: { cbn [acc_length upd upd_acc_length upd_acc_offset]. rewrite B3. unfold resized, m. destruct (Z.leb_spec (L - o) len); [rewrite Z.min_l by lia|rewrite Z.min_r by lia]; f_equal; lia. }
  bufx_step. bufx_step. set (s2 := sa h _ s1). pose proof (live_range _ _ (Hll d Hdin)) as Hdr. bufx_step. bufx_step.
  assert (C1 : built own s s2 h [h] h) by (apply built_resize; [done|left|unfold m; lia..]).
  destruct (bt_kept _ _ _ _ _ _ C1 a la d Ha Hla Hdin) as (_ & _ & _ & En & _). rewrite En.
  destruct (resize_part (h :: own) [] s1 h o m) as [C2 _]; [by apply B1|eapply built_live; [exact B1|left]|unfold m; lia..|].
  eapply wpx_mono; [apply (cut_rest own s a la h (take (Z.to_nat len) (drop (Z.to_nat off) (concat (map (part s) la)))) l2); try done|].
  - split; [intros i Hi; rewrite El; apply elem_of_app; right; by right|]. exists [h]. split; [done|].
    split; [rewrite El in Hla; apply lseg_app in Hla as (q & _ & Hq); by apply plain_tail in Hq as [_ Hq]|].
    assert (Hsum : sum_len s la = sum_len s l1 + (L + sum_len s l2)) by (rewrite El, sum_len_app; done).
    assert (0 ≤ sum_len s l2) by (apply sum_len_nonneg; intros i Hi; apply Hpos; rewrite El; apply elem_of_app; right; by right).
    split; [unfold m; lia|]. cbn [map concat]. rewrite app_nil_r. fold s2 in C2. rewrite C2, B2, El.
    rewrite (drop_parts own s l1 d l2 off Hb) by (first [by rewrite <- El|unfold L in *; lia]). fold o.
    pose proof (part_length _ _ _ d Hb (Hll d Hdin)) as Hpl. fold L in Hpl. rewrite take_app, length_drop. f_equal; [|f_equal; unfold m; lia].
    unfold m. destruct (Z.min_spec (L - o) len) as [[? ->]|[? ->]]; [|done]. rewrite !take_ge by (rewrite length_drop; lia). done.
  - rewrite El in Hf. rewrite length_app in Hf. cbn in Hf. lia.
  - cbn beta. intros p s3 (-> & R). by exists h.
Qed.
End part.
