(* ===== verification/Bufapp.v ===== *)
(** * The ends of packets

    Private accessors, [bf_delhead], and the parts of [bf_append]: the first chain
    becomes private, the second one loses its empty accessors, and the two
    accessors between them are joined. *)

From S2P Require Import Prelude Chain Buf Bufinv Bufops Bufpart.

(** ** The head of a packet *)

Section head.
Context {W : Type} `{ClientLaws W}.
Implicit Types (s : bfst W) (own st : list Z).
Abbreviation binv := (binv held).
Abbreviation roots := (roots held).
Abbreviation avoids own st s n := (all_of own st s (λ i, i ≠ n)).

(** A private duplicate takes the place of an accessor that is shared. *)
Lemma bf_own_wp own st s d lr : binv (d :: own) st s → d ∉ st → (∀ t, t ∈ st → reached own st s t) → chain (nx st s) (Some d) (d :: lr) →
  wpx out (bf_own d) (λ c s', binv (c :: own) st s' ∧ c ∉ st ∧ kept own st s s' ∧ chain (nx st s') (Some c) (c :: lr) ∧
    map (part s') (c :: lr) = map (part s) (d :: lr) ∧ acc_linkC (accessors s' c) = 1 ∧ acc_length (accessors s' c) = acc_length (accessors s d) ∧
    all_of own st s (λ i, Some i ≠ acc_next (accessors s d) → acc_linkC (accessors s' i) ≤ acc_linkC (accessors s i))) s.
Proof.
  intros Hb Hd Hst Hld. pose proof (live_range _ _ (own_live _ _ _ _ d Hb ltac:(left))) as Hdr. unfold bf_own. bufx_step. bufx_step. bufx_step.
  { bufx_step. split_and!; [done|done|apply kept_refl|done|done|lia|done|by intros r l i _ _ _ _]. }
  bufx_step. eapply wpx_mono; [apply bf_dupacc_wp; [exact Hb| |done]; exists d, (d :: lr); split_and!; [left|done|left]|]. cbn beta.
  intros n s1 (I1 & I2 & (C1 & C2 & C3 & C4) & I4 & I5 & I6).
  assert (Hav : avoids (d :: own) st s1 n) by by apply sole_avoids.
  assert (Hst1 : ∀ t, t ∈ st → reached own st s1 t) by (intros t Ht; eapply kept_reached; [eapply kept_sub; [|exact I2]; by right|by apply Hst]).
  assert (Hn : n ∉ st) by (intros Hin; destruct (Hst1 n Hin) as (r & l & Hr & Hl & Hi); eapply (Hav r l n); [by right|done|done|done]).
  bufx_step. eapply wp_wpx, wp_mono; [apply afree_wp; [by apply binv_swap|]|].
  { intros t Ht. destruct (Hst1 t Ht) as (r & l & Hr & Hx). exists r, l. split; [by right|done]. }
  cbn beta. intros _ s2 (J1 & J2 & _). bufx_step. pose proof (kept_chain _ _ _ _ _ _ I2 ltac:(left) Hld) as Hld1.
  assert (Hlr1 : chain (nx st s1) (Some n) (n :: lr)).
  { split; [done|]. rewrite nx_plain, C4 by done. apply chain_tail in Hld1 as [_ Hl]; [|done]. destruct (I2 d (d :: lr) d) as (_ & _ & _ & <- & _); [left|done|left|done]. }
  destruct (J2 n (n :: lr) n) as [(S1 & S2 & S3 & S4 & S5) [L1 _]]; [left|done|left|].
  pose proof (own_live _ _ _ _ n J1 ltac:(left)) as [_ Hn0]. pose proof (untouched_kept _ _ _ _ J2) as K2. split_and!; try done.
  - eapply kept_chain_trans; [eapply kept_sub; [|exact I2]; by right|]. eapply kept_sub; [|exact K2]. by right.
  - eapply kept_chain; [exact K2|left|done].
  - cbn [map]. f_equal; [rewrite S5; exact I5|]. apply map_ext_in. intros i Hi%list_elem_of_In.
    destruct (K2 n (n :: lr) i) as (_ & _ & _ & _ & ->); [left|done|by right|]. destruct (I2 d (d :: lr) i) as (_ & _ & _ & _ & ->); [left|done|by right|done].
  - lia.
  - by rewrite S2.
  - intros r l i Hr Hl Hi Hne. etrans; [|by apply (I6 r l i); [right|..]]. apply (J2 r l i); [by right| |done]. eapply kept_chain; [exact I2|by right|done].
Qed.

(** The accessor with the byte at an offset is found. *)
Lemma delhead_loop s l fuel a o : chain (nx [] s) (Some a) l → (∀ i, i ∈ l → 0 ≤ i < ACC_NR ∧ 0 ≤ acc_length (accessors s i)) → (length l ≤ fuel)%nat → 0 ≤ o < sum_len s l →
  ∃ l1 i l2, l = l1 ++ i :: l2 ∧ loop fuel delhead_step (a, o) s = Ret (i, o - sum_len s l1) s ∧ 0 ≤ o - sum_len s l1 < acc_length (accessors s i).
Proof.
  revert fuel a o. induction l as [|b l IH]; intros fuel a o Hl Hr Hf Ho; [cbn in Ho; lia|]. destruct fuel as [|fuel]; [cbn in Hf; lia|].
  apply plain_tail in Hl as [[= ->] Hl]. destruct (Hr b ltac:(left)) as [Ha Hla]. cbn [sum_len foldr] in Ho. fold (sum_len s l) in Ho. rewrite loop_unfold.
  assert (Eg : get_acc b s = Ret (accessors s b) s) by (unfold get_acc; by replace ((0 <=? b) && (b <? ACC_NR)) with true by lia).
  destruct (Z.leb_spec (acc_length (accessors s b)) o) as [Hle|Hgt].
  - destruct (acc_next (accessors s b)) as [n|] eqn:En; [|apply chain_None in Hl as ->; cbn in Ho; lia].
    destruct (IH fuel n (o - acc_length (accessors s b))) as (l1 & i & l2 & -> & E & Hi); [done|intros i Hi; apply Hr; by right|cbn in Hf; lia|lia|].
    exists (b :: l1), i, l2. split; [done|]. cbn [sum_len foldr]. fold (sum_len s l1).
    replace (o - (acc_length (accessors s b) + sum_len s l1)) with (o - acc_length (accessors s b) - sum_len s l1) by lia. split; [|done].
    assert (Es : delhead_step (b, o) s = Ret (inl (n, o - acc_length (accessors s b))) s); [|by rewrite (bind_eq _ _ _ _ _ Es)].
    unfold delhead_step. rewrite (bind_eq _ _ _ _ _ Eg). cbv beta. by rewrite (proj2 (Z.leb_le _ _) Hle), En.
  - exists [], b, l. split; [done|]. cbn [sum_len foldr]. rewrite Z.sub_0_r. split; [|lia].
    assert (E : delhead_step (b, o) s = Ret (inr (b, o)) s); [|by rewrite (bind_eq _ _ _ _ _ E)].
    unfold delhead_step. rewrite (bind_eq _ _ _ _ _ Eg). cbv beta. by rewrite (proj2 (Z.leb_gt _ _) Hgt).
Qed.

(** The first accessors of a private packet are cut off. *)
Lemma head_cut own s h v o : binv (h :: own) [] s → acc_linkC (accessors s h) = 1 → cont [] s (Some h) v → 0 ≤ o ≤ acc_length (accessors s h) →
  let s' := sa h (resized (accessors s h) o (acc_length (accessors s h) - o)) s in
  binv (h :: own) [] s' ∧ kept own [] s s' ∧ cont [] s' (Some h) (drop (Z.to_nat o) v).
Proof.
  intros Hb H1 (l & Hl & <-) Ho s'. pose proof (own_live _ _ _ _ h Hb ltac:(left)) as Hh. destruct (chain_Some _ _ _ Hl) as (lr & -> & Hlr).
  destruct (resize_part (h :: own) [] s h o (acc_length (accessors s h) - o) Hb Hh) as [E1 E2]; [lia..|]. fold s' in E1, E2.
  pose proof (part_length _ _ _ _ Hb Hh) as Hp. split_and!.
  - eapply touch; try done; [by right|]. eapply resized_ok; [exact Hb|done|lia..].
  - apply sa_kept. by apply sole_avoids.
  - exists (h :: lr). split.
    + eapply lseg_ext; [|exact Hl]. intros i _. apply nx_ext; [done|]. unfold s'. destruct (decide (i = h)) as [->|]; [by rewrite sa_at|by rewrite sa_ne].
    + cbn [map concat]. rewrite drop_app_le by lia. rewrite E1. f_equal; [apply take_ge; rewrite length_drop; lia|]. f_equal. apply map_ext_in. intros i Hi%list_elem_of_In.
      apply E2. intros ->. apply chain_NoDup in Hl. by apply NoDup_cons in Hl as [? _].
Qed.

(** The accessors before [i] are given up. *)
Lemma drop_front own s a i l1 l2 : binv (a :: own) [] s → chain (nx [] s) (Some a) (l1 ++ i :: l2) →
  wpx out (when (negb (i =? a)) (link_acc i;; bf_afree (Some a))) (λ _ s', binv (i :: own) [] s' ∧ kept own [] s s' ∧
    chain (nx [] s') (Some i) (i :: l2) ∧ map (part s') (i :: l2) = map (part s) (i :: l2) ∧ acc_length (accessors s' i) = acc_length (accessors s i)) s.
Proof.
  intros Hb Hl. assert (Hi : live s i) by (eapply (all_live (a :: own)); [exact Hb|left|exact Hl|apply elem_of_app; right; left]). pose proof (live_range _ _ Hi) as Hir.
  pose proof Hl as Hl'. apply lseg_app in Hl' as (q & _ & Hq). apply plain_tail in Hq as [-> Hq].
  assert (Hc : chain (nx [] s) (Some i) (i :: l2)) by (split; [done|by rewrite nx_plain by apply not_elem_of_nil]). bufx_step.
  - intros Hne. bufx_step. unfold link_acc. bufx_step. bufx_step. bufx_step. pose proof (one_more _ _ _ _ _ Hb Hi) as B1. set (s1 := sa i _ s) in *.
    pose proof (count_kept (i :: a :: own) [] s i (acc_linkC (accessors s i) + 1)) as K1. fold s1 in K1.
    eapply wp_wpx, wp_mono; [apply afree_wp; [by apply binv_swap|by intros t ?%elem_of_nil]|]. cbn beta. intros _ s2 (J1 & J2 & _). apply untouched_kept in J2.
    split; [done|]. assert (K2 : kept (i :: own) [] s s2).
    { eapply kept_chain_trans; [eapply kept_sub; [|exact K1]; intros r; rewrite !elem_of_cons; tauto|exact J2]. }
    split; [eapply kept_sub; [|exact K2]; by right|]. split; [eapply kept_chain; [exact K2|left|done]|].
    split; [apply map_ext_in; intros j Hj%list_elem_of_In; destruct (K2 i (i :: l2) j) as (_ & _ & _ & _ & ->); [left|done..]|].
    destruct (K2 i (i :: l2) i) as (_ & ? & _); [left|done|left|done].
  - intros ->%negb_false_iff%Z.eqb_eq. split_and!; [done|apply kept_refl|done..].
Qed.

Lemma bf_delhead_wp own s a v off : binv (a :: own) [] s → cont [] s (Some a) v → 0 ≤ off < Z.of_nat (length v) →
  wpx out (bf_delhead a off) (λ h s', binv (h :: own) [] s' ∧ kept own [] s s' ∧ cont [] s' (Some h) (drop (Z.to_nat off) v)) s.
Proof.
  intros Hb (la & Hla & <-) Ho. destruct (chain_fuel (a :: own) s (Some a) la Hb) as (Hll & Hdup & Hf & _); [intros ? [= <-]; eapply own_live; [exact Hb|left]|done|].
  rewrite (sum_parts _ [] s la Hb Hll) in Ho.
  assert (Hpos : ∀ i, i ∈ la → 0 ≤ i < ACC_NR ∧ 0 ≤ acc_length (accessors s i)).
  { intros i Hi. split; [by apply live_range with (s := s), Hll|]. by destruct (i_acc _ _ _ _ Hb i (Hll i Hi)) as (b & _ & _ & _ & ? & _). }
  unfold bf_delhead. bufx_step. destruct (delhead_loop s la acc_fuel a off) as (l1 & i & l2 & El & Eloop & Hi); [done|done|lia|done|].
  eapply wp_wpx, wp_eq; [exact Eloop|]. cbv beta iota. apply wp_ret. set (o := off - sum_len s l1) in *.
  bufx_step. eapply wpx_mono; [apply (drop_front own s a i l1 l2); [done|by rewrite <- El]|]. cbn beta. intros _ s1 (B1 & B2 & B3 & B3' & B4).
  bufx_step. eapply wpx_mono; [apply bf_own_wp; [exact B1|apply not_elem_of_nil|by intros t ?%elem_of_nil|exact B3]|]. cbn beta.
  intros h s2 (C1 & _ & C2 & C3 & C3' & C4 & C5 & _). rewrite B3' in C3'. pose proof (live_range _ _ (own_live _ _ _ _ h C1 ltac:(left))) as Hhr. do 5 bufx_step.
  destruct (head_cut own s2 h (concat (map (part s) (i :: l2))) o C1 C4 (ex_intro _ (h :: l2) (conj C3 (f_equal (@concat _) C3')))) as (D1 & D2 & D3); [lia|]. split; [exact D1|].
  split; [eapply kept_chain_trans; [exact B2|]; eapply kept_chain_trans; [exact C2|exact D2]|]. rewrite El, (drop_parts _ s l1 i l2 off Hb) by (first [by rewrite <- El|unfold o in *; lia]). fold o.
  cbn [map concat] in D3. rewrite drop_app_le in D3; [exact D3|]. pose proof (part_length _ _ _ i Hb ltac:(apply Hll; rewrite El; apply elem_of_app; right; left)). lia.
Qed.
End head.

(** ** The first chain of [bf_append] *)

Section own.
Context {W : Type} `{ClientLaws W}.
Implicit Types (s : bfst W) (own st : list Z).
Abbreviation binv := (binv held).
Abbreviation roots := (roots held).
Abbreviation avoids own st s n := (all_of own st s (λ i, i ≠ n)).

Lemma same_parts own st s s' r l : kept own st s s' → r ∈ own → chain (nx st s) (Some r) l → map (part s') l = map (part s) l.
Proof. intros Hk Hr Hl. apply map_ext_in. intros i Hi%list_elem_of_In. by destruct (Hk r l i Hr Hl Hi) as (_ & _ & _ & _ & ?). Qed.
Lemma opt_chain_in p own st s l (P : Z → Prop) : all_of (opt p ++ own) st s P → chain (nx st s) p l → ∀ i, i ∈ l → P i.
Proof. destruct p as [a|]; [|by intros _ ->%chain_None i ?%elem_of_nil]. intros Ha Hl i Hi. eapply Ha; [left|done|done]. Qed.
Lemma kept_opt own st s s' p l : kept (opt p ++ own) st s s' → chain (nx st s) p l → chain (nx st s') p l ∧ map (part s') l = map (part s) l.
Proof.
  destruct p as [a|]; [|intros _ ->%chain_None; by cbn]. intros Hk Hl. split; [eapply kept_chain; [done|left|done]|eapply same_parts; [done|left|done]].
Qed.
Lemma same_list s s' l : (∀ i, i ∈ l → same s s' i) → map (part s') l = map (part s) l.
Proof. intros Hs. apply map_ext_in. intros i Hi%list_elem_of_In. by destruct (Hs i Hi) as (_ & _ & _ & _ & ?). Qed.

(** A private accessor is taken out of its chain and freed. *)
Lemma drop_curr own st s c lr : binv (c :: own) st s → acc_linkC (accessors s c) = 1 → c ∉ st → (∀ t, t ∈ st → reached own st s t) → chain (nx st s) (Some c) (c :: lr) →
  wp (set_next c None) (λ _, wp (bf_afree (Some c)) (λ _ s', binv (opt (acc_next (accessors s c)) ++ own) st s' ∧ untouched (opt (acc_next (accessors s c)) ++ own) st s s')) s.
Proof.
  intros Hb H1 Hc Hst Hl. set (p := acc_next (accessors s c)). pose proof (live_range _ _ (own_live _ _ _ _ c Hb ltac:(left))) as Hcr.
  do 4 buf_step. set (s1 := sa c _ s).
  assert (B1 : binv (opt p ++ c :: own) (c :: st) s) by (apply unlink; [done| |done]; exists c, (c :: lr); split_and!; [left|done|left]).
  assert (B2 : binv (c :: opt p ++ own) st s1).
  { eapply binv_perm; [apply (relink_step held (opt p ++ c :: own) st s c None); [exact B1|done|]|symmetry; apply Permutation_middle].
    intros l Hl'. apply chain_None in Hl' as ->. apply not_elem_of_nil. }
  assert (Hav : avoids (opt p ++ own) st s c).
  { intros r l i [Hr|Hr]%elem_of_app Hlr Hi; [|by eapply (sole_avoids own st s c Hb H1)]. destruct p as [n|] eqn:Ep; [|by apply elem_of_nil in Hr].
    apply list_elem_of_singleton in Hr as ->. apply chain_tail in Hl as Hl'; [|done]. destruct Hl' as [_ Hl']. fold p in Hl'. rewrite Ep in Hl'.
    rewrite (chain_det _ _ _ _ Hlr Hl') in Hi. apply chain_NoDup in Hl. apply NoDup_cons in Hl as [Hn _]. by intros ->. }
  assert (U1 : untouched (opt p ++ own) st s s1).
  { intros r l i Hr Hlr Hi. pose proof (Hav r l i Hr Hlr Hi) as Hne. cbn in Hne. unfold same, lower, part, s1. rewrite !sa_ne by done. done. }
  eapply wp_mono; [apply afree_wp; [exact B2|]|].
  { intros t Ht. eapply kept_reached; [by apply untouched_kept|]. destruct (Hst t Ht) as (r & l & Hr & Hx). exists r, l. split; [apply elem_of_app; by right|done]. }
  cbn beta. intros _ s2 (J1 & J2 & _). split; [done|]. by eapply untouched_trans.
Qed.

(** A packet [lh] whose last link is still to be set, and the chain [l] to come. *)
Record joined own s (h : Z) (lh : list Z) (t : Z) (p : option Z) (l : list Z) : Prop := Joined {
  jn_inv : binv (opt p ++ h :: own) [t] s;
  jn_head : chain (nx [t] s) (Some h) lh;
  jn_last : last lh = Some t;
  jn_one : ∀ i, i ∈ lh → acc_linkC (accessors s i) = 1;
  jn_rest : chain (nx [t] s) p l
}.
Lemma joined_tail own s h lh t p l : joined own s h lh t p l → t ∈ lh.
Proof. intros [_ _ Hl _ _]. apply last_Some in Hl as [l' ->]. apply elem_of_app. right. left. Qed.
Lemma joined_head own s h lh t p l : joined own s h lh t p l → binv (h :: opt p ++ own) [t] s.
Proof. intros J. eapply binv_perm; [exact (jn_inv _ _ _ _ _ _ _ J)|symmetry; apply Permutation_middle]. Qed.
Lemma joined_apart own s h lh t p l r lr : joined own s h lh t p l → r ∈ opt p ++ own → chain (nx [t] s) (Some r) lr → ∀ i, i ∈ lh → i ∉ lr.
Proof.
  intros J Hr Hl. eapply (private_apart (opt p ++ own) [t] s h); [by eapply joined_head|by apply J|by apply J| |done]. apply elem_of_app. by left.
Qed.
Lemma joined_rest own s h lh t p l : joined own s h lh t p l → ∀ i, i ∈ lh → i ∉ l.
Proof.
  intros J i Hi. pose proof (jn_rest _ _ _ _ _ _ _ J) as Hl. destruct p as [a|]; [|apply chain_None in Hl as ->; apply not_elem_of_nil].
  eapply joined_apart; [done|left|done|done].
Qed.
Lemma joined_avoids own s h lh t p l : joined own s h lh t p l → avoids own [] s t.
Proof.
  intros J r lr i Hr. eapply (stale_avoids (opt p ++ own) s h t lh); [by eapply joined_head|by apply J|by apply J|by eapply joined_tail|].
  apply elem_of_app. by right.
Qed.

(** A chain up to an accessor whose link becomes stale, and from there on. *)
Lemma chain_stop st s p l1 c l2 : c ∉ st → chain (nx st s) p (l1 ++ c :: l2) →
  chain (nx (c :: st) s) p (l1 ++ [c]) ∧ chain (nx (c :: st) s) (acc_next (accessors s c)) l2.
Proof.
  intros Hc Hl. pose proof (chain_NoDup _ _ _ Hl) as Hd. apply NoDup_app in Hd as (_ & Hd1 & Hd2). apply NoDup_cons in Hd2 as [Hd2 _].
  assert (E : ∀ i, i ≠ c → nx (c :: st) s i = nx st s i) by (intros i Hi; apply nx_ext; [rewrite elem_of_cons; tauto|done]).
  apply lseg_app in Hl as (m & X1 & X2). apply chain_tail in X2 as [-> X2]; [|done]. split.
  - apply lseg_app. exists (Some c). split; [|split; [done|apply nx_stale; left]]. eapply lseg_ext; [|exact X1]. intros i Hi. apply E. intros ->. apply (Hd1 _ Hi). left.
  - eapply lseg_ext; [|exact X2]. intros i Hi. apply E. by intros ->.
Qed.
(** The last accessor of a chain gets a link to another chain. *)
Lemma chain_attach s p lh t c lr : chain (nx [t] s) p lh → last lh = Some t → chain (nx [t] s) (Some c) (c :: lr) → t ∉ c :: lr →
  chain (nx [] (sa t ((accessors s t) <| acc_next := Some c |>) s)) p (lh ++ c :: lr).
Proof.
  intros Hh Hl Hc Ht. apply last_Some in Hl as [l1 ->]. pose proof (chain_NoDup _ _ _ Hh) as Hd. apply NoDup_app in Hd as (_ & Hd & _).
  apply lseg_app in Hh as (m & X1 & -> & _). rewrite <- app_assoc. apply lseg_app. exists (Some t).
  assert (E : ∀ i, i ≠ t → nx [] (sa t ((accessors s t) <| acc_next := Some c |>) s) i = nx [t] s i).
  { intros i Hi. apply nx_ext; [rewrite list_elem_of_singleton, elem_of_nil; tauto|by rewrite sa_ne]. }
  split; [eapply lseg_ext; [|exact X1]; intros i Hi; apply E; intros ->; apply (Hd _ Hi); left|].
  split; [done|]. cbn [app]. rewrite nx_plain, sa_at by apply not_elem_of_nil. eapply lseg_ext; [|exact Hc]. intros i Hi. apply E. by intros ->.
Qed.
Lemma join_curr own s h lh t c lr : joined own s h lh t (Some c) (c :: lr) → acc_linkC (accessors s c) = 1 →
  joined own (sa t ((accessors s t) <| acc_next := Some c |>) s) h (lh ++ [c]) c (acc_next (accessors s c)) lr.
Proof.
  intros J H1. pose proof J as [J1 J2 J3 J4 J5]. assert (Ht : t ∉ c :: lr) by by eapply joined_rest, joined_tail.
  assert (Hct : c ≠ t) by (intros ->; apply Ht; left). set (s' := sa t _ s).
  assert (B1 : binv (h :: own) [] s').
  { apply (relink_step held (h :: own) [] s t (Some c)); [exact J1|apply not_elem_of_nil|]. intros l Hl. by rewrite (chain_det _ _ _ _ Hl J5). }
  pose proof (chain_attach s (Some h) lh t c lr J2 J3 J5 Ht) as Hc. fold s' in Hc. assert (Ec : accessors s' c = accessors s c) by by apply sa_ne. rewrite <- Ec.
  destruct (chain_stop [] s' (Some h) lh c lr) as [X1 X2]; [apply not_elem_of_nil|done|]. split; try done.
  - apply unlink; [done| |apply not_elem_of_nil]. exists h, (lh ++ c :: lr). split; [left|]. split; [done|]. apply elem_of_app. right. left.
  - by rewrite last_snoc.
  - intros i [Hi| ->%list_elem_of_singleton]%elem_of_app; [|by rewrite Ec]. rewrite <- (J4 i Hi). unfold s'. destruct (decide (i = t)) as [->|]; [by rewrite sa_at|by rewrite sa_ne].
Qed.

(** The loop: [v] is the contents, [l] what is to be done. *)
Definition own_inv own s (v l : list Z) (x : option Z * option Z * option Z) s' : Prop :=
  kept own [] s s' ∧
  match x with
  | (p, None, None) => binv (opt p ++ own) [] s' ∧ chain (nx [] s') p l ∧ concat (map (part s') l) = v
  | (p, Some h, Some t) => ∃ lh, joined own s' h lh t p l ∧ concat (map (part s') lh) ++ concat (map (part s') l) = v
  | _ => False
  end.
Lemma empty_part own st s i : binv own st s → live s i → acc_length (accessors s i) = 0 → part s i = [].
Proof. intros Hb Hi E. pose proof (part_length _ _ _ _ Hb Hi). apply nil_length_inv. lia. Qed.

Lemma own_first own s v d l s' : own_inv own s v (d :: l) (Some d, None, None) s' →
  wpx out (own_step (Some d, None, None)) (λ r s'', match r with inl x' => ∃ l', (length l' < length (d :: l))%nat ∧ own_inv own s v l' x' s'' | inr _ => False end) s'.
Proof.
  intros (Hk & Hb & Hl & Hv). unfold own_step. bufx_step. eapply wpx_mono; [apply (bf_own_wp own [] s' d l); [done|apply not_elem_of_nil|by intros t ?%elem_of_nil|done]|].
  cbn beta. intros c s1 (B1 & _ & B2 & B3 & B4 & B5 & _ & _). pose proof (own_live _ _ _ _ c B1 ltac:(left)) as Hcl. pose proof (live_range _ _ Hcl) as Hcr.
  pose proof (kept_chain_trans _ _ _ _ _ Hk B2) as Hk1. bufx_step. bufx_step. bufx_step.
  - bufx_step. apply wp_wpx. eapply wp_mono; [apply (drop_curr own [] s1 c l); [done|done|apply not_elem_of_nil|by intros t ?%elem_of_nil|done]|]. cbn beta.
    intros _ s2' Hw. bufx_step. apply wp_wpx. eapply wp_mono; [exact Hw|]. cbn beta. intros _ s2 (C1 & C2%untouched_kept). bufx_step. exists l. split; [cbn; lia|]. split; [eapply kept_chain_trans; [exact Hk1|]; eapply kept_sub; [|exact C2]; intros r Hr; apply elem_of_app; by right|].
    split; [done|]. apply plain_tail in B3 as [_ B3]. destruct (kept_opt _ _ _ _ _ _ C2 B3) as [D1 D2]. split; [done|]. rewrite D2. rewrite <- B4 in Hv. cbn [map concat] in Hv.
    by rewrite (empty_part _ _ _ c B1 Hcl) in Hv by lia.
  - bufx_step. bufx_step. bufx_step. exists l. split; [cbn; lia|]. split; [done|]. destruct (chain_stop [] s1 (Some c) [] c l) as [X1 X2]; [apply not_elem_of_nil|done|]. exists [c]. split; [split|].
    + apply unlink; [done| |apply not_elem_of_nil]. exists c, (c :: l). split_and!; [left|done|left].
    + done.
    + done.
    + by intros i ->%list_elem_of_singleton.
    + done.
    + rewrite <- B4 in Hv. cbn [map concat] in *. by rewrite app_nil_r.
Qed.

Lemma joined_kept own s s' h lh t p l : joined own s h lh t p l → kept own [t] s s' → kept own [] s s'.
Proof. intros J. apply (stale_all own [] s t). by eapply joined_avoids. Qed.
Lemma part_next s a p i : part (sa a ((accessors s a) <| acc_next := p |>) s) i = part s i.
Proof. unfold part, data_of. destruct (decide (i = a)) as [->|]; [by rewrite sa_at|by rewrite sa_ne]. Qed.
(** A joined packet in a state where its chains are kept. *)
Lemma joined_move own s s' h lh t p l p' l' : joined own s h lh t p l → kept (h :: own) [t] s s' → binv (opt p' ++ h :: own) [t] s' →
  (∀ i, i ∈ lh → acc_linkC (accessors s' i) ≤ acc_linkC (accessors s i)) → chain (nx [t] s') p' l' → joined own s' h lh t p' l' ∧ map (part s') lh = map (part s) lh.
Proof.
  intros [J1 J2 J3 J4 J5] Hk Hb Hle Hl. pose proof (kept_chain _ _ _ _ _ _ Hk ltac:(left) J2) as X2.
  split; [split; try done|eapply same_parts; [done|left|done]]. intros i Hi. apply Z.le_antisymm; [rewrite <- (J4 i Hi); by apply Hle|].
  assert (live s' i) as [_ ?]; [|lia]. eapply (all_live _ _ _ Hb h); [apply elem_of_app; right; left|done|done].
Qed.

Lemma own_next own s v d l h t s' : own_inv own s v (d :: l) (Some d, Some h, Some t) s' →
  wpx out (own_step (Some d, Some h, Some t)) (λ r s'', match r with inl x' => ∃ l', (length l' < length (d :: l))%nat ∧ own_inv own s v l' x' s'' | inr _ => False end) s'.
Proof.
  intros (Hk & lh & J & Hv). pose proof J as [J1 J2 J3 J4 J5]. pose proof (joined_tail _ _ _ _ _ _ _ J) as Htl.
  assert (Hd : d ∉ [t]) by (intros ->%list_elem_of_singleton; eapply joined_rest; [exact J|exact Htl|left]).
  unfold own_step. bufx_step. eapply wpx_mono; [apply (bf_own_wp (h :: own) [t] s' d l); [done|done|intros i ->%list_elem_of_singleton; exists h, lh; split_and!; [left|done|done]|done]|].
  cbn beta. intros c s1 (B1 & Hct & B2 & B3 & B4 & B5 & _ & B6). pose proof (own_live _ _ _ _ c B1 ltac:(left)) as Hcl. pose proof (live_range _ _ Hcl) as Hcr.
  destruct (joined_move own s' s1 h lh t (Some d) (d :: l) (Some c) (c :: l) J) as [K1 K2]; [done|done| |done|].
  { intros i Hi. apply (B6 h lh i); [left|done|done|]. intros E. apply (joined_rest _ _ _ _ _ _ _ J i Hi). right.
    apply chain_tail in J5 as [_ J5]; [|done]. rewrite <- E in J5. destruct (chain_Some _ _ _ J5) as (l3 & -> & _). left. }
  assert (Hk1 : kept own [] s s1) by (eapply kept_chain_trans; [exact Hk|]; eapply joined_kept; [exact J|]; eapply kept_sub; [|exact B2]; by right).
  rewrite <- B4, <- K2 in Hv. cbn [map concat] in Hv. bufx_step. bufx_step. bufx_step.
  - bufx_step. apply wp_wpx. eapply wp_mono; [apply (drop_curr (h :: own) [t] s1 c l); [done|done|done| |done]|].
    { intros i ->%list_elem_of_singleton. exists h, lh. split_and!; [left|apply K1|done]. }
    cbn beta. intros _ s2' Hw. bufx_step. apply wp_wpx. eapply wp_mono; [exact Hw|]. cbn beta. intros _ s2 (C1 & U2). bufx_step. exists l. split; [cbn; lia|].
    pose proof (untouched_kept _ _ _ _ U2) as C2. apply chain_tail in B3 as [_ B3]; [|done]. destruct (kept_opt _ _ _ _ _ _ C2 B3) as [D1 D2].
    destruct (joined_move own s1 s2 h lh t (Some c) (c :: l) (acc_next (accessors s1 c)) l K1) as [L1 L2]; [eapply kept_sub; [|exact C2]; intros r Hr; apply elem_of_app; by right|done| |done|].
    { intros i Hi. apply (U2 h lh i); [apply elem_of_app; right; left|apply K1|done]. }
    split; [eapply kept_chain_trans; [exact Hk1|]; eapply joined_kept; [exact K1|]; eapply kept_sub; [|exact C2]; intros r Hr; apply elem_of_app; right; by right|].
    exists lh. split; [done|]. rewrite L2, D2. by rewrite (empty_part _ _ _ c B1 Hcl) in Hv by lia.
  - pose proof (live_range _ _ (all_live _ _ _ (jn_inv _ _ _ _ _ _ _ K1) h lh t ltac:(apply elem_of_app; right; left) ltac:(apply K1) Htl)) as Htr.
    bufx_step. bufx_step. bufx_step. bufx_step. bufx_step. bufx_step. bufx_step. exists l. split; [cbn; lia|].
    split; [eapply kept_chain_trans; [exact Hk1|]; apply sa_kept; by eapply joined_avoids|]. exists (lh ++ [c]). split; [by apply join_curr|].
    rewrite (map_ext _ _ (part_next s1 t (Some c))), (map_ext _ _ (part_next s1 t (Some c)) l), map_app, concat_app. cbn [map concat]. by rewrite app_nil_r, <- app_assoc.
Qed.

(** What the loop leaves. *)
Definition own_result own s (v : list Z) (x : option Z * option Z) s' : Prop :=
  match x with
  | (None, None) => v = [] ∧ binv own [] s' ∧ kept own [] s s'
  | (Some h, Some t) => ∃ lh, joined own s' h lh t None [] ∧ kept own [] s s' ∧ concat (map (part s') lh) = v
  | _ => False
  end.
Lemma own_loop_wp own s a v : binv (a :: own) [] s → cont [] s (Some a) v → wpx out (loop acc_fuel own_step (Some a, None, None)) (own_result own s v) s.
Proof.
  intros Hb (la & Hla & Hv). destruct (chain_fuel (a :: own) s (Some a) la Hb) as (_ & _ & Hf & _); [intros ? [= <-]; eapply own_live; [exact Hb|left]|done|].
  eapply (wpx_loop_ghost out length (own_inv own s v)); [|split; [apply kept_refl|done]|exact Hf].
  intros l [[p head] tail] s' HI. destruct p as [d|].
  - assert (∃ l', l = d :: l') as [l' ->].
    { destruct HI as [_ HI]. destruct head as [h|], tail as [t|]; try done; [destruct HI as (lh & J & _); pose proof (jn_rest _ _ _ _ _ _ _ J) as Hc|destruct HI as (_ & Hc & _)];
        destruct (chain_Some _ _ _ Hc) as (l' & -> & _); by exists l'. }
    destruct head as [h|], tail as [t|]; try by destruct HI.
    + eapply wpx_mono; [by apply own_next|]. by intros [x'|r] s''.
    + eapply wpx_mono; [by apply own_first|]. by intros [x'|r] s''.
  - cbn. bufx_step. destruct HI as [Hk HI]. destruct head as [h|], tail as [t|]; try done.
    + destruct HI as (lh & J & E). pose proof (jn_rest _ _ _ _ _ _ _ J) as ->%chain_None. exists lh. split; [done|]. split; [done|]. cbn in E. by rewrite app_nil_r in E.
    + destruct HI as (B & ->%chain_None & E). by split.
Qed.
End own.

(** ** Appending packets *)

Section app.
Context {W : Type} `{ClientLaws W}.
Implicit Types (s : bfst W) (own st : list Z).
Abbreviation binv := (binv held).
Abbreviation roots := (roots held).
Abbreviation avoids own st s n := (all_of own st s (λ i, i ≠ n)).

(** A private packet [lh], and a chain [l] that comes after it. *)
Record two own s (h : Z) (lh : list Z) (t : Z) (p : option Z) (l : list Z) : Prop := Two {
  tw_inv : binv (opt p ++ h :: own) [] s;
  tw_head : chain (nx [] s) (Some h) lh;
  tw_last : last lh = Some t;
  tw_one : ∀ i, i ∈ lh → acc_linkC (accessors s i) = 1;
  tw_rest : chain (nx [] s) p l
}.
Lemma two_tail own s h lh t p l : two own s h lh t p l → t ∈ lh.
Proof. intros [_ _ Hl _ _]. apply last_Some in Hl as [l' ->]. apply elem_of_app. right. left. Qed.
Lemma two_apart own s h lh t p l r lr : two own s h lh t p l → r ∈ opt p ++ own → chain (nx [] s) (Some r) lr → ∀ i, i ∈ lh → i ∉ lr.
Proof.
  intros T Hr Hl. eapply (private_apart (opt p ++ own) [] s h); [|by apply T|by apply T| |done].
  - eapply binv_perm; [exact (tw_inv _ _ _ _ _ _ _ T)|symmetry; apply Permutation_middle].
  - apply elem_of_app. by left.
Qed.
Lemma two_rest own s h lh t p l : two own s h lh t p l → ∀ i, i ∈ lh → i ∉ l.
Proof.
  intros T i Hi. pose proof (tw_rest _ _ _ _ _ _ _ T) as Hl. destruct p as [a|]; [|apply chain_None in Hl as ->; apply not_elem_of_nil].
  eapply two_apart; [done|left|done|done].
Qed.
Lemma two_avoids own s h lh t p l i : two own s h lh t p l → i ∈ lh → avoids own [] s i.
Proof. intros T Hi r lr j Hr Hl Hj ->. eapply (two_apart _ _ _ _ _ _ _ r lr T); [apply elem_of_app; by right|done..]. Qed.
Lemma two_live own s h lh t p l i : two own s h lh t p l → i ∈ lh ++ l → live s i.
Proof.
  intros T [Hi|Hi]%elem_of_app; [eapply (all_live _ _ _ (tw_inv _ _ _ _ _ _ _ T) h); [apply elem_of_app; right; left|by apply T|done]|].
  pose proof (tw_rest _ _ _ _ _ _ _ T) as Hl. destruct p as [a|]; [|apply chain_None in Hl as ->; by apply elem_of_nil in Hi].
  eapply (all_live _ _ _ (tw_inv _ _ _ _ _ _ _ T) a); [left|done|done].
Qed.
Lemma two_move own own' s s' h lh t p l p' l' : two own s h lh t p l → kept (h :: own) [] s s' → binv (opt p' ++ h :: own') [] s' →
  (∀ i, i ∈ lh → acc_linkC (accessors s' i) ≤ acc_linkC (accessors s i)) → chain (nx [] s') p' l' → two own' s' h lh t p' l' ∧ map (part s') lh = map (part s) lh.
Proof.
  intros [J1 J2 J3 J4 J5] Hk Hb Hle Hl. pose proof (kept_chain _ _ _ _ _ _ Hk ltac:(left) J2) as X2.
  split; [split; try done|eapply same_parts; [done|left|done]]. intros i Hi. apply Z.le_antisymm; [rewrite <- (J4 i Hi); by apply Hle|].
  assert (live s' i) as [_ ?]; [|lia]. eapply (all_live _ _ _ Hb h); [apply elem_of_app; right; left|done|done].
Qed.

(** *** A reference more *)

Definition linked (p : option Z) s : bfst W := match p with None => s | Some n => sa n ((accessors s n) <| acc_linkC := acc_linkC (accessors s n) + 1 |>) s end.
Lemma link_opt_wp p s : (∀ n, p = Some n → 0 ≤ n < ACC_NR) → wp (link_opt p) (λ _ s', s' = linked p s) s.
Proof. intros Hp. destruct p as [n|]; cbn; [|by apply wp_ret]. specialize (Hp n eq_refl). do 4 buf_step. done. Qed.
Lemma linked_binv own s p : binv own [] s → (∀ n, p = Some n → live s n) → binv (opt p ++ own) [] (linked p s).
Proof. intros Hb Hp. destruct p as [n|]; [|done]. by apply one_more, Hp. Qed.
Lemma linked_same p s i : same s (linked p s) i ∧ part (linked p s) i = part s i ∧ (p ≠ Some i → accessors (linked p s) i = accessors s i).
Proof.
  destruct p as [n|]; [|by split_and!]. unfold same, part, data_of, linked. cbn [linked].
  destruct (decide (i = n)) as [->|]; [rewrite sa_at|rewrite sa_ne by done]; by split_and!.
Qed.
Lemma linked_kept own st p s : kept own st s (linked p s).
Proof. intros r l i _ _ _. apply linked_same. Qed.
Lemma live_next own s c lr : binv (c :: own) [] s → chain (nx [] s) (Some c) (c :: lr) → ∀ n, acc_next (accessors s c) = Some n → live s n ∧ n ∈ lr.
Proof.
  intros Hb Hl n E. apply plain_tail in Hl as Hl'. destruct Hl' as [_ Hl']. rewrite E in Hl'. destruct (chain_Some _ _ _ Hl') as (l' & -> & _).
  split; [|left]. eapply (all_live _ _ _ Hb c); [left|exact Hl|right; left].
Qed.

(** Of a packet without its first accessor, the rest is kept. *)
Lemma next_only own s c lr : binv (c :: own) [] s → chain (nx [] s) (Some c) (c :: lr) →
  wp (link_opt (acc_next (accessors s c))) (λ _, wp (bf_afree (Some c)) (λ _ s', binv (opt (acc_next (accessors s c)) ++ own) [] s' ∧
    kept (opt (acc_next (accessors s c)) ++ own) [] s s' ∧
    all_of own [] s (λ i, Some i ≠ acc_next (accessors s c) → acc_linkC (accessors s' i) ≤ acc_linkC (accessors s i)))) s.
Proof.
  intros Hb Hl. set (p := acc_next (accessors s c)). pose proof (live_next _ _ _ _ Hb Hl) as Hn. fold p in Hn.
  eapply wp_mono; [apply link_opt_wp; intros n E; apply live_range with (s := s), (Hn n E)|]. cbn beta. intros _ s1 ->.
  assert (B1 : binv (c :: opt p ++ own) [] (linked p s)).
  { eapply binv_perm; [apply (linked_binv (c :: own)); [done|intros n E; apply (Hn n E)]|symmetry; apply Permutation_middle]. }
  eapply wp_mono; [apply afree_wp; [exact B1|by intros t ?%elem_of_nil]|]. cbn beta. intros _ s2 (J1 & J2 & _). split; [done|].
  split; [eapply kept_chain_trans; [apply linked_kept|by apply untouched_kept]|]. intros r l i Hr Hlr Hi Hne.
  pose proof (kept_chain _ _ _ _ _ _ (linked_kept own [] p s) Hr Hlr) as Hlr1. destruct (J2 r l i) as [_ [L _]]; [apply elem_of_app; by right|done|done|].
  rewrite (proj2 (proj2 (linked_same p s i))) in L by congruence. done.
Qed.
Lemma two_next own s h lh t c l : two own s h lh t (Some c) (c :: l) →
  wp (link_opt (acc_next (accessors s c))) (λ _, wp (bf_afree (Some c)) (λ _ s', two own s' h lh t (acc_next (accessors s c)) l ∧
    kept own [] s s' ∧ map (part s') lh = map (part s) lh ∧ map (part s') l = map (part s) l)) s.
Proof.
  intros T. pose proof T as [T1 T2 T3 T4 T5]. eapply wp_mono; [by apply (next_only (h :: own) s c l)|]. cbn beta. intros _ s1 Hw.
  eapply wp_mono; [exact Hw|]. cbn beta. intros _ s2 (B & K & L). apply plain_tail in T5 as T5'. destruct T5' as [_ Hl].
  destruct (kept_opt _ _ _ _ _ _ K Hl) as [D1 D2].
  destruct (two_move own own s s2 h lh t (Some c) (c :: l) (acc_next (accessors s c)) l T) as [X1 X2]; [|done| |done|].
  - eapply kept_sub; [|exact K]. intros r Hr. apply elem_of_app. by right.
  - intros i Hi. apply (L h lh i); [left|done|done|]. intros E. apply (two_rest _ _ _ _ _ _ _ T i Hi). right.
    rewrite <- E in Hl. destruct (chain_Some _ _ _ Hl) as (l3 & -> & _). left.
  - split; [done|]. split; [|done]. eapply kept_sub; [|exact K]. intros r Hr. apply elem_of_app. right. by right.
Qed.

(** *** Empty accessors at the head of the second packet *)

Definition strip_inv own s (h : Z) (lh : list Z) (t : Z) (v1 v2 l : list Z) (p : option Z) s' : Prop :=
  two own s' h lh t p l ∧ kept own [] s s' ∧ concat (map (part s') lh) = v1 ∧ concat (map (part s') l) = v2.
Lemma strip_loop own s h lh t v1 v2 l p s' : strip_inv own s h lh t v1 v2 l p s' → (length l < acc_fuel)%nat →
  wpx out (loop acc_fuel strip_step p) (λ p' s'', ∃ l', strip_inv own s h lh t v1 v2 l' p' s'' ∧ match p' with Some d => acc_length (accessors s'' d) ≠ 0 | None => True end) s'.
Proof.
  intros HI Hf. eapply (wpx_loop_ghost out length (strip_inv own s h lh t v1 v2)); [|exact HI|exact Hf].
  intros l1 p1 s1 HI1. destruct p1 as [c|]; [|cbn; bufx_step; by exists l1]. pose proof HI1 as (T & K & E1 & E2).
  pose proof (tw_rest _ _ _ _ _ _ _ T) as Hl. destruct (chain_Some _ _ _ Hl) as (l2 & -> & _).
  assert (Hc : live s1 c) by (eapply two_live; [exact T|]; apply elem_of_app; right; left). pose proof (live_range _ _ Hc) as Hcr.
  unfold strip_step. bufx_step. bufx_step. bufx_step; [|bufx_step; exists (c :: l2); split; [done|lia]].
  bufx_step. apply wp_wpx. eapply wp_mono; [by apply two_next|]. cbn beta. intros _ s2 Hw. bufx_step. apply wp_wpx. eapply wp_mono; [exact Hw|]. cbn beta.
  intros _ s3 (T3 & K3 & P1 & P2). bufx_step. exists l2. split; [cbn; lia|]. split; [done|]. split; [by eapply kept_chain_trans|]. rewrite P1, P2. split; [done|].
  rewrite <- E2. cbn [map concat]. by rewrite (empty_part _ _ _ c (tw_inv _ _ _ _ _ _ _ T) Hc) by lia.
Qed.

(** *** The rest of the second packet goes to the first *)

Lemma link_rest own s h lh t d l p : two own s h lh t (Some d) (d :: l) → p = acc_next (accessors s d) →
  let s' := sa t ((accessors (linked p s) t) <| acc_next := p |>) (linked p s) in binv (d :: h :: own) [] s' ∧ chain (nx [] s') (Some h) (lh ++ l).
Proof.
  intros T Ep s'. pose proof T as [T1 T2 T3 T4 T5]. pose proof (live_next _ _ _ _ T1 T5) as Hn. rewrite <- Ep in Hn.
  apply plain_tail in T5 as T5'. destruct T5' as [_ Hl]. rewrite <- Ep in Hl.
  assert (Htl : t ∉ l) by (intros Hin; eapply two_rest; [exact T|by eapply two_tail|by right]).
  pose proof (linked_binv _ _ p T1 ltac:(intros n E; apply (Hn n E))) as B1. pose proof (linked_kept [h] [] p s) as K. pose proof (kept_chain _ _ _ _ _ _ K ltac:(left) T2) as X2.
  destruct p as [n|].
  - destruct (append_link (d :: own) (linked (Some n) s) h n t lh l) as [X1 X3]; try done.
    + eapply binv_perm; [exact B1|]. cbn. do 2 constructor.
    + eapply kept_chain; [apply (linked_kept [n])|left|done].
    + split; [|done]. eapply binv_perm; [exact X1|constructor].
  - apply chain_None in Hl as ->. rewrite app_nil_r. split.
    + apply (relink_step held (d :: h :: own) [] s t None); [|apply not_elem_of_nil|intros l' Hl'; apply chain_None in Hl' as ->; apply not_elem_of_nil].
      pose proof (chain_last _ _ _ _ T2 T3) as E. rewrite nx_plain in E by apply not_elem_of_nil.
      rewrite <- E. apply unlink; [done| |apply not_elem_of_nil]. exists h, lh. split; [right; left|]. split; [done|by eapply two_tail].
    + eapply lseg_ext; [|exact T2]. intros i Hi. unfold s'. destruct (decide (i = t)) as [->|]; [|by apply nx_sa_ne].
      rewrite !nx_plain, sa_at by apply not_elem_of_nil. cbn. pose proof (chain_last _ _ _ _ T2 T3) as E. by rewrite nx_plain in E by apply not_elem_of_nil.
Qed.
Lemma take_rest_wp own s h lh t d l : two own s h lh t (Some d) (d :: l) →
  wp (take_rest t d) (λ _ s', binv (h :: own) [] s' ∧ kept own [] s s' ∧ chain (nx [] s') (Some h) (lh ++ l) ∧ map (part s') (lh ++ l) = map (part s) (lh ++ l)) s.
Proof.
  intros T. pose proof (two_tail _ _ _ _ _ _ _ T) as Ht. pose proof (live_range _ _ (two_live _ _ _ _ _ _ _ t T ltac:(apply elem_of_app; by left))) as Htr.
  assert (Hd : live s d) by (eapply two_live; [exact T|apply elem_of_app; right; left]). pose proof (live_range _ _ Hd) as Hdr.
  pose proof (live_next _ _ _ _ (tw_inv _ _ _ _ _ _ _ T) (tw_rest _ _ _ _ _ _ _ T)) as Hn.
  unfold take_rest. do 7 buf_step. set (p := acc_next (accessors s d)) in *. set (sA := sa t _ s). buf_step.
  eapply wp_mono; [apply link_opt_wp; intros n E; apply live_range with (s := s), (Hn n E)|]. cbn beta. intros _ sB ->.
  assert (Htn : p ≠ Some t) by (intros E; eapply two_rest; [exact T|exact Ht|right; apply (Hn t E)]).
  destruct (link_rest own s h lh t d l p T eq_refl) as [B C]. set (s1 := sa t _ (linked p s)) in B, C.
  assert (E1 : ∀ i, accessors (linked p sA) i = accessors s1 i).
  { intros i. unfold s1, sA. destruct (decide (i = t)) as [->|Hit].
    - rewrite sa_at, (proj2 (proj2 (linked_same p _ t))), sa_at by done. by rewrite (proj2 (proj2 (linked_same p s t))).
    - rewrite (sa_ne _ _ _ i) by done. unfold linked. destruct p as [n|]; [|by rewrite sa_ne]. destruct (decide (i = n)) as [->|]; [by rewrite !sa_at, sa_ne|by rewrite !sa_ne]. }
  assert (E2 : buffers512 (linked p sA) = buffers512 s ∧ buffers512 s1 = buffers512 s) by (by destruct p).
  assert (Es : ∀ i, part (linked p sA) i = part s i ∧ nx [] (linked p sA) i = nx [] s1 i).
  { intros i. split; [|apply nx_ext; [done|by rewrite E1]]. rewrite (proj1 (proj2 (linked_same p sA i))). apply part_next. }
  assert (B' : binv (d :: h :: own) [] (linked p sA)).
  { eapply binv_ext; [exact B|done|done|done|..]; try by destruct p. }
  assert (C' : chain (nx [] (linked p sA)) (Some h) (lh ++ l)) by (eapply lseg_ext; [|exact C]; intros i _; apply Es).
  eapply wp_mono; [apply afree_wp; [exact B'|by intros q ?%elem_of_nil]|]. cbn beta. intros _ s3 (J1 & J2%untouched_kept & _). split; [done|]. split_and!.
  - eapply kept_chain_trans; [apply (sa_kept own [] s t); by eapply two_avoids|]. fold sA. eapply kept_chain_trans; [apply (linked_kept own [] p sA)|]. eapply kept_sub; [|exact J2]. by right.
  - eapply kept_chain; [exact J2|left|done].
  - rewrite (same_parts _ _ _ _ _ _ J2 ltac:(left) C'). apply map_ext. intros i. apply Es.
Qed.
End app.

(** ** Joining two accessors *)

Section join.
Context {W : Type} `{ClientLaws W}.
Implicit Types (s : bfst W) (own st : list Z).
Abbreviation binv := (binv held).
Abbreviation roots := (roots held).
Abbreviation avoids own st s n := (all_of own st s (λ i, i ≠ n)).

(** [s'] is [s] with other bytes, [p], in the accessor [t]. *)
Record retouched own (t : Z) (p : list Z) s s' : Prop := Retouched {
  rt_inv : binv own [] s';
  rt_acc : ∀ i, i ≠ t → accessors s' i = accessors s i;
  rt_fields : acc_linkC (accessors s' t) = acc_linkC (accessors s t) ∧ acc_next (accessors s' t) = acc_next (accessors s t) ∧ acc_buffer (accessors s' t) = acc_buffer (accessors s t);
  rt_bufs : ∀ c, buf_linkC (buffers512 s' c) = buf_linkC (buffers512 s c);
  rt_part : ∀ i, live s i → i ≠ t → part s' i = part s i;
  rt_this : part s' t = p
}.
Lemma retouched_refl own t s : binv own [] s → retouched own t (part s t) s s.
Proof. by split. Qed.
Lemma retouched_fields own t p s s' i : retouched own t p s s' → acc_linkC (accessors s' i) = acc_linkC (accessors s i) ∧ acc_next (accessors s' i) = acc_next (accessors s i) ∧
  acc_buffer (accessors s' i) = acc_buffer (accessors s i).
Proof. intros R. destruct (decide (i = t)) as [->|]; [apply R|by rewrite (rt_acc _ _ _ _ _ R)]. Qed.
Lemma retouched_live own t p s s' i : retouched own t p s s' → live s' i ↔ live s i.
Proof. intros R. unfold live. by rewrite (proj1 (retouched_fields _ _ _ _ _ i R)). Qed.
Lemma retouched_trans own t p q s s' s'' : retouched own t p s s' → retouched own t q s' s'' → retouched own t q s s''.
Proof.
  intros R1 R2. destruct R1 as [A1 A2 (A3 & A3' & A3'') A4 A5 A6], R2 as [B1 B2 (B3 & B3' & B3'') B4 B5 B6].
  split; try done.
  - intros i Hi. by rewrite B2, A2.
  - split_and!; congruence.
  - intros c. by rewrite B4.
  - intros i Hi Ht. rewrite B5, A5; try done. unfold live in *. by rewrite A2.
Qed.
Lemma retouched_chain own t p s s' q l : retouched own t p s s' → chain (nx [] s) q l → chain (nx [] s') q l.
Proof. intros R. apply lseg_ext. intros i _. apply nx_ext; [done|]. by apply (retouched_fields _ _ _ _ _ i R). Qed.
Lemma retouched_kept own own' t p s s' : retouched own t p s s' → all_of own' [] s (live s) → avoids own' [] s t → kept own' [] s s'.
Proof.
  intros R Hl Ha r l i Hr Hc Hi. pose proof (Ha r l i Hr Hc Hi) as Hne. cbn in Hne. unfold same. rewrite (rt_acc _ _ _ _ _ R) by done. split_and!; try done.
  apply R; [by eapply Hl|done].
Qed.
(** In a packet with its rest. *)
Lemma retouched_two own s s' h lh t u d l p : two own s h lh t (Some d) (d :: l) → retouched (opt (Some d) ++ h :: own) u p s s' → two own s' h lh t (Some d) (d :: l).
Proof.
  intros [T1 T2 T3 T4 T5] R. split; [apply R|by eapply retouched_chain|done| |by eapply retouched_chain].
  intros i Hi. rewrite (proj1 (retouched_fields _ _ _ _ _ i R)). by apply T4.
Qed.

Lemma place_bytes own s t b x d p : binv own [] s → live s t → acc_buffer (accessors s t) = Some b → buf_linkC (buffers512 s b) = 1 →
  acc_linkC x = acc_linkC (accessors s t) → acc_next x = acc_next (accessors s t) → acc_buffer x = Some b → acc_ok x → length d = 512%nat →
  take (Z.to_nat (acc_length x)) (drop (Z.to_nat (acc_offset x)) d) = p →
  retouched own t p s (sa t x (sb b ((buffers512 s b) <| buf_data := d |>) s)).
Proof.
  intros Hb Ht Eb H1 E1 E2 E3 Hok Hd Hp. set (s1 := sb b _ s). split.
  - apply touch; [by apply rewrite_data|done|done|by rewrite E3|by right|done].
  - intros i Hi. by rewrite sa_ne.
  - rewrite sa_at, E1, E2, E3. by split_and!.
  - intros c. cbn. destruct (decide (c = b)) as [->|]; [by rewrite fn_lookup_insert|by rewrite fn_lookup_insert_ne].
  - intros i Hi Hne. unfold part. rewrite sa_ne by done. unfold data_of. change (accessors s1 i) with (accessors s i).
    destruct (acc_buffer (accessors s i)) as [c|] eqn:Ec; [|done]. change (buffers512 (sa t x s1)) with (buffers512 s1). unfold s1. rewrite sb_ne; [done|].
    intros ->. apply Hne. by eapply sole_buf.
  - unfold part, data_of. rewrite sa_at, E3. change (buffers512 (sa t x s1)) with (buffers512 s1). unfold s1. by rewrite sb_at.
Qed.
(** Bytes within an accessor. *)
Lemma written_retouched own s t b o l : binv own [] s → live s t → acc_buffer (accessors s t) = Some b → buf_linkC (buffers512 s b) = 1 →
  0 ≤ o → o + Z.of_nat (length l) ≤ acc_length (accessors s t) → retouched own t (overwrite o l (part s t)) s (written t o l s).
Proof.
  intros Hb Ht Eb H1 Ho Hl. destruct (i_acc _ _ _ _ Hb t Ht) as (b' & Eb' & _ & ? & ? & ?). destruct (written_acc t o l s) as [E _]. split.
  - apply written_binv; try done. lia.
  - intros i Hi. by rewrite E.
  - by rewrite E.
  - intros c. unfold written. rewrite Eb. destruct (decide (c = b)) as [->|]; [by rewrite sb_at|by rewrite sb_ne].
  - intros i Hi Hne. eapply (written_part_ne own [] s t o l i b); done.
  - by eapply written_part.
Qed.

(** The contents when the bytes of the last accessor are followed by [d]'s. *)
Lemma joined_bytes s s' lh t d l : part s' t = part s t ++ part s d → (∀ i, i ∈ lh ++ l → i ≠ t → part s' i = part s i) → last lh = Some t → NoDup lh → t ∉ l →
  concat (map (part s') (lh ++ l)) = concat (map (part s) lh) ++ concat (map (part s) (d :: l)).
Proof.
  intros Et Ei Hl Hd Ht. apply last_Some in Hl as [l1 ->]. apply NoDup_app in Hd as (_ & Hd & _).
  assert (E1 : map (part s') l1 = map (part s) l1).
  { apply map_ext_in. intros i Hi%list_elem_of_In. apply Ei; [apply elem_of_app; left; apply elem_of_app; by left|]. intros ->. apply (Hd _ Hi). left. }
  assert (E2 : map (part s') l = map (part s) l).
  { apply map_ext_in. intros i Hi%list_elem_of_In. apply Ei; [apply elem_of_app; by right|]. by intros ->. }
  rewrite !map_app, !concat_app, E1, E2. cbn [map concat]. rewrite Et, !app_nil_r, <- !app_assoc. done.
Qed.

(** *** In the buffer of the first *)

Lemma move_down own s t b (Q : unit → bfst W → Prop) : binv own [] s → live s t → acc_buffer (accessors s t) = Some b → buf_linkC (buffers512 s b) = 1 →
  (∀ s', retouched own t (part s t) s s' → acc_offset (accessors s' t) = 0 → acc_length (accessors s' t) = acc_length (accessors s t) → Q tt s') →
  wp (when (negb (acc_offset (accessors s t) =? 0)) (
    set_buf b ((buffers512 s b) <| buf_data := overwrite 0 (take (Z.to_nat (acc_length (accessors s t))) (drop (Z.to_nat (acc_offset (accessors s t))) (buf_data (buffers512 s b)))) (buf_data (buffers512 s b)) |>);;
    set_acc t ((accessors s t) <| acc_offset := 0 |>))) Q s.
Proof.
  intros Hb Ht Eb H1 HQ. pose proof (live_range _ _ Ht) as Htr. destruct (i_acc _ _ _ _ Hb t Ht) as (b' & Eb' & Hbr & O1 & O2 & O3). replace b' with b in * by congruence.
  destruct (i_buf _ _ _ _ Hb b Hbr) as (_ & _ & B3). set (x := accessors s t) in *. set (d := buf_data (buffers512 s b)) in *.
  set (l := take _ (drop _ d)). assert (Hl : Z.of_nat (length l) = acc_length x) by (unfold l; rewrite length_take, length_drop; unfold BUF_S in *; lia).
  apply wp_when; [intros _|intros E%negb_false_iff; apply HQ; [by apply retouched_refl|unfold x in *; lia|done]].
  buf_step. buf_step. buf_step. apply HQ; [|by rewrite sa_at|by rewrite sa_at].
  apply place_bytes; try done.
  - exists b. cbn. split_and!; try done; lia.
  - rewrite overwrite_length; [done|lia|]. unfold BUF_S in *. lia.
  - cbn [acc_length acc_offset upd upd_acc_offset]. change (drop (Z.to_nat 0) ?y) with y. replace (Z.to_nat (acc_length x)) with (Z.to_nat 0 + length l)%nat by lia.
    rewrite overwrite_take; [|lia|unfold BUF_S in *; lia]. unfold part, data_of. fold x. by rewrite Eb.
Qed.
Lemma append_in_place_wp own s h lh t d l b : two own s h lh t (Some d) (d :: l) → acc_buffer (accessors s t) = Some b → buf_linkC (buffers512 s b) = 1 →
  acc_length (accessors s t) + acc_length (accessors s d) ≤ BUF_S →
  wp (append_in_place t d) (λ _ s', binv (h :: own) [] s' ∧ kept own [] s s' ∧
    cont [] s' (Some h) (concat (map (part s) lh) ++ concat (map (part s) (d :: l)))) s.
Proof.
  intros T Eb H1 Hsz. pose proof (two_tail _ _ _ _ _ _ _ T) as Ht. assert (Htl : live s t) by (eapply two_live; [exact T|apply elem_of_app; by left]).
  assert (Hdl : live s d) by (eapply two_live; [exact T|apply elem_of_app; right; left]). pose proof (live_range _ _ Htl) as Htr. pose proof (live_range _ _ Hdl) as Hdr.
  pose proof (tw_inv _ _ _ _ _ _ _ T) as Hb. destruct (i_acc _ _ _ _ Hb t Htl) as (b' & Eb' & Hbr & O1 & O2 & O3). replace b' with b in * by congruence.
  assert (Hdt : d ≠ t) by (intros ->; eapply two_rest; [exact T|exact Ht|left]).
  unfold append_in_place. do 2 buf_step. buf_step. eapply wp_deref; [exact Eb|]. do 3 buf_step. eapply move_down; try done. intros s1 R1 Eo El.
  pose proof (retouched_two _ _ _ _ _ _ _ _ _ _ T R1) as T1. pose proof (rt_acc _ _ _ _ _ R1 d Hdt) as Ed.
  assert (Htl1 : live s1 t) by by apply (retouched_live _ _ _ _ _ _ R1). assert (Hdl1 : live s1 d) by by apply (retouched_live _ _ _ _ _ _ R1).
  do 4 buf_step. rewrite Ed, El. buf_step.
  eapply wp_eq; [apply (acc_copy_eq (opt (Some d) ++ h :: own) [] s1); [exact (rt_inv _ _ _ _ _ R1)|done|done|lia|rewrite Ed; lia]|]. do 2 buf_step.
  set (pd := piece s1 d 0 _). set (x := accessors s1 t) in *. destruct (rt_fields _ _ _ _ _ R1) as (F1 & F2 & F3). fold x in F1, F2, F3.
  assert (Epd : pd = part s d).
  { unfold pd, piece. change (drop (Z.to_nat 0) ?y) with y. rewrite (rt_part _ _ _ _ _ R1 d Hdl Hdt). apply take_ge. pose proof (part_length _ _ _ d Hb Hdl). lia. }
  pose proof (part_length _ _ _ d Hb Hdl) as Ld. pose proof (part_length _ _ _ t Hb Htl) as Lt. rewrite Eb in F3.
  destruct (i_buf _ _ _ _ (rt_inv _ _ _ _ _ R1) b Hbr) as (_ & _ & B3).
  set (s2 := sa t _ (written t _ pd s1)). assert (R2 : retouched (opt (Some d) ++ h :: own) t (part s t ++ part s d) s1 s2).
  { unfold s2, written. fold x. rewrite F3, Eo, Z.add_0_l. apply place_bytes; try done; [exact (rt_inv _ _ _ _ _ R1)|by rewrite (rt_bufs _ _ _ _ _ R1)|..].
    - exists b. cbn. rewrite Eo. split_and!; try done; lia.
    - rewrite overwrite_length; [done|lia|]. rewrite Epd. unfold BUF_S in *. lia.
    - cbn [acc_length acc_offset upd upd_acc_length]. rewrite Eo. change (drop (Z.to_nat 0) ?y) with y.
      replace (Z.to_nat (acc_length (accessors s t) + acc_length (accessors s d))) with (Z.to_nat (acc_length (accessors s t)) + length pd)%nat by (rewrite Epd; lia).
      rewrite overwrite_take; [|lia|rewrite Epd; unfold BUF_S in *; lia]. rewrite Epd. f_equal. rewrite <- (rt_this _ _ _ _ _ R1). unfold part, data_of. fold x. by rewrite F3, Eo, El. }
  pose proof (retouched_two _ _ _ _ _ _ _ _ _ _ T1 R2) as T2. eapply wp_mono; [apply (take_rest_wp own s2 h lh t d l T2)|]. cbn beta. intros _ s3 (X1 & X2 & X3 & X4).
  pose proof (retouched_trans _ _ _ _ _ _ _ R1 R2) as R. assert (Hav : avoids own [] s t) by by eapply two_avoids.
  split; [done|]. split; [eapply kept_chain_trans; [|exact X2]; eapply retouched_kept; [exact R| |exact Hav]; intros r lr i Hr; eapply (all_live _ _ _ Hb r); right; by right|].
  exists (lh ++ l). split; [done|]. rewrite X4. apply (joined_bytes s s2 lh t d l); [apply R| |apply T|eapply chain_NoDup, T|].
  - intros i Hi Hit. apply R; [|done]. eapply two_live; [exact T|]. apply elem_of_app in Hi as [Hi|Hi]; apply elem_of_app; [by left|right; by right].
  - intros Hin. eapply two_rest; [exact T|exact Ht|by right].
Qed.

(** *** In a new buffer *)

(** An accessor is copied to a new one that has the place. *)
Lemma app_block own s n src on : binv own [] s → live s n → live s src → 0 ≤ on →
  acc_length (accessors s src) ≠ 0 → on + acc_length (accessors s src) ≤ acc_length (accessors s n) →
  wp (app_step src (Some n, 0, on, acc_length (accessors s src)))
    (λ r s', r = inl (Some n, acc_length (accessors s src), on + acc_length (accessors s src), 0) ∧ s' = written n on (part s src) s) s.
Proof.
  intros Hb Hn Hs Ho Hz Hlen. pose proof (live_range _ _ Hn) as Hnr. pose proof (live_range _ _ Hs) as Hsr.
  destruct (i_acc _ _ _ _ Hb src Hs) as (bs & _ & _ & _ & Hl0 & _). pose proof (part_length _ _ _ src Hb Hs) as Lp. set (len := acc_length (accessors s src)) in *.
  unfold app_step. wp_step; [lia|]. wp_step. eapply wp_deref; [reflexivity|]. do 2 buf_step. wp_step; [lia|]. do 2 buf_step. fold len.
  replace (if len - 0 <? _ then _ else _) with len by (destruct (Z.ltb_spec (len - 0) (acc_length (accessors s n) - on)); lia).
  wp_step. eapply wp_eq; [apply (acc_copy_eq own [] s); [done|done|done|lia|fold len; lia]|]. wp_step. rewrite Z.sub_diag, Z.add_0_l. split; [done|].
  unfold piece. change (drop (Z.to_nat 0) ?y) with y. by rewrite take_ge by lia.
Qed.
Lemma app_copy own s n src on b : binv own [] s → live s n → live s src → acc_buffer (accessors s n) = Some b → buf_linkC (buffers512 s b) = 1 →
  0 ≤ on → on + acc_length (accessors s src) ≤ acc_length (accessors s n) →
  wp (loop (pack_fuel (acc_length (accessors s src))) (app_step src) (Some n, 0, on, acc_length (accessors s src)))
    (λ r s', r = (Some n, on + acc_length (accessors s src)) ∧ retouched own n (overwrite on (part s src) (part s n)) s s') s.
Proof.
  intros Hb Hn Hs Eb H1 Ho Hlen. pose proof (part_length _ _ _ src Hb Hs) as Lp. unfold pack_fuel. rewrite loop_unfold. wp_step.
  destruct (decide (acc_length (accessors s src) = 0)) as [E|E].
  - rewrite E. eapply wp_eq; [reflexivity|]; cbv beta iota; wp_step. split; [f_equal; lia|]. replace (part s src) with (@nil Z) by (symmetry; apply nil_length_inv; lia).
    unfold overwrite. cbn. rewrite Nat.add_0_r, take_drop. by apply retouched_refl.
  - eapply wp_mono; [by eapply app_block|]. cbn beta. intros r s1 (-> & ->). unfold acc_fuel. rewrite Nat.add_comm. cbn [Nat.mul Nat.add]. rewrite loop_unfold.
    wp_step. eapply wp_eq; [reflexivity|]; cbv beta iota; wp_step. split; [done|]. eapply written_retouched; try done. lia.
Qed.

(** Two private accessors at the ends of their chains change places. *)
Lemma swap_inv own st s t n : binv own st s → live s t → live s n → t ≠ n → acc_linkC (accessors s n) = acc_linkC (accessors s t) →
  acc_next (accessors s n) = acc_next (accessors s t) → let s' := sa n (accessors s t) (sa t (accessors s n) s) in binv own st s'.
Proof.
  intros Hb Ht Hn Hne E1 E2 s'.
  assert (Et : accessors s' t = accessors s n) by (unfold s'; by rewrite sa_ne, sa_at). assert (En : accessors s' n = accessors s t) by (unfold s'; by rewrite sa_at).
  assert (Ei : ∀ i, i ≠ t → i ≠ n → accessors s' i = accessors s i) by (intros i Hi Hi'; unfold s'; by rewrite !sa_ne).
  assert (Hc : ∀ i, acc_linkC (accessors s' i) = acc_linkC (accessors s i) ∧ acc_next (accessors s' i) = acc_next (accessors s i)).
  { intros i. destruct (decide (i = t)) as [->|]; [by rewrite Et|]. destruct (decide (i = n)) as [->|]; [by rewrite En|by rewrite Ei]. }
  assert (Hx : ∀ i, nx st s' i = nx st s i) by (intros i; apply nx_ext; [done|apply Hc]).
  assert (Hl : ∀ i, live s' i ↔ live s i) by (intros i; unfold live; by rewrite (proj1 (Hc i))).
  split.
  - exact (i_root _ _ _ _ Hb).
  - intros i Hi. rewrite (proj1 (Hc i)), (i_link _ _ _ _ Hb i Hi). f_equal. apply cnt_ext. intros j _. by rewrite (proj1 (Hc j)), Hx.
  - intros i Hi. apply Hl in Hi. destruct (decide (i = t)) as [->|]; [rewrite Et; by apply (i_acc _ _ _ _ Hb)|].
    destruct (decide (i = n)) as [->|]; [rewrite En; by apply (i_acc _ _ _ _ Hb)|rewrite Ei by done; by apply (i_acc _ _ _ _ Hb)].
  - intros i m Hi. rewrite Hx. by apply (i_next _ _ _ _ Hb), Hl.
  - intros i Hi. destruct (i_chain _ _ _ _ Hb i) as [l Hch]; [by apply Hl|]. exists l. eapply chain_keep; [|exact Hch]. by intros.
  - intros b Hbr. destruct (i_buf _ _ _ _ Hb b Hbr) as (B1 & B2 & B3). split_and!; try done. change (buffers512 s') with (buffers512 s). rewrite B1.
    set (sm := sa t (accessors s n) s). pose proof (live_range _ _ Ht) as Htr. pose proof (live_range _ _ Hn) as Hnr.
    rewrite (uses_upd sm s' n b Hnr) by (intros j Hj; unfold s'; by rewrite sa_ne). rewrite (uses_upd s sm t b Htr) by (intros j Hj; unfold sm; by rewrite sa_ne).
    unfold usb. rewrite En. unfold sm. rewrite sa_at, (sa_ne t _ s n) by done. lia.
  - destruct (i_free _ _ _ _ Hb) as (la & lb & bl & F). exists la, lb, bl. destruct Ht, Hn. eapply free_keep; try done.
    + intros i Hi0. apply Ei; intros ->; lia.
    + intros i Hi. by rewrite (proj1 (Hc i)).
  - intros q Hq. destruct (i_stale _ _ _ _ Hb q Hq) as (r & l & Hr & Hch & Htl). exists r, l. split_and!; [done| |done]. eapply chain_keep; [|exact Hch]. by intros.
  - exact (i_gran _ _ _ _ Hb).
Qed.

Lemma overwrite_both (p q r : list Z) : length r = (length p + length q)%nat → overwrite (Z.of_nat (length p)) q (overwrite 0 p r) = p ++ q.
Proof.
  intros Hl. unfold overwrite. rewrite Nat2Z.id. change (take (Z.to_nat 0) r) with (@nil Z). cbn [app]. rewrite take_app_length. f_equal.
  rewrite drop_ge; [by rewrite app_nil_r|]. rewrite length_app, length_drop. lia.
Qed.

(** Both accessors are copied to the new one, which takes the place of the first. *)
Lemma both_copied own s h lh t d l n b : two (n :: own) s h lh t (Some d) (d :: l) → acc_buffer (accessors s n) = Some b → buf_linkC (buffers512 s b) = 1 →
  acc_length (accessors s n) = acc_length (accessors s t) + acc_length (accessors s d) → n ≠ t → n ≠ d →
  wp (loop (pack_fuel (acc_length (accessors s t))) (app_step t) (Some n, 0, 0, acc_length (accessors s t)))
    (λ r s1, wp (loop (pack_fuel (acc_length (accessors s d))) (app_step d) (r.1, 0, r.2, acc_length (accessors s d)))
      (λ _ s2, retouched (d :: h :: n :: own) n (part s t ++ part s d) s s2) s1) s.
Proof.
  intros T Eb H1 Hlen Hnt Hnd. pose proof (tw_inv _ _ _ _ _ _ _ T) as Hb. pose proof (two_tail _ _ _ _ _ _ _ T) as Ht.
  assert (Htl : live s t) by (eapply two_live; [exact T|apply elem_of_app; by left]). assert (Hdl : live s d) by (eapply two_live; [exact T|apply elem_of_app; right; left]).
  assert (Hnl : live s n) by (eapply own_live; [exact Hb|]; do 2 right; left). destruct (i_acc _ _ _ _ Hb t Htl) as (_ & _ & _ & _ & Lt & _). destruct (i_acc _ _ _ _ Hb d Hdl) as (_ & _ & _ & _ & Ld & _).
  pose proof (part_length _ _ _ t Hb Htl) as Pt. pose proof (part_length _ _ _ d Hb Hdl) as Pd. pose proof (part_length _ _ _ n Hb Hnl) as Pn.
  eapply wp_mono; [apply (app_copy (d :: h :: n :: own) s n t 0 b); try done; lia|]. cbn beta. intros r s1 (-> & R1). cbn [fst snd]. rewrite Z.add_0_l.
  pose proof (rt_acc _ _ _ _ _ R1 d ltac:(done)) as Ed. rewrite <- Ed. destruct (rt_fields _ _ _ _ _ R1) as (_ & _ & F3).
  assert (Hn1 : live s1 n) by by apply (retouched_live _ _ _ _ _ _ R1). assert (Hd1 : live s1 d) by by apply (retouched_live _ _ _ _ _ _ R1).
  pose proof (part_length _ _ _ n (rt_inv _ _ _ _ _ R1) Hn1) as Pn1. rewrite (rt_this _ _ _ _ _ R1), overwrite_length in Pn1 by lia.
  eapply wp_mono; [apply (app_copy (d :: h :: n :: own) s1 n d _ b); try done; [apply R1|by rewrite F3|by rewrite (rt_bufs _ _ _ _ _ R1)|rewrite Ed; lia]|]. cbn beta. intros r s2 (_ & R2).
  rewrite (rt_this _ _ _ _ _ R1), (rt_part _ _ _ _ _ R1 d) in R2 by done. rewrite <- Pt, overwrite_both in R2 by lia. by eapply retouched_trans.
Qed.

(** The new accessor and the last one change places, and the old bytes are freed. *)
Lemma swap_free own s h lh t d l n q : two (n :: own) s h lh t (Some d) (d :: l) → acc_linkC (accessors s n) = 1 → acc_next (accessors s n) = None → part s n = q → n ≠ t →
  let s1 := sa n (accessors s t) (sa t (accessors s n) s) in
  wp (bf_afree (Some n)) (λ _ s', two own s' h lh t (Some d) (d :: l) ∧ kept own [] s s' ∧ part s' t = q ∧ ∀ i, i ∈ lh ++ d :: l → i ≠ t → part s' i = part s i) s1.
Proof.
  intros T H1 Hnx Hq Hnt s1. pose proof (tw_inv _ _ _ _ _ _ _ T) as Hb. pose proof (two_tail _ _ _ _ _ _ _ T) as Ht. assert (Htl : live s t) by (eapply two_live; [exact T|apply elem_of_app; by left]).
  assert (Hbn : binv (n :: d :: h :: own) [] s) by (eapply binv_perm; [exact Hb|]; symmetry; apply (Permutation_middle [d; h] own n)).
  assert (Hnl : live s n) by (eapply own_live; [exact Hbn|left]). pose proof (tw_one _ _ _ _ _ _ _ T t Ht) as Ht1.
  pose proof (chain_last _ _ _ _ (tw_head _ _ _ _ _ _ _ T) (tw_last _ _ _ _ _ _ _ T)) as Htx. rewrite nx_plain in Htx by apply not_elem_of_nil.
  assert (B1 : binv (n :: d :: h :: own) [] s1) by (apply swap_inv; try done; congruence).
  assert (Hn : avoids (d :: h :: own) [] s n) by by apply sole_avoids.
  assert (Ei : ∀ i, i ≠ t → i ≠ n → accessors s1 i = accessors s i) by (intros i Hi Hi'; unfold s1; by rewrite !sa_ne).
  assert (Et : accessors s1 t = accessors s n) by (unfold s1; by rewrite sa_ne, sa_at).
  assert (Hx : ∀ i, nx [] s1 i = nx [] s i).
  { intros i. apply nx_ext; [done|]. destruct (decide (i = t)) as [->|]; [congruence|]. destruct (decide (i = n)) as [->|]; [unfold s1; rewrite sa_at; congruence|by rewrite Ei]. }
  assert (Hc : ∀ p l', chain (nx [] s) p l' → chain (nx [] s1) p l') by (intros p l'; apply lseg_ext; intros i _; apply Hx).
  assert (Hin : ∀ i, i ∈ lh ++ d :: l → i ≠ n) by (intros i [Hi|Hi]%elem_of_app; [eapply (Hn h); [right; left|apply T|done]|eapply (Hn d); [left|apply T|done]]).
  eapply wp_mono; [apply afree_wp; [exact B1|by intros u ?%elem_of_nil]|]. cbn beta. intros _ s2 (J1 & J2 & _). pose proof (untouched_kept _ _ _ _ J2) as K2.
  assert (Hp : ∀ i, i ∈ lh ++ d :: l → part s2 i = part s1 i ∧ acc_linkC (accessors s2 i) ≤ acc_linkC (accessors s1 i)).
  { intros i [Hi|Hi]%elem_of_app; [destruct (J2 h lh i) as [(_ & _ & _ & _ & ?) [? _]]|destruct (J2 d (d :: l) i) as [(_ & _ & _ & _ & ?) [? _]]];
      try done; [right; left|apply Hc, T|left|apply Hc, T]. }
  assert (K : kept own [] s s2).
  { eapply kept_chain_trans; [|eapply kept_sub; [|exact K2]; intros r Hr; right; by right].
    assert (Ha : avoids own [] s t) by (intros r lr i Hr; eapply (two_avoids _ _ _ _ _ _ _ t T Ht r); by right).
    intros r lr i Hr Hl Hi. pose proof (Ha r lr i Hr Hl Hi) as Hit. pose proof (Hn r lr i ltac:(right; by right) Hl Hi) as Hin'. cbn in Hit, Hin'.
    unfold same, part. rewrite Ei by done. split_and!; done. }
  split; [|split; [done|split]].
  - pose proof (kept_chain _ _ _ _ _ _ K2 ltac:(right; left) (Hc _ _ (tw_head _ _ _ _ _ _ _ T))) as X. split; [done|done|apply T| |eapply kept_chain; [exact K2|left|apply Hc, T]].
    intros i Hi. apply Z.le_antisymm.
    + destruct (Hp i) as [_ ?]; [apply elem_of_app; by left|]. destruct (decide (i = t)) as [->|]; [rewrite Et in *; lia|].
      rewrite Ei in * by (try done; apply Hin, elem_of_app; by left). pose proof (tw_one _ _ _ _ _ _ _ T i Hi). lia.
    + assert (live s2 i) as [_ ?]; [|lia]. eapply (all_live _ _ _ J1 h); [right; left|done|done].
  - destruct (Hp t) as [-> _]; [apply elem_of_app; by left|]. unfold part. by rewrite Et.
  - intros i Hi Hit. destruct (Hp i Hi) as [-> _]. unfold part. rewrite Ei; [done|done|by apply Hin].
Qed.

Lemma append_new_wp own s h lh t d l : two own s h lh t (Some d) (d :: l) → acc_length (accessors s d) ≠ 0 →
  acc_length (accessors s t) + acc_length (accessors s d) ≤ BUF_S →
  wpx out (append_new t d) (λ _ s', binv (h :: own) [] s' ∧ kept own [] s s' ∧
    cont [] s' (Some h) (concat (map (part s) lh) ++ concat (map (part s) (d :: l)))) s.
Proof.
  intros T Hd0 Hsz. pose proof (two_tail _ _ _ _ _ _ _ T) as Ht. pose proof T as [T1 T2 T3 T4 T5]. assert (Htl : live s t) by (eapply two_live; [exact T|apply elem_of_app; by left]).
  assert (Hdl : live s d) by (eapply two_live; [exact T|apply elem_of_app; right; left]). pose proof (live_range _ _ Htl) as Htr. pose proof (live_range _ _ Hdl) as Hdr.
  destruct (i_acc _ _ _ _ T1 t Htl) as (_ & _ & _ & _ & Lt & _). destruct (i_acc _ _ _ _ T1 d Hdl) as (_ & _ & _ & _ & Ld & _).
  unfold append_new. bufx_step. bufx_step. bufx_step. bufx_step. bufx_step. eapply wpx_mono; [apply bf_memreq_wp; [exact T1|unfold BUF_S in *; lia]|]. cbn beta.
  intros p s1 (n & ln & -> & B1 & U1 & Hln & Hf & Hsum & Hlen). rewrite Z.min_l in Hlen by lia. rewrite <- Hlen in Hsum. destruct (fresh_single _ _ _ Hln Hf Hsum) as [-> Hnx].
  apply Forall_cons in Hf as [(G1 & _ & _ & b & G4 & G5) _]. pose proof (untouched_kept _ _ _ _ U1) as K1.
  assert (Hav : avoids (d :: h :: own) [] s1 n) by by apply sole_avoids.
  destruct (two_move own (n :: own) s s1 h lh t (Some d) (d :: l) (Some d) (d :: l) T) as [T' P1].
  { eapply kept_sub; [|exact K1]. intros r Hr. by right. }
  { eapply binv_perm; [exact B1|]. apply (Permutation_middle [d; h] own n). }
  { intros i Hi. apply (U1 h lh i); [right; left|done|done]. }
  { eapply kept_chain; [exact K1|left|done]. }
  pose proof (same_parts _ _ _ _ _ _ K1 ltac:(left) T5) as P2.
  destruct (K1 h lh t) as (_ & Et & _ & _ & Ept); [right; left|done|done|]. destruct (K1 d (d :: l) d) as (_ & Ed & _ & _ & Epd); [left|done|left|].
  assert (Hnt : n ≠ t) by (intros ->; eapply (Hav h lh t); [right; left|apply T'|done|done]). assert (Hnd : n ≠ d) by (intros ->; eapply (Hav d (d :: l) d); [left|apply T'|left|done]).
  bufx_step. apply wp_wpx. rewrite <- Et, <- Ed. eapply wp_mono; [apply (both_copied own s1 h lh t d l n b T'); try done; lia|]. cbn beta.
  intros [new o] s2 Hw. cbn [fst snd] in Hw. bufx_step. apply wp_wpx. eapply wp_mono; [exact Hw|]. cbn beta. intros _ s3 R. rewrite Ept, Epd in R. bufx_step.
  destruct (rt_fields _ _ _ _ _ R) as (F1 & F2 & F3). rewrite G1 in F1. rewrite Hnx in F2. pose proof (retouched_two _ _ _ _ _ _ _ _ _ _ T' R) as T3'.
  pose proof (live_range _ _ (own_live _ _ _ _ n B1 ltac:(left))) as Hnr. bufx_step. do 8 bufx_step. bufx_step.
  apply wp_wpx. eapply wp_mono; [apply (swap_free own s3 h lh t d l n _ T3' F1 F2 (rt_this _ _ _ _ _ R) Hnt)|]. cbn beta. intros _ s5 (T5' & K5 & Q1 & Q2).
  bufx_step. apply wp_wpx. eapply wp_eq.
  { unfold acc_fuel. rewrite loop_unfold. pose proof (chain_last _ _ _ _ (tw_head _ _ _ _ _ _ _ T5') T3) as E. rewrite nx_plain in E by apply not_elem_of_nil.
    assert (El : last_step t s5 = Ret (inr t) s5); [|by rewrite (bind_eq _ _ _ _ _ El)].
    unfold last_step. erewrite bind_eq; [|unfold get_acc; replace ((0 <=? t) && (t <? ACC_NR)) with true by lia; reflexivity]. by rewrite E. }
  apply wp_wpx. eapply wp_mono; [by apply take_rest_wp|]. cbn beta. intros _ s6 (X1 & X2 & X3 & X4).
  assert (K3 : kept own [] s1 s3).
  { eapply retouched_kept; [exact R| |intros r lr i Hr; apply Hav; right; by right]. intros r lr i Hr. eapply (all_live _ _ _ B1 r). do 3 right. done. }
  split; [done|]. split; [eapply kept_chain_trans; [eapply kept_sub; [|exact K1]; intros r Hr; right; by right|]; eapply kept_chain_trans; [exact K3|]; by eapply kept_chain_trans|].
  exists (lh ++ l). split; [done|]. rewrite X4. apply (joined_bytes s s5 lh t d l); [done| |done|by eapply chain_NoDup|].
  - intros i Hi Hit. assert (Hi' : i ∈ lh ++ d :: l) by (apply elem_of_app in Hi as [Hi|Hi]; apply elem_of_app; [by left|right; by right]).
    rewrite Q2 by done. rewrite (rt_part _ _ _ _ _ R).
    + apply elem_of_app in Hi' as [Hi'|Hi']; [by destruct (K1 h lh i ltac:(right; left) T2 Hi') as (_ & _ & _ & _ & ?)|by destruct (K1 d (d :: l) i ltac:(left) T5 Hi') as (_ & _ & _ & _ & ?)].
    + eapply two_live; [exact T'|done].
    + apply elem_of_app in Hi' as [Hi'|Hi']; [eapply (Hav h lh); [right; left|apply T'|done]|eapply (Hav d (d :: l)); [left|apply T'|done]].
  - intros Hin. eapply two_rest; [exact T|exact Ht|by right].
Qed.
End join.
