(* ===== verification/Bufprops.v ===== *)
(** * What the buffers promise

    [bf_append] and [bf_align]; packets as byte strings; the start of the buffers; and
    the properties: to their users packets are immutable byte strings, what is given
    back is free again, the parts of a packet make it up. *)

From S2P Require Import Prelude Chain Buf Bufinv Bufops Bufpart Bufapp.

(** ** Composition of packets *)

Section comp.
Context {W : Type} `{ClientLaws W}.
Implicit Types (s : bfst W) (own st : list Z).
Abbreviation binv := (binv held).
Abbreviation roots := (roots held).
Abbreviation avoids own st s n := (all_of own st s (λ i, i ≠ n)).

(** The last link of the first packet is cut; the second is as it was. *)
Lemma close_first own s s' h lh t b v w : joined (b :: own) s' h lh t None [] → kept (b :: own) [] s s' → concat (map (part s') lh) = v → cont [] s (Some b) w →
  let s2 := sa t ((accessors s' t) <| acc_next := None |>) s' in
  ∃ l, strip_inv own s h lh t v w l (Some b) s2.
Proof.
  intros J K Hv (lb & Hlb & <-) s2. pose proof J as [J1 J2 J3 J4 _]. pose proof (kept_chain _ _ _ _ _ _ K ltac:(left) Hlb) as Hlb1.
  assert (K2 : kept (b :: own) [] s' s2) by (apply sa_kept; by eapply joined_avoids). assert (K3 : kept (b :: own) [] s s2) by by eapply kept_chain_trans.
  assert (Hp : ∀ l, map (part s2) l = map (part s') l) by (intros l; apply map_ext; intros i; apply part_next).
  exists lb. split; [|split; [eapply kept_sub; [|exact K3]; by right|split; [by rewrite Hp|by erewrite (same_parts _ _ _ _ _ _ K3 ltac:(left) Hlb)]]]. split; try done.
  - apply (binv_swap (W := W)). apply (relink_step held (h :: b :: own) [] s' t None); [exact J1|apply not_elem_of_nil|]. intros l Hl. apply chain_None in Hl as ->. apply not_elem_of_nil.
  - eapply lseg_ext; [|exact J2]. intros i _. unfold s2. destruct (decide (i = t)) as [->|Hne].
    + rewrite (nx_stale [t]) by left. rewrite nx_plain by apply not_elem_of_nil. by rewrite sa_at.
    + rewrite nx_sa_ne by done. apply nx_ext; [|done]. rewrite list_elem_of_singleton, elem_of_nil. tauto.
  - intros i Hi. rewrite <- (J4 i Hi). unfold s2. destruct (decide (i = t)) as [->|]; [by rewrite sa_at|by rewrite sa_ne].
  - eapply kept_chain; [exact K3|left|done].
Qed.

(** The three ways to put the second packet after the first. *)
Lemma append_end own s h lh t v w l d s' : strip_inv own s h lh t v w l (Some d) s' → acc_length (accessors s' d) ≠ 0 →
  wpx out (x ← get_acc t; y ← get_acc d; b ← deref (acc_buffer x); z ← get_buf b;
    gran ← gets bf_buf_gran;
    (if buf_size z <? acc_length x + acc_length y then set_next t (Some d)
     else if (buf_size z =? gran) && (buf_linkC z =? 1) then append_in_place t d
     else append_new t d);;
    mret (Some h)) (λ p s2, p = Some h ∧ binv (h :: own) [] s2 ∧ kept own [] s s2 ∧ cont [] s2 (Some h) (v ++ w)) s'.
Proof.
  intros (T & K & <- & <-) Hd0. pose proof (two_tail _ _ _ _ _ _ _ T) as Ht. pose proof T as [T1 T2 T3 T4 T5]. destruct (chain_Some _ _ _ T5) as (l' & -> & _).
  assert (Htl : live s' t) by (eapply two_live; [exact T|apply elem_of_app; by left]). assert (Hdl : live s' d) by (eapply two_live; [exact T|apply elem_of_app; right; left]).
  pose proof (live_range _ _ Htl) as Htr. pose proof (live_range _ _ Hdl) as Hdr. destruct (i_acc _ _ _ _ T1 t Htl) as (b & Eb & Hbr & _). destruct (i_buf _ _ _ _ T1 b Hbr) as (_ & Esz & _).
  do 10 bufx_step. rewrite Esz, (i_gran _ _ _ _ T1). bufx_step. destruct (Z.ltb_spec BUF_S (acc_length (accessors s' t) + acc_length (accessors s' d))) as [Hlt|Hge].
  { do 5 bufx_step. split; [done|]. destruct (append_link own s' h d t lh (d :: l')) as [A1 A2]; try done; [eapply two_rest; [exact T|done]|]. split; [done|].
    split; [eapply kept_chain_trans; [exact K|]; apply sa_kept; by eapply two_avoids|]. exists (lh ++ d :: l'). split; [done|].
    rewrite (map_ext _ _ (part_next s' t (Some d))). by rewrite map_app, concat_app. }
  destruct ((BUF_S =? BUF_S) && (buf_linkC (buffers512 s' b) =? 1)) eqn:E.
  - apply andb_true_iff in E as [_ E]. apply wp_wpx. eapply wp_mono; [eapply append_in_place_wp; [exact T|exact Eb|lia|lia]|]. cbn beta. intros _ s2 (X1 & X2 & X3).
    bufx_step. split; [done|]. split; [done|]. split; [by eapply kept_chain_trans|done].
  - eapply wpx_mono; [by apply append_new_wp|]. cbn beta. intros _ s2 (X1 & X2 & X3). bufx_step. split; [done|]. split; [done|]. split; [by eapply kept_chain_trans|done].
Qed.

Lemma bf_append_wp own s a b v w : binv (a :: b :: own) [] s → cont [] s (Some a) v → cont [] s (Some b) w →
  wpx out (bf_append (Some a) (Some b)) (λ p s', ∃ h, p = Some h ∧ binv (h :: own) [] s' ∧ kept own [] s s' ∧ cont [] s' (Some h) (v ++ w)) s.
Proof.
  intros Hb Hv Hw. unfold bf_append. bufx_step. eapply wpx_mono; [by apply (own_loop_wp (b :: own))|]. cbn beta. intros [[h|] [t|]] s1; try done.
  - intros (lh & J & K & Ev). pose proof (live_range _ _ (all_live _ _ _ (jn_inv _ _ _ _ _ _ _ J) h lh t ltac:(left) ltac:(apply J) ltac:(by eapply joined_tail))) as Htr.
    do 7 bufx_step. destruct (close_first own s s1 h lh t b v w J K Ev Hw) as (l & HI). bufx_step. eapply wpx_mono; [eapply strip_loop; [exact HI|]|].
    { destruct HI as (T & _). destruct (chain_fuel _ _ (Some b) l (tw_inv _ _ _ _ _ _ _ T)) as (_ & _ & ? & _); [|apply T|done].
      intros ? [= <-]. eapply own_live; [apply T|left]. }
    cbn beta. intros p s2 (l' & HI2 & Hp). destruct p as [d|].
    + eapply wpx_mono; [by eapply append_end|]. cbn beta. intros p s3 (-> & R). by exists h.
    + bufx_step. destruct HI2 as (T & K2 & <- & <-). pose proof (tw_rest _ _ _ _ _ _ _ T) as ->%chain_None. exists h. split; [done|]. split; [apply T|]. split; [done|].
      exists lh. split; [apply T|]. cbn. by rewrite app_nil_r.
  - intros (-> & B & K). bufx_step. exists b. split; [done|]. split; [done|]. split; [eapply kept_sub; [|exact K]; by right|]. cbn. eapply kept_cont; [exact K|left|done].
Qed.

(** *** Packed heads *)

Lemma bf_packIffLess_wp own s a v n : binv (a :: own) [] s → cont [] s (Some a) v → v ≠ [] → n ≤ Z.min (Z.of_nat (length v)) BUF_S →
  wpx out (bf_packIffLess (Some a) n) (λ p s', ∃ h, p = Some h ∧ binv (h :: own) [] s' ∧ kept own [] s s' ∧ cont [] s' (Some h) v ∧ n ≤ acc_length (accessors s' h)) s.
Proof.
  intros Hb Hc Hv Hn. pose proof (live_range _ _ (own_live _ _ _ _ a Hb ltac:(left))) as Har. unfold bf_packIffLess. bufx_step. bufx_step. bufx_step.
  - bufx_step. exists a. split_and!; [done|done|apply kept_refl|done|lia].
  - eapply wpx_mono; [by apply bf_pack_wp|]. cbn beta. intros p s' (h & -> & B & K & C & _ & El & _). exists h. split_and!; try done. lia.
Qed.

Lemma bf_align_wp own s a v size alignment : binv (a :: own) [] s → cont [] s (Some a) v → v ≠ [] → 0 < size ≤ BUF_S →
  wpx out (bf_align a size alignment) (λ p s', ∃ h, p = Some h ∧ binv (h :: own) [] s' ∧ kept own [] s s' ∧ cont [] s' (Some h) v ∧
    Z.min size (Z.of_nat (length v)) ≤ acc_length (accessors s' h)) s.
Proof.
  intros Hb Hc Hv Hs. pose proof (own_live _ _ _ _ a Hb ltac:(left)) as Hal. pose proof (live_range _ _ Hal) as Har. unfold bf_align. bufx_step. bufx_step. bufx_step.
  { bufx_step. exists a. apply andb_true_iff in E as [E _]. split_and!; [done|done|apply kept_refl|done|lia]. }
  clear E. destruct Hc as (la & Hla & Ev). destruct (chain_fuel (a :: own) s (Some a) la Hb) as (Hll & _ & _ & Hsz); [by intros ? [= <-]|done|].
  pose proof (sum_parts _ _ _ la Hb Hll) as Hlen. rewrite Ev in Hlen. bufx_step. apply wp_wpx. eapply wp_eq; [by eapply bf_bufsize_eq|]. bufx_step.
  { eapply wpx_mono; [apply bf_pack_wp; [exact Hb|by exists la|done]|]. cbn beta. intros p s' (h & -> & B & K & C & _ & E2 & _). exists h. split_and!; try done. lia. }
  bufx_step. eapply wpx_mono; [apply (bf_cut_wp (a :: own) s a v 0 size); [done|left|by exists la|lia..]|]. cbn beta. intros p s1 (h & -> & B1 & K1 & C1).
  assert (Hca : cont [] s1 (Some a) v) by (eapply kept_cont; [exact K1|left|by exists la]).
  bufx_step. eapply wpx_mono; [apply (bf_cut_wp (h :: a :: own) s1 a v size); [done|right; left|done|lia..]|]. cbn beta. intros p s2 (t & -> & B2 & K2 & C2).
  bufx_step. eapply wp_wpx, wp_mono; [apply (afree_wp held (t :: h :: own) [] s2 (Some a)); [|by intros i ?%elem_of_nil]|].
  { eapply binv_perm; [exact B2|]. symmetry. apply (Permutation_middle [t; h] own a). }
  cbn beta. intros _ s3 (B3 & K3%untouched_kept & _).
  assert (C1' : cont [] s3 (Some h) (take (Z.to_nat size) (drop (Z.to_nat 0) v))) by (eapply kept_cont; [exact K3|right; left|]; eapply kept_cont; [exact K2|left|done]).
  assert (C2' : cont [] s3 (Some t) (drop (Z.to_nat size) v)).
  { eapply kept_cont; [exact K3|left|]. rewrite take_ge in C2 by (rewrite length_drop; lia). done. }
  change (drop (Z.to_nat 0) v) with v in C1'. bufx_step. eapply wpx_mono; [apply (bf_pack_wp (t :: own) s3 h (take (Z.to_nat size) v)); [by apply binv_swap|exact C1'|]|].
  { intros En%(f_equal length). rewrite length_take in En. cbn in En. lia. }
  cbn beta. intros p s4 (h2 & -> & B4 & K4 & C4 & D1 & D2 & D3 & _). rewrite length_take in D2, D3. bufx_step. bufx_step.
  pose proof (live_range _ _ (own_live _ _ _ _ h2 B4 ltac:(left))) as Hh2. do 6 bufx_step.
  destruct C4 as (lh & Hlh & Eh). assert (Elh : lh = [h2]).
  { destruct (chain_Some _ _ _ Hlh) as (l' & -> & _). apply plain_tail in Hlh as [_ Hl']. rewrite D3 in Hl' by lia. by apply chain_None in Hl' as ->. }
  subst lh. destruct C2' as (lt & Hlt & Et). pose proof (kept_chain _ _ _ _ _ _ K4 ltac:(left) Hlt) as Hlt4.
  assert (Hni : h2 ∉ lt) by (intros Hin; eapply (sole_avoids (t :: own) [] s4 h2 B4 D1 t lt); [left|done|done|done]).
  destruct (append_link own s4 h2 t h2 [h2] lt) as [X1 X2]; try done; [by apply binv_swap|]. exists h2. split_and!; [done|done| | |].
  - eapply kept_chain_trans; [eapply kept_sub; [|exact K1]; intros r Hr; by right|]. eapply kept_chain_trans; [eapply kept_sub; [|exact K2]; intros r Hr; right; by right|].
    eapply kept_chain_trans; [eapply kept_sub; [|exact K3]; intros r Hr; right; by right|]. eapply kept_chain_trans; [eapply kept_sub; [|exact K4]; intros r Hr; by right|].
    apply sa_kept. intros r l i Hr. eapply (sole_avoids (t :: own) [] s4 h2 B4 D1 r). by right.
  - exists ([h2] ++ lt). split; [done|]. rewrite (map_ext _ _ (part_next s4 h2 (Some t))), map_app, concat_app, Eh.
    rewrite (same_parts _ _ _ _ _ _ K4 ltac:(left) Hlt), Et. apply take_drop.
  - rewrite sa_at. cbn. lia.
Qed.
End comp.

(** ** Packets as byte strings *)

(** The operations, on the packets at the front of a list of packets. *)
Inductive cmd :=
  | Pick (i : nat) | Request (n : Z) | Share | Free | Cut (offset length : Z) | Delhead (offset : Z)
  | Append | Pack | PackIffLess (min_len : Z) | Align (size alignment : Z).

Section exec.
Context {W : Type} `{Clients W}.

Definition front (own : list Z) : BM W (Z * list Z) := match own with [] => fault | a :: l => mret (a, l) end.
Definition exec (c : cmd) (own : list Z) : BM W (list Z) :=
  match c with
  | Pick i => a ← deref (own !! i); mret (a :: delete i own)
  | Request n => p ← bf_memreq n; a ← deref p; mret (a :: own)
  | Share => '(a, l) ← front own; link_acc a;; mret (a :: a :: l)
  | Free => '(a, l) ← front own; bf_afree (Some a);; mret l
  | Cut offset length => '(a, l) ← front own; p ← bf_cut (Some a) offset length; h ← deref p; mret (h :: a :: l)
  | Delhead offset => '(a, l) ← front own; h ← bf_delhead a offset; mret (h :: l)
  | Append => '(a, l) ← front own; '(b, l) ← front l; p ← bf_append (Some a) (Some b); h ← deref p; mret (h :: l)
  | Pack => '(a, l) ← front own; p ← bf_pack (Some a); h ← deref p; mret (h :: l)
  | PackIffLess n => '(a, l) ← front own; p ← bf_packIffLess (Some a) n; h ← deref p; mret (h :: l)
  | Align size alignment => '(a, l) ← front own; p ← bf_align a size alignment; h ← deref p; mret (h :: l)
  end.
Fixpoint exec_all (cs : list cmd) (own : list Z) : BM W (list Z) :=
  match cs with [] => mret own | c :: cs => own ← exec c own; exec_all cs own end.
End exec.

(** What they do to the byte strings, and when. *)
Inductive spec : cmd → list (list Z) → list (list Z) → Prop :=
  | spec_pick i v vs : vs !! i = Some v → spec (Pick i) vs (v :: delete i vs)
  | spec_request n v vs : 0 < n < 2 ^ 16 → Z.of_nat (length v) = n → spec (Request n) vs (v :: vs)
  | spec_share v vs : spec Share (v :: vs) (v :: v :: vs)
  | spec_free v vs : spec Free (v :: vs) vs
  | spec_cut o n v vs : 0 ≤ o → 0 ≤ n → o + n ≤ Z.of_nat (length v) → spec (Cut o n) (v :: vs) (take (Z.to_nat n) (drop (Z.to_nat o) v) :: v :: vs)
  | spec_delhead o v vs : 0 ≤ o < Z.of_nat (length v) → spec (Delhead o) (v :: vs) (drop (Z.to_nat o) v :: vs)
  | spec_append v w vs : spec Append (v :: w :: vs) ((v ++ w) :: vs)
  | spec_pack v vs : v ≠ [] → spec Pack (v :: vs) (v :: vs)
  | spec_less n v vs : v ≠ [] → n ≤ Z.min (Z.of_nat (length v)) BUF_S → spec (PackIffLess n) (v :: vs) (v :: vs)
  | spec_align size al v vs : v ≠ [] → 0 < size ≤ BUF_S → spec (Align size al) (v :: vs) (v :: vs).
Inductive specs : list cmd → list (list Z) → list (list Z) → Prop :=
  | specs_nil vs : specs [] vs vs
  | specs_cons c cs vs vs1 vs2 : spec c vs vs1 → specs cs vs1 vs2 → specs (c :: cs) vs vs2.
(** Every operation of a program is defined where it is reached. *)
Fixpoint safe (cs : list cmd) (vs : list (list Z)) : Prop :=
  match cs with [] => True | c :: cs => (∃ vs', spec c vs vs') ∧ ∀ vs', spec c vs vs' → safe cs vs' end.

Section sim.
Context {W : Type} `{ClientLaws W}.
Implicit Types (s : bfst W) (own : list Z) (vs : list (list Z)).
Abbreviation binv := (binv held).

Definition shows s (a : Z) (v : list Z) : Prop := cont [] s (Some a) v.
(** The references [own] are to packets with the contents [vs]. *)
Definition packets own vs s : Prop := binv own [] s ∧ Forall2 (shows s) own vs.

Lemma shows_kept own' s s' own vs : kept own' [] s s' → (∀ r, r ∈ own → r ∈ own') → Forall2 (shows s) own vs → Forall2 (shows s') own vs.
Proof.
  intros Hk Hs Hf. induction Hf as [|a v own vs Hav Hf IH]; constructor; [|apply IH; intros r Hr; apply Hs; by right].
  eapply kept_cont; [exact Hk|apply Hs; left|done].
Qed.
(** The packet at the front is replaced. *)
Lemma packets_front own vs s s' h v : kept own [] s s' → Forall2 (shows s) own vs → binv (h :: own) [] s' → shows s' h v → packets (h :: own) (v :: vs) s'.
Proof. intros Hk Hf Hb Hv. split; [done|]. constructor; [done|]. by eapply shows_kept. Qed.
Lemma share_wp own vs s a v : packets (a :: own) (v :: vs) s → wpx out (link_acc a) (λ _ s', packets (a :: a :: own) (v :: v :: vs) s') s.
Proof.
  intros [Hb Hf]. pose proof (own_live _ _ _ _ a Hb ltac:(left)) as Ha. pose proof (live_range _ _ Ha) as Har. do 4 bufx_step.
  pose proof (shows_kept (a :: own) s _ (a :: own) (v :: vs) (count_kept _ _ _ a (acc_linkC (accessors s a) + 1)) ltac:(done) Hf) as Hf'.
  split; [by apply one_more|]. apply Forall2_cons in Hf' as Hf''. destruct Hf'' as [Hv _]. by constructor.
Qed.
Lemma packets_perm own own' vs vs' s : packets own vs s → own' ≡ₚ own → Forall2 (shows s) own' vs' → packets own' vs' s.
Proof. intros [Hb _] Hp Hf. split; [|done]. eapply binv_perm; [exact Hb|by symmetry]. Qed.

Lemma exec_wp c own vs s : packets own vs s → (∃ vs', spec c vs vs') → wpx out (exec c own) (λ own' s', ∃ vs', spec c vs vs' ∧ packets own' vs' s') s.
Proof.
  intros HP [vs' Hs]. pose proof HP as [Hb Hf]. destruct Hs as [i v vs Hi|n v vs Hn Hv|v vs|v vs|o n v vs Ho Hn Hl|o v vs Ho|v w vs|v vs Hv|n v vs Hv Hn|size al v vs Hv Hs]; cbn [exec].
  - destruct (Forall2_lookup_r _ _ _ _ _ Hf Hi) as (a & Ha & Hv). rewrite Ha. bufx_step. bufx_step. bufx_step. exists (v :: delete i vs). split; [by constructor|].
    eapply packets_perm; [exact HP|symmetry; by apply delete_Permutation|]. constructor; [done|]. by apply Forall2_delete.
  - bufx_step. eapply wpx_mono; [by apply bf_memreq_wp|]. cbn beta. intros p s1 (h & l & -> & B & U%untouched_kept & Hl & _ & Hsum & _). bufx_step. bufx_step. bufx_step.
    exists (concat (map (part s1) l) :: vs). split; [|by eapply packets_front; [..|exists l]]. constructor; [done|]. rewrite <- Hsum. eapply sum_parts; [exact B|].
    intros i Hi. eapply (all_live _ _ _ B h); [left|done|done].
  - inv Hf. cbn [front]. bufx_step. bufx_step. cbv beta iota. bufx_step. eapply wpx_mono; [by eapply share_wp|]. cbn beta. intros _ s1 P. bufx_step. eexists. split; [constructor|done].
  - inv Hf. cbn [front]. bufx_step. bufx_step. cbv beta iota. bufx_step. apply wp_wpx. eapply wp_mono; [apply afree_wp; [exact Hb|by intros t ?%elem_of_nil]|]. cbn beta.
    intros _ s1 (B & U%untouched_kept & _). bufx_step. eexists. split; [constructor|]. split; [done|]. by eapply shows_kept.
  - inv Hf. cbn [front]. bufx_step. bufx_step. cbv beta iota. bufx_step. eapply wpx_mono; [eapply bf_cut_wp; [exact Hb|left|done|done|done|done]|]. cbn beta.
    intros p s1 (h & -> & B & K & C). do 3 bufx_step. eexists. split; [by constructor|]. eapply packets_front; [exact K|by constructor|done|done].
  - inv Hf. cbn [front]. bufx_step. bufx_step. cbv beta iota. bufx_step. eapply wpx_mono; [by eapply bf_delhead_wp|]. cbn beta.
    intros h s1 (B & K & C). bufx_step. eexists. split; [by constructor|]. by eapply packets_front.
  - inv Hf. match goal with Hx : Forall2 _ _ (w :: vs) |- _ => inv Hx end. cbn [front]. do 2 bufx_step. cbv beta iota. bufx_step. cbn [front]. bufx_step. cbv beta iota. bufx_step.
    eapply wpx_mono; [by eapply bf_append_wp|]. cbn beta. intros p s1 (h & -> & B & K & C). do 3 bufx_step. eexists. split; [by constructor|]. by eapply packets_front.
  - inv Hf. cbn [front]. bufx_step. bufx_step. cbv beta iota. bufx_step. eapply wpx_mono; [by eapply bf_pack_wp|]. cbn beta.
    intros p s1 (h & -> & B & K & C & _). do 3 bufx_step. eexists. split; [by constructor|]. by eapply packets_front.
  - inv Hf. cbn [front]. bufx_step. bufx_step. cbv beta iota. bufx_step. eapply wpx_mono; [by eapply bf_packIffLess_wp|]. cbn beta.
    intros p s1 (h & -> & B & K & C & _). do 3 bufx_step. eexists. split; [by constructor|]. by eapply packets_front.
  - inv Hf. cbn [front]. bufx_step. bufx_step. cbv beta iota. bufx_step. eapply wpx_mono; [by eapply bf_align_wp|]. cbn beta.
    intros p s1 (h & -> & B & K & C & _). do 3 bufx_step. eexists. split; [by constructor|]. by eapply packets_front.
Qed.
Lemma exec_all_wp cs own vs s : packets own vs s → safe cs vs → wpx out (exec_all cs own) (λ own' s', ∃ vs', specs cs vs vs' ∧ packets own' vs' s') s.
Proof.
  revert own vs s. induction cs as [|c cs IH]; intros own vs s HP Hs; cbn [exec_all]; [bufx_step; exists vs; split; [constructor|done]|].
  destruct Hs as [Hs1 Hs2]. bufx_step. eapply wpx_mono; [by eapply exec_wp|]. cbn beta. intros own1 s1 (vs1 & Hsp & HP1).
  eapply wpx_mono; [apply (IH own1 vs1 s1 HP1), Hs2, Hsp|]. cbn beta. intros own2 s2 (vs2 & Hsp2 & HP2). exists vs2. split; [by econstructor|done].
Qed.

(** *** Nothing is lost *)

Lemma live_longer s : binv [] [] s → held (clients s) = [] → (∃ i, live s i) → ∀ n, ∃ i l, live s i ∧ chain (nx [] s) (Some i) l ∧ (n ≤ length l)%nat.
Proof.
  intros Hb Hh [i0 Hi0] n. induction n as [|n (i & l & Hi & Hl & Hn)]; [destruct (i_chain _ _ _ _ Hb i0 Hi0) as [l Hl]; exists i0, l; split_and!; [done|done|lia]|].
  pose proof (i_link _ _ _ _ Hb i (live_range _ _ Hi)) as E. unfold roots in E. rewrite Hh in E. cbn in E. destruct Hi as [Hir Hip].
  assert (Hr : 0 < refs [] s i) by lia. destruct (cnt_ex ACC_NR _ Hr) as (j & Hj & [Hlj Hnj]%andb_true_iff). apply bool_decide_eq_true in Hnj.
  exists j, (j :: l). split; [split; [done|lia]|]. split; [split; [done|by rewrite Hnj]|cbn; lia].
Qed.
Lemma all_free s : binv [] [] s → held (clients s) = [] → (∀ i, 0 ≤ i < ACC_NR → acc_linkC (accessors s i) = 0) ∧ (∀ b, 0 ≤ b < BUF512_NR → buf_linkC (buffers512 s b) = 0).
Proof.
  intros Hb Hh. assert (Hd : ∀ i, 0 ≤ i < ACC_NR → acc_linkC (accessors s i) = 0).
  { intros i Hi. destruct (decide (acc_linkC (accessors s i) = 0)) as [|Hne]; [done|]. pose proof (linkC_nonneg _ _ _ _ _ Hb Hi).
    destruct (live_longer s Hb Hh ltac:(exists i; split; [done|lia]) acc_fuel) as (j & l & Hj & Hl & Hn).
    destruct (chain_fuel [] s (Some j) l Hb) as (_ & _ & Hf & _); [by intros ? [= <-]|done|]. lia. }
  split; [done|]. intros b Hbr. destruct (i_buf _ _ _ _ Hb b Hbr) as (-> & _). unfold uses. rewrite <- (cnt_none ACC_NR). apply cnt_ext. intros j Hj. by rewrite Hd.
Qed.
End sim.

(** ** The start of the buffers *)

Lemma rev_seqZ_S k : 0 ≤ k → rev (seqZ 0 (k + 1)) = k :: rev (seqZ 0 k).
Proof. intros Hk. rewrite seqZ_app, rev_app_distr by lia. by rewrite Z.add_0_l. Qed.
Lemma seqZ_first a n : 0 < n → seqZ a n = a :: seqZ (a + 1) (n - 1).
Proof. intros Hn. rewrite seqZ_cons by lia. done. Qed.
Lemma wp_of_wpx {S A} (m : M S A) Q (s : S) : wpx (λ _, False) m Q s → wp m Q s.
Proof. unfold wpx, wp. by destruct (m s). Qed.
Lemma wp_wpx' {S A} (m : M S A) Q (s : S) : wp m Q s → wpx (λ _, False) m Q s.
Proof. apply wp_wpx. Qed.
(** A loop over [0..n-1]. *)
Lemma wp_fold_seqZ {S} (I : Z → S → Prop) (f : Z → M S unit) n (s : S) : 0 ≤ n →
  (∀ k s, I k s → 0 ≤ k < n → wp (f k) (λ _ s', I (k + 1) s') s) → I 0 s → wp (fold_m (λ _ i, f i) tt (seqZ 0 n)) (λ _ s', I n s') s.
Proof.
  intros Hn Hf H0. apply wp_of_wpx. eapply wpx_mono; [apply (wpx_fold _ (λ l _ s', ∃ k, l = seqZ k (n - k) ∧ 0 ≤ k ≤ n ∧ I k s'))|].
  - intros _ x l s1 (k & El & Hk & HI). destruct (decide (k = n)) as [->|Hne]; [by rewrite Z.sub_diag in El|]. rewrite seqZ_first in El by lia. injection El as -> ->.
    apply wp_wpx'. eapply wp_mono; [apply Hf; [done|lia]|]. cbn beta. intros _ s2 HI2. exists (k + 1). split; [f_equal; lia|]. split; [lia|done].
  - exists 0. rewrite Z.sub_0_r. split; [done|]. split; [lia|done].
  - cbn beta. intros _ s1 (k & El & Hk & HI). destruct (decide (k = n)) as [->|Hne]; [done|]. by rewrite seqZ_first in El by lia.
Qed.

Section init.
Context {W : Type} `{Clients W}.
Implicit Types (s : bfst W).

Definition anx s : Z → option Z := λ i, acc_next (accessors s i).
(** After [k] rounds of the first loop, and of the second. *)
Definition init_accs (c : W) (k : Z) s : Prop :=
  0 ≤ k ≤ ACC_NR ∧ chain (anx s) (acc_freelist s) (rev (seqZ 0 k)) ∧ (∀ i, 0 ≤ i < k → acc_linkC (accessors s i) = 0) ∧
  bf_buf_gran s = BUF_S ∧ clients s = c ∧ ∀ j, freereq s j = None.
Definition init_bufs (c : W) (k : Z) s : Prop :=
  0 ≤ k ≤ BUF512_NR ∧ chain (anx s) (acc_freelist s) (rev (seqZ 0 (ACC_NR - k))) ∧ chain (anx s) (buf512_freelist s) (seqZ (ACC_NR - k) k) ∧
  (∀ i, 0 ≤ i < ACC_NR → acc_linkC (accessors s i) = 0) ∧
  (∀ i, 0 ≤ i < k → acc_buffer (accessors s (ACC_NR - 1 - i)) = Some i) ∧ (∀ b, 0 ≤ b < k → buffers512 s b = Buf_t 0 BUF_S (replicate (Z.to_nat BUF_S) 0)) ∧
  bf_buf_gran s = BUF_S ∧ clients s = c ∧ ∀ j, freereq s j = None.

Lemma init_acc_step c k s : init_accs c k s → k < ACC_NR →
  wp (l ← gets acc_freelist; set_acc k (Acc_t 0 0 0 None l None);; modify (λ s, s <| acc_freelist := Some k |>)) (λ _ s', init_accs c (k + 1) s') s.
Proof.
  intros (Hk & Hl & H0 & Hg & Hc & Hf) Hlt. buf_step. wp_step. buf_step. buf_step; [lia|]. wp_step. split; [lia|]. split.
  - rewrite rev_seqZ_S by lia. cbn. split; [done|]. unfold anx. cbn. rewrite fn_lookup_insert. cbn. eapply lseg_ext; [|exact Hl]. intros i Hi. unfold anx. cbn.
    rewrite fn_lookup_insert_ne; [done|]. intros ->. apply list_elem_of_In, in_rev, list_elem_of_In, elem_of_seqZ in Hi. lia.
  - split_and!; try done. intros i Hi. cbn. destruct (decide (i = k)) as [->|]; [by rewrite fn_lookup_insert|]. rewrite fn_lookup_insert_ne by done. apply H0. lia.
Qed.
Lemma init_buf_step c k s : init_bufs c k s → k < BUF512_NR →
  wp (p ← gets acc_freelist;
      match p with
      | None => panic "fewer accessors than buffers" 0
      | Some a =>
          x ← get_acc a;
          set_buf k (Buf_t 0 BUF_S (replicate (Z.to_nat BUF_S) 0));;
          l ← gets buf512_freelist;
          set_acc a (x <| acc_linkC := 0 |> <| acc_buffer := Some k |> <| acc_next := l |>);;
          modify (λ s, s <| acc_freelist := acc_next x |> <| buf512_freelist := Some a |>)
      end) (λ _ s', init_bufs c (k + 1) s') s.
Proof.
  intros (Hk & Hl & Hlb & H0 & Hb & Hd & Hg & Hc & Hf) Hlt. set (a := ACC_NR - 1 - k). unfold ACC_NR, BUF512_NR in *.
  replace (48 - k) with (a + 1) in Hl, Hlb by lia. rewrite rev_seqZ_S in Hl by lia. destruct Hl as [Ea Hl]. wp_step. wp_step. rewrite Ea.
  assert (Har : 0 ≤ a < ACC_NR) by (unfold ACC_NR; lia). do 4 buf_step; [unfold BUF512_NR; lia|]. do 5 buf_step.
  split; [unfold BUF512_NR; lia|]. split; [|split; [|split; [|split; [|split]]]]; try done; unfold ACC_NR; cbn.
  - replace (48 - (k + 1)) with a by lia. eapply lseg_ext; [|exact Hl]. intros i Hi. unfold anx. cbn. rewrite fn_lookup_insert_ne; [done|].
    intros ->. apply list_elem_of_In, in_rev, list_elem_of_In, elem_of_seqZ in Hi. lia.
  - replace (48 - (k + 1)) with a by lia. rewrite (seqZ_first a (k + 1)) by lia. replace (k + 1 - 1) with k by lia. split; [done|]. unfold anx. cbn. rewrite fn_lookup_insert. cbn.
    eapply lseg_ext; [|exact Hlb]. intros i Hi. unfold anx. cbn. rewrite fn_lookup_insert_ne; [done|]. intros ->. apply elem_of_seqZ in Hi. lia.
  - intros i Hi. destruct (decide (i = a)) as [->|]; [by rewrite fn_lookup_insert|]. rewrite fn_lookup_insert_ne by done. by apply H0.
  - intros i Hi. destruct (decide (i = k)) as [->|]; [fold a; by rewrite fn_lookup_insert|]. rewrite fn_lookup_insert_ne by lia. apply Hb. lia.
  - intros i Hi. destruct (decide (i = k)) as [->|]; [by rewrite fn_lookup_insert|]. rewrite fn_lookup_insert_ne by done. apply Hd. lia.
Qed.

Lemma bf_init_run s : wp bf_init (λ _ s', init_bufs (clients s) BUF512_NR s') s.
Proof.
  unfold bf_init. wp_step. wp_step. wp_step.
  eapply wp_mono; [apply (wp_fold_seqZ (init_accs (clients s)) (λ i, l ← gets acc_freelist; set_acc i (Acc_t 0 0 0 None l None);; modify (λ s, s <| acc_freelist := Some i |>)) ACC_NR); [done| |]|].
  - intros k s1 HI Hk. apply init_acc_step; [done|lia].
  - split_and!; try done. lia.
  - cbn beta. intros _ s1 (_ & Hl & H0 & Hg & Hc & Hf). wp_step. wp_step.
    apply (wp_fold_seqZ (init_bufs (clients s)) (λ i, p ← gets acc_freelist;
      match p with
      | None => panic "fewer accessors than buffers" 0
      | Some a =>
          x ← get_acc a;
          set_buf i (Buf_t 0 BUF_S (replicate (Z.to_nat BUF_S) 0));;
          l ← gets buf512_freelist;
          set_acc a (x <| acc_linkC := 0 |> <| acc_buffer := Some i |> <| acc_next := l |>);;
          modify (λ s, s <| acc_freelist := acc_next x |> <| buf512_freelist := Some a |>)
      end) BUF512_NR); [done| |].
    + intros k s2 HI Hk. apply init_buf_step; [done|lia].
    + split_and!; try done; try lia.
Qed.
End init.

Section start.
Context {W : Type} `{Clients W} (held : W → list Z).
Implicit Types (s : bfst W).

Lemma elem_of_rev_seqZ i n : i ∈ rev (seqZ 0 n) ↔ 0 ≤ i < n.
Proof. rewrite list_elem_of_In, <- in_rev, <- list_elem_of_In, elem_of_seqZ. lia. Qed.
Lemma init_free c s : init_bufs c BUF512_NR s → free_lists s (rev (seqZ 0 16)) (seqZ 16 32) (rev (seqZ 0 32)).
Proof.
  intros (_ & Hl & Hlb & H0 & Hb & Hd & _). split.
  - exact Hl.
  - exact Hlb.
  - apply NoDup_app. split_and!.
    + apply NoDup_ListNoDup, NoDup_rev, NoDup_ListNoDup, NoDup_seqZ.
    + intros i Hi%elem_of_rev_seqZ Hi2%elem_of_seqZ. lia.
    + apply NoDup_seqZ.
  - intros i. rewrite elem_of_app, elem_of_rev_seqZ, elem_of_seqZ. unfold ACC_NR in *. split; [|lia]. intros Hi. split; [lia|]. apply H0. lia.
  - apply list_eq_Forall2. rewrite Forall2_fmap_l, Forall2_fmap_r. change (rev (seqZ 0 32)) with (map (λ i, 47 - i) (seqZ 16 32)). apply Forall2_fmap_r, Forall_Forall2_diag, Forall_forall.
    intros i Hi%elem_of_seqZ. specialize (Hb (47 - i) ltac:(unfold BUF512_NR; lia)). unfold ACC_NR in Hb. by replace (48 - 1 - (47 - i)) with i in Hb by lia.
  - apply NoDup_ListNoDup, NoDup_rev, NoDup_ListNoDup, NoDup_seqZ.
  - intros b. rewrite elem_of_rev_seqZ. unfold BUF512_NR in *. split; [intros Hbr; split; [done|by rewrite Hd]|tauto].
Qed.
(** After [bf_init] nothing is in use. *)
Lemma init_binv c s : init_bufs c BUF512_NR s → held c = [] → binv held [] [] s.
Proof.
  intros HI Hh. pose proof HI as (_ & _ & _ & H0 & _ & Hd & Hg & Hc & _). assert (Hr : roots held [] s = []) by (unfold roots; by rewrite Hc).
  assert (Hn : ∀ i, ¬ live s i) by (intros i [Hi Hp]; rewrite H0 in Hp by done; lia). split; try (intros i Hi; by destruct (Hn i)).
  - by rewrite Hr.
  - intros i Hi. rewrite H0, Hr by done. cbn. unfold refs. rewrite <- (cnt_none ACC_NR). apply cnt_ext. intros j Hj. by rewrite H0.
  - intros i n Hi. by destruct (Hn i).
  - intros b Hb. rewrite Hd by done. cbn. split_and!; [|done|by rewrite length_replicate]. unfold uses. rewrite <- (cnt_none ACC_NR). apply cnt_ext. intros j Hj. by rewrite H0.
  - exists (rev (seqZ 0 16)), (seqZ 16 32), (rev (seqZ 0 32)). by eapply init_free.
  - by intros t ?%elem_of_nil.
  - done.
Qed.
Lemma bf_init_wp s : held (clients s) = [] → wp bf_init (λ _ s', binv held [] [] s' ∧ clients s' = clients s ∧ ∀ j, freereq s' j = None) s.
Proof.
  intros Hh. eapply wp_mono; [apply bf_init_run|]. cbn beta. intros _ s' HI. split; [by eapply init_binv|]. destruct HI as (_ & _ & _ & _ & _ & _ & _ & ? & ?). done.
Qed.
(** A client takes the first entry that is not used. *)
Lemma bf_logon_wp f own s : binv held own [] s → wpx (λ w, w = "buf.c: to many clients"%string ∧ ∀ i, 0 ≤ i < CLIENT_NR → freereq s i ≠ None) (bf_logon f) (λ _ s', binv held own [] s' ∧
  ∃ i, 0 ≤ i < CLIENT_NR ∧ freereq s i = None ∧ (∀ j, 0 ≤ j < i → freereq s j ≠ None) ∧ ∀ j, freereq s' j = if decide (j = i) then Some f else freereq s j) s.
Proof.
  intros Hb. set (E := λ w : string, _). set (R := λ (_ : unit) s', _). unfold bf_logon. bufx_step.
  assert (Hl : ∀ n k, n = Z.to_nat (CLIENT_NR - k) → 0 ≤ k ≤ CLIENT_NR → (∀ j, 0 ≤ j < k → freereq s j ≠ None) → wpx E (for_each (seqZ k (CLIENT_NR - k)) (λ i,
        f' ← gets (λ s, freereq s i);
        match f' with
        | Some _ => mret None
        | None => modify (λ s, s <| freereq := <[i := Some f]> (freereq s) |>);; mret (Some tt)
        end)) (λ r s', match r with Some _ => R tt s' | None => s' = s ∧ ∀ j, 0 ≤ j < CLIENT_NR → freereq s j ≠ None end) s).
  { induction n as [|n IH]; intros k En Hk Hj.
    - replace k with CLIENT_NR in Hj |- * by lia. rewrite Z.sub_diag. by apply (wpx_ret E None).
    - rewrite seqZ_first by lia. unfold for_each; fold (@for_each (bfst W) unit). cbv beta. bufx_step. bufx_step. bufx_step. destruct (freereq s k) as [g|] eqn:Eg.
      + bufx_step. replace (CLIENT_NR - k - 1) with (CLIENT_NR - (k + 1)) by lia. apply IH; [lia|lia|]. intros j Hjr. destruct (decide (j = k)) as [->|]; [by rewrite Eg|apply Hj; lia].
      + do 4 bufx_step. split; [by eapply (binv_ext held own own [] [] s)|]. exists k. split; [lia|]. split; [done|]. split; [done|]. intros j. cbn.
        case_decide; [subst; by rewrite fn_lookup_insert|by rewrite fn_lookup_insert_ne]. }
  eapply wpx_mono; [apply (Hl (Z.to_nat CLIENT_NR) 0); [done|done|lia]|]. cbn beta. intros [[]|] s' HR; [cbv iota; by bufx_step|]. destruct HR as [-> Hn]. by apply wpx_panic.
Qed.
End start.

(** *** A client

    It has a list of packets, and gives the first one back when it is asked to. *)
Definition hoard_free (c pri : Z) : BM (list Z) unit :=
  l ← gets clients;
  match l with
  | [] => mret tt
  | a :: l => modify (λ s, s <| clients := l |>);; bf_afree (Some a)
  end.
#[export] Instance hoard : Clients (list Z) := {| client_free := hoard_free; data_addr b := 16 + 512 * b |}.
Lemma hoard_law c pri own st (s : bfst (list Z)) : binv (λ l, l) own st s →
  wpx out (hoard_free c pri) (λ _ s', binv (λ l, l) own st s' ∧ untouched own st s s' ∧ freed s s' ∧ freereq s' = freereq s) s.
Proof.
  intros Hb. unfold hoard_free. bufx_step. bufx_step. destruct (clients s) as [|a l] eqn:Ec.
  { bufx_step. split_and!; [done|apply untouched_refl|apply freed_refl|done]. }
  bufx_step. bufx_step. set (s1 := s <| clients := l |>).
  assert (B : binv (λ l, l) (a :: own) st s1).
  { assert (Hp : roots (λ l, l) own s ≡ₚ roots (λ l, l) (a :: own) s1) by (unfold roots; rewrite Ec; cbn; symmetry; apply Permutation_middle). destruct Hb. split; try done.
    - by rewrite <- Hp.
    - intros i Hi. rewrite <- (occ_perm _ _ _ Hp). by apply i_link.
    - destruct i_free as (la & lb & bl & F). exists la, lb, bl. destruct F. by split.
    - intros t Ht. destruct (i_stale t Ht) as (r & lr & Hr & Hx). exists r, lr. split; [by right|done]. }
  assert (Hst : ∀ t, t ∈ st → reached own st s1 t) by (intros t Ht; by apply (i_stale _ _ _ _ Hb)).
  eapply wp_wpx, wp_mono; [by apply (afree_wp (λ l, l) own st s1 (Some a))|]. cbn beta. intros _ s2 (B2 & U & F & _ & E). done.
Qed.
#[export] Instance hoard_laws : ClientLaws (list Z) := {| held := λ l : list Z, l; law_client := hoard_law |}.

(** ** What the buffers promise *)

Section props.
Context {W : Type} `{ClientLaws W}.
Implicit Types (s : bfst W) (own : list Z) (vs : list (list Z)).

(** C13: whatever sequence of operations its user runs, sharing, cutting and
    appending packets whose accessors and buffers are shared by reference counts,
    every packet that it has contains the bytes that the operations give on
    immutable strings: none is changed through another one.  The server stops only
    when no accessor or buffer can be freed. *)
Theorem buffers_refine cs own vs s : packets own vs s → safe cs vs →
  wpx out (exec_all cs own) (λ own' s', ∃ vs', specs cs vs vs' ∧ packets own' vs' s') s.
Proof. apply exec_all_wp. Qed.

(** C14: when the user has given all its packets back, and the clients have none,
    every accessor and every buffer is free: none is lost. *)
Theorem nothing_lost cs own vs s : packets own vs s → safe cs vs →
  wpx out (exec_all cs own) (λ own' s', own' = [] → held (clients s') = [] →
    (∀ i, 0 ≤ i < ACC_NR → acc_linkC (accessors s' i) = 0) ∧ (∀ b, 0 ≤ b < BUF512_NR → buf_linkC (buffers512 s' b) = 0)) s.
Proof. intros HP Hs. eapply wpx_mono; [by apply exec_all_wp|]. cbn beta. intros own' s' (vs' & _ & [Hb _]) ->. by apply all_free. Qed.

(** C26: a packet that is cut in two anywhere and appended again has its bytes, and
    the other packets are as they were. *)
Theorem cut_append own s a v n : binv held (a :: own) [] s → shows s a v → 0 ≤ n ≤ Z.of_nat (length v) →
  wpx out (head ← bf_cut (Some a) 0 n; tail ← bf_cut (Some a) n (Z.of_nat (length v) - n); bf_afree (Some a);; bf_append head tail)
    (λ p s', ∃ h, p = Some h ∧ binv held (h :: own) [] s' ∧ kept own [] s s' ∧ shows s' h v) s.
Proof.
  intros Hb Hv Hn. bufx_step. eapply wpx_mono; [apply (bf_cut_wp (a :: own) s a v 0 n); [done|left|done|lia..]|]. cbn beta. intros p s1 (h & -> & B1 & K1 & C1).
  bufx_step. eapply wpx_mono; [apply (bf_cut_wp (h :: a :: own) s1 a v n); [done|right; left|eapply kept_cont; [exact K1|left|done]|lia..]|]. cbn beta. intros p s2 (t & -> & B2 & K2 & C2).
  bufx_step. eapply wp_wpx, wp_mono; [apply (afree_wp held (t :: h :: own) [] s2 (Some a)); [|by intros i ?%elem_of_nil]|].
  { eapply binv_perm; [exact B2|]. symmetry. apply (Permutation_middle [t; h] own a). }
  cbn beta. intros _ s3 (B3 & K3%untouched_kept & _). eapply wpx_mono; [apply (bf_append_wp own s3 h t); [by apply binv_swap|..]|].
  - eapply kept_cont; [exact K3|right; left|]. eapply kept_cont; [exact K2|left|exact C1].
  - eapply kept_cont; [exact K3|left|exact C2].
  - cbn beta. intros p s4 (h2 & -> & B4 & K4 & C4). exists h2. split; [done|]. split; [done|]. split.
    + eapply kept_chain_trans; [eapply kept_sub; [|exact K1]; intros r Hr; by right|]. eapply kept_chain_trans; [eapply kept_sub; [|exact K2]; intros r Hr; right; by right|].
      eapply kept_chain_trans; [eapply kept_sub; [|exact K3]; intros r Hr; right; by right|exact K4].
    + unfold shows. change (drop (Z.to_nat 0) v) with v in C4. rewrite (take_ge (drop _ _)) in C4 by (rewrite length_drop; lia). by rewrite take_drop in C4.
Qed.

(** C27: a request for at most the bytes of the free buffers is granted: nobody is
    asked to free buffers, and the other packets are as they were. *)
Theorem request_granted n own vs s : packets own vs s → 0 < n < 2 ^ 16 → n ≤ BUF_S * avail s →
  wp (exec (Request n) own) (λ own' s', ∃ v, Z.of_nat (length v) = n ∧ packets own' (v :: vs) s') s.
Proof.
  intros [Hb Hf] Hn Ha. cbn [exec]. wp_step. eapply wp_mono; [by apply memreq_granted|]. cbn beta. intros p s1 (h & l & -> & B & U%untouched_kept & Hl & _ & Hsum & _).
  wp_step. eapply wp_deref; [reflexivity|]. wp_step. exists (concat (map (part s1) l)). split; [|by eapply packets_front; [..|exists l]].
  rewrite <- Hsum. eapply sum_parts; [exact B|]. intros i Hi. eapply (all_live _ _ _ B h); [left|done|done].
Qed.

(** A request for no bytes has no buffer to end. *)
Lemma memreq_nothing s : bf_memreq 0 s = Fault.
Proof. done. Qed.
End props.

(** *** The first state *)
Definition blank : bfst (list Z) :=
  Bfst (λ _, Acc_t 0 0 0 None None None) (λ _, Buf_t 0 0 []) None None (λ _, None) 0 0 [].
Definition run_state (m : BM (list Z) unit) (s : bfst (list Z)) : bfst (list Z) := match m s with Ret _ s' => s' | _ => s end.
Lemma run_state_wp m s (P : bfst (list Z) → Prop) : wp m (λ _ s', P s') s → P (run_state m s).
Proof. unfold run_state, wp. by destruct (m s). Qed.
Definition started : bfst (list Z) := run_state (bf_init;; bf_logon 0) blank.
Lemma started_binv : binv held [] [] started.
Proof.
  apply (run_state_wp _ _ (binv held [] [])).  wp_step. eapply wp_mono; [by apply (bf_init_wp held)|]. cbn beta. intros _ s1 (B & _ & Hf).
  apply wp_of_wpx. eapply (wpx_weaken _ (λ w, w = "buf.c: to many clients"%string ∧ ∀ i, 0 ≤ i < CLIENT_NR → freereq s1 i ≠ None)).
  - intros w [-> Hn]. by destruct (Hn 0).
  - eapply wpx_mono; [by apply (bf_logon_wp held)|]. by intros _ s2 [? _].
Qed.
Lemma started_packets : packets [] [] started.
Proof. split; [exact started_binv|constructor]. Qed.
Lemma run_state_wpx (m : BM (list Z) unit) s (P : bfst (list Z) → Prop) : wpx (λ _, True) m (λ _ s', P s') s → match m s with Ret _ _ => true | _ => false end = true → P (run_state m s).
Proof. unfold run_state, wpx. by destruct (m s). Qed.

(** A packet of five bytes, in the first free accessor. *)
Definition five : bfst (list Z) := run_state (own ← exec (Request 5) []; if bool_decide (own = [16]) then mret tt else panic "other accessor" 0) started.
Lemma five_packets : ∃ v, packets [16] [v] five.
Proof.
  apply (run_state_wpx _ _ (λ s, ∃ v, packets [16] [v] s)); [|by vm_compute]. bufx_step. eapply (wpx_weaken _ out); [done|]. eapply wpx_mono.
  { apply exec_wp; [exact started_packets|]. exists [replicate 5 0]. by constructor. }
  cbn beta. intros own s (vs & Hs & HP). inv Hs. bufx_step; [|by apply wpx_panic]. apply bool_decide_eq_true in E as ->. bufx_step. by eexists.
Qed.
Lemma five_shows : shows five 16 (replicate 5 0).
Proof.
  destruct five_packets as (v & _ & Hf). apply Forall2_cons in Hf as [(l & Hl & _) _]. exists [16]. split; [split; [done|]|by vm_compute].
  rewrite nx_plain by apply not_elem_of_nil. by vm_compute.
Qed.
Lemma five_binv : binv held [16] [] five.
Proof. by destruct five_packets as (v & Hb & _). Qed.

(** A program: a packet is shared, one of the two loses its head, both are joined and
    aligned. *)
Definition program : list cmd := [Request 600; Share; Delhead 100; Append; Align 20 4; Free].
Lemma program_safe : safe program [].
Proof.
  cbn [program safe]. split; [exists [replicate (Z.to_nat 600) 0]; constructor; [lia|by rewrite length_replicate, Z2Nat.id]|].
  intros vs1 Hs1. inv Hs1. rename v into v0. split; [eexists; constructor|]. intros vs2 Hs2. inv Hs2.
  split; [eexists; constructor; lia|]. intros vs3 Hs3. inv Hs3. split; [eexists; constructor|]. intros vs4 Hs4. inv Hs4.
  assert (Hne : drop (Z.to_nat 100) v0 ++ v0 ≠ []) by (intros [_ ->]%app_eq_nil; by cbn in *).
  split; [eexists; constructor; [done|unfold BUF_S; lia]|]. intros vs5 Hs5. inv Hs5. split; [eexists; constructor|]. done.
Qed.

Lemma buffers_refine_witness : packets [] [] started ∧ safe program [] ∧
  wpx out (exec_all program []) (λ own' s', ∃ vs', specs program [] vs' ∧ packets own' vs' s') started.
Proof. split; [exact started_packets|]. split; [exact program_safe|]. apply buffers_refine; [exact started_packets|exact program_safe]. Defined.
Lemma nothing_lost_witness : packets [] [] started ∧ safe program [] ∧
  wpx out (exec_all program []) (λ own' s', own' = [] → held (clients s') = [] →
    (∀ i, 0 ≤ i < ACC_NR → acc_linkC (accessors s' i) = 0) ∧ (∀ b, 0 ≤ b < BUF512_NR → buf_linkC (buffers512 s' b) = 0)) started.
Proof. split; [exact started_packets|]. split; [exact program_safe|]. apply (nothing_lost program [] []); [exact started_packets|exact program_safe]. Defined.
Lemma cut_append_witness : binv held [16] [] five ∧ shows five 16 (replicate 5 0) ∧
  wpx out (head ← bf_cut (Some 16) 0 2; tail ← bf_cut (Some 16) 2 (5 - 2); bf_afree (Some 16);; bf_append head tail)
    (λ p s', ∃ h, p = Some h ∧ binv held (h :: []) [] s' ∧ kept [] [] five s' ∧ shows s' h (replicate 5 0)) five.
Proof. split; [exact five_binv|]. split; [exact five_shows|]. apply (cut_append [] five 16 (replicate 5 0) 2); [exact five_binv|exact five_shows|cbn; lia]. Defined.
Lemma request_granted_witness : packets [] [] started ∧ 600 ≤ BUF_S * avail started ∧
  wp (exec (Request 600) []) (λ own' s', ∃ v, Z.of_nat (length v) = 600 ∧ packets own' (v :: []) s') started.
Proof. assert (Ha : 600 ≤ BUF_S * avail started) by (vm_compute; discriminate). split; [exact started_packets|]. split; [exact Ha|]. apply request_granted; [exact started_packets|lia|exact Ha]. Defined.

(** The operations run: what is left of the program, and the contents before it is
    given back. *)
Example program_runs : match exec_all program [] started with Ret own _ => bool_decide (own = []) | _ => false end = true.
Proof. by vm_compute. Qed.
(** A packet in one private accessor of at most [size] bytes stays where it is, aligned or not. *)
Example align_stays : match exec_all [Request 8; Delhead 1; Align 7 4] [] started with Ret [a] s => aligned (accessors s a) 7 4 | _ => true end = false.
Proof. by vm_compute. Qed.
